(* ===== verification/_CoqProject ===== *)
-Q . S2P
Prelude.v
XXHash.v
Bytes.v
StMonad.v
Csum.v
Table.v
MallocChecker.v
MallocCheckerSpec.v
MallocCheckerCalls.v
PageChecker.v
DioPages.v
Dio.v
DioInv.v
DioOps.v
DioEvict.v
DioSpec.v
DioClient.v
NetPkt.v
Upages.v
Sock.v
GF.v
Mem.v
Random.v
Nk8.v
Nk8Inv.v
Nk8Spec.v
CharHex.v
Sha256.v
Sha256Spec.v
ObjId.v
Super.v
BtreeNode.v
BtreeNodeSpec.v
BtreeDisk.v
BlockTree.v
Btree.v
BtreeRep.v
BtreeMem.v
BtreeInsert.v
BtreeGrow.v
BtreeSpec.v
Balloc.v
BtreeStore.v
Inode.v
InodeSpec.v
InodeOps.v
InodeIo.v
InodeFile.v
InodeLife.v
InodeClaims.v
InodePages.v
SbList.v
SbObjects.v
SbListSpec.v
SbFormat.v
Route.v
RouteSpec.v
RouteOps.v
RouteAsk.v
RouteHost.v
Servers.v
Net.v
NetSpec.v
Client.v
ClientTool.v
ClientSpec.v
NetClaims.v
SbListObjects.v
ClientObjects.v
ClientToolSpec.v
Dev.v
Ctl.v
DevSpec.v
CtlSpec.v
BtreeImage.v
BtreeDelete.v
BtreeDemo.v
SbDemo.v
RouteDemo.v
CheckerDemo.v
