(* ===== verification/Prelude.v ===== *)
(** * NKFS: a verification development for the distributed object store

    NKFS (the repository calls itself ddfs as well) is a kernel module, a client
    library and two command line tools.  A host serves objects, byte arrays named
    by 128-bit ids, that are kept on block devices; clients reach them over TCP;
    hosts find one another by handshakes and heartbeats.

    ** The program and its model

    From the bottom up, with the file of the development that models each part.
    Definitions have the names of the C functions; a loop that is part of a
    function is a definition of its own beside it.

    - Runtime (src/crt).  XXHash: [XXH64] and [XXH32], one-shot and streaming
      (xxhash.c).
      Csum: the checksum contexts (csum.c), with the interface [Checksum] that the
      rest is proved against.  Random: random numbers below a bound (random.c).
      CharHex: hexadecimal text (char2hex.c).  Sha256: SHA-256 (sha256.c).  ObjId:
      object ids (obj_id.c).
      GF, Nk8: the field of 256 elements, matrices over it and the N-K erasure
      code (nk8.c).  NetPkt: packets, signs and checks (net_pkt.c).
      MallocChecker, PageChecker: the wrappers of the kernel's allocator and of its
      page allocator that find leaks and overruns (kernel/malloc_checker.c,
      kernel/page_checker.c, malloc.c, page_alloc.c), over the hash tables of Table.
    - Block cache (src/core/dio.c).  DioPages: buffers of pages.  Dio: clusters,
      their counts, requests, the tree of clusters, ageing, eviction, life of a
      device.
    - Block allocator (src/core/balloc.c).  Balloc: the bitmap and its locks.
    - B-tree (src/core/btree.c).  BtreeNode: nodes in memory.  BtreeDisk: their
      layout on disk.  Btree: the node cache with its references, search, insertion
      with splits, deletion with rebalancing, creation and release of a tree.
    - Inodes (src/core/inode.c).  Inode: objects, the index of inodes, blocks with
      their checksums, input and output by buffers and by pages.
    - Superblocks (src/core/super.c).  Super: the image header.  SbFormat: format
      and load.  SbList: the list of superblocks and the operations on objects.
    - Devices (src/core/dev.c).  Dev: the list of devices, adding and removing.
    - Routing (src/core/route.c).  Route: hosts, neighbours, identities, both sides
      of handshake and heartbeat, the work queue and the timer.
    - Network (src/core/net.c, ksocket.c, upages.c; src/client/lib/client.c).
      Sock: reading and writing whole buffers.  Upages: arrays of pages.  Servers:
      the list of servers.  Net: connections, their requests, the loop of a
      connection thread.  Client: the six requests of the client library.
    - Programs (src/client/main.c, src/core/module.c, src/ctl).  ClientTool: the
      command line client, its connection, its files and the loops that copy
      between a file and an object.  Ctl: the control device of the module, start
      and end of the module, the control library and the control program.

    The parts meet at interfaces.  [Checksum] (Csum) is what a checksum promises;
    [BlockAlloc] (Btree) what the tree asks of the allocator; [BlockTree]
    (BlockTree) and [ImageStore] (SbFormat) what inodes and superblocks ask of
    trees and of the allocator; [cache] (DioClient) what they see of the cluster
    cache; [ObjStore] (Net) what a connection asks of the list of superblocks.
    BtreeStore and BtreeImage give the trees and the allocator as [BlockTree] and
    [ImageStore], for any node geometry and layout on disk and, as [nkfs_store] and
    [nkfs_image], for those of include/nkfs_image.h; Net gives the list of
    superblocks as [ObjStore].  The theorems on files, superblocks and clients are
    applied at [nkfs_store] in BtreeDemo (InodeDemo), SbDemo (ImageDemo, ObjDemo)
    and RouteDemo (EndDemo), on a device of blocks of 64 KB: it is formatted, a
    client creates an object over the network, writes to it and reads it back, with
    the same code at every level.

    ** State, errors, fuel

    Integers are [Z] at their C width, with [wrap] or [u32], [u64], [s32] written
    where C converts.  Bytes are coqutil's [byte].  Memory is a map from pointers to
    objects, so that a dangling or double use is visible: it is [Crash], as is
    [NKFS_BUG_ON].  Waiting for what nobody will do is [Hang].  A failing
    allocation, read, write or peer is an oracle in the state, a function of the
    number of the call, so a theorem over all states covers all patterns of
    failures; where a theorem asks that nothing fails, its hypothesis says so.
    StMonad has the monad of such calls and the rules of [spec] (total
    correctness: the call returns, and with what), [ends] (a call may also fail
    but not run out of fuel) and [fueled].  Random and Nk8 use [outcome] and the
    allocator of Mem.

    Loops that are not structural take fuel; a run out of fuel is [NoFuel], which
    no theorem accepts as an end.  Fuel is computed where the loop starts from
    what bounds it: the length of a buffer (each turn of a read or send loop moves
    a byte at least), the number of blocks of a transfer, the number of clusters
    of a walk, twice the height of a tree.  The theorems on trees take the fuel as
    an argument and bound it from below by the height.

    ** What is shown

    - Memory.  MallocCheckerCalls: the checked allocator is a heap and damage to a
      block stops the machine.  PageChecker: pages, and the end of both checkers.
    - Containers are maps.  BtreeSpec: when writes succeed, insertion is that of a
      finite map, splits and growth included; an allocation or read that fails on
      the way is the only reason for an error and leaves the map as it was.  Lookup
      is that of the map when no allocation and no read fails.  BtreeDelete: so is
      deletion, of keys in leaves, when also no write fails and the nodes on the way
      have keys to spare.  A tree whose root reads back reopens as the same map.
      SbListSpec: the
      operations on objects are those of one map over all superblocks.  SbObjects,
      SbListObjects: an object of that map is a byte array, and creating, writing
      and reading it change that array and no other object.
    - Data come back, on devices and links that do not fail and for files of at
      most [t_safe] blocks (below).  DioSpec: clients of the cache see one flat
      array, with eviction at any moment, and release brings every byte to disk.
      InodeClaims:
      reads and writes of a file are those of a byte array, by buffer and by
      pages; what was written is read; a closed file reopens.  SbFormat: a
      formatted device opens, with what was synced.  Nk8Spec: any [k] parts of a
      block with distinct ids give it back.  BtreeDisk: which nodes survive the
      disk.  NetClaims: a request over the network has the result and the effect
      of the call at the host.  ClientObjects: from the call of the client library
      through the network down to the blocks and back, an object read is the object
      written.  ClientToolSpec: a file put by the client program and got by it again
      is the same file.
    - The control device.  CtlSpec: each call of the control library has the result
      and the effect of the function of the module it asks for; the module starts
      with all its parts or with none.
    - Equivalence with a reference: XXHash (streaming and one-shot hash), Sha256Spec
      (the code is the function of FIPS 180-4), GF (the tables are the field of 256
      elements), DioPages, Sock.
    - Invariants of state: Balloc (the number of used blocks is the number of set
      bits), DioInv, BtreeMem, InodeSpec, DevSpec and RouteSpec (lists, trees,
      counters and references keep step through calls in any order; RouteHost says
      which call of a host is restricted and which two may stop the machine),
      MallocCheckerSpec and PageChecker.
    - Termination: every specification proved by [spec]; Sock for the loops that
      depend on the kernel's pieces; Random for the retry loop.
    - Errors: each operation's error results are part of its theorem; where the
      code stops the machine, hangs or loses data, a theorem or an example says
      when (BtreeDemo, DioSpec, InodeClaims, DevSpec, RouteHost, NetClaims,
      MallocCheckerCalls, ClientToolSpec, CtlSpec).

    Files whose name ends in Spec, Ops, Inv, Io, File, Pages, Life, Ask, Calls, Host,
    Mem, Rep, Grow, Evict, Insert, Objects hold the lemmas of their component; Claims its theorems where
    they have a file of their own; Demo the executable examples and the states at
    which theorems are applied.

    ** What is assumed and what is left out

    - Calls run one at a time.  Locks appear where a call can block itself or leave
      them taken (the allocator's and the inode's); the interleaving of threads,
      starting and stopping of threads, and several connections of one host at
      once are not modelled.
    - A tree that serves an inode or a superblock has one node here ([BlockTree],
      at most [t_cap] keys); a tree with inner nodes is verified by itself
      (BtreeSpec, BtreeDelete).  A root can be read again when it has at most
      [t_safe] keys: in the layout of include/nkfs_image.h the key slots from 1024
      on share their place with the child slots (BtreeDisk), so [t_safe] is 1024
      for [nkfs_store], and a file of more blocks, or a superblock of more objects,
      is lost when it is closed.  The theorems that open an inode or a superblock
      ask for at most [t_safe] keys.
    - The disk of trees is kept apart from the clusters of the cache: a node is
      written and read as a whole.  A node that does not come back from its place on
      disk is taken to fail its 64-bit checksum; a collision is left out.
    - The kernel: opening of block devices, sockets but for the two loops,
      get_user_pages, jiffies and the random source are arguments.  The red-black
      and radix trees of the kernel are maps.
    - Assertions on constants of the build, or on the signature of a tree object
      that is in memory, are left out (Btree, SbList); a cluster has the size of the
      superblock's blocks (Balloc); a block device that is opened again is given its
      content by the caller (Dev).
    - Not modelled: logging and error texts, wrappers of kernel and libc calls, the
      self tests, gf_tables_save.

    ** Plan

    Done in this order: runtime, erasure code, B-tree, allocator, cluster cache,
    inodes, superblocks, devices, routing, network, client library, memory
    checkers, SHA-256, objects end to end, the programs and the control device.
    Left: trees of several nodes under inodes and superblocks over the cluster
    cache, and connection threads that interleave. *)

From Stdlib Require Import ZArith Lia.
From coqutil Require Import Byte Word.LittleEndianList.
From stdpp Require Import base list gmap.

#[global] Open Scope Z_scope.

(** Linear arithmetic with division and remainder by constants. *)
Ltac dlia := Z.to_euclidean_division_equations; lia.

(** ** Machine integers

    A C unsigned integer of width [w] is a [Z] kept in [0, 2^w); [wrap w] is
    the conversion C applies to the result of an operation of that type. *)

Definition wrap (w x : Z) : Z := x mod 2 ^ w.

Abbreviation u8 := (wrap 8).
Abbreviation u32 := (wrap 32).
Abbreviation u64 := (wrap 64).

(** A C [int] is a [Z] in [-2^31, 2^31): conversion of an out-of-range value
    is two's complement, as gcc defines it. *)
Definition s32 (x : Z) : Z :=
  let y := x mod 2 ^ 32 in if y <? 2 ^ 31 then y else y - 2 ^ 32.

(** ** Error numbers (Linux) *)

Definition ENOENT : Z := 2.
Definition EIO : Z := 5.
Definition EAGAIN : Z := 11.
Definition ENOMEM : Z := 12.
Definition EFAULT : Z := 14.
Definition EEXIST : Z := 17.
Definition EINVAL : Z := 22.
Definition ENOSPC : Z := 28.
Definition ERANGE : Z := 34.

(** ** Outcomes

    A call either returns or stops the machine ([BUG_ON], or an access the C
    language leaves undefined). *)

Inductive outcome (A : Type) : Type :=
| Ret (a : A)
| Bug.

Arguments Ret {A} a.
Arguments Bug {A}.

Definition obind {A B} (c : outcome A) (k : A -> outcome B) : outcome B :=
  match c with
  | Ret a => k a
  | Bug => Bug
  end.

(** [NKFS_BUG_ON(cond)]: the continuation runs only when [cond] is false. *)
Definition bug_on {A} (cond : bool) (k : outcome A) : outcome A :=
  if cond then Bug else k.

Declare Scope nkfs_scope.
Delimit Scope nkfs_scope with nkfs.

Notation "'let!' x := c 'in' k" := (obind c (fun x => k))
  (at level 10, x pattern, c at level 200, k at level 200)
  : nkfs_scope.

Lemma obind_Ret {A B} (c : outcome A) (k : A -> outcome B) (b : B) :
  obind c k = Ret b <-> exists a, c = Ret a /\ k a = Ret b.
Proof. destruct c; simpl; naive_solver. Qed.

(** ** Bounded loops

    [for_up i n f s] is [for (x = i; x < i + n; x++) s = f(x, s)];
    [for_down n f s] is [for (x = n - 1; x >= 0; x--) s = f(x, s)]. *)

Fixpoint for_up {S : Type} (i n : nat) (f : nat -> S -> S) (s : S) : S :=
  match n with
  | O => s
  | Datatypes.S n' => for_up (Datatypes.S i) n' f (f i s)
  end.

Fixpoint for_down {S : Type} (n : nat) (f : nat -> S -> S) (s : S) : S :=
  match n with
  | O => s
  | Datatypes.S n' => for_down n' f (f n' s)
  end.

(** The invariant rule for counting loops. *)
Lemma for_up_ind {S : Type} (P : nat -> S -> Prop) (f : nat -> S -> S) n :
  forall i s,
  P i s ->
  (forall x s', (i <= x < i + n)%nat -> P x s' -> P (Datatypes.S x) (f x s')) ->
  P (i + n)%nat (for_up i n f s).
Proof.
  induction n as [|n IH]; intros i s Hs Hstep; simpl.
  - by rewrite Nat.add_0_r.
  - replace (i + Datatypes.S n)%nat with (Datatypes.S i + n)%nat by lia.
    apply IH; [apply Hstep; [lia | done] |].
    intros x s' Hx. apply Hstep. lia.
Qed.

Lemma for_down_ind {S : Type} (P : nat -> S -> Prop) (f : nat -> S -> S) n :
  forall s,
  P n s ->
  (forall x s', (x < n)%nat -> P (Datatypes.S x) s' -> P x (f x s')) ->
  P 0%nat (for_down n f s).
Proof.
  induction n as [|n IH]; intros s Hs Hstep; simpl; [done |].
  apply IH; [apply Hstep; [lia | done] |].
  intros x s' Hx. apply Hstep. lia.
Qed.

(** [for_up] split at its last iteration. *)
Lemma for_up_last {S : Type} (f : nat -> S -> S) n :
  forall i s, for_up i (Datatypes.S n) f s = f (i + n)%nat (for_up i n f s).
Proof.
  induction n as [|n IH]; intros i s.
  - simpl. by rewrite Nat.add_0_r.
  - change (for_up i (Datatypes.S (Datatypes.S n)) f s)
      with (for_up (Datatypes.S i) (Datatypes.S n) f (f i s)).
    rewrite IH. simpl. f_equal. lia.
Qed.

Lemma for_up_ext {S : Type} (f g : nat -> S -> S) n :
  forall i s,
  (forall x s', (i <= x < i + n)%nat -> f x s' = g x s') ->
  for_up i n f s = for_up i n g s.
Proof.
  induction n as [|n IH]; intros i s H; simpl; [done |].
  rewrite H by lia. apply IH. intros. apply H. lia.
Qed.

(** The same for a body that may stop the machine. *)

Fixpoint ofor_up {S : Type} (i n : nat) (f : nat -> S -> outcome S) (s : S) : outcome S :=
  match n with
  | O => Ret s
  | Datatypes.S n' => obind (f i s) (ofor_up (Datatypes.S i) n' f)
  end.

Fixpoint ofor_down {S : Type} (n : nat) (f : nat -> S -> outcome S) (s : S) : outcome S :=
  match n with
  | O => Ret s
  | Datatypes.S n' => obind (f n' s) (ofor_down n' f)
  end.

Lemma ofor_up_ind {S : Type} (P : nat -> S -> Prop) (f : nat -> S -> outcome S) n :
  forall i s,
  P i s ->
  (forall x s', (i <= x < i + n)%nat -> P x s' ->
     exists s'', f x s' = Ret s'' /\ P (Datatypes.S x) s'') ->
  exists s', ofor_up i n f s = Ret s' /\ P (i + n)%nat s'.
Proof.
  induction n as [|n IH]; intros i s Hs Hstep; simpl.
  - exists s. by rewrite Nat.add_0_r.
  - destruct (Hstep i s ltac:(lia) Hs) as (s1 & -> & H1). simpl.
    replace (i + Datatypes.S n)%nat with (Datatypes.S i + n)%nat by lia.
    apply IH; [done|]. intros x s' Hx. apply Hstep. lia.
Qed.

Lemma ofor_down_ind {S : Type} (P : nat -> S -> Prop) (f : nat -> S -> outcome S) n :
  forall s,
  P n s ->
  (forall x s', (x < n)%nat -> P (Datatypes.S x) s' ->
     exists s'', f x s' = Ret s'' /\ P x s'') ->
  exists s', ofor_down n f s = Ret s' /\ P 0%nat s'.
Proof.
  induction n as [|n IH]; intros s Hs Hstep; simpl; [by exists s|].
  destruct (Hstep n s ltac:(lia) Hs) as (s1 & -> & H1). simpl.
  apply IH; [done|]. intros x s' Hx. apply Hstep. lia.
Qed.

(** ** Bytes *)

#[export] Instance byte_inhabited : Inhabited byte := populate Init.Byte.x00.

#[export] Instance byte_eq_dec : EqDecision byte.
Proof.
  intros x y. destruct (Byte.eqb x y) eqn:E.
  - left. by apply Byte.byte_dec_bl.
  - right. by apply Byte.eqb_false.
Defined.

Lemma byte_eqb_spec x y : Byte.eqb x y = true <-> x = y.
Proof. split; [apply Byte.byte_dec_bl | apply Byte.byte_dec_lb]. Qed.

Lemma byte_eqb_neq x y : Byte.eqb x y = false <-> x <> y.
Proof.
  split; [apply Byte.eqb_false|]. intros H.
  destruct (Byte.eqb x y) eqn:E; [|done]. by apply byte_eqb_spec in E.
Qed.

Definition nat_of_byte (b : byte) : nat := Z.to_nat (byte.unsigned b).
Definition byte_of_nat (n : nat) : byte := byte.of_Z (Z.of_nat n).

Lemma nat_of_byte_bound b : (nat_of_byte b < 256)%nat.
Proof. unfold nat_of_byte. pose proof (byte.unsigned_range b). lia. Qed.

Lemma byte_of_nat_of_byte b : byte_of_nat (nat_of_byte b) = b.
Proof.
  unfold byte_of_nat, nat_of_byte. pose proof (byte.unsigned_range b).
  rewrite Z2Nat.id by lia. apply byte.of_Z_unsigned.
Qed.

Lemma nat_of_byte_of_nat n : (n < 256)%nat -> nat_of_byte (byte_of_nat n) = n.
Proof.
  intros H. unfold byte_of_nat, nat_of_byte. rewrite byte.unsigned_of_Z.
  unfold byte.wrap. rewrite Z.mod_small by lia. apply Nat2Z.id.
Qed.

(** A boolean test that holds on every byte, or on every pair of bytes, as
    found by evaluation, holds universally. *)
Definition all_bytes : list byte := map byte_of_nat (seq 0 256).

Lemma all_bytes_complete b : In b all_bytes.
Proof.
  apply in_map_iff. exists (nat_of_byte b). split; [apply byte_of_nat_of_byte|].
  apply in_seq. pose proof (nat_of_byte_bound b). lia.
Qed.

Lemma check_byte (p : byte -> bool) : forallb p all_bytes = true -> forall a, p a = true.
Proof. intros H a. rewrite forallb_forall in H. apply H, all_bytes_complete. Qed.

Lemma check_byte_pair (p : byte -> byte -> bool) :
  forallb (fun a => forallb (p a) all_bytes) all_bytes = true -> forall a b, p a b = true.
Proof.
  intros H a b. pose proof (check_byte _ H a) as Ha. simpl in Ha.
  by apply (check_byte _ Ha).
Qed.

(** ** Lists of bytes *)

(** Whether a buffer holds at least [n] bytes (the pointer comparison
    [p + n <= bEnd]), without walking the whole buffer. *)
Fixpoint at_least {A} (n : nat) (l : list A) : bool :=
  match n, l with
  | O, _ => true
  | Datatypes.S n', _ :: l' => at_least n' l'
  | Datatypes.S _, [] => false
  end.

Lemma at_least_spec {A} n : forall (l : list A), at_least n l = true <-> (n <= length l)%nat.
Proof.
  induction n as [|n IH]; intros [|x l]; simpl; try rewrite IH; split; try lia; done.
Qed.

Lemma at_least_true {A} n (l : list A) : (n <= length l)%nat -> at_least n l = true.
Proof. apply at_least_spec. Qed.

Lemma at_least_false {A} n (l : list A) : (length l < n)%nat -> at_least n l = false.
Proof.
  intros H. destruct (at_least n l) eqn:E; [|done].
  apply at_least_spec in E. lia.
Qed.

(** [memcpy(dst + off, src, length src)] inside a buffer that has the room. *)
Definition memcpy_at {A} (dst : list A) (off : nat) (src : list A) : list A :=
  take off dst ++ src ++ drop (off + length src) dst.

Lemma memcpy_at_length {A} (dst : list A) off src :
  (off + length src <= length dst)%nat -> length (memcpy_at dst off src) = length dst.
Proof. intros H. unfold memcpy_at. rewrite !length_app, length_take, length_drop. lia. Qed.

Lemma memcpy_at_take {A} (dst : list A) off src :
  (off + length src <= length dst)%nat ->
  take (off + length src) (memcpy_at dst off src) = take off dst ++ src.
Proof.
  intros H. unfold memcpy_at. rewrite app_assoc.
  apply take_app_length'. rewrite length_app, length_take. lia.
Qed.

Lemma lookup_total_app {A} `{Inhabited A} (l1 l2 : list A) i :
  (l1 ++ l2) !!! i = if decide (i < length l1)%nat then l1 !!! i else l2 !!! (i - length l1)%nat.
Proof.
  rewrite !list_lookup_total_alt. destruct (decide (i < length l1)%nat).
  - by rewrite lookup_app_l.
  - by rewrite lookup_app_r by lia.
Qed.

Lemma lookup_total_take {A} `{Inhabited A} (l : list A) n i :
  (i < n)%nat -> take n l !!! i = l !!! i.
Proof. intros Hi. rewrite !list_lookup_total_alt. by rewrite lookup_take_lt. Qed.

Lemma lookup_total_drop {A} `{Inhabited A} (l : list A) n i :
  drop n l !!! i = l !!! (n + i)%nat.
Proof. rewrite !list_lookup_total_alt. by rewrite lookup_drop. Qed.

Lemma memcpy_at_lookup {A} `{Inhabited A} (dst : list A) off src i :
  (off + length src <= length dst)%nat ->
  memcpy_at dst off src !!! i =
  if decide (off <= i < off + length src)%nat then src !!! (i - off)%nat else dst !!! i.
Proof.
  intros L. unfold memcpy_at. rewrite !lookup_total_app, length_take, Nat.min_l by lia.
  destruct (decide (i < off)%nat).
  - rewrite decide_False by lia. by apply lookup_total_take.
  - destruct (decide (i - off < length src)%nat).
    + by rewrite decide_True by lia.
    + rewrite decide_False by lia. rewrite lookup_total_drop. f_equal. lia.
Qed.

Lemma lookup_total_beyond {A} `{Inhabited A} (l : list A) i :
  (length l <= i)%nat -> l !!! i = inhabitant.
Proof. intros L. rewrite list_lookup_total_alt. by rewrite lookup_ge_None_2. Qed.

Lemma list_eq_total {A} `{Inhabited A} (l1 l2 : list A) :
  length l1 = length l2 -> (forall i, (i < length l1)%nat -> l1 !!! i = l2 !!! i) -> l1 = l2.
Proof.
  intros L E. apply list_eq_same_length with (length l1); [done..|].
  intros i x y Hi H1 H2. specialize (E i Hi).
  by rewrite (list_lookup_total_correct _ _ _ H1), (list_lookup_total_correct _ _ _ H2) in E.
Qed.

(** ** The bits of an integer read from memory *)

Lemma byte_testbit_high (b : byte) i : 8 <= i -> Z.testbit (byte.unsigned b) i = false.
Proof.
  intros H. pose proof (byte.unsigned_range b).
  rewrite <- (Z.mod_small (byte.unsigned b) (2 ^ 8)) by lia.
  apply Z.mod_pow2_bits_high. lia.
Qed.

Lemma le_combine_testbit bs : forall i, 0 <= i ->
  Z.testbit (le_combine bs) i =
  match bs !! Z.to_nat (i / 8) with
  | Some b => Z.testbit (byte.unsigned b) (i mod 8)
  | None => false
  end.
Proof.
  induction bs as [|b bs IH]; intros i Hi.
  { by rewrite Z.testbit_0_l. }
  change (le_combine (b :: bs)) with (Z.lor (byte.unsigned b) (Z.shiftl (le_combine bs) 8)).
  rewrite Z.lor_spec, Z.shiftl_spec by done.
  destruct (Z.lt_ge_cases i 8) as [Hl|Hl].
  - rewrite (Z.testbit_neg_r _ (i - 8)), orb_false_r by lia.
    rewrite Z.div_small, Z.mod_small by lia. done.
  - rewrite byte_testbit_high by done. simpl orb. rewrite IH by lia.
    replace (i / 8) with (1 + (i - 8) / 8)
      by (replace i with (1 * 8 + (i - 8)) at 2 by lia; rewrite Z.div_add_l; lia).
    rewrite Z2Nat.inj_add by (try apply Z.div_pos; lia).
    change (Z.to_nat 1) with 1%nat. simpl.
    replace ((i - 8) mod 8) with (i mod 8); [done |].
    replace i with ((i - 8) + 1 * 8) at 1 by lia. by rewrite Z.mod_add by lia.
Qed.

(** ** Leaving one out of a list of pointers *)

Lemma filter_other {A} `{EqDecision A} (l : list A) p : p ∉ l -> filter (fun q => q <> p) l = l.
Proof.
  induction l as [|x l IH]; intros Hp; [done|]. apply not_elem_of_cons in Hp as [Hx Hp].
  rewrite (filter_cons_True (fun q => q <> p)) by done. by rewrite IH.
Qed.

Lemma filter_last (l : list nat) p : p ∉ l -> filter (fun q => q <> p) (l ++ [p]) = l.
Proof. intros Hp. rewrite filter_app, (filter_cons_False (fun q => q <> p) p []) by (intros Hn; by apply Hn). by rewrite filter_nil, app_nil_r, filter_other. Qed.

Lemma length_filter_other (l : list nat) p : NoDup l -> p ∈ l -> Z.of_nat (length (filter (fun q => q <> p) l)) = Z.of_nat (length l) - 1.
Proof.
  intros Hn Hp. apply list_elem_of_split in Hp as (l1 & l2 & ->). apply NoDup_app in Hn as (_ & H1 & H2).
  apply NoDup_cons in H2 as [H2 _]. rewrite filter_app, filter_cons_False by (by intros ?).
  rewrite !filter_other; [|done|intros Hx; by apply (H1 p Hx); left].
  rewrite !length_app. cbn. lia.
Qed.

(** ** Shared arithmetic facts *)

Lemma lane_div a b : 0 <= b < 8 -> (8 * a + b) / 8 = a.
Proof. intros H. dlia. Qed.

Lemma lane_mod a b : 0 <= b < 8 -> (8 * a + b) mod 8 = b.
Proof. intros H. dlia. Qed.

Lemma wrap_bounds w x : 0 <= w -> 0 <= wrap w x < 2 ^ w.
Proof. intros Hw. apply Z.mod_pos_bound. apply Z.pow_pos_nonneg; lia. Qed.

Lemma wrap_small w x : 0 <= x < 2 ^ w -> wrap w x = x.
Proof. apply Z.mod_small. Qed.

Lemma wrap_idemp w x : 0 <= w -> wrap w (wrap w x) = wrap w x.
Proof. intros Hw. apply wrap_small, wrap_bounds, Hw. Qed.

Create HintDb nkfs.
Create Rewrite HintDb nkfs.
#[export] Hint Resolve wrap_bounds : nkfs.
#[export] Hint Rewrite @length_app @length_take @length_drop @length_insert
  @length_replicate @length_map @length_fmap : nkfs.

(** Length goals: push [length] to the leaves, then arithmetic. *)
Ltac len := autorewrite with nkfs in *; simpl in *; try lia.

(** Case split on the boolean comparison that guards the goal's [if]. *)
Ltac case_bool :=
  match goal with
  | |- context [if ?b then _ else _] => let E := fresh "E" in destruct b eqn:E
  end.
