(* ===== verification/XXHash.v ===== *)
(** * The checksum: xxHash (src/crt/xxhash.c)

    Every on-disk block, packet header and packet payload of NKFS carries an
    XXH64 checksum computed through [csum_reset]/[csum_update]/[csum_digest].
    This file models the one-shot hash [XXH64] and the streaming hash
    ([XXH64_reset], [XXH64_update], [XXH64_digest]) for both byte orders of
    the CPU, and proves that the streaming hash of any sequence of chunks is
    the one-shot hash of their concatenation, on any CPU.  [Module XXHash32]
    does the same for the 32-bit hash; both are instances of one section on
    hashing by stripes.

    Correspondence: one definition per C function, same name; [XXH64_round]
    is the four-statement group the C code repeats for each accumulator.
    Pointer comparisons against the end of the input are tests on the number
    of bytes left.  [size_t] and [U64] arithmetic wraps at 64 bits. *)


From Stdlib Require Import ZArith Lia.
From coqutil Require Import Byte Word.LittleEndianList Z.bitblast.
From stdpp Require Import base list gmap.

From S2P Require Import Prelude.
Local Open Scope Z_scope.

Module XXHash.

(** ** Constants *)

Definition PRIME64_1 : Z := 11400714785074694791.
Definition PRIME64_2 : Z := 14029467366897019727.
Definition PRIME64_3 : Z := 1609587929392839161.
Definition PRIME64_4 : Z := 9650029242287828579.
Definition PRIME64_5 : Z := 2870177450012600261.

(** ** Memory reads *)

Inductive XXH_endianess : Set := XXH_bigEndian | XXH_littleEndian.
Inductive XXH_alignment : Set := XXH_aligned | XXH_unaligned.

Definition XXH_swap32 (x : Z) : Z :=
  Z.lor (Z.land (u32 (Z.shiftl x 24)) 0xff000000)
  (Z.lor (Z.land (u32 (Z.shiftl x 8)) 0x00ff0000)
  (Z.lor (Z.land (Z.shiftr x 8) 0x0000ff00)
         (Z.land (Z.shiftr x 24) 0x000000ff))).

Definition XXH_swap64 (x : Z) : Z :=
  Z.lor (Z.land (u64 (Z.shiftl x 56)) 0xff00000000000000)
  (Z.lor (Z.land (u64 (Z.shiftl x 40)) 0x00ff000000000000)
  (Z.lor (Z.land (u64 (Z.shiftl x 24)) 0x0000ff0000000000)
  (Z.lor (Z.land (u64 (Z.shiftl x 8)) 0x000000ff00000000)
  (Z.lor (Z.land (Z.shiftr x 8) 0x00000000ff000000)
  (Z.lor (Z.land (Z.shiftr x 24) 0x0000000000ff0000)
  (Z.lor (Z.land (Z.shiftr x 40) 0x000000000000ff00)
         (Z.land (Z.shiftr x 56) 0x00000000000000ff))))))).

(** The integer the CPU loads from a run of bytes, in its own byte order
    ([A32]/[A64], and the plain dereference for aligned pointers). *)
Definition load (endian : XXH_endianess) (bs : list byte) : Z :=
  match endian with
  | XXH_littleEndian => le_combine bs
  | XXH_bigEndian => le_combine (reverse bs)
  end.

Definition XXH_readLE32_align (ptr : list byte) (endian : XXH_endianess)
    (align : XXH_alignment) : Z :=
  match align with
  | XXH_unaligned =>
      match endian with
      | XXH_littleEndian => load endian (take 4 ptr)
      | XXH_bigEndian => XXH_swap32 (load endian (take 4 ptr))
      end
  | XXH_aligned =>
      match endian with
      | XXH_littleEndian => load endian (take 4 ptr)
      | XXH_bigEndian => XXH_swap32 (load endian (take 4 ptr))
      end
  end.

Definition XXH_readLE32 (ptr : list byte) (endian : XXH_endianess) : Z :=
  XXH_readLE32_align ptr endian XXH_unaligned.

Definition XXH_readLE64_align (ptr : list byte) (endian : XXH_endianess)
    (align : XXH_alignment) : Z :=
  match align with
  | XXH_unaligned =>
      match endian with
      | XXH_littleEndian => load endian (take 8 ptr)
      | XXH_bigEndian => XXH_swap64 (load endian (take 8 ptr))
      end
  | XXH_aligned =>
      match endian with
      | XXH_littleEndian => load endian (take 8 ptr)
      | XXH_bigEndian => XXH_swap64 (load endian (take 8 ptr))
      end
  end.

Definition XXH_readLE64 (ptr : list byte) (endian : XXH_endianess) : Z :=
  XXH_readLE64_align ptr endian XXH_unaligned.

(** ** Rotation and mixing *)

Definition XXH_rotl64 (x r : Z) : Z := u64 (Z.lor (Z.shiftl x r) (Z.shiftr x (64 - r))).

(** [v += input * PRIME64_2; v = rotl(v, 31); v *= PRIME64_1]. *)
Definition XXH64_round (v input : Z) : Z :=
  u64 (XXH_rotl64 (u64 (v + u64 (input * PRIME64_2))) 31 * PRIME64_1).

(** The four accumulators. *)
Record accs := Accs { v1 : Z; v2 : Z; v3 : Z; v4 : Z }.

Definition XXH64_accs_init (seed : Z) : accs :=
  Accs (u64 (seed + PRIME64_1 + PRIME64_2)) (u64 (seed + PRIME64_2))
       (u64 (seed + 0)) (u64 (seed - PRIME64_1)).

(** One 32-byte stripe: the body of the main loop. *)
Definition XXH64_stripe (endian : XXH_endianess) (align : XXH_alignment)
    (v : accs) (p : list byte) : accs :=
  Accs (XXH64_round (v1 v) (XXH_readLE64_align p endian align))
       (XXH64_round (v2 v) (XXH_readLE64_align (drop 8 p) endian align))
       (XXH64_round (v3 v) (XXH_readLE64_align (drop 16 p) endian align))
       (XXH64_round (v4 v) (XXH_readLE64_align (drop 24 p) endian align)).

(** [do { stripe; p += 32 } while (p <= limit)]. *)
Fixpoint XXH64_stripes (fuel : nat) (endian : XXH_endianess) (align : XXH_alignment)
    (v : accs) (p : list byte) : accs * list byte :=
  match fuel with
  | O => (v, p)
  | S fuel' =>
      let v' := XXH64_stripe endian align v p in
      let p' := drop 32 p in
      if at_least 32 p' then XXH64_stripes fuel' endian align v' p' else (v', p')
  end.

(** [v *= PRIME64_2; v = rotl(v, 31); v *= PRIME64_1; h64 ^= v;
    h64 = h64 * PRIME64_1 + PRIME64_4]. *)
Definition XXH64_mergeRound (h64 v : Z) : Z :=
  let v := u64 (XXH_rotl64 (u64 (v * PRIME64_2)) 31 * PRIME64_1) in
  u64 (Z.lxor h64 v * PRIME64_1 + PRIME64_4).

Definition XXH64_converge (v : accs) : Z :=
  let h64 := u64 (XXH_rotl64 (v1 v) 1 + XXH_rotl64 (v2 v) 7
                  + XXH_rotl64 (v3 v) 12 + XXH_rotl64 (v4 v) 18) in
  let h64 := XXH64_mergeRound h64 (v1 v) in
  let h64 := XXH64_mergeRound h64 (v2 v) in
  let h64 := XXH64_mergeRound h64 (v3 v) in
  XXH64_mergeRound h64 (v4 v).

(** [while (p + 8 <= bEnd)]. *)
Fixpoint XXH64_tail8 (fuel : nat) (endian : XXH_endianess) (align : XXH_alignment)
    (h64 : Z) (p : list byte) : Z * list byte :=
  match fuel with
  | O => (h64, p)
  | S fuel' =>
      if at_least 8 p then
        let k1 := XXH_readLE64_align p endian align in
        let k1 := u64 (XXH_rotl64 (u64 (k1 * PRIME64_2)) 31 * PRIME64_1) in
        let h64 := Z.lxor h64 k1 in
        let h64 := u64 (XXH_rotl64 h64 27 * PRIME64_1 + PRIME64_4) in
        XXH64_tail8 fuel' endian align h64 (drop 8 p)
      else (h64, p)
  end.

(** [if (p + 4 <= bEnd)]. *)
Definition XXH64_tail4 (endian : XXH_endianess) (align : XXH_alignment)
    (h64 : Z) (p : list byte) : Z * list byte :=
  if at_least 4 p then
    let h64 := Z.lxor h64 (u64 (XXH_readLE32_align p endian align * PRIME64_1)) in
    (u64 (XXH_rotl64 h64 23 * PRIME64_2 + PRIME64_3), drop 4 p)
  else (h64, p).

(** [while (p < bEnd)]. *)
Fixpoint XXH64_tail1 (h64 : Z) (p : list byte) : Z :=
  match p with
  | [] => h64
  | b :: p' =>
      let h64 := Z.lxor h64 (u64 (byte.unsigned b * PRIME64_5)) in
      XXH64_tail1 (u64 (XXH_rotl64 h64 11 * PRIME64_1)) p'
  end.

Definition XXH64_avalanche (h64 : Z) : Z :=
  let h64 := Z.lxor h64 (Z.shiftr h64 33) in
  let h64 := u64 (h64 * PRIME64_2) in
  let h64 := Z.lxor h64 (Z.shiftr h64 29) in
  let h64 := u64 (h64 * PRIME64_3) in
  Z.lxor h64 (Z.shiftr h64 32).

(** Everything after the accumulators have been merged. *)
Definition XXH64_finalize (endian : XXH_endianess) (align : XXH_alignment)
    (h64 : Z) (p : list byte) : Z :=
  let '(h64, p) := XXH64_tail8 (length p) endian align h64 p in
  let '(h64, p) := XXH64_tail4 endian align h64 p in
  XXH64_avalanche (XXH64_tail1 h64 p).

(** ** The one-shot hash *)

Definition XXH64_endian_align (input : list byte) (seed : Z)
    (endian : XXH_endianess) (align : XXH_alignment) : Z :=
  let len := Z.of_nat (length input) in
  let '(h64, p) :=
    if at_least 32 input then
      let '(v, p) := XXH64_stripes (length input) endian align (XXH64_accs_init seed) input in
      (XXH64_converge v, p)
    else (u64 (seed + PRIME64_5), input) in
  XXH64_finalize endian align (u64 (h64 + u64 len)) p.

(** [XXH_USE_UNALIGNED_ACCESS] is defined on x86, so the aligned variant is
    taken only on other CPUs, when the address allows it. *)
Definition XXH64 (use_unaligned : bool) (endian : XXH_endianess) (addr : Z)
    (input : list byte) (seed : Z) : Z :=
  if negb use_unaligned && (Z.land addr 7 =? 0) then
    XXH64_endian_align input seed endian XXH_aligned
  else XXH64_endian_align input seed endian XXH_unaligned.

(** ** The streaming hash *)

Record XXH_istate64_t := State64 {
  total_len : Z;
  seed : Z;
  v : accs;
  mem64 : list byte;   (* 32 bytes *)
  memsize : Z
}.

(** [XXH64_reset] leaves the buffer as it finds it. *)
Definition XXH64_reset (state : XXH_istate64_t) (seed : Z) : XXH_istate64_t :=
  State64 0 seed (XXH64_accs_init seed) (mem64 state) 0.

(** [if (state->memsize)]: some data left from previous update.  The buffer is
    topped up from the input and absorbed; the rest of the input is returned. *)
Definition XXH64_drain_mem (state : XXH_istate64_t) (input : list byte)
    (endian : XXH_endianess) : accs * list byte * Z * list byte :=
  if memsize state =? 0 then (v state, mem64 state, memsize state, input)
  else
    let room := Z.to_nat (32 - memsize state) in
    let mem := memcpy_at (mem64 state) (Z.to_nat (memsize state)) (take room input) in
    (XXH64_stripe endian XXH_unaligned (v state) mem, mem, 0, drop room input).

Definition XXH64_update_endian (state : XXH_istate64_t) (input : list byte)
    (endian : XXH_endianess) : XXH_istate64_t :=
  let len := Z.of_nat (length input) in
  let total := u64 (total_len state + len) in
  if u64 (memsize state + len) <? 32 then
    (* fill in tmp buffer *)
    State64 total (seed state) (v state)
      (memcpy_at (mem64 state) (Z.to_nat (memsize state)) input)
      (u32 (memsize state + u32 len))
  else
    let '(acc, mem, msize, p) := XXH64_drain_mem state input endian in
    let '(acc, p) :=
      if at_least 32 p then XXH64_stripes (length p) endian XXH_unaligned acc p
      else (acc, p) in
    match p with
    | [] => State64 total (seed state) acc mem msize
    | _ => State64 total (seed state) acc (memcpy_at mem 0 p) (Z.of_nat (length p))
    end.

Definition XXH64_digest_endian (state : XXH_istate64_t) (endian : XXH_endianess) : Z :=
  let p := take (Z.to_nat (memsize state)) (mem64 state) in
  let h64 :=
    if 32 <=? total_len state then XXH64_converge (v state)
    else u64 (seed state + PRIME64_5) in
  XXH64_finalize endian XXH_unaligned (u64 (h64 + total_len state)) p.

(** The public calls: the byte order is the one the CPU is found to have. *)
Definition XXH64_update (endian_detected : XXH_endianess) (state : XXH_istate64_t)
    (input : list byte) : XXH_istate64_t :=
  match endian_detected with
  | XXH_littleEndian => XXH64_update_endian state input XXH_littleEndian
  | XXH_bigEndian => XXH64_update_endian state input XXH_bigEndian
  end.

Definition XXH64_digest (endian_detected : XXH_endianess) (state : XXH_istate64_t) : Z :=
  match endian_detected with
  | XXH_littleEndian => XXH64_digest_endian state XXH_littleEndian
  | XXH_bigEndian => XXH64_digest_endian state XXH_bigEndian
  end.

(** ** Byte order: both CPUs read the same integers *)

Ltac byte_lane Hj Hk :=
  destruct Hj as [<-|[<-|[<-|[<-|[<-|[<-|[<-|[<-|[]]]]]]]]];
  destruct Hk as [<-|[<-|[<-|[<-|[<-|[<-|[<-|[<-|[]]]]]]]]];
  rewrite ?Z.mod_pow2_bits_low by lia; rewrite ?Z.shiftl_spec, ?Z.shiftr_spec by lia;
  simpl Z.testbit; simpl Z.sub; simpl Z.add;
  rewrite ?andb_true_r, ?andb_false_r, ?orb_false_r; try reflexivity.

Lemma split_lane i : 0 <= i < 64 ->
  exists j k, i = 8 * j + k /\ In j [0;1;2;3;4;5;6;7] /\ In k [0;1;2;3;4;5;6;7].
Proof.
  intros Hi. exists (i / 8), (i mod 8). pose proof (Z.div_mod i 8 ltac:(lia)).
  pose proof (Z.mod_pos_bound i 8 ltac:(lia)).
  assert (0 <= i / 8 < 8) by dlia. simpl. lia.
Qed.

Lemma XXH_swap64_testbit x i : 0 <= i < 64 ->
  Z.testbit (XXH_swap64 x) i = Z.testbit x (8 * (7 - i / 8) + i mod 8).
Proof.
  intros Hi. destruct (split_lane i Hi) as (j & k & -> & Hj & Hk).
  unfold XXH_swap64, wrap. rewrite !Z.lor_spec, !Z.land_spec.
  clear Hi. byte_lane Hj Hk.
Qed.

Lemma XXH_swap32_testbit x i : 0 <= i < 32 ->
  Z.testbit (XXH_swap32 x) i = Z.testbit x (8 * (3 - i / 8) + i mod 8).
Proof.
  intros Hi. destruct (split_lane i) as (j & k & -> & Hj & Hk); [lia|].
  unfold XXH_swap32, wrap. rewrite !Z.lor_spec, !Z.land_spec.
  destruct Hj as [<-|[<-|[<-|[<-|[<-|[<-|[<-|[<-|[]]]]]]]]];
    try (exfalso; simpl in Hk; lia); clear Hi;
  destruct Hk as [<-|[<-|[<-|[<-|[<-|[<-|[<-|[<-|[]]]]]]]]];
  rewrite ?Z.mod_pow2_bits_low by lia; rewrite ?Z.shiftl_spec, ?Z.shiftr_spec by lia;
  simpl Z.testbit; simpl Z.sub; simpl Z.add;
  rewrite ?andb_true_r, ?andb_false_r, ?orb_false_r; reflexivity.
Qed.

Lemma land_high x m i : 0 <= m < 2 ^ 64 -> 64 <= i -> Z.testbit (Z.land x m) i = false.
Proof.
  intros Hm Hi. rewrite Z.land_spec. rewrite <- (Z.mod_small m (2 ^ 64)) by done.
  rewrite (Z.mod_pow2_bits_high m 64 i) by lia. apply andb_false_r.
Qed.

(** Reversing [n] bytes and reading them the other way round: the byte at lane
    [i / 8] is found at lane [n - 1 - i / 8]. *)
Lemma le_combine_reverse_testbit bs i :
  0 <= i < 8 * Z.of_nat (length bs) ->
  Z.testbit (le_combine (reverse bs)) (8 * (Z.of_nat (length bs) - 1 - i / 8) + i mod 8) =
  Z.testbit (le_combine bs) i.
Proof.
  intros Hi. assert (0 <= i / 8 < Z.of_nat (length bs)) by dlia.
  pose proof (Z.mod_pos_bound i 8 ltac:(lia)).
  rewrite !le_combine_testbit by lia.
  rewrite lane_div, lane_mod by done.
  rewrite reverse_lookup by lia.
  replace (length bs - S (Z.to_nat (Z.of_nat (length bs) - 1 - i / 8)))%nat
    with (Z.to_nat (i / 8)) by lia.
  done.
Qed.

Lemma le_combine_high bs i :
  8 * Z.of_nat (length bs) <= i -> Z.testbit (le_combine bs) i = false.
Proof.
  intros Hi. rewrite le_combine_testbit by lia.
  rewrite lookup_ge_None_2; [done|]. assert (Z.of_nat (length bs) <= i / 8) by dlia. lia.
Qed.

Lemma XXH_swap64_load bs : length bs = 8%nat ->
  XXH_swap64 (load XXH_bigEndian bs) = load XXH_littleEndian bs.
Proof.
  intros H. simpl. apply Z.bits_inj'. intros i Hi.
  destruct (Z.lt_ge_cases i 64) as [Hl|Hl].
  - rewrite XXH_swap64_testbit by lia.
    rewrite <- (le_combine_reverse_testbit bs i) by lia. by rewrite H.
  - rewrite le_combine_high by lia. unfold XXH_swap64.
    rewrite !Z.lor_spec, !land_high by lia. done.
Qed.

Lemma XXH_swap32_load bs : length bs = 4%nat ->
  XXH_swap32 (load XXH_bigEndian bs) = load XXH_littleEndian bs.
Proof.
  intros H. simpl. apply Z.bits_inj'. intros i Hi.
  destruct (Z.lt_ge_cases i 32) as [Hl|Hl].
  - rewrite XXH_swap32_testbit by lia.
    rewrite <- (le_combine_reverse_testbit bs i) by lia. by rewrite H.
  - rewrite le_combine_high by lia. unfold XXH_swap32.
    rewrite !Z.lor_spec, !Z.land_spec.
    rewrite <- (Z.mod_small 0xff000000 (2 ^ 32)), <- (Z.mod_small 0x00ff0000 (2 ^ 32)),
      <- (Z.mod_small 0x0000ff00 (2 ^ 32)), <- (Z.mod_small 0x000000ff (2 ^ 32)) by done.
    rewrite !(Z.mod_pow2_bits_high _ 32 i) by lia. by rewrite !andb_false_r.
Qed.

Lemma XXH_readLE64_align_le p endian align : (8 <= length p)%nat ->
  XXH_readLE64_align p endian align = le_combine (take 8 p).
Proof.
  intros H. destruct endian, align; simpl; try done;
    apply (XXH_swap64_load (take 8 p)); rewrite length_take; lia.
Qed.

Lemma XXH_readLE32_align_le p endian align : (4 <= length p)%nat ->
  XXH_readLE32_align p endian align = le_combine (take 4 p).
Proof.
  intros H. destruct endian, align; simpl; try done;
    apply (XXH_swap32_load (take 4 p)); rewrite length_take; lia.
Qed.

(** ** Hashing by stripes

    Both hashes read their input in stripes of [B] bytes, keep the bytes of an
    unfinished stripe in a buffer, and run the main loop on whole stripes.  What
    follows is that scheme for any [stripe] function that reads the same [B]
    bytes on every CPU; [absorb n acc d] runs it on the first [n] stripes of
    [d]. *)

Section Stream.
Context {Acc : Type} (B : nat).
Context (stripe : XXH_endianess -> XXH_alignment -> Acc -> list byte -> Acc).

Fixpoint stripes (fuel : nat) (endian : XXH_endianess) (align : XXH_alignment)
    (acc : Acc) (p : list byte) : Acc * list byte :=
  match fuel with
  | O => (acc, p)
  | S fuel' =>
      let acc' := stripe endian align acc p in
      let p' := drop B p in
      if at_least B p' then stripes fuel' endian align acc' p' else (acc', p')
  end.

Definition drain_mem (acc : Acc) (mem : list byte) (msize : Z) (input : list byte)
    (endian : XXH_endianess) : Acc * list byte * Z * list byte :=
  if msize =? 0 then (acc, mem, msize, input)
  else
    let room := Z.to_nat (Z.of_nat B - msize) in
    let mem := memcpy_at mem (Z.to_nat msize) (take room input) in
    (stripe endian XXH_unaligned acc mem, mem, 0, drop room input).

Definition stream_update (total : Z) (acc : Acc) (mem : list byte) (msize : Z)
    (input : list byte) (endian : XXH_endianess) : Z * Acc * list byte * Z :=
  let len := Z.of_nat (length input) in
  let total := u64 (total + len) in
  if u64 (msize + len) <? Z.of_nat B then
    (total, acc, memcpy_at mem (Z.to_nat msize) input, u32 (msize + u32 len))
  else
    let '(acc, mem, msize, p) := drain_mem acc mem msize input endian in
    let '(acc, p) :=
      if at_least B p then stripes (length p) endian XXH_unaligned acc p else (acc, p) in
    match p with
    | [] => (total, acc, mem, msize)
    | _ => (total, acc, memcpy_at mem 0 p, Z.of_nat (length p))
    end.

Fixpoint absorb (n : nat) (acc : Acc) (d : list byte) : Acc :=
  match n with
  | O => acc
  | S n' => absorb n' (stripe XXH_littleEndian XXH_unaligned acc d) (drop B d)
  end.

Context (B_pos : (0 < B)%nat) (B_max : Z.of_nat B <= 2 ^ 32).
Context (stripe_le : forall endian align acc p, (B <= length p)%nat ->
  stripe endian align acc p = stripe XXH_littleEndian XXH_unaligned acc p).
Context (stripe_prefix : forall acc p q, (B <= length p)%nat ->
  stripe XXH_littleEndian XXH_unaligned acc (p ++ q) =
  stripe XXH_littleEndian XXH_unaligned acc p).

Lemma absorb_prefix n : forall acc p q, (B * n <= length p)%nat ->
  absorb n acc (p ++ q) = absorb n acc p.
Proof.
  induction n as [|n IH]; intros acc p q H; simpl; [done|].
  rewrite stripe_prefix by lia. rewrite drop_app_le by lia.
  apply IH. rewrite length_drop. lia.
Qed.

Lemma absorb_add n m : forall acc p,
  absorb (n + m) acc p = absorb m (absorb n acc p) (drop (B * n) p).
Proof.
  induction n as [|n IH]; intros acc p; simpl.
  - by rewrite Nat.mul_0_r.
  - rewrite IH, drop_drop. do 2 f_equal. lia.
Qed.

(** The loop computes [absorb] on every whole stripe and stops on the rest. *)
Lemma stripes_absorb endian align fuel : forall acc p,
  (B <= length p)%nat -> (length p / B <= fuel)%nat ->
  stripes fuel endian align acc p =
  (absorb (length p / B) acc p, drop (B * (length p / B)) p).
Proof.
  induction fuel as [|fuel IH]; intros acc p H Hf.
  { assert (1 <= length p / B)%nat by (apply Nat.div_le_lower_bound; lia). lia. }
  assert (E : (length p / B = S (length (drop B p) / B))%nat).
  { rewrite length_drop. replace (length p) with (1 * B + (length p - B))%nat at 1 by lia.
    rewrite Nat.div_add_l by lia. done. }
  cbn [stripes]. rewrite stripe_le by done.
  destruct (at_least B (drop B p)) eqn:Hal.
  - apply at_least_spec in Hal. rewrite IH by lia. rewrite E.
    cbn [absorb]. rewrite drop_drop. do 2 f_equal. lia.
  - assert (length (drop B p) < B)%nat.
    { destruct (Nat.lt_ge_cases (length (drop B p)) B) as [|Hge]; [done|].
      apply at_least_spec in Hge. congruence. }
    rewrite E, (Nat.div_small (length (drop B p)) B) by done. by rewrite Nat.mul_1_r.
Qed.

(** The accumulators and the unread bytes of a whole input, on any CPU. *)
Lemma stripes_loop endian align acc p :
  (if at_least B p then stripes (length p) endian align acc p else (acc, p)) =
  (absorb (length p / B) acc p, drop (B * (length p / B)) p).
Proof.
  destruct (at_least B p) eqn:E.
  - apply at_least_spec in E. apply stripes_absorb; [done|].
    apply Nat.Div0.div_le_upper_bound; nia.
  - assert (length p < B)%nat.
    { destruct (Nat.lt_ge_cases (length p) B) as [|Hge]; [done|].
      apply at_least_spec in Hge. congruence. }
    rewrite Nat.div_small by done. by rewrite Nat.mul_0_r.
Qed.

(** ** What a streaming state holds after reading [d] *)

Record buffered (init : Acc) (d : list byte) (total : Z) (acc : Acc) (mem : list byte) (msize : Z) :
  Prop := {
  buf_total : total = Z.of_nat (length d);
  buf_mem : length mem = B;
  buf_size : msize = Z.of_nat (length d mod B);
  buf_tail : take (length d mod B) mem = drop (B * (length d / B)) d;
  buf_accs : acc = absorb (length d / B) init d
}.

Lemma buffered_nil init mem : length mem = B -> buffered init [] 0 init mem 0.
Proof.
  intros H. split; cbn [length]; rewrite ?Nat.Div0.div_0_l, ?Nat.Div0.mod_0_l, ?take_0, ?drop_nil;
    done.
Qed.

Lemma length_split {A} (d : list A) :
  (length d = B * (length d / B) + length d mod B /\ length d mod B < B)%nat.
Proof. split; [apply Nat.div_mod_eq | apply Nat.mod_upper_bound; lia]. Qed.

Lemma length_split_app {A} (d e : list A) q r :
  (length d + length e = B * q + r)%nat -> (r < B)%nat ->
  (length (d ++ e) / B = q /\ length (d ++ e) mod B = r)%nat.
Proof.
  intros H Hr. rewrite length_app, H. split.
  - symmetry. apply (Nat.div_unique _ B q r); lia.
  - symmetry. apply (Nat.mod_unique _ B q r); lia.
Qed.

(** The bytes left by an earlier update, together with the new input, are the
    bytes of the whole message after its last whole stripe. *)
Lemma pending_app init d e total acc mem msize :
  buffered init d total acc mem msize ->
  drop (B * (length d / B)) (d ++ e) = take (length d mod B) mem ++ e.
Proof.
  intros R. rewrite (buf_tail _ _ _ _ _ _ R). apply drop_app_le.
  destruct (length_split d). lia.
Qed.

(** An update that does not complete a stripe only fills the buffer. *)
Lemma update_fill init d total acc mem msize input endian :
  buffered init d total acc mem msize -> Z.of_nat (length (d ++ input)) < 2 ^ 64 ->
  (length d mod B + length input < B)%nat ->
  exists total' acc' mem' msize',
    stream_update total acc mem msize input endian = (total', acc', mem', msize') /\
    buffered init (d ++ input) total' acc' mem' msize'.
Proof.
  intros R Hmax Hs. pose proof (pending_app init d input _ _ _ _ R) as P.
  destruct (length_split d) as [Hd Hr]. destruct R as [R1 R3 R4 R5 R6].
  destruct (length_split_app d input (length d / B) (length d mod B + length input))
    as [E1 E2]; [lia|lia|].
  unfold stream_update. rewrite R4.
  rewrite (wrap_small 64 (Z.of_nat (length d mod B) + _)) by lia.
  destruct (Z.ltb_spec (Z.of_nat (length d mod B) + Z.of_nat (length input)) (Z.of_nat B));
    [|lia].
  rewrite Nat2Z.id. eexists _, _, _, _. split; [done|]. split.
  - rewrite R1, wrap_small; rewrite length_app in *; lia.
  - rewrite memcpy_at_length; lia.
  - rewrite E2, (wrap_small 32 (Z.of_nat (length input))), wrap_small by lia. lia.
  - rewrite E1, E2, P, memcpy_at_take by lia. done.
  - rewrite E1, R6. symmetry. apply absorb_prefix. lia.
Qed.

(** Topping up a buffer of [m] bytes whose stripe the input completes. *)
Lemma memcpy_top_up (mem input : list byte) m :
  length mem = B -> (m <= B)%nat -> (B <= m + length input)%nat ->
  memcpy_at mem m (take (B - m) input) = take m mem ++ take (B - m) input.
Proof.
  intros Hm Hle Hin.
  assert (Hlen : (m + length (take (B - m) input) = length mem)%nat) by (rewrite length_take; lia).
  rewrite <- (memcpy_at_take mem) by lia. rewrite Hlen.
  symmetry. apply take_ge. rewrite memcpy_at_length; lia.
Qed.

(** The state after the buffered bytes: [acc'] has absorbed [c] more stripes
    of the message, and [p] is what is left of it. *)
Lemma drain_mem_absorb init d total acc mem msize input endian :
  buffered init d total acc mem msize -> (B <= length d mod B + length input)%nat ->
  exists acc' mem' p c,
    drain_mem acc mem msize input endian = (acc', mem', 0, p) /\
    length mem' = B /\
    acc' = absorb (length d / B + c) init (d ++ input) /\
    drop (B * (length d / B + c)) (d ++ input) = p /\
    (B * (length d / B + c) <= length (d ++ input))%nat.
Proof.
  intros R Hs. pose proof (pending_app init d input _ _ _ _ R) as P.
  destruct (length_split d) as [Hd Hr]. destruct R as [R1 R3 R4 R5 R6].
  set (m := (length d mod B)%nat) in *. set (q := (length d / B)%nat) in *.
  unfold drain_mem. rewrite R4.
  destruct (Z.eqb_spec (Z.of_nat m) 0) as [E|E].
  - rewrite E. eexists _, _, _, 0%nat. split; [done|]. rewrite !Nat.add_0_r, P.
    replace m with 0%nat by lia.
    rewrite take_0, app_nil_l, (absorb_prefix q) by lia.
    rewrite length_app. repeat split; try done; lia.
  - eexists _, _, _, 1%nat. split; [done|].
    replace (Z.to_nat (Z.of_nat B - Z.of_nat m)) with (B - m)%nat by lia.
    rewrite Nat2Z.id, (memcpy_top_up mem input m) by lia.
    assert (Hl : length (take m mem ++ take (B - m) input) = B)
      by (rewrite length_app, !length_take; lia).
    split; [done|]. rewrite absorb_add, P. cbn [absorb]. rewrite (absorb_prefix q) by lia.
    rewrite <- R6. split; [|split].
    + rewrite stripe_le by lia.
      rewrite <- (take_drop (B - m) input) at 2. rewrite app_assoc.
      by rewrite (stripe_prefix _ (take m mem ++ take (B - m) input)) by lia.
    + replace (B * (q + 1))%nat with (B * q + B)%nat by lia.
      rewrite <- drop_drop, P. rewrite drop_app_ge by (rewrite length_take; lia).
      f_equal. rewrite length_take. lia.
    + rewrite length_app. lia.
Qed.

(** The bytes after the last whole stripe go to the buffer. *)
Lemma buffered_rest init d acc mem p n :
  length mem = B -> drop (B * n) d = p -> (B * n <= length d)%nat -> acc = absorb n init d ->
  let tl := drop (B * (length p / B)) p in
  buffered init d (Z.of_nat (length d)) (absorb (length p / B) acc p)
    (match tl with [] => mem | _ => memcpy_at mem 0 tl end) (Z.of_nat (length tl)).
Proof.
  intros Hmem Hp Hle Hacc tl. destruct (length_split p) as [Hp1 Hp2].
  assert (Hl : (length d = B * (n + length p / B) + length p mod B)%nat).
  { assert (length p = length d - B * n)%nat by (by rewrite <- Hp, length_drop). lia. }
  destruct (length_split_app [] d (n + length p / B) (length p mod B) Hl Hp2) as [E1 E2].
  rewrite app_nil_l in E1, E2.
  assert (Htl : length tl = (length p mod B)%nat) by (unfold tl; rewrite length_drop; lia).
  assert (Hdr : drop (B * (length d / B)) d = tl).
  { unfold tl. rewrite E1, <- Hp, drop_drop. f_equal. lia. }
  split; [done| | by rewrite E2, Htl | | by rewrite E1, absorb_add, Hp, Hacc].
  - destruct tl; [done|]. rewrite memcpy_at_length; lia.
  - rewrite E2, Hdr, <- Htl. destruct tl as [|b t]; [done|].
    change (length (b :: t)) with (0 + length (b :: t))%nat.
    rewrite memcpy_at_take by lia. done.
Qed.

(** An update that completes at least one stripe. *)
Lemma update_stripes init d total acc mem msize input endian :
  buffered init d total acc mem msize -> Z.of_nat (length (d ++ input)) < 2 ^ 64 ->
  (B <= length d mod B + length input)%nat ->
  exists total' acc' mem' msize',
    stream_update total acc mem msize input endian = (total', acc', mem', msize') /\
    buffered init (d ++ input) total' acc' mem' msize'.
Proof.
  intros R Hmax Hs.
  destruct (drain_mem_absorb _ _ _ _ _ _ input endian R Hs)
    as (acc' & mem' & p & c & Hdr & Hmem & Hacc & Hp & Hle).
  destruct R as [R1 R3 R4 R5 R6]. pose proof (Nat.Div0.mod_le (length d) B).
  unfold stream_update. rewrite Hdr, stripes_loop.
  rewrite (wrap_small 64 (msize + _)) by (rewrite length_app in *; lia).
  destruct (Z.ltb_spec (msize + Z.of_nat (length input)) (Z.of_nat B)); [lia|].
  rewrite R1, wrap_small by (rewrite length_app in *; lia).
  rewrite <- Nat2Z.inj_add, <- length_app.
  pose proof (buffered_rest init (d ++ input) acc' mem' p _ Hmem Hp Hle Hacc) as R.
  cbn zeta in R. destruct (drop (B * (length p / B)) p) as [|b tl];
    eexists _, _, _, _; (split; [reflexivity | exact R]).
Qed.

Lemma stream_update_buffered init d total acc mem msize input endian :
  buffered init d total acc mem msize -> Z.of_nat (length (d ++ input)) < 2 ^ 64 ->
  exists total' acc' mem' msize',
    stream_update total acc mem msize input endian = (total', acc', mem', msize') /\
    buffered init (d ++ input) total' acc' mem' msize'.
Proof.
  intros R H. destruct (Nat.lt_ge_cases (length d mod B + length input) B) as [Hc|Hc].
  - by apply update_fill.
  - by apply update_stripes.
Qed.

End Stream.

(** ** XXH64 is hashing by stripes of 32 bytes *)

Lemma XXH64_stripe_le endian align acc p : (32 <= length p)%nat ->
  XXH64_stripe endian align acc p = XXH64_stripe XXH_littleEndian XXH_unaligned acc p.
Proof.
  intros H. unfold XXH64_stripe.
  by rewrite !XXH_readLE64_align_le by (rewrite ?length_drop; lia).
Qed.

Lemma XXH64_stripe_prefix acc p q : (32 <= length p)%nat ->
  XXH64_stripe XXH_littleEndian XXH_unaligned acc (p ++ q) =
  XXH64_stripe XXH_littleEndian XXH_unaligned acc p.
Proof.
  intros H. unfold XXH64_stripe.
  rewrite !XXH_readLE64_align_le by (rewrite ?length_drop, ?length_app; lia).
  rewrite !drop_app_le by lia.
  by rewrite !take_app_le by (rewrite ?length_drop; lia).
Qed.

Abbreviation absorb64 := (absorb 32 XXH64_stripe).

Lemma XXH64_update_endian_stream st input endian :
  XXH64_update_endian st input endian =
  let '(total, acc, mem, msize) :=
    stream_update 32 XXH64_stripe (total_len st) (v st) (mem64 st) (memsize st) input endian in
  State64 total (seed st) acc mem msize.
Proof.
  unfold XXH64_update_endian, stream_update. change (Z.of_nat 32) with 32.
  case_match; [done|].
  change (XXH64_drain_mem st input endian)
    with (drain_mem 32 XXH64_stripe (v st) (mem64 st) (memsize st) input endian).
  destruct (drain_mem _ _ _ _ _ _ _) as [[[acc mem] msize] p].
  change XXH64_stripes with (stripes 32 XXH64_stripe).
  by destruct (if at_least 32 p then _ else _) as [acc' [|b p']].
Qed.

(** ** The tail is endian- and alignment-independent *)

Lemma XXH64_tail8_le endian align fuel : forall h p,
  XXH64_tail8 fuel endian align h p = XXH64_tail8 fuel XXH_littleEndian XXH_unaligned h p.
Proof.
  induction fuel as [|fuel IH]; intros h p; cbn [XXH64_tail8]; [done|].
  destruct (at_least 8 p) eqn:E; [|done].
  apply at_least_spec in E. rewrite IH.
  by rewrite !XXH_readLE64_align_le by done.
Qed.

Lemma XXH64_finalize_le endian align h p :
  XXH64_finalize endian align h p = XXH64_finalize XXH_littleEndian XXH_unaligned h p.
Proof.
  unfold XXH64_finalize. rewrite XXH64_tail8_le.
  destruct (XXH64_tail8 _ _ _ _ _) as [h' p'] eqn:E.
  unfold XXH64_tail4. destruct (at_least 4 p') eqn:E4; [|done].
  apply at_least_spec in E4. by rewrite !XXH_readLE32_align_le by done.
Qed.

(** The one-shot hash as a function of the number of whole stripes. *)
Lemma XXH64_endian_align_absorb input seed endian align :
  XXH64_endian_align input seed endian align =
  XXH64_finalize XXH_littleEndian XXH_unaligned
    (u64 ((if at_least 32 input
           then XXH64_converge (absorb64 (length input / 32) (XXH64_accs_init seed) input)
           else u64 (seed + PRIME64_5)) + u64 (Z.of_nat (length input))))
    (drop (32 * (length input / 32)) input).
Proof.
  unfold XXH64_endian_align. change XXH64_stripes with (stripes 32 XXH64_stripe).
  pose proof (stripes_loop 32 XXH64_stripe ltac:(lia) XXH64_stripe_le endian align
                (XXH64_accs_init seed) input) as L.
  destruct (at_least 32 input) eqn:E.
  - rewrite L. by rewrite XXH64_finalize_le.
  - apply (f_equal snd) in L. cbn [snd] in L. rewrite <- L. by rewrite XXH64_finalize_le.
Qed.

Definition represents (s : Z) (d : list byte) (st : XXH_istate64_t) : Prop :=
  seed st = s /\
  buffered 32 XXH64_stripe (XXH64_accs_init s) d (total_len st) (v st) (mem64 st) (memsize st).

Lemma XXH64_reset_represents st s :
  length (mem64 st) = 32%nat -> represents s [] (XXH64_reset st s).
Proof. intros H. split; [done|]. by apply buffered_nil. Qed.

Lemma XXH64_update_represents s d st input endian :
  represents s d st -> Z.of_nat (length (d ++ input)) < 2 ^ 64 ->
  represents s (d ++ input) (XXH64_update endian st input).
Proof.
  intros [R1 R] H.
  replace (XXH64_update endian st input) with (XXH64_update_endian st input endian)
    by (by destruct endian).
  rewrite XXH64_update_endian_stream.
  destruct (stream_update_buffered 32 XXH64_stripe ltac:(lia) ltac:(lia) XXH64_stripe_le
              XXH64_stripe_prefix _ _ _ _ _ _ input endian R H) as (t & acc & mem & ms & -> & R').
  by split.
Qed.

Lemma XXH64_digest_represents s d st endian align :
  represents s d st -> Z.of_nat (length d) < 2 ^ 64 ->
  XXH64_digest endian st = XXH64_endian_align d s endian align.
Proof.
  intros [R2 [R1 R3 R4 R5 R6]] H. rewrite XXH64_endian_align_absorb.
  replace (XXH64_digest endian st) with (XXH64_digest_endian st endian)
    by (by destruct endian).
  unfold XXH64_digest_endian. rewrite XXH64_finalize_le.
  rewrite R4, Nat2Z.id, R5, R1, R2, R6. rewrite (wrap_small 64 (Z.of_nat (length d))) by lia.
  destruct (Z.leb_spec 32 (Z.of_nat (length d))).
  - by rewrite at_least_true by lia.
  - by rewrite at_least_false by lia.
Qed.

(** Feeding the chunks [ds] one after the other. *)
Definition XXH64_feed (endian : XXH_endianess) (st : XXH_istate64_t) (ds : list (list byte)) :
  XXH_istate64_t := fold_left (XXH64_update endian) ds st.

Lemma XXH64_feed_represents endian ds : forall s d st,
  represents s d st -> Z.of_nat (length (d ++ concat ds)) < 2 ^ 64 ->
  represents s (d ++ concat ds) (XXH64_feed endian st ds).
Proof.
  induction ds as [|e ds IH]; intros s d st R H; simpl in *.
  - by rewrite app_nil_r.
  - rewrite app_assoc in *. apply IH; [|done].
    apply XXH64_update_represents; [done|]. rewrite !length_app in *. lia.
Qed.

(** (C26) Streaming and one-shot agree: resetting a state (whatever bytes its
    buffer holds), feeding it any chunks and taking the digest gives [XXH64]
    of the concatenation, whatever the chunk boundaries, the seed, the CPU's
    byte order and the alignment of the one-shot input. *)
Theorem XXH64_streaming_equals_oneshot st endian use_unaligned addr s ds :
  length (mem64 st) = 32%nat ->
  Z.of_nat (length (concat ds)) < 2 ^ 64 ->
  XXH64_digest endian (XXH64_feed endian (XXH64_reset st s) ds) =
  XXH64 use_unaligned endian addr (concat ds) s.
Proof.
  intros Hm Hl.
  pose proof (XXH64_feed_represents endian ds s [] _ (XXH64_reset_represents st s Hm) Hl) as R.
  unfold XXH64. case_bool; by apply XXH64_digest_represents.
Qed.

Lemma XXH64_streaming_equals_oneshot_witness :
  XXH64_digest XXH_bigEndian
    (XXH64_feed XXH_bigEndian
       (XXH64_reset (State64 0 0 (Accs 0 0 0 0) (replicate 32 Init.Byte.x00) 0) 7)
       [replicate 5 Init.Byte.x61; replicate 70 Init.Byte.x62; []; replicate 3 Init.Byte.x63]) =
  XXH64 true XXH_bigEndian 0 (concat [replicate 5 Init.Byte.x61; replicate 70 Init.Byte.x62; []; replicate 3 Init.Byte.x63]) 7.
Proof. apply XXH64_streaming_equals_oneshot; vm_compute; reflexivity. Defined.

(** The hash does not depend on the CPU: little- and big-endian machines,
    aligned and unaligned reads compute the same value, so a disk or a peer of
    the other byte order checks the same sums. *)
Theorem XXH64_endian_independent input s e1 e2 a1 a2 :
  XXH64_endian_align input s e1 a1 = XXH64_endian_align input s e2 a2.
Proof. by rewrite !XXH64_endian_align_absorb. Qed.

End XXHash.

(** * The 32-bit hash *)

Module XXHash32.
Import XXHash.

Definition PRIME32_1 : Z := 2654435761.
Definition PRIME32_2 : Z := 2246822519.
Definition PRIME32_3 : Z := 3266489917.
Definition PRIME32_4 : Z := 668265263.
Definition PRIME32_5 : Z := 374761393.

Definition XXH_rotl32 (x r : Z) : Z := u32 (Z.lor (Z.shiftl x r) (Z.shiftr x (32 - r))).

(** [v += input * PRIME32_2; v = rotl(v, 13); v *= PRIME32_1]. *)
Definition XXH32_round (v input : Z) : Z :=
  u32 (XXH_rotl32 (u32 (v + u32 (input * PRIME32_2))) 13 * PRIME32_1).

Definition XXH32_accs_init (seed : Z) : accs :=
  Accs (u32 (seed + PRIME32_1 + PRIME32_2)) (u32 (seed + PRIME32_2))
       (u32 (seed + 0)) (u32 (seed - PRIME32_1)).

(** One 16-byte stripe: the body of the main loop. *)
Definition XXH32_stripe (endian : XXH_endianess) (align : XXH_alignment)
    (v : accs) (p : list byte) : accs :=
  Accs (XXH32_round (v1 v) (XXH_readLE32_align p endian align))
       (XXH32_round (v2 v) (XXH_readLE32_align (drop 4 p) endian align))
       (XXH32_round (v3 v) (XXH_readLE32_align (drop 8 p) endian align))
       (XXH32_round (v4 v) (XXH_readLE32_align (drop 12 p) endian align)).

(** [do { stripe; p += 16 } while (p <= limit)]. *)
Fixpoint XXH32_stripes (fuel : nat) (endian : XXH_endianess) (align : XXH_alignment)
    (v : accs) (p : list byte) : accs * list byte :=
  match fuel with
  | O => (v, p)
  | S fuel' =>
      let v' := XXH32_stripe endian align v p in
      let p' := drop 16 p in
      if at_least 16 p' then XXH32_stripes fuel' endian align v' p' else (v', p')
  end.

Definition XXH32_converge (v : accs) : Z :=
  u32 (XXH_rotl32 (v1 v) 1 + XXH_rotl32 (v2 v) 7
       + XXH_rotl32 (v3 v) 12 + XXH_rotl32 (v4 v) 18).

(** [while (p + 4 <= bEnd)]. *)
Fixpoint XXH32_tail4 (fuel : nat) (endian : XXH_endianess) (align : XXH_alignment)
    (h32 : Z) (p : list byte) : Z * list byte :=
  match fuel with
  | O => (h32, p)
  | S fuel' =>
      if at_least 4 p then
        let h32 := u32 (h32 + u32 (XXH_readLE32_align p endian align * PRIME32_3)) in
        XXH32_tail4 fuel' endian align (u32 (XXH_rotl32 h32 17 * PRIME32_4)) (drop 4 p)
      else (h32, p)
  end.

(** [while (p < bEnd)]. *)
Fixpoint XXH32_tail1 (h32 : Z) (p : list byte) : Z :=
  match p with
  | [] => h32
  | b :: p' =>
      let h32 := u32 (h32 + u32 (byte.unsigned b * PRIME32_5)) in
      XXH32_tail1 (u32 (XXH_rotl32 h32 11 * PRIME32_1)) p'
  end.

Definition XXH32_avalanche (h32 : Z) : Z :=
  let h32 := Z.lxor h32 (Z.shiftr h32 15) in
  let h32 := u32 (h32 * PRIME32_2) in
  let h32 := Z.lxor h32 (Z.shiftr h32 13) in
  let h32 := u32 (h32 * PRIME32_3) in
  Z.lxor h32 (Z.shiftr h32 16).

Definition XXH32_finalize (endian : XXH_endianess) (align : XXH_alignment)
    (h32 : Z) (p : list byte) : Z :=
  let '(h32, p) := XXH32_tail4 (length p) endian align h32 p in
  XXH32_avalanche (XXH32_tail1 h32 p).

Definition XXH32_endian_align (input : list byte) (seed : Z)
    (endian : XXH_endianess) (align : XXH_alignment) : Z :=
  let len := Z.of_nat (length input) in
  let '(h32, p) :=
    if at_least 16 input then
      let '(v, p) := XXH32_stripes (length input) endian align (XXH32_accs_init seed) input in
      (XXH32_converge v, p)
    else (u32 (seed + PRIME32_5), input) in
  XXH32_finalize endian align (u32 (h32 + u32 len)) p.

Definition XXH32 (use_unaligned : bool) (endian_detected : XXH_endianess) (addr : Z)
    (input : list byte) (seed : Z) : Z :=
  if negb use_unaligned && (Z.land addr 3 =? 0) then
    match endian_detected with
    | XXH_littleEndian => XXH32_endian_align input seed XXH_littleEndian XXH_aligned
    | XXH_bigEndian => XXH32_endian_align input seed XXH_bigEndian XXH_aligned
    end
  else
    match endian_detected with
    | XXH_littleEndian => XXH32_endian_align input seed XXH_littleEndian XXH_unaligned
    | XXH_bigEndian => XXH32_endian_align input seed XXH_bigEndian XXH_unaligned
    end.

(** ** The streaming hash: the length is counted at 64 bits *)

Record XXH_istate32_t := State32 {
  total_len : Z;
  seed : Z;
  v : accs;
  mem32 : list byte;   (* 16 bytes *)
  memsize : Z
}.

Definition XXH32_reset (state : XXH_istate32_t) (seed : Z) : XXH_istate32_t :=
  State32 0 seed (XXH32_accs_init seed) (mem32 state) 0.

Definition XXH32_drain_mem (state : XXH_istate32_t) (input : list byte)
    (endian : XXH_endianess) : accs * list byte * Z * list byte :=
  if memsize state =? 0 then (v state, mem32 state, memsize state, input)
  else
    let room := Z.to_nat (16 - memsize state) in
    let mem := memcpy_at (mem32 state) (Z.to_nat (memsize state)) (take room input) in
    (XXH32_stripe endian XXH_unaligned (v state) mem, mem, 0, drop room input).

Definition XXH32_update_endian (state : XXH_istate32_t) (input : list byte)
    (endian : XXH_endianess) : XXH_istate32_t :=
  let len := Z.of_nat (length input) in
  let total := u64 (total_len state + len) in
  if u64 (memsize state + len) <? 16 then
    (* fill in tmp buffer *)
    State32 total (seed state) (v state)
      (memcpy_at (mem32 state) (Z.to_nat (memsize state)) input)
      (u32 (memsize state + u32 len))
  else
    let '(acc, mem, msize, p) := XXH32_drain_mem state input endian in
    let '(acc, p) :=
      if at_least 16 p then XXH32_stripes (length p) endian XXH_unaligned acc p
      else (acc, p) in
    match p with
    | [] => State32 total (seed state) acc mem msize
    | _ => State32 total (seed state) acc (memcpy_at mem 0 p) (Z.of_nat (length p))
    end.

Definition XXH32_update (endian_detected : XXH_endianess) (state : XXH_istate32_t)
    (input : list byte) : XXH_istate32_t :=
  match endian_detected with
  | XXH_littleEndian => XXH32_update_endian state input XXH_littleEndian
  | XXH_bigEndian => XXH32_update_endian state input XXH_bigEndian
  end.

Definition XXH32_digest_endian (state : XXH_istate32_t) (endian : XXH_endianess) : Z :=
  let p := take (Z.to_nat (memsize state)) (mem32 state) in
  let h32 :=
    if 16 <=? total_len state then XXH32_converge (v state)
    else u32 (seed state + PRIME32_5) in
  XXH32_finalize endian XXH_unaligned (u32 (h32 + u32 (total_len state))) p.

Definition XXH32_digest (endian_detected : XXH_endianess) (state : XXH_istate32_t) : Z :=
  match endian_detected with
  | XXH_littleEndian => XXH32_digest_endian state XXH_littleEndian
  | XXH_bigEndian => XXH32_digest_endian state XXH_bigEndian
  end.

(** ** XXH32 is hashing by stripes of 16 bytes *)

Lemma XXH32_stripe_le endian align acc p : (16 <= length p)%nat ->
  XXH32_stripe endian align acc p = XXH32_stripe XXH_littleEndian XXH_unaligned acc p.
Proof.
  intros H. unfold XXH32_stripe.
  by rewrite !XXH_readLE32_align_le by (rewrite ?length_drop; lia).
Qed.

Lemma XXH32_stripe_prefix acc p q : (16 <= length p)%nat ->
  XXH32_stripe XXH_littleEndian XXH_unaligned acc (p ++ q) =
  XXH32_stripe XXH_littleEndian XXH_unaligned acc p.
Proof.
  intros H. unfold XXH32_stripe.
  rewrite !XXH_readLE32_align_le by (rewrite ?length_drop, ?length_app; lia).
  rewrite !drop_app_le by lia.
  by rewrite !take_app_le by (rewrite ?length_drop; lia).
Qed.

Lemma XXH32_update_endian_stream st input endian :
  XXH32_update_endian st input endian =
  let '(total, acc, mem, msize) :=
    stream_update 16 XXH32_stripe (total_len st) (v st) (mem32 st) (memsize st) input endian in
  State32 total (seed st) acc mem msize.
Proof.
  unfold XXH32_update_endian, stream_update. change (Z.of_nat 16) with 16.
  case_match; [done|].
  change (XXH32_drain_mem st input endian)
    with (drain_mem 16 XXH32_stripe (v st) (mem32 st) (memsize st) input endian).
  destruct (drain_mem _ _ _ _ _ _ _) as [[[acc mem] msize] p].
  change XXH32_stripes with (stripes 16 XXH32_stripe).
  by destruct (if at_least 16 p then _ else _) as [acc' [|b p']].
Qed.

Lemma XXH32_finalize_le endian align h p :
  XXH32_finalize endian align h p = XXH32_finalize XXH_littleEndian XXH_unaligned h p.
Proof.
  unfold XXH32_finalize. f_equal. generalize (length p) as fuel. intros fuel.
  revert h p. induction fuel as [|fuel IH]; intros h p; cbn [XXH32_tail4]; [done|].
  destruct (at_least 4 p) eqn:E; [|done].
  apply at_least_spec in E. rewrite IH. by rewrite !XXH_readLE32_align_le by done.
Qed.

Lemma XXH32_endian_align_absorb input seed endian align :
  XXH32_endian_align input seed endian align =
  XXH32_finalize XXH_littleEndian XXH_unaligned
    (u32 ((if at_least 16 input
           then XXH32_converge (absorb 16 XXH32_stripe (length input / 16) (XXH32_accs_init seed) input)
           else u32 (seed + PRIME32_5)) + u32 (Z.of_nat (length input))))
    (drop (16 * (length input / 16)) input).
Proof.
  unfold XXH32_endian_align. change XXH32_stripes with (stripes 16 XXH32_stripe).
  pose proof (stripes_loop 16 XXH32_stripe ltac:(lia) XXH32_stripe_le endian align
                (XXH32_accs_init seed) input) as L.
  destruct (at_least 16 input) eqn:E.
  - rewrite L. by rewrite XXH32_finalize_le.
  - apply (f_equal snd) in L. cbn [snd] in L. rewrite <- L. by rewrite XXH32_finalize_le.
Qed.

Definition represents32 (s : Z) (d : list byte) (st : XXH_istate32_t) : Prop :=
  seed st = s /\
  buffered 16 XXH32_stripe (XXH32_accs_init s) d (total_len st) (v st) (mem32 st) (memsize st).

Lemma XXH32_feed_represents endian ds : forall s d st,
  represents32 s d st -> Z.of_nat (length (d ++ concat ds)) < 2 ^ 64 ->
  represents32 s (d ++ concat ds) (fold_left (XXH32_update endian) ds st).
Proof.
  induction ds as [|e ds IH]; intros s d st [R1 R] H; simpl in *.
  - by rewrite app_nil_r.
  - rewrite app_assoc in *. apply IH; [|done].
    replace (XXH32_update endian st e) with (XXH32_update_endian st e endian)
      by (by destruct endian).
    rewrite XXH32_update_endian_stream.
    destruct (stream_update_buffered 16 XXH32_stripe ltac:(lia) ltac:(lia) XXH32_stripe_le
                XXH32_stripe_prefix _ _ _ _ _ _ e endian R) as (t & acc & mem & ms & -> & R').
    { rewrite !length_app in *. lia. }
    by split.
Qed.

(** The 32-bit streaming hash of any chunks is the one-shot hash of their
    concatenation, whatever the buffer held, the byte order of the CPU and the
    alignment of the one-shot input. *)
Theorem XXH32_streaming_equals_oneshot st endian use_unaligned addr s ds :
  length (mem32 st) = 16%nat ->
  Z.of_nat (length (concat ds)) < 2 ^ 64 ->
  XXH32_digest endian (fold_left (XXH32_update endian) ds (XXH32_reset st s)) =
  XXH32 use_unaligned endian addr (concat ds) s.
Proof.
  intros Hm Hl.
  assert (R0 : represents32 s [] (XXH32_reset st s)) by (split; [done | by apply buffered_nil]).
  destruct (XXH32_feed_represents endian ds s [] _ R0 Hl) as [R2 [R1 R3 R4 R5 R6]].
  set (st' := fold_left (XXH32_update endian) ds (XXH32_reset st s)) in *.
  cbn [app] in *.
  assert (E : forall align, XXH32_digest_endian st' endian = XXH32_endian_align (concat ds) s endian align).
  { intros align. rewrite XXH32_endian_align_absorb. unfold XXH32_digest_endian.
    rewrite XXH32_finalize_le, R4, Nat2Z.id, R5, R1, R2, R6.
    destruct (Z.leb_spec 16 (Z.of_nat (length (concat ds)))).
    - by rewrite at_least_true by lia.
    - by rewrite at_least_false by lia. }
  unfold XXH32_digest, XXH32. destruct endian; case_bool; apply E.
Qed.

Lemma XXH32_streaming_witness :
  XXH32_digest XXH_bigEndian
    (fold_left (XXH32_update XXH_bigEndian)
       [replicate 5 Init.Byte.x61; replicate 40 Init.Byte.x62; []]
       (XXH32_reset (State32 0 0 (Accs 0 0 0 0) (replicate 16 Init.Byte.x00) 0) 7)) =
  XXH32 false XXH_bigEndian 4 (concat [replicate 5 Init.Byte.x61; replicate 40 Init.Byte.x62; []]) 7.
Proof. apply XXH32_streaming_equals_oneshot; vm_compute; reflexivity. Defined.

(** Published values of XXH32: the empty input and the letter a. *)
Example XXH32_values :
  XXH32 true XXH_littleEndian 0 [] 0 = 0x02CC5D05 /\
  XXH32 true XXH_littleEndian 0 [Init.Byte.x61] 0 = 0x550D7456.
Proof. vm_compute. done. Qed.

End XXHash32.
