(* ===== verification/Bytes.v ===== *)
(** * Integers in memory and on disk

    A CPU stores an integer in its own byte order; [cpu_to_be32] and
    [cpu_to_be64] make the order on disk and on the wire big-endian.  Structures
    are lists of bytes, arrays of fixed-size slots concatenated. *)

From Stdlib Require Import ZArith Lia.
From coqutil Require Import Byte Word.LittleEndianList.
From stdpp Require Import base list.
From S2P Require Import Prelude XXHash.
Import XXHash.
Local Open Scope Z_scope.

Module Bytes.

(** The [n] bytes of an integer in big-endian order, and back. *)
Definition be (n : nat) (v : Z) : list byte := reverse (le_split n v).
Definition of_be (bs : list byte) : Z := le_combine (reverse bs).

(** The bytes of an integer in memory ([XXHash.load] reads them back). *)
Definition store (e : XXH_endianess) (n : nat) (v : Z) : list byte :=
  match e with
  | XXH_littleEndian => le_split n v
  | XXH_bigEndian => be n v
  end.

Lemma be_length n v : length (be n v) = n.
Proof. unfold be. by rewrite length_reverse, length_le_split. Qed.

Lemma store_length e n v : length (store e n v) = n.
Proof. destruct e; [apply be_length|apply length_le_split]. Qed.

Lemma le_combine_split_small n v : 0 <= v < 2 ^ (8 * Z.of_nat n) -> le_combine (le_split n v) = v.
Proof. intros Hv. rewrite le_combine_split. apply Z.mod_small. by rewrite Z.mul_comm. Qed.

Lemma of_be_be n v : 0 <= v < 2 ^ (8 * Z.of_nat n) -> of_be (be n v) = v.
Proof. intros Hv. unfold of_be, be. rewrite reverse_involutive. by apply le_combine_split_small. Qed.

Lemma load_store e n v : 0 <= v < 2 ^ (8 * Z.of_nat n) -> load e (store e n v) = v.
Proof. intros Hv. destruct e; [by apply of_be_be|by apply le_combine_split_small]. Qed.

Lemma be_of_be n bs : length bs = n -> be n (of_be bs) = bs.
Proof.
  intros <-. unfold of_be, be. rewrite <- (length_reverse bs), split_le_combine. apply reverse_involutive.
Qed.

Lemma store_load e n bs : length bs = n -> store e n (load e bs) = bs.
Proof. intros Hl. destruct e; [by apply be_of_be|]. subst n. apply split_le_combine. Qed.

Lemma of_be_bound bs : 0 <= of_be bs < 2 ^ (8 * Z.of_nat (length bs)).
Proof. unfold of_be. rewrite <- (length_reverse bs). apply le_combine_bound. Qed.

Lemma load_bound e bs : 0 <= load e bs < 2 ^ (8 * Z.of_nat (length bs)).
Proof. destruct e; [apply of_be_bound|]. apply le_combine_bound. Qed.

(** ** Slots *)

(** The [i]-th slot of [w] bytes. *)
Definition slot {A} (w i : nat) (l : list A) : list A := take w (drop (w * i) l).

(** The first [n] slots. *)
Definition slots {A} (w n : nat) (l : list A) : list (list A) := map (fun i => slot w i l) (seq 0 n).

Lemma slots_length {A} w n (l : list A) : length (slots w n l) = n.
Proof. unfold slots. by rewrite length_map, length_seq. Qed.

Lemma slots_S {A} w n (l : list A) : slots w (S n) l = take w l :: slots w n (drop w l).
Proof.
  unfold slots. cbn [seq map]. f_equal; [unfold slot; by rewrite Nat.mul_0_r|].
  rewrite <- seq_shift, map_map. apply map_ext. intros i. unfold slot. rewrite drop_drop. f_equal. f_equal. lia.
Qed.

Lemma slots_concat {A} w (xs : list (list A)) rest : Forall (fun x => length x = w) xs ->
  slots w (length xs) (concat xs ++ rest) = xs.
Proof.
  induction xs as [|x xs IH]; intros F; [done|]. apply Forall_cons in F as [Hx F]. cbn [length concat].
  rewrite slots_S, <- app_assoc, take_app_length', drop_app_length' by done. by rewrite IH.
Qed.

Lemma slots_concat' {A} w n (xs : list (list A)) : Forall (fun x => length x = w) xs -> length xs = n ->
  slots w n (concat xs) = xs.
Proof. intros F <-. rewrite <- (app_nil_r (concat xs)). by apply slots_concat. Qed.

Lemma concat_slots {A} w n (l : list A) : length l = (w * n)%nat -> concat (slots w n l) = l.
Proof.
  revert l. induction n as [|n IH]; intros l Hl.
  - symmetry. apply length_zero_iff_nil. lia.
  - rewrite slots_S. cbn [concat]. rewrite IH; [apply take_drop|]. rewrite length_drop. lia.
Qed.

Lemma Forall_slots {A} w n (l : list A) : length l = (w * n)%nat -> Forall (fun x => length x = w) (slots w n l).
Proof.
  revert l. induction n as [|n IH]; intros l Hl; [constructor|]. rewrite slots_S. constructor.
  - rewrite length_take. lia.
  - apply IH. rewrite length_drop. lia.
Qed.

Lemma length_concat_const {A} w (xs : list (list A)) : Forall (fun x => length x = w) xs ->
  length (concat xs) = (w * length xs)%nat.
Proof.
  induction xs as [|x xs IH]; intros F; [cbn; lia|]. apply Forall_cons in F as [Hx F]. cbn [concat length].
  rewrite length_app, IH by done. lia.
Qed.

Lemma concat_inj_const {A} w (xs ys : list (list A)) : Forall (fun x => length x = w) xs ->
  Forall (fun x => length x = w) ys -> length xs = length ys -> concat xs = concat ys -> xs = ys.
Proof.
  intros Fx Fy Hl E. rewrite <- (slots_concat' w (length xs) xs), <- (slots_concat' w (length xs) ys) by done.
  by rewrite E.
Qed.

(** A structure is the concatenation of its fields; a field is [len] bytes at
    [off]. *)
Definition field {A} (off len : nat) (l : list A) : list A := take len (drop off l).

Lemma field_concat {A} off len (fs1 : list (list A)) f fs2 : length (concat fs1) = off -> length f = len ->
  field off len (concat (fs1 ++ f :: fs2)) = f.
Proof.
  intros <- <-. unfold field. rewrite concat_app. cbn [concat]. by rewrite drop_app_length', take_app_length'.
Qed.

Lemma field_length {A} off len (l : list A) : (off + len <= length l)%nat -> length (field off len l) = len.
Proof. intros Hl. unfold field. rewrite length_take, length_drop. lia. Qed.

(** A field after a copy: the one written, or one beside it. *)
Lemma field_memcpy {A} (l b : list A) o : (o + length b <= length l)%nat -> field o (length b) (memcpy_at l o b) = b.
Proof.
  intros Hl. unfold field, memcpy_at. rewrite drop_app_ge by (rewrite length_take; lia). rewrite length_take.
  replace (o - o `min` length l)%nat with 0%nat by lia. rewrite drop_0. by rewrite take_app_length.
Qed.

Lemma field_memcpy_ne {A} (l b : list A) o o' n : (o + length b <= length l)%nat ->
  (o' + n <= o)%nat \/ (o + length b <= o')%nat -> field o' n (memcpy_at l o b) = field o' n l.
Proof.
  intros Hl [Hn|Hn]; unfold field, memcpy_at.
  - rewrite drop_app_le by (rewrite length_take; lia). rewrite take_app_le by (rewrite length_drop, length_take; lia).
    rewrite skipn_firstn_comm, take_take. f_equal. lia.
  - rewrite drop_app_ge by (rewrite length_take; lia). rewrite length_take, drop_app_ge by lia. rewrite drop_drop. do 2 f_equal. lia.
Qed.

(** Proves [field off len (concat fs) = f], [f] the [i]-th of the list [fs]. *)
Ltac struct_field i :=
  match goal with
  | |- field ?off ?len (concat ?fs) = ?f =>
      let a := eval cbn [take] in (take i fs) in
      let b := eval cbn [drop] in (drop (S i) fs) in
      change (field off len (concat (a ++ f :: b)) = f)
  end;
  apply field_concat; cbn [concat]; rewrite ?length_app, ?be_length, ?store_length, ?length_nil.

End Bytes.
