(* ===== verification/StMonad.v ===== *)
(** * Calls that change a state

    The monad of the stateful components: a call ends with a result and a new
    state, stops the machine ([NKFS_BUG_ON], a dangling or null pointer), blocks
    forever ([wait_for_completion] nobody completes), or has used up the fuel of
    an unbounded loop.  [spec m s Q] is total correctness: from [s] the call [m]
    ends, in a result and a state that satisfy [Q]. *)

From Stdlib Require Import ZArith Lia.
From stdpp Require Import base list.
From S2P Require Import Prelude.
Local Open Scope Z_scope.

Module StMonad.

Section Monad.
Context {S : Type}.

Inductive run (A : Type) := Done (a : A) (s : S) | Crash | Hang | NoFuel.

Definition M (A : Type) := S -> run A.

Definition ret {A} (a : A) : M A := fun s => Done A a s.

Definition bind {A B} (m : M A) (k : A -> M B) : M B := fun s =>
  match m s with
  | Done _ a s => k a s
  | Crash _ => Crash B
  | Hang _ => Hang B
  | NoFuel _ => NoFuel B
  end.

Definition crash {A} : M A := fun _ => Crash A.
Definition hang {A} : M A := fun _ => Hang A.
Definition no_fuel {A} : M A := fun _ => NoFuel A.
Definition gets {A} (f : S -> A) : M A := fun s => Done A (f s) s.
Definition modify (f : S -> S) : M unit := fun s => Done unit tt (f s).
Definition BUG_ON (b : bool) : M unit := if b then crash else ret tt.

Definition lift {A} (o : outcome A) : M A :=
  match o with
  | Ret a => ret a
  | Bug => crash
  end.

(** [for] over the elements of an array. *)
Fixpoint for_each {X A} (xs : list X) (f : X -> A -> M A) (a : A) : M A :=
  match xs with
  | [] => ret a
  | x :: xs => bind (f x a) (for_each xs f)
  end.

(** ** Total correctness *)

Definition spec {A} (m : M A) (s : S) (Q : A -> S -> Prop) : Prop :=
  match m s with
  | Done _ a s' => Q a s'
  | _ => False
  end.

Lemma spec_ret {A} (a : A) s (Q : A -> S -> Prop) : Q a s -> spec (ret a) s Q.
Proof. done. Qed.

Lemma spec_bind {A B} (m : M A) (k : A -> M B) s Q :
  spec m s (fun a s' => spec (k a) s' Q) -> spec (bind m k) s Q.
Proof. unfold spec, bind. by destruct (m s). Qed.

Lemma spec_assoc {A B C} (m : M A) (f : A -> M B) (k : B -> M C) s Q :
  spec (bind (bind m f) k) s Q -> spec (bind m (fun a => bind (f a) k)) s Q.
Proof. unfold spec, bind. by destruct (m s). Qed.

Lemma spec_mono {A} (m : M A) s (Q Q' : A -> S -> Prop) :
  spec m s Q -> (forall a s', Q a s' -> Q' a s') -> spec m s Q'.
Proof. unfold spec. destruct (m s); auto. Qed.

Lemma spec_gets {A} (f : S -> A) s (Q : A -> S -> Prop) : Q (f s) s -> spec (gets f) s Q.
Proof. done. Qed.

Lemma spec_modify f s (Q : unit -> S -> Prop) : Q tt (f s) -> spec (modify f) s Q.
Proof. done. Qed.

Lemma spec_bug_on b s (Q : unit -> S -> Prop) : b = false -> Q tt s -> spec (BUG_ON b) s Q.
Proof. by intros ->. Qed.

Lemma spec_lift {A} (o : outcome A) a s (Q : A -> S -> Prop) : o = Ret a -> Q a s -> spec (lift o) s Q.
Proof. by intros ->. Qed.

Lemma spec_done {A} (m : M A) s Q : spec m s Q <-> exists a s', m s = Done A a s' /\ Q a s'.
Proof.
  unfold spec. split.
  - destruct (m s) as [a s'| | |]; [|done..]. intros HQ. by exists a, s'.
  - by intros (a & s' & -> & HQ).
Qed.

(** The invariant rule: [I] holds of the elements still to visit. *)
Lemma spec_for_each {X A} (I : list X -> A -> S -> Prop) (f : X -> A -> M A) xs :
  forall a s (Q : A -> S -> Prop), I xs a s ->
  (forall x xs' a s, (exists pre, xs = pre ++ x :: xs') -> I (x :: xs') a s -> spec (f x a) s (I xs')) ->
  (forall a s, I [] a s -> Q a s) -> spec (for_each xs f a) s Q.
Proof.
  induction xs as [|x xs IH]; intros a s Q HI Hstep HQ; [by apply HQ|].
  cbn [for_each]. apply spec_bind. eapply spec_mono; [apply Hstep; [by exists []|exact HI]|].
  intros a' s' HI'. eapply IH; [exact HI'| |exact HQ].
  intros y ys a'' s'' [pre ->] Hy. apply Hstep; [|done]. by exists (x :: pre).
Qed.

(** ** Partial correctness *)

(** What holds if the call comes back. *)
Definition ends {A} (m : M A) (s : S) (Q : A -> S -> Prop) : Prop := forall a s', m s = Done A a s' -> Q a s'.

Lemma ends_ret {A} (a : A) s (Q : A -> S -> Prop) : Q a s -> ends (ret a) s Q.
Proof. by intros HQ a' s' [= <- <-]. Qed.

Lemma ends_gets {A} (f : S -> A) s (Q : A -> S -> Prop) : Q (f s) s -> ends (gets f) s Q.
Proof. by intros HQ a' s' [= <- <-]. Qed.

Lemma ends_modify f s (Q : unit -> S -> Prop) : Q tt (f s) -> ends (modify f) s Q.
Proof. by intros HQ a' s' [= <- <-]. Qed.

Lemma ends_bind {A B} (m : M A) (k : A -> M B) s (Q : B -> S -> Prop) :
  ends m s (fun a s' => ends (k a) s' Q) -> ends (bind m k) s Q.
Proof. intros Hm c s2 E. unfold bind in E. destruct (m s) as [a s1| | |] eqn:E1; [|discriminate E..]. by eapply Hm. Qed.

Lemma ends_bug_on c s (Q : unit -> S -> Prop) : (c = false -> Q tt s) -> ends (BUG_ON c) s Q.
Proof. intros HQ. destruct c; [intros a s' E; discriminate E|]. apply ends_ret. by apply HQ. Qed.

Lemma ends_lift {A} (o : outcome A) s (Q : A -> S -> Prop) : (forall a, o = Ret a -> Q a s) -> ends (lift o) s Q.
Proof. intros HQ. destruct o; [by apply ends_ret, HQ|intros a s' E; discriminate E]. Qed.

Lemma ends_crash {A} s (Q : A -> S -> Prop) : ends crash s Q.
Proof. intros a s' E. discriminate E. Qed.

Lemma ends_mono {A} (m : M A) s (Q Q' : A -> S -> Prop) : ends m s Q -> (forall a s', Q a s' -> Q' a s') -> ends m s Q'.
Proof. intros Hm HQ a s' E. by apply HQ, Hm. Qed.

Lemma spec_ends {A} (m : M A) s (Q : A -> S -> Prop) : spec m s Q -> ends m s Q.
Proof. intros Hs a s' E. unfold spec in Hs. by rewrite E in Hs. Qed.

(** ** Enough fuel *)

(** What holds if the call comes back, and that it does not run out of fuel: it
    may still stop the machine or block. *)
Definition fueled {A} (m : M A) (s : S) (Q : A -> S -> Prop) : Prop :=
  match m s with
  | Done _ a s' => Q a s'
  | NoFuel _ => False
  | _ => True
  end.

Lemma fueled_bind {A B} (m : M A) (k : A -> M B) s Q : fueled m s (fun a s' => fueled (k a) s' Q) -> fueled (bind m k) s Q.
Proof. unfold fueled, bind. by destruct (m s). Qed.

Lemma fueled_ret {A} (a : A) s (Q : A -> S -> Prop) : Q a s -> fueled (ret a) s Q.
Proof. done. Qed.

Lemma fueled_bug_on c s (Q : unit -> S -> Prop) : (c = false -> Q tt s) -> fueled (BUG_ON c) s Q.
Proof. intros HQ. destruct c; [done|]. by apply HQ. Qed.

Lemma fueled_mono {A} (m : M A) s (Q Q' : A -> S -> Prop) : fueled m s Q -> (forall a s', Q a s' -> Q' a s') -> fueled m s Q'.
Proof. unfold fueled. destruct (m s); auto. Qed.

Lemma fueled_no {A} (m : M A) s Q : fueled m s Q -> m s <> NoFuel A.
Proof. unfold fueled. by destruct (m s). Qed.

(** ** Stopping the machine *)

(** What holds if the call comes back; it ends or stops the machine. *)
Definition crash_or {A} (m : M A) (s : S) (Q : A -> S -> Prop) : Prop :=
  match m s with
  | Done _ a s' => Q a s'
  | Crash _ => True
  | _ => False
  end.

Lemma crash_or_bind {A B} (m : M A) (k : A -> M B) s Q : crash_or m s (fun a s' => crash_or (k a) s' Q) -> crash_or (bind m k) s Q.
Proof. unfold crash_or, bind. by destruct (m s). Qed.

Lemma crash_or_mono {A} (m : M A) s (Q Q' : A -> S -> Prop) : crash_or m s Q -> (forall a s', Q a s' -> Q' a s') -> crash_or m s Q'.
Proof. unfold crash_or. destruct (m s); auto. Qed.

Lemma crash_or_bug_on c s (Q : unit -> S -> Prop) : (c = false -> Q tt s) -> crash_or (BUG_ON c) s Q.
Proof. intros HQ. destruct c; [done|]. by apply HQ. Qed.

Lemma crash_or_spec {A} (m : M A) s Q : spec m s Q -> crash_or m s Q.
Proof. unfold spec, crash_or. by destruct (m s). Qed.

Lemma crash_or_crash {A} (m : M A) s : crash_or m s (fun _ _ => False) -> m s = Crash A.
Proof. unfold crash_or. by destruct (m s). Qed.

Lemma crash_or_for_each {X A} (I : list X -> S -> Prop) (f : X -> A -> M A) xs :
  forall a s (Q : A -> S -> Prop), I xs s -> (forall x xs' a s, I (x :: xs') s -> crash_or (f x a) s (fun _ => I xs')) ->
  (forall a s, I [] s -> Q a s) -> crash_or (for_each xs f a) s Q.
Proof.
  induction xs as [|x xs IH]; intros a s Q HI Hstep HQ; [by apply HQ|].
  cbn [for_each]. apply crash_or_bind. eapply crash_or_mono; [by apply Hstep|]. intros a' s' HI'. by eapply IH.
Qed.

End Monad.

Arguments run S A : clear implicits.
Arguments M S A : clear implicits.
Arguments Done {S A} a s.
Arguments Crash {S A}.
Arguments Hang {S A}.
Arguments NoFuel {S A}.

End StMonad.

Declare Scope stm_scope.
Notation "'let*' x := c 'in' k" := (StMonad.bind c (fun x => k))
  (at level 10, x pattern, c at level 200, k at level 200) : stm_scope.
Notation "'do*' c 'in' k" := (StMonad.bind c (fun _ => k))
  (at level 10, c at level 200, k at level 200) : stm_scope.
