(* ===== verification/Csum.v ===== *)
(** * Checksums (src/crt/csum.c)

    [struct csum_ctx] wraps an XXH64 state with seed 0.  [Checksum] is what the
    other components rely on: a context, however it was left, after a reset and
    any sequence of updates digests to a function of the concatenated input.
    Their models and theorems are stated against this interface; the XXH64
    functions discharge it for either byte order of the CPU. *)

From Stdlib Require Import ZArith Lia.
From coqutil Require Import Byte.
From stdpp Require Import base list.
From S2P Require Import Prelude XXHash.
Local Open Scope Z_scope.

Class Checksum (csum_ctx : Type) := {
  cs_reset : csum_ctx -> csum_ctx;
  cs_update : csum_ctx -> list byte -> csum_ctx;
  cs_digest : csum_ctx -> Z;
  cs_valid : csum_ctx -> Prop;
  (** The checksum of a whole buffer. *)
  cs_of : list byte -> Z;
  cs_chunks ctx ds :
    cs_valid ctx -> Z.of_nat (length (concat ds)) < 2 ^ 64 ->
    cs_digest (fold_left cs_update ds (cs_reset ctx)) = cs_of (concat ds)
}.

(** A single update. *)
Lemma cs_one `{Checksum C} (ctx : C) d :
  cs_valid ctx -> Z.of_nat (length d) < 2 ^ 64 ->
  cs_digest (cs_update (cs_reset ctx) d) = cs_of d.
Proof.
  intros V L. pose proof (cs_chunks ctx [d] V) as E. cbn [concat fold_left] in E.
  rewrite app_nil_r in E. by apply E.
Qed.

Module Csum.
Import XXHash.

Abbreviation csum_ctx := XXH_istate64_t (only parsing).

Definition csum_reset (ctx : csum_ctx) : csum_ctx := XXH64_reset ctx 0.

Definition csum_update (endian : XXH_endianess) (ctx : csum_ctx) (input : list byte) : csum_ctx :=
  XXH64_update endian ctx input.

Definition csum_digest (endian : XXH_endianess) (ctx : csum_ctx) : Z :=
  XXH64_digest endian ctx.

(** The value on every machine: XXH64 of the buffer, seed 0. *)
Definition csum_xxh64 (d : list byte) : Z :=
  XXH64_endian_align d 0 XXH_littleEndian XXH_unaligned.

Lemma csum_feed_xxh64 endian ctx ds :
  length (mem64 ctx) = 32%nat -> Z.of_nat (length (concat ds)) < 2 ^ 64 ->
  csum_digest endian (fold_left (csum_update endian) ds (csum_reset ctx)) = csum_xxh64 (concat ds).
Proof.
  intros Hm Hl.
  pose proof (XXH64_feed_represents endian ds 0 [] _ (XXH64_reset_represents ctx 0 Hm) Hl) as R.
  unfold csum_digest, csum_xxh64. rewrite XXH64_endian_align_absorb.
  rewrite <- (XXH64_endian_align_absorb _ _ endian XXH_unaligned).
  by apply (XXH64_digest_represents 0 (concat ds)).
Qed.

#[export] Instance xxh64_checksum (endian : XXH_endianess) : Checksum csum_ctx := {
  cs_reset := csum_reset;
  cs_update := csum_update endian;
  cs_digest := csum_digest endian;
  cs_valid := fun ctx => length (mem64 ctx) = 32%nat;
  cs_of := csum_xxh64;
  cs_chunks := csum_feed_xxh64 endian
}.

End Csum.
