(* ===== verification/Table.v ===== *)
(** * Tables of lists

    A hash table of the runtime is an array of lists; [list_add] and [list_del] on
    one of them, and what the table holds as a whole. *)

From Stdlib Require Import ZArith Lia Permutation.
From stdpp Require Import base list sets.
From S2P Require Import Prelude.
Local Open Scope nat_scope.

Module Table.

Section Table.
Context {A : Type} `{EqDecision A}.

(** [list_add] puts in front. *)
Definition list_add (i : nat) (q : A) (t : list (list A)) : list (list A) := alter (cons q) i t.
Definition list_del (i : nat) (q : A) (t : list (list A)) : list (list A) := alter (filter (fun x => x <> q)) i t.

Definition slot (i : nat) (t : list (list A)) : list A := default [] (t !! i).

Lemma concat_alter (f : list A -> list A) i (t : list (list A)) l : t !! i = Some l ->
  exists a b, concat t = a ++ l ++ b /\ concat (alter f i t) = a ++ f l ++ b.
Proof.
  intros Hi. pose proof (take_drop_middle t i l Hi) as E. pose proof (lookup_lt_Some _ _ _ Hi) as Hlt.
  exists (concat (take i t)), (concat (drop (S i) t)).
  assert (El : length (take i t) = i) by (rewrite length_take; lia). split; [by rewrite <- E at 1; rewrite concat_app|].
  rewrite <- E at 1. rewrite alter_app_r_alt by lia. rewrite El, Nat.sub_diag. cbn. by rewrite concat_app.
Qed.

Lemma list_add_perm i q t : (i < length t)%nat -> concat (list_add i q t) ≡ₚ q :: concat t.
Proof.
  intros Hi. destruct (lookup_lt_is_Some_2 t i Hi) as [l Hl].
  destruct (concat_alter (cons q) i t l Hl) as (a & b & -> & E). unfold list_add. rewrite E. symmetry. apply Permutation_middle.
Qed.

Lemma filter_perm (l : list A) q : NoDup l -> q ∈ l -> l ≡ₚ q :: filter (fun x => x <> q) l.
Proof.
  intros N Hq. apply list_elem_of_split in Hq as (l1 & l2 & ->). apply NoDup_app in N as (N1 & H12 & N2).
  apply NoDup_cons in N2 as [Hq2 N2]. assert (Hq1 : q ∉ l1) by (intros Hq; by apply (H12 q Hq), list_elem_of_here).
  rewrite filter_app, filter_cons_False, !filter_other by (done || naive_solver). symmetry. apply Permutation_middle.
Qed.

Lemma list_del_perm i q t : NoDup (concat t) -> q ∈ slot i t -> concat t ≡ₚ q :: concat (list_del i q t).
Proof.
  unfold slot. intros N Hq. destruct (t !! i) as [l|] eqn:Hl; cbn in Hq; [|by apply elem_of_nil in Hq].
  destruct (concat_alter (filter (fun x => x <> q)) i t l Hl) as (a & b & E1 & E). unfold list_del. rewrite E.
  rewrite E1 in N |- *. apply NoDup_app in N as (_ & _ & N). apply NoDup_app in N as (N & _ & _).
  transitivity (a ++ (q :: filter (fun x => x <> q) l) ++ b); [by apply Permutation_app_head, Permutation_app_tail, filter_perm|].
  cbn. symmetry. apply Permutation_middle.
Qed.

Lemma slot_alter_ne f i j t : i <> j -> slot i (alter f j t) = slot i t.
Proof. intros Hn. unfold slot. by rewrite list_lookup_alter_ne. Qed.

Lemma slot_del i q t : slot i (list_del i q t) = filter (fun x => x <> q) (slot i t).
Proof. unfold slot, list_del. rewrite list_lookup_alter_eq. by destruct (t !! i). Qed.

Lemma slot_add i j q x t : x ∈ slot i (list_add j q t) -> x = q /\ i = j \/ x ∈ slot i t.
Proof.
  unfold list_add. destruct (decide (i = j)) as [->|Hne]; [|rewrite slot_alter_ne by done; by right].
  unfold slot. rewrite list_lookup_alter_eq. destruct (t !! j) as [l|]; cbn; [|by right]. rewrite elem_of_cons. naive_solver.
Qed.

Lemma slot_concat i q (t : list (list A)) : q ∈ slot i t -> q ∈ concat t.
Proof.
  unfold slot. destruct (t !! i) as [l|] eqn:Hl; cbn; [|by rewrite elem_of_nil]. intros Hq.
  apply list_elem_of_In, in_concat. exists l. split; apply list_elem_of_In; [by eapply list_elem_of_lookup_2|done].
Qed.

Lemma concat_slot q (t : list (list A)) : q ∈ concat t -> exists i, (i < length t)%nat /\ q ∈ slot i t.
Proof.
  intros Hq. apply list_elem_of_In, in_concat in Hq as (l & Hl & Hq). apply list_elem_of_In, list_elem_of_lookup in Hl as [i Hl].
  exists i. split; [by apply lookup_lt_Some in Hl|]. unfold slot. rewrite Hl. by apply list_elem_of_In.
Qed.

Lemma slot_NoDup i (t : list (list A)) : NoDup (concat t) -> NoDup (slot i t).
Proof.
  unfold slot. destruct (t !! i) as [l|] eqn:Hl; [|intros _; apply NoDup_nil_2]. destruct (concat_alter id i t l Hl) as (a & b & -> & _).
  intros N. apply NoDup_app in N as (_ & _ & N). by apply NoDup_app in N as (N & _).
Qed.

Lemma slot_todo i x todo t : NoDup (concat t) -> slot i t = x :: todo -> slot i (list_del i x t) = todo.
Proof.
  intros N E. rewrite slot_del, E. pose proof (slot_NoDup i t N) as N'. rewrite E in N'. apply NoDup_cons in N' as [Hx _].
  rewrite filter_cons_False by naive_solver. by apply filter_other.
Qed.

Lemma perm_into (found l1 l2 l : list A) x : l ≡ₚ found ++ l1 -> l1 ≡ₚ x :: l2 -> l ≡ₚ (x :: found) ++ l2.
Proof. intros H1 H2. transitivity (found ++ x :: l2); [by rewrite H1; apply Permutation_app_head|symmetry; apply Permutation_middle]. Qed.

Lemma slots_empty n (t : list (list A)) : length t = n -> (forall j, j ∉ @nil nat -> (j < n)%nat -> slot j t = []) -> concat t = [].
Proof.
  intros Hl Hs. destruct (concat t) as [|q l] eqn:E; [done|]. assert (Hq : q ∈ concat t) by (rewrite E; by left).
  apply concat_slot in Hq as (i & Hi & Hq). rewrite Hs in Hq by (rewrite <- ?Hl; set_solver). by apply elem_of_nil in Hq.
Qed.

Lemma slot_inj i j q (t : list (list A)) : NoDup (concat t) -> q ∈ slot i t -> q ∈ slot j t -> i = j.
Proof.
  intros N Hi Hj. destruct (decide (i = j)) as [|Hne]; [done|exfalso]. unfold slot in Hi. destruct (t !! i) as [l|] eqn:E; cbn in Hi; [|by apply elem_of_nil in Hi].
  destruct (concat_alter (fun _ => []) i t l E) as (a & b & E1 & E2). rewrite <- (slot_alter_ne (fun _ => []) j i t) in Hj by done.
  apply slot_concat in Hj. rewrite E2 in Hj. rewrite E1 in N. apply NoDup_app in N as (_ & Na & N). apply NoDup_app in N as (_ & Nl & _).
  apply elem_of_app in Hj as [Hj|Hj]; [apply (Na q Hj); set_solver|by apply (Nl q)].
Qed.

End Table.

End Table.
