(* ===== verification/MallocChecker.v ===== *)
(** * The checked allocator (src/crt/kernel/malloc_checker.c, malloc.c)

    Every block handed out lies between two signs and has an entry in a hash
    table.  A freed block is filled with 0xCC and kept for a while, so that a
    thread can find writes to it; at the end what is still in the table is
    reported as leaked.  The flags are those of the build (kernel/Makefile):
    filling and delayed release are on; stack traces are for the log only.

    State: the blocks of the kernel's allocator by address, the entries by
    pointer, both hash tables, the counters, and the kernel: [kpick] the address
    it offers at a call, [kfail] the failing allocations of entries, [kjunk] what
    fresh memory holds, [ktime] the clock.  An address that is not aligned, runs
    over the end of memory or overlaps a block is not given out, so every [kpick]
    is a lawful allocator; for an address it may not give out the allocation
    fails.  The entries, which the program takes from the same allocator, are kept
    apart from the blocks by pointer.  An access outside the block a pointer came from stops
    the machine. *)

From Stdlib Require Import ZArith Lia.
From coqutil Require Import Byte.
From stdpp Require Import base list gmap.
From S2P Require Import Prelude Table XXHash Bytes StMonad.
Import XXHash Bytes StMonad Table.
Local Open Scope Z_scope.
Local Open Scope stm_scope.

Module MallocChecker.

Definition MALLOC_CHECKER_NR_LISTS : nat := Z.to_nat 9973.
Definition MALLOC_CHECKER_SIGN1 : Z := 0xBEDABEDA.
Definition MALLOC_CHECKER_SIGN2 : Z := 0xCBDACBDA.

(** [sizeof(unsigned long)] is 8. *)
Definition hash_pointer (ptr : Z) : Z :=
  snd (fold_left
    (fun '(val, hash) _ =>
      let c := Z.land val 255 in
      (Z.shiftr val 8, u64 (u64 (u64 (Z.shiftl hash 5) + hash) + c)))
    (seq 0 8) (Z.shiftr ptr 3, 5381)).

(** The list of a pointer. *)
Definition bucket (ptr : Z) : nat := Z.to_nat (hash_pointer ptr mod 9973).

Arguments hash_pointer : simpl never.
Arguments bucket : simpl never.
Arguments MALLOC_CHECKER_NR_LISTS : simpl never.

Record malloc_entry := Entry { e_flags : Z; e_ptr : Z; e_size : Z; e_crc32 : Z; time_to_live : Z }.

Record state := St {
  blocks : gmap Z (list byte);
  ents : gmap nat malloc_entry;
  entries_list : list (list nat);
  delay_entries_list : list (list nat);
  nr_allocs : Z;
  nr_frees : Z;
  kpick : nat -> option Z;
  kfail : nat -> bool;
  kjunk : nat -> byte;
  ktime : nat -> Z;
  tick : nat
}.

Definition set_blocks b s := St b (ents s) (entries_list s) (delay_entries_list s) (nr_allocs s) (nr_frees s) (kpick s) (kfail s) (kjunk s) (ktime s) (tick s).
Definition set_ents b s := St (blocks s) b (entries_list s) (delay_entries_list s) (nr_allocs s) (nr_frees s) (kpick s) (kfail s) (kjunk s) (ktime s) (tick s).
Definition set_entries b s := St (blocks s) (ents s) b (delay_entries_list s) (nr_allocs s) (nr_frees s) (kpick s) (kfail s) (kjunk s) (ktime s) (tick s).
Definition set_delay b s := St (blocks s) (ents s) (entries_list s) b (nr_allocs s) (nr_frees s) (kpick s) (kfail s) (kjunk s) (ktime s) (tick s).
Definition set_allocs b s := St (blocks s) (ents s) (entries_list s) (delay_entries_list s) b (nr_frees s) (kpick s) (kfail s) (kjunk s) (ktime s) (tick s).
Definition set_frees b s := St (blocks s) (ents s) (entries_list s) (delay_entries_list s) (nr_allocs s) b (kpick s) (kfail s) (kjunk s) (ktime s) (tick s).
Definition set_tick b s := St (blocks s) (ents s) (entries_list s) (delay_entries_list s) (nr_allocs s) (nr_frees s) (kpick s) (kfail s) (kjunk s) (ktime s) b.

Abbreviation M := (StMonad.M state).

(** ** The kernel's allocator *)

Definition kcall : M nat := fun s => Done (tick s) (set_tick (S (tick s)) s).

(** [n] bytes at [a] can be given out beside [bs]. *)
Definition placed (n a : Z) (bs : gmap Z (list byte)) : bool :=
  (0 <? a) && (a mod 8 =? 0) && (a + n <? 2 ^ 64) &&
  bool_decide (map_Forall (fun b l => a <> b /\ (a + n <= b \/ b + Z.of_nat (length l) <= a)) bs).

Definition kmalloc (n : Z) : M (option Z) :=
  let* t := kcall in
  let* s := gets id in
  match kpick s t with
  | Some a =>
      if placed n a (blocks s) then
        do* modify (set_blocks (<[a := replicate (Z.to_nat n) (kjunk s t)]> (blocks s))) in ret (Some a)
      else ret None
  | None => ret None
  end.

Definition kfree (a : Z) : M unit :=
  let* bs := gets blocks in
  match bs !! a with
  | Some _ => modify (set_blocks (delete a bs))
  | None => crash
  end.

(** A zeroed entry. *)
Definition kmalloc_entry : M (option nat) :=
  let* t := kcall in
  let* s := gets id in
  if kfail s t then ret None
  else do* modify (set_ents (<[t := Entry 0 0 0 0 0]> (ents s))) in ret (Some t).

Definition get_entry (q : nat) : M malloc_entry :=
  let* es := gets ents in
  match es !! q with
  | Some en => ret en
  | None => crash
  end.

Definition put_entry (q : nat) (en : malloc_entry) : M unit :=
  do* get_entry q in modify (fun s => set_ents (<[q := en]> (ents s)) s).

Definition kfree_entry (q : nat) : M unit :=
  do* get_entry q in modify (fun s => set_ents (delete q (ents s)) s).

(** ** Memory *)

(** [n] bytes at [addr], in the block at [base]. *)
Definition read_mem (base addr n : Z) : M (list byte) :=
  let* bs := gets blocks in
  match bs !! base with
  | Some l =>
      let off := u64 (addr - base) in
      if off + n <=? Z.of_nat (length l) then ret (field (Z.to_nat off) (Z.to_nat n) l) else crash
  | None => crash
  end.

Definition write_mem (base addr : Z) (d : list byte) : M unit :=
  let* bs := gets blocks in
  match bs !! base with
  | Some l =>
      let off := u64 (addr - base) in
      if off + Z.of_nat (length d) <=? Z.of_nat (length l)
      then modify (set_blocks (<[base := memcpy_at l (Z.to_nat off) d]> bs)) else crash
  | None => crash
  end.

Section Checker.
(** The byte order of the CPU, and the kernel's [crc32_le(~0, ., .)] and
    [GFP_NOIO]. *)
Context (e : XXH_endianess) (crc32_le : list byte -> Z) (GFP_NOIO : Z).

Definition read_word (base addr : Z) : M Z :=
  let* d := read_mem base addr 8 in ret (load e d).

(** Both signs are in place. *)
Definition check_signs (en : malloc_entry) : M unit :=
  let psign1 := u64 (e_ptr en - 8) in
  let psign2 := u64 (e_ptr en + e_size en) in
  let* w1 := read_word psign1 psign1 in
  do* BUG_ON (negb (w1 =? MALLOC_CHECKER_SIGN1)) in
  let* w2 := read_word psign1 psign2 in
  BUG_ON (negb (w2 =? MALLOC_CHECKER_SIGN2)).

Definition fill_cc (en : malloc_entry) : M unit :=
  write_mem (u64 (e_ptr en - 8)) (e_ptr en) (replicate (Z.to_nat (e_size en)) (byte.of_Z 0xCC)).

(** ** Delayed release *)

Definition release_entry (q : nat) : M unit :=
  let* en := get_entry q in
  do* check_signs en in
  do* fill_cc en in
  do* kfree (u64 (e_ptr en - 8)) in
  kfree_entry q.

Definition delay_check (q : nat) : M unit :=
  let* en := get_entry q in
  do* check_signs en in
  let* d := read_mem (u64 (e_ptr en - 8)) (e_ptr en) (e_size en) in
  BUG_ON (negb (e_crc32 en =? crc32_le d)).

(** List [i] of the thread's turn: the entries moved to [free_list], which was
    emptied before. *)
Definition turn_list (i : nat) : M (list nat) :=
  let* l := gets (fun s => slot i (delay_entries_list s)) in
  for_each l (fun curr free_list =>
    do* delay_check curr in
    let* en := get_entry curr in
    let* t := kcall in
    let* now := gets (fun s => ktime s t) in
    if now <=? time_to_live en then
      do* modify (fun s => set_delay (list_del i curr (delay_entries_list s)) s) in ret (curr :: free_list)
    else ret free_list) [].

(** One turn of the loop of the thread. *)
Definition malloc_checker_delay_turn : M unit :=
  let* free_list := for_each (seq 0 MALLOC_CHECKER_NR_LISTS) (fun i _ => turn_list i) [] in
  for_each free_list (fun curr _ => release_entry curr) tt.

(** ** The allocator *)

(** [err] is how starting the thread ends. *)
Definition malloc_checker_init (err : Z) : M Z :=
  do* modify (fun s => set_allocs 0 s) in
  do* modify (fun s => set_frees 0 s) in
  do* modify (fun s => set_entries (replicate MALLOC_CHECKER_NR_LISTS []) s) in
  do* modify (fun s => set_delay (replicate MALLOC_CHECKER_NR_LISTS []) s) in
  ret err.

Definition malloc_checker_kmalloc (size flags : Z) : M (option Z) :=
  let* entry := kmalloc_entry in
  match entry with
  | None => ret None
  | Some entry =>
      let* r := kmalloc (u64 (size + 16)) in
      match r with
      | None => do* kfree_entry entry in ret None
      | Some psign1 =>
          let ptr := u64 (psign1 + 8) in
          let psign2 := u64 (ptr + size) in
          do* write_mem psign1 psign1 (store e 8 MALLOC_CHECKER_SIGN1) in
          do* write_mem psign1 psign2 (store e 8 MALLOC_CHECKER_SIGN2) in
          do* put_entry entry (Entry flags ptr size 0 0) in
          do* modify (fun s => set_entries (list_add (bucket ptr) entry (entries_list s)) s) in
          do* modify (fun s => set_allocs (nr_allocs s + 1) s) in
          ret (Some ptr)
      end
  end.

Definition check_and_release_entry (q : nat) : M unit :=
  let* en := get_entry q in
  do* check_signs en in
  do* fill_cc en in
  let* d := read_mem (u64 (e_ptr en - 8)) (e_ptr en) (e_size en) in
  let* t := kcall in
  let* now := gets (fun s => ktime s t) in
  do* put_entry q (Entry (e_flags en) (e_ptr en) (e_size en) (crc32_le d) (now + 1000000000)) in
  modify (fun s => set_delay (list_add (bucket (e_ptr en)) q (delay_entries_list s)) s).

Definition malloc_checker_kfree (ptr : Z) : M unit :=
  let i := bucket ptr in
  let* l := gets (fun s => slot i (entries_list s)) in
  let* found := for_each l (fun curr found =>
    let* en := get_entry curr in
    if e_ptr en =? ptr then
      do* modify (fun s => set_entries (list_del i curr (entries_list s)) s) in ret (curr :: found)
    else ret found) [] in
  for_each found (fun curr _ =>
    do* check_and_release_entry curr in modify (fun s => set_frees (nr_frees s + 1) s)) tt.

(** The pointers in list [i] that are reported as leaked. *)
Definition deinit_list (i : nat) (leaks : list Z) : M (list Z) :=
  let* l := gets (fun s => slot i (entries_list s)) in
  let* found := for_each l (fun curr found =>
    do* modify (fun s => set_entries (list_del i curr (entries_list s)) s) in ret (curr :: found)) [] in
  for_each found (fun curr leaks =>
    let* en := get_entry curr in
    do* check_and_release_entry curr in ret (e_ptr en :: leaks)) leaks.

Definition deinit_delay_list (i : nat) : M unit :=
  let* l := gets (fun s => slot i (delay_entries_list s)) in
  let* found := for_each l (fun curr found =>
    do* modify (fun s => set_delay (list_del i curr (delay_entries_list s)) s) in ret (curr :: found)) [] in
  for_each found (fun curr _ => do* delay_check curr in release_entry curr) tt.

(** The thread has stopped. *)
Definition malloc_checker_deinit : M (list Z) :=
  let* leaks := for_each (seq 0 MALLOC_CHECKER_NR_LISTS) deinit_list [] in
  do* for_each (seq 0 MALLOC_CHECKER_NR_LISTS) (fun i _ => deinit_delay_list i) tt in
  ret leaks.

(** ** What the other modules call *)

Definition crt_kmalloc (size flags : Z) : M (option Z) := malloc_checker_kmalloc size flags.
Definition crt_kcalloc (n size flags : Z) : M (option Z) := malloc_checker_kmalloc (u64 (n * size)) flags.
Definition crt_kfree (ptr : Z) : M unit := malloc_checker_kfree ptr.
Definition crt_malloc (size : Z) : M (option Z) := crt_kmalloc size GFP_NOIO.
Definition crt_free (ptr : Z) : M unit := crt_kfree ptr.
Definition crt_kmalloc_init (err : Z) : M Z := malloc_checker_init err.
Definition crt_kmalloc_deinit : M (list Z) := malloc_checker_deinit.

End Checker.

End MallocChecker.
