(* ===== verification/MallocCheckerSpec.v ===== *)
(** * The books of the checked allocator

    [ok s L D X]: the entries [L] are in the table of live blocks, [D] wait for
    their release, [X] are in no list (a call is busy with them, or they are
    lost); every entry has its block with both signs, and there is no other
    block.  Every call is a move of entries between the three lists. *)

From Stdlib Require Import ZArith Lia Permutation.
From coqutil Require Import Byte.
From stdpp Require Import base list gmap.
From S2P Require Import Prelude Table XXHash Bytes StMonad MallocChecker.
Import XXHash Bytes StMonad MallocChecker Table.
Local Open Scope Z_scope.
Local Open Scope stm_scope.

Module MallocCheckerSpec.

Abbreviation NR := MALLOC_CHECKER_NR_LISTS.

Lemma bucket_bound ptr : (bucket ptr < NR)%nat.
Proof. unfold bucket, MALLOC_CHECKER_NR_LISTS. pose proof (Z.mod_pos_bound (hash_pointer ptr) 9973 ltac:(lia)). lia. Qed.

(** ** Blocks with their signs *)

Section Checker.
Context (e : XXH_endianess) (crc32_le : list byte -> Z).

Definition guard (data : list byte) : list byte := store e 8 MALLOC_CHECKER_SIGN1 ++ data ++ store e 8 MALLOC_CHECKER_SIGN2.

Definition cc (n : Z) : list byte := replicate (Z.to_nat n) (byte.of_Z 0xCC).

(** The block of the entry [en] holds [data]. *)
Record holds (bs : gmap Z (list byte)) (en : malloc_entry) (data : list byte) : Prop := {
  h_block : bs !! (e_ptr en - 8) = Some (guard data);
  h_size : e_size en = Z.of_nat (length data);
  h_low : 8 < e_ptr en;
  h_high : e_ptr en + e_size en + 8 < 2 ^ 64
}.

Definition apart (bs : gmap Z (list byte)) : Prop :=
  forall a b l l', bs !! a = Some l -> bs !! b = Some l' -> a <> b -> a + Z.of_nat (length l) <= b \/ b + Z.of_nat (length l') <= a.

Record ok (s : state) (L D X : list nat) : Prop := {
  ok_live : concat (entries_list s) ≡ₚ L;
  ok_delay : concat (delay_entries_list s) ≡ₚ D;
  ok_lists : length (entries_list s) = NR /\ length (delay_entries_list s) = NR;
  ok_bucket : forall i q en, q ∈ slot i (entries_list s) -> ents s !! q = Some en -> bucket (e_ptr en) = i;
  ok_nodup : NoDup (L ++ D ++ X);
  ok_ents : forall q, is_Some (ents s !! q) <-> q ∈ L ++ D ++ X;
  ok_holds : forall q en, ents s !! q = Some en -> exists data, holds (blocks s) en data /\ (q ∈ D -> e_crc32 en = crc32_le data);
  ok_inj : forall q q' en en', ents s !! q = Some en -> ents s !! q' = Some en' -> e_ptr en = e_ptr en' -> q = q';
  ok_blocks : forall a, is_Some (blocks s !! a) -> exists q en, ents s !! q = Some en /\ a = e_ptr en - 8;
  ok_apart : apart (blocks s);
  ok_new : forall q, is_Some (ents s !! q) -> (q < tick s)%nat
}.

Lemma mc_ok_perm s L D X L' D' X' : ok s L D X -> L ≡ₚ L' -> D ≡ₚ D' -> X ≡ₚ X' -> ok s L' D' X'.
Proof.
  intros [] HL HD HX. assert (HP : L ++ D ++ X ≡ₚ L' ++ D' ++ X') by (by repeat apply Permutation_app).
  split; try done; [by rewrite <- HL|by rewrite <- HD|by rewrite <- HP|intros q; by rewrite <- HP|].
  intros q en Hq. destruct (ok_holds0 q en Hq) as (d & Hh & Hc). exists d. split; [done|]. intros HqD. apply Hc. by rewrite HD.
Qed.

(** Nothing of the entries outside [T] changes. *)
Definition same_but (T : list nat) (s s' : state) : Prop :=
  forall q en, q ∉ T -> ents s !! q = Some en ->
    ents s' !! q = Some en /\ blocks s' !! (e_ptr en - 8) = blocks s !! (e_ptr en - 8).

Lemma same_refl T s : same_but T s s.
Proof. by intros q en _ Hq. Qed.

Lemma same_but_trans T s s1 s2 : same_but T s s1 -> same_but T s1 s2 -> same_but T s s2.
Proof. intros H1 H2 q en Ht Hq. destruct (H1 q en Ht Hq) as [E1 B1]. destruct (H2 q en Ht E1) as [E2 B2]. by rewrite B2. Qed.

Lemma same_more T T' s s' : T ⊆ T' -> same_but T s s' -> same_but T' s s'.
Proof. intros Hs Hb q en Ht. apply Hb. set_solver. Qed.

Lemma ok_in s L D X q : ok s L D X -> q ∈ L ++ D ++ X -> exists en, ents s !! q = Some en.
Proof. intros H Hq. by apply (ok_ents _ _ _ _ H) in Hq as [en Hen]; exists en. Qed.

(** ** Reading and writing a block *)

Lemma u64_small x : 0 <= x < 2 ^ 64 -> u64 x = x.
Proof. intros Hx. by apply wrap_small. Qed.

Lemma guard_length d : length (guard d) = (16 + length d)%nat.
Proof. unfold guard. rewrite !length_app, !store_length. lia. Qed.

Lemma field_app3 {A} (a b c : list A) n o : n = length b -> o = length a -> field o n (a ++ b ++ c) = b.
Proof. intros -> ->. unfold field. by rewrite drop_app_length, take_app_length. Qed.

Lemma spec_read_sign1 s en d (Q : Z -> state -> Prop) : holds (blocks s) en d -> Q MALLOC_CHECKER_SIGN1 s ->
  spec (read_word e (u64 (e_ptr en - 8)) (u64 (e_ptr en - 8))) s Q.
Proof.
  intros [Hb Hs Hl Hh] HQ. unfold read_word, read_mem. rewrite u64_small by lia. apply spec_bind, spec_bind, spec_gets. rewrite Hb.
  rewrite Z.sub_diag. change (u64 0) with 0. rewrite guard_length. destruct (Z.leb_spec (0 + 8) (Z.of_nat (16 + length d))); [|lia].
  apply spec_ret, spec_ret. unfold guard, field. rewrite drop_0, take_app_length' by (by rewrite store_length).
  by rewrite load_store by (cbn; unfold MALLOC_CHECKER_SIGN1; lia).
Qed.

Lemma spec_read_sign2 s en d (Q : Z -> state -> Prop) : holds (blocks s) en d -> Q MALLOC_CHECKER_SIGN2 s ->
  spec (read_word e (u64 (e_ptr en - 8)) (u64 (e_ptr en + e_size en))) s Q.
Proof.
  intros [Hb Hs Hl Hh] HQ. unfold read_word, read_mem. rewrite (u64_small (e_ptr en - 8)), (u64_small (e_ptr en + e_size en)) by lia. apply spec_bind, spec_bind, spec_gets. rewrite Hb.
  replace (e_ptr en + e_size en - (e_ptr en - 8)) with (8 + e_size en) by lia. rewrite u64_small by lia. rewrite guard_length.
  destruct (Z.leb_spec (8 + e_size en + 8) (Z.of_nat (16 + length d))); [|lia].
  apply spec_ret, spec_ret. unfold guard. rewrite app_assoc, <- (app_nil_r (store e 8 MALLOC_CHECKER_SIGN2)).
  rewrite field_app3 by (rewrite ?length_app, ?store_length; lia). by rewrite load_store by (cbn; unfold MALLOC_CHECKER_SIGN2; lia).
Qed.

Lemma spec_check_signs s en d (Q : unit -> state -> Prop) : holds (blocks s) en d -> Q tt s -> spec (check_signs e en) s Q.
Proof.
  intros Hd HQ. unfold check_signs. apply spec_bind. eapply spec_read_sign1; [exact Hd|]. apply spec_bind, spec_bug_on; [by rewrite Z.eqb_refl|].
  apply spec_bind. eapply spec_read_sign2; [exact Hd|]. apply spec_bug_on; [by rewrite Z.eqb_refl|done].
Qed.

Lemma spec_read_data s en d (Q : list byte -> state -> Prop) : holds (blocks s) en d -> Q d s ->
  spec (read_mem (u64 (e_ptr en - 8)) (e_ptr en) (e_size en)) s Q.
Proof.
  intros [Hb Hs Hl Hh] HQ. unfold read_mem. rewrite u64_small by lia. apply spec_bind, spec_gets. rewrite Hb.
  replace (e_ptr en - (e_ptr en - 8)) with 8 by lia. change (u64 8) with 8. rewrite guard_length.
  destruct (Z.leb_spec (8 + e_size en) (Z.of_nat (16 + length d))); [|lia]. apply spec_ret. unfold guard.
  by rewrite field_app3 by (rewrite ?store_length; lia).
Qed.

Definition with_block (a : Z) (l : list byte) (s : state) : state := set_blocks (<[a := l]> (blocks s)) s.

Lemma memcpy_middle {A} (a b c d : list A) : length d = length b -> memcpy_at (a ++ b ++ c) (length a) d = a ++ d ++ c.
Proof.
  intros Hd. unfold memcpy_at. rewrite take_app_length. f_equal. f_equal. rewrite Hd.
  by rewrite drop_app_add, drop_app_length.
Qed.

Lemma spec_write_data s en d b off (Q : unit -> state -> Prop) : holds (blocks s) en d -> 0 <= off -> off + Z.of_nat (length b) <= e_size en ->
  Q tt (with_block (e_ptr en - 8) (guard (memcpy_at d (Z.to_nat off) b)) s) ->
  spec (write_mem (u64 (e_ptr en - 8)) (e_ptr en + off) b) s Q.
Proof.
  intros [Hb Hs Hl Hh] Ho Hoff HQ. unfold write_mem. rewrite u64_small by lia. apply spec_bind, spec_gets. rewrite Hb.
  replace (e_ptr en + off - (e_ptr en - 8)) with (8 + off) by lia. rewrite u64_small by lia. rewrite guard_length.
  destruct (Z.leb_spec (8 + off + Z.of_nat (length b)) (Z.of_nat (16 + length d))); [|lia]. apply spec_modify.
  replace (memcpy_at (guard d) (Z.to_nat (8 + off)) b) with (guard (memcpy_at d (Z.to_nat off) b)); [exact HQ|].
  unfold guard, memcpy_at. rewrite <- !app_assoc.
  replace (Z.to_nat (8 + off)) with (8 + Z.to_nat off)%nat by lia.
  rewrite take_app_ge by (rewrite store_length; lia). rewrite store_length. replace (8 + Z.to_nat off - 8)%nat with (Z.to_nat off) by lia.
  rewrite take_app_le by lia. rewrite drop_app_ge by (rewrite store_length; lia). rewrite store_length.
  replace (8 + Z.to_nat off + length b - 8)%nat with (Z.to_nat off + length b)%nat by lia. rewrite drop_app_le by lia. by rewrite <- app_assoc.
Qed.

(** ** Moves *)

Lemma holds_cong bs bs' en en' d : holds bs en d -> bs' !! (e_ptr en - 8) = bs !! (e_ptr en - 8) ->
  e_ptr en' = e_ptr en -> e_size en' = e_size en -> holds bs' en' d.
Proof. intros [] Hb Hp Hs. split; rewrite ?Hp, ?Hs; try done. by rewrite Hb. Qed.

Lemma ok_later s n L D X : (tick s <= n)%nat -> ok s L D X -> ok (set_tick n s) L D X.
Proof. intros Hn []. split; try done. intros q Hq. cbn. specialize (ok_new0 q Hq). lia. Qed.

Lemma ok_entry s L D X q : ok s L D X -> q ∈ L ++ D ++ X ->
  exists en d, ents s !! q = Some en /\ holds (blocks s) en d /\ (q ∈ D -> e_crc32 en = crc32_le d).
Proof.
  intros H Hq. destruct (ok_in s L D X q H Hq) as [en Hen]. destruct (ok_holds _ _ _ _ H q en Hen) as (d & Hd & Hc). by exists en, d.
Qed.

Lemma ok_base s L D X q q' en en' : ok s L D X -> ents s !! q = Some en -> ents s !! q' = Some en' -> q <> q' -> e_ptr en - 8 <> e_ptr en' - 8.
Proof. intros H H1 H2 Hn E. apply Hn. eapply (ok_inj _ _ _ _ H); [done..|lia]. Qed.

(** New contents of a block nobody checks. *)
Lemma ok_write s L D X q en d d' : ok s L D X -> q ∉ D -> ents s !! q = Some en -> holds (blocks s) en d -> length d' = length d ->
  ok (with_block (e_ptr en - 8) (guard d') s) L D X /\ holds (blocks (with_block (e_ptr en - 8) (guard d') s)) en d' /\
  same_but [q] s (with_block (e_ptr en - 8) (guard d') s).
Proof.
  intros H HqD Hq Hd Hl. assert (Hn : holds (blocks (with_block (e_ptr en - 8) (guard d') s)) en d').
  { destruct Hd as [Hb Hs Hlo Hhi]. split; cbn; [by rewrite lookup_insert_eq|by rewrite Hl|done..]. }
  assert (Hsame : same_but [q] s (with_block (e_ptr en - 8) (guard d') s)).
  { intros q' en' Hq' Hen'. split; [done|]. cbn. apply lookup_insert_ne. eapply ok_base; [exact H|done..|]. set_solver. }
  split; [|done]. pose proof H as H0. destruct H. split; try done.
  - intros q' en' Hen'. destruct (decide (q' = q)) as [->|Hne]; [exists d'; split; [by simplify_eq/=|done]|].
    destruct (ok_holds0 q' en' Hen') as (d1 & Hd1 & Hc). exists d1. split; [|done]. eapply holds_cong; [exact Hd1| |done..].
    apply (Hsame q' en'); [set_solver|done].
  - intros a. cbn. intros [l Hla]. destruct (decide (a = e_ptr en - 8)) as [->|Ha]; [by exists q, en|].
    rewrite lookup_insert_ne in Hla by done. by apply ok_blocks0.
  - assert (Hgl : length (guard d') = length (guard d)) by (by rewrite !guard_length, Hl). destruct Hd as [Hb _ _ _]. cbn.
    intros a b l l' Ha Hb' Hne. apply lookup_insert_Some in Ha as [[<- <-]|[Ha1 Ha]]; apply lookup_insert_Some in Hb' as [[Hb1 <-]|[Hb1 Hb']];
      [by subst|rewrite Hgl; by eapply ok_apart0|subst b; rewrite Hgl; by eapply ok_apart0|by eapply ok_apart0].
Qed.

Lemma perm_swap3 (q : nat) L D X : q :: L ++ D ++ X ≡ₚ L ++ D ++ q :: X.
Proof. solve_Permutation. Qed.

Lemma ok_take s L D X i q : ok s L D X -> q ∈ slot i (entries_list s) ->
  exists L', L ≡ₚ q :: L' /\ ok (set_entries (list_del i q (entries_list s)) s) L' D (q :: X).
Proof.
  intros H Hq. assert (HN : NoDup (concat (entries_list s))).
  { rewrite (ok_live _ _ _ _ H). pose proof (ok_nodup _ _ _ _ H) as N. by apply NoDup_app in N as (N & _). }
  pose proof (list_del_perm i q _ HN Hq) as P. exists (concat (list_del i q (entries_list s))).
  assert (HL : L ≡ₚ q :: concat (list_del i q (entries_list s))) by (by rewrite <- P, (ok_live _ _ _ _ H)).
  split; [done|]. destruct H. assert (HP : L ++ D ++ X ≡ₚ concat (list_del i q (entries_list s)) ++ D ++ q :: X).
  { rewrite <- perm_swap3. change (?x :: ?y ++ ?z) with ((x :: y) ++ z). by apply Permutation_app. }
  split; try done; [cbn; unfold list_del; by rewrite length_alter| |by rewrite <- HP|intros q'; by rewrite <- HP].
  intros j q' en Hq' Hen. cbn in Hq', Hen. apply (ok_bucket0 j q' en); [|done]. destruct (decide (j = i)) as [->|Hj].
  - rewrite slot_del in Hq'. by apply list_elem_of_filter in Hq' as [_ Hq'].
  - unfold list_del in Hq'. by rewrite slot_alter_ne in Hq' by done.
Qed.

Lemma ok_take_delay s L D X i q : ok s L D X -> q ∈ slot i (delay_entries_list s) ->
  exists D', D ≡ₚ q :: D' /\ ok (set_delay (list_del i q (delay_entries_list s)) s) L D' (q :: X).
Proof.
  intros H Hq. assert (HN : NoDup (concat (delay_entries_list s))).
  { rewrite (ok_delay _ _ _ _ H). pose proof (ok_nodup _ _ _ _ H) as N. apply NoDup_app in N as (_ & _ & N). by apply NoDup_app in N as (N & _). }
  pose proof (list_del_perm i q _ HN Hq) as P. exists (concat (list_del i q (delay_entries_list s))).
  assert (HD : D ≡ₚ q :: concat (list_del i q (delay_entries_list s))) by (by rewrite <- P, (ok_delay _ _ _ _ H)).
  split; [done|]. destruct H. assert (HP : L ++ D ++ X ≡ₚ L ++ concat (list_del i q (delay_entries_list s)) ++ q :: X).
  { apply Permutation_app_head. rewrite <- Permutation_middle. change (?x :: ?y ++ ?z) with ((x :: y) ++ z). by apply Permutation_app_tail. }
  split; try done; [cbn; unfold list_del; by rewrite length_alter|by rewrite <- HP|intros q'; by rewrite <- HP|].
  intros q' en Hen. destruct (ok_holds0 q' en Hen) as (d & Hd & Hc). exists d. split; [done|]. intros Hq'. apply Hc. rewrite HD. by right.
Qed.

(** An entry with a checksum goes to a list that waits. *)
Lemma ok_put_delay s L D X i q en en' d : ok s L D (q :: X) -> (i < NR)%nat -> ents s !! q = Some en -> holds (blocks s) en d ->
  e_ptr en' = e_ptr en -> e_size en' = e_size en -> e_crc32 en' = crc32_le d ->
  ok (set_delay (list_add i q (delay_entries_list s)) (set_ents (<[q := en']> (ents s)) s)) L (q :: D) X.
Proof.
  intros H Hi Hq Hd Hp Hs Hc. assert (HP : L ++ D ++ q :: X ≡ₚ L ++ (q :: D) ++ X) by (apply Permutation_app_head; symmetry; apply Permutation_middle).
  assert (Hents : forall q' en1, <[q := en']> (ents s) !! q' = Some en1 -> exists en0, ents s !! q' = Some en0 /\ e_ptr en1 = e_ptr en0 /\ e_size en1 = e_size en0).
  { intros q' en1 H1. apply lookup_insert_Some in H1 as [[<- <-]|[_ H1]]; [by exists en|by exists en1]. }
  destruct H. split; try done; cbn.
  - rewrite list_add_perm by lia. by apply perm_skip.
  - unfold list_add. by rewrite length_alter.
  - intros j q' en1 Hq' H1. destruct (Hents q' en1 H1) as (en0 & H0 & -> & _). by apply (ok_bucket0 j q').
  - by rewrite <- HP.
  - intros q'. rewrite <- HP, <- ok_ents0. rewrite lookup_insert_is_Some. split; [|destruct (decide (q = q')); naive_solver]. intros [->|[_ ?]]; [by exists en|done].
  - intros q' en1 H1. apply lookup_insert_Some in H1 as [[<- <-]|[Hne H1]].
    + exists d. split; [|done]. eapply holds_cong; [exact Hd|done..].
    + destruct (ok_holds0 q' en1 H1) as (d1 & Hd1 & Hc1). exists d1. split; [by eapply holds_cong|]. intros Hin. apply Hc1. set_solver.
  - intros q1 q2 en1 en2 H1 H2 E. destruct (Hents _ _ H1) as (? & ? & E1 & _), (Hents _ _ H2) as (? & ? & E2 & _). eapply ok_inj0; [done..|lia].
  - intros a Ha. destruct (ok_blocks0 a Ha) as (q' & en0 & H0 & ->). destruct (decide (q' = q)) as [->|Hne].
    + exists q, en'. rewrite lookup_insert_eq. split; [done|]. simplify_eq. lia.
    + exists q', en0. by rewrite lookup_insert_ne by done.
  - intros q' Hq'. apply lookup_insert_is_Some in Hq' as [<-|[_ Hq']]; apply ok_new0; [by exists en|done].
Qed.

(** Entry and block are given back. *)
Lemma mc_ok_free s L D X q en : ok s L D (q :: X) -> ents s !! q = Some en ->
  ok (set_ents (delete q (ents s)) (set_blocks (delete (e_ptr en - 8) (blocks s)) s)) L D X.
Proof.
  intros H Hq. pose proof (ok_base s L D (q :: X)) as Hbase. pose proof H as H0. destruct H. rewrite <- perm_swap3 in ok_nodup0. apply NoDup_cons in ok_nodup0 as [Hnew N].
  assert (Hents : forall q', is_Some (delete q (ents s) !! q') <-> q' ∈ L ++ D ++ X).
  { intros q'. rewrite lookup_delete_is_Some, ok_ents0, <- perm_swap3, elem_of_cons. split; [naive_solver|]. intros Hq'. split; [|by right]. by intros <-. }
  split; try done; cbn.
  - intros j q' en1 Hq' H1. apply lookup_delete_Some in H1 as [_ H1]. by apply (ok_bucket0 j q').
  - intros q' en1 H1. apply lookup_delete_Some in H1 as [Hne H1]. destruct (ok_holds0 q' en1 H1) as (d1 & Hd1 & Hc1). exists d1. split; [|done].
    eapply holds_cong; [exact Hd1| |done..]. cbn. apply lookup_delete_ne. by apply (Hbase q q').
  - intros q1 q2 en1 en2 H1 H2 E. apply lookup_delete_Some in H1 as [_ H1], H2 as [_ H2]. by eapply ok_inj0.
  - intros a Ha. apply lookup_delete_is_Some in Ha as [Hne Ha]. destruct (ok_blocks0 a Ha) as (q' & en0 & H1 & ->). exists q', en0.
    rewrite lookup_delete_ne; [done|]. intros <-. simplify_eq.
  - intros a b l l' Ha Hb. apply lookup_delete_Some in Ha as [_ Ha], Hb as [_ Hb]. by eapply ok_apart0.
  - intros q' Hq'. apply lookup_delete_is_Some in Hq' as [_ Hq']. by apply ok_new0.
Qed.

End Checker.

End MallocCheckerSpec.
