(* ===== verification/MallocCheckerCalls.v ===== *)
(** * The calls of the checked allocator

    Each call as a move of entries between the lists of [ok], and what it leaves
    alone. *)

From Stdlib Require Import ZArith Lia Permutation.
From coqutil Require Import Byte.
From stdpp Require Import base list gmap.
From S2P Require Import Prelude Table XXHash Bytes StMonad MallocChecker MallocCheckerSpec.
Import XXHash Bytes StMonad MallocChecker MallocCheckerSpec Table.
Local Open Scope Z_scope.
Local Open Scope stm_scope.

Module MallocCheckerCalls.

Section Calls.
Context (e : XXH_endianess) (crc32_le : list byte -> Z).

Abbreviation ok := (ok e crc32_le).

Lemma spec_get_entry s q en (Q : malloc_entry -> state -> Prop) : ents s !! q = Some en -> Q en s -> spec (get_entry q) s Q.
Proof. intros Hq HQ. unfold get_entry. apply spec_bind, spec_gets. by rewrite Hq. Qed.

Lemma spec_put_entry s q en en' (Q : unit -> state -> Prop) : ents s !! q = Some en -> Q tt (set_ents (<[q := en']> (ents s)) s) ->
  spec (put_entry q en') s Q.
Proof. intros Hq HQ. unfold put_entry. apply spec_bind. eapply spec_get_entry; [exact Hq|]. by apply spec_modify. Qed.

Lemma spec_kfree_entry s q en (Q : unit -> state -> Prop) : ents s !! q = Some en -> Q tt (set_ents (delete q (ents s)) s) ->
  spec (kfree_entry q) s Q.
Proof. intros Hq HQ. unfold kfree_entry. apply spec_bind. eapply spec_get_entry; [exact Hq|]. by apply spec_modify. Qed.

(** What calls that touch no table keep. *)
Definition kept (s s' : state) : Prop :=
  entries_list s' = entries_list s /\ nr_allocs s' = nr_allocs s /\ nr_frees s' = nr_frees s /\ ktime s' = ktime s.

Lemma kept_refl s : kept s s.
Proof. done. Qed.

Lemma kept_trans s s1 s2 : kept s s1 -> kept s1 s2 -> kept s s2.
Proof. unfold kept. intuition congruence. Qed.

Lemma spec_fill_cc s L D X q en d (Q : unit -> state -> Prop) : ok s L D X -> q ∉ D -> ents s !! q = Some en -> holds e (blocks s) en d ->
  (forall s', ok s' L D X -> holds e (blocks s') en (cc (e_size en)) -> same_but [q] s s' -> ents s' = ents s ->
    kept s s' -> delay_entries_list s' = delay_entries_list s -> Q tt s') ->
  spec (fill_cc en) s Q.
Proof.
  intros H HD Hq Hd HQ. unfold fill_cc. pose proof (h_size _ _ _ _ Hd) as Hs.
  replace (e_ptr en) with (e_ptr en + 0) at 2 by lia. eapply (spec_write_data e s en d); [done|lia|rewrite length_replicate; lia|].
  assert (E : memcpy_at d (Z.to_nat 0) (cc (e_size en)) = cc (e_size en)).
  { unfold memcpy_at. rewrite take_0. cbn [app Z.to_nat]. rewrite drop_ge by (unfold cc; rewrite length_replicate; lia). by rewrite app_nil_r. }
  unfold cc in E. rewrite E. destruct (ok_write e crc32_le s L D X q en d (cc (e_size en)) H HD Hq Hd) as (H' & Hd' & Hsame);
    [unfold cc; rewrite length_replicate; lia|]. by apply HQ.
Qed.

Lemma spec_kfree s a l (Q : unit -> state -> Prop) : blocks s !! a = Some l -> Q tt (set_blocks (delete a (blocks s)) s) -> spec (kfree a) s Q.
Proof. intros Ha HQ. unfold kfree. apply spec_bind, spec_gets. rewrite Ha. by apply spec_modify. Qed.

Lemma ok_not_delayed s L D X q : ok s L D (q :: X) -> q ∉ D.
Proof. intros H Hq. pose proof (ok_nodup _ _ _ _ _ _ H) as N. apply NoDup_app in N as (_ & _ & N). apply NoDup_app in N as (_ & N & _). apply (N q Hq). by left. Qed.

Lemma ok_mine s L D X q : ok s L D (q :: X) -> exists en d, ents s !! q = Some en /\ holds e (blocks s) en d.
Proof. intros H. destruct (ok_entry e crc32_le s L D (q :: X) q H) as (en & d & Hq & Hd & _); [set_solver|]. by exists en, d. Qed.

Lemma spec_release_entry s L D X q (Q : unit -> state -> Prop) : ok s L D (q :: X) ->
  (forall s', ok s' L D X -> same_but [q] s s' -> kept s s' -> delay_entries_list s' = delay_entries_list s -> Q tt s') ->
  spec (release_entry e q) s Q.
Proof.
  intros H HQ. destruct (ok_mine s L D X q H) as (en & d & Hq & Hd). pose proof (ok_not_delayed s L D X q H) as HD.
  unfold release_entry. apply spec_bind. eapply spec_get_entry; [exact Hq|]. apply spec_bind. eapply (spec_check_signs e); [exact Hd|].
  apply spec_bind. eapply spec_fill_cc; [exact H|done..|]. intros s1 H1 Hd1 Hsame1 He1 Hk1 Hdl1. rewrite <- He1 in Hq.
  apply spec_bind. rewrite u64_small by (destruct Hd; lia). eapply spec_kfree; [apply Hd1|]. eapply spec_kfree_entry; [exact Hq|].
  pose proof (mc_ok_free e crc32_le s1 L D X q en H1 Hq) as H2. apply HQ; [exact H2| |by apply (kept_trans s s1)|done].
  apply (same_but_trans _ s s1); [done|]. intros q' en' Hne Hq'. cbn. assert (q <> q') by set_solver. split.
  - by rewrite lookup_delete_ne.
  - apply lookup_delete_ne. by apply (ok_base e crc32_le s1 L D (q :: X) q q').
Qed.

Lemma spec_delay_check s L D X q (Q : unit -> state -> Prop) : ok s L D X -> q ∈ D -> Q tt s -> spec (delay_check e crc32_le q) s Q.
Proof.
  intros H Hq HQ. destruct (ok_entry e crc32_le s L D X q H) as (en & d & Hen & Hd & Hc); [set_solver|].
  unfold delay_check. apply spec_bind. eapply spec_get_entry; [exact Hen|]. apply spec_bind. eapply (spec_check_signs e); [exact Hd|].
  apply spec_bind. eapply (spec_read_data e); [exact Hd|]. apply spec_bug_on; [|done]. by rewrite Hc, Z.eqb_refl.
Qed.

Lemma spec_check_and_release s L D X q en (Q : unit -> state -> Prop) : ok s L D (q :: X) -> ents s !! q = Some en ->
  (forall s' en' t, ok s' L (q :: D) X -> same_but [q] s s' -> kept s s' -> delay_entries_list s' = list_add (bucket (e_ptr en)) q (delay_entries_list s) ->
    ents s' !! q = Some en' -> e_ptr en' = e_ptr en -> e_size en' = e_size en -> holds e (blocks s') en' (cc (e_size en)) ->
    time_to_live en' = ktime s t + 1000000000 -> Q tt s') ->
  spec (check_and_release_entry e crc32_le q) s Q.
Proof.
  intros H Hq HQ. destruct (ok_mine s L D X q H) as (en' & d & Hq' & Hd). simplify_eq. pose proof (ok_not_delayed s L D X q H) as HD.
  unfold check_and_release_entry. apply spec_bind. eapply spec_get_entry; [exact Hq|]. apply spec_bind. eapply (spec_check_signs e); [exact Hd|].
  apply spec_bind. eapply spec_fill_cc; [exact H|done..|]. intros s1 H1 Hd1 Hsame1 He1 Hk1 Hdl1. rewrite <- He1 in Hq.
  apply spec_bind. eapply (spec_read_data e); [exact Hd1|]. apply spec_bind. unfold kcall, spec at 1. apply spec_bind, spec_gets.
  apply spec_bind. eapply spec_put_entry; [exact Hq|]. apply spec_modify. set (en2 := Entry _ _ _ _ _).
  pose proof (ok_later e crc32_le s1 (S (tick s1)) L D (q :: X) ltac:(lia) H1) as H2.
  pose proof (ok_put_delay e crc32_le _ L D X (bucket (e_ptr en)) q en en2 _ H2 (bucket_bound _) Hq Hd1 eq_refl eq_refl eq_refl) as H3.
  apply (HQ _ en2 (tick s1)); [exact H3| |by apply (kept_trans s s1)|cbn; by rewrite Hdl1|by apply lookup_insert_eq|done|done| |].
  - apply (same_but_trans _ s s1); [done|]. intros q' en' Hne Hq2. cbn. rewrite lookup_insert_ne by set_solver. done.
  - eapply holds_cong; [exact Hd1|done..].
  - cbn. destruct Hk1 as (_ & _ & _ & Hk1). by rewrite Hk1.
Qed.

(** ** Taking lists out *)

Lemma ok_nodup_live s L D X : ok s L D X -> NoDup (concat (entries_list s)).
Proof. intros H. rewrite (ok_live _ _ _ _ _ _ H). pose proof (ok_nodup _ _ _ _ _ _ H) as N. by apply NoDup_app in N as (N & _). Qed.

Lemma ok_nodup_delay s L D X : ok s L D X -> NoDup (concat (delay_entries_list s)).
Proof.
  intros H. rewrite (ok_delay _ _ _ _ _ _ H). pose proof (ok_nodup _ _ _ _ _ _ H) as N. apply NoDup_app in N as (_ & _ & N). by apply NoDup_app in N as (N & _).
Qed.

Lemma spec_take_all s L D X i (Q : list nat -> state -> Prop) : ok s L D X ->
  (forall found L' t, ok (set_entries t s) L' D (found ++ X) -> L ≡ₚ found ++ L' -> slot i t = [] ->
    (forall j, j <> i -> slot j t = slot j (entries_list s)) -> Q found (set_entries t s)) ->
  spec (for_each (slot i (entries_list s)) (fun curr found =>
    do* modify (fun s => set_entries (list_del i curr (entries_list s)) s) in ret (curr :: found)) []) s Q.
Proof.
  intros H HQ. apply (spec_for_each (fun todo found s' => exists L' t, s' = set_entries t s /\ ok s' L' D (found ++ X) /\ L ≡ₚ found ++ L' /\
    slot i t = todo /\ forall j, j <> i -> slot j t = slot j (entries_list s))).
  - exists L, (entries_list s). by destruct s.
  - intros x todo found s1 _ (L1 & t1 & -> & H1 & HL & Hi & Hj). apply spec_bind, spec_modify, spec_ret.
    destruct (ok_take e crc32_le _ L1 D (found ++ X) i x H1) as (L2 & HL2 & H2); [cbn; rewrite Hi; by left|].
    exists L2, (list_del i x t1). split; [done|]. split; [done|]. split; [|split].
    + by apply (perm_into found L1).
    + by apply slot_todo; [apply (ok_nodup_live _ _ _ _ H1)|].
    + intros j Hne. unfold list_del. rewrite slot_alter_ne by done. by apply Hj.
  - intros found s1 (L1 & t1 & -> & H1 & HL & Hi & Hj). by apply (HQ found L1).
Qed.

Lemma spec_take_all_delay s L D X i (Q : list nat -> state -> Prop) : ok s L D X ->
  (forall found D' t, ok (set_delay t s) L D' (found ++ X) -> D ≡ₚ found ++ D' -> slot i t = [] ->
    (forall j, j <> i -> slot j t = slot j (delay_entries_list s)) -> Q found (set_delay t s)) ->
  spec (for_each (slot i (delay_entries_list s)) (fun curr found =>
    do* modify (fun s => set_delay (list_del i curr (delay_entries_list s)) s) in ret (curr :: found)) []) s Q.
Proof.
  intros H HQ. apply (spec_for_each (fun todo found s' => exists D' t, s' = set_delay t s /\ ok s' L D' (found ++ X) /\ D ≡ₚ found ++ D' /\
    slot i t = todo /\ forall j, j <> i -> slot j t = slot j (delay_entries_list s))).
  - exists D, (delay_entries_list s). by destruct s.
  - intros x todo found s1 _ (D1 & t1 & -> & H1 & HD & Hi & Hj). apply spec_bind, spec_modify, spec_ret.
    destruct (ok_take_delay e crc32_le _ L D1 (found ++ X) i x H1) as (D2 & HD2 & H2); [cbn; rewrite Hi; by left|].
    exists D2, (list_del i x t1). split; [done|]. split; [done|]. split; [|split].
    + by apply (perm_into found D1).
    + by apply slot_todo; [apply (ok_nodup_delay _ _ _ _ H1)|].
    + intros j Hne. unfold list_del. rewrite slot_alter_ne by done. by apply Hj.
  - intros found s1 (D1 & t1 & -> & H1 & HD & Hi & Hj). by apply (HQ found D1).
Qed.

(** ** Giving entries back *)

Definition ptrs (s : state) (qs : list nat) : list Z := map (fun q => from_option e_ptr 0 (ents s !! q)) qs.

Lemma ptrs_same T s s' qs : same_but T s s' -> (forall q, q ∈ qs -> q ∉ T /\ is_Some (ents s !! q)) -> ptrs s' qs = ptrs s qs.
Proof.
  intros Hs Hq. unfold ptrs. apply map_ext_in. intros q Hin. destruct (Hq q) as [Ht [en Hen]]; [by apply list_elem_of_In|].
  destruct (Hs q en Ht Hen) as [-> _]. by rewrite Hen.
Qed.

Lemma ok_apart_lists s L D X q : ok s L D (q :: X) -> q ∉ L /\ q ∉ D /\ q ∉ X.
Proof.
  intros H. pose proof (ok_nodup _ _ _ _ _ _ H) as N. rewrite <- perm_swap3 in N. apply NoDup_cons in N as [N _]. set_solver.
Qed.

Lemma spec_release_all found : forall s L D X (Q : unit -> state -> Prop), ok s L D (found ++ X) ->
  (forall s', ok s' L D X -> same_but found s s' -> kept s s' -> delay_entries_list s' = delay_entries_list s -> Q tt s') ->
  spec (for_each found (fun curr _ => release_entry e curr) tt) s Q.
Proof.
  induction found as [|q found IH]; intros s L D X Q H HQ; cbn [for_each]; [apply spec_ret; apply HQ; [done|apply same_refl|done..]|].
  apply spec_bind. eapply spec_release_entry; [exact H|]. intros s1 H1 Hs1 Hk1 Hd1. eapply IH; [exact H1|]. intros s2 H2 Hs2 Hk2 Hd2.
  apply HQ; [done| |by eapply kept_trans|by rewrite Hd2]. apply (same_but_trans _ s s1); [eapply same_more, Hs1; set_solver|eapply same_more, Hs2; set_solver].
Qed.

Lemma spec_delayed_release_all found : forall s L D X (Q : unit -> state -> Prop), ok s L D (found ++ X) ->
  (forall q en d, q ∈ found -> ents s !! q = Some en -> holds e (blocks s) en d -> e_crc32 en = crc32_le d) ->
  (forall s', ok s' L D X -> same_but found s s' -> kept s s' -> delay_entries_list s' = delay_entries_list s -> Q tt s') ->
  spec (for_each found (fun curr _ => do* delay_check e crc32_le curr in release_entry e curr) tt) s Q.
Proof.
  induction found as [|q found IH]; intros s L D X Q H Hc HQ; cbn [for_each]; [apply spec_ret; apply HQ; [done|apply same_refl|done..]|].
  destruct (ok_mine s L D (found ++ X) q H) as (en & d & Hq & Hd). destruct (ok_apart_lists s L D (found ++ X) q H) as (_ & _ & Hn).
  apply spec_bind, spec_bind. unfold delay_check. apply spec_bind. eapply spec_get_entry; [exact Hq|]. apply spec_bind. eapply (spec_check_signs e); [exact Hd|].
  apply spec_bind. eapply (spec_read_data e); [exact Hd|]. apply spec_bug_on; [by rewrite (Hc q en d ltac:(by left) Hq Hd), Z.eqb_refl|].
  eapply spec_release_entry; [exact H|]. intros s1 H1 Hs1 Hk1 Hd1. eapply IH; [exact H1| |].
  - intros q' en' d' Hin Hq' Hd'. destruct (ok_entry e crc32_le s L D (q :: found ++ X) q' H) as (en0 & d0 & H0 & _); [set_solver|].
    assert (Hne : q' ∉ [q]) by set_solver. destruct (Hs1 q' en0 Hne H0) as [E B]. simplify_eq.
    apply (Hc q' en'); [by right|done|]. destruct Hd' as [Hb ? ? ?]. split; [by rewrite <- B|done..].
  - intros s2 H2 Hs2 Hk2 Hd2. apply HQ; [done| |by eapply kept_trans|by rewrite Hd2].
    apply (same_but_trans _ s s1); [eapply same_more, Hs1; set_solver|eapply same_more, Hs2; set_solver].
Qed.

Lemma spec_report_all found : forall leaks s L D X (Q : list Z -> state -> Prop), ok s L D (found ++ X) ->
  (forall s', ok s' L (rev found ++ D) X -> same_but found s s' -> kept s s' -> Q (rev (ptrs s found) ++ leaks) s') ->
  spec (for_each found (fun curr leaks =>
    let* en := get_entry curr in
    do* check_and_release_entry e crc32_le curr in ret (e_ptr en :: leaks)) leaks) s Q.
Proof.
  induction found as [|q found IH]; intros leaks s L D X Q H HQ; cbn [for_each]; [apply spec_ret; apply HQ; [done|apply same_refl|done..]|].
  destruct (ok_mine s L D (found ++ X) q H) as (en & d & Hq & Hd). destruct (ok_apart_lists s L D (found ++ X) q H) as (_ & _ & Hn).
  apply spec_bind, spec_bind. eapply spec_get_entry; [exact Hq|]. apply spec_bind.
  eapply spec_check_and_release; [exact H|exact Hq|]. intros s1 en1 t1 H1 Hs1 Hk1 _ _ _ _ _ _. apply spec_ret. eapply IH; [exact H1|]. intros s2 H2 Hs2 Hk2.
  assert (E : ptrs s1 found = ptrs s found).
  { eapply ptrs_same; [exact Hs1|]. intros q' Hq'. split; [set_solver|]. apply (ok_ents _ _ _ _ _ _ H). set_solver. }
  rewrite E. replace (rev (ptrs s found) ++ e_ptr en :: leaks) with (rev (ptrs s (q :: found)) ++ leaks);
    [|cbn [ptrs map rev]; rewrite Hq, <- app_assoc; done].
  apply HQ; [cbn [rev]; by rewrite <- app_assoc| |by eapply kept_trans].
  apply (same_but_trans _ s s1); [eapply same_more, Hs1; set_solver|eapply same_more, Hs2; set_solver].
Qed.

(** ** The end of the checker *)

Lemma spec_deinit_list s L D X i leaks (Q : list Z -> state -> Prop) : ok s L D X ->
  (forall s' L' F, ok s' L' (F ++ D) X -> L ≡ₚ F ++ L' -> same_but F s s' -> slot i (entries_list s') = [] ->
    (forall j, j <> i -> slot j (entries_list s') = slot j (entries_list s)) -> Q (rev (ptrs s F) ++ leaks) s') ->
  spec (deinit_list e crc32_le i leaks) s Q.
Proof.
  intros H HQ. unfold deinit_list. apply spec_bind, spec_gets, spec_bind. eapply spec_take_all; [exact H|].
  intros F L1 t1 H1 HL Hi Hj. eapply spec_report_all; [exact H1|]. intros s2 H2 Hs2 (Ht & _). change (ptrs (set_entries t1 s) F) with (ptrs s F).
  cbn in Ht. apply (HQ s2 L1 F); [|done..|by rewrite Ht|by intros j Hne; rewrite Ht, Hj].
  eapply mc_ok_perm; [exact H2|done| |done]. apply Permutation_app_tail. symmetry. apply Permutation_rev.
Qed.

Lemma ok_disjoint_live s L D X F L' : ok s L D X -> L ≡ₚ F ++ L' -> forall q, q ∈ L' -> q ∉ F.
Proof.
  intros H HL q HqL HqF. pose proof (ok_nodup _ _ _ _ _ _ H) as N. apply NoDup_app in N as (N & _). rewrite HL in N.
  apply NoDup_app in N as (_ & N & _). by apply (N q).
Qed.

Lemma spec_deinit_live s L D X (Q : list Z -> state -> Prop) : ok s L D X ->
  (forall s' leaks, ok s' [] (L ++ D) X -> same_but L s s' -> leaks ≡ₚ ptrs s L -> Q leaks s') ->
  spec (for_each (seq 0 NR) (deinit_list e crc32_le) []) s Q.
Proof.
  intros H HQ. apply (spec_for_each (fun todo leaks s' => exists L' F, ok s' L' (F ++ D) X /\ L ≡ₚ F ++ L' /\ leaks ≡ₚ ptrs s F /\ same_but F s s' /\
    forall j, j ∉ todo -> (j < NR)%nat -> slot j (entries_list s') = [])).
  - exists L, []. split; [done|]. split; [done|]. split; [done|]. split; [apply same_refl|]. intros j Hj Hlt. exfalso. apply Hj, elem_of_seq. lia.
  - intros i todo leaks s1 _ (L1 & F1 & H1 & HL1 & Hk1 & Hs1 & He1). eapply spec_deinit_list; [exact H1|].
    intros s2 L2 F2 H2 HL2 Hs2 Hi Hj. assert (E : ptrs s1 F2 = ptrs s F2).
    { eapply ptrs_same; [exact Hs1|]. intros q Hq. assert (q ∈ L1) by (rewrite HL2; set_solver).
      split; [by apply (ok_disjoint_live s L D X F1 L1)|]. apply (ok_ents _ _ _ _ _ _ H), elem_of_app. left. rewrite HL1. set_solver. }
    exists L2, (F2 ++ F1). split; [by rewrite <- app_assoc|]. split; [|split; [|split]].
    + transitivity (F1 ++ F2 ++ L2); [by rewrite HL1; apply Permutation_app_head|]. rewrite !app_assoc. apply Permutation_app_tail, Permutation_app_comm.
    + rewrite E. unfold ptrs in *. rewrite map_app. apply Permutation_app; [symmetry; apply Permutation_rev|done].
    + apply (same_but_trans _ s s1); [eapply same_more, Hs1; set_solver|eapply same_more, Hs2; set_solver].
    + intros j Hjt Hlt. destruct (decide (j = i)) as [->|Hne]; [done|]. rewrite Hj by done. apply He1; [set_solver|done].
  - intros leaks s1 (L1 & F1 & H1 & HL1 & Hk1 & Hs1 & He1). assert (EL : L1 = []).
    { apply Permutation_nil. rewrite <- (ok_live _ _ _ _ _ _ H1). rewrite (slots_empty NR); [done|apply (ok_lists _ _ _ _ _ _ H1)|done]. }
    subst L1. rewrite app_nil_r in HL1. apply HQ; [|eapply same_more, Hs1; intros q; by rewrite HL1|].
    + eapply mc_ok_perm; [exact H1|done|by apply Permutation_app_tail|done].
    + rewrite Hk1. unfold ptrs. by apply Permutation_map.
Qed.

Lemma guard_inj d d' : length d = length d' -> guard e d = guard e d' -> d = d'.
Proof. unfold guard. intros Hl E. apply app_inv_head in E. by apply app_inj_1 in E as [E _]. Qed.

Lemma holds_inj bs en d d' : holds e bs en d -> holds e bs en d' -> d = d'.
Proof. intros [B1 S1 _ _] [B2 S2 _ _]. apply guard_inj; [lia|congruence]. Qed.

Lemma spec_deinit_delay_list s L D X i (Q : unit -> state -> Prop) : ok s L D X ->
  (forall s' D' F, ok s' L D' X -> D ≡ₚ F ++ D' -> same_but F s s' -> slot i (delay_entries_list s') = [] ->
    (forall j, j <> i -> slot j (delay_entries_list s') = slot j (delay_entries_list s)) -> Q tt s') ->
  spec (deinit_delay_list e crc32_le i) s Q.
Proof.
  intros H HQ. unfold deinit_delay_list. apply spec_bind, spec_gets, spec_bind. eapply spec_take_all_delay; [exact H|].
  intros F D1 t1 H1 HD Hi Hj. eapply spec_delayed_release_all; [exact H1| |].
  - intros q en d Hq Hen Hd. destruct (ok_holds _ _ _ _ _ _ H q en Hen) as (d0 & Hd0 & Hc).
    rewrite (holds_inj (blocks s) en d d0); [|done..]. apply Hc. rewrite HD. set_solver.
  - intros s2 H2 Hs2 Hk Ht. cbn in Ht. apply (HQ s2 D1 F); [done..|by rewrite Ht|by intros j Hne; rewrite Ht, Hj].
Qed.

Lemma spec_deinit_delay s L D X (Q : unit -> state -> Prop) : ok s L D X ->
  (forall s', ok s' L [] X -> same_but D s s' -> Q tt s') ->
  spec (for_each (seq 0 NR) (fun i _ => deinit_delay_list e crc32_le i) tt) s Q.
Proof.
  intros H HQ. apply (spec_for_each (fun todo _ s' => exists D' F, ok s' L D' X /\ D ≡ₚ F ++ D' /\ same_but F s s' /\
    forall j, j ∉ todo -> (j < NR)%nat -> slot j (delay_entries_list s') = [])).
  - exists D, []. split; [done|]. split; [done|]. split; [apply same_refl|]. intros j Hj Hlt. exfalso. apply Hj, elem_of_seq. lia.
  - intros i todo [] s1 _ (D1 & F1 & H1 & HD1 & Hs1 & He1). eapply spec_deinit_delay_list; [exact H1|].
    intros s2 D2 F2 H2 HD2 Hs2 Hi Hj. exists D2, (F2 ++ F1). split; [done|]. split; [|split].
    + transitivity (F1 ++ F2 ++ D2); [by rewrite HD1; apply Permutation_app_head|]. rewrite !app_assoc. apply Permutation_app_tail, Permutation_app_comm.
    + apply (same_but_trans _ s s1); [eapply same_more, Hs1; set_solver|eapply same_more, Hs2; set_solver].
    + intros j Hjt Hlt. destruct (decide (j = i)) as [->|Hne]; [done|]. rewrite Hj by done. apply He1; [set_solver|done].
  - intros [] s1 (D1 & F1 & H1 & HD1 & Hs1 & He1). assert (ED : D1 = []).
    { apply Permutation_nil. rewrite <- (ok_delay _ _ _ _ _ _ H1). rewrite (slots_empty NR); [done|apply (ok_lists _ _ _ _ _ _ H1)|done]. }
    subst D1. rewrite app_nil_r in HD1. apply HQ; [done|]. eapply same_more, Hs1. intros q. by rewrite HD1.
Qed.

Lemma spec_deinit s L D X (Q : list Z -> state -> Prop) : ok s L D X ->
  (forall s' leaks, ok s' [] [] X -> same_but (L ++ D) s s' -> leaks ≡ₚ ptrs s L -> Q leaks s') ->
  spec (malloc_checker_deinit e crc32_le) s Q.
Proof.
  intros H HQ. unfold malloc_checker_deinit. apply spec_bind. eapply spec_deinit_live; [exact H|]. intros s1 leaks H1 Hs1 Hk.
  apply spec_bind. eapply spec_deinit_delay; [exact H1|]. intros s2 H2 Hs2. apply spec_ret, HQ; [done| |done].
  apply (same_but_trans _ s s1); [eapply same_more, Hs1; set_solver|done].
Qed.

End Calls.

End MallocCheckerCalls.

(** * Allocating, freeing and the thread *)

Import XXHash Bytes StMonad MallocChecker MallocCheckerSpec MallocCheckerCalls Table.

Module MallocCheckerOps.

Section Ops.
Context (e : XXH_endianess) (crc32_le : list byte -> Z).

Abbreviation ok := (ok e crc32_le).

(** ** Allocating *)

Lemma placed_ok n a bs : placed n a bs = true ->
  0 < a /\ a mod 8 = 0 /\ a + n < 2 ^ 64 /\ bs !! a = None /\ forall b l, bs !! b = Some l -> a + n <= b \/ b + Z.of_nat (length l) <= a.
Proof.
  unfold placed. rewrite !andb_true_iff, bool_decide_eq_true. intros [[[H1 H2] H3] H4].
  apply Z.ltb_lt in H1, H3. apply Z.eqb_eq in H2. split; [done|]. split; [done|]. split; [done|]. split.
  - destruct (bs !! a) as [l|] eqn:E; [|done]. by destruct (H4 a l E).
  - intros b l Hb. by destruct (H4 b l Hb).
Qed.

(** A new entry with its block. *)
Lemma ok_new_block s L D X q en d : ok s L D X -> (q < tick s)%nat -> ents s !! q = None ->
  placed (e_size en + 16) (e_ptr en - 8) (blocks s) = true -> e_size en = Z.of_nat (length d) ->
  ok (set_entries (list_add (bucket (e_ptr en)) q (entries_list s))
    (set_ents (<[q := en]> (ents s)) (with_block (e_ptr en - 8) (guard e d) s))) (q :: L) D X.
Proof.
  intros H Hq Hn Hp Hs. apply placed_ok in Hp as (Hp & _ & Hhi & Hfree & Hap). assert (HqN : q ∉ L ++ D ++ X).
  { intros Hin. apply (ok_ents _ _ _ _ _ _ H) in Hin as [? Hin]. congruence. }
  assert (Hbase : forall q' en', ents s !! q' = Some en' -> e_ptr en' - 8 <> e_ptr en - 8).
  { intros q' en' Hen' E. destruct (ok_holds _ _ _ _ _ _ H q' en' Hen') as (d' & [Hb _ _ _] & _). rewrite E in Hb. congruence. }
  destruct H. split; cbn; try done.
  - rewrite list_add_perm by (pose proof (bucket_bound (e_ptr en)); lia). by apply perm_skip.
  - unfold list_add. by rewrite length_alter.
  - intros i q' en' Hq' Hen'. apply lookup_insert_Some in Hen' as [[<- <-]|[Hne Hen']].
    + unfold list_add in Hq'. destruct (decide (bucket (e_ptr en) = i)) as [|Hi]; [done|]. rewrite slot_alter_ne in Hq' by done.
      exfalso. apply HqN. rewrite elem_of_app. left. rewrite <- ok_live0. by eapply slot_concat.
    + apply (ok_bucket0 i q' en'); [|done]. unfold list_add in Hq'. destruct (decide (i = bucket (e_ptr en))) as [->|Hi]; [|by rewrite slot_alter_ne in Hq'].
      unfold slot in *. rewrite list_lookup_alter_eq in Hq'. destruct (entries_list s !! bucket (e_ptr en)); cbn in Hq'; [|by apply elem_of_nil in Hq']. set_solver.
  - apply NoDup_cons. done.
  - intros q'. rewrite lookup_insert_is_Some, elem_of_cons, ok_ents0. destruct (decide (q = q')); naive_solver.
  - intros q' en' Hen'. apply lookup_insert_Some in Hen' as [[<- <-]|[Hne Hen']].
    + exists d. split; [|intros Hin; exfalso; apply HqN; set_solver]. split; [by rewrite lookup_insert_eq|done|lia|lia].
    + destruct (ok_holds0 q' en' Hen') as (d' & Hd' & Hc). exists d'. split; [|done]. eapply holds_cong; [exact Hd'| |done..].
      rewrite lookup_insert_ne; [done|]. by apply not_eq_sym, (Hbase q').
  - intros q1 q2 en1 en2 H1 H2 E. apply lookup_insert_Some in H1 as [[<- <-]|[Hne1 H1]], H2 as [[<- <-]|[Hne2 H2]].
    + done.
    + exfalso. apply (Hbase q2 en2 H2). lia.
    + exfalso. apply (Hbase q1 en1 H1). lia.
    + by eapply ok_inj0.
  - intros a Ha. apply lookup_insert_is_Some in Ha as [<-|[Hne Ha]]; [exists q, en; by rewrite lookup_insert_eq|].
    destruct (ok_blocks0 a Ha) as (q' & en' & Hen' & ->). exists q', en'. rewrite lookup_insert_ne; [done|congruence].
  - intros a b l l' Ha Hb Hne. rewrite lookup_insert_Some in Ha, Hb. destruct Ha as [[<- <-]|[Ha1 Ha]], Hb as [[Hb1 <-]|[Hb1 Hb]].
    + done.
    + rewrite guard_length. destruct (Hap b l' Hb); lia.
    + rewrite guard_length. destruct (Hap a l Ha); lia.
    + by eapply ok_apart0.
  - intros q' Hq'. apply lookup_insert_is_Some in Hq' as [<-|[_ Hq']]; [done|by apply ok_new0].
Qed.

Lemma spec_write_sign s base addr l off d (Q : unit -> state -> Prop) : blocks s !! base = Some l -> u64 (addr - base) = off ->
  off + Z.of_nat (length d) <= Z.of_nat (length l) -> Q tt (with_block base (memcpy_at l (Z.to_nat off) d) s) ->
  spec (write_mem base addr d) s Q.
Proof.
  intros Hb <- Hl HQ. unfold write_mem. apply spec_bind, spec_gets. rewrite Hb. apply Z.leb_le in Hl. rewrite Hl. by apply spec_modify.
Qed.

(** Fresh memory becomes a block between two signs. *)
Lemma two_signs (n : nat) (x : byte) :
  memcpy_at (memcpy_at (replicate (n + 16) x) 0 (store e 8 MALLOC_CHECKER_SIGN1)) (8 + n) (store e 8 MALLOC_CHECKER_SIGN2) = guard e (replicate n x).
Proof.
  unfold memcpy_at, guard. rewrite !store_length, take_0. cbn [app]. replace (n + 16)%nat with (8 + (n + 8))%nat by lia.
  rewrite drop_replicate. replace (8 + (n + 8) - (0 + 8))%nat with (n + 8)%nat by lia.
  rewrite take_app_ge by (rewrite store_length; lia). rewrite store_length. replace (8 + n - 8)%nat with n by lia.
  rewrite take_replicate, drop_app_ge by (rewrite store_length; lia). rewrite store_length, drop_replicate.
  replace (n `min` (n + 8))%nat with n by lia. replace (n + 8 - (8 + n + 8 - 8))%nat with 0%nat by lia. cbn [replicate]. by rewrite app_nil_r, app_assoc.
Qed.

Lemma spec_kmalloc_block s n (Q : option Z -> state -> Prop) :
  Q None (set_tick (S (tick s)) s) ->
  (forall a x, placed n a (blocks s) = true -> Q (Some a) (with_block a (replicate (Z.to_nat n) x) (set_tick (S (tick s)) s))) ->
  spec (kmalloc n) s Q.
Proof.
  intros HN HS. unfold kmalloc. apply spec_bind. unfold kcall, spec at 1. apply spec_bind, spec_gets. cbn.
  destruct (kpick s (tick s)) as [a|]; [|by apply spec_ret]. destruct (placed n a (blocks s)) eqn:Hp; [|by apply spec_ret].
  apply spec_bind, spec_modify, spec_ret. by apply HS.
Qed.

Lemma reblock s a l l1 l2 m m' t k k' :
  set_entries t (set_ents m (with_block a l (with_block a l1 (with_block a l2 (set_tick k (set_ents m' (set_tick k' s))))))) =
  set_entries t (set_ents m (with_block a l (set_tick k s))).
Proof.
  unfold with_block. cbn [blocks set_blocks set_tick set_ents set_entries]. rewrite !insert_insert_eq. reflexivity.
Qed.

Lemma spec_checker_kmalloc s L D X size flags (Q : option Z -> state -> Prop) : ok s L D X -> 0 <= size -> size + 16 < 2 ^ 64 ->
  (forall s', ok s' L D X -> ents s' = ents s -> blocks s' = blocks s -> kept s s' -> Q None s') ->
  (forall q ptr d s', ok s' (q :: L) D X -> ents s !! q = None -> ents s' !! q = Some (Entry flags ptr size 0 0) ->
    holds e (blocks s') (Entry flags ptr size 0 0) d -> same_but [] s s' -> blocks s !! (ptr - 8) = None -> ptr mod 8 = 0 ->
    nr_allocs s' = nr_allocs s + 1 -> nr_frees s' = nr_frees s -> Q (Some ptr) s') ->
  spec (malloc_checker_kmalloc e size flags) s Q.
Proof.
  intros H Hs0 Hs HN HS. unfold malloc_checker_kmalloc. apply spec_bind. unfold kmalloc_entry. apply spec_bind. unfold kcall, spec at 1.
  pose proof (ok_later e crc32_le s (S (tick s)) L D X ltac:(lia) H) as H1. apply spec_bind, spec_gets. cbn.
  destruct (kfail s (tick s)); [by apply spec_ret, spec_ret, HN|]. apply spec_bind, spec_modify, spec_ret. set (s1 := set_ents _ _).
  assert (Hn : ents s !! tick s = None).
  { destruct (ents s !! tick s) as [en|] eqn:E; [|done]. pose proof (ok_new _ _ _ _ _ _ H (tick s) ltac:(by exists en)). lia. }
  apply spec_bind. rewrite (u64_small (size + 16)) by lia. apply spec_kmalloc_block.
  - apply spec_bind. eapply spec_kfree_entry; [apply lookup_insert_eq|]. apply spec_ret. apply HN; [|cbn; by rewrite delete_insert_id|done..].
    unfold set_ents, set_tick, s1. cbn. rewrite delete_insert_id by done. by apply (ok_later e crc32_le s (S (S (tick s))) L D X ltac:(lia) H).
  - intros a x Hp. pose proof (placed_ok _ _ _ Hp) as (Ha & Hmod & Hhi & Hfree & Hap). set (s2 := with_block _ _ _). cbn [blocks s1 set_ents set_tick] in Hfree.
    rewrite !(u64_small (a + 8)) by lia. rewrite !(u64_small (a + 8 + size)) by lia. apply spec_bind.
    eapply (spec_write_sign s2 a a _ 0); [by apply lookup_insert_eq|by rewrite Z.sub_diag|rewrite store_length, length_replicate; lia|].
    apply spec_bind. eapply (spec_write_sign _ a _ _ (8 + size)); [by apply lookup_insert_eq|rewrite u64_small by lia; lia| |].
    { rewrite store_length, memcpy_at_length by (rewrite store_length, length_replicate; lia). rewrite length_replicate. lia. }
    apply spec_bind. eapply spec_put_entry; [by apply lookup_insert_eq|]. apply spec_bind, spec_modify, spec_bind, spec_modify, spec_ret.
    pose proof (ok_new_block (set_tick (S (S (tick s))) s) L D X (tick s) (Entry flags (a + 8) size 0 0) (replicate (Z.to_nat size) x)) as Hnew.
    cbn [e_ptr e_size] in Hnew. replace (a + 8 - 8) with a in Hnew by lia.
    specialize (Hnew (ok_later e crc32_le s (S (S (tick s))) L D X ltac:(lia) H) ltac:(cbn; lia) Hn Hp ltac:(rewrite length_replicate; lia)).
    cbn [s2 s1 with_block set_blocks set_ents set_entries set_allocs set_tick blocks ents entries_list delay_entries_list nr_allocs nr_frees tick kpick kfail kjunk ktime] in *.
    rewrite !insert_insert_eq. replace (Z.to_nat (size + 16)) with (Z.to_nat size + 16)%nat by lia. replace (Z.to_nat (8 + size)) with (8 + Z.to_nat size)%nat by lia.
    rewrite two_signs. change (Z.to_nat 0) with 0%nat in *. 
    unfold s2, s1. rewrite reblock.
    apply (HS (tick s) _ (replicate (Z.to_nat size) x)); cbn; [|done|by apply lookup_insert_eq| | |by replace (a + 8 - 8) with a by lia| |done..].
    + destruct Hnew. by split.
    + split; cbn; [replace (a + 8 - 8) with a by lia; by apply lookup_insert_eq|rewrite length_replicate; lia|lia|lia].
    + intros q' en' _ Hq'. cbn. rewrite lookup_insert_ne by congruence. split; [done|]. apply lookup_insert_ne. intros ->.
      destruct (ok_holds _ _ _ _ _ _ H q' en' Hq') as (d & [Hb _ _ _] & _). congruence.
    + rewrite <- (Z.mul_1_l 8) at 1. by rewrite Z.mod_add.
Qed.

(** ** Freeing *)

Lemma ok_live_bucket s L D X q en : ok s L D X -> q ∈ L -> ents s !! q = Some en -> q ∈ slot (bucket (e_ptr en)) (entries_list s).
Proof.
  intros H Hq Hen. rewrite <- (ok_live _ _ _ _ _ _ H) in Hq. apply concat_slot in Hq as (i & _ & Hq).
  by rewrite (ok_bucket _ _ _ _ _ _ H i q en Hq Hen).
Qed.

(** The search finds the live entry of the pointer, if there is one. *)
Lemma spec_find s L D X ptr (Q : list nat -> state -> Prop) : ok s L D X ->
  ((forall q en, q ∈ L -> ents s !! q = Some en -> e_ptr en <> ptr) -> Q [] s) ->
  (forall q en L' t, q ∈ L -> ents s !! q = Some en -> e_ptr en = ptr -> L ≡ₚ q :: L' -> ok (set_entries t s) L' D (q :: X) -> Q [q] (set_entries t s)) ->
  spec (for_each (slot (bucket ptr) (entries_list s)) (fun curr found =>
    let* en := get_entry curr in
    if e_ptr en =? ptr then
      do* modify (fun s => set_entries (list_del (bucket ptr) curr (entries_list s)) s) in ret (curr :: found)
    else ret found) []) s Q.
Proof.
  intros H HN HS. set (i := bucket ptr). set (l := slot i (entries_list s)).
  assert (Hl : NoDup l) by (apply slot_NoDup; by eapply ok_nodup_live).
  assert (HlL : forall q, q ∈ l -> q ∈ L) by (intros q Hq; rewrite <- (ok_live _ _ _ _ _ _ H); by eapply slot_concat).
  apply (spec_for_each (fun todo found s' =>
    (found = [] /\ s' = s /\ forall q en, q ∈ l -> q ∉ todo -> ents s !! q = Some en -> e_ptr en <> ptr) \/
    (exists q en L' t, found = [q] /\ s' = set_entries t s /\ q ∈ l /\ q ∉ todo /\ ents s !! q = Some en /\ e_ptr en = ptr /\ L ≡ₚ q :: L' /\ ok s' L' D (q :: X)))).
  - left. split; [done|]. split; [done|]. intros q en Hq Hn. done.
  - intros x todo found s1 [pre Hpre] HI. assert (Hx : x ∈ l) by (rewrite Hpre; set_solver).
    assert (Hxt : x ∉ todo) by (rewrite Hpre in Hl; apply NoDup_app in Hl as (_ & _ & Hl); by apply NoDup_cons in Hl as [Hl _]).
    destruct (ok_in e crc32_le s L D X x H) as [en Hen]; [apply elem_of_app; left; by apply HlL|].
    destruct HI as [(-> & -> & HI)|(q & enq & L' & t & -> & -> & Hq & Hqt & Henq & Hp & HL & H1)]; apply spec_bind; eapply spec_get_entry; try exact Hen.
    + destruct (Z.eqb_spec (e_ptr en) ptr) as [Hp|Hp].
      * apply spec_bind, spec_modify, spec_ret. right. destruct (ok_take e crc32_le s L D X i x H Hx) as (L' & HL & H1).
        by exists x, en, L', (list_del i x (entries_list s)).
      * apply spec_ret. left. split; [done|]. split; [done|]. intros q enq Hq Hqt Henq. destruct (decide (q = x)) as [->|Hne]; [congruence|].
        apply (HI q); [done|set_solver|done].
    + destruct (Z.eqb_spec (e_ptr en) ptr) as [Hp'|Hp'].
      * exfalso. assert (x = q) as -> by (eapply (ok_inj _ _ _ _ _ _ H); [done..|congruence]). set_solver.
      * apply spec_ret. right. exists q, enq, L', t. split; [done|]. split; [done|]. split; [done|]. split; [set_solver|done].
  - intros found s1 [(-> & -> & HI)|(q & enq & L' & t & -> & -> & Hq & Hqt & Henq & Hp & HL & H1)].
    + apply HN. intros q en HqL Hen Hp. apply (HI q en); [|set_solver|done..]. unfold l, i. rewrite <- Hp. by eapply ok_live_bucket.
    + apply (HS q enq L'); [by apply HlL|done..].
Qed.

Lemma spec_checker_kfree s L D X ptr (Q : unit -> state -> Prop) : ok s L D X ->
  ((forall q en, q ∈ L -> ents s !! q = Some en -> e_ptr en <> ptr) -> Q tt s) ->
  (forall q en L' s', q ∈ L -> ents s !! q = Some en -> e_ptr en = ptr -> L ≡ₚ q :: L' -> ok s' L' (q :: D) X -> same_but [q] s s' ->
    nr_allocs s' = nr_allocs s -> nr_frees s' = nr_frees s + 1 -> ktime s' = ktime s -> q ∈ slot (bucket ptr) (delay_entries_list s') ->
    (exists en' t, ents s' !! q = Some en' /\ e_ptr en' = ptr /\ e_size en' = e_size en /\ holds e (blocks s') en' (cc (e_size en)) /\ time_to_live en' = ktime s t + 1000000000) -> Q tt s') ->
  spec (malloc_checker_kfree e crc32_le ptr) s Q.
Proof.
  intros H HN HS. unfold malloc_checker_kfree. apply spec_bind, spec_gets, spec_bind. eapply spec_find; [exact H|intros Hn; by apply spec_ret, HN|].
  intros q en L' t Hq Hen Hp HL H1. cbn [for_each]. apply spec_bind, spec_bind. eapply spec_check_and_release; [exact H1|exact Hen|].
  intros s2 en2 t2 H2 Hs2 (_ & Ha & Hf & Hk) Hd2 He2 Hp2 Hz2 Hh2 Ht2. apply spec_modify, spec_ret. apply (HS q en L'); try done; cbn; [|by rewrite Hf| |].
  - destruct H2. by split.
  - rewrite Hd2, Hp. unfold list_add, slot. rewrite list_lookup_alter_eq. cbn. pose proof (bucket_bound ptr) as Hb.
    rewrite <- (proj2 (ok_lists _ _ _ _ _ _ H1)) in Hb. destruct (lookup_lt_is_Some_2 _ _ Hb) as [l Hl]. cbn in Hl. rewrite Hl. by left.
  - exists en2, t2. split; [done|]. by rewrite Hp2.
Qed.

(** ** The thread *)

(** Nothing but the delayed entries moves. *)
Definition moved (s s' : state) : Prop :=
  kept s s' /\ ents s' = ents s /\ blocks s' = blocks s.

Lemma moved_trans s s1 s2 : moved s s1 -> moved s1 s2 -> moved s s2.
Proof. unfold moved, kept. intuition congruence. Qed.

Lemma spec_turn_list s L D X i (Q : list nat -> state -> Prop) : ok s L D X ->
  (forall free D' s', ok s' L D' (free ++ X) -> D ≡ₚ free ++ D' -> moved s s' ->
    (forall j, j <> i -> slot j (delay_entries_list s') = slot j (delay_entries_list s)) ->
    (forall q en, q ∈ slot i (delay_entries_list s) -> ents s !! q = Some en -> (forall t, ktime s t <= time_to_live en) -> q ∈ free) ->
    (forall q, q ∈ free -> q ∈ slot i (delay_entries_list s)) -> Q free s') ->
  spec (turn_list e crc32_le i) s Q.
Proof.
  intros H HQ. unfold turn_list. apply spec_bind, spec_gets. set (l := slot i (delay_entries_list s)).
  assert (Hl : NoDup l) by (apply slot_NoDup; by eapply ok_nodup_delay).
  apply (spec_for_each (fun todo free s' => exists D', ok s' L D' (free ++ X) /\ D ≡ₚ free ++ D' /\ moved s s' /\
    (forall q, q ∈ todo -> q ∈ slot i (delay_entries_list s')) /\ (forall q, q ∈ free -> q ∈ l) /\
    (forall j, j <> i -> slot j (delay_entries_list s') = slot j (delay_entries_list s)) /\
    (forall q en, q ∈ l -> q ∉ todo -> ents s !! q = Some en -> (forall t, ktime s t <= time_to_live en) -> q ∈ free))).
  - exists D. split; [done|]. split; [done|]. split; [done|]. split; [done|]. split; [by intros q Hq; apply elem_of_nil in Hq|]. split; [done|]. intros q en Hq Hn. done.
  - intros x todo free s1 [pre Hpre] (D1 & H1 & HD1 & Hm1 & Ht1 & Hfl1 & Hj1 & Hf1).
    assert (Hxt : x ∉ todo) by (rewrite Hpre in Hl; apply NoDup_app in Hl as (_ & _ & Hl); by apply NoDup_cons in Hl as [Hl _]).
    assert (HxD : x ∈ D1) by (rewrite <- (ok_delay _ _ _ _ _ _ H1); eapply slot_concat, Ht1; by left).
    apply spec_bind. eapply spec_delay_check; [exact H1|exact HxD|]. destruct (ok_in e crc32_le s1 L D1 (free ++ X) x H1) as [en Hen]; [set_solver|].
    apply spec_bind. eapply spec_get_entry; [exact Hen|]. apply spec_bind. unfold kcall, spec at 1. apply spec_bind, spec_gets. cbn.
    pose proof (ok_later e crc32_le s1 (S (tick s1)) L D1 (free ++ X) ltac:(lia) H1) as H2. destruct Hm1 as (Hk1 & He1 & Hb1).
    destruct (Z.leb_spec (ktime s1 (tick s1)) (time_to_live en)) as [Ht|Ht].
    + apply spec_bind, spec_modify, spec_ret. destruct (ok_take_delay e crc32_le _ L D1 (free ++ X) i x H2) as (D2 & HD2 & H3); [cbn; apply Ht1; by left|].
      exists D2. split; [exact H3|]. split; [by apply (perm_into free D1)|]. split; [done|]. cbn. split; [|split; [|split]].
      * intros q Hq. rewrite slot_del. apply list_elem_of_filter. split; [set_solver|]. apply Ht1. by right.
      * intros q Hq. apply elem_of_cons in Hq as [->|Hq]; [rewrite Hpre; set_solver|by apply Hfl1].
      * intros j Hne. unfold list_del. rewrite slot_alter_ne by done. by apply Hj1.
      * intros q enq Hq Hn Henq Hall. destruct (decide (q = x)) as [->|Hne]; [by left|]. right. apply (Hf1 q enq); [done|set_solver|done..].
    + apply spec_ret. exists D1. split; [exact H2|]. split; [done|]. split; [done|]. cbn. split; [intros q Hq; apply Ht1; by right|]. split; [done|]. split; [done|].
      intros q enq Hq Hn Henq Hall. destruct (decide (q = x)) as [->|Hne]; [|apply (Hf1 q enq); [done|set_solver|done..]].
      exfalso. rewrite He1 in Hen. simplify_eq. destruct Hk1 as (_ & _ & _ & Hk1). rewrite Hk1 in Ht. specialize (Hall (tick s1)). lia.
  - intros free s1 (D1 & H1 & HD1 & Hm1 & Ht1 & Hfl1 & Hj1 & Hf1). apply (HQ free D1 s1); try done. intros q en Hq. apply Hf1; [done|set_solver].
Qed.

Lemma seq_middle n pre x todo : seq 0 n = pre ++ x :: todo -> (x < n)%nat /\ todo = seq (S x) (n - S x).
Proof.
  intros E. assert (Hx : seq 0 n !! length pre = Some x) by (by rewrite E, list_lookup_middle). apply lookup_seq in Hx as [-> Hlt]. cbn. split; [done|].
  apply (f_equal (drop (S (length pre)))) in E. rewrite drop_seq, drop_app_ge in E by lia. replace (S (length pre) - length pre)%nat with 1%nat in E by lia. by symmetry.
Qed.

Lemma perm_next (free K free2 D2 D1 D : list nat) : D ≡ₚ free ++ K ++ D1 -> D1 ≡ₚ free2 ++ D2 -> D ≡ₚ free2 ++ (free ++ K) ++ D2.
Proof.
  intros H1 H2. transitivity ((free ++ K) ++ free2 ++ D2).
  - rewrite H1, app_assoc. by apply Permutation_app_head.
  - rewrite (app_assoc (free ++ K)), (app_assoc free2). apply Permutation_app_tail, Permutation_app_comm.
Qed.

(** A turn of the thread: what the last list had is given back, what it took from
    the other lists is in no list any more. *)
Lemma spec_delay_turn s L D X (Q : unit -> state -> Prop) : ok s L D X ->
  (forall s' D' F K, ok s' L D' (K ++ X) -> D ≡ₚ F ++ K ++ D' -> same_but F s s' -> kept s s' ->
    (forall i q en, (S i < NR)%nat -> q ∈ slot i (delay_entries_list s) -> ents s !! q = Some en -> (forall t, ktime s t <= time_to_live en) -> q ∈ K) -> Q tt s') ->
  spec (malloc_checker_delay_turn e crc32_le) s Q.
Proof.
  intros H HQ. unfold malloc_checker_delay_turn. apply spec_bind.
  apply (spec_for_each (fun todo free s' => exists D' K, ok s' L D' (free ++ K ++ X) /\ D ≡ₚ free ++ K ++ D' /\ moved s s' /\
    (forall j, j ∈ todo -> slot j (delay_entries_list s') = slot j (delay_entries_list s)) /\
    (forall q, q ∈ free -> exists j, todo = seq (S j) (NR - S j) /\ q ∈ slot j (delay_entries_list s)) /\
    (forall j q en, j ∉ todo -> (j < NR)%nat -> q ∈ slot j (delay_entries_list s) -> ents s !! q = Some en -> (forall t, ktime s t <= time_to_live en) ->
      q ∈ free ++ K))).
  - exists D, []. split; [done|]. split; [done|]. split; [done|]. split; [done|]. split; [by intros q Hq; apply elem_of_nil in Hq|].
    intros j q en Hj Hlt. exfalso. apply Hj, elem_of_seq. lia.
  - intros x todo free s1 [pre Hpre] (D1 & K1 & H1 & HD1 & Hm1 & Ht1 & Hf1 & Hv1). apply seq_middle in Hpre as [Hx Htodo].
    eapply spec_turn_list; [exact H1|]. intros free2 D2 s2 H2 HD2 Hm2 Hj2 Hv2 Hf2. exists D2, (free ++ K1).
    split; [by rewrite <- app_assoc|]. split; [by apply (perm_next free K1 free2 D2 D1)|]. split; [by apply (moved_trans s s1)|].
    pose proof (Ht1 x ltac:(by left)) as Ex. split; [|split].
    + intros j Hj. rewrite Hj2; [by apply Ht1; right|]. intros ->. rewrite Htodo in Hj. apply elem_of_seq in Hj. lia.
    + intros q Hq. exists x. split; [done|]. rewrite <- Ex. by apply Hf2.
    + intros j q en Hj Hlt Hq Hen Hall. destruct (decide (j = x)) as [->|Hne].
      * apply elem_of_app. left. rewrite <- Ex in Hq. destruct Hm1 as ((_ & _ & _ & Hk) & He & _). apply (Hv2 q en Hq); [by rewrite He|by rewrite Hk].
      * apply elem_of_app. right. exact (Hv1 j q en (proj2 (not_elem_of_cons _ _ _) (conj Hne Hj)) Hlt Hq Hen Hall).
  - intros free s1 (D1 & K1 & H1 & HD1 & Hm1 & Ht1 & Hf1 & Hv1). eapply spec_release_all; [exact H1|].
    intros s2 H2 Hs2 Hk2 Hd2. destruct Hm1 as (Hk1 & He1 & Hb1). apply (HQ s2 D1 free K1); [exact H2|exact HD1| |by eapply kept_trans|].
    + intros q en Hn Hq. rewrite <- He1 in Hq. rewrite <- Hb1. by apply Hs2.
    + intros i q en Hi Hq Hen Hall. pose proof (Hv1 i q en (not_elem_of_nil i) (Nat.lt_succ_l _ _ Hi) Hq Hen Hall) as Hin. apply elem_of_app in Hin as [Hin|Hin]; [|done].
      destruct (Hf1 q Hin) as (j & Hj & Hqj). pose proof (slot_inj i j q _ (ok_nodup_delay e crc32_le s L D X H) Hq Hqj) as ->.
      apply (f_equal length) in Hj. rewrite length_seq in Hj. revert Hi Hj. generalize NR. clear. cbn. lia.
Qed.

End Ops.

End MallocCheckerOps.

(** * The checked allocator: what is promised

    [heap_of s m X]: the clients own the blocks [m], from pointer to contents, and
    the entries [X] are lost.  Allocating and freeing are those of [m]; what is
    left at the end is reported; damage to a block stops the machine; and what
    the thread takes out of its lists it does not give back. *)

Import XXHash Bytes StMonad MallocChecker MallocCheckerSpec MallocCheckerCalls MallocCheckerOps Table.

Module MallocCheckerClaims.

Section Claims.
Context (e : XXH_endianess) (crc32_le : list byte -> Z).

Abbreviation ok := (ok e crc32_le).

Definition repr (s : state) (L : list nat) (m : gmap Z (list byte)) : Prop :=
  forall ptr d, m !! ptr = Some d <-> exists q en, q ∈ L /\ ents s !! q = Some en /\ e_ptr en = ptr /\ holds e (blocks s) en d.

Definition heap_of (s : state) (m : gmap Z (list byte)) (X : list nat) : Prop :=
  exists L D, ok s L D X /\ repr s L m /\ nr_allocs s = nr_frees s + Z.of_nat (length L).

(** ** Calls of clients *)

Inductive call := Malloc (size flags : Z) | Free (ptr : Z) | Write (ptr off : Z) (b : list byte) | Turn.

(** A client writes through a pointer it got. *)
Definition do_call (c : call) : M (option Z) :=
  match c with
  | Malloc size flags => malloc_checker_kmalloc e size flags
  | Free ptr => do* malloc_checker_kfree e crc32_le ptr in ret None
  | Write ptr off b => do* write_mem (u64 (ptr - 8)) (ptr + off) b in ret None
  | Turn => do* malloc_checker_delay_turn e crc32_le in ret None
  end.

(** Sizes do not wrap and clients write to what they own. *)
Definition allowed (m : gmap Z (list byte)) (c : call) : Prop :=
  match c with
  | Malloc size _ => 0 <= size /\ size + 16 < 2 ^ 64
  | Write ptr off b => exists d, m !! ptr = Some d /\ 0 <= off /\ off + Z.of_nat (length b) <= Z.of_nat (length d)
  | _ => True
  end.

(** The bytes at [p] and those of every block of [m] have no address in common. *)
Definition clear_of (m : gmap Z (list byte)) (p : Z) (n : nat) : Prop :=
  forall p' d', m !! p' = Some d' -> p + Z.of_nat n <= p' \/ p' + Z.of_nat (length d') <= p.

Definition heap_step (m : gmap Z (list byte)) (c : call) (r : option Z) (m' : gmap Z (list byte)) : Prop :=
  match c with
  | Malloc size _ =>
      match r with
      | None => m' = m
      | Some ptr => exists d, m !! ptr = None /\ m' = <[ptr := d]> m /\ Z.of_nat (length d) = size /\ clear_of m ptr (length d) /\ ptr mod 8 = 0
      end
  | Free ptr => m' = delete ptr m
  | Write ptr off b => exists d, m !! ptr = Some d /\ m' = <[ptr := memcpy_at d (Z.to_nat off) b]> m
  | Turn => m' = m
  end.

Lemma repr_same s s' L T m : repr s L m -> (forall q, q ∈ L -> q ∉ T /\ is_Some (ents s !! q)) -> same_but T s s' -> repr s' L m.
Proof.
  intros Hr HL Hs ptr d. rewrite (Hr ptr d). split; intros (q & en & Hq & Hen & Hp & Hd); destruct (HL q Hq) as [Ht [en0 H0]]; destruct (Hs q en0 Ht H0) as [E B].
  - simplify_eq. exists q, en. split; [done|]. split; [done|]. split; [done|]. by eapply holds_cong.
  - simplify_eq. exists q, en. split; [done|]. split; [done|]. split; [done|]. by eapply holds_cong.
Qed.

Lemma live_there s L D X q : ok s L D X -> q ∈ L -> is_Some (ents s !! q).
Proof. intros H Hq. apply (ok_ents _ _ _ _ _ _ H). set_solver. Qed.

Lemma live_not s L D X q : ok s L D X -> q ∈ L -> q ∉ D ++ X.
Proof. intros H Hq Hn. pose proof (ok_nodup _ _ _ _ _ _ H) as N. apply NoDup_app in N as (_ & N & _). by apply (N q). Qed.

Lemma repr_perm s L L' m : L ≡ₚ L' -> repr s L m -> repr s L' m.
Proof. intros HP Hr ptr d. rewrite (Hr ptr d). split; intros (q & en & Hq & HR); exists q, en; (split; [|done]); [by rewrite <- HP|by rewrite HP]. Qed.

(** ** Every call is a step of the heap *)

Lemma step_malloc s m X size flags : heap_of s m X -> allowed m (Malloc size flags) ->
  spec (do_call (Malloc size flags)) s (fun r s' => exists m', heap_of s' m' X /\ heap_step m (Malloc size flags) r m').
Proof.
  intros (L & D & H & Hr & Hc) [H0 H1]. eapply spec_checker_kmalloc; [exact H|done..| |].
  - intros s' H' He Hb (_ & Ha & Hf & _). exists m. split; [|done]. exists L, D. split; [done|]. split; [|by rewrite Ha, Hf].
    intros ptr d. rewrite He, Hb. apply Hr.
  - intros q ptr d s' H' Hq Hen Hd Hs Hb Hmod Ha Hf. exists (<[ptr := d]> m).
    assert (Hsame : repr s' L m) by (eapply repr_same; [exact Hr| |exact Hs]; intros q' Hq'; split; [apply not_elem_of_nil|by eapply live_there]).
    assert (Hnone : m !! ptr = None).
    { destruct (m !! ptr) as [d'|] eqn:E; [|done]. apply Hr in E as (q' & en' & Hq' & Hen' & <- & [Hb' _ _ _]). congruence. }
    assert (Hinj : forall q' en', q' ∈ L -> ents s' !! q' = Some en' -> e_ptr en' <> ptr).
    { intros q' en' Hq' Hen' Hp. assert (q' = q) as -> by (eapply (ok_inj _ _ _ _ _ _ H'); [done..|exact Hp]).
      destruct (live_there _ _ _ _ _ H Hq') as [? Hx]. congruence. }
    split.
    + exists (q :: L), D. split; [done|]. split; [|rewrite Ha, Hf, Hc; cbn; lia]. intros p d'. destruct (decide (p = ptr)) as [->|Hne].
      * rewrite lookup_insert_eq. split; [intros [= <-]; exists q, (Entry flags ptr size 0 0); split; [by left|done]|].
        intros (q' & en' & Hq' & Hen' & Hp & Hd'). apply elem_of_cons in Hq' as [->|Hq']; [|by destruct (Hinj q' en')].
        assert (en' = Entry flags ptr size 0 0) as -> by congruence. f_equal. by apply (holds_inj e _ _ _ _ Hd Hd').
      * rewrite lookup_insert_ne by done. rewrite (Hsame p d'). split; intros (q' & en' & Hq' & Hen' & Hp & Hd').
        -- exists q', en'. split; [by right|done].
        -- apply elem_of_cons in Hq' as [->|Hq']; [simplify_eq/=|by exists q', en'].
    + exists d. split; [done|]. split; [done|]. destruct Hd as [Hb' Hsz Hlo Hhi]. cbn in Hb', Hsz, Hlo, Hhi. split; [lia|]. split; [|done].
      intros p d' Hp. apply Hsame in Hp as (q' & en' & Hq' & Hen' & <- & [Hb2 Hs2 _ _]).
      pose proof (ok_apart _ _ _ _ _ _ H' _ _ _ _ Hb' Hb2) as Hap. rewrite !guard_length in Hap. specialize (Hinj q' en' Hq' Hen'). lia.
Qed.

Lemma step_free s m X ptr : heap_of s m X ->
  spec (do_call (Free ptr)) s (fun r s' => exists m', heap_of s' m' X /\ heap_step m (Free ptr) r m').
Proof.
  intros (L & D & H & Hr & Hc). apply spec_bind. eapply spec_checker_kfree; [exact H| |].
  - intros Hn. apply spec_ret. exists m. split; [by exists L, D|]. cbn. rewrite delete_id; [done|].
    destruct (m !! ptr) as [d|] eqn:E; [|done]. apply Hr in E as (q & en & Hq & Hen & Hp & _). by destruct (Hn q en).
  - intros q en L' s' Hq Hen Hp HL H' Hs Ha Hf _ _ _. apply spec_ret. exists (delete ptr m). split; [|done].
    exists L', (q :: D). split; [done|]. split; [|rewrite Ha, Hf, Hc, HL; cbn; lia].
    assert (HqL' : q ∉ L') by (intros Hin; apply (live_not _ _ _ _ _ H' Hin); by left).
    assert (Hr' : repr s L' (delete ptr m)).
    { intros p d. rewrite lookup_delete_Some, (Hr p d). split.
      - intros [Hne (q' & en' & Hq' & Hen' & Hp' & Hd')]. exists q', en'. split; [|done]. rewrite HL in Hq'. apply elem_of_cons in Hq' as [->|Hq']; [congruence|done].
      - intros (q' & en' & Hq' & Hen' & Hp' & Hd'). split; [|exists q', en'; split; [rewrite HL; by right|done]].
        intros <-. assert (q' = q) as -> by (eapply (ok_inj _ _ _ _ _ _ H); [done..|congruence]). done. }
    eapply repr_same; [exact Hr'| |exact Hs]. intros q' Hq'. split; [set_solver|]. eapply live_there; [exact H|]. rewrite HL. by right.
Qed.

Lemma step_write s m X ptr off b : heap_of s m X -> allowed m (Write ptr off b) ->
  spec (do_call (Write ptr off b)) s (fun r s' => exists m', heap_of s' m' X /\ heap_step m (Write ptr off b) r m').
Proof.
  intros (L & D & H & Hr & Hc) (d & Hm & Ho & Hl). pose proof Hm as Hm'. apply Hr in Hm' as (q & en & Hq & Hen & <- & Hd).
  apply spec_bind. pose proof (h_size _ _ _ _ Hd) as Hsz. eapply (spec_write_data e); [exact Hd|done|lia|]. apply spec_ret.
  assert (HqD : q ∉ D) by (intros Hin; apply (live_not _ _ _ _ _ H Hq); set_solver).
  assert (Hlen : length (memcpy_at d (Z.to_nat off) b) = length d) by (apply memcpy_at_length; lia).
  destruct (ok_write e crc32_le s L D X q en d (memcpy_at d (Z.to_nat off) b) H HqD Hen Hd Hlen) as (H' & Hd' & Hs).
  exists (<[e_ptr en := memcpy_at d (Z.to_nat off) b]> m). split; [|by exists d]. exists L, D. split; [done|]. split; [|done].
  intros p d'. destruct (decide (p = e_ptr en)) as [->|Hne].
  - rewrite lookup_insert_eq. split; [intros [= <-]; by exists q, en|]. intros (q' & en' & Hq' & Hen' & Hp & Hd2).
    assert (q' = q) as -> by (by eapply (ok_inj _ _ _ _ _ _ H)). cbn in Hen'. assert (en' = en) as -> by congruence. f_equal. by apply (holds_inj e _ _ _ _ Hd' Hd2).
  - rewrite lookup_insert_ne by done. rewrite (Hr p d'). split; intros (q' & en' & Hq' & Hen' & Hp & Hd2); exists q', en'; (split; [done|split; [done|split; [done|]]]).
    + eapply holds_cong; [exact Hd2| |done..]. apply (Hs q' en'); [|done]. apply not_elem_of_cons. split; [|apply not_elem_of_nil]. intros ->. congruence.
    + eapply holds_cong; [exact Hd2| |done..]. symmetry. apply (Hs q' en'); [|done]. apply not_elem_of_cons. split; [|apply not_elem_of_nil]. intros ->. cbn in Hen'. congruence.
Qed.

Lemma step_turn s m X : heap_of s m X ->
  spec (do_call Turn) s (fun r s' => exists m' X', heap_of s' m' X' /\ heap_step m Turn r m').
Proof.
  intros (L & D & H & Hr & Hc). apply spec_bind. eapply spec_delay_turn; [exact H|]. intros s' D' F K H' HD Hs (_ & Ha & Hf & _) _. apply spec_ret.
  exists m, (K ++ X). split; [|done]. exists L, D'. split; [done|]. split; [|by rewrite Ha, Hf]. eapply repr_same; [exact Hr| |exact Hs].
  intros q Hq. split; [|by eapply live_there]. intros Hin. apply (live_not _ _ _ _ _ H Hq), elem_of_app. left. rewrite HD. set_solver.
Qed.

Lemma init_heap s err : blocks s = ∅ -> ents s = ∅ -> spec (malloc_checker_init err) s (fun r s' => r = err /\ heap_of s' ∅ []).
Proof.
  intros Hb He. unfold malloc_checker_init. do 4 apply spec_bind, spec_modify. apply spec_ret. split; [done|]. exists [], [].
  assert (Hcat : concat (replicate NR (@nil nat)) = []) by (induction NR; done).
  split; [|split; [|done]].
  - split; cbn; rewrite ?Hcat, ?He, ?Hb, ?length_replicate; try done.
    + apply NoDup_nil_2.
    + intros q. split; [by intros [x Hx]; rewrite lookup_empty in Hx|]. by intros ?%elem_of_nil.
    + intros a [x Hx]. by rewrite lookup_empty in Hx.
    + intros q [x Hx]. by rewrite lookup_empty in Hx.
  - intros p d. rewrite lookup_empty. split; [done|]. by intros (q & en & Hq%elem_of_nil & _).
Qed.

(** (C32) The checked allocator is a heap: after its start it is empty, and each
    call of a client that asks for sizes that do not wrap and writes to blocks it
    owns ends, whatever the kernel answers, as a step of the heap.  An allocation
    gives a new aligned block apart from all others or fails without effect;
    freeing takes away that block and no other; the thread changes nothing. *)
Theorem malloc_checker_refines_heap s m X c err :
  (blocks s = ∅ -> ents s = ∅ -> spec (malloc_checker_init err) s (fun r s' => r = err /\ heap_of s' ∅ [])) /\
  (heap_of s m X -> allowed m c ->
   spec (do_call c) s (fun r s' => exists m' X', heap_of s' m' X' /\ heap_step m c r m')).
Proof.
  split.
  - apply init_heap.
  - intros Hh Ha. destruct c as [size flags|ptr|ptr off b|]; [| | |by apply (step_turn s m X)].
    + eapply spec_mono; [by apply (step_malloc s m X)|]. intros r s' (m' & Hm'). by exists m', X.
    + eapply spec_mono; [by apply (step_free s m X)|]. intros r s' (m' & Hm'). by exists m', X.
    + eapply spec_mono; [by apply (step_write s m X)|]. intros r s' (m' & Hm'). by exists m', X.
Qed.

(** ** The end *)

Lemma repr_ptrs s L D X m : ok s L D X -> repr s L m -> map fst (map_to_list m) ≡ₚ ptrs s L.
Proof.
  intros H Hr. assert (NL : NoDup L) by (pose proof (ok_nodup _ _ _ _ _ _ H) as N; by apply NoDup_app in N as (N & _)).
  assert (Hin : forall p, p ∈ ptrs s L <-> exists q en, q ∈ L /\ ents s !! q = Some en /\ e_ptr en = p).
  { intros p. unfold ptrs. split.
    - intros Hp. apply list_elem_of_In, in_map_iff in Hp as (q & <- & Hq). apply list_elem_of_In in Hq. destruct (live_there _ _ _ _ _ H Hq) as [en Hen].
      exists q, en. by rewrite Hen.
    - intros (q & en & Hq & Hen & <-). apply list_elem_of_In, in_map_iff. exists q. rewrite Hen. split; [done|by apply list_elem_of_In]. }
  apply NoDup_Permutation.
  - apply NoDup_fst_map_to_list.
  - unfold ptrs. apply NoDup_ListNoDup, Finite.Injective_map_NoDup_in; [|by apply NoDup_ListNoDup]. intros q q' Hq Hq' E. apply list_elem_of_In in Hq, Hq'.
    destruct (live_there _ _ _ _ _ H Hq) as [en Hen], (live_there _ _ _ _ _ H Hq') as [en' Hen']. rewrite Hen, Hen' in E. by eapply (ok_inj _ _ _ _ _ _ H).
  - intros p. rewrite Hin. split.
    + intros Hp. apply list_elem_of_In, in_map_iff in Hp as ([p' d] & <- & Hp). apply list_elem_of_In, elem_of_map_to_list, Hr in Hp as (q & en & Hq & Hen & Hpp & _). by exists q, en.
    + intros (q & en & Hq & Hen & Hpp). destruct (ok_holds _ _ _ _ _ _ H q en Hen) as (d & Hd & _). apply list_elem_of_In, in_map_iff. exists (p, d). split; [done|].
      apply list_elem_of_In, elem_of_map_to_list, Hr. by exists q, en.
Qed.

Lemma spec_deinit_heap s m X : heap_of s m X ->
  spec (malloc_checker_deinit e crc32_le) s (fun leaks s' =>
    leaks ≡ₚ map fst (map_to_list m) /\
    (forall a, is_Some (blocks s' !! a) <-> exists q en, q ∈ X /\ ents s !! q = Some en /\ a = e_ptr en - 8) /\
    (X = [] -> blocks s' = ∅ /\ ents s' = ∅)).
Proof.
  intros (L & D & H & Hr & Hc). eapply spec_deinit; [exact H|]. intros s' leaks H' Hs Hl.
  split; [by rewrite Hl; symmetry; eapply repr_ptrs|].
  assert (HX : forall q en, q ∈ X -> ents s !! q = Some en -> ents s' !! q = Some en).
  { intros q en Hq Hen. apply (Hs q en); [|done]. intros Hin. pose proof (ok_nodup _ _ _ _ _ _ H) as N. rewrite app_assoc in N.
    apply NoDup_app in N as (_ & N & _). by apply (N q). }
  assert (Hback : forall q en, ents s' !! q = Some en -> q ∈ X /\ ents s !! q = Some en).
  { intros q en Hen. assert (Hq : q ∈ X) by (by apply (ok_ents _ _ _ _ _ _ H' q); exists en). split; [done|].
    destruct (ok_in e crc32_le s L D X q H) as [en0 H0]; [set_solver|]. rewrite (HX q en0 Hq H0) in Hen. congruence. }
  assert (Hblk : forall a, is_Some (blocks s' !! a) <-> exists q en, q ∈ X /\ ents s !! q = Some en /\ a = e_ptr en - 8).
  { intros a. split.
    - intros Ha. destruct (ok_blocks _ _ _ _ _ _ H' a Ha) as (q & en & Hen & ->). destruct (Hback q en Hen). by exists q, en.
    - intros (q & en & Hq & Hen & ->). destruct (ok_holds _ _ _ _ _ _ H' q en (HX q en Hq Hen)) as (d & [Hb _ _ _] & _). by rewrite Hb. }
  split; [done|]. intros ->. split; apply map_empty.
  - intros a. destruct (blocks s' !! a) eqn:E; [|done]. destruct (proj1 (Hblk a) ltac:(by rewrite E)) as (q & en & Hq & _). by apply elem_of_nil in Hq.
  - intros q. destruct (ents s' !! q) as [en|] eqn:E; [|done]. destruct (Hback q en E) as [Hq _]. by apply elem_of_nil in Hq.
Qed.

(** At the end every block a client still owns is reported, once each, and
    all blocks, those that wait for their release too, are given back to the
    kernel but for the lost ones.  None is lost while the thread has not run. *)
Theorem malloc_checker_deinit_reports_leaks s m X : heap_of s m X ->
  spec (malloc_checker_deinit e crc32_le) s (fun leaks s' =>
    leaks ≡ₚ map fst (map_to_list m) /\
    (forall a, is_Some (blocks s' !! a) <-> exists q en, q ∈ X /\ ents s !! q = Some en /\ a = e_ptr en - 8) /\
    (X = [] -> blocks s' = ∅ /\ ents s' = ∅)).
Proof. apply spec_deinit_heap. Qed.

(** A freed block the thread meets before its time is over is taken out of
    its list, and unless that is the last list it is never given back to the
    kernel, not even at the end. *)
Theorem malloc_checker_delay_turn_loses s m X ptr d : heap_of s m X -> m !! ptr = Some d ->
  (S (bucket ptr) < MALLOC_CHECKER_NR_LISTS)%nat -> (forall t t', ktime s t' <= ktime s t + 1000000000) ->
  spec (do* malloc_checker_kfree e crc32_le ptr in
        do* malloc_checker_delay_turn e crc32_le in
        malloc_checker_deinit e crc32_le) s (fun _ s' => is_Some (blocks s' !! (ptr - 8))).
Proof.
  intros (L & D & H & Hr & _) Hm Hb Ht. apply spec_bind. eapply spec_checker_kfree; [exact H| |].
  - intros Hn. exfalso. apply Hr in Hm as (q & en & Hq & Hen & Hp & _). by apply (Hn q en).
  - intros q en L' s1 Hq Hen Hp HL H1 _ _ _ Hk1 Hsl (en1 & t & Hen1 & Hp1 & _ & _ & Httl). apply spec_bind. eapply spec_delay_turn; [exact H1|].
    intros s2 D2 F K H2 HD Hs2 _ HK. specialize (HK (bucket ptr) q en1 Hb Hsl Hen1 ltac:(intros t'; rewrite Hk1, Httl; apply Ht)).
    assert (HqF : q ∉ F).
    { intros HF. pose proof (ok_nodup _ _ _ _ _ _ H1) as N. apply NoDup_app in N as (_ & _ & N). apply NoDup_app in N as (N & _). rewrite HD in N.
      apply NoDup_app in N as (_ & N & _). apply (N q HF). set_solver. }
    destruct (Hs2 q en1 HqF Hen1) as [Hen2 _]. eapply spec_deinit; [exact H2|]. intros s3 leaks H3 Hs3 _.
    assert (HqLD : q ∉ L' ++ D2).
    { intros Hin. pose proof (ok_nodup _ _ _ _ _ _ H2) as N. rewrite app_assoc in N. apply NoDup_app in N as (_ & N & _). apply (N q Hin). set_solver. }
    destruct (Hs3 q en1 HqLD Hen2) as [Hen3 _]. destruct (ok_holds _ _ _ _ _ _ H3 q en1 Hen3) as (d3 & [Hb3 _ _ _] & _). rewrite Hp1 in Hb3. by rewrite Hb3.
Qed.

(** ** Damage *)

(** What the checks ask of a block of [size] bytes of data. *)
Definition intact (size : Z) (b : list byte) : Prop :=
  field 0 8 b = store e 8 MALLOC_CHECKER_SIGN1 /\ field (Z.to_nat (8 + size)) 8 b = store e 8 MALLOC_CHECKER_SIGN2.

Lemma read_at s base addr off n b (Q : list byte -> state -> Prop) : blocks s !! base = Some b -> u64 (addr - base) = off ->
  off + n <= Z.of_nat (length b) -> Q (field (Z.to_nat off) (Z.to_nat n) b) s -> crash_or (read_mem base addr n) s Q.
Proof. intros Hb <- Hl HQ. unfold read_mem. apply crash_or_bind. unfold gets, crash_or. rewrite Hb. apply Z.leb_le in Hl. by rewrite Hl. Qed.

Lemma sign_bytes x bs : length bs = 8%nat -> load e bs = x -> bs = store e 8 x.
Proof. intros Hl <-. symmetry. by apply store_load. Qed.

(** The checks of the signs leave the state alone and let nothing pass that is not
    intact. *)
Lemma check_signs_intact s en b (Q : unit -> state -> Prop) : blocks s !! (e_ptr en - 8) = Some b -> Z.of_nat (length b) = e_size en + 16 ->
  8 < e_ptr en -> e_ptr en + e_size en + 8 < 2 ^ 64 -> 0 <= e_size en -> (intact (e_size en) b -> Q tt s) -> crash_or (check_signs e en) s Q.
Proof.
  intros Hb Hl Hlo Hhi Hsz HQ. unfold check_signs, read_word. rewrite (u64_small (e_ptr en - 8)), (u64_small (e_ptr en + e_size en)) by lia.
  apply crash_or_bind, crash_or_bind. eapply (read_at s _ _ 0 8 b); [exact Hb|by rewrite Z.sub_diag|lia|].
  apply crash_or_bind, crash_or_bug_on. intros E1. apply negb_false_iff, Z.eqb_eq in E1.
  apply crash_or_bind, crash_or_bind. eapply (read_at s _ _ (8 + e_size en) 8 b); [exact Hb|rewrite u64_small by lia; lia|lia|].
  apply crash_or_bug_on. intros E2. apply negb_false_iff, Z.eqb_eq in E2. apply HQ.
  split; (apply sign_bytes; [apply field_length; lia|done]).
Qed.

Lemma delay_check_pure s q (Q : unit -> state -> Prop) : (forall en, ents s !! q = Some en -> Q tt s) -> crash_or (delay_check e crc32_le q) s Q.
Proof.
  intros HQ. unfold delay_check, get_entry, check_signs, read_word, read_mem, crash_or, bind, gets, BUG_ON, ret, crash.
  destruct (ents s !! q) as [en|] eqn:Hen; [|done]. repeat (case_match; simplify_eq/=; try done). all: by eapply HQ.
Qed.

(** The entry [q] with the block [b] waits in list [i]. *)
Definition waits (q : nat) (en : malloc_entry) (b : list byte) (i : nat) (s : state) : Prop :=
  ents s !! q = Some en /\ blocks s !! (e_ptr en - 8) = Some b /\ q ∈ slot i (delay_entries_list s).

Lemma crash_or_get_entry s q en (Q : malloc_entry -> state -> Prop) : ents s !! q = Some en -> Q en s -> crash_or (get_entry q) s Q.
Proof. intros Hq HQ. apply crash_or_spec. by eapply spec_get_entry. Qed.

Lemma turn_step j x free s (P : state -> Prop) : (forall s, P s -> P (set_tick (S (tick s)) s)) ->
  (forall s, P s -> P (set_delay (list_del j x (delay_entries_list s)) s)) -> P s ->
  crash_or (do* delay_check e crc32_le x in
    let* en := get_entry x in
    let* t := kcall in
    let* now := gets (fun s => ktime s t) in
    if now <=? time_to_live en then
      do* modify (fun s => set_delay (list_del j x (delay_entries_list s)) s) in ret (x :: free)
    else ret free) s (fun _ => P).
Proof.
  intros Ht Hd HP. apply crash_or_bind, delay_check_pure. intros en Hen. apply crash_or_bind. eapply crash_or_get_entry; [exact Hen|].
  apply crash_or_spec, spec_bind. unfold kcall, spec at 1. apply spec_bind, spec_gets. destruct (_ <=? _); [|by apply spec_ret, Ht].
  apply spec_bind, spec_modify, spec_ret. by apply Hd, Ht.
Qed.

Lemma turn_other q en b i j s : j <> i -> waits q en b i s -> crash_or (turn_list e crc32_le j) s (fun _ => waits q en b i).
Proof.
  intros Hne HP. unfold turn_list. apply crash_or_bind. unfold gets, crash_or at 1. apply (crash_or_for_each (fun _ => waits q en b i)); [done| |done].
  intros x todo free s' HP'. apply turn_step; [done| |done]. intros s1 (H1 & H2 & H3). split; [done|]. split; [done|].
  unfold list_del. cbn. by rewrite slot_alter_ne.
Qed.

(** Bytes that no freed block of [size] bytes may hold. *)
Definition damaged (size : Z) (b : list byte) : Prop :=
  Z.of_nat (length b) = size + 16 /\ ~ (intact size b /\ crc32_le (field 8 (Z.to_nat size) b) = crc32_le (cc size)).

Lemma delay_check_damaged s q en b : ents s !! q = Some en -> blocks s !! (e_ptr en - 8) = Some b -> damaged (e_size en) b ->
  8 < e_ptr en -> e_ptr en + e_size en + 8 < 2 ^ 64 -> 0 <= e_size en -> e_crc32 en = crc32_le (cc (e_size en)) ->
  crash_or (delay_check e crc32_le q) s (fun _ _ => False).
Proof.
  intros Hen Hb [Hl Hd] Hlo Hhi Hsz Hcrc. unfold delay_check. apply crash_or_bind. eapply crash_or_get_entry; [exact Hen|].
  apply crash_or_bind. eapply check_signs_intact; [exact Hb|done..|]. intros Hi. rewrite (u64_small (e_ptr en - 8)) by lia.
  apply crash_or_bind. eapply (read_at s _ _ 8 (e_size en) b); [exact Hb|rewrite u64_small by lia; lia|lia|].
  apply crash_or_bug_on. intros E. apply negb_false_iff, Z.eqb_eq in E. apply Hd. split; [done|]. rewrite <- Hcrc. by symmetry.
Qed.

Lemma turn_finds q en b i s : waits q en b i s -> (i < NR)%nat -> damaged (e_size en) b ->
  8 < e_ptr en -> e_ptr en + e_size en + 8 < 2 ^ 64 -> 0 <= e_size en -> e_crc32 en = crc32_le (cc (e_size en)) ->
  malloc_checker_delay_turn e crc32_le s = Crash.
Proof.
  intros HP Hi Hd Hlo Hhi Hsz Hcrc. apply crash_or_crash. unfold malloc_checker_delay_turn. apply crash_or_bind.
  apply (crash_or_for_each (fun todo s => waits q en b i s /\ i ∈ todo)); [split; [done|apply elem_of_seq; revert Hi; generalize NR; clear; lia]| |].
  - intros j todo free s1 [HP1 Hin]. destruct (decide (j = i)) as [->|Hne].
    + unfold turn_list. apply crash_or_bind. unfold gets, crash_or at 1. apply (crash_or_mono _ _ (fun _ _ => False)); [|by intros a s' []].
      apply (crash_or_for_each (fun todo s => (ents s !! q = Some en /\ blocks s !! (e_ptr en - 8) = Some b) /\ q ∈ todo)).
      * destruct HP1 as (? & ? & ?). done.
      * intros x todo1 free1 s2 [HP2 Hq]. destruct (decide (x = q)) as [->|Hx].
        -- apply crash_or_bind. destruct HP2. eapply crash_or_mono; [by eapply delay_check_damaged|]. by intros a s' [].
        -- eapply crash_or_mono; [apply (turn_step _ _ _ _ (fun s => ents s !! q = Some en /\ blocks s !! (e_ptr en - 8) = Some b)); [by intros s' []|by intros s' []|exact HP2]|]. intros a s' HP3. split; [done|]. apply elem_of_cons in Hq as [->|Hq]; done.
      * intros a s' [_ Hq]. by apply elem_of_nil in Hq.
    + eapply crash_or_mono; [by apply turn_other|]. intros a s' HP'. split; [done|]. apply elem_of_cons in Hin as [->|Hin]; done.
  - intros a s' [_ Hin]. by apply elem_of_nil in Hin.
Qed.

(** The search of [malloc_checker_kfree] does not look at blocks. *)
Definition blind {A} (m : M A) : Prop := forall s a b r s', m s = Done r s' -> m (with_block a b s) = Done r (with_block a b s').

Lemma blind_bind {A B} (m : M A) (k : A -> M B) : blind m -> (forall x, blind (k x)) -> blind (bind m k).
Proof. intros Hm Hk s a b r s' E. unfold bind in *. destruct (m s) as [x s1| | |] eqn:E1; try done. rewrite (Hm s a b x s1 E1). by apply Hk. Qed.

Lemma blind_for_each {X A} (l : list X) (f : X -> A -> M A) : (forall x a, blind (f x a)) -> forall a, blind (for_each l f a).
Proof. intros Hf. induction l as [|x l IH]; intros a; cbn [for_each]; [by intros s p b r s' [= <- <-]|]. by apply blind_bind. Qed.

Lemma blind_find ptr l : blind (for_each l (fun curr found =>
    let* en := get_entry curr in
    if e_ptr en =? ptr then
      do* modify (fun s => set_entries (list_del (bucket ptr) curr (entries_list s)) s) in ret (curr :: found)
    else ret found) []).
Proof.
  apply blind_for_each. intros x found. apply blind_bind; [|intros en; case_match; by intros s a b r s' [= <- <-]].
  intros s a b r s' E. unfold get_entry, bind, gets in *. cbn [ents with_block set_blocks]. destruct (ents s !! x); [|done]. by injection E as <- <-.
Qed.

(** (C35) Damage does not go unseen: freeing a block whose signs were overwritten
    stops the machine, and so does the next turn of the thread when a block that
    waits for its release has changed in its signs or its checksum. *)
Theorem malloc_checker_finds_damage s m X ptr d b : heap_of s m X -> m !! ptr = Some d -> length b = (length d + 16)%nat ->
  (~ intact (Z.of_nat (length d)) b -> malloc_checker_kfree e crc32_le ptr (with_block (ptr - 8) b s) = Crash) /\
  (damaged (Z.of_nat (length d)) b -> spec (malloc_checker_kfree e crc32_le ptr) s (fun _ s' =>
    malloc_checker_delay_turn e crc32_le (with_block (ptr - 8) b s') = Crash)).
Proof.
  intros (L & D & H & Hr & _) Hm Hl. apply Hr in Hm as (q & en & Hq & Hen & Hp & Hd). pose proof Hd as Hd0. destruct Hd0 as [_ Hsz Hlo Hhi]. split.
  - intros Hbad. apply crash_or_crash. unfold malloc_checker_kfree. apply crash_or_bind. unfold gets, crash_or at 1. cbn [with_block set_blocks entries_list].
    assert (Hfind : spec (for_each (slot (bucket ptr) (entries_list s)) (fun curr found =>
      let* en := get_entry curr in
      if e_ptr en =? ptr then
        do* modify (fun s => set_entries (list_del (bucket ptr) curr (entries_list s)) s) in ret (curr :: found)
      else ret found) []) s (fun found s' => found = [q] /\ ents s' = ents s)).
    { eapply spec_find; [exact H|intros Hn; by destruct (Hn q en)|]. intros q' en' L' t Hq' Hen' Hp' _ _. split; [|done].
      by rewrite (ok_inj _ _ _ _ _ _ H q q' en en') by congruence. }
    apply spec_done in Hfind as (found & s1 & Hf & -> & He). apply crash_or_bind. unfold crash_or at 1. rewrite (blind_find _ _ _ _ _ _ _ Hf). cbn [for_each].
    apply crash_or_bind, crash_or_bind. unfold check_and_release_entry. apply crash_or_bind. eapply crash_or_get_entry; [cbn; by rewrite He|].
    apply crash_or_bind. eapply check_signs_intact; [rewrite Hp; by apply lookup_insert_eq|lia|done|done|lia|]. intros Hi. exfalso. apply Hbad. by rewrite <- Hsz.
  - intros Hbad. eapply spec_checker_kfree; [exact H|intros Hn; by destruct (Hn q en)|].
    intros q' en' L' s1 Hq' Hen' Hp' HL H1 _ _ _ _ Hsl (en1 & t & Hen1 & Hp1 & Hs1 & Hh1 & _). assert (q' = q) as -> by (eapply (ok_inj _ _ _ _ _ _ H); [done..|congruence]).
    assert (en' = en) as -> by congruence. destruct (ok_holds _ _ _ _ _ _ H1 q en1 Hen1) as (d1 & Hd1 & Hc). specialize (Hc ltac:(by left)).
    rewrite (holds_inj e _ _ _ _ Hd1 Hh1) in Hc. rewrite <- Hs1 in Hc. destruct Hd1 as [_ _ Hlo1 Hhi1].
    eapply (turn_finds q en1 b (bucket ptr)); [|apply bucket_bound|by rewrite Hs1, Hsz|done|done|lia|done]. split; [done|]. rewrite Hp1.
    split; [by apply lookup_insert_eq|done].
Qed.

End Claims.

End MallocCheckerClaims.
