(* ===== verification/PageChecker.v ===== *)
(** * Checked pages (src/crt/kernel/page_checker.c, page_alloc.c)

    Every page handed out has an entry in a hash table; at the end what is still
    there is reported as leaked.  Entries are blocks of the checked allocator.  The
    flags are those of the build (kernel/Makefile): pages are filled when they are
    freed, and released at once.

    State: the checked allocator, the pages by address with their counts and
    bytes, the fields of the entries by the address of their blocks, the table,
    the counters, and which page the kernel offers at a call. *)

From Stdlib Require Import ZArith Lia Permutation.
From coqutil Require Import Byte.
From stdpp Require Import base list gmap.
From S2P Require Import Prelude Table XXHash Bytes StMonad MallocChecker MallocCheckerSpec MallocCheckerCalls.
Import XXHash Bytes StMonad MallocChecker Table.
Local Open Scope Z_scope.
Local Open Scope stm_scope.

Module PageChecker.

Definition PAGE_CHECKER_NR_LISTS : nat := Z.to_nat 9973.

Arguments PAGE_CHECKER_NR_LISTS : simpl never.

Record page_entry := PEntry { p_flags : Z; p_page : Z }.

(** [sizeof(struct page_entry)]: link, flags, page and the stack trace. *)
Definition PAGE_ENTRY_SIZE : Z := 136.

Record pstate := PSt {
  mc : state;
  pages : gmap Z (Z * list byte);
  pents : gmap Z page_entry;
  pentries_list : list (list Z);
  pnr_allocs : Z;
  pnr_frees : Z;
  ppick : nat -> option Z;
  pjunk : nat -> byte;
  ptick : nat
}.

Definition set_mc x s := PSt x (pages s) (pents s) (pentries_list s) (pnr_allocs s) (pnr_frees s) (ppick s) (pjunk s) (ptick s).
Definition set_pages x s := PSt (mc s) x (pents s) (pentries_list s) (pnr_allocs s) (pnr_frees s) (ppick s) (pjunk s) (ptick s).
Definition set_pents x s := PSt (mc s) (pages s) x (pentries_list s) (pnr_allocs s) (pnr_frees s) (ppick s) (pjunk s) (ptick s).
Definition set_plists x s := PSt (mc s) (pages s) (pents s) x (pnr_allocs s) (pnr_frees s) (ppick s) (pjunk s) (ptick s).
Definition set_pallocs x s := PSt (mc s) (pages s) (pents s) (pentries_list s) x (pnr_frees s) (ppick s) (pjunk s) (ptick s).
Definition set_pfrees x s := PSt (mc s) (pages s) (pents s) (pentries_list s) (pnr_allocs s) x (ppick s) (pjunk s) (ptick s).
Definition set_ptick x s := PSt (mc s) (pages s) (pents s) (pentries_list s) (pnr_allocs s) (pnr_frees s) (ppick s) (pjunk s) x.

Abbreviation PM := (StMonad.M pstate).

Definition on_mc {A} (m : StMonad.M state A) : PM A := fun s =>
  match m (mc s) with
  | Done a m' => Done a (set_mc m' s)
  | Crash => Crash
  | Hang => Hang
  | NoFuel => NoFuel
  end.

(** ** The kernel's pages *)

(** A page that is in use is not given out. *)
Definition alloc_page : PM (option Z) := fun s =>
  let t := ptick s in
  let s := set_ptick (S t) s in
  match ppick s t with
  | Some p =>
      if bool_decide (pages s !! p = None)
      then Done (Some p) (set_pages (<[p := (1, replicate (Z.to_nat 4096) (pjunk s t))]> (pages s)) s)
      else Done None s
  | None => Done None s
  end.

(** The last reference gives the page back. *)
Definition put_page (p : Z) : PM unit :=
  let* ps := gets pages in
  match ps !! p with
  | Some (n, d) => modify (set_pages (if n - 1 =? 0 then delete p ps else <[p := (n - 1, d)]> ps))
  | None => crash
  end.

(** [memset] on the mapped page. *)
Definition fill_page (p : Z) : PM unit :=
  let* ps := gets pages in
  match ps !! p with
  | Some (n, _) => modify (set_pages (<[p := (n, replicate (Z.to_nat 4096) (byte.of_Z 0xCC))]> ps))
  | None => crash
  end.

Definition get_pent (q : Z) : PM page_entry :=
  let* es := gets pents in
  match es !! q with
  | Some en => ret en
  | None => crash
  end.

Section Checker.
Context (e : XXH_endianess) (crc32_le : list byte -> Z).

(** ** The checker *)

Definition page_checker_init : PM Z :=
  do* modify (set_pallocs 0) in
  do* modify (set_pfrees 0) in
  do* modify (set_plists (replicate PAGE_CHECKER_NR_LISTS [])) in
  ret 0.

Definition page_checker_alloc_page (flags : Z) : PM (option Z) :=
  let* page := alloc_page in
  match page with
  | None => ret None
  | Some page =>
      let* entry := on_mc (crt_kmalloc e PAGE_ENTRY_SIZE flags) in
      match entry with
      | None => do* put_page page in ret None
      | Some entry =>
          do* on_mc (write_mem (u64 (entry - 8)) (entry + 0) (replicate (Z.to_nat PAGE_ENTRY_SIZE) (byte.of_Z 0))) in
          do* modify (fun s => set_pents (<[entry := PEntry flags page]> (pents s)) s) in
          do* modify (fun s => set_plists (list_add (bucket page) entry (pentries_list s)) s) in
          do* modify (fun s => set_pallocs (pnr_allocs s + 1) s) in
          ret (Some page)
      end
  end.

Definition check_and_release_entry (q : Z) : PM unit :=
  let* en := get_pent q in
  do* fill_page (p_page en) in
  do* put_page (p_page en) in
  do* on_mc (crt_kfree e crc32_le q) in
  modify (fun s => set_pents (delete q (pents s)) s).

(** A count other than one is only reported. *)
Definition page_checker_free_page (page : Z) : PM unit :=
  let i := bucket page in
  let* l := gets (fun s => slot i (pentries_list s)) in
  let* found := for_each l (fun curr found =>
    let* en := get_pent curr in
    if p_page en =? page then
      do* modify (fun s => set_plists (list_del i curr (pentries_list s)) s) in ret (curr :: found)
    else ret found) [] in
  for_each found (fun curr _ =>
    do* check_and_release_entry curr in modify (fun s => set_pfrees (pnr_frees s + 1) s)) tt.

(** The pages in list [i] that are reported as leaked. *)
Definition page_deinit_list (i : nat) (leaks : list Z) : PM (list Z) :=
  let* l := gets (fun s => slot i (pentries_list s)) in
  let* found := for_each l (fun curr found =>
    do* modify (fun s => set_plists (list_del i curr (pentries_list s)) s) in ret (curr :: found)) [] in
  for_each found (fun curr leaks =>
    let* en := get_pent curr in
    do* check_and_release_entry curr in ret (p_page en :: leaks)) leaks.

Definition page_checker_deinit : PM (list Z) := for_each (seq 0 PAGE_CHECKER_NR_LISTS) page_deinit_list [].

(** ** What the other modules call *)

Definition crt_page_alloc_init : PM Z := page_checker_init.
Definition crt_page_alloc_deinit : PM (list Z) := page_checker_deinit.
Definition crt_alloc_page (flags : Z) : PM (option Z) := page_checker_alloc_page flags.
Definition crt_free_page (page : Z) : PM unit := page_checker_free_page page.

End Checker.

End PageChecker.

(** * The books of the checked pages

    [pok s E Y m X]: the entries [E] are in the table and [Y] in no list; each has
    one page, held once, and its block in the heap [m] of the checked allocator;
    there is no other page.  The theorems: allocating and freeing pages, and the
    end of both checkers. *)

Import XXHash Bytes StMonad MallocChecker MallocCheckerSpec MallocCheckerClaims PageChecker Table.
Import PageChecker.

Module PageCheckerSpec.

Abbreviation PNR := PAGE_CHECKER_NR_LISTS.

Section Spec.
Context (e : XXH_endianess) (crc32_le : list byte -> Z).

Abbreviation heap_of := (heap_of e crc32_le).

Record pok (s : pstate) (E Y : list Z) (m : gmap Z (list byte)) (X : list nat) : Prop := {
  po_list : concat (pentries_list s) ≡ₚ E;
  po_length : length (pentries_list s) = PNR;
  po_bucket : forall i q en, q ∈ slot i (pentries_list s) -> pents s !! q = Some en -> bucket (p_page en) = i;
  po_nodup : NoDup (E ++ Y);
  po_ents : forall q, is_Some (pents s !! q) <-> q ∈ E ++ Y;
  po_page : forall q en, pents s !! q = Some en -> exists d, pages s !! p_page en = Some (1, d);
  po_inj : forall q q' en en', pents s !! q = Some en -> pents s !! q' = Some en' -> p_page en = p_page en' -> q = q';
  po_pages : forall p, is_Some (pages s !! p) -> exists q en, pents s !! q = Some en /\ p_page en = p;
  po_heap : heap_of (mc s) m X;
  po_mem : forall q, q ∈ E ++ Y -> is_Some (m !! q)
}.

(** ** Calls of the checked allocator *)

Lemma spec_on_mc {A} (f : StMonad.M state A) s (Q : A -> pstate -> Prop) : spec f (mc s) (fun r m' => Q r (set_mc m' s)) -> spec (on_mc f) s Q.
Proof. unfold spec, on_mc. by destruct (f (mc s)). Qed.

Lemma spec_unbind {S A B} (f : StMonad.M S A) (x : B) s (Q : B -> S -> Prop) : spec (do* f in ret x) s Q -> spec f s (fun _ s' => Q x s').
Proof. unfold spec, bind. by destruct (f s). Qed.

Lemma spec_heap_free s m X q (Q : unit -> state -> Prop) : heap_of s m X -> (forall s', heap_of s' (delete q m) X -> Q tt s') -> spec (crt_kfree e crc32_le q) s Q.
Proof.
  intros H HQ. eapply spec_mono; [apply (spec_unbind _ (@None Z)), (step_free e crc32_le s m X q H)|]. intros [] s' (m' & H' & ->). by apply HQ.
Qed.

Lemma spec_heap_fill s m X q d b (Q : unit -> state -> Prop) : heap_of s m X -> m !! q = Some d -> length b = length d ->
  (forall s', heap_of s' (<[q := b]> m) X -> Q tt s') -> spec (write_mem (u64 (q - 8)) (q + 0) b) s Q.
Proof.
  intros H Hq Hl HQ. eapply spec_mono; [apply (spec_unbind _ (@None Z)), (step_write e crc32_le s m X q 0 b H); exists d; split; [done|lia]|].
  intros [] s' (m' & H' & d' & Hd' & ->). apply HQ. rewrite Hq in Hd'. injection Hd' as <-. change (Z.to_nat 0) with 0%nat in H'.
  unfold memcpy_at in H'. rewrite take_0, drop_ge in H' by lia. cbn [app] in H'. by rewrite app_nil_r in H'.
Qed.

(** ** Allocating *)

Lemma spec_put_last s p d (Q : unit -> pstate -> Prop) : pages s !! p = Some (1, d) -> Q tt (set_pages (delete p (pages s)) s) -> spec (put_page p) s Q.
Proof. intros Hp HQ. unfold put_page. apply spec_bind, spec_gets. rewrite Hp. by apply spec_modify. Qed.

Lemma spec_get_pent s q en (Q : page_entry -> pstate -> Prop) : pents s !! q = Some en -> Q en s -> spec (get_pent q) s Q.
Proof. intros Hq HQ. unfold get_pent. apply spec_bind, spec_gets. by rewrite Hq. Qed.

Lemma pok_new s E Y m X q page flags d b t : pok s E Y m X -> pages s !! page = None -> m !! q = None -> heap_of t (<[q := b]> m) X ->
  forall n k, pok (PSt t (<[page := (1, d)]> (pages s)) (<[q := PEntry flags page]> (pents s)) (list_add (bucket page) q (pentries_list s)) n (pnr_frees s) (ppick s) (pjunk s) k)
    (q :: E) Y (<[q := b]> m) X.
Proof.
  intros H Hp Hq Ht n k. assert (HqN : q ∉ E ++ Y) by (intros Hin; destruct (po_mem _ _ _ _ _ H q Hin); congruence).
  assert (Hold : forall q' en', pents s !! q' = Some en' -> p_page en' <> page) by (intros q' en' Hen' Hpe; destruct (po_page _ _ _ _ _ H q' en' Hen'); congruence).
  assert (HqP : pents s !! q = None) by (destruct (pents s !! q) eqn:E1; [|done]; exfalso; apply HqN, (po_ents _ _ _ _ _ H); by rewrite E1).
  destruct H. split; cbn; try done.
  - rewrite list_add_perm; [by apply perm_skip|]. rewrite po_length0. apply bucket_bound.
  - unfold list_add. by rewrite length_alter.
  - intros i q' en' Hq' Hen'. apply slot_add in Hq'. apply lookup_insert_Some in Hen' as [[<- <-]|[Hne Hen']].
    + destruct Hq' as [[_ ->]|Hq']; [done|]. exfalso. apply HqN, elem_of_app. left. rewrite <- po_list0. by eapply slot_concat.
    + destruct Hq' as [[-> _]|Hq']; [done|]. by eapply po_bucket0.
  - by apply NoDup_cons.
  - intros q'. rewrite lookup_insert_is_Some, elem_of_cons, po_ents0. destruct (decide (q = q')); naive_solver.
  - intros q' en' Hen'. apply lookup_insert_Some in Hen' as [[<- <-]|[Hne Hen']]; cbn; [exists d; by rewrite lookup_insert_eq|].
    rewrite lookup_insert_ne; [by eapply po_page0|]. by apply not_eq_sym, (Hold q').
  - intros q1 q2 en1 en2 H1 H2 Heq. apply lookup_insert_Some in H1 as [[<- <-]|[Hne1 H1]], H2 as [[<- <-]|[Hne2 H2]]; cbn in Heq; [done| | |by eapply po_inj0].
    + by destruct (Hold q2 en2 H2).
    + by destruct (Hold q1 en1 H1).
  - intros p Hpp. apply lookup_insert_is_Some in Hpp as [<-|[Hne Hpp]]; [exists q, (PEntry flags page); by rewrite lookup_insert_eq|].
    destruct (po_pages0 p Hpp) as (q' & en' & Hen' & Hpe). exists q', en'. by rewrite lookup_insert_ne by congruence.
  - intros q' Hq'. apply lookup_insert_is_Some. destruct (decide (q = q')); [by left|right]. split; [done|]. apply po_mem0. apply elem_of_cons in Hq' as [->|Hq']; done.
Qed.

Lemma pok_mc s E Y m X t k : pok s E Y m X -> heap_of t m X -> pok (set_mc t (set_ptick k s)) E Y m X.
Proof. intros [] Ht. by split. Qed.

Lemma spec_alloc_page s (Q : option Z -> pstate -> Prop) : Q None (set_ptick (S (ptick s)) s) ->
  (forall p d, pages s !! p = None -> Q (Some p) (set_pages (<[p := (1, d)]> (pages s)) (set_ptick (S (ptick s)) s))) -> spec alloc_page s Q.
Proof.
  intros HN HS. unfold spec, alloc_page. cbn [ppick set_ptick pages]. destruct (ppick s (ptick s)) as [p|]; [|done]. case_bool_decide; [by apply HS|done].
Qed.

Lemma spec_checker_alloc s E Y m X flags (Q : option Z -> pstate -> Prop) : pok s E Y m X ->
  (forall s', pok s' E Y m X -> pages s' = pages s -> Q None s') ->
  (forall s' page q d b, pok s' (q :: E) Y (<[q := b]> m) X -> pages s !! page = None -> pages s' = <[page := (1, d)]> (pages s) ->
    m !! q = None -> Q (Some page) s') ->
  spec (page_checker_alloc_page e flags) s Q.
Proof.
  intros H HN HS. unfold page_checker_alloc_page. apply spec_bind, spec_alloc_page; [apply spec_ret, HN; [by destruct H|done]|].
  intros page d Hp. apply spec_bind, spec_on_mc. eapply spec_mono; [apply (step_malloc e crc32_le (mc s) m X PAGE_ENTRY_SIZE flags (po_heap _ _ _ _ _ H)); unfold allowed, PAGE_ENTRY_SIZE; lia|].
  intros [q|] t (m' & Ht & Hm').
  - destruct Hm' as (d0 & Hq & -> & Hl & _ & _). apply spec_bind, spec_on_mc.
    eapply spec_heap_fill; [exact Ht|by apply lookup_insert_eq|rewrite length_replicate; unfold PAGE_ENTRY_SIZE in *; lia|]. intros t' Ht'. rewrite insert_insert_eq in Ht'.
    do 3 apply spec_bind, spec_modify. apply spec_ret. eapply HS; [by apply (pok_new s E Y m X q page flags d)|done..].
  - cbn in Hm'. subst m'. apply spec_bind. eapply spec_put_last; [by apply lookup_insert_eq|]. apply spec_ret.
    assert (Hpg : delete page (<[page := (1, d)]> (pages s)) = pages s) by (by rewrite delete_insert_id).
    apply HN; [|exact Hpg]. pose proof (pok_mc s E Y m X t (S (ptick s)) H Ht) as []. by split; cbn; rewrite ?Hpg.
Qed.

(** ** Freeing *)

Lemma pok_take s E Y m X i q : pok s E Y m X -> q ∈ slot i (pentries_list s) ->
  exists E', E ≡ₚ q :: E' /\ pok (set_plists (list_del i q (pentries_list s)) s) E' (q :: Y) m X.
Proof.
  intros H Hq. assert (HN : NoDup (concat (pentries_list s))).
  { rewrite (po_list _ _ _ _ _ H). pose proof (po_nodup _ _ _ _ _ H) as N. by apply NoDup_app in N as (N & _). }
  pose proof (list_del_perm i q _ HN Hq) as P. exists (concat (list_del i q (pentries_list s))).
  assert (HE : E ≡ₚ q :: concat (list_del i q (pentries_list s))) by (by rewrite <- P, (po_list _ _ _ _ _ H)).
  split; [done|]. destruct H. assert (HP : E ++ Y ≡ₚ concat (list_del i q (pentries_list s)) ++ q :: Y).
  { rewrite <- Permutation_middle. change (?x :: ?y ++ ?z) with ((x :: y) ++ z). by apply Permutation_app_tail. }
  split; try done; [cbn; unfold list_del; by rewrite length_alter| |by rewrite <- HP|intros q'; by rewrite <- HP|intros q' Hq'; apply po_mem0; by rewrite HP].
  intros j q' en Hq' Hen. cbn in Hq', Hen. apply (po_bucket0 j q' en); [|done]. destruct (decide (j = i)) as [->|Hj].
  - rewrite slot_del in Hq'. by apply list_elem_of_filter in Hq' as [_ Hq'].
  - unfold list_del in Hq'. by rewrite slot_alter_ne in Hq' by done.
Qed.

(** An entry with its page and its block is given back. *)
Lemma pok_free s E Y m X q en t : pok s E (q :: Y) m X -> pents s !! q = Some en -> heap_of t (delete q m) X ->
  pok (set_pents (delete q (pents s)) (set_mc t (set_pages (delete (p_page en) (pages s)) s))) E Y (delete q m) X.
Proof.
  intros H Hq Ht. destruct H. rewrite <- Permutation_middle in po_nodup0. apply NoDup_cons in po_nodup0 as [Hnew N].
  assert (Hin : forall q', q' ∈ E ++ q :: Y <-> q' = q \/ q' ∈ E ++ Y) by (intros q'; rewrite <- Permutation_middle; apply elem_of_cons).
  split; cbn; try done.
  - intros i q' en' Hq' Hen'. apply lookup_delete_Some in Hen' as [_ Hen']. by eapply po_bucket0.
  - intros q'. rewrite lookup_delete_is_Some, po_ents0, Hin. split; [naive_solver|]. intros Hq'. split; [|by right]. by intros <-.
  - intros q' en' Hen'. apply lookup_delete_Some in Hen' as [Hne Hen']. destruct (po_page0 q' en' Hen') as [d Hd]. exists d.
    rewrite lookup_delete_ne; [done|]. intros Hpe. apply Hne. by eapply po_inj0.
  - intros q1 q2 en1 en2 H1 H2 Heq. apply lookup_delete_Some in H1 as [_ H1], H2 as [_ H2]. by eapply po_inj0.
  - intros p Hp. apply lookup_delete_is_Some in Hp as [Hne Hp]. destruct (po_pages0 p Hp) as (q' & en' & Hen' & Hpe). exists q', en'.
    split; [|done]. rewrite lookup_delete_ne; [done|]. intros <-. congruence.
  - intros q' Hq'. apply lookup_delete_is_Some. split; [by intros <-|]. apply po_mem0, Hin. by right.
Qed.

Lemma pok_mine s E Y m X q : pok s E (q :: Y) m X -> exists en, pents s !! q = Some en.
Proof. intros H. destruct (proj2 (po_ents _ _ _ _ _ H q)) as [en Hen]; [set_solver|]. by exists en. Qed.

Lemma spec_page_release s E Y m X q en (Q : unit -> pstate -> Prop) : pok s E (q :: Y) m X -> pents s !! q = Some en ->
  (forall s', pok s' E Y (delete q m) X -> pages s' = delete (p_page en) (pages s) -> pents s' = delete q (pents s) -> pentries_list s' = pentries_list s -> Q tt s') ->
  spec (PageChecker.check_and_release_entry e crc32_le q) s Q.
Proof.
  intros H Hq HQ. destruct (po_page _ _ _ _ _ H q en Hq) as [d Hd]. unfold PageChecker.check_and_release_entry.
  apply spec_bind. eapply spec_get_pent; [exact Hq|]. apply spec_bind. unfold fill_page. apply spec_bind, spec_gets. rewrite Hd. apply spec_modify.
  apply spec_bind. eapply spec_put_last; [by apply lookup_insert_eq|]. apply spec_bind, spec_on_mc.
  eapply spec_heap_free; [exact (po_heap _ _ _ _ _ H)|]. intros t Ht. apply spec_modify.
  assert (Hpg : forall x, delete (p_page en) (<[p_page en := x]> (pages s)) = delete (p_page en) (pages s)) by (intros x; apply delete_insert_eq).
  pose proof (pok_free s E Y m X q en t H Hq Ht) as H'. apply HQ; [|cbn; by rewrite Hpg|done..]. destruct H'. by split; cbn; rewrite ?Hpg.
Qed.

Lemma spec_page_find s E Y m X page (Q : list Z -> pstate -> Prop) : pok s E Y m X ->
  (pages s !! page = None \/ (exists q en, q ∈ Y /\ pents s !! q = Some en /\ p_page en = page) -> Q [] s) ->
  (forall q en E' t, pents s !! q = Some en -> p_page en = page -> E ≡ₚ q :: E' -> pok (set_plists t s) E' (q :: Y) m X -> Q [q] (set_plists t s)) ->
  spec (for_each (slot (bucket page) (pentries_list s)) (fun curr found =>
    let* en := get_pent curr in
    if p_page en =? page then
      do* modify (fun s => set_plists (list_del (bucket page) curr (pentries_list s)) s) in ret (curr :: found)
    else ret found) []) s Q.
Proof.
  intros H HN HS. set (i := bucket page). set (l := slot i (pentries_list s)).
  assert (Hl : NoDup l).
  { apply slot_NoDup. rewrite (po_list _ _ _ _ _ H). pose proof (po_nodup _ _ _ _ _ H) as N. by apply NoDup_app in N as (N & _). }
  assert (HlE : forall q, q ∈ l -> q ∈ E) by (intros q Hq; rewrite <- (po_list _ _ _ _ _ H); by eapply slot_concat).
  apply (spec_for_each (fun todo found s' =>
    (found = [] /\ s' = s /\ forall q en, q ∈ l -> q ∉ todo -> pents s !! q = Some en -> p_page en <> page) \/
    (exists q en E' t, found = [q] /\ s' = set_plists t s /\ q ∉ todo /\ pents s !! q = Some en /\ p_page en = page /\ E ≡ₚ q :: E' /\ pok s' E' (q :: Y) m X))).
  - left. split; [done|]. split; [done|]. intros q en Hq Hn. done.
  - intros x todo found s1 [pre Hpre] HI. assert (Hx : x ∈ l) by (rewrite Hpre; set_solver).
    assert (Hxt : x ∉ todo) by (rewrite Hpre in Hl; apply NoDup_app in Hl as (_ & _ & Hl); by apply NoDup_cons in Hl as [Hl _]).
    destruct (proj2 (po_ents _ _ _ _ _ H x)) as [en Hen]; [apply elem_of_app; left; by apply HlE|].
    destruct HI as [(-> & -> & HI)|(q & enq & E' & t & -> & -> & Hqt & Henq & Hp & HE & H1)]; apply spec_bind; eapply spec_get_pent; try exact Hen.
    + destruct (Z.eqb_spec (p_page en) page) as [Hp|Hp].
      * apply spec_bind, spec_modify, spec_ret. right. destruct (pok_take s E Y m X i x H Hx) as (E' & HE & H1).
        by exists x, en, E', (list_del i x (pentries_list s)).
      * apply spec_ret. left. split; [done|]. split; [done|]. intros q enq Hq Hqt Henq. destruct (decide (q = x)) as [->|Hne]; [congruence|].
        apply (HI q); [done|set_solver|done].
    + destruct (Z.eqb_spec (p_page en) page) as [Hp'|Hp'].
      * exfalso. assert (x = q) as -> by (eapply (po_inj _ _ _ _ _ H); [done..|congruence]). set_solver.
      * apply spec_ret. right. exists q, enq, E', t. split; [done|]. split; [done|]. split; [set_solver|done].
  - intros found s1 [(-> & -> & HI)|(q & enq & E' & t & -> & -> & _ & Henq & Hp & HE & H1)]; [|by apply (HS q enq E')].
    apply HN. destruct (pages s !! page) eqn:Ep; [right|by left]. destruct (po_pages _ _ _ _ _ H page) as (q & en & Hen & Hp); [by rewrite Ep|].
    exists q, en. split; [|done]. assert (Hin : q ∈ E ++ Y) by (by apply (po_ents _ _ _ _ _ H); exists en). apply elem_of_app in Hin as [Hin|Hin]; [exfalso|done].
    rewrite <- (po_list _ _ _ _ _ H) in Hin. apply concat_slot in Hin as (j & _ & Hj). pose proof (po_bucket _ _ _ _ _ H j q en Hj Hen) as <-.
    rewrite Hp in Hj. apply (HI q en); [done|set_solver|done..].
Qed.

Lemma spec_free_page s E m X page (Q : unit -> pstate -> Prop) : pok s E [] m X ->
  (forall s' E' m', pok s' E' [] m' X -> pages s' = delete page (pages s) -> m' ⊆ m -> Q tt s') ->
  spec (page_checker_free_page e crc32_le page) s Q.
Proof.
  intros H HQ. unfold page_checker_free_page. apply spec_bind, spec_gets, spec_bind. eapply spec_page_find; [exact H| |].
  - intros [Hn|(q & en & Hq & _)]; [|by apply elem_of_nil in Hq]. apply spec_ret. apply (HQ s E m); [done|by rewrite delete_id|done].
  - intros q en E' t Hen Hp HE H1. cbn [for_each]. apply spec_bind, spec_bind. eapply spec_page_release; [exact H1|exact Hen|].
    intros s2 H2 Hpg _ _. apply spec_modify, spec_ret. apply (HQ _ E' (delete q m)); [destruct H2; by split|cbn; by rewrite Hpg, Hp|apply delete_subseteq].
Qed.

(** ** The end *)

Lemma spec_page_take_all s E Y m X i (Q : list Z -> pstate -> Prop) : pok s E Y m X ->
  (forall found E' t, pok (set_plists t s) E' (found ++ Y) m X -> E ≡ₚ found ++ E' -> slot i t = [] ->
    (forall j, j <> i -> slot j t = slot j (pentries_list s)) -> Q found (set_plists t s)) ->
  spec (for_each (slot i (pentries_list s)) (fun curr found =>
    do* modify (fun s => set_plists (list_del i curr (pentries_list s)) s) in ret (curr :: found)) []) s Q.
Proof.
  intros H HQ. apply (spec_for_each (fun todo found s' => exists E' t, s' = set_plists t s /\ pok s' E' (found ++ Y) m X /\ E ≡ₚ found ++ E' /\
    slot i t = todo /\ forall j, j <> i -> slot j t = slot j (pentries_list s))).
  - exists E, (pentries_list s). by destruct s.
  - intros x todo found s1 _ (E1 & t1 & -> & H1 & HE & Hi & Hj). apply spec_bind, spec_modify, spec_ret.
    destruct (pok_take _ E1 (found ++ Y) m X i x H1) as (E2 & HE2 & H2); [cbn; rewrite Hi; by left|].
    exists E2, (list_del i x t1). split; [done|]. split; [done|]. split; [by apply (perm_into found E1)|]. split.
    + apply slot_todo; [|done]. pose proof (po_list _ _ _ _ _ H1) as P. cbn in P. rewrite P.
      pose proof (po_nodup _ _ _ _ _ H1) as N. by apply NoDup_app in N as (N & _).
    + intros j Hne. unfold list_del. rewrite slot_alter_ne by done. by apply Hj.
  - intros found s1 (E1 & t1 & -> & H1 & HE & Hi & Hj). by apply (HQ found E1).
Qed.

Definition pgs (s : pstate) (qs : list Z) : list Z := map (fun q => from_option p_page 0 (pents s !! q)) qs.

(** [m] without the blocks of [F]. *)
Definition without (F : list Z) (m m' : gmap Z (list byte)) : Prop := forall q, m' !! q = if decide (q ∈ F) then None else m !! q.

Lemma without_cons q F m m' : without F (delete q m) m' -> without (q :: F) m m'.
Proof.
  intros Hw x. rewrite (Hw x). destruct (decide (x ∈ F)), (decide (x ∈ q :: F)) as [Hx|Hx]; try done; [set_solver| |].
  - apply elem_of_cons in Hx as [->|Hx]; [by rewrite lookup_delete_eq|done].
  - apply lookup_delete_ne. set_solver.
Qed.

Lemma without_app F G m m1 m2 : without F m m1 -> without G m1 m2 -> without (G ++ F) m m2.
Proof.
  intros H1 H2 x. rewrite (H2 x), (H1 x). destruct (decide (x ∈ G)), (decide (x ∈ F)), (decide (x ∈ G ++ F)) as [Hx|Hx]; try done; set_solver.
Qed.

Lemma spec_page_report found : forall leaks s E Y m X (Q : list Z -> pstate -> Prop), pok s E (found ++ Y) m X -> NoDup found ->
  (forall s' m', pok s' E Y m' X -> without found m m' -> (forall q, q ∉ found -> pents s' !! q = pents s !! q) ->
    pentries_list s' = pentries_list s -> Q (rev (pgs s found) ++ leaks) s') ->
  spec (for_each found (fun curr leaks =>
    let* en := get_pent curr in
    do* PageChecker.check_and_release_entry e crc32_le curr in ret (p_page en :: leaks)) leaks) s Q.
Proof.
  induction found as [|q found IH]; intros leaks s E Y m X Q H N HQ; cbn [for_each].
  { apply spec_ret. apply (HQ s m); [done| |done..]. intros q. by rewrite decide_False by apply not_elem_of_nil. }
  apply NoDup_cons in N as [Hqf N]. destruct (pok_mine s E (found ++ Y) m X q H) as (en & Hq).
  apply spec_bind, spec_bind. eapply spec_get_pent; [exact Hq|]. apply spec_bind.
  eapply spec_page_release; [exact H|exact Hq|]. intros s1 H1 _ He1 Hl1. apply spec_ret. eapply IH; [exact H1|done|]. intros s2 m2 H2 Hw2 He2 Hl2.
  assert (Ep : pgs s1 found = pgs s found).
  { apply map_ext_in. intros q' Hq'. rewrite He1, lookup_delete_ne; [done|]. intros ->. by apply Hqf, list_elem_of_In. }
  rewrite Ep. replace (rev (pgs s found) ++ p_page en :: leaks) with (rev (pgs s (q :: found)) ++ leaks);
    [|cbn [pgs map rev]; rewrite Hq, <- app_assoc; done].
  apply (HQ s2 m2); [done|by apply without_cons| |by rewrite Hl2].
  intros q' Hq'. rewrite He2 by set_solver. rewrite He1. apply lookup_delete_ne. set_solver.
Qed.

Lemma spec_page_deinit s E m X (Q : list Z -> pstate -> Prop) : pok s E [] m X ->
  (forall s' m' leaks, pok s' [] [] m' X -> without E m m' -> leaks ≡ₚ pgs s E -> Q leaks s') ->
  spec (page_checker_deinit e crc32_le) s Q.
Proof.
  intros H HQ. apply (spec_for_each (fun todo leaks s' => exists E' F m', pok s' E' [] m' X /\ E ≡ₚ F ++ E' /\ without F m m' /\ leaks ≡ₚ pgs s F /\
    (forall q, q ∉ F -> pents s' !! q = pents s !! q) /\ forall j, j ∉ todo -> (j < PNR)%nat -> slot j (pentries_list s') = [])).
  - exists E, [], m. split; [done|]. split; [done|]. split; [intros q; by rewrite decide_False by apply not_elem_of_nil|]. split; [done|]. split; [done|].
    intros j Hj Hlt. exfalso. apply Hj, elem_of_seq. revert Hlt. generalize PNR. clear. lia.
  - intros i todo leaks s1 _ (E1 & F1 & m1 & H1 & HE1 & Hw1 & Hk1 & He1 & Hs1). unfold page_deinit_list. apply spec_bind, spec_gets, spec_bind.
    eapply spec_page_take_all; [exact H1|]. intros F2 E2 t2 H2 HE2 Hi Hj.
    assert (NF : NoDup (F2 ++ E2)) by (rewrite <- HE2; pose proof (po_nodup _ _ _ _ _ H1) as N; by apply NoDup_app in N as (N & _)).
    assert (HF : forall q, q ∈ F2 -> q ∉ F1).
    { intros q Hq2 Hq1. pose proof (po_nodup _ _ _ _ _ H) as N. apply NoDup_app in N as (N & _). rewrite HE1 in N. apply NoDup_app in N as (_ & N & _).
      apply (N q Hq1). rewrite HE2. set_solver. }
    eapply spec_page_report; [exact H2|by apply NoDup_app in NF as (NF & _)|]. intros s3 m3 H3 Hw3 He3 Hl3. cbn in He3, Hl3.
    assert (Ep : pgs (set_plists t2 s1) F2 = pgs s F2).
    { apply map_ext_in. intros q Hq. cbn. rewrite He1; [done|]. by apply HF, list_elem_of_In. }
    exists E2, (F2 ++ F1), m3. split; [done|]. split; [|split; [|split; [|split]]].
    + transitivity (F1 ++ F2 ++ E2); [by rewrite HE1; apply Permutation_app_head|]. rewrite !app_assoc. apply Permutation_app_tail, Permutation_app_comm.
    + by eapply without_app.
    + rewrite Ep. unfold pgs in *. rewrite map_app. apply Permutation_app; [symmetry; apply Permutation_rev|done].
    + intros q Hq. rewrite He3 by set_solver. apply He1. set_solver.
    + intros j Hjt Hlt. rewrite Hl3. destruct (decide (j = i)) as [->|Hne]; [done|]. rewrite Hj by done. apply Hs1; [|done]. by apply not_elem_of_cons.
  - intros leaks s1 (E1 & F1 & m1 & H1 & HE1 & Hw1 & Hk1 & He1 & Hs1). assert (EE : E1 = []).
    { apply Permutation_nil. rewrite <- (po_list _ _ _ _ _ H1). rewrite (slots_empty PNR); [done|apply (po_length _ _ _ _ _ H1)|done]. }
    subst E1. rewrite app_nil_r in HE1. apply (HQ s1 m1); [done| |].
    + intros q. rewrite (Hw1 q). destruct (decide (q ∈ F1)) as [Hq|Hq], (decide (q ∈ E)) as [Hq'|Hq']; try done; rewrite HE1 in Hq'; done.
    + rewrite Hk1. unfold pgs. by apply Permutation_map.
Qed.

End Spec.

End PageCheckerSpec.

(** * Checked pages: what is promised *)

Import XXHash Bytes StMonad MallocChecker MallocCheckerSpec MallocCheckerClaims PageChecker PageCheckerSpec Table.

Module PageCheckerClaims.

Section Claims.
Context (e : XXH_endianess) (crc32_le : list byte -> Z).

Definition pages_of (s : pstate) (m : gmap Z (list byte)) (X : list nat) : Prop := exists E, pok e crc32_le s E [] m X.

(** What [crt_exit] does of both: the pages and the blocks it reports. *)
Definition crt_exit : PM (list Z * list Z) :=
  let* ps := crt_page_alloc_deinit e crc32_le in
  let* bs := on_mc (crt_kmalloc_deinit e crc32_le) in
  ret (ps, bs).

Lemma page_init_ok s m X : pages s = ∅ -> pents s = ∅ -> heap_of e crc32_le (mc s) m X ->
  spec page_checker_init s (fun r s' => r = 0 /\ pages_of s' m X /\ pages s' = ∅).
Proof.
  intros Hp He Hm. unfold page_checker_init. do 3 apply spec_bind, spec_modify. apply spec_ret. split; [done|]. split; [|done]. exists [].
  assert (Hcat : concat (replicate PNR (@nil Z)) = []) by (induction PNR; done).
  split; cbn; rewrite ?Hcat, ?Hp, ?He, ?length_replicate; try done.
  - apply NoDup_nil_2.
  - intros q. split; [by intros [x Hx]; rewrite lookup_empty in Hx|]. by intros ?%elem_of_nil.
  - intros p [x Hx]. by rewrite lookup_empty in Hx.
  - intros q Hq. by apply elem_of_nil in Hq.
Qed.

Lemma pgs_pages s E m X : pok e crc32_le s E [] m X -> pgs s E ≡ₚ map fst (map_to_list (pages s)).
Proof.
  intros H. assert (HE : forall q, q ∈ E <-> is_Some (pents s !! q)) by (intros q; rewrite (po_ents _ _ _ _ _ _ _ H); by rewrite app_nil_r).
  assert (N : NoDup E) by (pose proof (po_nodup _ _ _ _ _ _ _ H) as N; by rewrite app_nil_r in N).
  apply NoDup_Permutation.
  - unfold pgs. apply NoDup_ListNoDup, Finite.Injective_map_NoDup_in; [|by apply NoDup_ListNoDup]. intros q q' Hq Hq' Heq. apply list_elem_of_In in Hq, Hq'.
    apply HE in Hq as [en Hen], Hq' as [en' Hen']. rewrite Hen, Hen' in Heq. by eapply (po_inj _ _ _ _ _ _ _ H).
  - apply NoDup_fst_map_to_list.
  - intros p. unfold pgs. rewrite !list_elem_of_In, !in_map_iff. split.
    + intros (q & <- & Hq). apply list_elem_of_In, HE in Hq as [en Hen]. rewrite Hen. cbn. destruct (po_page _ _ _ _ _ _ _ H q en Hen) as [d Hd].
      exists (p_page en, (1, d)). split; [done|]. by apply list_elem_of_In, elem_of_map_to_list.
    + intros ([p' x] & <- & Hp). apply list_elem_of_In, elem_of_map_to_list in Hp. destruct (po_pages _ _ _ _ _ _ _ H p') as (q & en & Hen & Hpe); [by exists x|].
      exists q. rewrite Hen. split; [done|]. apply list_elem_of_In, HE. by exists en.
Qed.

Lemma pok_none s m X : pok e crc32_le s [] [] m X -> pages s = ∅ /\ pents s = ∅.
Proof.
  intros H. assert (He : pents s = ∅).
  { apply map_empty. intros q. destruct (pents s !! q) eqn:E; [|done]. assert (Hq : q ∈ @nil Z ++ []) by (apply (po_ents _ _ _ _ _ _ _ H); by rewrite E). by apply elem_of_nil in Hq. }
  split; [|done]. apply map_empty. intros p. destruct (pages s !! p) eqn:E; [|done].
  destruct (po_pages _ _ _ _ _ _ _ H p) as (q & en & Hen & _); [by rewrite E|]. by rewrite He, lookup_empty in Hen.
Qed.

Lemma exit_ok s m X : pages_of s m X ->
  spec crt_exit s (fun '(ps, bs) s' => ps ≡ₚ map fst (map_to_list (pages s)) /\ pages s' = ∅ /\ pents s' = ∅ /\
    (forall b, b ∈ bs <-> is_Some (m !! b) /\ pents s !! b = None) /\ (X = [] -> blocks (mc s') = ∅ /\ ents (mc s') = ∅)).
Proof.
  intros [E H]. unfold crt_exit. apply spec_bind. eapply spec_page_deinit; [exact H|]. intros s1 m1 ps H1 Hw Hps.
  apply spec_bind, spec_on_mc. eapply spec_mono; [exact (spec_deinit_heap e crc32_le (mc s1) m1 X (po_heap _ _ _ _ _ _ _ H1))|].
  intros bs t (Hbs & _ & Hempty). apply spec_ret. destruct (pok_none s1 m1 X H1) as [Hp He].
  split; [rewrite Hps; by eapply pgs_pages|]. split; [exact Hp|]. split; [exact He|]. split; [|exact Hempty].
  intros b. rewrite Hbs, list_elem_of_In, in_map_iff. assert (HE : b ∈ E <-> is_Some (pents s !! b)) by (rewrite (po_ents _ _ _ _ _ _ _ H); by rewrite app_nil_r).
  assert (Hiff : (exists x : Z * list byte, x.1 = b /\ In x (map_to_list m1)) <-> is_Some (m1 !! b)).
  { split; [intros ([b' d] & <- & Hd)|intros [d Hd]; exists (b, d); split; [done|]].
    - apply list_elem_of_In, elem_of_map_to_list in Hd. by exists d.
    - by apply list_elem_of_In, elem_of_map_to_list. }
  rewrite Hiff, (Hw b). destruct (decide (b ∈ E)) as [Hb|Hb].
  - split; [by intros [? ?]|]. intros [_ Hn]. apply HE in Hb as [? Hb]. congruence.
  - split; [|by intros []]. intros Hm. split; [done|]. destruct (pents s !! b) eqn:Eb; [|done]. exfalso. apply Hb, HE. by eexists.
Qed.

(** Both checkers together: a page is handed out with one reference and a
    block for its entry, or nothing happens, whatever fails; freeing a page gives
    back the page and nothing another client owns; and the end of the runtime
    reports each page and each block that is still owned, gives all pages back,
    and all blocks unless the thread lost some. *)
Theorem page_checker_keeps_pages s m X flags page :
  (pages s = ∅ -> pents s = ∅ -> heap_of e crc32_le (mc s) m X ->
   spec page_checker_init s (fun r s' => r = 0 /\ pages_of s' m X /\ pages s' = ∅)) /\
  (pages_of s m X ->
   spec (page_checker_alloc_page e flags) s (fun r s' => exists m', pages_of s' m' X /\
     match r with
     | None => pages s' = pages s /\ m' = m
     | Some p => exists d q b, pages s !! p = None /\ pages s' = <[p := (1, d)]> (pages s) /\ m !! q = None /\ m' = <[q := b]> m
     end) /\
   spec (page_checker_free_page e crc32_le page) s (fun _ s' => exists m', pages_of s' m' X /\ pages s' = delete page (pages s) /\ m' ⊆ m) /\
   spec crt_exit s (fun '(ps, bs) s' => ps ≡ₚ map fst (map_to_list (pages s)) /\ pages s' = ∅ /\ pents s' = ∅ /\
     (forall b, b ∈ bs <-> is_Some (m !! b) /\ pents s !! b = None) /\ (X = [] -> blocks (mc s') = ∅ /\ ents (mc s') = ∅))).
Proof.
  split; [apply page_init_ok|]. intros [E H]. split; [|split; [|apply exit_ok; by exists E]].
  - eapply spec_checker_alloc; [exact H| |].
    + intros s' H' Hp. exists m. split; [by exists E|done].
    + intros s' p q d b H' Hn Hp Hq. exists (<[q := b]> m). split; [by exists (q :: E)|]. by exists d, q, b.
  - eapply spec_free_page; [exact H|]. intros s' E' m' H' Hp Hm. exists m'. split; [by exists E'|done].
Qed.

End Claims.

End PageCheckerClaims.
