(* ===== verification/DioPages.v ===== *)
(** * Buffers of pages (struct dio_pages in src/core/dio.c)

    A cluster keeps its bytes in at most 16 pages.  [dio_pages_io] copies between
    a flat buffer and the pages; the theorem says it is one [memcpy] on the bytes
    of all pages in a row. *)

From Stdlib Require Import ZArith Lia.
From coqutil Require Import Byte.
From stdpp Require Import base list.
From S2P Require Import Prelude XXHash Bytes Csum.
Import XXHash Bytes Csum.
Local Open Scope Z_scope.
Local Open Scope nkfs_scope.

Module DioPages.

Definition PAGE_SIZE : nat := 4096.
Definition PAGE_SHIFT : Z := 12.
Definition DIO_CLU_MAX_PAGES : Z := 16.

(** ** The copy loop

    The loop walks the pages from [pg_idx] on: [pgs] are the pages from there to
    the end, and none left is the [NKFS_BUG_ON(pg_idx >= pages->nr_pages)]. *)

Fixpoint pages_read (pgs : list (list byte)) (pg_off len : nat) : outcome (list byte) :=
  if (len =? 0)%nat then Ret []
  else match pgs with
  | [] => Bug
  | pg :: pgs =>
      let step := Nat.min len (PAGE_SIZE - pg_off) in
      let! rest := pages_read pgs 0 (len - step) in
      Ret (take step (drop pg_off pg) ++ rest)
  end.

Fixpoint pages_write (pgs : list (list byte)) (pg_off : nat) (buf : list byte) : outcome (list (list byte)) :=
  if (length buf =? 0)%nat then Ret pgs
  else match pgs with
  | [] => Bug
  | pg :: pgs =>
      let step := Nat.min (length buf) (PAGE_SIZE - pg_off) in
      let! rest := pages_write pgs 0 (drop step buf) in
      Ret (memcpy_at pg pg_off (take step buf) :: rest)
  end.

(** [(off + len) > nr_pages*PAGE_SIZE], in [unsigned long]. *)
Definition out_of_pages (pages : list (list byte)) (off len : Z) : bool :=
  Z.of_nat (length pages) * 4096 <? u64 (off + len).

(** [dio_pages_io] with [write == 0]: what ends up in the buffer. *)
Definition dio_pages_io_read (pages : list (list byte)) (off len : Z) : outcome (list byte) :=
  bug_on (out_of_pages pages off len)
    (pages_read (drop (Z.to_nat (Z.shiftr off PAGE_SHIFT)) pages) (Z.to_nat (Z.land off 4095)) (Z.to_nat len)).

(** [dio_pages_io] with [write != 0]: the pages after it. *)
Definition dio_pages_io_write (pages : list (list byte)) (off : Z) (buf : list byte) : outcome (list (list byte)) :=
  bug_on (out_of_pages pages off (Z.of_nat (length buf)))
    (let pg_idx := Z.to_nat (Z.shiftr off PAGE_SHIFT) in
     let! rest := pages_write (drop pg_idx pages) (Z.to_nat (Z.land off 4095)) buf in
     Ret (take pg_idx pages ++ rest)).

Definition dio_pages_sum (e : XXH_endianess) (ctx : csum_ctx) (pages : list (list byte)) : Z :=
  csum_digest e (fold_left (csum_update e) pages (csum_reset ctx)).

(** ** One row of bytes *)

Definition whole (pages : list (list byte)) : Prop := Forall (fun pg => length pg = PAGE_SIZE) pages.

Lemma whole_length pages : whole pages -> length (concat pages) = (PAGE_SIZE * length pages)%nat.
Proof. apply length_concat_const. Qed.

Lemma pages_read_ok pgs : forall pg_off len, whole pgs -> (pg_off < PAGE_SIZE)%nat ->
  (pg_off + len <= PAGE_SIZE * length pgs)%nat ->
  pages_read pgs pg_off len = Ret (take len (drop pg_off (concat pgs))).
Proof.
  induction pgs as [|pg pgs IH]; intros pg_off len W Ho Hl; cbn [pages_read concat].
  - cbn in Hl. destruct (Nat.eqb_spec len 0) as [->|]; [done|lia].
  - apply Forall_cons in W as [Hp W]. cbn [length] in Hl. destruct (Nat.eqb_spec len 0) as [->|Hn]; [by rewrite take_0|].
    rewrite IH; [|done|unfold PAGE_SIZE; lia|lia]. cbn [obind]. f_equal. rewrite drop_0.
    rewrite drop_app_le by lia. destruct (decide (len <= PAGE_SIZE - pg_off)%nat) as [Hs|Hs].
    + rewrite Nat.min_l by done. rewrite Nat.sub_diag, take_0, app_nil_r.
      by rewrite take_app_le by (rewrite length_drop; lia).
    + rewrite Nat.min_r by lia. rewrite take_app_ge by (rewrite length_drop; lia).
      rewrite (take_ge (drop pg_off pg)) by (rewrite length_drop; lia).
      by rewrite length_drop, Hp.
Qed.

Lemma memcpy_at_app_l {A} (a b : list A) off src : (off + length src <= length a)%nat ->
  memcpy_at (a ++ b) off src = memcpy_at a off src ++ b.
Proof.
  intros Hl. unfold memcpy_at. rewrite take_app_le, drop_app_le by lia. by rewrite !app_assoc.
Qed.

Lemma memcpy_at_app_r {A} (a b : list A) off src : (length a <= off)%nat ->
  memcpy_at (a ++ b) off src = a ++ memcpy_at b (off - length a) src.
Proof.
  intros Hl. unfold memcpy_at. rewrite take_app_ge, drop_app_ge by lia. rewrite <- app_assoc. f_equal. f_equal. f_equal. f_equal. lia.
Qed.

Lemma memcpy_at_app_split {A} (a b : list A) off src k : (off + k = length a)%nat -> (k <= length src)%nat ->
  memcpy_at (a ++ b) off src = memcpy_at a off (take k src) ++ memcpy_at b 0 (drop k src).
Proof.
  intros Ho Hk. unfold memcpy_at. rewrite take_app_le by lia. rewrite (take_0 b), length_take, length_drop, Nat.min_l by done.
  rewrite (drop_ge a) by lia. rewrite app_nil_r. cbn [app].
  rewrite drop_app_ge by lia. rewrite <- !app_assoc. f_equal. rewrite app_assoc, take_drop. f_equal. f_equal. lia.
Qed.

Lemma pages_write_ok pgs : forall pg_off buf, whole pgs -> (pg_off < PAGE_SIZE)%nat ->
  (pg_off + length buf <= PAGE_SIZE * length pgs)%nat ->
  exists pgs', pages_write pgs pg_off buf = Ret pgs' /\ whole pgs' /\ length pgs' = length pgs /\
  concat pgs' = memcpy_at (concat pgs) pg_off buf.
Proof.
  induction pgs as [|pg pgs IH]; intros pg_off buf W Ho Hl; cbn [pages_write concat].
  - cbn in Hl. destruct buf; [|cbn in Hl; lia]. exists []. split; [done|]. split; [done|]. split; [done|].
    unfold memcpy_at. cbn. by rewrite take_nil, drop_nil.
  - apply Forall_cons in W as [Hp W]. cbn [length] in Hl. destruct (Nat.eqb_spec (length buf) 0) as [E|Hn].
    { exists (pg :: pgs). split; [done|]. split; [by constructor|]. split; [done|].
      apply length_zero_iff_nil in E as ->. unfold memcpy_at. cbn [length app concat]. rewrite Nat.add_0_r. by rewrite take_drop. }
    set (step := Nat.min (length buf) (PAGE_SIZE - pg_off)).
    destruct (IH 0%nat (drop step buf) W ltac:(unfold PAGE_SIZE; lia) ltac:(rewrite length_drop; lia)) as (pgs' & -> & W' & L' & E').
    eexists. split; [reflexivity|]. assert (Hlen : length (memcpy_at pg pg_off (take step buf)) = PAGE_SIZE).
    { rewrite memcpy_at_length; [done|]. rewrite length_take. lia. }
    split; [by constructor|]. split; [cbn; by rewrite L'|]. cbn [concat]. rewrite E'.
    destruct (decide (length buf <= PAGE_SIZE - pg_off)%nat) as [Hs|Hs].
    + assert (step = length buf) as -> by lia. rewrite (take_ge buf), (drop_ge buf) by lia.
      rewrite memcpy_at_app_l by lia. by f_equal.
    + assert (Hst : step = (PAGE_SIZE - pg_off)%nat) by lia. symmetry. apply memcpy_at_app_split; lia.
Qed.

(** [off] split into a page and an offset in it. *)
Lemma off_split off : 0 <= off ->
  Z.to_nat off = (PAGE_SIZE * Z.to_nat (Z.shiftr off PAGE_SHIFT) + Z.to_nat (Z.land off 4095))%nat /\
  (Z.to_nat (Z.land off 4095) < PAGE_SIZE)%nat.
Proof.
  intros Ho. change 4095 with (Z.ones 12). rewrite Z.land_ones, Z.shiftr_div_pow2 by (unfold PAGE_SHIFT; lia).
  unfold PAGE_SHIFT, PAGE_SIZE. change (2 ^ 12) with 4096. dlia.
Qed.

Lemma concat_drop {A} w k (xs : list (list A)) : Forall (fun x => length x = w) xs -> concat (drop k xs) = drop (w * k) (concat xs).
Proof.
  intros F. revert k. induction F as [|x xs Hx _ IH]; intros k; [rewrite drop_nil; cbn; by rewrite drop_nil|].
  destruct k as [|k]; [by rewrite Nat.mul_0_r|]. cbn [drop concat]. rewrite IH, drop_app_ge by lia. f_equal. lia.
Qed.

Lemma concat_take {A} w k (xs : list (list A)) : Forall (fun x => length x = w) xs -> concat (take k xs) = take (w * k) (concat xs).
Proof.
  intros F. revert k. induction F as [|x xs Hx _ IH]; intros k; [rewrite take_nil; cbn; by rewrite take_nil|].
  destruct k as [|k]; [by rewrite Nat.mul_0_r|]. cbn [take concat]. rewrite IH, take_app_ge by lia. f_equal. f_equal. lia.
Qed.

Lemma in_pages pages off len : 0 <= off -> 0 <= len -> off + len <= Z.of_nat (length pages) * 4096 ->
  Z.of_nat (length pages) * 4096 < 2 ^ 64 -> out_of_pages pages off len = false.
Proof. intros H1 H2 H3 H4. unfold out_of_pages. rewrite wrap_small by lia. lia. Qed.

Lemma io_read_ok pages off len : whole pages -> 0 <= off -> 0 <= len -> off + len <= Z.of_nat (length pages) * 4096 ->
  Z.of_nat (length pages) * 4096 < 2 ^ 64 ->
  dio_pages_io_read pages off len = Ret (take (Z.to_nat len) (drop (Z.to_nat off) (concat pages))).
Proof.
  intros W H1 H2 H3 H4. unfold dio_pages_io_read. rewrite in_pages by done. cbn [bug_on].
  destruct (off_split off H1) as [E Hp]. set (i := Z.to_nat (Z.shiftr off PAGE_SHIFT)) in *.
  rewrite pages_read_ok; [|by apply Forall_drop|done|rewrite length_drop; unfold PAGE_SIZE in *; lia].
  rewrite (concat_drop PAGE_SIZE) by done. rewrite drop_drop. f_equal. f_equal. f_equal. lia.
Qed.

Lemma io_write_ok pages off buf : whole pages -> 0 <= off -> off + Z.of_nat (length buf) <= Z.of_nat (length pages) * 4096 ->
  Z.of_nat (length pages) * 4096 < 2 ^ 64 ->
  exists pages', dio_pages_io_write pages off buf = Ret pages' /\ whole pages' /\ length pages' = length pages /\
  concat pages' = memcpy_at (concat pages) (Z.to_nat off) buf.
Proof.
  intros W H1 H3 H4. unfold dio_pages_io_write. rewrite in_pages by lia. cbn [bug_on].
  destruct (off_split off H1) as [E Hp]. set (i := Z.to_nat (Z.shiftr off PAGE_SHIFT)) in *.
  destruct (pages_write_ok (drop i pages) (Z.to_nat (Z.land off 4095)) buf) as (pgs & -> & W' & L' & E');
    [by apply Forall_drop|done|rewrite length_drop; unfold PAGE_SIZE in *; lia|].
  eexists. split; [reflexivity|]. rewrite length_drop in L'. split; [by apply Forall_app; split; [apply Forall_take|]|].
  destruct (decide (i <= length pages)%nat) as [Hi|Hi].
  - split; [rewrite length_app, length_take; lia|]. rewrite concat_app, E', (concat_drop PAGE_SIZE), (concat_take PAGE_SIZE) by done.
    pose proof (whole_length pages W) as Lw. rewrite <- (take_drop (PAGE_SIZE * i) (concat pages)) at 3.
    assert (Lt : length (take (PAGE_SIZE * i) (concat pages)) = (PAGE_SIZE * i)%nat) by (rewrite length_take, Lw; unfold PAGE_SIZE; lia).
    rewrite memcpy_at_app_r by lia. f_equal. f_equal. lia.
  - exfalso. unfold PAGE_SIZE in *. lia.
Qed.

(** [dio_pages_io] is one [memcpy] at [off] in the bytes of all pages in a
    row: a read inside the pages gives those bytes, a write changes them and
    nothing else, and what was written is read again. *)
Theorem dio_pages_io_is_memcpy pages off buf :
  whole pages -> 0 <= off -> off + Z.of_nat (length buf) <= Z.of_nat (length pages) * 4096 ->
  Z.of_nat (length pages) <= DIO_CLU_MAX_PAGES ->
  dio_pages_io_read pages off (Z.of_nat (length buf)) = Ret (take (length buf) (drop (Z.to_nat off) (concat pages))) /\
  exists pages', dio_pages_io_write pages off buf = Ret pages' /\ whole pages' /\ length pages' = length pages /\
  concat pages' = memcpy_at (concat pages) (Z.to_nat off) buf /\
  dio_pages_io_read pages' off (Z.of_nat (length buf)) = Ret buf.
Proof.
  intros W H1 H2 H3. unfold DIO_CLU_MAX_PAGES in H3. split.
  - rewrite io_read_ok by lia || done. by rewrite Nat2Z.id.
  - destruct (io_write_ok pages off buf) as (pages' & E & W' & L' & C'); [done..|lia|].
    exists pages'. repeat (split; [done|]). rewrite io_read_ok by (rewrite ?L'; lia || done). rewrite Nat2Z.id, C'. f_equal.
    unfold memcpy_at. pose proof (whole_length pages W) as Lw. unfold PAGE_SIZE in Lw.
    rewrite drop_app_length' by (rewrite length_take; lia). by rewrite take_app_length'.
Qed.

Lemma dio_pages_io_is_memcpy_witness :
  dio_pages_io_read (replicate 2 (replicate 4096 Init.Byte.x00)) 4090 10 = Ret (replicate 10 Init.Byte.x00).
Proof.
  destruct (dio_pages_io_is_memcpy (replicate 2 (replicate 4096 Init.Byte.x00)) 4090 (replicate 10 Init.Byte.x01)) as [E _];
    [by apply Forall_replicate|done..|]. exact E.
Defined.

End DioPages.
