(* ===== verification/Dio.v ===== *)
(** * The cluster cache (src/core/dio.c)

    A device keeps clusters (blocks) of pages in memory, found by index through a
    radix tree; a cluster is read from the disk when first taken, written back by
    [dio_clu_sync], and evicted by age when there are too many.

    State: the cluster objects by pointer, the tree, the pages of the disk by
    first sector, and three oracles: how each I/O request ends ([io_end]), which
    allocations fail ([mem_fail]) and what a fresh page holds ([junk]).  Calls run
    one at a time, so the locks are not modelled; a completion is the number of
    [complete] calls not yet consumed by a wait, and waiting with none is [Hang]. *)

From Stdlib Require Import ZArith Lia.
From coqutil Require Import Byte.
From stdpp Require Import base list gmap sorting.
From S2P Require Import Prelude XXHash Bytes StMonad Csum DioPages.
Import XXHash StMonad Csum DioPages.
Local Open Scope Z_scope.
Local Open Scope stm_scope.

Module Dio.

Record dio_cluster := Cluster {
  ref : Z;
  pin_count : Z;
  index : Z;
  c_inv : bool;          (* DIO_CLU_INV *)
  c_dirty : bool;        (* DIO_CLU_DIRTY *)
  c_read : bool;         (* DIO_CLU_READ *)
  c_read_start : bool;   (* DIO_CLU_READ_START *)
  c_rels : bool;         (* DIO_CLU_RELS *)
  pages : list (list byte);
  age : Z;
  read_comp : nat;
  err : Z
}.

Record dio_dev := Dev {
  clus : gmap nat dio_cluster;   (* objects by pointer *)
  next : nat;
  clus_root : gmap Z nat;
  clu_size : Z;
  nr_clus : Z;
  nr_max_clus : Z;
  dev_ref : Z;
  live_pages : Z;                (* pages taken from the page allocator *)
  disk : Z -> list (list byte);  (* by first sector *)
  io_end : nat -> Z * bool;      (* error, and whether the data got there *)
  io_tick : nat;
  mem_fail : nat -> bool;
  mem_tick : nat;
  junk : nat -> list byte
}.

Abbreviation M := (StMonad.M dio_dev).

(** ** Updates *)

Definition set_ref (r : Z) (c : dio_cluster) : dio_cluster :=
  Cluster r (pin_count c) (index c) (c_inv c) (c_dirty c) (c_read c) (c_read_start c) (c_rels c) (pages c) (age c) (read_comp c) (err c).
Definition set_pin (n : Z) (c : dio_cluster) : dio_cluster :=
  Cluster (ref c) n (index c) (c_inv c) (c_dirty c) (c_read c) (c_read_start c) (c_rels c) (pages c) (age c) (read_comp c) (err c).
Definition set_dirty (b : bool) (c : dio_cluster) : dio_cluster :=
  Cluster (ref c) (pin_count c) (index c) (c_inv c) b (c_read c) (c_read_start c) (c_rels c) (pages c) (age c) (read_comp c) (err c).
Definition set_read (b : bool) (c : dio_cluster) : dio_cluster :=
  Cluster (ref c) (pin_count c) (index c) (c_inv c) (c_dirty c) b (c_read_start c) (c_rels c) (pages c) (age c) (read_comp c) (err c).
Definition set_read_start (c : dio_cluster) : dio_cluster :=
  Cluster (ref c) (pin_count c) (index c) (c_inv c) (c_dirty c) (c_read c) true (c_rels c) (pages c) (age c) (read_comp c) (err c).
Definition set_rels (c : dio_cluster) : dio_cluster :=
  Cluster (ref c) (pin_count c) (index c) (c_inv c) (c_dirty c) (c_read c) (c_read_start c) true (pages c) (age c) (read_comp c) (err c).
Definition set_pages (p : list (list byte)) (c : dio_cluster) : dio_cluster :=
  Cluster (ref c) (pin_count c) (index c) (c_inv c) (c_dirty c) (c_read c) (c_read_start c) (c_rels c) p (age c) (read_comp c) (err c).
Definition set_age (a : Z) (c : dio_cluster) : dio_cluster :=
  Cluster (ref c) (pin_count c) (index c) (c_inv c) (c_dirty c) (c_read c) (c_read_start c) (c_rels c) (pages c) a (read_comp c) (err c).
Definition set_comp (n : nat) (e : Z) (c : dio_cluster) : dio_cluster :=
  Cluster (ref c) (pin_count c) (index c) (c_inv c) (c_dirty c) (c_read c) (c_read_start c) (c_rels c) (pages c) (age c) n e.

Definition with_clus (m : gmap nat dio_cluster) (s : dio_dev) : dio_dev :=
  Dev m (next s) (clus_root s) (clu_size s) (nr_clus s) (nr_max_clus s) (dev_ref s) (live_pages s) (disk s)
    (io_end s) (io_tick s) (mem_fail s) (mem_tick s) (junk s).
Definition with_new (c : dio_cluster) (s : dio_dev) : dio_dev :=
  Dev (<[next s := c]> (clus s)) (S (next s)) (clus_root s) (clu_size s) (nr_clus s) (nr_max_clus s) (dev_ref s) (live_pages s) (disk s)
    (io_end s) (io_tick s) (mem_fail s) (mem_tick s) (junk s).
Definition with_root (r : gmap Z nat) (n : Z) (s : dio_dev) : dio_dev :=
  Dev (clus s) (next s) r (clu_size s) n (nr_max_clus s) (dev_ref s) (live_pages s) (disk s)
    (io_end s) (io_tick s) (mem_fail s) (mem_tick s) (junk s).
Definition with_live (n : Z) (s : dio_dev) : dio_dev :=
  Dev (clus s) (next s) (clus_root s) (clu_size s) (nr_clus s) (nr_max_clus s) (dev_ref s) n (disk s)
    (io_end s) (io_tick s) (mem_fail s) (mem_tick s) (junk s).
Definition with_disk (d : Z -> list (list byte)) (t : nat) (s : dio_dev) : dio_dev :=
  Dev (clus s) (next s) (clus_root s) (clu_size s) (nr_clus s) (nr_max_clus s) (dev_ref s) (live_pages s) d
    (io_end s) t (mem_fail s) (mem_tick s) (junk s).
Definition with_mem_tick (t : nat) (s : dio_dev) : dio_dev :=
  Dev (clus s) (next s) (clus_root s) (clu_size s) (nr_clus s) (nr_max_clus s) (dev_ref s) (live_pages s) (disk s)
    (io_end s) (io_tick s) (mem_fail s) t (junk s).
Definition with_dev_ref (r : Z) (s : dio_dev) : dio_dev :=
  Dev (clus s) (next s) (clus_root s) (clu_size s) (nr_clus s) (nr_max_clus s) r (live_pages s) (disk s)
    (io_end s) (io_tick s) (mem_fail s) (mem_tick s) (junk s).

(** The object behind a pointer; a freed one may not be touched. *)
Definition get (p : nat) : M dio_cluster := fun s =>
  match clus s !! p with
  | Some c => Done c s
  | None => Crash
  end.

Definition upd (p : nat) (f : dio_cluster -> dio_cluster) : M unit := fun s =>
  match clus s !! p with
  | Some c => Done tt (with_clus (<[p := f c]> (clus s)) s)
  | None => Crash
  end.

(** Whether the next allocation fails. *)
Definition mem_fails : M bool := fun s => Done (mem_fail s (mem_tick s)) (with_mem_tick (S (mem_tick s)) s).

(** ** Pages *)

Definition crt_alloc_page : M (option (list byte)) :=
  let* f := mem_fails in
  if (f : bool) then ret None
  else fun s => Done (Some (junk s (mem_tick s))) (with_live (live_pages s + 1) s).

Definition crt_free_page : M unit := modify (fun s => with_live (live_pages s - 1) s).

Fixpoint alloc_pages (nr : nat) (got : list (list byte)) : M (option (list (list byte))) :=
  match nr with
  | O => ret (Some got)
  | S nr =>
      let* r := crt_alloc_page in
      match r with
      | Some pg => alloc_pages nr (got ++ [pg])
      | None => do* for_each got (fun _ _ => crt_free_page) tt in ret None
      end
  end.

(** The pages, or an error. *)
Definition dio_pages_alloc (nr_pages : Z) : M (Z + list (list byte)) :=
  if (nr_pages <=? 0) || (DIO_CLU_MAX_PAGES <? nr_pages) then ret (inl (- EINVAL))
  else
    let* r := alloc_pages (Z.to_nat nr_pages) [] in
    match r with
    | Some pgs => ret (inr pgs)
    | None => ret (inl (- ENOMEM))
    end.

Definition dio_pages_free (pgs : list (list byte)) : M unit := for_each pgs (fun _ _ => crt_free_page) tt.

(** ** Reference and pin counts *)

Definition dio_clu_pinned (c : dio_cluster) : bool := negb (pin_count c =? 0).
Definition dio_clu_pin (p : nat) : M unit := upd p (fun c => set_pin (pin_count c + 1) c).
Definition dio_clu_unpin (p : nat) : M unit := upd p (fun c => set_pin (pin_count c - 1) c).

Definition dio_clu_ref (p : nat) : M unit :=
  let* c := get p in
  do* BUG_ON (ref c <=? 0) in
  upd p (fun c => set_ref (ref c + 1) c).

Definition dio_clu_free (p : nat) : M unit :=
  let* c := get p in
  do* dio_pages_free (pages c) in
  modify (fun s => with_clus (delete p (clus s)) s).

(** ** Requests *)

Inductive rw := READ | WRITE.

(** A request holds a reference on its cluster; it waits for its end
    ([DIO_IO_WAIT]). *)
Record dio_io := Io { io_cluster : nat; io_err : Z }.

(** [BIO_BI_SECTOR]. *)
Definition bi_sector (c : dio_cluster) (clu_size : Z) : Z := u64 (index c * Z.shiftr clu_size 9).

(** [__dio_io_end_bio]: a read that did not fail marks the cluster read. *)
Definition dio_io_end_bio (rw : rw) (io : dio_io) (e : Z) : M dio_io :=
  do* match rw with
      | READ =>
          if e =? 0 then
            let* c := get (io_cluster io) in
            do* BUG_ON (c_read c) in
            upd (io_cluster io) (set_read true)
          else ret tt
      | WRITE => ret tt
      end in
  ret (Io (io_cluster io) e).

(** [dio_submit] and the end of the request: a read fills the pages, a write the
    disk, unless the request failed before. *)
Definition dio_submit (rw : rw) (io : dio_io) : M dio_io :=
  let* c := get (io_cluster io) in
  let* size := gets clu_size in
  let* r := gets (fun s => io_end s (io_tick s)) in
  let e := fst r in
  let sector := bi_sector c size in
  let* d := gets disk in
  do* modify (fun s => with_disk
        (match rw with
         | WRITE => if snd r || (e =? 0) then fun x => if x =? sector then pages c else d x else d
         | READ => d
         end) (S (io_tick s)) s) in
  do* match rw with
      | READ => if snd r || (e =? 0) then upd (io_cluster io) (set_pages (d sector)) else ret tt
      | WRITE => ret tt
      end in
  dio_io_end_bio rw io e.

(** The functions that a request and a cluster's release call in a circle. *)
Section Deref.
Context (dio_clu_deref : nat -> M unit).

(** [dio_io_deref] of the last reference. *)
Definition dio_io_release (io : dio_io) : M unit := dio_clu_deref (io_cluster io).

(** [dio_io_alloc]: the request, then its bio. *)
Definition dio_io_alloc (p : nat) : M (option dio_io) :=
  let* f := mem_fails in
  if (f : bool) then ret None
  else
    do* dio_clu_ref p in
    let* f := mem_fails in
    if (f : bool) then do* dio_io_release (Io p 0) in ret None
    else ret (Some (Io p 0)).

Definition dio_clu_sync (p : nat) : M Z :=
  let* c := get p in
  if negb (c_dirty c) then ret 0
  else
    let* io := dio_io_alloc p in
    match io with
    | None => ret (- ENOMEM)
    | Some io =>
        let* io := dio_submit WRITE io in
        do* (if io_err io =? 0 then upd p (set_dirty false) else ret tt) in
        do* dio_io_release io in
        ret (io_err io)
    end.

Definition dio_clu_release (p : nat) : M unit :=
  do* upd p set_rels in
  let* c := get p in
  do* (if c_dirty c then let* _ := dio_clu_sync p in ret tt else ret tt) in
  dio_clu_free p.

End Deref.

(** The circle is never closed: a cluster under release has no references left,
    so its request cannot take one.  Two levels are more than enough. *)
Fixpoint deref_fuel (fuel : nat) (p : nat) : M unit :=
  match fuel with
  | O => no_fuel
  | S fuel =>
      let* c := get p in
      do* BUG_ON (ref c <=? 0) in
      do* upd p (fun c => set_ref (ref c - 1) c) in
      if ref c - 1 =? 0 then dio_clu_release (deref_fuel fuel) p else ret tt
  end.

Definition dio_clu_deref : nat -> M unit := deref_fuel 2.
Definition clu_sync : nat -> M Z := dio_clu_sync dio_clu_deref.
Definition io_alloc : nat -> M (option dio_io) := dio_io_alloc dio_clu_deref.
Definition io_release : dio_io -> M unit := dio_io_release dio_clu_deref.

Definition dio_clu_put (p : nat) : M unit := do* dio_clu_unpin p in dio_clu_deref p.

(** ** Taking a cluster *)

Definition dio_clu_alloc : M (option nat) :=
  let* size := gets clu_size in
  do* BUG_ON (negb (Z.land size 4095 =? 0)) in
  do* BUG_ON (size <? 4096) in
  do* BUG_ON (DIO_CLU_MAX_PAGES * 4096 <? size) in
  let* f := mem_fails in
  if (f : bool) then ret None
  else
    let* r := dio_pages_alloc (u32 (Z.shiftr size PAGE_SHIFT)) in
    match r with
    | inl _ => ret None
    | inr pgs => fun s => Done (Some (next s)) (with_new (Cluster 1 0 0 true false false false false pgs 0 0 0) s)
    end.

Definition set_index (i : Z) (c : dio_cluster) : dio_cluster :=
  Cluster (ref c) (pin_count c) i (c_inv c) (c_dirty c) (c_read c) (c_read_start c) (c_rels c) (pages c) (age c) (read_comp c) (err c).

(** [radix_tree_preload] may fail; [radix_tree_insert] then fails only when the
    index is taken. *)
Definition dio_clu_lookup_create (i : Z) : M (option nat) :=
  let* found := gets (fun s => clus_root s !! i) in
  let* cluster :=
    match found with
    | Some p => do* dio_clu_ref p in do* dio_clu_pin p in ret (Some p)
    | None =>
        let* new := dio_clu_alloc in
        match new with
        | None => ret None
        | Some new =>
            do* upd new (set_index i) in
            let* f := mem_fails in
            if (f : bool) then do* dio_clu_deref new in ret None
            else
              let* taken := gets (fun s => clus_root s !! i) in
              let* cluster :=
                match taken with
                | Some p => ret p
                | None =>
                    do* modify (fun s => with_root (<[i := new]> (clus_root s)) (nr_clus s + 1) s) in
                    do* dio_clu_ref new in
                    ret new
                end in
              do* dio_clu_ref cluster in
              do* dio_clu_pin cluster in
              do* (if (cluster =? new)%nat then ret tt else dio_clu_deref new) in
              ret (Some cluster)
        end
    end in
  match cluster with
  | None => ret None
  | Some p => do* upd p (fun c => set_age (Z.lor (age c) (2 ^ 63)) c) in ret (Some p)
  end.

Definition dio_clu_wait_read (p : nat) : M Z :=
  let* c := get p in
  if negb (c_read_start c) then
    do* upd p set_read_start in
    let* io := io_alloc p in
    let* e :=
      match io with
      | None => ret (- ENOMEM)
      | Some io =>
          let* io := dio_submit READ io in
          let* c := get p in
          do* BUG_ON ((io_err io =? 0) && negb (c_read c)) in
          do* io_release io in
          ret (io_err io)
      end in
    do* upd p (fun c => set_comp (S (read_comp c)) e c) in
    ret e
  else
    (* the error is read, then the completion waited for and consumed *)
    match read_comp c with
    | O => hang
    | S n => do* upd p (fun c => set_comp n (err c) c) in ret (err c)
    end.

Definition dio_clu_get (i : Z) : M (option nat) :=
  let* clu := dio_clu_lookup_create i in
  match clu with
  | None => ret None
  | Some p =>
      let* c := get p in
      if negb (c_read c) then
        let* e := dio_clu_wait_read p in
        if negb (e =? 0) then do* dio_clu_put p in ret None else ret (Some p)
      else ret (Some p)
  end.

(** ** Using a cluster *)

(** The bytes read, or an error. *)
Definition dio_clu_read (p : nat) (len off : Z) : M (Z + list byte) :=
  let* size := gets clu_size in
  do* BUG_ON (size <? u64 (off + len)) in
  let* c := get p in
  let* e := if negb (c_read c) then dio_clu_wait_read p else ret 0 in
  if negb (e =? 0) then ret (inl e)
  else
    let* c := get p in
    let* buf := lift (dio_pages_io_read (pages c) off len) in
    ret (inr buf).

Definition dio_clu_write (p : nat) (buf : list byte) (off : Z) : M Z :=
  let* size := gets clu_size in
  do* BUG_ON (size <? u64 (off + Z.of_nat (length buf))) in
  let* c := get p in
  let* e := if negb (c_read c) then dio_clu_wait_read p else ret 0 in
  if negb (e =? 0) then ret e
  else
    let* c := get p in
    do* BUG_ON (negb (c_read c)) in
    do* upd p (set_dirty true) in
    let* pgs := lift (dio_pages_io_write (pages c) off buf) in
    do* upd p (set_pages pgs) in
    ret 0.

(** The page and the offset in it that [dio_clu_map] points to. *)
Definition dio_clu_map (p : nat) (off : Z) : M (nat * Z) :=
  let* size := gets clu_size in
  do* BUG_ON (size <? off) in
  let* c := get p in
  do* BUG_ON (Z.of_nat (length (pages c)) <=? Z.shiftr off PAGE_SHIFT) in
  ret (Z.to_nat (Z.shiftr off PAGE_SHIFT), Z.land off 4095).

Fixpoint zero_pages (nr : nat) (p : nat) (zero : list byte) (off : Z) : M Z :=
  match nr with
  | O => ret 0
  | S nr =>
      let* e := dio_clu_write p zero off in
      if negb (e =? 0) then ret e else zero_pages nr p zero (u32 (off + 4096))
  end.

Definition dio_clu_zero (p : nat) : M Z :=
  let* page := crt_alloc_page in
  match page with
  | None => ret (- ENOMEM)
  | Some _ =>
      let* c := get p in
      let* e := zero_pages (length (pages c)) p (replicate PAGE_SIZE Init.Byte.x00) 0 in
      do* crt_free_page in
      ret e
  end.

Definition dio_clu_set_dirty (p : nat) : M unit := upd p (set_dirty true).

Definition dio_clu_sum (e : XXH_endianess) (ctx : csum_ctx) (p : nat) : M Z :=
  let* c := get p in ret (dio_pages_sum e ctx (pages c)).

(** ** Walking the tree *)

(** [radix_tree_gang_lookup]: up to [max] clusters from [first] on, by index. *)
Definition indices (first : Z) (root : gmap Z nat) : list Z :=
  merge_sort Z.le (filter (fun i => first <= i) (elements (dom root))).

Definition gang_lookup (first : Z) (max : nat) (root : gmap Z nat) : list nat :=
  omap (fun i => root !! i) (take max (indices first root)).

(** The batch, each referenced, and the index to go on from. *)
Definition batch (first : Z) : M (list nat * Z) :=
  let* found := gets (fun s => gang_lookup first 16 (clus_root s)) in
  let* first := for_each found (fun p first =>
      do* dio_clu_ref p in
      let* c := get p in
      ret (if first <=? index c then u64 (index c + 1) else first)) first in
  ret (found, first).

(** [while (more) { batch; for each found: visit }], until nothing is found. *)
Fixpoint walk {A} (fuel : nat) (more : A -> bool) (visit : nat -> A -> M A) (first : Z) (a : A) : M A :=
  match fuel with
  | O => no_fuel
  | S fuel =>
      if more a then
        let* b := batch first in
        match fst b with
        | [] => ret a
        | _ => let* a := for_each (fst b) visit a in walk fuel more visit (snd b) a
        end
      else ret a
  end.

Definition dio_clus_dump (fuel : nat) : M unit :=
  walk fuel (fun _ => true) (fun p _ => dio_clu_deref p) 0 tt.

Definition dio_clu_age (p : nat) : M unit := upd p (fun c => set_age (Z.shiftr (age c) 1) c).

Definition dio_clus_age (fuel : nat) : M unit :=
  walk fuel (fun _ => true) (fun p _ => do* dio_clu_age p in dio_clu_deref p) 0 tt.

Definition dio_clu_remove (i : Z) : M (option nat) :=
  let* found := gets (fun s => clus_root s !! i) in
  match found with
  | None => ret None
  | Some p =>
      let* c := get p in
      if dio_clu_pinned c then ret None
      else
        do* BUG_ON (negb (index c =? i)) in
        do* modify (fun s => with_root (delete i (clus_root s)) (nr_clus s - 1) s) in
        ret (Some p)
  end.

(** ** Releasing the device *)

Fixpoint dio_clus_release (fuel : nat) : M unit :=
  match fuel with
  | O => no_fuel
  | S fuel =>
      let* b := batch 0 in
      match fst b with
      | [] => let* n := gets nr_clus in BUG_ON (negb (n =? 0))
      | found =>
          do* for_each found (fun p _ =>
              do* upd p (set_pin 0) in
              let* c := get p in
              let* removed := dio_clu_remove (index c) in
              do* BUG_ON (negb (bool_decide (removed = Some p))) in
              let* _ := clu_sync p in
              do* dio_clu_deref p in
              do* dio_clu_deref p in
              dio_clu_deref p) tt in
          dio_clus_release fuel
      end
  end.

Definition dio_dev_release (fuel : nat) : M unit :=
  do* dio_clus_dump fuel in dio_clus_release fuel.

Definition dio_dev_ref : M unit :=
  let* r := gets dev_ref in
  do* BUG_ON (r <=? 0) in
  modify (with_dev_ref (r + 1)).

Definition dio_dev_deref (fuel : nat) : M unit :=
  let* r := gets dev_ref in
  do* BUG_ON (r <=? 0) in
  do* modify (with_dev_ref (r - 1)) in
  if r - 1 =? 0 then dio_dev_release fuel else ret tt.

(** ** Eviction *)

Section Evict.
(** The kernel's [sort] with [dio_clu_age_cmp]: an array of clusters and their
    ages. *)
Context (sort : list (nat * Z) -> list (nat * Z)).

Definition nodes_limit : nat := 512.

(** Collects the unpinned clusters, at most [nodes_limit]. *)
Definition collect (fuel : nat) : M (list nat) :=
  walk fuel (fun nodes : list nat => (length nodes <? nodes_limit)%nat)
    (fun p nodes =>
       let* c := get p in
       if negb (dio_clu_pinned c) && (length nodes <? nodes_limit)%nat then ret (nodes ++ [p])
       else do* dio_clu_deref p in ret nodes) 0 [].

Fixpoint get_ages (ps : list nat) : M (list (nat * Z)) :=
  match ps with
  | [] => ret []
  | p :: ps => let* c := get p in let* r := get_ages ps in ret ((p, age c) :: r)
  end.

Definition dio_clus_lru_frees (fuel : nat) : M Z :=
  let* n := gets nr_clus in
  let* max := gets nr_max_clus in
  if n <=? max then ret 0
  else
    let* page := crt_alloc_page in
    match page with
    | None => ret (- ENOMEM)
    | Some _ =>
        let* nodes := collect fuel in
        let* aged := get_ages nodes in
        let nodes := map fst (sort aged) in
        do* for_each nodes (fun p _ =>
            let* n := gets nr_clus in
            if max <? n then
              let* c := get p in
              let* removed := dio_clu_remove (index c) in
              match removed with
              | Some q =>
                  do* BUG_ON (negb (q =? p)%nat) in
                  let* _ := clu_sync p in
                  do* dio_clu_deref p in
                  dio_clu_deref p
              | None => ret tt
              end
            else ret tt) tt in
        do* for_each nodes (fun p _ => dio_clu_deref p) tt in
        do* crt_free_page in
        ret 0
    end.

(** [rounds] turns of [for (;;)]. *)
Fixpoint dio_clus_shrink (rounds fuel : nat) : M unit :=
  match rounds with
  | O => no_fuel
  | S rounds =>
      let* n := gets nr_clus in
      let* max := gets nr_max_clus in
      if max <? n then let* _ := dio_clus_lru_frees fuel in dio_clus_shrink rounds fuel
      else ret tt
  end.

End Evict.

(** [dio_dev_create]: the checks on its arguments and the empty device. *)
Definition dio_dev_create (size max : Z) (d : Z -> list (list byte)) (ioe : nat -> Z * bool) (mf : nat -> bool)
    (jk : nat -> list byte) : option dio_dev :=
  if negb (Z.land size 4095 =? 0) then None
  else if max =? 0 then None
  else if DIO_CLU_MAX_PAGES * 4096 <? u64 size then None
  else if mf 0%nat then None
  else Some (Dev ∅ 1 ∅ (u64 size) 0 (u64 max) 1 0 d ioe 0 mf 1 jk).

End Dio.
