(* ===== verification/DioInv.v ===== *)
(** * The state of the cluster cache

    [dio_ok D s refs held]: the state between two calls.  [held] are the clusters
    clients have taken and not put back, [refs] those with one more reference from
    a walk over the tree.  A cluster in the tree has two references of its own, one
    for each entry of [refs] and [held], and its pin count is its entries in
    [held]; the pages of a clean one are those on disk; a cluster that is not in the tree any more is clean, unless [D] names
    it, and lives as long as [refs] does.  The number of clusters and of pages in use are exact.

    [view s i] is what a client finds in cluster [i]: its pages in memory, or
    else those on disk. *)

From Stdlib Require Import ZArith Lia.
From coqutil Require Import Byte.
From stdpp Require Import base list gmap sorting.
From S2P Require Import Prelude StMonad DioPages Dio.
Import StMonad DioPages Dio.
Local Open Scope Z_scope.
Local Open Scope stm_scope.

Module DioInv.

(** The number of times [p] is in a list. *)
Definition cnt (l : list nat) (p : nat) : Z := Z.of_nat (count_occ Nat.eq_dec l p).

Lemma cnt_cons l p q : cnt (q :: l) p = cnt l p + (if decide (q = p) then 1 else 0).
Proof. unfold cnt. cbn. destruct (Nat.eq_dec q p), (decide (q = p)); subst; try done; lia. Qed.

Lemma cnt_app l1 l2 p : cnt (l1 ++ l2) p = cnt l1 p + cnt l2 p.
Proof. unfold cnt. rewrite count_occ_app. lia. Qed.

Lemma cnt_nonneg l p : 0 <= cnt l p.
Proof. unfold cnt. lia. Qed.

Lemma cnt_pos l p : 0 < cnt l p <-> p ∈ l.
Proof. unfold cnt. rewrite list_elem_of_In, (count_occ_In Nat.eq_dec). lia. Qed.

Lemma cnt_perm l1 l2 p : l1 ≡ₚ l2 -> cnt l1 p = cnt l2 p.
Proof. intros E. unfold cnt. f_equal. by apply Permutation_count_occ. Qed.

Definition npages (s : dio_dev) : nat := Z.to_nat (Z.shiftr (clu_size s) PAGE_SHIFT).

Definition sector (s : dio_dev) (i : Z) : Z := u64 (i * Z.shiftr (clu_size s) 9).

(** A cluster index the device can address. *)
Definition idx_ok (s : dio_dev) (i : Z) : Prop := 0 <= i /\ i * Z.shiftr (clu_size s) 9 < 2 ^ 64.

Definition in_tree (s : dio_dev) (p : nat) (c : dio_cluster) : Z :=
  if decide (clus_root s !! index c = Some p) then 2 else 0.

Section Inv.
(** The clusters taken out of the tree whose pages are still to be written, and
    the number of pages in use besides those of clusters. *)
Context (D : list nat * Z).

Record clu_ok (s : dio_dev) (refs held : list nat) (p : nat) (c : dio_cluster) : Prop := {
  co_ref : ref c = in_tree s p c + cnt refs p + cnt held p;
  co_live : 0 < ref c;
  co_pin : pin_count c = cnt held p;
  co_whole : whole (pages c) /\ length (pages c) = npages s;
  co_start : c_read_start c = c_read c;
  co_dirty : c_dirty c = true -> c_read c = true;
  co_clean : in_tree s p c <> 0 -> c_read c = true -> c_dirty c = false -> disk s (sector s (index c)) = pages c;
  co_gone : in_tree s p c = 0 -> (p ∉ D.1 -> c_dirty c = false) /\ cnt held p = 0
}.

Record dio_ok (s : dio_dev) (refs held : list nat) : Prop := {
  ok_size : Z.land (clu_size s) 4095 = 0 /\ 4096 <= clu_size s <= 65536;
  ok_root : forall i p, clus_root s !! i = Some p -> idx_ok s i /\ exists c, clus s !! p = Some c /\ index c = i;
  ok_obj : forall p c, clus s !! p = Some c -> clu_ok s refs held p c;
  ok_next : forall p, is_Some (clus s !! p) -> (p < next s)%nat;
  ok_nr : nr_clus s = Z.of_nat (size (clus_root s));
  ok_refs : forall p, p ∈ refs \/ p ∈ held -> is_Some (clus s !! p);
  ok_disk : forall x, whole (disk s x) /\ length (disk s x) = npages s;
  ok_junk : forall t, length (junk s t) = PAGE_SIZE;
  ok_live : live_pages s = D.2 + Z.of_nat (npages s) * Z.of_nat (size (clus s))
}.

(** Neither a request nor an allocation fails. *)
Definition calm (s : dio_dev) : Prop := (forall t, fst (io_end s t) = 0) /\ forall t, mem_fail s t = false.

Definition view (s : dio_dev) (i : Z) : list (list byte) :=
  match clus_root s !! i with
  | Some p =>
      match clus s !! p with
      | Some c => if c_read c then pages c else disk s (sector s i)
      | None => disk s (sector s i)
      end
  | None => disk s (sector s i)
  end.

(** What no call changes. *)
Record env_same (s s' : dio_dev) : Prop := {
  env_size : clu_size s' = clu_size s;
  env_max : nr_max_clus s' = nr_max_clus s;
  env_io : io_end s' = io_end s;
  env_mem : mem_fail s' = mem_fail s;
  env_junk : junk s' = junk s;
  env_dref : dev_ref s' = dev_ref s
}.

Lemma env_refl s : env_same s s.
Proof. done. Qed.

Lemma env_trans s1 s2 s3 : env_same s1 s2 -> env_same s2 s3 -> env_same s1 s3.
Proof. intros [] []. split; congruence. Qed.

Lemma env_calm s s' : env_same s s' -> calm s -> calm s'.
Proof. intros E [H1 H2]. unfold calm. by rewrite (env_io _ _ E), (env_mem _ _ E). Qed.

(** ** The primitives *)

Lemma spec_get p c s (Q : dio_cluster -> dio_dev -> Prop) : clus s !! p = Some c -> Q c s -> spec (get p) s Q.
Proof. intros E HQ. unfold spec, get. by rewrite E. Qed.

Lemma spec_upd p c f s (Q : unit -> dio_dev -> Prop) :
  clus s !! p = Some c -> Q tt (with_clus (<[p := f c]> (clus s)) s) -> spec (upd p f) s Q.
Proof. intros E HQ. unfold spec, upd. by rewrite E. Qed.

Lemma spec_mem_fails s (Q : bool -> dio_dev -> Prop) :
  calm s -> Q false (with_mem_tick (S (mem_tick s)) s) -> spec mem_fails s Q.
Proof. intros [_ H] HQ. unfold spec, mem_fails. by rewrite H. Qed.

(** The tick of the allocator is of no consequence. *)
Lemma ok_mem_tick t s refs held : dio_ok s refs held -> dio_ok (with_mem_tick t s) refs held.
Proof. intros []. split; try done. intros p c E. destruct (ok_obj0 p c E). by split. Qed.

Lemma ok_perm s refs refs' held : refs ≡ₚ refs' -> dio_ok s refs held -> dio_ok s refs' held.
Proof.
  intros HP []. split; try done.
  - intros p c E. destruct (ok_obj0 p c E). split; try done. by rewrite <- (cnt_perm _ _ p HP).
  - intros p Hp. apply ok_refs0. by rewrite HP.
Qed.

(** Ticks do not matter. *)
Lemma ok_cong s s1 refs held : dio_ok s refs held -> clu_size s1 = clu_size s -> clus_root s1 = clus_root s -> clus s1 = clus s ->
  next s1 = next s -> nr_clus s1 = nr_clus s -> disk s1 = disk s -> junk s1 = junk s -> live_pages s1 = live_pages s ->
  dio_ok s1 refs held.
Proof.
  destruct s, s1. cbn. intros O -> -> -> -> -> -> -> ->. destruct O. split; try done.
  intros p c E. destruct (ok_obj0 p c E). by split.
Qed.

(** One object changes, and with it the clients' claims on it. *)
Lemma ok_upd s refs held refs' held' p c c' : dio_ok s refs held -> clus s !! p = Some c ->
  index c' = index c -> clu_ok s refs' held' p c' ->
  (forall q, q <> p -> cnt refs' q = cnt refs q /\ cnt held' q = cnt held q) ->
  dio_ok (with_clus (<[p := c']> (clus s)) s) refs' held'.
Proof.
  intros [] E Ei K Hq. split; cbn [with_clus clu_size clus_root clus next nr_clus disk junk live_pages]; try done.
  - intros i q Hi. destruct (ok_root0 i q Hi) as (Hx & d & Ed & <-). split; [done|].
    destruct (decide (q = p)) as [->|Hn].
    + exists c'. rewrite lookup_insert_eq. split; [done|]. congruence.
    + exists d. by rewrite lookup_insert_ne.
  - intros q d Hd. destruct (decide (q = p)) as [->|Hn].
    + rewrite lookup_insert_eq in Hd. injection Hd as <-. destruct K. by split.
    + rewrite lookup_insert_ne in Hd by done. destruct (ok_obj0 q d Hd), (Hq q Hn) as [H1 H2].
      split; try done; [by rewrite H1, H2|by rewrite H2|]. intros Hg. rewrite H2. by apply co_gone0.
  - intros q Hs. apply ok_next0. destruct (decide (q = p)) as [->|Hn]; [by rewrite E|by rewrite lookup_insert_ne in Hs].
  - intros q Hs. destruct (decide (q = p)) as [->|Hn]; [by rewrite lookup_insert_eq|]. rewrite lookup_insert_ne by done.
    apply ok_refs0. rewrite <- !cnt_pos in Hs |- *. destruct (Hq q Hn) as [H1 H2]. by rewrite <- H1, <- H2.
  - by rewrite map_size_insert_Some.
Qed.

Lemma view_cong s s1 i : clu_size s1 = clu_size s -> clus_root s1 = clus_root s -> clus s1 = clus s -> disk s1 = disk s ->
  view s1 i = view s i.
Proof. unfold view, sector. by intros -> -> -> ->. Qed.

(** The view when one object changes. *)
Lemma view_upd s p c c' i : clus s !! p = Some c -> (clus_root s !! i = Some p -> c_read c' = c_read c /\ pages c' = pages c) ->
  view (with_clus (<[p := c']> (clus s)) s) i = view s i.
Proof.
  intros E H. unfold view. cbn [with_clus clus_root clus disk]. change (sector (with_clus _ s) i) with (sector s i).
  destruct (clus_root s !! i) as [q|] eqn:Er; [|done]. destruct (decide (q = p)) as [->|Hn].
  - rewrite lookup_insert_eq, E. destruct (H eq_refl) as [-> ->]. done.
  - by rewrite lookup_insert_ne.
Qed.

(** ** References *)

(** What a client can see of an object. *)
Definition data (c : dio_cluster) : Z * bool * bool * list (list byte) := (index c, c_read c, c_dirty c, pages c).

(** No object is new, and none changes its index. *)
Definition no_new (s s' : dio_dev) : Prop :=
  forall p c', clus s' !! p = Some c' -> exists c, clus s !! p = Some c /\ index c = index c'.

Lemma no_new_refl s : no_new s s.
Proof. intros p c E. by exists c. Qed.

Lemma no_new_trans s1 s2 s3 : no_new s1 s2 -> no_new s2 s3 -> no_new s1 s3.
Proof. intros N1 N2 p c E. destruct (N2 p c E) as (c2 & E2 & <-). by apply N1. Qed.

Lemma no_new_upd s p c c' : clus s !! p = Some c -> index c' = index c -> no_new s (with_clus (<[p := c']> (clus s)) s).
Proof.
  intros E Hi q d Hd. cbn [with_clus clus] in Hd. destruct (decide (q = p)) as [->|Hn].
  - rewrite lookup_insert_eq in Hd. injection Hd as <-. by exists c.
  - rewrite lookup_insert_ne in Hd by done. by exists d.
Qed.

(** Only counts, ages and the objects out of the tree have changed. *)
Record still (s s' : dio_dev) : Prop := {
  still_env : env_same s s';
  still_root : clus_root s' = clus_root s;
  still_disk : disk s' = disk s;
  still_data i p : clus_root s !! i = Some p -> data <$> clus s' !! p = data <$> clus s !! p;
  still_new : no_new s s'
}.

Lemma still_refl s : still s s.
Proof. split; try done. apply no_new_refl. Qed.

Lemma still_trans s1 s2 s3 : still s1 s2 -> still s2 s3 -> still s1 s3.
Proof.
  intros [E1 R1 D1 O1 N1] [E2 R2 D2 O2 N2]. split; [by eapply env_trans|congruence..| |by eapply no_new_trans].
  intros i p Hi. rewrite (O2 i p) by (by rewrite R1). by apply (O1 i).
Qed.

Lemma still_view s s' i : still s s' -> view s' i = view s i.
Proof.
  intros [E R Ed O _]. unfold view, sector. rewrite R, Ed, (env_size _ _ E).
  destruct (clus_root s !! i) as [p|] eqn:Ei; [|done]. pose proof (O i p Ei) as H.
  destruct (clus s' !! p) as [c'|], (clus s !! p) as [c|]; cbn in H; try done. injection H as _ -> _ ->. done.
Qed.

Lemma still_upd s p c c' : clus s !! p = Some c -> data c' = data c -> still s (with_clus (<[p := c']> (clus s)) s).
Proof.
  intros E Hd. split; try done; [|apply no_new_upd with c; [done|by injection Hd]]. intros i q _. cbn [with_clus clus]. destruct (decide (q = p)) as [->|Hn].
  - rewrite lookup_insert_eq, E. cbn. by rewrite Hd.
  - by rewrite lookup_insert_ne.
Qed.

(** The cluster [p] of index [i] is in the tree and has been read. *)
Definition there (s : dio_dev) (i : Z) (p : nat) : Prop :=
  idx_ok s i /\ clus_root s !! i = Some p /\ exists c, clus s !! p = Some c /\ index c = i /\ c_read c = true.

Lemma still_there s s' i p : still s s' -> there s i p -> there s' i p.
Proof.
  intros [E R _ O _] (Hx & Hr & c & Ec & Ei & Hc). split; [unfold idx_ok; by rewrite (env_size _ _ E)|]. rewrite R. split; [done|].
  pose proof (O i p Hr) as H. rewrite Ec in H. destruct (clus s' !! p) as [c'|]; [|done]. injection H as H1 H2 _ _.
  exists c'. split; [done|]. split; congruence.
Qed.

(** One object changes but stays where it is. *)
Lemma there_upd s s' p c c' i q : clus s !! p = Some c -> clus s' = <[p := c']> (clus s) -> clus_root s' = clus_root s ->
  clu_size s' = clu_size s -> index c' = index c -> (c_read c = true -> c_read c' = true) -> there s i q -> there s' i q.
Proof.
  intros E E' R Hs Hi Hc (Hx & Hr & d & Ed & Ei & Hd). split; [unfold idx_ok; by rewrite Hs|]. rewrite R. split; [done|].
  rewrite E'. destruct (decide (q = p)) as [->|Hn].
  - rewrite E in Ed. injection Ed as <-. exists c'. rewrite lookup_insert_eq. split; [done|]. split; [congruence|auto].
  - exists d. by rewrite lookup_insert_ne.
Qed.

Lemma spec_ref s refs held p (Q : unit -> dio_dev -> Prop) : dio_ok s refs held -> is_Some (clus s !! p) ->
  (forall s', dio_ok s' (p :: refs) held -> still s s' -> Q tt s') -> spec (dio_clu_ref p) s Q.
Proof.
  intros O [c E] HQ. pose proof (ok_obj _ _ _ O p c E) as K. unfold dio_clu_ref. apply spec_bind, (spec_get p c); [done|].
  apply spec_bind, spec_bug_on; [destruct K; lia|]. apply (spec_upd p c); [done|]. apply HQ.
  - eapply (ok_upd s refs held); try done.
    + destruct K. split; try done; cbn [set_ref ref]; [|lia]. rewrite cnt_cons, decide_True by done.
      change (in_tree s p (set_ref (ref c + 1) c)) with (in_tree s p c). lia.
    + intros q Hq. rewrite cnt_cons, decide_False by done. lia.
  - by eapply still_upd.
Qed.

Lemma spec_free_pages {A} (l : list A) s (Q : unit -> dio_dev -> Prop) :
  Q tt (with_live (live_pages s - Z.of_nat (length l)) s) -> spec (for_each l (fun _ _ => crt_free_page) tt) s Q.
Proof.
  revert s Q. induction l as [|x l IH]; intros s Q HQ; cbn [for_each].
  - cbn [length Nat2Z.inj] in HQ. apply spec_ret. rewrite Z.sub_0_r in HQ. by destruct s.
  - apply spec_bind. apply spec_modify. apply IH. cbn [length] in HQ.
    replace (live_pages (with_live (live_pages s - 1) s) - Z.of_nat (length l)) with (live_pages s - Z.of_nat (S (length l)))
      by (cbn [with_live live_pages]; lia). exact HQ.
Qed.

(** Freeing an object out of the tree that nobody refers to. *)
Lemma ok_free s refs held p c : dio_ok s (p :: refs) held -> clus s !! p = Some c -> in_tree s p c = 0 -> cnt refs p = 0 ->
  dio_ok (with_clus (delete p (clus s)) (with_live (live_pages s - Z.of_nat (npages s)) s)) refs held /\
  still s (with_clus (delete p (clus s)) (with_live (live_pages s - Z.of_nat (npages s)) s)).
Proof.
  intros O E Hi Hr. pose proof (ok_obj _ _ _ O p c E) as K. destruct (co_gone _ _ _ _ _ K Hi) as [_ Hh].
  assert (Hnr : forall i, clus_root s !! i <> Some p).
  { intros i Ei. destruct (ok_root _ _ _ O i p Ei) as (_ & d & Ed & <-). rewrite E in Ed. injection Ed as <-.
    unfold in_tree in Hi. by rewrite decide_True in Hi. }
  split.
  - destruct O. split; cbn [with_clus with_live clu_size clus_root clus next nr_clus disk junk live_pages]; try done.
    + intros i q Hq. destruct (ok_root0 i q Hq) as (Hx & d & Ed & Ei). split; [done|]. exists d.
      rewrite lookup_delete_ne; [done|]. intros ->. by apply (Hnr i).
    + intros q d Hd. apply lookup_delete_Some in Hd as [Hn Hd]. destruct (ok_obj0 q d Hd). rewrite cnt_cons, decide_False in * by done.
      split; try done. rewrite Z.add_0_r in co_ref0. done.
    + intros q Hs. apply ok_next0. destruct Hs as [d Hd]. apply lookup_delete_Some in Hd as [_ Hd]. by exists d.
    + intros q Hq. rewrite lookup_delete_ne; [apply ok_refs0; destruct Hq; [left; by right|by right]|].
      intros <-. rewrite <- !cnt_pos in Hq. lia.
    + change (npages (with_clus _ _)) with (npages s).
      assert (Hsz : size (clus s) = S (size (delete p (clus s)))).
      { rewrite <- (insert_delete_id (clus s) p c E) at 1. rewrite map_size_insert_None; [done|apply lookup_delete_eq]. }
      rewrite ok_live0, Hsz. lia.
  - split; try done.
    + intros i q Hq. cbn [with_clus with_live clus]. rewrite lookup_delete_ne; [done|]. intros <-. by apply (Hnr i).
    + intros q d Hd. cbn [with_clus with_live clus] in Hd. apply lookup_delete_Some in Hd as [_ Hd]. by exists d.
Qed.

Lemma spec_deref s refs held p (Q : unit -> dio_dev -> Prop) : dio_ok s (p :: refs) held -> p ∉ D.1 ->
  (forall s', dio_ok s' refs held -> still s s' -> Q tt s') -> spec (dio_clu_deref p) s Q.
Proof.
  intros O HD HQ. destruct (ok_refs _ _ _ O p ltac:(left; by left)) as [c E]. pose proof (ok_obj _ _ _ O p c E) as K.
  unfold dio_clu_deref. cbn [deref_fuel]. apply spec_bind, (spec_get p c); [done|].
  apply spec_bind, spec_bug_on; [destruct K; lia|]. apply spec_bind, (spec_upd p c); [done|].
  assert (Hc : cnt (p :: refs) p = cnt refs p + 1) by (by rewrite cnt_cons, decide_True).
  assert (Hin : in_tree s p c = 0 \/ in_tree s p c = 2) by (unfold in_tree; case_decide; auto).
  pose proof (cnt_nonneg refs p) as Cr. pose proof (cnt_nonneg held p) as Ch. pose proof (co_ref _ _ _ _ _ K) as Hr.
  destruct (Z.eqb_spec (ref c - 1) 0) as [Hz|Hz].
  - assert (Hi : in_tree s p c = 0) by lia. destruct (co_gone _ _ _ _ _ K Hi) as [Hd Hh]. specialize (Hd HD).
    set (s1 := with_clus _ s). unfold dio_clu_release.
    apply spec_bind, (spec_upd p (set_ref (ref c - 1) c)); [apply lookup_insert_eq|].
    apply spec_bind, (spec_get p (set_rels (set_ref (ref c - 1) c))); [apply lookup_insert_eq|].
    cbn [set_rels set_ref c_dirty]. rewrite Hd. apply spec_bind, spec_ret. unfold dio_clu_free.
    apply spec_bind, (spec_get p (set_rels (set_ref (ref c - 1) c))); [apply lookup_insert_eq|].
    apply spec_bind. unfold dio_pages_free. apply spec_free_pages. apply spec_modify.
    destruct (ok_free s refs held p c O E Hi ltac:(lia)) as [O' S'].
    assert (Es : with_clus (delete p (clus s)) (with_live (live_pages s - Z.of_nat (npages s)) s) =
      with_clus (delete p (clus (with_clus (<[p:=set_rels (set_ref (ref c - 1) c)]> (clus s1)) s1)))
        (with_live (live_pages s1 - Z.of_nat (length (pages (set_rels (set_ref (ref c - 1) c)))))
           (with_clus (<[p:=set_rels (set_ref (ref c - 1) c)]> (clus s1)) s1))).
    { unfold s1. cbn [with_clus with_live clus live_pages set_rels set_ref pages].
      rewrite (proj2 (co_whole _ _ _ _ _ K)). by rewrite !delete_insert_eq. }
    rewrite Es in O', S'. by apply HQ.
  - apply spec_ret. apply HQ.
    + eapply (ok_upd s (p :: refs) held); try done.
      * destruct K. split; try done; cbn [set_ref ref]; change (in_tree s p (set_ref (ref c - 1) c)) with (in_tree s p c); lia.
      * intros q Hq. rewrite cnt_cons, decide_False by done. lia.
    + by eapply still_upd.
Qed.

(** A pin turns a reference into a hold, and back. *)
Lemma spec_pin s refs held p i (Q : unit -> dio_dev -> Prop) : dio_ok s (p :: refs) held -> clus_root s !! i = Some p ->
  (forall s', dio_ok s' refs (p :: held) -> still s s' -> Q tt s') -> spec (dio_clu_pin p) s Q.
Proof.
  intros O Hi HQ. destruct (ok_root _ _ _ O i p Hi) as (_ & c & E & Ei). pose proof (ok_obj _ _ _ O p c E) as K.
  assert (Ht : in_tree s p c = 2) by (unfold in_tree; by rewrite Ei, decide_True).
  apply (spec_upd p c); [done|]. apply HQ; [|by eapply still_upd].
  eapply (ok_upd s (p :: refs) held); try done.
  - destruct K. rewrite cnt_cons, decide_True in co_ref0 by done.
    split; try done; cbn [set_pin ref pin_count]; change (in_tree s p (set_pin _ c)) with (in_tree s p c);
      rewrite ?cnt_cons, ?decide_True by done; lia.
  - intros q Hq. rewrite !cnt_cons, !decide_False by done. lia.
Qed.

Lemma spec_unpin s refs held p (Q : unit -> dio_dev -> Prop) : dio_ok s refs (p :: held) ->
  (forall s', dio_ok s' (p :: refs) held -> still s s' -> Q tt s') -> spec (dio_clu_unpin p) s Q.
Proof.
  intros O HQ. destruct (ok_refs _ _ _ O p ltac:(right; by left)) as [c E]. pose proof (ok_obj _ _ _ O p c E) as K.
  apply (spec_upd p c); [done|]. apply HQ; [|by eapply still_upd].
  eapply (ok_upd s refs (p :: held)); try done.
  - destruct K. rewrite cnt_cons, decide_True in co_ref0, co_pin0, co_gone0 by done. pose proof (cnt_nonneg held p).
    split; try done; cbn [set_pin ref pin_count c_dirty]; change (in_tree s p (set_pin _ c)) with (in_tree s p c);
      rewrite ?cnt_cons, ?decide_True by done; try lia.
  - intros q Hq. rewrite !cnt_cons, !decide_False by done. lia.
Qed.

Lemma spec_put s refs held p (Q : unit -> dio_dev -> Prop) : dio_ok s refs (p :: held) -> p ∉ D.1 ->
  (forall s', dio_ok s' refs held -> still s s' -> Q tt s') -> spec (dio_clu_put p) s Q.
Proof.
  intros O HD HQ. unfold dio_clu_put. apply spec_bind. eapply spec_unpin; [done|]. intros s1 O1 S1.
  eapply spec_deref; [done..|]. intros s2 O2 S2. apply HQ; [done|]. by eapply still_trans.
Qed.

(** A held cluster is in the tree. *)
Lemma held_in_tree s refs held p : dio_ok s refs held -> p ∈ held ->
  exists c, clus s !! p = Some c /\ clus_root s !! index c = Some p /\ idx_ok s (index c).
Proof.
  intros O Hp. destruct (ok_refs _ _ _ O p ltac:(by right)) as [c E]. pose proof (ok_obj _ _ _ O p c E) as K.
  exists c. split; [done|]. apply cnt_pos in Hp.
  destruct (decide (clus_root s !! index c = Some p)) as [Hi|Hi].
  - split; [done|]. by apply (ok_root _ _ _ O) in Hi as [? _].
  - destruct (co_gone _ _ _ _ _ K) as [_ Hh]; [unfold in_tree; by rewrite decide_False|lia].
Qed.

End Inv.

End DioInv.
