(* ===== verification/DioOps.v ===== *)
(** * The operations of the cluster cache on a calm device

    What [dio_clu_get], [dio_clu_read], [dio_clu_write], [dio_clu_sync] and
    [dio_clu_put] do when no request and no allocation fails. *)

From Stdlib Require Import ZArith Lia.
From coqutil Require Import Byte.
From stdpp Require Import base list gmap sorting.
From S2P Require Import Prelude StMonad DioPages Dio DioInv.
Import StMonad DioPages Dio DioInv.
Local Open Scope Z_scope.
Local Open Scope stm_scope.

Module DioOps.

Section Ops.
Context (D : list nat * Z).
Local Abbreviation dio_ok := (dio_ok D).

(** Different clusters have different sectors. *)
Lemma sector_inj s refs held i j : dio_ok s refs held -> idx_ok s i -> idx_ok s j -> sector s i = sector s j -> i = j.
Proof.
  intros O [I1 I2] [J1 J2] E. destruct (ok_size _ _ _ _ O) as [_ Hs].
  assert (Hk : 8 <= Z.shiftr (clu_size s) 9) by (rewrite Z.shiftr_div_pow2 by lia; change (2 ^ 9) with 512; dlia).
  unfold sector in E. set (k := Z.shiftr (clu_size s) 9) in *. rewrite !wrap_small in E by nia. nia.
Qed.

(** Whatever happens to the disk at the sector of an object in the tree that was
    read, or of an index whose pages are written as they were, nothing is lost. *)
Lemma spec_submit_write s p c (Q : dio_io -> dio_dev -> Prop) : calm s -> clus s !! p = Some c ->
  Q (Io p 0) (with_disk (fun x => if x =? sector s (index c) then pages c else disk s x) (S (io_tick s)) s) ->
  spec (dio_submit WRITE (Io p 0)) s Q.
Proof.
  intros [C _] E HQ. unfold dio_submit. apply spec_bind, (spec_get p c); [done|].
  do 3 apply spec_bind, spec_gets. rewrite C, Z.eqb_refl, orb_true_r. apply spec_bind, spec_modify. apply spec_bind, spec_ret.
  apply spec_bind, spec_ret, spec_ret. exact HQ.
Qed.

Lemma spec_submit_read s p c (Q : dio_io -> dio_dev -> Prop) : calm s -> clus s !! p = Some c -> c_read c = false ->
  Q (Io p 0) (with_clus (<[p := set_read true (set_pages (disk s (sector s (index c))) c)]> (clus s)) (with_disk (disk s) (S (io_tick s)) s)) ->
  spec (dio_submit READ (Io p 0)) s Q.
Proof.
  intros [C _] E Hr HQ. unfold dio_submit. apply spec_bind, (spec_get p c); [done|].
  do 3 apply spec_bind, spec_gets. rewrite C, Z.eqb_refl, orb_true_r. apply spec_bind, spec_modify.
  apply spec_bind, (spec_upd p c); [done|]. unfold dio_io_end_bio. cbn [Z.eqb]. apply spec_bind, spec_bind.
  cbn [io_cluster]. apply (spec_get p (set_pages (disk s (sector s (index c))) c)); [apply lookup_insert_eq|].
  apply spec_bind, spec_bug_on; [done|]. eapply spec_upd; [apply lookup_insert_eq|]. apply spec_ret.
  cbn [with_clus with_disk clus] in HQ |- *. rewrite insert_insert_eq. exact HQ.
Qed.

(** A request under way holds a reference. *)
Lemma spec_io_alloc s refs held p (Q : option dio_io -> dio_dev -> Prop) : calm s -> dio_ok s refs held -> is_Some (clus s !! p) ->
  (forall s', dio_ok s' (p :: refs) held -> still s s' -> io_tick s' = io_tick s ->
     (forall c, clus s !! p = Some c -> exists c', clus s' !! p = Some c' /\ data c' = data c) -> Q (Some (Io p 0)) s') ->
  spec (io_alloc p) s Q.
Proof.
  intros C O Hp HQ. unfold io_alloc, dio_io_alloc. apply spec_bind, spec_mem_fails; [done|].
  destruct Hp as [c E]. pose proof (ok_obj _ _ _ _ O p c E) as K. apply spec_bind.
  unfold dio_clu_ref. apply spec_bind, (spec_get p c); [done|]. apply spec_bind, spec_bug_on; [destruct K; lia|].
  apply (spec_upd p c); [done|]. apply spec_bind, spec_mem_fails; [by destruct C|]. apply spec_ret. apply HQ; cycle 2.
  - done.
  - intros c0 E0. rewrite E in E0. injection E0 as <-. eexists. split; [apply lookup_insert_eq|done].
  - apply ok_mem_tick. eapply (ok_upd D _ refs held); [by apply ok_mem_tick|done|done| |].
    + destruct K. split; try done; cbn [set_ref ref]; [|lia]. rewrite cnt_cons, decide_True by done.
      change (in_tree _ p (set_ref (ref c + 1) c)) with (in_tree s p c). lia.
    + intros q Hq. rewrite cnt_cons, decide_False by done. lia.
  - destruct (still_upd s p c (set_ref (ref c + 1) c) E eq_refl) as [[] Sr Sd So Sn]. split; [by split|done..].
Qed.

(** The disk may change where no clean cluster was read from. *)
Lemma ok_with_disk d t s refs held : dio_ok s refs held -> (forall x, whole (d x) /\ length (d x) = npages s) ->
  (forall p c, clus s !! p = Some c -> clus_root s !! index c = Some p -> c_dirty c = false -> d (sector s (index c)) = disk s (sector s (index c))) ->
  dio_ok (with_disk d t s) refs held.
Proof.
  intros [] Hd Hc. split; try done. intros p c E. destruct (ok_obj0 p c E). split; try done.
  intros Hi Hr Hcl. rewrite <- co_clean0 by done. apply (Hc p); [done| |done].
  unfold in_tree in Hi. cbn [with_disk clus_root] in Hi. by case_decide.
Qed.

(** Writing back one cluster: its pages are on disk and it is clean. *)
Record synced (s s' : dio_dev) (p : nat) (c : dio_cluster) : Prop := {
  sy_env : env_same s s';
  sy_root : clus_root s' = clus_root s;
  sy_disk x : disk s' x = if c_dirty c && (x =? sector s (index c)) then pages c else disk s x;
  sy_obj : exists c', clus s' !! p = Some c' /\ data c' = (index c, c_read c, false, pages c);
  sy_data i q : clus_root s !! i = Some q -> q <> p -> data <$> clus s' !! q = data <$> clus s !! q;
  sy_new : no_new s s'
}.

Lemma spec_sync s refs held p c (Q : Z -> dio_dev -> Prop) : calm s -> dio_ok s refs held -> clus s !! p = Some c ->
  (forall s', dio_ok s' refs held -> synced s s' p c -> Q 0 s') -> (0 < in_tree s p c \/ p ∈ refs) -> idx_ok s (index c) ->
  clus_root s !! index c = Some p \/ clus_root s !! index c = None ->
  spec (clu_sync p) s Q.
Proof.
  intros C O E HQ Hl Hx Hroot. unfold clu_sync, dio_clu_sync. apply spec_bind, (spec_get p c); [done|].
  destruct (c_dirty c) eqn:Ed; cbn [negb].
  2:{ apply spec_ret, HQ; [done|]. split; try done; [intros x; by rewrite Ed| |apply no_new_refl]. exists c. split; [done|]. unfold data. by rewrite Ed. }
  apply spec_bind. fold io_alloc. eapply spec_io_alloc; [done|done|by eexists|]. intros s1 O1 S1 _ Hc.
  destruct (Hc c E) as (c1 & E1 & Ec1). apply (env_calm _ _ (still_env _ _ S1)) in C.
  apply spec_bind. eapply spec_submit_write; [done|exact E1|]. cbn [io_err Z.eqb].
  set (d := fun x => if x =? sector s1 (index c1) then pages c1 else disk s1 x).
  pose proof (ok_obj _ _ _ _ O1 p c1 E1) as K1. unfold data in Ec1. injection Ec1 as Ei1 Er1 Ed1 Ep1.
  assert (O2 : dio_ok (with_disk d (S (io_tick s1)) s1) (p :: refs) held).
  { apply ok_with_disk; [done|intros x; subst d; cbn beta; destruct (x =? _); [apply K1|apply O1]|].
    intros q b Eq Er Eb. subst d. cbn beta. destruct (Z.eqb_spec (sector s1 (index b)) (sector s1 (index c1))) as [Hsec|]; [|done].
    apply (sector_inj s1 (p :: refs) held) in Hsec; [|done|by apply (ok_root _ _ _ _ O1) in Er as [? _]|
      by unfold idx_ok; rewrite (env_size _ _ (still_env _ _ S1)), Ei1].
    rewrite Hsec, Ei1, (still_root _ _ S1) in Er. destruct Hroot as [Hroot|Hroot]; [|congruence].
    rewrite Er in Hroot. injection Hroot as ->. rewrite E1 in Eq. injection Eq as <-. congruence. }
  apply spec_bind, (spec_upd p c1); [done|].
  set (s2 := with_clus _ (with_disk d _ s1)).
  assert (O3 : dio_ok s2 (p :: refs) held).
  { eapply (ok_upd D _ (p :: refs) held); [exact O2|done|done| |done].
    destruct K1. split; try done.
    - intros _ _ _. cbn [with_disk disk d set_dirty index pages]. unfold d. by rewrite Z.eqb_refl.
    - intros Hg. destruct (co_gone0 Hg) as [_ ?]. done. }
  apply spec_bind. unfold dio_io_release. cbn [io_cluster].
  (* the reference the request gives back is not the last *)
  unfold dio_clu_deref. cbn [deref_fuel]. set (c2 := set_dirty false c1).
  assert (E2 : clus s2 !! p = Some c2) by apply lookup_insert_eq.
  pose proof (ok_obj _ _ _ _ O3 p c2 E2) as K2. pose proof (co_ref _ _ _ _ _ _ K2) as Hr2.
  assert (Hc2 : 1 < ref c2).
  { rewrite Hr2, cnt_cons, decide_True by done. pose proof (cnt_nonneg refs p). pose proof (cnt_nonneg held p).
    assert (Hin : in_tree s2 p c2 = in_tree s p c).
    { unfold in_tree. cbn [s2 c2 set_dirty index with_clus with_disk clus_root]. by rewrite (still_root _ _ S1), Ei1. }
    rewrite Hin. destruct Hl as [Hl|Hl]; [lia|]. apply cnt_pos in Hl. unfold in_tree. case_decide; lia. }
  apply spec_bind, (spec_get p c2); [done|]. apply spec_bind, spec_bug_on; [lia|]. apply spec_bind, (spec_upd p c2); [done|].
  rewrite (proj2 (Z.eqb_neq (ref c2 - 1) 0)) by lia. apply spec_ret, spec_ret. apply HQ.
  - eapply (ok_upd D s2 (p :: refs) held); [done|done|done| |].
    + destruct K2. rewrite cnt_cons, decide_True in co_ref0 by done.
      split; try done; cbn [set_ref ref]; change (in_tree s2 p (set_ref _ c2)) with (in_tree s2 p c2); lia.
    + intros q Hq. rewrite cnt_cons, decide_False by done. lia.
  - destruct S1 as [Se Sr Sd So Sn]. split; cbn [s2 with_clus with_disk clus clus_root disk]; try done.
    + by destruct Se.
    + intros x. unfold d, sector. rewrite Ed, (env_size _ _ Se), Ei1, Ep1, Sd. cbn [andb]. done.
    + eexists. split; [apply lookup_insert_eq|]. unfold data. cbn. by rewrite Ei1, Er1, Ep1.
    + intros i q Hq Hn. rewrite !lookup_insert_ne by done. by apply (So i).
    + apply (no_new_trans s s1); [exact Sn|].
      apply (no_new_trans s1 s2); [exact (no_new_upd (with_disk d (S (io_tick s1)) s1) p c1 c2 E1 eq_refl)|exact (no_new_upd s2 p c2 (set_ref (ref c2 - 1) c2) E2 eq_refl)].
Qed.

(** The view survives a sync. *)
Lemma synced_view s s' refs held p c i : dio_ok s refs held -> clus s !! p = Some c -> idx_ok s (index c) ->
  (clus_root s !! index c = Some p \/ clus_root s !! index c = None /\ c_dirty c = false) ->
  synced s s' p c -> idx_ok s i -> view s' i = view s i.
Proof.
  intros O E Hx Ht [Se Sr Sd (c' & E' & Ec') So _] Hi. unfold view, sector. rewrite Sr, (env_size _ _ Se).
  injection Ec' as Ei Er Ed Ep. pose proof (ok_obj _ _ _ _ O p c E) as K.
  destruct (decide (i = index c)) as [->|Hn].
  - destruct Ht as [Ht|[Ht Hd]].
    + rewrite Ht, E, E', Er, Ep. destruct (c_read c) eqn:Hr; [done|]. rewrite Sd.
      destruct (c_dirty c) eqn:Hd; [|done]. rewrite (co_dirty _ _ _ _ _ _ K Hd) in Hr. done.
    + rewrite Ht, Sd, Hd. done.
  - assert (Hsec : u64 (i * Z.shiftr (clu_size s) 9) <> sector s (index c)).
    { intros Hs. apply Hn. by eapply sector_inj. }
    destruct (clus_root s !! i) as [q|] eqn:Eq.
    + assert (Hq : q <> p).
      { intros ->. destruct (ok_root _ _ _ _ O i p Eq) as (_ & c0 & E0 & <-). rewrite E in E0. by injection E0 as <-. }
      pose proof (So i q Eq Hq) as Hd. destruct (clus s' !! q) as [a|], (clus s !! q) as [b|]; cbn in Hd; try done.
      * injection Hd as _ -> _ ->. destruct (c_read b); [done|]. rewrite Sd. rewrite (proj2 (Z.eqb_neq _ _) Hsec). by rewrite andb_false_r.
      * rewrite Sd. rewrite (proj2 (Z.eqb_neq _ _) Hsec). by rewrite andb_false_r.
    + rewrite Sd. rewrite (proj2 (Z.eqb_neq _ _) Hsec). by rewrite andb_false_r.
Qed.

(** ** Taking a cluster *)

(** A new cluster in the tree, not read yet. *)
Lemma ok_new s s1 refs held i pgs : dio_ok s refs held -> clus_root s !! i = None -> idx_ok s i ->
  whole pgs -> length pgs = npages s -> env_same s s1 -> disk s1 = disk s ->
  clus s1 = <[next s := Cluster 2 0 i true false false false false pgs 0 0 0]> (clus s) -> next s1 = S (next s) ->
  clus_root s1 = <[i := next s]> (clus_root s) -> nr_clus s1 = nr_clus s + 1 ->
  live_pages s1 = live_pages s + Z.of_nat (npages s) ->
  dio_ok s1 refs held.
Proof.
  intros O Hi Hx W L Se Ed Ec En Er Enr El. pose proof O as [Os Oroot Oobj On Onr Orefs Odisk Oj Olive].
  assert (Hnp : npages s1 = npages s) by (unfold npages; by rewrite (env_size _ _ Se)).
  assert (Fr : clus s !! next s = None).
  { destruct (clus s !! next s) eqn:E; [|done]. assert (next s < next s)%nat by (apply On; by rewrite E). lia. }
  assert (H0 : cnt refs (next s) = 0 /\ cnt held (next s) = 0).
  { pose proof (cnt_nonneg refs (next s)). pose proof (cnt_nonneg held (next s)). split.
    - destruct (decide (0 < cnt refs (next s))) as [Hc|]; [|lia]. apply cnt_pos in Hc. destruct (Orefs _ (or_introl Hc)). congruence.
    - destruct (decide (0 < cnt held (next s))) as [Hc|]; [|lia]. apply cnt_pos in Hc. destruct (Orefs _ (or_intror Hc)). congruence. }
  assert (Hne : forall j p, clus_root s !! j = Some p -> p <> next s).
  { intros j p Hj ->. destruct (Oroot j _ Hj) as (_ & c & E & _). congruence. }
  split.
  - by rewrite (env_size _ _ Se).
  - intros j p Hj. unfold idx_ok. rewrite (env_size _ _ Se), Ec. rewrite Er in Hj. destruct (decide (j = i)) as [->|Hn].
    + rewrite lookup_insert_eq in Hj. injection Hj as <-. split; [done|]. eexists. split; [apply lookup_insert_eq|done].
    + rewrite lookup_insert_ne in Hj by done. destruct (Oroot j p Hj) as (Hxj & c & E & Ei). split; [done|].
      exists c. rewrite lookup_insert_ne; [done|]. intros <-. by eapply Hne.
  - intros p c Hp. rewrite Ec in Hp. destruct (decide (p = next s)) as [->|Hn].
    + rewrite lookup_insert_eq in Hp. injection Hp as <-. destruct H0 as [R0 H0].
      assert (Ht : in_tree s1 (next s) (Cluster 2 0 i true false false false false pgs 0 0 0) = 2)
        by (unfold in_tree; by rewrite Er, lookup_insert_eq, decide_True).
      split; rewrite ?Ht, ?R0, ?H0; try done. by rewrite Hnp.
    + rewrite lookup_insert_ne in Hp by done. pose proof (Oobj p c Hp) as [].
      assert (Ht : in_tree s1 p c = in_tree s p c).
      { unfold in_tree. rewrite Er. destruct (decide (index c = i)) as [Ei|Ei].
        - rewrite Ei, lookup_insert_eq, Hi. rewrite !decide_False by congruence. done.
        - by rewrite lookup_insert_ne. }
      assert (Hsec : sector s1 (index c) = sector s (index c)) by (unfold sector; by rewrite (env_size _ _ Se)).
      split; rewrite ?Ht, ?Hnp, ?Hsec, ?Ed; done.
  - intros p. rewrite Ec, En. destruct (decide (p = next s)) as [->|Hn]; [lia|]. rewrite lookup_insert_ne by done.
    intros Hs. specialize (On p Hs). lia.
  - rewrite Enr, Er, Onr, map_size_insert_None by done. lia.
  - intros p Hp. rewrite Ec. destruct (decide (p = next s)) as [->|Hn]; [by rewrite lookup_insert_eq|]. rewrite lookup_insert_ne by done. by apply Orefs.
  - intros x. rewrite Ed, Hnp. apply Odisk.
  - intros t. rewrite (env_junk _ _ Se). apply Oj.
  - rewrite El, Hnp, Ec, map_size_insert_None, Olive by done. lia.
Qed.

(** Nothing of the other clusters has changed. *)
Record others (s s' : dio_dev) (i : Z) : Prop := {
  oth_env : env_same s s';
  oth_view j : idx_ok s j -> view s' j = view s j;
  oth_root j : j <> i -> clus_root s' !! j = clus_root s !! j;
  oth_there j q : there s j q -> there s' j q
}.

Lemma spec_alloc_pages n : forall s got (Q : option (list (list byte)) -> dio_dev -> Prop), calm s ->
  (forall t, length (junk s t) = PAGE_SIZE) -> whole got ->
  (forall pgs t, whole pgs -> length pgs = (length got + n)%nat -> Q (Some pgs) (with_mem_tick t (with_live (live_pages s + Z.of_nat n) s))) ->
  spec (alloc_pages n got) s Q.
Proof.
  induction n as [|n IH]; intros s got Q C J W HQ; cbn [alloc_pages].
  - apply spec_ret. specialize (HQ got (mem_tick s) W ltac:(lia)). rewrite Z.add_0_r in HQ. by destruct s.
  - apply spec_bind. unfold crt_alloc_page. apply spec_bind, spec_mem_fails; [done|]. unfold spec at 1. apply IH; [by destruct C|done| |].
    + apply Forall_app. split; [done|]. constructor; [apply J|done].
    + intros pgs t Wp Lp. rewrite length_app in Lp. cbn [length] in Lp. specialize (HQ pgs t Wp ltac:(lia)).
      replace (live_pages s + Z.of_nat (S n)) with (live_pages s + 1 + Z.of_nat n) in HQ by lia. exact HQ.
Qed.

Lemma spec_clu_alloc s refs held (Q : option nat -> dio_dev -> Prop) : calm s -> dio_ok s refs held ->
  (forall pgs t, whole pgs -> length pgs = npages s ->
     Q (Some (next s)) (with_new (Cluster 1 0 0 true false false false false pgs 0 0 0)
        (with_mem_tick t (with_live (live_pages s + Z.of_nat (npages s)) s)))) ->
  spec dio_clu_alloc s Q.
Proof.
  intros C O HQ. destruct (ok_size _ _ _ _ O) as [Hl Hs]. unfold dio_clu_alloc. apply spec_bind, spec_gets.
  rewrite Hl. apply spec_bind, spec_bug_on; [done|]. apply spec_bind, spec_bug_on; [lia|].
  apply spec_bind, spec_bug_on; [unfold DIO_CLU_MAX_PAGES; lia|]. apply spec_bind, spec_mem_fails; [done|].
  assert (Hn : 1 <= Z.shiftr (clu_size s) PAGE_SHIFT <= 16).
  { unfold PAGE_SHIFT. rewrite Z.shiftr_div_pow2 by lia. change (2 ^ 12) with 4096. dlia. }
  rewrite wrap_small by lia. apply spec_bind. unfold dio_pages_alloc, DIO_CLU_MAX_PAGES.
  rewrite (proj2 (Z.leb_gt _ _)), (proj2 (Z.ltb_ge _ _)) by lia. cbn [orb]. apply spec_bind.
  apply spec_alloc_pages; [by destruct C|apply O|constructor|]. intros pgs t W L. apply spec_ret. unfold spec. apply HQ; [done|exact L].
Qed.

(** A cluster found or made: held, and where it belongs. *)
Lemma spec_lookup_create s refs held i (Q : option nat -> dio_dev -> Prop) : calm s -> dio_ok s refs held -> idx_ok s i ->
  (forall p s', dio_ok s' refs (p :: held) -> others s s' i -> clus_root s' !! i = Some p -> Q (Some p) s') ->
  spec (dio_clu_lookup_create i) s Q.
Proof.
  intros C O Hx HQ. unfold dio_clu_lookup_create. apply spec_bind, spec_gets. apply spec_bind.
  assert (Hage : forall p s1, dio_ok s1 refs (p :: held) -> others s s1 i -> clus_root s1 !! i = Some p ->
    spec (do* upd p (fun c => set_age (Z.lor (age c) (2 ^ 63)) c) in ret (Some p)) s1 Q).
  { intros p s1 O1 S1 E1. destruct (ok_root _ _ _ _ O1 i p E1) as (_ & c & E & Ei). apply spec_bind, (spec_upd p c); [done|].
    apply spec_ret. pose proof (still_upd s1 p c (set_age (Z.lor (age c) (2 ^ 63)) c) E eq_refl) as St. apply HQ; [| |done].
    - eapply (ok_upd D s1 refs (p :: held)); try done. destruct (ok_obj _ _ _ _ O1 p c E). by split.
    - destruct S1 as [Se Sv Sr Sh]. split; [by eapply env_trans; [|apply St]| |done|].
      + intros j Hj. rewrite (still_view _ _ _ St). by apply Sv.
      + intros j q Hq. eapply still_there; [exact St|auto]. }
  destruct (clus_root s !! i) as [p|] eqn:Ei.
  - destruct (ok_root _ _ _ _ O i p Ei) as (_ & c & E & _). apply spec_bind. eapply spec_ref; [done|by eexists|].
    intros s1 O1 S1. apply spec_bind. eapply (spec_pin D s1 refs held p i); [done|by rewrite (still_root _ _ S1)|]. intros s2 O2 S2.
    pose proof (still_trans _ _ _ S1 S2) as S12. apply spec_ret. apply Hage; [done| |by rewrite (still_root _ _ S12)].
    split; [apply S12|intros j _; by apply still_view|intros j _; by rewrite (still_root _ _ S12)|intros j q; by apply still_there].
  - apply spec_bind. eapply spec_clu_alloc; [done..|]. intros pgs t W L. set (sa := with_new _ _).
    apply spec_bind. eapply spec_upd; [apply lookup_insert_eq|]. apply spec_bind, spec_mem_fails; [by destruct C|].
    apply spec_bind, spec_gets. cbn [with_mem_tick with_clus sa with_new clus_root with_live]. rewrite Ei.
    apply spec_bind, spec_bind, spec_modify. apply spec_bind. unfold dio_clu_ref at 1.
    apply spec_bind. eapply spec_get; [cbn; apply lookup_insert_eq|]. apply spec_bind, spec_bug_on; [done|].
    eapply spec_upd; [cbn; apply lookup_insert_eq|]. apply spec_ret.
    match goal with |- spec _ ?st _ => set (s1 := st) end.
    assert (O1 : dio_ok s1 refs held).
    { eapply (ok_new s s1 refs held i pgs); try done. cbn. by rewrite !insert_insert_eq. }
    assert (R1 : clus_root s1 !! i = Some (next s)) by (cbn; apply lookup_insert_eq).
    assert (S1 : others s s1 i).
    { split; [done| | |].
      - intros j Hj. unfold view. change (sector s1 j) with (sector s j). cbn [s1 with_clus with_root with_mem_tick sa with_new with_live clus_root clus disk].
        destruct (decide (j = i)) as [->|Hn].
        + rewrite lookup_insert_eq, lookup_insert_eq, Ei. done.
        + rewrite lookup_insert_ne by done. destruct (clus_root s !! j) as [q|] eqn:Eq; [|done].
          assert (Hq : q <> next s).
          { intros ->. destruct (ok_root _ _ _ _ O j _ Eq) as (_ & c & E & _).
            assert (next s < next s)%nat by (apply (ok_next _ _ _ _ O); by rewrite E). lia. }
          by rewrite !lookup_insert_ne.
      - intros j Hn. cbn. by rewrite lookup_insert_ne.
      - intros j q (Hj & Hq & c & Ec & Hc). split; [done|]. cbn. assert (j <> i) by congruence.
        rewrite lookup_insert_ne by done. split; [done|]. exists c.
        assert (q < next s)%nat by (apply (ok_next _ _ _ _ O); by rewrite Ec). by rewrite !lookup_insert_ne by lia. }
    apply spec_bind. eapply spec_ref; [exact O1|cbn; by rewrite lookup_insert_eq|]. intros s2 O2 S2.
    apply spec_bind. eapply (spec_pin D s2 refs held _ i); [done|by rewrite (still_root _ _ S2)|]. intros s3 O3 S3.
    pose proof (still_trans _ _ _ S2 S3) as S23. cbn [next with_mem_tick with_live]. rewrite Nat.eqb_refl. apply spec_bind, spec_ret. apply spec_ret. apply Hage; [done| |].
    + destruct S1 as [Se Sv Sr Sh]. split; [by eapply env_trans; [|apply S23]| | |].
      * intros j Hj. rewrite (still_view _ _ _ S23). by apply Sv.
      * intros j Hn. rewrite (still_root _ _ S23). by apply Sr.
      * intros j q Hq. eapply still_there; [exact S23|auto].
    + by rewrite (still_root _ _ S23).
Qed.

(** The first read of a cluster: the pages are those on disk. *)
Lemma spec_wait_read s refs held p c (Q : Z -> dio_dev -> Prop) : calm s -> dio_ok s refs held -> clus s !! p = Some c ->
  clus_root s !! index c = Some p -> c_read c = false ->
  (forall s', dio_ok s' refs held -> env_same s s' -> clus_root s' = clus_root s -> (forall j, view s' j = view s j) ->
     (exists c', clus s' !! p = Some c' /\ c_read c' = true /\ index c' = index c) -> (forall j q, there s j q -> there s' j q) -> Q 0 s') ->
  spec (dio_clu_wait_read p) s Q.
Proof.
  intros C O E Ht Hr HQ. pose proof (ok_obj _ _ _ _ O p c E) as K. unfold dio_clu_wait_read.
  apply spec_bind, (spec_get p c); [done|]. rewrite (co_start _ _ _ _ _ _ K), Hr. cbn [negb].
  assert (Htr : in_tree s p c = 2) by (unfold in_tree; by rewrite decide_True).
  assert (Hl : 1 < ref c) by (rewrite (co_ref _ _ _ _ _ _ K), Htr; pose proof (cnt_nonneg refs p); pose proof (cnt_nonneg held p); lia).
  apply spec_bind, (spec_upd p c); [done|]. apply spec_bind. unfold io_alloc, dio_io_alloc.
  apply spec_bind, spec_mem_fails; [by destruct C|]. apply spec_bind. unfold dio_clu_ref.
  apply spec_bind. eapply spec_get; [apply lookup_insert_eq|]. apply spec_bind, spec_bug_on; [cbn; lia|].
  eapply spec_upd; [apply lookup_insert_eq|]. apply spec_bind, spec_mem_fails; [by destruct C|]. apply spec_ret.
  apply spec_bind, spec_bind. eapply spec_submit_read; [by destruct C|apply lookup_insert_eq|done|].
  apply spec_bind. eapply spec_get; [apply lookup_insert_eq|]. cbn [io_err Z.eqb set_read c_read negb andb].
  apply spec_bind, spec_bug_on; [done|]. apply spec_bind. unfold io_release, dio_io_release, dio_clu_deref. cbn [deref_fuel io_cluster].
  apply spec_bind. eapply spec_get; [apply lookup_insert_eq|]. apply spec_bind, spec_bug_on; [cbn; lia|].
  apply spec_bind. eapply spec_upd; [apply lookup_insert_eq|].
  match goal with |- context [if ?b then _ else _] => assert (b = false) as -> by (cbn; lia) end.
  apply spec_ret, spec_ret. apply spec_bind. eapply spec_upd; [apply lookup_insert_eq|]. apply spec_ret.
  match goal with |- Q 0 (with_clus _ ?st) => set (s1 := st) end.
  set (c' := set_comp (S (read_comp c)) 0 (set_ref (ref c) (set_read true (set_pages (disk s (sector s (index c))) (set_read_start c))))).
  match goal with |- Q 0 ?st => assert (Ec : clus st = <[p := c']> (clus s)) end.
  { cbn. rewrite !insert_insert_eq. f_equal. unfold c', set_comp, set_ref. cbn. f_equal. lia. }
  apply HQ.
  - eapply (ok_cong D (with_clus (<[p := c']> (clus s)) s)); try done.
    eapply (ok_upd D s refs held); try done. destruct K. split; try done. apply O.
  - done.
  - done.
  - intros j. rewrite (view_cong (with_clus (<[p := c']> (clus s)) s)) by done. unfold view. cbn [with_clus clus_root clus disk].
    change (sector (with_clus _ s) j) with (sector s j). destruct (clus_root s !! j) as [q|] eqn:Ej; [|done].
    destruct (decide (q = p)) as [->|Hn]; [|by rewrite lookup_insert_ne]. rewrite lookup_insert_eq, E, Hr. cbn.
    destruct (ok_root _ _ _ _ O j p Ej) as (_ & c0 & E0 & <-). rewrite E in E0. by injection E0 as <-.
  - exists c'. rewrite Ec, lookup_insert_eq. done.
  - intros j q. by apply (there_upd s _ p c c').
Qed.

(** [dio_clu_get]: the cluster is held, read, and what it holds is what was
    there. *)
Lemma spec_clu_get s refs held i (Q : option nat -> dio_dev -> Prop) : calm s -> dio_ok s refs held -> idx_ok s i ->
  (forall p c s', dio_ok s' refs (p :: held) -> others s s' i -> clus_root s' !! i = Some p -> clus s' !! p = Some c ->
     index c = i -> c_read c = true -> Q (Some p) s') ->
  spec (dio_clu_get i) s Q.
Proof.
  intros C O Hx HQ. unfold dio_clu_get. apply spec_bind. eapply spec_lookup_create; [done..|]. intros p s1 O1 S1 R1.
  destruct (ok_root _ _ _ _ O1 i p R1) as (_ & c & E & Ei). apply spec_bind, (spec_get p c); [done|].
  destruct (c_read c) eqn:Hr; cbn [negb]; [apply spec_ret; by apply (HQ p c)|].
  apply spec_bind. eapply (spec_wait_read s1 refs (p :: held) p c);
    [by eapply env_calm; [apply S1|]|done|done|by rewrite Ei|done|]. intros s2 O2 E2 R2 V2 (c' & Ec' & Hr' & Ei') H2.
  cbn [Z.eqb negb]. apply spec_ret. destruct S1 as [Se Sv Sr Sh]. apply (HQ p c'); try done; [|by rewrite R2|congruence].
  split; [by eapply env_trans| | |auto].
  - intros j Hj. rewrite V2. by apply Sv.
  - intros j Hj. rewrite R2. by apply Sr.
Qed.

(** ** Using it *)

Lemma size_pages s refs held : dio_ok s refs held -> clu_size s = Z.of_nat (npages s) * 4096 /\ (npages s <= 16)%nat.
Proof.
  intros O. destruct (ok_size _ _ _ _ O) as [Hl Hs]. change 4095 with (Z.ones 12) in Hl. rewrite Z.land_ones in Hl by lia.
  unfold npages, PAGE_SHIFT. rewrite Z.shiftr_div_pow2 by lia. change (2 ^ 12) with 4096 in *. dlia.
Qed.

Lemma spec_clu_read s refs held p c len off (Q : Z + list byte -> dio_dev -> Prop) : dio_ok s refs held -> clus s !! p = Some c ->
  c_read c = true -> 0 <= off -> 0 <= len -> off + len <= clu_size s ->
  Q (inr (take (Z.to_nat len) (drop (Z.to_nat off) (concat (pages c))))) s -> spec (dio_clu_read p len off) s Q.
Proof.
  intros O E Hr H1 H2 H3 HQ. destruct (ok_size _ _ _ _ O) as [_ Hs]. destruct (size_pages _ _ _ O) as [Hp Hn].
  destruct (co_whole _ _ _ _ _ _ (ok_obj _ _ _ _ O p c E)) as [W L]. unfold dio_clu_read. apply spec_bind, spec_gets.
  rewrite wrap_small by lia. apply spec_bind, spec_bug_on; [lia|]. apply spec_bind, (spec_get p c); [done|].
  rewrite Hr. cbn [negb]. apply spec_bind, spec_ret. cbn [Z.eqb negb]. apply spec_bind, (spec_get p c); [done|].
  apply spec_bind. eapply spec_lift; [apply io_read_ok; rewrite ?L; lia || done|]. by apply spec_ret.
Qed.

Lemma spec_clu_write s refs held p c buf off (Q : Z -> dio_dev -> Prop) : dio_ok s refs held -> clus s !! p = Some c ->
  clus_root s !! index c = Some p -> c_read c = true -> 0 <= off -> off + Z.of_nat (length buf) <= clu_size s ->
  (forall s' pgs, dio_ok s' refs held -> env_same s s' -> clus_root s' = clus_root s -> view s' (index c) = pgs ->
     concat pgs = memcpy_at (concat (view s (index c))) (Z.to_nat off) buf ->
     (forall j, j <> index c -> view s' j = view s j) -> (exists c', clus s' !! p = Some c' /\ index c' = index c) ->
     (forall j q, there s j q -> there s' j q) -> Q 0 s') ->
  spec (dio_clu_write p buf off) s Q.
Proof.
  intros O E Ht Hr H1 H3 HQ. destruct (ok_size _ _ _ _ O) as [_ Hs]. destruct (size_pages _ _ _ O) as [Hp Hn].
  pose proof (ok_obj _ _ _ _ O p c E) as K. destruct (co_whole _ _ _ _ _ _ K) as [W L]. unfold dio_clu_write. apply spec_bind, spec_gets.
  rewrite wrap_small by lia. apply spec_bind, spec_bug_on; [lia|]. apply spec_bind, (spec_get p c); [done|].
  rewrite Hr. cbn [negb]. apply spec_bind, spec_ret. cbn [Z.eqb negb]. apply spec_bind, (spec_get p c); [done|].
  rewrite Hr. apply spec_bind, spec_bug_on; [done|]. apply spec_bind, (spec_upd p c); [done|].
  destruct (io_write_ok (pages c) off buf) as (pgs & Ep & Wp & Lp & Cp); [done|done|rewrite L; lia|rewrite L; lia|].
  apply spec_bind. eapply spec_lift; [exact Ep|]. apply spec_bind. eapply spec_upd; [apply lookup_insert_eq|]. apply spec_ret.
  set (c' := set_pages pgs (set_dirty true c)).
  assert (Htr : in_tree s p c' = 2) by (unfold in_tree; by rewrite decide_True).
  match goal with |- Q 0 ?st => assert (Es : forall j, view st j = view (with_clus (<[p := c']> (clus s)) s) j) end.
  { intros j. apply view_cong; try done. cbn. by rewrite insert_insert_eq. }
  apply (HQ _ pgs); try done.
  - eapply (ok_cong D (with_clus (<[p := c']> (clus s)) s)); try done; [|cbn; by rewrite insert_insert_eq].
    eapply (ok_upd D s refs held); try done. destruct K. split; try done.
    + cbn [c' set_pages pages]. by rewrite Lp.
    + rewrite Htr. done.
  - rewrite Es. unfold view. cbn [with_clus clus_root clus]. rewrite Ht, lookup_insert_eq. cbn. by rewrite Hr.
  - unfold view. by rewrite Ht, E, Hr.
  - intros j Hj. rewrite Es. apply (view_upd s p c); [done|]. intros Ej.
    destruct (ok_root _ _ _ _ O j p Ej) as (_ & c0 & E0 & E1). rewrite E in E0. injection E0 as <-. by destruct Hj.
  - exists c'. cbn. by rewrite insert_insert_eq, lookup_insert_eq.
  - intros j q. apply (there_upd s _ p c c'); try done. cbn. by rewrite insert_insert_eq.
Qed.

(** ** Eviction of one cluster *)

Lemma ok_weaken s refs held p c : DioInv.dio_ok (p :: D.1, D.2) s refs held -> clus s !! p = Some c -> c_dirty c = false -> dio_ok s refs held.
Proof.
  intros O E Hd. destruct O. split; try done. intros q d Eq. destruct (ok_obj0 q d Eq). split; try done.
  intros Hg. destruct (co_gone0 Hg) as [G1 G2]. split; [|done]. intros Hq. destruct (decide (q = p)) as [->|Hn]; [congruence|].
  apply G1. by intros [->|?]%elem_of_cons.
Qed.

Lemma ok_more s refs held p : dio_ok s refs held -> DioInv.dio_ok (p :: D.1, D.2) s refs held.
Proof.
  intros []. split; try done. intros q d Eq. destruct (ok_obj0 q d Eq). split; try done. intros Hg.
  destruct (co_gone0 Hg) as [G1 G2]. split; [|done]. intros Hq. apply G1. intros ?. apply Hq. by right.
Qed.

(** [dio_clu_remove] of an unpinned cluster: the tree's two references are now
    references like others. *)
Lemma ok_remove s refs held p c : dio_ok s refs held -> clus s !! p = Some c -> clus_root s !! index c = Some p ->
  cnt held p = 0 ->
  DioInv.dio_ok (p :: D.1, D.2) (Dio.with_root (delete (index c) (clus_root s)) (nr_clus s - 1) s) (p :: p :: refs) held.
Proof.
  intros O E Ht Hh. destruct O. split; cbn [Dio.with_root clu_size clus_root clus next nr_clus disk junk live_pages]; try done.
  - intros i q Hq. apply lookup_delete_Some in Hq as [_ Hq]. by apply ok_root0.
  - intros q d Eq. assert (Hin : q <> p -> in_tree (Dio.with_root (delete (index c) (clus_root s)) (nr_clus s - 1) s) q d = in_tree s q d).
    { intros Hn. unfold in_tree. cbn [Dio.with_root clus_root]. destruct (decide (index d = index c)) as [Ei|Ei].
      - rewrite Ei, lookup_delete_eq, Ht, !decide_False by congruence. done.
      - by rewrite lookup_delete_ne. }
    pose proof (ok_obj0 q d Eq) as []. destruct (decide (q = p)) as [->|Hn].
    + assert (d = c) as -> by congruence.
      assert (H0 : in_tree (Dio.with_root (delete (index c) (clus_root s)) (nr_clus s - 1) s) p c = 0)
        by (unfold in_tree; cbn [Dio.with_root clus_root]; by rewrite lookup_delete_eq, decide_False).
      assert (H2 : in_tree s p c = 2) by (unfold in_tree; by rewrite decide_True).
      split; try done; rewrite ?H0, ?cnt_cons, ?decide_True by done; [lia|]. intros _. split; [|done]. intros Hp. destruct Hp. by left.
    + rewrite <- Hin in co_ref0, co_gone0 by done. split; try done; [rewrite !cnt_cons, !decide_False by done; lia|by rewrite Hin|].
      intros Hg. destruct (co_gone0 Hg) as [G1 G2]. split; [|done]. intros Hq. apply G1. intros ?. apply Hq. by right.
  - rewrite ok_nr0. rewrite <- (insert_delete_id (clus_root s) (index c) p Ht) at 1.
    rewrite map_size_insert_None by apply lookup_delete_eq. lia.
  - intros q Hq. destruct Hq as [Hq|Hq]; [|apply ok_refs0; by right].
    apply elem_of_cons in Hq as [->|Hq]; [by rewrite E|]. apply elem_of_cons in Hq as [->|Hq]; [by rewrite E|]. apply ok_refs0. by left.
Qed.

End Ops.

End DioOps.
