(* ===== verification/DioEvict.v ===== *)
(** * Walks over the cache, eviction and the life of a device

    Ageing and eviction walk the tree in batches of 16 clusters.  Every cluster is
    visited, the walk ends, and what clients find in the clusters does not change,
    in whatever order [sort] puts clusters of the same age. *)

From Stdlib Require Import ZArith Lia.
From coqutil Require Import Byte.
From stdpp Require Import base list gmap sorting.
From S2P Require Import Prelude StMonad DioPages Dio DioInv DioOps.
Import StMonad DioPages Dio DioInv DioOps.
Local Open Scope Z_scope.
Local Open Scope stm_scope.

Module DioEvict.

(** No cluster is out of the tree unwritten; [X] pages are in other use. *)
Abbreviation ok X := (dio_ok ([], X)).

Lemma not_in_nil (p : nat) : p ∉ [].
Proof. apply not_elem_of_nil. Qed.

(** ** One cluster leaves *)

(** Removal, write-back and the tree's two references. *)
Definition evict (p : nat) (i : Z) : M unit :=
  let* removed := dio_clu_remove i in
  match removed with
  | Some q =>
      do* BUG_ON (negb (q =? p)%nat) in
      let* _ := clu_sync p in
      do* dio_clu_deref p in
      dio_clu_deref p
  | None => ret tt
  end.

Lemma idx_ok_env s s' i : env_same s s' -> idx_ok s' i <-> idx_ok s i.
Proof. intros E. unfold idx_ok. by rewrite (env_size _ _ E). Qed.

(** The views of [s'] are those of [s]. *)
Record same_view (s s' : dio_dev) : Prop := {
  sv_env : env_same s s';
  sv_view j : idx_ok s j -> view s' j = view s j
}.

Lemma same_view_refl s : same_view s s.
Proof. done. Qed.

Lemma same_view_trans s1 s2 s3 : same_view s1 s2 -> same_view s2 s3 -> same_view s1 s3.
Proof.
  intros [E1 V1] [E2 V2]. split; [by eapply env_trans|]. intros j Hj. rewrite V2 by (by rewrite idx_ok_env). by apply V1.
Qed.

Lemma still_same_view s s' : still s s' -> same_view s s'.
Proof. intros S. split; [apply S|]. intros j _. by apply still_view. Qed.

(** [dio_clu_remove] of an unpinned cluster. *)
Lemma spec_remove X s refs held p c (Q : option nat -> dio_dev -> Prop) : ok X s refs held -> clus s !! p = Some c ->
  clus_root s !! index c = Some p -> cnt held p = 0 ->
  Q (Some p) (Dio.with_root (delete (index c) (clus_root s)) (nr_clus s - 1) s) -> spec (dio_clu_remove (index c)) s Q.
Proof.
  intros O E Ht Hh HQ. pose proof (ok_obj _ _ _ _ O p c E) as K. unfold dio_clu_remove.
  apply spec_bind, spec_gets. rewrite Ht. apply spec_bind, (spec_get p c); [done|].
  unfold dio_clu_pinned. rewrite (co_pin _ _ _ _ _ _ K), Hh. cbn [Z.eqb negb]. rewrite Z.eqb_refl. cbn [negb].
  apply spec_bind, spec_bug_on; [done|]. apply spec_bind, spec_modify, spec_ret. exact HQ.
Qed.

(** The write-back of a removed cluster and the tree's two references: what it
    held is on disk now. *)
Lemma spec_leave X s refs held p c (Q : unit -> dio_dev -> Prop) : calm s -> ok X s refs held -> p ∈ refs -> clus s !! p = Some c ->
  clus_root s !! index c = Some p -> cnt held p = 0 ->
  (forall s', ok X s' refs held -> same_view s s' -> clus_root s' = delete (index c) (clus_root s) -> no_new s s' -> Q tt s') ->
  spec (clu_sync p) (Dio.with_root (delete (index c) (clus_root s)) (nr_clus s - 1) s)
    (fun _ s1 => spec (dio_clu_deref p) s1 (fun _ s2 => spec (dio_clu_deref p) s2 Q)).
Proof.
  intros C O Hp E Ht Hh HQ. pose proof (ok_obj _ _ _ _ O p c E) as K. destruct (ok_root _ _ _ _ O _ _ Ht) as [Hx _].
  pose proof (ok_remove ([], X) s refs held p c O E Ht Hh) as O1. set (s1 := Dio.with_root _ _ s) in *.
  eapply (spec_sync ([p], X) s1 (p :: p :: refs) held p c); [by destruct C|done|done| |right; by left|done|right; apply lookup_delete_eq].
  intros s2 O2 Sy. destruct Sy as [Se Sr Sd (c2 & E2 & Ec2) So Sn]. injection Ec2 as Ei2 Er2 Ed2 Ep2.
  pose proof (ok_weaken ([], X) s2 _ held p c2 O2 E2 Ed2) as O2'.
  eapply spec_deref; [exact O2'|apply not_in_nil|]. intros s3 O3 S3.
  eapply spec_deref; [exact O3|apply not_in_nil|]. intros s4 O4 S4. pose proof (still_trans _ _ _ S3 S4) as S34.
  apply HQ; [done| |by rewrite (still_root _ _ S34), Sr|by eapply no_new_trans; [exact Sn|apply S34]].
  eapply same_view_trans; [|by apply still_same_view]. split; [by destruct Se|]. intros j Hj.
  unfold view, sector. rewrite Sr, (env_size _ _ Se). cbn [s1 Dio.with_root clus_root clu_size clus] in *.
  destruct (decide (j = index c)) as [->|Hn].
  - rewrite lookup_delete_eq, Ht, E, Sd. unfold sector at 1. cbn [Dio.with_root clu_size disk]. rewrite Z.eqb_refl, andb_true_r.
    destruct (c_dirty c) eqn:Hd; [by rewrite (co_dirty _ _ _ _ _ _ K Hd)|]. destruct (c_read c) eqn:Hr; [|done].
    apply (co_clean _ _ _ _ _ _ K); [|done..]. unfold in_tree. by rewrite decide_True.
  - rewrite lookup_delete_ne by done. assert (Hsec : forall x, x = u64 (j * Z.shiftr (clu_size s) 9) -> disk s2 x = disk s x).
    { intros x ->. rewrite Sd. cbn [Dio.with_root disk]. destruct (Z.eqb_spec (u64 (j * Z.shiftr (clu_size s) 9)) (sector s1 (index c))) as [He|]; [|by rewrite andb_false_r].
      exfalso. apply Hn. by eapply (sector_inj ([], X) s). }
    destruct (clus_root s !! j) as [q|] eqn:Eq; [|by apply Hsec].
    assert (Hq : q <> p) by (intros ->; destruct (ok_root _ _ _ _ O j p Eq) as (_ & c0 & E0 & <-); congruence).
    assert (Hr1 : clus_root s1 !! j = Some q) by (by cbn; rewrite lookup_delete_ne).
    pose proof (So j q Hr1 Hq) as Hd. cbn [s1 Dio.with_root clus] in Hd.
    destruct (clus s2 !! q) as [a|], (clus s !! q) as [b|]; cbn in Hd; try done; [|by apply Hsec].
    injection Hd as _ -> _ ->. destruct (c_read b); [done|]. by apply Hsec.
Qed.

Lemma spec_evict X s refs held p c (Q : unit -> dio_dev -> Prop) : calm s -> ok X s refs held -> p ∈ refs -> clus s !! p = Some c ->
  clus_root s !! index c = Some p -> cnt held p = 0 ->
  (forall s', ok X s' refs held -> same_view s s' -> clus_root s' = delete (index c) (clus_root s) -> no_new s s' -> Q tt s') ->
  spec (evict p (index c)) s Q.
Proof.
  intros C O Hp E Ht Hh HQ. unfold evict. apply spec_bind. eapply spec_remove; [exact O|done..|]. rewrite Nat.eqb_refl. cbn [negb].
  apply spec_bind, spec_bug_on; [done|]. apply spec_bind.
  eapply spec_mono; [by eapply (spec_leave X s refs held p c Q)|]. intros rc s1 HS. by apply spec_bind.
Qed.

(** A cluster that has left already is left alone. *)
Lemma spec_evict_gone s p i (Q : unit -> dio_dev -> Prop) : clus_root s !! i = None -> Q tt s -> spec (evict p i) s Q.
Proof. intros E HQ. unfold evict, dio_clu_remove. apply spec_bind, spec_bind, spec_gets. rewrite E. by do 2 apply spec_ret. Qed.

(** ** Walks *)

Lemma indices_sorted first root : Sorted Z.le (indices first root).
Proof. apply Sorted_merge_sort. intros x y. lia. Qed.

Lemma indices_perm first root : indices first root ≡ₚ filter (fun i => first <= i) (elements (dom root)).
Proof. apply merge_sort_Permutation. Qed.

Lemma elem_of_indices first root i : i ∈ indices first root <-> first <= i /\ is_Some (root !! i).
Proof. rewrite indices_perm, list_elem_of_filter, elem_of_elements, elem_of_dom. done. Qed.

Lemma indices_NoDup first root : NoDup (indices first root).
Proof. rewrite indices_perm. apply NoDup_filter, NoDup_elements. Qed.

Lemma indices_strict first root : StronglySorted Z.lt (indices first root).
Proof.
  pose proof (indices_sorted first root) as S. apply Sorted_StronglySorted in S; [|intros ? ? ?; lia].
  pose proof (indices_NoDup first root) as N. induction S as [|x l _ IH F]; [constructor|].
  apply NoDup_cons in N as [Hx N]. constructor; [by apply IH|]. rewrite Forall_forall in F |- *. intros y Hy.
  specialize (F y Hy). assert (x <> y) by (intros ->; done). lia.
Qed.

(** Going on behind the last index of a batch. *)
Lemma indices_next first root ks k rest : indices first root = ks ++ k :: rest -> indices (k + 1) root = rest.
Proof.
  intros E. pose proof (indices_strict first root) as S. rewrite E in S.
  apply (Sorted_unique Z.le).
  - apply indices_sorted.
  - pose proof (indices_sorted first root) as S'. rewrite E in S'.
    apply Sorted_StronglySorted in S'; [|intros ? ? ?; lia]. apply StronglySorted_app_1_r in S'.
    apply StronglySorted_inv in S' as [S' _]. by apply StronglySorted_Sorted.
  - apply NoDup_Permutation; [apply indices_NoDup| |].
    + pose proof (indices_NoDup first root) as N. rewrite E in N. apply NoDup_app in N as (_ & _ & N). by apply NoDup_cons in N as [_ N].
    + intros i. rewrite elem_of_indices. split.
      * intros [Hi Hr]. assert (Hin : i ∈ indices first root).
        { apply elem_of_indices. split; [|done]. assert (Hk : k ∈ indices first root) by (rewrite E; apply elem_of_app; right; by left).
          apply elem_of_indices in Hk as [Hk _]. lia. }
        rewrite E in Hin. apply elem_of_app in Hin as [Hin|Hin].
        -- assert (i < k); [|lia]. apply (StronglySorted_app_1_elem_of _ _ _ i k S Hin). by left.
        -- apply elem_of_cons in Hin as [->|Hin]; [lia|done].
      * intros Hi. apply StronglySorted_app_1_r in S. apply StronglySorted_inv in S as [_ F]. rewrite Forall_forall in F.
        specialize (F i Hi). split; [lia|]. assert (Hin : i ∈ indices first root) by (rewrite E; apply elem_of_app; right; by right).
        by apply elem_of_indices in Hin as [_ ?].
Qed.

(** A walk whose visits give back the reference of the cluster they get: [P a s R]
    holds of the result so far, the state, and the references the batch under way
    has taken and not given back. *)
Section Walk.
Context {A : Type} (more : A -> bool) (visit : nat -> A -> M A) (root0 : gmap Z nat).
Context (P : A -> dio_dev -> list nat -> Prop).
Hypothesis P_obj : forall a s R, P a s R -> clus_root s = root0 /\
  forall i p, root0 !! i = Some p -> 0 <= i < 2 ^ 64 - 1 /\ exists c, clus s !! p = Some c /\ index c = i.
Hypothesis P_ref : forall a s R i p, P a s R -> root0 !! i = Some p -> spec (dio_clu_ref p) s (fun _ s' => P a s' (p :: R)).
Hypothesis P_perm : forall a s R R', R ≡ₚ R' -> P a s R -> P a s R'.
Hypothesis P_visit : forall a s R i p, P a s (p :: R) -> root0 !! i = Some p -> spec (visit p a) s (fun a' s' => P a' s' R).

Definition go_on (p : nat) (first : Z) : M Z :=
  do* dio_clu_ref p in
  let* c := get p in
  ret (if first <=? index c then u64 (index c + 1) else first).

Lemma spec_batch_loop a ks : forall ps first s R, Forall2 (fun i p => root0 !! i = Some p) ks ps ->
  StronglySorted Z.lt ks -> Forall (fun k => first <= k) ks -> P a s R ->
  spec (for_each ps go_on first) s (fun first' s' => P a s' (ps ++ R) /\
    first' = default first ((fun k => k + 1) <$> last ks)).
Proof.
  induction ks as [|k ks IH]; intros ps first s R F S Hf HP.
  - apply Forall2_nil_inv_l in F as ->. by apply spec_ret.
  - apply Forall2_cons_inv_l in F as (p & ps' & Hk & F & ->). apply StronglySorted_inv in S as [S Sk].
    apply Forall_cons in Hf as [Hfk Hf]. cbn [for_each]. apply spec_bind. unfold go_on at 1. apply spec_bind.
    eapply spec_mono; [by apply (P_ref a s R k p)|]. intros u s1 HP1; cbn beta in HP1; clear u. destruct (P_obj _ _ _ HP1) as [_ Ho].
    destruct (Ho k p Hk) as (Hb & c & E & Ei). apply spec_bind, (spec_get p c); [done|]. apply spec_ret.
    rewrite Ei, (proj2 (Z.leb_le first k)) by done. rewrite wrap_small by lia.
    eapply spec_mono; [apply (IH ps' (k + 1) s1 (p :: R)); [done|done| |done]|].
    + eapply Forall_impl; [exact Sk|]. intros x Hx. lia.
    + intros first' s' [HP' ->]. split; [eapply P_perm; [|exact HP']; symmetry; apply Permutation_middle|].
      destruct ks as [|k' ks]; [done|]. rewrite last_cons_cons. destruct (last (k' :: ks)) eqn:El; [done|].
      by apply last_None in El.
Qed.

Lemma gang_lookup_ok ks : (forall i, i ∈ ks -> is_Some (root0 !! i)) ->
  Forall2 (fun i p => root0 !! i = Some p) ks (omap (fun i => root0 !! i) ks).
Proof.
  induction ks as [|k ks IH]; intros H; [constructor|]. cbn. destruct (H k ltac:(by left)) as [p E]. rewrite E.
  constructor; [done|]. apply IH. intros i Hi. apply H. by right.
Qed.

Lemma spec_visits ks : forall ps a s R, Forall2 (fun i p => root0 !! i = Some p) ks ps -> P a s (ps ++ R) ->
  spec (for_each ps visit a) s (fun a' s' => P a' s' R).
Proof.
  induction ks as [|k ks IH]; intros ps a s R F HP.
  - apply Forall2_nil_inv_l in F as ->. by apply spec_ret.
  - apply Forall2_cons_inv_l in F as (p & ps' & Hk & F & ->). cbn [for_each]. apply spec_bind.
    eapply spec_mono; [by apply (P_visit a s (ps' ++ R) k p)|]. intros a' s' HP'. by apply IH.
Qed.

Lemma spec_walk fuel : forall first a s, P a s [] -> (length (indices first root0) < fuel)%nat ->
  spec (walk fuel more visit first a) s (fun a' s' => P a' s' []).
Proof.
  induction fuel as [|fuel IH]; intros first a s HP Hf; [lia|]. cbn [walk]. destruct (more a); [|by apply spec_ret].
  destruct (P_obj _ _ _ HP) as [Er _]. apply spec_bind. unfold batch. apply spec_bind, spec_gets. rewrite Er. unfold gang_lookup.
  set (ks := take 16 (indices first root0)). set (ps := omap _ ks).
  assert (Hks : forall i, i ∈ ks -> i ∈ indices first root0).
  { intros i Hi. rewrite <- (take_drop 16 (indices first root0)). apply elem_of_app. by left. }
  assert (F : Forall2 (fun i p => root0 !! i = Some p) ks ps).
  { apply gang_lookup_ok. intros i Hi%Hks. by apply elem_of_indices in Hi as [_ ?]. }
  apply spec_bind. eapply spec_mono.
  { apply (spec_batch_loop a ks ps first s []); [done| | |done].
    - pose proof (indices_strict first root0) as S. rewrite <- (take_drop 16) in S. by apply StronglySorted_app_1_l in S.
    - apply Forall_forall. intros i Hi%Hks. by apply elem_of_indices in Hi as [? _]. }
  intros first' s1 [HP1 ->]. apply spec_ret. cbn [fst snd]. destruct (last ks) as [k|] eqn:El.
  - apply last_Some in El as [l El]. destruct ps as [|p ps'] eqn:Eps.
    { apply Forall2_nil_inv_r in F. rewrite F in El. by destruct l. }
    apply spec_bind. eapply spec_mono; [apply (spec_visits ks (p :: ps') a s1 []); [done|exact HP1]|]. intros a' s2 HP2.
    change (default first ((fun k => k + 1) <$> Some k)) with (k + 1). apply IH; [done|].
    assert (Hnext : indices (k + 1) root0 = drop 16 (indices first root0)).
    { apply (indices_next first root0 l). rewrite <- (take_drop 16 (indices first root0)) at 1. fold ks. rewrite El.
      by rewrite <- app_assoc. }
    rewrite Hnext, length_drop. assert (Hks' : ks <> []) by (rewrite El; by destruct l).
    assert (indices first root0 <> []) by (intros E0; apply Hks'; unfold ks; by rewrite E0).
    destruct (indices first root0); [done|]. cbn [length] in *. lia.
  - apply last_None in El. rewrite El in F. apply Forall2_nil_inv_l in F. rewrite F in HP1 |- *. by apply spec_ret.
Qed.

End Walk.

Lemma tree_bounds X s refs held i p : ok X s refs held -> clus_root s !! i = Some p ->
  0 <= i < 2 ^ 64 - 1 /\ exists c, clus s !! p = Some c /\ index c = i.
Proof.
  intros O Hi. destruct (ok_root _ _ _ _ O i p Hi) as ([H1 H2] & c & E & Ei). split; [|by exists c]. split; [done|].
  destruct (ok_size _ _ _ _ O) as [_ Hs].
  assert (Hk : 8 <= Z.shiftr (clu_size s) 9) by (rewrite Z.shiftr_div_pow2 by lia; change (2 ^ 9) with 512; dlia). nia.
Qed.

Lemma indices_length root : (length (indices 0 root) <= size root)%nat.
Proof. rewrite (Permutation_length (indices_perm 0 root)), length_filter. by rewrite <- size_dom. Qed.

(** ** Ageing *)

Section Calls.
Context (X : Z) (held : list nat).

(** A walk that changes counts and ages only. *)
Lemma spec_quiet_walk refs visit fuel s (Q : unit -> dio_dev -> Prop) : ok X s refs held -> (size (clus_root s) < fuel)%nat ->
  (forall s1 R i p, ok X s1 (p :: R) held -> clus_root s1 !! i = Some p -> spec (visit p tt) s1 (fun _ s' => ok X s' R held /\ still s1 s')) ->
  (forall s', ok X s' refs held -> still s s' -> Q tt s') -> spec (walk fuel (fun _ => true) visit 0 tt) s Q.
Proof.
  intros O Hf Hv HQ. eapply spec_mono.
  - apply (spec_walk (fun _ => true) visit (clus_root s) (fun _ s' R => ok X s' (R ++ refs) held /\ still s s')).
    + intros _ s1 R [O1 S1]. split; [apply S1|]. intros i p Hi. rewrite <- (still_root _ _ S1) in Hi. by eapply tree_bounds.
    + intros _ s1 R i p [O1 S1] Hi. rewrite <- (still_root _ _ S1) in Hi. destruct (tree_bounds _ _ _ _ _ _ O1 Hi) as (_ & c & E & _).
      eapply spec_ref; [exact O1|by eexists|]. intros s2 O2 S2. split; [done|by eapply still_trans].
    + intros _ s1 R R' HP [O1 S1]. split; [|done]. eapply ok_perm; [|exact O1]. by apply Permutation_app_tail.
    + intros [] s1 R i p [O1 S1] Hi. rewrite <- (still_root _ _ S1) in Hi.
      eapply spec_mono; [by eapply (Hv s1 (R ++ refs) i p)|]. intros u s2 [O2 S2]. split; [done|by eapply still_trans].
    + split; [done|apply still_refl].
    + pose proof (indices_length (clus_root s)). lia.
  - intros [] s' [O' S']. by apply HQ.
Qed.

Lemma spec_clus_dump fuel s (Q : unit -> dio_dev -> Prop) : ok X s [] held -> (size (clus_root s) < fuel)%nat ->
  (forall s', ok X s' [] held -> still s s' -> Q tt s') -> spec (dio_clus_dump fuel) s Q.
Proof.
  intros O Hf HQ. eapply (spec_quiet_walk []); [exact O|done| |done]. intros s1 R i p O1 _.
  eapply spec_deref; [exact O1|apply not_in_nil|]. intros s2 O2 S2. done.
Qed.

Lemma spec_clus_age fuel s (Q : unit -> dio_dev -> Prop) : ok X s [] held -> (size (clus_root s) < fuel)%nat ->
  (forall s', ok X s' [] held -> still s s' -> Q tt s') -> spec (dio_clus_age fuel) s Q.
Proof.
  intros O Hf HQ. eapply (spec_quiet_walk []); [exact O|done| |done]. intros s1 R i p O1 Hi.
  destruct (tree_bounds _ _ _ _ _ _ O1 Hi) as (_ & c & E & _). apply spec_bind, (spec_upd p c); [done|].
  pose proof (still_upd s1 p c (set_age (Z.shiftr (age c) 1) c) E eq_refl) as S1.
  eapply (spec_deref ([], X)); [|apply not_in_nil|].
  - eapply (ok_upd _ s1 (p :: R) held); [exact O1|exact E|done| |done]. destruct (ok_obj _ _ _ _ O1 p c E). by split.
  - intros s2 O2 S2. split; [done|by eapply still_trans].
Qed.

(** ** Eviction *)

(** The clusters a collection found: in the tree and not pinned. *)
Definition evictable (root : gmap Z nat) (nodes : list nat) : Prop :=
  Forall (fun p => cnt held p = 0 /\ exists i, root !! i = Some p) nodes.

Lemma spec_collect fuel s (Q : list nat -> dio_dev -> Prop) : ok X s [] held -> (size (clus_root s) < fuel)%nat ->
  (forall nodes s', ok X s' nodes held -> still s s' -> evictable (clus_root s) nodes -> Q nodes s') -> spec (collect fuel) s Q.
Proof.
  intros O Hf HQ. unfold collect. eapply spec_mono.
  - eapply (spec_walk _ _ (clus_root s) (fun nodes s' R => ok X s' (R ++ nodes) held /\ still s s' /\ evictable (clus_root s) nodes)).
    + intros nodes s1 R (O1 & S1 & _). split; [apply S1|]. intros i p Hi. rewrite <- (still_root _ _ S1) in Hi. by eapply tree_bounds.
    + intros nodes s1 R i p (O1 & S1 & F) Hi. rewrite <- (still_root _ _ S1) in Hi. destruct (tree_bounds _ _ _ _ _ _ O1 Hi) as (_ & c & E & _).
      eapply spec_ref; [exact O1|by eexists|]. intros s2 O2 S2. split; [done|]. split; [by eapply still_trans|done].
    + intros nodes s1 R R' HP (O1 & S1 & F). split; [|done]. eapply ok_perm; [|exact O1]. by apply Permutation_app_tail.
    + intros nodes s1 R i p (O1 & S1 & F) Hi. pose proof Hi as Hi0. rewrite <- (still_root _ _ S1) in Hi.
      destruct (tree_bounds _ _ _ _ _ _ O1 Hi) as (_ & c & E & _). apply spec_bind, (spec_get p c); [done|].
      pose proof (co_pin _ _ _ _ _ _ (ok_obj _ _ _ _ O1 p c E)) as Hp. unfold dio_clu_pinned. rewrite Hp, negb_involutive.
      destruct (Z.eqb_spec (cnt held p) 0) as [H0|H0]; cbn [andb]; [destruct (length nodes <? nodes_limit)%nat|].
      * apply spec_ret. split; [|split; [done|]].
        -- eapply ok_perm; [|exact O1]. rewrite app_assoc. apply (Permutation_app_comm [p]).
        -- apply Forall_app. split; [done|]. constructor; [|done]. split; [done|by exists i].
      * apply spec_bind. eapply spec_deref; [exact O1|apply not_in_nil|]. intros s2 O2 S2. apply spec_ret.
        split; [done|]. split; [by eapply still_trans|done].
      * apply spec_bind. eapply spec_deref; [exact O1|apply not_in_nil|]. intros s2 O2 S2. apply spec_ret.
        split; [done|]. split; [by eapply still_trans|done].
    + split; [exact O|]. split; [apply still_refl|constructor].
    + pose proof (indices_length (clus_root s)). lia.
  - intros nodes s' (O' & S' & F). by apply HQ.
Qed.

Lemma spec_get_ages nodes s (Q : list (nat * Z) -> dio_dev -> Prop) : (forall p, p ∈ nodes -> is_Some (clus s !! p)) ->
  (forall aged, map fst aged = nodes -> Q aged s) -> spec (get_ages nodes) s Q.
Proof.
  revert Q. induction nodes as [|p nodes IH]; intros Q Hn HQ; cbn [get_ages]; [by apply spec_ret, HQ|].
  destruct (Hn p ltac:(by left)) as [c E]. apply spec_bind, (spec_get p c); [done|]. apply spec_bind, IH.
  - intros q Hq. apply Hn. by right.
  - intros aged Ha. apply spec_ret, HQ. cbn. by rewrite Ha.
Qed.

Lemma ok_page_in s refs : ok X s refs held -> ok (X + 1) (with_live (live_pages s + 1) s) refs held.
Proof.
  intros []. split; try done.
  - intros p c E. destruct (ok_obj0 p c E). by split.
  - cbn in ok_live0 |- *. change (npages (with_live _ s)) with (npages s). lia.
Qed.

Lemma ok_page_out s refs : ok (X + 1) s refs held -> ok X (with_live (live_pages s - 1) s) refs held.
Proof.
  intros []. split; try done.
  - intros p c E. destruct (ok_obj0 p c E). by split.
  - cbn in ok_live0 |- *. change (npages (with_live _ s)) with (npages s). lia.
Qed.

End Calls.

Section Lru.
Context (sort : list (nat * Z) -> list (nat * Z)) (sort_perm : forall l, sort l ≡ₚ l).

(** The clusters given up: the tree shrinks, the views stay. *)
Record shrunk (s s' : dio_dev) : Prop := {
  sh_view : same_view s s';
  sh_root : clus_root s' ⊆ clus_root s
}.

Lemma shrunk_still s s1 s2 : shrunk s s1 -> still s1 s2 -> shrunk s s2.
Proof.
  intros [V R] S. split; [by eapply same_view_trans; [|apply still_same_view]|]. by rewrite (still_root _ _ S).
Qed.

(** The eviction loop over the clusters collected. *)
Lemma spec_evictions X held max s nodes : calm s -> ok X s nodes held -> evictable held (clus_root s) nodes ->
  (forall p c, p ∈ nodes -> clus s !! p = Some c -> clus_root s !! index c = Some p) ->
  forall todo, (forall p, p ∈ todo -> p ∈ nodes) ->
  spec (for_each todo (fun p _ =>
    let* n := gets nr_clus in
    if max <? n then let* c := get p in evict p (index c) else ret tt) tt) s
    (fun _ s' => ok X s' nodes held /\ shrunk s s').
Proof.
  intros C O Hev Hidx todo Hsub.
  apply (spec_for_each (fun todo (_ : unit) s' => (forall p, p ∈ todo -> p ∈ nodes) /\ ok X s' nodes held /\ shrunk s s' /\ no_new s s')).
  - split; [done|]. split; [done|]. split; [split; [apply same_view_refl|done]|apply no_new_refl].
  - intros p todo' [] s1 _ (Hs1 & O1 & [V1 R1] & N1). apply spec_bind, spec_gets.
    assert (Hp : p ∈ nodes) by (apply Hs1; by left).
    assert (Hrest : forall q, q ∈ todo' -> q ∈ nodes) by (intros q Hq; apply Hs1; by right).
    assert (Hkeep : (forall q, q ∈ todo' -> q ∈ nodes) /\ ok X s1 nodes held /\ shrunk s s1 /\ no_new s s1)
      by (split; [done|]; split; [done|]; split; [by split|done]).
    destruct (max <? nr_clus s1); [|by apply spec_ret].
    destruct (ok_refs _ _ _ _ O1 p (or_introl Hp)) as [c E]. apply spec_bind, (spec_get p c); [done|].
    destruct (N1 p c E) as (c0 & E0 & Ei0). specialize (Hidx p c0 Hp E0). rewrite Ei0 in Hidx.
    destruct (clus_root s1 !! index c) as [q|] eqn:Eq.
    + assert (q = p) as ->. { pose proof (lookup_weaken _ _ _ _ Eq R1). congruence. }
      unfold evictable in Hev. rewrite Forall_forall in Hev. destruct (Hev p Hp) as [Hh _].
      eapply (spec_evict X s1 nodes held p c); [by eapply env_calm; [apply V1|]|done..|]. intros s2 O2 V2 R2 N2.
      split; [done|]. split; [done|]. split; [|by eapply no_new_trans]. split; [by eapply same_view_trans|].
      rewrite R2. etransitivity; [apply delete_subseteq|done].
    + by apply spec_evict_gone.
  - intros [] s' (_ & O' & S' & _). done.
Qed.

Lemma spec_derefs X held : forall nodes s, ok X s nodes held ->
  spec (for_each nodes (fun p (_ : unit) => dio_clu_deref p) tt) s (fun _ s' => ok X s' [] held /\ still s s').
Proof.
  induction nodes as [|p nodes IH]; intros s O; [apply spec_ret; split; [done|apply still_refl]|]. cbn [for_each]. apply spec_bind.
  eapply spec_deref; [exact O|apply not_in_nil|]. intros s1 O1 S1. eapply spec_mono; [by apply IH|].
  intros [] s2 [O2 S2]. split; [done|by eapply still_trans].
Qed.

Lemma spec_lru_frees X held fuel s : calm s -> ok X s [] held -> (size (clus_root s) < fuel)%nat ->
  spec (dio_clus_lru_frees sort fuel) s (fun rc s' => rc = 0 /\ ok X s' [] held /\ shrunk s s').
Proof.
  intros C O Hf. unfold dio_clus_lru_frees. do 2 apply spec_bind, spec_gets.
  destruct (nr_clus s <=? nr_max_clus s); [apply spec_ret; split; [done|]; split; [done|]; split; [apply same_view_refl|done]|].
  apply spec_bind. unfold crt_alloc_page. apply spec_bind, spec_mem_fails; [done|]. unfold spec at 1. set (s1 := with_live _ _).
  assert (O1 : ok (X + 1) s1 [] held) by (apply ok_page_in, ok_mem_tick; exact O).
  assert (S1 : still s s1) by (split; try done; exact (no_new_refl s)).
  apply spec_bind. eapply spec_collect; [exact O1|exact Hf|]. intros nodes s2 O2 S2 Hev.
  apply spec_bind. apply spec_get_ages; [intros p Hp; apply (ok_refs _ _ _ _ O2); by left|]. intros aged Ha.
  assert (HP : map fst (sort aged) ≡ₚ nodes) by (rewrite <- Ha; apply Permutation_map, sort_perm).
  apply spec_bind. pose proof (still_trans _ _ _ S1 S2) as S12.
  eapply spec_mono; [apply (spec_evictions (X + 1) held (nr_max_clus s) s2 (map fst (sort aged)))|].
  - by eapply env_calm; [apply S12|].
  - eapply ok_perm; [symmetry; exact HP|exact O2].
  - rewrite (still_root _ _ S2). unfold evictable. by rewrite HP.
  - intros p c Hp E. rewrite HP in Hp. unfold evictable in Hev. rewrite Forall_forall in Hev. destruct (Hev p Hp) as (_ & i & Hi).
    rewrite <- (still_root _ _ S2) in Hi. destruct (tree_bounds _ _ _ _ _ _ O2 Hi) as (_ & c0 & E0 & <-). rewrite E in E0. by injection E0 as <-.
  - done.
  - intros [] s3 [O3 Sh3]. apply spec_bind. eapply spec_mono; [apply spec_derefs; exact O3|]. intros [] s4 [O4 S4].
    apply spec_bind, spec_modify, spec_ret. split; [done|]. split; [by apply ok_page_out|].
    destruct (shrunk_still s2 s3 s4 Sh3 S4) as [V4 R4]. split.
    + apply (same_view_trans s s2); [by apply still_same_view|]. destruct V4 as [[] V4]. split; [by split|]. intros j Hj. by apply V4.
    + rewrite (still_root _ _ S12) in R4. exact R4.
Qed.

(** Pinned clusters stay: with more of them than the limit the shrinker never
    comes to an end. *)
Lemma held_size X s refs held : ok X s refs held -> (length (remove_dups held) <= size (clus_root s))%nat.
Proof.
  intros O. rewrite <- size_dom. transitivity (length (map snd (map_to_list (clus_root s)))).
  - apply submseteq_length, NoDup_submseteq; [apply NoDup_remove_dups|]. intros p Hp. rewrite elem_of_remove_dups in Hp.
    destruct (held_in_tree _ _ _ _ _ O Hp) as (c & _ & Hr & _). apply list_elem_of_In, in_map_iff. exists (index c, p). split; [done|].
    by apply list_elem_of_In, elem_of_map_to_list.
  - rewrite length_map. rewrite size_dom, length_map_to_list. done.
Qed.

End Lru.

(** ** Release *)

(** What [dio_clus_release] does to one cluster. *)
Definition release_one (p : nat) (_ : unit) : M unit :=
  do* upd p (set_pin 0) in
  let* c := get p in
  let* removed := dio_clu_remove (index c) in
  do* BUG_ON (negb (bool_decide (removed = Some p))) in
  let* _ := clu_sync p in
  do* dio_clu_deref p in
  do* dio_clu_deref p in
  dio_clu_deref p.

Lemma spec_release_one X s R i p (Q : unit -> dio_dev -> Prop) : calm s -> ok X s (p :: R) [] -> clus_root s !! i = Some p ->
  (forall s', ok X s' R [] -> same_view s s' -> clus_root s' = delete i (clus_root s) -> Q tt s') ->
  spec (release_one p tt) s Q.
Proof.
  intros C O Hi HQ. destruct (ok_root _ _ _ _ O i p Hi) as (_ & c & E & Ei). unfold release_one.
  apply spec_bind, (spec_upd p c); [done|]. set (s1 := with_clus _ s).
  assert (O1 : ok X s1 (p :: R) []).
  { eapply (ok_upd _ s (p :: R) []); [exact O|exact E|done| |done]. destruct (ok_obj _ _ _ _ O p c E). by split. }
  assert (S1 : still s s1) by (by eapply still_upd). assert (E1 : clus s1 !! p = Some (set_pin 0 c)) by apply lookup_insert_eq.
  apply spec_bind, (spec_get p (set_pin 0 c)); [done|]. cbn [set_pin index]. rewrite Ei.
  apply spec_bind. rewrite <- Ei. change (index c) with (index (set_pin 0 c)).
  eapply spec_remove; [exact O1|exact E1|cbn; by rewrite Ei|done|]. apply spec_bind, spec_bug_on; [by rewrite bool_decide_true|].
  apply spec_bind. eapply spec_mono; [eapply (spec_leave X s1 (p :: R) [] p (set_pin 0 c) (fun _ s2 => spec (dio_clu_deref p) s2 Q))|].
  - by destruct C.
  - exact O1.
  - by left.
  - exact E1.
  - cbn. by rewrite Ei.
  - done.
  - intros s2 O2 V2 R2 _. eapply spec_deref; [exact O2|apply not_in_nil|]. intros s3 O3 S3. apply HQ; [done| |].
    + eapply same_view_trans; [by apply still_same_view|]. eapply same_view_trans; [exact V2|by apply still_same_view].
    + rewrite (still_root _ _ S3), R2. cbn. by rewrite Ei.
  - intros rc s2 HS. apply spec_bind. eapply spec_mono; [exact HS|]. intros [] s3 HS3. by apply spec_bind.
Qed.

Lemma spec_release_batch X ks : forall ps s R, calm s -> ok X s (ps ++ R) [] -> NoDup ks ->
  Forall2 (fun i p => clus_root s !! i = Some p) ks ps ->
  spec (for_each ps release_one tt) s (fun _ s' => ok X s' R [] /\ same_view s s' /\ clus_root s' ⊆ clus_root s /\
    forall k, k ∈ ks -> clus_root s' !! k = None).
Proof.
  induction ks as [|k ks IH]; intros ps s R C O N F.
  - apply Forall2_nil_inv_l in F as ->. apply spec_ret. split; [done|]. split; [apply same_view_refl|]. split; [done|].
    intros k Hk. by apply elem_of_nil in Hk.
  - apply Forall2_cons_inv_l in F as (p & ps' & Hk & F & ->). apply NoDup_cons in N as [Hkn N]. cbn [for_each]. apply spec_bind.
    eapply (spec_release_one X s (ps' ++ R) k p); [done|exact O|done|]. intros s1 O1 V1 R1.
    eapply spec_mono; [apply (IH ps' s1 R); [by eapply env_calm; [apply V1|]|done|done|]|].
    + rewrite R1. clear -F Hkn. induction F as [|i q ks' qs Hi F IHF]; [constructor|]. apply not_elem_of_cons in Hkn as [Hn Hkn].
      constructor; [by rewrite lookup_delete_ne|by apply IHF].
    + intros [] s2 (O2 & V2 & R2 & Hks). split; [done|]. split; [by eapply same_view_trans|]. rewrite R1 in R2.
      split; [etransitivity; [exact R2|apply delete_subseteq]|]. intros x [->|Hx]%elem_of_cons; [|by apply Hks].
      destruct (clus_root s2 !! k) as [q|] eqn:Eq; [|done]. apply (lookup_weaken _ _ _ _ Eq) in R2. by rewrite lookup_delete_eq in R2.
Qed.

Lemma spec_clus_release X fuel : forall s, calm s -> ok X s [] [] -> (size (clus_root s) < fuel)%nat ->
  spec (dio_clus_release fuel) s (fun _ s' => ok X s' [] [] /\ same_view s s' /\ clus_root s' = ∅).
Proof.
  induction fuel as [|fuel IH]; intros s C O Hf; [lia|]. cbn [dio_clus_release]. apply spec_bind. unfold batch.
  apply spec_bind, spec_gets. unfold gang_lookup. set (root0 := clus_root s). set (ks := take 16 (indices 0 root0)). set (ps := omap _ ks).
  assert (Hks : forall i, i ∈ ks -> i ∈ indices 0 root0).
  { intros i Hi. rewrite <- (take_drop 16 (indices 0 root0)). apply elem_of_app. by left. }
  assert (F : Forall2 (fun i p => root0 !! i = Some p) ks ps).
  { apply gang_lookup_ok. intros i Hi%Hks. by apply elem_of_indices in Hi as [_ ?]. }
  assert (N : NoDup ks) by (pose proof (indices_NoDup 0 root0) as N; rewrite <- (take_drop 16) in N; by apply NoDup_app in N as [N _]).
  apply spec_bind. eapply spec_mono.
  { apply (spec_batch_loop root0 (fun (_ : unit) s' R => ok X s' R [] /\ still s s')) with (a := tt) (ks := ks) (R := []).
    - intros _ s1 R [O1 S1]. split; [apply S1|]. intros i p Hi. unfold root0 in Hi. rewrite <- (still_root _ _ S1) in Hi. by eapply tree_bounds.
    - intros _ s1 R i p [O1 S1] Hi. unfold root0 in Hi. rewrite <- (still_root _ _ S1) in Hi. destruct (tree_bounds _ _ _ _ _ _ O1 Hi) as (_ & c & E & _).
      eapply spec_ref; [exact O1|by eexists|]. intros s2 O2 S2. split; [done|by eapply still_trans].
    - intros _ s1 R R' HP [O1 S1]. split; [|done]. by eapply ok_perm.
    - exact F.
    - pose proof (indices_strict 0 root0) as S. rewrite <- (take_drop 16) in S. by apply StronglySorted_app_1_l in S.
    - apply Forall_forall. intros i Hi%Hks. by apply elem_of_indices in Hi as [? _].
    - split; [done|apply still_refl]. }
  intros first' s1 [[O1 S1] _]. apply spec_ret. cbn [fst]. rewrite app_nil_r in O1.
  assert (C1 : calm s1) by (by eapply env_calm; [apply S1|]).
  destruct ps as [|p ps'] eqn:Eps.
  - apply Forall2_nil_inv_r in F. assert (E0 : clus_root s1 = ∅).
    { rewrite (still_root _ _ S1). apply map_empty. intros i. destruct (clus_root s !! i) as [p|] eqn:Ei; [|done].
      destruct (tree_bounds _ _ _ _ _ _ O Ei) as [Hi _].
      assert (Hin : i ∈ indices 0 root0) by (apply elem_of_indices; split; [lia|unfold root0; by rewrite Ei]).
      rewrite <- (take_drop 16 (indices 0 root0)) in Hin. fold ks in Hin. rewrite F in Hin.
      destruct (indices 0 root0) as [|x l] eqn:El; [by apply elem_of_nil in Hin|]. unfold ks in F. done. }
    apply spec_bind, spec_gets, spec_bug_on; [rewrite (ok_nr _ _ _ _ O1), E0; done|]. split; [done|]. split; [by apply still_same_view|done].
  - apply spec_bind. change (fun p (_ : unit) => _) with release_one. rewrite <- Eps in *.
    eapply spec_mono; [apply (spec_release_batch X ks ps s1 []); [done|by rewrite app_nil_r|done|by rewrite (still_root _ _ S1)]|].
    intros [] s2 (O2 & V2 & R2 & Hgone). eapply spec_mono; [apply IH; [by eapply env_calm; [apply V2|]|done|]|].
    + destruct ks as [|k ks'] eqn:Ek; [apply Forall2_nil_inv_l in F; congruence|]. rewrite (still_root _ _ S1) in R2.
      assert (Hlt : (size (clus_root s2) < size (clus_root s))%nat); [|lia].
      apply map_subset_size. split; [done|]. intros Hr. apply Forall2_cons_inv_l in F as (q & qs & Hq & _).
      specialize (Hgone k ltac:(by left)). apply (lookup_weaken _ _ _ _ Hq) in Hr. congruence.
    + intros [] s3 (O3 & V3 & R3). split; [done|]. split; [|done]. eapply same_view_trans; [by apply still_same_view|]. by eapply same_view_trans.
Qed.

End DioEvict.
