(* ===== verification/DioSpec.v ===== *)
(** * The cluster cache is a flat array

    Clients that take, use and put back clusters see one array of clusters, with
    ageing and eviction at any moment in between; releasing the device brings
    every byte to the disk and gives all memory back.  Then what happens when
    requests fail. *)

From Stdlib Require Import ZArith Lia.
From coqutil Require Import Byte.
From stdpp Require Import base list gmap sorting.
From S2P Require Import Prelude StMonad DioPages Dio DioInv DioOps DioEvict.
Import StMonad DioPages Dio DioInv DioOps DioEvict.
Local Open Scope Z_scope.
Local Open Scope stm_scope.

Module DioSpec.

(** ** What clients do *)

Inductive op :=
| OpRead (i off len : Z)
| OpWrite (i off : Z) (buf : list byte)
| OpSync (i : Z)
| OpAge
| OpEvict.

Section Client.
Context (sort : list (nat * Z) -> list (nat * Z)) (fuel : nat).

(** A call on a cluster between [dio_clu_get] and [dio_clu_put]; [None] for an
    error. *)
Definition with_clu {A} (i : Z) (body : nat -> M (option A)) : M (option A) :=
  let* clu := dio_clu_get i in
  match clu with
  | None => ret None
  | Some p => let* r := body p in do* dio_clu_put p in ret r
  end.

Definition run_op (o : op) : M (option (list byte)) :=
  match o with
  | OpRead i off len => with_clu i (fun p => let* r := dio_clu_read p len off in ret (match r with inr b => Some b | inl _ => None end))
  | OpWrite i off buf => with_clu i (fun p => let* e := dio_clu_write p buf off in ret (if e =? 0 then Some [] else None))
  | OpSync i => with_clu i (fun p => let* e := clu_sync p in ret (if e =? 0 then Some [] else None))
  | OpAge => do* dio_clus_age fuel in ret (Some [])
  | OpEvict => let* e := dio_clus_lru_frees sort fuel in ret (if e =? 0 then Some [] else None)
  end.

Fixpoint run_ops (os : list op) : M (list (option (list byte))) :=
  match os with
  | [] => ret []
  | o :: os => let* r := run_op o in let* rs := run_ops os in ret (r :: rs)
  end.

End Client.

(** ** The array *)

Definition spec_op (o : op) (a : Z -> list byte) : list byte * (Z -> list byte) :=
  match o with
  | OpRead i off len => (take (Z.to_nat len) (drop (Z.to_nat off) (a i)), a)
  | OpWrite i off buf => ([], fun j => if j =? i then memcpy_at (a i) (Z.to_nat off) buf else a j)
  | _ => ([], a)
  end.

Fixpoint spec_ops (os : list op) (a : Z -> list byte) : list (list byte) * (Z -> list byte) :=
  match os with
  | [] => ([], a)
  | o :: os => let (r, a) := spec_op o a in let (rs, a) := spec_ops os a in (r :: rs, a)
  end.

(** Inside the device and inside the cluster. *)
Definition op_ok (s : dio_dev) (o : op) : Prop :=
  match o with
  | OpRead i off len => idx_ok s i /\ 0 <= off /\ 0 <= len /\ off + len <= clu_size s
  | OpWrite i off buf => idx_ok s i /\ 0 <= off /\ off + Z.of_nat (length buf) <= clu_size s
  | OpSync i => idx_ok s i
  | _ => True
  end.

Definition array (s : dio_dev) (a : Z -> list byte) : Prop := forall i, idx_ok s i -> concat (view s i) = a i.

Lemma op_ok_env s s' o : env_same s s' -> op_ok s o -> op_ok s' o.
Proof. intros E. unfold op_ok, idx_ok. rewrite (env_size _ _ E). done. Qed.

Lemma array_same s s' a : same_view s s' -> array s a -> array s' a.
Proof. intros [E V] Ha i Hi. rewrite (idx_ok_env _ _ _ E) in Hi. rewrite V by done. by apply Ha. Qed.

(** The tree has room for one cluster more. *)
Lemma others_size s s' i : others s s' i -> (size (clus_root s') <= S (size (clus_root s)))%nat.
Proof.
  intros [_ _ R]. transitivity (size (delete i (clus_root s')) + 1)%nat.
  - destruct (clus_root s' !! i) as [p|] eqn:E.
    + rewrite <- (insert_delete_id _ _ _ E) at 1. rewrite map_size_insert_None by apply lookup_delete_eq. lia.
    + rewrite delete_id by done. lia.
  - assert (Hs : delete i (clus_root s') ⊆ clus_root s).
    { apply map_subseteq_spec. intros j p Hj. apply lookup_delete_Some in Hj as [Hn Hj]. by rewrite <- R. }
    apply map_subseteq_size in Hs. lia.
Qed.

Section Refine.
Context (sort : list (nat * Z) -> list (nat * Z)) (sort_perm : forall l, sort l ≡ₚ l).
Context (X : Z).

(** A body that keeps the cluster where it is. *)
Lemma spec_with_clu {A} i (body : nat -> M (option A)) s held (Q : option A -> dio_dev -> Prop) : calm s -> ok X s [] held -> idx_ok s i ->
  (forall p c s1, ok X s1 [] (p :: held) -> calm s1 -> others s s1 i -> clus_root s1 !! i = Some p -> clus s1 !! p = Some c -> index c = i ->
     c_read c = true ->
     spec (body p) s1 (fun r s2 => ok X s2 [] (p :: held) /\ clus_root s2 = clus_root s1 /\
       forall s3, ok X s3 [] held -> still s2 s3 -> Q r s3)) ->
  spec (with_clu i body) s Q.
Proof.
  intros C O Hx Hb. unfold with_clu. apply spec_bind. eapply spec_clu_get; [done|exact O|done|].
  intros p c s1 O1 S1 R1 E1 Ei Hr. apply spec_bind. eapply spec_mono; [eapply (Hb p c); try done; by eapply env_calm; [apply S1|]|].
  intros r s2 (O2 & R2 & HQ). apply spec_bind. eapply spec_put; [exact O2|apply not_in_nil|]. intros s3 O3 S3.
  apply spec_ret. by apply HQ.
Qed.

Lemma spec_run_op fuel o s held a : calm s -> ok X s [] held -> op_ok s o -> array s a -> (size (clus_root s) < fuel)%nat ->
  spec (run_op sort fuel o) s (fun r s' => r = Some (fst (spec_op o a)) /\ ok X s' [] held /\ env_same s s' /\
    array s' (snd (spec_op o a)) /\ (size (clus_root s') <= S (size (clus_root s)))%nat).
Proof.
  intros C O Ho Ha Hf. destruct o as [i off len|i off buf|i| |]; cbn [run_op spec_op fst snd].
  - destruct Ho as (Hx & H1 & H2 & H3). eapply spec_with_clu; [done|exact O|done|].
    intros p c s1 O1 C1 S1 R1 E1 Ei Hr. apply spec_bind. pose proof (oth_env _ _ _ S1) as En.
    eapply spec_clu_read; [exact O1|done|done|done|done|by rewrite (env_size _ _ En)|]. apply spec_ret.
    split; [done|]. split; [done|]. intros s3 O3 S3. pose proof (others_size _ _ _ S1) as Hsz.
    assert (V1 : view s1 i = pages c) by (unfold view; by rewrite R1, E1, Hr).
    split; [by rewrite <- V1, (oth_view _ _ _ S1), Ha|]. split; [done|]. split; [by eapply env_trans; [|apply S3]|].
    split; [|by rewrite (still_root _ _ S3)]. eapply array_same; [|exact Ha]. eapply same_view_trans; [|by apply still_same_view].
    split; [done|]. apply S1.
  - destruct Ho as (Hx & H1 & H2). eapply spec_with_clu; [done|exact O|done|].
    intros p c s1 O1 C1 S1 R1 E1 Ei Hr. apply spec_bind. pose proof (oth_env _ _ _ S1) as En.
    eapply spec_clu_write; [exact O1|done|by rewrite Ei|done|done|by rewrite (env_size _ _ En)|].
    intros s2 pgs O2 E2 R2 V2 Cp V2' _ _. apply spec_ret. split; [done|]. split; [done|]. intros s3 O3 S3.
    pose proof (others_size _ _ _ S1) as Hsz. split; [done|]. split; [done|]. split; [eapply env_trans; [exact En|]; eapply env_trans; [exact E2|apply S3]|].
    split; [|by rewrite (still_root _ _ S3), R2]. intros j Hj. rewrite (idx_ok_env s s3) in Hj by (eapply env_trans; [exact En|]; eapply env_trans; [exact E2|apply S3]).
    rewrite (still_view _ _ _ S3). rewrite Ei in *. destruct (Z.eqb_spec j i) as [->|Hn].
    + rewrite V2, Cp, (oth_view _ _ _ S1), Ha by done. done.
    + rewrite V2', (oth_view _ _ _ S1) by done. by apply Ha.
  - eapply spec_with_clu; [done|exact O|done|].
    intros p c s1 O1 C1 S1 R1 E1 Ei Hr. apply spec_bind. pose proof (oth_env _ _ _ S1) as En.
    assert (Hxc : idx_ok s1 (index c)) by (rewrite Ei; by rewrite (idx_ok_env _ _ _ En)).
    eapply (spec_sync _ s1 [] (p :: held) p c); [done|exact O1|done| |left; unfold in_tree; rewrite Ei, decide_True by done; lia|done|left; by rewrite Ei].
    intros s2 O2 Sy. apply spec_ret. split; [done|]. split; [apply Sy|]. intros s3 O3 S3. split; [done|]. split; [done|].
    pose proof (others_size _ _ _ S1) as Hsz. split; [eapply env_trans; [exact En|]; eapply env_trans; [apply Sy|apply S3]|].
    split; [|by rewrite (still_root _ _ S3), (sy_root _ _ _ _ Sy)].
    eapply array_same; [|exact Ha]. eapply (same_view_trans s s1); [split; [done|apply S1]|]. eapply (same_view_trans s1 s2); [|by apply still_same_view].
    split; [apply Sy|]. intros j Hj. eapply (synced_view ([], X)); [exact O1|exact E1|done|left; by rewrite Ei|done|done].
  - apply spec_bind. eapply (spec_clus_age X held); [exact O|done|]. intros s' O' S'. apply spec_ret.
    split; [done|]. split; [done|]. split; [apply S'|]. split; [eapply array_same; [by apply still_same_view|done]|]. rewrite (still_root _ _ S'). lia.
  - apply spec_bind. eapply spec_mono; [by apply (spec_lru_frees sort sort_perm X held fuel s)|]. intros rc s' (-> & O' & Sh). apply spec_ret.
    split; [done|]. split; [done|]. split; [apply Sh|]. split; [eapply array_same; [apply Sh|done]|]. pose proof (map_subseteq_size _ _ (sh_root _ _ Sh)). lia.
Qed.

Lemma spec_run_ops os : forall fuel s held a, calm s -> ok X s [] held -> Forall (op_ok s) os -> array s a ->
  (size (clus_root s) + length os < fuel)%nat ->
  spec (run_ops sort fuel os) s (fun rs s' => rs = map Some (fst (spec_ops os a)) /\ ok X s' [] held /\ env_same s s' /\
    array s' (snd (spec_ops os a))).
Proof.
  induction os as [|o os IH]; intros fuel s held a C O F Ha Hf; [by apply spec_ret|].
  apply Forall_cons in F as [Ho F]. cbn [length] in Hf. cbn [run_ops spec_ops]. apply spec_bind.
  eapply spec_mono; [apply (spec_run_op fuel o s held a); try done; lia|]. intros r s1 (-> & O1 & E1 & A1 & Hsz).
  destruct (spec_op o a) as [x a1]. cbn [fst snd] in *. apply spec_bind.
  eapply spec_mono; [apply (IH fuel s1 held a1); [by eapply env_calm|done| |done|lia]|].
  - eapply Forall_impl; [exact F|]. intros o'. by apply op_ok_env.
  - intros rs s2 (-> & O2 & E2 & A2). apply spec_ret. destruct (spec_ops os a1) as [ys a2]. cbn [fst snd] in *.
    split; [done|]. split; [done|]. split; [by eapply env_trans|done].
Qed.

(** (C5) The cache is transparent.  Whatever clusters clients hold, any sequence of
    reads, writes, syncs, ageings and evictions gives the results of the same
    sequence on a flat array of bytes, and ends with that array; the counts of
    references, pins, clusters and pages stay exact.  This holds for every order
    [sort] may put clusters of one age in. *)
Theorem dio_cache_refines_array os fuel s held a :
  calm s -> ok X s [] held -> Forall (op_ok s) os -> array s a -> (size (clus_root s) + length os < fuel)%nat ->
  exists s', run_ops sort fuel os s = Done (map Some (fst (spec_ops os a))) s' /\ ok X s' [] held /\
  array s' (snd (spec_ops os a)).
Proof.
  intros C O F Ha Hf. pose proof (spec_run_ops os fuel s held a C O F Ha Hf) as Sp. apply spec_done in Sp as (rs & s' & E & -> & O' & _ & A').
  by exists s'.
Qed.

(** (C40) The shrinker never ends while clients hold more clusters than the limit:
    every round finds them pinned. *)
Theorem dio_clus_shrink_diverges rounds fuel s held :
  calm s -> ok X s [] held -> (size (clus_root s) < fuel)%nat -> nr_max_clus s < Z.of_nat (length (remove_dups held)) ->
  dio_clus_shrink sort rounds fuel s = NoFuel.
Proof.
  revert s. induction rounds as [|rounds IH]; intros s C O Hf Hm; [done|]. cbn [dio_clus_shrink].
  pose proof (held_size _ _ _ _ O) as Hs. pose proof (ok_nr _ _ _ _ O) as Hn.
  unfold bind at 1, gets. unfold bind at 1. rewrite (proj2 (Z.ltb_lt (nr_max_clus s) (nr_clus s))) by lia.
  pose proof (spec_lru_frees sort sort_perm X held fuel s C O Hf) as Sp. apply spec_done in Sp as (rc & s' & E & _ & O' & Sh).
  unfold bind. rewrite E. destruct (sh_view _ _ Sh) as [En _]. apply IH; [by eapply env_calm|done| |by rewrite (env_max _ _ En)].
  pose proof (map_subseteq_size _ _ (sh_root _ _ Sh)). lia.
Qed.

End Refine.

(** ** The life of a device *)

(** A new device is empty. *)
Lemma dio_dev_create_ok size max d ioe mf jk s : dio_dev_create size max d ioe mf jk = Some s -> 4096 <= size < 2 ^ 31 ->
  (forall x, whole (d x) /\ length (d x) = Z.to_nat (Z.shiftr size PAGE_SHIFT)) -> (forall t, length (jk t) = PAGE_SIZE) ->
  ok 0 s [] [].
Proof.
  unfold dio_dev_create, DIO_CLU_MAX_PAGES. intros E Hs Hd Hj. destruct (Z.eqb_spec (Z.land size 4095) 0) as [Hl|]; [|done]. cbn [negb] in E.
  destruct (max =? 0); [done|]. destruct (Z.ltb_spec (16 * 4096) (u64 size)) as [|Hm]; [done|]. rewrite wrap_small in * by lia.
  destruct (mf 0%nat); [done|]. injection E as <-. split; try done; cbn.
  - split; [done|lia].
  - intros p [c Hc]. by rewrite lookup_empty in Hc.
  - intros p [Hp|Hp]; by apply elem_of_nil in Hp.
  - rewrite map_size_empty. lia.
Qed.

(** (C30) Releasing a device none of whose clusters is held and on which no request
    and no allocation fails ends, and leaves no cluster and no page behind: all a
    client wrote is on disk. *)
Theorem dio_dev_release_flushes X fuel s :
  calm s -> ok X s [] [] -> (size (clus_root s) < fuel)%nat ->
  exists s', dio_dev_release fuel s = Done tt s' /\ clus s' = ∅ /\ live_pages s' = X /\
  forall i, idx_ok s i -> disk s' (sector s i) = view s i.
Proof.
  intros C O Hf. assert (Sp : spec (dio_dev_release fuel) s (fun _ s' => ok X s' [] [] /\ same_view s s' /\ clus_root s' = ∅)).
  { unfold dio_dev_release. apply spec_bind. eapply (spec_clus_dump X []); [exact O|done|]. intros s1 O1 S1.
    eapply spec_mono; [apply (spec_clus_release X fuel s1); [by eapply env_calm; [apply S1|]|done|by rewrite (still_root _ _ S1)]|].
    intros [] s2 (O2 & V2 & R2). split; [done|]. split; [|done]. eapply same_view_trans; [by apply still_same_view|done]. }
  apply spec_done in Sp as ([] & s' & E & O' & [En V] & R). exists s'. split; [done|].
  assert (Ec : clus s' = ∅).
  { apply map_empty. intros p. destruct (clus s' !! p) as [c|] eqn:Ep; [|done]. destruct (ok_obj _ _ _ _ O' p c Ep) as [Hr Hl _ _ _ _ _ _].
    unfold in_tree in Hr. rewrite R, lookup_empty, decide_False in Hr by done. change (cnt [] p) with 0 in Hr. lia. }
  split; [done|]. split; [rewrite (ok_live _ _ _ _ O'), Ec, map_size_empty; cbn; lia|].
  intros i Hi. rewrite <- V by done. unfold view, sector. by rewrite R, lookup_empty, (env_size _ _ En).
Qed.

(** ** Failures *)

Definition zero_page : list byte := replicate PAGE_SIZE Init.Byte.x00.

(** A device of one-page clusters, at most one of them in memory. *)
Definition small_dev (ioe : nat -> Z * bool) : dio_dev :=
  Dev ∅ 1 ∅ 4096 0 1 1 0 (fun _ => [zero_page]) ioe 0 (fun _ => false) 1 (fun _ => zero_page).

(** A cluster whose first read fails is lost: the next taker gets the old
    error without a new read, and the one after that waits forever for a
    completion that was consumed. *)
Theorem dio_failed_read_hangs :
  match dio_clu_get 3 (small_dev (fun t => if (t =? 0)%nat then (- EIO, false) else (0, true))) with
  | Done None s1 =>
      match dio_clu_get 3 s1 with
      | Done None s2 => io_tick s2 = 1%nat /\ dio_clu_get 3 s2 = Hang
      | _ => False
      end
  | _ => False
  end.
Proof. vm_compute. split; reflexivity. Qed.

(** The device with two clusters written and put back, when all writes fail. *)
Definition two_dirty : run dio_dev (list (option (list byte))) :=
  run_ops id 5 [OpWrite 1 0 [Init.Byte.x01]; OpWrite 2 0 [Init.Byte.x02]]
    (small_dev (fun t => if (t <? 2)%nat then (0, true) else (- EIO, false))).

(** When the write-back of a dirty cluster fails, evicting it stops the
    machine: its release tries once more, and the request takes a reference on a
    cluster that has none left. *)
Theorem dio_evict_failed_sync_crashes :
  match two_dirty with
  | Done _ s => dio_clus_lru_frees id 5 s = Crash
  | _ => False
  end.
Proof. vm_compute. reflexivity. Qed.

(** ** Witnesses *)

Definition calm_dev : dio_dev := small_dev (fun _ => (0, true)).

Lemma calm_dev_ok : ok 0 calm_dev [] [].
Proof.
  eapply (dio_dev_create_ok 4096 1 (fun _ => [zero_page]) (fun _ => (0, true)) (fun _ => false) (fun _ => zero_page)); [done|done| |done].
  intros x. split; [by repeat constructor|done].
Qed.

Lemma calm_dev_calm : calm calm_dev.
Proof. done. Qed.

Lemma calm_dev_array : array calm_dev (fun _ => zero_page).
Proof. intros i _. apply app_nil_r. Qed.

Definition demo_ops : list op := [OpWrite 3 0 [Init.Byte.x07]; OpRead 3 0 2].

Lemma demo_ops_ok : Forall (op_ok calm_dev) demo_ops.
Proof. constructor; [|constructor; [|constructor]]; (split; [split; done|]); repeat split; done. Qed.

Lemma dio_cache_refines_array_witness :
  exists s', run_ops id 5 demo_ops calm_dev = Done [Some []; Some [Init.Byte.x07; Init.Byte.x00]] s' /\ ok 0 s' [] [].
Proof.
  destruct (dio_cache_refines_array id (fun l => Permutation_refl l) 0 demo_ops 5 calm_dev [] (fun _ => zero_page))
    as (s' & E & O' & _); [apply calm_dev_calm|apply calm_dev_ok|apply demo_ops_ok|apply calm_dev_array|apply Nat.ltb_lt; vm_compute; reflexivity|].
  exists s'. split; [exact E|exact O'].
Defined.

(** After a write the byte is in memory and not on the disk; releasing the device
    brings it there. *)
Definition written : @run dio_dev (list (option (list byte))) := run_ops id 5 [OpWrite 3 0 [Init.Byte.x07]] calm_dev.
Definition first_on_disk (s : dio_dev) : list byte := take 1 (concat (disk s (sector calm_dev 3))).

Lemma written_state : exists rs s, written = Done rs s /\ calm s /\ ok 0 s [] [] /\ env_same calm_dev s /\ (size (clus_root s) < 5)%nat /\
  first_on_disk s = [Init.Byte.x00] /\ take 1 (concat (view s 3)) = [Init.Byte.x07].
Proof.
  assert (F : Forall (op_ok calm_dev) [OpWrite 3 0 [Init.Byte.x07]]) by (constructor; [|constructor]; (split; [split; done|]); repeat split; done).
  pose proof (spec_run_ops id (fun l => Permutation_refl l) 0 [OpWrite 3 0 [Init.Byte.x07]] 5 calm_dev [] (fun _ => zero_page)
    calm_dev_calm calm_dev_ok F calm_dev_array ltac:(apply Nat.ltb_lt; vm_compute; reflexivity)) as Sp.
  assert (Ed : match written with Done _ s => (first_on_disk s, (size (clus_root s) <? 5)%nat) | _ => ([], false) end = ([Init.Byte.x00], true)) by (vm_compute; reflexivity).
  destruct (proj1 (spec_done _ _ _) Sp) as (rs & s & E & _ & O & En & A). change (written = Done rs s) in E. rewrite E in Ed. injection Ed as E1 E2. exists rs, s.
  split; [done|]. split; [by eapply env_calm; [exact En|apply calm_dev_calm]|]. split; [done|]. split; [done|]. split; [by apply Nat.ltb_lt|]. split; [done|].
  rewrite A by (rewrite (idx_ok_env _ _ _ En); split; done). vm_compute. reflexivity.
Qed.

Lemma dio_dev_release_flushes_witness : exists rs s s', written = Done rs s /\ first_on_disk s = [Init.Byte.x00] /\
  dio_dev_release 5 s = Done tt s' /\ clus s' = ∅ /\ first_on_disk s' = [Init.Byte.x07].
Proof.
  destruct written_state as (rs & s & E & C & O & En & Hs & Hd & Hv).
  destruct (dio_dev_release_flushes 0 5 s C O Hs) as (s' & E' & Ec & _ & D). exists rs, s, s'. split; [exact E|]. split; [exact Hd|].
  split; [exact E'|]. split; [exact Ec|]. unfold first_on_disk. rewrite <- Hv, <- (D 3) by (rewrite (idx_ok_env _ _ _ En); split; done).
  unfold sector. rewrite (env_size _ _ En). reflexivity.
Defined.

(** Two clusters held where one is the limit. *)
Lemma two_held : spec (let* _ := dio_clu_get 1 in dio_clu_get 2) calm_dev
  (fun _ s => calm s /\ (size (clus_root s) < 5)%nat /\ nr_max_clus s = 1 /\ exists p q, p <> q /\ ok 0 s [] [q; p]).
Proof.
  apply spec_bind. eapply (spec_clu_get _ calm_dev [] []); [apply calm_dev_calm|apply calm_dev_ok|split; done|].
  intros p c s1 O1 S1 R1 E1 Ei1 _. assert (C1 : calm s1) by (eapply env_calm; [apply S1|apply calm_dev_calm]).
  eapply (spec_clu_get _ s1 [] [p] 2); [done|exact O1|rewrite (idx_ok_env _ _ _ (oth_env _ _ _ S1)); split; done|].
  intros q d s2 O2 S2 R2 E2 Ei2 _. split; [by eapply env_calm; [apply S2|]|].
  pose proof (others_size _ _ _ S1) as H1. pose proof (others_size _ _ _ S2) as H2. change (size (clus_root calm_dev)) with 0%nat in H1.
  split; [lia|]. split; [by rewrite (env_max _ _ (oth_env _ _ _ S2)), (env_max _ _ (oth_env _ _ _ S1))|].
  exists p, q. split; [|done]. intros ->.
  pose proof (oth_root _ _ _ S2 1 ltac:(done)) as Hr. rewrite R1 in Hr. destruct (ok_root _ _ _ _ O2 1 q Hr) as (_ & d' & Ed & Ei). congruence.
Qed.

Lemma two_dups (p q : nat) : p <> q -> length (remove_dups [q; p]) = 2%nat.
Proof.
  intros Hn. apply (Permutation_length (l' := [q; p])). apply NoDup_Permutation; [apply NoDup_remove_dups| |intros x; apply elem_of_remove_dups].
  apply NoDup_cons. split; [|apply NoDup_singleton]. intros H%list_elem_of_singleton. by apply Hn.
Qed.

Lemma two_held_state : exists s, calm s /\ (size (clus_root s) < 5)%nat /\ nr_max_clus s = 1 /\ exists p q, p <> q /\ ok 0 s [] [q; p].
Proof.
  pose proof two_held as H. remember calm_dev as d eqn:Ed. clear Ed. apply spec_done in H as (r & s & _ & H). by exists s.
Qed.

Lemma dio_clus_shrink_diverges_witness :
  exists s, nr_max_clus s = 1 /\ forall rounds, dio_clus_shrink id rounds 5 s = NoFuel.
Proof.
  destruct two_held_state as (s & C & Hs & Hm & p & q & Hn & O). exists s. split; [exact Hm|]. intros rounds.
  apply (dio_clus_shrink_diverges id (fun l => Permutation_refl l) 0 rounds 5 s [q; p]); [exact C|exact O|exact Hs|].
  rewrite Hm, two_dups by exact Hn. reflexivity.
Defined.

End DioSpec.
