(* ===== verification/DioClient.v ===== *)
(** * The cluster cache for its clients

    What the superblock and the inodes rely on: [cache s hs a] says that the cache
    is in order and nothing fails, that the caller holds the clusters [hs]
    (pointer, index), and that the device holds the bytes [a].  Every call is a
    step on [a] and [hs]. *)

From Stdlib Require Import ZArith Lia.
From coqutil Require Import Byte.
From stdpp Require Import base list gmap.
From S2P Require Import Prelude XXHash Bytes StMonad Csum DioPages Dio DioInv DioOps DioEvict DioSpec.
Import XXHash Bytes StMonad Csum DioPages Dio DioInv DioOps DioEvict DioSpec.
Local Open Scope Z_scope.
Local Open Scope stm_scope.

Module DioClient.

(** The bytes at [dio_clu_map]: the caller reads or changes them in place. *)
Definition map_read (p : nat) (off len : Z) : M (list byte) :=
  let* ko := dio_clu_map p off in
  let* c := get p in
  do* BUG_ON (4096 <? snd ko + len) in
  ret (field (Z.to_nat (snd ko)) (Z.to_nat len) (pages c !!! fst ko)).

Definition map_write (p : nat) (off : Z) (buf : list byte) : M unit :=
  let* ko := dio_clu_map p off in
  let* c := get p in
  do* BUG_ON (4096 <? snd ko + Z.of_nat (length buf)) in
  upd p (set_pages (<[fst ko := memcpy_at (pages c !!! fst ko) (Z.to_nat (snd ko)) buf]> (pages c))).

Record cache (X : Z) (s : dio_dev) (hs : list (nat * Z)) (a : Z -> list byte) : Prop := {
  ca_calm : calm s;
  ca_ok : ok X s [] (map fst hs);
  ca_array : array s a;
  ca_there : Forall (fun pi => there s pi.2 pi.1) hs
}.

(** A write to the array. *)
Definition put_bytes (a : Z -> list byte) (i : Z) (off : Z) (buf : list byte) : Z -> list byte :=
  fun j => if j =? i then memcpy_at (a i) (Z.to_nat off) buf else a j.

Section Client.
Context (X : Z).

Lemma cache_there s hs a p i : cache X s hs a -> (p, i) ∈ hs -> there s i p.
Proof. intros C Hp. pose proof (ca_there _ _ _ _ C) as F. rewrite Forall_forall in F. by apply (F (p, i)). Qed.

(** A held cluster holds the bytes of the array. *)
Lemma cache_pages s hs a p i : cache X s hs a -> (p, i) ∈ hs -> exists c, clus s !! p = Some c /\ index c = i /\
  c_read c = true /\ clus_root s !! i = Some p /\ idx_ok s i /\ concat (pages c) = a i /\ view s i = pages c.
Proof.
  intros C Hp. destruct (cache_there _ _ _ _ _ C Hp) as (Hx & Hr & c & Ec & Ei & Hc).
  assert (V : view s i = pages c) by (unfold view; by rewrite Hr, Ec, Hc).
  exists c. repeat (split; [done|]). split; [|done]. rewrite <- V. by apply C.
Qed.

Lemma cache_len s hs a i : cache X s hs a -> idx_ok s i -> Z.of_nat (length (a i)) = clu_size s.
Proof.
  intros C Hi. rewrite <- (ca_array _ _ _ _ C i Hi). destruct (size_pages _ _ _ _ (ca_ok _ _ _ _ C)) as [-> _].
  assert (W : whole (view s i) /\ length (view s i) = npages s).
  { pose proof (ca_ok _ _ _ _ C) as O. unfold view. destruct (clus_root s !! i) as [p|]; [|apply O].
    destruct (clus s !! p) as [c|] eqn:E; [|apply O]. destruct (c_read c); [apply (ok_obj _ _ _ _ O p c E)|apply O]. }
  destruct W as [W L]. rewrite whole_length by done. unfold PAGE_SIZE. lia.
Qed.

Lemma cache_get s hs a i (Q : option nat -> dio_dev -> Prop) : cache X s hs a -> idx_ok s i ->
  (forall p s', cache X s' ((p, i) :: hs) a -> env_same s s' -> Q (Some p) s') -> spec (dio_clu_get i) s Q.
Proof.
  intros [C O A F] Hx HQ. eapply spec_clu_get; [done|exact O|done|]. intros p c s' O' [Se Sv Sr Sh] R E Ei Hr. apply HQ; [|done].
  split; [by eapply env_calm|done| |].
  - intros j Hj. rewrite (idx_ok_env _ _ _ Se) in Hj. rewrite Sv by done. by apply A.
  - constructor; [|eapply Forall_impl; [exact F|]; intros; by apply Sh].
    split; [by rewrite (idx_ok_env _ _ _ Se)|]. split; [done|]. by exists c.
Qed.

Lemma cache_put s hs a p i (Q : unit -> dio_dev -> Prop) : cache X s ((p, i) :: hs) a ->
  (forall s', cache X s' hs a -> env_same s s' -> Q tt s') -> spec (dio_clu_put p) s Q.
Proof.
  intros [C O A F] HQ. eapply spec_put; [exact O|apply not_in_nil|]. intros s' O' S'. apply Forall_cons in F as [_ F].
  apply HQ; [|apply S']. split; [by eapply env_calm; [apply S'|]|done| |].
  - eapply array_same; [by apply still_same_view|done].
  - eapply Forall_impl; [exact F|]. intros pi. by apply still_there.
Qed.

Lemma cache_perm s hs hs' a : hs ≡ₚ hs' -> cache X s hs a -> cache X s hs' a.
Proof.
  intros P [C O A F]. split; [done| |done|by rewrite <- P]. assert (Hp : map fst hs ≡ₚ map fst hs') by (by rewrite P).
  destruct O. split; try done.
  - intros p c E. destruct (ok_obj0 p c E). pose proof (cnt_perm _ _ p Hp) as Hc. split; try done; rewrite <- Hc; done.
  - intros p [Hq|Hq]; apply ok_refs0; [by left|right]. by rewrite Hp.
Qed.

(** The second cluster of two is let go. *)
Lemma cache_put2 s hs a p i x (Q : unit -> dio_dev -> Prop) : cache X s (x :: (p, i) :: hs) a ->
  (forall s', cache X s' (x :: hs) a -> env_same s s' -> Q tt s') -> spec (dio_clu_put p) s Q.
Proof. intros C. apply cache_put with i. eapply cache_perm; [|exact C]. apply perm_swap. Qed.

Lemma cache_read s hs a p i len off (Q : Z + list byte -> dio_dev -> Prop) : cache X s hs a -> (p, i) ∈ hs ->
  0 <= off -> 0 <= len -> off + len <= clu_size s ->
  Q (inr (field (Z.to_nat off) (Z.to_nat len) (a i))) s -> spec (dio_clu_read p len off) s Q.
Proof.
  intros C Hp H1 H2 H3 HQ. destruct (cache_pages _ _ _ _ _ C Hp) as (c & E & Ei & Hr & R & Hx & Ec & _).
  eapply spec_clu_read; [apply C|exact E|done..|]. by rewrite Ec.
Qed.

Lemma cache_write s hs a p i buf off (Q : Z -> dio_dev -> Prop) : cache X s hs a -> (p, i) ∈ hs ->
  0 <= off -> off + Z.of_nat (length buf) <= clu_size s ->
  (forall s', cache X s' hs (put_bytes a i off buf) -> env_same s s' -> Q 0 s') -> spec (dio_clu_write p buf off) s Q.
Proof.
  intros C Hp H1 H2 HQ. destruct (cache_pages _ _ _ _ _ C Hp) as (c & E & Ei & Hr & R & Hx & Ec & V).
  pose proof C as [Cc O A F]. eapply spec_clu_write; [exact O|exact E|by rewrite Ei|done..|].
  intros s' pgs O' E' R' V' Cp V'' _ Sh. rewrite Ei in *. apply HQ; [|done]. split; [by eapply env_calm|done| |].
  - intros j Hj. rewrite (idx_ok_env _ _ _ E') in Hj. unfold put_bytes. destruct (Z.eqb_spec j i) as [->|Hn].
    + rewrite V', Cp, V. by rewrite Ec.
    + rewrite V'' by done. by apply A.
  - eapply Forall_impl; [exact F|]. intros pi. apply Sh.
Qed.

Lemma cache_sync s hs a p i (Q : Z -> dio_dev -> Prop) : cache X s hs a -> (p, i) ∈ hs ->
  (forall s', cache X s' hs a -> env_same s s' -> Q 0 s') -> spec (clu_sync p) s Q.
Proof.
  intros C Hp HQ. destruct (cache_pages _ _ _ _ _ C Hp) as (c & E & Ei & Hr & R & Hx & Ec & V). pose proof C as [Cc O A F].
  subst i. eapply (spec_sync ([], X) s [] (map fst hs) p c); [done|exact O|done| |left; unfold in_tree; rewrite decide_True by done; lia|done|by left].
  intros s' O' Sy. apply HQ; [|apply Sy]. split; [by eapply env_calm; [apply Sy|]|done| |].
  - eapply (array_same s); [split; [apply Sy|]|done]. intros j Hj. eapply (synced_view ([], X)); [exact O|exact E|done|by left|done|done].
  - eapply Forall_impl; [exact F|]. intros [q j] (Hj & Hq & d & Ed & Ej & Hd). cbn in *.
    split; [by rewrite (idx_ok_env _ _ _ (sy_env _ _ _ _ Sy))|]. rewrite (sy_root _ _ _ _ Sy). split; [done|].
    destruct (decide (q = p)) as [->|Hn].
    + rewrite E in Ed. injection Ed as <-. destruct (sy_obj _ _ _ _ Sy) as (c' & Ec' & Ec2). injection Ec2 as E1 E2 _ _.
      exists c'. split; [done|]. split; congruence.
    + pose proof (sy_data _ _ _ _ Sy j q Hq Hn) as Hdq. rewrite Ed in Hdq. destruct (clus s' !! q) as [d'|]; [|done].
      injection Hdq as E1 E2 _ _. exists d'. split; [done|]. split; congruence.
Qed.

Lemma cache_sum s hs a p i e ctx (Q : Z -> dio_dev -> Prop) : cache X s hs a -> (p, i) ∈ hs -> length (mem64 ctx) = 32%nat ->
  Q (csum_xxh64 (a i)) s -> spec (dio_clu_sum e ctx p) s Q.
Proof.
  intros C Hp Hm HQ. destruct (cache_pages _ _ _ _ _ C Hp) as (c & E & Ei & Hr & R & Hx & Ec & _).
  pose proof (cache_len _ _ _ _ C Hx) as L. destruct (ok_size _ _ _ _ (ca_ok _ _ _ _ C)) as [_ Hs].
  unfold dio_clu_sum. apply spec_bind, (spec_get p c); [done|]. apply spec_ret. unfold dio_pages_sum.
  rewrite csum_feed_xxh64; [by rewrite Ec|done|]. rewrite Ec. lia.
Qed.

(** Places inside one page. *)
Lemma map_place s hs a p i off len : cache X s hs a -> (p, i) ∈ hs -> 0 <= off -> 0 < len -> off + len <= clu_size s ->
  off mod 4096 + len <= 4096 ->
  exists c k, clus s !! p = Some c /\ k = Z.to_nat (off / 4096) /\ (k < length (pages c))%nat /\ whole (pages c) /\
  Z.of_nat (length (pages c)) * 4096 = clu_size s /\
  (forall Q : nat * Z -> dio_dev -> Prop, Q (k, off mod 4096) s -> spec (dio_clu_map p off) s Q).
Proof.
  intros C Hp H1 H2 H3 H4. destruct (cache_pages _ _ _ _ _ C Hp) as (c & E & Ei & Hr & R & Hx & Ec & _).
  pose proof (ca_ok _ _ _ _ C) as O. destruct (size_pages _ _ _ _ O) as [Hz _].
  destruct (co_whole _ _ _ _ _ _ (ok_obj _ _ _ _ O p c E)) as [W L].
  exists c, (Z.to_nat (off / 4096)). split; [done|]. split; [done|]. split; [dlia|]. split; [done|]. split; [lia|].
  intros Q HQ. unfold dio_clu_map. apply spec_bind, spec_gets. apply spec_bind, spec_bug_on; [lia|].
  apply spec_bind, (spec_get p c); [done|]. unfold PAGE_SHIFT. rewrite Z.shiftr_div_pow2 by lia. change (2 ^ 12) with 4096.
  apply spec_bind, spec_bug_on; [dlia|]. apply spec_ret. change 4095 with (Z.ones 12). by rewrite Z.land_ones.
Qed.

Lemma page_field (pgs : list (list byte)) k o n : whole pgs -> (k < length pgs)%nat -> (o + n <= PAGE_SIZE)%nat ->
  field o n (pgs !!! k) = field (PAGE_SIZE * k + o) n (concat pgs).
Proof.
  intros W Hk Ho. unfold field. destruct (lookup_lt_is_Some_2 _ _ Hk) as [pg Ek].
  rewrite (list_lookup_total_correct _ _ _ Ek). rewrite <- (take_drop_middle _ _ _ Ek) at 1. rewrite concat_app. cbn [concat].
  assert (Lp : length pg = PAGE_SIZE) by (by eapply (Forall_lookup_1 (fun pg => length pg = PAGE_SIZE))).
  assert (Lt : length (concat (take k pgs)) = (PAGE_SIZE * k)%nat).
  { rewrite whole_length by (by apply Forall_take). rewrite length_take. lia. }
  rewrite drop_app_ge by lia. rewrite Lt. replace (PAGE_SIZE * k + o - PAGE_SIZE * k)%nat with o by lia.
  rewrite drop_app_le by lia. rewrite take_app_le; [done|]. rewrite length_drop. lia.
Qed.

Lemma page_memcpy (pgs : list (list byte)) k o buf : whole pgs -> (k < length pgs)%nat -> (o + length buf <= PAGE_SIZE)%nat ->
  concat (<[k := memcpy_at (pgs !!! k) o buf]> pgs) = memcpy_at (concat pgs) (PAGE_SIZE * k + o) buf.
Proof.
  intros W Hk Ho. destruct (lookup_lt_is_Some_2 _ _ Hk) as [pg Ek]. rewrite (list_lookup_total_correct _ _ _ Ek).
  assert (Lp : length pg = PAGE_SIZE) by (by eapply (Forall_lookup_1 (fun pg => length pg = PAGE_SIZE))).
  assert (Lt : length (concat (take k pgs)) = (PAGE_SIZE * k)%nat).
  { rewrite whole_length by (by apply Forall_take). rewrite length_take. lia. }
  rewrite insert_take_drop by done. rewrite <- (take_drop_middle _ _ _ Ek) at 3. rewrite !concat_app. cbn [concat].
  rewrite memcpy_at_app_r by lia. f_equal. rewrite Lt. replace (PAGE_SIZE * k + o - PAGE_SIZE * k)%nat with o by lia.
  rewrite memcpy_at_app_l by lia. done.
Qed.

Lemma place_bytes off : 0 <= off -> (PAGE_SIZE * Z.to_nat (off / 4096) + Z.to_nat (off mod 4096) = Z.to_nat off)%nat.
Proof. intros H. unfold PAGE_SIZE. dlia. Qed.

Lemma cache_map_read s hs a p i off len (Q : list byte -> dio_dev -> Prop) : cache X s hs a -> (p, i) ∈ hs ->
  0 <= off -> 0 < len -> off + len <= clu_size s -> off mod 4096 + len <= 4096 ->
  Q (field (Z.to_nat off) (Z.to_nat len) (a i)) s -> spec (map_read p off len) s Q.
Proof.
  intros C Hp H1 H2 H3 H4 HQ. destruct (map_place _ _ _ _ _ _ _ C Hp H1 H2 H3 H4) as (c & k & E & -> & Hk & W & _ & Hm).
  destruct (cache_pages _ _ _ _ _ C Hp) as (c' & E' & _ & _ & _ & _ & Ec & _). rewrite E in E'. injection E' as <-.
  unfold map_read. apply spec_bind, Hm. apply spec_bind, (spec_get p c); [done|]. cbn [fst snd].
  apply spec_bind, spec_bug_on; [lia|]. apply spec_ret. rewrite page_field by (done || (unfold PAGE_SIZE; dlia)).
  by rewrite place_bytes, Ec.
Qed.

(** An object of the tree becomes dirty, with new pages. *)
Lemma cache_upd s hs a p i c pgs : cache X s hs a -> (p, i) ∈ hs -> clus s !! p = Some c -> whole pgs -> length pgs = npages s ->
  cache X (with_clus (<[p := set_dirty true (set_pages pgs c)]> (clus s)) s) hs (fun j => if j =? i then concat pgs else a j).
Proof.
  intros C Hp E W L. destruct (cache_pages _ _ _ _ _ C Hp) as (c0 & E0 & Ei & Hr & R & Hx & Ec & V). rewrite E in E0. injection E0 as <-.
  pose proof C as [Cc O A F]. set (c' := set_dirty true (set_pages pgs c)). split; [done| | |].
  - eapply (ok_upd _ s [] (map fst hs)); try done. destruct (ok_obj _ _ _ _ O p c E). split; try done.
    assert (Ht : in_tree s p c' = 2) by (unfold in_tree; cbn; by rewrite Ei, decide_True). rewrite Ht. done.
  - intros j Hj. change (idx_ok s j) in Hj. destruct (Z.eqb_spec j i) as [->|Hn].
    + unfold view. cbn [with_clus clus_root clus]. rewrite R, lookup_insert_eq. cbn. by rewrite Hr.
    + rewrite (view_upd s p c); [by apply A|done|]. intros Ej. destruct (ok_root _ _ _ _ O j p Ej) as (_ & d & Ed & Edj).
      rewrite E in Ed. injection Ed as <-. congruence.
  - eapply Forall_impl; [exact F|]. intros pi. by apply (there_upd s _ p c c').
Qed.

(** A checksum put in place into one cluster, and both marked dirty. *)
Lemma cache_map_dirty s hs a p i q j off buf (Q : unit -> dio_dev -> Prop) : cache X s hs a -> (p, i) ∈ hs -> (q, j) ∈ hs -> i <> j ->
  0 <= off -> (0 < length buf)%nat -> off + Z.of_nat (length buf) <= clu_size s -> off mod 4096 + Z.of_nat (length buf) <= 4096 ->
  (forall s', cache X s' hs (put_bytes a j off buf) -> env_same s s' -> Q tt s') ->
  spec (do* map_write q off buf in do* dio_clu_set_dirty p in dio_clu_set_dirty q) s Q.
Proof.
  intros C Hp Hq Hn H1 H2 H3 H4 HQ.
  destruct (map_place _ _ _ _ _ off (Z.of_nat (length buf)) C Hq H1 ltac:(lia) H3 H4) as (d & k & Ed & -> & Hk & W & Hl & Hm).
  destruct (cache_pages _ _ _ _ _ C Hp) as (c & Ec & Ei & Hr & R & Hx & Ecp & _).
  destruct (cache_pages _ _ _ _ _ C Hq) as (d0 & Ed0 & Ej & Hrd & Rd & Hxd & Edp & _). rewrite Ed in Ed0. injection Ed0 as <-.
  assert (Hpq : p <> q) by (intros ->; rewrite Ec in Ed; injection Ed as ->; congruence).
  unfold map_write. apply spec_bind, spec_bind, Hm. apply spec_bind, (spec_get q d); [done|]. cbn [fst snd].
  apply spec_bind, spec_bug_on; [lia|]. apply (spec_upd q d); [done|].
  set (pgs := <[Z.to_nat (off / 4096) := memcpy_at (pages d !!! Z.to_nat (off / 4096)) (Z.to_nat (off mod 4096)) buf]> (pages d)).
  apply spec_bind, (spec_upd p c); [cbn [with_clus clus]; by rewrite lookup_insert_ne|].
  apply (spec_upd q (set_pages pgs d)); [cbn [with_clus clus]; by rewrite lookup_insert_ne, lookup_insert_eq|].
  assert (Wp : whole pgs).
  { apply Forall_insert; [done|]. rewrite memcpy_at_length; [|].
    - apply (Forall_lookup_1 (fun pg => length pg = PAGE_SIZE) (pages d) (Z.to_nat (off / 4096))); [done|]. by apply list_lookup_lookup_total_lt.
    - rewrite (Forall_lookup_1 (fun pg => length pg = PAGE_SIZE) (pages d) (Z.to_nat (off / 4096)) (pages d !!! Z.to_nat (off / 4096)));
        [unfold PAGE_SIZE; dlia|done|by apply list_lookup_lookup_total_lt]. }
  destruct (size_pages _ _ _ _ (ca_ok _ _ _ _ C)) as [Hz _].
  destruct (co_whole _ _ _ _ _ _ (ok_obj _ _ _ _ (ca_ok _ _ _ _ C) p c Ec)) as [Wc Lc].
  pose proof (cache_upd s hs a p i c (pages c) C Hp Ec Wc Lc) as C1. set (s1 := with_clus _ s) in C1.
  assert (Ed1 : clus s1 !! q = Some d) by (cbn; by rewrite lookup_insert_ne).
  pose proof (cache_upd s1 hs _ q j d pgs C1 Hq Ed1 Wp ltac:(change (npages s1) with (npages s); unfold pgs; rewrite length_insert; lia)) as C2.
  assert (Es : with_clus (<[q := set_dirty true (set_pages pgs d)]> (clus s1)) s1 =
    with_clus (<[q := set_dirty true (set_pages pgs d)]> (<[p := set_dirty true c]> (<[q := set_pages pgs d]> (clus s))))
      (with_clus (<[p := set_dirty true c]> (<[q := set_pages pgs d]> (clus s))) (with_clus (<[q := set_pages pgs d]> (clus s)) s))).
  { unfold s1, with_clus. cbn. f_equal. rewrite (insert_insert_ne (clus s) p q) by done. rewrite insert_insert_eq. by destruct c. }
  rewrite Es in C2. apply HQ; [|done]. destruct C2 as [Q1 Q2 Q3 Q4]. split; try done. intros x Hx'. rewrite Q3 by done. unfold put_bytes.
  destruct (Z.eqb_spec x j) as [->|]; [|destruct (Z.eqb_spec x i) as [->|]; [by rewrite Ecp|done]].
  unfold pgs. rewrite page_memcpy by (done || (unfold PAGE_SIZE; dlia)). by rewrite place_bytes, Edp.
Qed.

End Client.

(** Zeroing a cluster changes that cluster only. *)
Lemma cache_zero_pages X hs p i n : forall s a off (Q : Z -> dio_dev -> Prop), cache X s hs a -> (p, i) ∈ hs ->
  0 <= off -> off + 4096 * Z.of_nat n <= clu_size s ->
  (forall a' s', cache X s' hs a' -> (forall j, j <> i -> a' j = a j) -> env_same s s' -> Q 0 s') ->
  spec (zero_pages n p (replicate PAGE_SIZE Init.Byte.x00) off) s Q.
Proof.
  induction n as [|n IH]; intros s a off Q C Hp H1 H2 HQ; cbn [zero_pages]; [by apply spec_ret, (HQ a)|].
  assert (Hl : Z.of_nat (length (replicate PAGE_SIZE Init.Byte.x00)) = 4096) by (by rewrite length_replicate).
  apply spec_bind. eapply cache_write; [exact C|exact Hp|done|rewrite Hl; lia|]. intros s1 C1 E1. cbn [Z.eqb negb].
  destruct (ok_size _ _ _ _ (ca_ok _ _ _ _ C)) as [_ Hs]. rewrite wrap_small by lia.
  eapply IH; [exact C1|exact Hp|lia|rewrite (env_size _ _ E1); lia|]. intros a' s' C' Ha E'. apply (HQ a'); [done| |by eapply env_trans].
  intros j Hj. rewrite Ha by done. unfold put_bytes. by rewrite (proj2 (Z.eqb_neq j i)).
Qed.

Lemma cache_zero X s hs a p i (Q : Z -> dio_dev -> Prop) : cache X s hs a -> (p, i) ∈ hs ->
  (forall a' s', cache X s' hs a' -> (forall j, j <> i -> a' j = a j) -> env_same s s' -> Q 0 s') -> spec (dio_clu_zero p) s Q.
Proof.
  intros C Hp HQ. unfold dio_clu_zero. apply spec_bind. unfold crt_alloc_page. apply spec_bind, spec_mem_fails; [apply C|]. unfold spec at 1.
  set (s1 := with_live _ _). assert (C1 : cache (X + 1) s1 hs a).
  { destruct C as [C O A F]. split; [by destruct C|apply ok_page_in, ok_mem_tick; exact O|exact A|exact F]. }
  destruct (cache_pages _ _ _ _ _ _ C1 Hp) as (c & E & _). apply spec_bind, (spec_get p c); [done|]. apply spec_bind.
  destruct (size_pages _ _ _ _ (ca_ok _ _ _ _ C1)) as [Hz _].
  destruct (co_whole _ _ _ _ _ _ (ok_obj _ _ _ _ (ca_ok _ _ _ _ C1) p c E)) as [_ L]. rewrite L.
  eapply cache_zero_pages; [exact C1|exact Hp|done|lia|]. intros a' s2 C2 Ha E2. apply spec_bind, spec_modify, spec_ret.
  apply (HQ a'); [|done|by destruct E2]. destruct C2 as [C2 O2 A2 F2]. split; [by destruct C2| |exact A2|exact F2].
  by apply ok_page_out.
Qed.

End DioClient.
