(* ===== verification/NetPkt.v ===== *)
(** * Packets (src/crt/net_pkt.c, src/include/nkfs_net.h)

    The header of a packet in the byte order of the CPU, as it goes over the wire:
    two signs, type, size of the data that follow, error, a union of 324 bytes, the
    checksum of the data and the checksum of the header up to there. *)

From Stdlib Require Import ZArith Lia.
From coqutil Require Import Byte.
From stdpp Require Import base list.
From S2P Require Import Prelude XXHash Bytes Csum.
Import XXHash Bytes Csum.
Local Open Scope Z_scope.

Module NetPkt.

Definition NKFS_NET_PKT_SIGN1 : Z := 0xBEDABEDA.
Definition NKFS_NET_PKT_SIGN2 : Z := 0xCBADCBAD.
Definition NKFS_NET_PKT_MAX_DSIZE : Z := 512 * 1024.

Record nkfs_net_pkt := Pkt {
  sign1 : Z;
  type : Z;
  dsize : Z;
  err : Z;           (* an int *)
  u : list byte;     (* the union, 324 bytes *)
  dsum : Z;
  sum : Z;
  sign2 : Z
}.

Section Endian.
Context (e : XXH_endianess).

(** The packet up to [offsetof(sum)]: 348 bytes. *)
Definition pkt_prefix (p : nkfs_net_pkt) : list byte :=
  concat [store e 4 (sign1 p); store e 4 (type p); store e 4 (dsize p); store e 4 (u32 (err p)); u p; store e 8 (dsum p)].

Definition net_pkt_sum (ctx : csum_ctx) (p : nkfs_net_pkt) : Z :=
  csum_digest e (csum_update e (csum_reset ctx) (pkt_prefix p)).

Definition net_pkt_check (ctx : csum_ctx) (p : nkfs_net_pkt) : Z :=
  if negb (dsize p =? 0) && (NKFS_NET_PKT_MAX_DSIZE <? dsize p) then - EINVAL
  else if negb (sign1 p =? NKFS_NET_PKT_SIGN1) || negb (sign2 p =? NKFS_NET_PKT_SIGN2) then - EINVAL
  else if negb (sum p =? net_pkt_sum ctx p) then - EINVAL
  else 0.

Definition net_pkt_sign (ctx : csum_ctx) (p : nkfs_net_pkt) : nkfs_net_pkt :=
  let p := Pkt NKFS_NET_PKT_SIGN1 (type p) (dsize p) (err p) (u p) (dsum p) (sum p) NKFS_NET_PKT_SIGN2 in
  Pkt (sign1 p) (type p) (dsize p) (err p) (u p) (dsum p) (net_pkt_sum ctx p) (sign2 p).

Definition net_pkt_zero : nkfs_net_pkt := Pkt 0 0 0 0 (replicate 324 Init.Byte.x00) 0 0 0.

(** [None] when there is no memory. *)
Definition net_pkt_alloc (fail : bool) : option nkfs_net_pkt := if fail then None else Some net_pkt_zero.

Definition net_pkt_check_dsum (p : nkfs_net_pkt) (sum : Z) : Z := if negb (dsum p =? sum) then - EINVAL else 0.

(** The sum is XXH64 of the prefix, whatever the context held. *)
Lemma net_pkt_sum_value ctx p : length (mem64 ctx) = 32%nat -> length (u p) = 324%nat ->
  net_pkt_sum ctx p = csum_xxh64 (pkt_prefix p).
Proof.
  intros Hm Hu. unfold net_pkt_sum. pose proof (csum_feed_xxh64 e ctx [pkt_prefix p] Hm) as E.
  cbn [fold_left concat] in E. rewrite app_nil_r in E. apply E.
  unfold pkt_prefix. cbn [concat]. rewrite !length_app, !store_length, Hu. done.
Qed.

Lemma net_pkt_check_iff ctx q : length (mem64 ctx) = 32%nat -> length (u q) = 324%nat -> 0 <= dsize q ->
  net_pkt_check ctx q = 0 <-> dsize q <= NKFS_NET_PKT_MAX_DSIZE /\ sign1 q = NKFS_NET_PKT_SIGN1 /\
    sign2 q = NKFS_NET_PKT_SIGN2 /\ sum q = csum_xxh64 (pkt_prefix q).
Proof.
  intros Hm Hq Hz. unfold net_pkt_check. rewrite net_pkt_sum_value by done. unfold NKFS_NET_PKT_MAX_DSIZE, EINVAL.
  destruct (Z.eqb_spec (dsize q) 0), (Z.ltb_spec (512 * 1024) (dsize q)), (Z.eqb_spec (sign1 q) NKFS_NET_PKT_SIGN1),
    (Z.eqb_spec (sign2 q) NKFS_NET_PKT_SIGN2), (Z.eqb_spec (sum q) (csum_xxh64 (pkt_prefix q))); cbn [negb andb orb]; lia.
Qed.

Lemma net_pkt_check_signed ctx ctx' p : length (mem64 ctx) = 32%nat -> length (mem64 ctx') = 32%nat -> length (u p) = 324%nat -> 0 <= dsize p ->
  net_pkt_check ctx (net_pkt_sign ctx' p) = 0 <-> dsize p <= NKFS_NET_PKT_MAX_DSIZE.
Proof.
  intros Hm Hm' Hu Hd. rewrite net_pkt_check_iff by done. unfold net_pkt_sign. cbn [dsize sign1 sign2 sum]. rewrite net_pkt_sum_value by done.
  split; [tauto|]. intros Hs. by repeat split.
Qed.

(** [net_pkt_check] accepts exactly the packets whose signs and header sum are
    right and whose data fit the limit; so it accepts what [net_pkt_sign] signed,
    of any content, if and only if the data fit. *)
Theorem net_pkt_check_exact ctx ctx' p :
  length (mem64 ctx) = 32%nat -> length (mem64 ctx') = 32%nat -> length (u p) = 324%nat -> 0 <= dsize p ->
  (net_pkt_check ctx p = 0 <-> dsize p <= NKFS_NET_PKT_MAX_DSIZE /\ sign1 p = NKFS_NET_PKT_SIGN1 /\
     sign2 p = NKFS_NET_PKT_SIGN2 /\ sum p = csum_xxh64 (pkt_prefix p)) /\
  (net_pkt_check ctx (net_pkt_sign ctx' p) = 0 <-> dsize p <= NKFS_NET_PKT_MAX_DSIZE) /\
  (net_pkt_check ctx p = 0 \/ net_pkt_check ctx p = - EINVAL).
Proof.
  intros Hm Hm' Hu Hd. split_and!; [by apply net_pkt_check_iff|by apply net_pkt_check_signed|].
  unfold net_pkt_check. repeat case_match; auto.
Qed.

End Endian.

Lemma net_pkt_check_exact_witness :
  net_pkt_check XXH_littleEndian (State64 0 0 (XXH64_accs_init 0) (replicate 32 Init.Byte.x00) 0)
    (net_pkt_sign XXH_littleEndian (State64 0 0 (XXH64_accs_init 0) (replicate 32 Init.Byte.x01) 0) net_pkt_zero) = 0.
Proof. apply net_pkt_check_exact; done. Defined.

End NetPkt.
