(* ===== verification/Upages.v ===== *)
(** * Page arrays for requests (src/core/upages.c)

    The region of pages a user buffer spans, the arrays of pages a request's data
    go through, and the checksum over them. *)

From Stdlib Require Import ZArith Lia.
From coqutil Require Import Byte.
From stdpp Require Import base list.
From S2P Require Import Prelude XXHash Bytes StMonad Csum.
Import XXHash StMonad Csum.
Local Open Scope Z_scope.
Local Open Scope stm_scope.

Module Upages.

(** Memory: pages and page arrays in use, which allocations fail, what a fresh
    page holds; and how many pages [get_user_pages] hands out. *)
Record mem := Mem {
  live_pages : Z;
  live_arrays : Z;
  fail : nat -> bool;
  tick : nat;
  junk : nat -> list byte;
  get_user_pages : Z -> Z -> Z
}.

Abbreviation M := (StMonad.M mem).

Definition with_live (p a : Z) (s : mem) : mem := Mem p a (fail s) (tick s) (junk s) (get_user_pages s).
Definition with_tick (t : nat) (s : mem) : mem := Mem (live_pages s) (live_arrays s) (fail s) t (junk s) (get_user_pages s).

Definition fails : M bool := fun s => Done (fail s (tick s)) (with_tick (S (tick s)) s).

Definition crt_alloc_page : M (option (list byte)) :=
  let* f := fails in
  if (f : bool) then ret None
  else fun s => Done (Some (junk s (tick s))) (with_live (live_pages s + 1) (live_arrays s) s).

Definition crt_free_page : M unit := modify (fun s => with_live (live_pages s - 1) (live_arrays s) s).
Definition crt_kcalloc : M bool :=
  let* f := fails in
  if (f : bool) then ret false else do* modify (fun s => with_live (live_pages s) (live_arrays s + 1) s) in ret true.
Definition crt_kfree : M unit := modify (fun s => with_live (live_pages s) (live_arrays s - 1) s).

Fixpoint free_pages (n : nat) : M unit :=
  match n with
  | O => ret tt
  | S n => do* crt_free_page in free_pages n
  end.

(** ** User pages *)

(** [nr_pages] pages are pinned; giving one back is [crt_free_page]. *)
Record nkfs_user_pages := User { u_nr_pages : Z; u_write : bool }.

Definition nkfs_release_user_pages (up : nkfs_user_pages) : M unit :=
  do* free_pages (Z.to_nat (u_nr_pages up)) in crt_kfree.

Definition nkfs_get_user_pages (uaddr nr_pages : Z) (write : bool) : M (Z + nkfs_user_pages) :=
  if negb (Z.land uaddr 4095 =? 0) then ret (inl (- EINVAL))
  else if nr_pages =? 0 then ret (inl (- EINVAL))
  else
    let* ok := crt_kcalloc in
    if negb ok then ret (inl (- ENOMEM))
    else
      let* got := gets (fun s => get_user_pages s uaddr nr_pages) in
      do* modify (fun s => with_live (live_pages s + Z.max 0 got) (live_arrays s) s) in
      if negb (u32 got =? nr_pages) then
        let up := User (if 0 <=? got then got else 0) write in
        do* nkfs_release_user_pages up in
        ret (inl (- EINVAL))
      else ret (inr (User nr_pages write)).

(** ** Regions *)

Record region := Region { pg_addr : Z; pg_off : Z; nr_pages : Z }.

(** [unsigned long] is 64 bits wide. *)
Definition nkfs_pages_region (buf len : Z) : region :=
  let buf_page := Z.shiftr buf 12 in
  let end_page := Z.shiftr (u64 (buf + len)) 12 in
  let pages_delta := u64 (end_page - buf_page) in
  let pages_delta := u64 (pages_delta + (if Z.land (u64 (buf + len)) 4095 =? 0 then 0 else 1)) in
  Region (Z.land buf (Z.lnot 4095)) (u32 (Z.land buf 4095)) (u32 pages_delta).

(** ** Page arrays *)

Record nkfs_pages := NkPages { pages : list (list byte); len : Z }.

Fixpoint create_loop (n : nat) (got : list (list byte)) : M (Z + list (list byte)) :=
  match n with
  | O => ret (inr got)
  | S n =>
      let* pg := crt_alloc_page in
      match pg with
      | Some pg => create_loop n (got ++ [pg])
      | None => do* free_pages (length got) in do* crt_kfree in ret (inl (- ENOMEM))
      end
  end.

Definition pages_nr (len : Z) : Z := u32 (Z.shiftr len 12 + (if Z.land len 4095 =? 0 then 0 else 1)).

Definition nkfs_pages_create (len : Z) : M (Z + nkfs_pages) :=
  if len =? 0 then ret (inl (- EINVAL))
  else
    let* ok := crt_kcalloc in
    if negb ok then ret (inl (- ENOMEM))
    else
      let* r := create_loop (Z.to_nat (pages_nr len)) [] in
      match r with
      | inl e => ret (inl e)
      | inr pgs => ret (inr (NkPages pgs len))
      end.

Definition nkfs_pages_release (p : nkfs_pages) : M unit :=
  do* free_pages (length (pages p)) in crt_kfree.

(** The pages from [i] on; none left while [len > 0] is the [NKFS_BUG_ON]. *)
Fixpoint dsum_loop (e : XXH_endianess) (pgs : list (list byte)) (len : Z) (ctx : csum_ctx) : outcome csum_ctx :=
  if len <=? 0 then Ret ctx
  else match pgs with
  | [] => Bug
  | pg :: pgs =>
      let ilen := if 4096 <? len then 4096 else len in
      dsum_loop e pgs (len - ilen) (csum_update e ctx (take (Z.to_nat ilen) pg))
  end.

Definition nkfs_pages_dsum (e : XXH_endianess) (ctx : csum_ctx) (p : nkfs_pages) (l : Z) : outcome (Z + Z) :=
  if len p <? l then Ret (inl (- EINVAL))
  else obind (dsum_loop e (pages p) l (csum_reset ctx)) (fun ctx => Ret (inr (csum_digest e ctx))).

(** ** Correctness *)

Lemma land_4095 x : 0 <= x -> Z.land x 4095 = x mod 4096.
Proof. intros _. change 4095 with (Z.ones 12). by rewrite Z.land_ones. Qed.

Lemma shiftr_12 x : Z.shiftr x 12 = x / 4096.
Proof. by rewrite Z.shiftr_div_pow2. Qed.

Lemma pages_nr_spec l : 0 <= l < 2 ^ 32 -> pages_nr l = (l + 4095) / 4096.
Proof.
  intros Hl. unfold pages_nr. rewrite land_4095, shiftr_12 by lia.
  destruct (Z.eqb_spec (l mod 4096) 0); rewrite wrap_small; dlia.
Qed.

Lemma spec_upages_free n s (Q : unit -> mem -> Prop) : Q tt (with_live (live_pages s - Z.of_nat n) (live_arrays s) s) ->
  spec (free_pages n) s Q.
Proof.
  revert s. induction n as [|n IH]; intros s HQ; cbn [free_pages].
  - apply spec_ret. rewrite Z.sub_0_r in HQ. by destruct s.
  - apply spec_bind, spec_modify. apply IH. cbn. replace (live_pages s - 1 - Z.of_nat n) with (live_pages s - Z.of_nat (S n)) by lia. exact HQ.
Qed.

Lemma spec_create_loop n : forall got s (Q : Z + list (list byte) -> mem -> Prop),
  (forall t, length (junk s t) = 4096%nat) -> Forall (fun pg => length pg = 4096%nat) got ->
  (forall pgs t, length pgs = (length got + n)%nat -> Forall (fun pg => length pg = 4096%nat) pgs ->
     Q (inr pgs) (with_tick t (with_live (live_pages s + Z.of_nat n) (live_arrays s) s))) ->
  (forall t, (exists k, fail s k = true) -> Q (inl (- ENOMEM)) (with_tick t (with_live (live_pages s - Z.of_nat (length got)) (live_arrays s - 1) s))) ->
  spec (create_loop n got) s Q.
Proof.
  induction n as [|n IH]; intros got s Q J W HQ HF; cbn [create_loop].
  - apply spec_ret. specialize (HQ got (tick s) ltac:(lia) W). rewrite Z.add_0_r in HQ. by destruct s.
  - apply spec_bind. unfold crt_alloc_page. apply spec_bind. unfold spec at 1, fails. destruct (fail s (tick s)) eqn:Ef.
    + apply spec_ret. apply spec_bind, spec_upages_free. apply spec_bind, spec_modify. apply spec_ret. apply (HF (S (tick s))). by exists (tick s).
    + unfold spec at 1. apply IH; [done| | |].
      * apply Forall_app. split; [done|]. constructor; [apply J|done].
      * intros pgs t Lp Wp. rewrite length_app in Lp. cbn [length] in Lp. specialize (HQ pgs t ltac:(lia) Wp).
        replace (live_pages s + Z.of_nat (S n)) with (live_pages s + 1 + Z.of_nat n) in HQ by lia. exact HQ.
      * intros t Hk. specialize (HF t Hk). rewrite length_app. cbn [length].
        replace (live_pages s - Z.of_nat (length got)) with (live_pages s + 1 - Z.of_nat (length got + 1)) in HF by lia. exact HF.
Qed.

Lemma dsum_loop_ok e pgs : forall l ctx, Forall (fun pg => length pg = 4096%nat) pgs -> 0 <= l <= 4096 * Z.of_nat (length pgs) ->
  exists ds, dsum_loop e pgs l ctx = Ret (fold_left (csum_update e) ds ctx) /\ concat ds = take (Z.to_nat l) (concat pgs).
Proof.
  induction pgs as [|pg pgs IH]; intros l ctx W Hl; cbn [dsum_loop].
  - cbn in Hl. rewrite (proj2 (Z.leb_le l 0)) by lia. exists []. split; [done|]. cbn [concat]. by rewrite take_nil.
  - apply Forall_cons in W as [Hp W]. cbn [length] in Hl. destruct (Z.leb_spec l 0) as [H0|H0].
    { exists []. split; [done|]. by replace (Z.to_nat l) with 0%nat by lia. }
    cbn [concat]. destruct (Z.ltb_spec 4096 l) as [Hb|Hb].
    + destruct (IH (l - 4096) (csum_update e ctx (take (Z.to_nat 4096) pg)) W ltac:(lia)) as (ds & E & Ed).
      exists (take (Z.to_nat 4096) pg :: ds). split; [exact E|]. cbn [concat]. rewrite Ed, (take_ge pg) by lia.
      rewrite take_app_ge by lia. f_equal. f_equal. lia.
    + destruct (IH (l - l) (csum_update e ctx (take (Z.to_nat l) pg)) W ltac:(lia)) as (ds & E & Ed).
      exists (take (Z.to_nat l) pg :: ds). split; [exact E|]. cbn [concat]. rewrite Ed, Z.sub_diag. cbn [Z.to_nat]. rewrite take_0, app_nil_r.
      by rewrite take_app_le by lia.
Qed.

Lemma spec_pages_create l s (Q : Z + nkfs_pages -> mem -> Prop) : 0 < l < 2 ^ 32 -> (forall t, length (junk s t) = 4096%nat) -> (forall t, fail s t = false) ->
  (forall pgs t, Z.of_nat (length pgs) = (l + 4095) / 4096 -> Forall (fun pg => length pg = 4096%nat) pgs ->
     Q (inr (NkPages pgs l)) (with_tick t (with_live (live_pages s + Z.of_nat (length pgs)) (live_arrays s + 1) s))) ->
  spec (nkfs_pages_create l) s Q.
Proof.
  intros Hl J Hf HQ. pose proof (pages_nr_spec l ltac:(lia)) as Hn. assert (Hpos : 0 <= (l + 4095) / 4096) by dlia.
  unfold nkfs_pages_create. rewrite (proj2 (Z.eqb_neq l 0)) by lia. apply spec_bind. unfold crt_kcalloc. apply spec_bind. unfold spec at 1, fails. rewrite Hf.
  apply spec_bind, spec_modify, spec_ret. cbn [negb]. apply spec_bind. apply spec_create_loop; [done|done| |].
  - intros pgs t Lp W. apply spec_ret. cbn [length Nat.add] in Lp. rewrite Hn in Lp. specialize (HQ pgs t ltac:(lia) W). rewrite Hn, <- Lp. exact HQ.
  - intros t [k Hk]. cbn in Hk. by rewrite Hf in Hk.
Qed.

Lemma spec_pages_release p s (Q : unit -> mem -> Prop) :
  Q tt (with_live (live_pages s - Z.of_nat (length (pages p))) (live_arrays s - 1) s) -> spec (nkfs_pages_release p) s Q.
Proof. intros HQ. apply spec_bind, spec_upages_free, spec_modify. exact HQ. Qed.

Lemma pages_dsum_value e ctx p k : length (mem64 ctx) = 32%nat -> Forall (fun pg => length pg = 4096%nat) (pages p) ->
  0 <= k <= len p -> k <= 4096 * Z.of_nat (length (pages p)) -> k < 2 ^ 32 ->
  nkfs_pages_dsum e ctx p k = Ret (inr (csum_xxh64 (take (Z.to_nat k) (concat (pages p))))).
Proof.
  intros Hm W Hk Hk' Hb. unfold nkfs_pages_dsum. rewrite (proj2 (Z.ltb_ge _ k)) by lia.
  destruct (dsum_loop_ok e (pages p) k (csum_reset ctx) W ltac:(lia)) as (ds & E & Ed). rewrite E. cbn [obind].
  do 2 f_equal. rewrite csum_feed_xxh64; [by rewrite Ed|done|]. rewrite Ed, length_take. lia.
Qed.

(** A page array of any length: creating it takes exactly the pages its bytes
    need, or gives everything back; releasing it gives back what it took; and
    [nkfs_pages_dsum] over a prefix that fits is the XXH64 of those bytes. *)
Theorem nkfs_pages_life e ctx l s :
  0 < l < 2 ^ 32 -> (forall t, length (junk s t) = 4096%nat) -> length (mem64 ctx) = 32%nat ->
  match nkfs_pages_create l s with
  | Done (inr p) s' =>
      live_pages s' = live_pages s + (l + 4095) / 4096 /\ Z.of_nat (length (pages p)) = (l + 4095) / 4096 /\
      (exists s'', nkfs_pages_release p s' = Done tt s'' /\ live_pages s'' = live_pages s /\ live_arrays s'' = live_arrays s) /\
      (forall k, 0 <= k <= l -> nkfs_pages_dsum e ctx p k = Ret (inr (csum_xxh64 (take (Z.to_nat k) (concat (pages p))))))
  | Done (inl rc) s' => rc = - ENOMEM /\ live_pages s' = live_pages s /\ live_arrays s' = live_arrays s /\ exists t, fail s t = true
  | _ => False
  end.
Proof.
  intros Hl J Hm. pose proof (pages_nr_spec l ltac:(lia)) as Hn. assert (Hpos : 0 <= (l + 4095) / 4096) by dlia.
  change (spec (nkfs_pages_create l) s (fun r s' => match r with
    | inr p => live_pages s' = live_pages s + (l + 4095) / 4096 /\ Z.of_nat (length (pages p)) = (l + 4095) / 4096 /\
      (exists s'', nkfs_pages_release p s' = Done tt s'' /\ live_pages s'' = live_pages s /\ live_arrays s'' = live_arrays s) /\
      (forall k, 0 <= k <= l -> nkfs_pages_dsum e ctx p k = Ret (inr (csum_xxh64 (take (Z.to_nat k) (concat (pages p))))))
    | inl rc => rc = - ENOMEM /\ live_pages s' = live_pages s /\ live_arrays s' = live_arrays s /\ exists t, fail s t = true
    end)).
  unfold nkfs_pages_create. rewrite (proj2 (Z.eqb_neq l 0)) by lia. apply spec_bind. unfold crt_kcalloc. apply spec_bind. unfold spec at 1, fails.
  destruct (fail s (tick s)) eqn:Ef.
  { apply spec_ret. cbn [negb]. apply spec_ret. split; [done|]. split; [done|]. split; [done|]. by exists (tick s). }
  apply spec_bind, spec_modify, spec_ret. cbn [negb]. apply spec_bind. apply spec_create_loop; [done|done| |].
  - intros pgs t Lp W. apply spec_ret. cbn [length Nat.add] in Lp. cbn [pages]. rewrite Hn in Lp.
    assert (Hp : Z.of_nat (length pgs) = (l + 4095) / 4096) by lia. cbn. rewrite Hn. split; [lia|]. split; [done|]. split.
    + assert (R : spec (nkfs_pages_release (NkPages pgs l)) (with_tick t (with_live (live_pages s + Z.of_nat (Z.to_nat (pages_nr l))) (live_arrays s + 1) s))
        (fun _ s'' => live_pages s'' = live_pages s /\ live_arrays s'' = live_arrays s)).
      { unfold nkfs_pages_release. apply spec_bind, spec_upages_free, spec_modify. cbn. rewrite Hn. split; lia. }
      apply spec_done in R as ([] & s'' & E & H1 & H2). exists s''. rewrite Hn in E. split; [exact E|done].
    + intros k Hk. unfold nkfs_pages_dsum. cbn [len pages]. rewrite (proj2 (Z.ltb_ge l k)) by lia.
      destruct (dsum_loop_ok e pgs k (csum_reset ctx) W ltac:(dlia)) as (ds & E & Ed). rewrite E. cbn [obind].
      do 2 f_equal. rewrite csum_feed_xxh64; [by rewrite Ed|done|]. rewrite Ed, length_take. lia.
  - intros t Hk. apply spec_ret. cbn. split; [done|]. split; [lia|]. split; [lia|done].
Qed.

(** [nkfs_pages_region] spans the buffer: the pages from [pg_addr] on hold the
    bytes from [pg_off], and one page less would not. *)
Lemma pages_region_covers buf l : 0 <= buf -> 0 < l < 2 ^ 32 -> buf + l < 2 ^ 64 ->
  let r := nkfs_pages_region buf l in
  pg_addr r + pg_off r = buf /\ 0 <= pg_off r < 4096 /\
  pg_off r + l <= nr_pages r * 4096 /\ (nr_pages r - 1) * 4096 < pg_off r + l.
Proof.
  intros Hb Hl Hs. unfold nkfs_pages_region. cbn [pg_addr pg_off nr_pages].
  rewrite (wrap_small 64 (buf + l)) by lia. rewrite !shiftr_12, !land_4095 by lia.
  assert (Ha : Z.land buf (Z.lnot 4095) = buf - buf mod 4096).
  { rewrite <- Z.ldiff_land. change 4095 with (Z.ones 12). rewrite Z.ldiff_ones_r, Z.shiftl_mul_pow2, shiftr_12 by lia. dlia. }
  rewrite Ha. assert (Hd : 0 <= (buf + l) / 4096 - buf / 4096 <= 2 ^ 20) by dlia.
  rewrite (wrap_small 64 ((buf + l) / 4096 - buf / 4096)) by lia.
  rewrite (wrap_small 32 (buf mod 4096)) by dlia.
  destruct (Z.eqb_spec ((buf + l) mod 4096) 0); rewrite !wrap_small by (rewrite ?wrap_small; lia); dlia.
Qed.

Definition demo_mem : mem := Mem 0 0 (fun _ => false) 0 (fun _ => replicate 4096 Init.Byte.x00) (fun _ n => n).

Lemma nkfs_pages_life_witness :
  exists p s', nkfs_pages_create 5000 demo_mem = Done (inr p) s' /\ live_pages s' = 2.
Proof.
  pose proof (nkfs_pages_life XXH_littleEndian (State64 0 0 (XXH64_accs_init 0) (replicate 32 Init.Byte.x00) 0) 5000 demo_mem
    ltac:(lia) ltac:(done) ltac:(done)) as H.
  destruct (nkfs_pages_create 5000 demo_mem) as [[rc|p] s1| | |] eqn:E; [| |exfalso; exact H|exfalso; exact H|exfalso; exact H].
  - destruct H as (_ & _ & _ & t & Ht). done.
  - exists p, s1. split; [reflexivity|]. apply H.
Defined.

End Upages.
