(* ===== verification/Sock.v ===== *)
(** * Reading and writing whole buffers on a socket (src/core/ksocket.c)

    The kernel hands out what has arrived in pieces of its choice and takes what
    is sent in pieces of its choice; [ksock_read] and [ksock_write] loop until
    the whole buffer is done.  A socket is what arrived and was not read, what was
    sent, and how the kernel behaves: the size of the pieces, the time a call
    takes, the errors of setting a timeout, of sending, and what follows the
    arrived bytes.  Nothing following them means that the reader waits. *)

From Stdlib Require Import ZArith Lia.
From coqutil Require Import Byte.
From stdpp Require Import base list.
From S2P Require Import Prelude XXHash Bytes StMonad Csum.
Import XXHash Bytes StMonad Csum.
Local Open Scope Z_scope.
Local Open Scope stm_scope.

Module Sock.

Definition ETIMEDOUT : Z := 110.
Definition ECONNRESET : Z := 104.
Definition ECONNABORTED : Z := 103.
Definition U64_MAX : Z := 2 ^ 64 - 1.

Record socket := MkSocket {
  rx : list byte;
  rx_end : option Z;           (* 0: closed by the peer; negative: an error *)
  tx : list byte;
  tx_err : nat -> option Z;    (* not positive: sending fails *)
  opt_err : nat -> Z;
  piece : nat -> nat;
  jiffies : nat -> Z;
  sk : nat                     (* calls into the kernel so far *)
}.

Abbreviation M := (StMonad.M socket).

Definition set_rx (l : list byte) (s : socket) : socket :=
  MkSocket l (rx_end s) (tx s) (tx_err s) (opt_err s) (piece s) (jiffies s) (sk s).
Definition set_tx (l : list byte) (s : socket) : socket :=
  MkSocket (rx s) (rx_end s) l (tx_err s) (opt_err s) (piece s) (jiffies s) (sk s).
Definition set_sk (n : nat) (s : socket) : socket :=
  MkSocket (rx s) (rx_end s) (tx s) (tx_err s) (opt_err s) (piece s) (jiffies s) n.

Definition kcall {A} (f : nat -> socket -> A) : M A := fun s => Done (f (sk s) s) (set_sk (S (sk s)) s).

(** [sock_setsockopt] with a timeout. *)
Definition sock_setsockopt : M Z := kcall (fun t s => opt_err s t).

(** The result of [sock_recvmsg] and the bytes. *)
Definition sock_recvmsg (nob : Z) : M (Z * list byte) :=
  let* n := kcall (fun t s => Nat.min (Z.to_nat nob) (S (piece s t))) in
  let* avail := gets rx in
  match avail with
  | [] => let* e := gets rx_end in match e with None => hang | Some e => ret (e, []) end
  | _ =>
      let got := take n avail in
      do* modify (set_rx (drop n avail)) in
      ret (Z.of_nat (length got), got)
  end.

Definition sock_sendmsg (buf : list byte) : M Z :=
  let* r := kcall (fun t s => (tx_err s t, S (piece s t))) in
  match fst r with
  | Some e => ret e
  | None =>
      let out := take (snd r) buf in
      do* modify (fun s => set_tx (tx s ++ out) s) in
      ret (Z.of_nat (length out))
  end.

(** What is left of [ticks] after a call. *)
Definition spend (ticks : Z) : M Z :=
  let* delta := kcall (fun t s => u64 (jiffies s t)) in
  let delta := if ticks <? delta then ticks else delta in
  ret (ticks - delta).

(** The error and the bytes read.  Every turn reads one byte at least: [fuel] is
    their number. *)
Fixpoint read_loop (fuel : nat) (nob ticks : Z) (got : list byte) : M (Z * list byte) :=
  match fuel with
  | O => no_fuel
  | S fuel =>
      let* err := sock_setsockopt in
      if negb (err =? 0) then ret (err, got)
      else
        let* r := sock_recvmsg nob in
        let* ticks := spend ticks in
        if fst r <? 0 then ret (fst r, got)
        else if fst r =? 0 then ret (- ECONNRESET, got)
        else
          do* BUG_ON (nob <? fst r) in
          let got := got ++ snd r in
          if nob - fst r =? 0 then ret (0, got)
          else if ticks =? 0 then ret (- ETIMEDOUT, got)
          else read_loop fuel (nob - fst r) ticks got
  end.

Definition ksock_read_timeout (nob ticks : Z) : M (Z * list byte) :=
  do* BUG_ON (nob <=? 0) in
  read_loop (Z.to_nat nob) nob ticks [].

Fixpoint read_all (fuel : nat) (nob : Z) (got : list byte) : M (Z * list byte) :=
  if Z.of_nat (length got) <? nob then
    match fuel with
    | O => no_fuel
    | S fuel =>
        let* r := ksock_read_timeout (nob - Z.of_nat (length got)) U64_MAX in
        if negb (fst r =? 0) then ret (fst r, got ++ snd r) else read_all fuel nob (got ++ snd r)
    end
  else ret (0, got).

Definition ksock_read (nob : Z) : M (Z * list byte) := read_all 1 nob [].

(** The error and how many bytes went out. *)
Fixpoint write_loop (fuel : nat) (buf : list byte) (ticks wrote : Z) : M (Z * Z) :=
  match fuel with
  | O => no_fuel
  | S fuel =>
      let* err := sock_setsockopt in
      if negb (err =? 0) then ret (err, wrote)
      else
        let* r := sock_sendmsg buf in
        let* ticks := spend ticks in
        if r <? 0 then ret (r, wrote)
        else if r =? 0 then ret (- ECONNABORTED, wrote)
        else
          do* BUG_ON (Z.of_nat (length buf) <? r) in
          let buf := drop (Z.to_nat r) buf in
          if Z.of_nat (length buf) =? 0 then ret (0, wrote + r)
          else if ticks =? 0 then ret (- EAGAIN, wrote + r)
          else write_loop fuel buf ticks (wrote + r)
  end.

Definition ksock_write_timeout (buf : list byte) (ticks : Z) : M (Z * Z) :=
  do* BUG_ON (Z.of_nat (length buf) <=? 0) in
  write_loop (length buf) buf ticks 0.

Fixpoint write_all (fuel : nat) (buf : list byte) (off : Z) : M (Z * Z) :=
  if off <? Z.of_nat (length buf) then
    match fuel with
    | O => no_fuel
    | S fuel =>
        let* r := ksock_write_timeout (drop (Z.to_nat off) buf) U64_MAX in
        if negb (fst r =? 0) then ret (fst r, off + snd r) else write_all fuel buf (off + snd r)
    end
  else ret (0, off).

Definition ksock_write (buf : list byte) : M (Z * Z) := write_all 1 buf 0.

(** ** Pieces do not matter *)

(** The kernel takes less than [2 ^ 32] ticks for a call and timeouts can be set. *)
Record calm (s : socket) : Prop := {
  c_opt : forall t, opt_err s t = 0;
  c_time : forall t, 0 <= jiffies s t < 2 ^ 32
}.

Lemma sock_calm_same s s' : opt_err s' = opt_err s -> jiffies s' = jiffies s -> calm s -> calm s'.
Proof. intros E1 E2 []. split; [by rewrite E1|by rewrite E2]. Qed.

Lemma spec_kcall {A} (f : nat -> socket -> A) s (Q : A -> socket -> Prop) : Q (f (sk s) s) (set_sk (S (sk s)) s) -> spec (kcall f) s Q.
Proof. done. Qed.

Lemma spec_spend ticks s (Q : Z -> socket -> Prop) : calm s -> 0 <= ticks ->
  (forall t k, ticks - 2 ^ 32 < t -> 0 <= t <= ticks -> Q t (set_sk k s)) -> spec (spend ticks) s Q.
Proof.
  intros [_ Ht] H0 HQ. apply spec_bind, spec_kcall, spec_ret. specialize (Ht (sk s)). rewrite (wrap_small 64) by lia.
  destruct (Z.ltb_spec ticks (jiffies s (sk s))); apply HQ; lia.
Qed.

Lemma spec_sock_read_loop fuel : forall nob ticks got s (Q : Z * list byte -> socket -> Prop), calm s -> 0 < nob <= Z.of_nat (length (rx s)) -> (Z.to_nat nob <= fuel)%nat ->
  nob * 2 ^ 32 <= ticks ->
  (forall k, Q (0, got ++ take (Z.to_nat nob) (rx s)) (set_sk k (set_rx (drop (Z.to_nat nob) (rx s)) s))) -> spec (read_loop fuel nob ticks got) s Q.
Proof.
  induction fuel as [|fuel IH]; intros nob ticks got s Q Hc Hn Hf Ht HQ; [lia|]. cbn [read_loop].
  apply spec_bind, spec_kcall. rewrite (c_opt _ Hc). cbn [Z.eqb negb]. apply spec_bind, spec_bind, spec_kcall. set (s1 := set_sk _ (set_sk _ s)).
  set (n := Nat.min _ _). assert (Hnn : (0 < n <= Z.to_nat nob)%nat) by (unfold n; lia). apply spec_bind, spec_gets.
  change (rx s1) with (rx s). destruct (rx s) as [|b l] eqn:El; [cbn in Hn; lia|]. rewrite <- El in *.
  assert (Hlen : length (take n (rx s)) = n) by (rewrite length_take; lia).
  apply spec_bind, spec_modify, spec_ret, spec_bind. cbn [fst snd]. rewrite Hlen. apply spec_spend; [by apply (sock_calm_same s)|lia|]. intros ticks' k Ht1 Ht2.
  rewrite (proj2 (Z.ltb_ge _ _)), (proj2 (Z.eqb_neq _ _)) by lia. apply spec_bind, spec_bug_on; [lia|].
  destruct (Z.eqb_spec (nob - Z.of_nat n) 0) as [E|E].
  { apply spec_ret. replace n with (Z.to_nat nob) in * by lia. apply HQ. }
  rewrite (proj2 (Z.eqb_neq ticks' 0)) by nia. set (s2 := set_sk k _).
  apply IH; [by apply (sock_calm_same s)|cbn; rewrite length_drop; lia|lia|nia|]. intros k'. cbn [rx s2 set_sk set_rx].
  specialize (HQ k'). rewrite <- app_assoc.
  rewrite (take_take_drop (rx s) n), drop_drop. replace (n + Z.to_nat (nob - Z.of_nat n))%nat with (Z.to_nat nob) by lia. exact HQ.
Qed.

Lemma spec_ksock_read nob s (Q : Z * list byte -> socket -> Prop) : calm s -> 0 <= nob < 2 ^ 32 -> nob <= Z.of_nat (length (rx s)) ->
  (forall k, Q (0, take (Z.to_nat nob) (rx s)) (set_sk k (set_rx (drop (Z.to_nat nob) (rx s)) s))) -> spec (ksock_read nob) s Q.
Proof.
  intros Hc Hn Hl HQ. unfold ksock_read. cbn [read_all length]. change (Z.of_nat 0) with 0. destruct (Z.ltb_spec 0 nob).
  - rewrite Z.sub_0_r. apply spec_bind, spec_bind, spec_bug_on; [lia|]. apply spec_sock_read_loop; [done|lia|lia|unfold U64_MAX; nia|]. intros k. cbn [fst snd app Z.eqb negb].
    rewrite length_take, (proj2 (Z.ltb_ge _ _)) by lia. apply spec_ret, HQ.
  - replace nob with 0 in * by lia. apply spec_ret. specialize (HQ (sk s)). by destruct s.
Qed.

Lemma spec_sock_write_loop fuel : forall buf ticks wrote s (Q : Z * Z -> socket -> Prop), calm s -> (forall t, tx_err s t = None) -> (0 < length buf <= fuel)%nat ->
  Z.of_nat (length buf) * 2 ^ 32 <= ticks ->
  (forall k, Q (0, wrote + Z.of_nat (length buf)) (set_sk k (set_tx (tx s ++ buf) s))) -> spec (write_loop fuel buf ticks wrote) s Q.
Proof.
  induction fuel as [|fuel IH]; intros buf ticks wrote s Q Hc Hx Hf Ht HQ; [lia|]. cbn [write_loop].
  apply spec_bind, spec_kcall. rewrite (c_opt _ Hc). cbn [Z.eqb negb]. apply spec_bind, spec_bind, spec_kcall. cbn [fst snd tx_err set_sk]. rewrite Hx.
  set (n := S _). set (m := Nat.min n (length buf)). assert (Hm : length (take n buf) = m) by (rewrite length_take; lia).
  assert (Em : take n buf = take m buf) by (unfold m; destruct (Nat.min_spec n (length buf)) as [[? ->]|[? ->]]; [done|]; rewrite !take_ge; [done|lia|lia]).
  apply spec_bind, spec_modify, spec_ret, spec_bind. rewrite Hm. apply spec_spend; [by apply (sock_calm_same s)|lia|]. intros ticks' k Ht1 Ht2.
  rewrite (proj2 (Z.ltb_ge _ _)), (proj2 (Z.eqb_neq _ _)) by lia. apply spec_bind, spec_bug_on; [lia|]. rewrite Nat2Z.id, length_drop.
  destruct (Z.eqb_spec (Z.of_nat (length buf - m)) 0) as [E|E].
  { apply spec_ret. specialize (HQ k). rewrite Em, take_ge by lia. replace (Z.of_nat m) with (Z.of_nat (length buf)) by lia. exact HQ. }
  rewrite (proj2 (Z.eqb_neq ticks' 0)) by nia. set (s2 := set_sk k _).
  apply IH; [by apply (sock_calm_same s)|exact Hx|rewrite length_drop; lia|rewrite length_drop; nia|]. intros k'. cbn [tx s2 set_sk set_tx].
  specialize (HQ k'). rewrite <- app_assoc, Em, take_drop, length_drop. replace (wrote + Z.of_nat m + Z.of_nat (length buf - m)) with (wrote + Z.of_nat (length buf)) by lia.
  exact HQ.
Qed.

Lemma spec_ksock_write buf s (Q : Z * Z -> socket -> Prop) : calm s -> (forall t, tx_err s t = None) -> Z.of_nat (length buf) < 2 ^ 32 ->
  (forall k, Q (0, Z.of_nat (length buf)) (set_sk k (set_tx (tx s ++ buf) s))) -> spec (ksock_write buf) s Q.
Proof.
  intros Hc Hx Hl HQ. unfold ksock_write. cbn [write_all]. destruct (Z.ltb_spec 0 (Z.of_nat (length buf))).
  - apply spec_bind, spec_bind. rewrite drop_0. apply spec_bug_on; [lia|]. apply spec_sock_write_loop; [done|done|lia|unfold U64_MAX; nia|]. intros k. cbn [fst snd Z.eqb negb].
    rewrite (proj2 (Z.ltb_ge _ _)) by lia. apply spec_ret, HQ.
  - destruct buf as [|b l]; [|cbn in *; lia]. apply spec_ret. specialize (HQ (sk s)). rewrite app_nil_r in HQ. by destruct s.
Qed.

(** A silent peer. *)
Lemma read_loop_silent fuel nob ticks got s : calm s -> rx s = [] -> rx_end s = None -> read_loop (S fuel) nob ticks got s = Hang.
Proof.
  intros Hc Hr He. cbn [read_loop]. unfold bind at 1, sock_setsockopt, kcall. rewrite (c_opt _ Hc). cbn [Z.eqb negb].
  unfold bind, sock_recvmsg, bind, kcall, gets. cbn [rx set_sk]. rewrite Hr. cbn [rx_end set_sk]. by rewrite He.
Qed.

Lemma ksock_read_silent nob s : calm s -> rx s = [] -> rx_end s = None -> 0 < nob -> ksock_read nob s = Hang.
Proof.
  intros Hc Hr He Hn. unfold ksock_read. cbn [read_all length]. change (Z.of_nat 0) with 0. rewrite (proj2 (Z.ltb_lt _ _) Hn), Z.sub_0_r.
  unfold bind at 1, ksock_read_timeout. rewrite (proj2 (Z.leb_gt _ _) Hn). unfold bind at 1. cbn [BUG_ON ret]. destruct (Z.to_nat nob) as [|fuel] eqn:Ef; [lia|].
  by rewrite read_loop_silent.
Qed.

(** ** The loops end *)

(** The kernel reports the end of the stream by 0 or an error. *)
Definition ended (s : socket) : Prop := forall e, rx_end s = Some e -> e <= 0.

Lemma fueled_recvmsg nob s (Q : Z * list byte -> socket -> Prop) : ended s ->
  (forall r s', ended s' -> fst r <= 0 \/ fst r = Z.of_nat (length (snd r)) -> Q r s') -> fueled (sock_recvmsg nob) s Q.
Proof.
  intros He HQ. unfold sock_recvmsg, fueled, bind, kcall, gets. cbn [rx set_sk rx_end]. destruct (rx s) as [|b l].
  - change (rx_end (set_sk (S (sk s)) s)) with (rx_end s). destruct (rx_end s) as [e|] eqn:Ee; [|exact I]. apply HQ; [exact He|]. left. by apply He.
  - apply HQ; [exact He|]. by right.
Qed.

Lemma fueled_kcall {A} (f : nat -> socket -> A) s (Q : A -> socket -> Prop) : (forall a, Q a (set_sk (S (sk s)) s)) -> fueled (kcall f) s Q.
Proof. intros HQ. apply HQ. Qed.

Lemma fueled_spend ticks s (Q : Z -> socket -> Prop) : (forall t, Q t (set_sk (S (sk s)) s)) -> fueled (spend ticks) s Q.
Proof. intros HQ. apply fueled_bind, fueled_kcall. intros d. by apply fueled_ret. Qed.

Lemma fueled_read_loop fuel : forall nob ticks got s, ended s -> 0 < nob -> (Z.to_nat nob <= fuel)%nat ->
  fueled (read_loop fuel nob ticks got) s (fun r s' => fst r = 0 -> Z.of_nat (length (snd r)) = Z.of_nat (length got) + nob).
Proof.
  induction fuel as [|fuel IH]; intros nob ticks got s He Hn Hf; [lia|]. cbn [read_loop]. apply fueled_bind, fueled_kcall. intros err.
  destruct (Z.eqb_spec err 0) as [->|H0]; cbn [negb]; [|by apply fueled_ret]. apply fueled_bind, fueled_recvmsg; [done|]. intros r s1 He1 Hr.
  apply fueled_bind, fueled_spend. intros t. destruct (Z.ltb_spec (fst r) 0); [apply fueled_ret; cbn; lia|].
  destruct (Z.eqb_spec (fst r) 0); [by apply fueled_ret|]. destruct Hr as [Hr|Hr]; [lia|]. apply fueled_bind, fueled_bug_on. intros Hb%Z.ltb_ge.
  destruct (Z.eqb_spec (nob - fst r) 0); [apply fueled_ret; cbn; rewrite length_app; lia|]. destruct (Z.eqb_spec t 0); [by apply fueled_ret|].
  eapply fueled_mono; [apply IH; [done|lia|lia]|]. intros r' s' Hl E. rewrite (Hl E), length_app. lia.
Qed.

Lemma fueled_sendmsg buf s (Q : Z -> socket -> Prop) : (forall r s', Q r s') -> fueled (sock_sendmsg buf) s Q.
Proof. intros HQ. unfold sock_sendmsg, fueled, bind, kcall. cbn [fst]. destruct (tx_err s (sk s)); apply HQ. Qed.

Lemma fueled_write_loop fuel : forall buf ticks wrote s, (0 < length buf <= fuel)%nat ->
  fueled (write_loop fuel buf ticks wrote) s (fun r s' => fst r = 0 -> snd r = wrote + Z.of_nat (length buf)).
Proof.
  induction fuel as [|fuel IH]; intros buf ticks wrote s Hf; [lia|]. cbn [write_loop]. apply fueled_bind, fueled_kcall. intros err.
  destruct (Z.eqb_spec err 0) as [->|H0]; cbn [negb]; [|by apply fueled_ret]. apply fueled_bind, fueled_sendmsg. intros r s1.
  apply fueled_bind, fueled_spend. intros t. destruct (Z.ltb_spec r 0); [apply fueled_ret; cbn; lia|].
  destruct (Z.eqb_spec r 0); [by apply fueled_ret|]. apply fueled_bind, fueled_bug_on. intros Hb%Z.ltb_ge. rewrite length_drop.
  destruct (Z.eqb_spec (Z.of_nat (length buf - Z.to_nat r)) 0); [apply fueled_ret; cbn; lia|]. destruct (Z.eqb_spec t 0); [by apply fueled_ret|].
  eapply fueled_mono; [apply IH; rewrite length_drop; lia|]. intros r' s' Hl E. rewrite (Hl E), length_drop. lia.
Qed.

(** (C33) Whatever pieces the kernel hands out or
    takes, [ksock_read] gives the next bytes of the stream, as many as asked for,
    and leaves the rest, and [ksock_write] appends the whole buffer to what was
    sent; and on any socket, failing ones included, both loops come to an end,
    if the peer does not stay silent, without the fuel of the model running out. *)
Theorem ksock_reads_and_writes_whole nob buf s : 0 <= nob < 2 ^ 32 -> Z.of_nat (length buf) < 2 ^ 32 ->
  (calm s -> nob <= Z.of_nat (length (rx s)) ->
     exists k, ksock_read nob s = Done (0, take (Z.to_nat nob) (rx s)) (set_sk k (set_rx (drop (Z.to_nat nob) (rx s)) s))) /\
  (calm s -> (forall t, tx_err s t = None) -> exists k, ksock_write buf s = Done (0, Z.of_nat (length buf)) (set_sk k (set_tx (tx s ++ buf) s))) /\
  (ended s -> ksock_read nob s <> NoFuel) /\ ksock_write buf s <> NoFuel.
Proof.
  intros Hn Hb. split_and!.
  - intros Hc Hl. assert (W : spec (ksock_read nob) s (fun r s' => r = (0, take (Z.to_nat nob) (rx s)) /\ exists k, s' = set_sk k (set_rx (drop (Z.to_nat nob) (rx s)) s))).
    { apply spec_ksock_read; [done|done|done|]. eauto. }
    apply spec_done in W as (r & s' & E & -> & k & ->). eauto.
  - intros Hc Hx. assert (W : spec (ksock_write buf) s (fun r s' => r = (0, Z.of_nat (length buf)) /\ exists k, s' = set_sk k (set_tx (tx s ++ buf) s))).
    { apply spec_ksock_write; [done|done|done|]. eauto. }
    apply spec_done in W as (r & s' & E & -> & k & ->). eauto.
  - intros He. apply (fueled_no _ _ (fun _ _ => True)). unfold ksock_read. cbn [read_all length]. change (Z.of_nat 0) with 0.
    destruct (Z.ltb_spec 0 nob); [|done]. apply fueled_bind, fueled_bind, fueled_bug_on. intros _. rewrite Z.sub_0_r.
    eapply fueled_mono; [apply fueled_read_loop; [done|lia|lia]|]. intros r s' Hr. cbn [length] in Hr. destruct (Z.eqb_spec (fst r) 0) as [E|]; [|done]. cbn [negb app].
    rewrite (proj2 (Z.ltb_ge _ _)) by (rewrite (Hr E); lia). done.
  - apply (fueled_no _ _ (fun _ _ => True)). unfold ksock_write. cbn [write_all]. destruct (Z.ltb_spec 0 (Z.of_nat (length buf))); [|done].
    apply fueled_bind, fueled_bind, fueled_bug_on. intros _. rewrite drop_0. eapply fueled_mono; [apply fueled_write_loop; lia|]. intros r s' Hr.
    destruct (Z.eqb_spec (fst r) 0) as [E|]; [|done]. cbn [negb]. rewrite (proj2 (Z.ltb_ge _ _)) by (rewrite (Hr E); lia). done.
Qed.

Definition demo_sock : socket := MkSocket [Init.Byte.x01; Init.Byte.x02; Init.Byte.x03] None [] (fun _ => None) (fun _ => 0) (fun t => t) (fun _ => 5) 0.

Lemma ksock_reads_and_writes_whole_witness : exists k, ksock_read 2 demo_sock = Done (0, [Init.Byte.x01; Init.Byte.x02]) (set_sk k (set_rx [Init.Byte.x03] demo_sock)).
Proof.
  destruct (ksock_reads_and_writes_whole 2 [Init.Byte.x07] demo_sock) as [W _]; [lia|cbn; lia|]. apply W; [|cbn; lia]. split; [reflexivity|cbn; lia].
Defined.

End Sock.
