(* ===== verification/GF.v ===== *)
(** * Arithmetic of GF(2^8) (src/crt/nk8.c)

    The N-K replication schema works over the field of 256 elements,
    polynomials over GF(2) modulo x^8 + x^4 + x^3 + x + 1 (283).  The C code
    multiplies by shift-and-add ([gf_mult_direct]), divides by searching the
    multiplication table ([gf_div_brute]) and keeps both operations in two
    256 x 256 tables filled by [gf_init].

    This file models the three functions and the tables and proves that they
    are the operations of a field: the laws are registered with [ring], so the
    matrix and erasure-code proofs of Nk8.v can use it on bytes.  The proofs
    never enumerate triples of bytes: multiplication is shown equal to a sum
    of shifts of one operand, which is linear by construction, and only pairs
    are checked by evaluation. *)

From Stdlib Require Import ZArith Lia Ring.
From coqutil Require Import Byte.
From stdpp Require Import base list gmap.
From S2P Require Import Prelude.
Local Open Scope Z_scope.

Module GF.

Abbreviation b0 := Init.Byte.x00.
Abbreviation b1 := Init.Byte.x01.

(** ** The C functions *)

(** [for (i = 7; i >= 0; i--) if (m >> i) { k ^= n << i; m ^= 1 << i; }]. *)
Definition gf_mult_shift_add (n : Z) : Z * Z -> Z * Z :=
  for_down 8
    (fun i '(k, m) =>
       if negb (Z.shiftr m (Z.of_nat i) =? 0)
       then (Z.lxor k (Z.shiftl n (Z.of_nat i)), Z.lxor m (Z.shiftl 1 (Z.of_nat i)))
       else (k, m)).

(** [for (i = 15; i >= 8; i--) if (k >> i) k ^= 283 << (i - 8)]. *)
Definition gf_mult_reduce : Z -> Z :=
  for_down 8
    (fun i k =>
       if negb (Z.shiftr k (Z.of_nat i + 8) =? 0)
       then Z.lxor k (Z.shiftl 283 (Z.of_nat i)) else k).

Definition gf_mult_direct (m n : byte) : byte :=
  if Byte.eqb m b0 || Byte.eqb n b0 then b0
  else
    let k := fst (gf_mult_shift_add (byte.unsigned n) (0, byte.unsigned m)) in
    let k := if negb (Z.shiftr k 8 =? 0) then gf_mult_reduce k else k in
    byte.of_Z k.

(** A two-dimensional C array as the list of its rows.  [mget]/[mset] are the
    reads and writes [t[i][j]]; out of range, where C is undefined, [mget] is
    0 and [mset] writes nothing. *)
Abbreviation table := (list (list byte)) (only parsing).

Definition mget (t : table) (i j : nat) : byte := (t !!! i) !!! j.
Definition mset (t : table) (i j : nat) (x : byte) : table :=
  <[i := <[j := x]> (t !!! i)]> t.

(** The file-scope state of nk8.c. *)
Record tables := Tables {
  inited : bool;
  gf_log : table;
  gf_alog : table
}.

(** The state at load: static storage is zeroed. *)
Definition tables_zero : tables :=
  Tables false (replicate 256 (replicate 256 b0)) (replicate 256 (replicate 256 b0)).

(** The macros [gf_mult(a, b)] and [gf_div(a, b)]: table lookups. *)
Definition gf_mult (t : tables) (a b : byte) : byte :=
  mget (gf_log t) (nat_of_byte a) (nat_of_byte b).
Definition gf_div (t : tables) (a b : byte) : byte :=
  mget (gf_alog t) (nat_of_byte a) (nat_of_byte b).

(** The search loop of [gf_div_brute]: the first [k >= from] with
    [gf_mult(k, j) == i]. *)
Fixpoint gf_div_search (t : tables) (i j : byte) (from n : nat) : option byte :=
  match n with
  | O => None
  | S n' =>
      let k := byte_of_nat from in
      if Byte.eqb (gf_mult t k j) i then Some k
      else gf_div_search t i j (S from) n'
  end.

Definition gf_div_brute (t : tables) (i j : byte) : byte :=
  if Byte.eqb i b0 || Byte.eqb j b0 then b0
  else match gf_div_search t i j 1 255 with
       | Some k => k
       | None => b0
       end.

(** The two loop nests of [gf_init]. *)
Definition gf_init_log : tables -> tables :=
  for_up 0 256 (fun i => for_up 0 256 (fun j t =>
    Tables (inited t)
      (mset (gf_log t) i j (gf_mult_direct (byte_of_nat i) (byte_of_nat j)))
      (gf_alog t))).

Definition gf_init_alog : tables -> tables :=
  for_up 0 256 (fun i => for_up 0 256 (fun j t =>
    Tables (inited t) (gf_log t)
      (mset (gf_alog t) i j (gf_div_brute t (byte_of_nat i) (byte_of_nat j))))).

Definition gf_init (t : tables) : tables := gf_init_alog (gf_init_log t).

(** ** Two-dimensional arrays *)

Definition dims (n m : nat) (t : table) : Prop :=
  length t = n /\ Forall (fun r => length r = m) t.

Lemma dims_row n m t i : dims n m t -> (i < n)%nat -> length (t !!! i) = m.
Proof.
  intros [Hl Hf] Hi. destruct (lookup_lt_is_Some_2 t i) as [r Hr]; [lia|].
  rewrite (list_lookup_total_correct _ _ _ Hr).
  by apply (Forall_lookup_1 _ _ _ _ Hf Hr).
Qed.

Lemma dims_mset n m t i j x : dims n m t -> dims n m (mset t i j x).
Proof.
  intros D. destruct (Nat.lt_ge_cases i n) as [Hi|Hi].
  - pose proof (dims_row _ _ _ _ D Hi) as Hr. destruct D as [Hl Hf].
    unfold mset. split; [by rewrite length_insert|].
    apply Forall_insert; [done|]. by rewrite length_insert.
  - destruct D as [Hl Hf]. unfold mset.
    by rewrite list_insert_ge by lia.
Qed.

Lemma dims_replicate n m x : dims n m (replicate n (replicate m x)).
Proof.
  split; [apply length_replicate|].
  apply Forall_replicate. apply length_replicate.
Qed.

Lemma mget_mset n m t i j x r c : dims n m t -> (i < n)%nat -> (j < m)%nat ->
  mget (mset t i j x) r c = if decide (r = i /\ c = j) then x else mget t r c.
Proof.
  intros D Hi Hj. pose proof (dims_row _ _ _ _ D Hi) as Hr. destruct D as [Hl _].
  unfold mget, mset. case_decide as E.
  - destruct E as [-> ->]. rewrite list_lookup_total_insert_eq by lia.
    by rewrite list_lookup_total_insert_eq by lia.
  - destruct (decide (r = i)) as [->|Hne].
    + rewrite list_lookup_total_insert_eq by lia.
      rewrite list_lookup_total_insert_ne; [done|]. intros ->. by apply E.
    + by rewrite list_lookup_total_insert_ne by done.
Qed.

(** ** The field *)

Definition bxor (a b : byte) : byte :=
  byte.of_Z (Z.lxor (byte.unsigned a) (byte.unsigned b)).

Abbreviation gmul := gf_mult_direct (only parsing).

(** Multiplication by x. *)
Definition xtime (b : byte) : byte :=
  let z := 2 * byte.unsigned b in
  byte.of_Z (if z <? 256 then z else Z.lxor z 283).

(** Reference multiplication: the sum, over the bits [i] of [a] from bit
    [8 - n] on, of x^i b. *)
Fixpoint shift_sum (n : nat) (a b : byte) : byte :=
  match n with
  | O => b0
  | S n' =>
      bxor (if Z.testbit (byte.unsigned a) (8 - Z.of_nat n) then b else b0)
           (shift_sum n' a (xtime b))
  end.

Lemma shift_sum_S n a b :
  shift_sum (S n) a b =
  bxor (if Z.testbit (byte.unsigned a) (8 - Z.of_nat (S n)) then b else b0)
       (shift_sum n a (xtime b)).
Proof. reflexivity. Qed.

Lemma shift_sum_1_r a : shift_sum 8 a b1 = a.
Proof.
  apply byte_eqb_spec. revert a.
  apply (check_byte (fun a => Byte.eqb (shift_sum 8 a b1) a)). vm_compute. reflexivity.
Qed.

Lemma shift_sum_1_l b : shift_sum 8 b1 b = b.
Proof.
  apply byte_eqb_spec. revert b.
  apply (check_byte (fun b => Byte.eqb (shift_sum 8 b1 b) b)). vm_compute. reflexivity.
Qed.

Lemma unsigned_bxor a b :
  byte.unsigned (bxor a b) = Z.lxor (byte.unsigned a) (byte.unsigned b).
Proof.
  unfold bxor. rewrite byte.unsigned_of_Z. unfold byte.wrap.
  apply Z.bits_inj'. intros i Hi.
  destruct (Z.lt_ge_cases i 8).
  - by rewrite Z.mod_pow2_bits_low by lia.
  - rewrite Z.mod_pow2_bits_high by lia.
    by rewrite Z.lxor_spec, !byte_testbit_high by lia.
Qed.

Lemma bxor_comm a b : bxor a b = bxor b a.
Proof. apply byte.unsigned_inj. rewrite !unsigned_bxor. apply Z.lxor_comm. Qed.

Lemma bxor_assoc a b c : bxor a (bxor b c) = bxor (bxor a b) c.
Proof. apply byte.unsigned_inj. rewrite !unsigned_bxor. symmetry. apply Z.lxor_assoc. Qed.

Lemma bxor_0_l a : bxor b0 a = a.
Proof. apply byte.unsigned_inj. rewrite unsigned_bxor. apply Z.lxor_0_l. Qed.

Lemma bxor_0_r a : bxor a b0 = a.
Proof. by rewrite bxor_comm, bxor_0_l. Qed.

Lemma bxor_nilpotent a : bxor a a = b0.
Proof. apply byte.unsigned_inj. rewrite unsigned_bxor. apply Z.lxor_nilpotent. Qed.

(** Exchanging the middle terms of a sum of four. *)
Lemma bxor_swap a b c d : bxor (bxor a b) (bxor c d) = bxor (bxor a c) (bxor b d).
Proof.
  rewrite <- !bxor_assoc. f_equal. rewrite !bxor_assoc. f_equal. apply bxor_comm.
Qed.

(** *** One reduction step is linear *)

Lemma shiftr_top k c : 0 <= k < 2 ^ (c + 1) -> 0 <= c ->
  negb (Z.shiftr k c =? 0) = Z.testbit k c.
Proof.
  intros Hk Hc. rewrite Z.testbit_eqb by done. rewrite Z.shiftr_div_pow2 by done.
  rewrite Z.pow_add_r in Hk by lia.
  assert (0 <= k / 2 ^ c < 2).
  { split; [apply Z.div_pos; lia | apply Z.div_lt_upper_bound; lia]. }
  assert (E : k / 2 ^ c = 0 \/ k / 2 ^ c = 1) by lia. by destruct E as [-> | ->].
Qed.

Lemma below_pow2 k c : 0 <= k -> 0 <= c ->
  k < 2 ^ c <-> forall i, c <= i -> Z.testbit k i = false.
Proof.
  intros Hk Hc. split.
  - intros H i Hi. rewrite <- (Z.mod_small k (2 ^ c)) by lia. apply Z.mod_pow2_bits_high. lia.
  - intros H. rewrite (Z.bits_inj' k (k mod 2 ^ c)).
    + apply Z.mod_pos_bound. lia.
    + intros i Hi. destruct (Z.lt_ge_cases i c).
      * by rewrite Z.mod_pow2_bits_low by lia.
      * rewrite Z.mod_pow2_bits_high by lia. apply H. lia.
Qed.

(** One step of the reduction loop. *)
Definition reduce_step (i : nat) (k : Z) : Z :=
  if Z.testbit k (Z.of_nat i + 8) then Z.lxor k (Z.shiftl 283 (Z.of_nat i)) else k.

Lemma reduce_step_bound i k : 0 <= k < 2 ^ (Z.of_nat i + 9) ->
  0 <= reduce_step i k < 2 ^ (Z.of_nat i + 8).
Proof.
  intros Hk. unfold reduce_step.
  assert (Hp : forall j, Z.of_nat i + 8 < j -> Z.testbit (Z.shiftl 283 (Z.of_nat i)) j = false).
  { intros j Hj. rewrite Z.shiftl_spec by lia. apply Z.bits_above_log2; simpl; lia. }
  assert (Ht : Z.testbit (Z.shiftl 283 (Z.of_nat i)) (Z.of_nat i + 8) = true).
  { rewrite Z.shiftl_spec by lia. by replace (Z.of_nat i + 8 - Z.of_nat i) with 8 by lia. }
  pose proof (proj1 (below_pow2 k (Z.of_nat i + 9) ltac:(lia) ltac:(lia)) (proj2 Hk)) as Hb.
  destruct (Z.testbit k (Z.of_nat i + 8)) eqn:E.
  - assert (N : 0 <= Z.lxor k (Z.shiftl 283 (Z.of_nat i))).
    { apply Z.lxor_nonneg. rewrite Z.shiftl_nonneg. lia. }
    split; [done|]. apply below_pow2; [done | lia |]. intros j Hj. rewrite Z.lxor_spec.
    destruct (Z.eq_dec j (Z.of_nat i + 8)) as [->|Hne]; [by rewrite E, Ht|].
    by rewrite Hb, Hp by lia.
  - split; [lia|]. apply below_pow2; [lia.. |]. intros j Hj.
    destruct (Z.eq_dec j (Z.of_nat i + 8)) as [->|Hne]; [done | apply Hb; lia].
Qed.

Lemma reduce_step_lxor i a b :
  reduce_step i (Z.lxor a b) = Z.lxor (reduce_step i a) (reduce_step i b).
Proof.
  unfold reduce_step. rewrite Z.lxor_spec.
  destruct (Z.testbit a _), (Z.testbit b _); simpl; apply Z.bits_inj'; intros j Hj;
    rewrite !Z.lxor_spec; by destruct (Z.testbit a j), (Z.testbit b j), (Z.testbit (Z.shiftl 283 (Z.of_nat i)) j).
Qed.

Lemma xtime_reduce_step b : xtime b = byte.of_Z (reduce_step 0 (2 * byte.unsigned b)).
Proof.
  unfold xtime, reduce_step. pose proof (byte.unsigned_range b). change (Z.of_nat 0 + 8) with 8.
  rewrite <- (shiftr_top (2 * byte.unsigned b) 8) by (change (2 ^ (8 + 1)) with 512; lia).
  rewrite Z.shiftr_div_pow2 by lia. change (2 ^ 8) with 256.
  destruct (Z.ltb_spec (2 * byte.unsigned b) 256).
  - by rewrite Z.div_small by lia.
  - replace (2 * byte.unsigned b / 256) with 1 by dlia. done.
Qed.

Lemma of_Z_lxor x y : byte.of_Z (Z.lxor x y) = bxor (byte.of_Z x) (byte.of_Z y).
Proof.
  unfold bxor. apply byte.unsigned_inj.
  rewrite !byte.unsigned_of_Z. unfold byte.wrap.
  apply Z.bits_inj'. intros i Hi. destruct (Z.lt_ge_cases i 8).
  - rewrite !Z.mod_pow2_bits_low, !Z.lxor_spec by lia. by rewrite !Z.mod_pow2_bits_low by lia.
  - by rewrite !Z.mod_pow2_bits_high by lia.
Qed.

Lemma xtime_bxor a b : xtime (bxor a b) = bxor (xtime a) (xtime b).
Proof.
  rewrite !xtime_reduce_step, unsigned_bxor, <- of_Z_lxor, <- reduce_step_lxor.
  do 2 f_equal. rewrite !(Z.mul_comm 2), <- !(Z.shiftl_mul_pow2 _ 1) by lia.
  apply Z.shiftl_lxor.
Qed.

Lemma xtime_0 : xtime b0 = b0.
Proof. reflexivity. Qed.

Lemma shift_sum_0_r n : forall a, shift_sum n a b0 = b0.
Proof.
  induction n as [|n IH]; intros a; cbn [shift_sum]; [done|].
  rewrite xtime_0, IH. by destruct (Z.testbit _ _).
Qed.

Lemma shift_sum_bxor_l n : forall a a' b,
  shift_sum n (bxor a a') b = bxor (shift_sum n a b) (shift_sum n a' b).
Proof.
  induction n as [|n IH]; intros a a' b; cbn [shift_sum]; [done|].
  rewrite IH, bxor_swap. f_equal. rewrite unsigned_bxor, Z.lxor_spec.
  destruct (Z.testbit (byte.unsigned a) _), (Z.testbit (byte.unsigned a') _); simpl;
    by rewrite ?bxor_0_l, ?bxor_0_r, ?bxor_nilpotent.
Qed.

Lemma shift_sum_bxor_r n : forall a b b',
  shift_sum n a (bxor b b') = bxor (shift_sum n a b) (shift_sum n a b').
Proof.
  induction n as [|n IH]; intros a b b'; cbn [shift_sum]; [done|].
  rewrite xtime_bxor, IH, bxor_swap. f_equal.
  destruct (Z.testbit _ _); by rewrite ?bxor_0_l.
Qed.

Lemma shift_sum_xtime n : forall a b, shift_sum n a (xtime b) = xtime (shift_sum n a b).
Proof.
  induction n as [|n IH]; intros a b; cbn [shift_sum]; [done|].
  rewrite IH, xtime_bxor, IH. f_equal. by destruct (Z.testbit _ _).
Qed.

(** A map that is additive and commutes with [xtime] commutes with [shift_sum]. *)
Lemma shift_sum_push n : forall a b c,
  shift_sum 8 c (shift_sum n a b) = shift_sum n a (shift_sum 8 c b).
Proof.
  induction n as [|n IH]; intros a b c.
  - apply shift_sum_0_r.
  - rewrite (shift_sum_S n a b), (shift_sum_S n a (shift_sum 8 c b)).
    rewrite shift_sum_bxor_r, IH, shift_sum_xtime. f_equal.
    destruct (Z.testbit _ _); [done | apply shift_sum_0_r].
Qed.

(** *** The C loops compute [shift_sum]

    Both loops are linear in [n]: the first one branches on [m] only, and the
    second one on the top bit of a number it keeps below [2^(i+9)]. *)

Lemma reduce_loop c : forall k, 0 <= k < 2 ^ (Z.of_nat c + 8) ->
  for_down c
    (fun i k => if negb (Z.shiftr k (Z.of_nat i + 8) =? 0)
                then Z.lxor k (Z.shiftl 283 (Z.of_nat i)) else k) k
  = for_down c reduce_step k.
Proof.
  induction c as [|c IH]; intros k Hk; cbn [for_down]; [done|].
  replace (Z.of_nat (S c) + 8) with (Z.of_nat c + 9) in Hk by lia.
  rewrite shiftr_top by (replace (Z.of_nat c + 8 + 1) with (Z.of_nat c + 9) by lia; lia).
  apply IH. by apply reduce_step_bound.
Qed.

Lemma reduce_steps_lxor c : forall a b,
  for_down c reduce_step (Z.lxor a b) = Z.lxor (for_down c reduce_step a) (for_down c reduce_step b).
Proof.
  induction c as [|c IH]; intros a b; cbn [for_down]; [done|].
  by rewrite reduce_step_lxor, IH.
Qed.

Lemma reduce_steps_small c : forall k, 0 <= k < 256 -> for_down c reduce_step k = k.
Proof.
  induction c as [|c IH]; intros k Hk; cbn [for_down]; [done|].
  replace (reduce_step c k) with k; [by apply IH|].
  unfold reduce_step. by rewrite (proj1 (below_pow2 k 8 ltac:(lia) ltac:(lia))) by lia.
Qed.

Definition shift_add_body (n : Z) (i : nat) (s : Z * Z) : Z * Z :=
  let '(k, m) := s in
  if negb (Z.shiftr m (Z.of_nat i) =? 0)
  then (Z.lxor k (Z.shiftl n (Z.of_nat i)), Z.lxor m (Z.shiftl 1 (Z.of_nat i)))
  else (k, m).

Lemma shift_add_lxor c n n' : forall k k' m,
  for_down c (shift_add_body (Z.lxor n n')) (Z.lxor k k', m) =
  (Z.lxor (fst (for_down c (shift_add_body n) (k, m)))
          (fst (for_down c (shift_add_body n') (k', m))),
   snd (for_down c (shift_add_body n) (k, m))).
Proof.
  induction c as [|c IH]; intros k k' m; cbn [for_down shift_add_body]; [done|].
  destruct (negb _); [|apply IH].
  rewrite <- IH. do 2 f_equal. rewrite Z.shiftl_lxor.
  apply Z.bits_inj'; intros j Hj; rewrite !Z.lxor_spec.
  by destruct (Z.testbit k j), (Z.testbit k' j), (Z.testbit (Z.shiftl n (Z.of_nat c)) j),
    (Z.testbit (Z.shiftl n' (Z.of_nat c)) j).
Qed.

Lemma shift_add_bound c n : 0 <= n < 2 ^ 8 -> forall k m,
  0 <= k < 2 ^ 16 -> (c <= 8)%nat ->
  0 <= fst (for_down c (shift_add_body n) (k, m)) < 2 ^ 16.
Proof.
  intros Hn. induction c as [|c IH]; intros k m Hk Hc; cbn [for_down shift_add_body]; [done|].
  destruct (negb _); [|apply IH; [done|lia]]. apply IH; [|lia].
  assert (N : 0 <= Z.lxor k (Z.shiftl n (Z.of_nat c))).
  { apply Z.lxor_nonneg. rewrite Z.shiftl_nonneg. lia. }
  split; [done|]. apply below_pow2; [done|lia|]. intros i Hi.
  rewrite Z.lxor_spec, Z.shiftl_spec by lia.
  rewrite (proj1 (below_pow2 k 16 ltac:(lia) ltac:(lia))) by lia.
  by rewrite (proj1 (below_pow2 n 8 ltac:(lia) ltac:(lia))) by lia.
Qed.

Lemma shift_add_zero_n c : forall m, fst (for_down c (shift_add_body 0) (0, m)) = 0.
Proof.
  induction c as [|c IH]; intros m; cbn [for_down shift_add_body]; [done|].
  rewrite Z.shiftl_0_l. destruct (negb _); apply IH.
Qed.

Lemma shift_add_zero_m c n : forall k, fst (for_down c (shift_add_body n) (k, 0)) = k.
Proof.
  induction c as [|c IH]; intros k; cbn [for_down shift_add_body]; [done|].
  rewrite Z.shiftr_0_l. apply IH.
Qed.

(** [gf_mult_direct] without its early returns. *)
Lemma gf_mult_direct_eq m n :
  gmul m n = byte.of_Z (for_down 8 reduce_step
    (fst (for_down 8 (shift_add_body (byte.unsigned n)) (0, byte.unsigned m)))).
Proof.
  unfold gmul. destruct (Byte.eqb m b0) eqn:Em.
  { apply byte_eqb_spec in Em as ->. by rewrite shift_add_zero_m. }
  destruct (Byte.eqb n b0) eqn:En.
  { apply byte_eqb_spec in En as ->. by rewrite shift_add_zero_n. }
  cbn [orb]. change (gf_mult_shift_add (byte.unsigned n))
    with (for_down 8 (shift_add_body (byte.unsigned n))).
  pose proof (shift_add_bound 8 (byte.unsigned n) (byte.unsigned_range n) 0 (byte.unsigned m)
    ltac:(lia) ltac:(lia)) as B.
  set (k := fst _) in *. f_equal.
  destruct (Z.eqb_spec (Z.shiftr k 8) 0) as [E|E]; cbn [negb].
  - symmetry. apply reduce_steps_small.
    rewrite Z.shiftr_div_pow2 in E by lia. change (2 ^ 8) with 256 in E. dlia.
  - apply reduce_loop. exact B.
Qed.

Lemma gf_mult_direct_bxor_r m n n' : gmul m (bxor n n') = bxor (gmul m n) (gmul m n').
Proof.
  rewrite !gf_mult_direct_eq, unsigned_bxor.
  change 0 with (Z.lxor 0 0) at 1. rewrite shift_add_lxor. cbn [fst].
  by rewrite reduce_steps_lxor, of_Z_lxor.
Qed.

Lemma gf_mult_direct_basis m i : (i < 8)%nat ->
  gmul m (Nat.iter i xtime b1) = shift_sum 8 m (Nat.iter i xtime b1).
Proof.
  intros Hi. assert (C : forallb (fun i => Byte.eqb (gmul m (Nat.iter i xtime b1))
    (shift_sum 8 m (Nat.iter i xtime b1))) (seq 0 8) = true).
  { clear Hi. revert m. apply (check_byte (fun m => forallb (fun i =>
      Byte.eqb (gmul m (Nat.iter i xtime b1)) (shift_sum 8 m (Nat.iter i xtime b1))) (seq 0 8))).
    vm_compute. reflexivity. }
  rewrite forallb_forall in C. apply byte_eqb_spec, C, in_seq. lia.
Qed.

Lemma gf_mult_direct_shift_sum_from n : forall m a, (n <= 8)%nat ->
  gmul m (shift_sum n a (Nat.iter (8 - n) xtime b1)) =
  shift_sum 8 m (shift_sum n a (Nat.iter (8 - n) xtime b1)).
Proof.
  induction n as [|n IH]; intros m a Hn.
  - change (shift_sum 0 a _) with b0. rewrite gf_mult_direct_eq, shift_add_zero_n.
    by rewrite shift_sum_0_r.
  - rewrite (shift_sum_S n a). rewrite gf_mult_direct_bxor_r, shift_sum_bxor_r.
    replace (xtime (Nat.iter (8 - S n) xtime b1)) with (Nat.iter (8 - n) xtime b1)
      by (by replace (8 - n)%nat with (S (8 - S n)) by lia).
    rewrite IH by lia. f_equal.
    destruct (Z.testbit _ _); [apply gf_mult_direct_basis; lia|].
    rewrite gf_mult_direct_eq, shift_add_zero_n. by rewrite shift_sum_0_r.
Qed.

Lemma gf_mult_direct_shift_sum a b : gmul a b = shift_sum 8 a b.
Proof.
  rewrite <- (shift_sum_1_r b). apply (gf_mult_direct_shift_sum_from 8). lia.
Qed.

Lemma gmul_comm a b : gmul a b = gmul b a.
Proof.
  rewrite !gf_mult_direct_shift_sum.
  rewrite <- (shift_sum_1_r a) at 2. rewrite shift_sum_push.
  by rewrite (shift_sum_1_r b).
Qed.

Lemma gmul_assoc a b c : gmul a (gmul b c) = gmul (gmul a b) c.
Proof.
  rewrite (gmul_comm (gmul a b) c), (gmul_comm b c). rewrite !gf_mult_direct_shift_sum.
  symmetry. apply shift_sum_push.
Qed.

Lemma gmul_bxor_l a b c : gmul (bxor a b) c = bxor (gmul a c) (gmul b c).
Proof. rewrite !gf_mult_direct_shift_sum. apply shift_sum_bxor_l. Qed.

Lemma gmul_1_l a : gmul b1 a = a.
Proof. rewrite gf_mult_direct_shift_sum. apply shift_sum_1_l. Qed.

Lemma gf_ring_theory :
  ring_theory b0 b1 bxor gmul bxor (fun a => a) (@eq byte).
Proof.
  constructor; intros; [apply bxor_0_l | apply bxor_comm | apply bxor_assoc | apply gmul_1_l
    | apply gmul_comm | apply gmul_assoc | apply gmul_bxor_l | done | apply bxor_nilpotent].
Qed.

(** Every non-zero element has an inverse, a^254. *)
Definition ginv (a : byte) : byte :=
  let '(_, r) := Nat.iter 7 (fun '(q, r) => let q := gmul q q in (q, gmul q r)) (a, b1) in r.

Lemma ginv_l a : a <> b0 -> gmul (ginv a) a = b1.
Proof.
  intros H. assert (C : Byte.eqb a b0 || Byte.eqb (gmul (ginv a) a) b1 = true).
  { clear H. revert a. apply (check_byte (fun a => Byte.eqb a b0 || Byte.eqb (gmul (ginv a) a) b1)).
    vm_compute. reflexivity. }
  apply orb_true_iff in C as [C|C]; by apply byte_eqb_spec in C.
Qed.

(** Coefficients of [ring] are the integers modulo 2: x + x normalises to 0. *)
Definition gf_of_bool (b : bool) : byte := if b then b1 else b0.

Lemma gf_morphism :
  ring_morph b0 b1 bxor gmul bxor (fun a => a) (@eq byte)
    false true xorb andb xorb (fun b : bool => b) Bool.eqb gf_of_bool.
Proof.
  constructor; try done; intros [] []; done || reflexivity.
Qed.

Ltac gf_constant t :=
  match t with
  | Init.Byte.x00 => constr:(false)
  | Init.Byte.x01 => constr:(true)
  | _ => constr:(InitialRing.NotConstant)
  end.

Add Ring gf_ring : gf_ring_theory (morphism gf_morphism, constants [gf_constant]).

Lemma gmul_0_l a : gmul b0 a = b0.
Proof. ring. Qed.

Lemma gmul_0_r a : gmul a b0 = b0.
Proof. ring. Qed.

Lemma gmul_cancel_r a b c : c <> b0 -> gmul a c = gmul b c -> a = b.
Proof.
  intros Hc H. apply (f_equal (fun x => gmul x (ginv c))) in H.
  rewrite <- !gmul_assoc, (gmul_comm c), ginv_l in H by done.
  by rewrite !(gmul_comm _ b1), !gmul_1_l in H.
Qed.

Lemma gmul_integral a b : gmul a b = b0 -> a = b0 \/ b = b0.
Proof.
  intros H. destruct (decide (b = b0)) as [|Hb]; [by right|left].
  apply (gmul_cancel_r _ _ b Hb). by rewrite gmul_0_l.
Qed.

Lemma ginv_nonzero a : a <> b0 -> ginv a <> b0.
Proof. intros H E. pose proof (ginv_l a H) as L. by rewrite E, gmul_0_l in L. Qed.

Lemma bxor_cancel a b : bxor a b = b0 -> a = b.
Proof. intros H. replace a with (bxor b (bxor a b)) by ring. by rewrite H, bxor_0_r. Qed.

(** ** Division by search *)

(** A table whose products are those of the field. *)
Definition log_ok (t : tables) : Prop := forall a b, gf_mult t a b = gmul a b.

(** Quotient in the field; 0 when the divisor is 0, as the C code has it. *)
Definition gdiv (i j : byte) : byte := if decide (j = b0) then b0 else gmul i (ginv j).

Lemma gf_div_search_spec t i j n : forall from k,
  log_ok t -> gmul k j = i -> j <> b0 ->
  (from <= nat_of_byte k < from + n)%nat ->
  gf_div_search t i j from n = Some k.
Proof.
  induction n as [|n IH]; intros from k Ht Hk Hj Hr; [lia|].
  cbn [gf_div_search]. rewrite Ht. destruct (Byte.eqb _ _) eqn:E.
  - apply byte_eqb_spec in E. f_equal. apply (gmul_cancel_r _ _ j); [done|]. congruence.
  - apply IH; try done. destruct (decide (nat_of_byte k = from)) as [<-|]; [|lia].
    rewrite byte_of_nat_of_byte in E. apply byte_eqb_neq in E. congruence.
Qed.

Lemma gf_div_brute_gdiv t i j : log_ok t -> gf_div_brute t i j = gdiv i j.
Proof.
  intros Ht. unfold gf_div_brute, gdiv.
  destruct (Byte.eqb j b0) eqn:Ej.
  { apply byte_eqb_spec in Ej. rewrite decide_True by done. by rewrite orb_true_r. }
  apply byte_eqb_neq in Ej. rewrite decide_False by done.
  destruct (Byte.eqb i b0) eqn:Ei.
  { apply byte_eqb_spec in Ei as ->. by rewrite gmul_0_l. }
  apply byte_eqb_neq in Ei. cbn [orb].
  assert (Hq : gmul (gmul i (ginv j)) j = i) by (rewrite <- gmul_assoc, ginv_l by done; ring).
  rewrite (gf_div_search_spec t i j 255 1 (gmul i (ginv j))); try done.
  pose proof (nat_of_byte_bound (gmul i (ginv j))).
  assert (nat_of_byte (gmul i (ginv j)) <> 0)%nat; [|lia].
  intros E. apply Ei. rewrite <- Hq. rewrite <- (byte_of_nat_of_byte (gmul i (ginv j))), E.
  apply gmul_0_l.
Qed.

(** ** The tables after [gf_init] *)

#[local] Opaque for_up.

(** Writing [f i j] into every cell, row by row, of the array [get] of a state
    whose other parts satisfy [Q]. *)
Lemma fill_table {S : Type} (n m : nat) (get : S -> table) (Q : S -> Prop)
    (f : nat -> nat -> byte) (body : nat -> nat -> S -> S) (s : S) :
  (forall i j s, Q s -> Q (body i j s)) ->
  (forall i j s, Q s -> (i < n)%nat -> (j < m)%nat -> get (body i j s) = mset (get s) i j (f i j)) ->
  Q s -> dims n m (get s) ->
  let s' := for_up 0 n (fun i => for_up 0 m (body i)) s in
  Q s' /\ dims n m (get s') /\
  forall i j, (i < n)%nat -> (j < m)%nat -> mget (get s') i j = f i j.
Proof.
  intros HQ Hb Hs Hd s'.
  assert (H : Q s' /\ dims n m (get s') /\
    forall r c, (r < 0 + n)%nat -> (c < m)%nat -> mget (get s') r c = f r c).
  { apply (for_up_ind (fun i s => Q s /\ dims n m (get s) /\
      forall r c, (r < i)%nat -> (c < m)%nat -> mget (get s) r c = f r c)).
    { repeat split; try done; [apply Hd | apply Hd | lia]. }
    intros i s1 Hi (H1 & H2 & H3).
    assert (H : let s2 := for_up 0 m (body i) s1 in
      Q s2 /\ dims n m (get s2) /\
      forall r c, (r < i \/ r = i /\ c < 0 + m)%nat -> (c < m)%nat -> mget (get s2) r c = f r c).
    { cbv zeta. apply (for_up_ind (fun j s => Q s /\ dims n m (get s) /\
        forall r c, (r < i \/ r = i /\ c < j)%nat -> (c < m)%nat -> mget (get s) r c = f r c)).
      { split; [done|]. split; [done|]. intros r c [|]; [by apply H3 | lia]. }
      intros j s2 Hj (G1 & G2 & G3). split; [by apply HQ|]. rewrite Hb by (done || lia).
      split; [by apply dims_mset|]. intros r c Hr Hc.
      rewrite (mget_mset n m) by (done || lia).
      case_decide as D; [by destruct D as [-> ->] | apply G3; lia]. }
    destruct H as (G1 & G2 & G3). split; [done|]. split; [done|].
    intros r c Hr Hc. apply G3; lia. }
  destruct H as (H1 & H2 & H3). split; [done|]. split; [done|].
  intros i j Hi Hj. by apply H3.
Qed.

(** The tables have their sizes. *)
Definition tables_dims (t : tables) : Prop :=
  dims 256 256 (gf_log t) /\ dims 256 256 (gf_alog t).

Lemma tables_zero_dims : tables_dims tables_zero.
Proof. split; apply dims_replicate. Qed.

Lemma lookup_cells (get : tables -> table) t (f : nat -> nat -> byte) a b :
  (forall i j, (i < 256)%nat -> (j < 256)%nat -> mget (get t) i j = f i j) ->
  mget (get t) (nat_of_byte a) (nat_of_byte b) = f (nat_of_byte a) (nat_of_byte b).
Proof. intros H. apply H; apply nat_of_byte_bound. Qed.

Lemma gf_init_log_spec t : tables_dims t ->
  log_ok (gf_init_log t) /\ dims 256 256 (gf_alog (gf_init_log t)).
Proof.
  intros [D1 D2].
  destruct (fill_table 256 256 gf_log (fun s => gf_alog s = gf_alog t)
    (fun i j => gf_mult_direct (byte_of_nat i) (byte_of_nat j))
    (fun i j t => Tables (inited t)
       (mset (gf_log t) i j (gf_mult_direct (byte_of_nat i) (byte_of_nat j))) (gf_alog t)) t)
    as (A1 & A2 & A3); [intros; assumption | intros; reflexivity | reflexivity | exact D1 |].
  fold gf_init_log in A1, A2, A3. split.
  - intros a b. unfold gf_mult. rewrite (lookup_cells gf_log _ _ a b A3).
    by rewrite !byte_of_nat_of_byte.
  - by rewrite A1.
Qed.

Lemma gf_init_alog_spec t :
  log_ok t -> dims 256 256 (gf_alog t) ->
  gf_log (gf_init_alog t) = gf_log t /\
  forall a b, gf_div (gf_init_alog t) a b = gdiv a b.
Proof.
  intros L D.
  destruct (fill_table 256 256 gf_alog (fun s => gf_log s = gf_log t)
    (fun i j => gdiv (byte_of_nat i) (byte_of_nat j))
    (fun i j t => Tables (inited t) (gf_log t)
       (mset (gf_alog t) i j (gf_div_brute t (byte_of_nat i) (byte_of_nat j)))) t)
    as (B1 & B2 & B3); [intros; assumption | | reflexivity | exact D |].
  { intros i j s Es _ _. cbn [gf_alog]. rewrite (gf_div_brute_gdiv s); [reflexivity|].
    intros a b. unfold gf_mult. rewrite Es. apply L. }
  fold gf_init_alog in B1, B2, B3. split; [exact B1|].
  intros a b. unfold gf_div. rewrite (lookup_cells gf_alog _ _ a b B3).
  by rewrite !byte_of_nat_of_byte.
Qed.

Lemma gf_init_mult t : tables_dims t -> forall a b, gf_mult (gf_init t) a b = gmul a b.
Proof.
  intros D a b. destruct (gf_init_log_spec t D) as [L1 L2].
  destruct (gf_init_alog_spec _ L1 L2) as [E _]. rewrite <- (L1 a b).
  unfold gf_mult, gf_init. rewrite E. reflexivity.
Qed.

Lemma gf_init_div t : tables_dims t -> forall a b, gf_div (gf_init t) a b = gdiv a b.
Proof.
  intros D a b. destruct (gf_init_log_spec t D) as [L1 L2].
  destruct (gf_init_alog_spec _ L1 L2) as [_ E]. exact (E a b).
Qed.

(** After [gf_init], the two lookup tables are the product and the
    quotient of GF(2^8): [gf_mult] agrees with shift-and-add multiplication,
    which makes bytes with [xor] a commutative ring, and [gf_div(a, b)] times
    [b] is [a] whenever [b] is not 0 (division by 0 reads 0). *)
Theorem gf_init_field t :
  tables_dims t ->
  let t' := gf_init t in
  (forall a b, gf_mult t' a b = gf_mult_direct a b) /\
  ring_theory b0 b1 bxor (gf_mult t') bxor (fun a => a) eq /\
  (forall a b, b <> b0 -> gf_mult t' (gf_div t' a b) b = a) /\
  (forall a, gf_div t' a b0 = b0).
Proof.
  intros D. pose proof (gf_init_mult t D) as M. pose proof (gf_init_div t D) as Dv.
  cbv zeta. generalize dependent (gf_init t). intros t' M Dv.
  split; [done|]. split; [|split].
  - destruct gf_ring_theory as [R1 R2 R3 R4 R5 R6 R7 R8 R9].
    constructor; [exact R1 | exact R2 | exact R3 | | | | | exact R8 | exact R9];
      intros; rewrite !M; [apply R4 | apply R5 | apply R6 | apply R7].
  - intros a b Hb. rewrite M, Dv. unfold gdiv. rewrite decide_False by done.
    rewrite <- gmul_assoc, ginv_l by done. ring.
  - intros a. rewrite Dv. unfold gdiv. by rewrite decide_True.
Qed.

Lemma gf_init_field_witness :
  gf_mult (gf_init tables_zero) (gf_div (gf_init tables_zero) (byte_of_nat 7) (byte_of_nat 29))
    (byte_of_nat 29) = byte_of_nat 7.
Proof.
  destruct (gf_init_field tables_zero tables_zero_dims) as (_ & _ & H & _).
  apply H. intros E. discriminate E.
Defined.

End GF.
