(* ===== verification/Mem.v ===== *)
(** * The runtime allocator interface (crt_malloc, crt_free)

    [crt_malloc] may fail at any call.  The model keeps the set of live
    allocations and lets an arbitrary predicate decide which calls fail, so
    that a theorem about a function covers every pattern of failures, and
    "no leak" is a statement about the live set. *)

From stdpp Require Import base list gmap.
From S2P Require Import Prelude.
Local Open Scope Z_scope.

Module Mem.

Record heap := Heap {
  hnext : nat;              (* the next allocation's identity *)
  hlive : gset nat;         (* allocations not yet freed *)
  hfail : nat -> bool       (* which allocations fail *)
}.

(** Allocations are numbered in order, so a fresh one is never live. *)
Definition heap_wf (h : heap) : Prop := forall p, p ∈ hlive h -> (p < hnext h)%nat.

Definition crt_malloc (h : heap) : option nat * heap :=
  let p := hnext h in
  if hfail h p then (None, Heap (S p) (hlive h) (hfail h))
  else (Some p, Heap (S p) ({[p]} ∪ hlive h) (hfail h)).

Definition crt_free (p : nat) (h : heap) : heap :=
  Heap (hnext h) (hlive h ∖ {[p]}) (hfail h).

Definition crt_free_all (ps : list nat) (h : heap) : heap :=
  fold_left (fun h p => crt_free p h) ps h.

(** [if (p) crt_free(p)]. *)
Definition crt_free_opt (p : option nat) (h : heap) : heap :=
  match p with
  | Some p => crt_free p h
  | None => h
  end.

(** [for (i = 0; i < n; i++) { ps[i] = crt_malloc(..); if (!ps[i]) stop }]:
    the pointers obtained, and whether all [n] were. *)
Fixpoint malloc_many (n : nat) (h : heap) : list nat * bool * heap :=
  match n with
  | O => ([], true, h)
  | S n' =>
      match crt_malloc h with
      | (None, h) => ([], false, h)
      | (Some p, h) =>
          let '(ps, ok, h) := malloc_many n' h in (p :: ps, ok, h)
      end
  end.

(** ** What a run of allocations and frees leaves live

    [owns h ps h']: [h'] is [h] with exactly the fresh allocations [ps] added. *)
Definition owns (h : heap) (ps : list nat) (h' : heap) : Prop :=
  hlive h' = list_to_set ps ∪ hlive h /\ NoDup ps /\
  (forall p, p ∈ ps -> p ∉ hlive h) /\ heap_wf h' /\ hfail h' = hfail h.

Lemma owns_refl h : heap_wf h -> owns h [] h.
Proof. intros W. split; [set_solver|]. split; [apply NoDup_nil_2|]. split; [set_solver|done]. Qed.

Lemma owns_malloc h ps h' p h'' :
  owns h ps h' -> crt_malloc h' = (Some p, h'') -> owns h (ps ++ [p]) h''.
Proof.
  intros (L & N & F & W & E) M. unfold crt_malloc in M. case_match; [done|].
  injection M as <- <-.
  assert (Hp : hnext h' ∉ hlive h') by (intros Hp; apply W in Hp; lia).
  rewrite L in Hp. split; [simpl; rewrite L; set_solver|].
  split; [apply NoDup_app; split; [done|]; split; [set_solver|apply NoDup_singleton]|].
  split; [set_solver|]. split; [|done]. intros q Hq. simpl in *.
  apply elem_of_union in Hq as [Hq|Hq]; [set_solver by lia | apply W in Hq; lia].
Qed.

Lemma owns_malloc_fail h ps h' h'' :
  owns h ps h' -> crt_malloc h' = (None, h'') -> owns h ps h''.
Proof.
  intros (L & N & F & W & E) M. unfold crt_malloc in M. case_match; [|done].
  injection M as <-. repeat split; try done. intros q Hq. apply W in Hq. simpl. lia.
Qed.

Lemma owns_malloc_many h n : forall ps h' qs ok h'',
  owns h ps h' -> malloc_many n h' = (qs, ok, h'') ->
  owns h (ps ++ qs) h'' /\ (ok = true -> length qs = n).
Proof.
  induction n as [|n IH]; intros ps h' qs ok h'' O M; simpl in M.
  - injection M as <- <- <-. by rewrite app_nil_r.
  - destruct (crt_malloc h') as [[p|] h1] eqn:E1.
    + destruct (malloc_many n h1) as [[rs ok1] h2] eqn:E2. injection M as <- <- <-.
      destruct (IH (ps ++ [p]) h1 rs ok1 h2) as [O2 L2]; [by eapply owns_malloc | done |].
      rewrite <- app_assoc in O2. split; [done|]. intros Hk. simpl. by rewrite L2.
    + injection M as <- <- <-. rewrite app_nil_r. split; [by eapply owns_malloc_fail | done].
Qed.

(** Freeing owned pointers, in any order. *)
Lemma owns_free h ps1 p ps2 h' :
  owns h (ps1 ++ p :: ps2) h' -> owns h (ps1 ++ ps2) (crt_free p h').
Proof.
  intros (L & N & F & W & E).
  assert (Hp : p ∉ ps1 ++ ps2).
  { rewrite <- Permutation_middle in N. by apply NoDup_cons in N as [? _]. }
  assert (Hn : NoDup (ps1 ++ ps2)).
  { rewrite <- Permutation_middle in N. by apply NoDup_cons in N as [_ ?]. }
  assert (p ∉ hlive h) by (apply F; set_solver).
  split; [simpl; rewrite L; set_solver|]. split; [done|]. split; [set_solver|].
  split; [|done]. intros q Hq. apply W. simpl in Hq. set_solver.
Qed.

Lemma owns_free_all h qs : forall ps1 ps2 h',
  owns h (ps1 ++ qs ++ ps2) h' -> owns h (ps1 ++ ps2) (crt_free_all qs h').
Proof.
  induction qs as [|q qs IH]; intros ps1 ps2 h' O; simpl; [done|].
  apply IH. by apply (owns_free h ps1 q).
Qed.

(** Nothing owned: the live set is the one it was. *)
Lemma owns_nil h h' : owns h [] h' -> hlive h' = hlive h.
Proof. intros (L & _). rewrite L. set_solver. Qed.

(** *** Allocations that may not be attempted or may fail *)

Definition olist {A} (o : option A) : list A := match o with Some x => [x] | None => [] end.

Lemma owns_malloc_if {B} (b : option B) h ps h' o h'' :
  owns h ps h' -> (if b then crt_malloc h' else (None, h')) = (o, h'') ->
  owns h (ps ++ olist o) h''.
Proof.
  intros O. destruct b; [destruct o as [p|]; simpl|intros [= <- <-]; simpl].
  - by apply owns_malloc.
  - rewrite app_nil_r. by apply owns_malloc_fail.
  - by rewrite app_nil_r.
Qed.

Lemma owns_malloc_many_if {B} (b : option B) n h ps h' qs ok h'' :
  owns h ps h' -> (if b then malloc_many n h' else ([], false, h')) = (qs, ok, h'') ->
  owns h (ps ++ qs) h'' /\ (ok = true -> is_Some b /\ length qs = n).
Proof.
  intros O. destruct b.
  - intros M. destruct (owns_malloc_many h n ps h' qs ok h'' O M). eauto.
  - intros [= <- <- <-]. by rewrite app_nil_r.
Qed.

Lemma owns_free_opt h ps1 o ps2 h' :
  owns h (ps1 ++ olist o ++ ps2) h' -> owns h (ps1 ++ ps2) (crt_free_opt o h').
Proof. destruct o as [p|]; simpl; [apply owns_free|done]. Qed.

(** Where nothing fails, every allocation is obtained. *)
Definition no_fail (h : heap) : Prop := forall p, hfail h p = false.

Lemma no_fail_malloc h o h' : no_fail h -> crt_malloc h = (o, h') -> is_Some o /\ no_fail h'.
Proof. intros F. unfold crt_malloc. rewrite (F (hnext h)). intros [= <- <-]. by split. Qed.

Lemma no_fail_malloc_many n : forall h qs ok h', no_fail h ->
  malloc_many n h = (qs, ok, h') -> ok = true /\ no_fail h'.
Proof.
  induction n as [|n IH]; simpl; intros h qs ok h' F M; [by injection M as <- <- <-|].
  destruct (crt_malloc h) as [o h1] eqn:E. destruct (no_fail_malloc _ _ _ F E) as [[p ->] F1].
  destruct (malloc_many n h1) as [[rs ok1] h2] eqn:E2. injection M as <- <- <-. by eapply IH.
Qed.

End Mem.
