(* ===== verification/Random.v ===== *)
(** * Random numbers (src/crt/random.c)

    The randomness comes from [crt_random_buf], a wrapper of the kernel's
    generator: the model takes it as the stream of its results, [None] for a
    call that fails.  A function that retries until a number suits consumes as
    much of the stream as it needs and has no result when the stream ends, so
    "it returns" is a statement about the stream.

    The theorems: [log2_u32] is the bit length, results lie in the requested
    range, every number that suits is returned as it comes (nothing is
    skewed), at least half of the candidates suit, and the retry loop ends as
    soon as the stream offers one that does. *)

From Stdlib Require Import ZArith Lia.
From stdpp Require Import base list gmap.
From S2P Require Import Prelude.
Local Open Scope Z_scope.
Local Open Scope nkfs_scope.

Module Random.

Abbreviation rng := (list (option Z)) (only parsing).

(** [while (val > 0) { res++; val >>= 1; }]; 32 rounds empty any [u32]. *)
Fixpoint log2_u32_loop (fuel : nat) (val res : Z) : Z :=
  match fuel with
  | O => res
  | S fuel' => if 0 <? val then log2_u32_loop fuel' (Z.shiftr val 1) (res + 1) else res
  end.

Definition log2_u32 (val : Z) : Z := log2_u32_loop 32 val 0.

(** A failed read yields [(u64)-1]. *)
Definition rand_u64 (r : rng) : option (Z * rng) :=
  match r with
  | [] => None
  | Some cand :: r' => Some (u64 cand, r')
  | None :: r' => Some (u64 (-1), r')
  end.

Definition rand_u32 (r : rng) : option (Z * rng) :=
  match r with
  | [] => None
  | Some cand :: r' => Some (u32 cand, r')
  | None :: r' => Some (u32 (-1), r')
  end.

(** [while (1) { v = rand_u64() & mask; if (v < up) break; }]. *)
Fixpoint rand_u32_up_loop (mask up : Z) (r : rng) : option (Z * rng) :=
  match r with
  | [] => None
  | c :: r' =>
      let v := u32 (Z.land (u64 (default (-1) c)) mask) in
      if v <? up then Some (v, r') else rand_u32_up_loop mask up r'
  end.

(** [1 << log] is an [int]: C leaves it undefined from [log = 31] on. *)
Definition rand_u32_up (up : Z) (r : rng) : outcome (option (Z * rng)) :=
  if up =? 0 then Ret (Some (0, r))
  else if Z.land up (u32 (up - 1)) =? 0 then
    Ret (match rand_u64 r with
         | None => None
         | Some (x, r') => Some (u32 (Z.land x (u32 (up - 1))), r')
         end)
  else
    let log := log2_u32 up in
    if 31 <=? log then Bug
    else Ret (rand_u32_up_loop (Z.shiftl 1 log - 1) up r).

Definition rand_u32_min_max (min max : Z) (r : rng) : outcome (option (Z * rng)) :=
  if max <? min then Ret (Some (u32 (-1), r))
  else if min =? max then Ret (Some (min, r))
  else
    let! res := rand_u32_up (u32 (u32 (max - min) + 1)) r in
    Ret (match res with
         | None => None
         | Some (x, r') => Some (u32 (min + x), r')
         end).

(** ** Proofs *)

Lemma log2_u32_loop_spec fuel : forall val res, 0 <= val < 2 ^ Z.of_nat fuel ->
  log2_u32_loop fuel val res = res + (if val =? 0 then 0 else Z.log2 val + 1).
Proof.
  induction fuel as [|fuel IH]; intros val res Hv.
  { assert (val = 0) as -> by (simpl in Hv; lia). simpl. lia. }
  cbn [log2_u32_loop]. destruct (Z.ltb_spec 0 val) as [Hp|Hp].
  - rewrite Z.shiftr_div_pow2 by lia. change (2 ^ 1) with 2.
    rewrite IH.
    2: { replace (Z.of_nat (S fuel)) with (1 + Z.of_nat fuel) in Hv by lia.
         rewrite Z.pow_add_r in Hv by lia. dlia. }
    destruct (Z.eqb_spec val 0); [lia|].
    destruct (Z.eqb_spec (val / 2) 0) as [E|E].
    + assert (val = 1) as -> by dlia. simpl. lia.
    + pose proof (Z.log2_shiftr val 1 ltac:(lia)) as L.
      rewrite Z.shiftr_div_pow2 in L by lia. change (2 ^ 1) with 2 in L.
      assert (1 <= Z.log2 val).
      { change 1 with (Z.log2 2). apply Z.log2_le_mono. dlia. }
      lia.
  - assert (val = 0) as -> by lia. simpl. lia.
Qed.

(** [log2_u32] is the bit length: 0 for 0, otherwise the [l] with
    [2^(l-1) <= val < 2^l]. *)
Lemma log2_u32_spec val :
  0 <= val < 2 ^ 32 ->
  0 <= log2_u32 val <= 32 /\ val < 2 ^ log2_u32 val /\ (0 < val -> 2 ^ (log2_u32 val - 1) <= val).
Proof.
  intros Hv. unfold log2_u32. rewrite log2_u32_loop_spec by done.
  destruct (Z.eqb_spec val 0) as [->|H0]; [simpl; lia|].
  pose proof (Z.log2_spec val ltac:(lia)) as [L1 L2].
  assert (Z.log2 val < 32).
  { apply Z.log2_lt_pow2; lia. }
  pose proof (Z.log2_nonneg val).
  replace (0 + (Z.log2 val + 1)) with (Z.succ (Z.log2 val)) by lia.
  replace (Z.succ (Z.log2 val) - 1) with (Z.log2 val) by lia. lia.
Qed.

(** The candidate a stream element stands for. *)
Definition candidate (mask : Z) (c : option Z) : Z := u32 (Z.land (u64 (default (-1) c)) mask).

Lemma rand_u32_up_loop_spec mask up r :
  match rand_u32_up_loop mask up r with
  | Some (v, r') =>
      exists skipped c, r = skipped ++ c :: r' /\ v = candidate mask c /\ v < up /\
        Forall (fun c => up <= candidate mask c) skipped
  | None => Forall (fun c => up <= candidate mask c) r
  end.
Proof.
  induction r as [|c r IH]; simpl; [constructor|].
  fold (candidate mask c). destruct (Z.ltb_spec (candidate mask c) up).
  - exists [], c. by repeat split.
  - destruct (rand_u32_up_loop mask up r) as [[v r']|].
    + destruct IH as (sk & c' & -> & -> & Hlt & Hsk). exists (c :: sk), c'.
      repeat split; try done. by constructor.
    + by constructor.
Qed.

Lemma candidate_nonneg mask c : 0 <= candidate mask c.
Proof. apply wrap_bounds. lia. Qed.

Lemma land_le x m : 0 <= m -> 0 <= Z.land x m <= m.
Proof.
  intros Hm. split; [apply Z.land_nonneg; lia|].
  assert (D : Z.land (Z.land m x) (Z.ldiff m x) = 0).
  { apply Z.bits_inj'. intros i Hi. rewrite Z.land_spec, Z.land_spec, Z.ldiff_spec, Z.bits_0.
    by destruct (Z.testbit m i), (Z.testbit x i). }
  assert (E : m = Z.land m x + Z.ldiff m x).
  { rewrite Z.add_nocarry_lxor by done. apply Z.bits_inj'. intros i Hi.
    rewrite Z.lxor_spec, Z.land_spec, Z.ldiff_spec.
    by destruct (Z.testbit m i), (Z.testbit x i). }
  assert (0 <= Z.ldiff m x) by (apply Z.ldiff_nonneg; lia).
  rewrite Z.land_comm. lia.
Qed.

(** Results are in range: for a bound below 2^30, [rand_u32_up] runs into
    no undefined shift, and what it returns is below the bound (0 for bound 0). *)
Theorem rand_u32_up_range up r :
  0 <= up <= 2 ^ 30 ->
  exists res, rand_u32_up up r = Ret res /\
  match res with
  | Some (v, _) => 0 <= v < Z.max 1 up
  | None => True
  end.
Proof.
  intros Hu. unfold rand_u32_up. destruct (Z.eqb_spec up 0) as [->|H0].
  { eexists. split; [done|]. simpl. lia. }
  rewrite (wrap_small 32 (up - 1)) by lia.
  destruct (Z.eqb_spec (Z.land up (up - 1)) 0) as [Hp|Hp].
  - eexists. split; [done|]. destruct (rand_u64 r) as [[x r']|]; [|done].
    pose proof (land_le x (up - 1) ltac:(lia)). rewrite wrap_small; lia.
  - destruct (log2_u32_spec up ltac:(lia)) as (L1 & L2 & L3).
    destruct (Z.leb_spec 31 (log2_u32 up)).
    { assert (2 ^ 30 <= 2 ^ (log2_u32 up - 1)) by (apply Z.pow_le_mono_r; lia).
      assert (up = 2 ^ 30) as -> by lia. by destruct Hp. }
    eexists. split; [done|].
    pose proof (rand_u32_up_loop_spec (Z.shiftl 1 (log2_u32 up) - 1) up r) as S.
    destruct (rand_u32_up_loop _ _ _) as [[v r']|]; [|done].
    destruct S as (sk & c & _ & -> & Hlt & _). pose proof (candidate_nonneg (Z.shiftl 1 (log2_u32 up) - 1) c).
    lia.
Qed.

Lemma rand_u32_up_range_witness :
  exists res, rand_u32_up 255 [Some 255; None; Some 1030] = Ret res /\
  match res with Some (v, _) => 0 <= v < Z.max 1 255 | None => True end.
Proof. apply rand_u32_up_range. lia. Defined.

(** The retry loop is fair and ends: for a bound that is not a power of
    two the mask covers the bound at most twice over (so at least half of the
    candidates suit), the number returned is the first suitable candidate of
    the stream, unaltered, and there is no result only if no candidate suits. *)
Theorem rand_u32_up_first_fit up r :
  0 < up < 2 ^ 30 -> Z.land up (up - 1) <> 0 ->
  let mask := Z.shiftl 1 (log2_u32 up) - 1 in
  up <= mask + 1 <= 2 * up /\
  exists res, rand_u32_up up r = Ret res /\
  match res with
  | Some (v, r') =>
      exists skipped c, r = skipped ++ c :: r' /\ v = candidate mask c /\ v < up /\
        Forall (fun c => up <= candidate mask c) skipped
  | None => Forall (fun c => up <= candidate mask c) r
  end.
Proof.
  intros Hu Hp mask. destruct (log2_u32_spec up ltac:(lia)) as (L1 & L2 & L3).
  specialize (L3 ltac:(lia)).
  assert (Hl : log2_u32 up < 31).
  { destruct (Z.lt_ge_cases (log2_u32 up) 31) as [|H]; [done|].
    assert (2 ^ 30 <= 2 ^ (log2_u32 up - 1)) by (apply Z.pow_le_mono_r; lia). lia. }
  split.
  - unfold mask. rewrite Z.shiftl_mul_pow2 by lia.
    assert (0 < log2_u32 up).
    { destruct (Z.eq_dec (log2_u32 up) 0) as [E|]; [|lia]. rewrite E in L2. simpl in L2. lia. }
    assert (2 ^ log2_u32 up = 2 * 2 ^ (log2_u32 up - 1)).
    { rewrite <- (Z.pow_succ_r 2) by lia. f_equal. lia. }
    lia.
  - eexists. split; [|apply (rand_u32_up_loop_spec mask up r)].
    unfold rand_u32_up. destruct (Z.eqb_spec up 0); [lia|].
    rewrite (wrap_small 32 (up - 1)) by lia.
    destruct (Z.eqb_spec (Z.land up (up - 1)) 0); [done|].
    destruct (Z.leb_spec 31 (log2_u32 up)); [lia|done].
Qed.

Lemma rand_u32_up_first_fit_witness :
  255 <= (Z.shiftl 1 (log2_u32 255) - 1) + 1 <= 2 * 255.
Proof. apply (rand_u32_up_first_fit 255 [Some 3]); [lia | discriminate]. Defined.

End Random.
