(* ===== verification/Nk8.v ===== *)
(** * The N-K replication schema (src/crt/nk8.c)

    [nk8_split_block] turns a block into [n] parts, each with a one-byte id,
    such that any [k] parts with distinct ids give the block back through
    [nk8_assemble_block].  A part is the sequence of values, at its id, of the
    polynomials whose coefficients are the successive [k]-byte groups of the
    block; assembling inverts the Vandermonde matrix of the [k] ids chosen.

    Correspondence: one definition per C function, with the loop nests of
    [gf_inverse_matrix] and of the two block functions as named helpers.
    Matrices are lists of rows ([GF.mget]/[GF.mset]); memory fresh from
    [crt_malloc] holds an arbitrary byte [junk]; every allocation may fail.
    [gf_swap] takes its arguments by value, so the row exchange of
    [gf_inverse_matrix] exchanges nothing, and the model says so. *)

From Stdlib Require Import ZArith Lia Ring.
From coqutil Require Import Byte.
From stdpp Require Import base list gmap.
From S2P Require Import Prelude GF Mem Random.
Import GF Mem Random.
Local Open Scope Z_scope.
Local Open Scope nkfs_scope.

Module Nk8.

Definition MAX_K : Z := 254.
Definition MAX_N : Z := 255.
Definition MIN_N : Z := 2.
Definition MIN_K : Z := 2.

(** ** Matrices *)

Definition gf_swap (a b : byte) : unit :=
  let tmp := a in
  let a := b in
  let b := tmp in
  tt.

(** [result = matrix1 * matrix2], all [size] by [size]. *)
Definition gf_mult_matrix (t : tables) (matrix1 matrix2 result : table) (size : nat) : table :=
  for_up 0 size (fun i => for_up 0 size (fun j result =>
    for_up 0 size (fun k result =>
      mset result i j (bxor (gf_mult t (mget matrix1 i k) (mget matrix2 k j)) (mget result i j)))
      (mset result i j b0))) result.

(** [crt_malloc] of the row array and of each row; on failure everything
    obtained is freed.  The contents are zeroed. *)
Definition gf_alloc_matrix (size : nat) (h : heap) : option (nat * list nat) * heap :=
  match crt_malloc h with
  | (None, h) => (None, h)
  | (Some m, h) =>
      let '(rows, ok, h) := malloc_many size h in
      if ok then (Some (m, rows), h)
      else (None, crt_free m (crt_free_all rows h))
  end.

Definition zero_matrix (size : nat) : table := replicate size (replicate size b0).

Definition gf_free_matrix (p : nat * list nat) (h : heap) : heap :=
  crt_free (fst p) (crt_free_all (snd p) h).

(** *** Inversion

    The pair is ([matrix], [inverse]), both updated in place. *)

Abbreviation inv_state := (list (list byte) * list (list byte))%type (only parsing).

Definition inv_identity (size : nat) : table -> table :=
  for_up 0 size (fun i => for_up 0 size (fun j inverse =>
    mset inverse i j (if negb (i =? j)%nat then b0 else b1))).

Definition inv_swap_rows (size i j : nat) : inv_state -> inv_state :=
  for_up 0 size (fun k s =>
    let _ := gf_swap (mget (fst s) i k) (mget (fst s) j k) in
    let _ := gf_swap (mget (snd s) i k) (mget (snd s) j k) in
    s).

Definition inv_eliminate_cell (t : tables) (i k : nat) (tmp : byte) (m : nat)
    (s : inv_state) : inv_state :=
  let '(matrix, inverse) := s in
  (if (i <=? m)%nat
   then mset matrix k m (bxor (mget matrix k m) (gf_mult t (mget matrix i m) tmp))
   else matrix,
   mset inverse k m (bxor (mget inverse k m) (gf_mult t (mget inverse i m) tmp))).

Definition inv_eliminate_row (t : tables) (size i k : nat) (s : inv_state) : inv_state :=
  let tmp := gf_div t (mget (fst s) k i) (mget (fst s) i i) in
  for_up 0 size (inv_eliminate_cell t i k tmp) s.

Definition inv_eliminate (t : tables) (size i : nat) : inv_state -> inv_state :=
  for_up (i + 1) (size - (i + 1)) (inv_eliminate_row t size i).

(** [for (j = i; j < size; j++) if (matrix[i][j] > 0) { ...; break; }]. *)
Fixpoint inv_pivot (t : tables) (size i j n : nat) (s : inv_state) : bool * inv_state :=
  match n with
  | O => (false, s)
  | S n' =>
      if negb (Byte.eqb (mget (fst s) i j) b0) then
        (true, inv_eliminate t size i (if (i =? j)%nat then s else inv_swap_rows size i j s))
      else inv_pivot t size i (j + 1) n' s
  end.

Fixpoint inv_forward (t : tables) (size i n : nat) (s : inv_state) : bool * inv_state :=
  match n with
  | O => (true, s)
  | S n' =>
      let '(ok, s) := inv_pivot t size i i (size - i) s in
      if ok then inv_forward t size (i + 1) n' s else (false, s)
  end.

Definition inv_back_row (t : tables) (size i j : nat) (s : inv_state) : inv_state :=
  let '(matrix, inverse) := s in
  let tmp := gf_div t (mget matrix j i) (mget matrix i i) in
  (mset matrix j i b0,
   for_up 0 size (fun k inverse =>
     mset inverse j k (bxor (mget inverse j k) (gf_mult t tmp (mget inverse i k)))) inverse).

Definition inv_scale_row (t : tables) (size i : nat) (s : inv_state) : inv_state :=
  let '(matrix, inverse) := s in
  (matrix,
   for_up 0 size (fun k inverse =>
     mset inverse i k (gf_div t (mget inverse i k) (mget matrix i i))) inverse).

(** [for (i = size - 1; i > 0; i--)]: clear column [i] above the diagonal,
    then divide row [i] by its pivot. *)
Definition inv_backward (t : tables) (size : nat) : inv_state -> inv_state :=
  for_down (size - 1) (fun x s =>
    let i := (x + 1)%nat in
    inv_scale_row t size i (for_down i (inv_back_row t size i) s)).

Definition gf_inverse_matrix (t : tables) (matrix inverse : table) (size : nat) :
    Z * inv_state :=
  let '(ok, s) := inv_forward t size 0 size (matrix, inv_identity size inverse) in
  if ok then (0, inv_scale_row t size 0 (inv_backward t size s))
  else (- EFAULT, s).

(** ** Part ids *)

Definition nk8_part_size (block_size k : Z) : Z :=
  u32 (block_size / k + (if block_size mod k =? 0 then 0 else 1)).

(** [while (1) { cand = 1 + rand_u32_up(255); ... }]: draw until the id is new. *)
Fixpoint nk8_gen_part_id (fuel : nat) (ids : list byte) (r : rng) :
    outcome (option (byte * rng)) :=
  match fuel with
  | O => Ret None
  | S fuel' =>
      let! x := rand_u32_up 255 r in
      match x with
      | None => Ret None
      | Some (v, r) =>
          let cand := byte.of_Z (1 + v) in
          if existsb (Byte.eqb cand) ids then nk8_gen_part_id fuel' ids r
          else Ret (Some (cand, r))
      end
  end.

Fixpoint nk8_gen_part_ids_from (n : nat) (ids : list byte) (r : rng) :
    outcome (option (list byte * rng)) :=
  match n with
  | O => Ret (Some (ids, r))
  | S n' =>
      let! x := nk8_gen_part_id (S (length r)) ids r in
      match x with
      | None => Ret None
      | Some (id, r) => nk8_gen_part_ids_from n' (ids ++ [id]) r
      end
  end.

Definition nk8_gen_part_ids (n : nat) (r : rng) : outcome (option (list byte * rng)) :=
  nk8_gen_part_ids_from n [] r.

(** ** Splitting *)

(** [curr = 0; for (m = 0; m < k; m++) curr ^= gf_mult(f(m), g(m))]. *)
Definition gf_dot (t : tables) (k : nat) (f g : nat -> byte) : byte :=
  for_up 0 k (fun m curr => bxor curr (gf_mult t (f m) (g m))) b0.

Definition nk8_svector (t : tables) (k : nat) (id : byte) (svector : list byte) : list byte :=
  for_up 1 (k - 1) (fun j sv => <[j := gf_mult t (sv !!! (j - 1)%nat) id]> sv)
    (<[0%nat := b1]> svector).

Definition nk8_part (t : tables) (k : nat) (part_size tail_size : Z)
    (block tail svector part : list byte) : list byte :=
  let part :=
    for_up 0 (Z.to_nat part_size) (fun j part =>
      <[j := gf_dot t k (fun m => svector !!! m) (fun m => block !!! (j * k + m)%nat)]> part)
      part in
  if tail_size =? 0 then part
  else <[Z.to_nat part_size := gf_dot t k (fun m => svector !!! m) (fun m => tail !!! m)]> part.

(** The loop over parts; [svector] is one buffer reused for each. *)
Fixpoint nk8_parts (t : tables) (k : nat) (part_size tail_size : Z)
    (block tail svector : list byte) (ids : list byte) (part : list byte) : list (list byte) :=
  match ids with
  | [] => []
  | id :: ids' =>
      let svector := nk8_svector t k id svector in
      nk8_part t k part_size tail_size block tail svector part ::
      nk8_parts t k part_size tail_size block tail svector ids' part
  end.

(** What a call of [nk8_split_block] leaves: the return code, the parts and
    ids it hands over, the heap and the rest of the random stream. *)
Record split_result := Split {
  sp_err : Z;
  sp_parts : list (list byte);
  sp_ids : list byte;
  sp_owned : list nat;        (* the allocations handed to the caller *)
  sp_heap : heap;
  sp_rng : rng
}.

Definition nk8_params_invalid (block_size n k : Z) : bool :=
  (n <? MIN_N) || (k <? MIN_K) || (block_size =? 0) || (n <? k) || (MAX_N <? n) || (MAX_K <? k).

Definition nk8_tail_size (block_size part_size k : Z) : Z :=
  if block_size <? u32 (part_size * k) then u32 (block_size - u32 (u32 (part_size - 1) * k)) else 0.

(** [crt_memcpy(tail, block + block_size - tail_size, tail_size);
    crt_memset(tail + tail_size, 0, k - tail_size)]. *)
Definition nk8_fill_tail (block : list byte) (block_size tail_size : Z) (k : nat)
    (tail : list byte) : list byte :=
  if tail_size =? 0 then tail
  else
    let ts := Z.to_nat tail_size in
    let tail := memcpy_at tail 0 (take ts (drop (Z.to_nat (block_size - tail_size)) block)) in
    memcpy_at tail ts (replicate (k - ts) b0).

Definition nk8_split_block (t : tables) (junk : byte) (block : list byte) (block_size n k : Z)
    (h : heap) (r : rng) : outcome (option split_result) :=
  if nk8_params_invalid block_size n k then Ret (Some (Split (- EINVAL) [] [] [] h r))
  else if negb (inited t) then Ret (Some (Split (- EAGAIN) [] [] [] h r))
  else
    let '(svector, h) := crt_malloc h in
    let '(tail, h) := if svector then crt_malloc h else (None, h) in
    let '(ids, h) := if tail then crt_malloc h else (None, h) in
    let '(parts, h) := if ids then crt_malloc h else (None, h) in
    let part_size := nk8_part_size block_size k in
    let '(rows, ok, h) :=
      if parts then malloc_many (Z.to_nat n) h else ([], false, h) in
    if negb ok then
      (* cleanup with err = -ENOMEM *)
      let h := crt_free_opt svector (crt_free_opt tail h) in
      let h := crt_free_opt ids h in
      let h := crt_free_opt parts (crt_free_all rows h) in
      Ret (Some (Split (- ENOMEM) [] [] [] h r))
    else
      let kn := Z.to_nat k in
      let part_buf := replicate (Z.to_nat part_size) junk in
      let tail_size := nk8_tail_size block_size part_size k in
      let tail_buf := nk8_fill_tail block block_size tail_size kn (replicate (Z.to_nat MAX_K) junk) in
      let part_size := if tail_size =? 0 then part_size else u32 (part_size - 1) in
      let! gen := nk8_gen_part_ids (Z.to_nat n) r in
      match gen with
      | None => Ret None
      | Some (id_buf, r) =>
          let out := nk8_parts t kn part_size tail_size block tail_buf
                       (replicate (Z.to_nat MAX_K) junk) id_buf part_buf in
          let h := crt_free_opt svector (crt_free_opt tail h) in
          Ret (Some (Split 0 out id_buf
            (default 0%nat ids :: default 0%nat parts :: rows) h r))
      end.

(** ** Assembling *)

(** The scan for [k] parts with distinct ids; it stops at the [k]-th. *)
Fixpoint nk8_select (k : nat) (all_ids : list byte) (i n : nat) (parts : list (list byte))
    (ormatrix : table) (sparts : list (list byte)) (num_parts : nat) :
    table * list (list byte) * nat :=
  match n with
  | O => (ormatrix, sparts, num_parts)
  | S n' =>
      let id := all_ids !!! i in
      let found := existsb (Byte.eqb id) (take i all_ids) in
      let '(ormatrix, sparts, num_parts) :=
        if found then (ormatrix, sparts, num_parts)
        else (mset ormatrix 1 num_parts id, sparts ++ [parts !!! i], S num_parts) in
      if (num_parts =? k)%nat then (ormatrix, sparts, num_parts)
      else nk8_select k all_ids (i + 1) n' parts ormatrix sparts num_parts
  end.

(** [for (i..k) for (m = 2..k) ormatrix[m][i] = gf_mult(ormatrix[m-1][i], ormatrix[1][i])]. *)
Definition nk8_powers (t : tables) (k : nat) : table -> table :=
  for_up 0 k (fun i => for_up 2 (k - 2) (fun m ormatrix =>
    mset ormatrix m i (gf_mult t (mget ormatrix (m - 1) i) (mget ormatrix 1 i)))).

(** The [k] bytes recovered from position [j] of the chosen parts. *)
Definition nk8_decode (t : tables) (k : nat) (inmatrix : table) (sparts : list (list byte))
    (j : nat) : list byte :=
  let svector := map (fun i => (sparts !!! i) !!! j) (seq 0 k) in
  map (fun m => gf_dot t k (fun i => svector !!! i) (fun i => mget inmatrix i m)) (seq 0 k).

(** [for (j = 0; j < part_size; j++)] with [*sblock++ = curr]. *)
Definition nk8_decode_all (t : tables) (k : nat) (inmatrix : table) (sparts : list (list byte))
    (part_size : nat) (block : list byte) : list byte :=
  for_up 0 part_size (fun j block =>
    memcpy_at block (j * k) (nk8_decode t k inmatrix sparts j)) block.

(** The computation once the buffers are there. *)
Definition nk8_assemble (t : tables) (parts : list (list byte)) (ids : list byte)
    (n k : nat) (part_size tail_size block_size : Z) (block : list byte) : Z * list byte :=
  let ormatrix := for_up 0 k (fun i m => mset m 0 i b1) (zero_matrix k) in
  let '(ormatrix, sparts, num_parts) := nk8_select k ids 0 n parts ormatrix [] 0 in
  if (num_parts <? k)%nat then (- EINVAL, block)
  else
    let ormatrix := nk8_powers t k ormatrix in
    let '(err, (_, inmatrix)) := gf_inverse_matrix t ormatrix (zero_matrix k) k in
    if negb (err =? 0) then (err, block)
    else
      let ps := Z.to_nat part_size in
      let block := nk8_decode_all t k inmatrix sparts ps block in
      if tail_size =? 0 then (0, block)
      else
        let tail := nk8_decode t k inmatrix sparts ps in
        (0, memcpy_at block (Z.to_nat (block_size - tail_size)) (take (Z.to_nat tail_size) tail)).

Definition nk8_assemble_block (t : tables) (parts : list (list byte)) (ids : list byte)
    (n k : Z) (block : list byte) (block_size : Z) (h : heap) : Z * list byte * heap :=
  if nk8_params_invalid block_size n k then (- EINVAL, block, h)
  else if negb (inited t) then (- EAGAIN, block, h)
  else
    let part_size := nk8_part_size block_size k in
    let tail_size := nk8_tail_size block_size part_size k in
    let part_size := if tail_size =? 0 then part_size else u32 (part_size - 1) in
    let kn := Z.to_nat k in
    let '(tail, tail_ok, h) :=
      if tail_size =? 0 then (None, true, h)
      else let '(p, h) := crt_malloc h in (p, bool_decide (is_Some p), h) in
    let '(inmatrix, h) := if tail_ok then gf_alloc_matrix kn h else (None, h) in
    let '(ormatrix, h) := if inmatrix then gf_alloc_matrix kn h else (None, h) in
    let '(svector, h) := if ormatrix then crt_malloc h else (None, h) in
    let '(sparts, h) := if svector then crt_malloc h else (None, h) in
    let '(err, block) :=
      if sparts then nk8_assemble t parts ids (Z.to_nat n) kn part_size tail_size block_size block
      else (- ENOMEM, block) in
    (* cleanup *)
    let h := crt_free_opt tail h in
    let h := match inmatrix with Some p => gf_free_matrix p h | None => h end in
    let h := match ormatrix with Some p => gf_free_matrix p h | None => h end in
    let h := crt_free_opt svector h in
    let h := crt_free_opt sparts h in
    (err, block, h).

(** The first two statements of [nk8_init]: fill the tables, mark them ready.
    (What follows them there is a self-test.) *)
Definition nk8_init_tables (t : tables) : tables :=
  let t := gf_init t in Tables true (gf_log t) (gf_alog t).

End Nk8.
