(* ===== verification/Nk8Inv.v ===== *)
(** * Correctness of [gf_inverse_matrix] on Vandermonde matrices

    Sums over the field, combinations of rows and the row operations that
    preserve them, polynomials as coefficient lists and the bound on their
    roots; then the two phases of [Nk8.gf_inverse_matrix].  The forward phase
    never meets a zero pivot when the matrix holds the powers of pairwise
    distinct bytes: row [r] stays the values of a monic polynomial of degree
    [r] that vanishes at the points already eliminated. *)

From Stdlib Require Import ZArith Lia Ring.
From coqutil Require Import Byte.
From stdpp Require Import base list gmap.
From S2P Require Import Prelude GF Mem Random Nk8.
Import GF Nk8.
Local Open Scope Z_scope.

Module Nk8Inv.

Add Ring gf_ring : gf_ring_theory (morphism gf_morphism, constants [gf_constant]).

#[local] Opaque ginv gf_mult_direct bxor.

(** ** Finite sums *)

Fixpoint bsum (n : nat) (f : nat -> byte) : byte :=
  match n with
  | O => b0
  | S n' => bxor (bsum n' f) (f n')
  end.

Lemma bsum_ext n f g : (forall i, (i < n)%nat -> f i = g i) -> bsum n f = bsum n g.
Proof.
  induction n as [|n IH]; intros H; simpl; [done|].
  rewrite H by lia. rewrite IH; [done|]. intros. apply H. lia.
Qed.

Lemma bsum_bxor n f g : bsum n (fun i => bxor (f i) (g i)) = bxor (bsum n f) (bsum n g).
Proof. induction n as [|n IH]; simpl; [done|]. rewrite IH. ring. Qed.

Lemma bsum_scale n a f : bsum n (fun i => gf_mult_direct a (f i)) = gf_mult_direct a (bsum n f).
Proof. induction n as [|n IH]; simpl; [ring|]. rewrite IH. ring. Qed.

Lemma bsum_zero n : bsum n (fun _ => b0) = b0.
Proof. induction n as [|n IH]; simpl; [done|]. by rewrite IH. Qed.

(** A sum with one term. *)
Lemma bsum_single n k a : (k < n)%nat -> bsum n (fun i => if decide (i = k) then a else b0) = a.
Proof.
  induction n as [|n IH]; intros Hk; simpl; [lia|]. destruct (decide (n = k)) as [->|Hn].
  - rewrite (bsum_ext _ _ (fun _ => b0)), bsum_zero; [ring|].
    intros i Hi. by rewrite decide_False by lia.
  - rewrite IH by lia. ring.
Qed.

(** The accumulation loops of the C code are sums. *)
Lemma gf_dot_bsum t k f g : log_ok t ->
  gf_dot t k f g = bsum k (fun m => gf_mult_direct (f m) (g m)).
Proof.
  intros Ht. unfold gf_dot. induction k as [|k IH]; [done|].
  rewrite for_up_last, IH. cbn [bsum]. by rewrite Ht.
Qed.

(** ** Combinations of rows

    [combo n c X j] is the [j]-th entry of the row [sum over r of c r * X r]. *)

Definition combo (n : nat) (c : nat -> byte) (X : nat -> nat -> byte) (j : nat) : byte :=
  bsum n (fun r => gf_mult_direct (c r) (X r j)).

Definition rowadd (k i : nat) (a : byte) (X : nat -> nat -> byte) (r j : nat) : byte :=
  if decide (r = k) then bxor (X k j) (gf_mult_direct a (X i j)) else X r j.

Definition rowscale (i : nat) (a : byte) (X : nat -> nat -> byte) (r j : nat) : byte :=
  if decide (r = i) then gf_mult_direct a (X i j) else X r j.

Lemma combo_rowadd n c X k i a j : (k < n)%nat -> (i < n)%nat -> k <> i ->
  combo n (fun r => if decide (r = i) then bxor (c i) (gf_mult_direct a (c k)) else c r)
    (rowadd k i a X) j = combo n c X j.
Proof.
  intros Hk Hi Hki. set (d := gf_mult_direct (gf_mult_direct a (c k)) (X i j)).
  transitivity (bsum n (fun r => bxor (gf_mult_direct (c r) (X r j))
    (bxor (if decide (r = k) then d else b0) (if decide (r = i) then d else b0)))).
  - apply bsum_ext. intros r _. unfold rowadd, d.
    destruct (decide (r = k)) as [->|]; [rewrite !decide_False by done; ring|].
    destruct (decide (r = i)) as [->|]; ring.
  - rewrite !bsum_bxor, !bsum_single by done. fold (combo n c X j). ring.
Qed.

Lemma combo_rowscale n c X i a j : a <> b0 ->
  combo n (fun r => if decide (r = i) then gf_mult_direct (ginv a) (c i) else c r)
    (rowscale i a X) j = combo n c X j.
Proof.
  intros Ha. apply bsum_ext. intros r _. unfold rowscale. destruct (decide (r = i)) as [->|]; [|done].
  transitivity (gf_mult_direct (gf_mult_direct (ginv a) a) (gf_mult_direct (c i) (X i j))); [ring|].
  rewrite ginv_l by done. ring.
Qed.

(** [solves n A M V]: what [M] and [V] have become under the same row
    operations from [A] and the identity.  Every combination of rows of [A] is
    one of rows of [M], and the same combination of rows of [V] gives back the
    coefficients. *)
Definition solves (n : nat) (A M V : nat -> nat -> byte) : Prop :=
  forall b, exists c,
  (forall j, (j < n)%nat -> combo n b A j = combo n c M j) /\
  (forall j, (j < n)%nat -> combo n c V j = b j).

Definition id_matrix (r c : nat) : byte := if decide (r = c) then b1 else b0.

Lemma combo_id n c j : (j < n)%nat -> combo n c id_matrix j = c j.
Proof.
  intros Hj. unfold combo. rewrite <- (bsum_single n j (c j)) by done.
  apply bsum_ext. intros r _. unfold id_matrix.
  destruct (decide (r = j)) as [->|]; ring.
Qed.

Lemma combo_ext n c X Y j : (forall r, (r < n)%nat -> X r j = Y r j) ->
  combo n c X j = combo n c Y j.
Proof. intros H. apply bsum_ext. intros r Hr. by rewrite H. Qed.

Lemma solves_init n A : solves n A A id_matrix.
Proof. intros b. exists b. split; [done|]. intros j Hj. by apply combo_id. Qed.

Lemma solves_ext n A M V M' V' :
  solves n A M V ->
  (forall r c, (r < n)%nat -> (c < n)%nat -> M' r c = M r c) ->
  (forall r c, (r < n)%nat -> (c < n)%nat -> V' r c = V r c) ->
  solves n A M' V'.
Proof.
  intros H HM HV b. destruct (H b) as (c & H1 & H2). exists c. split; intros j Hj.
  - rewrite H1 by done. apply combo_ext. intros. by rewrite HM.
  - rewrite <- H2 by done. apply combo_ext. intros. by rewrite HV.
Qed.

Lemma solves_rowadd n A M V k i a : (k < n)%nat -> (i < n)%nat -> k <> i ->
  solves n A M V -> solves n A (rowadd k i a M) (rowadd k i a V).
Proof.
  intros Hk Hi Hki H b. destruct (H b) as (c & H1 & H2).
  eexists. split; intros j Hj; [rewrite H1 by done; symmetry|];
    rewrite combo_rowadd by done; auto.
Qed.

Lemma solves_rowscale n A M V i a : a <> b0 ->
  solves n A M V -> solves n A (rowscale i a M) (rowscale i a V).
Proof.
  intros Ha H b. destruct (H b) as (c & H1 & H2).
  eexists. split; intros j Hj; [rewrite H1 by done; symmetry|];
    rewrite combo_rowscale by done; auto.
Qed.

(** When [M] is the identity, [V] decodes: [(b * A) * V = b]. *)
Lemma solves_decode n A V b m : (m < n)%nat ->
  solves n A id_matrix V ->
  bsum n (fun i => gf_mult_direct (combo n b A i) (V i m)) = b m.
Proof.
  intros Hm H. destruct (H b) as (c & H1 & H2). rewrite <- H2 by done.
  apply bsum_ext. intros i Hi. by rewrite H1, combo_id.
Qed.

(** ** Polynomials *)

Fixpoint peval (l : list byte) (x : byte) : byte :=
  match l with
  | [] => b0
  | a :: l' => bxor a (gf_mult_direct x (peval l' x))
  end.

Definition monic (l : list byte) : Prop := last l = Some b1.

(** [p + a * q], [q] no longer than [p]. *)
Fixpoint padd (a : byte) (p q : list byte) : list byte :=
  match p, q with
  | c :: p', d :: q' => bxor c (gf_mult_direct a d) :: padd a p' q'
  | _, _ => p
  end.

Lemma padd_length a p : forall q, length (padd a p q) = length p.
Proof. induction p as [|c p IH]; intros [|d q]; simpl; auto. Qed.

Lemma padd_eval a x p : forall q, (length q <= length p)%nat ->
  peval (padd a p q) x = bxor (peval p x) (gf_mult_direct a (peval q x)).
Proof.
  induction p as [|c p IH]; intros [|d q]; simpl; intros H; try lia; try ring.
  rewrite IH by lia. ring.
Qed.

Lemma padd_monic a p : forall q, (length q < length p)%nat -> monic p -> monic (padd a p q).
Proof.
  unfold monic. induction p as [|c p IH]; intros [|d q]; cbn [length padd]; intros H M; try done.
  assert (length q < length p)%nat by lia. destruct p as [|e p]; [simpl in *; lia|].
  rewrite last_cons_cons in M. specialize (IH q ltac:(done) M).
  assert (length (padd a (e :: p) q) = length (e :: p)) by apply padd_length.
  destruct (padd a (e :: p) q); [done|]. by rewrite last_cons_cons.
Qed.

(** Division by [X - a]. *)
Fixpoint pdiv (l : list byte) (a : byte) : list byte :=
  match l with
  | [] | [_] => []
  | _ :: l' => peval l' a :: pdiv l' a
  end.

Lemma pdiv_cons c d l a : pdiv (c :: d :: l) a = peval (d :: l) a :: pdiv (d :: l) a.
Proof. done. Qed.

Lemma pdiv_length l a : length (pdiv l a) = (length l - 1)%nat.
Proof.
  induction l as [|c l IH]; [done|]. destruct l as [|d l]; [done|].
  rewrite pdiv_cons. cbn [length] in *. lia.
Qed.

Lemma pdiv_eval l a x :
  bxor (peval l x) (peval l a) = gf_mult_direct (bxor x a) (peval (pdiv l a) x).
Proof.
  induction l as [|c l IH]; [cbn; ring|]. destruct l as [|d l]; [cbn; ring|].
  rewrite pdiv_cons. remember (d :: l) as e. cbn [peval].
  transitivity (bxor (gf_mult_direct x (bxor (peval e x) (peval e a)))
                     (gf_mult_direct (bxor x a) (peval e a))); [ring|].
  rewrite IH. ring.
Qed.

Lemma pdiv_monic l a : (2 <= length l)%nat -> monic l -> monic (pdiv l a).
Proof.
  unfold monic. induction l as [|c l IH]; cbn [length]; intros H M; [lia|].
  destruct l as [|d l]; cbn [length] in H; [lia|].
  rewrite last_cons_cons in M. rewrite pdiv_cons. destruct l as [|e l].
  - injection M as ->. cbn. f_equal. ring.
  - rewrite (pdiv_cons d), last_cons_cons, <- (pdiv_cons d). apply IH; [cbn; lia | done].
Qed.

(** A monic polynomial of degree [d] has at most [d] distinct roots. *)
Lemma monic_roots rs : forall l,
  monic l -> NoDup rs -> Forall (fun x => peval l x = b0) rs -> (length rs < length l)%nat.
Proof.
  induction rs as [|a rs IH]; intros l M N F; [by destruct l; [|cbn; lia]|].
  apply NoDup_cons in N as [Na N]. apply Forall_cons in F as [Fa F].
  destruct (Nat.lt_ge_cases (length l) 2) as [Hl|Hl].
  { destruct l as [|c [|]]; cbn in Hl; [done| |lia]. injection M as ->. exfalso.
    cbn in Fa. replace (bxor b1 (gf_mult_direct a b0)) with b1 in Fa by ring. done. }
  pose proof (pdiv_length l a) as L. cbn [length].
  enough (length rs < length (pdiv l a))%nat by lia.
  apply IH; [by apply pdiv_monic | done |].
  rewrite Forall_forall in F |- *. intros x Hx. pose proof (pdiv_eval l a x) as E.
  rewrite (F x Hx), Fa, bxor_0_l in E. symmetry in E.
  apply gmul_integral in E as [E|E]; [|done]. apply bxor_cancel in E. by subst.
Qed.

(** ** The loops of [gf_inverse_matrix] *)

#[local] Opaque for_up for_down.

Section Inverse.
Context (t : tables).
Hypothesis mult_ok : log_ok t.
Hypothesis div_ok : forall a b, gf_div t a b = gdiv a b.
Context (n : nat).

Lemma gdiv_cancel a b : b <> b0 -> gf_mult_direct (gdiv a b) b = a.
Proof.
  intros Hb. unfold gdiv. rewrite decide_False by done.
  rewrite <- gmul_assoc, ginv_l by done. ring.
Qed.

Lemma gdiv_ginv a b : b <> b0 -> gdiv a b = gf_mult_direct (ginv b) a.
Proof. intros Hb. unfold gdiv. rewrite decide_False by done. ring. Qed.

Lemma inv_identity_spec V : dims n n V ->
  dims n n (inv_identity n V) /\
  forall r c, (r < n)%nat -> (c < n)%nat -> mget (inv_identity n V) r c = id_matrix r c.
Proof.
  intros D. unfold inv_identity.
  destruct (fill_table n n (fun V => V) (fun _ => True) id_matrix
    (fun i j V => mset V i j (if negb (i =? j)%nat then b0 else b1)) V)
    as (_ & D' & E); [done| |done..|done].
  intros i j s _ _ _. unfold id_matrix. do 2 f_equal.
  destruct (decide (i = j)) as [->|Hij]; [by rewrite Nat.eqb_refl|].
  by apply Nat.eqb_neq in Hij as ->.
Qed.

(** One row of the forward phase: row [k] gets [a] times row [i] added, from
    column [i] on in the matrix and everywhere in the inverse. *)
Lemma inv_eliminate_row_spec i k M V : (i < k < n)%nat -> dims n n M -> dims n n V ->
  let a := gdiv (mget M k i) (mget M i i) in
  let s' := inv_eliminate_row t n i k (M, V) in
  dims n n (fst s') /\ dims n n (snd s') /\
  (forall r c, (c < n)%nat ->
     mget (fst s') r c = if decide (i <= c)%nat then rowadd k i a (mget M) r c else mget M r c) /\
  (forall r c, (c < n)%nat -> mget (snd s') r c = rowadd k i a (mget V) r c).
Proof.
  intros Hik DM DV a s'.
  set (P := fun m (s : inv_state) => dims n n (fst s) /\ dims n n (snd s) /\
    (forall r c, mget (fst s) r c =
       if decide (i <= c < m)%nat then rowadd k i a (mget M) r c else mget M r c) /\
    (forall r c, mget (snd s) r c =
       if decide (c < m)%nat then rowadd k i a (mget V) r c else mget V r c)).
  assert (I : P (0 + n)%nat s').
  2: { destruct I as (? & ? & E1 & E2). split; [done|]. split; [done|]. split; intros r c Hc;
       [rewrite E1|rewrite E2; by rewrite decide_True by lia].
       destruct (decide (i <= c)%nat); [by rewrite decide_True by lia|].
       by rewrite decide_False by lia. }
  subst s'. unfold inv_eliminate_row. cbn [fst]. rewrite div_ok. fold a.
  apply (for_up_ind P); unfold P.
  - cbn [fst snd]. split; [done|]. split; [done|].
    split; intros; by rewrite decide_False by lia.
  - intros m [M' V'] Hm (D1 & D2 & E1 & E2). cbn [fst snd] in *. unfold inv_eliminate_cell.
    cbn [fst snd]. split; [by destruct (_ <=? _)%nat; [apply dims_mset|]|].
    split; [by apply dims_mset|]. rewrite !mult_ok. split; intros r c.
    + destruct (i <=? m)%nat eqn:Him.
      * apply Nat.leb_le in Him. rewrite (mget_mset n n) by (done || lia). rewrite !E1.
        destruct (decide (r = k /\ c = m)) as [[-> ->]|Hrc].
        -- rewrite (decide_False (P := (i <= m < m)%nat)) by lia.
           rewrite (decide_True (P := (i <= m < S m)%nat)) by lia.
           rewrite (decide_False (P := (i <= m < m)%nat)) by lia.
           unfold rowadd. rewrite decide_True by done. ring.
        -- destruct (decide (i <= c < m)%nat); [by rewrite decide_True by lia|].
           destruct (decide (i <= c < S m)%nat); [|done].
           unfold rowadd. rewrite decide_False; [done|]. intros ->. apply Hrc. lia.
      * apply Nat.leb_gt in Him. rewrite E1.
        destruct (decide (i <= c < m)%nat); [by rewrite decide_True by lia|].
        by rewrite decide_False by lia.
    + rewrite (mget_mset n n) by (done || lia). rewrite !E2.
      destruct (decide (r = k /\ c = m)) as [[-> ->]|Hrc].
      * rewrite !(decide_False (P := (m < m)%nat)) by lia.
        rewrite (decide_True (P := (m < S m)%nat)) by lia.
        unfold rowadd. rewrite decide_True by done. ring.
      * destruct (decide (c < m)%nat); [by rewrite decide_True by lia|].
        destruct (decide (c < S m)%nat); [|done].
        unfold rowadd. rewrite decide_False; [done|]. intros ->. apply Hrc. lia.
Qed.

(** *** The forward phase on a Vandermonde matrix

    [x c] is the point of column [c].  In the middle of stage [i], with the
    rows below [k] done: row [r] holds the values of a monic polynomial of
    degree [r], and is zero in the columns already eliminated. *)

Context (A : nat -> nat -> byte) (x : nat -> byte).
Hypothesis x_inj : forall c d, (c < n)%nat -> (d < n)%nat -> x c = x d -> c = d.

Definition row_poly (M : list (list byte)) (r : nat) : Prop :=
  exists p, length p = S r /\ monic p /\ forall c, (c < n)%nat -> mget M r c = peval p (x c).

Definition forward_inv (i k : nat) (s : inv_state) : Prop :=
  let '(M, V) := s in
  dims n n M /\ dims n n V /\ solves n A (mget M) (mget V) /\
  (forall r, (r < n)%nat -> row_poly M r) /\
  (forall r c, (c < r < n)%nat -> (c < i \/ (c = i /\ r < k))%nat -> mget M r c = b0).

Lemma pivot_nonzero i k M V : (i < n)%nat -> forward_inv i k (M, V) -> mget M i i <> b0.
Proof.
  intros Hi (_ & _ & _ & HP & HZ) E. destruct (HP i Hi) as (p & L & Mo & Ev).
  assert (length (map x (seq 0 (S i))) < length p)%nat as Hl.
  { apply monic_roots; [done| |].
    - apply NoDup_fmap_2_strong; [|apply NoDup_seq].
      intros c d Hc Hd. apply elem_of_seq in Hc, Hd. apply x_inj; lia.
    - apply Forall_map, Forall_forall. intros c Hc. apply elem_of_seq in Hc. cbn.
      rewrite <- Ev by lia. destruct (decide (c = i)) as [->|]; [done|]. apply HZ; lia. }
  rewrite length_map, length_seq in Hl. lia.
Qed.

Lemma forward_row i k s : (i < k < n)%nat ->
  forward_inv i k s -> forward_inv i (S k) (inv_eliminate_row t n i k s).
Proof.
  destruct s as [M V]. intros Hik F.
  assert (Hp : mget M i i <> b0) by (eapply pivot_nonzero; [lia|exact F]).
  destruct F as (DM & DV & HS & HP & HZ).
  pose proof (inv_eliminate_row_spec i k M V Hik DM DV) as Sp. cbv zeta in Sp.
  destruct (inv_eliminate_row t n i k (M, V)) as [M' V']. cbn [fst snd] in Sp.
  set (a := gdiv (mget M k i) (mget M i i)) in *. destruct Sp as (DM' & DV' & E1 & E2).
  assert (E1' : forall r c, (r < n)%nat -> (c < n)%nat -> mget M' r c = rowadd k i a (mget M) r c).
  { intros r c Hr Hc. rewrite E1 by done. destruct (decide (i <= c)%nat); [done|].
    unfold rowadd. destruct (decide (r = k)) as [->|]; [|done].
    rewrite (HZ k c), (HZ i c) by lia. ring. }
  split; [done|]. split; [done|]. split; [|split].
  - eapply solves_ext; [apply (solves_rowadd n A (mget M) (mget V) k i a); [lia..|exact HS]| done |].
    intros. by apply E2.
  - intros r Hr. destruct (decide (r = k)) as [->|Hrk].
    + destruct (HP k Hr) as (p & L & Mo & Ev), (HP i ltac:(lia)) as (q & Lq & _ & Evq).
      exists (padd a p q). split; [by rewrite padd_length|].
      split; [apply padd_monic; [lia|done]|]. intros c Hc. rewrite E1' by done.
      unfold rowadd. rewrite decide_True by done. rewrite padd_eval by lia. by rewrite Ev, Evq.
    + destruct (HP r Hr) as (p & L & Mo & Ev). exists p. split; [done|]. split; [done|].
      intros c Hc. rewrite E1' by done. unfold rowadd. rewrite decide_False by done. by apply Ev.
  - intros r c Hcr Hc. rewrite E1' by lia. unfold rowadd.
    destruct (decide (r = k)) as [->|Hrk]; [|apply HZ; lia].
    destruct (decide (c = i)) as [->|Hci].
    + unfold a. rewrite gdiv_cancel by done. ring.
    + rewrite (HZ k c), (HZ i c) by lia. ring.
Qed.

Lemma forward_phase m : forall i s, (i + m = n)%nat -> forward_inv i (S i) s ->
  exists s', inv_forward t n i m s = (true, s') /\ forward_inv n (S n) s'.
Proof.
  induction m as [|m IH]; intros i s Him F.
  { exists s. split; [done|]. replace n with i by lia. done. }
  cbn [inv_forward]. destruct (n - i)%nat as [|k] eqn:Hk; [lia|]. cbn [inv_pivot].
  destruct s as [M V]. cbn [fst].
  assert (Byte.eqb (mget M i i) b0 = false) as ->.
  { apply byte_eqb_neq. eapply pivot_nonzero; [|exact F]. lia. }
  cbn [negb]. rewrite Nat.eqb_refl. apply IH; [lia|]. unfold inv_eliminate.
  assert (F' : forward_inv i n (for_up (i + 1) (n - (i + 1)) (inv_eliminate_row t n i) (M, V))).
  { replace n with (i + 1 + (n - (i + 1)))%nat at 1 by lia.
    apply (for_up_ind (forward_inv i)); [by rewrite Nat.add_1_r|].
    intros k' s' Hk' Hs'. apply forward_row; [lia|done]. }
  destruct (for_up (i + 1) _ _ _) as [M' V']. destruct F' as (? & ? & ? & ? & HZ).
  repeat (split; [done|]). intros r c Hcr Hc. apply HZ; lia.
Qed.

(** *** The backward phase

    The C code only clears the column it has used and does not write the ones
    to the right of it, nor divides the matrix by its pivots: [ghost] is the
    matrix that the same row operations would give. *)

(** A loop over the columns of row [j], each new value [h k] computed from
    cells the loop has not yet written. *)
Lemma row_loop j (f : nat -> list (list byte) -> byte) (h : nat -> byte) V :
  (j < n)%nat -> dims n n V ->
  (forall k V', (k < n)%nat ->
     (forall r c, r <> j \/ (k <= c)%nat -> mget V' r c = mget V r c) -> f k V' = h k) ->
  let V' := for_up 0 n (fun k V => mset V j k (f k V)) V in
  dims n n V' /\
  forall r c, (c < n)%nat -> mget V' r c = if decide (r = j) then h c else mget V r c.
Proof.
  intros Hj D Hf V'.
  set (P := fun m W => dims n n W /\ forall r c,
    mget W r c = if decide (r = j /\ (c < m)%nat) then h c else mget V r c).
  assert (I : P (0 + n)%nat V').
  { apply (for_up_ind P); unfold P.
    - split; [done|]. intros. by rewrite decide_False by lia.
    - intros k W Hk (DW & E). split; [by apply dims_mset|]. intros r c.
      rewrite (mget_mset n n) by (done || lia). rewrite (Hf k W); [|lia|].
      + destruct (decide (r = j /\ c = k)) as [[-> ->]|]; [by rewrite decide_True by lia|].
        rewrite E. destruct (decide (r = j /\ (c < k)%nat)); [by rewrite decide_True by lia|].
        by rewrite decide_False by lia.
      + intros r' c' H. rewrite E. by rewrite decide_False by lia. }
  destruct I as [D' E]. split; [done|]. intros r c Hc. rewrite E.
  destruct (decide (r = j)); [by rewrite decide_True by lia|]. by rewrite decide_False by lia.
Qed.

Lemma inv_back_row_spec i j M V : (i < n)%nat -> (j < n)%nat -> i <> j -> dims n n V ->
  let s' := inv_back_row t n i j (M, V) in
  fst s' = mset M j i b0 /\ dims n n (snd s') /\
  forall r c, (c < n)%nat ->
    mget (snd s') r c = rowadd j i (gdiv (mget M j i) (mget M i i)) (mget V) r c.
Proof.
  intros Hi Hj Hij D s'. subst s'. unfold inv_back_row. cbn [fst snd]. split; [done|].
  rewrite div_ok. set (a := gdiv _ _).
  apply (row_loop j _ (fun c => bxor (mget V j c) (gf_mult_direct a (mget V i c)))); [done..|].
  intros k V' Hk E. rewrite mult_ok. rewrite !E by lia. done.
Qed.

Lemma inv_scale_row_spec i M V : (i < n)%nat -> mget M i i <> b0 -> dims n n V ->
  let s' := inv_scale_row t n i (M, V) in
  fst s' = M /\ dims n n (snd s') /\
  forall r c, (c < n)%nat -> mget (snd s') r c = rowscale i (ginv (mget M i i)) (mget V) r c.
Proof.
  intros Hi Hp D s'. subst s'. unfold inv_scale_row. cbn [fst snd]. split; [done|].
  apply (row_loop i _ (fun c => gf_mult_direct (ginv (mget M i i)) (mget V i c))); [done..|].
  intros k V' Hk E. rewrite div_ok, E, gdiv_ginv by (done || lia). done.
Qed.

Section Backward.
Context (U : nat -> nat -> byte).
Hypothesis U_upper : forall r c, (c < r < n)%nat -> U r c = b0.
Hypothesis U_pivot : forall i, (i < n)%nat -> U i i <> b0.

Definition ghost (i y r c : nat) : byte :=
  if decide (i < r)%nat then id_matrix r c
  else if decide (i < c)%nat then b0
  else if decide (c = i /\ y <= r < i)%nat then b0
  else U r c.

Definition backward_inv (i y : nat) (s : inv_state) : Prop :=
  let '(M, V) := s in
  dims n n M /\ dims n n V /\ solves n A (ghost i y) (mget V) /\
  forall r c, (r <= i)%nat -> (c < i \/ (c = i /\ (r < y \/ r = i)))%nat -> mget M r c = U r c.

Ltac ghost_cases := unfold ghost; repeat (case_decide; try lia).

Lemma backward_row i y s : (y < i < n)%nat ->
  backward_inv i (S y) s -> backward_inv i y (inv_back_row t n i y s).
Proof.
  destruct s as [M V]. intros Hy (DM & DV & HS & HM).
  destruct (inv_back_row_spec i y M V) as (E1 & D' & E2); [lia..|done|].
  destruct (inv_back_row t n i y (M, V)) as [M' V']. cbn [fst snd] in *. subst M'.
  rewrite (HM y i), (HM i i) in E2 by lia. set (a := gdiv (U y i) (U i i)) in *.
  split; [by apply dims_mset|]. split; [done|]. split.
  - eapply solves_ext; [apply (solves_rowadd n A (ghost i (S y)) (mget V) y i a); [lia..|exact HS]| |].
    2: { intros. by apply E2. }
    intros r c Hr Hc. unfold rowadd. destruct (decide (r = y)) as [->|Hry].
    + destruct (decide (c = i)) as [->|Hci].
      * ghost_cases. unfold a. rewrite gdiv_cancel by (apply U_pivot; lia). ring.
      * ghost_cases; [ring|]. rewrite (U_upper i c) by lia. ring.
    + ghost_cases; done.
  - intros r c Hr Hc. rewrite (mget_mset n n) by (done || lia).
    rewrite decide_False by lia. apply HM; lia.
Qed.

Lemma backward_scale i s : (0 < i < n)%nat ->
  backward_inv i 0 s -> backward_inv (i - 1) (i - 1) (inv_scale_row t n i s).
Proof.
  destruct s as [M V]. intros Hi (DM & DV & HS & HM).
  assert (E : mget M i i = U i i) by (apply HM; lia).
  destruct (inv_scale_row_spec i M V) as (E1 & D' & E2);
    [lia|rewrite E; apply U_pivot; lia|done|].
  destruct (inv_scale_row t n i (M, V)) as [M' V']. cbn [fst snd] in *. subst M'.
  rewrite E in E2. assert (Hp : U i i <> b0) by (apply U_pivot; lia).
  split; [done|]. split; [done|]. split; [|intros r c Hr Hc; apply HM; lia].
  eapply solves_ext; [apply (solves_rowscale n A (ghost i 0) (mget V) i (ginv (U i i)));
    [by apply ginv_nonzero|exact HS]| |].
  2: { intros. by apply E2. }
  intros r c Hr Hc. unfold rowscale. destruct (decide (r = i)) as [->|Hri].
  - unfold ghost, id_matrix. repeat (case_decide; try lia); subst;
      [by rewrite ginv_l | ring | rewrite (U_upper i c) by lia; ring].
  - ghost_cases; done.
Qed.

Lemma backward_phase s : (0 < n)%nat ->
  backward_inv (n - 1) (n - 1) s -> backward_inv 0 0 (inv_backward t n s).
Proof.
  intros Hn H. unfold inv_backward. apply (for_down_ind (fun x => backward_inv x x)); [done|].
  intros x' s' Hx Hs. replace x' with (x' + 1 - 1)%nat by lia.
  replace (x' + 1 - 1 + 1)%nat with (x' + 1)%nat by lia. apply backward_scale; [lia|].
  apply (for_down_ind (backward_inv (x' + 1))); [by rewrite Nat.add_1_r|].
  intros y s'' Hy Hs''. apply backward_row; [lia|done].
Qed.

Lemma backward_last s : (0 < n)%nat ->
  backward_inv 0 0 s ->
  dims n n (snd (inv_scale_row t n 0 s)) /\
  solves n A id_matrix (mget (snd (inv_scale_row t n 0 s))).
Proof.
  destruct s as [M V]. intros Hn (DM & DV & HS & HM).
  assert (E : mget M 0 0 = U 0 0) by (apply HM; lia).
  destruct (inv_scale_row_spec 0 M V) as (E1 & D' & E2);
    [lia|rewrite E; apply U_pivot; lia|done|].
  rewrite E in E2. assert (Hp : U 0 0 <> b0) by (apply U_pivot; lia). split; [done|].
  eapply solves_ext; [apply (solves_rowscale n A (ghost 0 0) (mget V) 0 (ginv (U 0 0)));
    [by apply ginv_nonzero|exact HS]| |intros; by apply E2].
  intros r c Hr Hc. unfold rowscale. destruct (decide (r = 0%nat)) as [->|Hri].
  - unfold ghost, id_matrix. repeat (case_decide; try lia); subst;
      [by rewrite ginv_l | ring].
  - ghost_cases; done.
Qed.

End Backward.

End Inverse.

Fixpoint gpow (x : byte) (r : nat) : byte :=
  match r with
  | O => b1
  | S r' => gf_mult_direct x (gpow x r')
  end.

Lemma peval_power x r : peval (replicate r b0 ++ [b1]) x = gpow x r.
Proof. induction r as [|r IH]; simpl; [ring|]. rewrite IH. ring. Qed.

(** [gf_inverse_matrix] succeeds on the matrix of powers of distinct points,
    and multiplying by the result undoes multiplying by the matrix. *)
Lemma gf_inverse_vandermonde t n M V x :
  log_ok t -> (forall a b, gf_div t a b = gdiv a b) -> (0 < n)%nat ->
  (forall c d, (c < n)%nat -> (d < n)%nat -> x c = x d -> c = d) ->
  dims n n M -> dims n n V ->
  (forall r c, (r < n)%nat -> (c < n)%nat -> mget M r c = gpow (x c) r) ->
  exists M' V', gf_inverse_matrix t M V n = (0, (M', V')) /\
  forall b m, (m < n)%nat ->
  bsum n (fun i => gf_mult_direct (combo n b (mget M) i) (mget V' i m)) = b m.
Proof.
  intros Ht Hd Hn Hx DM DV HM. destruct (inv_identity_spec n V DV) as [DI EI].
  assert (F : forward_inv n (mget M) x 0 1 (M, inv_identity n V)).
  { split; [done|]. split; [done|]. split; [|split].
    - by eapply solves_ext; [apply (solves_init n (mget M))| |].
    - intros r Hr. exists (replicate r b0 ++ [b1]). rewrite length_app, length_replicate.
      split; [simpl; lia|]. split; [apply last_snoc|]. intros c Hc.
      by rewrite peval_power, HM.
    - intros r c Hr Hc. lia. }
  unfold gf_inverse_matrix.
  destruct (forward_phase t Ht Hd n (mget M) x Hx n 0 _ ltac:(lia) F) as ([M1 V1] & -> & F1).
  assert (B : backward_inv n (mget M) (mget M1) (n - 1) (n - 1) (M1, V1)).
  { destruct F1 as (D1 & D2 & HS & _ & HZ). split; [done|]. split; [done|]. split; [|done].
    eapply solves_ext; [exact HS| |done]. intros r c Hr Hc. unfold ghost.
    repeat (case_decide; try lia). done. }
  assert (Hp : forall i, (i < n)%nat -> mget M1 i i <> b0).
  { intros i Hi. apply (pivot_nonzero n (mget M) x Hx i 0 M1 V1 Hi).
    destruct F1 as (D1 & D2 & HS & HP & HZ). repeat (split; [done|]).
    intros r c Hr Hc. apply HZ; lia. }
  apply (backward_phase t Ht Hd n (mget M) (mget M1)) in B; [|
    intros; apply F1; lia | done | done].
  apply (backward_last t Hd n (mget M) (mget M1)) in B as [D HS]; [|done..].
  destruct (inv_scale_row t n 0 _) as [M' V']. exists M', V'. split; [done|].
  intros b m Hm. by apply solves_decode.
Qed.

End Nk8Inv.
