(* ===== verification/Nk8Spec.v ===== *)
(** * What the N-K schema promises

    [part_of block k id] is the part with identity [id] of a block: the values
    at [id] of the polynomials whose coefficients are the successive [k]-byte
    groups of the block (the last group padded with zeros).  [nk8_split_block]
    produces [part_of] for fresh, distinct, non-zero ids; [nk8_assemble_block]
    recovers the block from any parts with at least [k] distinct ids among
    them; neither leaks memory, whichever allocations fail. *)

From Stdlib Require Import ZArith Lia Ring.
From coqutil Require Import Byte.
From stdpp Require Import base list gmap.
From S2P Require Import Prelude GF Mem Random Nk8 Nk8Inv.
Import GF Mem Random Nk8 Nk8Inv.
Local Open Scope Z_scope.
Local Open Scope nkfs_scope.

Module Nk8Spec.

Add Ring gf_ring : gf_ring_theory (morphism gf_morphism, constants [gf_constant]).

#[local] Opaque ginv gf_mult_direct bxor for_up for_down gf_init.

(** ** Part identities *)

(** The identities a random stream offers to [nk8_gen_part_ids], in order. *)
Definition offered (r : rng) : list byte :=
  omap (fun c => let v := candidate 255 c in
                 if v <? 255 then Some (byte.of_Z (1 + v)) else None) r.

Lemma rand_u32_up_255 r : rand_u32_up 255 r = Ret (rand_u32_up_loop 255 255 r).
Proof. reflexivity. Qed.

Lemma offered_skip sk r : Forall (fun c => 255 <= candidate 255 c) sk ->
  offered (sk ++ r) = offered r.
Proof.
  unfold offered. intros F. rewrite omap_app. induction F as [|c sk Hc _ IH]; [done|].
  cbn. destruct (Z.ltb_spec (candidate 255 c) 255); [lia|]. exact IH.
Qed.

Lemma offered_nonzero r : b0 ∉ offered r.
Proof.
  intros H. apply list_elem_of_omap in H as (c & _ & H). cbv zeta in H.
  destruct (Z.ltb_spec (candidate 255 c) 255) as [Hc|]; [|done]. injection H as H.
  apply (f_equal byte.unsigned) in H. rewrite byte.unsigned_of_Z in H.
  pose proof (candidate_nonneg 255 c). unfold byte.wrap in H. rewrite Z.mod_small in H by lia.
  change (byte.unsigned b0) with 0 in H. lia.
Qed.

Lemma existsb_byte x l : existsb (Byte.eqb x) l = true <-> x ∈ l.
Proof.
  rewrite existsb_exists. split.
  - intros (y & Hy & E). apply byte_eqb_spec in E as ->. by apply list_elem_of_In.
  - intros H. exists x. split; [by apply list_elem_of_In|]. by apply byte_eqb_spec.
Qed.

Lemma nk8_gen_part_id_spec fuel ids : forall r, (length r < fuel)%nat ->
  (nk8_gen_part_id fuel ids r = Ret None /\ offered r ⊆ ids) \/
  (exists id r' pre, nk8_gen_part_id fuel ids r = Ret (Some (id, r')) /\ id ∉ ids /\
     offered r = pre ++ id :: offered r' /\ pre ⊆ ids).
Proof.
  induction fuel as [|fuel IH]; intros r Hr; [lia|]. cbn [nk8_gen_part_id].
  rewrite rand_u32_up_255. cbn [obind].
  pose proof (rand_u32_up_loop_spec 255 255 r) as S.
  destruct (rand_u32_up_loop 255 255 r) as [[v r']|].
  - destruct S as (sk & c & -> & Hv & Hlt & Hsk).
    rewrite offered_skip by done. cbn [offered omap list_omap]. rewrite <- Hv.
    rewrite (proj2 (Z.ltb_lt v 255) Hlt). fold (offered r').
    destruct (existsb _ ids) eqn:E.
    + apply existsb_byte in E. rewrite length_app in Hr. cbn in Hr.
      destruct (IH r' ltac:(lia)) as [[E1 E2]|(id & r'' & pre & E1 & E2 & E3 & E4)].
      * left. split; [done|]. set_solver.
      * right. exists id, r'', (byte.of_Z (1 + v) :: pre). split; [done|]. split; [done|].
        split; [cbn; by rewrite E3|]. set_solver.
    + right. exists (byte.of_Z (1 + v)), r', []. split; [done|]. split; [|split; [done|]].
      * intros H. apply existsb_byte in H. congruence.
      * set_solver.
  - left. split; [done|]. rewrite <- (app_nil_r r), offered_skip by done. set_solver.
Qed.

Lemma nk8_gen_part_ids_from_spec n : forall ids r,
  NoDup ids -> b0 ∉ ids ->
  match nk8_gen_part_ids_from n ids r with
  | Ret (Some (ids', _)) => NoDup ids' /\ b0 ∉ ids' /\ length ids' = (length ids + n)%nat
  | Ret None => forall ks, NoDup ks -> ks ⊆ ids ++ offered r -> (length ks < length ids + n)%nat
  | Bug => False
  end.
Proof.
  induction n as [|n IH]; intros ids r N Z0; cbn [nk8_gen_part_ids_from].
  { split; [done|]. split; [done|]. lia. }
  destruct (nk8_gen_part_id_spec (S (length r)) ids r) as
    [[-> Ho]|(id & r' & pre & -> & Hid & Ho & Hpre)]; [lia| |]; cbn [obind].
  - intros ks Nk Hk.
    assert (ks ⊆ ids) as Hk' by set_solver.
    apply NoDup_submseteq, submseteq_length in Hk'; [lia|done].
  - assert (id <> b0) by (intros ->; apply (offered_nonzero r); rewrite Ho; apply elem_of_app; right; left).
    specialize (IH (ids ++ [id]) r').
    destruct (nk8_gen_part_ids_from n (ids ++ [id]) r') as [[[ids' r'']|]|]; rewrite ?length_app in IH;
      cbn [length] in IH.
    + destruct IH as (? & ? & ->); [|set_solver|].
      * apply NoDup_app. split; [done|]. split; [set_solver|apply NoDup_singleton].
      * split; [done|]. split; [done|]. lia.
    + intros ks Nk Hk. replace (length ids + S n)%nat with (length ids + 1 + n)%nat by lia.
      apply IH; [|set_solver|done|].
      * apply NoDup_app. split; [done|]. split; [set_solver|apply NoDup_singleton].
      * rewrite Ho in Hk. set_solver.
    + apply IH; [|set_solver].
      apply NoDup_app. split; [done|]. split; [set_solver|apply NoDup_singleton].
Qed.

Lemma nk8_gen_part_ids_spec n r :
  match nk8_gen_part_ids n r with
  | Ret (Some (ids, _)) => NoDup ids /\ b0 ∉ ids /\ length ids = n
  | Ret None => (length (remove_dups (offered r)) < n)%nat
  | Bug => False
  end.
Proof.
  pose proof (nk8_gen_part_ids_from_spec n [] r ltac:(apply NoDup_nil_2) ltac:(set_solver)) as H.
  unfold nk8_gen_part_ids. destruct (nk8_gen_part_ids_from n [] r) as [[[ids r']|]|]; [done| |done].
  apply (H (remove_dups (offered r))); [apply NoDup_remove_dups|].
  intros x. by rewrite elem_of_remove_dups.
Qed.

(** ** The geometry of a split *)

Lemma nk8_geometry bs k : 2 <= k -> 0 < bs -> bs + k < 2 ^ 32 ->
  let part_size := nk8_part_size bs k in
  let tail_size := nk8_tail_size bs part_size k in
  part_size = bs / k + (if bs mod k =? 0 then 0 else 1) /\
  tail_size = bs mod k /\
  (if tail_size =? 0 then part_size else u32 (part_size - 1)) = bs / k.
Proof.
  intros Hk Hb Hs. cbv zeta. pose proof (Z.div_mod bs k ltac:(lia)) as E.
  pose proof (Z.mod_pos_bound bs k ltac:(lia)) as M.
  assert (0 <= bs / k) by (apply Z.div_pos; lia). assert (bs / k < bs) by (apply Z.div_lt; lia).
  assert (P : nk8_part_size bs k = bs / k + (if bs mod k =? 0 then 0 else 1)).
  { unfold nk8_part_size. apply wrap_small. destruct (_ =? 0); lia. }
  split; [done|]. rewrite P. unfold nk8_tail_size.
  destruct (Z.eqb_spec (bs mod k) 0) as [E0|E0].
  - rewrite Z.add_0_r, (wrap_small 32 (bs / k * k)) by lia.
    destruct (Z.ltb_spec bs (bs / k * k)); [lia|]. cbn. by rewrite E0.
  - rewrite (wrap_small 32 ((bs / k + 1) * k)) by lia.
    destruct (Z.ltb_spec bs ((bs / k + 1) * k)); [|lia].
    replace (bs / k + 1 - 1) with (bs / k) by lia.
    rewrite (wrap_small 32 (bs / k)), (wrap_small 32 (bs / k * k)) by lia.
    rewrite (wrap_small 32) by lia. replace (bs - bs / k * k) with (bs mod k) by lia.
    destruct (Z.eqb_spec (bs mod k) 0); [done|]. done.
Qed.

(** ** Splitting *)

(** The [j]-th byte of the part [id]; a read past the end of the block gives
    the padding byte 0. *)
Definition part_byte (block : list byte) (k : nat) (id : byte) (j : nat) : byte :=
  bsum k (fun m => gf_mult_direct (gpow id m) (block !!! (j * k + m)%nat)).

Definition part_of (block : list byte) (k : nat) (id : byte) : list byte :=
  map (part_byte block k id) (seq 0 ((length block + k - 1) / k)).

(** A loop that writes [f j] at each index [j]. *)
Lemma for_up_fill {A} (f : nat -> A) q : forall (l : list A), (q <= length l)%nat ->
  for_up 0 q (fun j l => <[j := f j]> l) l = map f (seq 0 q) ++ drop q l.
Proof.
  induction q as [|q IH]; intros l Hq; [by rewrite drop_0|].
  rewrite for_up_last, IH by lia. rewrite Nat.add_0_l, seq_S, map_app, <- app_assoc. cbn [map app].
  rewrite insert_app_r_alt by (rewrite length_map, length_seq; lia).
  rewrite length_map, length_seq, Nat.sub_diag. f_equal.
  destruct (drop q l) as [|a d] eqn:E.
  { apply (f_equal length) in E. rewrite length_drop in E. cbn in E. lia. }
  cbn. f_equal. replace (S q) with (q + 1)%nat by lia. by rewrite <- drop_drop, E.
Qed.

Lemma nk8_svector_spec t k id sv : log_ok t -> (0 < k)%nat -> (k <= length sv)%nat ->
  length (nk8_svector t k id sv) = length sv /\
  forall m, (m < k)%nat -> nk8_svector t k id sv !!! m = gpow id m.
Proof.
  intros Ht Hk Hl. unfold nk8_svector.
  set (P := fun j w => length w = length sv /\ forall m, (m < j)%nat -> w !!! m = gpow id m).
  assert (H : P (1 + (k - 1))%nat
    (for_up 1 (k - 1) (fun j sv => <[j := gf_mult t (sv !!! (j - 1)%nat) id]> sv)
      (<[0%nat := b1]> sv))).
  2: { destruct H as [H1 H2]. split; [done|]. intros. apply H2. lia. }
  apply (for_up_ind P); unfold P.
  - rewrite length_insert. split; [done|]. intros m Hm. assert (m = 0%nat) as -> by lia.
    by rewrite list_lookup_total_insert_eq by lia.
  - intros j w Hj [E1 E2]. rewrite length_insert. split; [done|]. intros m Hm.
    destruct (decide (m = j)) as [->|Hmj].
    + rewrite list_lookup_total_insert_eq by lia. rewrite Ht, E2 by lia.
      destruct j as [|j]; [lia|]. cbn [gpow]. rewrite Nat.sub_succ, Nat.sub_0_r. ring.
    + rewrite list_lookup_total_insert_ne by done. apply E2. lia.
Qed.

Lemma nk8_fill_tail_spec block bs k tail : 0 < bs -> length block = Z.to_nat bs -> 0 < k ->
  (Z.to_nat k <= length tail)%nat -> bs mod k <> 0 ->
  forall m, (m < Z.to_nat k)%nat ->
  nk8_fill_tail block bs (bs mod k) (Z.to_nat k) tail !!! m =
  block !!! (Z.to_nat (bs / k) * Z.to_nat k + m)%nat.
Proof.
  intros Hb Hl Hk Ht Hr m Hm. pose proof (Z.div_mod bs k ltac:(lia)) as E.
  pose proof (Z.mod_pos_bound bs k ltac:(lia)) as M.
  assert (0 <= bs / k) by (apply Z.div_pos; lia).
  unfold nk8_fill_tail. destruct (Z.eqb_spec (bs mod k) 0); [done|].
  set (ts := Z.to_nat (bs mod k)). set (q := Z.to_nat (bs / k)).
  assert (Eo : Z.to_nat (bs - bs mod k) = (q * Z.to_nat k)%nat).
  { unfold q. rewrite <- Z2Nat.inj_mul by lia. f_equal. lia. }
  assert (El : length block = (q * Z.to_nat k + ts)%nat).
  { rewrite Hl, E at 1. rewrite Z2Nat.inj_add, Z2Nat.inj_mul by lia. unfold q, ts. lia. }
  assert (ts < Z.to_nat k)%nat by lia.
  rewrite Eo. set (src := take ts (drop (q * Z.to_nat k) block)).
  assert (Ls : length src = ts) by (unfold src; rewrite length_take, length_drop; lia).
  assert (length (memcpy_at tail 0 src) = length tail) by (apply memcpy_at_length; lia).
  rewrite memcpy_at_lookup by (rewrite length_replicate; lia). rewrite length_replicate.
  case_decide.
  - rewrite lookup_total_replicate_2 by lia. rewrite lookup_total_beyond by lia. done.
  - rewrite memcpy_at_lookup by lia. rewrite decide_True by lia. rewrite Nat.sub_0_r.
    unfold src. by rewrite lookup_total_take, lookup_total_drop by lia.
Qed.

Lemma ceil_div len k : (0 < k)%nat ->
  ((len + k - 1) / k = len / k + (if len mod k =? 0 then 0 else 1))%nat.
Proof.
  intros Hk. pose proof (Nat.div_mod len k ltac:(lia)) as E.
  pose proof (Nat.mod_upper_bound len k ltac:(lia)).
  destruct (Nat.eqb_spec (len mod k) 0) as [E0|E0].
  - symmetry. apply (Nat.div_unique _ _ _ (k - 1)); lia.
  - symmetry. apply (Nat.div_unique _ _ _ (len mod k - 1)); lia.
Qed.

Lemma nk8_part_spec t block bs k tail sv id part :
  log_ok t -> 0 < bs -> length block = Z.to_nat bs -> 0 < k ->
  (forall m, (m < Z.to_nat k)%nat -> sv !!! m = gpow id m) ->
  (bs mod k <> 0 -> forall m, (m < Z.to_nat k)%nat ->
     tail !!! m = block !!! (Z.to_nat (bs / k) * Z.to_nat k + m)%nat) ->
  length part = Z.to_nat (bs / k + (if bs mod k =? 0 then 0 else 1)) ->
  nk8_part t (Z.to_nat k) (bs / k) (bs mod k) block tail sv part = part_of block (Z.to_nat k) id.
Proof.
  intros Ht Hb Hl Hk Hsv Htl Hp. assert (0 <= bs / k) by (apply Z.div_pos; lia).
  pose proof (Z.mod_pos_bound bs k ltac:(lia)) as M.
  unfold nk8_part, part_of. rewrite ceil_div, Hl by lia.
  rewrite <- Z2Nat.inj_div, <- Z2Nat.inj_mod by lia.
  rewrite for_up_fill by (rewrite Hp; destruct (_ =? 0); lia).
  assert (E : map (fun j => gf_dot t (Z.to_nat k) (fun m => sv !!! m)
      (fun m => block !!! (j * Z.to_nat k + m)%nat)) (seq 0 (Z.to_nat (bs / k))) =
    map (part_byte block (Z.to_nat k) id) (seq 0 (Z.to_nat (bs / k)))).
  { apply map_ext. intros j. rewrite gf_dot_bsum by done. apply bsum_ext. intros m Hm.
    by rewrite Hsv. }
  rewrite E. clear E. destruct (Z.eqb_spec (bs mod k) 0) as [E0|E0].
  - rewrite E0. cbn [Nat.eqb]. rewrite Nat.add_0_r. rewrite drop_ge, app_nil_r; [done|]. lia.
  - destruct (Nat.eqb_spec (Z.to_nat (bs mod k)) 0); [lia|].
    rewrite seq_app, map_app. cbn [seq map Nat.add].
    rewrite insert_app_r_alt by (rewrite length_map, length_seq; lia).
    rewrite length_map, length_seq, Nat.sub_diag. f_equal.
    destruct (drop (Z.to_nat (bs / k)) part) as [|a d] eqn:Ed.
    { apply (f_equal length) in Ed. rewrite length_drop in Ed. cbn in Ed. lia. }
    assert (d = []) as ->.
    { apply (f_equal length) in Ed. rewrite length_drop in Ed. cbn in Ed. destruct d; [done|cbn in *; lia]. }
    cbn. f_equal. rewrite gf_dot_bsum by done. apply bsum_ext. intros m Hm.
    by rewrite Hsv, Htl.
Qed.

Lemma nk8_parts_spec t block bs k tail part : 
  log_ok t -> 0 < bs -> length block = Z.to_nat bs -> 0 < k ->
  (bs mod k <> 0 -> forall m, (m < Z.to_nat k)%nat ->
     tail !!! m = block !!! (Z.to_nat (bs / k) * Z.to_nat k + m)%nat) ->
  length part = Z.to_nat (bs / k + (if bs mod k =? 0 then 0 else 1)) ->
  forall ids sv, (Z.to_nat k <= length sv)%nat ->
  nk8_parts t (Z.to_nat k) (bs / k) (bs mod k) block tail sv ids part =
  map (part_of block (Z.to_nat k)) ids.
Proof.
  intros Ht Hb Hl Hk Htl Hp ids. induction ids as [|id ids IH]; intros sv Hsv; [done|].
  cbn [nk8_parts map]. destruct (nk8_svector_spec t (Z.to_nat k) id sv) as [L V]; [done|lia|done|].
  f_equal; [by apply nk8_part_spec|]. apply IH. lia.
Qed.

(** What the tables hold after [nk8_init]. *)
Definition tables_ready (t : tables) : Prop :=
  inited t = true /\ log_ok t /\ forall a b, gf_div t a b = gdiv a b.

Definition params_ok (bs n k : Z) : Prop := 2 <= k <= 254 /\ k <= n <= 255 /\ 0 < bs < 2 ^ 32.

Lemma nk8_params_spec bs n k : 0 <= bs < 2 ^ 32 ->
  nk8_params_invalid bs n k = false <-> params_ok bs n k.
Proof. unfold nk8_params_invalid, params_ok, MIN_N, MIN_K, MAX_N, MAX_K. lia. Qed.

(** The two ways a split past the parameter check ends: an allocation failed
    and everything is freed, or the ids are drawn, the parts computed, and
    [n + 2] allocations are handed over. *)
Lemma nk8_split_memory t junk block bs n k h r :
  heap_wf h -> inited t = true -> nk8_params_invalid bs n k = false -> 0 <= n ->
  let part_size := nk8_part_size bs k in
  let tail_size := nk8_tail_size bs part_size k in
  let part_size' := if tail_size =? 0 then part_size else u32 (part_size - 1) in
  let tail := nk8_fill_tail block bs tail_size (Z.to_nat k) (replicate (Z.to_nat MAX_K) junk) in
  (exists h', nk8_split_block t junk block bs n k h r =
     Ret (Some (Split (- ENOMEM) [] [] [] h' r)) /\ hlive h' = hlive h /\ ~ no_fail h) \/
  (exists owned h', owns h owned h' /\ length owned = Z.to_nat (n + 2) /\
     nk8_split_block t junk block bs n k h r =
     let! gen := nk8_gen_part_ids (Z.to_nat n) r in
     match gen with
     | None => Ret None
     | Some (ids, r) =>
         Ret (Some (Split 0
           (nk8_parts t (Z.to_nat k) part_size' tail_size block tail
              (replicate (Z.to_nat MAX_K) junk) ids (replicate (Z.to_nat part_size) junk))
           ids owned h' r))
     end).
Proof.
  intros W Hi Hv Hn ps ts ps' tail. unfold nk8_split_block. rewrite Hv, Hi. cbn [negb].
  destruct (crt_malloc h) as [sv h1] eqn:E1.
  destruct (if sv then _ else _) as [tl h2] eqn:E2.
  destruct (if tl then _ else _) as [ids h3] eqn:E3.
  destruct (if ids then _ else _) as [parts h4] eqn:E4.
  destruct (if parts then _ else _) as [[rows ok] h5] eqn:E5.
  pose proof (owns_malloc_if (Some tt) h [] h sv h1 (owns_refl h W) E1) as O1.
  pose proof (owns_malloc_if _ _ _ _ _ _ O1 E2) as O2.
  pose proof (owns_malloc_if _ _ _ _ _ _ O2 E3) as O3.
  pose proof (owns_malloc_if _ _ _ _ _ _ O3 E4) as O4.
  pose proof (owns_malloc_many_if _ _ _ _ _ _ _ _ O4 E5) as [O5 Hok].
  rewrite <- !app_assoc in O5. cbn [app] in O5. destruct ok; cbn [negb].
  - right. destruct (Hok eq_refl) as [[pp ->] Lr]. destruct ids as [pi|]; [|done].
    eexists (pi :: pp :: rows), _. split; [|split; [cbn [length]; lia|done]].
    apply (owns_free_opt h [] sv). by apply (owns_free_opt h (olist sv) tl).
  - left. eexists. split; [done|]. split.
    + apply owns_nil. apply (owns_free_opt h [] parts []). cbn [app].
      apply (owns_free_all h rows (olist parts) []). rewrite app_nil_r.
      apply (owns_free_opt h [] ids). apply (owns_free_opt h [] sv).
      by apply (owns_free_opt h (olist sv) tl).
    + intros F. destruct (no_fail_malloc _ _ _ F E1) as [[? ->] F1].
      destruct (no_fail_malloc _ _ _ F1 E2) as [[? ->] F2].
      destruct (no_fail_malloc _ _ _ F2 E3) as [[? ->] F3].
      destruct (no_fail_malloc _ _ _ F3 E4) as [[? ->] F4].
      by destruct (no_fail_malloc_many _ _ _ _ _ F4 E5).
Qed.

(** What a successful split hands over. *)
Lemma nk8_split_outcome t junk block bs n k h r :
  tables_ready t -> params_ok bs n k -> bs + k < 2 ^ 32 -> length block = Z.to_nat bs ->
  heap_wf h -> n <= Z.of_nat (length (remove_dups (offered r))) -> no_fail h ->
  exists ids owned h' r', nk8_split_block t junk block bs n k h r =
    Ret (Some (Split 0 (map (part_of block (Z.to_nat k)) ids) ids owned h' r')) /\
  NoDup ids /\ b0 ∉ ids /\ length ids = Z.to_nat n /\
  owns h owned h' /\ length owned = Z.to_nat (n + 2).
Proof.
  intros (Hi & Ht & Hd) HP Hs Hl W Hr F.
  assert (Hv : nk8_params_invalid bs n k = false)
    by (apply nk8_params_spec; [unfold params_ok in HP; lia|done]).
  destruct HP as (Hk & Hn & Hb).
  destruct (nk8_split_memory t junk block bs n k h r W Hi Hv ltac:(lia)) as
    [(h' & _ & _ & NF)|(owned & h' & O & Lo & ->)]; [done|].
  pose proof (nk8_gen_part_ids_spec (Z.to_nat n) r) as G.
  destruct (nk8_gen_part_ids (Z.to_nat n) r) as [[[ids r']|]|]; [|lia|done].
  destruct G as (G1 & G2 & G3). cbn [obind]. exists ids, owned, h', r'.
  destruct (nk8_geometry bs k) as (P1 & P2 & P3); [lia..|]. rewrite P2 in P3 |- *. rewrite P3.
  rewrite nk8_parts_spec; [done|done|lia|done|lia| | |].
  - intros Hr0. apply nk8_fill_tail_spec; try done; try lia.
    rewrite length_replicate. unfold MAX_K. lia.
  - rewrite length_replicate. by rewrite P1.
  - rewrite length_replicate. unfold MAX_K. lia.
Qed.

(** ** Assembling *)

Definition selected (k : nat) (ids : list byte) (i : nat) (enc : byte -> list byte)
    (M : list (list byte)) (sparts : list (list byte)) (num : nat) : Prop :=
  exists chosen, length chosen = num /\ NoDup chosen /\
  (forall x, x ∈ chosen <-> x ∈ take i ids) /\ sparts = map enc chosen /\
  dims k k M /\ (forall c, (c < k)%nat -> mget M 0 c = b1) /\
  (forall c, (c < num)%nat -> mget M 1 c = chosen !!! c).

Lemma nk8_select_step k ids i enc M sp num :
  (2 <= k)%nat -> (i < length ids)%nat -> (num < k)%nat -> selected k ids i enc M sp num ->
  let id := ids !!! i in
  let found := existsb (Byte.eqb id) (take i ids) in
  let '(M', sp', num') :=
    if found then (M, sp, num)
    else (mset M 1 num id, sp ++ [map enc ids !!! i], S num) in
  selected k ids (i + 1) enc M' sp' num'.
Proof.
  intros Hk Hi Hn (ch & Lc & Nc & Ec & Esp & D & R0 & R1) id found.
  assert (Ht : take (i + 1) ids = take i ids ++ [id]).
  { rewrite Nat.add_1_r. apply take_S_r, list_lookup_lookup_total_lt. done. }
  unfold found. destruct (existsb _ (take i ids)) eqn:E.
  - apply existsb_byte in E. exists ch. rewrite Ht. repeat (split; [done|]).
    split; [|by repeat (split; [done|])]. intros x. rewrite Ec. set_solver.
  - assert (Hid : id ∉ take i ids) by (intros H; apply existsb_byte in H; congruence).
    exists (ch ++ [id]). rewrite Ht. split; [len|].
    split; [apply NoDup_app; split; [done|]; split; [|apply NoDup_singleton]; set_solver|].
    split; [set_solver|]. split.
    { rewrite map_app, Esp. cbn [map]. do 2 f_equal. apply (list_lookup_total_fmap enc). done. }
    split; [by apply dims_mset|]. split; intros c Hc; rewrite (mget_mset k k) by (done || lia).
    + rewrite decide_False by lia. by apply R0.
    + rewrite lookup_total_app. destruct (decide (c = num)) as [->|].
      * rewrite decide_True by done. rewrite decide_False by lia. by rewrite Lc, Nat.sub_diag.
      * rewrite decide_False by lia. rewrite decide_True by lia. apply R1. lia.
Qed.

Lemma nk8_select_spec k ids enc m : forall i M sp num,
  (2 <= k)%nat -> (i + m = length ids)%nat -> (num < k)%nat -> selected k ids i enc M sp num ->
  exists i' M' sp' num', nk8_select k ids i m (map enc ids) M sp num = (M', sp', num') /\
  selected k ids i' enc M' sp' num' /\ (num' = k \/ ((num' < k)%nat /\ i' = length ids)).
Proof.
  induction m as [|m IH]; intros i M sp num Hk Hi Hn HS; cbn [nk8_select].
  { exists i, M, sp, num. split; [done|]. split; [done|]. right. lia. }
  pose proof (nk8_select_step k ids i enc M sp num Hk ltac:(lia) Hn HS) as Step. cbv zeta in Step.
  destruct (if existsb _ _ then _ else _) as [[M' sp'] num'] eqn:E.
  destruct (Nat.eqb_spec num' k) as [->|Hne].
  - exists (i + 1)%nat, M', sp', k. auto.
  - apply IH; [done|lia| |done].
    destruct (existsb _ _); injection E as <- <- <-; lia.
Qed.

Lemma nk8_powers_spec t k M x : log_ok t -> (2 <= k)%nat -> dims k k M ->
  (forall c, (c < k)%nat -> mget M 0 c = b1) -> (forall c, (c < k)%nat -> mget M 1 c = x c) ->
  dims k k (nk8_powers t k M) /\
  forall r c, (r < k)%nat -> (c < k)%nat -> mget (nk8_powers t k M) r c = gpow (x c) r.
Proof.
  intros Ht Hk D R0 R1.
  set (P := fun i m W => dims k k W /\ forall r c, (r < k)%nat -> (c < k)%nat ->
    (c < i \/ r < 2 \/ (c = i /\ r < m))%nat -> mget W r c = gpow (x c) r).
  assert (H : P (0 + k)%nat 0%nat (nk8_powers t k M)).
  { apply (for_up_ind (fun i => P i 0%nat)).
    - split; [done|]. intros r c Hr Hc H. assert (r < 2)%nat as H2 by lia.
      destruct r as [|[|r]]; [by apply R0| |lia]. rewrite R1 by done. cbn. ring.
    - intros i W Hi [DW EW].
      assert (Hin : P i (2 + (k - 2))%nat (for_up 2 (k - 2) (fun m W => mset W m i
        (gf_mult t (mget W (m - 1) i) (mget W 1 i))) W)).
      { apply (for_up_ind (P i)).
        - split; [done|]. intros r c Hr Hc H. apply EW; lia.
        - intros m W' Hm [DW' EW']. split; [by apply dims_mset|]. intros r c Hr Hc H.
          rewrite (mget_mset k k) by (done || lia).
          destruct (decide (r = m /\ c = i)) as [[-> ->]|]; [|apply EW'; lia].
          rewrite Ht, (EW' (m - 1)%nat), (EW' 1%nat) by lia. destruct m as [|m]; [lia|].
          rewrite Nat.sub_succ, Nat.sub_0_r. cbn [gpow]. ring. }
      destruct Hin as [DW' EW']. split; [done|]. intros r c Hr Hc H. apply EW'; lia. }
  destruct H as [H1 H2]. split; [done|]. intros. apply H2; lia.
Qed.

(** The bytes decoded at position [j] of the parts. *)
Lemma nk8_decode_spec t k block M inm chosen j :
  log_ok t -> (0 < k)%nat -> length chosen = k -> (j < (length block + k - 1) / k)%nat ->
  (forall r c, (r < k)%nat -> (c < k)%nat -> mget M r c = gpow (chosen !!! c) r) ->
  (forall b m, (m < k)%nat ->
    bsum k (fun i => gf_mult_direct (combo k b (mget M) i) (mget inm i m)) = b m) ->
  nk8_decode t k inm (map (part_of block k) chosen) j =
  map (fun m => block !!! (j * k + m)%nat) (seq 0 k).
Proof.
  intros Ht Hk Lc Hj HM HI. unfold nk8_decode. apply map_ext_in. intros m Hm. apply in_seq in Hm.
  rewrite gf_dot_bsum by done.
  rewrite <- (HI (fun m => block !!! (j * k + m)%nat) m) by lia.
  apply bsum_ext. intros i Hi. f_equal.
  rewrite (list_lookup_total_fmap (fun i => (map (part_of block k) chosen !!! i) !!! j))
    by (rewrite length_seq; lia).
  rewrite lookup_total_seq_lt, Nat.add_0_l by lia.
  rewrite (list_lookup_total_fmap (part_of block k)) by lia. unfold part_of.
  rewrite (list_lookup_total_fmap (part_byte _ _ _)) by (rewrite length_seq; done).
  rewrite lookup_total_seq_lt, Nat.add_0_l by done.
  apply bsum_ext. intros r Hr. rewrite HM by done. apply gmul_comm.
Qed.

Lemma group_take (block : list byte) o c k : (c <= k)%nat -> (o + c <= length block)%nat ->
  take c (map (fun m => block !!! (o + m)%nat) (seq 0 k)) = take c (drop o block).
Proof.
  intros Hc Ho. apply list_eq_total; [len; rewrite length_seq; lia|].
  intros i Hi. rewrite length_take, length_map, length_seq in Hi.
  rewrite !lookup_total_take by lia.
  rewrite (list_lookup_total_fmap (fun m => block !!! (o + m)%nat)) by (rewrite length_seq; lia).
  by rewrite lookup_total_seq_lt, lookup_total_drop by lia.
Qed.

Lemma nk8_decode_all_spec t k inm sparts block buf q :
  length buf = length block -> (q * k <= length block)%nat ->
  (forall j, (j < q)%nat -> nk8_decode t k inm sparts j =
     map (fun m => block !!! (j * k + m)%nat) (seq 0 k)) ->
  let out := nk8_decode_all t k inm sparts q buf in
  length out = length block /\ take (q * k) out = take (q * k) block.
Proof.
  intros Lb Hq HD out.
  apply (for_up_ind (fun j W => length W = length block /\ take (j * k) W = take (j * k) block)
    _ q 0); [done|].
  intros j W Hj [L E]. assert (S j * k <= q * k)%nat by (apply Nat.mul_le_mono_r; lia).
  rewrite HD by lia. set (D := map _ _).
  assert (LD : length D = k) by (unfold D; by rewrite length_map, length_seq).
  rewrite memcpy_at_length by lia. split; [done|].
  replace (S j * k)%nat with (j * k + length D)%nat at 1 by lia.
  rewrite memcpy_at_take by lia. rewrite E.
  replace (S j * k)%nat with (j * k + k)%nat by lia. rewrite <- take_take_drop. f_equal.
  rewrite <- (group_take block (j * k) k k) by lia. unfold D. rewrite take_ge; [done|].
  rewrite length_map, length_seq. lia.
Qed.

Lemma zero_matrix_dims k : dims k k (zero_matrix k).
Proof. apply dims_replicate. Qed.

(** The initial matrix and an empty selection. *)
Lemma selected_init k ids enc : (2 <= k)%nat ->
  selected k ids 0 enc (for_up 0 k (fun i m => mset m 0 i b1) (zero_matrix k)) [] 0.
Proof.
  intros Hk. exists []. split; [done|]. split; [apply NoDup_nil_2|].
  split; [by rewrite take_0|]. split; [done|].
  destruct (row_loop k 0 (fun _ _ => b1) (fun _ => b1) (zero_matrix k)) as [D E];
    [lia|apply zero_matrix_dims|done|].
  split; [done|]. split; [|intros c Hc; lia]. intros c Hc. by rewrite E.
Qed.

(** The block comes back from any parts with [k] distinct ids. *)
Lemma nk8_assemble_spec t block bs ids k buf :
  tables_ready t -> 0 < bs -> 2 <= k -> length block = Z.to_nat bs -> length buf = length block ->
  k <= Z.of_nat (length (remove_dups ids)) ->
  nk8_assemble t (map (part_of block (Z.to_nat k)) ids) ids (length ids) (Z.to_nat k)
    (bs / k) (bs mod k) bs buf = (0, block).
Proof.
  intros (_ & Ht & Hd) Hb Hk Hl Lb Hids. unfold nk8_assemble. set (kn := Z.to_nat k) in *.
  destruct (nk8_select_spec kn ids (part_of block kn) (length ids) 0
    (for_up 0 kn (fun i m => mset m 0 i b1) (zero_matrix kn)) [] 0) as (i' & M & sp & num & -> & HS & Hn);
    [lia|lia|lia|apply selected_init; lia|].
  destruct HS as (ch & Lc & Nc & Ec & -> & D & R0 & R1).
  assert (num = kn) as ->.
  { destruct Hn as [|[Hn Hi]]; [done|]. exfalso. rewrite Hi, take_ge in Ec by lia.
    assert (length (remove_dups ids) <= length ch)%nat; [|lia].
    apply submseteq_length, NoDup_submseteq; [apply NoDup_remove_dups|].
    intros x. rewrite elem_of_remove_dups. by rewrite Ec. }
  rewrite Nat.ltb_irrefl.
  destruct (nk8_powers_spec t kn M (fun c => ch !!! c)) as [DP EP]; [done|lia|done..|].
  destruct (gf_inverse_vandermonde t kn (nk8_powers t kn M) (zero_matrix kn) (fun c => ch !!! c))
    as (M' & V & -> & HV); [done|done|lia| |done|apply zero_matrix_dims|done|].
  { intros c d Hc Hd' E. eapply NoDup_lookup; [exact Nc| |];
      [apply list_lookup_lookup_total_lt; lia|].
    rewrite E. apply list_lookup_lookup_total_lt. lia. }
  cbn [Z.eqb negb].
  pose proof (Z.div_mod bs k ltac:(lia)) as E. pose proof (Z.mod_pos_bound bs k ltac:(lia)) as Mb.
  assert (0 <= bs / k) by (apply Z.div_pos; lia).
  set (q := Z.to_nat (bs / k)) in *.
  assert (El : length block = (q * kn + Z.to_nat (bs mod k))%nat).
  { rewrite Hl, E at 1. rewrite Z2Nat.inj_add, Z2Nat.inj_mul by lia. unfold q, kn. lia. }
  assert (Hc : ((length block + kn - 1) / kn = q + (if Z.to_nat (bs mod k) =? 0 then 0 else 1))%nat).
  { rewrite ceil_div by lia. rewrite Hl. unfold q, kn.
    by rewrite <- Z2Nat.inj_div, <- Z2Nat.inj_mod by lia. }
  assert (Dec : forall j, (j < (length block + kn - 1) / kn)%nat ->
    nk8_decode t kn V (map (part_of block kn) ch) j =
    map (fun m => block !!! (j * kn + m)%nat) (seq 0 kn)).
  { intros j Hj. by apply (nk8_decode_spec t kn block (nk8_powers t kn M)); try done; lia. }
  destruct (nk8_decode_all_spec t kn V (map (part_of block kn) ch) block buf q) as [Lo Eo];
    [done|lia|intros; apply Dec; lia|].
  destruct (Z.eqb_spec (bs mod k) 0) as [E0|E0]; f_equal.
  - rewrite E0 in El. rewrite !take_ge in Eo by lia. done.
  - rewrite Dec by (rewrite Hc; destruct (Nat.eqb_spec (Z.to_nat (bs mod k)) 0); lia).
    rewrite group_take by lia.
    assert (Z.to_nat (bs - bs mod k) = q * kn)%nat as ->.
    { unfold q, kn. rewrite <- Z2Nat.inj_mul by lia. f_equal. lia. }
    unfold memcpy_at. rewrite Eo. rewrite (drop_ge (nk8_decode_all _ _ _ _ _ _)) by len.
    rewrite app_nil_r. rewrite take_take_drop. apply take_ge. lia.
Qed.

(** With fewer distinct ids there is nothing to invert. *)
Lemma nk8_assemble_short t enc ids k ps ts bs buf :
  (2 <= k)%nat -> (length (remove_dups ids) < k)%nat ->
  nk8_assemble t (map enc ids) ids (length ids) k ps ts bs buf = (- EINVAL, buf).
Proof.
  intros Hk Hids. unfold nk8_assemble.
  destruct (nk8_select_spec k ids enc (length ids) 0
    (for_up 0 k (fun i m => mset m 0 i b1) (zero_matrix k)) [] 0) as (i' & M & sp & num & -> & HS & Hn);
    [lia|lia|lia|by apply selected_init|].
  destruct HS as (ch & Lc & Nc & Ec & _).
  assert (num < k)%nat as Hlt.
  { assert (length ch <= length (remove_dups ids))%nat; [|lia].
    apply submseteq_length, NoDup_submseteq; [done|].
    intros x Hx. rewrite elem_of_remove_dups. apply Ec in Hx. by eapply subseteq_take. }
  by rewrite (proj2 (Nat.ltb_lt _ _) Hlt).
Qed.

(** *** The memory of an assembly *)

Definition mlist (o : option (nat * list nat)) : list nat :=
  match o with Some (m, rows) => m :: rows | None => [] end.

Lemma owns_alloc_matrix_if {B} (b : option B) k h ps h' o h'' :
  owns h ps h' -> (if b then gf_alloc_matrix k h' else (None, h')) = (o, h'') ->
  owns h (ps ++ mlist o) h''.
Proof.
  intros O. destruct b; [|intros [= <- <-]; by rewrite app_nil_r]. unfold gf_alloc_matrix.
  destruct (crt_malloc h') as [[m|] h1] eqn:E1.
  - apply (owns_malloc _ _ _ _ _ O) in E1. destruct (malloc_many k h1) as [[rows ok] h2] eqn:E2.
    apply (owns_malloc_many _ _ _ _ _ _ _ E1) in E2 as [E2 _]. rewrite <- app_assoc in E2.
    destruct ok; intros [= <- <-]; [done|]. cbn [mlist].
    apply (owns_free h ps m []). change (ps ++ [m]) with (ps ++ [m] ++ []).
    rewrite app_assoc. apply owns_free_all. by rewrite app_nil_r, <- app_assoc.
  - intros [= <- <-]. rewrite app_nil_r. by eapply owns_malloc_fail.
Qed.

Lemma owns_free_matrix h ps1 o ps2 h' :
  owns h (ps1 ++ mlist o ++ ps2) h' ->
  owns h (ps1 ++ ps2) (match o with Some p => gf_free_matrix p h' | None => h' end).
Proof.
  destruct o as [[m rows]|]; [|done]. intros O. unfold gf_free_matrix. cbn [fst snd].
  apply (owns_free h ps1 m ps2). replace (ps1 ++ m :: ps2) with ((ps1 ++ [m]) ++ ps2) by (by rewrite <- app_assoc).
  apply owns_free_all. rewrite <- app_assoc. exact O.
Qed.

Lemma no_fail_alloc_matrix k h o h' : no_fail h -> gf_alloc_matrix k h = (o, h') ->
  is_Some o /\ no_fail h'.
Proof.
  intros F. unfold gf_alloc_matrix. destruct (crt_malloc h) as [m h1] eqn:E1.
  destruct (no_fail_malloc _ _ _ F E1) as [[p ->] F1].
  destruct (malloc_many k h1) as [[rows ok] h2] eqn:E2.
  destruct (no_fail_malloc_many _ _ _ _ _ F1 E2) as [-> F2]. intros [= <- <-]. by split.
Qed.

(** The two ways an assembly past the parameter check ends. *)
Lemma nk8_assemble_memory t parts ids n k buf bs h :
  heap_wf h -> inited t = true -> nk8_params_invalid bs n k = false ->
  let part_size := nk8_part_size bs k in
  let tail_size := nk8_tail_size bs part_size k in
  let part_size := if tail_size =? 0 then part_size else u32 (part_size - 1) in
  exists err out h', nk8_assemble_block t parts ids n k buf bs h = (err, out, h') /\
  hlive h' = hlive h /\
  ((err = - ENOMEM /\ out = buf /\ ~ no_fail h) \/
   (err, out) = nk8_assemble t parts ids (Z.to_nat n) (Z.to_nat k) part_size tail_size bs buf).
Proof.
  intros W Hi Hv ps ts ps'. unfold nk8_assemble_block. rewrite Hv, Hi. cbn [negb].
  cbv zeta. fold ps. fold ts. fold ps'. clearbody ps' ts.
  destruct (if ts =? 0 then _ else _) as [[tail tok] h1] eqn:E1.
  assert (O1 : owns h (olist tail) h1 /\ (no_fail h -> tok = true /\ no_fail h1)).
  { destruct (ts =? 0).
    - injection E1 as <- <- <-. split; [by apply owns_refl|done].
    - destruct (crt_malloc h) as [p hp] eqn:Em. injection E1 as <- <- <-. split.
      + apply (owns_malloc_if (Some tt) h [] h p hp (owns_refl h W) Em).
      + intros F. destruct (no_fail_malloc _ _ _ F Em) as [Hp F']. by rewrite bool_decide_true. }
  destruct O1 as [O1 F1].
  destruct (if tok then _ else _) as [im h2] eqn:E2.
  destruct (if im then _ else _) as [om h3] eqn:E3.
  destruct (if om then _ else _) as [sv h4] eqn:E4.
  destruct (if sv then _ else _) as [sp h5] eqn:E5.
  destruct (if sp then _ else _) as [err out] eqn:E6.
  assert (O2 : owns h (olist tail ++ mlist im) h2).
  { apply (owns_alloc_matrix_if (if tok then Some tt else None) (Z.to_nat k) _ _ h1); [done|].
    by destruct tok. }
  pose proof (owns_alloc_matrix_if _ _ _ _ _ _ _ O2 E3) as O3.
  pose proof (owns_malloc_if _ _ _ _ _ _ O3 E4) as O4.
  pose proof (owns_malloc_if _ _ _ _ _ _ O4 E5) as O5.
  eexists _, _, _. split; [done|]. split.
  - apply owns_nil. apply (owns_free_opt h [] sp []). apply (owns_free_opt h [] sv (olist sp ++ [])).
    apply (owns_free_matrix h [] om). apply (owns_free_matrix h [] im). apply (owns_free_opt h [] tail).
    rewrite app_nil_r. rewrite <- !app_assoc in O5. exact O5.
  - destruct sp; [by right|]. injection E6 as <- <-. left. split; [done|]. split; [done|].
    intros F. apply F1 in F as [-> F]. destruct (no_fail_alloc_matrix _ _ _ _ F E2) as [[? ->] F2].
    destruct (no_fail_alloc_matrix _ _ _ _ F2 E3) as [[? ->] F3].
    destruct (no_fail_malloc _ _ _ F3 E4) as [[? ->] F4].
    by destruct (no_fail_malloc _ _ _ F4 E5) as [[? ?] ?].
Qed.

(** Assembling parts of a block, past the parameter check. *)
Lemma nk8_assemble_outcome t block bs ids n k buf h :
  tables_ready t -> params_ok bs n k -> bs + k < 2 ^ 32 ->
  length block = Z.to_nat bs -> length buf = length block -> length ids = Z.to_nat n -> heap_wf h ->
  exists err out h',
  nk8_assemble_block t (map (part_of block (Z.to_nat k)) ids) ids n k buf bs h = (err, out, h') /\
  hlive h' = hlive h /\
  ((err = - ENOMEM /\ out = buf /\ ~ no_fail h) \/
   (err, out) = if k <=? Z.of_nat (length (remove_dups ids)) then (0, block) else (- EINVAL, buf)).
Proof.
  intros Hr HP Hs Hl Lb Li W.
  assert (Hv : nk8_params_invalid bs n k = false)
    by (apply nk8_params_spec; [unfold params_ok in HP; lia|done]).
  destruct HP as (Hk & Hn & Hb).
  destruct (nk8_assemble_memory t (map (part_of block (Z.to_nat k)) ids) ids n k buf bs h)
    as (err & out & h' & E & L & R); [done|apply Hr|done|].
  exists err, out, h'. split; [done|]. split; [done|]. destruct R as [R|R]; [by left|right].
  rewrite R. destruct (nk8_geometry bs k) as (P1 & P2 & P3); [lia..|].
  rewrite P2 in P3 |- *. rewrite P3, <- Li.
  destruct (Z.leb_spec k (Z.of_nat (length (remove_dups ids)))).
  - apply nk8_assemble_spec; (done || lia).
  - apply nk8_assemble_short; lia.
Qed.

Lemma remove_dups_NoDup {A} `{EqDecision A} (l : list A) : NoDup l -> remove_dups l = l.
Proof.
  induction 1 as [|x l Hx _ IH]; [done|]. cbn [remove_dups]. case_decide; [done|]. by rewrite IH.
Qed.

Lemma NoDup_select {A} `{Inhabited A} (l : list A) (sel : list nat) :
  NoDup l -> NoDup sel -> Forall (fun i => (i < length l)%nat) sel ->
  NoDup (map (fun i => l !!! i) sel).
Proof.
  intros Nl Ns F. rewrite Forall_forall in F. apply NoDup_fmap_2_strong; [|done].
  intros i j Hi Hj E. eapply NoDup_lookup; [exact Nl| |];
    [apply list_lookup_lookup_total_lt; auto|]. rewrite E.
  apply list_lookup_lookup_total_lt. auto.
Qed.

(** (C6) The N-K guarantee.  When memory is available and the random stream
    offers [n] distinct ids, splitting a block succeeds, and from ANY selection
    of at least [k] of the [n] parts, in any order, assembling gives back
    exactly the block and leaves no allocation behind. *)
Theorem nk8_round_trip t junk block bs n k h r :
  tables_ready t -> params_ok bs n k -> bs + k < 2 ^ 32 -> length block = Z.to_nat bs ->
  heap_wf h -> n <= Z.of_nat (length (remove_dups (offered r))) -> no_fail h ->
  exists res, nk8_split_block t junk block bs n k h r = Ret (Some res) /\ sp_err res = 0 /\
  forall sel buf, NoDup sel -> Forall (fun i => (i < Z.to_nat n)%nat) sel ->
  k <= Z.of_nat (length sel) -> length buf = Z.to_nat bs ->
  exists h',
  nk8_assemble_block t (map (fun i => sp_parts res !!! i) sel) (map (fun i => sp_ids res !!! i) sel)
    (Z.of_nat (length sel)) k buf bs (sp_heap res) = (0, block, h') /\
  hlive h' = hlive (sp_heap res).
Proof.
  intros Hr HP Hs Hl W Ho F.
  destruct (nk8_split_outcome t junk block bs n k h r) as
    (ids & owned & h1 & r' & E & Ni & _ & Li & O & _); [done..|].
  eexists. split; [exact E|]. split; [done|]. cbn [sp_parts sp_ids sp_heap].
  intros sel buf Ns Fs Hk Lb. rewrite <- Li in Fs.
  assert (Hlen : (length sel <= length ids)%nat).
  { rewrite <- (length_seq (length ids) 0). apply submseteq_length, NoDup_submseteq; [done|].
    intros i Hi. rewrite Forall_forall in Fs. apply elem_of_seq. pose proof (Fs i Hi). lia. }
  destruct (nk8_assemble_outcome t block bs (map (fun i => ids !!! i) sel) (Z.of_nat (length sel)) k
    buf h1) as (err & out & h' & Ea & L & R); try done; [|lia|by rewrite length_map, Nat2Z.id|apply O|].
  { unfold params_ok in HP |- *. lia. }
  rewrite remove_dups_NoDup, length_map in R by (by apply NoDup_select).
  rewrite (proj2 (Z.leb_le _ _) Hk) in R.
  assert (no_fail h1) by (destruct O as (_ & _ & _ & _ & O); intros p; rewrite O; apply F).
  destruct R as [(_ & _ & NF)|[= -> ->]]; [done|]. exists h'. split; [|done].
  rewrite <- Ea. f_equal. rewrite map_map. apply map_ext_in. intros i Hi.
  apply list_elem_of_In in Hi. rewrite Forall_forall in Fs.
  by rewrite (list_lookup_total_fmap (part_of block (Z.to_nat k))) by auto.
Qed.

Lemma nk8_init_ready t : tables_dims t -> tables_ready (nk8_init_tables t).
Proof.
  intros D. pose proof (gf_init_mult t D) as Em. pose proof (gf_init_div t D) as Ed.
  unfold nk8_init_tables. generalize dependent (gf_init t). intros t' Em Ed.
  split; [done|]. split; [exact Em|exact Ed].
Qed.

Lemma nk8_round_trip_witness :
  exists res, nk8_split_block (nk8_init_tables tables_zero) b1 [b1; b0; b1; b1; b1] 5 3 2
    (Heap 0 ∅ (fun _ => false)) [Some 7; Some 9; Some 11] = Ret (Some res) /\ sp_err res = 0.
Proof.
  destruct (nk8_round_trip (nk8_init_tables tables_zero) b1 [b1; b0; b1; b1; b1] 5 3 2
    (Heap 0 ∅ (fun _ => false)) [Some 7; Some 9; Some 11]) as (res & E & Z0 & _).
  - apply nk8_init_ready, tables_zero_dims.
  - unfold params_ok. lia.
  - lia.
  - reflexivity.
  - intros p Hp. set_solver.
  - vm_compute. discriminate.
  - intros p. reflexivity.
  - exists res. split; [exact E|exact Z0].
Defined.

(** (C36) The threshold is sharp: given the parts of a block for the ids
    [ids], in which ids may repeat, and no allocation failure, assembling gives
    the block if at least [k] of the ids are distinct, and otherwise reports
    [-EINVAL] and leaves the caller's buffer as it was. *)
Theorem nk8_assemble_threshold t block bs ids n k buf h :
  tables_ready t -> params_ok bs n k -> bs + k < 2 ^ 32 ->
  length block = Z.to_nat bs -> length buf = length block -> length ids = Z.to_nat n ->
  heap_wf h -> no_fail h ->
  exists h',
  nk8_assemble_block t (map (part_of block (Z.to_nat k)) ids) ids n k buf bs h =
  (if k <=? Z.of_nat (length (remove_dups ids)) then 0 else - EINVAL,
   if k <=? Z.of_nat (length (remove_dups ids)) then block else buf, h').
Proof.
  intros Hr HP Hs Hl Lb Li W F.
  destruct (nk8_assemble_outcome t block bs ids n k buf h) as (err & out & h' & E & _ & R); [done..|].
  exists h'. rewrite E. destruct R as [(_ & _ & NF)|R]; [done|].
  by destruct (k <=? _); injection R as -> ->.
Qed.

Lemma nk8_assemble_threshold_witness :
  exists h', nk8_assemble_block (nk8_init_tables tables_zero)
    (map (part_of [b1; b0; b1] 2) [b1; b1]) [b1; b1] 2 2 [b0; b0; b0] 3
    (Heap 0 ∅ (fun _ => false)) = (- EINVAL, [b0; b0; b0], h').
Proof.
  apply (nk8_assemble_threshold (nk8_init_tables tables_zero) [b1; b0; b1] 3 [b1; b1] 2 2);
    [apply nk8_init_ready, tables_zero_dims | unfold params_ok; lia | lia | reflexivity..
    | intros p Hp; set_solver | intros p; reflexivity].
Defined.

(** Memory and error codes on every path, whatever the arguments, the
    contents and the pattern of allocation failures: invalid parameters and
    uninitialised tables are refused before anything is allocated; a split that
    reports an error owns nothing; one that reports success owns exactly the
    [n + 2] allocations it hands over; an assembly owns nothing when it
    returns. *)
Theorem nk8_memory t junk block parts ids buf bs n k h r :
  heap_wf h -> 0 <= bs < 2 ^ 32 ->
  (forall res, nk8_split_block t junk block bs n k h r = Ret (Some res) ->
     if nk8_params_invalid bs n k then sp_err res = - EINVAL /\ sp_heap res = h
     else if negb (inited t) then sp_err res = - EAGAIN /\ sp_heap res = h
     else (sp_err res = - ENOMEM /\ hlive (sp_heap res) = hlive h) \/
          (sp_err res = 0 /\ owns h (sp_owned res) (sp_heap res) /\
           length (sp_owned res) = Z.to_nat (n + 2))) /\
  hlive (snd (nk8_assemble_block t parts ids n k buf bs h)) = hlive h.
Proof.
  intros W Hb. split.
  - intros res E. destruct (nk8_params_invalid bs n k) eqn:Hv.
    { unfold nk8_split_block in E. rewrite Hv in E. by injection E as <-. }
    destruct (inited t) eqn:Hi; cbn [negb].
    2: { unfold nk8_split_block in E. rewrite Hv, Hi in E. by injection E as <-. }
    assert (0 <= n) by (apply nk8_params_spec in Hv; [unfold params_ok in Hv; lia|done]).
    destruct (nk8_split_memory t junk block bs n k h r W Hi Hv) as
      [(h' & E' & L & _)|(owned & h' & O & Lo & E')]; [done|..]; rewrite E' in E.
    + injection E as <-. by left.
    + destruct (nk8_gen_part_ids _ r) as [[[ib r']|]|]; [|done..]. injection E as <-. by right.
  - destruct (nk8_params_invalid bs n k) eqn:Hv; [unfold nk8_assemble_block; by rewrite Hv|].
    destruct (inited t) eqn:Hi; [|unfold nk8_assemble_block; by rewrite Hv, Hi].
    destruct (nk8_assemble_memory t parts ids n k buf bs h W Hi Hv) as (err & out & h' & -> & L & _).
    exact L.
Qed.

Lemma nk8_memory_witness :
  hlive (snd (nk8_assemble_block (nk8_init_tables tables_zero) [[b1]; [b0]] [b1; b1] 2 2
    [b0; b0] 2 (Heap 5 {[3%nat]} (fun p => (8 <? p)%nat)))) = {[3%nat]}.
Proof.
  refine (proj2 (nk8_memory (nk8_init_tables tables_zero) b0 [] [[b1]; [b0]] [b1; b1] [b0; b0] 2 2 2
    (Heap 5 {[3%nat]} (fun p => (8 <? p)%nat)) [] _ _)); [|lia].
  intros p Hp. cbn [hlive] in Hp. apply elem_of_singleton in Hp as ->. simpl. lia.
Defined.

(** A defect: the row exchange of [gf_inverse_matrix] passes cells by
    value and exchanges nothing.  For the invertible matrix [[0 1] [1 1]] the
    function reports success with the singular matrix [[0 0] [0 1]].  (The
    matrices [nk8_assemble_block] inverts never need an exchange.) *)
Theorem gf_inverse_matrix_lost_exchange t :
  tables_ready t ->
  exists M, gf_inverse_matrix t [[b0; b1]; [b1; b1]] [[b0; b0]; [b0; b0]] 2 =
  (0, (M, [[b0; b0]; [b0; b1]])).
Proof.
  intros (_ & Ht & Hd). eexists. unfold gf_inverse_matrix.
  with_strategy transparent [for_up for_down bxor gf_mult_direct ginv]
    (with_strategy opaque [gf_mult gf_div gf_mult_direct gdiv bxor] cbv; rewrite !Hd, !Ht;
     with_strategy opaque [gf_mult gf_div] cbv; rewrite ?Hd, ?Ht;
     with_strategy opaque [gf_mult gf_div] cbv).
  reflexivity.
Qed.

Lemma gf_inverse_matrix_lost_exchange_witness :
  exists M, gf_inverse_matrix (nk8_init_tables tables_zero) [[b0; b1]; [b1; b1]] [[b0; b0]; [b0; b0]] 2 =
  (0, (M, [[b0; b0]; [b0; b1]])).
Proof. apply gf_inverse_matrix_lost_exchange, nk8_init_ready, tables_zero_dims. Defined.

End Nk8Spec.
