(* ===== verification/CharHex.v ===== *)
(** * Hexadecimal text (src/crt/char2hex.c)

    [hex_bytes] parses, [bytes_hex] prints.  A C [char] is a byte read as a
    signed number ([schar]).  Buffers are byte lists; [hex_bytes] writes its
    destination as it goes, so that a malformed digit leaves a prefix
    written. *)

From Stdlib Require Import ZArith Lia.
From coqutil Require Import Byte.
From stdpp Require Import base list gmap.
From S2P Require Import Prelude Mem.
Import Mem.
Local Open Scope Z_scope.

Module CharHex.

Definition schar (b : byte) : Z :=
  let x := byte.unsigned b in if x <? 128 then x else x - 256.

Definition NKFS_E_BASE : Z := s32 0xE000F000.
Definition NKFS_E_BUF_SMALL : Z := s32 (NKFS_E_BASE + 3).

Definition char_to_hex (c : Z) : byte :=
  if c <? 10 then byte.of_Z (48 + c) else byte.of_Z (97 + c - 10).

Definition hex_to_char (b : byte) : Z :=
  let c := schar b in
  if (48 <=? c) && (c <=? 57) then c - 48
  else if (97 <=? c) && (c <=? 102) then c - 97 + 10
  else -1.

(** The conversion loop from digit pair [pos] on, [n] pairs left. *)
Fixpoint hex_bytes_loop (hex dst : list byte) (pos n : nat) : Z * list byte :=
  match n with
  | O => (0, dst)
  | S n' =>
      let high := hex_to_char (hex !!! (2 * pos)%nat) in
      let low := hex_to_char (hex !!! (2 * pos + 1)%nat) in
      if (high =? -1) || (low =? -1) then (- EINVAL, dst)
      else hex_bytes_loop hex (<[pos := byte.of_Z (Z.shiftl high 4 + low)]> dst) (pos + 1) n'
  end.

Definition hex_bytes (hex : list byte) (hex_len : Z) (dst : list byte) (dst_len : Z) :
    Z * list byte :=
  if (hex_len <=? 0) || (dst_len <=? 0) then (- EINVAL, dst)
  else if negb (Z.land hex_len 1 =? 0) then (- EINVAL, dst)
  else if negb (dst_len =? hex_len / 2) then (- EINVAL, dst)
  else hex_bytes_loop hex dst 0 (Z.to_nat (hex_len / 2)).

Definition bytes_buf_hex (src : list byte) (src_count : Z) (hex : list byte) (hex_count : Z) :
    Z * list byte :=
  if hex_count <? s32 (2 * src_count) then (NKFS_E_BUF_SMALL, hex)
  else
    (0, for_up 0 (Z.to_nat src_count) (fun i hex =>
          let c := schar (src !!! i) in
          <[(2 * i + 1)%nat := char_to_hex (Z.land c 0xF)]>
            (<[(2 * i)%nat := char_to_hex (Z.land (Z.shiftr c 4) 0xF)]> hex)) hex).

(** [src] is [None] for a null pointer; [junk] fills fresh memory. *)
Definition bytes_hex (junk : byte) (src : option (list byte)) (src_count : Z) (h : heap) :
    option (nat * list byte) * heap :=
  match src with
  | None => (None, h)
  | Some src =>
      if src_count <=? 0 then (None, h)
      else
        let hex_count := s32 (s32 (2 * src_count) + 1) in
        match crt_malloc h with
        | (None, h) => (None, h)
        | (Some p, h) =>
            let '(err, hex) :=
              bytes_buf_hex src src_count (replicate (Z.to_nat hex_count) junk) hex_count in
            if negb (err =? 0) then (None, crt_free p h)
            else (Some (p, <[Z.to_nat (2 * src_count) := Init.Byte.x00]> hex), h)
        end
  end.

(** ** The text of a byte string *)

Definition hex_digits (b : byte) : list byte :=
  [char_to_hex (byte.unsigned b / 16); char_to_hex (byte.unsigned b mod 16)].

Definition hex_text (bs : list byte) : list byte := flat_map hex_digits bs.

Lemma hex_text_length bs : length (hex_text bs) = (2 * length bs)%nat.
Proof.
  induction bs as [|b bs IH]; [done|].
  change (hex_text (b :: bs)) with (hex_digits b ++ hex_text bs).
  rewrite length_app, IH. cbn [hex_digits length]. lia.
Qed.

Lemma hex_text_app a b : hex_text (a ++ b) = hex_text a ++ hex_text b.
Proof. apply flat_map_app. Qed.

Lemma schar_digits b :
  char_to_hex (Z.land (Z.shiftr (schar b) 4) 0xF) = char_to_hex (byte.unsigned b / 16) /\
  char_to_hex (Z.land (schar b) 0xF) = char_to_hex (byte.unsigned b mod 16).
Proof.
  pose proof (byte.unsigned_range b). change 0xF with (Z.ones 4).
  rewrite !Z.land_ones, Z.shiftr_div_pow2 by lia. change (2 ^ 4) with 16. unfold schar.
  split; f_equal; destruct (Z.ltb_spec (byte.unsigned b) 128); dlia.
Qed.

(** The digits of one byte read back as that byte. *)
Lemma hex_pair_ok b :
  match hex_digits b with
  | [d1; d2] => byte.of_Z (Z.shiftl (hex_to_char d1) 4 + hex_to_char d2) = b /\
                hex_to_char d1 <> -1 /\ hex_to_char d2 <> -1
  | _ => False
  end.
Proof.
  assert (H : forall b, match hex_digits b with
    | [d1; d2] => Byte.eqb (byte.of_Z (Z.shiftl (hex_to_char d1) 4 + hex_to_char d2)) b &&
                  negb (hex_to_char d1 =? -1) && negb (hex_to_char d2 =? -1)
    | _ => false end = true).
  { apply check_byte. vm_compute. reflexivity. }
  specialize (H b). cbn [hex_digits] in *. apply andb_prop in H as [H H3]. apply andb_prop in H as [H1 H2].
  apply byte_eqb_spec in H1. split; [done|]. split; intros E; rewrite E in *; done.
Qed.

(** Digits are canonical: what reads as a digit is what prints for it. *)
Lemma hex_digit_canonical d : hex_to_char d <> -1 ->
  0 <= hex_to_char d < 16 /\ char_to_hex (hex_to_char d) = d.
Proof.
  assert (H : forall d, (hex_to_char d =? -1) ||
    ((0 <=? hex_to_char d) && (hex_to_char d <? 16) && Byte.eqb (char_to_hex (hex_to_char d)) d) = true).
  { apply check_byte. vm_compute. reflexivity. }
  specialize (H d). intros Hd. apply orb_true_iff in H as [H|H]; [lia|].
  apply andb_prop in H as [H H3]. apply byte_eqb_spec in H3. split; [lia|done].
Qed.

(** ** Parsing *)

(** Every text of digit pairs is the text of some bytes. *)
Lemma hex_text_surj n : forall l, length l = (2 * n)%nat ->
  Forall (fun d => hex_to_char d <> -1) l -> exists bs, l = hex_text bs /\ length bs = n.
Proof.
  induction n as [|n IH]; intros l L F.
  { exists []. by destruct l. }
  destruct l as [|d1 [|d2 l]]; cbn in L; try lia.
  apply Forall_cons in F as [F1 F]. apply Forall_cons in F as [F2 F].
  destruct (IH l ltac:(lia) F) as (bs & -> & Lb).
  apply hex_digit_canonical in F1 as [R1 C1], F2 as [R2 C2].
  exists (byte.of_Z (16 * hex_to_char d1 + hex_to_char d2) :: bs). split; [|cbn; lia].
  unfold hex_text. cbn [flat_map]. unfold hex_digits at 2. rewrite byte.unsigned_of_Z. unfold byte.wrap.
  rewrite Z.mod_small by lia.
  replace ((16 * hex_to_char d1 + hex_to_char d2) / 16) with (hex_to_char d1) by dlia.
  replace ((16 * hex_to_char d1 + hex_to_char d2) mod 16) with (hex_to_char d2) by dlia.
  rewrite C1, C2. done.
Qed.

Lemma memcpy_at_cons {A} (dst : list A) pos x l : (pos < length dst)%nat ->
  memcpy_at (<[pos := x]> dst) (pos + 1) l = memcpy_at dst pos (x :: l).
Proof.
  intros H. unfold memcpy_at. rewrite Nat.add_1_r, (take_S_r _ _ x).
  2: { by apply list_lookup_insert_eq. }
  rewrite take_insert_ge by lia. rewrite drop_insert_lt by lia.
  rewrite <- app_assoc. cbn. do 3 f_equal. f_equal. lia.
Qed.

Lemma hex_bytes_loop_ok bs : forall pre post dst pos,
  length pre = (2 * pos)%nat -> (pos + length bs <= length dst)%nat ->
  hex_bytes_loop (pre ++ hex_text bs ++ post) dst pos (length bs) = (0, memcpy_at dst pos bs).
Proof.
  induction bs as [|b bs IH]; intros pre post dst pos Lp Ld; cbn [length hex_bytes_loop] in *.
  { unfold memcpy_at. cbn [app length]. by rewrite Nat.add_0_r, take_drop. }
  change (hex_text (b :: bs)) with (hex_digits b ++ hex_text bs). rewrite <- app_assoc.
  rewrite !lookup_total_app.
  destruct (decide (2 * pos < length pre)%nat); [lia|].
  destruct (decide (2 * pos + 1 < length pre)%nat); [lia|].
  replace (2 * pos - length pre)%nat with 0%nat by lia.
  replace (2 * pos + 1 - length pre)%nat with 1%nat by lia.
  pose proof (hex_pair_ok b) as H. unfold hex_digits in *. cbn [length].
  destruct (decide (0 < 2)%nat); [|lia]. destruct (decide (1 < 2)%nat); [|lia].
  change ([?a; ?b] !!! 0%nat) with a. change ([?a; ?b] !!! 1%nat) with b.
  destruct H as (H & H1 & H2).
  destruct (Z.eqb_spec (hex_to_char (char_to_hex (byte.unsigned b / 16))) (-1)); [done|].
  destruct (Z.eqb_spec (hex_to_char (char_to_hex (byte.unsigned b mod 16))) (-1)); [done|].
  cbn [orb]. rewrite H. rewrite app_assoc. rewrite IH.
  - f_equal. apply memcpy_at_cons. lia.
  - rewrite length_app. cbn. lia.
  - rewrite length_insert. lia.
Qed.

Lemma hex_bytes_loop_bad hex n : forall dst pos i,
  (2 * pos <= i < 2 * (pos + n))%nat -> hex_to_char (hex !!! i) = -1 ->
  exists dst', hex_bytes_loop hex dst pos n = (- EINVAL, dst').
Proof.
  induction n as [|n IH]; intros dst pos i Hi Hb; [lia|]. cbn [hex_bytes_loop].
  destruct ((_ =? -1) || _) eqn:E; [by eexists|]. apply orb_false_iff in E as [E1 E2].
  apply (IH _ _ i); [|done].
  destruct (decide (i = 2 * pos)%nat) as [->|]; [lia|].
  destruct (decide (i = 2 * pos + 1)%nat) as [->|]; [lia|]. lia.
Qed.

Lemma hex_bytes_ok bs dst : (0 < length bs)%nat -> length dst = length bs ->
  hex_bytes (hex_text bs) (Z.of_nat (2 * length bs)) dst (Z.of_nat (length bs)) = (0, bs).
Proof.
  intros Hb Hd. unfold hex_bytes.
  destruct (Z.leb_spec (Z.of_nat (2 * length bs)) 0); [lia|].
  destruct (Z.leb_spec (Z.of_nat (length bs)) 0); [lia|]. cbn [orb].
  change 1 with (Z.ones 1) at 1. rewrite Z.land_ones by lia.
  replace (Z.of_nat (2 * length bs) mod 2 ^ 1) with 0 by (change (2 ^ 1) with 2; dlia). cbn [Z.eqb negb].
  replace (Z.of_nat (2 * length bs) / 2) with (Z.of_nat (length bs)) by dlia.
  rewrite Z.eqb_refl. cbn [negb]. rewrite Nat2Z.id.
  pose proof (hex_bytes_loop_ok bs [] [] dst 0 eq_refl ltac:(lia)) as E.
  rewrite app_nil_r in E. cbn [app] in E. rewrite E. f_equal.
  unfold memcpy_at. rewrite take_0, drop_ge by lia. by rewrite app_nil_r.
Qed.

(** [hex_bytes] accepts exactly the texts that [bytes_hex] prints: with
    the lengths it is given true of its buffers, it returns 0 just when the
    text is the lower-case hexadecimal of some byte string of the destination's
    length, and then the destination holds that string; every other text
    (empty, odd, of another length, with a character that is not a lower-case
    digit) gives [-EINVAL]. *)
Theorem hex_bytes_exact hex dst :
  let '(err, out) := hex_bytes hex (Z.of_nat (length hex)) dst (Z.of_nat (length dst)) in
  (err = 0 <-> exists bs, hex = hex_text bs /\ length bs = length dst /\ dst <> []) /\
  (err = 0 -> hex = hex_text out) /\ (err = 0 \/ err = - EINVAL).
Proof.
  assert (Hyes : forall bs, hex = hex_text bs -> length bs = length dst -> dst <> [] ->
    hex_bytes hex (Z.of_nat (length hex)) dst (Z.of_nat (length dst)) = (0, bs)).
  { intros bs -> Lb Hd. rewrite hex_text_length, <- Lb. apply hex_bytes_ok; [|done].
    rewrite Lb. by destruct dst; [|cbn; lia]. }
  destruct (decide (dst <> [] /\ length hex = (2 * length dst)%nat /\
    Forall (fun d => hex_to_char d <> -1) hex)) as [(Hd & L & F)|Hno].
  - destruct (hex_text_surj (length dst) hex L F) as (bs & -> & Lb).
    rewrite (Hyes bs) by done. split; [|by split; [|left]]. split; [|done]. by exists bs.
  - assert (Hbad : exists out, hex_bytes hex (Z.of_nat (length hex)) dst (Z.of_nat (length dst)) =
      (- EINVAL, out)).
    { unfold hex_bytes. destruct ((_ <=? 0) || _) eqn:E0; [by eexists|].
      change 1 with (Z.ones 1) at 1. rewrite Z.land_ones by lia. change (2 ^ 1) with 2.
      destruct (Z.eqb_spec (Z.of_nat (length hex) mod 2) 0) as [E1|E1]; [cbn [negb]|by eexists].
      destruct (Z.eqb_spec (Z.of_nat (length dst)) (Z.of_nat (length hex) / 2)) as [E2|E2];
        [cbn [negb]|by eexists].
      assert (L : length hex = (2 * length dst)%nat) by dlia.
      assert (~ Forall (fun d => hex_to_char d <> -1) hex) as F.
      { intros F. apply Hno. split; [|done]. intros ->. apply orb_false_iff in E0 as [_ E0]. done. }
      apply not_Forall_Exists in F; [|solve_decision]. apply Exists_exists in F as (d & Hd & Hb).
      apply list_elem_of_lookup in Hd as [i Hi].
      apply (hex_bytes_loop_bad hex _ dst 0 i).
      - apply lookup_lt_Some in Hi. rewrite <- E2, Nat2Z.id. lia.
      - rewrite (list_lookup_total_correct _ _ _ Hi). by apply dec_stable. }
    destruct Hbad as [out ->]. split; [|split; [done|by right]]. split; [done|].
    intros (bs & -> & Lb & Hd). exfalso. apply Hno. split; [done|].
    split; [rewrite hex_text_length; lia|]. clear. induction bs as [|b bs IH]; [constructor|].
    change (hex_text (b :: bs)) with (hex_digits b ++ hex_text bs). apply Forall_app. split; [|done].
    pose proof (hex_pair_ok b) as H. unfold hex_digits in *. destruct H as (_ & H1 & H2).
    by repeat constructor.
Qed.

(** ** Printing *)

Lemma s32_small x : - 2 ^ 31 <= x < 2 ^ 31 -> s32 x = x.
Proof.
  intros H. unfold s32. destruct (Z.lt_ge_cases x 0).
  - rewrite <- (Z.mod_add x 1) by lia. rewrite Z.mod_small by lia.
    destruct (Z.ltb_spec (x + 1 * 2 ^ 32) (2 ^ 31)); lia.
  - rewrite Z.mod_small by lia. destruct (Z.ltb_spec x (2 ^ 31)); lia.
Qed.

Lemma bytes_buf_hex_loop src : forall n hex, (n <= length src)%nat -> (2 * n <= length hex)%nat ->
  for_up 0 n (fun i hex =>
    let c := schar (src !!! i) in
    <[(2 * i + 1)%nat := char_to_hex (Z.land c 0xF)]>
      (<[(2 * i)%nat := char_to_hex (Z.land (Z.shiftr c 4) 0xF)]> hex)) hex
  = hex_text (take n src) ++ drop (2 * n) hex.
Proof.
  induction n as [|n IH]; intros hex Hs Hh; [done|].
  rewrite for_up_last, IH by lia. cbn [Nat.add].
  rewrite (take_S_r src n (src !!! n)) by (apply list_lookup_lookup_total_lt; lia).
  rewrite hex_text_app, <- app_assoc.
  destruct (schar_digits (src !!! n)) as [-> ->].
  assert (L : length (hex_text (take n src)) = (2 * n)%nat)
    by (rewrite hex_text_length, length_take; lia).
  rewrite (insert_app_r_alt _ _ (2 * n)), (insert_app_r_alt _ _ (2 * n + 1)) by lia.
  f_equal. rewrite L. replace (2 * n - 2 * n)%nat with 0%nat by lia.
  replace (2 * n + 1 - 2 * n)%nat with 1%nat by lia.
  replace (2 * S n)%nat with (2 * n + 2)%nat by lia. rewrite <- drop_drop.
  destruct (drop (2 * n) hex) as [|a [|b d]] eqn:E;
    [apply (f_equal length) in E; rewrite length_drop in E; cbn in E; lia..|]. done.
Qed.

Lemma bytes_hex_ok junk src h p h' :
  (0 < length src)%nat -> Z.of_nat (length src) < 2 ^ 30 - 1 -> crt_malloc h = (Some p, h') ->
  bytes_hex junk (Some src) (Z.of_nat (length src)) h =
  (Some (p, hex_text src ++ [Init.Byte.x00]), h').
Proof.
  intros H0 H1 Hm. unfold bytes_hex. destruct (Z.leb_spec (Z.of_nat (length src)) 0); [lia|].
  rewrite Hm. rewrite !s32_small by (rewrite ?s32_small; lia). unfold bytes_buf_hex.
  rewrite s32_small by lia.
  destruct (Z.ltb_spec (2 * Z.of_nat (length src) + 1) (2 * Z.of_nat (length src))); [lia|].
  cbn [Z.eqb negb]. rewrite Nat2Z.id, bytes_buf_hex_loop by (rewrite ?length_replicate; lia).
  rewrite take_ge by done. do 3 f_equal.
  rewrite insert_app_r_alt by (rewrite hex_text_length; lia). f_equal.
  rewrite drop_replicate.
  replace (Z.to_nat (2 * Z.of_nat (length src) + 1) - 2 * length src)%nat with 1%nat by lia.
  rewrite hex_text_length.
  by replace (Z.to_nat (2 * Z.of_nat (length src)) - 2 * length src)%nat with 0%nat by lia.
Qed.

(** Print then parse: what [bytes_hex] allocates and fills is the
    NUL-terminated lower-case text of the bytes, and [hex_bytes] on that text
    recovers the bytes. *)
Theorem hex_round_trip junk src dst h p h' :
  (0 < length src)%nat -> Z.of_nat (length src) < 2 ^ 30 - 1 -> length dst = length src ->
  crt_malloc h = (Some p, h') ->
  exists text, bytes_hex junk (Some src) (Z.of_nat (length src)) h =
    (Some (p, text ++ [Init.Byte.x00]), h') /\
  Init.Byte.x00 ∉ text /\
  hex_bytes text (Z.of_nat (length text)) dst (Z.of_nat (length dst)) = (0, src).
Proof.
  intros H0 H1 Hd Hm. exists (hex_text src). split; [by apply bytes_hex_ok|]. split.
  - intros H. apply list_elem_of_In, in_flat_map in H as (b & _ & H).
    pose proof (hex_pair_ok b) as P. unfold hex_digits in *. destruct P as (_ & P1 & P2).
    destruct H as [H|[H|[]]]; rewrite H in *; done.
  - rewrite hex_text_length, Hd. by apply hex_bytes_ok.
Qed.

Lemma hex_round_trip_witness :
  exists text, bytes_hex Init.Byte.x00 (Some [Init.Byte.xfe; Init.Byte.x07]) 2
    (Heap 0 ∅ (fun _ => false)) =
    (Some (0%nat, text ++ [Init.Byte.x00]), Heap 1 ({[0%nat]} ∪ ∅) (fun _ => false)) /\
  Init.Byte.x00 ∉ text /\
  hex_bytes text (Z.of_nat (length text)) [Init.Byte.x00; Init.Byte.x00] 2 =
    (0, [Init.Byte.xfe; Init.Byte.x07]).
Proof.
  apply (hex_round_trip Init.Byte.x00 [Init.Byte.xfe; Init.Byte.x07] [Init.Byte.x00; Init.Byte.x00]);
    [simpl; lia | simpl; lia | reflexivity | reflexivity].
Defined.

End CharHex.
