(* ===== verification/Sha256.v ===== *)
(** * SHA-256 (src/crt/sha256.c)

    The hash that debug logs print of a buffer: the compression of one block with its eight
    registers updated in place, and the streaming interface ([sha256_starts],
    [sha256_update], [sha256_finish]) over a context with a partial block.

    The 64 calls of the macro [P] name the registers in an order that turns by one
    from round to round; [turn] gives the order of a round.  [W] beyond its first
    sixteen words is written by [R] in the round that first reads it.  The [ipad]
    and [opad] of the context are never used and are left out. *)

From Stdlib Require Import ZArith Lia.
From coqutil Require Import Byte.
From stdpp Require Import base list.
From S2P Require Import Prelude Mem CharHex.
Import Mem CharHex.
Local Open Scope Z_scope.

Module Sha256.

Record sha256_context := Ctx {
  total : Z * Z;         (* bytes processed: low and high word *)
  state : list Z;        (* eight words *)
  buffer : list byte;    (* 64 bytes *)
  is224 : Z
}.

Definition PUT_UINT32_BE (n : Z) (b : list byte) (i : nat) : list byte :=
  memcpy_at b i [byte.of_Z (Z.shiftr n 24); byte.of_Z (Z.shiftr n 16); byte.of_Z (Z.shiftr n 8); byte.of_Z n].

Definition GET_UINT32_BE (b : list byte) (i : nat) : Z :=
  let at_ k := byte.unsigned (b !!! (i + k)%nat) in
  Z.lor (Z.lor (Z.lor (Z.shiftl (at_ 0%nat) 24) (Z.shiftl (at_ 1%nat) 16)) (Z.shiftl (at_ 2%nat) 8)) (at_ 3%nat).

Definition sha256_padding : list byte := Init.Byte.x80 :: replicate 63 Init.Byte.x00.

(** ** One block *)

Definition SHR (x n : Z) : Z := Z.shiftr (Z.land x 0xFFFFFFFF) n.
Definition ROTR (x n : Z) : Z := Z.lor (SHR x n) (u32 (Z.shiftl x (32 - n))).

Definition S0 (x : Z) : Z := Z.lxor (Z.lxor (ROTR x 7) (ROTR x 18)) (SHR x 3).
Definition S1 (x : Z) : Z := Z.lxor (Z.lxor (ROTR x 17) (ROTR x 19)) (SHR x 10).
Definition S2 (x : Z) : Z := Z.lxor (Z.lxor (ROTR x 2) (ROTR x 13)) (ROTR x 22).
Definition S3 (x : Z) : Z := Z.lxor (Z.lxor (ROTR x 6) (ROTR x 11)) (ROTR x 25).

Definition F0 (x y z : Z) : Z := Z.lor (Z.land x y) (Z.land z (Z.lor x y)).
Definition F1 (x y z : Z) : Z := Z.lxor z (Z.land x (Z.lxor y z)).

(** [W[t] = ...], whose value is the new [W[t]]. *)
Definition R (t : nat) (W : list Z) : list Z :=
  <[t := u32 (S1 (W !!! (t - 2)%nat) + W !!! (t - 7)%nat + S0 (W !!! (t - 15)%nat) + W !!! (t - 16)%nat)]> W.

(** The constants, in the order of the calls. *)
Definition K : list Z :=
  [
    0x428A2F98; 0x71374491; 0xB5C0FBCF; 0xE9B5DBA5; 0x3956C25B; 0x59F111F1;
    0x923F82A4; 0xAB1C5ED5; 0xD807AA98; 0x12835B01; 0x243185BE; 0x550C7DC3;
    0x72BE5D74; 0x80DEB1FE; 0x9BDC06A7; 0xC19BF174; 0xE49B69C1; 0xEFBE4786;
    0x0FC19DC6; 0x240CA1CC; 0x2DE92C6F; 0x4A7484AA; 0x5CB0A9DC; 0x76F988DA;
    0x983E5152; 0xA831C66D; 0xB00327C8; 0xBF597FC7; 0xC6E00BF3; 0xD5A79147;
    0x06CA6351; 0x14292967; 0x27B70A85; 0x2E1B2138; 0x4D2C6DFC; 0x53380D13;
    0x650A7354; 0x766A0ABB; 0x81C2C92E; 0x92722C85; 0xA2BFE8A1; 0xA81A664B;
    0xC24B8B70; 0xC76C51A3; 0xD192E819; 0xD6990624; 0xF40E3585; 0x106AA070;
    0x19A4C116; 0x1E376C08; 0x2748774C; 0x34B0BCB5; 0x391C0CB3; 0x4ED8AA4A;
    0x5B9CCA4F; 0x682E6FF3; 0x748F82EE; 0x78A5636F; 0x84C87814; 0x8CC70208;
    0x90BEFFFA; 0xA4506CEB; 0xBEF9A3F7; 0xC67178F2].

(** The registers that the [t]-th call of [P] names, [A] being number 0. *)
Definition turn (t : nat) : list nat :=
  [[0; 1; 2; 3; 4; 5; 6; 7]; [7; 0; 1; 2; 3; 4; 5; 6]; [6; 7; 0; 1; 2; 3; 4; 5]; [5; 6; 7; 0; 1; 2; 3; 4];
   [4; 5; 6; 7; 0; 1; 2; 3]; [3; 4; 5; 6; 7; 0; 1; 2]; [2; 3; 4; 5; 6; 7; 0; 1]; [1; 2; 3; 4; 5; 6; 7; 0]]%nat
  !!! (t mod 8)%nat.

(** [P(a, b, c, d, e, f, g, h, x, K)], on the registers [r] at the places [o]. *)
Definition P (o : list nat) (x k : Z) (r : list Z) : list Z :=
  let arg i := r !!! (o !!! i)%nat in
  let temp1 := u32 (arg 7%nat + S3 (arg 4%nat) + F1 (arg 4%nat) (arg 5%nat) (arg 6%nat) + k + x) in
  let temp2 := u32 (S2 (arg 0%nat) + F0 (arg 0%nat) (arg 1%nat) (arg 2%nat)) in
  let r := <[o !!! 3%nat := u32 (arg 3%nat + temp1)]> r in
  <[o !!! 7%nat := u32 (temp1 + temp2)]> r.

(** The [t]-th of the 64 lines. *)
Definition round (t : nat) (s : list Z * list Z) : list Z * list Z :=
  let '(W, r) := s in
  let W := if (t <? 16)%nat then W else R t W in
  (W, P (turn t) (W !!! t) (K !!! t) r).

Definition sha256_process (ctx : sha256_context) (data : list byte) : sha256_context :=
  let W := map (fun i => GET_UINT32_BE data (4 * i)) (seq 0 16) ++ replicate 48 0 in
  let r := snd (for_up 0 64 round (W, state ctx)) in
  Ctx (total ctx) (zip_with (fun a b => u32 (a + b)) (state ctx) r) (buffer ctx) (is224 ctx).

(** ** The context *)

Definition sha256_init (ctx : sha256_context) : sha256_context :=
  Ctx (0, 0) (replicate 8 0) (replicate 64 Init.Byte.x00) 0.

Definition iv256 : list Z :=
  [0x6A09E667; 0xBB67AE85; 0x3C6EF372; 0xA54FF53A; 0x510E527F; 0x9B05688C; 0x1F83D9AB; 0x5BE0CD19].

Definition iv224 : list Z :=
  [0xC1059ED8; 0x367CD507; 0x3070DD17; 0xF70E5939; 0xFFC00B31; 0x68581511; 0x64F98FA7; 0xBEFA4FA4].

Definition sha256_starts (ctx : sha256_context) (is224 : Z) : sha256_context :=
  Ctx (0, 0) (if is224 =? 0 then iv256 else iv224) (buffer ctx) is224.

Definition with_buffer (ctx : sha256_context) (b : list byte) : sha256_context :=
  Ctx (total ctx) (state ctx) b (is224 ctx).

Definition with_total (ctx : sha256_context) (t : Z * Z) : sha256_context :=
  Ctx t (state ctx) (buffer ctx) (is224 ctx).

(** [while (ilen >= 64)]. *)
Fixpoint process_all (fuel : nat) (ctx : sha256_context) (input : list byte) : sha256_context * list byte :=
  match fuel with
  | O => (ctx, input)
  | S fuel' =>
      if at_least 64 input then process_all fuel' (sha256_process ctx (take 64 input)) (drop 64 input)
      else (ctx, input)
  end.

(** [ctx->total[0] += (u32) ilen], and the carry into [ctx->total[1]]. *)
Definition count (t : Z * Z) (ilen : Z) : Z * Z :=
  let low := Z.land (u32 (fst t + u32 ilen)) 0xFFFFFFFF in
  (low, if low <? u32 ilen then u32 (snd t + 1) else snd t).

Definition sha256_update (ctx : sha256_context) (input : list byte) : sha256_context :=
  match input with
  | [] => ctx
  | _ =>
      let left := Z.to_nat (Z.land (fst (total ctx)) 0x3F) in
      let fill := (64 - left)%nat in
      let ctx := with_total ctx (count (total ctx) (Z.of_nat (length input))) in
      let '(ctx, input, off) :=
        if negb (left =? 0)%nat && at_least fill input then
          let ctx := with_buffer ctx (memcpy_at (buffer ctx) left (take fill input)) in
          (sha256_process ctx (buffer ctx), drop fill input, 0%nat)
        else (ctx, input, left) in
      let '(ctx, input) := process_all (length input) ctx input in
      match input with
      | [] => ctx
      | _ => with_buffer ctx (memcpy_at (buffer ctx) off input)
      end
  end.

(** [PUT_UINT32_BE(ctx->state[i], output->bytes, 4 * i)]. *)
Definition put_state (ctx : sha256_context) (i : nat) (output : list byte) : list byte :=
  PUT_UINT32_BE (state ctx !!! i) output (4 * i).

(** The context is left padded; the digest is written over [output]. *)
Definition sha256_finish (ctx : sha256_context) (output : list byte) : sha256_context * list byte :=
  let high := Z.lor (Z.shiftr (fst (total ctx)) 29) (u32 (Z.shiftl (snd (total ctx)) 3)) in
  let low := u32 (Z.shiftl (fst (total ctx)) 3) in
  let msglen := PUT_UINT32_BE low (PUT_UINT32_BE high (replicate 8 Init.Byte.x00) 0) 4 in
  let last := Z.land (fst (total ctx)) 0x3F in
  let padn := if last <? 56 then 56 - last else 120 - last in
  let ctx := sha256_update ctx (take (Z.to_nat padn) sha256_padding) in
  let ctx := sha256_update ctx msglen in
  let output := for_up 0 7 (put_state ctx) output in
  (ctx, if is224 ctx =? 0 then put_state ctx 7 output else output).

(** [polarssl_zeroize] over the whole context. *)
Definition sha256_free (ctx : option sha256_context) : option sha256_context :=
  match ctx with
  | None => None
  | Some _ => Some (Ctx (0, 0) (replicate 8 0) (replicate 64 Init.Byte.x00) 0)
  end.

(** [ctx] is what the stack holds; its last value is returned beside the digest. *)
Definition sha256 (ctx : sha256_context) (input output : list byte) (is224 : Z) : option sha256_context * list byte :=
  let ctx := sha256_init ctx in
  let ctx := sha256_starts ctx is224 in
  let ctx := sha256_update ctx input in
  let '(ctx, output) := sha256_finish ctx output in
  (sha256_free (Some ctx), output).

Definition sha256_sum_hex (junk : byte) (sum : list byte) (h : heap) : option (nat * list byte) * heap :=
  bytes_hex junk (Some sum) 32 h.

End Sha256.
