(* ===== verification/Sha256Spec.v ===== *)
(** * SHA-256 against FIPS 180-4

    [Fips] restates the standard: constants as the fractional parts of roots of
    primes, the schedule, the rounds that shift eight variables, padding and
    digest.  The code with its registers in place computes the same compression,
    and the streaming interface, over any split of the message into chunks of
    fewer than 2^32 bytes, the digest of the whole. *)

From Stdlib Require Import ZArith Lia.
From coqutil Require Import Byte Word.LittleEndianList.
From stdpp Require Import base list.
From S2P Require Import Prelude XXHash Bytes Mem CharHex Sha256.
Import Bytes Mem CharHex Sha256.
Local Open Scope Z_scope.

Module Fips.

(** ** Operations on words (sections 2.2.2 and 4.1.2) *)

Definition rotr (n x : Z) : Z := (x / 2 ^ n + x * 2 ^ (32 - n)) mod 2 ^ 32.
Definition shr (n x : Z) : Z := x / 2 ^ n.
Definition compl (x : Z) : Z := 2 ^ 32 - 1 - x.

Definition Ch (x y z : Z) : Z := Z.lxor (Z.land x y) (Z.land (compl x) z).
Definition Maj (x y z : Z) : Z := Z.lxor (Z.lxor (Z.land x y) (Z.land x z)) (Z.land y z).
Definition Sigma0 (x : Z) : Z := Z.lxor (Z.lxor (rotr 2 x) (rotr 13 x)) (rotr 22 x).
Definition Sigma1 (x : Z) : Z := Z.lxor (Z.lxor (rotr 6 x) (rotr 11 x)) (rotr 25 x).
Definition sigma0 (x : Z) : Z := Z.lxor (Z.lxor (rotr 7 x) (rotr 18 x)) (shr 3 x).
Definition sigma1 (x : Z) : Z := Z.lxor (Z.lxor (rotr 17 x) (rotr 19 x)) (shr 10 x).

(** ** Constants (sections 4.2.2 and 5.3) *)

Definition is_prime (p : Z) : bool :=
  forallb (fun d => negb (p mod Z.of_nat d =? 0)) (seq 2 (Z.to_nat p - 2)).

Definition primes (n : nat) : list Z := take n (List.filter is_prime (map Z.of_nat (seq 2 311))).

(** The integer cube root, a bit at a time. *)
Fixpoint cbrt_bits (n : nat) (x r : Z) : Z :=
  match n with
  | O => r
  | S n => let s := r + 2 ^ Z.of_nat n in cbrt_bits n x (if s * s * s <=? x then s else r)
  end.

Definition K : list Z := map (fun p => cbrt_bits 40 (p * 2 ^ 96) 0 mod 2 ^ 32) (primes 64).

Definition H0_256 : list Z := map (fun p => Z.sqrt (p * 2 ^ 64) mod 2 ^ 32) (primes 8).
Definition H0_224 : list Z := map (fun p => Z.sqrt (p * 2 ^ 128) mod 2 ^ 32) (drop 8 (primes 16)).

(** ** Compression (section 6.2.2) *)

Definition next_word (W : list Z) : Z :=
  let t := length W in
  (sigma1 (W !!! (t - 2)%nat) + W !!! (t - 7)%nat + sigma0 (W !!! (t - 15)%nat) + W !!! (t - 16)%nat) mod 2 ^ 32.

Definition schedule (n : nat) (M : list Z) : list Z := Nat.iter n (fun W => W ++ [next_word W]) M.

Definition step (Wt Kt : Z) (v : list Z) : list Z :=
  match v with
  | [a; b; c; d; e; f; g; h] =>
      let T1 := (h + Sigma1 e + Ch e f g + Kt + Wt) mod 2 ^ 32 in
      let T2 := (Sigma0 a + Maj a b c) mod 2 ^ 32 in
      [(T1 + T2) mod 2 ^ 32; a; b; c; (d + T1) mod 2 ^ 32; e; f; g]
  | _ => v
  end.

Definition words (block : list byte) : list Z := map of_be (slots 4 16 block).

Definition compress (H : list Z) (block : list byte) : list Z :=
  let W := schedule 48 (words block) in
  let v := foldl (fun v t => step (W !!! t) (K !!! t) v) H (seq 0 64) in
  zip_with (fun x y => (x + y) mod 2 ^ 32) H v.

(** ** The hash (sections 5.1.1, 5.2.1, 6.2 and 6.3) *)

Definition padded (msg : list byte) : list byte :=
  let len := Z.of_nat (length msg) in
  msg ++ Init.Byte.x80 :: replicate (Z.to_nat ((55 - len) mod 64)) Init.Byte.x00 ++ be 8 (8 * len).

Definition blocks (l : list byte) : list (list byte) := slots 64 (length l / 64) l.

Definition digest (sha224 : bool) (msg : list byte) : list byte :=
  let H := foldl compress (if sha224 then H0_224 else H0_256) (blocks (padded msg)) in
  concat (map (be 4) (if sha224 then take 7 H else H)).

End Fips.

Module Sha256Spec.

(** ** Words *)

Definition word (x : Z) : Prop := 0 <= x < 2 ^ 32.

Lemma word_bits x : word x <-> 0 <= x /\ forall i, 32 <= i -> Z.testbit x i = false.
Proof.
  split.
  - intros [H0 H1]. split; [done|]. intros i Hi. rewrite <- (Z.mod_small x (2 ^ 32)) by done.
    apply Z.mod_pow2_bits_high. lia.
  - intros [H0 H1]. split; [done|]. destruct (Z.eq_dec x 0) as [->|Hx]; [lia|].
    apply Z.log2_lt_pow2; [lia|]. destruct (Z.lt_ge_cases (Z.log2 x) 32) as [|Hl]; [done|].
    specialize (H1 _ Hl). rewrite Z.bit_log2 in H1 by lia. done.
Qed.

Lemma word_lxor x y : word x -> word y -> word (Z.lxor x y).
Proof.
  rewrite !word_bits. intros [X0 X] [Y0 Y]. split; [by apply Z.lxor_nonneg|].
  intros i Hi. by rewrite Z.lxor_spec, X, Y.
Qed.

Lemma word_u32 x : word (u32 x).
Proof. apply wrap_bounds. lia. Qed.

Lemma word_div n x : 0 <= n -> word x -> word (x / 2 ^ n).
Proof.
  intros Hn [H0 H1]. pose proof (Z.pow_pos_nonneg 2 n ltac:(lia) Hn). split; [by apply Z.div_pos|].
  apply Z.div_lt_upper_bound; [done|]. unfold word in *. nia.
Qed.

#[local] Hint Resolve word_lxor word_u32 word_div : nkfs.

Lemma SHR_shr x n : word x -> 0 <= n -> SHR x n = Fips.shr n x.
Proof.
  intros Hx Hn. unfold SHR, Fips.shr. change 0xFFFFFFFF with (Z.ones 32). rewrite Z.land_ones by lia.
  rewrite Z.mod_small by done. by apply Z.shiftr_div_pow2.
Qed.

Lemma lor_add a b n : 0 <= n -> 0 <= a < 2 ^ n -> 0 <= b -> Z.lor a (b * 2 ^ n) = a + b * 2 ^ n.
Proof.
  intros Hn Ha Hb. assert (L : Z.land a (b * 2 ^ n) = 0).
  { apply Z.bits_inj'. intros i Hi. rewrite Z.land_spec, Z.bits_0, <- Z.shiftl_mul_pow2, Z.shiftl_spec by lia.
    destruct (Z.lt_ge_cases i n); [by rewrite (Z.testbit_neg_r _ (i - n)), andb_false_r by lia|].
    assert (E : a = a mod 2 ^ n) by (by rewrite Z.mod_small).
    rewrite E, Z.mod_pow2_bits_high by lia. done. }
  by rewrite <- Z.lxor_lor, <- Z.add_nocarry_lxor by done.
Qed.

Lemma ROTR_rotr x n : word x -> 0 < n < 32 -> ROTR x n = Fips.rotr n x.
Proof.
  intros Hx Hn. unfold ROTR, Fips.rotr. rewrite SHR_shr by (assumption || lia). unfold Fips.shr.
  rewrite Z.shiftl_mul_pow2 by lia.
  assert (E : 2 ^ 32 = 2 ^ n * 2 ^ (32 - n)) by (rewrite <- Z.pow_add_r by lia; f_equal; lia).
  pose proof (Z.pow_pos_nonneg 2 n ltac:(lia) ltac:(lia)) as Pn.
  pose proof (Z.pow_pos_nonneg 2 (32 - n) ltac:(lia) ltac:(lia)) as Pm.
  assert (U : u32 (x * 2 ^ (32 - n)) = (x mod 2 ^ n) * 2 ^ (32 - n)).
  { unfold wrap. rewrite E. by rewrite Z.mul_mod_distr_r by lia. }
  assert (B : 0 <= x / 2 ^ n < 2 ^ (32 - n)).
  { split; [apply Z.div_pos; [apply Hx|done]|]. apply Z.div_lt_upper_bound; [done|]. rewrite <- E. apply Hx. }
  pose proof (Z.mod_pos_bound x (2 ^ n) Pn).
  rewrite U, lor_add by lia. unfold wrap in U.
  rewrite Z.add_mod by lia. rewrite U, (Z.mod_small (x / 2 ^ n)) by nia. rewrite (Z.mod_small (x / 2 ^ n + _)); [done|]. nia.
Qed.

Lemma word_rotr n x : word (Fips.rotr n x).
Proof. apply (word_u32 (x / 2 ^ n + x * 2 ^ (32 - n))). Qed.

Lemma word_shr n x : 0 <= n -> word x -> word (Fips.shr n x).
Proof. apply word_div. Qed.

Lemma S0_sigma0 x : word x -> S0 x = Fips.sigma0 x.
Proof. intros Hx. unfold S0, Fips.sigma0. by rewrite !ROTR_rotr, SHR_shr by (assumption || lia). Qed.
Lemma S1_sigma1 x : word x -> S1 x = Fips.sigma1 x.
Proof. intros Hx. unfold S1, Fips.sigma1. by rewrite !ROTR_rotr, SHR_shr by (assumption || lia). Qed.
Lemma S2_Sigma0 x : word x -> S2 x = Fips.Sigma0 x.
Proof. intros Hx. unfold S2, Fips.Sigma0. by rewrite !ROTR_rotr by (assumption || lia). Qed.
Lemma S3_Sigma1 x : word x -> S3 x = Fips.Sigma1 x.
Proof. intros Hx. unfold S3, Fips.Sigma1. by rewrite !ROTR_rotr by (assumption || lia). Qed.

Lemma F0_Maj x y z : F0 x y z = Fips.Maj x y z.
Proof.
  unfold F0, Fips.Maj. apply Z.bits_inj'. intros i Hi.
  rewrite !Z.lxor_spec, !Z.lor_spec, !Z.land_spec, Z.lor_spec.
  by destruct (Z.testbit x i), (Z.testbit y i), (Z.testbit z i).
Qed.

Lemma compl_lxor x : word x -> Fips.compl x = Z.lxor x (Z.ones 32).
Proof.
  intros Hx. unfold Fips.compl. replace (2 ^ 32 - 1 - x) with (Z.ones 32 - x) by (rewrite Z.ones_equiv; lia).
  rewrite Z.sub_nocarry_ldiff; [|].
  - apply Z.bits_inj'. intros i Hi. rewrite Z.ldiff_spec, Z.lxor_spec.
    destruct (Z.lt_ge_cases i 32).
    + rewrite Z.ones_spec_low by lia. by destruct (Z.testbit x i).
    + rewrite Z.ones_spec_high by lia. apply word_bits in Hx as [_ Hx]. by rewrite Hx by lia.
  - apply Z.bits_inj'. intros i Hi. rewrite Z.ldiff_spec, Z.bits_0.
    destruct (Z.lt_ge_cases i 32).
    + rewrite Z.ones_spec_low by lia. by destruct (Z.testbit x i).
    + apply word_bits in Hx as [_ Hx]. by rewrite Hx by lia.
Qed.

Lemma F1_Ch x y z : word x -> word z -> F1 x y z = Fips.Ch x y z.
Proof.
  intros Hx Hz. unfold F1, Fips.Ch. rewrite compl_lxor by done. apply Z.bits_inj'. intros i Hi.
  rewrite !Z.lxor_spec, !Z.land_spec, !Z.lxor_spec.
  destruct (Z.lt_ge_cases i 32).
  - rewrite Z.ones_spec_low by lia. by destruct (Z.testbit x i), (Z.testbit y i), (Z.testbit z i).
  - apply word_bits in Hx as [_ Hx], Hz as [_ Hz]. by rewrite Z.ones_spec_high, (Hx i), (Hz i) by lia.
Qed.

(** ** The constants of the code are those of the standard *)

Lemma K_fips : K = Fips.K.
Proof. vm_compute. reflexivity. Qed.

Lemma iv_fips : iv256 = Fips.H0_256 /\ iv224 = Fips.H0_224.
Proof. split; vm_compute; reflexivity. Qed.

Lemma word_lookup l i : Forall word l -> word (l !!! i).
Proof.
  intros F. rewrite list_lookup_total_alt. destruct (l !! i) as [x|] eqn:E; [|unfold word; cbn; lia].
  by eapply Forall_lookup_1 in E.
Qed.

#[local] Hint Resolve word_lookup : nkfs.

(** ** The registers turn *)

(** The registers as the round [t] names them. *)
Definition view (t : nat) (r : list Z) : list Z := map (fun i => r !!! i) (turn t).

Lemma turn_next t : forall r, length r = 8%nat -> Forall word r -> forall x k,
  length (P (turn t) x k r) = 8%nat /\ Forall word (P (turn t) x k r) /\
  view (S t) (P (turn t) x k r) = Fips.step x k (view t r).
Proof.
  intros r L F x k. assert (B : (t mod 8 < 8)%nat) by (apply Nat.mod_upper_bound; lia).
  assert (E : (S t mod 8 = S (t mod 8) mod 8)%nat).
  { replace (S t) with (t + 1)%nat by lia. rewrite Nat.Div0.add_mod. change (1 mod 8)%nat with 1%nat. f_equal. lia. }
  unfold view, turn. rewrite E. clear E. generalize dependent (t mod 8)%nat. clear t. intros q B.
  unfold P. split; [by rewrite !length_insert|]. split; [by repeat apply Forall_insert; auto with nkfs|].
  assert (W : forall i, word (r !!! i)) by (intros i; by apply word_lookup).
  rewrite !(S3_Sigma1 _ (W _)), !(S2_Sigma0 _ (W _)), !(F1_Ch _ _ _ (W _) (W _)), !F0_Maj. clear W F.
  destruct r as [|a [|b [|c [|d [|e [|f [|g [|h [|? ?]]]]]]]]]; try discriminate L.
  do 8 (destruct q as [|q]; [reflexivity|]). lia.
Qed.

(** ** The schedule *)

Lemma schedule_S n M : Fips.schedule (S n) M = Fips.schedule n M ++ [Fips.next_word (Fips.schedule n M)].
Proof. done. Qed.

Lemma schedule_length n M : length (Fips.schedule n M) = (n + length M)%nat.
Proof. induction n as [|n IH]; [done|]. rewrite schedule_S, length_app, IH. cbn. lia. Qed.

Lemma schedule_take n k M : take (n + length M) (Fips.schedule (k + n) M) = Fips.schedule n M.
Proof.
  induction k as [|k IH].
  - apply take_ge. rewrite schedule_length. lia.
  - change (S k + n)%nat with (S (k + n)). rewrite schedule_S, take_app_le; [done|]. rewrite schedule_length. lia.
Qed.

Lemma schedule_lookup n i M : (i < n + length M)%nat -> (n <= 48)%nat ->
  Fips.schedule 48 M !!! i = Fips.schedule n M !!! i.
Proof.
  intros Hi Hn. rewrite <- (schedule_take n (48 - n) M). replace (48 - n + n)%nat with 48%nat by lia.
  symmetry. by apply lookup_total_take.
Qed.

(** [W[t]] is the next word of the schedule, and nothing else changes. *)
Lemma R_next t W : (16 <= t < length W)%nat -> Forall word W ->
  Forall word (R t W) /\ length (R t W) = length W /\ take (S t) (R t W) = take t W ++ [Fips.next_word (take t W)].
Proof.
  intros Ht F. unfold R. assert (V : forall i, word (W !!! i)) by (intros i; by apply word_lookup).
  rewrite (S1_sigma1 _ (V _)), (S0_sigma0 _ (V _)).
  split; [apply Forall_insert; auto with nkfs|]. split; [apply length_insert|].
  rewrite (take_S_r _ t (Fips.next_word (take t W))); rewrite ?take_insert_ge by lia; [done|].
  rewrite list_lookup_insert_eq by lia. f_equal. unfold Fips.next_word, wrap.
  rewrite length_take, Nat.min_l by lia. by rewrite !lookup_total_take by lia.
Qed.

Lemma GET_UINT32_BE_spec b i : (i + 4 <= length b)%nat -> GET_UINT32_BE b i = of_be (take 4 (drop i b)).
Proof.
  intros Hl. unfold GET_UINT32_BE.
  assert (E : take 4 (drop i b) = [b !!! (i + 0)%nat; b !!! (i + 1)%nat; b !!! (i + 2)%nat; b !!! (i + 3)%nat]).
  { rewrite <- !lookup_total_drop. destruct (drop i b) as [|x [|y [|z [|u d]]]] eqn:D; try done;
      apply (f_equal length) in D; rewrite length_drop in D; cbn in D; lia. }
  rewrite E. unfold of_be.
  set (x0 := b !!! (i + 0)%nat). set (x1 := b !!! (i + 1)%nat). set (x2 := b !!! (i + 2)%nat). set (x3 := b !!! (i + 3)%nat).
  change (le_combine _) with (Z.lor (byte.unsigned x3) (Z.shiftl (Z.lor (byte.unsigned x2) (Z.shiftl (Z.lor (byte.unsigned x1)
    (Z.shiftl (Z.lor (byte.unsigned x0) (Z.shiftl 0 8)) 8)) 8)) 8)).
  rewrite Z.shiftl_0_l, Z.lor_0_r, !Z.shiftl_lor, !Z.shiftl_shiftl by lia.
  change (8 + 8 + 8) with 24. change (8 + 8) with 16.
  rewrite (Z.lor_comm _ (byte.unsigned x3)). f_equal. rewrite (Z.lor_comm _ (Z.shiftl (byte.unsigned x2) 8)).
  f_equal. apply Z.lor_comm.
Qed.

Lemma words_spec data : length data = 64%nat -> map (fun i => GET_UINT32_BE data (4 * i)) (seq 0 16) = Fips.words data.
Proof.
  intros L. unfold Fips.words, slots. rewrite map_map. apply map_ext_in. intros i Hi. apply in_seq in Hi.
  rewrite GET_UINT32_BE_spec by lia. done.
Qed.

Lemma words_ok data : length data = 64%nat -> Forall word (Fips.words data) /\ length (Fips.words data) = 16%nat.
Proof.
  intros L. unfold Fips.words. split; [|by rewrite length_map, slots_length].
  apply Forall_map. eapply Forall_impl; [by apply (Forall_slots 4 16 data)|]. intros x Hx. cbn.
  pose proof (of_be_bound x) as B. rewrite Hx in B. apply B.
Qed.

(** ** The rounds *)

Definition vars (H : list Z) (W : list Z) (t : nat) : list Z :=
  foldl (fun v t => Fips.step (W !!! t) (Fips.K !!! t) v) H (seq 0 t).

Lemma vars_S H W t : vars H W (S t) = Fips.step (W !!! t) (Fips.K !!! t) (vars H W t).
Proof. unfold vars. by rewrite seq_S, foldl_app. Qed.

Definition after (H M : list Z) (t : nat) (s : list Z * list Z) : Prop :=
  let '(W, r) := s in
  length r = 8%nat /\ Forall word r /\ length W = 64%nat /\ Forall word W /\
  take (16 + (t - 16)) W = Fips.schedule (t - 16) M /\ view t r = vars H (Fips.schedule 48 M) t.

Lemma round_after H M t s : length M = 16%nat -> (t < 64)%nat -> after H M t s -> after H M (S t) (round t s).
Proof.
  intros LM Ht. destruct s as [W r]. intros (L & F & LW & FW & ES & EV). unfold round.
  assert (HW : exists W', (if (t <? 16)%nat then W else R t W) = W' /\ length W' = 64%nat /\ Forall word W' /\
    take (16 + (S t - 16)) W' = Fips.schedule (S t - 16) M).
  { destruct (Nat.ltb_spec t 16) as [Hl|Hl].
    - exists W. replace (S t - 16)%nat with (t - 16)%nat by lia. done.
    - destruct (R_next t W ltac:(lia) FW) as (F' & L' & E'). exists (R t W). split; [done|]. split; [lia|].
      split; [done|]. replace (S t - 16)%nat with (S (t - 16)) by lia.
      replace (16 + S (t - 16))%nat with (S t) by lia. rewrite E'. replace (16 + (t - 16))%nat with t in ES by lia.
      by rewrite ES. }
  destruct HW as (W' & -> & LW' & FW' & ES'). destruct (turn_next t r L F (W' !!! t) (K !!! t)) as (L' & F' & E').
  split_and!; try done. rewrite E', EV, vars_S, <- K_fips. f_equal.
  rewrite (schedule_lookup (S t - 16)) by lia. rewrite <- ES'. symmetry. apply lookup_total_take. lia.
Qed.

Lemma after_start H M : length H = 8%nat -> Forall word H -> length M = 16%nat -> Forall word M ->
  after H M 0 (M ++ replicate 48 0, H).
Proof.
  intros LH FH LM FM. split_and!; [done|done| | | |].
  - rewrite length_app, LM. done.
  - apply Forall_app. split; [done|]. apply Forall_replicate. unfold word. lia.
  - by rewrite take_app_length'.
  - destruct H as [|a [|b [|c [|d [|e [|f [|g [|h [|? ?]]]]]]]]]; done.
Qed.

Lemma view_64 r : length r = 8%nat -> view 64 r = r.
Proof. intros L. destruct r as [|a [|b [|c [|d [|e [|f [|g [|h [|? ?]]]]]]]]]; done. Qed.

Lemma after_rounds H M n s : length M = 16%nat -> after H M 0 s -> (n <= 64)%nat -> after H M n (for_up 0 n round s).
Proof.
  intros LM A Hn. apply (for_up_ind (after H M) round n 0 s A). intros t s' Ht. apply round_after; [done|lia].
Qed.

(** All the rounds: the registers end as the variables of the standard. *)
Lemma rounds_spec H M n : n = 64%nat -> length H = 8%nat -> Forall word H -> length M = 16%nat -> Forall word M ->
  snd (for_up 0 n round (M ++ replicate 48 0, H)) = vars H (Fips.schedule 48 M) n.
Proof.
  intros Hn LH FH LM FM. pose proof (after_rounds H M n _ LM (after_start H M LH FH LM FM) ltac:(lia)) as A.
  destruct (for_up 0 n round _) as [W r]. destruct A as (Lr & _ & _ & _ & _ & E). cbn [snd].
  rewrite <- E. subst n. symmetry. by apply view_64.
Qed.

#[local] Opaque Fips.K K Fips.schedule round.

(** One block: the code's compression is that of the standard. *)
Lemma sha256_process_spec ctx data : length data = 64%nat -> length (state ctx) = 8%nat -> Forall word (state ctx) ->
  sha256_process ctx data = Ctx (total ctx) (Fips.compress (state ctx) data) (buffer ctx) (is224 ctx).
Proof.
  intros L LS FS. unfold sha256_process. rewrite words_spec by done. destruct (words_ok data L) as [FM LM].
  by rewrite (rounds_spec _ _ 64 eq_refl LS FS LM FM).
Qed.

Lemma compress_ok H data : length data = 64%nat -> length H = 8%nat -> Forall word H ->
  length (Fips.compress H data) = 8%nat /\ Forall word (Fips.compress H data).
Proof.
  intros L LH FH. unfold Fips.compress. set (v := foldl _ _ _).
  assert (Lv : length v = length H).
  { unfold v. generalize (seq 0 64). intros ts. generalize (Fips.schedule 48 (Fips.words data)). intros W. clear.
    revert H. induction ts as [|t ts IH]; intros H; [done|]. cbn [foldl]. rewrite IH.
    by destruct H as [|? [|? [|? [|? [|? [|? [|? [|? [|? ?]]]]]]]]]. }
  split; [rewrite length_zip_with; lia|]. clear L. revert Lv LH. generalize v. clear v FH. generalize 8%nat.
  induction H as [|x H IH]; intros n [|y v] Lv Ln; cbn in *; try done. constructor; [apply (word_u32 (x + y))|].
  apply (IH (pred n)); lia.
Qed.

(** ** Blocks *)

Lemma slots_app {A} w a b (l : list A) : slots w (a + b) l = slots w a l ++ slots w b (drop (w * a) l).
Proof.
  revert l. induction a as [|a IH]; intros l; [by rewrite Nat.mul_0_r, drop_0|].
  cbn [Nat.add]. rewrite !slots_S, IH, drop_drop. replace (w * S a)%nat with (w + w * a)%nat by lia. done.
Qed.

Lemma slots_prefix {A} w a (l r : list A) : (w * a <= length l)%nat -> slots w a (l ++ r) = slots w a l.
Proof.
  revert l. induction a as [|a IH]; intros l Hl; [done|]. rewrite !slots_S, take_app_le, drop_app_le by lia.
  f_equal. apply IH. rewrite length_drop. lia.
Qed.

Lemma blocks_app a b : (length a mod 64 = 0)%nat -> Fips.blocks (a ++ b) = Fips.blocks a ++ Fips.blocks b.
Proof.
  intros Ha. unfold Fips.blocks. pose proof (Nat.div_mod_eq (length a) 64) as D. rewrite Ha in D.
  rewrite length_app. replace ((length a + length b) / 64)%nat with (length a / 64 + length b / 64)%nat.
  2: { rewrite D at 2. rewrite Nat.add_0_r, Nat.mul_comm, Nat.div_add_l by lia. done. }
  rewrite slots_app, slots_prefix by lia. f_equal. f_equal. replace (64 * (length a / 64))%nat with (length a) by lia. by rewrite drop_app_length.
Qed.

Lemma blocks_short a : (length a < 64)%nat -> Fips.blocks a = [].
Proof. intros Ha. unfold Fips.blocks. by rewrite Nat.div_small. Qed.

Lemma blocks_one a : length a = 64%nat -> Fips.blocks a = [a].
Proof. intros Ha. unfold Fips.blocks. rewrite Ha. change (64 / 64)%nat with 1%nat. rewrite slots_S, take_ge by lia. done. Qed.

Lemma length_blocks_Forall l : Forall (fun b => length b = 64%nat) (Fips.blocks l).
Proof.
  pose proof (Nat.div_mod_eq (length l) 64). unfold Fips.blocks. set (q := (length l / 64)%nat) in *.
  assert (L : length (take (64 * q) l) = (64 * q)%nat) by (rewrite length_take; lia).
  replace (slots 64 q l) with (slots 64 q (take (64 * q) l)); [by apply Forall_slots|].
  rewrite <- (slots_prefix 64 q (take (64 * q) l) (drop (64 * q) l)) by lia. by rewrite take_drop.
Qed.

Definition hash (H : list Z) (l : list byte) : list Z := foldl Fips.compress H (Fips.blocks l).

Lemma hash_app H a b : (length a mod 64 = 0)%nat -> hash H (a ++ b) = hash (hash H a) b.
Proof. intros Ha. unfold hash. by rewrite blocks_app, foldl_app. Qed.

Lemma hash_ok H l : length H = 8%nat -> Forall word H -> length (hash H l) = 8%nat /\ Forall word (hash H l).
Proof.
  unfold hash. pose proof (length_blocks_Forall l) as F. revert H. induction F as [|b bs Hb F IH]; intros H LH FH; [done|].
  cbn [foldl]. destruct (compress_ok H b Hb LH FH). by apply IH.
Qed.

(** ** The context after some bytes *)

(** [head] has been compressed, [tail] is in the buffer. *)
Record core (H : list Z) (ctx : sha256_context) (head tail : list byte) : Prop := {
  co_head : (length head mod 64 = 0)%nat;
  co_state : state ctx = hash H head;
  co_tail : (length tail < 64)%nat;
  co_buffer : length (buffer ctx) = 64%nat /\ take (length tail) (buffer ctx) = tail
}.

Section Init.
Context (H : list Z) (LH : length H = 8%nat) (FH : Forall word H).

Lemma core_process ctx head tail b : core H ctx head tail -> length b = 64%nat -> core H (sha256_process ctx b) (head ++ b) [].
Proof.
  intros [Hh Hs Ht Hb] Lb. destruct (hash_ok H head LH FH) as [L F]. rewrite <- Hs in L, F.
  rewrite sha256_process_spec by done. split; cbn [state buffer length take]; [| |lia|by split; [apply Hb|]].
  - rewrite length_app, Lb, Nat.Div0.add_mod, Hh. done.
  - rewrite hash_app, Hs by done. unfold hash. by rewrite (blocks_one b).
Qed.

(** [process_all] eats whole blocks; what is left goes to the buffer. *)
Lemma core_bulk fuel : forall ctx head input, core H ctx head [] -> (length input <= fuel)%nat ->
  exists ctx' head' rest, process_all fuel ctx input = (ctx', rest) /\ core H ctx' head' [] /\
    head ++ input = head' ++ rest /\ (length rest < 64)%nat /\ total ctx' = total ctx /\ is224 ctx' = is224 ctx.
Proof.
  induction fuel as [|fuel IH]; intros ctx head input C Hf.
  - destruct input; [|cbn in Hf; lia]. exists ctx, head, []. split_and!; cbn; [done..|lia|done|done].
  - cbn [process_all]. destruct (at_least 64 input) eqn:E.
    + apply at_least_spec in E. assert (L : length (take 64 input) = 64%nat) by (rewrite length_take; lia).
      destruct (IH (sha256_process ctx (take 64 input)) (head ++ take 64 input) (drop 64 input)) as (c & h & r & -> & C' & E' & Hr & Ht & Hi).
      { by eapply core_process. }
      { rewrite length_drop. lia. }
      exists c, h, r. rewrite <- app_assoc, take_drop in E'. split_and!; done.
    + exists ctx, head, input. split_and!; try done. apply Nat.nle_gt. intros Hl. by rewrite (at_least_true 64) in E.
Qed.

Lemma core_put ctx head tail input : core H ctx head tail -> (length tail + length input < 64)%nat ->
  core H (with_buffer ctx (memcpy_at (buffer ctx) (length tail) input)) head (tail ++ input).
Proof.
  intros [Hh Hs Ht [Hl Hb]] Hi. split; cbn [state buffer with_buffer]; [done|done|rewrite length_app; lia|].
  rewrite memcpy_at_length by lia. split; [done|]. rewrite length_app, memcpy_at_take by lia. by rewrite Hb.
Qed.

(** The body of [sha256_update] after the count. *)
Definition absorb (ctx : sha256_context) (left : nat) (input : list byte) : sha256_context :=
  let fill := (64 - left)%nat in
  let '(ctx, input, off) :=
    if negb (left =? 0)%nat && at_least fill input then
      let ctx := with_buffer ctx (memcpy_at (buffer ctx) left (take fill input)) in
      (sha256_process ctx (buffer ctx), drop fill input, 0%nat)
    else (ctx, input, left) in
  let '(ctx, input) := process_all (length input) ctx input in
  match input with
  | [] => ctx
  | _ => with_buffer ctx (memcpy_at (buffer ctx) off input)
  end.

(** What is left of the input, if anything, goes to the front of the buffer. *)
Lemma core_rest ctx head rest : core H ctx head [] -> (length rest < 64)%nat ->
  core H (match rest with [] => ctx | _ => with_buffer ctx (memcpy_at (buffer ctx) 0 rest) end) head rest.
Proof. intros C Hr. destruct rest as [|x xs]; [done|]. exact (core_put ctx head [] (x :: xs) C Hr). Qed.

Lemma core_flow ctx head input : core H ctx head [] ->
  let ctx' := let '(ctx, input) := process_all (length input) ctx input in
    match input with [] => ctx | _ => with_buffer ctx (memcpy_at (buffer ctx) 0 input) end in
  exists head' tail', core H ctx' head' tail' /\ head ++ input = head' ++ tail' /\ is224 ctx' = is224 ctx /\ total ctx' = total ctx.
Proof.
  intros C. destruct (core_bulk (length input) ctx head input C (le_n _)) as (c & h & r & -> & C' & E & Hr & Ht & Hi).
  exists h, r. split; [by apply core_rest|]. split; [done|]. by destruct r.
Qed.

Lemma core_fill ctx head tail input : core H ctx head tail -> (64 - length tail <= length input)%nat ->
  let ctx1 := with_buffer ctx (memcpy_at (buffer ctx) (length tail) (take (64 - length tail) input)) in
  core H (sha256_process ctx1 (buffer ctx1)) (head ++ tail ++ take (64 - length tail) input) [].
Proof.
  intros [Hh Hs Ht [Hl Hb]] Hi ctx1.
  assert (E : buffer ctx1 = tail ++ take (64 - length tail) input).
  { cbn. unfold memcpy_at. rewrite Hb, drop_ge, app_nil_r; [done|]. rewrite length_take. lia. }
  rewrite E. apply core_process with (tail := []); [|rewrite length_app, length_take; lia].
  split; [done|done|cbn; lia|]. rewrite E. split; [|done]. rewrite length_app, length_take. lia.
Qed.

Lemma core_absorb ctx head tail input : core H ctx head tail ->
  exists head' tail', core H (absorb ctx (length tail) input) head' tail' /\ head ++ tail ++ input = head' ++ tail' /\
    is224 (absorb ctx (length tail) input) = is224 ctx /\ total (absorb ctx (length tail) input) = total ctx.
Proof.
  intros C. unfold absorb. destruct (Nat.eqb_spec (length tail) 0) as [H0|H0]; cbn [negb andb].
  - apply length_zero_iff_nil in H0 as ->. by apply core_flow.
  - destruct (at_least (64 - length tail) input) eqn:E.
    + apply at_least_spec in E. pose proof (core_fill ctx head tail input C E) as C1. cbn zeta in C1.
      destruct (core_flow _ _ (drop (64 - length tail) input) C1) as (h & t & C2 & E2 & Hi & Ht).
      exists h, t. split; [exact C2|]. split; [by rewrite <- E2, <- !app_assoc, take_drop|].
      rewrite Hi, Ht. destruct (hash_ok H head LH FH) as [L F]. rewrite <- (co_state _ _ _ _ C) in L, F.
      by rewrite sha256_process_spec by (try done; apply C1).
    + assert (Hl : (length input < 64 - length tail)%nat)
        by (apply Nat.nle_gt; intros Hl; by rewrite (at_least_true _ _ Hl) in E).
      assert (Ep : process_all (length input) ctx input = (ctx, input)).
      { destruct input as [|x xs]; [done|]. cbn [length process_all]. by rewrite at_least_false by (cbn in *; lia). }
      rewrite Ep. pose proof (co_tail _ _ _ _ C). exists head, (tail ++ input). split; [|by destruct input].
      destruct input as [|x xs]; [by rewrite app_nil_r|]. apply core_put; [done|]. cbn in *. lia.
Qed.

End Init.

(** ** The count of bytes *)

(** The two words of [total] are [n], modulo 2^64. *)
Definition counter (t : Z * Z) (n : Z) : Prop := word (fst t) /\ word (snd t) /\ fst t + 2 ^ 32 * snd t = n mod 2 ^ 64.

(** A chunk of [ilen] bytes is counted as [ilen] modulo 2^32. *)
Lemma count_spec t n ilen : counter t n -> counter (count t ilen) (n + ilen mod 2 ^ 32).
Proof.
  destruct t as [lo hi]. unfold counter, count, word. cbn [fst snd]. intros (Hl & Hh & E).
  change 0xFFFFFFFF with (Z.ones 32). rewrite Z.land_ones by lia. unfold wrap.
  rewrite Z.mod_mod by lia. pose proof (Z.mod_pos_bound ilen (2 ^ 32) ltac:(lia)).
  set (c := ilen mod 2 ^ 32) in *. change (2 ^ 64) with (2 ^ 32 * 2 ^ 32) in *.
  destruct (Z.ltb_spec ((lo + c) mod 2 ^ 32) c); split_and!; dlia.
Qed.

Lemma counter_mod t n k : counter t n -> 0 <= k <= 32 -> fst t mod 2 ^ k = n mod 2 ^ k.
Proof.
  intros (_ & _ & E) Hk. replace (fst t) with (n mod 2 ^ 64 + (- (2 ^ (32 - k) * snd t)) * 2 ^ k).
  - rewrite Z.mod_add by (pose proof (Z.pow_pos_nonneg 2 k); lia). 
    rewrite <- Znumtheory.Zmod_div_mod; [done|apply Z.pow_pos_nonneg; lia|lia|].
    exists (2 ^ (64 - k)). rewrite <- Z.pow_add_r by lia. f_equal. lia.
  - rewrite <- E. replace (- (2 ^ (32 - k) * snd t) * 2 ^ k) with (- (2 ^ (32 - k) * 2 ^ k * snd t)) by ring.
    rewrite <- Z.pow_add_r by lia. replace (32 - k + k) with 32 by lia. lia.
Qed.

(** The context holds [msg]. *)
Definition absorbed (H : list Z) (fl : Z) (ctx : sha256_context) (msg : list byte) : Prop :=
  is224 ctx = fl /\ counter (total ctx) (Z.of_nat (length msg)) /\
  exists head tail, core H ctx head tail /\ msg = head ++ tail.

Lemma left_spec H fl ctx msg head tail : absorbed H fl ctx msg -> core H ctx head tail -> msg = head ++ tail ->
  Z.land (fst (total ctx)) 0x3F = Z.of_nat (length tail).
Proof.
  intros (_ & Hc & _) C ->. change 0x3F with (Z.ones 6). rewrite Z.land_ones by lia.
  rewrite (counter_mod _ _ 6 Hc) by lia. rewrite length_app, Nat2Z.inj_add.
  pose proof (co_head _ _ _ _ C) as Hh. pose proof (co_tail _ _ _ _ C) as Ht.
  rewrite Z.add_mod by lia. change (2 ^ 6) with (Z.of_nat 64) at 1. rewrite <- (Nat2Z.inj_mod (length head) 64), Hh. change (Z.of_nat 0) with 0.
  rewrite Z.add_0_l, Z.mod_mod by lia. apply Z.mod_small. lia.
Qed.

Lemma core_with_total H ctx head tail t : core H ctx head tail -> core H (with_total ctx t) head tail.
Proof. intros [A B C D]. by split. Qed.

(** Any chunk is absorbed; it is counted as its length modulo 2^32. *)
Lemma sha256_update_core H fl ctx msg input : length H = 8%nat -> Forall word H -> absorbed H fl ctx msg ->
  let ctx' := sha256_update ctx input in
  is224 ctx' = fl /\ counter (total ctx') (Z.of_nat (length msg) + Z.of_nat (length input) mod 2 ^ 32) /\
  exists head tail, core H ctx' head tail /\ msg ++ input = head ++ tail.
Proof.
  intros LH FH A. cbn zeta. destruct input as [|x xs].
  { rewrite app_nil_r. change (Z.of_nat (length []) mod 2 ^ 32) with 0. by rewrite Z.add_0_r. }
  destruct A as (Hi & Hc & head & tail & C & E).
  assert (Hleft := left_spec H fl ctx msg head tail (conj Hi (conj Hc (ex_intro _ head (ex_intro _ tail (conj C E))))) C E).
  set (input := x :: xs) in *. set (t' := count (total ctx) (Z.of_nat (length input))).
  change (sha256_update ctx input) with (absorb (with_total ctx t') (Z.to_nat (Z.land (fst (total ctx)) 0x3F)) input).
  rewrite Hleft, Nat2Z.id.
  destruct (core_absorb H LH FH _ head tail input (core_with_total H ctx head tail t' C)) as (h & t & C' & E' & Hi' & Ht').
  split; [by rewrite Hi'|]. split; [rewrite Ht'; by apply count_spec|].
  exists h, t. split; [done|]. by rewrite E, <- app_assoc.
Qed.

Lemma sha256_update_spec H fl ctx msg input : length H = 8%nat -> Forall word H -> absorbed H fl ctx msg ->
  Z.of_nat (length input) < 2 ^ 32 -> absorbed H fl (sha256_update ctx input) (msg ++ input).
Proof.
  intros LH FH A Hl. destruct (sha256_update_core H fl ctx msg input LH FH A) as (Hi & Hc & Hx).
  split; [done|]. split; [|done]. rewrite (Z.mod_small (Z.of_nat (length input))) in Hc by lia. by rewrite length_app, Nat2Z.inj_add.
Qed.

(** ** Padding and digest *)

Lemma le_split_app a b v : le_split (a + b) v = le_split a v ++ le_split b (Z.shiftr v (8 * Z.of_nat a)).
Proof.
  revert v. induction a as [|a IH]; intros v; [by rewrite Z.shiftr_0_r|].
  change (byte.of_Z v :: le_split (a + b) (Z.shiftr v 8) =
    byte.of_Z v :: le_split a (Z.shiftr v 8) ++ le_split b (Z.shiftr v (8 * Z.of_nat (S a)))).
  f_equal. rewrite IH, Z.shiftr_shiftr by lia. do 3 f_equal. lia.
Qed.

Lemma be_app a b v : be (a + b) v = be b (Z.shiftr v (8 * Z.of_nat a)) ++ be a v.
Proof. unfold be. by rewrite le_split_app, reverse_app. Qed.

Lemma be_mod n v : be n (v mod 2 ^ (8 * Z.of_nat n)) = be n v.
Proof.
  assert (E : of_be (be n v) = v mod 2 ^ (8 * Z.of_nat n)).
  { unfold of_be, be. rewrite reverse_involutive, le_combine_split. by rewrite Z.mul_comm. }
  rewrite <- E. apply be_of_be, be_length.
Qed.

Lemma PUT_UINT32_BE_spec n b i : PUT_UINT32_BE n b i = memcpy_at b i (be 4 n).
Proof. done. Qed.

(** [msglen] is the number of bits, big-endian, modulo 2^64. *)
Lemma msglen_spec t n b : counter t n -> length b = 8%nat ->
  PUT_UINT32_BE (u32 (Z.shiftl (fst t) 3)) (PUT_UINT32_BE (Z.lor (Z.shiftr (fst t) 29) (u32 (Z.shiftl (snd t) 3))) b 0) 4 =
  be 8 (8 * n).
Proof.
  destruct t as [lo hi]. unfold counter, word. cbn [fst snd]. intros (Hl & Hh & E) Lb.
  rewrite !PUT_UINT32_BE_spec, !Z.shiftl_mul_pow2, Z.shiftr_div_pow2 by lia.
  rewrite <- (be_mod 8 (8 * n)). change (2 ^ (8 * Z.of_nat 8)) with (2 ^ 64).
  replace ((8 * n) mod 2 ^ 64) with ((8 * (lo + 2 ^ 32 * hi)) mod 2 ^ 64) by (rewrite E; apply Z.mul_mod_idemp_r; lia).
  assert (U : Z.lor (lo / 2 ^ 29) (u32 (hi * 2 ^ 3)) = ((8 * (lo + 2 ^ 32 * hi)) mod 2 ^ 64) / 2 ^ 32).
  { unfold wrap. replace ((hi * 2 ^ 3) mod 2 ^ 32) with ((hi mod 2 ^ 29) * 2 ^ 3).
    - rewrite lor_add by first [lia | split; [apply Z.div_pos; lia|apply Z.div_lt_upper_bound; lia] | apply Z.mod_pos_bound; lia]. clear E. dlia.
    - change (2 ^ 32) with (2 ^ 29 * 2 ^ 3). symmetry. by apply Z.mul_mod_distr_r. }
  rewrite U. set (v := (8 * (lo + 2 ^ 32 * hi)) mod 2 ^ 64) in *.
  replace (be 4 (u32 (lo * 2 ^ 3))) with (be 4 v).
  2: { rewrite <- (be_mod 4 v). change (2 ^ (8 * Z.of_nat 4)) with (2 ^ 32). f_equal. unfold wrap, v. clear. dlia. }
  change (be 8 v) with (be (4 + 4) v). rewrite (be_app 4 4 v), Z.shiftr_div_pow2 by lia.
  change (2 ^ (8 * Z.of_nat 4)) with (2 ^ 32). unfold memcpy_at. rewrite !be_length. cbn [take Nat.add app].
  rewrite take_0. cbn [app]. rewrite take_app_length' by (by rewrite be_length). rewrite (drop_ge (be 4 _ ++ _)); [by rewrite app_nil_r|].
  rewrite length_app, be_length, length_drop. lia.
Qed.

(** The first [n] words of the state, written over [output]. *)
Lemma length_concat_be l : length (concat (map (be 4) l)) = (4 * length l)%nat.
Proof. induction l as [|x l IH]; [done|]. cbn. rewrite length_app, be_length, IH. lia. Qed.

Lemma put_state_spec ctx i output out : length (state ctx) = 8%nat -> length output = 32%nat -> (i < 8)%nat ->
  out = concat (map (be 4) (take i (state ctx))) ++ drop (4 * i) output ->
  put_state ctx i out = concat (map (be 4) (take (S i) (state ctx))) ++ drop (4 * S i) output.
Proof.
  intros L Lo Hi ->. unfold put_state. rewrite PUT_UINT32_BE_spec. set (pre := concat _).
  assert (Lp : length pre = (4 * i)%nat) by (unfold pre; rewrite length_concat_be, length_take; lia).
  unfold memcpy_at. rewrite be_length, take_app_length', drop_app_ge, drop_drop by lia.
  rewrite (take_S_r _ i (state ctx !!! i)) by (apply list_lookup_lookup_total_lt; lia).
  rewrite map_app, concat_app. fold pre. cbn [map concat]. rewrite app_nil_r, <- app_assoc. do 3 f_equal. lia.
Qed.

Lemma put_states_spec ctx output n : length (state ctx) = 8%nat -> length output = 32%nat -> (n <= 8)%nat ->
  for_up 0 n (put_state ctx) output = concat (map (be 4) (take n (state ctx))) ++ drop (4 * n) output.
Proof.
  intros L Lo Hn. apply (for_up_ind (fun i out => out = concat (map (be 4) (take i (state ctx))) ++ drop (4 * i) output)).
  - by rewrite drop_0.
  - intros i out Hi. apply put_state_spec; (done || lia).
Qed.

Lemma pad_spec n : (n <= 64)%nat -> (0 < n)%nat ->
  take n sha256_padding = Init.Byte.x80 :: replicate (n - 1) Init.Byte.x00.
Proof. intros Hn H0. destruct n as [|n]; [lia|]. unfold sha256_padding. cbn [take]. rewrite take_replicate. do 2 f_equal. lia. Qed.

Definition iv (fl : Z) : list Z := if fl =? 0 then Fips.H0_256 else Fips.H0_224.

Lemma iv_ok fl : length (iv fl) = 8%nat /\ Forall word (iv fl).
Proof.
  unfold iv. rewrite <- (proj1 iv_fips), <- (proj2 iv_fips).
  destruct (fl =? 0); (split; [done|]); repeat constructor; unfold word; lia.
Qed.

Lemma padn_spec len : let last := len mod 64 in
  (if last <? 56 then 56 - last else 120 - last) = (55 - len) mod 64 + 1.
Proof. cbn zeta. pose proof (Z.mod_pos_bound len 64 ltac:(lia)). destruct (Z.ltb_spec (len mod 64) 56); dlia. Qed.

Lemma padded_whole msg : (length (Fips.padded msg) mod 64 = 0)%nat.
Proof.
  unfold Fips.padded. set (n := length msg).
  replace (length _) with (n + S (Z.to_nat ((55 - Z.of_nat n) mod 64) + 8))%nat
    by (rewrite length_app; cbn [length]; by rewrite length_app, length_replicate, be_length).
  apply Nat2Z.inj. rewrite Nat2Z.inj_mod. change (Z.of_nat 64) with 64. pose proof (Z.mod_pos_bound (55 - Z.of_nat n) 64 ltac:(lia)).
  dlia.
Qed.

(** A context whose bytes are whole blocks has compressed them all. *)
Lemma absorbed_whole H fl ctx msg : absorbed H fl ctx msg -> (length msg mod 64 = 0)%nat -> state ctx = hash H msg.
Proof.
  intros (_ & _ & head & tail & C & E) Hm. rewrite (co_state _ _ _ _ C).
  assert (tail = []) as ->; [|by rewrite E, app_nil_r].
  pose proof (co_head _ _ _ _ C) as Hh. pose proof (co_tail _ _ _ _ C) as Ht. apply length_zero_iff_nil.
  rewrite E, length_app, <- Nat.Div0.add_mod_idemp_l, Hh in Hm. rewrite Nat.mod_small in Hm; lia.
Qed.

Lemma digest_of fl ctx msg output : length output = 32%nat -> length (state ctx) = 8%nat -> is224 ctx = fl ->
  state ctx = foldl Fips.compress (iv fl) (Fips.blocks (Fips.padded msg)) ->
  (if is224 ctx =? 0 then put_state ctx 7 (for_up 0 7 (put_state ctx) output) else for_up 0 7 (put_state ctx) output) =
  Fips.digest (negb (fl =? 0)) msg ++ if fl =? 0 then [] else drop 28 output.
Proof.
  intros Lo Ls Hi E. rewrite Hi. unfold Fips.digest, iv in *. destruct (fl =? 0); cbn [negb]; rewrite <- E.
  - change (put_state ctx 7 _) with (put_state ctx (0 + 7) (for_up 0 7 (put_state ctx) output)).
    rewrite <- (for_up_last (put_state ctx) 7 0 output), put_states_spec by (done || lia).
    rewrite take_ge, drop_ge by lia. done.
  - by rewrite put_states_spec by (done || lia).
Qed.

(** [sha256_finish] writes the digest of what the context holds. *)
Lemma sha256_finish_spec fl ctx msg output : absorbed (iv fl) fl ctx msg -> length output = 32%nat ->
  snd (sha256_finish ctx output) =
  Fips.digest (negb (fl =? 0)) msg ++ if fl =? 0 then [] else drop 28 output.
Proof.
  intros A Lo. destruct (iv_ok fl) as [LI FI]. destruct A as (Hi & Hc & Hx). unfold sha256_finish.
  rewrite (msglen_spec _ _ _ Hc) by apply length_replicate. change 0x3F with (Z.ones 6). rewrite Z.land_ones by lia.
  rewrite (counter_mod _ _ 6 Hc) by lia. change (2 ^ 6) with 64. pose proof (padn_spec (Z.of_nat (length msg))) as Hp.
  cbn zeta in Hp. rewrite Hp. clear Hp. set (k := (55 - Z.of_nat (length msg)) mod 64).
  assert (Hk : 0 <= k < 64) by (apply Z.mod_pos_bound; lia). rewrite pad_spec by lia.
  replace (Z.to_nat (k + 1) - 1)%nat with (Z.to_nat k) by lia. set (pad := _ :: _).
  assert (A : absorbed (iv fl) fl ctx msg) by done. clear Hi Hc Hx.
  assert (Lp : length pad = S (Z.to_nat k)) by (unfold pad; cbn [length]; by rewrite length_replicate).
  apply (sha256_update_spec _ fl ctx msg pad LI FI) in A; [|rewrite Lp; lia].
  apply (sha256_update_spec _ fl _ _ (be 8 (8 * Z.of_nat (length msg))) LI FI) in A; [|rewrite be_length; lia].
  rewrite <- app_assoc in A. change (msg ++ pad ++ be 8 (8 * Z.of_nat (length msg))) with (Fips.padded msg) in A.
  pose proof (absorbed_whole _ _ _ _ A (padded_whole msg)) as Es. destruct (hash_ok (iv fl) (Fips.padded msg) LI FI) as [Ls _].
  cbn [snd]. apply digest_of; [done|by rewrite Es|apply A|done].
Qed.

Lemma sha256_starts_absorbed ctx fl : length (buffer ctx) = 64%nat -> absorbed (iv fl) fl (sha256_starts ctx fl) [].
Proof.
  intros L. split; [done|]. split; [done|]. exists [], []. split; [|done]. split; cbn [length state sha256_starts buffer]; try (done || lia).
Qed.

Lemma sha256_updates_absorbed fl chunks : Forall (fun c => Z.of_nat (length c) < 2 ^ 32) chunks -> forall ctx msg,
  absorbed (iv fl) fl ctx msg -> absorbed (iv fl) fl (foldl sha256_update ctx chunks) (msg ++ concat chunks).
Proof.
  destruct (iv_ok fl) as [LI FI]. induction 1 as [|c cs Hc F IH]; intros ctx msg A; cbn; [by rewrite app_nil_r|].
  rewrite app_assoc. apply IH. by apply sha256_update_spec.
Qed.

Lemma sha256_stream ctx fl chunks output : length (buffer ctx) = 64%nat -> length output = 32%nat ->
  Forall (fun c => Z.of_nat (length c) < 2 ^ 32) chunks ->
  snd (sha256_finish (foldl sha256_update (sha256_starts ctx fl) chunks) output) =
  Fips.digest (negb (fl =? 0)) (concat chunks) ++ if fl =? 0 then [] else drop 28 output.
Proof.
  intros L Lo F. apply sha256_finish_spec; [|done].
  by apply (sha256_updates_absorbed fl chunks F _ []), sha256_starts_absorbed.
Qed.

(** (C19) The hash is SHA-256 (SHA-224 when [is224] is not 0) of FIPS 180-4: whatever
    the split of the message into chunks of fewer than 2^32 bytes, [sha256_starts],
    [sha256_update] on each chunk and [sha256_finish] write the digest of the whole
    message, as [sha256] does at once; SHA-224 leaves the last four bytes of the
    output as they were, and [sha256] leaves a context of zeros. *)
Theorem sha256_fips ctx is224 chunks output : length (buffer ctx) = 64%nat -> length output = 32%nat ->
  Forall (fun c => Z.of_nat (length c) < 2 ^ 32) chunks ->
  let out := Fips.digest (negb (is224 =? 0)) (concat chunks) ++ if is224 =? 0 then [] else drop 28 output in
  snd (sha256_finish (foldl sha256_update (sha256_starts ctx is224) chunks) output) = out /\
  (Z.of_nat (length (concat chunks)) < 2 ^ 32 ->
   sha256 ctx (concat chunks) output is224 = (Some (sha256_init ctx), out)).
Proof.
  intros L Lo F. split; [by apply sha256_stream|]. intros Hc.
  pose proof (sha256_stream (sha256_init ctx) is224 [concat chunks] output ltac:(apply length_replicate) Lo ltac:(by constructor)) as E.
  cbn [foldl] in E. change (concat [concat chunks]) with (concat chunks ++ []) in E. rewrite app_nil_r in E.
  unfold sha256. destruct (sha256_finish _ output) as [c o]. cbn [snd] in E. by rewrite E.
Qed.

(** "abc" in one byte and two, with a stale buffer. *)
Lemma sha256_fips_witness : exists chunks, concat chunks = map byte_of_nat [97; 98; 99]%nat /\
  snd (sha256_finish (foldl sha256_update (sha256_starts (Ctx (7, 7) [] (replicate 64 Init.Byte.xff) 1) 0) chunks) (replicate 32 Init.Byte.x00)) =
  be 32 0xba7816bf8f01cfea414140de5dae2223b00361a396177a9cb410ff61f20015ad.
Proof.
  exists [[byte_of_nat 97]; map byte_of_nat [98; 99]%nat]. split; [reflexivity|].
  rewrite (proj1 (sha256_fips (Ctx (7, 7) [] (replicate 64 Init.Byte.xff) 1) 0 [[byte_of_nat 97]; map byte_of_nat [98; 99]%nat]
    (replicate 32 Init.Byte.x00) eq_refl eq_refl ltac:(repeat constructor))).
  vm_compute. reflexivity.
Defined.

End Sha256Spec.
