(* ===== verification/ObjId.v ===== *)
(** * Object identities (src/crt/obj_id.c)

    A 128-bit identity as the two 64-bit words of [struct nkfs_obj_id].
    [obj_id_bytes] is the union's byte view on a little-endian machine, the
    form in which identities are printed, hashed and stored.  Allocation and
    the random source are the interfaces of [Mem] and an argument. *)

From Stdlib Require Import ZArith Lia.
From coqutil Require Import Byte Word.LittleEndianList.
From stdpp Require Import base list gmap.
From S2P Require Import Prelude Mem CharHex.
Import Mem CharHex.
Local Open Scope Z_scope.

Module ObjId.

Record nkfs_obj_id := Id { high : Z; low : Z }.

#[export] Instance obj_id_eq_dec : EqDecision nkfs_obj_id.
Proof. solve_decision. Defined.

Definition U64_MAX : Z := 2 ^ 64 - 1.

Definition id_wf (i : nkfs_obj_id) : Prop := 0 <= high i < 2 ^ 64 /\ 0 <= low i < 2 ^ 64.

Definition obj_id_bytes (i : nkfs_obj_id) : list byte := le_split 8 (high i) ++ le_split 8 (low i).

Definition obj_id_of_bytes (bs : list byte) : nkfs_obj_id :=
  Id (le_combine (take 8 bs)) (le_combine (take 8 (drop 8 bs))).

Definition nkfs_obj_id_str (junk : byte) (id : nkfs_obj_id) (h : heap) :
    option (nat * list byte) * heap :=
  bytes_hex junk (Some (obj_id_bytes id)) 16 h.

(** [rnd] is what [crt_random_buf] does with a 16-byte buffer: the code it
    returns and what the buffer then holds. *)
Definition nkfs_obj_id_gen (rnd : Z * list byte) : Z * nkfs_obj_id :=
  (fst rnd, obj_id_of_bytes (snd rnd)).

Definition nkfs_obj_id_cmp (id1 id2 : nkfs_obj_id) : Z :=
  if high id1 >? high id2 then 1
  else if high id1 <? high id2 then -1
  else if low id1 >? low id2 then 1
  else if low id1 <? low id2 then -1
  else 0.

Definition nkfs_obj_id_minus (id1 id2 : nkfs_obj_id) : outcome nkfs_obj_id :=
  if high id1 >? high id2 then
    if low id1 >=? low id2 then
      Ret (Id (u64 (high id1 - high id2)) (u64 (low id1 - low id2)))
    else
      Ret (Id (u64 (u64 (high id1 - high id2) - 1))
              (u64 (u64 (u64 (U64_MAX - low id2) + low id1) + 1)))
  else if high id1 =? high id2 then
    bug_on (low id1 <? low id2) (Ret (Id 0 (u64 (low id1 - low id2))))
  else Bug.

Definition nkfs_obj_id_dist (id1 id2 : nkfs_obj_id) : outcome nkfs_obj_id :=
  if nkfs_obj_id_cmp id1 id2 >=? 0 then nkfs_obj_id_minus id1 id2 else nkfs_obj_id_minus id2 id1.

Definition nkfs_obj_id_copy (dst src : nkfs_obj_id) : nkfs_obj_id := src.

Definition nkfs_obj_id_zero (dst : nkfs_obj_id) : nkfs_obj_id := Id 0 0.

(** [None] for a null pointer, otherwise the allocation and the identity. *)
Definition nkfs_obj_id_create (rnd : Z * list byte) (h : heap) : option (nat * nkfs_obj_id) * heap :=
  match crt_malloc h with
  | (None, h) => (None, h)
  | (Some p, h) =>
      let '(err, id) := nkfs_obj_id_gen rnd in
      if negb (err =? 0) then (None, crt_free p h) else (Some (p, id), h)
  end.

(** The text [s] is given without its terminator. *)
Definition nkfs_obj_id_by_str (s : list byte) (h : heap) : option (nat * nkfs_obj_id) * heap :=
  match crt_malloc h with
  | (None, h) => (None, h)
  | (Some p, h) =>
      let '(err, bs) :=
        hex_bytes s (Z.of_nat (length s)) (obj_id_bytes (nkfs_obj_id_zero (Id 0 0))) 16 in
      if negb (err =? 0) then (None, crt_free p h) else (Some (p, obj_id_of_bytes bs), h)
  end.

(** ** Proofs *)

(** The number an identity stands for. *)
Definition id_val (i : nkfs_obj_id) : Z := high i * 2 ^ 64 + low i.

Lemma id_val_inj i j : id_wf i -> id_wf j -> id_val i = id_val j -> i = j.
Proof.
  destruct i as [h1 l1], j as [h2 l2]. unfold id_wf, id_val. cbn. intros H1 H2 E.
  assert (h1 = h2) by nia. subst. f_equal. lia.
Qed.

Lemma cmp_spec i j : id_wf i -> id_wf j ->
  nkfs_obj_id_cmp i j = Z.sgn (id_val i - id_val j).
Proof.
  unfold id_wf, id_val, nkfs_obj_id_cmp. intros [H1 H2] [H3 H4].
  rewrite !Z.gtb_ltb.
  destruct (Z.ltb_spec (high j) (high i)); [rewrite Z.sgn_pos; nia|].
  destruct (Z.ltb_spec (high i) (high j)); [rewrite Z.sgn_neg; nia|].
  destruct (Z.ltb_spec (low j) (low i)); [rewrite Z.sgn_pos; nia|].
  destruct (Z.ltb_spec (low i) (low j)); [rewrite Z.sgn_neg; nia|].
  rewrite Z.sgn_null; nia.
Qed.

Lemma minus_spec i j : id_wf i -> id_wf j -> id_val j <= id_val i ->
  exists d, nkfs_obj_id_minus i j = Ret d /\ id_wf d /\ id_val d = id_val i - id_val j.
Proof.
  unfold id_wf, id_val, nkfs_obj_id_minus. intros [H1 H2] [H3 H4] Hle.
  rewrite !Z.gtb_ltb, !Z.geb_leb.
  destruct (Z.ltb_spec (high j) (high i)).
  - destruct (Z.leb_spec (low j) (low i)).
    + eexists. split; [done|]. cbn. rewrite !wrap_small by lia. lia.
    + eexists. split; [done|]. cbn. unfold U64_MAX.
      rewrite (wrap_small 64 (high i - high j)), (wrap_small 64 (2 ^ 64 - 1 - low j)) by lia.
      rewrite (wrap_small 64 (high i - high j - 1)) by lia.
      rewrite (wrap_small 64 (2 ^ 64 - 1 - low j + low i)) by lia.
      rewrite (wrap_small 64 (2 ^ 64 - 1 - low j + low i + 1)) by lia. lia.
  - assert (high i = high j) as E by nia. rewrite E, Z.eqb_refl.
    destruct (Z.ltb_spec (low i) (low j)); [nia|]. cbn [bug_on].
    eexists. split; [done|]. cbn. rewrite wrap_small by lia. lia.
Qed.

Lemma cmp_zero i j : (nkfs_obj_id_cmp i j =? 0) = bool_decide (i = j).
Proof.
  destruct i as [h1 l1], j as [h2 l2]. unfold nkfs_obj_id_cmp. cbn. rewrite !Z.gtb_ltb.
  destruct (Z.ltb_spec h2 h1); [by rewrite bool_decide_eq_false_2 by (intros [= -> ->]; lia)|].
  destruct (Z.ltb_spec h1 h2); [by rewrite bool_decide_eq_false_2 by (intros [= -> ->]; lia)|].
  destruct (Z.ltb_spec l2 l1); [by rewrite bool_decide_eq_false_2 by (intros [= -> ->]; lia)|].
  destruct (Z.ltb_spec l1 l2); [by rewrite bool_decide_eq_false_2 by (intros [= -> ->]; lia)|].
  rewrite bool_decide_eq_true_2; [done|]. f_equal; lia.
Qed.

(** [nkfs_obj_id_cmp] is the numeric comparison of the 128-bit values:
    its sign is that of the difference, so it is 0 only on equal identities,
    antisymmetric and transitive. *)
Theorem nkfs_obj_id_cmp_total_order i j k :
  id_wf i -> id_wf j -> id_wf k ->
  nkfs_obj_id_cmp i j = Z.sgn (id_val i - id_val j) /\
  (nkfs_obj_id_cmp i j = 0 <-> i = j) /\
  nkfs_obj_id_cmp j i = - nkfs_obj_id_cmp i j /\
  (nkfs_obj_id_cmp i j < 0 -> nkfs_obj_id_cmp j k < 0 -> nkfs_obj_id_cmp i k < 0).
Proof.
  intros Hi Hj Hk. rewrite !cmp_spec by done. split; [done|]. split; [|split].
  - rewrite Z.sgn_null_iff. split; [|intros ->; lia]. intros E. apply id_val_inj; [done..|lia].
  - rewrite <- Z.sgn_opp. f_equal. lia.
  - lia.
Qed.

Lemma nkfs_obj_id_cmp_total_order_witness :
  nkfs_obj_id_cmp (Id 1 0) (Id 0 7) = Z.sgn (id_val (Id 1 0) - id_val (Id 0 7)).
Proof.
  apply (nkfs_obj_id_cmp_total_order (Id 1 0) (Id 0 7) (Id 2 2)); unfold id_wf; simpl; lia.
Defined.

(** [nkfs_obj_id_dist] never reaches its [BUG] branches and returns the
    absolute difference of the 128-bit values: a metric on identities
    (symmetric, zero only on equal ones, triangle inequality). *)
Theorem nkfs_obj_id_dist_metric i j k :
  id_wf i -> id_wf j -> id_wf k ->
  exists dij djk dik,
  nkfs_obj_id_dist i j = Ret dij /\ nkfs_obj_id_dist j k = Ret djk /\ nkfs_obj_id_dist i k = Ret dik /\
  id_wf dij /\ id_val dij = Z.abs (id_val i - id_val j) /\
  nkfs_obj_id_dist j i = Ret dij /\ (dij = Id 0 0 <-> i = j) /\
  id_val dik <= id_val dij + id_val djk.
Proof.
  assert (D : forall i j, id_wf i -> id_wf j -> exists d, nkfs_obj_id_dist i j = Ret d /\
    id_wf d /\ id_val d = Z.abs (id_val i - id_val j)).
  { intros a b Ha Hb. unfold nkfs_obj_id_dist. rewrite cmp_spec by done.
    destruct (Z.sgn (id_val a - id_val b) >=? 0) eqn:E; rewrite Z.geb_leb in E.
    - destruct (minus_spec a b) as (d & E1 & W & V); [done..|lia|]. exists d. repeat split; try apply W; [done|lia].
    - destruct (minus_spec b a) as (d & E1 & W & V); [done..|lia|]. exists d. repeat split; try apply W; [done|lia]. }
  intros Hi Hj Hk.
  destruct (D i j) as (dij & E1 & W1 & V1), (D j k) as (djk & E2 & W2 & V2),
    (D i k) as (dik & E3 & W3 & V3), (D j i) as (dji & E4 & W4 & V4); try done.
  exists dij, djk, dik. split; [done|]. split; [done|]. split; [done|]. split; [done|].
  split; [done|]. split; [|split; [split|lia]].
  - rewrite E4. f_equal. apply id_val_inj; [done..|lia].
  - intros ->. apply id_val_inj; [done..|]. change (id_val (Id 0 0)) with 0 in V1. lia.
  - intros ->. apply id_val_inj; [done|unfold id_wf; simpl; lia|].
    change (id_val (Id 0 0)) with 0. lia.
Qed.

Lemma nkfs_obj_id_dist_metric_witness :
  exists d, nkfs_obj_id_dist (Id 1 0) (Id 0 1) = Ret d /\ id_val d = 2 ^ 64 - 1.
Proof.
  destruct (nkfs_obj_id_dist_metric (Id 1 0) (Id 0 1) (Id 0 0)) as (d & _ & _ & E & _ & _ & _ & V & _);
    [unfold id_wf; simpl; lia..|]. exists d. split; [exact E|]. rewrite V. reflexivity.
Defined.

(** The byte view loses nothing. *)
Lemma obj_id_bytes_length i : length (obj_id_bytes i) = 16%nat.
Proof. unfold obj_id_bytes. rewrite length_app, !length_le_split. done. Qed.

Lemma obj_id_of_bytes_bytes i : id_wf i -> obj_id_of_bytes (obj_id_bytes i) = i.
Proof.
  intros [H1 H2]. unfold obj_id_of_bytes, obj_id_bytes. destruct i as [h l]. cbn [high low] in *.
  rewrite take_app_length', drop_app_length' by (by rewrite length_le_split).
  rewrite take_ge by (by rewrite length_le_split). rewrite !le_combine_split.
  change (Z.of_nat 8 * 8) with 64. by rewrite !Z.mod_small by lia.
Qed.

(** Printing an identity and parsing the text gives it back; the text is
    NUL-terminated, and a parse that fails frees what it allocated. *)
Theorem nkfs_obj_id_str_round_trip junk i h p h' q h'' :
  id_wf i -> crt_malloc h = (Some p, h') -> crt_malloc h' = (Some q, h'') ->
  exists text, nkfs_obj_id_str junk i h = (Some (p, text ++ [Init.Byte.x00]), h') /\
  nkfs_obj_id_by_str text h' = (Some (q, i), h'').
Proof.
  intros W M1 M2. exists (hex_text (obj_id_bytes i)). unfold nkfs_obj_id_str, nkfs_obj_id_by_str.
  split.
  - change 16 with (Z.of_nat 16). rewrite <- (obj_id_bytes_length i).
    apply bytes_hex_ok; rewrite ?obj_id_bytes_length; try done; lia.
  - rewrite M2, hex_text_length, obj_id_bytes_length.
    pose proof (hex_bytes_ok (obj_id_bytes i) (obj_id_bytes (Id 0 0))) as E.
    rewrite !obj_id_bytes_length in E. change (Z.of_nat 16) with 16 in E.
    unfold nkfs_obj_id_zero. rewrite E by (done || lia).
    cbn [Z.eqb negb]. by rewrite obj_id_of_bytes_bytes.
Qed.

Lemma nkfs_obj_id_str_round_trip_witness :
  exists text, nkfs_obj_id_str Init.Byte.x00 (Id 5 77) (Heap 0 ∅ (fun _ => false)) =
    (Some (0%nat, text ++ [Init.Byte.x00]), Heap 1 ({[0%nat]} ∪ ∅) (fun _ => false)) /\
  nkfs_obj_id_by_str text (Heap 1 ({[0%nat]} ∪ ∅) (fun _ => false)) =
    (Some (1%nat, Id 5 77), Heap 2 ({[1%nat]} ∪ ({[0%nat]} ∪ ∅)) (fun _ => false)).
Proof.
  apply (nkfs_obj_id_str_round_trip Init.Byte.x00 (Id 5 77)); [unfold id_wf; simpl; lia|done|done].
Defined.

End ObjId.
