(* ===== verification/Super.v ===== *)
(** * The image header (src/core/super.c, src/core/helpers.h)

    Block 0 of a device describes the image: its identity, its size, where the
    bitmap of used blocks lies and where the tree of inodes starts.  This file
    has the header in memory and on disk, its checks, and how it is made for an
    empty device. *)

From Stdlib Require Import ZArith Lia.
From coqutil Require Import Byte.
From stdpp Require Import base list gmap.
From S2P Require Import Prelude XXHash Bytes StMonad Csum DioPages Dio DioInv DioSpec DioClient CharHex ObjId.
Import XXHash Bytes StMonad Csum Dio DioInv DioSpec DioClient ObjId.
Local Open Scope Z_scope.
Local Open Scope nkfs_scope.
Local Open Scope stm_scope.

Module Super.

(** ** Division (src/core/helpers.h) *)

(** [do_div(n, base)]: the base is 32 bits wide; dividing by zero stops the
    machine. *)
Definition do_div (n base : Z) : outcome (Z * Z) :=
  if u32 base =? 0 then Bug else Ret (n / u32 base, n mod u32 base).

Definition nkfs_div (x y : Z) : outcome Z := let! r := do_div x y in Ret (fst r).
Definition nkfs_mod (x y : Z) : outcome Z := let! r := do_div x y in Ret (u32 (snd r)).
Definition nkfs_div_round_up (x y : Z) : outcome Z := let! r := do_div (u64 (x + y - 1)) y in Ret (fst r).

(** ** Data *)

Definition NKFS_IMAGE_MAGIC : Z := 0x3EFFBDAE.
Definition NKFS_IMAGE_SIG : Z := 0xBEDABEDA.
Definition NKFS_IMAGE_VER_1 : Z := 1.
Definition NKFS_IMAGE_BM_BLOCK : Z := 1.

(** The fields of [struct nkfs_sb] that describe the image. *)
Record nkfs_sb := Sb {
  id : nkfs_obj_id;
  nr_blocks : Z;
  magic : Z;
  version : Z;
  size : Z;
  bm_block : Z;
  bm_blocks : Z;
  inodes_tree_block : Z;
  used_blocks : Z;
  bsize : Z
}.

Definition sb_zero : nkfs_sb := Sb (Id 0 0) 0 0 0 0 0 0 0 0 0.

Section Endian.
Context (e : XXH_endianess).

(** [struct nkfs_image_header] is packed: 68 bytes up to [sum], 80 in all. *)
Definition header_fields (sb : nkfs_sb) : list (list byte) :=
  [be 4 (magic sb); be 4 (version sb); store e 8 (high (id sb)) ++ store e 8 (low (id sb)); be 8 (size sb);
   be 8 (bm_block sb); be 8 (bm_blocks sb); be 8 (inodes_tree_block sb); be 8 (used_blocks sb); be 4 (bsize sb)].

Definition nkfs_image_header_sum (ctx : csum_ctx) (header : list byte) : Z :=
  csum_digest e (csum_update e (csum_reset ctx) (take 68 header)).

Definition nkfs_sb_fill_header (ctx : csum_ctx) (sb : nkfs_sb) : list byte :=
  let header sum := concat (header_fields sb ++ [sum; be 4 NKFS_IMAGE_SIG]) in
  header (store e 8 (nkfs_image_header_sum ctx (header (replicate 8 Init.Byte.x00)))).

Definition nkfs_sb_parse_header (ctx : csum_ctx) (sb : nkfs_sb) (h : list byte) : Z * nkfs_sb :=
  if negb (of_be (field 76 4 h) =? NKFS_IMAGE_SIG) then (- EINVAL, sb)
  else if negb (bool_decide (field 68 8 h = store e 8 (nkfs_image_header_sum ctx h))) then (- EINVAL, sb)
  else
    (0, Sb (Id (load e (field 8 8 h)) (load e (field 16 8 h))) (nr_blocks sb) (of_be (field 0 4 h)) (of_be (field 4 4 h))
          (of_be (field 24 8 h)) (of_be (field 32 8 h)) (of_be (field 40 8 h)) (of_be (field 48 8 h)) (of_be (field 56 8 h))
          (of_be (field 64 4 h))).

(** ** Making and checking *)

Definition nkfs_sb_gen_header (rnd : Z * list byte) (sb : nkfs_sb) (sz bs : Z) : outcome (Z * nkfs_sb) :=
  let! r := nkfs_mod sz bs in
  if negb (r =? 0) || (sz <=? bs) then Ret (- EINVAL, sb)
  else
    let! n := nkfs_div sz bs in
    let! bytes := nkfs_div_round_up n 8 in
    let! bm := nkfs_div_round_up bytes bs in
    if sz <=? u64 (u64 (NKFS_IMAGE_BM_BLOCK + bm) * bs) then Ret (- EINVAL, sb)
    else
      let (err, i) := nkfs_obj_id_gen rnd in
      if negb (err =? 0) then Ret (err, Sb i (nr_blocks sb) (magic sb) (version sb) (size sb) (bm_block sb) (bm_blocks sb)
                                         (inodes_tree_block sb) (used_blocks sb) (bsize sb))
      else Ret (0, Sb i (nr_blocks sb) NKFS_IMAGE_MAGIC NKFS_IMAGE_VER_1 sz NKFS_IMAGE_BM_BLOCK bm
                     (inodes_tree_block sb) (used_blocks sb) bs).

Definition nkfs_sb_check (sb : nkfs_sb) : outcome Z :=
  if negb (magic sb =? NKFS_IMAGE_MAGIC) then Ret (- EINVAL)
  else if negb (version sb =? NKFS_IMAGE_VER_1) then Ret (- EINVAL)
  else if (size sb =? 0) || (bsize sb =? 0) || (size sb <=? bsize sb) then Ret (- EINVAL)
  else
    let! r := nkfs_mod (size sb) (bsize sb) in
    if negb (r =? 0) then Ret (- EINVAL)
    else if negb (bm_block sb =? NKFS_IMAGE_BM_BLOCK) then Ret (- EINVAL)
    else if size sb <=? u64 (bm_blocks sb + NKFS_IMAGE_BM_BLOCK) then Ret (- EINVAL)
    else Ret 0.

(** [fail]: no memory.  [dsize] and [bs] are the size and block size of the
    device; without a header the image is new. *)
Definition nkfs_sb_create (ctx : csum_ctx) (fail : bool) (rnd : Z * list byte) (dsize bs : Z) (header : option (list byte)) :
    outcome (Z + nkfs_sb) :=
  if fail then Ret (inl (- ENOMEM))
  else
    let! r := match header with
              | None => nkfs_sb_gen_header rnd sb_zero dsize bs
              | Some h => Ret (nkfs_sb_parse_header ctx sb_zero h)
              end in
    let (err, sb) := r : Z * nkfs_sb in
    if negb (err =? 0) then Ret (inl err)
    else
      let! err := nkfs_sb_check sb in
      if negb (err =? 0) then Ret (inl err)
      else
        let! n := nkfs_div (size sb) (bsize sb) in
        Ret (inr (Sb (id sb) n (magic sb) (version sb) (size sb) (bm_block sb) (bm_blocks sb) (inodes_tree_block sb)
                    (used_blocks sb) (bsize sb))).

(** The header goes to cluster 0. *)
Definition nkfs_sb_sync (ctx : csum_ctx) (sb : nkfs_sb) : Dio.M Z :=
  let* clu := dio_clu_get 0 in
  match clu with
  | None => ret (- EIO)
  | Some p =>
      let* err := dio_clu_write p (nkfs_sb_fill_header ctx sb) 0 in
      let* err := if negb (err =? 0) then ret err else clu_sync p in
      do* dio_clu_put p in
      ret err
  end.

(** ** The header on disk *)

Record sb_wf (sb : nkfs_sb) : Prop := {
  wf_id : id_wf (id sb);
  wf_words : 0 <= magic sb < 2 ^ 32 /\ 0 <= version sb < 2 ^ 32 /\ 0 <= bsize sb < 2 ^ 32;
  wf_size : 0 <= size sb < 2 ^ 64;
  wf_bm : 0 <= bm_block sb < 2 ^ 64 /\ 0 <= bm_blocks sb < 2 ^ 64;
  wf_tree : 0 <= inodes_tree_block sb < 2 ^ 64;
  wf_used : 0 <= used_blocks sb < 2 ^ 64
}.

Lemma header_fields_length sb : length (concat (header_fields sb)) = 68%nat.
Proof. cbn [header_fields concat]. rewrite !length_app, !be_length, !store_length. done. Qed.

Lemma image_header_sum_value ctx h : length (mem64 ctx) = 32%nat -> (68 <= length h)%nat ->
  nkfs_image_header_sum ctx h = csum_xxh64 (take 68 h).
Proof.
  intros Hm Hl. unfold nkfs_image_header_sum. pose proof (csum_feed_xxh64 e ctx [take 68 h] Hm) as E.
  cbn [fold_left concat] in E. rewrite app_nil_r in E. apply E. rewrite length_take. lia.
Qed.

(** What [nkfs_sb_fill_header] writes. *)
Lemma fill_header_value ctx sb : length (mem64 ctx) = 32%nat -> nkfs_sb_fill_header ctx sb =
  concat (header_fields sb ++ [store e 8 (csum_xxh64 (concat (header_fields sb))); be 4 NKFS_IMAGE_SIG]).
Proof.
  intros Hm. unfold nkfs_sb_fill_header. do 4 f_equal. rewrite image_header_sum_value; [|done|].
  - f_equal. rewrite concat_app. by rewrite take_app_length' by (symmetry; apply header_fields_length).
  - rewrite concat_app, length_app, header_fields_length. lia.
Qed.

Lemma fill_header_length ctx sb : length (nkfs_sb_fill_header ctx sb) = 80%nat.
Proof. unfold nkfs_sb_fill_header. rewrite concat_app, length_app, header_fields_length. cbn [concat]. by rewrite !length_app, store_length, be_length. Qed.

(** The fields at their offsets. *)
Lemma header_field_values sb sum : length sum = 8%nat ->
  let h := concat (header_fields sb ++ [sum; be 4 NKFS_IMAGE_SIG]) in
  field 0 4 h = be 4 (magic sb) /\ field 4 4 h = be 4 (version sb) /\ field 8 8 h = store e 8 (high (id sb)) /\
  field 16 8 h = store e 8 (low (id sb)) /\ field 24 8 h = be 8 (size sb) /\ field 32 8 h = be 8 (bm_block sb) /\
  field 40 8 h = be 8 (bm_blocks sb) /\ field 48 8 h = be 8 (inodes_tree_block sb) /\ field 56 8 h = be 8 (used_blocks sb) /\
  field 64 4 h = be 4 (bsize sb) /\ field 68 8 h = sum /\ field 76 4 h = be 4 NKFS_IMAGE_SIG.
Proof.
  intros Hs h.
  assert (Eh : h = concat [be 4 (magic sb); be 4 (version sb); store e 8 (high (id sb)); store e 8 (low (id sb)); be 8 (size sb);
   be 8 (bm_block sb); be 8 (bm_blocks sb); be 8 (inodes_tree_block sb); be 8 (used_blocks sb); be 4 (bsize sb); sum; be 4 NKFS_IMAGE_SIG]).
  { unfold h. cbn [header_fields concat app]. by rewrite <- !app_assoc. }
  rewrite Eh. clear Eh h.
  split; [struct_field 0%nat; done|].
  split; [struct_field 1%nat; done|].
  split; [struct_field 2%nat; done|].
  split; [struct_field 3%nat; done|].
  split; [struct_field 4%nat; done|].
  split; [struct_field 5%nat; done|].
  split; [struct_field 6%nat; done|].
  split; [struct_field 7%nat; done|].
  split; [struct_field 8%nat; done|].
  split; [struct_field 9%nat; done|].
  split; [struct_field 10%nat; done|].
  struct_field 11%nat; rewrite ?Hs; done.
Qed.

Lemma parse_fill_header ctx ctx' sb sb0 :
  length (mem64 ctx) = 32%nat -> length (mem64 ctx') = 32%nat -> sb_wf sb ->
  nkfs_sb_parse_header ctx' sb0 (nkfs_sb_fill_header ctx sb) =
    (0, Sb (id sb) (nr_blocks sb0) (magic sb) (version sb) (size sb) (bm_block sb) (bm_blocks sb) (inodes_tree_block sb)
          (used_blocks sb) (bsize sb)) /\
  length (nkfs_sb_fill_header ctx sb) = 80%nat.
Proof.
  intros Hm Hm' [[I1 I2] (W1 & W2 & W3) Ws [B1 B2] Wt Wu]. split; [|apply fill_header_length].
  assert (Hl : (68 <= length (nkfs_sb_fill_header ctx sb))%nat) by (rewrite fill_header_length; lia).
  unfold nkfs_sb_parse_header. rewrite image_header_sum_value by done. rewrite fill_header_value by done.
  set (sum := store e 8 _). assert (Hs : length sum = 8%nat) by apply store_length.
  destruct (header_field_values sb sum Hs) as (-> & -> & -> & -> & -> & -> & -> & -> & -> & -> & -> & ->).
  rewrite concat_app, take_app_length' by (symmetry; apply header_fields_length).
  rewrite !of_be_be, !load_store by (assumption || done). rewrite bool_decide_eq_true_2 by reflexivity. rewrite Z.eqb_refl. cbn [negb]. by destruct (id sb).
Qed.

(** A header that was written is read back as it was, on a CPU of the same
    byte order, whatever the contexts of the checksum held before. *)
Theorem nkfs_sb_header_round_trip ctx ctx' sb sb0 :
  length (mem64 ctx) = 32%nat -> length (mem64 ctx') = 32%nat -> sb_wf sb ->
  nkfs_sb_parse_header ctx' sb0 (nkfs_sb_fill_header ctx sb) =
    (0, Sb (id sb) (nr_blocks sb0) (magic sb) (version sb) (size sb) (bm_block sb) (bm_blocks sb) (inodes_tree_block sb)
          (used_blocks sb) (bsize sb)) /\
  length (nkfs_sb_fill_header ctx sb) = 80%nat.
Proof. apply parse_fill_header. Qed.

(** ** The layout of a new image *)

Lemma nkfs_div_ok x y : 0 < y < 2 ^ 32 -> nkfs_div x y = Ret (x / y).
Proof. intros H. unfold nkfs_div, do_div. rewrite wrap_small by lia. by rewrite (proj2 (Z.eqb_neq y 0)) by lia. Qed.

Lemma nkfs_mod_ok x y : 0 < y < 2 ^ 32 -> nkfs_mod x y = Ret (x mod y).
Proof.
  intros H. unfold nkfs_mod, do_div. rewrite (wrap_small 32 y) by lia. rewrite (proj2 (Z.eqb_neq y 0)) by lia. cbn [obind snd].
  rewrite wrap_small; [done|]. pose proof (Z.mod_pos_bound x y). lia.
Qed.

Lemma div_round_up_ok x y : 0 < y < 2 ^ 32 -> 0 <= x -> x + y - 1 < 2 ^ 64 ->
  exists q, nkfs_div_round_up x y = Ret q /\ y * (q - 1) < x <= y * q /\ (0 < x -> 0 < q).
Proof.
  intros H Hx Hs. unfold nkfs_div_round_up, do_div. rewrite !wrap_small by lia. rewrite (proj2 (Z.eqb_neq y 0)) by lia.
  exists ((x + y - 1) / y). split; [done|]. pose proof (Z.div_mod (x + y - 1) y ltac:(lia)). pose proof (Z.mod_pos_bound (x + y - 1) y). nia.
Qed.

Lemma gen_header_cases rnd sb sz bs :
  0 < bs < 2 ^ 32 -> 0 <= sz < 2 ^ 63 -> fst rnd = 0 ->
  (exists bm, let sb' := Sb (snd (nkfs_obj_id_gen rnd)) (nr_blocks sb) NKFS_IMAGE_MAGIC NKFS_IMAGE_VER_1 sz 1 bm (inodes_tree_block sb)
                           (used_blocks sb) bs in
     nkfs_sb_gen_header rnd sb sz bs = Ret (0, sb') /\ nkfs_sb_check sb' = Ret 0 /\ sz mod bs = 0 /\
     8 * bs * (bm - 1) < sz / bs <= 8 * bs * bm /\ 1 + bm < sz / bs) \/
  (nkfs_sb_gen_header rnd sb sz bs = Ret (- EINVAL, sb) /\
     (sz mod bs <> 0 \/ forall bm, sz / bs <= 8 * bs * bm -> sz / bs <= 1 + bm)).
Proof.
  intros Hb Hs Hr. unfold nkfs_sb_gen_header. rewrite nkfs_mod_ok by done. cbn [obind].
  destruct (Z.eqb_spec (sz mod bs) 0) as [Hm|Hm]; cbn [negb orb]; [|right; split; [done|by left]].
  assert (Esz : sz = bs * (sz / bs)) by (pose proof (Z.div_mod sz bs ltac:(lia)); lia).
  destruct (Z.leb_spec sz bs) as [Hle|Hle].
  { right. split; [done|]. right. intros bm Hbm. assert (sz / bs <= 1) by nia.
    assert (0 <= sz / bs) by (apply Z.div_pos; lia). destruct (Z.eq_dec (sz / bs) 0) as [->|]; [nia|]. nia. }
  rewrite nkfs_div_ok by done. cbn [obind]. set (n := sz / bs) in *. assert (Hn : 1 < n) by nia. assert (Hns : n <= sz) by nia.
  destruct (div_round_up_ok n 8 ltac:(lia) ltac:(lia) ltac:(lia)) as (by8 & E8 & H8 & P8). rewrite E8. cbn [obind].
  destruct (div_round_up_ok by8 bs Hb ltac:(lia) ltac:(lia)) as (bm & Ebm & Hbm & Pbm). rewrite Ebm. cbn [obind].
  specialize (P8 ltac:(lia)). specialize (Pbm P8). unfold NKFS_IMAGE_BM_BLOCK.
  assert (Hfit : bs * bm < by8 + bs) by lia. assert (Hbm1 : bm <= by8) by nia.
  rewrite (wrap_small 64 (1 + bm)) by lia. rewrite (wrap_small 64 ((1 + bm) * bs)) by nia.
  destruct (Z.leb_spec sz ((1 + bm) * bs)) as [Hrm|Hrm].
  { right. split; [done|]. right. intros b Hb2. assert (n <= 1 + bm) by nia. destruct (Z.lt_ge_cases b bm); [|lia].
    assert (bs * b <= bs * (bm - 1)) by nia. nia. }
  left. destruct rnd as [r bytes]. cbn [fst] in Hr. subst r. cbn [nkfs_obj_id_gen fst snd Z.eqb negb]. exists bm. split; [done|].
  assert (Hlay : 1 + bm < n) by nia. split; [|split; [done|]; split; [nia|lia]].
  unfold nkfs_sb_check. cbn [bsize size bm_block bm_blocks magic version]. rewrite !Z.eqb_refl. cbn [negb].
  rewrite (proj2 (Z.eqb_neq sz 0)), (proj2 (Z.eqb_neq bs 0)), (proj2 (Z.leb_gt sz bs)) by lia. cbn [orb].
  rewrite nkfs_mod_ok, Hm by done. cbn [obind Z.eqb negb]. unfold NKFS_IMAGE_BM_BLOCK. rewrite wrap_small by lia.
  by rewrite (proj2 (Z.leb_gt sz (bm + 1))) by lia.
Qed.

(** (C37) [nkfs_sb_gen_header] makes an image exactly for a device of whole blocks
    with room for more than header and bitmap, and then the bitmap has the fewest
    blocks that hold a bit for every block, lies inside the image and leaves at
    least one block; the header passes [nkfs_sb_check]. *)
Theorem nkfs_sb_gen_header_layout rnd sb sz bs :
  0 < bs < 2 ^ 32 -> 0 <= sz < 2 ^ 63 -> fst rnd = 0 ->
  (exists sb', nkfs_sb_gen_header rnd sb sz bs = Ret (0, sb') /\ nkfs_sb_check sb' = Ret 0 /\
     bsize sb' = bs /\ size sb' = sz /\ sz mod bs = 0 /\ bm_block sb' = 1 /\
     8 * bs * (bm_blocks sb' - 1) < sz / bs <= 8 * bs * bm_blocks sb' /\ bm_block sb' + bm_blocks sb' < sz / bs) \/
  (nkfs_sb_gen_header rnd sb sz bs = Ret (- EINVAL, sb) /\
     (sz mod bs <> 0 \/ forall bm, sz / bs <= 8 * bs * bm -> sz / bs <= 1 + bm)).
Proof.
  intros Hb Hs Hr. destruct (gen_header_cases rnd sb sz bs Hb Hs Hr) as [(bm & E & Ec & Hm & Hbm & Hl)|?]; [left|by right].
  eexists. split; [exact E|]. by repeat (split; [done|]).
Qed.

(** [nkfs_sb_check] compares the size of the image in bytes with the end of
    the bitmap in blocks, so it accepts a bitmap that lies outside the image. *)
Theorem nkfs_sb_check_accepts_long_bitmap sb bm :
  nkfs_sb_check sb = Ret 0 -> 0 <= bm -> bm + 1 < size sb -> size sb < 2 ^ 64 ->
  nkfs_sb_check (Sb (id sb) (nr_blocks sb) (magic sb) (version sb) (size sb) (bm_block sb) bm (inodes_tree_block sb)
                   (used_blocks sb) (bsize sb)) = Ret 0.
Proof.
  intros Hc H1 H2 H3. revert Hc. unfold nkfs_sb_check, EINVAL, NKFS_IMAGE_BM_BLOCK. cbn [bsize size bm_block bm_blocks magic version].
  do 3 (case_match; [done|]). destruct (nkfs_mod (size sb) (bsize sb)) as [r|]; [|done]. cbn [obind]. do 2 (case_match; [done|]).
  intros _. rewrite wrap_small by lia. by rewrite (proj2 (Z.leb_gt _ _)) by lia.
Qed.

(** [nkfs_sb_sync] puts the header at the start of the device. *)
Lemma spec_sb_sync X ctx sb s hs a (Q : Z -> dio_dev -> Prop) : cache X s hs a ->
  (forall s', cache X s' hs (put_bytes a 0 0 (nkfs_sb_fill_header ctx sb)) -> env_same s s' -> Q 0 s') ->
  StMonad.spec (nkfs_sb_sync ctx sb) s Q.
Proof.
  intros C HQ. destruct (ok_size _ _ _ _ (ca_ok _ _ _ _ C)) as [_ Hs]. unfold nkfs_sb_sync. apply spec_bind.
  eapply cache_get; [exact C|unfold idx_ok; lia|]. intros p s1 C1 E1. apply spec_bind.
  eapply cache_write; [exact C1|by left|done|rewrite fill_header_length, (env_size _ _ E1); lia|]. intros s2 C2 E2. cbn [Z.eqb negb].
  apply spec_bind. eapply cache_sync; [exact C2|by left|]. intros s3 C3 E3. apply spec_bind. eapply cache_put; [exact C3|].
  intros s4 C4 E4. apply spec_ret. apply HQ; [done|]. eapply env_trans; [exact E1|]. eapply env_trans; [exact E2|]. by eapply env_trans.
Qed.

End Endian.

Definition demo_ctx : csum_ctx := State64 0 0 (XXH64_accs_init 0) (replicate 32 Init.Byte.x00) 0.
Definition demo_sb : nkfs_sb := Sb (Id 5 7) 160 NKFS_IMAGE_MAGIC NKFS_IMAGE_VER_1 10485760 1 1 2 3 65536.

Lemma demo_sb_wf : sb_wf demo_sb.
Proof. split; cbn; done. Qed.

Lemma nkfs_sb_header_round_trip_witness :
  nkfs_sb_parse_header XXH_bigEndian demo_ctx sb_zero (nkfs_sb_fill_header XXH_bigEndian demo_ctx demo_sb) =
    (0, Sb (Id 5 7) 0 NKFS_IMAGE_MAGIC NKFS_IMAGE_VER_1 10485760 1 1 2 3 65536).
Proof. apply (nkfs_sb_header_round_trip XXH_bigEndian demo_ctx demo_ctx demo_sb sb_zero); [done|done|apply demo_sb_wf]. Defined.

Lemma nkfs_sb_gen_header_layout_witness :
  exists sb, nkfs_sb_gen_header (0, replicate 16 Init.Byte.x01) sb_zero 10485760 65536 = Ret (0, sb) /\ bm_blocks sb < 159.
Proof.
  destruct (nkfs_sb_gen_header_layout (0, replicate 16 Init.Byte.x01) sb_zero 10485760 65536) as [(sb & E & _ & _ & _ & _ & Hb & _ & H)|(_ & [H|H])];
    [lia|lia|done| | |].
  - exists sb. split; [exact E|]. rewrite Hb in H. change (10485760 / 65536) with 160 in H. lia.
  - by destruct H.
  - specialize (H 1). change (10485760 / 65536) with 160 in H. lia.
Defined.

Lemma nkfs_sb_check_accepts_long_bitmap_witness :
  nkfs_sb_check (Sb (Id 5 7) 160 NKFS_IMAGE_MAGIC NKFS_IMAGE_VER_1 10485760 1 1000 2 3 65536) = Ret 0.
Proof. apply (nkfs_sb_check_accepts_long_bitmap demo_sb 1000); [reflexivity|lia|cbn; lia|cbn; lia]. Defined.

End Super.
