(* ===== verification/BtreeNode.v ===== *)
(** * B-tree nodes (the node operations of src/core/btree.c)

    A node holds arrays of 16-byte keys, 64-bit values and 64-bit child block
    numbers.  The key and value pages are flat lists of slots here; the child
    pages stay an array of page pointers, because some operations of the code
    move the pointers themselves ([__nkfs_btree_node_delete_child_index]).  An
    access the code guards with [NKFS_BUG_ON], a null page and an index outside
    the pointer array give [Bug].

    The sizes of include/nkfs_image.h are a record, [nkfs_geom]: the functions
    are the same for any sizes, and small ones make small examples. *)

From Stdlib Require Import ZArith Lia.
From coqutil Require Import Byte.
From stdpp Require Import base list gmap.
From S2P Require Import Prelude.
Local Open Scope Z_scope.
Local Open Scope nkfs_scope.

Module BtreeNode.

Record geom := Geom {
  g_t : nat;             (* NKFS_BTREE_T *)
  g_keys : nat;          (* key slots: NKFS_BTREE_KEY_PAGES pages of 256 *)
  g_values : nat;        (* value slots: NKFS_BTREE_VALUE_PAGES pages of 512 *)
  g_child_pages : nat;   (* NKFS_BTREE_CHILD_PAGES *)
  g_page_children : nat  (* children in a page: 512 *)
}.

Definition nkfs_geom : geom := Geom 896 (7 * 256) (4 * 512) 4 512.

Abbreviation key := (list byte) (only parsing).

Record node := Node {
  sig1 : Z;
  sig2 : Z;
  block : Z;
  leaf : bool;
  nr_keys : nat;
  keys : list key;
  values : list Z;
  children : list (option (list Z))
}.

Definition NKFS_BTREE_SIG1 : Z := 0xCBACBADA.
Definition NKFS_BTREE_SIG2 : Z := 0x3EFFEEFE.

Definition zero_key : key := replicate 16 Init.Byte.x00.

Definition set_block (b : Z) (n : node) : node :=
  Node (sig1 n) (sig2 n) b (leaf n) (nr_keys n) (keys n) (values n) (children n).
Definition set_leaf (l : bool) (n : node) : node :=
  Node (sig1 n) (sig2 n) (block n) l (nr_keys n) (keys n) (values n) (children n).
Definition set_nr_keys (k : nat) (n : node) : node :=
  Node (sig1 n) (sig2 n) (block n) (leaf n) k (keys n) (values n) (children n).
Definition set_keys (ks : list key) (n : node) : node :=
  Node (sig1 n) (sig2 n) (block n) (leaf n) (nr_keys n) ks (values n) (children n).
Definition set_values (vs : list Z) (n : node) : node :=
  Node (sig1 n) (sig2 n) (block n) (leaf n) (nr_keys n) (keys n) vs (children n).
Definition set_children (cs : list (option (list Z))) (n : node) : node :=
  Node (sig1 n) (sig2 n) (block n) (leaf n) (nr_keys n) (keys n) (values n) cs.

(** ** memcmp *)

Fixpoint memcmp (a b : list byte) : Z :=
  match a, b with
  | x :: a', y :: b' =>
      if Byte.eqb x y then memcmp a' b' else byte.unsigned x - byte.unsigned y
  | _, _ => 0
  end.

Definition nkfs_btree_cmp_key (key1 key2 : key) : Z := memcmp key1 key2.

Section Ops.
Context (G : geom).

(** ** Slots *)

Definition nkfs_btree_node_key (n : node) (index : nat) : outcome key :=
  bug_on (g_keys G <=? index)%nat (Ret (keys n !!! index)).

Definition set_key (n : node) (index : nat) (k : key) : outcome node :=
  bug_on (g_keys G <=? index)%nat (Ret (set_keys (<[index := k]> (keys n)) n)).

Definition nkfs_btree_node_value (n : node) (index : nat) : outcome Z :=
  bug_on (g_values G <=? index)%nat (Ret (values n !!! index)).

Definition set_value (n : node) (index : nat) (v : Z) : outcome node :=
  bug_on (g_values G <=? index)%nat (Ret (set_values (<[index := v]> (values n)) n)).

(** [children[pg_idx]] is null when the entry is [None]. *)
Definition nkfs_btree_node_child (n : node) (index : nat) : outcome Z :=
  let pg_idx := (index / g_page_children G)%nat in
  let pg_off := (index mod g_page_children G)%nat in
  bug_on (g_child_pages G <=? pg_idx)%nat
    match children n !!! pg_idx with
    | None => Bug
    | Some pg => Ret (pg !!! pg_off)
    end.

Definition set_child (n : node) (index : nat) (v : Z) : outcome node :=
  let pg_idx := (index / g_page_children G)%nat in
  let pg_off := (index mod g_page_children G)%nat in
  bug_on (g_child_pages G <=? pg_idx)%nat
    match children n !!! pg_idx with
    | None => Bug
    | Some pg => Ret (set_children (<[pg_idx := Some (<[pg_off := v]> pg)]> (children n)) n)
    end.

(** [nkfs_btree_node_alloc(1)]: all pages zeroed. *)
Definition nkfs_btree_node_alloc_node : node :=
  Node NKFS_BTREE_SIG1 NKFS_BTREE_SIG2 0 false 0
    (replicate (g_keys G) zero_key) (replicate (g_values G) 0)
    (replicate (g_child_pages G) (Some (replicate (g_page_children G) 0))).

Definition nkfs_btree_node_is_full (n : node) : bool := (2 * g_t G - 1 =? nr_keys n)%nat.

Definition nkfs_btree_node_copy_key_value (dst : node) (dst_index : nat) (k : key) (v : Z) :
    outcome node :=
  let! dst := set_key dst dst_index k in set_value dst dst_index v.

Definition nkfs_btree_node_copy_kv (dst : node) (dst_index : nat) (src : node) (src_index : nat) :
    outcome node :=
  let! k := nkfs_btree_node_key src src_index in
  let! dst := set_key dst dst_index k in
  let! v := nkfs_btree_node_value src src_index in
  set_value dst dst_index v.

Definition nkfs_btree_node_copy_child (dst : node) (dst_index : nat) (src : node)
    (src_index : nat) : outcome node :=
  let! c := nkfs_btree_node_child src src_index in set_child dst dst_index c.

(** The same within one node, whose two slots are then one object. *)
Definition copy_kv_within (n : node) (dst_index src_index : nat) : outcome node :=
  nkfs_btree_node_copy_kv n dst_index n src_index.

Definition copy_child_within (n : node) (dst_index src_index : nat) : outcome node :=
  nkfs_btree_node_copy_child n dst_index n src_index.

(** [for (i = last; i >= dst_index; i--) dst[i + 1] = dst[i]], [count] steps. *)
Definition shift_children_right (dst : node) (dst_index count : nat) : outcome node :=
  ofor_down count (fun x dst => copy_child_within dst (dst_index + x + 1) (dst_index + x)) dst.

Definition shift_kv_right (dst : node) (dst_index count : nat) : outcome node :=
  ofor_down count (fun x dst => copy_kv_within dst (dst_index + x + 1) (dst_index + x)) dst.

Definition nkfs_btree_node_put_child_val (dst : node) (dst_index : nat) (val : Z) : outcome node :=
  let! dst := shift_children_right dst dst_index (nr_keys dst + 1 - dst_index) in
  set_child dst dst_index val.

Definition nkfs_btree_node_put_child (dst : node) (dst_index : nat) (src : node) (src_index : nat) :
    outcome node :=
  let! dst := shift_children_right dst dst_index (nr_keys dst + 1 - dst_index) in
  nkfs_btree_node_copy_child dst dst_index src src_index.

Definition nkfs_btree_node_put_key_value (dst : node) (dst_index : nat) (k : key) (v : Z) :
    outcome node :=
  let! dst := shift_kv_right dst dst_index (nr_keys dst - dst_index) in
  nkfs_btree_node_copy_key_value dst dst_index k v.

Definition nkfs_btree_node_put_kv (dst : node) (dst_index : nat) (src : node) (src_index : nat) :
    outcome node :=
  let! dst := shift_kv_right dst dst_index (nr_keys dst - dst_index) in
  nkfs_btree_node_copy_kv dst dst_index src src_index.

Definition nkfs_btree_node_zero_kv (dst : node) (dst_index : nat) : outcome node :=
  let! dst := set_key dst dst_index zero_key in set_value dst dst_index 0.

(** ** Splitting: the results are [node], [child] and [new]. *)

Definition nkfs_btree_node_split_child (n child : node) (child_index : nat) (new : node) :
    outcome (node * node * node) :=
  bug_on (nr_keys n <? child_index)%nat (
  bug_on (negb (nkfs_btree_node_is_full child)) (
    let new := set_leaf (leaf child) new in
    let! new := ofor_up 0 (g_t G - 1) (fun i new =>
      nkfs_btree_node_copy_kv new i child (i + g_t G)) new in
    let new := set_nr_keys (g_t G - 1) new in
    let! new :=
      if negb (leaf child) then
        ofor_up 0 (g_t G) (fun i new => nkfs_btree_node_copy_child new i child (i + g_t G)) new
      else Ret new in
    let child := set_nr_keys (g_t G - 1) child in
    let! n := nkfs_btree_node_put_child_val n (child_index + 1) (block new) in
    let! n := nkfs_btree_node_put_kv n child_index child (g_t G - 1) in
    Ret (set_nr_keys (nr_keys n + 1) n, child, new))).

(** ** Searching *)

Definition nkfs_btree_node_key_probably_inside (n : node) (k : key) : outcome bool :=
  if (nr_keys n =? 0)%nat then Ret false
  else
    let! last := nkfs_btree_node_key n (nr_keys n - 1) in
    if nkfs_btree_cmp_key k last >? 0 then Ret false
    else
      let! first := nkfs_btree_node_key n 0 in
      Ret (negb (nkfs_btree_cmp_key k first <? 0)).

(** The loop [while (start < end)] shared by the two searches: the index of the
    key, or the final [end].  It halves [end - start], so [fuel] of at least
    their difference is never used up. *)
Fixpoint search_loop (fuel : nat) (n : node) (k : key) (start end_ : nat) : outcome (nat + nat) :=
  match fuel with
  | O => Ret (inr end_)
  | S fuel' =>
      if (start <? end_)%nat then
        let mid := ((start + end_) / 2)%nat in
        let! km := nkfs_btree_node_key n mid in
        let cmp := nkfs_btree_cmp_key k km in
        if cmp =? 0 then Ret (inl mid)
        else if cmp <? 0 then search_loop fuel' n k start mid
        else search_loop fuel' n k (mid + 1) end_
      else Ret (inr end_)
  end.

(** [None] is -1. *)
Definition nkfs_btree_node_has_key (n : node) (k : key) : outcome (option nat) :=
  let! inside := nkfs_btree_node_key_probably_inside n k in
  if negb inside then Ret None
  else
    let! r := search_loop (nr_keys n) n k 0 (nr_keys n) in
    Ret (match r with inl i => Some i | inr _ => None end).

Definition nkfs_btree_node_find_key_index (n : node) (k : key) : outcome nat :=
  if (nr_keys n =? 0)%nat then Ret 0%nat
  else
    let! last := nkfs_btree_node_key n (nr_keys n - 1) in
    if nkfs_btree_cmp_key k last >? 0 then Ret (nr_keys n)
    else
      let! first := nkfs_btree_node_key n 0 in
      if nkfs_btree_cmp_key k first <? 0 then Ret 0%nat
      else
        let! r := search_loop (nr_keys n) n k 0 (nr_keys n) in
        Ret (match r with inl i => i | inr e => e end).

(** ** Deleting slots, merging, copying *)

(** The page pointers, not the child slots, are moved: [children[i-1] =
    children[i]] up to [nr_keys], outside the array when that is large. *)
Definition nkfs_btree_node_delete_child_index (n : node) (index : nat) : outcome node :=
  let! cs := ofor_up (index + 1) (nr_keys n + 1 - (index + 1)) (fun i cs =>
    bug_on (g_child_pages G <=? i)%nat (Ret (<[(i - 1)%nat := cs !!! i]> cs))) (children n) in
  let last := Nat.max index (nr_keys n) in
  bug_on (g_child_pages G <=? last)%nat (Ret (set_children (<[last := None]> cs) n)).

Definition nkfs_btree_node_delete_key_index (n : node) (index : nat) : outcome node :=
  bug_on (nr_keys n <? 1)%nat (
    let! n := ofor_up (index + 1) (nr_keys n - (index + 1)) (fun i n =>
      copy_kv_within n (i - 1) i) n in
    nkfs_btree_node_zero_kv n (Nat.max index (nr_keys n - 1))).

Definition nkfs_btree_node_leaf_delete_key (n : node) (k : key) : outcome node :=
  bug_on (negb (leaf n)) (
    let! index := nkfs_btree_node_has_key n k in
    match index with
    | None => Bug
    | Some i =>
        bug_on (nr_keys n <=? i)%nat (
          let! n := nkfs_btree_node_delete_key_index n i in
          Ret (set_nr_keys (nr_keys n - 1) n))
    end).

Definition nkfs_btree_node_merge (dst src : node) (k : key) (v : Z) : outcome node :=
  let! d := set_key dst (nr_keys dst) k in
  let! d := set_value d (nr_keys dst) v in
  let pos := (nr_keys dst + 1)%nat in
  let! d := ofor_up 0 (nr_keys src) (fun i d =>
    let! d := nkfs_btree_node_copy_kv d (pos + i) src i in
    nkfs_btree_node_copy_child d (pos + i) src i) d in
  let! d := nkfs_btree_node_copy_child d (pos + nr_keys src) src (nr_keys src) in
  Ret (set_nr_keys (nr_keys dst + 1 + nr_keys src) d).

Definition nkfs_btree_node_copy (dst src : node) : outcome node :=
  let! d := ofor_up 0 (nr_keys src) (fun i d =>
    let! d := nkfs_btree_node_copy_kv d i src i in
    nkfs_btree_node_copy_child d i src i) dst in
  let! d := nkfs_btree_node_copy_child d (nr_keys src) src (nr_keys src) in
  Ret (set_leaf (leaf src) (set_nr_keys (nr_keys src) d)).

End Ops.

End BtreeNode.
