(* ===== verification/BtreeNodeSpec.v ===== *)
(** * The node operations as list operations

    For a well-formed node the arrays are lists ([keys], [values], [cflat]) and
    every slot operation of [BtreeNode] is an update of these lists.  The live
    part of a node is [entries n] (its keys with their values) and [kids n].
    Keys are compared through the number they spell, [key_val]. *)

From Stdlib Require Import ZArith Lia.
From coqutil Require Import Byte.
From stdpp Require Import base list gmap.
From S2P Require Import Prelude BtreeNode.
Import BtreeNode.
Local Open Scope Z_scope.
Local Open Scope nkfs_scope.

Module BtreeNodeSpec.

(** ** Keys as numbers *)

Fixpoint key_val (k : list byte) : Z :=
  match k with
  | [] => 0
  | b :: k' => byte.unsigned b * 256 ^ Z.of_nat (length k') + key_val k'
  end.

Lemma key_val_bound k : 0 <= key_val k < 256 ^ Z.of_nat (length k).
Proof.
  induction k as [|b k IH]; cbn [key_val length]; [lia|].
  pose proof (byte.unsigned_range b). rewrite Nat2Z.inj_succ, Z.pow_succ_r by lia. nia.
Qed.

(** [memcmp] on keys of one length compares the numbers. *)
Lemma memcmp_sgn a : forall b, length a = length b ->
  Z.sgn (memcmp a b) = Z.sgn (key_val a - key_val b).
Proof.
  induction a as [|x a IH]; intros [|y b] L; cbn [memcmp key_val length] in *; try lia.
  injection L as L. pose proof (key_val_bound a). pose proof (key_val_bound b). rewrite L in *.
  destruct (Byte.eqb x y) eqn:E.
  - apply byte_eqb_spec in E as ->. rewrite IH by done. f_equal. lia.
  - apply byte_eqb_neq in E. assert (byte.unsigned x <> byte.unsigned y).
    { intros H'. by apply E, byte.unsigned_inj. }
    destruct (Z.lt_ge_cases (byte.unsigned x) (byte.unsigned y));
      [rewrite !Z.sgn_neg|rewrite !Z.sgn_pos]; nia.
Qed.

Lemma key_val_inj a b : length a = length b -> key_val a = key_val b -> a = b.
Proof.
  revert b. induction a as [|x a IH]; intros [|y b] L E; cbn [key_val length] in *; try lia; [done|].
  injection L as L. pose proof (key_val_bound a). pose proof (key_val_bound b). rewrite L in *.
  pose proof (byte.unsigned_range x). pose proof (byte.unsigned_range y).
  assert (byte.unsigned x = byte.unsigned y) by nia. f_equal; [by apply byte.unsigned_inj|].
  apply IH; [done|]. nia.
Qed.

Definition key_ok (k : list byte) : Prop := length k = 16%nat.

Lemma cmp_key_lt a b : key_ok a -> key_ok b -> nkfs_btree_cmp_key a b < 0 <-> key_val a < key_val b.
Proof. intros Ha Hb. pose proof (memcmp_sgn a b ltac:(unfold key_ok in *; lia)). unfold nkfs_btree_cmp_key. lia. Qed.

Lemma cmp_key_eq a b : key_ok a -> key_ok b -> nkfs_btree_cmp_key a b = 0 <-> key_val a = key_val b.
Proof. intros Ha Hb. pose proof (memcmp_sgn a b ltac:(unfold key_ok in *; lia)). unfold nkfs_btree_cmp_key. lia. Qed.

Lemma cmp_key_gt a b : key_ok a -> key_ok b -> nkfs_btree_cmp_key a b > 0 <-> key_val b < key_val a.
Proof. intros Ha Hb. pose proof (memcmp_sgn a b ltac:(unfold key_ok in *; lia)). unfold nkfs_btree_cmp_key. lia. Qed.

(** ** Arrays *)

(** [l] with the [cnt] entries from [i] moved one to the right; the entry at
    [i] stays where it was too. *)
Definition list_shift {A} (l : list A) (i cnt : nat) : list A :=
  take (i + 1) l ++ take cnt (drop i l) ++ drop (i + cnt + 1) l.

Lemma list_shift_lookup {A} `{Inhabited A} (l : list A) i cnt j : (i + cnt < length l)%nat ->
  list_shift l i cnt !!! j =
  if decide (i < j <= i + cnt)%nat then l !!! (j - 1)%nat else l !!! j.
Proof.
  intros L. unfold list_shift. rewrite !lookup_total_app, !length_take, !length_drop.
  rewrite (Nat.min_l (i + 1)), (Nat.min_l cnt) by lia.
  destruct (decide (j < i + 1)%nat).
  - rewrite decide_False by lia. apply lookup_total_take. lia.
  - destruct (decide (j - (i + 1) < cnt)%nat).
    + rewrite decide_True by lia. rewrite lookup_total_take, lookup_total_drop by lia. f_equal. lia.
    + rewrite decide_False by lia. rewrite lookup_total_drop. f_equal. lia.
Qed.

Lemma list_shift_length {A} (l : list A) i cnt : (i + cnt < length l)%nat ->
  length (list_shift l i cnt) = length l.
Proof. intros L. unfold list_shift. len. Qed.

(** Writing [x] at the gap: the first [n + 1] entries are the first [n] with
    [x] inserted at [i]. *)
Lemma list_shift_insert {A} `{Inhabited A} (l : list A) i n x : (i <= n < length l)%nat ->
  take (n + 1) (<[i := x]> (list_shift l i (n - i))) = take i (take n l) ++ x :: drop i (take n l).
Proof.
  intros L. assert (length (list_shift l i (n - i)) = length l) as Ls by (apply list_shift_length; lia).
  apply list_eq_total.
  { rewrite length_take, length_insert, Ls, length_app. cbn [length].
    rewrite length_drop, !length_take. lia. }
  intros j Hj. rewrite length_take, length_insert in Hj.
  rewrite lookup_total_take by lia.
  replace (take i (take n l) ++ x :: drop i (take n l)) with
    (take i (take n l) ++ [x] ++ drop i (take n l)) by done.
  rewrite !lookup_total_app, !length_take. cbn [length].
  rewrite Nat.min_l by lia.
  destruct (decide (j < i)%nat).
  - rewrite list_lookup_total_insert_ne, list_shift_lookup, decide_False by lia.
    by rewrite !lookup_total_take by lia.
  - destruct (decide (j = i)) as [->|].
    + rewrite list_lookup_total_insert_eq by lia. by rewrite Nat.sub_diag.
    + rewrite decide_False by lia. rewrite list_lookup_total_insert_ne, list_shift_lookup, decide_True by lia.
      rewrite lookup_total_drop, lookup_total_take by lia. f_equal. lia.
Qed.

(** Nothing moves beyond the gap. *)
Lemma list_shift_rest {A} (l : list A) i n x : (i <= n < length l)%nat ->
  drop (n + 1) (<[i := x]> (list_shift l i (n - i))) = drop (n + 1) l.
Proof.
  intros L. rewrite drop_insert_lt by lia. unfold list_shift. rewrite app_assoc, drop_app_ge.
  - rewrite drop_drop, length_app, !length_take, length_drop. f_equal. lia.
  - rewrite length_app, !length_take, length_drop. lia.
Qed.

Lemma list_shift_forall {A} (P : A -> Prop) (l : list A) i n x : Forall P l -> P x -> Forall P (<[i := x]> (list_shift l i n)).
Proof. intros F Hx. apply Forall_insert; [|done]. repeat apply Forall_app_2; auto using Forall_take, Forall_drop. Qed.

(** Copying a range slot by slot. *)
Lemma copy_step {A} `{Inhabited A} (l src : list A) d0 s0 x :
  (d0 + x < length l)%nat -> (s0 + x < length src)%nat ->
  <[(d0 + x)%nat := src !!! (s0 + x)%nat]> (memcpy_at l d0 (take x (drop s0 src))) =
  memcpy_at l d0 (take (S x) (drop s0 src)).
Proof.
  intros Hd Hs.
  assert (L1 : length (take x (drop s0 src)) = x) by (rewrite length_take, length_drop; lia).
  assert (L2 : length (take (S x) (drop s0 src)) = S x) by (rewrite length_take, length_drop; lia).
  assert (M1 : length (memcpy_at l d0 (take x (drop s0 src))) = length l) by (apply memcpy_at_length; lia).
  apply list_eq_total; [rewrite length_insert, M1; symmetry; apply memcpy_at_length; lia|].
  intros j Hj. rewrite (memcpy_at_lookup l d0 (take (S x) _)) by lia. rewrite L2.
  destruct (decide (j = d0 + x)%nat) as [->|Hne].
  - rewrite list_lookup_total_insert_eq by lia. rewrite decide_True by lia.
    rewrite lookup_total_take, lookup_total_drop by lia. f_equal. lia.
  - rewrite list_lookup_total_insert_ne by done. rewrite memcpy_at_lookup by lia. rewrite L1.
    destruct (decide (d0 <= j < d0 + x)%nat).
    + rewrite decide_True by lia. by rewrite !lookup_total_take by lia.
    + by rewrite decide_False by lia.
Qed.

Lemma memcpy_at_nil {A} (l : list A) d : memcpy_at l d [] = l.
Proof. unfold memcpy_at. cbn. rewrite Nat.add_0_r. apply take_drop. Qed.

Lemma zip_take {A B} n : forall (a : list A) (b : list B), zip (take n a) (take n b) = take n (zip a b).
Proof. induction n as [|n IH]; intros [|x a] [|y b]; try done. cbn. f_equal. apply IH. Qed.

Lemma zip_drop {A B} n : forall (a : list A) (b : list B), length a = length b ->
  zip (drop n a) (drop n b) = drop n (zip a b).
Proof. induction n as [|n IH]; intros [|x a] [|y b] L; cbn in L; try lia; try done. cbn. apply IH. lia. Qed.

Lemma zip_insert_at {A B} i (a : list A) (b : list B) x y : length a = length b ->
  zip (take i a ++ x :: drop i a) (take i b ++ y :: drop i b) =
  take i (zip a b) ++ (x, y) :: drop i (zip a b).
Proof.
  intros L. rewrite zip_with_app by (rewrite !length_take; lia). cbn.
  by rewrite <- zip_take, <- zip_drop.
Qed.

Section Spec.
Context (G : geom).

Definition ccap : nat := (g_child_pages G * g_page_children G)%nat.

(** The arrays hold every slot the algorithms use. *)
Record geom_ok : Prop := {
  geom_t : (2 <= g_t G)%nat;
  geom_keys : (2 * g_t G - 1 <= g_keys G)%nat;
  geom_values : (2 * g_t G - 1 <= g_values G)%nat;
  geom_children : (2 * g_t G <= ccap)%nat
}.

Definition cflat (n : node) : list Z := concat (map (default []) (children n)).

(** The pages are there and of the right size. *)
Record pages_ok (n : node) : Prop := {
  pages_keys : length (keys n) = g_keys G;
  pages_values : length (values n) = g_values G;
  pages_children : length (children n) = g_child_pages G;
  pages_each : forall p, (p < g_child_pages G)%nat ->
    exists pg, children n !!! p = Some pg /\ length pg = g_page_children G
}.

Lemma concat_pages_length ps n : Forall (fun o => exists pg : list Z, o = Some pg /\ length pg = n) ps ->
  length (concat (map (default []) ps)) = (length ps * n)%nat.
Proof.
  induction 1 as [|o ps (pg & -> & L) _ IH]; cbn; [done|]. rewrite length_app, IH. lia.
Qed.

Lemma concat_pages_lookup ps n p o : Forall (fun o => exists pg : list Z, o = Some pg /\ length pg = n) ps ->
  (p < length ps)%nat -> (o < n)%nat ->
  concat (map (default []) ps) !!! (p * n + o)%nat = default [] (ps !!! p) !!! o.
Proof.
  intros F. revert p. induction F as [|q ps (pg & -> & L) _ IH]; intros p Hp Ho; cbn in Hp; [lia|].
  cbn [map concat default]. rewrite lookup_total_app. destruct p as [|p].
  - cbn. by rewrite decide_True by lia.
  - rewrite decide_False by (cbn; lia). change ((Some pg :: ps) !!! S p) with (ps !!! p).
    rewrite <- IH by lia. f_equal. cbn. lia.
Qed.

Lemma pages_forall n : pages_ok n ->
  Forall (fun o => exists pg : list Z, o = Some pg /\ length pg = g_page_children G) (children n).
Proof.
  intros P. apply Forall_lookup. intros p o Hp. apply list_lookup_total_correct in Hp as E.
  apply lookup_lt_Some in Hp. rewrite (pages_children _ P) in Hp.
  destruct (pages_each _ P p Hp) as (pg & E2 & L). exists pg. by rewrite <- E.
Qed.

Lemma cflat_length n : pages_ok n -> length (cflat n) = ccap.
Proof.
  intros P. unfold cflat. rewrite (concat_pages_length _ (g_page_children G)) by (by apply pages_forall).
  by rewrite (pages_children _ P).
Qed.

Lemma nkfs_btree_node_child_ok n i : pages_ok n -> (i < ccap)%nat ->
  nkfs_btree_node_child G n i = Ret (cflat n !!! i).
Proof.
  intros P Hi. unfold ccap in Hi. unfold nkfs_btree_node_child.
  assert (H0 : g_page_children G <> 0%nat) by nia.
  pose proof (Nat.mod_upper_bound i _ H0).
  assert (Hp : (i / g_page_children G < g_child_pages G)%nat) by (apply Nat.Div0.div_lt_upper_bound; lia).
  rewrite (proj2 (Nat.leb_gt _ _) Hp). cbn [bug_on].
  destruct (pages_each _ P _ Hp) as (pg & E & L). rewrite E. f_equal.
  rewrite (Nat.div_mod_eq i (g_page_children G)) at 2. rewrite Nat.mul_comm. unfold cflat.
  rewrite concat_pages_lookup by (first [by apply pages_forall | by rewrite (pages_children _ P) | done]).
  by rewrite E.
Qed.

Lemma set_child_ok n i v : pages_ok n -> (i < ccap)%nat ->
  exists cs, set_child G n i v = Ret (set_children cs n) /\ pages_ok (set_children cs n) /\
  cflat (set_children cs n) = <[i := v]> (cflat n).
Proof.
  intros P Hi. pose proof (cflat_length n P) as LC. unfold ccap in Hi. unfold set_child.
  assert (H0 : g_page_children G <> 0%nat) by nia.
  pose proof (Nat.mod_upper_bound i _ H0) as Hm.
  assert (Hp : (i / g_page_children G < g_child_pages G)%nat) by (apply Nat.Div0.div_lt_upper_bound; lia).
  rewrite (proj2 (Nat.leb_gt _ _) Hp). cbn [bug_on].
  destruct (pages_each _ P _ Hp) as (pg & E & L). rewrite E.
  set (cs := <[(i / g_page_children G)%nat := Some (<[(i mod g_page_children G)%nat := v]> pg)]> (children n)).
  assert (P' : pages_ok (set_children cs n)).
  { split; cbn; try apply P.
    - unfold cs. rewrite length_insert. apply P.
    - intros p Hp'. unfold cs. destruct (decide (p = i / g_page_children G)%nat) as [->|Hne].
      + rewrite list_lookup_total_insert_eq by (by rewrite (pages_children _ P)).
        eexists. split; [done|]. by rewrite length_insert.
      + rewrite list_lookup_total_insert_ne by done. by apply P. }
  exists cs. split; [done|]. split; [done|].
  apply list_eq_total; [rewrite length_insert, LC; by apply cflat_length|].
  intros j Hj. rewrite (cflat_length _ P') in Hj. unfold ccap in Hj.
  pose proof (Nat.mod_upper_bound j _ H0) as Hmj.
  assert (Hpj : (j / g_page_children G < g_child_pages G)%nat) by (apply Nat.Div0.div_lt_upper_bound; lia).
  assert (Ej : j = (j / g_page_children G * g_page_children G + j mod g_page_children G)%nat)
    by (rewrite Nat.mul_comm; apply Nat.div_mod_eq).
  assert (Ei : i = (i / g_page_children G * g_page_children G + i mod g_page_children G)%nat)
    by (rewrite Nat.mul_comm; apply Nat.div_mod_eq).
  assert (Lcs : length cs = g_child_pages G) by apply (pages_children _ P').
  transitivity (default [] (cs !!! (j / g_page_children G)%nat) !!! (j mod g_page_children G)%nat).
  { unfold cflat. cbn [children set_children]. rewrite Ej at 1.
    apply concat_pages_lookup; [by apply (pages_forall (set_children cs n)) | lia | done]. }
  assert (Eo : cflat n !!! j =
    default [] (children n !!! (j / g_page_children G)%nat) !!! (j mod g_page_children G)%nat).
  { unfold cflat. rewrite Ej at 1.
    apply concat_pages_lookup; [by apply pages_forall | by rewrite (pages_children _ P) | done]. }
  destruct (decide (j = i)) as [Hji|Hji].
  - rewrite Hji. rewrite list_lookup_total_insert_eq by (rewrite LC; unfold ccap; lia). unfold cs.
    rewrite list_lookup_total_insert_eq by (by rewrite (pages_children _ P)). change (default [] (Some ?x)) with x.
    by rewrite list_lookup_total_insert_eq by lia.
  - rewrite list_lookup_total_insert_ne by done. rewrite Eo. unfold cs.
    destruct (decide (j / g_page_children G = i / g_page_children G)%nat) as [Eq|Eq].
    + rewrite Eq, E. rewrite list_lookup_total_insert_eq by (by rewrite (pages_children _ P)).
      change (default [] (Some ?x)) with x. rewrite list_lookup_total_insert_ne; [done|]. intros Em. apply Hji. lia.
    + by rewrite list_lookup_total_insert_ne by done.
Qed.

(** [upd n n' ks vs cf]: [n'] is [n] with these array contents. *)
Record upd (n n' : node) (ks : list (list byte)) (vs cf : list Z) : Prop := {
  upd_pages : pages_ok n';
  upd_keys : keys n' = ks;
  upd_values : values n' = vs;
  upd_children : cflat n' = cf;
  upd_sig1 : sig1 n' = sig1 n;
  upd_sig2 : sig2 n' = sig2 n;
  upd_block : block n' = block n;
  upd_leaf : leaf n' = leaf n;
  upd_nr : nr_keys n' = nr_keys n
}.

Lemma upd_refl n : pages_ok n -> upd n n (keys n) (values n) (cflat n).
Proof. intros P. by split. Qed.

Lemma upd_trans n n' n'' ks vs cf ks' vs' cf' :
  upd n n' ks vs cf -> upd n' n'' ks' vs' cf' -> upd n n'' ks' vs' cf'.
Proof. intros [] []. split; congruence || done. Qed.

Lemma pages_set_kv n ks vs : pages_ok n -> length ks = g_keys G -> length vs = g_values G ->
  pages_ok (set_values vs (set_keys ks n)).
Proof. intros [] H1 H2. by split. Qed.

Lemma copy_key_value_ok n i k v : pages_ok n -> (i < g_keys G)%nat -> (i < g_values G)%nat ->
  exists n', nkfs_btree_node_copy_key_value G n i k v = Ret n' /\
  upd n n' (<[i := k]> (keys n)) (<[i := v]> (values n)) (cflat n).
Proof.
  intros P H1 H2. unfold nkfs_btree_node_copy_key_value, set_key, set_value.
  rewrite (proj2 (Nat.leb_gt _ _) H1), (proj2 (Nat.leb_gt _ _) H2). cbn [bug_on obind].
  eexists. split; [done|]. split; try done.
  apply pages_set_kv; [done|rewrite length_insert; apply P..].
Qed.

Lemma copy_kv_ok dst i src j : pages_ok dst ->
  (i < g_keys G)%nat -> (i < g_values G)%nat -> (j < g_keys G)%nat -> (j < g_values G)%nat ->
  exists n', nkfs_btree_node_copy_kv G dst i src j = Ret n' /\
  upd dst n' (<[i := keys src !!! j]> (keys dst)) (<[i := values src !!! j]> (values dst)) (cflat dst).
Proof.
  intros P H1 H2 H3 H4.
  destruct (copy_key_value_ok dst i (keys src !!! j) (values src !!! j) P H1 H2) as (n' & E & U).
  exists n'. split; [|done]. rewrite <- E.
  unfold nkfs_btree_node_copy_kv, nkfs_btree_node_copy_key_value, nkfs_btree_node_key,
    nkfs_btree_node_value, set_key.
  rewrite (proj2 (Nat.leb_gt _ _) H1), (proj2 (Nat.leb_gt _ _) H3), (proj2 (Nat.leb_gt _ _) H4).
  done.
Qed.

Lemma set_child_upd n i v : pages_ok n -> (i < ccap)%nat ->
  exists n', set_child G n i v = Ret n' /\ upd n n' (keys n) (values n) (<[i := v]> (cflat n)).
Proof.
  intros P Hi. destruct (set_child_ok n i v P Hi) as (cs & E & P' & C).
  eexists. split; [exact E|]. by split.
Qed.

Lemma copy_child_ok dst i src j : pages_ok dst -> pages_ok src -> (i < ccap)%nat -> (j < ccap)%nat ->
  exists n', nkfs_btree_node_copy_child G dst i src j = Ret n' /\
  upd dst n' (keys dst) (values dst) (<[i := cflat src !!! j]> (cflat dst)).
Proof.
  intros P P' Hi Hj. unfold nkfs_btree_node_copy_child.
  rewrite nkfs_btree_node_child_ok by done. cbn [obind]. by apply set_child_upd.
Qed.

(** The shifting loops. *)
Lemma shift_step {A} `{Inhabited A} (l w : list A) i cnt x :
  (i + cnt < length l)%nat -> (x < cnt)%nat -> length w = length l ->
  (forall j, w !!! j = if decide (i + S x < j <= i + cnt)%nat then l !!! (j - 1)%nat else l !!! j) ->
  forall j, <[(i + x + 1)%nat := w !!! (i + x)%nat]> w !!! j =
    if decide (i + x < j <= i + cnt)%nat then l !!! (j - 1)%nat else l !!! j.
Proof.
  intros L Hx Lw E j. destruct (decide (j = i + x + 1)%nat) as [->|Hj].
  - rewrite list_lookup_total_insert_eq by lia. rewrite E, decide_False, decide_True by lia.
    f_equal. lia.
  - rewrite list_lookup_total_insert_ne by done. rewrite E.
    destruct (decide (i + S x < j <= i + cnt)%nat); [by rewrite decide_True by lia|].
    by rewrite decide_False by lia.
Qed.

Lemma shift_done {A} `{Inhabited A} (l w : list A) i cnt :
  (i + cnt < length l)%nat -> length w = length l ->
  (forall j, w !!! j = if decide (i + 0 < j <= i + cnt)%nat then l !!! (j - 1)%nat else l !!! j) ->
  w = list_shift l i cnt.
Proof.
  intros L Lw E. apply list_eq_total; [by rewrite list_shift_length|]. intros j Hj.
  rewrite E, list_shift_lookup by done. by rewrite Nat.add_0_r.
Qed.

Lemma shift_kv_right_ok n i cnt : pages_ok n ->
  (i + cnt < g_keys G)%nat -> (i + cnt < g_values G)%nat ->
  exists n', shift_kv_right G n i cnt = Ret n' /\
  upd n n' (list_shift (keys n) i cnt) (list_shift (values n) i cnt) (cflat n).
Proof.
  intros P H1 H2. pose proof (pages_keys _ P) as Lk. pose proof (pages_values _ P) as Lv.
  destruct (ofor_down_ind (fun x m => exists ks vs, upd n m ks vs (cflat n) /\
    (forall j, ks !!! j = if decide (i + x < j <= i + cnt)%nat then keys n !!! (j - 1)%nat else keys n !!! j) /\
    (forall j, vs !!! j = if decide (i + x < j <= i + cnt)%nat then values n !!! (j - 1)%nat else values n !!! j))
    (fun x dst => copy_kv_within G dst (i + x + 1) (i + x)) cnt n) as (n' & E & ks & vs & U & Ek & Ev).
  - exists (keys n), (values n). split; [by apply upd_refl|].
    split; intros j; by rewrite decide_False by lia.
  - intros x m Hx (ks & vs & U & Ek & Ev).
    destruct (copy_kv_ok m (i + x + 1) m (i + x)) as (m' & E & U'); [apply U|lia..|].
    exists m'. split; [exact E|]. eexists _, _. split; [eapply upd_trans; [exact U|]|].
    { rewrite (upd_children _ _ _ _ _ U) in U'. exact U'. }
    pose proof (upd_pages _ _ _ _ _ U) as Pm.
    rewrite (upd_keys _ _ _ _ _ U), (upd_values _ _ _ _ _ U).
    pose proof (pages_keys _ Pm) as Lk'. pose proof (pages_values _ Pm) as Lv'.
    rewrite (upd_keys _ _ _ _ _ U) in Lk'. rewrite (upd_values _ _ _ _ _ U) in Lv'.
    split; apply shift_step; (done || lia).
  - exists n'. split; [exact E|].
    pose proof (upd_pages _ _ _ _ _ U) as Pm.
    pose proof (pages_keys _ Pm) as Lk'. pose proof (pages_values _ Pm) as Lv'.
    rewrite (upd_keys _ _ _ _ _ U) in Lk'. rewrite (upd_values _ _ _ _ _ U) in Lv'.
    rewrite <- (shift_done (keys n) ks i cnt), <- (shift_done (values n) vs i cnt); (done || lia).
Qed.

Lemma shift_children_right_ok n i cnt : pages_ok n -> (i + cnt < ccap)%nat ->
  exists n', shift_children_right G n i cnt = Ret n' /\
  upd n n' (keys n) (values n) (list_shift (cflat n) i cnt).
Proof.
  intros P H1. pose proof (cflat_length _ P) as Lc.
  destruct (ofor_down_ind (fun x m => exists cf, upd n m (keys n) (values n) cf /\
    (forall j, cf !!! j = if decide (i + x < j <= i + cnt)%nat then cflat n !!! (j - 1)%nat else cflat n !!! j))
    (fun x dst => copy_child_within G dst (i + x + 1) (i + x)) cnt n) as (n' & E & cf & U & Ec).
  - exists (cflat n). split; [by apply upd_refl|]. intros j; by rewrite decide_False by lia.
  - intros x m Hx (cf & U & Ec). pose proof (upd_pages _ _ _ _ _ U) as Pm.
    destruct (copy_child_ok m (i + x + 1) m (i + x)) as (m' & E & U'); [done..|lia|lia|].
    exists m'. split; [exact E|]. eexists. split; [eapply upd_trans; [exact U|]|].
    { rewrite (upd_keys _ _ _ _ _ U), (upd_values _ _ _ _ _ U) in U'. exact U'. }
    pose proof (cflat_length _ Pm) as Lc'. rewrite (upd_children _ _ _ _ _ U) in Lc' |- *.
    apply shift_step; (done || lia).
  - exists n'. split; [exact E|]. pose proof (cflat_length _ (upd_pages _ _ _ _ _ U)) as Lc'.
    rewrite (upd_children _ _ _ _ _ U) in Lc'.
    rewrite <- (shift_done (cflat n) cf i cnt); (done || lia).
Qed.

(** Loops that copy a range of slots from one node to another. *)
Lemma copy_kv_range f dst src d0 s0 m : pages_ok dst -> pages_ok src ->
  (forall i d, f i d = nkfs_btree_node_copy_kv G d (d0 + i) src (s0 + i)) ->
  (d0 + m <= g_keys G)%nat -> (d0 + m <= g_values G)%nat ->
  (s0 + m <= g_keys G)%nat -> (s0 + m <= g_values G)%nat ->
  exists n', ofor_up 0 m f dst = Ret n' /\
  upd dst n' (memcpy_at (keys dst) d0 (take m (drop s0 (keys src))))
    (memcpy_at (values dst) d0 (take m (drop s0 (values src)))) (cflat dst).
Proof.
  intros P P' Hf H1 H2 H3 H4.
  pose proof (pages_keys _ P). pose proof (pages_values _ P).
  pose proof (pages_keys _ P'). pose proof (pages_values _ P').
  apply (ofor_up_ind (fun x n' => upd dst n' (memcpy_at (keys dst) d0 (take x (drop s0 (keys src))))
    (memcpy_at (values dst) d0 (take x (drop s0 (values src)))) (cflat dst)) f m 0).
  - rewrite !take_0, !memcpy_at_nil. by apply upd_refl.
  - intros x n' Hx U. destruct (copy_kv_ok n' (d0 + x) src (s0 + x)) as (n2 & E & U2); [apply U|lia..|].
    exists n2. rewrite Hf. split; [done|]. rewrite <- !copy_step by lia.
    eapply upd_trans; [exact U|].
    rewrite (upd_keys _ _ _ _ _ U), (upd_values _ _ _ _ _ U), (upd_children _ _ _ _ _ U) in U2. exact U2.
Qed.

Lemma copy_child_range f dst src d0 s0 m : pages_ok dst -> pages_ok src ->
  (forall i d, f i d = nkfs_btree_node_copy_child G d (d0 + i) src (s0 + i)) ->
  (d0 + m <= ccap)%nat -> (s0 + m <= ccap)%nat ->
  exists n', ofor_up 0 m f dst = Ret n' /\
  upd dst n' (keys dst) (values dst) (memcpy_at (cflat dst) d0 (take m (drop s0 (cflat src)))).
Proof.
  intros P P' Hf H1 H2. pose proof (cflat_length _ P). pose proof (cflat_length _ P').
  apply (ofor_up_ind (fun x n' => upd dst n' (keys dst) (values dst)
    (memcpy_at (cflat dst) d0 (take x (drop s0 (cflat src))))) f m 0).
  - rewrite !take_0, !memcpy_at_nil. by apply upd_refl.
  - intros x n' Hx U. destruct (copy_child_ok n' (d0 + x) src (s0 + x)) as (n2 & E & U2); [apply U|done|lia..|].
    exists n2. rewrite Hf. split; [done|]. rewrite <- !copy_step by lia.
    eapply upd_trans; [exact U|].
    rewrite (upd_keys _ _ _ _ _ U), (upd_values _ _ _ _ _ U), (upd_children _ _ _ _ _ U) in U2. exact U2.
Qed.

(** ** Live contents *)

Definition entries (n : node) : list (list byte * Z) :=
  zip (take (nr_keys n) (keys n)) (take (nr_keys n) (values n)).

Definition kids (n : node) : list Z := take (nr_keys n + 1) (cflat n).

Record node_ok (n : node) : Prop := {
  node_pages : pages_ok n;
  node_nr : (nr_keys n <= 2 * g_t G - 1)%nat;
  node_keys : Forall key_ok (take (nr_keys n) (keys n));
  node_sigs : sig1 n = NKFS_BTREE_SIG1 /\ sig2 n = NKFS_BTREE_SIG2
}.

Context (GO : geom_ok).

Lemma entries_length n : node_ok n -> length (entries n) = nr_keys n.
Proof.
  intros [P L _ _]. destruct GO. unfold entries.
  rewrite length_zip_with, !length_take, (pages_keys _ P), (pages_values _ P). lia.
Qed.

Lemma kids_length n : node_ok n -> length (kids n) = (nr_keys n + 1)%nat.
Proof.
  intros [P L _ _]. destruct GO. unfold kids. rewrite length_take, cflat_length by done. lia.
Qed.

(** A key and its value are put in: the arrays after it. *)
Lemma put_key_value_upd n i k v : pages_ok n -> (i <= nr_keys n < 2 * g_t G - 1)%nat ->
  exists n', nkfs_btree_node_put_key_value G n i k v = Ret n' /\ upd n n' (<[i := k]> (list_shift (keys n) i (nr_keys n - i))) (<[i := v]> (list_shift (values n) i (nr_keys n - i))) (cflat n).
Proof.
  intros P Hi. destruct GO. unfold nkfs_btree_node_put_key_value.
  pose proof (pages_keys _ P). pose proof (pages_values _ P).
  destruct (shift_kv_right_ok n i (nr_keys n - i) P) as (n1 & -> & U1); [lia..|]. cbn [obind].
  destruct (copy_key_value_ok n1 i k v) as (n2 & E2 & U2); [apply U1|lia..|].
  exists n2. split; [done|]. pose proof (upd_trans _ _ _ _ _ _ _ _ _ U1 U2) as U.
  by rewrite (upd_keys _ _ _ _ _ U1), (upd_values _ _ _ _ _ U1), (upd_children _ _ _ _ _ U1) in U.
Qed.

Lemma put_key_value_ok n i k v : node_ok n -> (i <= nr_keys n < 2 * g_t G - 1)%nat -> key_ok k ->
  exists n', nkfs_btree_node_put_key_value G n i k v = Ret n' /\
  node_ok (set_nr_keys (nr_keys n + 1) n') /\
  entries (set_nr_keys (nr_keys n + 1) n') = take i (entries n) ++ (k, v) :: drop i (entries n) /\
  cflat n' = cflat n /\ leaf n' = leaf n /\ block n' = block n /\ nr_keys n' = nr_keys n.
Proof.
  intros [P L Fk Sg] Hi Hk. destruct (put_key_value_upd n i k v P Hi) as (n2 & E & U). destruct GO.
  pose proof (pages_keys _ P). pose proof (pages_values _ P). exists n2. split; [done|].
  destruct U as [U1' U2' U3 U4 U5 U6 U7 U8 U9].
  assert (EK : take (nr_keys n + 1) (keys n2) =
    take i (take (nr_keys n) (keys n)) ++ k :: drop i (take (nr_keys n) (keys n))).
  { rewrite U2'. apply list_shift_insert. lia. }
  assert (EV : take (nr_keys n + 1) (values n2) =
    take i (take (nr_keys n) (values n)) ++ v :: drop i (take (nr_keys n) (values n))).
  { rewrite U3. apply list_shift_insert. lia. }
  split; [|split; [|by rewrite U4, U7, U8, U9]].
  - split; cbn.
    + destruct U1'. by split.
    + lia.
    + rewrite EK. rewrite <- (take_drop i (take (nr_keys n) (keys n))) in Fk.
      apply Forall_app in Fk as [F1 F2]. apply Forall_app. split; [done|]. by constructor.
    + by rewrite U5, U6.
  - unfold entries. cbn [set_nr_keys nr_keys keys values]. rewrite EK, EV.
    apply zip_insert_at. rewrite !length_take. lia.
Qed.

Lemma put_kv_ok n i src j : node_ok n -> (i <= nr_keys n < 2 * g_t G - 1)%nat ->
  pages_ok src -> (j < 2 * g_t G - 1)%nat -> key_ok (keys src !!! j) ->
  exists n', nkfs_btree_node_put_kv G n i src j = Ret n' /\
  node_ok (set_nr_keys (nr_keys n + 1) n') /\
  entries (set_nr_keys (nr_keys n + 1) n') =
    take i (entries n) ++ (keys src !!! j, values src !!! j) :: drop i (entries n) /\
  cflat n' = cflat n /\ leaf n' = leaf n /\ block n' = block n /\ nr_keys n' = nr_keys n.
Proof.
  intros N Hi P Hj Hk. destruct (put_key_value_ok n i (keys src !!! j) (values src !!! j) N Hi Hk)
    as (n' & E & R). exists n'. split; [|done]. rewrite <- E.
  unfold nkfs_btree_node_put_kv, nkfs_btree_node_put_key_value.
  destruct (shift_kv_right G n i (nr_keys n - i)) as [m|]; [|done]. cbn [obind]. destruct GO.
  unfold nkfs_btree_node_copy_kv, nkfs_btree_node_copy_key_value, nkfs_btree_node_key, nkfs_btree_node_value.
  rewrite (proj2 (Nat.leb_gt (g_keys G) j)), (proj2 (Nat.leb_gt (g_values G) j)) by lia. done.
Qed.

Lemma put_child_val_ok n i v : node_ok n -> (i <= nr_keys n + 1)%nat -> (nr_keys n < 2 * g_t G - 1)%nat ->
  exists n', nkfs_btree_node_put_child_val G n i v = Ret n' /\
  upd n n' (keys n) (values n) (cflat n') /\
  take (nr_keys n + 2) (cflat n') = take i (kids n) ++ v :: drop i (kids n).
Proof.
  intros [P L Fk Sg] Hi Hn. destruct GO. unfold nkfs_btree_node_put_child_val.
  pose proof (cflat_length _ P) as Lc.
  destruct (shift_children_right_ok n i (nr_keys n + 1 - i) P) as (n1 & -> & U1); [lia|]. cbn [obind].
  destruct (set_child_upd n1 i v) as (n2 & E2 & U2); [apply U1|lia|].
  exists n2. split; [done|]. pose proof (upd_trans _ _ _ _ _ _ _ _ _ U1 U2) as U.
  rewrite (upd_keys _ _ _ _ _ U1), (upd_values _ _ _ _ _ U1), (upd_children _ _ _ _ _ U1) in U.
  pose proof (upd_children _ _ _ _ _ U) as E. split; [by rewrite E|]. rewrite E.
  replace (nr_keys n + 2)%nat with ((nr_keys n + 1) + 1)%nat by lia.
  apply list_shift_insert. lia.
Qed.

Lemma take_memcpy_0 {A} (l src : list A) : (length src <= length l)%nat ->
  take (length src) (memcpy_at l 0 src) = src.
Proof. intros H. apply (memcpy_at_take l 0 src). lia. Qed.

(** The right half of a full child, copied into an empty node. *)
Lemma split_right child new :
  node_ok child -> nr_keys child = (2 * g_t G - 1)%nat -> pages_ok new ->
  sig1 new = NKFS_BTREE_SIG1 -> sig2 new = NKFS_BTREE_SIG2 ->
  exists w,
  (let! new := ofor_up 0 (g_t G - 1) (fun i new =>
     nkfs_btree_node_copy_kv G new i child (i + g_t G)) (set_leaf (leaf child) new) in
   let new := set_nr_keys (g_t G - 1) new in
   if negb (leaf child) then
     ofor_up 0 (g_t G) (fun i new => nkfs_btree_node_copy_child G new i child (i + g_t G)) new
   else Ret new) = Ret w /\
  node_ok w /\ nr_keys w = (g_t G - 1)%nat /\ block w = block new /\ leaf w = leaf child /\
  entries w = drop (g_t G) (entries child) /\
  (leaf child = false -> kids w = drop (g_t G) (kids child)).
Proof.
  intros [P L Fk Sg] Hn Pn S1 S2. destruct GO.
  assert (Pn' : pages_ok (set_leaf (leaf child) new)) by (destruct Pn; by split).
  pose proof (pages_keys _ P) as Lk. pose proof (pages_values _ P) as Lv. pose proof (cflat_length _ P) as Lc.
  pose proof (pages_keys _ Pn). pose proof (pages_values _ Pn). pose proof (cflat_length _ Pn).
  destruct (copy_kv_range (fun i new => nkfs_btree_node_copy_kv G new i child (i + g_t G))
    (set_leaf (leaf child) new) child 0 (g_t G) (g_t G - 1)) as (w & -> & U); [done|done| |lia..|].
  { intros i d. f_equal. lia. }
  cbn [obind]. cbn [set_leaf keys values cflat children leaf] in U.
  change (cflat (set_leaf (leaf child) new)) with (cflat new) in U.
  set (w1 := set_nr_keys (g_t G - 1) w).
  assert (Tk : take (g_t G - 1) (keys w) = drop (g_t G) (take (nr_keys child) (keys child))).
  { rewrite (upd_keys _ _ _ _ _ U).
    assert (LT : length (take (g_t G - 1) (drop (g_t G) (keys child))) = (g_t G - 1)%nat)
      by (rewrite length_take, length_drop; lia).
    rewrite <- LT at 1. rewrite take_memcpy_0 by lia.
    rewrite skipn_firstn_comm. f_equal. lia. }
  assert (Tv : take (g_t G - 1) (values w) = drop (g_t G) (take (nr_keys child) (values child))).
  { rewrite (upd_values _ _ _ _ _ U).
    assert (LT : length (take (g_t G - 1) (drop (g_t G) (values child))) = (g_t G - 1)%nat)
      by (rewrite length_take, length_drop; lia).
    rewrite <- LT at 1. rewrite take_memcpy_0 by lia. rewrite skipn_firstn_comm. f_equal. lia. }
  assert (P1 : pages_ok w1) by (destruct (upd_pages _ _ _ _ _ U); by split).
  assert (R : forall w', pages_ok w' -> keys w' = keys w -> values w' = values w ->
    nr_keys w' = (g_t G - 1)%nat -> sig1 w' = sig1 w -> sig2 w' = sig2 w ->
    node_ok w' /\ entries w' = drop (g_t G) (entries child)).
  { intros w' Pw Ek Ev En E1 E2. split.
    - split; [done|lia| |].
      + rewrite En, Ek, Tk. by apply Forall_drop.
      + rewrite E1, E2, (upd_sig1 _ _ _ _ _ U), (upd_sig2 _ _ _ _ _ U). done.
    - unfold entries. rewrite En, Ek, Ev, Tk, Tv. apply zip_drop. rewrite !length_take. lia. }
  destruct (leaf child) eqn:Lf; cbn [negb].
  - exists w1. destruct (R w1) as [R1 R2]; [done..|]. split; [done|]. split; [done|]. split; [done|].
    split; [apply U|]. split; [apply U|]. split; [done|done].
  - destruct (copy_child_range (fun i new => nkfs_btree_node_copy_child G new i child (i + g_t G))
      w1 child 0 (g_t G) (g_t G)) as (w2 & -> & U2); [done|done| |lia..|].
    { intros i d. f_equal. lia. }
    pose proof (upd_nr _ _ _ _ _ U2) as En. cbn in En. exists w2. split; [done|].
    destruct (R w2) as [R1 R2];
      [apply U2|apply (upd_keys _ _ _ _ _ U2)|apply (upd_values _ _ _ _ _ U2)|done
      |apply (upd_sig1 _ _ _ _ _ U2)|apply (upd_sig2 _ _ _ _ _ U2)|].
    split; [done|]. split; [done|].
    split; [rewrite (upd_block _ _ _ _ _ U2); apply U|].
    split; [rewrite (upd_leaf _ _ _ _ _ U2); cbn; rewrite (upd_leaf _ _ _ _ _ U); done|].
    split; [done|]. intros _. unfold kids. rewrite En, (upd_children _ _ _ _ _ U2), Hn.
    assert (LT : length (take (g_t G) (drop (g_t G) (cflat child))) = g_t G)
      by (rewrite length_take, length_drop; lia).
    pose proof (cflat_length _ P1).
    replace (g_t G - 1 + 1)%nat with (length (take (g_t G) (drop (g_t G) (cflat child)))) by lia.
    rewrite take_memcpy_0 by lia. rewrite skipn_firstn_comm. f_equal. lia.
Qed.

Lemma set_nr_ok n k : pages_ok n -> (k <= 2 * g_t G - 1)%nat -> Forall key_ok (take k (keys n)) ->
  sig1 n = NKFS_BTREE_SIG1 /\ sig2 n = NKFS_BTREE_SIG2 -> node_ok (set_nr_keys k n).
Proof. intros P Hk F Sg. split; try done. destruct P. by split. Qed.

(** The left half of a full child: only the count changes. *)
Lemma split_left child :
  node_ok child -> nr_keys child = (2 * g_t G - 1)%nat ->
  let c := set_nr_keys (g_t G - 1) child in
  node_ok c /\ entries c = take (g_t G - 1) (entries child) /\ kids c = take (g_t G) (kids child).
Proof.
  intros [P L Fk Sg] Hn c. destruct GO. split; [|split].
  - apply set_nr_ok; [done|lia| |done]. rewrite Hn in Fk.
    replace (g_t G - 1)%nat with (Nat.min (g_t G - 1) (2 * g_t G - 1)) by lia.
    rewrite <- take_take. by apply Forall_take.
  - unfold entries, c. cbn. rewrite Hn, <- zip_take, !take_take. do 2 f_equal; lia.
  - unfold kids, c. cbn. change (cflat (set_nr_keys (g_t G - 1) child)) with (cflat child).
    rewrite take_take, Hn. f_equal. lia.
Qed.

(** What splitting the full child [child], the [i]-th of [n], leaves. *)
Record split_spec (n child new : node) (i : nat) (n' c' w' : node) : Prop := {
  sp_n : node_ok n'; sp_c : node_ok c'; sp_w : node_ok w';
  sp_n_nr : nr_keys n' = (nr_keys n + 1)%nat;
  sp_c_nr : nr_keys c' = (g_t G - 1)%nat;
  sp_w_nr : nr_keys w' = (g_t G - 1)%nat;
  sp_blocks : block n' = block n /\ block c' = block child /\ block w' = block new;
  sp_leaves : leaf n' = leaf n /\ leaf c' = leaf child /\ leaf w' = leaf child;
  sp_entries : exists e,
    entries n' = take i (entries n) ++ e :: drop i (entries n) /\
    entries child = entries c' ++ e :: entries w';
  sp_kids : kids n' = take (i + 1) (kids n) ++ block new :: drop (i + 1) (kids n);
  sp_child_kids : leaf child = false -> kids child = kids c' ++ kids w'
}.

Lemma split_child_ok n child i new :
  node_ok n -> (i <= nr_keys n < 2 * g_t G - 1)%nat ->
  node_ok child -> nr_keys child = (2 * g_t G - 1)%nat ->
  pages_ok new -> sig1 new = NKFS_BTREE_SIG1 -> sig2 new = NKFS_BTREE_SIG2 ->
  exists n' c' w', nkfs_btree_node_split_child G n child i new = Ret (n', c', w') /\
  split_spec n child new i n' c' w'.
Proof.
  intros N Hi C Hc Pn S1 S2. pose proof (entries_length _ C) as Le. pose proof (kids_length _ N) as Lkn.
  destruct GO. unfold nkfs_btree_node_split_child.
  rewrite (proj2 (Nat.ltb_ge (nr_keys n) i)) by lia. cbn [bug_on].
  unfold nkfs_btree_node_is_full. rewrite (proj2 (Nat.eqb_eq (2 * g_t G - 1) _)) by lia. cbn [negb bug_on].
  destruct (split_right child new C Hc Pn S1 S2) as (w & E & Nw & Hw & Bw & Lw & Ew & Kw).
  destruct (ofor_up 0 (g_t G - 1) _ _) as [new1|]; [|done]. cbn [obind] in E |- *. rewrite E. cbn [obind].
  destruct (split_left child C Hc) as (Nc & Ec & Kc). set (c := set_nr_keys (g_t G - 1) child) in *.
  rewrite Bw.
  destruct (put_child_val_ok n (i + 1) (block new) N) as (n1 & -> & U & K1); [lia|lia|]. cbn [obind].
  assert (N1 : node_ok n1).
  { destruct N as [P L Fk Sg]. split; [apply U| | |].
    - by rewrite (upd_nr _ _ _ _ _ U).
    - by rewrite (upd_nr _ _ _ _ _ U), (upd_keys _ _ _ _ _ U).
    - by rewrite (upd_sig1 _ _ _ _ _ U), (upd_sig2 _ _ _ _ _ U). }
  assert (En1 : entries n1 = entries n).
  { unfold entries. by rewrite (upd_nr _ _ _ _ _ U), (upd_keys _ _ _ _ _ U), (upd_values _ _ _ _ _ U). }
  destruct C as [P L Fk Sg]. pose proof (pages_keys _ P). pose proof (pages_values _ P).
  set (e := (keys child !!! (g_t G - 1)%nat, values child !!! (g_t G - 1)%nat)).
  assert (He : entries child !! (g_t G - 1)%nat = Some e).
  { apply lookup_zip_with_Some. eexists _, _. split; [done|].
    rewrite Hc, !lookup_take_lt by lia. split; apply list_lookup_lookup_total_lt; lia. }
  destruct (put_kv_ok n1 i c (g_t G - 1) N1) as (n2 & -> & Nn & En & Cn & Ln & Bn & Nrn);
    [rewrite (upd_nr _ _ _ _ _ U); lia | apply Nc | lia | |].
  { change (keys c) with (keys child). rewrite Forall_lookup in Fk.
    apply (Fk (g_t G - 1)%nat). rewrite Hc, lookup_take_lt by lia.
    apply list_lookup_lookup_total_lt. lia. }
  cbn [obind]. rewrite Nrn. eexists _, _, _. split; [done|]. rewrite (upd_nr _ _ _ _ _ U) in *.
  split; try done.
  - cbn. rewrite Bn, (upd_block _ _ _ _ _ U). done.
  - cbn. rewrite Ln, (upd_leaf _ _ _ _ _ U). done.
  - exists e. split; [by rewrite En, En1|]. rewrite Ec, Ew.
    rewrite <- (take_drop_middle (entries child) (g_t G - 1) e) at 1 by done.
    by replace (S (g_t G - 1)) with (g_t G) by lia.
  - unfold kids. cbn [set_nr_keys nr_keys]. change (cflat (set_nr_keys ?k ?m)) with (cflat m).
    rewrite Cn. replace (nr_keys n + 1 + 1)%nat with (nr_keys n + 2)%nat by lia. exact K1.
  - intros Lf. rewrite Kc, (Kw Lf). symmetry. apply take_drop.
Qed.

(** [nkfs_btree_node_copy]: everything but the identity of [dst]. *)
Lemma node_copy_ok dst src : pages_ok dst -> node_ok src ->
  sig1 dst = NKFS_BTREE_SIG1 /\ sig2 dst = NKFS_BTREE_SIG2 ->
  exists n', nkfs_btree_node_copy G dst src = Ret n' /\ node_ok n' /\
  nr_keys n' = nr_keys src /\ leaf n' = leaf src /\ block n' = block dst /\
  entries n' = entries src /\ kids n' = kids src.
Proof.
  intros P [P' L Fk Sg'] Sg. destruct GO. set (m := nr_keys src).
  pose proof (pages_keys _ P). pose proof (pages_values _ P). pose proof (cflat_length _ P).
  pose proof (pages_keys _ P'). pose proof (pages_values _ P'). pose proof (cflat_length _ P').
  destruct (ofor_up_ind (fun x n' => upd dst n' (memcpy_at (keys dst) 0 (take x (drop 0 (keys src))))
    (memcpy_at (values dst) 0 (take x (drop 0 (values src))))
    (memcpy_at (cflat dst) 0 (take x (drop 0 (cflat src)))))
    (fun i d => let! d := nkfs_btree_node_copy_kv G d i src i in
                nkfs_btree_node_copy_child G d i src i) m 0 dst) as (n1 & E & U).
  - rewrite !take_0, !memcpy_at_nil. by apply upd_refl.
  - intros x n' Hx U. destruct (copy_kv_ok n' x src x) as (n2 & -> & U2); [apply U|lia..|]. cbn [obind].
    destruct (copy_child_ok n2 x src x) as (n3 & -> & U3); [apply U2|done|lia|lia|].
    exists n3. split; [done|]. rewrite <- !copy_step by lia. cbn [Nat.add].
    eapply upd_trans; [exact U|]. eapply upd_trans; [exact U2|].
    rewrite (upd_keys _ _ _ _ _ U2), (upd_values _ _ _ _ _ U2), (upd_children _ _ _ _ _ U2) in U3.
    rewrite (upd_keys _ _ _ _ _ U), (upd_values _ _ _ _ _ U), (upd_children _ _ _ _ _ U) in U3. exact U3.
  - unfold nkfs_btree_node_copy. fold m. rewrite E. cbn [obind Nat.add] in *.
    destruct (copy_child_ok n1 m src m) as (n2 & -> & U2); [apply U|done|lia|lia|]. cbn [obind].
    eexists. split; [done|]. pose proof (upd_trans _ _ _ _ _ _ _ _ _ U U2) as V.
    rewrite (upd_keys _ _ _ _ _ U), (upd_values _ _ _ _ _ U), (upd_children _ _ _ _ _ U) in V.
    pose proof (copy_step (cflat dst) (cflat src) 0 0 m) as Cs. cbn [Nat.add] in Cs.
    rewrite Cs in V by lia. clear Cs U U2 E. rewrite !drop_0 in V.
    assert (Tk : take m (keys n2) = take m (keys src)).
    { rewrite (upd_keys _ _ _ _ _ V).
      assert (length (take m (keys src)) = m) as LT by (rewrite length_take; lia).
      rewrite <- LT at 1. apply take_memcpy_0. lia. }
    assert (Tv : take m (values n2) = take m (values src)).
    { rewrite (upd_values _ _ _ _ _ V).
      assert (length (take m (values src)) = m) as LT by (rewrite length_take; lia).
      rewrite <- LT at 1. apply take_memcpy_0. lia. }
    split; [|split; [done|split; [done|split; [apply V|split]]]].
    + split; cbn; [|done|by rewrite Tk|by rewrite (upd_sig1 _ _ _ _ _ V), (upd_sig2 _ _ _ _ _ V)].
      destruct (upd_pages _ _ _ _ _ V). by split.
    + unfold entries. cbn. by rewrite Tk, Tv.
    + unfold kids. cbn [set_leaf set_nr_keys nr_keys].
      change (cflat (set_leaf ?l (set_nr_keys ?k ?x))) with (cflat x). rewrite (upd_children _ _ _ _ _ V).
      assert (length (take (S m) (cflat src)) = (m + 1)%nat) as LT by (rewrite length_take; lia).
      fold m. rewrite <- LT at 1. rewrite take_memcpy_0 by lia. f_equal. lia.
Qed.

(** ** Searching *)

Lemma mid_bounds s e : (s < e)%nat -> (s <= (s + e) / 2 < e)%nat.
Proof.
  intros H. pose proof (Nat.div_mod_eq (s + e) 2). pose proof (Nat.mod_upper_bound (s + e) 2 ltac:(lia)). lia.
Qed.

Definition kv (n : node) (i : nat) : Z := key_val (keys n !!! i).

Definition keys_sorted (n : node) : Prop :=
  forall i j, (i < j < nr_keys n)%nat -> kv n i < kv n j.

Lemma node_key_ok n i : node_ok n -> (i < nr_keys n)%nat ->
  nkfs_btree_node_key G n i = Ret (keys n !!! i) /\ key_ok (keys n !!! i).
Proof.
  intros [P L Fk _] Hi. destruct GO. pose proof (pages_keys _ P). unfold nkfs_btree_node_key.
  rewrite (proj2 (Nat.leb_gt _ _)) by lia. split; [done|]. rewrite Forall_lookup in Fk.
  apply (Fk i). rewrite lookup_take_lt by lia. apply list_lookup_lookup_total_lt. lia.
Qed.

Lemma search_loop_spec n k fuel : node_ok n -> keys_sorted n -> key_ok k -> forall s e,
  (e <= nr_keys n)%nat -> (e - s <= fuel)%nat -> (s <= e)%nat ->
  (forall j, (j < s)%nat -> kv n j < key_val k) ->
  (forall j, (e <= j < nr_keys n)%nat -> key_val k < kv n j) ->
  exists r, search_loop G fuel n k s e = Ret r /\
  match r with
  | inl i => (i < nr_keys n)%nat /\ kv n i = key_val k
  | inr i => (i <= nr_keys n)%nat /\ (forall j, (j < i)%nat -> kv n j < key_val k) /\
             (forall j, (i <= j < nr_keys n)%nat -> key_val k < kv n j)
  end.
Proof.
  intros N So Hk. induction fuel as [|fuel IH]; intros s e He Hf Hse Hlo Hhi; cbn [search_loop].
  - exists (inr e). split; [done|]. split; [done|]. split; [|done]. intros j Hj. apply Hlo. lia.
  - destruct (Nat.ltb_spec s e) as [Hlt|Hge].
    2: { exists (inr e). split; [done|]. split; [done|]. split; [|done]. intros j Hj. apply Hlo. lia. }
    pose proof (mid_bounds s e ltac:(lia)) as Hmid. set (mid := ((s + e) / 2)%nat) in *.
    destruct (node_key_ok n mid N ltac:(lia)) as [-> Hkm]. cbn [obind]. fold (kv n mid).
    pose proof (cmp_key_eq k _ Hk Hkm) as Ceq. pose proof (cmp_key_lt k _ Hk Hkm) as Clt.
    fold (kv n mid) in Ceq, Clt.
    destruct (Z.eqb_spec (nkfs_btree_cmp_key k (keys n !!! mid)) 0) as [E|E].
    { exists (inl mid). split; [done|]. split; [lia|]. symmetry. by apply Ceq. }
    destruct (Z.ltb_spec (nkfs_btree_cmp_key k (keys n !!! mid)) 0) as [E2|E2].
    + apply Clt in E2. apply IH; [lia..|done|]. intros j Hj.
      destruct (decide (j = mid)) as [->|]; [done|]. specialize (So mid j). lia.
    + assert (kv n mid < key_val k) by lia. apply IH; [lia..| |done]. intros j Hj.
      destruct (decide (j = mid)) as [->|]; [done|]. specialize (So j mid). lia.
Qed.

(** The loop has ended when it stops: more iterations change nothing, whatever
    the keys. *)
Lemma search_loop_fuel n k f1 : forall f2 s e, (e - s <= f1)%nat -> (e - s <= f2)%nat ->
  search_loop G f1 n k s e = search_loop G f2 n k s e.
Proof.
  induction f1 as [|f1 IH]; intros f2 s e H1 H2.
  - destruct f2 as [|f2]; [done|]. cbn [search_loop]. destruct (Nat.ltb_spec s e); [lia|done].
  - destruct f2 as [|f2]; cbn [search_loop]; destruct (Nat.ltb_spec s e); try lia; try done.
    pose proof (mid_bounds s e ltac:(lia)) as Hmid.
    destruct (nkfs_btree_node_key G n ((s + e) / 2)) as [km|]; [|done]. cbn [obind].
    destruct (_ =? 0); [done|]. destruct (_ <? 0); apply IH; lia.
Qed.

Lemma has_key_spec n k : node_ok n -> keys_sorted n -> key_ok k ->
  exists r, nkfs_btree_node_has_key G n k = Ret r /\
  match r with
  | Some i => (i < nr_keys n)%nat /\ kv n i = key_val k
  | None => forall i, (i < nr_keys n)%nat -> kv n i <> key_val k
  end.
Proof.
  intros N So Hk. unfold nkfs_btree_node_has_key, nkfs_btree_node_key_probably_inside.
  destruct (Nat.eqb_spec (nr_keys n) 0) as [E0|E0].
  { exists None. split; [done|]. lia. }
  destruct (node_key_ok n (nr_keys n - 1) N ltac:(lia)) as [-> Hkl]. cbn [obind].
  pose proof (cmp_key_gt k _ Hk Hkl) as Cgt. fold (kv n (nr_keys n - 1)) in Cgt.
  destruct (Z.gtb_spec (nkfs_btree_cmp_key k (keys n !!! (nr_keys n - 1)%nat)) 0) as [E1|E1].
  { exists None. split; [done|]. intros i Hi. apply Z.lt_gt, Cgt in E1.
    destruct (decide (i = nr_keys n - 1)%nat) as [->|]; [lia|]. specialize (So i (nr_keys n - 1)%nat). lia. }
  destruct (node_key_ok n 0 N ltac:(lia)) as [-> Hk0]. cbn [obind].
  pose proof (cmp_key_lt k _ Hk Hk0) as Clt. fold (kv n 0) in Clt.
  destruct (Z.ltb_spec (nkfs_btree_cmp_key k (keys n !!! 0%nat)) 0) as [E2|E2]; cbn [negb].
  { exists None. split; [done|]. intros i Hi. apply Clt in E2.
    destruct (decide (i = 0)%nat) as [->|]; [lia|]. specialize (So 0%nat i). lia. }
  destruct (search_loop_spec n k (nr_keys n) N So Hk 0 (nr_keys n)) as (r & -> & Hr); [lia..|].
  cbn [obind]. destruct r as [i|i]; eexists; (split; [done|]); [done|].
  destruct Hr as (_ & H1 & H2). intros j Hj. destruct (Nat.lt_ge_cases j i); [specialize (H1 j)|specialize (H2 j)]; lia.
Qed.

Lemma find_key_index_spec n k : node_ok n -> keys_sorted n -> key_ok k ->
  exists i, nkfs_btree_node_find_key_index G n k = Ret i /\ (i <= nr_keys n)%nat /\
  (forall j, (j < i)%nat -> kv n j < key_val k) /\
  (forall j, (i <= j < nr_keys n)%nat -> key_val k <= kv n j).
Proof.
  intros N So Hk. unfold nkfs_btree_node_find_key_index.
  destruct (Nat.eqb_spec (nr_keys n) 0) as [E0|E0].
  { exists 0%nat. split; [done|]. split; [lia|]. split; intros; lia. }
  destruct (node_key_ok n (nr_keys n - 1) N ltac:(lia)) as [-> Hkl]. cbn [obind].
  pose proof (cmp_key_gt k _ Hk Hkl) as Cgt. fold (kv n (nr_keys n - 1)) in Cgt.
  destruct (Z.gtb_spec (nkfs_btree_cmp_key k (keys n !!! (nr_keys n - 1)%nat)) 0) as [E1|E1].
  { exists (nr_keys n). split; [done|]. split; [lia|]. split; [|lia]. intros i Hi. apply Z.lt_gt, Cgt in E1.
    destruct (decide (i = nr_keys n - 1)%nat) as [->|]; [lia|]. specialize (So i (nr_keys n - 1)%nat). lia. }
  destruct (node_key_ok n 0 N ltac:(lia)) as [-> Hk0]. cbn [obind].
  pose proof (cmp_key_lt k _ Hk Hk0) as Clt. fold (kv n 0) in Clt.
  destruct (Z.ltb_spec (nkfs_btree_cmp_key k (keys n !!! 0%nat)) 0) as [E2|E2].
  { exists 0%nat. split; [done|]. split; [lia|]. split; [intros; lia|]. intros i Hi. apply Clt in E2.
    destruct (decide (i = 0)%nat) as [->|]; [lia|]. specialize (So 0%nat i). lia. }
  destruct (search_loop_spec n k (nr_keys n) N So Hk 0 (nr_keys n)) as (r & -> & Hr); [lia..|].
  cbn [obind]. destruct r as [i|i]; eexists; (split; [done|]).
  - destruct Hr as [Hi Hkv]. split; [lia|]. split; intros j Hj; [specialize (So j i)|]; [lia|].
    destruct (decide (j = i)) as [->|]; [lia|]. specialize (So i j). lia.
  - destruct Hr as (H0 & H1 & H2). split; [done|]. split; [done|]. intros j Hj. specialize (H2 j Hj). lia.
Qed.

End Spec.

End BtreeNodeSpec.
