(* ===== verification/BtreeDisk.v ===== *)
(** * B-tree nodes on disk (src/core/btree.c, src/include/nkfs_image.h)

    A node in memory is one header page and its key, child and value pages, with
    integers in the byte order of the CPU; on disk it is a cluster of pages with
    big-endian integers.  [struct nkfs_btree_node_disk] gives the key array
    [NKFS_BTREE_VALUE_PAGES] pages where a node has [NKFS_BTREE_KEY_PAGES]: the
    last three key pages and the first three child pages share their place.

    [reads_back] says which nodes survive being written and read; it instantiates
    the field of that name in the state of the tree (Btree). *)

From Stdlib Require Import ZArith Lia.
From coqutil Require Import Byte.
From stdpp Require Import base list gmap.
From S2P Require Import Prelude XXHash Bytes Csum BtreeNode BtreeNodeSpec.
Import XXHash Bytes Csum BtreeNode BtreeNodeSpec.
Local Open Scope Z_scope.

Module BtreeDisk.

Definition PAGE_SIZE : nat := 4096.
Definition NKFS_BTREE_KEY_PAGES : nat := 7.
Definition NKFS_BTREE_CHILD_PAGES : nat := 4.
Definition NKFS_BTREE_VALUE_PAGES : nat := 4.

(** ** Pages *)

Record nkfs_btree_header_page := Header {
  h_sig1 : Z;
  h_leaf : Z;
  h_nr_keys : Z;
  h_pad : list byte;   (* 4072 bytes *)
  h_sum : list byte;   (* struct csum: a u64 in the byte order of the CPU *)
  h_sig2 : Z
}.

(** The pages of [struct nkfs_btree_node]. *)
Record pages := Pages {
  p_header : nkfs_btree_header_page;
  p_keys : list (list byte);
  p_children : list (list byte);
  p_values : list (list byte)
}.

(** The pages of [struct nkfs_btree_node_disk], as offsets in pages. *)
Definition disk_header : nat := 0.
Definition disk_keys (i : nat) : nat := 1 + i.
Definition disk_children (i : nat) : nat := 1 + NKFS_BTREE_VALUE_PAGES + i.
Definition disk_values (i : nat) : nat := 1 + NKFS_BTREE_VALUE_PAGES + NKFS_BTREE_CHILD_PAGES + i.

Section Endian.
Context (e : XXH_endianess).

(** One 8-byte slot: [be64_to_cpu], [cpu_to_be64]. *)
Definition slot_by_ondisk (bs : list byte) : list byte := store e 8 (of_be bs).
Definition slot_to_ondisk (bs : list byte) : list byte := be 8 (load e bs).

Definition nkfs_btree_node_child_page_by_ondisk (src : list byte) : list byte :=
  concat (map slot_by_ondisk (slots 8 512 src)).

Definition nkfs_btree_node_value_page_by_ondisk (src : list byte) : list byte :=
  concat (map slot_by_ondisk (slots 8 512 src)).

Definition nkfs_btree_node_child_page_to_ondisk (src : list byte) : list byte :=
  concat (map slot_to_ondisk (slots 8 512 src)).

Definition nkfs_btree_node_value_page_to_ondisk (src : list byte) : list byte :=
  concat (map slot_to_ondisk (slots 8 512 src)).

Definition nkfs_btree_node_header_page_to_ondisk (src : nkfs_btree_header_page) : list byte :=
  concat [be 4 (h_sig1 src); be 4 (h_leaf src); be 4 (h_nr_keys src); h_pad src; h_sum src; be 4 (h_sig2 src)].

Definition nkfs_btree_node_header_page_by_ondisk (src : list byte) : nkfs_btree_header_page :=
  Header (of_be (field 0 4 src)) (of_be (field 4 4 src)) (of_be (field 8 4 src))
    (field 12 4072 src) (field 4084 8 src) (of_be (field 4092 4 src)).

Definition nkfs_btree_node_key_page_copy (src : list byte) : list byte := src.

(** ** A whole node and its cluster

    [dio_clu_map(clu, offset)] is the page at [offset / PAGE_SIZE]. *)

Definition nkfs_btree_node_by_ondisk (clu : list (list byte)) : pages :=
  Pages (nkfs_btree_node_header_page_by_ondisk (clu !!! disk_header))
    (map (fun i => nkfs_btree_node_key_page_copy (clu !!! disk_keys i)) (seq 0 NKFS_BTREE_KEY_PAGES))
    (map (fun i => nkfs_btree_node_child_page_by_ondisk (clu !!! disk_children i)) (seq 0 NKFS_BTREE_CHILD_PAGES))
    (map (fun i => nkfs_btree_node_value_page_by_ondisk (clu !!! disk_values i)) (seq 0 NKFS_BTREE_VALUE_PAGES)).

Definition nkfs_btree_node_to_ondisk (p : pages) (clu : list (list byte)) : list (list byte) :=
  let clu := <[disk_header := nkfs_btree_node_header_page_to_ondisk (p_header p)]> clu in
  let clu := for_up 0 NKFS_BTREE_KEY_PAGES
    (fun i clu => <[disk_keys i := nkfs_btree_node_key_page_copy (p_keys p !!! i)]> clu) clu in
  let clu := for_up 0 NKFS_BTREE_CHILD_PAGES
    (fun i clu => <[disk_children i := nkfs_btree_node_child_page_to_ondisk (p_children p !!! i)]> clu) clu in
  for_up 0 NKFS_BTREE_VALUE_PAGES
    (fun i clu => <[disk_values i := nkfs_btree_node_value_page_to_ondisk (p_values p !!! i)]> clu) clu.

(** The header in memory up to [offsetof(sum)]. *)
Definition header_prefix (h : nkfs_btree_header_page) : list byte :=
  store e 4 (h_sig1 h) ++ store e 4 (h_leaf h) ++ store e 4 (h_nr_keys h) ++ h_pad h.

(** The checksum of the pages as they are in memory; [ctx] is on the stack. *)
Definition nkfs_btree_node_calc_sum (ctx : csum_ctx) (p : pages) : list byte :=
  store e 8 (csum_digest e (fold_left (csum_update e)
    ([header_prefix (p_header p)] ++ p_keys p ++ p_children p ++ p_values p) (csum_reset ctx))).

Definition with_header (p : pages) (h : nkfs_btree_header_page) : pages :=
  Pages h (p_keys p) (p_children p) (p_values p).

(** ** The node behind the pages *)

Definition bool_Z (b : bool) : Z := if b then 1 else 0.

(** Between [nkfs_btree_node_alloc(1)] and a write only the node's functions
    touch its pages; the padding of the header stays zero. *)
Definition mem_pages (n : node) : pages :=
  Pages (Header (sig1 n) (bool_Z (leaf n)) (Z.of_nat (nr_keys n)) (replicate 4072 Init.Byte.x00)
           (replicate 8 Init.Byte.x00) (sig2 n))
    (map (@concat byte) (slots 256 NKFS_BTREE_KEY_PAGES (keys n)))
    (map (fun o => concat (map (store e 8) (default [] o))) (children n))
    (map (fun vs => concat (map (store e 8) vs)) (slots 512 NKFS_BTREE_VALUE_PAGES (values n))).

Definition pages_node (b : Z) (p : pages) : node :=
  Node (h_sig1 (p_header p)) (h_sig2 (p_header p)) b (negb (h_leaf (p_header p) =? 0))
    (Z.to_nat (h_nr_keys (p_header p)))
    (concat (map (slots 16 256) (p_keys p)))
    (concat (map (fun pg => map (load e) (slots 8 512 pg)) (p_values p)))
    (map (fun pg => Some (map (load e) (slots 8 512 pg))) (p_children p)).

(** What [nkfs_btree_node_write] leaves in the cluster: the header filled in, the
    sum over the pages, then the pages. *)
Definition write_image (ctx : csum_ctx) (n : node) (clu : list (list byte)) : list (list byte) :=
  let p := mem_pages n in
  let h := p_header p in
  let sum := nkfs_btree_node_calc_sum ctx p in
  nkfs_btree_node_to_ondisk
    (with_header p (Header (h_sig1 h) (h_leaf h) (h_nr_keys h) (h_pad h) sum (h_sig2 h))) clu.

(** What [nkfs_btree_node_read] makes of a cluster: [None] when a signature or
    the sum is wrong. *)
Definition read_image (ctx : csum_ctx) (b : Z) (clu : list (list byte)) : option node :=
  let p := nkfs_btree_node_by_ondisk clu in
  let h := p_header p in
  if negb (h_sig1 h =? NKFS_BTREE_SIG1) || negb (h_sig2 h =? NKFS_BTREE_SIG2) then None
  else if bool_decide (nkfs_btree_node_calc_sum ctx p = h_sum h) then Some (pages_node b p)
  else None.

(** ** Pages survive the conversions *)

Lemma slot_by_to bs : length bs = 8%nat -> slot_by_ondisk (slot_to_ondisk bs) = bs.
Proof.
  intros Hl. unfold slot_by_ondisk, slot_to_ondisk. rewrite of_be_be; [by apply store_load|].
  rewrite <- Hl. apply load_bound.
Qed.

Lemma page_by_to src : length src = PAGE_SIZE ->
  concat (map slot_by_ondisk (slots 8 512 (concat (map slot_to_ondisk (slots 8 512 src))))) = src.
Proof.
  intros Hl. assert (F : Forall (fun x : list byte => length x = 8%nat) (slots 8 512 src)) by (by apply Forall_slots).
  rewrite slots_concat'; [|apply Forall_map, Forall_forall; intros; apply be_length|by rewrite length_map, slots_length].
  rewrite map_map. rewrite (map_ext_in _ id); [|].
  - rewrite map_id. by apply concat_slots.
  - intros x Hx. apply slot_by_to. rewrite Forall_forall in F. by apply F, list_elem_of_In.
Qed.

(** A child page of a node as it goes to disk. *)
Lemma page_to_ondisk cs : length cs = 512%nat -> Forall (fun c => 0 <= c < 2 ^ 64) cs ->
  concat (map slot_to_ondisk (slots 8 512 (concat (map (store e 8) cs)))) = concat (map (be 8) cs).
Proof.
  intros Hl F. rewrite slots_concat'; [|apply Forall_map, Forall_forall; intros; apply store_length|by rewrite length_map].
  rewrite map_map. f_equal. apply map_ext_in. intros c Hc. unfold slot_to_ondisk.
  rewrite load_store; [done|]. rewrite Forall_forall in F. by apply F, list_elem_of_In.
Qed.

Lemma header_by_to h : 0 <= h_sig1 h < 2 ^ 32 -> 0 <= h_leaf h < 2 ^ 32 -> 0 <= h_nr_keys h < 2 ^ 32 ->
  0 <= h_sig2 h < 2 ^ 32 -> length (h_pad h) = 4072%nat -> length (h_sum h) = 8%nat ->
  nkfs_btree_node_header_page_by_ondisk (nkfs_btree_node_header_page_to_ondisk h) = h.
Proof.
  destruct h as [s1 lf nr pad sum s2]. cbn [h_sig1 h_leaf h_nr_keys h_sig2 h_pad h_sum].
  intros H1 H2 H3 H4 Hp Hs. unfold nkfs_btree_node_header_page_by_ondisk, nkfs_btree_node_header_page_to_ondisk.
  cbn [h_sig1 h_leaf h_nr_keys h_sig2 h_pad h_sum].
  assert (HB : forall v bs, 0 <= v < 2 ^ 32 -> bs = be 4 v -> of_be bs = v) by (intros v bs Hv ->; by apply of_be_be).
  f_equal.
  - apply HB; [done|]. struct_field 0%nat; done.
  - apply HB; [done|]. struct_field 1%nat; done.
  - apply HB; [done|]. struct_field 2%nat; done.
  - struct_field 3%nat; done.
  - struct_field 4%nat; rewrite ?Hp; done.
  - apply HB; [done|]. struct_field 5%nat; rewrite ?Hp, ?Hs; done.
Qed.

(** ** The image of a node *)

(** A node whose pages are those of the real geometry and whose integers fit. *)
Record disk_ok (n : node) : Prop := {
  disk_pages : pages_ok nkfs_geom n;
  disk_keys_ok : Forall key_ok (keys n);
  disk_values_ok : Forall (fun v => 0 <= v < 2 ^ 64) (values n);
  disk_children_ok : Forall (fun c => 0 <= c < 2 ^ 64) (cflat n);
  disk_nr : Z.of_nat (nr_keys n) < 2 ^ 32;
  disk_sigs : sig1 n = NKFS_BTREE_SIG1 /\ sig2 n = NKFS_BTREE_SIG2
}.

(** The key slots from the fifth page on hold the big-endian block numbers of the
    children in the first three child pages. *)
Definition shared (n : node) : Prop :=
  concat (drop 1024 (keys n)) = concat (map (be 8) (take 1536 (cflat n))).

(** The cluster in full: four key pages, four child pages, four value pages. *)
Lemma to_ondisk_layout p clu : length clu = 16%nat ->
  nkfs_btree_node_to_ondisk p clu =
  nkfs_btree_node_header_page_to_ondisk (p_header p) ::
  map (fun i => p_keys p !!! i) (seq 0 4) ++
  map (fun i => nkfs_btree_node_child_page_to_ondisk (p_children p !!! i)) (seq 0 4) ++
  map (fun i => nkfs_btree_node_value_page_to_ondisk (p_values p !!! i)) (seq 0 4) ++ drop 13 clu.
Proof.
  intros Hl. do 16 (destruct clu as [|? clu]; [done|]). destruct clu; [|done]. reflexivity.
Qed.

(** Reading what was written: the first four key pages, the first three child
    pages in place of the other three, and everything else. *)
Lemma by_ondisk_to p clu : length clu = 16%nat -> length (p_children p) = 4%nat -> length (p_values p) = 4%nat ->
  Forall (fun pg => length pg = PAGE_SIZE) (p_children p) -> Forall (fun pg => length pg = PAGE_SIZE) (p_values p) ->
  (4 <= length (p_keys p))%nat ->
  nkfs_btree_node_by_ondisk (nkfs_btree_node_to_ondisk p clu) =
  Pages (nkfs_btree_node_header_page_by_ondisk (nkfs_btree_node_header_page_to_ondisk (p_header p)))
    (take 4 (p_keys p) ++ map nkfs_btree_node_child_page_to_ondisk (take 3 (p_children p)))
    (p_children p) (p_values p).
Proof.
  intros Hl Hc Hv Fc Fv Hk. rewrite to_ondisk_layout by done. destruct p as [h ks cs vs]. cbn [p_keys p_children p_values p_header] in *.
  do 4 (destruct cs as [|? cs]; [done|]). destruct cs; [|done]. do 4 (destruct vs as [|? vs]; [done|]). destruct vs; [|done].
  do 4 (destruct ks as [|? ks]; [cbn in Hk; lia|]). rewrite !Forall_cons in Fc, Fv.
  destruct Fc as (C1 & C2 & C3 & C4 & _). destruct Fv as (V1 & V2 & V3 & V4 & _).
  unfold nkfs_btree_node_by_ondisk, nkfs_btree_node_key_page_copy, nkfs_btree_node_child_page_by_ondisk, nkfs_btree_node_value_page_by_ondisk,
    nkfs_btree_node_child_page_to_ondisk, nkfs_btree_node_value_page_to_ondisk.
  cbn [seq map app lookup_total list_lookup_total disk_header disk_keys disk_children disk_values Nat.add NKFS_BTREE_KEY_PAGES
    NKFS_BTREE_CHILD_PAGES NKFS_BTREE_VALUE_PAGES take].
  rewrite !page_by_to by done. reflexivity.
Qed.

Lemma unpack_u64 vs : length vs = 512%nat -> Forall (fun v => 0 <= v < 2 ^ 64) vs ->
  map (load e) (slots 8 512 (concat (map (store e 8) vs))) = vs.
Proof.
  intros Hl F. rewrite slots_concat'; [|apply Forall_map, Forall_forall; intros; apply store_length|by rewrite length_map].
  rewrite map_map. etransitivity; [|apply map_id]. apply map_ext_in. intros v Hv. apply load_store.
  rewrite Forall_forall in F. by apply F, list_elem_of_In.
Qed.

Lemma pack_u64_length vs : length vs = 512%nat -> length (concat (map (store e 8) vs)) = PAGE_SIZE.
Proof.
  intros Hl. rewrite (length_concat_const 8); [by rewrite length_map, Hl|].
  apply Forall_map, Forall_forall. intros; apply store_length.
Qed.

Lemma pack_be_length vs : length vs = 512%nat -> length (concat (map (be 8) vs)) = PAGE_SIZE.
Proof.
  intros Hl. rewrite (length_concat_const 8); [by rewrite length_map, Hl|].
  apply Forall_map, Forall_forall. intros; apply be_length.
Qed.

Lemma pack_keys_length ks : length ks = 256%nat -> Forall key_ok ks -> length (concat ks) = PAGE_SIZE.
Proof. intros Hl F. rewrite (length_concat_const 16); [by rewrite Hl|done]. Qed.

Lemma Forall_slots_of {A} (P : A -> Prop) w n (l : list A) : Forall P l -> Forall (Forall P) (slots w n l).
Proof. intros F. apply Forall_map, Forall_forall. intros i _. unfold slot. by apply Forall_take, Forall_drop. Qed.

Lemma map_id_Forall {A} (f : A -> A) l : Forall (fun x => f x = x) l -> map f l = l.
Proof. induction 1 as [|x l Hx _ IH]; [done|]. cbn. by rewrite Hx, IH. Qed.

(** The child pages, all there. *)
Lemma children_pages n : disk_ok n -> exists cps, children n = map Some cps /\ cflat n = concat cps /\
  length cps = 4%nat /\ Forall (fun cs => length cs = 512%nat) cps /\ Forall (Forall (fun c => 0 <= c < 2 ^ 64)) cps.
Proof.
  intros D. pose proof (disk_children_ok _ D) as F. pose proof (disk_pages _ D) as P.
  pose proof (pages_children _ _ P) as L. pose proof (pages_forall _ _ P) as E.
  cut (exists cps, children n = map Some cps /\ Forall (fun cs => length cs = 512%nat) cps).
  { intros (cps & Ec & E2). exists cps.
    assert (E1 : cflat n = concat cps) by (unfold cflat; rewrite Ec, map_map; by rewrite map_id).
    rewrite E1, Forall_concat in F. rewrite Ec, length_map in L. done. }
  clear F L P D. induction E as [|o cs (pg & -> & Hl) _ (cps & -> & IH)]; [by exists []|].
  exists (pg :: cps). split; [done|]. by constructor.
Qed.

(** All pages of a node in memory are whole. *)
Lemma mem_pages_ok n : disk_ok n ->
  length (p_keys (mem_pages n)) = 7%nat /\ Forall (fun pg => length pg = PAGE_SIZE) (p_keys (mem_pages n)) /\
  length (p_children (mem_pages n)) = 4%nat /\ Forall (fun pg => length pg = PAGE_SIZE) (p_children (mem_pages n)) /\
  length (p_values (mem_pages n)) = 4%nat /\ Forall (fun pg => length pg = PAGE_SIZE) (p_values (mem_pages n)).
Proof.
  intros D. destruct (children_pages n D) as (cps & Ec & _ & Lc & Fc & _).
  pose proof (disk_pages _ D) as P. pose proof (pages_keys _ _ P) as Lk. pose proof (pages_values _ _ P) as Lv.
  cbn [mem_pages p_keys p_children p_values]. rewrite Ec, !length_map, !slots_length.
  split; [done|]. split; [|split; [done|]; split; [|split; [done|]]].
  - apply Forall_map. apply (Forall_impl (fun x => length x = 256%nat /\ Forall key_ok x)).
    + apply Forall_and. split; [by apply Forall_slots|]. apply Forall_slots_of, D.
    + intros x [H1 H2]. by apply pack_keys_length.
  - rewrite map_map. apply Forall_map. eapply Forall_impl; [exact Fc|]. intros cs Hl. by apply pack_u64_length.
  - apply Forall_map. eapply Forall_impl; [by apply Forall_slots|]. intros vs Hl. by apply pack_u64_length.
Qed.

(** Nothing of a node is lost in its pages. *)
Lemma pages_node_mem n p : disk_ok n -> p_keys p = p_keys (mem_pages n) -> p_children p = p_children (mem_pages n) ->
  p_values p = p_values (mem_pages n) -> h_sig1 (p_header p) = sig1 n -> h_sig2 (p_header p) = sig2 n ->
  h_leaf (p_header p) = bool_Z (leaf n) -> h_nr_keys (p_header p) = Z.of_nat (nr_keys n) ->
  pages_node (block n) p = n.
Proof.
  intros D Hk Hc Hv H1 H2 H3 H4. destruct (children_pages n D) as (cps & Ec & _ & Lc & Fc & Bc).
  pose proof (disk_pages _ D) as P. pose proof (pages_keys _ _ P) as Lk. pose proof (pages_values _ _ P) as Lv.
  unfold pages_node. rewrite Hk, Hc, Hv, H1, H2, H3, H4, Nat2Z.id. cbn [mem_pages p_keys p_children p_values].
  assert (EK : concat (map (slots 16 256) (map (@concat byte) (slots 256 NKFS_BTREE_KEY_PAGES (keys n)))) = keys n).
  { rewrite map_map, map_id_Forall; [by apply concat_slots|].
    apply (Forall_impl (fun x => length x = 256%nat /\ Forall key_ok x)).
    - apply Forall_and. split; [by apply Forall_slots|]. apply Forall_slots_of, D.
    - intros x [L1 L2]. by apply slots_concat'. }
  assert (EV : concat (map (fun pg => map (load e) (slots 8 512 pg))
      (map (fun vs => concat (map (store e 8) vs)) (slots 512 NKFS_BTREE_VALUE_PAGES (values n)))) = values n).
  { rewrite map_map, map_id_Forall; [by apply concat_slots|].
    apply (Forall_impl (fun x => length x = 512%nat /\ Forall (fun v => 0 <= v < 2 ^ 64) x)).
    - apply Forall_and. split; [by apply Forall_slots|]. apply Forall_slots_of, D.
    - intros x [L1 L2]. by apply unpack_u64. }
  assert (EC : map (fun pg => Some (map (load e) (slots 8 512 pg)))
      (map (fun o => concat (map (store e 8) (default [] o))) (children n)) = children n).
  { rewrite Ec, !map_map. apply map_ext_in. intros cs Hin%list_elem_of_In. cbn [default]. f_equal.
    rewrite Forall_forall in Fc, Bc. apply unpack_u64; [by apply Fc|by apply Bc]. }
  rewrite EK, EV, EC. destruct n as [s1 s2 b lf nr ks vs cs]; cbn. by destruct lf.
Qed.

Lemma concat_concat {A} (xs : list (list (list A))) : concat (map (@concat A) xs) = concat (concat xs).
Proof. induction xs as [|x xs IH]; [done|]. cbn. by rewrite IH, concat_app. Qed.

Lemma concat_drop_slots {A} w k n (l : list A) : length l = (w * n)%nat -> (k <= n)%nat ->
  concat (drop k (slots w n l)) = drop (w * k) l.
Proof.
  revert n l. induction k as [|k IH]; intros n l Hl Hk.
  - rewrite Nat.mul_0_r, !drop_0. by apply concat_slots.
  - destruct n as [|n]; [lia|]. rewrite slots_S. cbn [drop]. rewrite IH by (rewrite ?length_drop; lia).
    rewrite drop_drop. f_equal. lia.
Qed.

(** [shared] in terms of pages. *)
Lemma shared_pages n : disk_ok n ->
  shared n <-> drop 4 (p_keys (mem_pages n)) = map nkfs_btree_node_child_page_to_ondisk (take 3 (p_children (mem_pages n))).
Proof.
  intros D. destruct (mem_pages_ok n D) as (Lk & Fk & Lc & Fc & _). destruct (children_pages n D) as (cps & Ec & Ef & Lp & Fp & Bp).
  assert (E1 : concat (drop 4 (p_keys (mem_pages n))) = concat (drop 1024 (keys n))).
  { cbn [mem_pages p_keys]. rewrite skipn_map, concat_concat. f_equal.
    apply (concat_drop_slots 256 4 7); [apply (pages_keys _ _ (disk_pages _ D))|lia]. }
  assert (E2 : map nkfs_btree_node_child_page_to_ondisk (take 3 (p_children (mem_pages n))) = map (fun cs => concat (map (be 8) cs)) (take 3 cps)).
  { cbn [mem_pages p_children]. rewrite Ec, map_map, firstn_map, map_map. apply map_ext_in. intros cs Hin.
    apply list_elem_of_In in Hin. rewrite Forall_forall in Fp, Bp.
    assert (cs ∈ cps) by (rewrite <- (take_drop 3 cps); apply elem_of_app; by left).
    apply page_to_ondisk; [by apply Fp|by apply Bp]. }
  assert (E3 : concat (map (fun cs => concat (map (be 8) cs)) (take 3 cps)) = concat (map (be 8) (take 1536 (cflat n)))).
  { rewrite Ef. clear -Lp Fp. do 4 (destruct cps as [|? cps]; [done|]). destruct cps; [|done].
    rewrite !Forall_cons in Fp. destruct Fp as (A1 & A2 & A3 & A4 & _). cbn [concat take map].
    rewrite !app_nil_r. rewrite (app_assoc l0), (app_assoc l). rewrite take_app_length' by (rewrite !length_app; lia).
    by rewrite !map_app, !concat_app. }
  unfold shared. rewrite <- E1, <- E3, E2. split; [|by intros ->]. apply (concat_inj_const PAGE_SIZE).
  - by apply Forall_drop.
  - apply Forall_map. eapply Forall_impl; [apply Forall_take, Fp|]. intros cs Hl. by apply pack_be_length.
  - rewrite length_map, length_drop, length_take, Lk, Lp. done.
Qed.

(** The sum does not depend on what the stack held. *)
Lemma calc_sum_value ctx p : length (mem64 ctx) = 32%nat ->
  Z.of_nat (length (concat ([header_prefix (p_header p)] ++ p_keys p ++ p_children p ++ p_values p))) < 2 ^ 64 ->
  nkfs_btree_node_calc_sum ctx p =
  store e 8 (csum_xxh64 (concat ([header_prefix (p_header p)] ++ p_keys p ++ p_children p ++ p_values p))).
Proof. intros Hm Hl. unfold nkfs_btree_node_calc_sum. by rewrite csum_feed_xxh64. Qed.

(** The pages of a node fill less than a cluster. *)
Lemma mem_pages_size n h : disk_ok n -> length (h_pad h) = 4072%nat ->
  Z.of_nat (length (concat ([header_prefix h] ++ p_keys (mem_pages n) ++ p_children (mem_pages n) ++ p_values (mem_pages n)))) < 2 ^ 64.
Proof.
  intros D Hp. destruct (mem_pages_ok n D) as (Lk & Fk & Lc & Fc & Lv & Fv). cbn [app concat].
  rewrite !concat_app, !length_app, !(length_concat_const PAGE_SIZE) by done. rewrite Lk, Lc, Lv.
  unfold header_prefix. rewrite !length_app, !store_length, Hp. vm_compute. reflexivity.
Qed.

(** What a reader finds in the cluster a node was written to. *)
Lemma read_write_pages ctx n clu : disk_ok n -> length clu = 16%nat ->
  exists p, nkfs_btree_node_by_ondisk (write_image ctx n clu) = p /\
  p_header p = Header (sig1 n) (bool_Z (leaf n)) (Z.of_nat (nr_keys n)) (replicate 4072 Init.Byte.x00)
    (nkfs_btree_node_calc_sum ctx (mem_pages n)) (sig2 n) /\
  p_keys p = take 4 (p_keys (mem_pages n)) ++ map nkfs_btree_node_child_page_to_ondisk (take 3 (p_children (mem_pages n))) /\
  p_children p = p_children (mem_pages n) /\ p_values p = p_values (mem_pages n).
Proof.
  intros D Hl. destruct (mem_pages_ok n D) as (Lk & Fk & Lc & Fc & Lv & Fv). destruct (disk_sigs _ D) as [S1 S2].
  eexists. split; [reflexivity|]. unfold write_image. rewrite by_ondisk_to by (cbn [with_header p_keys p_children p_values]; try done; lia).
  cbn [with_header p_header p_keys p_children p_values]. split; [|done].
  rewrite header_by_to; cbn [mem_pages p_header h_sig1 h_sig2 h_leaf h_nr_keys h_pad h_sum]; rewrite ?S1, ?S2; try done.
  - by destruct (leaf n).
  - pose proof (disk_nr _ D). lia.
  - apply store_length.
Qed.

(** A node is read back exactly when its hidden key slots are what the child
    pages put in their place. *)
Lemma read_write_iff ctx ctx' n clu : disk_ok n -> length clu = 16%nat -> length (mem64 ctx) = 32%nat -> length (mem64 ctx') = 32%nat ->
  read_image ctx' (block n) (write_image ctx n clu) = Some n <-> shared n.
Proof.
  intros D Hl Hm Hm'. destruct (read_write_pages ctx n clu D Hl) as (p & Ep & Hh & Hk & Hc & Hv).
  destruct (mem_pages_ok n D) as (Lk & Fk & Lc & Fc & Lv & Fv). destruct (disk_sigs _ D) as [S1 S2].
  rewrite (shared_pages n D). unfold read_image. rewrite Ep, Hh. cbn [h_sig1 h_sig2 h_sum]. rewrite S1, S2, !Z.eqb_refl. cbn [negb orb].
  split.
  - case_bool_decide; [|done]. intros [= E]. apply (f_equal keys) in E. cbn [pages_node keys] in E. rewrite Hk in E.
    assert (En : concat (map (slots 16 256) (p_keys (mem_pages n))) = keys n).
    { pose proof (pages_node_mem n (mem_pages n) D) as En. cbn [mem_pages p_header h_sig1 h_sig2 h_leaf h_nr_keys] in En.
      specialize (En eq_refl eq_refl eq_refl eq_refl eq_refl eq_refl eq_refl). by apply (f_equal keys) in En. }
    rewrite <- En in E.
    assert (FS : forall xs : list (list byte), Forall (fun x => length x = 256%nat) (map (slots 16 256) xs)).
    { intros xs. apply Forall_map, Forall_forall. intros; apply slots_length. }
    apply (concat_inj_const 256) in E; [|apply FS..|].
    2:{ rewrite !length_map, length_app, length_map, !length_take, Lk, Lc. done. }
    assert (FC : Forall (fun pg => length pg = PAGE_SIZE) (map nkfs_btree_node_child_page_to_ondisk (take 3 (p_children (mem_pages n))))).
    { apply Forall_map, Forall_forall. intros pg _. unfold nkfs_btree_node_child_page_to_ondisk.
      rewrite (length_concat_const 8); [by rewrite length_map, slots_length|]. apply Forall_map, Forall_forall. intros; apply be_length. }
    apply (f_equal (map (@concat byte))) in E. rewrite !map_map in E.
    rewrite (map_id_Forall _ (p_keys (mem_pages n))) in E by (eapply Forall_impl; [exact Fk|]; intros; by apply concat_slots).
    rewrite map_id_Forall in E.
    2:{ eapply Forall_impl; [apply Forall_app; split; [apply Forall_take, Fk|exact FC]|]. intros; by apply concat_slots. }
    rewrite <- (take_drop 4 (p_keys (mem_pages n))) in E at 2. by apply app_inv_head in E.
  - intros Es. assert (Hk' : p_keys p = p_keys (mem_pages n)) by (rewrite Hk, <- Es; apply take_drop).
    rewrite bool_decide_true.
    + f_equal. apply pages_node_mem; rewrite ?Hh; done.
    + rewrite !calc_sum_value; rewrite ?Hk', ?Hc, ?Hv; try done; [by rewrite Hh| |].
      * by apply mem_pages_size.
      * rewrite Hh. apply mem_pages_size; [done|]. cbn [h_pad]. by apply length_replicate.
Qed.

(** ** Which nodes survive *)

#[global] Instance node_eq_dec : EqDecision node.
Proof. solve_decision. Defined.

Definition stack_ctx : csum_ctx := State64 0 0 (XXH64_accs_init 0) (replicate 32 Init.Byte.x00) 0.

Definition reads_back (n : node) : bool :=
  bool_decide (read_image stack_ctx (block n) (write_image stack_ctx n (replicate 16 (replicate PAGE_SIZE Init.Byte.x00))) = Some n).

Lemma reads_back_shared n : disk_ok n -> reads_back n = true <-> shared n.
Proof.
  intros D. unfold reads_back. rewrite bool_decide_eq_true. by apply read_write_iff.
Qed.

(** (C29) What [nkfs_btree_node_write] leaves in a cluster [nkfs_btree_node_read]
    accepts and turns into the same node, on any CPU and whatever the checksum
    context held before, if and only if the key slots from 1024 on are the image
    of the child slots before 1536, the bytes that overwrite them. *)
Theorem nkfs_btree_node_read_back_iff ctx ctx' n clu :
  disk_ok n -> length clu = 16%nat -> length (mem64 ctx) = 32%nat -> length (mem64 ctx') = 32%nat ->
  read_image ctx' (block n) (write_image ctx n clu) = Some n <-> shared n.
Proof. apply read_write_iff. Qed.

(** A leaf none of whose key slots from 1024 on is used. *)
Lemma shared_small n : take 1536 (cflat n) = replicate 1536 0 -> drop 1024 (keys n) = replicate 768 zero_key -> shared n.
Proof. intros E1 E2. unfold shared. rewrite E1, E2. vm_compute. reflexivity. Qed.

End Endian.

(** ** Keys and values from integers *)

(** A key of the trees of an inode is a block number in the byte order of the
    CPU, padded with zeros. *)
Definition nkfs_btree_key_by_u64 (e : XXH_endianess) (val : Z) : list byte :=
  memcpy_at (replicate 16 Init.Byte.x00) 0 (store e 8 val).

Definition nkfs_btree_key_to_u64 (e : XXH_endianess) (k : list byte) : Z := load e (take 8 k).

Definition nkfs_btree_value_by_u64 (val : Z) : Z := val.
Definition nkfs_btree_value_to_u64 (value : Z) : Z := value.

Lemma key_by_u64_ok e val : key_ok (nkfs_btree_key_by_u64 e val).
Proof. unfold key_ok, nkfs_btree_key_by_u64. rewrite memcpy_at_length; [done|]. rewrite store_length. cbn. lia. Qed.

Lemma key_to_by_u64 e val : 0 <= val < 2 ^ 64 -> nkfs_btree_key_to_u64 e (nkfs_btree_key_by_u64 e val) = val.
Proof.
  intros Hv. unfold nkfs_btree_key_to_u64, nkfs_btree_key_by_u64, memcpy_at. rewrite take_0, app_nil_l.
  rewrite take_app_length' by (by rewrite store_length). by apply load_store.
Qed.

Lemma key_by_u64_inj e x y : 0 <= x < 2 ^ 64 -> 0 <= y < 2 ^ 64 ->
  nkfs_btree_key_by_u64 e x = nkfs_btree_key_by_u64 e y -> x = y.
Proof. intros Hx Hy E. rewrite <- (key_to_by_u64 e x), <- (key_to_by_u64 e y) by done. by rewrite E. Qed.

(** ** Examples *)

Definition leaf_node : node :=
  set_nr_keys 1 (set_leaf true (set_keys (nkfs_btree_key_by_u64 XXH_littleEndian 7 :: replicate 1791 zero_key)
    (set_block 5 (nkfs_btree_node_alloc_node nkfs_geom)))).

Lemma alloc_node_disk_ok b ks : length ks = 1792%nat -> Forall key_ok ks -> forall k l, Z.of_nat k < 2 ^ 32 ->
  disk_ok (set_nr_keys k (set_leaf l (set_keys ks (set_block b (nkfs_btree_node_alloc_node nkfs_geom))))).
Proof.
  intros Hl F k l Hk. split; cbn [keys values nr_keys sig1 sig2 set_nr_keys set_leaf set_keys set_block nkfs_btree_node_alloc_node]; try done.
  - split; cbn [keys values children set_nr_keys set_leaf set_keys set_block nkfs_btree_node_alloc_node]; try done.
    intros p Hp. exists (replicate 512 0). split; [by apply lookup_total_replicate_2|by rewrite length_replicate].
  - by apply Forall_replicate.
  - apply Forall_concat, Forall_map, Forall_replicate. by apply Forall_replicate.
Qed.

Lemma leaf_node_ok : disk_ok leaf_node.
Proof.
  apply alloc_node_disk_ok; [done| |done]. constructor; [apply key_by_u64_ok|]. by apply Forall_replicate.
Qed.

Lemma nkfs_btree_node_read_back_iff_witness :
  read_image XXH_littleEndian stack_ctx 5 (write_image XXH_littleEndian stack_ctx leaf_node (replicate 16 [])) = Some leaf_node.
Proof.
  apply (nkfs_btree_node_read_back_iff XXH_littleEndian stack_ctx stack_ctx leaf_node); [apply leaf_node_ok|done..|].
  apply shared_small; vm_compute; reflexivity.
Defined.

End BtreeDisk.
