(* ===== verification/BlockTree.v ===== *)
(** * What the superblock and the inodes ask of trees and of the allocator

    The interface between src/core/inode.c, src/core/super.c and the B-tree: a
    store of blocks, trees in it, and the operations on both.  [t_rep t st b m]
    says that the tree [t] stands for the map [m] (keys as 128-bit numbers) and
    that [b] is the one block it occupies: the laws are those of trees of at most
    [t_cap] keys, which have a single node.  Of these a node of at most [t_safe]
    keys is certain to be read back from the disk: on the layout of
    include/nkfs_image.h that is 1024 of the 1791 keys a node can hold.  Larger
    trees are the subject of BtreeSpec and BtreeDelete. *)

From Stdlib Require Import ZArith Lia.
From coqutil Require Import Byte.
From stdpp Require Import base list gmap.
From S2P Require Import Prelude BtreeNode BtreeNodeSpec.
Import BtreeNode BtreeNodeSpec.
Local Open Scope Z_scope.

Class BlockTree (T St : Type) := {
  (* the allocator *)
  st_alloc : St -> outcome (Z * Z * St);
  st_free : Z -> St -> outcome (Z * St);
  st_used : St -> gset Z;
  st_size : St -> Z;
  (* [used_blocks] *)
  st_count : St -> Z;
  st_ok : St -> Prop;
  (* so many allocations will succeed *)
  st_room : St -> nat -> Prop;
  (* the trees *)
  t_cap : nat;
  (* a root of no more keys can be read back, a root of up to [t_cap] may not *)
  t_safe : nat;
  t_create : Z -> St -> outcome (option T * St);
  t_root_block : T -> outcome Z;
  t_find : list byte -> T -> St -> outcome (Z * option Z * T * St);
  t_insert : list byte -> Z -> bool -> T -> St -> outcome (Z * T * St);
  t_delete : list byte -> T -> St -> outcome (Z * T * St);
  t_erase : T -> St -> outcome (T * St);
  t_stop : T -> T;
  t_deref : T -> St -> outcome St;
  t_rep : T -> St -> Z -> gmap Z Z -> Prop;
  (* the node in that block can be read back from the disk *)
  t_good : St -> Z -> bool;

  (* [t_erase] calls back for every value, which frees that block *)

  t_safe_cap : (t_safe <= t_cap)%nat;
  st_size_ok st : st_ok st -> st_size st < 2 ^ 64;
  st_count_ok st : st_ok st -> st_count st = Z.of_nat (size (st_used st)) /\ st_count st <= st_size st;
  st_room_mono st n : st_room st (S n) -> st_room st n;
  st_alloc_ok st : st_ok st -> exists err x st', st_alloc st = Ret (err, x, st') /\
    st_ok st' /\ st_size st' = st_size st /\ st_used st ⊆ st_used st' /\
    (forall t b m, t_rep t st b m -> t_rep t st' b m) /\
    ((err = 0 /\ 0 < x < st_size st /\ x ∉ st_used st /\ x ∈ st_used st') \/ err < 0) /\
    (forall n, st_room st (S n) -> err = 0 /\ st_room st' n);
  st_free_ok x st : st_ok st -> x ∈ st_used st -> 0 < x -> exists err st', st_free x st = Ret (err, st') /\
    st_ok st' /\ st_size st' = st_size st /\ st_used st ∖ {[x]} ⊆ st_used st' /\ st_used st' ⊆ st_used st /\
    (forall t b m, t_rep t st b m -> b <> x -> t_rep t st' b m);
  t_rep_used t st b m : t_rep t st b m -> b ∈ st_used st /\ 0 < b < st_size st /\ (size m <= t_cap)%nat;
  t_create_ok st : st_ok st -> exists r st', t_create 0 st = Ret (r, st') /\
    st_ok st' /\ st_size st' = st_size st /\ st_used st ⊆ st_used st' /\
    (forall t b m, t_rep t st b m -> t_rep t st' b m) /\
    (match r with
    | Some t => exists b, b ∉ st_used st /\ t_rep t st' b ∅ /\ t_root_block t = Ret b
    | None => True
    end) /\
    (forall n, st_room st (S n) -> is_Some r /\ st_room st' n);
  t_open_ok t st b m : st_ok st -> t_rep t st b m -> t_good st b = true -> exists t', t_create b st = Ret (Some t', st) /\ t_rep t' st b m;
  t_good_ok t st b m : t_rep t st b m -> (size m <= t_safe)%nat -> t_good st b = true;
  t_find_ok k t st b m : key_ok k -> t_rep t st b m ->
    exists t', t_find k t st = Ret (match m !! key_val k with Some v => (0, Some v) | None => (- ENOENT, None) end, t', st) /\
    t_rep t' st b m;
  t_insert_ok k v t st b m : key_ok k -> 0 <= v < 2 ^ 64 -> st_ok st -> t_rep t st b m -> m !! key_val k = None -> (size m < t_cap)%nat ->
    exists t' st', t_insert k v false t st = Ret (0, t', st') /\
    st_ok st' /\ st_size st' = st_size st /\ st_used st' = st_used st /\ (forall n, st_room st n -> st_room st' n) /\
    t_rep t' st' b (<[key_val k := v]> m) /\
    (forall t2 b2 m2, t_rep t2 st b2 m2 -> b2 <> b -> t_rep t2 st' b2 m2);
  t_deref_ok t st b m : t_rep t st b m -> t_deref t st = Ret st
}.
