(* ===== verification/Btree.v ===== *)
(** * The B-tree (the tree operations of src/core/btree.c)

    State: the node objects in memory with their reference counts, addressed by
    pointer; [nodes], the tree's index from block to object (the red-black tree
    [tree->nodes]); what a read of a block finds on disk; the block allocator,
    through the interface [BlockAlloc].  Two oracles decide which allocations
    and reads fail ([rfail]) and how writes end ([wfail]), so a statement about
    an operation covers every pattern of failures.

    [disk] holds the node last written at a block, and [reads_back] tells whether
    the bytes written for a node read back as that node with the right checksum:
    BtreeDisk computes it from the layout of the image, and not all nodes pass.

    A call either finishes, or crashes ([NKFS_BUG_ON], a null or dangling
    pointer, an index outside an array), or has used up the fuel of an
    unbounded loop.  Locks are not modelled: operations on one tree exclude each
    other through [tree->rw_lock], and the state is what the lock protects. *)

From Stdlib Require Import ZArith Lia.
From coqutil Require Import Byte.
From stdpp Require Import base list gmap.
From S2P Require Import Prelude StMonad BtreeNode.
Import StMonad BtreeNode.
Local Open Scope Z_scope.
Local Open Scope stm_scope.

(** What the tree relies on from the block allocator (src/core/balloc.c). *)
Class BlockAlloc (B : Type) := {
  ba_alloc : B -> outcome (option Z * B);
  ba_free : Z -> B -> outcome (Z * B);
  ba_used : B -> gset Z;
  ba_size : B -> Z;
  ba_ok : B -> Prop;
  ba_alloc_ok b : ba_ok b -> exists r b', ba_alloc b = Ret (r, b') /\
    ba_ok b' /\ ba_used b ⊆ ba_used b' /\ ba_size b' = ba_size b /\
    match r with
    | Some x => 0 < x < ba_size b /\ x ∉ ba_used b /\ x ∈ ba_used b'
    | None => True
    end;
  ba_free_ok x b : ba_ok b -> x ∈ ba_used b -> 0 < x -> exists r b', ba_free x b = Ret (r, b') /\
    ba_ok b' /\ ba_used b ∖ {[x]} ⊆ ba_used b' /\ ba_used b' ⊆ ba_used b /\ ba_size b' = ba_size b
}.

Module Btree.

(** ** State and monad *)

(** How [nkfs_btree_node_write] ends: written; no cluster (nothing changed);
    the cluster changed but its sync failed. *)
Inductive wres := WOk | WGet | WSync.

Section Tree.
Context {B : Type} `{BlockAlloc B}.

Record state := State {
  objs : gmap nat (node * nat);
  next : nat;
  nodes : gmap Z nat;
  nodes_active : Z;
  root : nat;
  releasing : bool;
  tref : Z;
  disk : gmap Z node;
  bal : B;
  rfail : nat -> bool; rtick : nat;
  wfail : nat -> wres; wtick : nat;
  reads_back : node -> bool
}.

Definition with_objs (o : gmap nat (node * nat)) (s : state) : state :=
  State o (next s) (nodes s) (nodes_active s) (root s) (releasing s) (tref s) (disk s) (bal s)
    (rfail s) (rtick s) (wfail s) (wtick s) (reads_back s).
Definition with_nodes (n : gmap Z nat) (a : Z) (s : state) : state :=
  State (objs s) (next s) n a (root s) (releasing s) (tref s) (disk s) (bal s)
    (rfail s) (rtick s) (wfail s) (wtick s) (reads_back s).
Definition with_disk (d : gmap Z node) (s : state) : state :=
  State (objs s) (next s) (nodes s) (nodes_active s) (root s) (releasing s) (tref s) d (bal s)
    (rfail s) (rtick s) (wfail s) (wtick s) (reads_back s).
Definition with_bal (b : B) (s : state) : state :=
  State (objs s) (next s) (nodes s) (nodes_active s) (root s) (releasing s) (tref s) (disk s) b
    (rfail s) (rtick s) (wfail s) (wtick s) (reads_back s).
Definition with_root (p : nat) (s : state) : state :=
  State (objs s) (next s) (nodes s) (nodes_active s) p (releasing s) (tref s) (disk s) (bal s)
    (rfail s) (rtick s) (wfail s) (wtick s) (reads_back s).
Definition with_releasing (r : bool) (s : state) : state :=
  State (objs s) (next s) (nodes s) (nodes_active s) (root s) r (tref s) (disk s) (bal s)
    (rfail s) (rtick s) (wfail s) (wtick s) (reads_back s).
Definition with_tref (r : Z) (s : state) : state :=
  State (objs s) (next s) (nodes s) (nodes_active s) (root s) (releasing s) r (disk s) (bal s)
    (rfail s) (rtick s) (wfail s) (wtick s) (reads_back s).
Definition with_rtick (t : nat) (s : state) : state :=
  State (objs s) (next s) (nodes s) (nodes_active s) (root s) (releasing s) (tref s) (disk s) (bal s)
    (rfail s) t (wfail s) (wtick s) (reads_back s).
Definition with_wtick (t : nat) (s : state) : state :=
  State (objs s) (next s) (nodes s) (nodes_active s) (root s) (releasing s) (tref s) (disk s) (bal s)
    (rfail s) (rtick s) (wfail s) t (reads_back s).
Definition new_obj (p : nat) (n : node) (s : state) : state :=
  State (<[p := (n, 1%nat)]> (objs s)) (S p) (nodes s) (nodes_active s) (root s) (releasing s)
    (tref s) (disk s) (bal s) (rfail s) (rtick s) (wfail s) (wtick s) (reads_back s).

Abbreviation M := (StMonad.M state).

(** The object behind a pointer; a freed one may not be touched. *)
Definition get (p : nat) : M node := fun s =>
  match objs s !! p with
  | Some (n, _) => Done n s
  | None => Crash
  end.

Definition put (p : nat) (n : node) : M unit := fun s =>
  match objs s !! p with
  | Some (_, r) => Done tt (with_objs (<[p := (n, r)]> (objs s)) s)
  | None => Crash
  end.

(** Whether the next allocation or read fails. *)
Definition rfails : M bool := fun s => Done (rfail s (rtick s)) (with_rtick (S (rtick s)) s).

Definition wends : M wres := fun s => Done (wfail s (wtick s)) (with_wtick (S (wtick s)) s).

Context (G : geom).

(** ** Objects and the index *)

Definition nkfs_btree_node_free (p : nat) : M unit := fun s =>
  match objs s !! p with
  | Some _ => Done tt (with_objs (delete p (objs s)) s)
  | None => Crash
  end.

(** [n] is what the pages hold; [nkfs_btree_node_alloc(1)] zeroes them. *)
Definition nkfs_btree_node_alloc (n : node) : M (option nat) :=
  let* f := rfails in
  if (f : bool) then ret None
  else fun s => Done (Some (next s)) (new_obj (next s) n s).

Definition nkfs_btree_node_ref (p : nat) : M unit := fun s =>
  match objs s !! p with
  | Some (n, S r) => Done tt (with_objs (<[p := (n, S (S r))]> (objs s)) s)
  | _ => Crash
  end.

Definition nkfs_btree_nodes_remove (p : nat) : M unit :=
  let* n := get p in
  if block n =? 0 then ret tt
  else
    let* found := gets (fun s => nodes s !! block n) in
    match found with
    | None => ret tt
    | Some q =>
        do* BUG_ON (negb (q =? p)%nat) in
        modify (fun s => with_nodes (delete (block n) (nodes s)) (nodes_active s - 1) s)
    end.

Definition nkfs_btree_node_release (p : nat) : M unit :=
  do* nkfs_btree_nodes_remove p in nkfs_btree_node_free p.

Definition nkfs_btree_node_deref (p : nat) : M unit := fun s =>
  match objs s !! p with
  | Some (n, S r) =>
      let s := with_objs (<[p := (n, r)]> (objs s)) s in
      if (r =? 0)%nat then nkfs_btree_node_release p s else Done tt s
  | _ => Crash
  end.

(** [if (node != first) NKFS_BTREE_NODE_DEREF(node)]. *)
Definition deref_unless (p first : nat) : M unit :=
  if (p =? first)%nat then ret tt else nkfs_btree_node_deref p.

Definition nkfs_btree_nodes_lookup (b : Z) : M (option nat) :=
  let* found := gets (fun s => nodes s !! b) in
  match found with
  | None => ret None
  | Some p => do* nkfs_btree_node_ref p in ret (Some p)
  end.

Definition nkfs_btree_nodes_insert (p : nat) : M nat :=
  let* n := get p in
  let* found := gets (fun s => nodes s !! block n) in
  match found with
  | Some q => do* nkfs_btree_node_ref q in ret q
  | None =>
      do* modify (fun s => with_nodes (<[block n := p]> (nodes s)) (nodes_active s + 1) s) in
      do* nkfs_btree_node_ref p in ret p
  end.

(** ** Reading, writing, creating and deleting nodes *)

Definition bad_block (b : Z) : M bool := gets (fun s => (b =? 0) || (ba_size (bal s) <=? b)).

(** The image found at the block is checked against its signatures and its
    checksum; a cluster that cannot be read is an [rfail].  [reads_back] says
    whether the node that was written comes back from its place on disk; where it
    does not, the read fails: that what is read then has the 64-bit checksum of
    what was written, by chance, and is used is left out.  The first assertion,
    [sizeof(struct nkfs_btree_node_disk) > bsize], compares two constants of the
    build (13 pages with 64 KB) and is left out. *)
Definition nkfs_btree_node_read (b : Z) : M (option nat) :=
  let* bad := bad_block b in
  do* BUG_ON bad in
  let* found := nkfs_btree_nodes_lookup b in
  match found with
  | Some p => ret (Some p)
  | None =>
      let* image := gets (fun s => disk s !! b) in
      let* r := nkfs_btree_node_alloc (set_block b (default (nkfs_btree_node_alloc_node G) image)) in
      match r with
      | None => ret None
      | Some p =>
          let* f := rfails in
          let* n := get p in
          let* rb := gets reads_back in
          if (f : bool) || negb (bool_decide (is_Some image)) || negb (rb n)
             || negb (sig1 n =? NKFS_BTREE_SIG1) || negb (sig2 n =? NKFS_BTREE_SIG2) then
            do* nkfs_btree_node_free p in ret None
          else
            let* inserted := nkfs_btree_nodes_insert p in
            if negb (p =? inserted)%nat then
              do* nkfs_btree_node_free p in ret (Some inserted)
            else
              do* nkfs_btree_node_deref inserted in ret (Some p)
      end
  end.

Definition nkfs_btree_node_write (p : nat) : M Z :=
  let* n := get p in
  do* BUG_ON (negb (sig1 n =? NKFS_BTREE_SIG1) || negb (sig2 n =? NKFS_BTREE_SIG2)) in
  let* bad := bad_block (block n) in
  do* BUG_ON bad in
  let* w := wends in
  match (w : wres) with
  | WOk => do* modify (fun s => with_disk (<[block n := n]> (disk s)) s) in ret 0
  | WGet => ret (- EIO)
  | WSync => do* modify (fun s => with_disk (<[block n := n]> (disk s)) s) in ret (- EIO)
  end.

Definition balloc_alloc : M (option Z) := fun s =>
  match ba_alloc (bal s) with
  | Ret (r, b) => Done r (with_bal b s)
  | Bug => Crash
  end.

Definition balloc_free (x : Z) : M Z := fun s =>
  match ba_free x (bal s) with
  | Ret (r, b) => Done r (with_bal b s)
  | Bug => Crash
  end.

Definition nkfs_btree_node_delete (p : nat) : M unit :=
  do* nkfs_btree_nodes_remove p in
  let* n := get p in
  do* balloc_free (block n) in
  put p (set_block 0 n).

Definition nkfs_btree_node_create : M (option nat) :=
  let* r := nkfs_btree_node_alloc (nkfs_btree_node_alloc_node G) in
  match r with
  | None => ret None
  | Some p =>
      let* b := balloc_alloc in
      match (b : option Z) with
      | None => do* nkfs_btree_node_free p in ret None
      | Some b =>
          let* n := get p in
          do* put p (set_block b n) in
          let* err := nkfs_btree_node_write p in
          if negb (err =? 0) then
            do* nkfs_btree_node_delete p in
            do* nkfs_btree_node_free p in ret None
          else
            let* inserted := nkfs_btree_nodes_insert p in
            if negb (inserted =? p)%nat then
              do* nkfs_btree_node_delete p in
              do* nkfs_btree_node_free p in ret (Some inserted)
            else
              do* nkfs_btree_node_deref inserted in ret (Some p)
      end
  end.

(** ** Searching *)

Fixpoint nkfs_btree_node_find_key (fuel : nat) (first p : nat) (k : key) : M (option (nat * nat)) :=
  match fuel with
  | O => no_fuel
  | S fuel' =>
      let* n := get p in
      if (nr_keys n =? 0)%nat then
        do* deref_unless p first in ret None
      else
        let* i := lift (nkfs_btree_node_find_key_index G n k) in
        let* hit :=
          if (i <? nr_keys n)%nat then
            let* ki := lift (nkfs_btree_node_key G n i) in ret (nkfs_btree_cmp_key k ki =? 0)
          else ret false in
        if (hit : bool) then
          do* (if (p =? first)%nat then nkfs_btree_node_ref p else ret tt) in
          ret (Some (p, i))
        else if leaf n then
          do* deref_unless p first in ret None
        else
          let* c := lift (nkfs_btree_node_child G n i) in
          let* r := nkfs_btree_node_read c in
          match r with
          | None => crash
          | Some q =>
              do* deref_unless p first in
              nkfs_btree_node_find_key fuel' first q k
          end
  end.

Definition nkfs_btree_find_key (fuel : nat) (k : key) : M (Z * option Z) :=
  let* rel := gets releasing in
  if (rel : bool) then ret (- EAGAIN, None)
  else
    let* r0 := gets root in
    let* found := nkfs_btree_node_find_key fuel r0 r0 k in
    match found with
    | None => ret (- ENOENT, None)
    | Some (p, index) =>
        let* n := get p in
        let* v := lift (nkfs_btree_node_value G n index) in
        do* nkfs_btree_node_deref p in
        ret (0, Some v)
    end.

(** ** Inserting *)

Fixpoint nkfs_btree_node_insert_nonfull (fuel : nat) (first p : nat) (k : key) (v : Z)
    (replace : bool) : M Z :=
  match fuel with
  | O => no_fuel
  | S fuel' =>
      let* n := get p in
      let* h := lift (nkfs_btree_node_has_key G n k) in
      match h with
      | Some i =>
          if replace then
            let* n := lift (set_value G n i v) in
            do* put p n in
            do* nkfs_btree_node_write p in
            do* deref_unless p first in ret 0
          else
            do* deref_unless p first in ret (- EEXIST)
      | None =>
          if leaf n then
            let* i := lift (nkfs_btree_node_find_key_index G n k) in
            let* n := lift (nkfs_btree_node_put_key_value G n i k v) in
            do* put p (set_nr_keys (nr_keys n + 1) n) in
            do* nkfs_btree_node_write p in
            do* deref_unless p first in ret 0
          else
            let* i := lift (nkfs_btree_node_find_key_index G n k) in
            let* c := lift (nkfs_btree_node_child G n i) in
            let* r := nkfs_btree_node_read c in
            match r with
            | None => do* deref_unless p first in ret (- EIO)
            | Some child =>
                let* cn := get child in
                if nkfs_btree_node_is_full G cn then
                  let* r := nkfs_btree_node_create in
                  match r with
                  | None =>
                      do* deref_unless p first in
                      do* nkfs_btree_node_deref child in ret (- EIO)
                  | Some new =>
                      let* wn := get new in
                      let* sp := lift (nkfs_btree_node_split_child G n cn i wn) in
                      let '(n', c', w') := sp in
                      do* put p n' in
                      do* put child c' in
                      do* put new w' in
                      do* nkfs_btree_node_write p in
                      do* nkfs_btree_node_write child in
                      do* nkfs_btree_node_write new in
                      do* nkfs_btree_node_deref new in
                      do* nkfs_btree_node_deref child in
                      nkfs_btree_node_insert_nonfull fuel' first p k v replace
                  end
                else
                  do* deref_unless p first in
                  nkfs_btree_node_insert_nonfull fuel' first child k v replace
            end
      end
  end.

(** The root branch of [nkfs_btree_insert_key]: a full root gets a new level
    below it; [Some rc] is an early exit. *)
Definition nkfs_btree_grow_root (r0 : nat) : M (option Z) :=
  let* clone := nkfs_btree_node_create in
  match clone with
  | None => ret (Some (- ENOMEM))
  | Some clone =>
      let* new := nkfs_btree_node_alloc (nkfs_btree_node_alloc_node G) in
      match new with
      | None =>
          do* nkfs_btree_node_delete clone in
          do* nkfs_btree_node_deref clone in ret (Some (- ENOMEM))
      | Some new =>
          let* new2 := nkfs_btree_node_create in
          match new2 with
          | None =>
              do* nkfs_btree_node_delete clone in
              do* nkfs_btree_node_deref clone in
              do* nkfs_btree_node_free new in ret (Some (- ENOMEM))
          | Some new2 =>
              let* rn := get r0 in
              let* cn := get clone in
              let* cn := lift (nkfs_btree_node_copy G cn rn) in
              let* nn := get new in
              let nn := set_nr_keys 0 (set_leaf false nn) in
              let* nn := lift (set_child G nn 0 (block cn)) in
              let* n2 := get new2 in
              let* sp := lift (nkfs_btree_node_split_child G nn cn 0 n2) in
              let '(nn, cn, n2) := sp in
              do* put new nn in
              do* put clone cn in
              do* put new2 n2 in
              let* rn := lift (nkfs_btree_node_copy G rn nn) in
              do* put r0 rn in
              do* nkfs_btree_node_write clone in
              do* nkfs_btree_node_write new2 in
              do* nkfs_btree_node_write r0 in
              do* nkfs_btree_node_deref clone in
              do* nkfs_btree_node_deref new2 in
              do* nkfs_btree_node_free new in ret None
          end
      end
  end.

Definition nkfs_btree_insert_key (fuel : nat) (k : key) (v : Z) (replace : bool) : M Z :=
  let* rel := gets releasing in
  if (rel : bool) then ret (- EAGAIN)
  else
    let* r0 := gets root in
    let* rn := get r0 in
    let* early := if nkfs_btree_node_is_full G rn then nkfs_btree_grow_root r0 else ret None in
    match (early : option Z) with
    | Some rc => ret rc
    | None => nkfs_btree_node_insert_nonfull fuel r0 r0 k v replace
    end.

(** ** Deleting *)

Definition nkfs_btree_node_child_give_key (p child child_index : nat) (sib : nat) (left : bool) :
    M unit :=
  let* n := get p in
  let* cn := get child in
  let* sn := get sib in
  let* r :=
    if negb left then
      let* cn := lift (nkfs_btree_node_copy_kv G cn (nr_keys cn) n child_index) in
      let* n := lift (nkfs_btree_node_copy_kv G n child_index sn 0) in
      let* cn := lift (nkfs_btree_node_copy_child G cn (nr_keys cn + 1) sn 0) in
      let* sn := lift (nkfs_btree_node_delete_key_index G sn 0) in
      let* sn := lift (nkfs_btree_node_delete_child_index G sn 0) in
      ret (n, cn, sn)
    else
      let* cn := lift (nkfs_btree_node_put_kv G cn 0 n (child_index - 1)) in
      let* n := lift (nkfs_btree_node_copy_kv G n (child_index - 1) sn (nr_keys sn - 1)) in
      let* cn := lift (nkfs_btree_node_put_child G cn 0 sn (nr_keys sn)) in
      let* sn := lift (nkfs_btree_node_delete_key_index G sn (nr_keys sn - 1)) in
      let* sn := lift (nkfs_btree_node_delete_child_index G sn (nr_keys sn)) in
      ret (n, cn, sn) in
  let '(n, cn, sn) := r in
  do* put p n in
  do* put child (set_nr_keys (nr_keys cn + 1) cn) in
  do* put sib (set_nr_keys (nr_keys sn - 1) sn) in
  do* nkfs_btree_node_write sib in
  do* nkfs_btree_node_write child in
  do* nkfs_btree_node_write p in ret tt.

(** [dst] gets the separator [index] of [p] and all of [src]; [p] loses that
    separator and the child [index + 1]; both are written and [src] deleted. *)
Definition merge_into (p index dst src : nat) : M unit :=
  let* n := get p in
  let* dn := get dst in
  let* sn := get src in
  let* k := lift (nkfs_btree_node_key G n index) in
  let* v := lift (nkfs_btree_node_value G n index) in
  let* dn := lift (nkfs_btree_node_merge G dn sn k v) in
  do* put dst dn in
  let* n := lift (nkfs_btree_node_delete_key_index G n index) in
  let* n := lift (nkfs_btree_node_delete_child_index G n (index + 1)) in
  put p (set_nr_keys (nr_keys n - 1) n).

Definition nkfs_btree_node_child_merge (p child child_index sib : nat) (left : bool) : M nat :=
  let* merged :=
    if left then
      do* merge_into p (child_index - 1) sib child in
      do* nkfs_btree_node_write sib in
      do* nkfs_btree_node_write p in
      do* nkfs_btree_node_delete child in ret sib
    else
      do* merge_into p child_index child sib in
      do* nkfs_btree_node_write child in
      do* nkfs_btree_node_write p in
      do* nkfs_btree_node_delete sib in ret child in
  let* n := get p in
  if (nr_keys n =? 0)%nat then
    let* mn := get merged in
    let* n := lift (nkfs_btree_node_copy G n mn) in
    do* put p n in
    do* nkfs_btree_node_write p in
    do* nkfs_btree_node_delete merged in ret p
  else ret merged.

(** [cond ? nkfs_btree_node_read(..) : NULL]. *)
Definition read_sibling (cond : bool) (n : node) (index : nat) : M (option nat) :=
  if cond then let* c := lift (nkfs_btree_node_child G n index) in nkfs_btree_node_read c
  else ret None.

(** [sib && sib->nr_keys >= sib->t]. *)
Definition has_spare (sib : option nat) : M bool :=
  match sib with
  | None => ret false
  | Some q => let* n := get q in ret (g_t G <=? nr_keys n)%nat
  end.

Definition deref_opt (p : option nat) : M unit :=
  match p with
  | None => ret tt
  | Some p => nkfs_btree_node_deref p
  end.

(** [NULL] from a failed read is [None]. *)
Definition nkfs_btree_node_child_balance (p child_index : nat) : M (option nat) :=
  let* n := get p in
  do* BUG_ON (leaf n) in
  let* c := lift (nkfs_btree_node_child G n child_index) in
  let* r := nkfs_btree_node_read c in
  match r with
  | None => ret None
  | Some child =>
      let* cn := get child in
      let* child :=
        if (nr_keys cn <? g_t G)%nat then
          let* lsib := read_sibling (0 <? child_index)%nat n (child_index - 1) in
          let* rsib := read_sibling (child_index <? nr_keys n)%nat n (child_index + 1) in
          let* lspare := has_spare lsib in
          let* rspare := has_spare rsib in
          let* next :=
            match lsib, rsib with
            | Some l, _ =>
                if (lspare : bool) then
                  do* nkfs_btree_node_child_give_key p child child_index l true in ret child
                else if (rspare : bool) then
                  do* nkfs_btree_node_child_give_key p child child_index (default 0%nat rsib) false in
                  ret child
                else nkfs_btree_node_child_merge p child child_index l true
            | None, Some r =>
                if (rspare : bool) then
                  do* nkfs_btree_node_child_give_key p child child_index r false in ret child
                else nkfs_btree_node_child_merge p child child_index r false
            | None, None => crash
            end in
          do* (if negb (next =? child)%nat then
                 do* nkfs_btree_node_deref child in nkfs_btree_node_ref next
               else ret tt) in
          do* deref_opt rsib in
          do* deref_opt lsib in
          ret next
        else ret child in
      do* (if (child =? p)%nat then nkfs_btree_node_deref child else ret tt) in
      ret (Some child)
  end.

(** The walks to the last ([fst]) or first ([snd]) key below a node. *)
Fixpoint find_most_loop (fuel : nat) (last : bool) (curr : nat) : M (nat * nat) :=
  match fuel with
  | O => no_fuel
  | S fuel' =>
      let* n := get curr in
      do* BUG_ON (nr_keys n =? 0)%nat in
      if leaf n then ret (curr, if last then (nr_keys n - 1)%nat else 0%nat)
      else
        let* next := nkfs_btree_node_child_balance curr (if last then nr_keys n else 0%nat) in
        do* nkfs_btree_node_deref curr in
        match next with
        | None => crash
        | Some next => find_most_loop fuel' last next
        end
  end.

Definition find_most (fuel : nat) (last : bool) (p : nat) : M (nat * nat) :=
  let* n := get p in
  do* BUG_ON (nr_keys n =? 0)%nat in
  if leaf n then
    do* nkfs_btree_node_ref p in ret (p, if last then (nr_keys n - 1)%nat else 0%nat)
  else
    let* curr := nkfs_btree_node_child_balance p (if last then nr_keys n else 0%nat) in
    match curr with
    | None => crash
    | Some curr => find_most_loop fuel last curr
    end.

Definition nkfs_btree_node_find_left_most (fuel p : nat) : M (nat * nat) := find_most fuel true p.
Definition nkfs_btree_node_find_right_most (fuel p : nat) : M (nat * nat) := find_most fuel false p.

Fixpoint nkfs_btree_node_delete_key (fuel : nat) (first p : nat) (k : key) : M Z :=
  match fuel with
  | O => no_fuel
  | S fuel' =>
      let* n := get p in
      let* h := lift (nkfs_btree_node_has_key G n k) in
      match h with
      | Some index =>
          if leaf n then
            let* n := lift (nkfs_btree_node_leaf_delete_key G n k) in
            do* put p n in
            do* nkfs_btree_node_write p in
            do* deref_unless p first in ret 0
          else
            let* c := lift (nkfs_btree_node_child G n index) in
            let* pre_child := nkfs_btree_node_read c in
            let* c := lift (nkfs_btree_node_child G n (index + 1)) in
            let* suc_child := nkfs_btree_node_read c in
            match pre_child, suc_child with
            | Some pre_child, Some suc_child =>
                let* pn := get pre_child in
                let* sn := get suc_child in
                if (g_t G <=? nr_keys pn)%nat || (g_t G <=? nr_keys sn)%nat then
                  let* r := if (g_t G <=? nr_keys pn)%nat
                            then nkfs_btree_node_find_left_most fuel' pre_child
                            else nkfs_btree_node_find_right_most fuel' suc_child in
                  let '(q, q_index) := r in
                  let* qn := get q in
                  let* n := get p in
                  let* n := lift (nkfs_btree_node_copy_kv G n index qn q_index) in
                  do* put p n in
                  do* nkfs_btree_node_write p in
                  do* deref_unless p first in
                  do* nkfs_btree_node_deref pre_child in
                  do* nkfs_btree_node_deref suc_child in
                  let* qn := get q in
                  let* kq := lift (nkfs_btree_node_key G qn q_index) in
                  nkfs_btree_node_delete_key fuel' first q kq
                else
                  let key_index := nr_keys pn in
                  do* merge_into p index pre_child suc_child in
                  do* nkfs_btree_node_write p in
                  do* nkfs_btree_node_write pre_child in
                  do* nkfs_btree_node_delete suc_child in
                  let* n := get p in
                  let* node :=
                    if (nr_keys n =? 0)%nat then
                      let* pn := get pre_child in
                      let* n := lift (nkfs_btree_node_copy G n pn) in
                      do* put p n in
                      do* nkfs_btree_node_delete pre_child in
                      do* nkfs_btree_node_write p in
                      do* nkfs_btree_node_deref suc_child in
                      do* nkfs_btree_node_deref pre_child in ret p
                    else
                      do* deref_unless p first in
                      do* nkfs_btree_node_deref suc_child in ret pre_child in
                  let* qn := get node in
                  let* kq := lift (nkfs_btree_node_key G qn key_index) in
                  nkfs_btree_node_delete_key fuel' first node kq
            | _, _ => crash
            end
      | None =>
          if leaf n then
            do* deref_unless p first in ret (- ENOENT)
          else
            let* i := lift (nkfs_btree_node_find_key_index G n k) in
            let* child := nkfs_btree_node_child_balance p i in
            do* deref_unless p first in
            match child with
            | None => crash
            | Some child => nkfs_btree_node_delete_key fuel' first child k
            end
      end
  end.

Definition nkfs_btree_delete_key (fuel : nat) (k : key) : M Z :=
  let* rel := gets releasing in
  if (rel : bool) then ret (- EAGAIN)
  else let* r0 := gets root in nkfs_btree_node_delete_key fuel r0 r0 k.

(** ** Walking the tree *)

(** [for (i = 0; i < nr_keys + 1; i++)] over the children, each read, visited
    and released; [true] stops the walk. *)
Fixpoint each_child {C} (visit : nat -> C -> M (C * bool)) (n : node) (i count : nat) (c : C) :
    M (C * bool) :=
  match count with
  | O => ret (c, false)
  | S count' =>
      let* b := lift (nkfs_btree_node_child G n i) in
      let* r := nkfs_btree_node_read b in
      match r with
      | None => crash
      | Some q =>
          let* res := visit q c in
          do* nkfs_btree_node_deref q in
          let '(c, stop) := res in
          if (stop : bool) then ret (c, true) else each_child visit n (S i) count' c
      end
  end.

(** The callback sees the node and the index; [true] stops. *)
Fixpoint enum_keys {C} (clb : C -> node -> nat -> C * bool) (n : node) (i count : nat) (c : C) :
    C * bool :=
  match count with
  | O => (c, false)
  | S count' =>
      let '(c, stop) := clb c n i in
      if stop then (c, true) else enum_keys clb n (S i) count' c
  end.

Fixpoint nkfs_btree_enum_node {C} (fuel : nat) (clb : C -> node -> nat -> C * bool) (p : nat) (c : C) :
    M (C * bool) :=
  match fuel with
  | O => no_fuel
  | S fuel' =>
      let* n := get p in
      if (nr_keys n =? 0)%nat then ret (c, false)
      else
        let '(c, stop) := enum_keys clb n 0 (nr_keys n) c in
        if stop then ret (c, true)
        else if leaf n then ret (c, false)
        else each_child (nkfs_btree_enum_node fuel' clb) n 0 (nr_keys n + 1) c
  end.

Definition nkfs_btree_enum_tree {C} (fuel : nat) (clb : C -> node -> nat -> C * bool) (c : C) :
    M (C * bool) :=
  let* r0 := gets root in nkfs_btree_enum_node fuel clb r0 c.

Record nkfs_btree_info := Info { info_keys : Z; info_nodes : Z }.

Fixpoint nkfs_btree_node_stats (fuel : nat) (p : nat) (info : nkfs_btree_info) : M nkfs_btree_info :=
  match fuel with
  | O => no_fuel
  | S fuel' =>
      let* n := get p in
      let* r :=
        if negb (nr_keys n =? 0)%nat && negb (leaf n) then
          each_child (fun q info => let* i := nkfs_btree_node_stats fuel' q info in ret (i, false))
            n 0 (nr_keys n + 1) info
        else ret (info, false) in
      let info := fst r in
      ret (Info (u64 (info_keys info + Z.of_nat (nr_keys n))) (u64 (info_nodes info + 1)))
  end.

Definition nkfs_btree_stats (fuel : nat) : M nkfs_btree_info :=
  let* rel := gets releasing in
  if (rel : bool) then ret (Info 0 0)
  else let* r0 := gets root in nkfs_btree_node_stats fuel r0 (Info 0 0).

(** The callback runs for every key, in the state of the walk. *)
Fixpoint erase_keys (clb : key -> Z -> M unit) (n : node) (i count : nat) : M unit :=
  match count with
  | O => ret tt
  | S count' =>
      let* k := lift (nkfs_btree_node_key G n i) in
      let* v := lift (nkfs_btree_node_value G n i) in
      do* clb k v in
      erase_keys clb n (S i) count'
  end.

(** [key_erase_clb] may be absent. *)
Fixpoint nkfs_btree_erase_node (fuel : nat) (clb : option (key -> Z -> M unit)) (p : nat) : M unit :=
  match fuel with
  | O => no_fuel
  | S fuel' =>
      let* n := get p in
      do* (if negb (nr_keys n =? 0)%nat then
             do* (if negb (leaf n) then
                    let* _ := each_child (fun q (_ : unit) =>
                      do* nkfs_btree_erase_node fuel' clb q in ret (tt, false)) n 0 (nr_keys n + 1) tt in
                    ret tt
                  else ret tt) in
             match clb with
             | Some f => erase_keys f n 0 (nr_keys n)
             | None => ret tt
             end
           else ret tt) in
      nkfs_btree_node_delete p
  end.

Definition nkfs_btree_erase (fuel : nat) (clb : option (key -> Z -> M unit)) : M unit :=
  do* modify (with_releasing true) in
  let* r0 := gets root in nkfs_btree_erase_node fuel clb r0.

(** The key loop of [nkfs_btree_node_check]; [!node->children[i]] tests the
    page pointer [i], outside the array from [NKFS_BTREE_CHILD_PAGES] on. *)
Definition child_page_missing (n : node) (i : nat) : outcome bool :=
  bug_on (g_child_pages G <=? i)%nat (Ret (negb (bool_decide (is_Some (children n !!! i))))).

Fixpoint check_keys (n : node) (prev : option key) (i count : nat) (errs : Z) : outcome Z :=
  match count with
  | O => Ret errs
  | S count' =>
      obind (nkfs_btree_node_key G n i) (fun ki =>
        let errs := match prev with
                    | Some pk => if nkfs_btree_cmp_key pk ki >=? 0 then errs + 1 else errs
                    | None => errs
                    end in
        obind (if negb (leaf n) then child_page_missing n i else Ret false) (fun missing =>
          check_keys n (Some ki) (S i) count' (if (missing : bool) then errs + 1 else errs)))
  end.

Fixpoint nkfs_btree_node_check (fuel : nat) (p : nat) (is_root : bool) : M Z :=
  match fuel with
  | O => no_fuel
  | S fuel' =>
      let* n := get p in
      let errs := if negb (sig1 n =? NKFS_BTREE_SIG1) || negb (sig2 n =? NKFS_BTREE_SIG2) then 1 else 0 in
      let errs := if (2 * g_t G - 1 <? nr_keys n)%nat then errs + 1 else errs in
      let errs := if negb is_root && (nr_keys n <? g_t G - 1)%nat then errs + 1 else errs in
      let* errs := lift (check_keys n None 0 (nr_keys n) errs) in
      if leaf n then ret errs
      else
        let* missing :=
          if negb is_root || negb (nr_keys n =? 0)%nat
          then lift (child_page_missing n (nr_keys n)) else ret false in
        let errs := if (missing : bool) then errs + 1 else errs in
        let* r := each_child (fun q errs =>
          let* e := nkfs_btree_node_check fuel' q false in ret (errs + e, false))
          n 0 (nr_keys n + 1) errs in
        ret (fst r)
  end.

Definition nkfs_btree_check (fuel : nat) : M Z :=
  let* rel := gets releasing in
  if (rel : bool) then ret (- EAGAIN)
  else let* r0 := gets root in nkfs_btree_node_check fuel r0 true.

(** ** Life of a tree *)

Definition nkfs_btree_root_block : M Z :=
  let* r0 := gets root in let* n := get r0 in ret (block n).

Definition nkfs_btree_stop : M unit := modify (with_releasing true).

Definition nkfs_btree_release (has_root : bool) : M unit :=
  do* nkfs_btree_stop in
  let* r0 := gets root in
  do* (if has_root then nkfs_btree_node_deref r0 else ret tt) in
  let* active := gets nodes_active in
  BUG_ON (negb (active =? 0)).

Definition nkfs_btree_ref : M unit := modify (fun s => with_tref (tref s + 1) s).

Definition nkfs_btree_deref (has_root : bool) : M unit :=
  let* r := gets tref in
  do* BUG_ON (r <=? 0) in
  do* modify (with_tref (r - 1)) in
  if r - 1 =? 0 then nkfs_btree_release has_root else ret tt.

(** The tree over a disk and an allocator before [nkfs_btree_create] has a
    root. *)
Definition tree_zero (d : gmap Z node) (b : B) (rf : nat -> bool) (wf : nat -> wres)
    (rb : node -> bool) : state :=
  State ∅ 1 ∅ 0 0 false 1 d b rf 0 wf 0 rb.

(** [true] when a tree is returned, [false] for [NULL]. *)
Definition nkfs_btree_create (root_block : Z) : M bool :=
  let* r := if negb (root_block =? 0) then nkfs_btree_node_read root_block
            else nkfs_btree_node_create in
  match (r : option nat) with
  | None => do* nkfs_btree_deref false in ret false
  | Some p =>
      do* modify (with_root p) in
      if root_block =? 0 then
        let* n := get p in
        do* put p (set_leaf true n) in
        let* err := nkfs_btree_node_write p in
        if negb (err =? 0) then do* nkfs_btree_deref true in ret false
        else ret true
      else ret true
  end.

End Tree.

End Btree.
