(* ===== verification/BtreeRep.v ===== *)
(** * The map a B-tree stands for

    [bt d h m b l S]: in the store [d] (from block to node) the block [b] is the
    root of a subtree of height [h], with at least [m] keys in its root, that
    lists in order the entries [l] and occupies the blocks [S].  The order of
    the whole list carries the search-tree property; [m] and the bounds in
    [node_ok] the fill of the nodes; disjointness of the subtrees' blocks lets
    an update of one leave the others alone. *)

From Stdlib Require Import ZArith Lia.
From coqutil Require Import Byte.
From stdpp Require Import base list gmap sorting.
From S2P Require Import Prelude BtreeNode BtreeNodeSpec.
Import BtreeNode BtreeNodeSpec.
Local Open Scope Z_scope.

Module BtreeRep.

Abbreviation entry := (list byte * Z)%type (only parsing).

Definition ekey (e : list byte * Z) : Z := key_val (fst e).

(** ** Ordered lists of entries *)

Definition entry_lt (a b : list byte * Z) : Prop := ekey a < ekey b.

Definition sorted (l : list (list byte * Z)) : Prop := StronglySorted entry_lt l.

Lemma sorted_app a b : sorted (a ++ b) <->
  sorted a /\ sorted b /\ (forall x y, x ∈ a -> y ∈ b -> ekey x < ekey y).
Proof.
  unfold sorted. induction a as [|e a IH]; cbn.
  - split; [intros H; split; [constructor|]; split; [done|]; set_solver | tauto].
  - split.
    + intros H. apply StronglySorted_inv in H as [H F]. apply IH in H as (H1 & H2 & H3).
      apply Forall_app in F as [F1 F2]. split; [by constructor|]. split; [done|].
      intros x y [->|Hx]%elem_of_cons Hy; [|by apply H3]. rewrite Forall_forall in F2. by apply F2.
    + intros (H1 & H2 & H3). apply StronglySorted_inv in H1 as [H1 F]. constructor.
      * apply IH. split; [done|]. split; [done|]. intros x y Hx Hy. apply H3; [by right|done].
      * apply Forall_app. split; [done|]. apply Forall_forall. intros y Hy. apply H3; [by left|done].
Qed.

Lemma sorted_cons e l : sorted (e :: l) <-> sorted l /\ (forall y, y ∈ l -> ekey e < ekey y).
Proof.
  change (e :: l) with ([e] ++ l). rewrite sorted_app. split.
  - intros (_ & H & F). split; [done|]. intros y Hy. apply F; [by left|done].
  - intros [H F]. split; [repeat constructor|]. split; [done|].
    intros x y Hx Hy. apply list_elem_of_singleton in Hx as ->. by apply F.
Qed.

(** Adding or replacing an entry. *)
Definition kv_ins (k : list byte) (v : Z) (l : list (list byte * Z)) : list (list byte * Z) :=
  filter (fun e => ekey e < key_val k) l ++ (k, v) :: filter (fun e => key_val k < ekey e) l.

Lemma filter_all {A} (P : A -> Prop) `{!forall x, Decision (P x)} (l : list A) :
  (forall x, x ∈ l -> P x) -> filter P l = l.
Proof.
  intros Hl. induction l as [|x l IH]; [done|]. rewrite filter_cons_True by (apply Hl; by left).
  f_equal. apply IH. intros y Hy. apply Hl. by right.
Qed.

Lemma filter_none {A} (P : A -> Prop) `{!forall x, Decision (P x)} (l : list A) :
  (forall x, x ∈ l -> ~ P x) -> filter P l = [].
Proof.
  intros Hl. induction l as [|x l IH]; [done|]. rewrite filter_cons_False by (apply Hl; by left).
  apply IH. intros y Hy. apply Hl. by right.
Qed.

(** Insertion happens between what is below and what is above the key. *)
Lemma kv_ins_middle k v a l c :
  (forall x, x ∈ a -> ekey x < key_val k) -> (forall x, x ∈ c -> key_val k < ekey x) ->
  kv_ins k v (a ++ l ++ c) = a ++ kv_ins k v l ++ c.
Proof.
  intros Ha Hc. unfold kv_ins. rewrite !filter_app.
  rewrite (filter_all _ a) by done. rewrite (filter_none _ a) by (intros x Hx; specialize (Ha x Hx); lia).
  rewrite (filter_none _ c) by (intros x Hx; specialize (Hc x Hx); lia).
  rewrite (filter_all _ c) by done. rewrite app_nil_r, app_nil_l, <- !app_assoc. done.
Qed.

Lemma kv_ins_sorted k v l : sorted l -> sorted (kv_ins k v l).
Proof.
  intros H. assert (F : forall P `{!forall x, Decision (P x)}, sorted (filter P l)).
  { intros P HP. induction H as [|e l H IH F]; [constructor|]. rewrite filter_cons. case_decide; [|done].
    constructor; [done|]. rewrite Forall_forall in F |- *. intros x Hx. apply list_elem_of_filter in Hx as [_ Hx]. by apply F. }
  unfold kv_ins. apply sorted_app. split; [apply F|]. split.
  - apply sorted_cons. split; [apply F|]. intros y Hy. apply list_elem_of_filter in Hy as [Hy _]. exact Hy.
  - intros x y Hx Hy. apply list_elem_of_filter in Hx as [Hx _].
    apply elem_of_cons in Hy as [->|Hy]; [exact Hx|]. apply list_elem_of_filter in Hy as [Hy _]. lia.
Qed.

(** The map of a list. *)
Definition to_map (l : list (list byte * Z)) : gmap Z Z :=
  list_to_map (map (fun e => (ekey e, snd e)) l).

Lemma to_map_lookup l x v : sorted l ->
  to_map l !! x = Some v <-> exists e, e ∈ l /\ ekey e = x /\ snd e = v.
Proof.
  intros H. unfold to_map. rewrite <- elem_of_list_to_map.
  - rewrite list_elem_of_fmap. split.
    + intros (e & [= -> ->] & He). by exists e.
    + intros (e & He & <- & <-). by exists e.
  - change (NoDup (map fst (map (fun e => (ekey e, snd e)) l))). rewrite map_map. cbn.
    induction H as [|e l H IH F]; cbn; constructor; [|done].
    intros He. apply list_elem_of_fmap in He as (e' & E & He'). rewrite Forall_forall in F.
    specialize (F e' He'). unfold entry_lt in F. lia.
Qed.

Lemma to_map_lookup_none l x : to_map l !! x = None <-> forall e, e ∈ l -> ekey e <> x.
Proof.
  unfold to_map. rewrite <- not_elem_of_list_to_map. split.
  - intros H e He E. apply H. apply list_elem_of_fmap. exists (ekey e, snd e). split; [done|].
    apply list_elem_of_fmap. by exists e.
  - intros H He. apply list_elem_of_fmap in He as ([x' v] & -> & He).
    apply list_elem_of_fmap in He as (e & [= -> ->] & He). by apply (H e).
Qed.

Lemma to_map_ins k v l : sorted l -> to_map (kv_ins k v l) = <[key_val k := v]> (to_map l).
Proof.
  intros H. apply map_eq. intros x. pose proof (kv_ins_sorted k v l H) as H'.
  destruct (decide (x = key_val k)) as [->|Hx].
  - rewrite lookup_insert_eq. apply to_map_lookup; [done|]. exists (k, v). split; [|done].
    unfold kv_ins. apply elem_of_app. right. by left.
  - rewrite lookup_insert_ne by done. apply option_eq. intros w. rewrite !to_map_lookup by done.
    unfold kv_ins. split; intros (e & He & E1 & E2); exists e; (split; [|done]).
    + apply elem_of_app in He as [He|He]; [by apply list_elem_of_filter in He as [_ He]|].
      apply elem_of_cons in He as [->|He]; [done|]. by apply list_elem_of_filter in He as [_ He].
    + apply elem_of_app. destruct (Z.lt_ge_cases (ekey e) (key_val k)).
      * left. by apply list_elem_of_filter.
      * right. right. apply list_elem_of_filter. split; [lia|done].
Qed.

(** ** Weaving the lists of the children with the separators *)

Fixpoint weave (ls : list (list (list byte * Z))) (es : list (list byte * Z)) : list (list byte * Z) :=
  match ls, es with
  | l :: ls', e :: es' => l ++ e :: weave ls' es'
  | l :: _, [] => l
  | [], _ => []
  end.

(** What precedes and what follows a child. *)
Fixpoint before (ls : list (list (list byte * Z))) (es : list (list byte * Z)) : list (list byte * Z) :=
  match ls, es with
  | l :: ls', e :: es' => l ++ e :: before ls' es'
  | _, _ => []
  end.

Fixpoint after (ls : list (list (list byte * Z))) (es : list (list byte * Z)) : list (list byte * Z) :=
  match ls, es with
  | l :: ls', e :: es' => e :: l ++ after ls' es'
  | _, _ => []
  end.

Lemma weave_cons l ls es : length ls = length es -> weave (l :: ls) es = l ++ after ls es.
Proof.
  revert l es. induction ls as [|l' ls IH]; intros l [|e es] L; cbn in L; try lia; cbn [weave after].
  - by rewrite app_nil_r.
  - injection L as L. rewrite <- (IH l' es L). done.
Qed.

Lemma weave_middle A EA l C EC : length A = length EA -> length C = length EC ->
  weave (A ++ l :: C) (EA ++ EC) = before A EA ++ l ++ after C EC.
Proof.
  revert EA. induction A as [|a A IH]; intros [|e EA] L1 L2; cbn in L1; try lia.
  - by apply weave_cons.
  - cbn [app weave before]. rewrite IH by lia. by rewrite <- app_assoc.
Qed.

Lemma weave_app C1 E1 e C2 E2 : length C1 = S (length E1) ->
  weave (C1 ++ C2) (E1 ++ e :: E2) = weave C1 E1 ++ e :: weave C2 E2.
Proof.
  revert E1. induction C1 as [|c C1 IH]; intros [|x E1] L; cbn in L; try lia.
  - destruct C1; [|cbn in L; lia]. done.
  - cbn [app weave]. rewrite IH by lia. by rewrite <- app_assoc.
Qed.

Lemma before_elem A EA x : length A = length EA -> x ∈ before A EA -> x ∈ EA \/ exists l, l ∈ A /\ x ∈ l.
Proof.
  revert EA. induction A as [|a A IH]; intros [|e EA] L; cbn in *; try lia; [set_solver|].
  rewrite elem_of_app, elem_of_cons. intros [H|[->|H]].
  - right. exists a. split; [by left|done].
  - left. by left.
  - destruct (IH EA ltac:(lia) H) as [H'|(l & H1 & H2)]; [left; by right|].
    right. exists l. split; [by right|done].
Qed.

(** In order, the separators on one side of a key bound everything on it. *)
Lemma before_below A EA rest k : length A = length EA -> sorted (before A EA ++ rest) ->
  (forall e, e ∈ EA -> ekey e < k) -> forall x, x ∈ before A EA -> ekey x < k.
Proof.
  revert EA. induction A as [|a A IH]; intros [|e EA] L Hs He x Hx; cbn in *; try lia; [set_solver|].
  rewrite <- app_assoc in Hs. cbn in Hs. apply sorted_app in Hs as (_ & Hs & Hlt).
  assert (ekey e < k) by (apply He; by left).
  apply elem_of_app in Hx as [Hx|Hx]; [specialize (Hlt x e Hx ltac:(by left)); lia|].
  apply elem_of_cons in Hx as [->|Hx]; [done|]. apply sorted_cons in Hs as [Hs _].
  eapply (IH EA); [lia|exact Hs| |done]. intros y Hy. apply He. by right.
Qed.

Lemma after_above C EC front k : length C = length EC -> sorted (front ++ after C EC) ->
  (forall e, e ∈ EC -> k < ekey e) -> forall x, x ∈ after C EC -> k < ekey x.
Proof.
  revert EC front. induction C as [|c C IH]; intros [|e EC] front L Hs He x Hx; cbn in *; try lia; [set_solver|].
  assert (k < ekey e) by (apply He; by left).
  apply elem_of_cons in Hx as [->|Hx]; [done|].
  apply sorted_app in Hs as (_ & Hs & _). apply sorted_cons in Hs as [_ Hlt].
  specialize (Hlt x Hx). lia.
Qed.

(** ** Trees in a store *)

(** A subtree: its root block, its entries, its blocks. *)
Record sub := Sub { sb : Z; sl : list (list byte * Z); ss : gset Z }.

Fixpoint disj (l : list (gset Z)) : Prop :=
  match l with
  | [] => True
  | x :: l' => x ## ⋃ l' /\ disj l'
  end.

Lemma disj_app a b : disj (a ++ b) <-> disj a /\ disj b /\ ⋃ a ## ⋃ b.
Proof.
  induction a as [|x a IH]; cbn; [set_solver|]. rewrite union_list_app_L, IH. set_solver.
Qed.

Section Tree.
Context (G : geom) (GO : geom_ok G).

Fixpoint bt (d : Z -> option node) (h m : nat) (b : Z) (l : list (list byte * Z)) (S : gset Z) : Prop :=
  match h with
  | O => exists n, d b = Some n /\ node_ok G n /\ block n = b /\ (m <= nr_keys n)%nat /\
      leaf n = true /\ l = entries n /\ S = {[b]}
  | Datatypes.S h' => exists n ts, d b = Some n /\ node_ok G n /\ block n = b /\ (m <= nr_keys n)%nat /\
      leaf n = false /\ (1 <= nr_keys n)%nat /\ kids n = map sb ts /\
      Forall (fun t => bt d h' (g_t G - 1) (sb t) (sl t) (ss t)) ts /\
      l = weave (map sl ts) (entries n) /\
      S = {[b]} ∪ ⋃ (map ss ts) /\ b ∉ ⋃ (map ss ts) /\ disj (map ss ts)
  end.

Lemma bt_root d h m b l S : bt d h m b l S ->
  exists n, d b = Some n /\ node_ok G n /\ block n = b /\ (m <= nr_keys n)%nat /\
    b ∈ S /\ leaf n = (h =? 0)%nat.
Proof.
  destruct h; cbn.
  - intros (n & ? & ? & ? & ? & ? & ? & ->). exists n. repeat (split; [done|]). split; [set_solver|done].
  - intros (n & ts & ? & ? & ? & ? & ? & ? & ? & ? & ? & -> & _). exists n.
    repeat (split; [done|]). split; [set_solver|done].
Qed.

(** Only the blocks of the subtree matter. *)
Lemma bt_ext d d' h : forall m b l S, (forall x, x ∈ S -> d' x = d x) ->
  bt d h m b l S -> bt d' h m b l S.
Proof.
  induction h as [|h IH]; intros m b l S E; cbn.
  - intros (n & H0 & H). exists n. split; [|done]. rewrite E; [done|]. destruct H as (_ & _ & _ & _ & _ & ->). set_solver.
  - intros (n & ts & H0 & H1 & H2 & H3 & H4 & H5 & H6 & H7 & H8 & -> & H9).
    exists n, ts. split; [rewrite E; [done|set_solver]|]. repeat (split; [done|]). split; [|done].
    rewrite Forall_forall in H7 |- *. intros t Ht. apply IH; [|by apply H7].
    intros x Hx. apply E. apply elem_of_union_r. apply elem_of_union_list. exists (ss t).
    split; [|done]. apply list_elem_of_fmap. by exists t.
Qed.

Lemma bt_weaken d h m m' b l S : (m' <= m)%nat -> bt d h m b l S -> bt d h m' b l S.
Proof.
  intros L. destruct h; cbn.
  - intros (n & ? & ? & ? & ? & ?). exists n. repeat (split; [done|]). split; [lia|done].
  - intros (n & ts & ? & ? & ? & ? & ?). exists n, ts. repeat (split; [done|]). split; [lia|done].
Qed.

(** ** Order inside a node *)

Lemma entries_lookup n i : node_ok G n -> (i < nr_keys n)%nat ->
  entries n !! i = Some (keys n !!! i, values n !!! i).
Proof.
  intros [P L _ _] Hi. destruct GO. pose proof (pages_keys _ _ P). pose proof (pages_values _ _ P).
  apply lookup_zip_with_Some. eexists _, _. split; [done|]. rewrite !lookup_take_lt by done.
  split; apply list_lookup_lookup_total_lt; lia.
Qed.

Lemma weave_entries ls es : length ls = S (length es) -> sublist es (weave ls es).
Proof.
  revert ls. induction es as [|e es IH]; intros [|l ls] L; cbn in L; try lia; cbn [weave].
  - apply sublist_nil_l.
  - apply sublist_inserts_l. apply sublist_skip. apply IH. lia.
Qed.

Lemma sorted_sublist a b : sublist a b -> sorted b -> sorted a.
Proof.
  unfold sorted. induction 1 as [|x a b H IH|x a b H IH]; intros Hs; [done| |].
  - apply StronglySorted_inv in Hs as [Hs F]. constructor; [by apply IH|].
    rewrite Forall_forall in F |- *. intros y Hy. apply F. by eapply sublist_subseteq.
  - apply StronglySorted_inv in Hs as [Hs _]. by apply IH.
Qed.

Lemma sorted_keys_sorted n : node_ok G n -> sorted (entries n) -> keys_sorted n.
Proof.
  intros N Hs i j Hij. rewrite <- (take_drop j (entries n)) in Hs.
  apply sorted_app in Hs as (_ & _ & H).
  apply (H (keys n !!! i, values n !!! i) (keys n !!! j, values n !!! j)); apply list_elem_of_lookup.
  - exists i. rewrite lookup_take_lt by lia. apply entries_lookup; [done|lia].
  - exists 0%nat. rewrite lookup_drop, Nat.add_0_r. apply entries_lookup; [done|lia].
Qed.

Lemma bt_keys_sorted d h m b l S n : bt d h m b l S -> d b = Some n -> sorted l -> keys_sorted n.
Proof.
  intros H E Hs. destruct h; cbn in H.
  - destruct H as (n' & E' & N & _ & _ & _ & -> & _). rewrite E in E'. injection E' as <-.
    by apply sorted_keys_sorted.
  - destruct H as (n' & ts & E' & N & _ & _ & _ & _ & K & _ & -> & _). rewrite E in E'. injection E' as <-.
    apply sorted_keys_sorted; [done|]. eapply sorted_sublist; [|exact Hs]. apply weave_entries.
    apply (f_equal length) in K. rewrite (kids_length G GO), length_map in K by done.
    rewrite length_map, (entries_length G GO) by done. lia.
Qed.

(** ** Going down *)

(** The children of an internal node around position [i]. *)
Lemma bt_child d h m b l S n i : bt d (Datatypes.S h) m b l S -> d b = Some n -> (i <= nr_keys n)%nat ->
  exists A t C, length A = i /\ kids n = map sb (A ++ t :: C) /\
  Forall (fun t => bt d h (g_t G - 1) (sb t) (sl t) (ss t)) (A ++ t :: C) /\
  cflat n !!! i = sb t /\ length C = (nr_keys n - i)%nat /\
  l = before (map sl A) (take i (entries n)) ++ sl t ++ after (map sl C) (drop i (entries n)) /\
  S = {[b]} ∪ ⋃ (map ss (A ++ t :: C)) /\ b ∉ ⋃ (map ss (A ++ t :: C)) /\ disj (map ss (A ++ t :: C)).
Proof.
  intros (n' & ts & E' & N & _ & _ & _ & _ & K & F & -> & HS & Hb & D) E Hi.
  rewrite E in E'. injection E' as <-.
  assert (Lt : length ts = (nr_keys n + 1)%nat).
  { apply (f_equal length) in K. by rewrite (kids_length G GO), length_map in K. }
  destruct (lookup_lt_is_Some_2 ts i) as [t Ht]; [lia|].
  pose proof (take_drop_middle ts i t Ht) as Ets.
  exists (take i ts), t, (drop (Datatypes.S i) ts).
  assert (LA : length (take i ts) = i) by (rewrite length_take; lia).
  assert (LC : length (drop (Datatypes.S i) ts) = (nr_keys n - i)%nat) by (rewrite length_drop; lia).
  rewrite Ets. split; [done|]. split; [done|]. split; [done|]. split.
  { assert (Hk : kids n !! i = Some (sb t)) by (rewrite K; by rewrite list_lookup_fmap, Ht).
    unfold kids in Hk. rewrite lookup_take_lt in Hk by lia. by apply list_lookup_total_correct. }
  split; [done|]. split; [|done].
  pose proof (entries_length G GO n N) as Le.
  rewrite <- Ets at 1. rewrite <- (take_drop i (entries n)) at 1. rewrite map_app. cbn [map].
  apply weave_middle; rewrite length_map, ?length_take, ?length_drop; lia.
Qed.

(** Replacing the subtree of one child. *)
Lemma bt_replace_child d d' h m b l S n i A t C l' S' :
  bt d (Datatypes.S h) m b l S -> d b = Some n -> (i <= nr_keys n)%nat ->
  length A = i -> kids n = map sb (A ++ t :: C) ->
  Forall (fun t => bt d h (g_t G - 1) (sb t) (sl t) (ss t)) (A ++ t :: C) ->
  S = {[b]} ∪ ⋃ (map ss (A ++ t :: C)) -> b ∉ ⋃ (map ss (A ++ t :: C)) -> disj (map ss (A ++ t :: C)) ->
  bt d' h (g_t G - 1) (sb t) l' S' ->
  (forall x, x ∈ S -> x ∉ ss t -> d' x = d x) ->
  (forall x, x ∈ S' -> x ∈ ss t \/ x ∉ S) ->
  bt d' (Datatypes.S h) m b
    (before (map sl A) (take i (entries n)) ++ l' ++ after (map sl C) (drop i (entries n)))
    ((S ∖ ss t) ∪ S').
Proof.
  intros (n' & ts & E' & N & Hb & Hm & Hlf & H1 & _) E Hi LA K F HS Hbn D Ht Hfr Hnew.
  rewrite E in E'. injection E' as <-.
  assert (Hbt : b ∉ ss t) by (rewrite map_app in Hbn; cbn in Hbn; rewrite union_list_app_L in Hbn; set_solver).
  assert (Lk : length (A ++ t :: C) = (nr_keys n + 1)%nat).
  { apply (f_equal length) in K. by rewrite (kids_length G GO), length_map in K. }
  rewrite length_app in Lk. cbn in Lk.
  pose proof (entries_length G GO n N) as Le.
  rewrite map_app in HS, Hbn, D. cbn [map] in HS, Hbn, D.
  rewrite union_list_app_L in HS, Hbn. cbn in HS, Hbn.
  apply disj_app in D as (D1 & D2 & D3). cbn in D2, D3. destruct D2 as [D2 D4].
  apply Forall_app in F as [FA F]. apply Forall_cons in F as [Ft FC].
  assert (Hkeep : forall us, (forall u, u ∈ us -> u ∈ A \/ u ∈ C) ->
    Forall (fun t => bt d h (g_t G - 1) (sb t) (sl t) (ss t)) us ->
    Forall (fun t => bt d' h (g_t G - 1) (sb t) (sl t) (ss t)) us).
  { intros us Hin Fu. rewrite Forall_forall in Fu |- *. intros u Hu.
    apply (bt_ext d d'); [|by apply Fu]. intros x Hx.
    assert (x ∈ ⋃ (map ss A) ∪ ⋃ (map ss C)).
    { destruct (Hin u Hu) as [Hu'|Hu']; apply elem_of_union; [left|right];
        apply elem_of_union_list; exists (ss u); (split; [|done]); apply list_elem_of_fmap; by exists u. }
    apply Hfr; set_solver. }
  exists n, (A ++ Sub (sb t) l' S' :: C). cbn [sb sl ss].
  split; [rewrite Hfr; [done|set_solver|done]|]. split; [done|]. split; [done|]. split; [done|].
  split; [done|]. split; [done|]. split; [rewrite K, !map_app; done|]. split; [|split; [|split; [|split]]].
  - apply Forall_app. split; [apply Hkeep; [auto|done]|]. constructor; [done|]. apply Hkeep; [auto|done].
  - rewrite map_app. cbn [map sl]. rewrite <- (take_drop i (entries n)) at 3.
    symmetry. apply weave_middle; rewrite length_map, ?length_take, ?length_drop; lia.
  - rewrite map_app. cbn [map ss]. rewrite union_list_app_L. cbn. rewrite HS.
    apply set_eq. intros x. rewrite !elem_of_union, elem_of_difference, !elem_of_union.
    split; [|set_solver]. intros [[Hx1 Hx2]|Hx]; [|set_solver]. set_solver.
  - rewrite map_app. cbn [map ss]. rewrite union_list_app_L. cbn. intros Hx.
    rewrite !elem_of_union in Hx. destruct Hx as [Hx|[Hx|Hx]]; [set_solver| |set_solver].
    destruct (Hnew b Hx); set_solver.
  - rewrite map_app. apply disj_app. cbn.
    assert (S' ## ⋃ (map ss C)) by (intros x Hx1 Hx2; destruct (Hnew x Hx1); set_solver).
    assert (⋃ (map ss A) ## S') by (intros x Hx1 Hx2; destruct (Hnew x Hx2); set_solver).
    split; [done|]. split; [done|]. set_solver.
Qed.

(** ** Splitting a child *)

Lemma split_sub d d' h b l S cn c' w' e bw :
  bt d h (g_t G - 1) b l S -> d b = Some cn ->
  node_ok G c' -> node_ok G w' -> nr_keys c' = (g_t G - 1)%nat -> nr_keys w' = (g_t G - 1)%nat ->
  block c' = b -> block w' = bw -> leaf c' = leaf cn -> leaf w' = leaf cn ->
  entries cn = entries c' ++ e :: entries w' ->
  (leaf cn = false -> kids cn = kids c' ++ kids w') ->
  d' b = Some c' -> d' bw = Some w' -> bw ∉ S -> (forall x, x ∈ S -> x <> b -> d' x = d x) ->
  exists l1 l2 S1 S2, bt d' h (g_t G - 1) b l1 S1 /\ bt d' h (g_t G - 1) bw l2 S2 /\
  l = l1 ++ e :: l2 /\ S1 ∪ S2 = S ∪ {[bw]} /\ S1 ## S2.
Proof.
  intros H E Nc Nw Hc Hw Bc Bw Lc Lw Ee Ek Ec Ew Hbw Hfr. destruct GO as [GT _ _ _].
  destruct h as [|h]; cbn in H |- *.
  - destruct H as (n & E' & _ & _ & _ & Lf & -> & ->). rewrite E in E'. injection E' as <-.
    exists (entries c'), (entries w'), {[b]}, {[bw]}. split; [|split; [|split; [done|set_solver]]].
    + exists c'. rewrite Lc. repeat (split; [done|]). split; [lia|done].
    + exists w'. rewrite Lw. repeat (split; [done|]). split; [lia|done].
  - destruct H as (n & ts & E' & N & _ & _ & Lf & _ & K & F & -> & -> & Hb & D).
    rewrite E in E'. injection E' as <-. specialize (Ek Lf).
    pose proof (kids_length G GO c' Nc) as Kc. pose proof (kids_length G GO w' Nw) as Kw.
    pose proof (entries_length G GO c' Nc) as Lec.
    set (i := (nr_keys c' + 1)%nat) in *. rewrite K in Ek.
    assert (K1 : map sb (take i ts) = kids c').
    { apply (f_equal (take i)) in Ek. rewrite take_app_length' in Ek by done. rewrite <- Ek. apply fmap_take. }
    assert (K2 : map sb (drop i ts) = kids w').
    { apply (f_equal (drop i)) in Ek. rewrite drop_app_length' in Ek by done. rewrite <- Ek. apply fmap_drop. }
    rewrite <- (take_drop i ts) in F, Hb, D, Hbw, Hfr |- *.
    rewrite map_app in Hb, D, Hbw, Hfr |- *. rewrite union_list_app_L in Hb, Hbw, Hfr. apply Forall_app in F as [F1 F2].
    apply disj_app in D as (D1 & D2 & D3). rewrite map_app, union_list_app_L.
    assert (Fr : forall us, (forall u, u ∈ us -> u ∈ take i ts \/ u ∈ drop i ts) ->
      Forall (fun t => bt d h (g_t G - 1) (sb t) (sl t) (ss t)) us ->
      Forall (fun t => bt d' h (g_t G - 1) (sb t) (sl t) (ss t)) us).
    { intros us Hin Fu. rewrite Forall_forall in Fu |- *. intros u Hu.
      apply (bt_ext d d'); [|by apply Fu]. intros x Hx.
      assert (x ∈ ⋃ map ss (take i ts) ∪ ⋃ map ss (drop i ts)).
      { destruct (Hin u Hu) as [Hu'|Hu']; apply elem_of_union; [left|right];
          apply elem_of_union_list; exists (ss u); (split; [|done]); apply list_elem_of_fmap; by exists u. }
      apply Hfr; set_solver. }
    exists (weave (map sl (take i ts)) (entries c')), (weave (map sl (drop i ts)) (entries w')),
      ({[b]} ∪ ⋃ map ss (take i ts)), ({[bw]} ∪ ⋃ map ss (drop i ts)).
    split; [|split; [|split; [|split]]].
    + exists c', (take i ts). rewrite Lc. repeat (split; [done || lia|]).
      split; [apply Fr; [auto|done]|]. split; [done|]. split; [done|]. split; [set_solver|done].
    + exists w', (drop i ts). rewrite Lw. repeat (split; [done || lia|]).
      split; [apply Fr; [auto|done]|]. split; [done|]. split; [done|]. split; [set_solver|done].
    + rewrite Ee. apply weave_app. apply (f_equal length) in K1. rewrite length_map in K1 |- *. lia.
    + set_solver.
    + set_solver.
Qed.

Lemma bt_split d d' h m b l S n i A t C cn new n' c' w' :
  bt d (Datatypes.S h) m b l S -> d b = Some n -> (i <= nr_keys n)%nat ->
  length A = i -> kids n = map sb (A ++ t :: C) ->
  Forall (fun t => bt d h (g_t G - 1) (sb t) (sl t) (ss t)) (A ++ t :: C) ->
  l = before (map sl A) (take i (entries n)) ++ sl t ++ after (map sl C) (drop i (entries n)) ->
  S = {[b]} ∪ ⋃ (map ss (A ++ t :: C)) -> b ∉ ⋃ (map ss (A ++ t :: C)) -> disj (map ss (A ++ t :: C)) ->
  d (sb t) = Some cn -> split_spec G n cn new i n' c' w' ->
  d' b = Some n' -> d' (sb t) = Some c' -> d' (block new) = Some w' -> block new ∉ S ->
  (forall x, x ∈ S -> x <> b -> x <> sb t -> d' x = d x) ->
  bt d' (Datatypes.S h) m b l (S ∪ {[block new]}).
Proof.
  intros (n0 & ts & E' & N & Hb & Hm & Hlf & H1 & _) E Hi LA K F El HS Hbn D Et SP Eb Ec Ew Hnew Hfr.
  rewrite E in E'. injection E' as <-. destruct SP as [Nn Nc Nw Hn Hc Hw Hbl Hlv (e & Ee & Ece) Hk Hck].
  destruct Hbl as (B1 & B2 & B3), Hlv as (L1 & L2 & L3).
  assert (Lk : length (A ++ t :: C) = (nr_keys n + 1)%nat).
  { apply (f_equal length) in K. by rewrite (kids_length G GO), length_map in K. }
  rewrite length_app in Lk. cbn in Lk. pose proof (entries_length G GO n N) as Le.
  rewrite map_app in HS, Hbn, D. cbn [map] in HS, Hbn, D.
  rewrite union_list_app_L in HS, Hbn. cbn in HS, Hbn.
  apply disj_app in D as (D1 & D2 & D3). cbn in D2, D3. destruct D2 as [D2 D4].
  apply Forall_app in F as [FA F]. apply Forall_cons in F as [Ft FC].
  destruct (bt_root _ _ _ _ _ _ Ft) as (cn' & Et' & _ & Bt & _ & Hbt & _). rewrite Et in Et'. injection Et' as <-.
  destruct (split_sub d d' h (sb t) (sl t) (ss t) cn c' w' e (block new))
    as (l1 & l2 & S1 & S2 & T1 & T2 & El2 & ES & DS); try done; [congruence|set_solver| |].
  { intros x Hx Hx'. apply Hfr; [set_solver| |done]. intros ->. set_solver. }
  assert (Fr : forall us, (forall u, u ∈ us -> u ∈ A \/ u ∈ C) ->
    Forall (fun t => bt d h (g_t G - 1) (sb t) (sl t) (ss t)) us ->
    Forall (fun t => bt d' h (g_t G - 1) (sb t) (sl t) (ss t)) us).
  { intros us Hin Fu. rewrite Forall_forall in Fu |- *. intros u Hu.
    apply (bt_ext d d'); [|by apply Fu]. intros x Hx.
    assert (x ∈ ⋃ (map ss A) ∪ ⋃ (map ss C)).
    { destruct (Hin u Hu) as [Hu'|Hu']; apply elem_of_union; [left|right];
        apply elem_of_union_list; exists (ss u); (split; [|done]); apply list_elem_of_fmap; by exists u. }
    apply Hfr; [set_solver|set_solver|]. intros ->. set_solver. }
  exists n', (A ++ Sub (sb t) l1 S1 :: Sub (block new) l2 S2 :: C).
  split; [done|]. split; [done|]. split; [congruence|]. split; [lia|]. split; [congruence|]. split; [lia|].
  split; [|split; [|split; [|split; [|split]]]].
  - rewrite Hk, K, !map_app. cbn [map sb].
    assert (LA' : length (map sb A) = i) by (by rewrite length_map).
    rewrite take_app_add' by (by rewrite LA'). rewrite drop_app_add' by (by rewrite LA').
    cbn [take drop]. by rewrite <- app_assoc.
  - apply Forall_app. split; [apply Fr; [auto|done]|]. constructor; [done|]. constructor; [done|].
    apply Fr; [auto|done].
  - rewrite El, El2, Ee, map_app. cbn [map sl].
    rewrite weave_middle by (rewrite ?length_map; cbn; rewrite ?length_take, ?length_map, ?length_drop; lia).
    f_equal. rewrite <- app_assoc. cbn [after app]. done.
  - rewrite map_app. cbn [map ss]. rewrite union_list_app_L. cbn. rewrite HS.
    rewrite (assoc_L (∪) S1 S2), ES. clear. set_solver.
  - rewrite map_app. cbn [map ss]. rewrite union_list_app_L. cbn. rewrite HS in Hnew.
    rewrite (assoc_L (∪) S1 S2), ES. clear -Hbn Hnew. set_solver.
  - rewrite map_app. apply disj_app. cbn. rewrite HS in Hnew. split; [done|].
    rewrite (assoc_L (∪) S1 S2), ES.
    assert (Sx : S1 ⊆ ss t ∪ {[block new]} /\ S2 ⊆ ss t ∪ {[block new]}) by (clear -ES; set_solver).
    clear -Sx D2 D3 D4 DS Hnew. destruct Sx. split; [|set_solver]. split; [|split; [|done]]; set_solver.
Qed.

End Tree.

End BtreeRep.
