(* ===== verification/BtreeMem.v ===== *)
(** * Node objects, the index and the disk seen as one store

    [vis s b] is the node a read of block [b] gives: the object in memory when
    there is one, otherwise what the disk holds.  [coh s held D P] says that
    memory and index agree: reference counts are exactly the references in
    [held] plus the tree's own to the root, the index knows every object, and
    an object outside [D] (changed since it was last written) is on disk.  [P]
    are objects not yet in the index, with their contents.  Each primitive of
    [Btree] is specified by its effect on [vis] and [coh]. *)

From Stdlib Require Import ZArith Lia.
From coqutil Require Import Byte.
From stdpp Require Import base list gmap.
From S2P Require Import Prelude StMonad BtreeNode BtreeNodeSpec Btree.
Import StMonad BtreeNode BtreeNodeSpec Btree.
Local Open Scope Z_scope.

Module BtreeMem.

Section Mem.
Context {B : Type} `{BlockAlloc B}.
Context (G : geom).

Local Abbreviation state := (@Btree.state B).
Local Abbreviation M := (StMonad.M (@Btree.state B)).

(** The primitives on a known object. *)

Lemma spec_get_obj p n r s (Q : node -> state -> Prop) :
  objs s !! p = Some (n, r) -> Q n s -> spec (get p) s Q.
Proof. intros E HQ. unfold spec, get. by rewrite E. Qed.

Lemma spec_put_obj p n r n' s (Q : unit -> state -> Prop) :
  objs s !! p = Some (n, r) -> Q tt (with_objs (<[p := (n', r)]> (objs s)) s) -> spec (put p n') s Q.
Proof. intros E HQ. unfold spec, put. by rewrite E. Qed.

Lemma spec_rfails s (Q : bool -> state -> Prop) :
  Q (rfail s (rtick s)) (with_rtick (S (rtick s)) s) -> spec rfails s Q.
Proof. done. Qed.

Lemma spec_alloc n s (Q : option nat -> state -> Prop) :
  (rfail s (rtick s) = true -> Q None (with_rtick (S (rtick s)) s)) ->
  (rfail s (rtick s) = false -> Q (Some (next s)) (new_obj (next s) n (with_rtick (S (rtick s)) s))) ->
  spec (nkfs_btree_node_alloc n) s Q.
Proof.
  intros H1 H2. apply spec_bind, spec_rfails. destruct (rfail s (rtick s)); [by apply spec_ret, H1|].
  by apply H2.
Qed.

Lemma spec_free_obj p n r s (Q : unit -> state -> Prop) :
  objs s !! p = Some (n, r) -> Q tt (with_objs (delete p (objs s)) s) -> spec (nkfs_btree_node_free p) s Q.
Proof. intros E HQ. unfold spec, nkfs_btree_node_free. by rewrite E. Qed.

Lemma spec_insert_new p n r s (Q : nat -> state -> Prop) :
  objs s !! p = Some (n, S r) -> nodes s !! block n = None ->
  Q p (with_objs (<[p := (n, S (S r))]> (objs s))
        (with_nodes (<[block n := p]> (nodes s)) (nodes_active s + 1) s)) ->
  spec (nkfs_btree_nodes_insert p) s Q.
Proof.
  intros E En HQ. unfold nkfs_btree_nodes_insert. apply spec_bind, (spec_get_obj p n (S r)); [done|].
  apply spec_bind, spec_gets. rewrite En. apply spec_bind, spec_modify. apply spec_bind.
  unfold spec at 1, nkfs_btree_node_ref. cbn. rewrite E. by apply spec_ret.
Qed.

Lemma spec_deref_obj p n r s (Q : unit -> state -> Prop) :
  objs s !! p = Some (n, S (S r)) -> Q tt (with_objs (<[p := (n, S r)]> (objs s)) s) ->
  spec (nkfs_btree_node_deref p) s Q.
Proof. intros E HQ. unfold spec, nkfs_btree_node_deref. by rewrite E. Qed.

(** ** The store *)

Definition vis (s : state) (b : Z) : option node :=
  match nodes s !! b with
  | Some p => fst <$> objs s !! p
  | None => disk s !! b
  end.

Definition refs (s : state) (held : list nat) (p : nat) : nat := count_occ Nat.eq_dec (root s :: held) p.
#[global] Arguments refs : simpl never.

Record coh (s : state) (held : list nat) (D : gset nat) (P : gmap nat node) : Prop := {
  coh_refs p n r : objs s !! p = Some (n, r) -> P !! p = None -> r = refs s held p;
  coh_live p : p ∈ root s :: held -> is_Some (objs s !! p) /\ P !! p = None;
  coh_used_refs p : is_Some (objs s !! p) -> P !! p = None -> p ∈ root s :: held;
  coh_priv p n : P !! p = Some n -> exists r, objs s !! p = Some (n, r);
  coh_idx p n r : objs s !! p = Some (n, r) -> P !! p = None -> nodes s !! block n = Some p;
  coh_obj b p : nodes s !! b = Some p -> exists n r, objs s !! p = Some (n, r) /\ block n = b /\ P !! p = None;
  coh_clean p n r : objs s !! p = Some (n, r) -> P !! p = None -> p ∉ D -> disk s !! block n = Some n;
  coh_next p : is_Some (objs s !! p) -> (p < next s)%nat;
  coh_blocks b p : nodes s !! b = Some p -> b ∈ ba_used (bal s) /\ 0 < b;
  coh_disk b n : disk s !! b = Some n -> block n = b;
  coh_active : nodes_active s = Z.of_nat (size (nodes s));
  coh_ba : ba_ok (bal s)
}.

(** What no operation on a tree changes. *)
Record env_same (s s' : state) : Prop := {
  env_root : root s' = root s;
  env_rel : releasing s' = releasing s;
  env_tref : tref s' = tref s;
  env_rfail : rfail s' = rfail s;
  env_wfail : wfail s' = wfail s;
  env_rb : reads_back s' = reads_back s;
  env_size : ba_size (bal s') = ba_size (bal s);
  env_tick : (rtick s <= rtick s')%nat
}.

Lemma tree_env_refl s : env_same s s.
Proof. done. Qed.

Lemma tree_env_trans s1 s2 s3 : env_same s1 s2 -> env_same s2 s3 -> env_same s1 s3.
Proof. intros [] []. split; (congruence || lia). Qed.

Definition writes_ok (s : state) : Prop := forall t, wfail s t = WOk.

(** Between [s] and [s'] an allocation of memory or a read of the disk failed. *)
Definition tick_fails (s s' : state) : Prop := exists t, (rtick s <= t < rtick s')%nat /\ rfail s t = true.

(** The same, or the image of [n] does not read back. *)
Definition read_fails (s s' : state) (n : node) : Prop := tick_fails s s' \/ reads_back s n = false.

Lemma tick_fails_mono s s1 s2 s3 : env_same s s1 -> env_same s2 s3 -> tick_fails s1 s2 -> tick_fails s s3.
Proof.
  intros E1 E2 (t & Ht & Hf). exists t. rewrite <- (env_rfail _ _ E1). split; [|done].
  pose proof (env_tick _ _ E1). pose proof (env_tick _ _ E2). lia.
Qed.

(** Pointers that stay held stay where they are. *)
Definition keeps (s s' : state) (held : list nat) : Prop :=
  forall p b, p ∈ root s :: held -> nodes s !! b = Some p -> nodes s' !! b = Some p.

Lemma keeps_refl s held : keeps s s held.
Proof. by intros p b _ E. Qed.

Lemma vis_at s held D P p b : coh s held D P -> nodes s !! b = Some p ->
  exists n r, vis s b = Some n /\ block n = b /\ objs s !! p = Some (n, r) /\ P !! p = None.
Proof.
  intros C E. destruct (coh_obj _ _ _ _ C b p E) as (n & r & Eo & Eb & Hp). exists n, r.
  unfold vis. rewrite E, Eo. done.
Qed.

(** Reading the object of a held pointer. *)
Lemma spec_node_get s held D P p b (Q : node -> state -> Prop) :
  coh s held D P -> nodes s !! b = Some p ->
  (forall n, vis s b = Some n -> block n = b -> Q n s) -> spec (get p) s Q.
Proof.
  intros C E HQ. destruct (vis_at _ _ _ _ _ _ C E) as (n & r & V & Eb & Eo & _).
  unfold spec, get. rewrite Eo. by apply HQ.
Qed.

(** ** Changing and writing an object *)

Lemma spec_node_put s held D P p b n' (Q : unit -> state -> Prop) :
  coh s held D P -> nodes s !! b = Some p -> block n' = b ->
  (forall s', coh s' held ({[p]} ∪ D) P -> env_same s s' -> bal s' = bal s -> nodes s' = nodes s ->
     vis s' b = Some n' -> (forall x, x <> b -> vis s' x = vis s x) -> Q tt s') ->
  spec (put p n') s Q.
Proof.
  intros C E Hb HQ. destruct (vis_at _ _ _ _ _ _ C E) as (n & r & V & Eb & Eo & Hp).
  unfold spec, put. rewrite Eo. apply HQ; try done; clear HQ Q.
  - destruct C. split; cbn; try done.
    + intros q m r' Eq Hq. destruct (decide (q = p)) as [->|Hqp].
      * rewrite lookup_insert_eq in Eq. injection Eq as <- <-. by apply (coh_refs0 p n).
      * rewrite lookup_insert_ne in Eq by done. by eapply coh_refs0.
    + intros q Hq. destruct (coh_live0 q Hq). split; [|done]. destruct (decide (q = p)) as [->|];
        [by rewrite lookup_insert_eq|by rewrite lookup_insert_ne].
    + intros q Hq. apply coh_used_refs0. destruct (decide (q = p)) as [->|]; [by rewrite Eo|].
      by rewrite lookup_insert_ne in Hq.
    + intros q m Hq. assert (q <> p) by congruence.
      rewrite lookup_insert_ne by done. by apply coh_priv0.
    + intros q m r' Eq Hq. destruct (decide (q = p)) as [->|Hqp].
      * rewrite lookup_insert_eq in Eq. injection Eq as <- <-. by rewrite Hb.
      * rewrite lookup_insert_ne in Eq by done. by eapply coh_idx0.
    + intros b' q Eq. destruct (decide (q = p)) as [->|Hqp].
      * exists n', r. rewrite lookup_insert_eq. split; [done|]. split; [|done].
        destruct (coh_obj0 b' p Eq) as (m & r' & Em & <- & _). congruence.
      * rewrite lookup_insert_ne by done. by apply coh_obj0.
    + intros q m r' Eq Hq HD. rewrite lookup_insert_ne in Eq by set_solver. apply (coh_clean0 q m r'); set_solver.
    + intros q Hq. apply coh_next0. destruct (decide (q = p)) as [->|]; [by rewrite Eo|].
      by rewrite lookup_insert_ne in Hq.
  - unfold vis. cbn. rewrite E. by rewrite lookup_insert_eq.
  - intros x Hx. unfold vis. cbn. destruct (nodes s !! x) as [q|] eqn:Eq; [|done].
    destruct (decide (q = p)) as [->|]; [|by rewrite lookup_insert_ne].
    destruct (coh_obj _ _ _ _ C x p Eq) as (m & r' & Em & Ex & _). congruence.
Qed.

Lemma spec_write s held D P p b n (Q : Z -> state -> Prop) :
  coh s held D P -> nodes s !! b = Some p -> vis s b = Some n -> writes_ok s ->
  sig1 n = NKFS_BTREE_SIG1 -> sig2 n = NKFS_BTREE_SIG2 -> 0 < b < ba_size (bal s) ->
  (forall s', coh s' held (D ∖ {[p]}) P -> env_same s s' -> bal s' = bal s -> nodes s' = nodes s ->
     (forall x, vis s' x = vis s x) -> Q 0 s') ->
  spec (nkfs_btree_node_write p) s Q.
Proof.
  intros C E V Wo S1 S2 Hb HQ. unfold nkfs_btree_node_write.
  apply spec_bind, (spec_node_get s held D P p b); [done..|]. intros n' V' Bn. rewrite V in V'. injection V' as <-.
  apply spec_bind, spec_bug_on. { by rewrite S1, S2, !Z.eqb_refl. }
  apply spec_bind, spec_gets. rewrite Bn.
  apply spec_bind, spec_bug_on. { lia. }
  unfold spec, bind, wends. rewrite Wo. cbn. apply HQ; try done; clear HQ Q.
  - destruct (vis_at _ _ _ _ _ _ C E) as (n' & r & V' & Eb & Eo & Hp). rewrite V in V'. injection V' as <-.
    destruct C. split; cbn; try done.
    + intros q m r' Eq Hq HD. destruct (decide (q = p)) as [->|Hqp].
      * assert (m = n) as -> by congruence. rewrite Bn. by rewrite lookup_insert_eq.
      * rewrite lookup_insert_ne; [apply (coh_clean0 q m r'); [done..|set_solver]|].
        intros Hbm. apply (coh_idx0 q m r') in Eq as Eq'; [|done]. congruence.
    + intros b' m. destruct (decide (b' = b)) as [->|]; [rewrite lookup_insert_eq; congruence|].
      rewrite lookup_insert_ne by done. apply coh_disk0.
  - intros x. unfold vis. cbn. destruct (nodes s !! x) eqn:Ex; [done|].
    rewrite lookup_insert_ne; [done|]. congruence.
Qed.

(** ** References *)

Lemma refs_cons s held p q : refs s (p :: held) q = (refs s held q + if decide (q = p) then 1 else 0)%nat.
Proof.
  unfold refs. cbn. destruct (Nat.eq_dec (root s) q), (Nat.eq_dec p q), (decide (q = p)); subst; try done; lia.
Qed.

Lemma refs_pos s held q : q ∈ root s :: held -> (0 < refs s held q)%nat.
Proof. intros Hq. apply list_elem_of_In in Hq. unfold refs. by apply (count_occ_In Nat.eq_dec) in Hq. Qed.

Lemma refs_zero s held q : refs s held q = 0%nat -> q ∉ root s :: held.
Proof. intros E Hq. apply refs_pos in Hq. lia. Qed.

Lemma spec_node_ref s held D P p (Q : unit -> state -> Prop) :
  coh s held D P -> p ∈ root s :: held ->
  (forall s', coh s' (p :: held) D P -> env_same s s' -> bal s' = bal s -> nodes s' = nodes s ->
     (forall x, vis s' x = vis s x) -> Q tt s') ->
  spec (nkfs_btree_node_ref p) s Q.
Proof.
  intros C Hp HQ. destruct (coh_live _ _ _ _ C p Hp) as [[[n r] Eo] HP].
  pose proof (coh_refs _ _ _ _ C p n r Eo HP) as Er. pose proof (refs_pos s held p Hp).
  unfold spec, nkfs_btree_node_ref. rewrite Eo. destruct r as [|r]; [lia|].
  apply HQ; try done; clear HQ Q.
  - destruct C. split; cbn; try done.
    + intros q m r' Eq Hq. rewrite refs_cons. change (refs _ held q) with (refs s held q).
      destruct (decide (q = p)) as [->|Hqp].
      * rewrite lookup_insert_eq in Eq. injection Eq as <- <-. lia.
      * rewrite lookup_insert_ne in Eq by done. rewrite (coh_refs0 q m r' Eq Hq). lia.
    + intros q Hq. assert (q ∈ root s :: held) as Hq' by set_solver. destruct (coh_live0 q Hq').
      split; [|done]. destruct (decide (q = p)) as [->|];
        [by rewrite lookup_insert_eq|by rewrite lookup_insert_ne].
    + intros q Hq HqP. assert (q ∈ root s :: held); [|set_solver]. apply coh_used_refs0; [|done].
      destruct (decide (q = p)) as [->|]; [by rewrite Eo|]. by rewrite lookup_insert_ne in Hq.
    + intros q m Hq. assert (q <> p) by congruence.
      rewrite lookup_insert_ne by done. by apply coh_priv0.
    + intros q m r' Eq Hq. destruct (decide (q = p)) as [->|Hqp].
      * rewrite lookup_insert_eq in Eq. injection Eq as <- <-. by eapply coh_idx0.
      * rewrite lookup_insert_ne in Eq by done. by eapply coh_idx0.
    + intros b q Eq. destruct (coh_obj0 b q Eq) as (m & r' & Em & Eb & HqP).
      destruct (decide (q = p)) as [->|].
      * exists m. rewrite lookup_insert_eq. assert (m = n) as -> by congruence. by eexists.
      * exists m, r'. by rewrite lookup_insert_ne.
    + intros q m r' Eq Hq HD. destruct (decide (q = p)) as [->|].
      * rewrite lookup_insert_eq in Eq. injection Eq as <- <-. by eapply coh_clean0.
      * rewrite lookup_insert_ne in Eq by done. by eapply coh_clean0.
    + intros q Hq. apply coh_next0. destruct (decide (q = p)) as [->|]; [by rewrite Eo|].
      by rewrite lookup_insert_ne in Hq.
  - intros x. unfold vis. cbn. destruct (nodes s !! x) as [q|]; [|done].
    destruct (decide (q = p)) as [->|]; [by rewrite lookup_insert_eq, Eo|by rewrite lookup_insert_ne].
Qed.

(** The state without the object [p], which was [n]. *)
Definition gone (p : nat) (n : node) (s : state) : state :=
  with_objs (delete p (objs s)) (with_nodes (delete (block n) (nodes s)) (nodes_active s - 1) s).

Lemma coh_gone s held D P p n r : coh s (p :: held) D P -> objs s !! p = Some (n, r) -> P !! p = None -> p ∉ root s :: held -> coh (gone p n s) held D P.
Proof.
  intros C Eo HP Hno. pose proof (coh_idx _ _ _ _ C p n _ Eo HP) as Ei.
  destruct C. split; cbn.
  - intros q m r' Eq Hq. apply lookup_delete_Some in Eq as [Hqp Eq]. rewrite (coh_refs0 q m r' Eq Hq).
    rewrite refs_cons, decide_False by done. by rewrite Nat.add_0_r.
  - intros q Hq. destruct (coh_live0 q) as [Hl HqP]; [set_solver|]. split; [|done].
    rewrite lookup_delete_ne; [done|]. intros ->. by apply Hno.
  - intros q Hq HqP. destruct (decide (q = p)) as [->|Hqp]; [by rewrite lookup_delete_eq in Hq; destruct Hq|].
    rewrite lookup_delete_ne in Hq by done. specialize (coh_used_refs0 q Hq HqP). set_solver.
  - intros q m Hq. rewrite lookup_delete_ne by congruence. by apply coh_priv0.
  - intros q m r' Eq Hq. apply lookup_delete_Some in Eq as [Hqp Eq]. pose proof (coh_idx0 q m r' Eq Hq) as Ei'.
    rewrite lookup_delete_ne; [done|]. intros Eb. congruence.
  - intros b q Eq. apply lookup_delete_Some in Eq as [Hb Eq]. destruct (coh_obj0 b q Eq) as (m & r' & Em & <- & HqP).
    exists m, r'. rewrite lookup_delete_ne; [done|]. intros ->. congruence.
  - intros q m r' Eq Hq HqD. apply lookup_delete_Some in Eq as [Hqp Eq]. by eapply coh_clean0.
  - intros q Hq. apply coh_next0. destruct (decide (q = p)) as [->|Hqp]; [by rewrite Eo|].
    by rewrite lookup_delete_ne in Hq.
  - intros b q Eq. apply lookup_delete_Some in Eq as [Hb Eq]. by eapply coh_blocks0.
  - done.
  - rewrite coh_active0. rewrite map_size_delete, Ei.
    assert (size (nodes s) <> 0%nat) by (intros Hs; apply map_size_empty_inv in Hs; rewrite Hs in Ei; done).
    lia.
  - done.
Qed.

Lemma vis_gone s held D P p n r : coh s (p :: held) D P -> objs s !! p = Some (n, r) -> P !! p = None -> p ∉ D ->
  forall x, vis (gone p n s) x = vis s x.
Proof.
  intros C Eo HP HD. pose proof (coh_idx _ _ _ _ C p n _ Eo HP) as Ei.
  intros x. unfold vis. cbn. destruct (decide (x = block n)) as [->|Hx].
  - rewrite lookup_delete_eq, Ei, Eo. cbn. by eapply coh_clean.
  - rewrite lookup_delete_ne by done. destruct (nodes s !! x) as [q|] eqn:Eq; [|done].
    rewrite lookup_delete_ne; [done|]. intros ->. destruct (coh_obj _ _ _ _ C x q Eq) as (m & r' & Em & Ex & _). congruence.
Qed.

Lemma coh_unref s held D P p n r : coh s (p :: held) D P -> objs s !! p = Some (n, S r) -> P !! p = None -> r = refs s held p -> r <> 0%nat ->
  coh (with_objs (<[p := (n, r)]> (objs s)) s) held D P.
Proof.
  intros C Eo HP Er' E0.
  destruct C. split; cbn; try done.
  - intros q m r' Eq Hq. destruct (decide (q = p)) as [->|Hqp].
    + rewrite lookup_insert_eq in Eq. injection Eq as <- <-. done.
    + rewrite lookup_insert_ne in Eq by done. rewrite (coh_refs0 q m r' Eq Hq).
       rewrite refs_cons, decide_False by done. by rewrite Nat.add_0_r.
  - intros q Hq. destruct (coh_live0 q) as [Hl HqP]; [set_solver|]. split; [|done].
    destruct (decide (q = p)) as [->|]; [by rewrite lookup_insert_eq|by rewrite lookup_insert_ne].
  - intros q Hq HqP. destruct (decide (q = p)) as [->|Hqp].
    + destruct (decide (p ∈ root s :: held)) as [|Hn]; [done|]. exfalso. apply E0. rewrite Er'.
       unfold refs. apply count_occ_not_In. by rewrite <- list_elem_of_In.
    + rewrite lookup_insert_ne in Hq by done. specialize (coh_used_refs0 q Hq HqP). set_solver.
  - intros q m Hq. assert (q <> p) by congruence.
    rewrite lookup_insert_ne by done. by apply coh_priv0.
  - intros q m r' Eq Hq. destruct (decide (q = p)) as [->|Hqp].
    + rewrite lookup_insert_eq in Eq. injection Eq as <- <-. by eapply coh_idx0.
    + rewrite lookup_insert_ne in Eq by done. by eapply coh_idx0.
  - intros b q Eq. destruct (coh_obj0 b q Eq) as (m & r' & Em & Eb & HqP).
    destruct (decide (q = p)) as [->|].
    + exists m. rewrite lookup_insert_eq. assert (m = n) as -> by congruence. by eexists.
    + exists m, r'. by rewrite lookup_insert_ne.
  - intros q m r' Eq Hq HqD. destruct (decide (q = p)) as [->|].
    + rewrite lookup_insert_eq in Eq. injection Eq as <- <-. by eapply coh_clean0.
    + rewrite lookup_insert_ne in Eq by done. by eapply coh_clean0.
  - intros q Hq. apply coh_next0. destruct (decide (q = p)) as [->|]; [by rewrite Eo|].
    by rewrite lookup_insert_ne in Hq.
Qed.

Lemma spec_node_deref s held D P p (Q : unit -> state -> Prop) :
  coh s (p :: held) D P -> p ∉ D ->
  (forall s', coh s' held D P -> env_same s s' -> bal s' = bal s -> keeps s s' held ->
     (forall x, vis s' x = vis s x) -> (forall x q, nodes s' !! x = Some q -> nodes s !! x = Some q) -> Q tt s') ->
  spec (nkfs_btree_node_deref p) s Q.
Proof.
  intros C HD HQ. destruct (coh_live _ _ _ _ C p ltac:(set_solver)) as [[[n r0] Eo] HP].
  pose proof (coh_refs _ _ _ _ C p n r0 Eo HP) as Er. rewrite refs_cons, decide_True in Er by done.
  destruct r0 as [|r]; [lia|]. assert (Er' : r = refs s held p) by lia. clear Er.
  unfold spec, nkfs_btree_node_deref. rewrite Eo. destruct (Nat.eqb_spec r 0) as [E0|E0].
  - pose proof (refs_zero s held p ltac:(lia)) as Hno.
    pose proof (coh_idx _ _ _ _ C p n _ Eo HP) as Ei.
    destruct (coh_blocks _ _ _ _ C _ _ Ei) as [_ Hb0].
    unfold nkfs_btree_node_release, nkfs_btree_nodes_remove, nkfs_btree_node_free, bind, get, gets, modify, BUG_ON, ret.
    cbn. rewrite lookup_insert_eq. rewrite (proj2 (Z.eqb_neq _ _)) by lia.
    change (nodes (with_objs ?o s)) with (nodes s). rewrite Ei, Nat.eqb_refl. cbn.
    rewrite lookup_insert_eq. rewrite delete_insert_eq.
    apply (HQ (gone p n s)); try done; clear HQ Q.
    + by eapply coh_gone.
    + intros q b Hq Eq. cbn. rewrite lookup_delete_ne; [done|]. intros <-.
      assert (q = p) as -> by congruence. by apply Hno.
    + by eapply vis_gone.
    + intros x q Hxq. cbn in Hxq. by apply lookup_delete_Some in Hxq as [_ Hxq].
  - apply HQ; try done; clear HQ Q; [by apply coh_unref|by intros q b _ Eq|].
    intros x. unfold vis. cbn. destruct (nodes s !! x) as [q|]; [|done].
    destruct (decide (q = p)) as [->|]; [by rewrite lookup_insert_eq, Eo|by rewrite lookup_insert_ne].
Qed.

(** ** Bringing a node into memory *)

Lemma fresh_next s held D P : coh s held D P -> objs s !! next s = None.
Proof.
  intros C. destruct (objs s !! next s) eqn:E; [|done]. pose proof (coh_next _ _ _ _ C (next s)) as Hn.
  rewrite E in Hn. specialize (Hn ltac:(done)). lia.
Qed.

(** A fresh object enters the index, held once. *)
Lemma coh_adopt s s' held D P p n b :
  coh s held D P -> p = next s -> block n = b -> nodes s !! b = None ->
  root s' = root s -> objs s' = <[p := (n, 1%nat)]> (objs s) -> next s' = S p ->
  nodes s' = <[b := p]> (nodes s) -> nodes_active s' = nodes_active s + 1 ->
  (forall x, x <> b -> disk s' !! x = disk s !! x) -> disk s' !! b = Some n ->
  b ∈ ba_used (bal s') -> 0 < b -> ba_used (bal s) ⊆ ba_used (bal s') -> ba_ok (bal s') ->
  coh s' (p :: held) D P /\ vis s' b = Some n /\ (forall x, x <> b -> vis s' x = vis s x).
Proof.
  intros C -> Eb En Er Eo Ex Ei Ea Ed Edb Hu Hb0 Hsub Hok.
  pose proof (fresh_next _ _ _ _ C) as Fr.
  assert (FrP : P !! next s = None).
  { destruct (P !! next s) eqn:HP; [|done]. apply (coh_priv _ _ _ _ C) in HP as [? HP]. congruence. }
  assert (Frh : next s ∉ root s :: held).
  { intros Hh. destruct (coh_live _ _ _ _ C _ Hh) as [[? Hl] _]. congruence. }
  assert (Hrefs : forall q, refs s' (next s :: held) q = (refs s held q + if decide (q = next s) then 1 else 0)%nat).
  { intros q. rewrite refs_cons. f_equal. unfold refs. by rewrite Er. }
  split; [|split].
  - destruct C. split; rewrite ?Eo, ?Ei, ?Er, ?Ex, ?Ea.
    + intros q m r Eq Hq. rewrite Hrefs. destruct (decide (q = next s)) as [->|Hqp].
      * rewrite lookup_insert_eq in Eq. injection Eq as <- <-.
        assert (refs s held (next s) = 0%nat); [|lia]. unfold refs. apply count_occ_not_In. by rewrite <- list_elem_of_In.
      * rewrite lookup_insert_ne in Eq by done. rewrite (coh_refs0 q m r Eq Hq). lia.
    + intros q Hq. destruct (decide (q = next s)) as [->|Hqp]; [by rewrite lookup_insert_eq|].
      rewrite lookup_insert_ne by done. apply coh_live0. set_solver.
    + intros q Hq HqP. destruct (decide (q = next s)) as [->|Hqp]; [set_solver|].
      rewrite lookup_insert_ne in Hq by done. specialize (coh_used_refs0 q Hq HqP). set_solver.
    + intros q m Hq. rewrite lookup_insert_ne by congruence. by apply coh_priv0.
    + intros q m r Eq Hq. destruct (decide (q = next s)) as [->|Hqp].
      * rewrite lookup_insert_eq in Eq. injection Eq as <- <-. by rewrite Eb, lookup_insert_eq.
      * rewrite lookup_insert_ne in Eq by done. pose proof (coh_idx0 q m r Eq Hq).
        rewrite lookup_insert_ne; [done|]. congruence.
    + intros x q Eq. destruct (decide (x = b)) as [->|Hx].
      * rewrite lookup_insert_eq in Eq. injection Eq as <-. exists n, 1%nat. by rewrite lookup_insert_eq.
      * rewrite lookup_insert_ne in Eq by done. destruct (coh_obj0 x q Eq) as (m & r & Em & Ebm & Hq).
        exists m, r. rewrite lookup_insert_ne; [done|]. congruence.
    + intros q m r Eq Hq HD. destruct (decide (q = next s)) as [->|Hqp].
      * rewrite lookup_insert_eq in Eq. injection Eq as <- <-. by rewrite Eb.
      * rewrite lookup_insert_ne in Eq by done. rewrite Ed; [by eapply coh_clean0|].
        intros Hbm. pose proof (coh_idx0 q m r Eq Hq). congruence.
    + intros q Hq. destruct (decide (q = next s)) as [->|Hqp]; [lia|].
      rewrite lookup_insert_ne in Hq by done. specialize (coh_next0 q Hq). lia.
    + intros x q Eq. destruct (decide (x = b)) as [->|Hx]; [done|].
      rewrite lookup_insert_ne in Eq by done. destruct (coh_blocks0 x q Eq). split; [set_solver|done].
    + intros x m Ed'. destruct (decide (x = b)) as [->|Hx]; [congruence|].
      rewrite Ed in Ed' by done. by apply coh_disk0.
    + rewrite coh_active0. rewrite map_size_insert_None by done. lia.
    + done.
  - unfold vis. rewrite Ei, lookup_insert_eq, Eo, lookup_insert_eq. done.
  - intros x Hx. unfold vis. rewrite Ei, lookup_insert_ne by done. destruct (nodes s !! x) as [q|] eqn:Eq.
    + rewrite Eo, lookup_insert_ne; [done|]. intros <-.
      destruct (coh_obj _ _ _ _ C x _ Eq) as (m & r & Em & _). congruence.
    + by apply Ed.
Qed.

(** Only these parts of the state matter to [coh] and [vis]. *)
Lemma coh_cong s s' held D P : coh s held D P ->
  objs s' = objs s -> (next s <= next s')%nat -> nodes s' = nodes s -> nodes_active s' = nodes_active s ->
  root s' = root s -> disk s' = disk s -> ba_used (bal s) ⊆ ba_used (bal s') -> ba_ok (bal s') ->
  coh s' held D P /\ (forall x, vis s' x = vis s x).
Proof.
  intros [] Eo Ex Ei Ea Er Ed Eu Hok. split; [|intros x; unfold vis; by rewrite Ei, Eo, Ed].
  split; rewrite ?Eo, ?Ei, ?Er, ?Ea, ?Ed; try done.
  - intros p n r E HP. rewrite (coh_refs0 p n r E HP). unfold refs. by rewrite Er.
  - intros p Hp. specialize (coh_next0 p Hp). lia.
  - intros b p E. destruct (coh_blocks0 b p E). split; [set_solver|done].
Qed.

Lemma spec_read s held D P b n (Q : option nat -> state -> Prop) :
  coh s held D P -> 0 < b < ba_size (bal s) -> b ∈ ba_used (bal s) ->
  vis s b = Some n -> sig1 n = NKFS_BTREE_SIG1 -> sig2 n = NKFS_BTREE_SIG2 ->
  (forall s', coh s' held D P -> env_same s s' -> bal s' = bal s -> keeps s s' held ->
     (forall x, vis s' x = vis s x) -> read_fails s s' n -> Q None s') ->
  (forall p s', coh s' (p :: held) D P -> env_same s s' -> bal s' = bal s -> keeps s s' held ->
     (forall x, vis s' x = vis s x) -> nodes s' !! b = Some p -> Q (Some p) s') ->
  spec (nkfs_btree_node_read G b) s Q.
Proof.
  intros C Hb Hu V S1 S2 HN HS. pose proof (coh_ba _ _ _ _ C) as Hok. unfold nkfs_btree_node_read.
  apply spec_bind, spec_gets. apply spec_bind, spec_bug_on; [lia|].
  apply spec_bind. unfold nkfs_btree_nodes_lookup. apply spec_bind, spec_gets.
  destruct (nodes s !! b) as [p|] eqn:E.
  - destruct (coh_obj _ _ _ _ C b p E) as (m & r & Eo & _ & HP).
    apply spec_bind, (spec_node_ref s held D P); [done|apply (coh_used_refs _ _ _ _ C); [by rewrite Eo|done]|].
    intros s' C' En Eb Ei Ev. do 2 apply spec_ret. apply HS; try done; [|by rewrite Ei].
    intros q x _ Hq. by rewrite Ei.
  - apply spec_ret. apply spec_bind, spec_gets.
    assert (Ed : disk s !! b = Some n) by (unfold vis in V; by rewrite E in V).
    rewrite Ed. cbn [default]. pose proof (coh_disk _ _ _ _ C b n Ed) as Bn.
    assert (En : set_block b n = n) by (destruct n; cbn in *; by subst). change (id n) with n. rewrite En.
    apply spec_bind, spec_alloc; intros F1.
    { destruct (coh_cong s (with_rtick (S (rtick s)) s) held D P C) as [C' V']; try done.
      apply spec_ret. apply HN; try done; [split; try done; cbn; lia|by intros ? ? _ ?|left; exists (rtick s); split; [cbn; lia|done]]. }
    apply spec_bind, spec_rfails. apply spec_bind, (spec_get_obj (next s) n 1); [by cbn; rewrite lookup_insert_eq|].
    apply spec_bind, spec_gets.
    rewrite bool_decide_true by done. rewrite S1, S2, !Z.eqb_refl. cbn [negb orb].
    cbn [rfail rtick reads_back new_obj with_rtick]. rewrite !orb_false_r.
    destruct (rfail s (S (rtick s)) || negb (reads_back s n)) eqn:F2.
    { apply spec_bind, (spec_free_obj _ n 1); [by cbn; rewrite lookup_insert_eq|]. apply spec_ret.
      match goal with |- Q None ?s1 => destruct (coh_cong s s1 held D P C) as [C' V']; try done; cbn end.
      { rewrite delete_insert_id; [done|]. by eapply fresh_next. } { lia. }
      apply HN; try done; [split; try done; cbn; lia|by intros ? ? _ ?|].
      apply orb_true_iff in F2 as [F2|F2]; [left; exists (S (rtick s)); split; [cbn; lia|done]|right; by apply negb_true_iff]. }
    apply spec_bind, (spec_insert_new _ n 0); [by cbn; rewrite lookup_insert_eq|by cbn; rewrite Bn|].
    rewrite Nat.eqb_refl. cbn [negb].
    apply spec_bind, (spec_deref_obj _ n 0); [by cbn; rewrite lookup_insert_eq|]. apply spec_ret.
    match goal with |- Q (Some _) ?s1 =>
      destruct (coh_adopt s s1 held D P (next s) n b C) as (C' & V1 & V2); try done; try lia end.
    { cbn. by rewrite !insert_insert_eq. } { cbn. by rewrite Bn. }
    apply HS; try done.
    + split; try done; cbn; lia.
    + intros q x Hq Hx. cbn. rewrite Bn, lookup_insert_ne; [done|]. congruence.
    + intros x. destruct (decide (x = b)) as [->|]; [congruence|by apply V2].
    + cbn. by rewrite Bn, lookup_insert_eq.
Qed.

(** ** Creating a node *)

(** One of the next [n] allocations of a block fails. *)
Fixpoint alloc_fails (n : nat) (b : B) : bool :=
  match n with
  | O => false
  | Datatypes.S n' =>
      match ba_alloc b with
      | Ret (Some _, b') => alloc_fails n' b'
      | Ret (None, _) => true
      | Bug => false
      end
  end.

Lemma alloc_fails_mono n m b : (n <= m)%nat -> alloc_fails n b = true -> alloc_fails m b = true.
Proof.
  revert m b. induction n as [|n IH]; intros m b Hm; [done|]. destruct m as [|m]; [lia|]. cbn.
  destruct (ba_alloc b) as [[[x|] b']|]; [|done..]. apply IH. lia.
Qed.

Lemma alloc_fails_next n b x b' : ba_alloc b = Ret (Some x, b') -> alloc_fails n b' = true -> alloc_fails (1 + n) b = true.
Proof. intros E. cbn. by rewrite E. Qed.

(** An empty node at block [b]. *)
Definition empty_node (b : Z) : node := set_block b (nkfs_btree_node_alloc_node G).

(** The whole effect, whatever else is in memory. *)
Lemma spec_create_raw s (Q : option nat -> state -> Prop) :
  objs s !! next s = None -> writes_ok s -> ba_ok (bal s) -> (forall b p, nodes s !! b = Some p -> b ∈ ba_used (bal s)) ->
  (forall s', objs s' = objs s -> (next s <= next s')%nat -> nodes s' = nodes s -> nodes_active s' = nodes_active s ->
     disk s' = disk s -> env_same s s' -> ba_used (bal s) ⊆ ba_used (bal s') -> ba_ok (bal s') ->
     tick_fails s s' \/ (exists b', ba_alloc (bal s) = Ret (None, b')) -> Q None s') ->
  (forall b s', objs s' = <[next s := (empty_node b, 1%nat)]> (objs s) -> next s' = S (next s) ->
     nodes s' = <[b := next s]> (nodes s) -> nodes_active s' = nodes_active s + 1 ->
     disk s' = <[b := empty_node b]> (disk s) -> env_same s s' -> b ∉ ba_used (bal s) -> 0 < b < ba_size (bal s) ->
     {[b]} ∪ ba_used (bal s) ⊆ ba_used (bal s') -> ba_ok (bal s') -> ba_alloc (bal s) = Ret (Some b, bal s') -> Q (Some (next s)) s') ->
  spec (nkfs_btree_node_create G) s Q.
Proof.
  intros Fr Wo Hok Hidx HN HS. unfold nkfs_btree_node_create.
  apply spec_bind, spec_alloc; intros F1.
  { apply spec_ret. apply HN; try done; [split; try done; cbn; lia|]. left. exists (rtick s). split; [cbn; lia|done]. }
  apply spec_bind. unfold spec at 1, balloc_alloc. cbn [bal new_obj with_rtick].
  destruct (ba_alloc_ok _ Hok) as ([b|] & b' & Ea & Hok' & Eu & Es & Hb); rewrite Ea.
  - destruct Hb as (Hb & Hu & Hu').
    apply spec_bind, (spec_get_obj (next s) (nkfs_btree_node_alloc_node G) 1); [by cbn; rewrite lookup_insert_eq|].
    apply spec_bind, (spec_put_obj (next s) (nkfs_btree_node_alloc_node G) 1); [by cbn; rewrite lookup_insert_eq|].
    fold (empty_node b). apply spec_bind. unfold nkfs_btree_node_write.
    apply spec_bind, (spec_get_obj (next s) (empty_node b) 1); [by cbn; rewrite lookup_insert_eq|].
    apply spec_bind, spec_bug_on; [done|]. apply spec_bind, spec_gets. cbn [bal with_objs with_bal].
    apply spec_bind, spec_bug_on; [cbn [block empty_node set_block]; lia|].
    apply spec_bind. unfold spec at 1, wends. cbn [wfail wtick with_objs with_bal new_obj with_rtick]. rewrite Wo.
    apply spec_bind, spec_modify. apply spec_ret. cbn [Z.eqb negb].
    assert (Eno : nodes s !! b = None).
    { destruct (nodes s !! b) eqn:E; [|done]. by apply Hidx in E. }
    apply spec_bind, (spec_insert_new _ (empty_node b) 0); [by cbn; rewrite lookup_insert_eq|by cbn|].
    rewrite Nat.eqb_refl. cbn [negb].
    apply spec_bind, (spec_deref_obj _ (empty_node b) 0); [by cbn; rewrite lookup_insert_eq|]. apply spec_ret.
    apply (HS b); try done; [cbn; by rewrite !insert_insert_eq|split; try done; cbn; lia|cbn; clear -Eu Hu'; set_solver].
  - apply spec_bind, (spec_free_obj _ (nkfs_btree_node_alloc_node G) 1); [by cbn; rewrite lookup_insert_eq|].
    apply spec_ret. apply HN; try done; cbn; [by rewrite delete_insert_id|lia|split; try done; cbn; lia|right; by eexists _].
Qed.

Lemma spec_create s held D P (Q : option nat -> state -> Prop) :
  coh s held D P -> writes_ok s ->
  (forall s', coh s' held D P -> env_same s s' -> ba_used (bal s) ⊆ ba_used (bal s') -> keeps s s' held ->
     (forall x, vis s' x = vis s x) -> tick_fails s s' \/ alloc_fails 1 (bal s) = true -> Q None s') ->
  (forall p b s', coh s' (p :: held) D P -> env_same s s' ->
     b ∉ ba_used (bal s) -> 0 < b < ba_size (bal s) -> {[b]} ∪ ba_used (bal s) ⊆ ba_used (bal s') ->
     keeps s s' held -> p ∉ root s :: held -> nodes s' !! b = Some p ->
     vis s' b = Some (empty_node b) -> (forall x, x <> b -> vis s' x = vis s x) ->
     ba_alloc (bal s) = Ret (Some b, bal s') -> Q (Some p) s') ->
  spec (nkfs_btree_node_create G) s Q.
Proof.
  intros C Wo HN HS. pose proof (fresh_next _ _ _ _ C) as Fr. apply spec_create_raw; [done|done|apply C| | |].
  - intros b p E. by apply (coh_blocks _ _ _ _ C) in E as [E _].
  - intros s' Eo En Ei Ea Ed Es Hu Hok Hf. destruct (coh_cong s s' held D P C) as [C' V']; try done; [apply Es|].
    apply HN; try done; [intros q x _ Hx; by rewrite Ei|]. destruct Hf as [|[b' Hf]]; [by left|right; cbn; by rewrite Hf].
  - intros b s' Eo En Ei Ea Ed Es Hb Hr Hu Hok Hal.
    assert (Eno : nodes s !! b = None).
    { destruct (nodes s !! b) eqn:E; [|done]. by apply (coh_blocks _ _ _ _ C) in E as [E _]. }
    destruct (coh_adopt s s' held D P (next s) (empty_node b) b C) as (C' & V1 & V2); try done; try lia.
    { apply Es. } { intros x Hx. by rewrite Ed, lookup_insert_ne. } { by rewrite Ed, lookup_insert_eq. }
    { clear -Hu. set_solver. } { clear -Hu. set_solver. }
    apply (HS (next s) b); try done.
    + intros q x Hq Hx. rewrite Ei, lookup_insert_ne; [done|]. congruence.
    + intros Hh. destruct (coh_live _ _ _ _ C _ Hh) as [[? Hl] _]. congruence.
    + by rewrite Ei, lookup_insert_eq.
Qed.

(** ** Undoing a creation *)

(** [nkfs_btree_node_delete] and the last [NKFS_BTREE_NODE_DEREF] of a node. *)
Lemma spec_delete_deref s held D P p b (Q : unit -> state -> Prop) :
  coh s (p :: held) D P -> p ∉ root s :: held -> nodes s !! b = Some p ->
  (forall s', coh s' held D P -> env_same s s' -> keeps s s' held ->
     ba_used (bal s) ∖ {[b]} ⊆ ba_used (bal s') -> ba_used (bal s') ⊆ ba_used (bal s) ->
     (forall x, x <> b -> vis s' x = vis s x) -> Q tt s') ->
  spec (bind (nkfs_btree_node_delete p) (fun _ => nkfs_btree_node_deref p)) s Q.
Proof.
  intros C Hp E HQ. destruct (coh_obj _ _ _ _ C b p E) as (n & r & Eo & Bn & HP).
  pose proof (coh_refs _ _ _ _ C p n r Eo HP) as Er. rewrite refs_cons, decide_True in Er by done.
  assert (refs s held p = 0%nat) as Er0 by (unfold refs; apply count_occ_not_In; by rewrite <- list_elem_of_In).
  assert (r = 1%nat) as -> by lia. clear Er Er0.
  destruct (coh_blocks _ _ _ _ C b p E) as [Hu Hb0].
  destruct (ba_free_ok b (bal s) (coh_ba _ _ _ _ C) Hu Hb0) as (e & b' & Ef & Hok & U1 & U2 & U3).
  unfold nkfs_btree_node_delete, nkfs_btree_nodes_remove.
  apply spec_bind, spec_bind, spec_bind, (spec_get_obj p n 1); [done|].
  rewrite Bn, (proj2 (Z.eqb_neq _ _)) by lia. apply spec_bind, spec_gets. rewrite E.
  apply spec_bind, spec_bug_on; [by rewrite Nat.eqb_refl|]. apply spec_modify.
  apply spec_bind, (spec_get_obj p n 1); [done|]. apply spec_bind. unfold spec at 1, balloc_free.
  cbn [bal with_nodes]. rewrite Bn, Ef. apply (spec_put_obj p n 1); [done|].
  unfold spec, nkfs_btree_node_deref. cbn. rewrite lookup_insert_eq. cbn.
  unfold nkfs_btree_node_release, nkfs_btree_nodes_remove, bind, get. cbn. rewrite lookup_insert_eq. cbn.
  unfold nkfs_btree_node_free. cbn. rewrite lookup_insert_eq.
  rewrite !delete_insert_eq. apply HQ; try done; clear HQ Q.
  - destruct C. split; cbn.
    + intros q m r Eq Hq. apply lookup_delete_Some in Eq as [Hqp Eq]. rewrite (coh_refs0 q m r Eq Hq).
      rewrite refs_cons, decide_False by done. by rewrite Nat.add_0_r.
    + intros q Hq. destruct (coh_live0 q) as [Hl HqP]; [set_solver|]. split; [|done].
      rewrite lookup_delete_ne; [done|]. intros ->. done.
    + intros q Hq HqP. destruct (decide (q = p)) as [->|Hqp]; [by rewrite lookup_delete_eq in Hq; destruct Hq|].
      rewrite lookup_delete_ne in Hq by done. specialize (coh_used_refs0 q Hq HqP). set_solver.
    + intros q m Hq. rewrite lookup_delete_ne by congruence. by apply coh_priv0.
    + intros q m r Eq Hq. apply lookup_delete_Some in Eq as [Hqp Eq]. pose proof (coh_idx0 q m r Eq Hq) as Ei'.
      rewrite lookup_delete_ne; [done|]. intros Eb. congruence.
    + intros x q Eq. apply lookup_delete_Some in Eq as [Hb Eq]. destruct (coh_obj0 x q Eq) as (m & r & Em & <- & HqP).
      exists m, r. rewrite lookup_delete_ne; [done|]. intros ->. congruence.
    + intros q m r Eq Hq HqD. apply lookup_delete_Some in Eq as [Hqp Eq]. by eapply coh_clean0.
    + intros q Hq. apply coh_next0. destruct (decide (q = p)) as [->|Hqp]; [by rewrite Eo|].
      by rewrite lookup_delete_ne in Hq.
    + intros x q Eq. apply lookup_delete_Some in Eq as [Hb Eq]. destruct (coh_blocks0 x q Eq). split; [set_solver|done].
    + done.
    + rewrite coh_active0. rewrite map_size_delete, E.
      assert (size (nodes s) <> 0%nat) by (intros Hs; apply map_size_empty_inv in Hs; rewrite Hs in E; done).
      lia.
    + done.
  - intros q x Hq Eq. cbn. rewrite lookup_delete_ne; [done|]. intros <-.
    assert (q = p) as -> by congruence. done.
  - intros x Hx. unfold vis. cbn. rewrite lookup_delete_ne by done.
    destruct (nodes s !! x) as [q|] eqn:Eq; [|done].
    rewrite lookup_delete_ne; [done|]. intros ->.
    destruct (coh_obj _ _ _ _ C x q Eq) as (m & r & Em & Ex & _). congruence.
Qed.

(** ** Objects outside the index *)

Lemma coh_alloc_priv s held D P n : coh s held D P ->
  let s' := new_obj (next s) n (with_rtick (S (rtick s)) s) in
  coh s' held D (<[next s := n]> P) /\ (forall x, vis s' x = vis s x).
Proof.
  intros C s'. pose proof (fresh_next _ _ _ _ C) as Fr. split.
  - assert (Hne : forall q, is_Some (objs s !! q) -> q <> next s) by (intros q Hq ->; rewrite Fr in Hq; by destruct Hq).
    destruct C. split; cbn; try done.
    + intros q m r Eq [Hq Hqn]%lookup_insert_None. rewrite lookup_insert_ne in Eq by done. by apply (coh_refs0 q m r Eq).
    + intros q Hq. destruct (coh_live0 q Hq) as [Hl HP]. pose proof (Hne q Hl).
      by rewrite !lookup_insert_ne by done.
    + intros q Hq [HqP Hqn]%lookup_insert_None. rewrite lookup_insert_ne in Hq by done. by apply coh_used_refs0.
    + intros q m Hq. destruct (decide (q = next s)) as [->|].
      * rewrite lookup_insert_eq in Hq. rewrite lookup_insert_eq. injection Hq as <-. by eexists.
      * rewrite lookup_insert_ne in Hq by done. rewrite lookup_insert_ne by done. by apply coh_priv0.
    + intros q m r Eq [Hq Hqn]%lookup_insert_None. rewrite lookup_insert_ne in Eq by done. by apply (coh_idx0 q m r Eq).
    + intros x q Eq. destruct (coh_obj0 x q Eq) as (m & r & Em & Eb & HqP). exists m, r.
      pose proof (Hne q ltac:(by rewrite Em)). by rewrite !lookup_insert_ne by done.
    + intros q m r Eq [Hq Hqn]%lookup_insert_None HD. rewrite lookup_insert_ne in Eq by done. by apply (coh_clean0 q m r Eq).
    + intros q Hq. destruct (decide (q = next s)) as [->|]; [lia|]. rewrite lookup_insert_ne in Hq by done.
      specialize (coh_next0 q Hq). lia.
  - intros x. unfold vis. cbn. destruct (nodes s !! x) as [q|] eqn:Eq; [|done].
    rewrite lookup_insert_ne; [done|]. intros <-. destruct (coh_obj _ _ _ _ C x _ Eq) as (m & r & Em & _). congruence.
Qed.

Lemma spec_get_priv s held D P p n (Q : node -> state -> Prop) :
  coh s held D P -> P !! p = Some n -> Q n s -> spec (get p) s Q.
Proof. intros C HP HQ. destruct (coh_priv _ _ _ _ C p n HP) as [r Eo]. by eapply spec_get_obj. Qed.

Lemma spec_put_priv s held D P p n n' (Q : unit -> state -> Prop) :
  coh s held D P -> P !! p = Some n ->
  (forall s', coh s' held D (<[p := n']> P) -> env_same s s' -> bal s' = bal s -> nodes s' = nodes s ->
     (forall x, vis s' x = vis s x) -> Q tt s') ->
  spec (put p n') s Q.
Proof.
  intros C HP HQ. destruct (coh_priv _ _ _ _ C p n HP) as [r Eo]. eapply spec_put_obj; [exact Eo|].
  apply HQ; try done; clear HQ Q.
  - destruct C. split; cbn; try done.
    + intros q m r' Eq [Hq Hqn]%lookup_insert_None. rewrite lookup_insert_ne in Eq by done. by eapply coh_refs0.
    + intros q Hq. destruct (coh_live0 q Hq). assert (p <> q) by congruence. by rewrite !lookup_insert_ne by done.
    + intros q Hq [HqP Hqn]%lookup_insert_None. rewrite lookup_insert_ne in Hq by done. by apply coh_used_refs0.
    + intros q m Hq. destruct (decide (q = p)) as [->|].
      * rewrite lookup_insert_eq in Hq. rewrite lookup_insert_eq. injection Hq as <-. by eexists.
      * rewrite lookup_insert_ne in Hq by done. rewrite lookup_insert_ne by done. by apply coh_priv0.
    + intros q m r' Eq [Hq Hqn]%lookup_insert_None. rewrite lookup_insert_ne in Eq by done. by eapply coh_idx0.
    + intros x q Eq. destruct (coh_obj0 x q Eq) as (m & r' & Em & Eb & HqP). exists m, r'.
      assert (p <> q) by congruence. by rewrite !lookup_insert_ne by done.
    + intros q m r' Eq [Hq Hqn]%lookup_insert_None HD. rewrite lookup_insert_ne in Eq by done. by eapply coh_clean0.
    + intros q Hq. apply coh_next0. destruct (decide (q = p)) as [->|]; [by rewrite Eo|].
      by rewrite lookup_insert_ne in Hq.
  - intros x. unfold vis. cbn. destruct (nodes s !! x) as [q|] eqn:Eq; [|done].
    rewrite lookup_insert_ne; [done|]. intros <-. destruct (coh_obj _ _ _ _ C x _ Eq) as (m & r' & Em & _ & Hq). congruence.
Qed.

Lemma spec_free_priv s held D P p n (Q : unit -> state -> Prop) :
  coh s held D P -> P !! p = Some n ->
  (forall s', coh s' held D (delete p P) -> env_same s s' -> bal s' = bal s -> nodes s' = nodes s ->
     (forall x, vis s' x = vis s x) -> Q tt s') ->
  spec (nkfs_btree_node_free p) s Q.
Proof.
  intros C HP HQ. destruct (coh_priv _ _ _ _ C p n HP) as [r Eo]. eapply spec_free_obj; [exact Eo|].
  apply HQ; try done; clear HQ Q.
  - assert (Hd : forall q, delete p P !! q = None -> q <> p -> P !! q = None).
    { intros q Hq Hqp. by rewrite lookup_delete_ne in Hq. }
    assert (Hd' : forall q, P !! q = None -> delete p P !! q = None).
    { intros q Hq. apply lookup_delete_None. by right. }
    destruct C. split; cbn; try done.
    + intros q m r' Eq Hq. apply lookup_delete_Some in Eq as [Hqp Eq]. apply (coh_refs0 q m r' Eq). auto.
    + intros q Hq. destruct (coh_live0 q Hq). assert (p <> q) by congruence. rewrite lookup_delete_ne by done. auto.
    + intros q Hq HqP. destruct (decide (q = p)) as [->|Hqp]; [by rewrite lookup_delete_eq in Hq; destruct Hq|].
      rewrite lookup_delete_ne in Hq by done. apply coh_used_refs0; auto.
    + intros q m Hq. apply lookup_delete_Some in Hq as [Hqp Hq]. rewrite lookup_delete_ne by done. by apply coh_priv0.
    + intros q m r' Eq Hq. apply lookup_delete_Some in Eq as [Hqp Eq]. apply (coh_idx0 q m r' Eq). auto.
    + intros x q Eq. destruct (coh_obj0 x q Eq) as (m & r' & Em & Eb & HqP). exists m, r'.
      assert (p <> q) by congruence. rewrite lookup_delete_ne by done. auto.
    + intros q m r' Eq Hq HD. apply lookup_delete_Some in Eq as [Hqp Eq]. apply (coh_clean0 q m r' Eq); auto.
    + intros q Hq. apply coh_next0. destruct (decide (q = p)) as [->|Hqp]; [by rewrite lookup_delete_eq in Hq; destruct Hq|].
      by rewrite lookup_delete_ne in Hq.
  - intros x. unfold vis. cbn. destruct (nodes s !! x) as [q|] eqn:Eq; [|done].
    rewrite lookup_delete_ne; [done|]. intros <-. destruct (coh_obj _ _ _ _ C x _ Eq) as (m & r' & Em & _ & Hq). congruence.
Qed.

End Mem.

End BtreeMem.
