(* ===== verification/BtreeInsert.v ===== *)
(** * Insertion into a tree with room

    The lemmas under [nkfs_btree_insert_key]: a slot is made in a leaf, a full
    child is split before the walk enters it, and the walk from a root with room
    leaves a tree that lists the new entry in its place, whatever allocations and
    reads fail.  BtreeGrow adds the case of a full root. *)

From Stdlib Require Import ZArith Lia.
From coqutil Require Import Byte.
From stdpp Require Import base list gmap.
From S2P Require Import Prelude StMonad BtreeNode BtreeNodeSpec Btree BtreeRep BtreeMem.
Import StMonad BtreeNode BtreeNodeSpec Btree BtreeRep BtreeMem.
Local Open Scope Z_scope.

Module BtreeInsert.

(** ** Updating the list *)

Lemma kv_ins_new k v a c :
  (forall x, x ∈ a -> ekey x < key_val k) -> (forall x, x ∈ c -> key_val k < ekey x) ->
  kv_ins k v (a ++ c) = a ++ (k, v) :: c.
Proof. intros Ha Hc. exact (kv_ins_middle k v a [] c Ha Hc). Qed.

Lemma kv_ins_old k v v0 a c : sorted (a ++ (k, v0) :: c) ->
  kv_ins k v (a ++ (k, v0) :: c) = a ++ (k, v) :: c.
Proof.
  intros Hs. apply sorted_app in Hs as (_ & Hs & H1). apply sorted_cons in Hs as [_ H2].
  change ((k, v0) :: c) with ([(k, v0)] ++ c). rewrite kv_ins_middle.
  - f_equal. unfold kv_ins. rewrite !filter_cons_False by (unfold ekey; cbn; lia). done.
  - intros x Hx. apply (H1 x (k, v0)); [done|by left].
  - intros x Hx. by apply (H2 x).
Qed.

Definition has_entry (k : list byte) (l : list (list byte * Z)) : Prop :=
  exists e, e ∈ l /\ ekey e = key_val k.

Section Insert.
Context {B : Type} `{BlockAlloc B}.
Context (G : geom) (GO : geom_ok G).

Local Abbreviation state := (@Btree.state B).
Local Abbreviation M := (StMonad.M (@Btree.state B)).

Lemma coh_perm s held held' D P : held ≡ₚ held' -> coh s held D P -> coh s held' D P.
Proof.
  intros Hp C. assert (Hin : forall q, q ∈ root s :: held' <-> q ∈ root s :: held).
  { intros q. rewrite !elem_of_cons, Hp. done. }
  assert (Hr : forall q, refs s held' q = refs s held q).
  { intros q. unfold refs. apply (Permutation_count_occ Nat.eq_dec). apply perm_skip. by symmetry. }
  destruct C. split; try done.
  - intros p n r E HP. rewrite Hr. by eapply coh_refs0.
  - intros p Hq. apply coh_live0. by apply Hin.
  - intros p Hq HP. apply Hin. by apply coh_used_refs0.
Qed.

Definition hold (p first : nat) (held : list nat) : list nat := if (p =? first)%nat then held else p :: held.

Lemma hold_sub p first held q : q ∈ held -> q ∈ hold p first held.
Proof. intros Hq. unfold hold. destruct (p =? first)%nat; [done|by right]. Qed.

Lemma spec_deref_unless s held D P p (Q : unit -> state -> Prop) :
  coh s (hold p (root s) held) D P -> p ∉ D ->
  (forall s', coh s' held D P -> env_same s s' -> bal s' = bal s -> keeps s s' held ->
     (forall x, vis s' x = vis s x) -> Q tt s') ->
  spec (deref_unless p (root s)) s Q.
Proof.
  unfold hold, deref_unless. intros C HD HQ. destruct (Nat.eqb_spec p (root s)).
  - apply spec_ret. apply HQ; try done. apply keeps_refl.
  - eapply spec_node_deref; [exact C|done|]. intros. by apply HQ.
Qed.

(** ** Updating one node *)

Lemma value_ok n i v : node_ok G n -> (i < nr_keys n)%nat ->
  exists n', set_value G n i v = Ret n' /\ node_ok G n' /\ nr_keys n' = nr_keys n /\ block n' = block n /\
  leaf n' = leaf n /\ kids n' = kids n /\
  entries n' = take i (entries n) ++ (keys n !!! i, v) :: drop (S i) (entries n).
Proof.
  intros N Hi. pose proof (entries_lookup G GO n i N Hi) as Ei. destruct N as [P L Fk Sg]. destruct GO.
  pose proof (pages_values _ _ P) as Lv. pose proof (pages_keys _ _ P) as Lk.
  unfold set_value. rewrite (proj2 (Nat.leb_gt _ _)) by lia. cbn [bug_on].
  eexists. split; [done|]. split; [|split; [done|split; [done|split; [done|split; [done|]]]]].
  - split; try done. destruct P. split; cbn; try done. by rewrite length_insert.
  - assert (E : entries (set_values (<[i := v]> (values n)) n) = <[i := (keys n !!! i, v)]> (entries n)).
    { unfold entries. cbn. rewrite take_insert_lt by done. rewrite insert_zip_with. f_equal.
      symmetry. apply list_insert_id. rewrite lookup_take_lt by done. apply list_lookup_lookup_total_lt. lia. }
    rewrite E. apply insert_take_drop. apply lookup_lt_Some in Ei. exact Ei.
Qed.

(** The value of an entry in the root of a subtree is replaced. *)
Lemma bt_set_value d d' h m b l S n n' k v i :
  bt G d h m b l S -> d b = Some n -> sorted l -> (i < nr_keys n)%nat -> keys n !!! i = k ->
  node_ok G n' -> nr_keys n' = nr_keys n -> block n' = block n -> leaf n' = leaf n -> kids n' = kids n ->
  entries n' = take i (entries n) ++ (k, v) :: drop (Datatypes.S i) (entries n) ->
  d' b = Some n' -> (forall x, x ∈ S -> x <> b -> d' x = d x) ->
  bt G d' h m b (kv_ins k v l) S.
Proof.
  intros Hbt E Hs Hi Hk N' Hn Hb Hl Hkd He E' Hfr. destruct h as [|h]; cbn in Hbt |- *.
  - destruct Hbt as (n0 & E0 & N & B0 & M0 & L0 & -> & ->). rewrite E in E0. injection E0 as <-.
    pose proof (entries_lookup G GO n i N Hi) as Ei. rewrite Hk in Ei.
    exists n'. rewrite Hn, Hb, Hl. repeat (split; [done|]). split; [|done]. rewrite He.
    rewrite <- (take_drop_middle _ _ _ Ei) in Hs |- * at 1. by apply (kv_ins_old k v (values n !!! i)).
  - destruct Hbt as (n0 & ts & E0 & N & B0 & M0 & L0 & H1 & K & F & -> & -> & Hb' & D).
    rewrite E in E0. injection E0 as <-. pose proof (entries_lookup G GO n i N Hi) as Ei. rewrite Hk in Ei.
    pose proof (entries_length G GO n N) as Le.
    assert (Lt : length ts = (nr_keys n + 1)%nat).
    { apply (f_equal length) in K. by rewrite (kids_length G GO), length_map in K. }
    exists n', ts. rewrite Hn, Hb, Hl, Hkd. repeat (split; [done|]). split; [|split; [|done]].
    + rewrite Forall_forall in F |- *. intros t Ht. apply (bt_ext G GO d d'); [|by apply F].
      intros x Hx. assert (x ∈ ⋃ map ss ts).
      { apply elem_of_union_list. exists (ss t). split; [|done]. apply list_elem_of_fmap. by exists t. }
      apply Hfr; set_solver.
    + rewrite He. set (ls := map sl ts) in *. assert (length ls = (nr_keys n + 1)%nat) by (unfold ls; by rewrite length_map).
      rewrite <- (take_drop_middle _ _ _ Ei) in Hs |- * at 1.
      rewrite <- (take_drop (i + 1) ls) in Hs |- *.
      rewrite weave_app in Hs |- * by (rewrite !length_take; lia).
      rewrite weave_app by (rewrite !length_take; lia).
      by apply (kv_ins_old k v (values n !!! i)).
Qed.

(** An entry is added to a leaf. *)
Lemma bt_leaf_insert d d' m b l S n n' k v i :
  bt G d 0 m b l S -> d b = Some n ->
  (i <= nr_keys n)%nat -> (forall j, (j < i)%nat -> kv n j < key_val k) ->
  (forall j, (i <= j < nr_keys n)%nat -> key_val k < kv n j) ->
  node_ok G n' -> nr_keys n' = (nr_keys n + 1)%nat -> block n' = block n -> leaf n' = leaf n ->
  entries n' = take i (entries n) ++ (k, v) :: drop i (entries n) ->
  d' b = Some n' -> bt G d' 0 m b (kv_ins k v l) S.
Proof.
  intros Hbt E Hi Hlo Hhi N' Hn Hb Hl He E'. cbn in Hbt |- *.
  destruct Hbt as (n0 & E0 & N & B0 & M0 & L0 & -> & ->). rewrite E in E0. injection E0 as <-.
  exists n'. rewrite Hb, Hl. split; [done|]. split; [done|]. split; [done|]. split; [lia|].
  split; [done|]. split; [|done]. rewrite He. rewrite <- (take_drop i (entries n)) at 1.
  pose proof (entries_length G GO n N) as Le. apply kv_ins_new.
  - intros x Hx. apply list_elem_of_lookup in Hx as [j Hj]. pose proof (lookup_lt_Some _ _ _ Hj) as Hj'.
    rewrite length_take in Hj'. rewrite lookup_take_lt in Hj by lia.
    rewrite (entries_lookup G GO) in Hj by (done || lia). injection Hj as <-. apply Hlo. lia.
  - intros x Hx. apply list_elem_of_lookup in Hx as [j Hj]. pose proof (lookup_lt_Some _ _ _ Hj) as Hj'.
    rewrite length_drop in Hj'. rewrite lookup_drop in Hj.
    rewrite (entries_lookup G GO) in Hj by (done || lia). injection Hj as <-. apply Hhi. lia.
Qed.

(** An entry of the root node is an entry of the subtree. *)
Lemma bt_has_entry d h m b l S n i : bt G d h m b l S -> d b = Some n -> (i < nr_keys n)%nat ->
  (keys n !!! i, values n !!! i) ∈ l.
Proof.
  intros Hbt E Hi. destruct h as [|h]; cbn in Hbt.
  - destruct Hbt as (n0 & E0 & N & B0 & M0 & L0 & -> & ->). rewrite E in E0. injection E0 as <-.
    eapply list_elem_of_lookup_2. by apply (entries_lookup G GO).
  - destruct Hbt as (n0 & ts & E0 & N & B0 & M0 & L0 & H1 & K & F & -> & _).
    rewrite E in E0. injection E0 as <-. eapply sublist_subseteq.
    2: { eapply list_elem_of_lookup_2. by apply (entries_lookup G GO). }
    apply weave_entries. apply (f_equal length) in K. rewrite (kids_length G GO), length_map in K by done.
    rewrite length_map, (entries_length G GO) by done. lia.
Qed.

(** ** Progress of an operation on a subtree *)

Definition uses (s : state) (S : gset Z) : Prop :=
  forall x, x ∈ S -> x ∈ ba_used (bal s) /\ 0 < x < ba_size (bal s).

(** The blocks [S] of a subtree have become [S1]; blocks in use outside it are
    as they were. *)
Record prog (s s1 : state) (held : list nat) (S S1 : gset Z) : Prop := {
  prog_env : env_same s s1;
  prog_used : ba_used (bal s) ⊆ ba_used (bal s1);
  prog_keeps : keeps s s1 held;
  prog_sub : S ⊆ S1;
  prog_new x : x ∈ S1 -> x ∈ S \/ x ∉ ba_used (bal s);
  prog_frame x : x ∈ ba_used (bal s) -> x ∉ S -> vis s1 x = vis s x
}.

Lemma keeps_trans (s s1 s2 : state) held : root s1 = root s -> keeps s s1 held -> keeps s1 s2 held -> keeps s s2 held.
Proof. intros E K1 K2 p b Hp Hb. apply K2; [by rewrite E|]. by apply K1. Qed.

Lemma keeps_sub (s s1 : state) held held' : (forall p, p ∈ held' -> p ∈ held) -> keeps s s1 held -> keeps s s1 held'.
Proof. intros Hs K p b Hp Hb. apply K; [|done]. apply elem_of_cons in Hp as [->|Hp]; [by left|right; auto]. Qed.

Lemma prog_refl s held S : prog s s held S S.
Proof. split; try done; [apply keeps_refl|]. intros x Hx. by left. Qed.

Lemma prog_trans s s1 s2 held S S1 S2 :
  prog s s1 held S S1 -> prog s1 s2 held S1 S2 -> prog s s2 held S S2.
Proof.
  intros [E1 U1 K1 B1 N1 F1] [E2 U2 K2 B2 N2 F2]. split.
  - by eapply tree_env_trans.
  - set_solver.
  - eapply keeps_trans; [apply E1|done..].
  - set_solver.
  - intros x Hx. destruct (N2 x Hx) as [Hx'|Hx']; [auto|]. right. set_solver.
  - intros x Hu Hx. rewrite F2; [by apply F1|set_solver|]. intros Hx1. destruct (N1 x Hx1); done.
Qed.

(** Nothing but memory moved. *)
Lemma prog_still s s1 held S : env_same s s1 -> ba_used (bal s) ⊆ ba_used (bal s1) -> keeps s s1 held ->
  (forall x, vis s1 x = vis s x) -> prog s s1 held S S.
Proof. intros E U K V. split; auto. Qed.

(** One node of the subtree changed. *)
Lemma prog_node s s1 held S b : env_same s s1 -> bal s1 = bal s -> nodes s1 = nodes s -> b ∈ S ->
  (forall x, x <> b -> vis s1 x = vis s x) -> prog s s1 held S S.
Proof.
  intros E U K Hb V. split; auto; [by rewrite U|by intros ? ? _ ?; rewrite K|].
  intros x Hu Hx. apply V. set_solver.
Qed.

Lemma uses_env s s1 S : env_same s s1 -> ba_used (bal s) ⊆ ba_used (bal s1) -> uses s S -> uses s1 S.
Proof. intros E U Hu x Hx. destruct (Hu x Hx). rewrite (env_size _ _ E). split; [by apply U|done]. Qed.

Context (k : list byte) (v : Z) (replace : bool) (Hk : key_ok k).

(** Why a call on the tree at block [b], which has the blocks [S] in the end, gave
    up between [s] and [s']: an allocation of memory or a read of the disk failed
    meanwhile, one of the next [N] allocations of a block fails, or a node below
    [b] does not read back. *)
Definition trouble (N : nat) (b : Z) (S : gset Z) (s s' : state) : Prop :=
  tick_fails s s' \/ alloc_fails N (bal s) = true \/
  exists x c, x ∈ S /\ x <> b /\ vis s' x = Some c /\ reads_back s' c = false.

Lemma trouble_before N a b S s s1 s' : env_same s s1 -> env_same s1 s' ->
  (forall n, alloc_fails n (bal s1) = true -> alloc_fails (a + n) (bal s) = true) ->
  trouble N b S s1 s' -> trouble (a + N) b S s s'.
Proof.
  intros E1 E2 Ha [T|[A|U]]; [left; eapply tick_fails_mono; [exact E1|apply tree_env_refl|done]|right; left; by apply Ha|by right; right].
Qed.

Lemma trouble_mono N N' b S s s' : (N <= N')%nat -> trouble N b S s s' -> trouble N' b S s s'.
Proof. intros HN [T|[A|U]]; [by left|right; left; by eapply alloc_fails_mono|by right; right]. Qed.

Definition ins_outcome (N : nat) (b : Z) (S' : gset Z) (s s' : state) (l l' : list (list byte * Z)) (rc : Z) : Prop :=
  (rc = 0 /\ l' = kv_ins k v l /\ (replace = true \/ ~ has_entry k l)) \/
  (rc = - EEXIST /\ l' = l /\ replace = false /\ has_entry k l) \/
  (rc = - EIO /\ l' = l /\ trouble N b S' s s').

(** With at most [N] allocations of a block. *)
Definition ins_post (N : nat) (s : state) (held : list nat) (h m : nat) (b : Z) (l : list (list byte * Z)) (S : gset Z)
    (rc : Z) (s' : state) : Prop :=
  coh s' held ∅ ∅ /\
  exists l' S', prog s s' held S S' /\ bt G (vis s') h m b l' S' /\ uses s' S' /\ ins_outcome N b S' s s' l l' rc.

(** Continuing after a first step. *)
Lemma ins_post_trans N a s s1 held h m b l S S1 rc s' :
  prog s s1 held S S1 -> (forall n, alloc_fails n (bal s1) = true -> alloc_fails (a + n) (bal s) = true) ->
  ins_post N s1 held h m b l S1 rc s' -> ins_post (a + N) s held h m b l S rc s'.
Proof.
  intros P1 Ha (C & l' & S' & P2 & Hbt & Hu & O). split; [done|]. exists l', S'.
  split; [by eapply prog_trans|]. split; [done|]. split; [done|].
  destruct O as [O|[O|(-> & -> & O)]]; [by left|right; by left|right; right]. split; [done|]. split; [done|].
  eapply trouble_before; [apply P1|apply P2|done..].
Qed.

(** Giving up without a change. *)
Lemma ins_post_same N s s' held h m b l S rc :
  coh s' held ∅ ∅ -> prog s s' held S S -> (forall x, vis s' x = vis s x) ->
  bt G (vis s) h m b l S -> uses s S -> ins_outcome N b S s s' l l rc -> ins_post N s held h m b l S rc s'.
Proof.
  intros C P V Hbt Hu O. split; [done|]. exists l, S. split; [done|].
  split; [by apply (bt_ext G GO (vis s))|]. split; [|done].
  eapply uses_env; [apply P|apply P|done].
Qed.

(** Store the new contents of a node, write it, let go of it. *)
Lemma spec_store s held p b n' rc (Q : Z -> state -> Prop) :
  coh s (hold p (root s) held) ∅ ∅ -> nodes s !! b = Some p -> block n' = b -> node_ok G n' ->
  0 < b < ba_size (bal s) -> writes_ok s ->
  (forall s', coh s' held ∅ ∅ -> env_same s s' -> bal s' = bal s -> keeps s s' held ->
     vis s' b = Some n' -> (forall x, x <> b -> vis s' x = vis s x) -> Q rc s') ->
  spec (bind (put p n') (fun _ => bind (nkfs_btree_node_write p) (fun _ =>
    bind (deref_unless p (root s)) (fun _ => ret rc)))) s Q.
Proof.
  intros C E Hb N Hr Wo HQ. destruct (node_sigs _ _ N) as [S1 S2].
  apply spec_bind. eapply spec_node_put; [exact C|exact E|done|]. intros s1 C1 E1 U1 I1 V1 W1.
  apply spec_bind. eapply (spec_write s1 _ _ _ p b n'); [exact C1|by rewrite I1|done| |done|done|by rewrite U1|].
  { intros t. rewrite (env_wfail _ _ E1). apply Wo. }
  intros s2 C2 E2 U2 I2 V2. rewrite <- (env_root _ _ (tree_env_trans _ _ _ E1 E2)).
  apply spec_bind. eapply (spec_deref_unless s2 held ∅ ∅); [|set_solver|].
  { rewrite (env_root _ _ (tree_env_trans _ _ _ E1 E2)).
    by replace (({[p]} ∪ ∅) ∖ {[p]}) with (∅ : gset nat) in C2 by set_solver. }
  intros s3 C3 E3 U3 K3 V3. apply spec_ret. apply HQ; [done| |congruence| | |].
  - by eapply tree_env_trans; [|eapply tree_env_trans].
  - intros q x Hq Hx. apply K3; [|by rewrite I2, I1]. by rewrite (env_root _ _ (tree_env_trans _ _ _ E1 E2)).
  - by rewrite V3, V2.
  - intros x Hx. rewrite V3, V2. by apply W1.
Qed.

(** The child the search goes to is not full. *)
Definition ready (s : state) (n : node) : Prop :=
  forall i cn, nkfs_btree_node_find_key_index G n k = Ret i -> vis s (cflat n !!! i) = Some cn ->
  (nr_keys cn < 2 * g_t G - 1)%nat.

(** After a split the search goes to one of the halves. *)
Lemma split_ready s n cn new i n' c' w' :
  node_ok G n -> keys_sorted n -> keys_sorted n' -> (i <= nr_keys n)%nat ->
  (forall j, (j < i)%nat -> kv n j < key_val k) -> (forall j, (i <= j < nr_keys n)%nat -> key_val k < kv n j) ->
  split_spec G n cn new i n' c' w' ->
  vis s (cflat n !!! i) = Some c' -> vis s (block new) = Some w' -> ready s n'.
Proof.
  intros N Sn Sn' Hi Hlo Hhi [Nn Nc Nw En Ec Ew _ _ (e & Ee & _) Hkd _] Vc Vw j cn' Hf Vj.
  destruct (find_key_index_spec G GO n' k Nn Sn' Hk) as (j' & Hf' & Hj & Jlo & Jhi).
  rewrite Hf in Hf'. injection Hf' as <-. pose proof (entries_length G GO n N) as Le.
  assert (Hkv : forall q, (q < nr_keys n)%nat -> entries n !! q = Some (keys n !!! q, values n !!! q))
    by (intros; by apply (entries_lookup G GO)).
  assert (Hkv' : forall q, (q < nr_keys n')%nat -> entries n' !! q = Some (keys n' !!! q, values n' !!! q))
    by (intros; by apply (entries_lookup G GO)).
  assert (Hj1 : (i <= j)%nat).
  { destruct (Nat.lt_ge_cases j i) as [Hji|]; [|done]. specialize (Jhi j ltac:(lia)). specialize (Hlo j Hji).
    specialize (Hkv' j ltac:(lia)). rewrite Ee, lookup_app_l, lookup_take_lt in Hkv' by (rewrite ?length_take; lia).
    rewrite Hkv in Hkv' by lia. injection Hkv' as Hkv' _. unfold kv in *. rewrite <- Hkv' in Jhi. lia. }
  assert (Hj2 : (j <= i + 1)%nat).
  { destruct (Nat.lt_ge_cases (i + 1) j) as [Hji|]; [|done]. specialize (Jlo (j - 1)%nat ltac:(lia)).
    specialize (Hhi (j - 2)%nat ltac:(lia)). specialize (Hkv' (j - 1)%nat ltac:(lia)).
    rewrite Ee, lookup_app_r in Hkv' by (rewrite ?length_take; lia).
    rewrite length_take, Nat.min_l in Hkv' by lia.
    replace (j - 1 - i)%nat with (S (j - 2 - i)) in Hkv' by lia.
    change ((e :: drop i (entries n)) !! S (j - 2 - i)%nat) with (drop i (entries n) !! (j - 2 - i)%nat) in Hkv'.
    rewrite lookup_drop in Hkv'. replace (i + (j - 2 - i))%nat with (j - 2)%nat in Hkv' by lia.
    rewrite Hkv in Hkv' by lia. injection Hkv' as Hkv' _. unfold kv in *. rewrite <- Hkv' in Jlo. lia. }
  pose proof (kids_length G GO n N) as Lk. destruct GO.
  assert (Hc : cflat n' !!! j = if decide (j = i) then cflat n !!! i else block new).
  { assert (Hx : kids n' !!! j = cflat n' !!! j) by (apply lookup_total_take; lia).
    rewrite <- Hx, Hkd, lookup_total_app, length_take, Nat.min_l by lia. destruct (decide (j = i)) as [->|].
    - rewrite decide_True, lookup_total_take by lia. unfold kids. by rewrite lookup_total_take by lia.
    - rewrite decide_False by lia. by replace (j - (i + 1))%nat with 0%nat by lia. }
  rewrite Hc in Vj. destruct (decide (j = i)) as [->|].
  - rewrite Vc in Vj. injection Vj as <-. lia.
  - rewrite Vw in Vj. injection Vj as <-. lia.
Qed.

(** The three nodes of a split are stored and written, the two children let
    go. *)
Lemma spec_split {A} s held p c w b bc bw n' c' w' (rest : M A) (Q : A -> state -> Prop) :
  coh s (w :: c :: held) ∅ ∅ -> p ∈ root s :: held ->
  nodes s !! b = Some p -> nodes s !! bc = Some c -> nodes s !! bw = Some w ->
  b <> bc -> b <> bw -> bc <> bw -> block n' = b -> block c' = bc -> block w' = bw ->
  node_ok G n' -> node_ok G c' -> node_ok G w' ->
  (forall x, x = b \/ x = bc \/ x = bw -> 0 < x < ba_size (bal s)) -> writes_ok s ->
  (forall s', coh s' held ∅ ∅ -> env_same s s' -> bal s' = bal s -> keeps s s' held ->
     vis s' b = Some n' -> vis s' bc = Some c' -> vis s' bw = Some w' ->
     (forall x, x <> b -> x <> bc -> x <> bw -> vis s' x = vis s x) -> spec rest s' Q) ->
  spec (bind (put p n') (fun _ => bind (put c c') (fun _ => bind (put w w') (fun _ =>
    bind (nkfs_btree_node_write p) (fun _ => bind (nkfs_btree_node_write c) (fun _ =>
    bind (nkfs_btree_node_write w) (fun _ => bind (nkfs_btree_node_deref w) (fun _ =>
    bind (nkfs_btree_node_deref c) (fun _ => rest)))))))) ) s Q.
Proof.
  intros C Hp Ib Ic Iw N1 N2 N3 Bn Bc Bw On Oc Ow Hr Wo HQ.
  destruct (node_sigs _ _ On), (node_sigs _ _ Oc), (node_sigs _ _ Ow).
  apply spec_bind. eapply spec_node_put; [exact C|exact Ib|done|]. intros s1 C1 E1 U1 I1 V1 W1.
  apply spec_bind. eapply (spec_node_put s1 _ _ _ c bc); [exact C1|by rewrite I1|done|]. intros s2 C2 E2 U2 I2 V2 W2.
  apply spec_bind. eapply (spec_node_put s2 _ _ _ w bw); [exact C2|by rewrite I2, I1|done|]. intros s3 C3 E3 U3 I3 V3 W3.
  assert (E03 : env_same s s3) by (by eapply tree_env_trans; [|eapply tree_env_trans]).
  assert (I03 : nodes s3 = nodes s) by congruence. assert (U03 : bal s3 = bal s) by congruence.
  apply spec_bind. eapply (spec_write s3 _ _ _ p b n'); [exact C3|by rewrite I03| | |done|done|rewrite U03; auto|].
  { by rewrite W3, W2. }
  { intros t. rewrite (env_wfail _ _ E03). apply Wo. }
  intros s4 C4 E4 U4 I4 V4. assert (E04 : env_same s s4) by (by eapply tree_env_trans).
  apply spec_bind. eapply (spec_write s4 _ _ _ c bc c'); [exact C4|by rewrite I4, I03| | |done|done|rewrite U4, U03; auto|].
  { by rewrite V4, W3. }
  { intros t. rewrite (env_wfail _ _ E04). apply Wo. }
  intros s5 C5 E5 U5 I5 V5. assert (E05 : env_same s s5) by (by eapply tree_env_trans).
  apply spec_bind. eapply (spec_write s5 _ _ _ w bw w'); [exact C5|by rewrite I5, I4, I03| | |done|done|rewrite U5, U4, U03; auto|].
  { by rewrite V5, V4. }
  { intros t. rewrite (env_wfail _ _ E05). apply Wo. }
  intros s6 C6 E6 U6 I6 V6. assert (E06 : env_same s s6) by (by eapply tree_env_trans).
  replace (_ ∖ _) with (∅ : gset nat) in C6 by set_solver.
  apply spec_bind. eapply spec_node_deref; [exact C6|set_solver|]. intros s7 C7 E7 U7 K7 V7 _.
  apply spec_bind. eapply spec_node_deref; [exact C7|set_solver|]. intros s8 C8 E8 U8 K8 V8 _.
  assert (I06 : nodes s6 = nodes s) by congruence.
  apply HQ; [done| |congruence| | | | |].
  - eapply tree_env_trans; [exact E06|]. by eapply tree_env_trans.
  - intros q x Hq Hx. apply K8; [by rewrite (env_root _ _ (tree_env_trans _ _ _ E06 E7))|].
    apply K7; [rewrite (env_root _ _ E06); set_solver|by rewrite I06].
  - by rewrite V8, V7, V6, V5, V4, W3, W2.
  - by rewrite V8, V7, V6, V5, V4, W3.
  - by rewrite V8, V7, V6, V5, V4.
  - intros x X1 X2 X3. by rewrite V8, V7, V6, V5, V4, W3, W2, W1.
Qed.

(** ** The walk down *)

(** Where [insert_nonfull] stands: at the object [p] of block [b], the root of
    a subtree. *)
Record at_node (s : state) (held : list nat) (h m p : nat) (b : Z) (l : list (list byte * Z)) (S : gset Z) (n : node) : Prop := {
  at_coh : coh s (hold p (root s) held) ∅ ∅;
  at_idx : nodes s !! b = Some p;
  at_bt : bt G (vis s) h m b l S;
  at_sorted : sorted l;
  at_vis : vis s b = Some n;
  at_uses : uses s S;
  at_wok : writes_ok s;
  at_root : exists br, nodes s !! br = Some (root s) /\ (p = root s \/ br ∉ S)
}.

Lemma at_node_ok s held h m p b l S n : at_node s held h m p b l S n ->
  node_ok G n /\ block n = b /\ keys_sorted n /\ b ∈ S /\ leaf n = (h =? 0)%nat.
Proof.
  intros []. destruct (bt_root G GO _ _ _ _ _ _ at_bt0) as (n0 & V & N & Bn & _ & Hb & L).
  rewrite at_vis0 in V. injection V as <-. repeat (split; [done|]). split; [|done].
  by eapply (bt_keys_sorted G GO).
Qed.

(** What a search in the node finds. *)
Lemma at_search s held h m p b l S n : at_node s held h m p b l S n ->
  (exists i, nkfs_btree_node_has_key G n k = Ret (Some i) /\ (i < nr_keys n)%nat /\ keys n !!! i = k) \/
  (nkfs_btree_node_has_key G n k = Ret None /\
   exists i, nkfs_btree_node_find_key_index G n k = Ret i /\ (i <= nr_keys n)%nat /\
   (forall j, (j < i)%nat -> kv n j < key_val k) /\ (forall j, (i <= j < nr_keys n)%nat -> key_val k < kv n j)).
Proof.
  intros A. destruct (at_node_ok _ _ _ _ _ _ _ _ _ A) as (N & _ & Hs & _).
  destruct (has_key_spec G GO n k N Hs Hk) as ([i|] & Er & Hr).
  - left. exists i. destruct Hr as [Hi Hv]. repeat (split; [done|]).
    destruct (node_key_ok G GO n i N Hi) as [_ Ho]. apply key_val_inj; [|exact Hv]. unfold key_ok in *. congruence.
  - right. split; [done|]. destruct (find_key_index_spec G GO n k N Hs Hk) as (i & Ei & Hi & Hlo & Hhi).
    exists i. repeat (split; [done|]). intros j Hj. specialize (Hhi j Hj). specialize (Hr j ltac:(lia)). lia.
Qed.

(** What precedes and follows the child a search leads to. *)
Lemma child_bounds n k0 i A C lm : node_ok G n -> (i <= nr_keys n)%nat -> length A = i -> length C = (nr_keys n - i)%nat ->
  sorted (before A (take i (entries n)) ++ lm ++ after C (drop i (entries n))) ->
  (forall j, (j < i)%nat -> kv n j < key_val k0) -> (forall j, (i <= j < nr_keys n)%nat -> key_val k0 < kv n j) ->
  (forall x, x ∈ before A (take i (entries n)) -> ekey x < key_val k0) /\
  (forall x, x ∈ after C (drop i (entries n)) -> key_val k0 < ekey x).
Proof.
  intros N Hi LA LC Hs Hlo Hhi. pose proof (entries_length G GO n N) as Le. split.
  - eapply before_below; [by rewrite length_take; lia|exact Hs|].
    intros e He. apply list_elem_of_lookup in He as [j Hj]. pose proof (lookup_lt_Some _ _ _ Hj) as Lj.
    rewrite length_take in Lj. rewrite lookup_take_lt, (entries_lookup G GO) in Hj by (done || lia).
    injection Hj as <-. apply Hlo. lia.
  - eapply after_above; [by rewrite length_drop; lia|by rewrite app_assoc in Hs|].
    intros e He. apply list_elem_of_lookup in He as [j Hj]. pose proof (lookup_lt_Some _ _ _ Hj) as Lj.
    rewrite length_drop in Lj. rewrite lookup_drop, (entries_lookup G GO) in Hj by (done || lia).
    injection Hj as <-. apply Hhi. lia.
Qed.

(** An insertion into the child is one into the tree. *)
Lemma ins_post_lift N0 s held h m b l S n i A t C rc s' :
  bt G (vis s) (Datatypes.S h) m b l S -> vis s b = Some n -> sorted l -> uses s S -> (i <= nr_keys n)%nat ->
  (forall j, (j < i)%nat -> kv n j < key_val k) -> (forall j, (i <= j < nr_keys n)%nat -> key_val k < kv n j) ->
  length A = i -> kids n = map sb (A ++ t :: C) ->
  Forall (fun t => bt G (vis s) h (g_t G - 1) (sb t) (sl t) (ss t)) (A ++ t :: C) ->
  length C = (nr_keys n - i)%nat ->
  l = before (map sl A) (take i (entries n)) ++ sl t ++ after (map sl C) (drop i (entries n)) ->
  S = {[b]} ∪ ⋃ (map ss (A ++ t :: C)) -> b ∉ ⋃ (map ss (A ++ t :: C)) -> disj (map ss (A ++ t :: C)) ->
  ins_post N0 s held h (g_t G - 1) (sb t) (sl t) (ss t) rc s' -> ins_post N0 s held (Datatypes.S h) m b l S rc s'.
Proof.
  intros Hbt V Hs Hu Hi Hlo Hhi LA K F LC El HS Hb D (C' & l' & S' & P & Hbt' & Hu' & O).
  destruct (bt_root G GO _ _ _ _ _ _ Hbt) as (n0 & V0 & N & _). rewrite V in V0. injection V0 as <-.
  assert (Sub : ss t ⊆ S) by (rewrite HS, map_app; cbn; rewrite union_list_app_L; clear; set_solver).
  destruct (child_bounds n k i (map sl A) (map sl C) (sl t) N Hi ltac:(by rewrite length_map) ltac:(by rewrite length_map)
    ltac:(by rewrite El in Hs) Hlo Hhi) as [Hbef Haft].
  assert (HE : has_entry k l <-> has_entry k (sl t)).
  { rewrite El. unfold has_entry. split; intros (e & He & Ee); exists e; (split; [|done]).
    - apply elem_of_app in He as [He|He]; [specialize (Hbef e He); lia|].
      apply elem_of_app in He as [He|He]; [done|specialize (Haft e He); lia].
    - apply elem_of_app. right. apply elem_of_app. by left. }
  split; [done|]. exists (before (map sl A) (take i (entries n)) ++ l' ++ after (map sl C) (drop i (entries n))), ((S ∖ ss t) ∪ S').
  destruct P as [E U K' B' N' F']. split; [|split; [|split]].
  - split; [done..| | |].
    + clear -B'. intros x Hx. destruct (decide (x ∈ ss t)); set_solver.
    + intros x Hx. apply elem_of_union in Hx as [Hx|Hx]; [left; by apply elem_of_difference in Hx as [Hx _]|].
      destruct (N' x Hx); [left; by apply Sub|by right].
    + intros x Hx Hx'. apply F'; [done|]. intros Ht. by apply Hx', Sub.
  - eapply (bt_replace_child G GO (vis s) (vis s')); try done.
    + intros x Hx Hx'. apply F'; [by apply Hu|done].
    + intros x Hx. destruct (N' x Hx) as [|Hn]; [by left|right]. intros Hx'. apply Hn. by apply Hu.
  - intros x Hx. apply elem_of_union in Hx as [Hx|Hx]; [|by apply Hu'].
    eapply uses_env; [done|done|exact Hu|]. by apply elem_of_difference in Hx as [Hx _].
  - destruct O as [(-> & -> & O)|[(-> & -> & O1 & O2)|(-> & -> & O)]].
    + left. split; [done|]. split; [|destruct O; [by left|right; by rewrite HE]].
      rewrite El. by rewrite kv_ins_middle.
    + right. left. rewrite HE. done.
    + right. right. split; [done|]. split; [by rewrite El|]. destruct O as [O|[O|(x & c & Hx & Hn & Vx & Rx)]]; [by left|by right; left|].
      right. right. exists x, c. split; [apply elem_of_union; by right|]. split; [|done]. intros ->.
      destruct (N' b Hx) as [Hin|Hout].
      * apply Hb. apply elem_of_union_list. exists (ss t). split; [|done]. apply list_elem_of_fmap. exists t. split; [done|].
        apply elem_of_app. right. by left.
      * apply Hout. apply Hu. rewrite HS. apply elem_of_union. left. by apply elem_of_singleton.
Qed.

(** The key is in the node. *)
Lemma nonfull_hit N0 s held h m p b l S n i :
  at_node s held h m p b l S n -> (i < nr_keys n)%nat -> keys n !!! i = k ->
  spec (if replace then
          bind (lift (set_value G n i v)) (fun n => bind (put p n) (fun _ =>
          bind (nkfs_btree_node_write p) (fun _ => bind (deref_unless p (root s)) (fun _ => ret 0))))
        else bind (deref_unless p (root s)) (fun _ => ret (- EEXIST))) s
    (ins_post N0 s held h m b l S).
Proof.
  intros A Hi Hki. destruct (at_node_ok _ _ _ _ _ _ _ _ _ A) as (N & Bn & _ & Hb & _). destruct A as [C I Hbt Hs V Hu Wo _].
  assert (HE : has_entry k l).
  { exists (k, values n !!! i). split; [|done]. rewrite <- Hki at 1. by eapply bt_has_entry. }
  destruct replace eqn:Er.
  - destruct (value_ok n i v N Hi) as (n' & E' & N' & Hn & Hbl & Hl & Hkd & He).
    apply spec_bind. eapply spec_lift; [exact E'|]. eapply spec_store; try done; [congruence|by apply Hu|].
    intros s' C' E1 U1 K1 V1 F1. split; [done|]. exists (kv_ins k v l), S.
    assert (U1' : ba_used (bal s) ⊆ ba_used (bal s')) by (by rewrite U1).
    split; [|split; [|split]].
    + split; auto. intros x _ Hx. apply F1. intros ->. done.
    + eapply (bt_set_value (vis s) (vis s')); try done; [by rewrite Hki in He|]. intros x _ Hx. by apply F1.
    + by eapply uses_env.
    + left. rewrite Er. auto.
  - apply spec_bind. eapply spec_deref_unless; [exact C|set_solver|]. intros s' C' E1 U1 K1 V1.
    apply spec_ret. apply ins_post_same; try done; [apply prog_still; [done|by rewrite U1|done..]|].
    right. left. rewrite Er. auto.
Qed.

(** The key goes into a leaf. *)
Lemma nonfull_leaf N0 s held m p b l S n i :
  at_node s held 0 m p b l S n -> (nr_keys n < 2 * g_t G - 1)%nat -> (i <= nr_keys n)%nat ->
  (forall j, (j < i)%nat -> kv n j < key_val k) -> (forall j, (i <= j < nr_keys n)%nat -> key_val k < kv n j) ->
  spec (bind (lift (nkfs_btree_node_put_key_value G n i k v)) (fun n =>
          bind (put p (set_nr_keys (nr_keys n + 1) n)) (fun _ =>
          bind (nkfs_btree_node_write p) (fun _ => bind (deref_unless p (root s)) (fun _ => ret 0))))) s
    (ins_post N0 s held 0 m b l S).
Proof.
  intros A Hn Hi Hlo Hhi. destruct (at_node_ok _ _ _ _ _ _ _ _ _ A) as (N & Bn & _ & Hb & _).
  destruct A as [C I Hbt Hs V Hu Wo _].
  destruct (put_key_value_ok G GO n i k v N ltac:(lia) Hk) as (n' & E' & N' & He & _ & Hl & Hbl & Hnr).
  rewrite <- Hnr in N', He. apply spec_bind. eapply spec_lift; [exact E'|].
  eapply spec_store; try done; [cbn; congruence|by apply Hu|].
  intros s' C' E1 U1 K1 V1 F1. split; [done|]. exists (kv_ins k v l), S.
  assert (U1' : ba_used (bal s) ⊆ ba_used (bal s')) by (by rewrite U1).
  split; [|split; [|split]].
  - split; auto. intros x _ Hx. apply F1. intros ->. done.
  - eapply (bt_leaf_insert (vis s) (vis s')); try done. cbn. lia.
  - by eapply uses_env.
  - left. split; [done|]. split; [done|]. right. intros (e & Hel & Ek).
    destruct Hbt as (n0 & V0 & _ & _ & _ & _ & -> & _). rewrite V in V0. injection V0 as <-.
    apply list_elem_of_lookup in Hel as [j Hj]. pose proof (lookup_lt_Some _ _ _ Hj) as Lj.
    rewrite (entries_length G GO) in Lj by done. rewrite (entries_lookup G GO) in Hj by done. injection Hj as <-.
    cbn in Ek. change (kv n j = key_val k) in Ek.
    destruct (Nat.lt_ge_cases j i); [specialize (Hlo j ltac:(done))|specialize (Hhi j ltac:(done))]; lia.
Qed.

Lemma empty_node_ok b : pages_ok G (empty_node G b) /\ sig1 (empty_node G b) = NKFS_BTREE_SIG1 /\
  sig2 (empty_node G b) = NKFS_BTREE_SIG2 /\ block (empty_node G b) = b.
Proof.
  split; [|done]. split; cbn; rewrite ?length_replicate; try done.
  intros q Hq. exists (replicate (g_page_children G) 0). rewrite length_replicate. split; [|done].
  rewrite list_lookup_total_alt, lookup_replicate_2 by done. done.
Qed.

(** The child is full: it is split and the node looked at again. *)
Lemma nonfull_full N0 s s1 held h m p b l S n i TA t TC cn c br (rec : M Z) :
  bt G (vis s) (Datatypes.S h) m b l S -> vis s b = Some n -> node_ok G n -> keys_sorted n -> block n = b -> b ∈ S ->
  sorted l -> uses s S -> writes_ok s -> (i <= nr_keys n < 2 * g_t G - 1)%nat ->
  (forall j, (j < i)%nat -> kv n j < key_val k) -> (forall j, (i <= j < nr_keys n)%nat -> key_val k < kv n j) ->
  length TA = i -> kids n = map sb (TA ++ t :: TC) ->
  Forall (fun t => bt G (vis s) h (g_t G - 1) (sb t) (sl t) (ss t)) (TA ++ t :: TC) ->
  cflat n !!! i = sb t ->
  l = before (map sl TA) (take i (entries n)) ++ sl t ++ after (map sl TC) (drop i (entries n)) ->
  S = {[b]} ∪ ⋃ (map ss (TA ++ t :: TC)) -> b ∉ ⋃ (map ss (TA ++ t :: TC)) -> disj (map ss (TA ++ t :: TC)) ->
  vis s (sb t) = Some cn -> node_ok G cn -> block cn = sb t -> sb t ∈ ss t -> ss t ⊆ S -> b ∉ ss t ->
  (2 * g_t G - 1)%nat = nr_keys cn ->
  p ∈ root s :: hold p (root s) held -> (p = root s \/ br ∉ S) -> nodes s !! br = Some (root s) ->
  coh s1 (c :: hold p (root s) held) ∅ ∅ -> env_same s s1 -> bal s1 = bal s -> keeps s s1 (hold p (root s) held) ->
  (forall x, vis s1 x = vis s x) -> nodes s1 !! sb t = Some c -> nodes s1 !! b = Some p ->
  nodes s1 !! br = Some (root s) -> (forall q, q ∈ held -> q ∈ hold p (root s) held) ->
  (forall s2 S2 n2, root s2 = root s ->
    at_node s2 held (Datatypes.S h) m p b l S2 n2 -> ready s2 n2 ->
    spec rec s2 (ins_post N0 s2 held (Datatypes.S h) m b l S2)) ->
  spec (bind (nkfs_btree_node_create G) (fun r =>
    match r with
    | None => bind (deref_unless p (root s)) (fun _ =>
              bind (nkfs_btree_node_deref c) (fun _ => ret (- EIO)))
    | Some new =>
        bind (get new) (fun wn =>
        bind (lift (nkfs_btree_node_split_child G n cn i wn)) (fun sp =>
        let '(n', c', w') := sp in
        bind (put p n') (fun _ => bind (put c c') (fun _ => bind (put new w') (fun _ =>
        bind (nkfs_btree_node_write p) (fun _ => bind (nkfs_btree_node_write c) (fun _ =>
        bind (nkfs_btree_node_write new) (fun _ => bind (nkfs_btree_node_deref new) (fun _ =>
        bind (nkfs_btree_node_deref c) (fun _ => rec))))))))))
    end)) s1 (ins_post (1 + N0) s held (Datatypes.S h) m b l S).
Proof.
  intros Hbt V N Sn Bn Hb Hs Hu Wo Hi Hlo Hhi LA K F Ec El HS Hbn D Vc Nc Bc Hct Sub Hnb Hfull Hpin Hr Ir
    C1 E1 U1 K1 V1 Ic I1 Ir1 Hsub Hrec.
  assert (Wo1 : writes_ok s1) by (intros x; rewrite (env_wfail _ _ E1); apply Wo).
  apply spec_bind. eapply spec_create; [exact C1|done| |].
  { intros s2 C2 E2 U2 K2 V2 Hf. assert (E02 : env_same s s2) by (by eapply tree_env_trans).
    rewrite <- (env_root _ _ E02). apply spec_bind. eapply (spec_deref_unless s2 (c :: held)); [|apply not_elem_of_empty|].
    { eapply coh_perm; [|exact C2]. rewrite (env_root _ _ E02). unfold hold. destruct (_ =? _)%nat; [done|apply perm_swap]. }
    intros s3 C3 E3 U3 K3 V3. apply spec_bind. eapply spec_node_deref; [exact C3|apply not_elem_of_empty|]. intros s4 C4 E4 U4 K4 V4 _.
    apply spec_ret. assert (V04 : forall x, vis s4 x = vis s x) by (intros x; by rewrite V4, V3, V2, V1).
    assert (E04 : env_same s s4) by (eapply tree_env_trans; [exact E02|]; by eapply tree_env_trans).
    apply ins_post_same; try done.
    - apply prog_still; [done|rewrite U4, U3; by rewrite U1 in U2| |done].
      eapply keeps_trans; [apply E1|by eapply keeps_sub|].
      eapply keeps_trans; [apply E2|eapply keeps_sub; [|exact K2]; intros q Hq; right; by apply Hsub|].
      eapply keeps_trans; [apply E3|eapply keeps_sub; [|exact K3]; by right|done].
    - right. right. split; [done|]. split; [done|]. rewrite U1 in Hf. destruct Hf as [Hf|Hf]; [left|right; left; eapply alloc_fails_mono; [|exact Hf]; lia].
      eapply tick_fails_mono; [exact E1| |exact Hf]. by eapply tree_env_trans. }
  intros w bw s2 C2 E2 Hbw Hrw U2 K2 Hw Iw Vw F2 Hal. assert (E02 : env_same s s2) by (by eapply tree_env_trans).
  rewrite U1 in Hbw, Hrw, U2. rewrite (env_size _ _ E1) in Hrw || idtac.
  assert (HbwS : bw ∉ S) by (intros Hx; apply Hbw; by apply Hu).
  assert (Hbwb : bw <> b) by (intros ->; done).
  assert (Hbwt : bw <> sb t) by (intros ->; apply HbwS; by apply Sub).
  assert (Hbt' : b <> sb t) by (intros E; apply Hnb; by rewrite E).
  assert (I2 : nodes s2 !! b = Some p).
  { apply K2; [|done]. rewrite (env_root _ _ E1). set_solver. }
  assert (Ic2 : nodes s2 !! sb t = Some c) by (apply K2; [right; by left|done]).
  apply spec_bind. eapply (spec_node_get s2); [exact C2|exact Iw|]. intros wn Vwn _. rewrite Vw in Vwn. injection Vwn as <-.
  destruct (empty_node_ok bw) as (Pw & Sw1 & Sw2 & Bw).
  destruct (split_child_ok G GO n cn i (empty_node G bw) N Hi Nc (eq_sym Hfull) Pw Sw1 Sw2) as (n' & c' & w' & Esp & SP).
  apply spec_bind. eapply spec_lift; [exact Esp|]. cbn beta iota.
  pose proof (sp_blocks _ _ _ _ _ _ _ _ SP) as (B1 & B2 & B3). rewrite Bw in B3.
  assert (V2 : forall x, x <> bw -> vis s2 x = vis s x) by (intros x Hx; by rewrite F2, V1).
  eapply (spec_split s2 (hold p (root s) held) p c w b (sb t) bw); try done; try congruence; try apply SP.
  { by rewrite (env_root _ _ E02). }
  { rewrite (env_size _ _ E02). intros x [->| [->| ->]]; [by apply Hu|apply Hu; by apply Sub|done]. }
  { intros x. rewrite (env_wfail _ _ E02). apply Wo. }
  intros s3 C3 E3 U3 K3 Vb3 Vc3 Vw3 F3. assert (E03 : env_same s s3) by (by eapply tree_env_trans).
  assert (K23 : keeps s s3 (hold p (root s) held)).
  { eapply keeps_trans; [apply E02| |exact K3]. eapply keeps_trans; [apply E1|exact K1|].
    eapply keeps_sub; [|exact K2]. by right. }
  assert (Hbt3 : bt G (vis s3) (Datatypes.S h) m b l (S ∪ {[bw]})).
  { rewrite <- Bw. eapply (bt_split G GO (vis s) (vis s3) h m b l S n i TA t TC cn (empty_node G bw) n' c' w'); try done;
      rewrite ?Bw; try done; [lia|]. intros x Hx X1 X2. assert (x <> bw) by (by intros ->). by rewrite F3, V2. }
  assert (Sn' : keys_sorted n') by (by eapply (bt_keys_sorted G GO)).
  assert (Us3 : {[bw]} ∪ ba_used (bal s) ⊆ ba_used (bal s3)) by (by rewrite U3).
  eapply spec_mono; [eapply (Hrec s3 (S ∪ {[bw]}) n'); [apply E03| |]|].
  - split; try done.
    + by rewrite (env_root _ _ E03).
    + apply K3; [by rewrite (env_root _ _ E02)|done].
    + intros x Hx. rewrite (env_size _ _ E03). apply elem_of_union in Hx as [Hx|Hx].
      * split; [apply Us3, elem_of_union; right|]; by apply Hu.
      * apply elem_of_singleton in Hx as ->. split; [clear -Us3; set_solver|done].
    + intros x. rewrite (env_wfail _ _ E03). apply Wo.
    + exists br. rewrite (env_root _ _ E03). split; [apply K23; [by left|done]|].
      destruct Hr as [Hr|Hr]; [by left|right]. intros Hx. apply elem_of_union in Hx as [Hx|Hx]; [done|].
      apply elem_of_singleton in Hx as ->. apply Hbw. destruct (coh_blocks _ _ _ _ C1 _ _ Ir1). by rewrite U1 in *.
  - eapply (split_ready s3 n cn (empty_node G bw) i n' c' w'); try done; [lia|by rewrite Ec].
  - intros rc s' Hpost. eapply (ins_post_trans N0 1 s s3 held _ _ _ _ S (S ∪ {[bw]}));
      [|intros a Ha; rewrite U3 in Ha; rewrite <- U1; by eapply alloc_fails_next|done]. split; try done.
    + clear -Us3. set_solver.
    + by eapply keeps_sub.
    + set_solver.
    + intros x Hx. apply elem_of_union in Hx as [Hx|Hx]; [by left|]. apply elem_of_singleton in Hx as ->. by right.
    + intros x Hx Hx'. rewrite F3, V2; [done|congruence..|by intros ->|by intros ->; apply Hx'; apply Sub|congruence].
Qed.

(** The child the search goes to; [rec] goes on from an object. *)
Lemma nonfull_inner N0 s held h m p b l S n i (rec : nat -> M Z) :
  at_node s held (Datatypes.S h) m p b l S n -> (i <= nr_keys n)%nat ->
  (forall j, (j < i)%nat -> kv n j < key_val k) -> (forall j, (i <= j < nr_keys n)%nat -> key_val k < kv n j) ->
  nkfs_btree_node_find_key_index G n k = Ret i ->
  ready s n \/ ((nr_keys n < 2 * g_t G - 1)%nat /\ exists N1, N0 = Datatypes.S N1 /\ forall s1 S1 n1, root s1 = root s ->
    at_node s1 held (Datatypes.S h) m p b l S1 n1 -> ready s1 n1 ->
    spec (rec p) s1 (ins_post N1 s1 held (Datatypes.S h) m b l S1)) ->
  (forall s1 q tb tl tS cn, root s1 = root s -> at_node s1 held h (g_t G - 1) q tb tl tS cn ->
     (nr_keys cn < 2 * g_t G - 1)%nat -> spec (rec q) s1 (ins_post N0 s1 held h (g_t G - 1) tb tl tS)) ->
  spec (bind (lift (nkfs_btree_node_child G n i)) (fun c =>
    bind (nkfs_btree_node_read G c) (fun r =>
    match r with
    | None => bind (deref_unless p (root s)) (fun _ => ret (- EIO))
    | Some child =>
        bind (get child) (fun cn =>
        if nkfs_btree_node_is_full G cn then
          bind (nkfs_btree_node_create G) (fun r =>
          match r with
          | None => bind (deref_unless p (root s)) (fun _ =>
                    bind (nkfs_btree_node_deref child) (fun _ => ret (- EIO)))
          | Some new =>
              bind (get new) (fun wn =>
              bind (lift (nkfs_btree_node_split_child G n cn i wn)) (fun sp =>
              let '(n', c', w') := sp in
              bind (put p n') (fun _ => bind (put child c') (fun _ => bind (put new w') (fun _ =>
              bind (nkfs_btree_node_write p) (fun _ => bind (nkfs_btree_node_write child) (fun _ =>
              bind (nkfs_btree_node_write new) (fun _ => bind (nkfs_btree_node_deref new) (fun _ =>
              bind (nkfs_btree_node_deref child) (fun _ => rec p))))))))))
          end)
        else bind (deref_unless p (root s)) (fun _ => rec child))
    end))) s (ins_post N0 s held (Datatypes.S h) m b l S).
Proof.
  intros A Hi Hlo Hhi Hfi Hrec Hdown. pose proof (hold_sub p (root s) held) as Hsub.
  destruct (at_node_ok _ _ _ _ _ _ _ _ _ A) as (N & Bn & Sn & Hb & _).
  destruct A as [C I Hbt Hs V Hu Wo (br & Ir & Hr)].
  destruct (bt_child G GO _ _ _ _ _ _ n i Hbt V Hi) as (TA & t & TC & LA & K & F & Ec & LC & El & HS & Hbn & D).
  assert (Ft : bt G (vis s) h (g_t G - 1) (sb t) (sl t) (ss t)).
  { rewrite Forall_forall in F. apply F. set_solver. }
  destruct (bt_root G GO _ _ _ _ _ _ Ft) as (cn & Vc & Nc & Bc & Mc & Hbt' & Lc).
  assert (Sub : ss t ⊆ S) by (rewrite HS, map_app; cbn; rewrite union_list_app_L; clear; set_solver).
  assert (Hnb : b ∉ ss t).
  { rewrite map_app in Hbn. cbn in Hbn. rewrite union_list_app_L in Hbn. clear -Hbn. set_solver. }
  destruct (node_sigs _ _ Nc) as [Sc1 Sc2].
  apply spec_bind. eapply spec_lift. { apply (nkfs_btree_node_child_ok G); [apply N|]. destruct GO, N. lia. }
  rewrite Ec. apply spec_bind. destruct (Hu (sb t) ltac:(by apply Sub)) as [Hut Hrt].
  eapply spec_read; [exact C|done|done|exact Vc|done|done| |].
  { intros s1 C1 E1 U1 K1 V1 Hf. rewrite <- (env_root _ _ E1).
    apply spec_bind. eapply spec_deref_unless; [by rewrite (env_root _ _ E1)|apply not_elem_of_empty|]. intros s2 C2 E2 U2 K2 V2.
    apply spec_ret. assert (E02 : env_same s s2) by (by eapply tree_env_trans).
    assert (Tr : trouble N0 b S s s2).
    { destruct Hf as [Hf|Hf]; [left; eapply tick_fails_mono; [apply tree_env_refl|exact E2|done]|right; right].
      exists (sb t), cn. split; [by apply Sub|]. split; [by intros <-|]. by rewrite V2, V1, (env_rb _ _ E02). }
    apply ins_post_same; try done; [|by intros x; rewrite V2, V1|by right; right].
    apply prog_still; [done|by rewrite U2, U1| |by intros x; rewrite V2, V1].
    eapply keeps_trans; [apply E1| |exact K2]. by eapply keeps_sub. }
  intros c s1 C1 E1 U1 K1 V1 Ic.
  assert (Hpin : p ∈ root s :: hold p (root s) held).
  { unfold hold. destruct (Nat.eqb_spec p (root s)); [subst; by left|right; by left]. }
  assert (I1 : nodes s1 !! b = Some p) by (by apply K1).
  assert (Ir1 : nodes s1 !! br = Some (root s)) by (apply K1; [by left|done]).
  assert (Hbr : br ∉ ss t).
  { destruct Hr as [->|Hr]; [|by intros Hx; apply Hr, Sub]. destruct (coh_obj _ _ _ _ C br _ Ir) as (x & r & Ex & <- & _).
    destruct (coh_obj _ _ _ _ C b _ I) as (y & r' & Ey & <- & _). rewrite Ex in Ey. by injection Ey as <- _. }
  assert (Hcr : c <> root s).
  { intros ->. destruct (coh_obj _ _ _ _ C1 br _ Ir1) as (x & r & Ex & <- & _).
    destruct (coh_obj _ _ _ _ C1 _ _ Ic) as (y & r' & Ey & Ey' & _). rewrite Ex in Ey. injection Ey as <- _.
    apply Hbr. by rewrite Ey'. }
  apply spec_bind. eapply (spec_node_get s1); [exact C1|exact Ic|]. intros cn' Vc' _. rewrite V1, Vc in Vc'. injection Vc' as <-.
  unfold nkfs_btree_node_is_full. destruct (Nat.eqb_spec (2 * g_t G - 1) (nr_keys cn)) as [Hfull|Hfull].
  - destruct Hrec as [Hrec|(Hn & N1 & -> & Hrec)].
    { specialize (Hrec i cn Hfi). rewrite Ec in Hrec. specialize (Hrec Vc). lia. }
    eapply (nonfull_full N1); try done.
  - rewrite <- (env_root _ _ E1). apply spec_bind. eapply (spec_deref_unless s1 (c :: held)); [|apply not_elem_of_empty|].
    { eapply coh_perm; [|exact C1]. rewrite (env_root _ _ E1). unfold hold. destruct (p =? root s)%nat; [done|apply perm_swap]. }
    intros s2 C2 E2 U2 K2 V2. assert (E02 : env_same s s2) by (by eapply tree_env_trans).
    assert (V02 : forall x, vis s2 x = vis s x) by (intros x; by rewrite V2, V1).
    assert (K02 : keeps s s2 held).
    { eapply keeps_trans; [apply E1|by eapply keeps_sub|]. eapply keeps_sub; [|exact K2]. by right. }
    eapply spec_mono; [eapply (Hdown s2 c (sb t) (sl t) (ss t) cn); [apply E02| |]|].
    + split; try done.
      * unfold hold. rewrite (env_root _ _ E02). by rewrite (proj2 (Nat.eqb_neq c (root s)) Hcr).
      * apply K2; [right; by left|done].
      * by apply (bt_ext G GO (vis s)).
      * rewrite El in Hs. apply sorted_app in Hs as (_ & Hs & _). by apply sorted_app in Hs as (Hs & _).
      * by rewrite V02.
      * intros x Hx. rewrite (env_size _ _ E02), U2, U1. apply Hu. by apply Sub.
      * intros x. rewrite (env_wfail _ _ E02). apply Wo.
      * exists br. split; [|by right]. rewrite (env_root _ _ E02). apply K2; [rewrite (env_root _ _ E1); by left|done].
    + pose proof (node_nr _ _ Nc). lia.
    + intros rc s' Hpost. eapply (ins_post_trans N0 0 s s2 held _ _ _ _ S S); [|intros a; by rewrite U2, U1|].
      { apply prog_still; [done|by rewrite U2, U1|done|done]. }
      eapply (ins_post_lift N0 s2 held h m b l S n i TA t TC); try done.
      * by apply (bt_ext G GO (vis s)).
      * by rewrite V02.
      * intros x Hx. rewrite (env_size _ _ E02), U2, U1. by apply Hu.
      * rewrite Forall_forall in F |- *. intros u Hx. apply (bt_ext G GO (vis s)); [done|by apply F].
Qed.

(** At most one split, so one allocation of a block, on each level below. *)
Lemma insert_nonfull_spec fuel : forall N0 s held h m p b l S n,
  at_node s held h m p b l S n ->
  ((nr_keys n < 2 * g_t G - 1)%nat /\ (2 * h + 1 <= fuel)%nat /\ (h <= N0)%nat) \/
  ((0 < h)%nat /\ (2 * h <= fuel)%nat /\ (h <= N0 + 1)%nat /\ ready s n) ->
  spec (nkfs_btree_node_insert_nonfull G fuel (root s) p k v replace) s (ins_post N0 s held h m b l S).
Proof.
  induction fuel as [|fuel IH]; intros N0 s held h m p b l S n A Hf; [lia|].
  destruct (at_node_ok _ _ _ _ _ _ _ _ _ A) as (N & _ & _ & _ & Lf). cbn [nkfs_btree_node_insert_nonfull].
  apply spec_bind. eapply spec_node_get; [apply A|apply A|]. intros n' V' _. rewrite (at_vis _ _ _ _ _ _ _ _ _ A) in V'. injection V' as <-.
  apply spec_bind. destruct (at_search _ _ _ _ _ _ _ _ _ A) as [(i & Ei & Hi & Hki)|(Ei & i & Hfi & Hi & Hlo & Hhi)];
    (eapply spec_lift; [exact Ei|]); [by apply nonfull_hit|].
  rewrite Lf. destruct h as [|h]; cbn [Nat.eqb]; apply spec_bind; (eapply spec_lift; [exact Hfi|]).
  - apply nonfull_leaf; [done| |done..]. destruct Hf as [[]|[]]; [done|lia].
  - eapply (nonfull_inner N0 s held h m p b l S n i (fun q => nkfs_btree_node_insert_nonfull G fuel (root s) q k v replace)); try done.
    + destruct Hf as [(Hn & Hf & HN)|(_ & _ & _ & Hr)]; [right|by left]. split; [done|]. destruct N0 as [|N1]; [lia|].
      exists N1. split; [done|]. intros s1 S1 n1 <- A1 R1. eapply IH; [exact A1|]. right. split; [lia|]. split; [lia|]. split; [lia|done].
    + intros s1 q tb tl tS cn <- A1 Hn. eapply IH; [exact A1|]. left. split; [done|]. destruct Hf as [(_ & ? & ?)|(_ & ? & ? & _)]; lia.
Qed.

End Insert.

End BtreeInsert.
