(* ===== verification/BtreeGrow.v ===== *)
(** * A full root grows a level

    [nkfs_btree_grow_root], the first half of [nkfs_btree_insert_key]: the root
    is cloned, the clone split under a scratch node, and the scratch node
    copied over the root.  Each of the four allocations may fail, and then the
    tree is as before. *)

From Stdlib Require Import ZArith Lia.
From coqutil Require Import Byte.
From stdpp Require Import base list gmap.
From S2P Require Import Prelude StMonad BtreeNode BtreeNodeSpec Btree BtreeRep BtreeMem BtreeInsert.
Import StMonad BtreeNode BtreeNodeSpec Btree BtreeRep BtreeMem BtreeInsert.
Local Open Scope Z_scope.

Module BtreeGrow.

Section Grow.
Context {B : Type} `{BlockAlloc B}.
Context (G : geom) (GO : geom_ok G).

Local Abbreviation state := (@Btree.state B).
Local Abbreviation M := (StMonad.M (@Btree.state B)).

(** The state is at rest and its tree, rooted at block [b] and [h] levels above
    its leaves, holds the entries [l] in the blocks [S]. *)
Record tree (s : state) (h : nat) (b : Z) (l : list (list byte * Z)) (S : gset Z) : Prop := {
  tree_coh : coh s [] ∅ ∅;
  tree_idx : nodes s !! b = Some (root s);
  tree_bt : bt G (vis s) h 0 b l S;
  tree_sorted : sorted l;
  tree_uses : uses s S
}.

Lemma tree_still s s' h b l S : tree s h b l S -> coh s' [] ∅ ∅ -> env_same s s' ->
  keeps s s' [] -> (forall x, x ∈ S -> vis s' x = vis s x) -> S ⊆ ba_used (bal s') -> tree s' h b l S.
Proof.
  intros [C I Hb Hs Hu] C' E K V U. split; try done.
  - rewrite (env_root _ _ E). apply K; [by left|done].
  - by apply (bt_ext G GO (vis s)).
  - intros x Hx. rewrite (env_size _ _ E). split; [by apply U|by apply Hu].
Qed.

(** A subtree whose root moves to another block. *)
Lemma bt_move d d' h m m' b b' l S n n' :
  bt G d h m b l S -> d b = Some n -> node_ok G n' -> (m' <= nr_keys n')%nat ->
  nr_keys n' = nr_keys n -> leaf n' = leaf n -> block n' = b' -> entries n' = entries n -> kids n' = kids n ->
  d' b' = Some n' -> b' ∉ S -> (forall x, x ∈ S -> x <> b -> d' x = d x) ->
  bt G d' h m' b' l ((S ∖ {[b]}) ∪ {[b']}).
Proof.
  intros Hbt E N' Hm Hn Hl Hb He Hk E' Hnew Hfr. destruct h as [|h]; cbn in Hbt |- *.
  - destruct Hbt as (n0 & E0 & N & B0 & M0 & L0 & -> & ->). rewrite E in E0. injection E0 as <-.
    exists n'. rewrite Hl, He. repeat (split; [done|]). set_solver.
  - destruct Hbt as (n0 & ts & E0 & N & B0 & M0 & L0 & H1 & K & F & -> & -> & Hb' & D).
    rewrite E in E0. injection E0 as <-. exists n', ts. rewrite Hl, He, Hk, Hn in *.
    repeat (split; [done|]). split; [|split; [done|split; [set_solver|split; [set_solver|done]]]].
    rewrite Forall_forall in F |- *. intros t Ht. apply (bt_ext G GO d); [|by apply F]. intros x Hx.
    assert (x ∈ ⋃ map ss ts).
    { apply elem_of_union_list. exists (ss t). split; [|done]. apply list_elem_of_fmap. by exists t. }
    apply Hfr; set_solver.
Qed.

(** The new root over the two halves. *)
Lemma bt_grow d d' h m b bc bw l S n rn cn nn nn' cn' wn' new :
  bt G d h m b l S -> d b = Some n -> nr_keys n = (2 * g_t G - 1)%nat ->
  node_ok G cn -> nr_keys cn = nr_keys n -> leaf cn = leaf n -> block cn = bc -> entries cn = entries n -> kids cn = kids n ->
  node_ok G nn -> nr_keys nn = 0%nat -> leaf nn = false -> kids nn = [bc] -> block new = bw ->
  split_spec G nn cn new 0 nn' cn' wn' ->
  node_ok G rn -> nr_keys rn = nr_keys nn' -> leaf rn = leaf nn' -> block rn = b -> entries rn = entries nn' -> kids rn = kids nn' ->
  d' b = Some rn -> d' bc = Some cn' -> d' bw = Some wn' -> bc ∉ S -> bw ∉ S -> bc <> bw ->
  (forall x, x ∈ S -> x <> b -> d' x = d x) ->
  bt G d' (Datatypes.S h) 0 b l (S ∪ {[bc]} ∪ {[bw]}).
Proof.
  intros Hbt E Hfull Nc Hcn Hcl Hcb Hce Hck Nn Hnn Hnl Hnk Hnew SP Nr Hrn Hrl Hrb Hre Hrk Eb Ec Ew H1 H2 H3 Hfr.
  destruct (bt_root G GO _ _ _ _ _ _ Hbt) as (n0 & E0 & N & Bn & _ & Hbs & Lf). rewrite E in E0. injection E0 as <-.
  destruct GO as [GT _ _ _]. set (d1 := fun x => if decide (x = bc) then Some cn else d x).
  assert (Hm : bt G d1 h (g_t G - 1) bc l ((S ∖ {[b]}) ∪ {[bc]})).
  { eapply (bt_move d d1 h m _ b bc l S n cn); try done; [lia|unfold d1; by rewrite decide_True|].
    intros x Hx _. unfold d1. rewrite decide_False; [done|]. by intros ->. }
  destruct SP as [Sn Sc Sw Snn Scn Swn (SB1 & SB2 & SB3) (SL1 & SL2 & SL3) (e & Ee & Ece) Sk Sck].
  edestruct (split_sub G GO d1 d' h bc l _ cn cn' wn' e bw Hm) as (l1 & l2 & S1 & S2 & T1 & T2 & -> & HS & HD); try done; try congruence.
  { unfold d1. by rewrite decide_True. }
  { set_solver. }
  { intros x Hx Hxc. unfold d1. rewrite decide_False by done. apply Hfr; set_solver. }
  assert (Le : entries nn = []) by (apply length_zero_iff_nil; by rewrite (entries_length G GO), Hnn).
  rewrite Le in Ee. rewrite Hnk in Sk. cbn in Ee, Sk.
  exists rn, [Sub bc l1 S1; Sub bw l2 S2]. rewrite Hrk, Sk, Hre, Ee, Hrn, Snn, Hnn. cbn.
  split; [done|]. split; [done|]. split; [done|]. split; [lia|]. split; [congruence|]. split; [lia|].
  split; [by rewrite Hnew|]. split; [by repeat constructor|]. split; [done|].
  assert (Hsets : S ∪ {[bc]} ∪ {[bw]} = {[b]} ∪ (S1 ∪ (S2 ∪ ∅)) /\ b ∉ S1 ∪ (S2 ∪ ∅)).
  { clear -HS Hbs H1 H2. rewrite union_empty_r_L, HS. split; [|set_solver]. apply set_eq. intros x.
    destruct (decide (x = b)) as [->|]; set_solver. }
  destruct Hsets. split; [done|]. split; [done|]. clear -HD. set_solver.
Qed.

Lemma spec_alloc_priv s held D P n (Q : option nat -> state -> Prop) : coh s held D P ->
  (forall s', coh s' held D P -> env_same s s' -> bal s' = bal s -> nodes s' = nodes s ->
     (forall x, vis s' x = vis s x) -> tick_fails s s' -> Q None s') ->
  (forall p s', coh s' held D (<[p := n]> P) -> env_same s s' -> bal s' = bal s -> nodes s' = nodes s ->
     (forall x, vis s' x = vis s x) -> p ∉ root s :: held -> P !! p = None -> Q (Some p) s') ->
  spec (nkfs_btree_node_alloc n) s Q.
Proof.
  intros C H1 H2. apply spec_alloc.
  - intros Hf. destruct (coh_cong s (with_rtick (S (rtick s)) s) held D P C) as [C' V']; try done; [apply C|].
    apply H1; try done; [split; try done; cbn; lia|]. exists (rtick s). split; [cbn; lia|done].
  - intros Hf. destruct (coh_alloc_priv s held D P n C) as [C' V']. pose proof (fresh_next _ _ _ _ C) as Fr.
    apply H2; try done.
    + split; try done; cbn; lia.
    + intros Hin. destruct (coh_live _ _ _ _ C _ Hin) as [[x Hx] _]. congruence.
    + destruct (P !! next s) eqn:HP; [|done]. destruct (coh_priv _ _ _ _ C _ _ HP) as [r Hr]. congruence.
Qed.

(** Undoing the clone after a failed allocation. *)
Lemma undo_clone {A} s1 p bp (a : A) P (Q : A -> state -> Prop) :
  coh s1 [p] ∅ P -> p <> root s1 -> nodes s1 !! bp = Some p ->
  (forall s', coh s' [] ∅ P -> env_same s1 s' -> keeps s1 s' [] ->
     ba_used (bal s1) ∖ {[bp]} ⊆ ba_used (bal s') -> (forall x, x <> bp -> vis s' x = vis s1 x) -> Q a s') ->
  spec (bind (nkfs_btree_node_delete p) (fun _ => bind (nkfs_btree_node_deref p) (fun _ => ret a))) s1 Q.
Proof.
  intros C Hp I HQ. apply spec_assoc, spec_bind. eapply spec_delete_deref; [exact C| |exact I|].
  - intros Hin. apply elem_of_cons in Hin as [->|Hin]; [done|by apply elem_of_nil in Hin].
  - intros s' C' E K U _ V. apply spec_ret. by apply HQ.
Qed.

(** The scratch node: an inner node with the clone as its only child. *)
Lemma scratch_ok bc : exists nn,
  set_child G (set_nr_keys 0 (set_leaf false (nkfs_btree_node_alloc_node G))) 0 bc = Ret nn /\
  node_ok G nn /\ nr_keys nn = 0%nat /\ leaf nn = false /\ kids nn = [bc].
Proof.
  set (n0 := set_nr_keys 0 (set_leaf false (nkfs_btree_node_alloc_node G))).
  assert (P0 : pages_ok G n0).
  { destruct (empty_node_ok G 0) as (P & _). destruct P. split; done. }
  destruct (set_child_upd G n0 0 bc P0) as (nn & E & U); [destruct GO; lia|]. exists nn. split; [exact E|].
  assert (Hn : nr_keys nn = 0%nat) by (rewrite (upd_nr _ _ _ _ _ _ U); done).
  split; [|split; [done|split; [by rewrite (upd_leaf _ _ _ _ _ _ U)|]]].
  - split; [apply U|rewrite Hn; lia|rewrite Hn; constructor|].
    rewrite (upd_sig1 _ _ _ _ _ _ U), (upd_sig2 _ _ _ _ _ _ U). done.
  - unfold kids. rewrite Hn, (upd_children _ _ _ _ _ _ U).
    pose proof (cflat_length G n0 P0) as L. destruct GO. destruct (cflat n0) as [|x c]; [cbn in L; lia|done].
Qed.

(** The nodes are stored, written and let go of. *)
Lemma spec_grow_store s r0 c w new b bc bw nn cn wn rn rn0 n0 (Q : option Z -> state -> Prop) :
  coh s [w; c] ∅ {[new := n0]} -> root s = r0 ->
  nodes s !! b = Some r0 -> nodes s !! bc = Some c -> nodes s !! bw = Some w ->
  b <> bc -> b <> bw -> bc <> bw -> block rn = b -> block cn = bc -> block wn = bw ->
  node_ok G rn -> node_ok G cn -> node_ok G wn -> nkfs_btree_node_copy G rn0 nn = Ret rn ->
  (forall x, x = b \/ x = bc \/ x = bw -> 0 < x < ba_size (bal s)) -> writes_ok s ->
  (forall s', coh s' [] ∅ ∅ -> env_same s s' -> bal s' = bal s -> keeps s s' [] ->
     vis s' b = Some rn -> vis s' bc = Some cn -> vis s' bw = Some wn ->
     (forall x, x <> b -> x <> bc -> x <> bw -> vis s' x = vis s x) -> Q None s') ->
  spec (bind (put new nn) (fun _ => bind (put c cn) (fun _ => bind (put w wn) (fun _ =>
    bind (lift (nkfs_btree_node_copy G rn0 nn)) (fun rn => bind (put r0 rn) (fun _ =>
    bind (nkfs_btree_node_write c) (fun _ => bind (nkfs_btree_node_write w) (fun _ =>
    bind (nkfs_btree_node_write r0) (fun _ => bind (nkfs_btree_node_deref c) (fun _ =>
    bind (nkfs_btree_node_deref w) (fun _ => bind (nkfs_btree_node_free new) (fun _ => ret None)))))))))))) s Q.
Proof.
  intros C <- Ib Ic Iw N1 N2 N3 Br Bc Bw Or Oc Ow Hcp Hr Wo HQ.
  destruct (node_sigs _ _ Or), (node_sigs _ _ Oc), (node_sigs _ _ Ow).
  apply spec_bind. eapply (spec_put_priv s); [exact C|by rewrite lookup_singleton_eq|]. intros s0 C0 E0 U0 I0 V0.
  apply spec_bind. eapply (spec_node_put s0 _ _ _ c bc); [exact C0|by rewrite I0|done|]. intros s1 C1 E1 U1 I1 V1 W1.
  apply spec_bind. eapply (spec_node_put s1 _ _ _ w bw); [exact C1|by rewrite I1, I0|done|]. intros s2 C2 E2 U2 I2 V2 W2.
  apply spec_bind. eapply spec_lift; [exact Hcp|].
  apply spec_bind. eapply (spec_node_put s2 _ _ _ (root s) b); [exact C2|by rewrite I2, I1, I0|done|]. intros s3 C3 E3 U3 I3 V3 W3.
  assert (E03 : env_same s s3) by (eapply tree_env_trans; [exact E0|]; eapply tree_env_trans; [exact E1|]; by eapply tree_env_trans).
  assert (I03 : nodes s3 = nodes s) by congruence. assert (U03 : bal s3 = bal s) by congruence.
  apply spec_bind. eapply (spec_write s3 _ _ _ c bc cn); [exact C3|by rewrite I03| | |done|done|rewrite U03; auto|].
  { by rewrite W3, W2. }
  { intros t. rewrite (env_wfail _ _ E03). apply Wo. }
  intros s4 C4 E4 U4 I4 V4. assert (E04 : env_same s s4) by (by eapply tree_env_trans).
  apply spec_bind. eapply (spec_write s4 _ _ _ w bw wn); [exact C4|by rewrite I4, I03| | |done|done|rewrite U4, U03; auto|].
  { by rewrite V4, W3. }
  { intros t. rewrite (env_wfail _ _ E04). apply Wo. }
  intros s5 C5 E5 U5 I5 V5. assert (E05 : env_same s s5) by (by eapply tree_env_trans).
  apply spec_bind. eapply (spec_write s5 _ _ _ (root s) b rn); [exact C5|by rewrite I5, I4, I03| | |done|done|rewrite U5, U4, U03; auto|].
  { by rewrite V5, V4. }
  { intros t. rewrite (env_wfail _ _ E05). apply Wo. }
  intros s6 C6 E6 U6 I6 V6. assert (E06 : env_same s s6) by (by eapply tree_env_trans).
  replace (_ ∖ _) with (∅ : gset nat) in C6 by (clear; set_solver). rewrite insert_singleton_eq in C6.
  assert (I06 : nodes s6 = nodes s) by congruence.
  apply spec_bind. eapply (spec_node_deref s6 [w]); [eapply coh_perm; [|exact C6]; apply perm_swap|apply not_elem_of_empty|].
  intros s7 C7 E7 U7 K7 V7 _.
  apply spec_bind. eapply spec_node_deref; [exact C7|apply not_elem_of_empty|]. intros s8 C8 E8 U8 K8 V8 _.
  apply spec_bind. eapply (spec_free_priv s8); [exact C8|by rewrite lookup_singleton_eq|]. intros s9 C9 E9 U9 I9 V9.
  rewrite delete_singleton_eq in C9.
  apply spec_ret. apply HQ; [done| |congruence| | | | |].
  - eapply tree_env_trans; [exact E06|]. eapply tree_env_trans; [exact E7|]. by eapply tree_env_trans.
  - intros q x Hq Hx. rewrite I9. apply K8; [by rewrite (env_root _ _ (tree_env_trans _ _ _ E06 E7))|].
    apply K7; [rewrite (env_root _ _ E06); clear -Hq; set_solver|by rewrite I06].
  - by rewrite V9, V8, V7, V6, V5, V4.
  - by rewrite V9, V8, V7, V6, V5, V4, W3, W2.
  - by rewrite V9, V8, V7, V6, V5, V4, W3.
  - intros x X1 X2 X3. by rewrite V9, V8, V7, V6, V5, V4, W3, W2, W1.
Qed.

Lemma grow_root_spec s h b l S n (Q : option Z -> state -> Prop) :
  tree s h b l S -> vis s b = Some n -> nr_keys n = (2 * g_t G - 1)%nat -> writes_ok s ->
  (forall s', prog s s' [] S S -> tree s' h b l S -> tick_fails s s' \/ alloc_fails 2 (bal s) = true -> Q (Some (- ENOMEM)) s') ->
  (forall s' S' n', prog s s' [] S S' -> tree s' (Datatypes.S h) b l S' -> vis s' b = Some n' -> nr_keys n' = 1%nat ->
     (forall a, alloc_fails a (bal s') = true -> alloc_fails (2 + a) (bal s) = true) -> Q None s') ->
  spec (nkfs_btree_grow_root G (root s)) s Q.
Proof.
  intros T V Hfull Wo HF HQ. pose proof T as [C I Hbt Hs Hu].
  destruct (bt_root G GO _ _ _ _ _ _ Hbt) as (n0 & V0 & N & Bn & _ & Hb & _). rewrite V in V0. injection V0 as <-.
  assert (HSu : S ⊆ ba_used (bal s)) by (intros x Hx; by apply Hu).
  unfold nkfs_btree_grow_root. apply spec_bind. eapply spec_create; [exact C|done| |].
  { intros s1 C1 E1 U1 K1 V1 Hf. apply spec_ret. apply HF; [|eapply tree_still; try done; by etrans|destruct Hf as [|Hf]; [by left|right; eapply alloc_fails_mono; [|exact Hf]; lia]].
    split; try done. intros x Hx. by left. }
  intros c bc s1 C1 E1 Hbc Hrc U1 K1 Hc Ic Vc V1 Hal1.
  assert (HbcS : bc ∉ S) by (intros Hx; by apply Hbc, HSu).
  assert (Hcr : c <> root s) by (intros ->; apply Hc; by left).
  assert (HSu1 : S ⊆ ba_used (bal s1) ∖ {[bc]}) by (clear -U1 HSu HbcS; set_solver).
  apply spec_bind. eapply spec_alloc_priv; [exact C1| |].
  { intros s2 C2 E2 U2 I2 V2 Hf. assert (E02 : env_same s s2) by (by eapply tree_env_trans).
    eapply (undo_clone s2 c bc); [exact C2|by rewrite (env_root _ _ E02)|by rewrite I2|].
    intros s3 C3 E3 K3 U3 V3. assert (E03 : env_same s s3) by (by eapply tree_env_trans).
    assert (K03 : keeps s s3 []).
    { intros q x Hq Hx. apply K3; [by rewrite (env_root _ _ E02)|]. rewrite I2. by apply K1. }
    assert (V03 : forall x, x <> bc -> vis s3 x = vis s x) by (intros x Hx; by rewrite V3, V2, V1).
    rewrite U2 in U3. assert (U03 : ba_used (bal s) ⊆ ba_used (bal s3)) by (clear -U1 U3 Hbc; set_solver).
    apply HF; [| |left; by eapply tick_fails_mono; [exact E1|exact E3|]].
    - split; try done; [intros x Hx; by left|]. intros x Hx _. apply V03. by intros ->.
    - eapply tree_still; try done; [intros x Hx; apply V03; by intros ->|clear -HSu U03; set_solver]. }
  intros new s2 C2 E2 U2 I2 V2 Hnew HP. assert (E02 : env_same s s2) by (by eapply tree_env_trans).
  assert (Wo2 : writes_ok s2) by (intros x; rewrite (env_wfail _ _ E02); apply Wo).
  apply spec_bind. eapply spec_create; [exact C2|done| |].
  { intros s3 C3 E3 U3 K3 V3 Hf. assert (E03 : env_same s s3) by (by eapply tree_env_trans).
    apply spec_assoc, spec_bind. eapply (spec_delete_deref s3 [] _ _ c bc); [exact C3| | |].
    { rewrite (env_root _ _ E03). intros Hin. apply elem_of_cons in Hin as [->|Hin]; [done|by apply elem_of_nil in Hin]. }
    { apply K3; [right; by left|by rewrite I2]. }
    intros s4 C4 E4 K4 U4 _ V4. assert (E04 : env_same s s4) by (by eapply tree_env_trans).
    apply spec_bind. eapply (spec_free_priv s4); [exact C4|by rewrite lookup_insert_eq|]. intros s5 C5 E5 U5 I5 V5.
    rewrite delete_insert_id in C5 by done.
    apply spec_ret. assert (E05 : env_same s s5) by (by eapply tree_env_trans).
    assert (K05 : keeps s s5 []).
    { intros q x Hq Hx. rewrite I5. apply K4; [by rewrite (env_root _ _ E03)|].
      apply K3; [rewrite (env_root _ _ E02); clear -Hq; set_solver|]. rewrite I2. by apply K1. }
    assert (V05 : forall x, x <> bc -> vis s5 x = vis s x) by (intros x Hx; by rewrite V5, V4, V3, V2, V1).
    assert (U05 : ba_used (bal s) ⊆ ba_used (bal s5)).
    { rewrite U5. rewrite U2 in U3. clear -U1 U3 U4 Hbc. set_solver. }
    apply HF; [| |].
    3:{ destruct Hf as [Hf|Hf]; [left; eapply tick_fails_mono; [exact E02| |exact Hf]; by eapply tree_env_trans|right].
        rewrite U2 in Hf. exact (alloc_fails_next 1 _ _ _ Hal1 Hf). }
    - split; try done; [intros x Hx; by left|]. intros x Hx _. apply V05. by intros ->.
    - eapply tree_still; try done; [intros x Hx; apply V05; by intros ->|clear -HSu U05; set_solver]. }
  intros w bw s3 C3 E3 Hbw Hrw U3 K3 Hw Iw Vw V3 Hal2. assert (E03 : env_same s s3) by (by eapply tree_env_trans).
  rewrite U2 in Hbw. rewrite (env_size _ _ E02) in Hrw.
  assert (HbwS : bw ∉ S) by (clear -Hbw HSu U1; set_solver).
  assert (Hbcw : bc <> bw) by (clear -Hbw U1; set_solver).
  assert (Hbb : b <> bc /\ b <> bw) by (split; intros <-; done). destruct Hbb as [Hb1 Hb2].
  assert (I3 : nodes s3 !! b = Some (root s)).
  { apply K3; [rewrite (env_root _ _ E02); by left|]. rewrite I2. apply K1; [by left|done]. }
  assert (Ic3 : nodes s3 !! bc = Some c) by (apply K3; [right; by left|by rewrite I2]).
  apply spec_bind. eapply (spec_node_get s3); [exact C3|exact I3|]. intros rn Vr _. rewrite V3, V2, V1, V in Vr by done. injection Vr as <-.
  apply spec_bind. eapply (spec_node_get s3); [exact C3|exact Ic3|]. intros cn0 Vcn _. rewrite V3, V2, Vc in Vcn by done. injection Vcn as <-.
  destruct (empty_node_ok G bc) as (Pc & Sc1 & Sc2 & Bc). destruct (empty_node_ok G bw) as (Pw & Sw1 & Sw2 & Bw).
  destruct (node_copy_ok G GO (empty_node G bc) n Pc N (conj Sc1 Sc2)) as (cn & Ecn & Nc & Hcn & Hcl & Hcb & Hce & Hck).
  rewrite Bc in Hcb. apply spec_bind. eapply spec_lift; [exact Ecn|].
  apply spec_bind. eapply (spec_get_priv s3); [exact C3|by rewrite lookup_insert_eq|].
  destruct (scratch_ok (block cn)) as (nn & Enn & Nn & Hnn & Hnl & Hnk). rewrite Hcb in Hnk.
  apply spec_bind. eapply spec_lift; [exact Enn|].
  apply spec_bind. eapply (spec_node_get s3); [exact C3|exact Iw|]. intros wn0 Vwn _. rewrite Vw in Vwn. injection Vwn as <-.
  destruct (split_child_ok G GO nn cn 0 (empty_node G bw) Nn ltac:(destruct GO; lia) Nc ltac:(lia) Pw Sw1 Sw2)
    as (nn' & cn' & wn' & Esp & SP).
  apply spec_bind. eapply spec_lift; [exact Esp|]. cbn beta iota.
  destruct (node_copy_ok G GO n nn' (node_pages _ _ N) (sp_n _ _ _ _ _ _ _ _ SP) (node_sigs _ _ N))
    as (rn & Ern & Nr & Hrn & Hrl & Hrb & Hre & Hrk).
  pose proof (sp_blocks _ _ _ _ _ _ _ _ SP) as (SB1 & SB2 & SB3).
  eapply (spec_grow_store s3 (root s) c w new b bc bw nn' cn' wn' rn n); try done; try congruence; try apply SP.
  { apply E03. }
  { rewrite (env_size _ _ E03). intros x [->| [->| ->]]; [by apply Hu|done|done]. }
  { intros x. rewrite (env_wfail _ _ E03). apply Wo. }
  intros s4 C4 E4 U4 K4 Vb4 Vc4 Vw4 V4. assert (E04 : env_same s s4) by (by eapply tree_env_trans).
  assert (Hus : {[bw]} ∪ ({[bc]} ∪ ba_used (bal s)) ⊆ ba_used (bal s4)).
  { rewrite U4. rewrite U2 in U3. clear -U1 U3. set_solver. }
  apply (HQ s4 (S ∪ {[bc]} ∪ {[bw]}) rn); [| |done| |].
  - split; try done.
    + clear -Hus. set_solver.
    + intros q x Hq Hx. apply K4; [by rewrite (env_root _ _ E03)|]. apply K3; [rewrite (env_root _ _ E02); clear -Hq; set_solver|].
      rewrite I2. by apply K1.
    + clear. set_solver.
    + intros x Hx. apply elem_of_union in Hx as [[Hx|Hx%elem_of_singleton]%elem_of_union|Hx%elem_of_singleton]; [by left|right; by subst|].
      right. subst x. clear -Hbw U1. set_solver.
    + intros x Hx HxS. assert (x <> bc /\ x <> bw) as [] by (split; intros ->; [done|]; clear -Hbw U1 Hx; set_solver).
      assert (x <> b) by (intros ->; done). by rewrite V4, V3, V2, V1.
  - split; try done.
    + rewrite (env_root _ _ E04). apply K4; [rewrite (env_root _ _ E03); by left|done].
    + eapply (bt_grow (vis s) (vis s4) h 0 b bc bw l S n rn cn nn nn' cn' wn' (empty_node G bw)); try done; try congruence.
      intros x Hx Hxb. assert (x <> bc /\ x <> bw) as [] by (split; by intros ->). by rewrite V4, V3, V2, V1.
    + intros x Hx. rewrite (env_size _ _ E04). apply elem_of_union in Hx as [Hx|Hx%elem_of_singleton];
        [apply elem_of_union in Hx as [Hx|Hx%elem_of_singleton]|].
      * destruct (Hu x Hx). split; [clear -HSu Hus Hx; set_solver|done].
      * subst x. split; [clear -Hus; set_solver|done].
      * subst x. split; [clear -Hus; set_solver|done].
  - rewrite Hrn, (sp_n_nr _ _ _ _ _ _ _ _ SP). lia.
  - intros a Ha. rewrite U4 in Ha. rewrite U2 in Hal2. exact (alloc_fails_next (1 + a) _ _ _ Hal1 (alloc_fails_next a _ _ _ Hal2 Ha)).
Qed.

End Grow.

End BtreeGrow.
