(* ===== verification/BtreeSpec.v ===== *)
(** * The B-tree is a map

    [tree_map s h m]: the state [s] is at rest (only the tree holds its root and
    every object is on disk) and its tree, [h] levels above the leaves, stands
    for the finite map [m] from keys (as 128-bit numbers) to values.
    Insertion, lookup, creation and reopening refine the operations of the map and
    terminate within fuel linear in the height.  Writes to the disk succeed
    throughout.  An insertion may meet failed allocations and reads, and then says
    which ([hindered]); a lookup may not ([no_rfail]): the code stops there. *)

From Stdlib Require Import ZArith Lia.
From coqutil Require Import Byte.
From stdpp Require Import base list gmap.
From S2P Require Import Prelude StMonad BtreeNode BtreeNodeSpec Btree BtreeRep BtreeMem BtreeInsert BtreeGrow.
Import StMonad BtreeNode BtreeNodeSpec Btree BtreeRep BtreeMem BtreeInsert BtreeGrow.
Local Open Scope Z_scope.

Module BtreeSpec.

Section Spec.
Context {B : Type} `{BlockAlloc B}.
Context (G : geom) (GO : geom_ok G).

Local Abbreviation state := (@Btree.state B).
Local Abbreviation M := (StMonad.M (@Btree.state B)).

Definition tree_map (s : state) (h : nat) (m : gmap Z Z) : Prop :=
  exists b l S, tree G s h b l S /\ m = to_map l.

Lemma has_entry_map k l : sorted l -> has_entry k l <-> is_Some (to_map l !! key_val k).
Proof.
  intros Hs. split.
  - intros (e & He & Ek). exists (snd e). apply to_map_lookup; [done|]. by exists e.
  - intros [v Hv]. apply to_map_lookup in Hv as (e & He & Ek & _); [|done]. by exists e.
Qed.

(** ** Insertion *)

(** How an insertion ends, and that it touches no block in use outside the
    tree. *)
Definition insert_post (k : list byte) (v : Z) (replace : bool) (s : state) (h : nat) (b : Z) (l : list (list byte * Z))
    (S : gset Z) (rc : Z) (s' : state) : Prop :=
  exists h' S', prog s s' [] S S' /\ (h <= h' <= h + 1)%nat /\
  ((rc = 0 /\ (replace = true \/ ~ has_entry k l) /\ tree G s' h' b (kv_ins k v l) S') \/
   (rc = - EEXIST /\ replace = false /\ has_entry k l /\ tree G s' h' b l S') \/
   ((rc = - EIO \/ rc = - ENOMEM) /\ trouble (h + 3) b S' s s' /\ tree G s' h' b l S')).

Lemma insert_key_spec fuel k v replace s h b l S :
  tree G s h b l S -> releasing s = false -> writes_ok s -> key_ok k -> (2 * h + 3 <= fuel)%nat ->
  spec (nkfs_btree_insert_key G fuel k v replace) s (insert_post k v replace s h b l S).
Proof.
  intros T Hrel Wo Hk Hf. unfold nkfs_btree_insert_key. apply spec_bind, spec_gets. rewrite Hrel.
  apply spec_bind, spec_gets. pose proof T as [C I Hbt Hs Hu].
  apply spec_bind. eapply spec_node_get; [exact C|exact I|]. intros n V _.
  assert (Hgo : forall s1 h1 S1 n1, prog s s1 [] S S1 -> tree G s1 h1 b l S1 -> vis s1 b = Some n1 -> (h <= h1 <= h + 1)%nat ->
    (nr_keys n1 < 2 * g_t G - 1)%nat -> (forall a, alloc_fails a (bal s1) = true -> alloc_fails (2 + a) (bal s) = true) ->
    spec (nkfs_btree_node_insert_nonfull G fuel (root s) (root s) k v replace) s1 (insert_post k v replace s h b l S)).
  { intros s1 h1 S1 n1 P1 [C1 I1 Hbt1 _ Hu1] V1 Hh Hn Ha. pose proof (prog_env _ _ _ _ _ P1) as E1. rewrite <- (env_root _ _ E1).
    eapply spec_mono; [eapply (insert_nonfull_spec G GO k v replace Hk fuel h1 s1 [] h1 0 (root s1) b l S1 n1); [split; try done|]|].
    - unfold hold. by rewrite Nat.eqb_refl.
    - intros t. rewrite (env_wfail _ _ E1). apply Wo.
    - exists b. split; [done|by left].
    - left. split; [done|lia].
    - intros rc s' (C' & l' & S' & P & Hbt' & Hu' & O). assert (P' : prog s s' [] S S') by (by eapply prog_trans).
      exists h1, S'. split; [done|]. split; [done|].
      assert (I' : nodes s' !! b = Some (root s')).
      { rewrite (env_root _ _ (prog_env _ _ _ _ _ P)). apply (prog_keeps _ _ _ _ _ P); [by left|done]. }
      destruct O as [(-> & -> & O)|[(-> & -> & O1 & O2)|(-> & -> & O)]].
      + left. split; [done|]. split; [done|]. split; try done. by apply kv_ins_sorted.
      + right. left. repeat (split; [done|]). split; done.
      + right. right. split; [by left|]. split; [|split; done].
        eapply (trouble_mono (2 + h1)); [lia|]. eapply trouble_before; [exact E1|apply P|done..]. }
  unfold nkfs_btree_node_is_full. destruct (Nat.eqb_spec (2 * g_t G - 1) (nr_keys n)) as [Hfull|Hfull].
  - apply spec_bind. eapply (grow_root_spec G GO); [exact T|exact V|done|done| |].
    + intros s1 P1 T1 Hfl. apply spec_ret. exists h, S. split; [done|]. split; [lia|]. right. right. split; [by right|]. split; [|done].
      destruct Hfl as [?|Hfl]; [by left|right; left]. eapply alloc_fails_mono; [|exact Hfl]. lia.
    + intros s1 S1 n1 P1 T1 V1 Hn1 Ha. eapply Hgo; try done; [lia|destruct GO; lia].
  - apply spec_bind, spec_ret. eapply Hgo; try done; [by apply prog_refl|lia| |intros a; apply alloc_fails_mono; lia].
    destruct (bt_root G GO _ _ _ _ _ _ Hbt) as (n0 & V0 & N & _). rewrite V in V0. injection V0 as <-.
    pose proof (node_nr _ _ N). lia.
Qed.

(** A node of the tree other than the root does not read back. *)
Definition child_unreadable (s : state) : Prop :=
  exists h b l S x c, tree G s h b l S /\ x ∈ S /\ x <> b /\ vis s x = Some c /\ reads_back s c = false.

(** Why a call that began in [s] and ended in [s'] could give up: an allocation of
    memory or a read of the disk failed between the two, one of the next [N]
    allocations of a block fails, or a node below the root does not read back. *)
Definition hindered (N : nat) (s s' : state) : Prop :=
  tick_fails s s' \/ alloc_fails N (bal s) = true \/ child_unreadable s'.

(** (C2) Inserting into the tree is inserting into the map, when writes to the disk
    succeed.  The call ends, with fuel linear in the height; on success the key has
    the new value and all others keep theirs; a present key without [replace] is
    [-EEXIST]; [-EIO] and [-ENOMEM] come only when an allocation of memory or a
    read failed during this very call, one of the at most [h + 3] allocations of a
    block failed, or a node below the root does not read back.  In all error cases
    the map is unchanged.  The state is again at rest, so no references leak. *)
Theorem nkfs_btree_insert_key_refines_map fuel k v replace s h m :
  tree_map s h m -> releasing s = false -> writes_ok s -> key_ok k -> (2 * h + 3 <= fuel)%nat ->
  exists rc s' h' m', nkfs_btree_insert_key G fuel k v replace s = Done rc s' /\
  tree_map s' h' m' /\ (h <= h' <= h + 1)%nat /\ env_same s s' /\
  ((rc = 0 /\ m' = <[key_val k := v]> m /\ (replace = true \/ m !! key_val k = None)) \/
   (rc = - EEXIST /\ m' = m /\ replace = false /\ is_Some (m !! key_val k)) \/
   ((rc = - EIO \/ rc = - ENOMEM) /\ m' = m /\ hindered (h + 3) s s')).
Proof.
  intros (b & l & S & T & ->) Hrel Wo Hk Hf. pose proof (tree_sorted _ _ _ _ _ _ T) as Hs.
  pose proof (insert_key_spec fuel k v replace s h b l S T Hrel Wo Hk Hf) as Sp. unfold spec in Sp.
  destruct (nkfs_btree_insert_key G fuel k v replace s) as [rc s'| | |] eqn:E; [|done..].
  destruct Sp as (h' & S' & P & Hh & Sp). pose proof (prog_env _ _ _ _ _ P) as Es. exists rc, s', h'.
  assert (Hno : ~ has_entry k l -> to_map l !! key_val k = None) by (rewrite has_entry_map, <- eq_None_not_Some; done).
  destruct Sp as [(-> & O & T')|[(-> & O1 & O2 & T')|(Hrc & O & T')]];
    [exists (to_map (kv_ins k v l))|exists (to_map l)..]; (split; [done|]); (split; [by eexists _, _, _|]); (split; [done|]);
    (split; [done|]).
  - left. rewrite to_map_ins by done. split; [done|]. split; [done|]. destruct O; [by left|right; auto].
  - right. left. rewrite has_entry_map in O2 by done. done.
  - right. right. split; [done|]. split; [done|]. destruct O as [O|[O|(x & c & Hx & Hn & Vx & Rx)]]; [by left|by right; left|].
    right. right. by exists h', b, l, S', x, c.
Qed.

(** ** Lookup *)

(** No read fails: memory and the disk do not, and every node but the root, which
    is in memory, reads back. *)
Definition no_rfail (s : state) : Prop := (forall t, rfail s t = false) /\ ~ child_unreadable s.

(** The same of the subtree at [b] with the blocks [S]. *)
Definition reads_ok (s : state) (b : Z) (S : gset Z) : Prop :=
  (forall t, rfail s t = false) /\ forall x n, x ∈ S -> x <> b -> vis s x = Some n -> reads_back s n = true.

Lemma no_rfail_reads s h b l S : no_rfail s -> tree G s h b l S -> reads_ok s b S.
Proof.
  intros [H1 H2] T. split; [done|]. intros x n Hx Hn V. destruct (reads_back s n) eqn:E; [done|].
  destruct H2. by exists h, b, l, S, x, n.
Qed.

Lemma reads_ok_sub s s' b b' S S' : env_same s s' -> (forall x, vis s' x = vis s x) -> S' ⊆ S -> b ∉ S' -> reads_ok s b S -> reads_ok s' b' S'.
Proof.
  intros E V Hs Hb [H1 H2]. split; [by rewrite (env_rfail _ _ E)|]. intros x n Hx _. rewrite V, (env_rb _ _ E). apply H2; [by apply Hs|by intros ->].
Qed.

(** The search changes nothing but memory. *)
Record quiet (s s' : state) : Prop := {
  quiet_env : env_same s s';
  quiet_bal : bal s' = bal s;
  quiet_vis x : vis s' x = vis s x;
  quiet_keeps : keeps s s' []
}.

Lemma quiet_refl s : quiet s s.
Proof. split; try done. apply keeps_refl. Qed.

Lemma quiet_trans s s1 s2 : quiet s s1 -> quiet s1 s2 -> quiet s s2.
Proof.
  intros [E1 B1 V1 K1] [E2 B2 V2 K2]. split; [by eapply tree_env_trans|congruence|intros x; by rewrite V2|].
  eapply keeps_trans; [apply E1|done..].
Qed.

Definition find_post (k : list byte) (s : state) (l : list (list byte * Z)) (r : option (nat * nat)) (s' : state) : Prop :=
  quiet s s' /\
  match r with
  | None => coh s' [] ∅ ∅ /\ ~ has_entry k l
  | Some (q, i) => coh s' [q] ∅ ∅ /\ exists bq nq, nodes s' !! bq = Some q /\ vis s' bq = Some nq /\
      node_ok G nq /\ (i < nr_keys nq)%nat /\ (k, values nq !!! i) ∈ l
  end.

(** The key is not in a subtree when the node and the child it leads to do not
    have it. *)
Lemma not_in_child d h m b l S n k i TA t TC : bt G d (Datatypes.S h) m b l S -> d b = Some n -> sorted l ->
  (i <= nr_keys n)%nat -> length TA = i -> length TC = (nr_keys n - i)%nat ->
  (forall j, (j < i)%nat -> kv n j < key_val k) -> (forall j, (i <= j < nr_keys n)%nat -> key_val k < kv n j) ->
  l = before (map sl TA) (take i (entries n)) ++ sl t ++ after (map sl TC) (drop i (entries n)) ->
  has_entry k l -> has_entry k (sl t).
Proof.
  intros Hbt E Hs Hi LA LC Hlo Hhi El (e & He & Ee). exists e. split; [|done].
  destruct (bt_root G GO _ _ _ _ _ _ Hbt) as (n0 & E0 & N & _). rewrite E in E0. injection E0 as <-.
  destruct (child_bounds G GO n k i (map sl TA) (map sl TC) (sl t) N Hi ltac:(by rewrite length_map) ltac:(by rewrite length_map)
    ltac:(by rewrite El in Hs) Hlo Hhi) as [Hbef Haft]. rewrite El in He.
  apply elem_of_app in He as [He|He]; [specialize (Hbef e He); lia|].
  apply elem_of_app in He as [He|He]; [done|specialize (Haft e He); lia].
Qed.

Lemma find_miss k (s : state) i n (Q : bool -> state -> Prop) : node_ok G n -> key_ok k ->
  ((i < nr_keys n)%nat -> nkfs_btree_cmp_key k (keys n !!! i) <> 0) -> Q false s ->
  spec (if (i <? nr_keys n)%nat
        then bind (lift (nkfs_btree_node_key G n i)) (fun ki => ret (nkfs_btree_cmp_key k ki =? 0)) else ret false) s Q.
Proof.
  intros N Hk Hc HQ. destruct (Nat.ltb_spec i (nr_keys n)) as [Hi|Hi]; [|by apply spec_ret].
  destruct (node_key_ok G GO n i N Hi) as [Ek _]. apply spec_bind. eapply spec_lift; [exact Ek|]. apply spec_ret.
  by rewrite (proj2 (Z.eqb_neq _ _) (Hc Hi)).
Qed.

(** Reading the child a search leads to, when no read fails. *)
Lemma spec_read_child s held h m p b l S n i br TA t TC (Q : option nat -> state -> Prop) :
  coh s (hold p (root s) held) ∅ ∅ -> nodes s !! b = Some p -> bt G (vis s) (Datatypes.S h) m b l S ->
  vis s b = Some n -> uses s S -> nodes s !! br = Some (root s) -> (p = root s \/ br ∉ S) -> reads_ok s b S ->
  length TA = i -> Forall (fun t => bt G (vis s) h (g_t G - 1) (sb t) (sl t) (ss t)) (TA ++ t :: TC) ->
  cflat n !!! i = sb t -> S = {[b]} ∪ ⋃ (map ss (TA ++ t :: TC)) -> b ∉ ⋃ (map ss (TA ++ t :: TC)) ->
  (forall c cn s1, coh s1 (c :: hold p (root s) held) ∅ ∅ -> quiet s s1 -> keeps s s1 (hold p (root s) held) ->
     nodes s1 !! sb t = Some c -> vis s1 (sb t) = Some cn -> c <> root s -> c <> p -> nodes s1 !! b = Some p ->
     nodes s1 !! br = Some (root s) -> br ∉ ss t -> ss t ⊆ S -> b ∉ ss t ->
     bt G (vis s) h (g_t G - 1) (sb t) (sl t) (ss t) -> Q (Some c) s1) ->
  spec (nkfs_btree_node_read G (cflat n !!! i)) s Q.
Proof.
  intros C I Hbt V Hu Ir Hr NR LA F Ec HS Hbn HQ.
  assert (Ft : bt G (vis s) h (g_t G - 1) (sb t) (sl t) (ss t)).
  { rewrite Forall_forall in F. apply F. apply elem_of_app. right. by left. }
  destruct (bt_root G GO _ _ _ _ _ _ Ft) as (cn & Vc & Nc & Bc & Mc & Hbt' & Lc).
  assert (Sub : ss t ⊆ S) by (rewrite HS, map_app; cbn; rewrite union_list_app_L; clear; set_solver).
  assert (Hnb : b ∉ ss t).
  { rewrite map_app in Hbn. cbn in Hbn. rewrite union_list_app_L in Hbn. clear -Hbn. set_solver. }
  destruct (node_sigs _ _ Nc) as [Sc1 Sc2]. rewrite Ec. destruct (Hu (sb t) ltac:(by apply Sub)) as [Hut Hrt].
  eapply spec_read; [exact C|done|done|exact Vc|done|done| |].
  { intros s1 _ _ _ _ _ [(x & _ & Hx)|Hx]; [by rewrite (proj1 NR) in Hx|].
    rewrite (proj2 NR _ _ (Sub _ Hbt') ltac:(by intros <-) Vc) in Hx. done. }
  intros c s1 C1 E1 U1 K1 V1 Ic.
  assert (Hpin : p ∈ root s :: hold p (root s) held).
  { unfold hold. destruct (Nat.eqb_spec p (root s)); [subst; by left|right; by left]. }
  assert (Ir1 : nodes s1 !! br = Some (root s)) by (apply K1; [by left|done]).
  assert (Ip1 : nodes s1 !! b = Some p) by (by apply K1).
  assert (Hdiff : forall x q, nodes s1 !! x = Some q -> x <> sb t -> c <> q).
  { intros x q Eq Hx ->. destruct (coh_obj _ _ _ _ C1 x _ Eq) as (y & r & Ey & <- & _).
    destruct (coh_obj _ _ _ _ C1 _ _ Ic) as (z & r' & Ez & Ez' & _). rewrite Ey in Ez. by injection Ez as <- _. }
  assert (Hbr : br ∉ ss t).
  { destruct Hr as [->|Hr]; [|by intros Hx; apply Hr, Sub]. destruct (coh_obj _ _ _ _ C br _ Ir) as (x & r & Ex & <- & _).
    destruct (coh_obj _ _ _ _ C b _ I) as (y & r' & Ey & <- & _). rewrite Ex in Ey. by injection Ey as <- _. }
  apply (HQ c cn); try done.
  - split; try done. eapply keeps_sub; [|exact K1]. intros q Hq. by apply elem_of_nil in Hq.
  - by rewrite V1.
  - apply (Hdiff br); [done|]. intros E. apply Hbr. by rewrite E.
  - apply (Hdiff b); [done|]. intros E. apply Hnb. by rewrite E.
Qed.

(** One level down. *)
Lemma find_down k s h m p b l S n i br (rec : nat -> M (option (nat * nat))) :
  coh s (hold p (root s) []) ∅ ∅ -> nodes s !! b = Some p -> bt G (vis s) (Datatypes.S h) m b l S -> sorted l ->
  vis s b = Some n -> uses s S -> nodes s !! br = Some (root s) -> (p = root s \/ br ∉ S) -> reads_ok s b S ->
  (i <= nr_keys n)%nat ->
  (forall j, (j < i)%nat -> kv n j < key_val k) -> (forall j, (i <= j < nr_keys n)%nat -> key_val k < kv n j) ->
  (forall s1 q tb tl tS cn, root s1 = root s -> coh s1 (hold q (root s1) []) ∅ ∅ -> nodes s1 !! tb = Some q ->
     bt G (vis s1) h (g_t G - 1) tb tl tS -> sorted tl -> vis s1 tb = Some cn -> uses s1 tS ->
     (exists br, nodes s1 !! br = Some (root s1) /\ (q = root s1 \/ br ∉ tS)) -> reads_ok s1 tb tS ->
     spec (rec q) s1 (find_post k s1 tl)) ->
  spec (bind (lift (nkfs_btree_node_child G n i)) (fun c => bind (nkfs_btree_node_read G c) (fun r =>
    match r with
    | None => crash
    | Some q => bind (deref_unless p (root s)) (fun _ => rec q)
    end))) s (find_post k s l).
Proof.
  intros C I Hbt Hs V Hu Ir Hr NR Hi Hlo Hhi Hrec.
  destruct (bt_root G GO _ _ _ _ _ _ Hbt) as (n0 & V0 & N & _). rewrite V in V0. injection V0 as <-.
  destruct (bt_child G GO _ _ _ _ _ _ n i Hbt V Hi) as (TA & t & TC & LA & K & F & Ec & LC & El & HS & Hbn & D).
  apply spec_bind. eapply spec_lift. { apply (nkfs_btree_node_child_ok G); [apply N|]. destruct GO, N. lia. }
  apply spec_bind. eapply (spec_read_child s [] h m p b l S n i br TA t TC); try done.
  intros c cn s1 C1 [E1 U1 V1 _] K1 Ic Vc Hcr _ _ Ir1 Hbr Sub Hnb Ft.
  rewrite <- (env_root _ _ E1). apply spec_bind. eapply (spec_deref_unless s1 [c]); [|apply not_elem_of_empty|].
  { eapply coh_perm; [|exact C1]. rewrite (env_root _ _ E1). unfold hold. destruct (p =? root s)%nat; [done|apply perm_swap]. }
  intros s2 C2 E2 U2 K2 V2. assert (E02 : env_same s s2) by (by eapply tree_env_trans).
  assert (V02 : forall x, vis s2 x = vis s x) by (intros x; by rewrite V2, V1).
  assert (Q02 : quiet s s2).
  { split; [done|congruence|done|]. eapply keeps_trans; [apply E1| |].
    - eapply keeps_sub; [|exact K1]. intros q Hq. by apply elem_of_nil in Hq.
    - eapply keeps_sub; [|exact K2]. intros q Hq. by apply elem_of_nil in Hq. }
  rewrite V1 in Vc. eapply spec_mono; [eapply (Hrec s2 c (sb t) (sl t) (ss t) cn)|].
  - apply E02.
  - unfold hold. rewrite (env_root _ _ E02). by rewrite (proj2 (Nat.eqb_neq c (root s)) Hcr).
  - apply K2; [right; by left|done].
  - by apply (bt_ext G GO (vis s)).
  - rewrite El in Hs. apply sorted_app in Hs as (_ & Hs & _). by apply sorted_app in Hs as (Hs & _).
  - by rewrite V02.
  - intros x Hx. rewrite (env_size _ _ E02), U2, U1. apply Hu. by apply Sub.
  - exists br. split; [|by right]. rewrite (env_root _ _ E02). apply K2; [rewrite (env_root _ _ E1); by left|done].
  - by apply (reads_ok_sub s s2 b (sb t) S (ss t)).
  - intros r s' (Q' & HR). split; [by eapply quiet_trans|]. destruct r as [[q j]|].
    + destruct HR as (Cq & bq & nq & H1 & H2 & H3 & H4 & H5). split; [done|]. exists bq, nq. repeat (split; [done|]).
      rewrite El. apply elem_of_app. right. apply elem_of_app. by left.
    + destruct HR as (C' & Hno). split; [done|]. intros He. apply Hno. by eapply (not_in_child (vis s)).
Qed.

Lemma find_key_spec k fuel : key_ok k -> forall s h m p b l S n,
  coh s (hold p (root s) []) ∅ ∅ -> nodes s !! b = Some p -> bt G (vis s) h m b l S -> sorted l ->
  vis s b = Some n -> uses s S -> (exists br, nodes s !! br = Some (root s) /\ (p = root s \/ br ∉ S)) ->
  (h = 0%nat \/ reads_ok s b S) -> (h < fuel)%nat ->
  spec (nkfs_btree_node_find_key G fuel (root s) p k) s (find_post k s l).
Proof.
  intros Hk. induction fuel as [|fuel IH]; intros s h m p b l S n C I Hbt Hs V Hu (br & Ir & Hr) NR Hf; [lia|].
  destruct (bt_root G GO _ _ _ _ _ _ Hbt) as (n0 & V0 & N & Bn & _ & Hb & Lf). rewrite V in V0. injection V0 as <-.
  pose proof (bt_keys_sorted G GO _ _ _ _ _ _ n Hbt V Hs) as Sn. cbn [nkfs_btree_node_find_key].
  assert (Hstop : (h = 0%nat \/ nr_keys n = 0%nat) -> (forall i, (i < nr_keys n)%nat -> kv n i <> key_val k) ->
    spec (bind (deref_unless p (root s)) (fun _ => ret None)) s (find_post k s l)).
  { intros Hh Hno. apply spec_bind. eapply spec_deref_unless; [exact C|apply not_elem_of_empty|].
    intros s' C' E' U' K' V'. apply spec_ret. split; [by split|]. split; [done|]. intros (e & He & Ek).
    destruct h as [|h].
    - destruct Hbt as (n1 & V1 & _ & _ & _ & _ & -> & _). rewrite V in V1. injection V1 as <-.
      apply list_elem_of_lookup in He as [j Hj]. pose proof (lookup_lt_Some _ _ _ Hj) as Lj.
      rewrite (entries_length G GO) in Lj by done. rewrite (entries_lookup G GO) in Hj by done. injection Hj as <-. by eapply Hno.
    - destruct Hbt as (n1 & ts & V1 & _ & _ & _ & _ & H1 & _). rewrite V in V1. injection V1 as <-. lia. }
  apply spec_bind. eapply spec_node_get; [exact C|exact I|]. intros n1 V1 _. rewrite V in V1. injection V1 as <-.
  destruct (Nat.eqb_spec (nr_keys n) 0) as [E0|E0]; [apply Hstop; [by right|lia]|].
  destruct (find_key_index_spec G GO n k N Sn Hk) as (i & Ei & Hi & Hlo & Hhi).
  apply spec_bind. eapply spec_lift; [exact Ei|]. apply spec_bind.
  destruct (decide ((i < nr_keys n)%nat /\ kv n i = key_val k)) as [[Hin Hik]|Hmiss].
  - destruct (node_key_ok G GO n i N Hin) as [Eki Hki]. rewrite (proj2 (Nat.ltb_lt _ _) Hin).
    apply spec_bind. eapply spec_lift; [exact Eki|]. apply spec_ret.
    assert (Hkeq : keys n !!! i = k) by (apply key_val_inj; [unfold key_ok in *; congruence|done]).
    rewrite (proj2 (Z.eqb_eq _ 0)) by (apply cmp_key_eq; congruence).
    assert (Hel : (k, values n !!! i) ∈ l) by (rewrite <- Hkeq at 1; by eapply (bt_has_entry G GO)).
    destruct (Nat.eqb_spec p (root s)) as [->|Hp].
    + unfold hold in C. rewrite Nat.eqb_refl in C. apply spec_bind. eapply spec_node_ref; [exact C|by left|].
      intros s' C' E' U' I' V'. apply spec_ret. split.
      * split; try done. intros q x _ Hx. by rewrite I'.
      * split; [done|]. exists b, n. rewrite I', V'. done.
    + unfold hold in C. rewrite (proj2 (Nat.eqb_neq _ _) Hp) in C. apply spec_bind, spec_ret, spec_ret.
      split; [apply quiet_refl|]. split; [done|]. by exists b, n.
  - assert (Hno : forall j, (j < nr_keys n)%nat -> kv n j <> key_val k).
    { intros j Hj Ej. destruct (Nat.lt_ge_cases j i) as [Hji|Hji]; [specialize (Hlo j Hji); lia|].
      destruct (decide (j = i)) as [->|Hne]; [by apply Hmiss|]. specialize (Hhi i ltac:(lia)). specialize (Sn i j ltac:(lia)). lia. }
    assert (Hhi' : forall j, (i <= j < nr_keys n)%nat -> key_val k < kv n j).
    { intros j Hj. specialize (Hhi j Hj). specialize (Hno j ltac:(lia)). lia. }
    apply (find_miss k s i n); [done|done| |].
    { intros Hin Hc. destruct (node_key_ok G GO n i N Hin) as [_ Hki]. apply (Hno i Hin).
      unfold kv. symmetry. by apply cmp_key_eq in Hc. }
    rewrite Lf. destruct h as [|h]; cbn [Nat.eqb]; [apply Hstop; [by left|done]|].
    destruct NR as [?|NR]; [done|].
    eapply find_down; try done. intros s1 q tb tl tS cn Hroot C1 I1 Hbt1 Hs1 V1 Hu1 Hr1 NR1.
    rewrite <- Hroot. eapply IH; try done; [by right|lia].
Qed.

(** The whole lookup. *)
Lemma lookup_spec fuel k s h b l S :
  tree G s h b l S -> releasing s = false -> (h = 0%nat \/ reads_ok s b S) -> key_ok k -> (h < fuel)%nat ->
  spec (nkfs_btree_find_key G fuel k) s (fun r s' =>
    r = (match to_map l !! key_val k with Some v => (0, Some v) | None => (- ENOENT, None) end) /\ tree G s' h b l S /\ quiet s s').
Proof.
  intros [C I Hbt Hs Hu] Hrel NR Hk Hf. destruct (bt_root G GO _ _ _ _ _ _ Hbt) as (n & V & _).
  unfold nkfs_btree_find_key. apply spec_bind, spec_gets. rewrite Hrel. apply spec_bind, spec_gets. apply spec_bind.
  eapply spec_mono; [eapply (find_key_spec k fuel Hk s h 0 (root s) b l S n); try done|].
  - unfold hold. by rewrite Nat.eqb_refl.
  - exists b. split; [done|by left].
  - intros r s1 (Q1 & Hr). assert (HT : forall s2, coh s2 [] ∅ ∅ -> quiet s s2 -> tree G s2 h b l S).
    { intros s2 C2 [E2 B2 V2 K2]. eapply (tree_still G GO s s2); try done. rewrite B2. intros x Hx. by apply Hu. }
    destruct r as [[q i]|].
    + destruct Hr as (Cq & bq & nq & Iq & Vq & Nq & Hi & Hel).
      apply spec_bind. eapply spec_node_get; [exact Cq|exact Iq|]. intros n1 V1 _. rewrite Vq in V1. injection V1 as <-.
      apply spec_bind. eapply spec_lift.
      { unfold nkfs_btree_node_value. rewrite (proj2 (Nat.leb_gt _ _)); [done|]. pose proof (node_nr _ _ Nq). destruct GO. lia. }
      apply spec_bind. eapply spec_node_deref; [exact Cq|apply not_elem_of_empty|]. intros s2 C2 E2 U2 K2 V2 _.
      apply spec_ret. assert (Q2 : quiet s s2) by (eapply quiet_trans; [exact Q1|by split]).
      split; [|split; [by apply HT|apply Q2]].
      assert (Hm : to_map l !! key_val k = Some (values nq !!! i)) by (apply to_map_lookup; [done|]; eexists; by split).
      by rewrite Hm.
    + destruct Hr as (C1 & Hno). apply spec_ret. split; [|split; [by apply HT|apply Q1]].
      rewrite has_entry_map, <- eq_None_not_Some in Hno by done. by rewrite Hno.
Qed.

(** (C9) Lookup is that of the map, when no allocation of memory and no read fails
    and every node but the root reads back: the call ends, answers with the value of
    the key or [-ENOENT], and leaves the tree as it is.  In the layout of
    include/nkfs_image.h the condition holds of trees of one node; it fails for most
    larger ones (C29), and the code then stops at [NKFS_BUG_ON]. *)
Theorem nkfs_btree_find_key_refines_map fuel k s h m :
  tree_map s h m -> releasing s = false -> no_rfail s -> key_ok k -> (h < fuel)%nat ->
  exists s', nkfs_btree_find_key G fuel k s =
    Done (match m !! key_val k with Some v => (0, Some v) | None => (- ENOENT, None) end) s' /\
  tree_map s' h m /\ env_same s s'.
Proof.
  intros (b & l & S & T & ->) Hrel NR Hk Hf. pose proof (lookup_spec fuel k s h b l S T Hrel (or_intror (no_rfail_reads s h b l S NR T)) Hk Hf) as Sp.
  unfold spec in Sp. destruct (nkfs_btree_find_key G fuel k s) as [r s'| | |]; [|done..].
  destruct Sp as (-> & T' & Q). exists s'. split; [done|]. split; [by exists b, l, S|apply Q].
Qed.

(** ** Creation and reopening *)

(** All objects are on disk, so the disk alone is the tree. *)
Lemma tree_on_disk s h b l S : tree G s h b l S -> bt G (fun x => disk s !! x) h 0 b l S.
Proof.
  intros [C I Hbt _ _]. apply (bt_ext G GO (vis s)); [|done]. intros x _. unfold vis.
  destruct (nodes s !! x) as [q|] eqn:E; [|done]. destruct (coh_obj _ _ _ _ C x q E) as (n & r & Eo & <- & HP).
  rewrite Eo. cbn. apply (coh_clean _ _ _ _ C q n r); [done..|]. apply not_elem_of_empty.
Qed.

(** Only the root is in memory. *)
Lemma coh_single s p n b : objs s = {[p := (n, 1%nat)]} -> (p < next s)%nat -> nodes s = {[b := p]} -> nodes_active s = 1 ->
  root s = p -> block n = b -> disk s !! b = Some n -> b ∈ ba_used (bal s) -> 0 < b -> ba_ok (bal s) ->
  (forall x m, disk s !! x = Some m -> block m = x) -> coh s [] ∅ ∅.
Proof.
  intros Eo Hn Ei Ea Er Eb Ed Hu Hb Hok Hd. split; rewrite ?Eo, ?Ei, ?Er; try done.
  - intros q m r Eq _. apply lookup_singleton_Some in Eq as [<- [= <- <-]]. unfold refs. rewrite Er. cbn.
    by destruct (Nat.eq_dec p p).
  - intros q Hq. apply elem_of_cons in Hq as [->|Hq]; [|by apply elem_of_nil in Hq]. by rewrite lookup_singleton_eq.
  - intros q [x Hx] _. apply lookup_singleton_Some in Hx as [<- _]. by left.
  - intros q m r Eq _. apply lookup_singleton_Some in Eq as [<- [= <- <-]]. by rewrite Eb, lookup_singleton_eq.
  - intros x q Eq. apply lookup_singleton_Some in Eq as [<- <-]. exists n, 1%nat. by rewrite lookup_singleton_eq.
  - intros q m r Eq _ _. apply lookup_singleton_Some in Eq as [<- [= <- <-]]. by rewrite Eb.
  - intros q [x Hx]. by apply lookup_singleton_Some in Hx as [<- _].
  - intros x q Eq. by apply lookup_singleton_Some in Eq as [<- <-].
  - by rewrite map_size_singleton.
Qed.

Lemma tree_single s p n b h l S : objs s = {[p := (n, 1%nat)]} -> (p < next s)%nat -> nodes s = {[b := p]} ->
  nodes_active s = 1 -> root s = p -> (forall x m, disk s !! x = Some m -> block m = x) -> disk s !! b = Some n ->
  bt G (fun x => disk s !! x) h 0 b l S -> sorted l -> uses s S -> ba_ok (bal s) -> tree G s h b l S.
Proof.
  intros Eo Hn Ei Ea Er Hd Ed Hbt Hs Hu Hok.
  destruct (bt_root G GO _ _ _ _ _ _ Hbt) as (n0 & E0 & _ & Bn & _ & Hb & _). rewrite Ed in E0. injection E0 as <-.
  destruct (Hu b Hb). split; try done.
  - eapply (coh_single s p n b); try done; lia.
  - by rewrite Ei, lookup_singleton_eq, Er.
  - apply (bt_ext G GO (fun x => disk s !! x)); [|done]. intros x _. unfold vis. rewrite Ei, Eo.
    destruct (decide (x = b)) as [->|]; [by rewrite !lookup_singleton_eq|]. by rewrite lookup_singleton_ne.
Qed.

Lemma spec_done_eq {A} (c : M A) s (Q : A -> state -> Prop) a : spec c s (fun r s' => r = a /\ Q a s') ->
  exists s', c s = Done a s' /\ Q a s'.
Proof. unfold spec. destruct (c s) as [r s'| | |]; [|done..]. intros [-> HQ]. by exists s'. Qed.

Lemma create_read b (d : gmap Z node) bl rf wf rb n : (forall t, rf t = false) -> rb n = true -> 0 < b < ba_size bl -> d !! b = Some n ->
  sig1 n = NKFS_BTREE_SIG1 -> sig2 n = NKFS_BTREE_SIG2 -> block n = b ->
  exists s', nkfs_btree_create G b (tree_zero d bl rf wf rb) = Done true s' /\
  objs s' = {[1%nat := (n, 1%nat)]} /\ (1 < next s')%nat /\ nodes s' = {[b := 1%nat]} /\ nodes_active s' = 1 /\
  root s' = 1%nat /\ disk s' = d /\ bal s' = bl /\ releasing s' = false /\ rfail s' = rf /\ wfail s' = wf /\ tref s' = 1.
Proof.
  intros Hrf Hrb Hb Ed S1 S2 Bn. assert (Hz : (b =? 0) = false) by lia.
  assert (Hsb : set_block b n = n) by (rewrite <- Bn; by destruct n).
  apply (spec_done_eq _ _ (fun _ s' => objs s' = _ /\ _)). unfold nkfs_btree_create. rewrite Hz. cbn [negb].
  unfold nkfs_btree_node_read, nkfs_btree_nodes_lookup.
  apply spec_bind, spec_bind, spec_gets. rewrite Hz. cbn [orb].
  apply spec_bind, spec_bug_on; [cbn; lia|].
  apply spec_bind, spec_bind, spec_gets. cbn [nodes tree_zero]. rewrite lookup_empty. apply spec_ret.
  apply spec_bind, spec_gets. cbn [disk tree_zero]. rewrite Ed. change (default (nkfs_btree_node_alloc_node G) (Some n)) with n. rewrite Hsb.
  apply spec_bind, spec_alloc; [cbn; by rewrite Hrf|intros _].
  apply spec_bind, spec_rfails. cbn [rfail tree_zero with_rtick new_obj]. rewrite Hrf.
  apply spec_bind, (spec_get_obj _ n 1); [by apply lookup_insert_eq|]. apply spec_bind, spec_gets.
  cbn [reads_back tree_zero with_rtick new_obj]. rewrite Hrb, S1, S2. cbn [orb negb bool_decide].
  rewrite bool_decide_true by done. rewrite !Z.eqb_refl. cbn [orb negb].
  apply spec_bind, (spec_insert_new _ n 0); [by apply lookup_insert_eq|by apply lookup_empty|].
  rewrite Nat.eqb_refl. apply spec_bind, (spec_deref_obj _ n 0); [by apply lookup_insert_eq|]. apply spec_ret.
  apply spec_bind, spec_modify, spec_ret. cbn -[lookup insert delete]. rewrite !insert_insert_eq, Bn.
  split; [done|]. split; [done|]. split; [lia|]. repeat (split; [done|]). done.
Qed.

(** A root whose image does not read back cannot be opened. *)
Lemma create_unreadable b (d : gmap Z node) bl rf wf rb n : (forall t, rf t = false) -> rb n = false ->
  0 < b < ba_size bl -> d !! b = Some n -> block n = b ->
  exists s', nkfs_btree_create G b (tree_zero d bl rf wf rb) = Done false s'.
Proof.
  intros Hrf Hrb Hb Ed Bn. assert (Hz : (b =? 0) = false) by lia.
  assert (Hsb : set_block b n = n) by (rewrite <- Bn; by destruct n).
  cut (spec (nkfs_btree_create G b) (tree_zero d bl rf wf rb) (fun ok _ => ok = false)).
  { unfold spec. destruct (nkfs_btree_create G b _) as [ok s'| | |]; [|done..]. intros ->. by exists s'. }
  unfold nkfs_btree_create. rewrite Hz. cbn [negb]. unfold nkfs_btree_node_read, nkfs_btree_nodes_lookup.
  apply spec_bind, spec_bind, spec_gets. rewrite Hz. cbn [orb]. apply spec_bind, spec_bug_on; [cbn; lia|].
  apply spec_bind, spec_bind, spec_gets. cbn [nodes tree_zero]. rewrite lookup_empty. apply spec_ret.
  apply spec_bind, spec_gets. cbn [disk tree_zero]. rewrite Ed. change (default (nkfs_btree_node_alloc_node G) (Some n)) with n. rewrite Hsb.
  apply spec_bind, spec_alloc; [cbn; by rewrite Hrf|intros _].
  apply spec_bind, spec_rfails. apply spec_bind, (spec_get_obj _ n 1); [by apply lookup_insert_eq|]. apply spec_bind, spec_gets.
  cbn [reads_back tree_zero with_rtick new_obj]. rewrite Hrb. cbn [negb]. rewrite !orb_true_r. cbn [orb].
  apply spec_bind, (spec_free_obj _ n 1); [by apply lookup_insert_eq|]. apply spec_ret.
  vm_compute. reflexivity.
Qed.

(** (C28) Reopening a tree: over the disk and allocator another tree left behind,
    [nkfs_btree_create] at the root block gives a tree with the same map when the
    image of the root reads back, and [NULL] when it does not. *)
Theorem nkfs_btree_reopen_same_map s h m rf wf rb :
  tree_map s h m -> (forall t, rf t = false) ->
  exists b n ok s', nkfs_btree_root_block s = Done b s /\ disk s !! b = Some n /\
  nkfs_btree_create G b (tree_zero (disk s) (bal s) rf wf rb) = Done ok s' /\ ok = rb n /\
  (ok = true -> tree_map s' h m /\ releasing s' = false).
Proof.
  intros (b & l & S & T & ->) Hrf. pose proof (tree_on_disk _ _ _ _ _ T) as Hd. pose proof T as [C I Hbt Hs Hu].
  destruct (bt_root G GO _ _ _ _ _ _ Hd) as (n & Ed & N & Bn & _ & Hb & _). destruct (node_sigs _ _ N) as [S1 S2].
  destruct (Hu b Hb) as [Hub Hrb].
  assert (Hroot : nkfs_btree_root_block s = Done b s).
  { destruct (vis_at _ _ _ _ _ _ C I) as (n1 & r & _ & Bn1 & Eo1 & _).
    unfold nkfs_btree_root_block, bind, gets, get, ret. by rewrite Eo1, Bn1. }
  destruct (rb n) eqn:Rn.
  - destruct (create_read b (disk s) (bal s) rf wf rb n) as (s' & E & Eo & Hn & Ei & Ea & Er & Edk & Ebl & Erl & _); try done.
    exists b, n, true, s'. do 4 (split; [done|]). intros _. split; [|done]. exists b, l, S. split; [|done].
    eapply (tree_single s' 1%nat n); rewrite ?Edk; try done; [apply C| |rewrite Ebl; apply C].
    intros x Hx. rewrite Ebl. by apply Hu.
  - destruct (create_unreadable b (disk s) (bal s) rf wf rb n) as (s' & E); try done.
    by exists b, n, false, s'.
Qed.

Lemma empty_leaf_ok b : node_ok G (set_leaf true (empty_node G b)).
Proof.
  destruct (empty_node_ok G b) as ([] & S1 & S2 & _). split; [by split|cbn; lia|constructor|done].
Qed.

(** A new tree in full: its block was free, and no block in use changes. *)
Lemma create_empty_spec d bl rf wf rb :
  ba_ok bl -> (forall t, wf t = WOk) -> (forall x n, d !! x = Some n -> block n = x) ->
  spec (nkfs_btree_create G 0) (tree_zero d bl rf wf rb) (fun ok s' =>
    ba_ok (bal s') /\ ba_used bl ⊆ ba_used (bal s') /\ ba_size (bal s') = ba_size bl /\
    (forall x n, disk s' !! x = Some n -> block n = x) /\ (forall x, x ∈ ba_used bl -> disk s' !! x = d !! x) /\
    if ok : bool then
      exists b, b ∉ ba_used bl /\ tree G s' 0 b [] {[b]} /\ env_same (with_root (root s') (tree_zero d bl rf wf rb)) s' /\
        ba_alloc bl = Ret (Some b, bal s') /\ disk s' !! b = Some (set_leaf true (empty_node G b))
    else ((exists t, rf t = true) \/ (exists b', ba_alloc bl = Ret (None, b'))) /\ objs s' = ∅ /\ nodes s' = ∅).
Proof.
  intros Hok Wo Hd. set (s0 := tree_zero d bl rf wf rb).
  unfold nkfs_btree_create. cbn [Z.eqb negb]. apply spec_bind. apply spec_create_raw; [by apply lookup_empty|done|done|done| |].
  - intros s' Eo _ Ei Ea Ed Es Hu Hok' Hf. cbn in Eo, Ei, Ea, Ed. unfold nkfs_btree_deref, nkfs_btree_release, nkfs_btree_stop.
    apply spec_bind, spec_bind, spec_gets. rewrite (env_tref _ _ Es). apply spec_bind, spec_bug_on; [done|].
    apply spec_bind, spec_modify. cbn [tref s0 tree_zero Z.sub Z.add Z.opp Z.pos_sub Z.eqb].
    apply spec_bind, spec_modify. apply spec_bind, spec_gets. apply spec_bind, spec_ret. apply spec_bind, spec_gets.
    apply spec_bug_on; [by cbn; rewrite Ea|]. apply spec_ret. cbn. split; [done|]. split; [done|]. split; [apply Es|]. rewrite Ed.
    split; [done|]. split; [done|]. split; [|done]. destruct Hf as [(t & _ & Hf)|Hf]; [left; by exists t|by right].
  - intros b s' Eo En Ei Ea Ed Es Hb Hr Hu Hok' Hal. cbn in Eo, En, Ei, Ea, Ed. apply spec_bind, spec_modify.
    apply spec_bind, (spec_get_obj _ (empty_node G b) 1); [by cbn; rewrite Eo|].
    apply spec_bind, (spec_put_obj _ (empty_node G b) 1); [by cbn; rewrite Eo|].
    apply spec_bind. unfold nkfs_btree_node_write.
    apply spec_bind, (spec_get_obj _ (set_leaf true (empty_node G b)) 1); [by cbn; rewrite lookup_insert_eq|].
    apply spec_bind, spec_bug_on; [done|]. apply spec_bind, spec_gets.
    apply spec_bind, spec_bug_on; [cbn; rewrite (env_size _ _ Es); lia|].
    apply spec_bind. unfold spec at 1, wends. cbn. rewrite (env_wfail _ _ Es). cbn. rewrite Wo.
    set (n := set_leaf true (empty_node G b)).
    assert (Ed' : <[b := n]> (disk s') = <[b := n]> d) by (by rewrite Ed, insert_insert_eq).
    assert (Hd' : forall x m, <[b := n]> (disk s') !! x = Some m -> block m = x).
    { intros x m. rewrite Ed'. destruct (decide (x = b)) as [->|Hx].
      - rewrite lookup_insert_eq. by intros [= <-].
      - rewrite lookup_insert_ne by done. apply Hd. }
    split; [done|]. split; [clear -Hu; set_solver|]. split; [apply Es|]. split; [exact Hd'|]. split.
    { intros x Hx. cbn -[insert lookup]. rewrite Ed', lookup_insert_ne; [done|]. by intros ->. }
    exists b. split; [done|]. split; [|split; [by destruct Es; split|split; [exact Hal|by cbn -[insert lookup]; rewrite lookup_insert_eq]]]. eapply (tree_single _ 1%nat n b); cbn -[insert lookup]; try done.
    + rewrite Eo, insert_insert_eq. done.
    + lia.
    + by rewrite lookup_insert_eq.
    + exists n. rewrite lookup_insert_eq. split; [done|]. split; [apply empty_leaf_ok|]. cbn. split; [done|]. split; [lia|done].
    + constructor.
    + intros x ->%elem_of_singleton. cbn. rewrite (env_size _ _ Es). split; [clear -Hu; set_solver|done].
Qed.

(** A new tree is the empty map; when it cannot be made, because an
    allocation failed, no node stays behind in memory. *)
Theorem nkfs_btree_create_empty d bl rf wf rb :
  ba_ok bl -> (forall t, wf t = WOk) -> (forall x n, d !! x = Some n -> block n = x) ->
  exists ok s', nkfs_btree_create G 0 (tree_zero d bl rf wf rb) = Done ok s' /\
  if ok : bool then tree_map s' 0 ∅ /\ releasing s' = false
  else ((exists t, rf t = true) \/ alloc_fails 1 bl = true) /\ objs s' = ∅ /\ nodes s' = ∅.
Proof.
  intros Hok Wo Hd. pose proof (create_empty_spec d bl rf wf rb Hok Wo Hd) as Sp. unfold spec in Sp.
  destruct (nkfs_btree_create G 0 _) as [ok s'| | |]; [|done..]. exists ok, s'. split; [done|].
  destruct Sp as (_ & _ & _ & _ & _ & Sp). destruct ok.
  2:{ destruct Sp as ([?|[b' ?]] & ?); (split; [|done]); [by left|right; cbn; by rewrite H0]. }
  destruct Sp as (b & _ & T & E & _ & _).
  split; [by exists b, [], {[b]}|]. by rewrite (env_rel _ _ E).
Qed.

End Spec.

End BtreeSpec.
