(* ===== verification/Balloc.v ===== *)
(** * The block allocator (src/core/balloc.c)

    The bitmap of used blocks is a list of clusters, each a list of 64-bit
    words; bit [b mod 64] of word [b / 64] is set when block [b] is in use
    ([test_bit_le] and its relatives number bits from the least significant
    bit of the little-endian word).  Two oracles decide which cluster reads
    ([gfail]) and which cluster syncs ([sfail]) fail.  [rw_lock] counts the
    writers of [sb->rw_lock], [readers] the read locks held on each bitmap
    cluster.  A cluster has the [bsize] bytes of the device the superblock was
    formatted for ([nkfs_sb_gen_header] is given [dev->bsize]), so
    [clu->clu_size] is written [bsize].

    The theorems: the allocator keeps its invariant, in particular
    [used_blocks] is the number of set bits; an allocation returns a block that
    was free, the lowest one when nothing fails; marking and freeing change one
    bit; and the allocator is what the B-tree asks for ([BlockAlloc]). *)

From Stdlib Require Import ZArith Lia.
From stdpp Require Import base list gmap.
From S2P Require Import Prelude Btree.
Local Open Scope Z_scope.
Local Open Scope nkfs_scope.

Module Balloc.

(** ** Data *)

Definition PAGE_SIZE : Z := 4096.

Record nkfs_sb := Sb {
  nr_blocks : Z; bm_block : Z; bm_blocks : Z; bsize : Z;
  bm : list (list Z);
  used_blocks : Z;
  rw_lock : Z; readers : list Z;
  gfail : nat -> bool; gtick : nat;
  sfail : nat -> bool; stick : nat
}.

Definition set_bm (v : list (list Z)) (b : nkfs_sb) : nkfs_sb :=
  Sb (nr_blocks b) (bm_block b) (bm_blocks b) (bsize b) v (used_blocks b) (rw_lock b) (readers b)
    (gfail b) (gtick b) (sfail b) (stick b).
Definition set_used (v : Z) (b : nkfs_sb) : nkfs_sb :=
  Sb (nr_blocks b) (bm_block b) (bm_blocks b) (bsize b) (bm b) v (rw_lock b) (readers b)
    (gfail b) (gtick b) (sfail b) (stick b).
Definition set_lock (v : Z) (b : nkfs_sb) : nkfs_sb :=
  Sb (nr_blocks b) (bm_block b) (bm_blocks b) (bsize b) (bm b) (used_blocks b) v (readers b)
    (gfail b) (gtick b) (sfail b) (stick b).
Definition set_readers (v : list Z) (b : nkfs_sb) : nkfs_sb :=
  Sb (nr_blocks b) (bm_block b) (bm_blocks b) (bsize b) (bm b) (used_blocks b) (rw_lock b) v
    (gfail b) (gtick b) (sfail b) (stick b).
Definition set_gtick (v : nat) (b : nkfs_sb) : nkfs_sb :=
  Sb (nr_blocks b) (bm_block b) (bm_blocks b) (bsize b) (bm b) (used_blocks b) (rw_lock b) (readers b)
    (gfail b) v (sfail b) (stick b).
Definition set_stick (v : nat) (b : nkfs_sb) : nkfs_sb :=
  Sb (nr_blocks b) (bm_block b) (bm_blocks b) (bsize b) (bm b) (used_blocks b) (rw_lock b) (readers b)
    (gfail b) (gtick b) (sfail b) v.

(** The failure of the next cluster read, and of the next sync. *)
Definition dio_clu_get (b : nkfs_sb) : bool * nkfs_sb :=
  (negb (gfail b (gtick b)), set_gtick (S (gtick b)) b).

Definition dio_clu_sync (b : nkfs_sb) : Z * nkfs_sb :=
  (if sfail b (stick b) then - EIO else 0, set_stick (S (stick b)) b).

Definition read_lock (k : nat) (b : nkfs_sb) : nkfs_sb :=
  set_readers (<[k := readers b !!! k + 1]> (readers b)) b.

Definition read_unlock (k : nat) (b : nkfs_sb) : nkfs_sb :=
  set_readers (<[k := readers b !!! k - 1]> (readers b)) b.

(** One word of one bitmap cluster; a cluster outside the bitmap or an offset
    outside the cluster is an access this model does not follow. *)
Definition with_word (k i : nat) (b : nkfs_sb) {A} (f : Z -> outcome A) : outcome A :=
  match bm b !! k with
  | Some ws => match ws !! i with Some w => f w | None => Bug end
  | None => Bug
  end.

Definition put_word (k i : nat) (w : Z) (b : nkfs_sb) : nkfs_sb :=
  set_bm (<[k := <[i := w]> (bm b !!! k)]> (bm b)) b.

(** ** Operations *)

(** [dio_clu_zero] fails only with the allocation of its page, which is the
    first thing it does; the read before it is [dio_clu_get]. *)
Fixpoint bm_clear_loop (k n : nat) (b : nkfs_sb) : Z * nkfs_sb :=
  match n with
  | O => (0, set_used 0 b)
  | S n' =>
      let '(ok, b) := dio_clu_get b in
      if negb ok then (- EIO, b)
      else
        let '(ok, b) := dio_clu_get b in
        if negb ok then (- ENOMEM, b)
        else
          let b := set_bm (<[k := (fun _ => 0) <$> (bm b !!! k)]> (bm b)) b in
          let '(err, b) := dio_clu_sync b in
          if negb (err =? 0) then (err, b) else bm_clear_loop (S k) n' b
  end.

Definition nkfs_balloc_bm_clear (b : nkfs_sb) : Z * nkfs_sb :=
  bm_clear_loop 0 (Z.to_nat (bm_blocks b)) b.

(** [Some (bitmap block, byte offset of the word, bit)]. *)
Definition nkfs_balloc_block_bm_bit (b : nkfs_sb) (block : Z) : option (Z * Z * Z) :=
  if nr_blocks b <=? block then None
  else
    let long_num := block / 64 in
    Some (bm_block b + (long_num * 8) / bsize b, (long_num * 8) mod bsize b, block mod 64).

Definition nkfs_balloc_block_mark (b : nkfs_sb) (block : Z) (use : bool) : outcome (Z * nkfs_sb) :=
  match nkfs_balloc_block_bm_bit b block with
  | None => Ret (- EINVAL, b)
  | Some (bmb, long_off, bit) =>
      let '(ok, b) := dio_clu_get b in
      if negb ok then Ret (- EIO, set_lock (rw_lock b - 1) b)
      else
        let k := Z.to_nat (bmb - bm_block b) in
        let i := Z.to_nat (long_off / 8) in
        let b := read_lock k b in
        with_word k i b (fun w =>
          bug_on (Bool.eqb (Z.testbit w bit) use) (
            let b := put_word k i (if use then Z.setbit w bit else Z.clearbit w bit) b in
            let b := set_used (if use then used_blocks b + 1 else used_blocks b - 1) b in
            let b := read_unlock k b in
            let '(err, b) := dio_clu_sync b in
            Ret (err, set_lock (rw_lock b - 1) b)))
  end.

Definition nkfs_balloc_block_free (b : nkfs_sb) (block : Z) : outcome (Z * nkfs_sb) :=
  nkfs_balloc_block_mark b block false.

(** Where the scan of a cluster stops: at a clear bit of a word, or without. *)
Inductive scan := Found (i : nat) (bit : Z) | NoSpace.

(** The bits of one word from [bit] on; [None] when all are set. *)
Fixpoint scan_bits (n : nat) (bit : Z) (w block nr : Z) (i : nat) : option scan :=
  match n with
  | O => None
  | S n' =>
      if nr <=? block + bit then Some NoSpace
      else if negb (Z.testbit w bit) then Some (Found i bit)
      else scan_bits n' (bit + 1) w block nr i
  end.

Definition all_ones : Z := 2 ^ 64 - 1.

Fixpoint scan_words (ws : list Z) (i : nat) (base nr : Z) : scan :=
  match ws with
  | [] => NoSpace
  | w :: ws' =>
      let block := base + 64 * Z.of_nat i in
      if nr <=? block then NoSpace
      else if w =? all_ones then scan_words ws' (S i) base nr
      else match scan_bits 64 0 w block nr i with
           | Some r => r
           | None => scan_words ws' (S i) base nr
           end
  end.

(** On success, and when the sync fails, the cluster stays read locked. *)
Definition nkfs_balloc_block_find_set_free_bit (b : nkfs_sb) (k : nat) :
    outcome (Z * option (nat * Z) * nkfs_sb) :=
  bug_on (negb (Z.land (bsize b) (PAGE_SIZE - 1) =? 0)) (
    match bm b !! k with
    | None => Bug
    | Some ws =>
        let b := read_lock k b in
        match scan_words ws 0 (8 * Z.of_nat k * bsize b) (nr_blocks b) with
        | NoSpace => Ret (- ENOENT, None, read_unlock k b)
        | Found i bit =>
            let b := put_word k i (Z.setbit (ws !!! i) bit) b in
            let b := set_used (used_blocks b + 1) b in
            let '(err, b) := dio_clu_sync b in
            if negb (err =? 0) then Ret (err, None, b) else Ret (0, Some (i, bit), b)
        end
    end).

Fixpoint block_alloc_loop (k n : nat) (b : nkfs_sb) : outcome (Z * Z * nkfs_sb) :=
  match n with
  | O => Ret (- ENOSPC, 0, b)
  | S n' =>
      let '(ok, b) := dio_clu_get b in
      if negb ok then Ret (- EIO, 0, b)
      else
        let! (err, loc, b) := nkfs_balloc_block_find_set_free_bit b k in
        match loc with
        | Some (i, bit) => Ret (0, 8 * Z.of_nat k * bsize b + 64 * Z.of_nat i + bit, b)
        | None => block_alloc_loop (S k) n' b
        end
  end.

(** The error, [*pblock] and the new state. *)
Definition nkfs_balloc_block_alloc (b : nkfs_sb) : outcome (Z * Z * nkfs_sb) :=
  block_alloc_loop 0 (Z.to_nat (bm_blocks b)) b.

(** ** The bits *)

Definition wpc (b : nkfs_sb) : nat := Z.to_nat (bsize b / 8).

Definition bit_at (b : nkfs_sb) (x : Z) : bool :=
  let q := Z.to_nat (x / 64) in Z.testbit (bm b !!! (q / wpc b)%nat !!! (q mod wpc b)%nat) (x mod 64).

Definition used (b : nkfs_sb) : gset Z :=
  list_to_set (filter (fun x => bit_at b x = true) (seqZ 0 (nr_blocks b))).

Lemma elem_of_used b x : x ∈ used b <-> 0 <= x < nr_blocks b /\ bit_at b x = true.
Proof.
  unfold used. rewrite elem_of_list_to_set, list_elem_of_filter, elem_of_seqZ. split; [intros [? ?]|intros [? ?]]; split; auto; lia.
Qed.

(** Every operation keeps this. *)
Record balloc_ok (b : nkfs_sb) : Prop := {
  ok_bsize : 0 < bsize b;
  ok_page : bsize b mod PAGE_SIZE = 0;
  ok_bm : Z.of_nat (length (bm b)) = bm_blocks b;
  ok_words k ws : bm b !! k = Some ws -> length ws = wpc b /\ Forall (fun w => 0 <= w < 2 ^ 64) ws;
  ok_nr : 0 < nr_blocks b <= 8 * bsize b * bm_blocks b /\ 8 * bsize b * bm_blocks b < 2 ^ 64;
  ok_used : used_blocks b = Z.of_nat (size (used b))
}.

Lemma ok_wpc b : balloc_ok b -> bsize b = 8 * Z.of_nat (wpc b) /\ (0 < wpc b)%nat.
Proof. intros O. pose proof (ok_bsize _ O). pose proof (ok_page _ O). unfold wpc, PAGE_SIZE in *. split; dlia. Qed.

(** The number of the bit at a place. *)
Definition place (b : nkfs_sb) (k i : nat) (bit : Z) : Z := 64 * Z.of_nat (k * wpc b + i) + bit.

Lemma place_split b k i bit : (i < wpc b)%nat -> 0 <= bit < 64 ->
  (Z.to_nat (place b k i bit / 64) / wpc b = k)%nat /\ (Z.to_nat (place b k i bit / 64) mod wpc b = i)%nat /\
  place b k i bit mod 64 = bit.
Proof.
  intros Hi Hb. unfold place. assert (Hd : (64 * Z.of_nat (k * wpc b + i) + bit) / 64 = Z.of_nat (k * wpc b + i)) by dlia.
  rewrite Hd, Nat2Z.id. split; [|split; [|dlia]].
  - rewrite Nat.add_comm, Nat.div_add, Nat.div_small by lia. lia.
  - rewrite Nat.add_comm, Nat.Div0.mod_add. by apply Nat.mod_small.
Qed.

Lemma place_of b x : 0 <= x -> (0 < wpc b)%nat ->
  x = place b (Z.to_nat (x / 64) / wpc b) (Z.to_nat (x / 64) mod wpc b) (x mod 64).
Proof.
  intros Hx Hw. unfold place. rewrite (Nat.mul_comm (_ / _)), <- Nat.div_mod_eq. rewrite Z2Nat.id by dlia. dlia.
Qed.

Lemma bit_at_place b k i bit : (i < wpc b)%nat -> 0 <= bit < 64 ->
  bit_at b (place b k i bit) = Z.testbit (bm b !!! k !!! i) bit.
Proof. intros Hi Hb. unfold bit_at. destruct (place_split b k i bit Hi Hb) as (-> & -> & ->). done. Qed.

(** Storing a word changes the bits of that word only. *)
Lemma bit_at_put b k i w x : balloc_ok b -> (k < length (bm b))%nat -> (i < wpc b)%nat -> 0 <= x ->
  bit_at (put_word k i w b) x =
  if decide (Z.to_nat (x / 64) = (k * wpc b + i)%nat) then Z.testbit w (x mod 64) else bit_at b x.
Proof.
  intros O Hk Hi Hx. destruct (ok_wpc _ O) as [_ Hw]. unfold bit_at.
  change (wpc (put_word k i w b)) with (wpc b). cbn [bm put_word set_bm]. set (q := Z.to_nat (x / 64)).
  pose proof (Nat.div_mod_eq q (wpc b)) as Hq. destruct (lookup_lt_is_Some_2 _ _ Hk) as [ws Ek].
  pose proof (ok_words _ O k ws Ek) as [L _]. rewrite <- (list_lookup_total_correct _ _ _ Ek) in L.
  pose proof (Nat.mod_upper_bound q (wpc b) ltac:(lia)) as Hm.
  case_decide as Hd.
  - assert (q / wpc b = k /\ q mod wpc b = i)%nat as [-> ->].
    { assert (q / wpc b = k)%nat; [|nia]. rewrite Hd, Nat.add_comm, Nat.div_add, Nat.div_small by lia. lia. }
    rewrite list_lookup_total_insert_eq by done. rewrite list_lookup_total_insert_eq by lia. done.
  - destruct (decide (q / wpc b = k)%nat) as [Ek'|Ek'].
    + rewrite Ek'. rewrite list_lookup_total_insert_eq by done.
      rewrite list_lookup_total_insert_ne; [done|]. intros Ei. apply Hd. rewrite Hq, Ek', <- Ei. lia.
    + by rewrite list_lookup_total_insert_ne.
Qed.

Lemma at_place b k i bit x : (i < wpc b)%nat -> 0 <= bit < 64 -> 0 <= x ->
  (Z.to_nat (x / 64) = (k * wpc b + i)%nat /\ x mod 64 = bit) <-> x = place b k i bit.
Proof.
  intros Hi Hb Hx. unfold place. split.
  - intros [E1 E2]. assert (x / 64 = Z.of_nat (k * wpc b + i)) by (rewrite <- E1, Z2Nat.id; dlia). dlia.
  - intros ->. assert (Hd : (64 * Z.of_nat (k * wpc b + i) + bit) / 64 = Z.of_nat (k * wpc b + i)) by dlia.
    rewrite Hd, Nat2Z.id. split; [done|dlia].
Qed.

(** Setting or clearing a bit. *)
Definition flip (v : bool) (w bit : Z) : Z := if v then Z.setbit w bit else Z.clearbit w bit.

Lemma flip_testbit v w bit n : 0 <= bit -> Z.testbit (flip v w bit) n = if decide (n = bit) then v else Z.testbit w n.
Proof.
  intros Hb. unfold flip. case_decide as Hn.
  - subst. destruct v; [by rewrite Z.setbit_eq|by rewrite Z.clearbit_eq].
  - destruct v; [by rewrite Z.setbit_neq by lia|by rewrite Z.clearbit_neq by lia].
Qed.

Lemma bit_at_flip b k i v bit x : balloc_ok b -> (k < length (bm b))%nat -> (i < wpc b)%nat -> 0 <= bit < 64 -> 0 <= x ->
  bit_at (put_word k i (flip v (bm b !!! k !!! i) bit) b) x = if decide (x = place b k i bit) then v else bit_at b x.
Proof.
  intros O Hk Hi Hb Hx. rewrite bit_at_put by done. pose proof (at_place b k i bit x Hi Hb Hx) as Hat.
  case_decide as H1; [|rewrite decide_False; [done|naive_solver]]. rewrite flip_testbit by lia.
  case_decide as H2; [by rewrite decide_True by (apply Hat; done)|]. rewrite decide_False by naive_solver.
  assert (Hx' : x = place b k i (x mod 64)) by (apply at_place; [done|dlia|done..]).
  rewrite Hx' at 2. rewrite bit_at_place; [done|done|dlia].
Qed.

Lemma used_flip b k i v bit : balloc_ok b -> (k < length (bm b))%nat -> (i < wpc b)%nat -> 0 <= bit < 64 ->
  place b k i bit < nr_blocks b ->
  used (put_word k i (flip v (bm b !!! k !!! i) bit) b) =
  if v then {[place b k i bit]} ∪ used b else used b ∖ {[place b k i bit]}.
Proof.
  intros O Hk Hi Hb Hn. assert (Hp : 0 <= place b k i bit) by (unfold place; lia).
  apply set_eq. intros x. rewrite elem_of_used.
  change (nr_blocks (put_word k i _ b)) with (nr_blocks b).
  assert (Hbit : 0 <= x -> bit_at (put_word k i (flip v (bm b !!! k !!! i) bit) b) x =
    if decide (x = place b k i bit) then v else bit_at b x) by (by apply bit_at_flip).
  destruct v; rewrite ?elem_of_union, ?elem_of_difference, elem_of_singleton, elem_of_used.
  - split.
    + intros [Hx E]. rewrite Hbit in E by lia. case_decide; [by left|by right].
    + intros [->|[Hx E]]; (split; [lia|]); rewrite Hbit by lia; case_decide; done.
  - split.
    + intros [Hx E]. rewrite Hbit in E by lia. case_decide; done.
    + intros [[Hx E] Hne]. split; [done|]. rewrite Hbit by lia. by rewrite decide_False.
Qed.

Lemma flip_range v w bit : 0 <= w < 2 ^ 64 -> 0 <= bit < 64 -> 0 <= flip v w bit < 2 ^ 64.
Proof.
  intros Hw Hb. rewrite <- (Z.mod_small w (2 ^ 64)) by done.
  assert (H : flip v (w mod 2 ^ 64) bit = (flip v w bit) mod 2 ^ 64); [|rewrite H; apply Z.mod_pos_bound; lia].
  apply Z.bits_inj'. intros n Hn. rewrite flip_testbit by lia. destruct (decide (n < 64)).
  - rewrite !Z.mod_pow2_bits_low by lia. by rewrite flip_testbit by lia.
  - rewrite !Z.mod_pow2_bits_high by lia. rewrite decide_False by lia. done.
Qed.

(** The invariant after a flip that changes the bit, with the counter moved. *)
Lemma flip_ok b k i v bit : balloc_ok b -> (k < length (bm b))%nat -> (i < wpc b)%nat -> 0 <= bit < 64 ->
  place b k i bit < nr_blocks b -> Z.testbit (bm b !!! k !!! i) bit = negb v ->
  balloc_ok (set_used (if v then used_blocks b + 1 else used_blocks b - 1) (put_word k i (flip v (bm b !!! k !!! i) bit) b)).
Proof.
  intros O Hk Hi Hb Hn Ht. pose proof (used_flip b k i v bit O Hk Hi Hb Hn) as Hu.
  assert (Hp : 0 <= place b k i bit) by (unfold place; lia).
  assert (Hin : place b k i bit ∈ used b <-> v = false).
  { rewrite elem_of_used, bit_at_place, Ht by done. destruct v; naive_solver lia. }
  destruct O as [O1 O2 O3 O4 O5 O6]. split; try done.
  - cbn. by rewrite length_insert.
  - intros k' ws. cbn. intros E. change (wpc (set_used _ _)) with (wpc b).
    apply list_lookup_insert_Some in E as [(<- & <- & _)|[_ E]]; [|by apply (O4 k' ws)].
    destruct (lookup_lt_is_Some_2 _ _ Hk) as [ws0 E0]. destruct (O4 k ws0 E0) as [L F].
    rewrite (list_lookup_total_correct _ _ _ E0). rewrite length_insert. split; [done|]. apply Forall_insert; [done|].
    apply flip_range; [|done]. rewrite Forall_lookup in F. apply (F i). apply list_lookup_lookup_total_lt. lia.
  - change (used_blocks (set_used ?x _)) with x.
    change (used (set_used _ ?c)) with (used c). rewrite Hu, O6. destruct v.
    + rewrite size_union by (assert (place b k i bit ∉ used b) by naive_solver; set_solver). rewrite size_singleton. lia.
    + assert (Hi' : place b k i bit ∈ used b) by naive_solver. rewrite size_difference by set_solver. rewrite size_singleton.
      assert (size (used b) <> 0%nat); [|lia]. intros Hz. apply size_empty_inv in Hz. set_solver.
Qed.

(** ** Locks and oracles do not matter to the bits *)

Definition same (b b' : nkfs_sb) : Prop :=
  nr_blocks b' = nr_blocks b /\ bm_block b' = bm_block b /\ bm_blocks b' = bm_blocks b /\ bsize b' = bsize b /\
  gfail b' = gfail b /\ sfail b' = sfail b.

Lemma same_trans a b c : same a b -> same b c -> same a c.
Proof. unfold same. intuition congruence. Qed.

Lemma balloc_ok_cong b b' : same b b' -> bm b' = bm b -> used_blocks b' = used_blocks b -> balloc_ok b ->
  balloc_ok b' /\ used b' = used b.
Proof.
  intros (E1 & E2 & E3 & E4 & _) Eb Eu O.
  assert (Hw : wpc b' = wpc b) by (unfold wpc; by rewrite E4).
  assert (Hu : used b' = used b).
  { apply set_eq. intros x. rewrite !elem_of_used. unfold bit_at. by rewrite E1, Hw, Eb. }
  split; [|done]. destruct O. split; rewrite ?E1, ?E2, ?E3, ?E4, ?Eb, ?Eu, ?Hu, ?Hw; done.
Qed.

(** ** The scan for a clear bit *)

Lemma scan_bits_spec n : forall bit w block nr i, Z.of_nat n + bit = 64 -> 0 <= bit ->
  match scan_bits n bit w block nr i with
  | Some (Found j b') => j = i /\ bit <= b' < 64 /\ Z.testbit w b' = false /\ block + b' < nr /\
      forall c, bit <= c < b' -> Z.testbit w c = true
  | Some NoSpace => nr < block + 64 /\ forall c, bit <= c < 64 -> block + c < nr -> Z.testbit w c = true
  | None => forall c, bit <= c < 64 -> Z.testbit w c = true
  end.
Proof.
  induction n as [|n IH]; intros bit w block nr i Hn Hb; cbn [scan_bits].
  - intros c Hc. lia.
  - destruct (Z.leb_spec nr (block + bit)); [split; [lia|]; intros c Hc Hlt; lia|].
    destruct (Z.testbit w bit) eqn:Et; cbn [negb].
    + specialize (IH (bit + 1) w block nr i ltac:(lia) ltac:(lia)).
      assert (Hstep : forall c, bit <= c -> (bit + 1 <= c -> Z.testbit w c = true) -> Z.testbit w c = true).
      { intros c Hc Hc'. destruct (decide (c = bit)) as [->|]; [done|apply Hc'; lia]. }
      destruct (scan_bits n (bit + 1) w block nr i) as [[j b'|]|].
      * destruct IH as (-> & Hb' & Ht & Hlt & Hall). split; [done|]. split; [lia|]. split; [done|]. split; [done|].
        intros c Hc. apply Hstep; [lia|]. intros. apply Hall. lia.
      * destruct IH as [Hnr IH]. split; [done|]. intros c Hc Hlt. apply Hstep; [lia|]. intros. apply IH; lia.
      * intros c Hc. apply Hstep; [lia|]. intros. apply IH; lia.
    + split; [done|]. split; [lia|]. split; [done|]. split; [lia|]. intros c Hc. lia.
Qed.

Lemma all_ones_bits c : 0 <= c < 64 -> Z.testbit all_ones c = true.
Proof. intros Hc. change all_ones with (Z.ones 64). by apply Z.ones_spec_low. Qed.

(** The clear bits before the place found, or before the end, lie beyond the
    last block. *)
Lemma scan_words_spec ws : forall i base nr,
  match scan_words ws i base nr with
  | Found j bit => (i <= j < i + length ws)%nat /\ 0 <= bit < 64 /\ Z.testbit (ws !!! (j - i)%nat) bit = false /\
      base + 64 * Z.of_nat j + bit < nr /\
      forall j' c, (i <= j' <= j)%nat -> 0 <= c < 64 -> 64 * Z.of_nat j' + c < 64 * Z.of_nat j + bit ->
        Z.testbit (ws !!! (j' - i)%nat) c = true
  | NoSpace => forall j' c, (i <= j' < i + length ws)%nat -> 0 <= c < 64 -> base + 64 * Z.of_nat j' + c < nr ->
      Z.testbit (ws !!! (j' - i)%nat) c = true
  end.
Proof.
  induction ws as [|w ws IH]; intros i base nr; cbn [scan_words length].
  - intros j' c Hj. lia.
  - destruct (Z.leb_spec nr (base + 64 * Z.of_nat i)) as [Hnr|Hnr]; [intros j' c Hj Hc Hlt; lia|].
    assert (Hlift : (forall c, 0 <= c < 64 -> Z.testbit w c = true) ->
      match scan_words ws (S i) base nr with
      | Found j bit => (i <= j < i + S (length ws))%nat /\ 0 <= bit < 64 /\ Z.testbit ((w :: ws) !!! (j - i)%nat) bit = false /\
          base + 64 * Z.of_nat j + bit < nr /\
          forall j' c, (i <= j' <= j)%nat -> 0 <= c < 64 -> 64 * Z.of_nat j' + c < 64 * Z.of_nat j + bit ->
            Z.testbit ((w :: ws) !!! (j' - i)%nat) c = true
      | NoSpace => forall j' c, (i <= j' < i + S (length ws))%nat -> 0 <= c < 64 -> base + 64 * Z.of_nat j' + c < nr ->
          Z.testbit ((w :: ws) !!! (j' - i)%nat) c = true
      end).
    { intros Hw. specialize (IH (S i) base nr).
      assert (Hcons : forall j, (S i <= j)%nat -> (w :: ws) !!! (j - i)%nat = ws !!! (j - S i)%nat).
      { intros j Hj. replace (j - i)%nat with (S (j - S i)) by lia. done. }
      assert (H0 : forall j', j' = i -> (w :: ws) !!! (j' - i)%nat = w) by (intros j' ->; by rewrite Nat.sub_diag).
      destruct (scan_words ws (S i) base nr) as [j bit|].
      - destruct IH as (Hj & Hb & Ht & Hlt & Hall). split; [lia|]. split; [done|]. rewrite Hcons by lia. split; [done|].
        split; [done|]. intros j' c Hj' Hc Hlt'. destruct (decide (j' = i)) as [E|E].
        + rewrite H0 by done. by apply Hw.
        + rewrite Hcons by lia. apply Hall; lia.
      - intros j' c Hj' Hc Hlt'. destruct (decide (j' = i)) as [E|E].
        + rewrite H0 by done. by apply Hw.
        + rewrite Hcons by lia. apply IH; lia. }
    destruct (Z.eqb_spec w all_ones) as [->|Hw]; [apply Hlift, all_ones_bits|].
    pose proof (scan_bits_spec 64 0 w (base + 64 * Z.of_nat i) nr i ltac:(lia) ltac:(lia)) as Hs.
    destruct (scan_bits 64 0 w (base + 64 * Z.of_nat i) nr i) as [[j bit|]|]; [| |by apply Hlift].
    + destruct Hs as (-> & Hb & Ht & Hlt & Hall). rewrite Nat.sub_diag. split; [lia|]. split; [lia|]. split; [done|]. split; [done|].
      intros j' c Hj' Hc Hlt'. assert (j' = i) as -> by lia. rewrite Nat.sub_diag. apply Hall. lia.
    + destruct Hs as [Hnr' Hs]. intros j' c Hj' Hc Hlt'. assert (j' = i) as -> by lia. rewrite Nat.sub_diag. apply Hs; lia.
Qed.

(** ** Allocation *)

(** All blocks from the start of cluster [k] up to [e] are in use. *)
Definition full_to (b : nkfs_sb) (k : nat) (e : Z) : Prop :=
  forall x, 8 * Z.of_nat k * bsize b <= x < e -> x < nr_blocks b -> x ∈ used b.

Lemma cluster_base b k i bit : balloc_ok b -> 8 * Z.of_nat k * bsize b + 64 * Z.of_nat i + bit = place b k i bit.
Proof. intros O. destruct (ok_wpc _ O) as [-> _]. unfold place. lia. Qed.

(** The blocks of a cluster, word by word. *)
Lemma full_words b k ws e : balloc_ok b -> bm b !! k = Some ws -> e <= 8 * Z.of_nat (S k) * bsize b ->
  (forall j c, (j < length ws)%nat -> 0 <= c < 64 -> place b k j c < e -> place b k j c < nr_blocks b ->
     Z.testbit (ws !!! j) c = true) -> full_to b k e.
Proof.
  intros O Ek He Hall x Hx Hn. destruct (ok_wpc _ O) as [Eb Hw]. pose proof (ok_words _ O k ws Ek) as [L _].
  pose proof (place_of b x ltac:(nia) Hw) as Hp. set (q := Z.to_nat (x / 64)) in *.
  pose proof (Nat.div_mod_eq q (wpc b)) as Hq. pose proof (Nat.mod_upper_bound q (wpc b) ltac:(lia)) as Hm.
  assert (Hm64 : 0 <= x mod 64 < 64) by dlia.
  assert (Hk : (q / wpc b = k)%nat).
  { unfold place in Hp. rewrite Eb in Hx, He. nia. }
  rewrite Hk in Hp. apply elem_of_used. split; [nia|]. rewrite Hp, bit_at_place by done.
  rewrite (list_lookup_total_correct _ _ _ Ek). apply Hall; [lia|done|lia|lia].
Qed.

Lemma find_set_free_bit_spec b k : balloc_ok b -> Z.of_nat k < bm_blocks b ->
  exists err loc b', nkfs_balloc_block_find_set_free_bit b k = Ret (err, loc, b') /\ balloc_ok b' /\ same b b' /\
  ((exists i bit, let x := place b k i bit in loc = Some (i, bit) /\ (i < wpc b)%nat /\ 0 <= bit < 64 /\
      x < nr_blocks b /\ x ∉ used b /\ used b' = {[x]} ∪ used b /\ full_to b k x) \/
   (loc = None /\ used b' = used b /\ full_to b k (8 * Z.of_nat (S k) * bsize b)) \/
   (loc = None /\ used b ⊆ used b' /\ exists t, sfail b t = true)).
Proof.
  intros O Hk. destruct (ok_wpc _ O) as [Eb Hw]. unfold nkfs_balloc_block_find_set_free_bit.
  assert (Hpg : Z.land (bsize b) (PAGE_SIZE - 1) =? 0 = true).
  { change (PAGE_SIZE - 1) with (Z.ones 12). rewrite Z.land_ones by lia. pose proof (ok_page _ O) as Hp. unfold PAGE_SIZE in Hp.
    change (2 ^ 12) with 4096. lia. }
  rewrite Hpg. cbn [negb bug_on]. pose proof (ok_bm _ O) as Lb.
  destruct (lookup_lt_is_Some_2 (bm b) k ltac:(lia)) as [ws Ek]. rewrite Ek. destruct (ok_words _ O k ws Ek) as [L F].
  assert (Ew : bm b !!! k = ws) by (by apply list_lookup_total_correct).
  pose proof (scan_words_spec ws 0 (8 * Z.of_nat k * bsize b) (nr_blocks b)) as Hs.
  change (bsize (read_lock k b)) with (bsize b). change (nr_blocks (read_lock k b)) with (nr_blocks b).
  destruct (scan_words ws 0 (8 * Z.of_nat k * bsize b) (nr_blocks b)) as [i bit|].
  - destruct Hs as (Hi & Hb & Ht & Hlt & Hall). rewrite Nat.sub_0_r in Ht. rewrite cluster_base in Hlt by done.
    assert (Hi' : (i < wpc b)%nat) by lia.
    pose proof (flip_ok b k i true bit O ltac:(lia) Hi' Hb Hlt ltac:(by rewrite Ew)) as O1.
    pose proof (used_flip b k i true bit O ltac:(lia) Hi' Hb Hlt) as Hu1.
    cbn [flip] in O1, Hu1. rewrite Ew in O1, Hu1.
    set (b1 := set_used (used_blocks b + 1) (put_word k i (Z.setbit (ws !!! i) bit) b)) in *.
    unfold dio_clu_sync. cbn [sfail stick set_used put_word set_bm read_lock set_readers used_blocks].
    match goal with |- context [set_stick ?t ?c] => set (b2 := set_stick t c) end.
    destruct (balloc_ok_cong b1 b2 ltac:(done) ltac:(done) ltac:(done) O1) as [O2 Hu2].
    assert (Hu : used b2 = {[place b k i bit]} ∪ used b) by (rewrite Hu2; exact Hu1).
    assert (Hsame : same b b2) by done.
    destruct (sfail b (stick b)) eqn:Ef; cbn [Z.eqb negb EIO Z.opp].
    + exists (- 5), None, b2. split; [done|]. split; [done|]. split; [done|]. right. right. split; [done|].
      split; [rewrite Hu; set_solver|by exists (stick b)].
    + exists 0, (Some (i, bit)), b2. split; [done|]. split; [done|]. split; [done|]. left. exists i, bit. cbn zeta.
      split; [done|]. split; [done|]. split; [done|]. split; [done|]. split; [|split; [done|]].
      * rewrite elem_of_used, bit_at_place, Ew, Ht by done. naive_solver.
      * eapply full_words; [done|exact Ek|unfold place in *; nia|].
        intros j c Hj Hc Hpl _. rewrite <- (Nat.sub_0_r j). unfold place in Hpl. apply Hall; [nia|done|nia].
  - eexists _, _, _. split; [done|]. destruct (balloc_ok_cong b (read_unlock k (read_lock k b)) ltac:(done) ltac:(done) ltac:(done) O) as [O1 Hu1].
    split; [done|]. split; [done|]. right. left. split; [done|]. split; [done|].
    eapply full_words; [done|exact Ek|lia|]. intros j c Hj Hc _ Hn. rewrite <- (Nat.sub_0_r j).
    apply Hs; [lia|done|]. by rewrite cluster_base.
Qed.

Lemma full_to_cong b b' k e : same b b' -> used b' = used b -> full_to b' k e -> full_to b k e.
Proof. intros (E1 & _ & _ & E2 & _) Eu Hf x Hx Hn. rewrite <- Eu. apply Hf; rewrite ?E1, ?E2; done. Qed.

Lemma full_to_join b k e : full_to b k (8 * Z.of_nat (S k) * bsize b) -> full_to b (S k) e -> full_to b k e.
Proof. intros H1 H2 x Hx Hn. destruct (Z.lt_ge_cases x (8 * Z.of_nat (S k) * bsize b)); [apply H1|apply H2]; lia. Qed.

Definition no_fail (b : nkfs_sb) : Prop := (forall t, gfail b t = false) /\ (forall t, sfail b t = false).

Lemma block_alloc_loop_spec n : forall k b, balloc_ok b -> Z.of_nat k + Z.of_nat n = bm_blocks b ->
  exists err x b', block_alloc_loop k n b = Ret (err, x, b') /\ balloc_ok b' /\ same b b' /\ used b ⊆ used b' /\
  ((err = 0 /\ 0 <= x < nr_blocks b /\ x ∉ used b /\ x ∈ used b' /\
     (no_fail b -> used b' = {[x]} ∪ used b /\ full_to b k x)) \/
   (err < 0 /\ x = 0 /\ (no_fail b -> err = - ENOSPC /\ used b' = used b /\ full_to b k (nr_blocks b)))).
Proof.
  induction n as [|n IH]; intros k b O Hk; cbn [block_alloc_loop].
  - exists (- ENOSPC), 0, b. split; [done|]. split; [done|]. split; [done|]. split; [done|]. right. split; [done|].
    split; [done|]. intros _. split; [done|]. split; [done|]. intros y Hy Hn. pose proof (ok_nr _ O). nia.
  - cbn [dio_clu_get]. set (b1 := set_gtick (S (gtick b)) b).
    destruct (balloc_ok_cong b b1 ltac:(done) ltac:(done) ltac:(done) O) as [O1 Hu1].
    destruct (gfail b (gtick b)) eqn:Eg; cbn [negb].
    + exists (- EIO), 0, b1. split; [done|]. split; [done|]. split; [done|]. split; [by rewrite Hu1|]. right.
      split; [done|]. split; [done|]. intros [Hg _]. by rewrite Hg in Eg.
    + destruct (find_set_free_bit_spec b1 k O1 ltac:(cbn; lia)) as (err & loc & b2 & Ef & O2 & S2 & Hcase). rewrite Ef. cbn [obind].
      assert (S02 : same b b2) by (by eapply same_trans; [|exact S2]).
      assert (E4 : bsize b2 = bsize b) by apply S02.
      destruct Hcase as [(i & bit & -> & Hi & Hb & Hlt & Hnu & Hu & Hfull)|[(-> & Hu & Hfull)|(-> & Hu & [t Ht])]].
      * rewrite Hu1 in Hnu, Hu. exists 0, (place b k i bit), b2. split.
        { by rewrite E4, cluster_base. }
        split; [done|]. split; [done|]. change (place b1 k i bit) with (place b k i bit) in *. split; [rewrite Hu; set_solver|].
        left. split; [done|]. split; [unfold place in *; cbn in Hlt; lia|]. split; [done|]. split; [rewrite Hu; set_solver|].
        intros _. split; [done|]. by eapply (full_to_cong b b1).
      * destruct (IH (S k) b2 O2) as (e & x & b3 & E3 & O3 & S3 & U3 & Hc).
        { destruct S02 as (_ & _ & -> & _). lia. }
        exists e, x, b3. rewrite E3. split; [done|]. split; [done|]. split; [by eapply same_trans|].
        rewrite Hu, Hu1 in U3. split; [done|]. assert (Hnr : nr_blocks b2 = nr_blocks b) by apply S02.
        assert (Hnf : no_fail b -> no_fail b2) by (destruct S02 as (_ & _ & _ & _ & G1 & G2); unfold no_fail; by rewrite G1, G2).
        rewrite Hnr, Hu, Hu1 in Hc. assert (Hf' : full_to b k (8 * Z.of_nat (S k) * bsize b)) by (by eapply (full_to_cong b b1)).
        assert (Hj : forall e, full_to b2 (S k) e -> full_to b k e).
        { intros e' He'. apply full_to_join; [done|]. eapply (full_to_cong b b2); [done|congruence|done]. }
        destruct Hc as [(-> & Hx & Hxu & Hxu' & Hc)|(He & -> & Hc)].
        -- left. split; [done|]. split; [done|]. split; [done|]. split; [done|]. intros Hn. destruct (Hc (Hnf Hn)). auto.
        -- right. split; [done|]. split; [done|]. intros Hn. destruct (Hc (Hnf Hn)) as (-> & ? & ?). auto.
      * destruct (IH (S k) b2 O2) as (e & x & b3 & E3 & O3 & S3 & U3 & Hc).
        { destruct S02 as (_ & _ & -> & _). lia. }
        exists e, x, b3. rewrite E3. split; [done|]. split; [done|]. split; [by eapply same_trans|].
        rewrite Hu1 in Hu. split; [by etrans|]. assert (Hnr : nr_blocks b2 = nr_blocks b) by apply S02.
        assert (Hnf : ~ no_fail b) by (intros [_ Hn]; cbn in Ht; congruence).
        rewrite Hnr in Hc. destruct Hc as [(-> & Hx & Hxu & Hxu' & _)|(He & -> & _)].
        -- left. split; [done|]. split; [done|]. split; [set_solver|]. done.
        -- right. done.
Qed.

(** ** Marking *)

Lemma bm_bit_spec b x : balloc_ok b -> 0 <= x < nr_blocks b ->
  exists k i bit, nkfs_balloc_block_bm_bit b x = Some (bm_block b + Z.of_nat k, 8 * Z.of_nat i, bit) /\
  (k < length (bm b))%nat /\ (i < wpc b)%nat /\ 0 <= bit < 64 /\ x = place b k i bit.
Proof.
  intros O Hx. destruct (ok_wpc _ O) as [Eb Hw]. unfold nkfs_balloc_block_bm_bit.
  rewrite (proj2 (Z.leb_gt _ _)) by lia. set (q := Z.to_nat (x / 64)).
  assert (Hq : x / 64 = Z.of_nat q) by (unfold q; rewrite Z2Nat.id; dlia).
  exists (q / wpc b)%nat, (q mod wpc b)%nat, (x mod 64). rewrite Hq, Eb.
  rewrite (Z.mul_comm (Z.of_nat q)), Z.div_mul_cancel_l, Z.mul_mod_distr_l by lia. rewrite <- Nat2Z.inj_div, <- Nat2Z.inj_mod.
  split; [done|]. pose proof (Nat.mod_upper_bound q (wpc b) ltac:(lia)). pose proof (Nat.div_mod_eq q (wpc b)).
  split; [|split; [done|split; [dlia|by apply place_of; [lia|]]]].
  pose proof (ok_nr _ O) as [[_ Hn] _]. pose proof (ok_bm _ O) as Lb. rewrite Eb, <- Lb in Hn.
  assert (64 * Z.of_nat q <= x) by dlia. nia.
Qed.

Lemma mark_spec b x use : balloc_ok b -> 0 <= x < nr_blocks b -> (x ∈ used b <-> use = false) ->
  exists err b', nkfs_balloc_block_mark b x use = Ret (err, b') /\ balloc_ok b' /\ same b b' /\ rw_lock b' = rw_lock b - 1 /\
  ((err = - EIO /\ used b' = used b /\ exists t, gfail b t = true) \/
   ((err = 0 \/ err = - EIO /\ exists t, sfail b t = true) /\ used b' = if use then {[x]} ∪ used b else used b ∖ {[x]})).
Proof.
  intros O Hx Hin. destruct (bm_bit_spec b x O Hx) as (k & i & bit & Ebit & Hk & Hi & Hb & ->).
  unfold nkfs_balloc_block_mark. rewrite Ebit. cbn [dio_clu_get].
  destruct (gfail b (gtick b)) eqn:Eg; cbn [negb].
  - eexists _, _. split; [done|]. destruct (balloc_ok_cong b (set_lock (rw_lock b - 1) (set_gtick (S (gtick b)) b)) ltac:(done) ltac:(done) ltac:(done) O).
    split; [done|]. split; [done|]. split; [done|]. left. split; [done|]. split; [done|]. by exists (gtick b).
  - cbn [bm_block set_gtick]. replace (bm_block b + Z.of_nat k - bm_block b) with (Z.of_nat k) by lia.
    rewrite (Z.mul_comm 8), Z.div_mul, !Nat2Z.id by done. unfold with_word.
    cbn [bm read_lock set_readers set_gtick]. destruct (lookup_lt_is_Some_2 _ _ Hk) as [ws Ek]. rewrite Ek.
    destruct (ok_words _ O k ws Ek) as [L _]. destruct (lookup_lt_is_Some_2 ws i ltac:(lia)) as [w Ew]. rewrite Ew.
    assert (Hw : bm b !!! k !!! i = w) by (rewrite (list_lookup_total_correct _ _ _ Ek); by apply list_lookup_total_correct).
    assert (Ht : Z.testbit w bit = negb use).
    { rewrite elem_of_used, bit_at_place, Hw in Hin by done. destruct use, (Z.testbit w bit); naive_solver. }
    rewrite Ht. replace (Bool.eqb (negb use) use) with false by (by destruct use). cbn [bug_on].
    pose proof (flip_ok b k i use bit O Hk Hi Hb ltac:(lia) ltac:(by rewrite Hw)) as O1.
    pose proof (used_flip b k i use bit O Hk Hi Hb ltac:(lia)) as Hu1. rewrite Hw in O1, Hu1. fold (flip use w bit).
    cbn [dio_clu_sync]. eexists _, _. split; [done|].
    match goal with |- balloc_ok ?c /\ _ => destruct (balloc_ok_cong (set_used (if use then used_blocks b + 1 else used_blocks b - 1) (put_word k i (flip use w bit) b)) c ltac:(done) ltac:(done) ltac:(by destruct use) O1) as [O2 Hu2] end.
    split; [done|]. split; [done|]. split; [done|]. right. split.
    + cbn [sfail stick read_unlock set_readers set_used put_word set_bm read_lock set_gtick].
      destruct (sfail b (stick b)) eqn:Es; [right; split; [done|by exists (stick b)]|by left].
    + rewrite Hu2. exact Hu1.
Qed.

(** ** The theorems *)

(** (C31) Whatever cluster reads and syncs fail, allocation and freeing keep the
    invariant (in particular [used_blocks] counts the set bits), never take a
    block out of use that was not freed, and an allocated block was free and lies
    inside the device. *)
Theorem nkfs_balloc_safe b x :
  balloc_ok b -> x ∈ used b ->
  (exists err y b', nkfs_balloc_block_alloc b = Ret (err, y, b') /\ balloc_ok b' /\ used b ⊆ used b' /\
     (err = 0 -> 0 <= y < nr_blocks b /\ y ∉ used b /\ y ∈ used b')) /\
  (exists err b', nkfs_balloc_block_free b x = Ret (err, b') /\ balloc_ok b' /\
     (err = 0 -> used b' = used b ∖ {[x]}) /\ used b ∖ {[x]} ⊆ used b' /\ used b' ⊆ used b).
Proof.
  intros O Hx. split.
  - destruct (block_alloc_loop_spec (Z.to_nat (bm_blocks b)) 0 b O) as (err & y & b' & E & O' & _ & U & Hc).
    { pose proof (ok_bm _ O). lia. }
    exists err, y, b'. split; [done|]. split; [done|]. split; [done|]. intros ->. destruct Hc as [(_ & ? & ? & ? & _)|(? & _)]; [done|lia].
  - pose proof Hx as [Hr _]%elem_of_used. destruct (mark_spec b x false O Hr ltac:(done)) as (err & b' & E & O' & _ & _ & Hc).
    exists err, b'. split; [done|]. split; [done|].
    destruct Hc as [(-> & Hu & _)|(_ & Hu)]; rewrite Hu; (split; [done|]); set_solver.
Qed.

(** When nothing fails, allocation takes the lowest free block and marks
    that one only, and reports [-ENOSPC] exactly when every block is in use. *)
Theorem nkfs_balloc_block_alloc_first_fit b :
  balloc_ok b -> no_fail b ->
  exists err y b', nkfs_balloc_block_alloc b = Ret (err, y, b') /\
  ((err = 0 /\ 0 <= y < nr_blocks b /\ y ∉ used b /\ (forall z, 0 <= z < y -> z ∈ used b) /\
    used b' = {[y]} ∪ used b /\ used_blocks b' = used_blocks b + 1) \/
   (err = - ENOSPC /\ (forall z, 0 <= z < nr_blocks b -> z ∈ used b) /\ used b' = used b /\ used_blocks b' = used_blocks b)).
Proof.
  intros O Hnf. destruct (block_alloc_loop_spec (Z.to_nat (bm_blocks b)) 0 b O) as (err & y & b' & E & O' & _ & U & Hc).
  { pose proof (ok_bm _ O). lia. }
  exists err, y, b'. split; [done|]. rewrite (ok_used _ O), (ok_used _ O').
  destruct Hc as [(-> & Hy & Hyu & _ & Hc)|(_ & _ & Hc)]; destruct (Hc Hnf) as [Hu Hf].
  - left. split; [done|]. split; [done|]. split; [done|]. split; [|split; [done|]].
    + intros z Hz. apply Hf; lia.
    + rewrite Hu, size_union by set_solver. rewrite size_singleton. lia.
  - destruct Hf as [Hu' Hf]. right. split; [done|]. split; [|split; [done|by rewrite Hu']]. intros z Hz. apply Hf; lia.
Qed.

(** The locking does not balance: after a successful allocation the bitmap
    cluster stays read locked, and marking a block releases the writer of
    [sb->rw_lock] that it never took. *)
Theorem nkfs_balloc_locks_unbalanced b x :
  balloc_ok b -> no_fail b -> length (readers b) = length (bm b) -> x ∈ used b ->
  (forall y b', nkfs_balloc_block_alloc b = Ret (0, y, b') ->
     exists k, readers b' !!! k = readers b !!! k + 1) /\
  (exists b', nkfs_balloc_block_free b x = Ret (0, b') /\ rw_lock b' = rw_lock b - 1).
Proof.
  intros O Hnf Lr Hx. pose proof Hx as [Hr _]%elem_of_used. split.
  - intros y b'. unfold nkfs_balloc_block_alloc.
    enough (Hg : forall n k b0, balloc_ok b0 -> no_fail b0 -> length (readers b0) = length (bm b0) ->
      Z.of_nat k + Z.of_nat n = bm_blocks b0 -> forall b', block_alloc_loop k n b0 = Ret (0, y, b') ->
      exists k, readers b' !!! k = readers b0 !!! k + 1).
    { apply Hg; try done. pose proof (ok_bm _ O). lia. }
    intros n. induction n as [|n IH]; intros k b0 O0 Hn0 L0 Hk b1; cbn [block_alloc_loop]; [done|].
    cbn [dio_clu_get]. rewrite (proj1 Hn0). cbn [negb]. set (b2 := set_gtick (S (gtick b0)) b0).
    destruct (balloc_ok_cong b0 b2 ltac:(done) ltac:(done) ltac:(done) O0) as [O2 _].
    destruct (find_set_free_bit_spec b2 k O2 ltac:(cbn; lia)) as (err & loc & b3 & Ef & O3 & S3 & _).
    assert (Hrd : match loc with Some _ => readers b3 !!! k = readers b0 !!! k + 1 | None => readers b3 = readers b0 end /\
      length (readers b3) = length (bm b3)).
    { pose proof (ok_bm _ O0) as Lb. assert (Hk' : (k < length (readers b0))%nat) by lia. revert Ef.
      unfold nkfs_balloc_block_find_set_free_bit, bug_on. case_match; [done|]. change (bm b2) with (bm b0).
      destruct (bm b0 !! k) eqn:Ek; [|done]. case_match.
      - cbn [dio_clu_sync sfail stick set_used put_word set_bm read_lock set_readers b2 set_gtick]. rewrite (proj2 Hn0). cbn [Z.eqb negb].
        intros [= <- <- <-]. cbn. rewrite list_lookup_total_insert_eq by done. by rewrite !length_insert.
      - intros [= <- <- <-]. cbn. rewrite list_lookup_total_insert_eq by done. rewrite list_insert_insert_eq, !length_insert.
        split; [|done]. rewrite Z.add_simpl_r. apply list_insert_id. by apply list_lookup_lookup_total_lt. }
    rewrite Ef. cbn [obind]. destruct Hrd as [Hrd L3]. destruct loc as [[i bit]|].
    + intros [= <- <-]. by exists k.
    + intros E. destruct (IH (S k) b3 O3) with (b' := b1) as [k' Hk']; try done.
      * destruct S3 as (_ & _ & _ & _ & G1 & G2). unfold no_fail. by rewrite G1, G2.
      * destruct S3 as (_ & _ & -> & _). cbn. lia.
      * exists k'. by rewrite <- Hrd.
  - destruct (mark_spec b x false O Hr ltac:(done)) as (err & b' & E & _ & _ & Hl & Hc). exists b'.
    destruct Hc as [(_ & _ & t & Ht)|([->|(_ & t & Ht)] & _)]; [by rewrite (proj1 Hnf) in Ht|done|by rewrite (proj2 Hnf) in Ht].
Qed.

(** ** The allocator the B-tree asks for *)

#[global] Program Instance balloc_alloc : BlockAlloc nkfs_sb := {
  ba_alloc b := obind (nkfs_balloc_block_alloc b) (fun r =>
    let '(err, x, b') := r in Ret (if err =? 0 then Some x else None, b'));
  ba_free x b := nkfs_balloc_block_free b x;
  ba_used := used;
  ba_size := nr_blocks;
  ba_ok b := balloc_ok b /\ 0 ∈ used b
}.
Next Obligation.
  intros b [O H0]. destruct (block_alloc_loop_spec (Z.to_nat (bm_blocks b)) 0 b O) as (err & y & b' & E & O' & S' & U & Hc).
  { pose proof (ok_bm _ O). lia. }
  exists (if err =? 0 then Some y else None), b'. unfold nkfs_balloc_block_alloc. rewrite E. cbn [obind].
  split; [done|]. split; [split; [done|by apply U]|]. split; [done|]. split; [apply S'|].
  destruct Hc as [(-> & Hy & Hyu & Hyu' & _)|(He & _)].
  - cbn. split; [|done]. assert (y <> 0) by congruence. lia.
  - by rewrite (proj2 (Z.eqb_neq _ _)) by lia.
Qed.
Next Obligation.
  intros x b [O H0] Hx Hpos. pose proof Hx as [Hr _]%elem_of_used.
  destruct (mark_spec b x false O Hr ltac:(done)) as (err & b' & E & O' & S' & _ & Hc).
  exists err, b'. split; [done|]. assert (0 <> x) by lia.
  destruct Hc as [(_ & Hu & _)|(_ & Hu)]; rewrite Hu; (split; [split; [done|set_solver]|]);
    (split; [set_solver|split; [set_solver|apply S']]).
Qed.

(** ** A small device *)

(** Ten blocks of a page, block 0 in use. *)
Definition demo : nkfs_sb :=
  Sb 10 1 1 4096 [1 :: replicate 511 0] 1 0 [0] (fun _ => false) 0 (fun _ => false) 0.

Lemma demo_used : used demo = {[0]}.
Proof. vm_compute. reflexivity. Qed.

Lemma demo_ok : balloc_ok demo.
Proof.
  split; [done|done|done| |done|].
  - intros [|[|k]] ws E; [|done..]. assert (ws = 1 :: replicate 511 0) as -> by (by injection E). split; [done|].
    constructor; [done|]. by apply Forall_replicate.
  - rewrite demo_used. done.
Qed.

Lemma nkfs_balloc_safe_witness :
  exists err y b', nkfs_balloc_block_alloc demo = Ret (err, y, b') /\ balloc_ok b'.
Proof.
  destruct (nkfs_balloc_safe demo 0 demo_ok) as [(err & y & b' & E & O & _) _]; [by rewrite demo_used; apply elem_of_singleton|].
  by exists err, y, b'.
Defined.

Lemma nkfs_balloc_block_alloc_first_fit_witness :
  exists err y b', nkfs_balloc_block_alloc demo = Ret (err, y, b') /\ (err = 0 -> y = 1).
Proof.
  destruct (nkfs_balloc_block_alloc_first_fit demo demo_ok) as (err & y & b' & E & H); [split; done|].
  exists err, y, b'. split; [exact E|]. intros ->. destruct H as [(_ & Hy & Hf & Hl & _)|(E0 & _)]; [|done].
  rewrite demo_used in Hf, Hl. assert (y <> 0) by (intros ->; apply Hf; by apply elem_of_singleton).
  destruct (decide (y = 1)) as [|Hne]; [done|]. specialize (Hl 1 ltac:(lia)). by apply elem_of_singleton in Hl.
Defined.

Lemma nkfs_balloc_locks_unbalanced_witness :
  exists b', nkfs_balloc_block_free demo 0 = Ret (0, b') /\ rw_lock b' = -1.
Proof.
  destruct (nkfs_balloc_locks_unbalanced demo 0 demo_ok) as [_ H]; [split; done|done| |exact H].
  rewrite demo_used. by apply elem_of_singleton.
Defined.

End Balloc.
