(* ===== verification/BtreeStore.v ===== *)
(** * The B-tree and the allocator as a store of trees

    The trees of a device share its allocator and its disk.  A tree's operation
    runs on the tree's own objects with the shared parts put in; what it leaves
    there is the store of the next operation.  This is the interface [BlockTree]
    of inodes and superblocks; its laws hold of trees of one node, whose root
    stays in memory, so that no read of the disk is involved. *)

From Stdlib Require Import ZArith Lia.
From coqutil Require Import Byte.
From stdpp Require Import base list gmap.
From S2P Require Import Prelude StMonad BtreeNode BtreeNodeSpec BlockTree Btree BtreeRep BtreeMem BtreeInsert BtreeGrow BtreeSpec.
From S2P Require Import XXHash BtreeDisk Balloc.
Import StMonad BtreeNode BtreeNodeSpec Btree BtreeRep BtreeMem BtreeInsert BtreeGrow BtreeSpec.
Local Open Scope Z_scope.

Module BtreeStore.

Section Flat.
Context {B : Type} `{BlockAlloc B}.
Context (G : geom) (GO : geom_ok G).

Local Abbreviation state := (@Btree.state B).

(** At rest, memory and disk agree. *)
Lemma vis_disk (s : state) x : coh s [] ∅ ∅ -> vis s x = disk s !! x.
Proof.
  intros C. unfold vis. destruct (nodes s !! x) as [q|] eqn:E; [|done].
  destruct (coh_obj _ _ _ _ C x q E) as (n & r & Eo & <- & HP). rewrite Eo. cbn. symmetry.
  apply (coh_clean _ _ _ _ C q n r); [done..|]. apply not_elem_of_empty.
Qed.

(** At rest, only the root is in memory. *)
Lemma rest_single (s : state) b p : coh s [] ∅ ∅ -> nodes s !! b = Some (root s) -> forall x, nodes s !! x = Some p -> x = b.
Proof.
  intros C I x Hx. destruct (coh_obj _ _ _ _ C x p Hx) as (n & r & Eo & <- & _).
  assert (Hp : p ∈ [root s]) by (apply (coh_used_refs _ _ _ _ C); [by rewrite Eo|done]).
  apply list_elem_of_singleton in Hp as ->. destruct (coh_obj _ _ _ _ C b _ I) as (n' & r' & Eo' & <- & _). congruence.
Qed.

Lemma flat_length (s : state) b l : tree G s 0 b l {[b]} -> exists n, vis s b = Some n /\ l = entries n /\ length l = nr_keys n /\ node_ok G n /\ leaf n = true.
Proof.
  intros [_ _ (n & V & N & _ & _ & L & -> & _) _ _]. exists n. split; [done|]. split; [done|]. split; [by apply (entries_length G GO)|done].
Qed.

(** A leaf that never had a child and never lost a key: its unused key slots and
    its child slots are as [nkfs_btree_node_alloc] left them. *)
Record clean (n : node) : Prop := {
  cl_keys : drop (nr_keys n) (keys n) = replicate (g_keys G - nr_keys n) zero_key;
  cl_children : Forall (fun c => c = 0) (cflat n);
  cl_values : Forall (fun v => 0 <= v < 2 ^ 64) (values n)
}.

Lemma clean_empty b : clean (set_leaf true (empty_node G b)).
Proof.
  split; cbn.
  - by rewrite Nat.sub_0_r.
  - apply Forall_concat, Forall_map, Forall_replicate. by apply Forall_replicate.
  - by apply Forall_replicate.
Qed.

Lemma put_clean n i k v n' : clean n -> node_ok G n -> (i <= nr_keys n < 2 * g_t G - 1)%nat -> 0 <= v < 2 ^ 64 ->
  nkfs_btree_node_put_key_value G n i k v = Ret n' -> clean (set_nr_keys (nr_keys n + 1) n').
Proof.
  intros [K C V] N Hi Hv E. pose proof (node_pages _ _ N) as P. destruct (put_key_value_upd G GO n i k v P Hi) as (n2 & E2 & U).
  rewrite E in E2. injection E2 as <-. pose proof (pages_keys _ _ P) as Lk. pose proof (geom_keys _ GO).
  split; cbn [set_nr_keys nr_keys keys values children].
  - rewrite (upd_keys _ _ _ _ _ _ U), list_shift_rest by lia.
    replace (nr_keys n + 1)%nat with (1 + nr_keys n)%nat by lia. rewrite Nat.add_comm, <- drop_drop, K, drop_replicate. f_equal. lia.
  - change (cflat (set_nr_keys (nr_keys n + 1) n')) with (cflat n'). by rewrite (upd_children _ _ _ _ _ _ U).
  - rewrite (upd_values _ _ _ _ _ _ U). by apply list_shift_forall.
Qed.

(** A new key in a root that is a leaf and not full: nothing is allocated. *)
Lemma flat_insert fuel k v (s : state) b l :
  tree G s 0 b l {[b]} -> releasing s = false -> writes_ok s -> key_ok k -> ~ has_entry k l -> (length l < 2 * g_t G - 1)%nat ->
  0 <= v < 2 ^ 64 -> (forall n, vis s b = Some n -> clean n) ->
  spec (nkfs_btree_insert_key G (Datatypes.S fuel) k v false) s (fun rc s' =>
    rc = 0 /\ (forall n, vis s' b = Some n -> clean n) /\ tree G s' 0 b (kv_ins k v l) {[b]} /\ env_same s s' /\ bal s' = bal s /\ forall x, x <> b -> vis s' x = vis s x).
Proof.
  intros T Hrel Wo Hk Hno Hl Hv Hc. destruct (flat_length s b l T) as (n & V & El & Ln & _). pose proof T as [C I Hbt Hs Hu].
  assert (A : at_node G s [] 0 0 (root s) b l {[b]} n).
  { split; try done; [unfold hold; by rewrite Nat.eqb_refl|]. exists b. split; [done|by left]. }
  destruct (at_node_ok G GO _ _ _ _ _ _ _ _ _ A) as (N & Bn & Sn & Hb & Lf).
  unfold nkfs_btree_insert_key. apply spec_bind, spec_gets. rewrite Hrel. apply spec_bind, spec_gets.
  apply spec_bind. eapply spec_node_get; [exact C|exact I|]. intros n0 V0 _. rewrite V in V0. injection V0 as <-.
  unfold nkfs_btree_node_is_full. rewrite (proj2 (Nat.eqb_neq (2 * g_t G - 1) (nr_keys n))) by lia. apply spec_bind, spec_ret.
  cbn [nkfs_btree_node_insert_nonfull]. apply spec_bind. eapply spec_node_get; [exact C|exact I|]. intros n0 V0 _. rewrite V in V0. injection V0 as <-.
  apply spec_bind. destruct (at_search G GO k Hk _ _ _ _ _ _ _ _ _ A) as [(i & Ei & Hi & Hki)|(Ei & i & Ef & Hi & Hlo & Hhi)].
  { destruct Hno. exists (k, values n !!! i). split; [|done]. rewrite <- Hki. by eapply (bt_has_entry G GO). }
  eapply spec_lift; [exact Ei|]. rewrite Lf. cbn [Nat.eqb]. apply spec_bind. eapply spec_lift; [exact Ef|].
  destruct (put_key_value_ok G GO n i k v N ltac:(lia) Hk) as (n' & E' & N' & He & _ & Hlf & Hbl & Hnr).
  pose proof (put_clean n i k v n' (Hc n V) N ltac:(lia) Hv E') as Cl. rewrite <- Hnr in Cl.
  rewrite <- Hnr in N', He. apply spec_bind. eapply spec_lift; [exact E'|].
  pose proof (at_coh _ _ _ _ _ _ _ _ _ _ A) as C0. eapply (spec_store G); try done; [cbn; congruence|by apply Hu|].
  intros s' C' E1 U1 K1 V1 F1. split; [done|]. split; [intros m; rewrite V1; by intros [= <-]|].
  split; [|done]. split; [done| | |by apply kv_ins_sorted|].
  - rewrite (env_root _ _ E1). apply K1; [by left|done].
  - eapply (bt_leaf_insert G GO (vis s) (vis s')); try done. cbn. lia.
  - eapply (uses_env s); [done|by rewrite U1|done].
Qed.

(** The last reference: the root leaves memory, the disk stays. *)
Lemma flat_deref (s : state) b l : tree G s 0 b l {[b]} -> tref s = 1 ->
  spec (nkfs_btree_deref true) s (fun _ s' => disk s' = disk s /\ bal s' = bal s).
Proof.
  intros T Ht. pose proof T as [C I _ _ Hu]. destruct (Hu b ltac:(by apply elem_of_singleton)) as [_ Hr].
  destruct (coh_obj _ _ _ _ C b _ I) as (n & r & Eo & Bn & HP).
  assert (Er : r = 1%nat) by (rewrite (coh_refs _ _ _ _ C _ _ _ Eo HP); unfold refs; cbn; by destruct (Nat.eq_dec (root s) (root s))).
  assert (En : nodes s = {[b := root s]}).
  { apply map_eq. intros x. destruct (decide (x = b)) as [->|Hx]; [by rewrite lookup_singleton_eq|].
    rewrite lookup_singleton_ne by done. destruct (nodes s !! x) as [q|] eqn:E; [|done]. destruct Hx.
    destruct (coh_obj _ _ _ _ C x q E) as (nq & rq & Eq & _ & HPq).
    assert (Hq : q ∈ [root s]) by (apply (coh_used_refs _ _ _ _ C); [by rewrite Eq|done]).
    apply list_elem_of_singleton in Hq as ->. by apply (rest_single s b (root s) C I). }
  pose proof (coh_active _ _ _ _ C) as Ea. rewrite En, map_size_singleton in Ea. subst r.
  unfold nkfs_btree_deref, nkfs_btree_release, nkfs_btree_stop. apply spec_bind, spec_gets. rewrite Ht.
  apply spec_bind, spec_bug_on; [done|]. apply spec_bind, spec_modify. cbn [Z.sub Z.opp Z.add Z.pos_sub Z.eqb].
  apply spec_bind, spec_modify. apply spec_bind, spec_gets. apply spec_bind.
  unfold spec at 1, nkfs_btree_node_deref, nkfs_btree_node_release, nkfs_btree_nodes_remove, nkfs_btree_node_free, get, bind, gets, ret, BUG_ON, modify.
  cbn -[lookup insert delete]. rewrite Eo. cbn -[lookup insert delete]. rewrite lookup_insert_eq, Bn.
  rewrite (proj2 (Z.eqb_neq b 0)) by lia. cbn -[lookup insert delete]. rewrite I, Nat.eqb_refl. cbn -[lookup insert delete]. rewrite lookup_insert_eq.
  cbn -[lookup insert delete]. unfold spec, bind, gets, BUG_ON, ret. cbn -[lookup insert delete]. by rewrite Ea.
Qed.

(** The shared parts may change around a tree of one node. *)
Lemma tree_move (s : state) b l d bl : tree G s 0 b l {[b]} -> d !! b = disk s !! b ->
  (forall x n, d !! x = Some n -> block n = x) -> ba_ok bl -> b ∈ ba_used bl -> ba_size bl = ba_size (bal s) ->
  tree G (with_disk d (with_bal bl s)) 0 b l {[b]}.
Proof.
  intros [C I Hbt Hs Hu] Ed Hd Hok Hb Hsz. destruct (Hu b ltac:(by apply elem_of_singleton)) as [_ Hr].
  assert (C' : coh (with_disk d (with_bal bl s)) [] ∅ ∅).
  { pose proof (rest_single s b) as R. destruct C. split; cbn; try done.
    - intros p n r Eo HP HD. pose proof (coh_idx0 p n r Eo HP) as Ei. rewrite (R p ltac:(by split) I _ Ei), Ed.
      rewrite <- (coh_clean0 p n r Eo HP HD). f_equal. symmetry. by apply (R p ltac:(by split) I).
    - intros x p Hx. rewrite (R p ltac:(by split) I x Hx). split; [done|lia]. }
  split; [done|done| |done|].
  - apply (bt_ext G GO (vis s)); [|done]. intros x ->%elem_of_singleton. by rewrite !vis_disk.
  - intros x ->%elem_of_singleton. cbn. rewrite Hsz. done.
Qed.

End Flat.

(** ** The store of a device *)

(** The allocator, and the nodes on disk by block. *)
Record store := Store { alloc : Balloc.nkfs_sb; tdisk : gmap Z node }.

Local Abbreviation tree_obj := (@Btree.state Balloc.nkfs_sb).

Definition load (t : tree_obj) (st : store) : tree_obj := with_disk (tdisk st) (with_bal (alloc st) t).
Definition unload (s : tree_obj) : store := Store (bal s) (disk s).

(** A call on a tree; running out of fuel is not told from a crash. *)
Definition on_tree {A} (m : StMonad.M tree_obj A) (t : tree_obj) (st : store) : outcome (A * tree_obj * store) :=
  match m (load t st) with
  | Done a s => Ret (a, s, unload s)
  | _ => Bug
  end.

Section Ops.
Context (G : geom) (GO : geom_ok G) (reads_back : node -> bool).

(** More than the height of any tree on the disk. *)
Definition fuel (st : store) : nat := 2 * size (tdisk st) + 3.

Definition tree_create (b : Z) (st : store) : outcome (option tree_obj * store) :=
  match nkfs_btree_create G b (tree_zero (tdisk st) (alloc st) (fun _ => false) (fun _ => WOk) reads_back) with
  | Done ok s => Ret (if (ok : bool) then Some s else None, unload s)
  | _ => Bug
  end.

Definition tree_root_block (t : tree_obj) : outcome Z :=
  match nkfs_btree_root_block t with
  | Done b _ => Ret b
  | _ => Bug
  end.

(** The callback of both erasures of an inode frees the block. *)
Definition tree_erase (t : tree_obj) (st : store) : outcome (tree_obj * store) :=
  obind (on_tree (nkfs_btree_erase G (fuel st) (Some (fun _ v => bind (balloc_free v) (fun _ => ret tt)))) t st)
    (fun r => Ret (snd (fst r), snd r)).

Definition tree_deref (t : tree_obj) (st : store) : outcome store :=
  obind (on_tree (nkfs_btree_deref true) t st) (fun r => Ret (snd r)).

Definition store_ok (st : store) : Prop :=
  ba_ok (alloc st) /\ forall x n, tdisk st !! x = Some n -> block n = x.

Definition tree_rep (t : tree_obj) (st : store) (b : Z) (m : gmap Z Z) : Prop :=
  exists l, m = to_map l /\ tree G (load t st) 0 b l {[b]} /\ releasing t = false /\ writes_ok t /\ tref t = 1 /\
  forall n, tdisk st !! b = Some n -> clean G n.

Lemma to_map_size l : sorted l -> size (to_map l) = length l.
Proof.
  induction l as [|e l IH]; intros Hs; [done|]. apply sorted_cons in Hs as [Hs He].
  change (to_map (e :: l)) with (<[ekey e := snd e]> (to_map l)). rewrite map_size_insert_None; [by rewrite IH|].
  apply to_map_lookup_none. intros y Hy E. specialize (He y Hy). lia.
Qed.

(** What a change of the store keeps of a tree. *)
Lemma rep_move t st b m st' : tree_rep t st b m -> store_ok st' -> tdisk st' !! b = tdisk st !! b -> b ∈ Balloc.used (alloc st') ->
  Balloc.nr_blocks (alloc st') = Balloc.nr_blocks (alloc st) -> tree_rep t st' b m.
Proof.
  intros (l & -> & T & Hr & W & Ht & Hc) [O D] Ed Hb Hs. exists l. split; [done|]. split; [|rewrite Ed; done].
  apply (tree_move G GO (load t st) b l (tdisk st') (alloc st')) in T; try done.
Qed.

Definition store_alloc (st : store) : outcome (Z * Z * store) :=
  obind (Balloc.nkfs_balloc_block_alloc (alloc st)) (fun r => Ret (fst r, Store (snd r) (tdisk st))).

Definition store_free (x : Z) (st : store) : outcome (Z * store) :=
  obind (Balloc.nkfs_balloc_block_free (alloc st) x) (fun r => Ret (fst r, Store (snd r) (tdisk st))).

Lemma rep_used t st b m : tree_rep t st b m ->
  b ∈ Balloc.used (alloc st) /\ 0 < b < Balloc.nr_blocks (alloc st) /\ (size m <= 2 * g_t G - 1)%nat.
Proof.
  intros (l & -> & T & _). destruct (flat_length G GO _ _ _ T) as (n & _ & _ & Ln & N & _). pose proof (node_nr _ _ N).
  destruct T as [_ _ _ Hs Hu]. destruct (Hu b ltac:(by apply elem_of_singleton)) as [H1 H2].
  split; [done|]. split; [done|]. rewrite to_map_size by done. lia.
Qed.

Lemma size_law st : store_ok st -> Balloc.nr_blocks (alloc st) < 2 ^ 64.
Proof. intros [[O _] _]. pose proof (Balloc.ok_nr _ O). lia. Qed.

(** Nothing fails, and there are so many free blocks. *)
Definition room (st : store) (n : nat) : Prop :=
  Balloc.no_fail (alloc st) /\ Z.of_nat n + Z.of_nat (size (Balloc.used (alloc st))) <= Balloc.nr_blocks (alloc st).

Lemma count_law st : store_ok st -> Balloc.used_blocks (alloc st) = Z.of_nat (size (Balloc.used (alloc st))) /\
  Balloc.used_blocks (alloc st) <= Balloc.nr_blocks (alloc st).
Proof.
  intros [[O _] _]. rewrite (Balloc.ok_used _ O). split; [done|]. pose proof (Balloc.ok_nr _ O).
  assert (Hs : Balloc.used (alloc st) ⊆ list_to_set (C := gset Z) (seqZ 0 (Balloc.nr_blocks (alloc st)))).
  { intros x [Hx _]%Balloc.elem_of_used. apply elem_of_list_to_set, elem_of_seqZ. lia. }
  apply subseteq_size in Hs. rewrite size_list_to_set in Hs by apply NoDup_seqZ. rewrite length_seqZ in Hs. lia.
Qed.

Lemma room_mono st n : room st (S n) -> room st n.
Proof. intros [H1 H2]. split; [done|lia]. Qed.

Lemma alloc_room b : Balloc.balloc_ok b -> forall err x b', Balloc.nkfs_balloc_block_alloc b = Ret (err, x, b') -> forall n d,
  room (Store b d) (S n) -> err = 0 /\ room (Store b' d) n.
Proof.
  intros O err x b' E n d [Hn Hr]. cbn [alloc] in *. unfold Balloc.nkfs_balloc_block_alloc in E.
  destruct (Balloc.block_alloc_loop_spec (Z.to_nat (Balloc.bm_blocks b)) 0 b O) as (err0 & x0 & b0 & E0 & O' & S' & U & Hc).
  { pose proof (Balloc.ok_bm _ O). lia. }
  rewrite E in E0. injection E0 as <- <- <-. destruct S' as (Enr & _ & _ & _ & Eg & Es). destruct Hc as [(-> & Hx & Hxu & _ & Hc)|(He & _ & Hc)].
  - split; [done|]. destruct (Hc Hn) as [Hu _]. split; cbn [alloc].
    + destruct Hn. split; [by rewrite Eg|by rewrite Es].
    + rewrite Hu, Enr, size_union by set_solver. rewrite size_singleton. lia.
  - destruct (Hc Hn) as (_ & _ & Hf). exfalso.
    assert (Hs : list_to_set (C := gset Z) (seqZ 0 (Balloc.nr_blocks b)) ⊆ Balloc.used b).
    { intros y Hy. apply elem_of_list_to_set, elem_of_seqZ in Hy. apply Hf; lia. }
    apply subseteq_size in Hs. rewrite size_list_to_set in Hs by apply NoDup_seqZ. rewrite length_seqZ in Hs. lia.
Qed.

Lemma room_alloc b : Balloc.balloc_ok b -> forall n d, room (Store b d) (S n) ->
  exists x b', ba_alloc b = Ret (Some x, b') /\ forall d', room (Store b' d') n.
Proof.
  intros O n d R. destruct (ba_alloc b) as [[[x|] b']|] eqn:E; cbn in E;
    destruct (Balloc.nkfs_balloc_block_alloc b) as [[[err y] b0]|] eqn:Eb; try done; cbn in E;
    [|destruct (alloc_room b O err y b0 Eb n d R) as [-> _]; done|
     destruct (Balloc.block_alloc_loop_spec (Z.to_nat (Balloc.bm_blocks b)) 0 b O) as (? & ? & ? & E0 & _);
       [pose proof (Balloc.ok_bm _ O); lia|]; unfold Balloc.nkfs_balloc_block_alloc in Eb; congruence].
  destruct (alloc_room b O err y b0 Eb n d R) as [-> [R1 R2]]. injection E as <- <-. exists y, b0. done.
Qed.

Lemma store_alloc_law st : store_ok st -> exists err x st', store_alloc st = Ret (err, x, st') /\
  store_ok st' /\ Balloc.nr_blocks (alloc st') = Balloc.nr_blocks (alloc st) /\ Balloc.used (alloc st) ⊆ Balloc.used (alloc st') /\
  (forall t b m, tree_rep t st b m -> tree_rep t st' b m) /\
  ((err = 0 /\ 0 < x < Balloc.nr_blocks (alloc st) /\ x ∉ Balloc.used (alloc st) /\ x ∈ Balloc.used (alloc st')) \/ err < 0) /\
  (forall n, room st (S n) -> err = 0 /\ room st' n).
Proof.
  intros [[O H0] D]. unfold store_alloc, Balloc.nkfs_balloc_block_alloc.
  destruct (Balloc.block_alloc_loop_spec (Z.to_nat (Balloc.bm_blocks (alloc st))) 0 (alloc st) O) as (err & x & b' & E & O' & S' & U & Hc).
  { pose proof (Balloc.ok_bm _ O). lia. }
  rewrite E. cbn [obind fst snd]. exists err, x, (Store b' (tdisk st)). cbn [alloc tdisk].
  assert (Hok : store_ok (Store b' (tdisk st))) by (split; [split; [done|by apply U]|done]).
  split; [done|]. split; [done|]. split; [apply S'|]. split; [done|]. split.
  - intros t b m R. destruct (rep_used _ _ _ _ R) as [Hb _]. apply (rep_move t st b m); try done; [by apply U|apply S'].
  - split.
    + destruct Hc as [(-> & Hx & Hxu & Hxu' & _)|(He & _)]; [left|by right]. split; [done|]. split; [|done].
      assert (x <> 0) by congruence. lia.
    + intros n R. apply (alloc_room (alloc st) O err x b'); done.
Qed.

Lemma store_free_law x st : store_ok st -> x ∈ Balloc.used (alloc st) -> 0 < x -> exists err st', store_free x st = Ret (err, st') /\
  store_ok st' /\ Balloc.nr_blocks (alloc st') = Balloc.nr_blocks (alloc st) /\
  Balloc.used (alloc st) ∖ {[x]} ⊆ Balloc.used (alloc st') /\ Balloc.used (alloc st') ⊆ Balloc.used (alloc st) /\
  (forall t b m, tree_rep t st b m -> b <> x -> tree_rep t st' b m).
Proof.
  intros [[O H0] D] Hx Hpos. unfold store_free. destruct (@ba_free_ok _ Balloc.balloc_alloc x (alloc st) (conj O H0) Hx Hpos) as (err & b' & E & O' & U1 & U2 & S').
  cbn [ba_free ba_used ba_size ba_ok Balloc.balloc_alloc] in *. rewrite E. cbn [obind fst snd]. exists err, (Store b' (tdisk st)).
  split; [done|]. split; [done|]. split; [done|]. split; [done|]. split; [done|]. cbn [alloc].
  intros t b m R Hn. destruct (rep_used _ _ _ _ R) as [Hb _]. apply (rep_move t st b m); try done.
  apply U1. apply elem_of_difference. split; [done|]. by rewrite elem_of_singleton.
Qed.

Lemma tree_create_law st : store_ok st -> exists r st', tree_create 0 st = Ret (r, st') /\
  store_ok st' /\ Balloc.nr_blocks (alloc st') = Balloc.nr_blocks (alloc st) /\ Balloc.used (alloc st) ⊆ Balloc.used (alloc st') /\
  (forall t b m, tree_rep t st b m -> tree_rep t st' b m) /\
  (match r with
  | Some t => exists b, b ∉ Balloc.used (alloc st) /\ tree_rep t st' b ∅ /\ tree_root_block t = Ret b
  | None => True
  end) /\
  (forall n, room st (S n) -> is_Some r /\ room st' n).
Proof.
  intros [O D]. unfold tree_create.
  pose proof (create_empty_spec G GO (tdisk st) (alloc st) (fun _ => false) (fun _ => WOk) reads_back O ltac:(done) D) as Sp.
  unfold spec in Sp. destruct (nkfs_btree_create G 0 _) as [ok s'| | |]; [|done..]. destruct Sp as (Ok & U & S' & D' & F & Sp).
  eexists _, _. split; [done|]. split; [by split|]. split; [done|]. split; [done|]. split.
  - intros t b m R. destruct (rep_used _ _ _ _ R) as [Hb _]. apply (rep_move t st b m); try done; [by apply F|by apply U].
  - destruct ok.
    2:{ split; [done|]. intros n R. destruct Sp as ([[_ ?]|[b' Eb]] & _); [done|].
        destruct (room_alloc (alloc st) (proj1 O) n (tdisk st) R) as (x & b0 & E0 & _). congruence. }
    destruct Sp as (b & Hb & T & E & Eb & Ed). split.
    2:{ intros n R. split; [done|]. destruct (room_alloc (alloc st) (proj1 O) n (tdisk st) R) as (x & b0 & E0 & R0). unfold unload. rewrite E0 in Eb. injection Eb as _ <-. apply R0. }
    exists b. split; [done|]. split.
    + exists []. split; [done|]. split; [by destruct s'|]. split; [apply (env_rel _ _ E)|]. split; [intros t; by rewrite (env_wfail _ _ E)|]. split; [apply (env_tref _ _ E)|].
      intros n En. change (disk s' !! b = Some n) in En. rewrite Ed in En. injection En as <-. apply clean_empty.
    + destruct T as [C I _ _ _]. destruct (coh_obj _ _ _ _ C b _ I) as (n & r & Eo & Bn & _).
      unfold tree_root_block, nkfs_btree_root_block, bind, gets, get, ret. by rewrite Eo, Bn.
Qed.

Definition good (st : store) (b : Z) : bool := match tdisk st !! b with Some n => reads_back n | None => false end.

(** The tree another one left on the disk. *)
Lemma tree_open_law t st b m : store_ok st -> tree_rep t st b m -> good st b = true ->
  exists t', tree_create b st = Ret (Some t', st) /\ tree_rep t' st b m.
Proof.
  intros [O D] R Hg. destruct (rep_used _ _ _ _ R) as (Hb & Hr & _). destruct R as (l & -> & T & Hrel & W & Ht & Hcl).
  pose proof (tree_on_disk G GO _ _ _ _ _ T) as Hd. pose proof T as [C _ _ Hs Hu]. cbn [load disk] in Hd.
  destruct (bt_root G GO _ _ _ _ _ _ Hd) as (n & Ed & N & Bn & _). destruct (node_sigs _ _ N) as [S1 S2].
  unfold good in Hg. unfold tree_create. change (disk (load t st)) with (tdisk st) in *. rewrite Ed in Hg.
  destruct (create_read G b (tdisk st) (alloc st) (fun _ => false) (fun _ => WOk) reads_back n) as
    (s' & E & Eo & Hn & Ei & Ea & Er & Edk & Ebl & Erl & Erf & Ewf & Etr); try done.
  rewrite E. assert (Es : unload s' = st) by (unfold unload; rewrite Ebl, Edk; by destruct st). rewrite Es.
  exists s'. split; [done|]. exists l. split; [done|]. assert (El : load s' st = s') by (unfold load; rewrite <- Ebl, <- Edk; by destruct s'). rewrite El.
  split; [|split; [done|split; [intros k; by rewrite Ewf|by split]]].
  eapply (tree_single G GO s' 1%nat n); rewrite ?Edk, ?Ebl; try done.
  intros x Hx. rewrite Ebl. by apply (Hu x).
Qed.

Lemma tree_find_law k t st b m : key_ok k -> tree_rep t st b m ->
  exists t', on_tree (nkfs_btree_find_key G (fuel st) k) t st =
    Ret (match m !! key_val k with Some v => (0, Some v) | None => (- ENOENT, None) end, t', st) /\ tree_rep t' st b m.
Proof.
  intros Hk (l & -> & T & Hr & W & Ht & Hcl). unfold on_tree.
  pose proof (lookup_spec G GO (fuel st) k (load t st) 0 b l {[b]} T Hr ltac:(by left) Hk ltac:(unfold fuel; lia)) as Sp.
  unfold spec in Sp. destruct (nkfs_btree_find_key G (fuel st) k (load t st)) as [r s'| | |]; [|done..]. destruct Sp as (-> & T' & [E Eb V _]).
  assert (Ed : disk s' = tdisk st).
  { apply map_eq. intros x. rewrite <- (vis_disk s') by apply T'. rewrite V, vis_disk by apply T. done. }
  assert (Es : unload s' = st) by (unfold unload; rewrite Eb, Ed; by destruct st).
  exists s'. rewrite Es. split; [done|]. exists l. split; [done|]. split; [|split; [by rewrite (env_rel _ _ E)|split; [|split; [by rewrite (env_tref _ _ E)|done]]]].
  - unfold load. rewrite <- Ed. replace (alloc st) with (bal s') by (by rewrite Eb). by destruct s'.
  - intros x. rewrite (env_wfail _ _ E). apply W.
Qed.

Lemma tree_deref_law t st b m : tree_rep t st b m -> tree_deref t st = Ret st.
Proof.
  intros (l & _ & T & _ & _ & Ht & _). unfold tree_deref, on_tree. pose proof (flat_deref G (load t st) b l T Ht) as Sp.
  unfold spec in Sp. destruct (nkfs_btree_deref true (load t st)) as [r s'| | |]; [|done..]. destruct Sp as [Ed Eb].
  cbn. unfold unload. rewrite Ed, Eb. by destruct st.
Qed.

Lemma tree_insert_law k v t st b m : key_ok k -> 0 <= v < 2 ^ 64 -> store_ok st -> tree_rep t st b m -> m !! key_val k = None -> (size m < 2 * g_t G - 1)%nat ->
  exists t' st', on_tree (nkfs_btree_insert_key G (fuel st) k v false) t st = Ret (0, t', st') /\
  store_ok st' /\ Balloc.nr_blocks (alloc st') = Balloc.nr_blocks (alloc st) /\ Balloc.used (alloc st') = Balloc.used (alloc st) /\
  (forall n, room st n -> room st' n) /\
  tree_rep t' st' b (<[key_val k := v]> m) /\
  (forall t2 b2 m2, tree_rep t2 st b2 m2 -> b2 <> b -> tree_rep t2 st' b2 m2).
Proof.
  intros Hk Hv [O D] (l & -> & T & Hr & W & Ht & Hcl) Hno Hc. pose proof (tree_sorted _ _ _ _ _ _ T) as Hs. rewrite to_map_size in Hc by done. unfold on_tree.
  pose proof (flat_insert G GO (2 * size (tdisk st) + 2) k v (load t st) b l T Hr W Hk
    ltac:(rewrite has_entry_map, Hno by done; by intros []) Hc Hv ltac:(intros n; rewrite vis_disk by apply T; apply Hcl)) as Sp.
  replace (Datatypes.S (2 * size (tdisk st) + 2)) with (fuel st) in Sp by (unfold fuel; lia).
  unfold spec in Sp. destruct (nkfs_btree_insert_key G (fuel st) k v false (load t st)) as [r s'| | |]; [|done..].
  destruct Sp as (-> & Hcl' & T' & E & Eb & V). exists s', (unload s'). split; [done|].
  assert (Ok' : store_ok (unload s')) by (split; [cbn; rewrite Eb; apply O|apply T']).
  assert (Hd : forall x, x <> b -> disk s' !! x = tdisk st !! x).
  { intros x Hx. rewrite <- (vis_disk s') by apply T'. rewrite V, vis_disk by (done || apply T). done. }
  cbn [unload alloc] in *. rewrite Eb. split; [done|]. split; [done|]. split; [done|]. split; [unfold room; cbn; by rewrite Eb|]. split.
  - exists (kv_ins k v l). rewrite to_map_ins by done. split; [done|]. split; [by destruct s'|]. split; [by rewrite (env_rel _ _ E)|].
    split; [intros x; rewrite (env_wfail _ _ E); apply W|]. split; [by rewrite (env_tref _ _ E)|].
    intros n. cbn. rewrite <- (vis_disk s') by apply T'. apply Hcl'.
  - intros t2 b2 m2 R Hn. apply (rep_move t2 st b2 m2); try done; [by apply Hd| |cbn; by rewrite Eb].
    cbn. rewrite Eb. by destruct (rep_used _ _ _ _ R).
Qed.

(** What the layout on the disk is known to keep. *)
Context (safe : nat) (safe_cap : (safe <= 2 * g_t G - 1)%nat).
Context (safe_ok : forall n, node_ok G n -> clean G n -> (nr_keys n <= safe)%nat -> reads_back n = true).

(** A root of few keys can be read back. *)
Lemma good_law t st b m : tree_rep t st b m -> (size m <= safe)%nat -> good st b = true.
Proof.
  intros (l & -> & T & _ & _ & _ & Hc) Hs. destruct (flat_length G GO _ _ _ T) as (n & V & _ & Ln & N & _).
  pose proof T as [C _ _ So _]. rewrite vis_disk in V by apply C. cbn in V. rewrite to_map_size in Hs by done.
  unfold good. rewrite V. apply safe_ok; [done|by apply Hc|lia].
Qed.

#[global] Instance btree_store : BlockTree tree_obj store := {
  st_alloc := store_alloc;
  st_free := store_free;
  st_used st := Balloc.used (alloc st);
  st_size st := Balloc.nr_blocks (alloc st);
  st_count st := Balloc.used_blocks (alloc st);
  st_ok := store_ok;
  st_room := room;
  t_cap := (2 * g_t G - 1)%nat;
  t_safe := safe;
  t_create := tree_create;
  t_root_block := tree_root_block;
  t_find k t st := on_tree (nkfs_btree_find_key G (fuel st) k) t st;
  t_insert k v replace t st := on_tree (nkfs_btree_insert_key G (fuel st) k v replace) t st;
  t_delete k t st := on_tree (nkfs_btree_delete_key G (fuel st) k) t st;
  t_erase := tree_erase;
  t_stop t := with_releasing true t;
  t_deref := tree_deref;
  t_rep := tree_rep;
  t_good := good;
  t_safe_cap := safe_cap;
  st_size_ok := size_law;
  st_count_ok := count_law;
  st_room_mono := room_mono;
  st_alloc_ok := store_alloc_law;
  st_free_ok := store_free_law;
  t_rep_used := rep_used;
  t_create_ok := tree_create_law;
  t_open_ok := tree_open_law;
  t_good_ok := good_law;
  t_find_ok := tree_find_law;
  t_insert_ok := tree_insert_law;
  t_deref_ok := tree_deref_law
}.

End Ops.

(** ** The geometry and the layout of include/nkfs_image.h *)

Lemma nkfs_geom_ok : geom_ok nkfs_geom.
Proof. split; apply Nat.leb_le; vm_compute; reflexivity. Qed.

(** The key pages that are written. *)
Definition NKFS_SAFE_KEYS : nat := 1024.

Lemma nkfs_safe_cap : (NKFS_SAFE_KEYS <= 2 * g_t nkfs_geom - 1)%nat.
Proof. apply Nat.leb_le. vm_compute. reflexivity. Qed.

Lemma replicate_forall {A} (x : A) l n : Forall (fun y => y = x) l -> length l = n -> l = replicate n x.
Proof. intros F <-. induction F as [|y l -> _ IH]; [done|]. cbn. by rewrite <- IH. Qed.

Lemma clean_disk_ok n : node_ok nkfs_geom n -> clean nkfs_geom n -> BtreeDisk.disk_ok n.
Proof.
  intros [P L Fk Sg] [K C V]. split; try done.
  - rewrite <- (take_drop (nr_keys n) (keys n)). apply Forall_app. split; [done|]. rewrite K. by apply Forall_replicate.
  - eapply Forall_impl; [exact C|]. intros c ->. done.
  - change (2 * g_t nkfs_geom - 1)%nat with 1791%nat in L. lia.
Qed.

Lemma clean_reads_back e n : node_ok nkfs_geom n -> clean nkfs_geom n -> (nr_keys n <= NKFS_SAFE_KEYS)%nat -> BtreeDisk.reads_back e n = true.
Proof.
  intros N Cl Hn. apply BtreeDisk.reads_back_shared; [by apply clean_disk_ok|]. destruct Cl as [K C _]. pose proof (node_pages _ _ N) as P.
  apply BtreeDisk.shared_small.
  - apply replicate_forall; [by apply Forall_take|]. rewrite length_take, (cflat_length _ _ P). reflexivity.
  - replace 1024%nat with (nr_keys n + (NKFS_SAFE_KEYS - nr_keys n))%nat by (unfold NKFS_SAFE_KEYS in *; lia).
    rewrite <- drop_drop, K, drop_replicate. f_equal. change (g_keys nkfs_geom) with 1792%nat. unfold NKFS_SAFE_KEYS in *. lia.
Qed.

(** The store of the program. *)
Definition nkfs_store (e : XXHash.XXH_endianess) : BlockTree tree_obj store :=
  btree_store nkfs_geom nkfs_geom_ok (BtreeDisk.reads_back e) NKFS_SAFE_KEYS nkfs_safe_cap (clean_reads_back e).

End BtreeStore.
