(* ===== verification/Inode.v ===== *)
(** * Inodes (src/core/inode.c, src/core/inode.h)

    An object's data are blocks found through the inode's [blocks_tree]; each has
    a checksum in a block found through [blocks_sum_tree].  The model composes the
    cluster cache (Dio), the allocator and the trees (the interface [BlockTree]).

    State: the device, the store of trees, the inode objects by pointer, and the
    superblock's index from block to inode.  [i_sem] is the inode's [rw_sem]: the
    number of readers, and waiting for it as a writer with readers left is [Hang]
    (calls run one at a time, so nobody else would release it).

    A read into pages that fails midway returns its error alone: the pages it had
    filled by then are the caller's to drop, and no caller looks at them. *)

From Stdlib Require Import ZArith Lia.
From coqutil Require Import Byte.
From stdpp Require Import base list gmap.
From S2P Require Import Prelude XXHash Bytes StMonad Csum DioPages Dio DioClient Mem CharHex ObjId Super BtreeNode BtreeDisk.
From S2P Require Import BlockTree.
Import XXHash Bytes StMonad Csum ObjId DioClient.
Local Open Scope Z_scope.
Local Open Scope stm_scope.

Module Inode.

Definition NKFS_INODE_SIG1 : Z := 0xCBDACBDA.
Definition NKFS_INODE_SIG2 : Z := 0xBEDABEDA.

Section Inode.
Context {T St : Type} `{BlockTree T St}.
(** The byte order, and what an uninitialised checksum context holds. *)
Context (e : XXH_endianess) (ctx : csum_ctx).

Record nkfs_inode := MkInode {
  i_ref : Z;
  ino : nkfs_obj_id;
  i_block : Z;
  i_size : Z;
  i_dirty : bool;
  blocks_tree_block : Z;
  blocks_sum_tree_block : Z;
  blocks_tree : option T;
  blocks_sum_tree : option T;
  i_sig1 : Z;
  i_sig2 : Z;
  i_sem : Z
}.

Record sb_state := SbState {
  ddev : Dio.dio_dev;
  st : St;
  bsize : Z;
  objs : gmap nat nkfs_inode;
  next : nat;
  inodes : gmap Z nat;
  inodes_active : Z;
  mfail : nat -> bool;
  mtick : nat
}.

Abbreviation M := (StMonad.M sb_state).

Definition with_ddev (d : Dio.dio_dev) (s : sb_state) : sb_state :=
  SbState d (st s) (bsize s) (objs s) (next s) (inodes s) (inodes_active s) (mfail s) (mtick s).
Definition with_store (x : St) (s : sb_state) : sb_state :=
  SbState (ddev s) x (bsize s) (objs s) (next s) (inodes s) (inodes_active s) (mfail s) (mtick s).
Definition with_objs (o : gmap nat nkfs_inode) (s : sb_state) : sb_state :=
  SbState (ddev s) (st s) (bsize s) o (next s) (inodes s) (inodes_active s) (mfail s) (mtick s).
Definition with_new (i : nkfs_inode) (s : sb_state) : sb_state :=
  SbState (ddev s) (st s) (bsize s) (<[next s := i]> (objs s)) (S (next s)) (inodes s) (inodes_active s) (mfail s) (mtick s).
Definition with_inodes (t : gmap Z nat) (n : Z) (s : sb_state) : sb_state :=
  SbState (ddev s) (st s) (bsize s) (objs s) (next s) t n (mfail s) (mtick s).
Definition with_mtick (n : nat) (s : sb_state) : sb_state :=
  SbState (ddev s) (st s) (bsize s) (objs s) (next s) (inodes s) (inodes_active s) (mfail s) n.

Definition set_ref (r : Z) (i : nkfs_inode) : nkfs_inode :=
  MkInode r (ino i) (i_block i) (i_size i) (i_dirty i) (blocks_tree_block i) (blocks_sum_tree_block i) (blocks_tree i)
    (blocks_sum_tree i) (i_sig1 i) (i_sig2 i) (i_sem i).
Definition set_block (b : Z) (i : nkfs_inode) : nkfs_inode :=
  MkInode (i_ref i) (ino i) b (i_size i) (i_dirty i) (blocks_tree_block i) (blocks_sum_tree_block i) (blocks_tree i)
    (blocks_sum_tree i) (i_sig1 i) (i_sig2 i) (i_sem i).
Definition set_size (n : Z) (d : bool) (i : nkfs_inode) : nkfs_inode :=
  MkInode (i_ref i) (ino i) (i_block i) n d (blocks_tree_block i) (blocks_sum_tree_block i) (blocks_tree i)
    (blocks_sum_tree i) (i_sig1 i) (i_sig2 i) (i_sem i).
Definition set_tree (t : option T) (i : nkfs_inode) : nkfs_inode :=
  MkInode (i_ref i) (ino i) (i_block i) (i_size i) (i_dirty i) (blocks_tree_block i) (blocks_sum_tree_block i) t
    (blocks_sum_tree i) (i_sig1 i) (i_sig2 i) (i_sem i).
Definition set_sum_tree (t : option T) (i : nkfs_inode) : nkfs_inode :=
  MkInode (i_ref i) (ino i) (i_block i) (i_size i) (i_dirty i) (blocks_tree_block i) (blocks_sum_tree_block i) (blocks_tree i)
    t (i_sig1 i) (i_sig2 i) (i_sem i).
Definition set_tree_blocks (b sb : Z) (i : nkfs_inode) : nkfs_inode :=
  MkInode (i_ref i) (ino i) (i_block i) (i_size i) (i_dirty i) b sb (blocks_tree i) (blocks_sum_tree i) (i_sig1 i) (i_sig2 i) (i_sem i).
Definition set_ino (o : nkfs_obj_id) (i : nkfs_inode) : nkfs_inode :=
  MkInode (i_ref i) o (i_block i) (i_size i) (i_dirty i) (blocks_tree_block i) (blocks_sum_tree_block i) (blocks_tree i)
    (blocks_sum_tree i) (i_sig1 i) (i_sig2 i) (i_sem i).
Definition set_sem (n : Z) (i : nkfs_inode) : nkfs_inode :=
  MkInode (i_ref i) (ino i) (i_block i) (i_size i) (i_dirty i) (blocks_tree_block i) (blocks_sum_tree_block i) (blocks_tree i)
    (blocks_sum_tree i) (i_sig1 i) (i_sig2 i) n.

(** ** Calls into the other components *)

Definition dio {A} (m : StMonad.M Dio.dio_dev A) : M A := fun s =>
  match m (ddev s) with
  | Done a d => Done a (with_ddev d s)
  | Crash => Crash
  | Hang => Hang
  | NoFuel => NoFuel
  end.

Definition on_store {A} (f : St -> outcome (A * St)) : M A := fun s =>
  match f (st s) with
  | Ret (a, x) => Done a (with_store x s)
  | Bug => Crash
  end.

(** The inode behind a pointer; a freed one may not be touched. *)
Definition get (p : nat) : M nkfs_inode := fun s =>
  match objs s !! p with
  | Some i => Done i s
  | None => Crash
  end.

Definition upd (p : nat) (f : nkfs_inode -> nkfs_inode) : M unit := fun s =>
  match objs s !! p with
  | Some i => Done tt (with_objs (<[p := f i]> (objs s)) s)
  | None => Crash
  end.

(** Whether the next [crt_kmalloc] fails. *)
Definition mfails : M bool := fun s => Done (mfail s (mtick s)) (with_mtick (S (mtick s)) s).

(** A call on one of the inode's trees. *)
Inductive which := Blocks | Sums.

Definition get_tree (w : which) (i : nkfs_inode) : option T :=
  match w with Blocks => blocks_tree i | Sums => blocks_sum_tree i end.
Definition put_tree (w : which) (t : option T) (i : nkfs_inode) : nkfs_inode :=
  match w with Blocks => set_tree t i | Sums => set_sum_tree t i end.

Definition on_tree {A} (p : nat) (w : which) (f : T -> St -> outcome (A * T * St)) : M A :=
  let* i := get p in
  match get_tree w i with
  | None => crash
  | Some t =>
      let* r := on_store (f t) in
      do* upd p (put_tree w (Some (snd r))) in
      ret (fst r)
  end.

Definition find_key (p : nat) (w : which) (v : Z) : M (Z * option Z) :=
  on_tree p w (t_find (BtreeDisk.nkfs_btree_key_by_u64 e v)).
Definition insert_key (p : nat) (w : which) (v x : Z) : M Z :=
  on_tree p w (t_insert (BtreeDisk.nkfs_btree_key_by_u64 e v) x false).
Definition delete_key (p : nat) (w : which) (v : Z) : M Z :=
  on_tree p w (t_delete (BtreeDisk.nkfs_btree_key_by_u64 e v)).

(** [inode->rw_sem]. *)
Definition down_read (p : nat) : M unit := upd p (fun i => set_sem (i_sem i + 1) i).
Definition up_read (p : nat) : M unit := upd p (fun i => set_sem (i_sem i - 1) i).
Definition down_write (p : nat) : M unit :=
  let* i := get p in if i_sem i =? 0 then ret tt else hang.

Definition __nkfs_inode_block_alloc : M (Z * Z) := on_store st_alloc.
Definition __nkfs_inode_block_free (block : Z) : M Z := on_store (st_free block).

(** ** Objects and the index *)

Definition nkfs_inode_alloc : M (option nat) :=
  let* f := mfails in
  if (f : bool) then ret None
  else fun s => Done (Some (next s)) (with_new (MkInode 1 (Id 0 0) 0 0 false 0 0 None None 0 0 0) s).

Definition deref_tree (t : option T) : M unit :=
  match t with
  | Some t => on_store (fun st => obind (t_deref t st) (fun st => Ret (tt, st)))
  | None => ret tt
  end.

Definition nkfs_inode_free (p : nat) : M unit :=
  let* i := get p in
  do* deref_tree (blocks_tree i) in
  do* deref_tree (blocks_sum_tree i) in
  modify (fun s => with_objs (delete p (objs s)) s).

Definition nkfs_inodes_remove (p : nat) : M unit :=
  let* i := get p in
  let* found := gets (fun s => inodes s !! i_block i) in
  match found with
  | Some q =>
      do* BUG_ON (negb (q =? p)%nat) in
      modify (fun s => with_inodes (delete (i_block i) (inodes s)) (inodes_active s - 1) s)
  | None => ret tt
  end.

Definition nkfs_inode_release (p : nat) : M unit :=
  do* nkfs_inodes_remove p in nkfs_inode_free p.

Definition nkfs_inode_ref (p : nat) : M unit :=
  let* i := get p in
  do* BUG_ON (i_ref i <=? 0) in
  upd p (fun i => set_ref (i_ref i + 1) i).

Definition nkfs_inode_deref (p : nat) : M unit :=
  let* i := get p in
  do* BUG_ON (i_ref i <=? 0) in
  do* upd p (fun i => set_ref (i_ref i - 1) i) in
  if i_ref i - 1 =? 0 then nkfs_inode_release p else ret tt.

Definition nkfs_inodes_lookup (block : Z) : M (option nat) :=
  let* found := gets (fun s => inodes s !! block) in
  match found with
  | Some p => do* nkfs_inode_ref p in ret (Some p)
  | None => ret None
  end.

Definition nkfs_inodes_insert (p : nat) : M nat :=
  let* i := get p in
  let* found := gets (fun s => inodes s !! i_block i) in
  let* inserted :=
    match found with
    | Some q => ret q
    | None => do* modify (fun s => with_inodes (<[i_block i := p]> (inodes s)) (inodes_active s + 1) s) in ret p
    end in
  do* nkfs_inode_ref inserted in
  ret inserted.

(** ** On disk *)

(** [struct nkfs_inode_disk]: 44 bytes up to [sum], 56 in all. *)
Definition inode_fields (i : nkfs_inode) : list (list byte) :=
  [be 4 NKFS_INODE_SIG1; store e 8 (high (ino i)) ++ store e 8 (low (ino i)); be 8 (i_size i);
   be 8 (blocks_tree_block i); be 8 (blocks_sum_tree_block i)].

Definition nkfs_inode_on_disk_sum (on_disk : list byte) : Z :=
  csum_digest e (csum_update e (csum_reset ctx) (take 44 on_disk)).

(** Every field is written before the sum is computed. *)
Definition nkfs_inode_to_on_disk (i : nkfs_inode) : list byte :=
  let on_disk sum := concat (inode_fields i ++ [sum; be 4 NKFS_INODE_SIG2]) in
  on_disk (store e 8 (nkfs_inode_on_disk_sum (on_disk (replicate 8 Init.Byte.x00)))).

Definition nkfs_inode_parse_on_disk (i : nkfs_inode) (d : list byte) : Z * nkfs_inode :=
  let sig1 := of_be (field 0 4 d) in
  let sig2 := of_be (field 52 4 d) in
  if negb (sig1 =? NKFS_INODE_SIG1) || negb (sig2 =? NKFS_INODE_SIG2) then (- EINVAL, i)
  else if negb (bool_decide (store e 8 (nkfs_inode_on_disk_sum d) = field 44 8 d)) then (- EINVAL, i)
  else (0, MkInode (i_ref i) (Id (load e (field 4 8 d)) (load e (field 12 8 d))) (i_block i) (of_be (field 20 8 d)) (i_dirty i)
             (of_be (field 28 8 d)) (of_be (field 36 8 d)) (blocks_tree i) (blocks_sum_tree i) sig1 sig2 (i_sem i)).

(** ** Reading, writing, making and deleting inodes *)

(** What both failures after [kmalloc(inode_disk)] share. *)
Definition read_fail (clu : option nat) (p : nat) : M (option nat) :=
  do* match clu with Some c => dio (Dio.dio_clu_put c) | None => ret tt end in
  do* nkfs_inode_free p in
  ret None.

Definition nkfs_inode_read (block : Z) : M (option nat) :=
  let* found := nkfs_inodes_lookup block in
  match found with
  | Some p => ret (Some p)
  | None =>
      let* r := nkfs_inode_alloc in
      match r with
      | None => ret None
      | Some p =>
          do* upd p (set_block block) in
          let* clu := dio (Dio.dio_clu_get block) in
          match clu with
          | None => read_fail None p
          | Some c =>
              let* f := mfails in
              if (f : bool) then read_fail (Some c) p
              else
                let* d := dio (Dio.dio_clu_read c 56 0) in
                match d with
                | inl _ => read_fail (Some c) p
                | inr d =>
                    let* i := get p in
                    let (err, i) := nkfs_inode_parse_on_disk i d in
                    if negb (err =? 0) then read_fail (Some c) p
                    else
                      do* upd p (fun _ => i) in
                      let* t := on_store (t_create (blocks_tree_block i)) in
                      match t with
                      | None => read_fail (Some c) p
                      | Some t =>
                          do* upd p (set_tree (Some t)) in
                          let* t := on_store (t_create (blocks_sum_tree_block i)) in
                          match t with
                          | None => read_fail (Some c) p
                          | Some t =>
                              do* upd p (set_sum_tree (Some t)) in
                              let* inserted := nkfs_inodes_insert p in
                              if negb (inserted =? p)%nat then
                                do* dio (Dio.dio_clu_put c) in
                                do* nkfs_inode_free p in
                                ret (Some inserted)
                              else
                                do* nkfs_inode_deref inserted in
                                do* dio (Dio.dio_clu_put c) in
                                ret (Some p)
                          end
                      end
                end
          end
      end
  end.

Definition erase_tree (p : nat) (w : which) : M unit :=
  let* i := get p in
  match get_tree w i with
  | Some t => let* t := on_store (t_erase t) in upd p (put_tree w (Some t))
  | None => ret tt
  end.

Definition nkfs_inode_delete (p : nat) : M unit :=
  do* down_write p in
  do* erase_tree p Blocks in
  do* erase_tree p Sums in
  do* nkfs_inodes_remove p in
  let* i := get p in
  do* on_store (st_free (i_block i)) in
  upd p (fun i => set_block 0 (set_size 0 (i_dirty i) i)).

Definition nkfs_inode_write (p : nat) : M Z :=
  let* i := get p in
  do* BUG_ON (i_block i =? 0) in
  let* clu := dio (Dio.dio_clu_get (i_block i)) in
  match clu with
  | None => ret (- EIO)
  | Some c =>
      let* f := mfails in
      if (f : bool) then do* dio (Dio.dio_clu_put c) in ret (- ENOMEM)
      else
        let* err := dio (Dio.dio_clu_write c (nkfs_inode_to_on_disk i) 0) in
        let* err := if negb (err =? 0) then ret err else dio (Dio.clu_sync c) in
        do* dio (Dio.dio_clu_put c) in
        ret err
  end.

Definition nkfs_inode_set_size (p : nat) (size : Z) : M unit :=
  let* i := get p in
  if negb (i_size i =? size) then upd p (set_size size true) else ret tt.

Definition nkfs_inode_write_dirty (p : nat) : M Z :=
  let* i := get p in
  if negb (i_dirty i) then ret 0
  else
    let* err := nkfs_inode_write p in
    do* (if err =? 0 then upd p (fun i => set_size (i_size i) false i) else ret tt) in
    ret err.

Definition create_fail (p : nat) : M (option nat) :=
  do* nkfs_inode_delete p in
  do* nkfs_inode_free p in
  ret None.

Definition nkfs_inode_create (o : nkfs_obj_id) : M (option nat) :=
  let* r := nkfs_inode_alloc in
  match r with
  | None => ret None
  | Some p =>
      let* a := __nkfs_inode_block_alloc in
      if negb (fst a =? 0) then do* nkfs_inode_free p in ret None
      else
        do* upd p (set_block (snd a)) in
        do* BUG_ON (snd a =? 0) in
        do* upd p (set_ino o) in
        let* t := on_store (t_create 0) in
        match t with
        | None => create_fail p
        | Some t1 =>
            do* upd p (set_tree (Some t1)) in
            let* t := on_store (t_create 0) in
            match t with
            | None => create_fail p
            | Some t2 =>
                do* upd p (set_sum_tree (Some t2)) in
                let* b1 := lift (t_root_block t1) in
                let* b2 := lift (t_root_block t2) in
                do* upd p (set_tree_blocks b1 b2) in
                let* err := nkfs_inode_write p in
                if negb (err =? 0) then create_fail p
                else
                  let* inserted := nkfs_inodes_insert p in
                  do* BUG_ON (negb (inserted =? p)%nat) in
                  do* nkfs_inode_deref inserted in
                  ret (Some p)
            end
        end
  end.

(** ** Blocks of data *)

Record inode_block := Ib {
  vblock : Z;
  ib_block : Z;
  vsum_block : Z;
  sum_block : Z;
  clu : option nat;
  sum_clu : option nat;
  sum_off : Z
}.

Definition ib_zero : inode_block := Ib 0 0 0 0 None None 0.

Definition nkfs_inode_block_to_sum_block (block bs : Z) : outcome (Z * Z) :=
  let nbytes := u64 (block * 8) in
  obind (Super.nkfs_div nbytes bs) (fun b => obind (Super.nkfs_mod nbytes bs) (fun o => Ret (b, o))).

(** The clusters of [ib], or the error. *)
Definition nkfs_inode_block_open_clus (ib : inode_block) : M (Z + inode_block) :=
  do* BUG_ON (bool_decide (is_Some (clu ib)) || bool_decide (is_Some (sum_clu ib))) in
  let* c := dio (Dio.dio_clu_get (ib_block ib)) in
  match c with
  | None => ret (inl (- EIO))
  | Some c =>
      let* d := dio (Dio.dio_clu_get (sum_block ib)) in
      match d with
      | None => do* dio (Dio.dio_clu_put c) in ret (inl (- EIO))
      | Some d => ret (inr (Ib (vblock ib) (ib_block ib) (vsum_block ib) (sum_block ib) (Some c) (Some d) (sum_off ib)))
      end
  end.

Definition put_opt (c : option nat) : M unit :=
  match c with Some c => dio (Dio.dio_clu_put c) | None => ret tt end.

Definition nkfs_inode_block_relse (ib : inode_block) : M unit :=
  do* put_opt (clu ib) in put_opt (sum_clu ib).

Definition nkfs_inode_block_write (ib : inode_block) : M Z :=
  match clu ib, sum_clu ib with
  | Some c, Some d =>
      let* sum := dio (Dio.dio_clu_sum e ctx c) in
      do* dio (do* map_write d (sum_off ib) (store e 8 sum) in
               do* Dio.dio_clu_set_dirty c in Dio.dio_clu_set_dirty d) in
      let* err := dio (Dio.clu_sync c) in
      if err =? 0 then dio (Dio.clu_sync d) else ret err
  | _, _ => crash
  end.

(** Undoing the allocation: [inserted] and [allocated] tell how far the block of
    sums got. *)
Definition alloc_fail (p : nat) (ib : inode_block) (allocated inserted : bool) (err : Z) : M (Z + inode_block) :=
  do* (if inserted then let* _ := delete_key p Sums (vsum_block ib) in ret tt else ret tt) in
  do* (if allocated then let* _ := __nkfs_inode_block_free (sum_block ib) in ret tt else ret tt) in
  let* _ := __nkfs_inode_block_free (ib_block ib) in
  do* nkfs_inode_block_relse ib in
  ret (inl err).

(** From the block of sums on. *)
Definition alloc_open (p : nat) (ib : inode_block) (new : bool) : M (Z + inode_block) :=
  let* r := nkfs_inode_block_open_clus ib in
  match r with
  | inl err => alloc_fail p ib new new err
  | inr ib =>
      let* err := insert_key p Blocks (vblock ib) (ib_block ib) in
      if negb (err =? 0) then alloc_fail p ib new new err else ret (inr ib)
  end.

Definition nkfs_inode_block_alloc (p : nat) (vb : Z) : M (Z + inode_block) :=
  let* a := __nkfs_inode_block_alloc in
  if negb (fst a =? 0) then ret (inl (fst a))
  else
    let* bs := gets bsize in
    let* so := lift (nkfs_inode_block_to_sum_block vb bs) in
    let ib sb := Ib vb (snd a) (fst so) sb None None (snd so) in
    let* f := find_key p Sums (fst so) in
    if negb (fst f =? 0) then
      let* a2 := __nkfs_inode_block_alloc in
      if negb (fst a2 =? 0) then alloc_fail p (ib 0) false false (fst a2)
      else
        let* err := insert_key p Sums (fst so) (snd a2) in
        if negb (err =? 0) then alloc_fail p (ib (snd a2)) true false err
        else alloc_open p (ib (snd a2)) true
    else alloc_open p (ib (default 0 (snd f))) false.

Definition nkfs_inode_block_erase (p : nat) (ib : inode_block) : M unit :=
  let* _ := delete_key p Blocks (vblock ib) in
  let* _ := __nkfs_inode_block_free (ib_block ib) in
  ret tt.

Definition nkfs_inode_block_check_sum (ib : inode_block) : M Z :=
  match clu ib, sum_clu ib with
  | Some c, Some d =>
      let* sum := dio (Dio.dio_clu_sum e ctx c) in
      let* there := dio (map_read d (sum_off ib) 8) in
      ret (if bool_decide (there = store e 8 sum) then 0 else - EINVAL)
  | _, _ => crash
  end.

Definition nkfs_inode_block_read (p : nat) (vb : Z) : M (Z + inode_block) :=
  let* f := find_key p Blocks vb in
  if negb (fst f =? 0) then ret (inl (fst f))
  else
    let* bs := gets bsize in
    let* so := lift (nkfs_inode_block_to_sum_block vb bs) in
    let* g := find_key p Sums (fst so) in
    if negb (fst g =? 0) then ret (inl (fst g))
    else nkfs_inode_block_open_clus (Ib vb (default 0 (snd f)) (fst so) (default 0 (snd g)) None None (snd so)).

Definition nkfs_inode_block_read_create (p : nat) (vb : Z) : M (Z + inode_block) :=
  let* r := nkfs_inode_block_read p vb in
  match r with
  | inl _ =>
      let* r := nkfs_inode_block_alloc p vb in
      match r with
      | inl err => ret (inl err)
      | inr ib =>
          let* err := nkfs_inode_block_write ib in
          if negb (err =? 0) then
            do* nkfs_inode_block_erase p ib in
            do* nkfs_inode_block_relse ib in
            ret (inl err)
          else ret (inr ib)
      end
  | inr ib =>
      let* err := nkfs_inode_block_check_sum ib in
      if negb (err =? 0) then do* nkfs_inode_block_relse ib in ret (inl err)
      else ret (inr ib)
  end.

(** ** Input and output *)

(** The bytes read and the end-of-file flag, or the error.  The second
    [down_read] is released, the first on the way to the data is not. *)
Definition nkfs_inode_read_block_buf (p : nat) (vb off len : Z) : M (Z + list byte * bool) :=
  let* bs := gets bsize in
  do* BUG_ON (bs <? off + len) in
  do* down_read p in
  let* i := get p in
  let data_off := u64 (vb * bs + off) in
  if i_size i <? data_off then do* up_read p in ret (inl (- ERANGE))
  else if data_off =? i_size i then do* up_read p in ret (inr ([], true))
  else
    let* r := nkfs_inode_block_read p vb in
    match r with
    | inl err => ret (inl err)
    | inr ib =>
        let* err := nkfs_inode_block_check_sum ib in
        let* res :=
          if negb (err =? 0) then ret (inl err)
          else
            do* down_read p in
            let* i := get p in
            let eof := i_size i <=? u64 (data_off + len) in
            let llen := if eof then u32 (i_size i - data_off) else len in
            do* up_read p in
            match clu ib with
            | None => crash
            | Some c =>
                let* d := dio (Dio.dio_clu_read c llen off) in
                ret (match d with inl err => inl err | inr d => inr (d, eof) end)
            end in
        do* nkfs_inode_block_relse ib in
        ret res
    end.

(** What is written is [buf]; the count written, or the error. *)
Definition nkfs_inode_write_block_buf (p : nat) (vb off : Z) (buf : list byte) : M (Z + Z) :=
  let* bs := gets bsize in
  let len := Z.of_nat (length buf) in
  do* BUG_ON (bs <? off + len) in
  let* r := nkfs_inode_block_read_create p vb in
  match r with
  | inl err => ret (inl err)
  | inr ib =>
      match clu ib with
      | None => crash
      | Some c =>
          let* err := dio (Dio.dio_clu_write c buf off) in
          let* err := if negb (err =? 0) then ret err else nkfs_inode_block_write ib in
          let* err :=
            if negb (err =? 0) then ret err
            else
              let data_end := u64 (u64 (vb * bs + off) + len) in
              do* down_write p in
              let* i := get p in
              if i_size i <? data_end then
                do* nkfs_inode_set_size p data_end in nkfs_inode_write_dirty p
              else ret 0 in
          do* nkfs_inode_block_relse ib in
          ret (if negb (err =? 0) then inl err else inr len)
      end
  end.

(** The loops take the bytes in turn; [fuel] is the number of turns allowed. *)
Fixpoint write_loop (fuel : nat) (p : nat) (vb loff : Z) (buf : list byte) (count : Z) : M (Z + Z) :=
  match buf, fuel with
  | [], _ => ret (inr count)
  | _, O => no_fuel
  | _, S fuel =>
      let* bs := gets bsize in
      let res := Z.of_nat (length buf) in
      let llen := if bs <? u32 (res + loff) then bs - loff else res in
      let* r := nkfs_inode_write_block_buf p vb loff (take (Z.to_nat llen) buf) in
      match r with
      | inl err => ret (inl err)
      | inr n => do* BUG_ON (negb (llen =? n)) in write_loop fuel p (u64 (vb + 1)) 0 (drop (Z.to_nat llen) buf) (u32 (count + n))
      end
  end.

Fixpoint read_loop (fuel : nat) (p : nat) (vb loff res : Z) (got : list byte) : M (Z + list byte * bool) :=
  if res <=? 0 then ret (inr (got, false))
  else match fuel with
  | O => no_fuel
  | S fuel =>
      let* bs := gets bsize in
      let llen := if bs <? u32 (res + loff) then bs - loff else res in
      let* r := nkfs_inode_read_block_buf p vb loff llen in
      match r with
      | inl err => ret (inl err)
      | inr (d, true) => ret (inr (got ++ d, true))
      | inr (d, false) =>
          do* BUG_ON (negb (llen =? Z.of_nat (length d))) in
          read_loop fuel p (u64 (vb + 1)) 0 (res - llen) (got ++ d)
      end
  end.

Definition nkfs_inode_io_buf_write (p : nat) (off : Z) (buf : list byte) : M (Z + Z) :=
  let* bs := gets bsize in
  let* vb := lift (Super.nkfs_div off bs) in
  let* loff := lift (Super.nkfs_mod off bs) in
  write_loop (length buf) p vb loff buf 0.

Definition nkfs_inode_io_buf_read (p : nat) (off len : Z) : M (Z + list byte * bool) :=
  let* bs := gets bsize in
  let* vb := lift (Super.nkfs_div off bs) in
  let* loff := lift (Super.nkfs_mod off bs) in
  read_loop (Z.to_nat len) p vb loff len [].

(** ** Pages *)

(** The pages of a request, each 4096 bytes; the data start at [pg_off] of the
    first. *)
Fixpoint io_pages_write (p : nat) (off pg_off len : Z) (pages : list (list byte)) (count : Z) : M (Z + Z) :=
  if len <=? 0 then ret (inr count)
  else match pages with
  | [] => ret (inl (- EINVAL))
  | pg :: pages =>
      let llen := if 4096 <? u32 (len + pg_off) then 4096 - pg_off else len in
      let* r := nkfs_inode_io_buf_write p off (field (Z.to_nat pg_off) (Z.to_nat llen) pg) in
      match r with
      | inl err => ret (inl err)
      | inr n =>
          do* BUG_ON (negb (n =? llen)) in
          io_pages_write p (u64 (off + llen)) 0 (len - llen) pages (u32 (count + n))
      end
  end.

(** The pages as the read leaves them, and the count. *)
Fixpoint io_pages_read (p : nat) (off pg_off len : Z) (pages : list (list byte)) (count : Z) : M (Z + Z * list (list byte)) :=
  if len <=? 0 then ret (inr (count, pages))
  else match pages with
  | [] => ret (inl (- EINVAL))
  | pg :: pages =>
      let llen := if 4096 <? u32 (len + pg_off) then 4096 - pg_off else len in
      let* r := nkfs_inode_io_buf_read p off llen in
      match r with
      | inl err => ret (inl err)
      | inr (d, eof) =>
          let pg := memcpy_at pg (Z.to_nat pg_off) d in
          let n := Z.of_nat (length d) in
          if (eof : bool) then ret (inr (u32 (count + n), pg :: pages))
          else
            do* BUG_ON (negb (n =? llen)) in
            let* r := io_pages_read p (u64 (off + llen)) 0 (len - llen) pages (u32 (count + n)) in
            ret (match r with inl err => inl err | inr (c, pgs) => inr (c, pg :: pgs) end)
      end
  end.

Definition nkfs_inode_io_pages_write (p : nat) (off pg_off len : Z) (pages : list (list byte)) : M (Z + Z) :=
  io_pages_write p off pg_off len pages 0.
Definition nkfs_inode_io_pages_read (p : nat) (off pg_off len : Z) (pages : list (list byte)) : M (Z + Z * list (list byte)) :=
  io_pages_read p off pg_off len pages 0.

End Inode.

Arguments nkfs_inode T : clear implicits.
Arguments sb_state T St : clear implicits.

End Inode.
