(* ===== verification/InodeSpec.v ===== *)
(** * What inodes keep

    The layout of an inode: its two trees, the blocks they lead to, and that none
    of them is used twice; and its sums: every block of data has its checksum in
    its place.  The lemmas follow the operations of Inode on a device where
    nothing fails but the search for free blocks. *)

From Stdlib Require Import ZArith Lia.
From coqutil Require Import Byte.
From stdpp Require Import base list gmap.
From S2P Require Import Prelude XXHash Bytes StMonad Csum DioPages Dio DioInv DioSpec DioClient Mem CharHex ObjId Super BtreeNode.
From S2P Require Import BtreeNodeSpec BtreeDisk BlockTree Inode.
Import XXHash Bytes StMonad Csum ObjId DioClient Inode.
Local Open Scope Z_scope.
Local Open Scope stm_scope.

Module InodeSpec.

(** What must stay while one file changes: trees of others and the bytes of their
    blocks. *)
Class Kept (T : Type) := {
  kept_tree : T -> Z -> gmap Z Z -> Prop;
  kept_block : Z -> list byte -> Prop
}.

Section Spec.
Context {T St : Type} `{BlockTree T St} `{KT : Kept T}.
Context (e : XXH_endianess).

Local Abbreviation sb_state := (Inode.sb_state T St).
Local Abbreviation nkfs_inode := (Inode.nkfs_inode T).

(** The number of a block as a key of a tree. *)
Definition kv (v : Z) : Z := BtreeNodeSpec.key_val (BtreeDisk.nkfs_btree_key_by_u64 e v).

Lemma kv_inj v w : 0 <= v < 2 ^ 64 -> 0 <= w < 2 ^ 64 -> kv v = kv w -> v = w.
Proof.
  intros Hv Hw E. apply (BtreeDisk.key_by_u64_inj e); [done|done|]. apply BtreeNodeSpec.key_val_inj; [|done].
  pose proof (BtreeDisk.key_by_u64_ok e v). pose proof (BtreeDisk.key_by_u64_ok e w). unfold BtreeNodeSpec.key_ok in *. congruence.
Qed.

(** Blocks of a file whose checksums can be addressed. *)
Definition vrange (v : Z) : Prop := 0 <= v < 2 ^ 61.

Definition sumblk (bs v : Z) : Z := v * 8 / bs.
Definition sumoff (bs v : Z) : Z := v * 8 mod bs.

(** A block the inode does not use. *)
Definition apart (i : nkfs_inode) (tb tsb : Z) (m ms : gmap Z Z) (y : Z) : Prop :=
  y <> i_block i /\ y <> tb /\ y <> tsb /\ (forall k, m !! k <> Some y) /\ (forall k, ms !! k <> Some y).

(** Where the blocks are. *)
Record layout (s : sb_state) (p : nat) (i : nkfs_inode) (tb tsb : Z) (m ms : gmap Z Z) : Prop := {
  lay_obj : objs s !! p = Some i;
  lay_bs : bsize s = Dio.clu_size (ddev s);
  lay_page : bsize s mod 4096 = 0 /\ 4096 <= bsize s <= 65536;
  lay_st : st_ok (st s);
  lay_dev x : 0 <= x < st_size (st s) -> DioInv.idx_ok (ddev s) x;
  lay_tree : exists t, blocks_tree i = Some t /\ t_rep t (st s) tb m;
  lay_sums : exists t, blocks_sum_tree i = Some t /\ t_rep t (st s) tsb ms;
  lay_own : i_block i ∈ st_used (st s) /\ 0 < i_block i < st_size (st s) /\ tb <> tsb /\ i_block i <> tb /\ i_block i <> tsb;
  lay_data k x : m !! k = Some x -> x ∈ st_used (st s) /\ 0 < x < st_size (st s) /\ x <> i_block i /\ x <> tb /\ x <> tsb;
  lay_sum k x : ms !! k = Some x -> x ∈ st_used (st s) /\ 0 < x < st_size (st s) /\ x <> i_block i /\ x <> tb /\ x <> tsb;
  lay_inj k1 k2 x : m !! k1 = Some x -> m !! k2 = Some x -> k1 = k2;
  lay_inj_sum k1 k2 x : ms !! k1 = Some x -> ms !! k2 = Some x -> k1 = k2;
  lay_disj k1 k2 x : m !! k1 = Some x -> ms !! k2 <> Some x;
  lay_has v x : vrange v -> m !! kv v = Some x -> is_Some (ms !! kv (sumblk (bsize s) v));
  lay_kept_tree t b m' : kept_tree t b m' -> t_rep t (st s) b m' /\ apart i tb tsb m ms b;
  lay_kept_block y d : kept_block y d -> y ∈ st_used (st s) /\ 0 < y < st_size (st s) /\ apart i tb tsb m ms y
}.

(** The checksums, but for the block [exc]. *)
Definition sums (bs : Z) (a : Z -> list byte) (m ms : gmap Z Z) (exc : option Z) : Prop :=
  forall v x sx, vrange v -> exc <> Some v -> m !! kv v = Some x -> ms !! kv (sumblk bs v) = Some sx ->
  field (Z.to_nat (sumoff bs v)) 8 (a sx) = store e 8 (csum_xxh64 (a x)).

(** ** Rules *)

Lemma spec_dio {A} (m : StMonad.M Dio.dio_dev A) (s : sb_state) (Q : A -> sb_state -> Prop) :
  StMonad.spec m (ddev s) (fun a d => Q a (with_ddev d s)) -> StMonad.spec (dio m) s Q.
Proof. unfold StMonad.spec, dio. by destruct (m (ddev s)). Qed.

Lemma spec_on_store {A} (f : St -> outcome (A * St)) a x (s : sb_state) (Q : A -> sb_state -> Prop) :
  f (st s) = Ret (a, x) -> Q a (with_store x s) -> StMonad.spec (on_store f) s Q.
Proof. intros E HQ. unfold StMonad.spec, on_store. by rewrite E. Qed.

Lemma spec_iget p i (s : sb_state) (Q : nkfs_inode -> sb_state -> Prop) : objs s !! p = Some i -> Q i s -> StMonad.spec (get p) s Q.
Proof. intros E HQ. unfold StMonad.spec, get. by rewrite E. Qed.

Lemma spec_iupd p i f (s : sb_state) (Q : unit -> sb_state -> Prop) : objs s !! p = Some i ->
  Q tt (with_objs (<[p := f i]> (objs s)) s) -> StMonad.spec (upd p f) s Q.
Proof. intros E HQ. unfold StMonad.spec, upd. by rewrite E. Qed.

Lemma spec_on_tree {A} p w f i t a t' x (s : sb_state) (Q : A -> sb_state -> Prop) : objs s !! p = Some i -> get_tree w i = Some t ->
  f t (st s) = Ret (a, t', x) -> Q a (with_objs (<[p := put_tree w (Some t') i]> (objs s)) (with_store x s)) ->
  StMonad.spec (on_tree p w f) s Q.
Proof.
  intros Ei Et Ef HQ. unfold on_tree. apply spec_bind, (spec_iget p i); [done|]. rewrite Et.
  apply spec_bind. eapply spec_on_store; [exact Ef|]. apply spec_bind, (spec_iupd p i); [done|]. by apply spec_ret.
Qed.

(** ** The layout under change *)

(** Two inodes that differ in their trees' objects only. *)
Record same_file (i i' : nkfs_inode) : Prop := {
  sf_ref : i_ref i' = i_ref i;
  sf_ino : ino i' = ino i;
  sf_block : i_block i' = i_block i;
  sf_size : i_size i' = i_size i;
  sf_dirty : i_dirty i' = i_dirty i;
  sf_tb : blocks_tree_block i' = blocks_tree_block i;
  sf_tsb : blocks_sum_tree_block i' = blocks_sum_tree_block i;
  sf_sem : i_sem i' = i_sem i
}.

Lemma same_file_refl i : same_file i i.
Proof. done. Qed.

Lemma same_file_trans i1 i2 i3 : same_file i1 i2 -> same_file i2 i3 -> same_file i1 i3.
Proof. intros [] []. split; congruence. Qed.

Lemma layout_ddev s p i tb tsb m ms d : layout s p i tb tsb m ms -> DioInv.env_same (ddev s) d -> layout (with_ddev d s) p i tb tsb m ms.
Proof.
  intros [] E. split; try done; cbn [with_ddev bsize ddev st].
  - by rewrite (DioInv.env_size _ _ E).
  - intros x Hx. unfold DioInv.idx_ok. rewrite (DioInv.env_size _ _ E). by apply lay_dev0.
Qed.

Lemma place_ok s p i tb tsb m ms v : layout s p i tb tsb m ms -> vrange v ->
  nkfs_inode_block_to_sum_block v (bsize s) = Ret (sumblk (bsize s) v, sumoff (bsize s) v) /\
  0 <= sumblk (bsize s) v < 2 ^ 64 /\ 0 <= sumoff (bsize s) v /\ sumoff (bsize s) v + 8 <= bsize s /\ sumoff (bsize s) v mod 4096 + 8 <= 4096.
Proof.
  intros L Hv. destruct (lay_page _ _ _ _ _ _ _ L) as [Hp Hs]. unfold vrange in Hv. set (bs := bsize s) in *.
  unfold nkfs_inode_block_to_sum_block. rewrite wrap_small by lia. rewrite Super.nkfs_div_ok, Super.nkfs_mod_ok by lia. cbn [obind].
  split; [done|]. unfold sumblk, sumoff. assert (E : exists k, bs = 4096 * k) by (exists (bs / 4096); dlia). destruct E as [k ->].
  assert (Hk : 0 < k) by lia. assert (Hm : v * 8 mod (4096 * k) = 8 * (v mod (512 * k))).
  { replace (v * 8) with (8 * v) by lia. replace (4096 * k) with (8 * (512 * k)) by lia. rewrite Z.mul_mod_distr_l; lia. }
  rewrite Hm. pose proof (Z.mod_pos_bound v (512 * k) ltac:(lia)) as Hb.
  pose proof (Z.div_mod (v * 8) (4096 * k) ltac:(lia)) as Hd. rewrite Hm in Hd.
  split; [split; [apply Z.div_pos; lia|]; apply Z.div_lt_upper_bound; nia|]. split; [lia|]. split; [lia|].
  replace 4096 with (8 * 512) at 1 by lia. rewrite Z.mul_mod_distr_l by lia. pose proof (Z.mod_pos_bound (v mod (512 * k)) 512). lia.
Qed.

(** ** The trees *)

Lemma layout_find s p i tb tsb m ms w v (Q : Z * option Z -> sb_state -> Prop) : layout s p i tb tsb m ms ->
  (forall i' s', layout s' p i' tb tsb m ms -> same_file i i' -> ddev s' = ddev s -> mfail s' = mfail s -> bsize s' = bsize s ->
     st s' = st s ->
     Q (match (match w with Blocks => m | Sums => ms end) !! kv v with Some x => (0, Some x) | None => (- ENOENT, None) end) s') ->
  StMonad.spec (find_key e p w v) s Q.
Proof.
  intros L HQ. destruct L. destruct lay_tree0 as (t & Et & R), lay_sums0 as (ts & Ets & Rs).
  assert (Hk : BtreeNodeSpec.key_ok (BtreeDisk.nkfs_btree_key_by_u64 e v)) by apply BtreeDisk.key_by_u64_ok. unfold find_key, kv in *. destruct w.
  - destruct (t_find_ok _ t (st s) tb m Hk R) as (t' & E & R'). eapply spec_on_tree; [done|exact Et|exact E|].
    apply (HQ (set_tree (Some t') i)); try done. split; try done; cbn; [by rewrite lookup_insert_eq|by exists t'|by exists ts].
  - destruct (t_find_ok _ ts (st s) tsb ms Hk Rs) as (t' & E & R'). eapply spec_on_tree; [done|exact Ets|exact E|].
    apply (HQ (set_sum_tree (Some t') i)); try done. split; try done; cbn; [by rewrite lookup_insert_eq|by exists t|by exists t'].
Qed.

Lemma apart_data i i' tb tsb m ms y k x : apart i tb tsb m ms y -> y <> x -> apart (set_tree i' i) tb tsb (<[k := x]> m) ms y.
Proof.
  intros (? & ? & ? & Hm & ?) Hn. do 3 (split; [done|]). split; [|done]. intros j Ej. apply lookup_insert_Some in Ej as [[_ ->]|[_ Ej]]; [done|by apply Hm in Ej].
Qed.

Lemma apart_sums i i' tb tsb m ms y k x : apart i tb tsb m ms y -> y <> x -> apart (set_sum_tree i' i) tb tsb m (<[k := x]> ms) y.
Proof.
  intros (? & ? & ? & ? & Hm) Hn. do 4 (split; [done|]). intros j Ej. apply lookup_insert_Some in Ej as [[_ ->]|[_ Ej]]; [done|by apply Hm in Ej].
Qed.

(** A block in use that the inode does not use. *)
Record spare (s : sb_state) (i : nkfs_inode) (tb tsb : Z) (m ms : gmap Z Z) (x : Z) : Prop := {
  sp_used : x ∈ st_used (st s);
  sp_range : 0 < x < st_size (st s);
  sp_own : x <> i_block i /\ x <> tb /\ x <> tsb;
  sp_data k : m !! k <> Some x;
  sp_sum k : ms !! k <> Some x;
  sp_kept_tree t b m' : kept_tree t b m' -> x <> b;
  sp_kept_block y d : kept_block y d -> x <> y
}.

(** What a call that only takes blocks changes; it takes [k] blocks at most. *)
Record grows (k : nat) (s s' : sb_state) : Prop := {
  gr_ddev : ddev s' = ddev s;
  gr_mfail : mfail s' = mfail s;
  gr_bsize : bsize s' = bsize s;
  gr_size : st_size (st s') = st_size (st s);
  gr_used : st_used (st s) ⊆ st_used (st s');
  gr_room n : st_room (st s) (k + n) -> st_room (st s') n
}.

Lemma grows_refl s : grows 0 s s.
Proof. done. Qed.

Lemma grows_trans k1 k2 s1 s2 s3 : grows k1 s1 s2 -> grows k2 s2 s3 -> grows (k1 + k2) s1 s3.
Proof.
  intros [] []. split; [congruence..|by etransitivity|]. intros n R. apply gr_room1, gr_room0. by rewrite Nat.add_assoc.
Qed.

Lemma spare_grows k s s' i i' tb tsb m ms x : grows k s s' -> same_file i i' -> spare s i tb tsb m ms x -> spare s' i' tb tsb m ms x.
Proof.
  intros G F []. split; try done; [by apply (gr_used _ _ _ G)|by rewrite (gr_size _ _ _ G)|by rewrite (sf_block _ _ F)].
Qed.

Lemma layout_alloc s p i tb tsb m ms (Q : Z * Z -> sb_state -> Prop) : layout s p i tb tsb m ms ->
  (forall err x s', layout s' p i tb tsb m ms -> grows 1 s s' -> err < 0 -> (forall n, ~ st_room (st s) (S n)) -> Q (err, x) s') ->
  (forall x s', layout s' p i tb tsb m ms -> grows 1 s s' -> spare s' i tb tsb m ms x -> x ∉ st_used (st s) -> Q (0, x) s') ->
  StMonad.spec __nkfs_inode_block_alloc s Q.
Proof.
  intros L HF HQ. destruct (st_alloc_ok (st s) (lay_st _ _ _ _ _ _ _ L)) as (err & x & st' & E & O & Hs & U & R & Hc & Hroom).
  unfold __nkfs_inode_block_alloc. eapply spec_on_store; [exact E|].
  assert (G : grows 1 s (with_store st' s)) by (split; try done; intros n Hn; by apply Hroom).
  assert (L' : layout (with_store st' s) p i tb tsb m ms).
  { destruct L. split; try done; cbn [with_store st bsize ddev]; rewrite ?Hs; try done.
    - destruct lay_tree0 as (t & Et & Rt). exists t. auto.
    - destruct lay_sums0 as (t & Et & Rt). exists t. auto.
    - destruct lay_own0. split; [by apply U|done].
    - intros k y Hy. destruct (lay_data0 k y Hy). split; [by apply U|done].
    - intros k y Hy. destruct (lay_sum0 k y Hy). split; [by apply U|done].
    - intros t b m' Hk. destruct (lay_kept_tree0 t b m' Hk). auto.
    - intros y d Hk. destruct (lay_kept_block0 y d Hk). split; [by apply U|done]. }
  destruct Hc as [(-> & Hx & Hn & Hu)|He]; [|apply HF; try done; intros n Hn; destruct (Hroom n Hn); lia].
  apply HQ; [done|done| |done]. destruct L. destruct lay_tree0 as (t & _ & Rt), lay_sums0 as (ts & _ & Rs).
  destruct (t_rep_used _ _ _ _ Rt) as [Ht _], (t_rep_used _ _ _ _ Rs) as [Hts _]. split; cbn [with_store st].
  - done.
  - by rewrite Hs.
  - destruct lay_own0 as [Ho _]. split; [by intros ->|]. split; by intros ->.
  - intros k Hk. destruct (lay_data0 k x Hk). done.
  - intros k Hk. destruct (lay_sum0 k x Hk). done.
  - intros t' b m' Hk. destruct (lay_kept_tree0 t' b m' Hk) as [Rk _]. destruct (t_rep_used _ _ _ _ Rk) as [Hb _]. by intros ->.
  - intros y d Hk. destruct (lay_kept_block0 y d Hk) as [Hy _]. by intros ->.
Qed.

Lemma layout_free s p i tb tsb m ms x (Q : Z -> sb_state -> Prop) : layout s p i tb tsb m ms -> spare s i tb tsb m ms x ->
  (forall err s', layout s' p i tb tsb m ms -> ddev s' = ddev s -> mfail s' = mfail s -> bsize s' = bsize s ->
     (forall y, spare s i tb tsb m ms y -> y <> x -> spare s' i tb tsb m ms y) -> Q err s') ->
  StMonad.spec (__nkfs_inode_block_free x) s Q.
Proof.
  intros L [Hu Hr Ho Hd Hsm Hkt Hkb] HQ.
  destruct (st_free_ok x (st s) (lay_st _ _ _ _ _ _ _ L) Hu ltac:(lia)) as (err & st' & E & O & Hs & U & _ & R).
  unfold __nkfs_inode_block_free. eapply spec_on_store; [exact E|].
  assert (Hk : forall y, y ∈ st_used (st s) -> y <> x -> y ∈ st_used st') by (intros y Hy Hn; apply U; set_solver).
  apply HQ; try done.
  - destruct L. split; try done; cbn [with_store st bsize ddev]; rewrite ?Hs; try done.
    + destruct lay_tree0 as (t & Et & Rt). exists t. split; [done|]. apply R; [done|]. destruct Ho as (? & ? & ?). congruence.
    + destruct lay_sums0 as (t & Et & Rt). exists t. split; [done|]. apply R; [done|]. destruct Ho as (? & ? & ?). congruence.
    + destruct lay_own0 as [? ?]. split; [apply Hk; [done|]; destruct Ho as (? & ? & ?); congruence|done].
    + intros k y Hy. destruct (lay_data0 k y Hy). split; [apply Hk; [done|]; by intros ->; apply (Hd k)|done].
    + intros k y Hy. destruct (lay_sum0 k y Hy). split; [apply Hk; [done|]; by intros ->; apply (Hsm k)|done].
    + intros t b m' Hy. destruct (lay_kept_tree0 t b m' Hy) as (Rk & ?). split; [|done]. apply R; [done|]. apply not_eq_sym. by eapply Hkt.
    + intros y d Hy. destruct (lay_kept_block0 y d Hy) as (? & ?). split; [|done]. apply Hk; [done|]. apply not_eq_sym. by eapply Hkb.
  - intros y [] Hn. split; try done; [by apply Hk|cbn; by rewrite Hs].
Qed.

Lemma layout_insert_sum s p i tb tsb m ms v x (Q : Z -> sb_state -> Prop) : layout s p i tb tsb m ms -> spare s i tb tsb m ms x ->
  ms !! kv v = None -> (size ms < t_cap)%nat ->
  (forall i' s', layout s' p i' tb tsb m (<[kv v := x]> ms) -> same_file i i' -> grows 0 s s' ->
     (forall y, spare s i tb tsb m ms y -> y <> x -> spare s' i' tb tsb m (<[kv v := x]> ms) y) -> Q 0 s') ->
  StMonad.spec (insert_key e p Sums v x) s Q.
Proof.
  intros L [Hu Hr Ho Hd Hsm Hkt Hkb] Hno Hc HQ. pose proof L as []. destruct lay_tree0 as (t & Et & R), lay_sums0 as (ts & Ets & Rs).
  assert (Hk : BtreeNodeSpec.key_ok (BtreeDisk.nkfs_btree_key_by_u64 e v)) by apply BtreeDisk.key_by_u64_ok. unfold insert_key.
  destruct (t_insert_ok _ x ts (st s) tsb ms Hk ltac:(pose proof (st_size_ok _ lay_st0); lia) lay_st0 Rs Hno Hc) as (t' & st' & E & O & Hs & U & Rm & R' & Rf).
  eapply spec_on_tree; [done|exact Ets|exact E|]. apply (HQ (set_sum_tree (Some t') i)).
  - split; try done; cbn [with_objs with_store objs st ddev bsize put_tree]; rewrite ?Hs, ?U; try done.
    + by rewrite lookup_insert_eq.
    + exists t. split; [done|]. apply Rf; [done|]. by destruct lay_own0 as (_ & _ & ? & _).
    + by exists t'.
    + intros k y Hy. apply lookup_insert_Some in Hy as [[_ <-]|[_ Hy]]; [done|by apply (lay_sum0 k)].
    + intros k1 k2 y H1 H2. apply lookup_insert_Some in H1 as [[<- <-]|[N1 H1]], H2 as [[<- E2]|[N2 H2]]; subst; try done.
      * by apply Hsm in H2.
      * by apply Hsm in H1.
      * by eapply lay_inj_sum0.
    + intros k1 k2 y H1 H2. apply lookup_insert_Some in H2 as [[_ <-]|[_ H2]]; [by apply Hd in H1|by eapply lay_disj0].
    + intros w y Hw Hy. apply lookup_insert_is_Some'. right. by eapply lay_has0.
    + intros t2 b2 m2 Hy. destruct (lay_kept_tree0 t2 b2 m2 Hy) as (Rk & Ha). split; [apply Rf; [done|apply Ha]|].
      eapply apart_sums; [exact Ha|by eapply not_eq_sym, Hkt].
    + intros y d Hy. destruct (lay_kept_block0 y d Hy) as (? & ? & Ha). do 2 (split; [done|]).
      eapply apart_sums; [exact Ha|by eapply not_eq_sym, Hkb].
  - done.
  - split; try done. cbn. by rewrite U.
  - intros y [] Hn. split; cbn [with_objs with_store st]; rewrite ?U, ?Hs; try done.
    intros k Hy. apply lookup_insert_Some in Hy as [[_ <-]|[_ Hy]]; [done|by apply (sp_sum0 k)].
Qed.

Lemma layout_insert_data s p i tb tsb m ms v x (Q : Z -> sb_state -> Prop) : layout s p i tb tsb m ms -> spare s i tb tsb m ms x ->
  vrange v -> m !! kv v = None -> is_Some (ms !! kv (sumblk (bsize s) v)) -> (size m < t_cap)%nat ->
  (forall i' s', layout s' p i' tb tsb (<[kv v := x]> m) ms -> same_file i i' -> grows 0 s s' -> Q 0 s') ->
  StMonad.spec (insert_key e p Blocks v x) s Q.
Proof.
  intros L [Hu Hr Ho Hd Hsm Hkt Hkb] Hv Hno Hhas Hc HQ. pose proof L as []. destruct lay_tree0 as (t & Et & R), lay_sums0 as (ts & Ets & Rs).
  assert (Hk : BtreeNodeSpec.key_ok (BtreeDisk.nkfs_btree_key_by_u64 e v)) by apply BtreeDisk.key_by_u64_ok. unfold insert_key.
  destruct (t_insert_ok _ x t (st s) tb m Hk ltac:(pose proof (st_size_ok _ lay_st0); lia) lay_st0 R Hno Hc) as (t' & st' & E & O & Hs & U & Rm & R' & Rf).
  eapply spec_on_tree; [done|exact Et|exact E|]. apply (HQ (set_tree (Some t') i)).
  - split; try done; cbn [with_objs with_store objs st ddev bsize put_tree]; rewrite ?Hs, ?U; try done.
    + by rewrite lookup_insert_eq.
    + by exists t'.
    + exists ts. split; [done|]. apply Rf; [done|]. by destruct lay_own0 as (_ & _ & ? & _).
    + intros k y Hy. apply lookup_insert_Some in Hy as [[_ <-]|[_ Hy]]; [done|by apply (lay_data0 k)].
    + intros k1 k2 y H1 H2. apply lookup_insert_Some in H1 as [[<- <-]|[N1 H1]], H2 as [[<- E2]|[N2 H2]]; subst; try done.
      * by apply Hd in H2.
      * by apply Hd in H1.
      * by eapply lay_inj0.
    + intros k1 k2 y H1 H2. apply lookup_insert_Some in H1 as [[_ <-]|[_ H1]]; [by apply Hsm in H2|by eapply lay_disj0].
    + intros w y Hw Hy. apply lookup_insert_Some in Hy as [[Ek _]|[_ Hy]]; [|by eapply lay_has0].
      apply kv_inj in Ek; [by subst w|unfold vrange in *; lia..].
    + intros t2 b2 m2 Hy. destruct (lay_kept_tree0 t2 b2 m2 Hy) as (Rk & Ha). split; [apply Rf; [done|apply Ha]|].
      eapply apart_data; [exact Ha|by eapply not_eq_sym, Hkt].
    + intros y d Hy. destruct (lay_kept_block0 y d Hy) as (? & ? & Ha). do 2 (split; [done|]).
      eapply apart_data; [exact Ha|by eapply not_eq_sym, Hkb].
  - done.
  - split; try done. cbn. by rewrite U.
Qed.

End Spec.

End InodeSpec.
