(* ===== verification/InodeOps.v ===== *)
(** * The operations of an inode

    [opened s hs a ...]: the inode's layout and checksums are in order, the caller
    holds the clusters [hs], and the device holds the bytes [a].  Reading and
    writing blocks of a file are steps on this state; the only error is that no
    block is free. *)

From Stdlib Require Import ZArith Lia.
From coqutil Require Import Byte.
From stdpp Require Import base list gmap.
From S2P Require Import Prelude XXHash Bytes StMonad Csum DioPages Dio DioInv DioEvict DioSpec DioClient Mem CharHex ObjId Super.
From S2P Require Import BtreeNode BtreeNodeSpec BtreeDisk BlockTree Inode InodeSpec.
Import XXHash Bytes StMonad Csum ObjId DioClient Inode InodeSpec.
Local Open Scope Z_scope.
Local Open Scope stm_scope.

Module InodeOps.

Section Ops.
Context {T St : Type} `{BlockTree T St} `{KT : Kept T}.
Context (e : XXH_endianess) (ctx : csum_ctx) (ctx_ok : length (mem64 ctx) = 32%nat).
Context (X : Z).

Local Abbreviation sb_state := (Inode.sb_state T St).
Local Abbreviation nkfs_inode := (Inode.nkfs_inode T).
Local Abbreviation kv := (kv e).

Record opened (s : sb_state) (hs : list (nat * Z)) (a : Z -> list byte) (p : nat) (i : nkfs_inode) (tb tsb : Z)
    (m ms : gmap Z Z) (exc : option Z) : Prop := {
  op_lay : layout e s p i tb tsb m ms;
  op_cache : cache X (ddev s) hs a;
  op_sums : sums e (bsize s) a m ms exc;
  op_mem t : mfail s t = false;
  op_kept y d : kept_block y d -> a y = d
}.

Lemma opened_ddev s hs a p i tb tsb m ms exc d hs' a' exc' : opened s hs a p i tb tsb m ms exc -> DioInv.env_same (ddev s) d ->
  cache X d hs' a' -> sums e (bsize s) a' m ms exc' -> (forall y b, kept_block y b -> a' y = a y) -> opened (with_ddev d s) hs' a' p i tb tsb m ms exc'.
Proof. intros [L C S M K] E C' S' K'. split; [by apply layout_ddev|done|done|done|]. intros y b Hy. rewrite (K' y b Hy). by apply K. Qed.

(** The layout alone has changed. *)
Lemma opened_lay s hs a p i tb tsb m ms exc s' i' m' ms' exc' : opened s hs a p i tb tsb m ms exc -> layout e s' p i' tb tsb m' ms' ->
  ddev s' = ddev s -> mfail s' = mfail s -> bsize s' = bsize s -> sums e (bsize s) a m' ms' exc' ->
  opened s' hs a p i' tb tsb m' ms' exc'.
Proof. intros [L C S M K] L' Ed Em Eb S'. split; [done|by rewrite Ed|by rewrite Eb|by rewrite Em|done]. Qed.

Lemma opened_find s hs a p i tb tsb m ms exc w v (Q : Z * option Z -> sb_state -> Prop) : opened s hs a p i tb tsb m ms exc ->
  (forall i' s', opened s' hs a p i' tb tsb m ms exc -> same_file i i' -> grows 0 s s' ->
     Q (match (match w with Blocks => m | Sums => ms end) !! kv v with Some x => (0, Some x) | None => (- ENOENT, None) end) s') ->
  StMonad.spec (find_key e p w v) s Q.
Proof.
  intros O HQ. eapply layout_find; [apply O|]. intros i' s' L' F Ed Em Eb Es. apply (HQ i'); [|done|].
  - eapply opened_lay; [exact O|done..|apply O].
  - split; [done..| | |]; by rewrite Es.
Qed.

(** ** Clusters *)

Definition opened_ib (v x sb sx : Z) (c d : nat) (bs : Z) : inode_block := Ib v x sb sx (Some c) (Some d) (sumoff bs v).

Lemma spec_open_clus s a p i tb tsb m ms exc v x sb sx (Q : Z + inode_block -> sb_state -> Prop) :
  opened s [] a p i tb tsb m ms exc -> 0 < x < st_size (st s) -> 0 < sx < st_size (st s) ->
  (forall c d s', opened s' [(d, sx); (c, x)] a p i tb tsb m ms exc -> grows 0 (with_ddev (ddev s') s) s' -> bsize s' = bsize s -> st s' = st s ->
     Q (inr (opened_ib v x sb sx c d (bsize s))) s') ->
  StMonad.spec (nkfs_inode_block_open_clus (Ib v x sb sx None None (sumoff (bsize s) v))) s Q.
Proof.
  intros O Hx Hsx HQ. pose proof O as [L C S M K].
  assert (Ix : DioInv.idx_ok (ddev s) x) by (apply (lay_dev _ _ _ _ _ _ _ _ L); lia).
  assert (Isx : DioInv.idx_ok (ddev s) sx) by (apply (lay_dev _ _ _ _ _ _ _ _ L); lia). unfold nkfs_inode_block_open_clus. apply spec_bind, spec_bug_on; [done|].
  apply spec_bind, spec_dio. eapply cache_get; [exact C|done|]. intros c d1 C1 E1.
  cbn [sum_block]. apply spec_bind, spec_dio. eapply cache_get; [exact C1|by apply (DioEvict.idx_ok_env _ _ _ E1)|].
  intros d d2 C2 E2. apply spec_ret. change (with_ddev d2 (with_ddev d1 s)) with (with_ddev d2 s). apply HQ; try done. eapply opened_ddev; [exact O| |exact C2|done|done]. by eapply DioInv.env_trans.
Qed.

Lemma spec_relse s a p i tb tsb m ms exc v x sb sx c d bs (Q : unit -> sb_state -> Prop) :
  opened s [(d, sx); (c, x)] a p i tb tsb m ms exc ->
  (forall s', opened s' [] a p i tb tsb m ms exc -> st s' = st s -> bsize s' = bsize s -> objs s' = objs s -> Q tt s') ->
  StMonad.spec (nkfs_inode_block_relse (opened_ib v x sb sx c d bs)) s Q.
Proof.
  intros O HQ. pose proof O as [L C S M K]. unfold nkfs_inode_block_relse. cbn [clu sum_clu opened_ib put_opt].
  apply spec_bind, spec_dio. eapply cache_put2; [exact C|]. intros d1 C1 E1. apply spec_dio. eapply cache_put; [exact C1|].
  intros d2 C2 E2. change (with_ddev d2 (with_ddev d1 s)) with (with_ddev d2 s). apply HQ; try done. eapply opened_ddev; [exact O| |exact C2|done|done]. by eapply DioInv.env_trans.
Qed.

(** Changing the bytes of blocks the inode does not look at for its sums. *)
Lemma sums_put bs a m ms exc exc' j off buf : sums e bs a m ms exc ->
  (forall v x sx, vrange v -> exc' <> Some v -> m !! kv v = Some x -> ms !! kv (sumblk bs v) = Some sx -> exc <> Some v /\ x <> j /\
     (sx = j -> field (Z.to_nat (sumoff bs v)) 8 (memcpy_at (a j) (Z.to_nat off) buf) = field (Z.to_nat (sumoff bs v)) 8 (a j))) ->
  sums e bs (put_bytes a j off buf) m ms exc'.
Proof.
  intros S Hj v x sx Hv Hx Em Es. destruct (Hj v x sx Hv Hx Em Es) as (He & Hxj & Hsj). specialize (S v x sx Hv He Em Es).
  unfold put_bytes. rewrite (proj2 (Z.eqb_neq x j)) by done. destruct (Z.eqb_spec sx j) as [->|]; [|done]. by rewrite Hsj.
Qed.

(** A change of another block. *)
Lemma put_bytes_ne (a : Z -> list byte) x off buf y : y <> x -> put_bytes a x off buf y = a y.
Proof. intros Hn. unfold put_bytes. by rewrite (proj2 (Z.eqb_neq _ _)). Qed.

(** Places of two blocks in one block of sums. *)
Lemma sumoff_apart bs v w : 0 < bs -> bs mod 4096 = 0 -> vrange v -> vrange w -> v <> w -> sumblk bs v = sumblk bs w ->
  sumoff bs v + 8 <= sumoff bs w \/ sumoff bs w + 8 <= sumoff bs v.
Proof.
  intros Hb Hm Hv Hw Hn E. unfold sumblk, sumoff in *. pose proof (Z.div_mod (v * 8) bs ltac:(lia)). pose proof (Z.div_mod (w * 8) bs ltac:(lia)).
  rewrite E in *. lia.
Qed.

(** The checksum of a held block goes to its place. *)
Lemma spec_block_write s a p i tb tsb m ms exc v x sx c d (Q : Z -> sb_state -> Prop) :
  opened s [(d, sx); (c, x)] a p i tb tsb m ms exc -> vrange v -> exc = None \/ exc = Some v -> m !! kv v = Some x ->
  ms !! kv (sumblk (bsize s) v) = Some sx ->
  (forall s' a', opened s' [(d, sx); (c, x)] a' p i tb tsb m ms None -> (forall y, y <> sx -> a' y = a y) ->
     st s' = st s -> bsize s' = bsize s -> Q 0 s') ->
  StMonad.spec (nkfs_inode_block_write e ctx (opened_ib v x (sumblk (bsize s) v) sx c d (bsize s))) s Q.
Proof.
  intros O Hv Hexc Em Es HQ. pose proof O as [L C S M K]. destruct (place_ok _ _ _ _ _ _ _ _ _ L Hv) as (_ & _ & P1 & P2 & P3).
  assert (Hne : x <> sx) by (intros ->; by apply (lay_disj _ _ _ _ _ _ _ _ L _ _ _ Em Es)).
  unfold nkfs_inode_block_write. cbn [clu sum_clu opened_ib sum_off].
  apply spec_bind, spec_dio. eapply cache_sum; [exact C|right; by left|done|]. set (sum := csum_xxh64 (a x)).
  assert (Es0 : with_ddev (ddev s) s = s) by (by destruct s). rewrite Es0.
  apply spec_bind, spec_dio. pose proof (lay_bs _ _ _ _ _ _ _ _ L) as Hbs.
  eapply (cache_map_dirty X (ddev s) [(d, sx); (c, x)] a c x d sx); [exact C|right; by left|by left|done|done|rewrite store_length; lia|rewrite store_length; lia|rewrite store_length; lia|].
  intros d1 C1 E1. set (a1 := put_bytes a sx (sumoff (bsize s) v) (store e 8 sum)) in *.
  assert (Hin : DioInv.idx_ok (ddev s) sx) by (apply (lay_dev _ _ _ _ _ _ _ _ L); destruct (lay_sum _ _ _ _ _ _ _ _ L _ _ Es); lia).
  pose proof (cache_len _ _ _ _ _ C Hin) as Hlen.
  assert (O1 : opened (with_ddev d1 s) [(d, sx); (c, x)] a1 p i tb tsb m ms None).
  { eapply opened_ddev; [exact O|exact E1|exact C1| |
      intros y b Hy; apply put_bytes_ne; intros ->; destruct (lay_kept_block _ _ _ _ _ _ _ _ L _ _ Hy) as (_ & _ & _ & _ & _ & _ & N3); by apply N3 in Es].
    intros w y sy Hw _ Ey Esy.
    assert (Hy : y <> sx) by (intros ->; by apply (lay_disj _ _ _ _ _ _ _ _ L _ _ _ Ey Es)).
    unfold a1, put_bytes. rewrite (proj2 (Z.eqb_neq y sx)) by done. destruct (Z.eq_dec w v) as [->|Hwv].
    - rewrite Em in Ey. injection Ey as <-. rewrite Es in Esy. injection Esy as <-. rewrite Z.eqb_refl.
      rewrite <- (store_length e 8 sum) at 1. apply field_memcpy. rewrite store_length. lia.
    - assert (Hx : exc <> Some w) by (destruct Hexc as [->| ->]; congruence).
      specialize (S w y sy Hw Hx Ey Esy). destruct (Z.eqb_spec sy sx) as [->|]; [|done]. rewrite field_memcpy_ne; [done| |].
      + rewrite store_length. lia.
      + rewrite store_length. destruct (lay_page _ _ _ _ _ _ _ _ L) as [Hp1 Hp2].
        destruct (place_ok _ _ _ _ _ _ _ _ _ L Hw) as (_ & B1 & Q1 & Q2 & _). destruct (place_ok _ _ _ _ _ _ _ _ _ L Hv) as (_ & B2 & _).
        assert (Eb : sumblk (bsize s) w = sumblk (bsize s) v).
        { apply (kv_inj e); [done|done|]. by eapply (lay_inj_sum _ _ _ _ _ _ _ _ L). }
        destruct (sumoff_apart (bsize s) w v ltac:(lia) Hp1 Hw Hv Hwv Eb); lia. }
  apply spec_bind, spec_dio. eapply cache_sync; [exact C1|right; by left|]. intros d2 C2 E2. cbn [Z.eqb].
  apply spec_dio. eapply cache_sync; [exact C2|by left|]. intros d3 C3 E3.
  change (with_ddev d3 (with_ddev d2 (with_ddev d1 s))) with (with_ddev d3 (with_ddev d1 s)). apply (HQ _ a1); try done.
  - eapply (opened_ddev (with_ddev d1 s)) in O1; [exact O1| |exact C3|apply O1|done]. cbn. by eapply DioInv.env_trans.
  - intros y Hy. unfold a1, put_bytes. by rewrite (proj2 (Z.eqb_neq y sx)).
Qed.

Lemma spec_check_sum s a p i tb tsb m ms v x sx c d sb (Q : Z -> sb_state -> Prop) :
  opened s [(d, sx); (c, x)] a p i tb tsb m ms None -> vrange v -> m !! kv v = Some x ->
  ms !! kv (sumblk (bsize s) v) = Some sx -> Q 0 s ->
  StMonad.spec (nkfs_inode_block_check_sum e ctx (opened_ib v x sb sx c d (bsize s))) s Q.
Proof.
  intros O Hv Em Es HQ. pose proof O as [L C S M K]. destruct (place_ok _ _ _ _ _ _ _ _ _ L Hv) as (_ & _ & P1 & P2 & P3).
  pose proof (lay_bs _ _ _ _ _ _ _ _ L) as Hbs. assert (Es0 : with_ddev (ddev s) s = s) by (by destruct s).
  unfold nkfs_inode_block_check_sum. cbn [clu sum_clu opened_ib sum_off].
  apply spec_bind, spec_dio. eapply cache_sum; [exact C|right; by left|done|]. rewrite Es0.
  apply spec_bind, spec_dio. eapply (cache_map_read X (ddev s) _ a d sx); [exact C|by left|done|lia|lia|done|]. rewrite Es0.
  apply spec_ret. change (Z.to_nat 8) with 8%nat. by rewrite (S v x sx Hv ltac:(done) Em Es), bool_decide_eq_true_2.
Qed.

(** ** Finding and making blocks *)

(** The store has not shrunk; [k] blocks at most have been taken. *)
Definition wider (k : nat) (s s' : sb_state) : Prop :=
  bsize s' = bsize s /\ st_size (st s') = st_size (st s) /\ st_used (st s) ⊆ st_used (st s') /\
  forall n, st_room (st s) (k + n) -> st_room (st s') n.

Lemma grows_wider k s s' : grows k s s' -> wider k s s'.
Proof. intros []. done. Qed.

Lemma wider_trans k1 k2 s1 s2 s3 : wider k1 s1 s2 -> wider k2 s2 s3 -> wider (k1 + k2) s1 s3.
Proof.
  intros (H1 & H2 & H3 & R1) (H4 & H5 & H6 & R2). split; [congruence|]. split; [congruence|]. split; [by etransitivity|].
  intros n R. apply R2, R1. by rewrite Nat.add_assoc.
Qed.

Lemma room_le (x : St) n n' : (n <= n')%nat -> st_room x n' -> st_room x n.
Proof. induction 1; [done|]. intros R. by apply IHle, st_room_mono. Qed.

Lemma wider_le k k' s s' : (k <= k')%nat -> wider k s s' -> wider k' s s'.
Proof. intros Hk (H1 & H2 & H3 & R). do 3 (split; [done|]). intros n Hn. apply R. eapply room_le; [|exact Hn]. lia. Qed.

Lemma wider_eq s s' : bsize s' = bsize s -> st s' = st s -> wider 0 s s'.
Proof. unfold wider. by intros -> ->. Qed.

Lemma spec_block_read s a p i tb tsb m ms v (Q : Z + inode_block -> sb_state -> Prop) :
  opened s [] a p i tb tsb m ms None -> vrange v ->
  (forall i' s', m !! kv v = None -> opened s' [] a p i' tb tsb m ms None -> same_file i i' -> grows 0 s s' -> Q (inl (- ENOENT)) s') ->
  (forall x sx c d i' s', m !! kv v = Some x -> ms !! kv (sumblk (bsize s) v) = Some sx ->
     opened s' [(d, sx); (c, x)] a p i' tb tsb m ms None -> same_file i i' -> wider 0 s s' ->
     Q (inr (opened_ib v x (sumblk (bsize s) v) sx c d (bsize s))) s') ->
  StMonad.spec (nkfs_inode_block_read e p v) s Q.
Proof.
  intros O Hv HN HQ. unfold nkfs_inode_block_read. apply spec_bind. eapply opened_find; [exact O|]. intros i1 s1 O1 F1 G1.
  destruct (m !! kv v) as [x|] eqn:Em; cbn [fst snd default]; [|apply spec_ret; by apply (HN i1)]. cbn [Z.eqb negb].
  apply spec_bind, spec_gets. apply spec_bind. destruct (place_ok _ _ _ _ _ _ _ _ _ (op_lay _ _ _ _ _ _ _ _ _ _ O1) Hv) as (Ep & _).
  eapply spec_lift; [exact Ep|]. cbn [fst snd]. rewrite (gr_bsize _ _ _ G1).
  apply spec_bind. eapply opened_find; [exact O1|]. intros i2 s2 O2 F2 G2.
  destruct (lay_has _ _ _ _ _ _ _ _ (op_lay _ _ _ _ _ _ _ _ _ _ O) v x Hv Em) as [sx Es]. rewrite Es. cbn [fst snd default Z.eqb negb].
  pose proof (op_lay _ _ _ _ _ _ _ _ _ _ O2) as L2. pose proof (grows_trans _ _ _ _ _ G1 G2) as G. rewrite <- (gr_bsize _ _ _ G).
  eapply spec_open_clus; [exact O2|by destruct (lay_data _ _ _ _ _ _ _ _ L2 _ _ Em) as (_ & ? & _)|by destruct (lay_sum _ _ _ _ _ _ _ _ L2 _ _ Es) as (_ & ? & _)|].
  intros c d s3 O3 _ Eb3 Est3. rewrite (gr_bsize _ _ _ G). eapply (HQ x sx c d i2); try done.
  - by eapply same_file_trans.
  - apply (wider_trans 0 0 _ s2); [by apply grows_wider|by apply wider_eq].
Qed.

(** From the block of sums on. *)
Lemma spec_alloc_open s a p i tb tsb m ms v x sx new (Q : Z + inode_block -> sb_state -> Prop) :
  opened s [] a p i tb tsb m ms None -> spare s i tb tsb m ms x -> vrange v -> m !! kv v = None -> (size m < t_cap)%nat ->
  ms !! kv (sumblk (bsize s) v) = Some sx ->
  (forall c d i' s', opened s' [(d, sx); (c, x)] a p i' tb tsb (<[kv v := x]> m) ms (Some v) -> same_file i i' -> wider 0 s s' ->
     Q (inr (opened_ib v x (sumblk (bsize s) v) sx c d (bsize s))) s') ->
  StMonad.spec (alloc_open e p (Ib v x (sumblk (bsize s) v) sx None None (sumoff (bsize s) v)) new) s Q.
Proof.
  intros O Hx Hv Em Hc Es HQ. pose proof (op_lay _ _ _ _ _ _ _ _ _ _ O) as L. unfold alloc_open. apply spec_bind.
  eapply spec_open_clus; [exact O|apply Hx|by destruct (lay_sum _ _ _ _ _ _ _ _ L _ _ Es) as (_ & ? & _)|]. intros c d s1 O1 _ Eb1 Est1.
  cbn [opened_ib vblock ib_block]. apply spec_bind.
  eapply layout_insert_data; [apply O1| |done|done|by rewrite Eb1, Es|done|].
  { destruct Hx. split; try done; by rewrite Est1. }
  intros i2 s2 L2 F2 G2. cbn [Z.eqb negb]. apply spec_ret. apply (HQ c d i2); [|done|].
  - eapply opened_lay; [exact O1|exact L2|apply G2|apply G2|apply G2|]. intros w y sy Hw Hn Ey Esy.
    apply (op_sums _ _ _ _ _ _ _ _ _ _ O1 w y sy); [done|done| |done].
    apply lookup_insert_Some in Ey as [[Ek _]|[_ Ey]]; [|done]. destruct Hn. f_equal. apply (kv_inj e); [unfold vrange in *; lia..|done].
  - apply (wider_trans 0 0 _ s1); [by apply wider_eq|]. by apply grows_wider.
Qed.

Lemma spec_block_alloc s a p i tb tsb m ms v (Q : Z + inode_block -> sb_state -> Prop) :
  opened s [] a p i tb tsb m ms None -> vrange v -> m !! kv v = None -> (size m < t_cap)%nat -> (size ms < t_cap)%nat ->
  (forall err i' s', err < 0 -> ~ st_room (st s) 2 -> opened s' [] a p i' tb tsb m ms None -> same_file i i' -> bsize s' = bsize s -> Q (inl err) s') ->
  (forall x sx c d i' ms' s', x ∉ st_used (st s) -> opened s' [(d, sx); (c, x)] a p i' tb tsb (<[kv v := x]> m) ms' (Some v) ->
     ms' !! kv (sumblk (bsize s) v) = Some sx -> (size ms' <= S (size ms))%nat -> same_file i i' -> wider 2 s s' ->
     Q (inr (opened_ib v x (sumblk (bsize s) v) sx c d (bsize s))) s') ->
  StMonad.spec (nkfs_inode_block_alloc e p v) s Q.
Proof.
  intros O Hv Em Hc Hcs HF HQ. unfold nkfs_inode_block_alloc. apply spec_bind.
  eapply layout_alloc; [apply O| |].
  { intros err x s1 L1 G1 He Hno. cbn [fst]. rewrite (proj2 (Z.eqb_neq err 0)) by lia. apply spec_ret. apply (HF err i); [done|apply Hno| |done|apply G1].
    eapply opened_lay; [exact O|exact L1|apply G1..|apply O]. }
  intros x s1 L1 G1 Hx Hxn. cbn [fst snd Z.eqb negb].
  assert (O1 : opened s1 [] a p i tb tsb m ms None) by (eapply opened_lay; [exact O|exact L1|apply G1..|apply O]).
  apply spec_bind, spec_gets. apply spec_bind. destruct (place_ok _ _ _ _ _ _ _ _ _ L1 Hv) as (Ep & Pb & _). eapply spec_lift; [exact Ep|]. cbn [fst snd].
  apply spec_bind. eapply opened_find; [exact O1|]. intros i2 s2 O2 F2 G2. pose proof (grows_trans _ _ _ _ _ G1 G2) as G12.
  pose proof (spare_grows _ _ _ _ _ _ _ _ _ _ G2 F2 Hx) as Hx2. pose proof (gr_bsize _ _ _ G12) as B2. pose proof (gr_bsize _ _ _ G1) as B1.
  destruct (ms !! kv (sumblk (bsize s1) v)) as [sx|] eqn:Es; cbn [fst snd default Z.eqb negb].
  - rewrite B1 in Es |- *. rewrite <- B2 in Es |- *. eapply spec_alloc_open; [exact O2|exact Hx2|done|done|done|exact Es|].
    intros c d i3 s3 O3 F3 W3. rewrite B2. apply (HQ x sx c d i3 ms); try done; [by rewrite <- B2|lia|by eapply same_file_trans|].
    eapply (wider_le (1 + 0 + 0)); [lia|]. eapply wider_trans; [by apply grows_wider|done].
  - apply spec_bind. eapply layout_alloc; [apply O2| |].
    + intros err y s3 L3 G3 He Hno. cbn [fst]. rewrite (proj2 (Z.eqb_neq err 0)) by lia. unfold alloc_fail. cbn [negb].
      apply spec_bind, spec_ret. apply spec_bind, spec_ret. apply spec_bind. cbn [ib_block].
      eapply (layout_free e s3 p i2); [exact L3|by apply (spare_grows 1 s2 s3 i2 i2)|]. intros err' s4 L4 E4 M4 B4 _.
      apply spec_bind. unfold nkfs_inode_block_relse. cbn [clu sum_clu put_opt]. apply spec_bind, spec_ret, spec_ret, spec_ret.
      apply (HF err i2); [done|intros R; apply (Hno 0%nat), (gr_room _ _ _ G12), R| |done|by rewrite B4, (gr_bsize _ _ _ G3)].
      eapply opened_lay; [exact O2|exact L4|by rewrite E4, (gr_ddev _ _ _ G3)|by rewrite M4, (gr_mfail _ _ _ G3)|by rewrite B4, (gr_bsize _ _ _ G3)|apply O2].
    + intros y s3 L3 G3 Hy Hyn. cbn [fst snd Z.eqb negb]. apply spec_bind.
      assert (Hxy : x <> y) by (intros ->; by apply Hyn, Hx2).
      eapply (layout_insert_sum e s3); [exact L3|exact Hy|by rewrite <- B1 in *|done|].
      intros i4 s4 L4 F4 G4 Hsp. cbn [Z.eqb negb]. rewrite B1 in *. pose proof (grows_trans _ _ _ _ _ G3 G4) as G34.
      assert (B4 : bsize s4 = bsize s) by (by rewrite (gr_bsize _ _ _ G34)).
      assert (O4 : opened s4 [] a p i4 tb tsb m (<[kv (sumblk (bsize s) v) := y]> ms) None).
      { eapply opened_lay; [exact O2|exact L4|apply G34..|]. intros w z sz Hw _ Ez Esz.
        apply (op_sums _ _ _ _ _ _ _ _ _ _ O2 w z sz Hw ltac:(done) Ez). rewrite B2 in Esz |- *.
        apply lookup_insert_Some in Esz as [[Ek _]|[_ Esz]]; [|done].
        destruct (lay_has _ _ _ _ _ _ _ _ (op_lay _ _ _ _ _ _ _ _ _ _ O2) w z Hw Ez) as [u Eu]. rewrite B2, <- Ek, Es in Eu. done. }
      rewrite <- B4. eapply (spec_alloc_open s4); [exact O4|by apply Hsp; [apply (spare_grows 1 s2 s3 i2 i2)|]|done|done|done|rewrite B4; apply lookup_insert_eq|].
      intros c d i5 s5 O5 F5 W5. rewrite B4. eapply (HQ x y c d i5); [done|exact O5|apply lookup_insert_eq| | |].
      * rewrite map_size_insert_None by done. lia.
      * eapply same_file_trans; [exact F2|]. by eapply same_file_trans.
      * apply (wider_trans (1 + 0) (1 + 0) _ s2); [by apply grows_wider|]. apply (wider_trans (1 + 0) 0 _ s4); [by apply grows_wider|done].
Qed.

End Ops.

End InodeOps.
