(* ===== verification/InodeIo.v ===== *)
(** * Reading and writing a file

    [inode_file s p i n f]: the inode [p] is at rest, stands for the file whose
    blocks are [f], has at most [n] blocks of data, and its header is on the
    device.  [nkfs_inode_write_block_buf] and [nkfs_inode_read_block_buf] are
    writing and reading in [f]. *)

From Stdlib Require Import ZArith Lia.
From coqutil Require Import Byte.
From stdpp Require Import base list gmap.
From S2P Require Import Prelude XXHash Bytes StMonad Csum DioPages Dio DioInv DioEvict DioSpec DioClient Mem CharHex ObjId Super.
From S2P Require Import BtreeNode BtreeNodeSpec BtreeDisk BlockTree Inode InodeSpec InodeOps.
Import XXHash Bytes StMonad Csum ObjId DioClient Inode InodeSpec InodeOps.
Local Open Scope Z_scope.
Local Open Scope stm_scope.

Module InodeIo.

Section Io.
Context {T St : Type} `{BlockTree T St} `{KT : Kept T}.
Context (e : XXH_endianess) (ctx : csum_ctx) (ctx_ok : length (mem64 ctx) = 32%nat).
Context (X : Z).

Local Abbreviation sb_state := (Inode.sb_state T St).
Local Abbreviation nkfs_inode := (Inode.nkfs_inode T).
Local Abbreviation kv := (kv e).
Local Abbreviation opened := (opened e X).

(** ** Changing the inode itself *)

(** The trees and the place on disk stay. *)
Record same_place (i i' : nkfs_inode) : Prop := {
  pl_block : i_block i' = i_block i;
  pl_tree : blocks_tree i' = blocks_tree i;
  pl_sums : blocks_sum_tree i' = blocks_sum_tree i
}.

Lemma opened_upd s hs a p i i' tb tsb m ms exc : opened s hs a p i tb tsb m ms exc -> same_place i i' ->
  opened (with_objs (<[p := i']> (objs s)) s) hs a p i' tb tsb m ms exc.
Proof.
  intros [L C S M K] [E1 E2 E3]. split; try done. destruct L. split; try done; cbn [with_objs objs]; unfold apart in *; rewrite ?E1, ?E2, ?E3; try done.
  by rewrite lookup_insert_eq.
Qed.

Lemma opened_obj s hs a p i tb tsb m ms exc : opened s hs a p i tb tsb m ms exc -> objs s !! p = Some i.
Proof. intros O. apply O. Qed.

(** The header on disk. *)
Lemma to_on_disk_length i : length (nkfs_inode_to_on_disk (T := T) e ctx i) = 56%nat.
Proof.
  unfold nkfs_inode_to_on_disk, inode_fields. cbn [app concat]. by rewrite !length_app, !be_length, !store_length.
Qed.

Lemma spec_inode_write s hs a p i tb tsb m ms exc (Q : Z -> sb_state -> Prop) : opened s hs a p i tb tsb m ms exc ->
  (forall s', opened s' hs (put_bytes a (i_block i) 0 (nkfs_inode_to_on_disk e ctx i)) p i tb tsb m ms exc ->
     wider 0 s s' -> objs s' = objs s -> inodes s' = inodes s -> inodes_active s' = inodes_active s -> Q 0 s') ->
  StMonad.spec (nkfs_inode_write e ctx p) s Q.
Proof.
  intros O HQ. pose proof O as [L C S M K]. destruct (lay_own _ _ _ _ _ _ _ _ L) as (_ & Hr & _).
  destruct (lay_page _ _ _ _ _ _ _ _ L) as [_ Hp]. pose proof (lay_bs _ _ _ _ _ _ _ _ L) as Hbs.
  assert (Hx : DioInv.idx_ok (ddev s) (i_block i)) by (apply (lay_dev _ _ _ _ _ _ _ _ L); lia).
  unfold nkfs_inode_write. apply spec_bind, (spec_iget p i); [apply L|]. apply spec_bind, spec_bug_on; [lia|].
  apply spec_bind, spec_dio. eapply cache_get; [exact C|done|]. intros c d1 C1 E1.
  apply spec_bind. unfold StMonad.spec at 1, mfails. cbn [with_ddev mfail mtick]. rewrite M.
  apply spec_bind, spec_dio. cbn [with_mtick with_ddev ddev]. eapply (cache_write X d1); [exact C1|by left|done|rewrite to_on_disk_length, (DioInv.env_size _ _ E1); lia|].
  intros d2 C2 E2. cbn [Z.eqb negb]. apply spec_bind, spec_dio. cbn [with_mtick with_ddev ddev]. eapply cache_sync; [exact C2|by left|]. intros d3 C3 E3.
  apply spec_bind, spec_dio. cbn [with_mtick with_ddev ddev]. eapply cache_put; [exact C3|]. intros d4 C4 E4. apply spec_ret.
  assert (E04 : DioInv.env_same (ddev s) d4).
  { eapply DioInv.env_trans; [exact E1|]. eapply DioInv.env_trans; [exact E2|]. by eapply DioInv.env_trans. }
  apply HQ; [|done..]. pose proof (layout_ddev _ _ _ _ _ _ _ _ _ L E04) as L4. split; [by destruct L4|exact C4| |done|].
  2:{ intros y b Hy. rewrite put_bytes_ne; [by apply K|]. intros ->. by destruct (lay_kept_block _ _ _ _ _ _ _ _ L _ _ Hy) as (_ & _ & N1 & _). }
  cbn [bsize]. eapply sums_put; [exact S|]. intros v x sx Hv Hn Em Es. split; [done|].
  destruct (lay_data _ _ _ _ _ _ _ _ L _ _ Em) as (_ & _ & ? & _). split; [done|]. intros ->.
  destruct (lay_sum _ _ _ _ _ _ _ _ L _ _ Es) as (_ & _ & ? & _). done.
Qed.

(** ** A block to write to *)

(** How the block of [v] was found or made. *)
Record got (s : sb_state) (a : Z -> list byte) (m ms : gmap Z Z) (v x sx : Z) (a' : Z -> list byte) (m' ms' : gmap Z Z) : Prop := {
  got_m : m' = <[kv v := x]> m;
  got_x : m !! kv v = Some x \/ (m !! kv v = None /\ x ∉ st_used (st s));
  got_sx : ms' !! kv (sumblk (bsize s) v) = Some sx;
  got_a y : y <> sx -> a' y = a y;
  got_ms : (size ms' <= S (size ms))%nat
}.

Lemma spec_read_create s a p i tb tsb m ms v (Q : Z + inode_block -> sb_state -> Prop) :
  opened s [] a p i tb tsb m ms None -> vrange v -> (size m < t_cap)%nat -> (size ms < t_cap)%nat ->
  (forall err i' s', err < 0 -> ~ st_room (st s) 2 -> m !! kv v = None -> opened s' [] a p i' tb tsb m ms None -> same_file i i' -> bsize s' = bsize s -> Q (inl err) s') ->
  (forall x sx c d i' s' a' m' ms', opened s' [(d, sx); (c, x)] a' p i' tb tsb m' ms' None -> got s a m ms v x sx a' m' ms' ->
     same_file i i' -> wider 2 s s' -> Q (inr (opened_ib v x (sumblk (bsize s) v) sx c d (bsize s))) s') ->
  StMonad.spec (nkfs_inode_block_read_create e ctx p v) s Q.
Proof.
  intros O Hv Hc Hcs HF HQ. unfold nkfs_inode_block_read_create. apply spec_bind. eapply (spec_block_read e ctx ctx_ok X); [exact O|done| |].
  - intros i1 s1 Em O1 F1 G1. apply spec_bind. pose proof (gr_bsize _ _ _ G1) as B1.
    eapply (spec_block_alloc e ctx ctx_ok X); [exact O1|done|done|done|done| |].
    + intros err i2 s2 He Hno O2 F2 B2. apply spec_ret. eapply HF; [done|intros R; by apply Hno, (gr_room _ _ _ G1)|done|exact O2|by eapply same_file_trans|congruence].
    + intros x sx c d i2 ms2 s2 Hx O2 Es Hsz F2 W2. apply spec_bind. rewrite B1 in *.
      assert (B2 : bsize s2 = bsize s) by (by rewrite (proj1 W2)). rewrite <- B2.
      eapply (spec_block_write e ctx ctx_ok X); [exact O2|done|by right|apply lookup_insert_eq|by rewrite B2|].
      intros s3 a3 O3 A3 St3 B3. cbn [Z.eqb negb]. apply spec_ret. rewrite B2. eapply HQ; [exact O3| |by eapply same_file_trans|].
      * split; try done. right. split; [done|]. intros Hu. apply Hx. by apply (gr_used _ _ _ G1).
      * apply (wider_trans 0 2 _ s1); [by apply grows_wider|]. apply (wider_trans 2 0 _ s2); [exact W2|]. by apply wider_eq.
  - intros x sx c d i1 s1 Em Es O1 F1 W1. apply spec_bind. assert (B1 : bsize s1 = bsize s) by apply W1. rewrite <- B1.
    eapply (spec_check_sum e ctx ctx_ok X); [exact O1|done|done|by rewrite B1|]. cbn [Z.eqb negb]. apply spec_ret. rewrite B1.
    eapply HQ; [exact O1| |done|eapply wider_le; [..|exact W1]; [done|lia]]. split; try done; [by rewrite insert_id|by left|lia].
Qed.

(** ** Files *)

Definition content (a : Z -> list byte) (m : gmap Z Z) (v : Z) : option (list byte) := x ← m !! kv v; Some (a x).

Definition inode_file (s : sb_state) (p : nat) (i : nkfs_inode) (n : nat) (f : Z -> option (list byte)) : Prop :=
  exists a tb tsb m ms, opened s [] a p i tb tsb m ms None /\ (size m <= n)%nat /\ (size ms <= n)%nat /\
  (forall v, vrange v -> f v = content a m v) /\
  i_dirty i = false /\ field 0 56 (a (i_block i)) = nkfs_inode_to_on_disk e ctx i /\
  blocks_tree_block i = tb /\ blocks_sum_tree_block i = tsb.

(** Which object, and where. *)
Record same_id (i i' : nkfs_inode) : Prop := {
  id_ref : i_ref i' = i_ref i;
  id_ino : ino i' = ino i;
  id_block : i_block i' = i_block i;
  id_tb : blocks_tree_block i' = blocks_tree_block i;
  id_tsb : blocks_sum_tree_block i' = blocks_sum_tree_block i
}.

Lemma same_file_id i i' : same_file i i' -> same_id i i'.
Proof. by intros []. Qed.

Lemma same_id_trans i1 i2 i3 : same_id i1 i2 -> same_id i2 i3 -> same_id i1 i3.
Proof. intros [] []. split; congruence. Qed.

Lemma to_on_disk_same i i' : same_id i i' -> i_size i' = i_size i -> nkfs_inode_to_on_disk e ctx i' = nkfs_inode_to_on_disk (T := T) e ctx i.
Proof. intros [] Hs. unfold nkfs_inode_to_on_disk, inode_fields. by rewrite id_ino0, id_tb0, id_tsb0, Hs. Qed.

(** ** Writing to a block *)

(** Other blocks of the file do not change with the block [x]. *)
Lemma content_put s hs a p i tb tsb m ms exc v x off buf w : opened s hs a p i tb tsb m ms exc -> vrange v -> vrange w ->
  m !! kv v = Some x -> content (put_bytes a x off buf) m w = if w =? v then Some (memcpy_at (a x) (Z.to_nat off) buf) else content a m w.
Proof.
  intros O Hv Hw Em. unfold content, put_bytes. destruct (Z.eqb_spec w v) as [->|Hn]; [rewrite Em; cbn; by rewrite Z.eqb_refl|].
  destruct (m !! kv w) as [y|] eqn:Ey; [|done]. cbn. destruct (Z.eqb_spec y x) as [->|]; [|done].
  destruct Hn. apply (kv_inj e); [unfold vrange in *; lia..|]. by eapply (lay_inj _ _ _ _ _ _ _ _ (op_lay _ _ _ _ _ _ _ _ _ _ _ _ O)).
Qed.

(** A change outside the blocks of data. *)
Lemma content_same s hs a a' p i tb tsb m ms exc w : opened s hs a' p i tb tsb m ms exc ->
  (forall k x, m !! k = Some x -> a' x = a x) -> content a' m w = content a m w.
Proof. intros O Ha. unfold content. destruct (m !! kv w) as [y|] eqn:Ey; [|done]. cbn. by rewrite (Ha _ _ Ey). Qed.

(** The data go into the held block, then its checksum. *)
Lemma spec_write_held s a p i tb tsb m ms v x sx c d off buf (Q : Z -> sb_state -> Prop) :
  opened s [(d, sx); (c, x)] a p i tb tsb m ms None -> vrange v -> m !! kv v = Some x -> ms !! kv (sumblk (bsize s) v) = Some sx ->
  0 <= off -> off + Z.of_nat (length buf) <= bsize s ->
  (forall s' a', opened s' [(d, sx); (c, x)] a' p i tb tsb m ms None -> (forall y, y <> sx -> a' y = put_bytes a x off buf y) -> wider 0 s s' -> Q 0 s') ->
  StMonad.spec (let* err := dio (Dio.dio_clu_write c buf off) in
    if negb (err =? 0) then ret err else nkfs_inode_block_write e ctx (opened_ib v x (sumblk (bsize s) v) sx c d (bsize s))) s Q.
Proof.
  intros O Hv Em Es H1 H2 HQ. pose proof O as [L C S M K]. pose proof (lay_bs _ _ _ _ _ _ _ _ L) as Hbs.
  apply spec_bind, spec_dio. eapply (cache_write X (ddev s)); [exact C|right; by left|done|by rewrite <- Hbs|]. intros d1 C1 E1. cbn [Z.eqb negb].
  assert (O1 : opened (with_ddev d1 s) [(d, sx); (c, x)] (put_bytes a x off buf) p i tb tsb m ms (Some v)).
  { eapply opened_ddev; [exact O|exact E1|exact C1| |
      intros y b Hy; apply put_bytes_ne; intros ->; destruct (lay_kept_block _ _ _ _ _ _ _ _ L _ _ Hy) as (_ & _ & _ & _ & _ & N2 & _); by apply N2 in Em].
    eapply sums_put; [exact S|]. intros w y sy Hw Hn Ey Esy. split; [done|]. split.
    - intros ->. apply Hn. f_equal. apply (kv_inj e); [unfold vrange in *; lia..|]. by eapply (lay_inj _ _ _ _ _ _ _ _ L).
    - intros ->. by destruct (lay_disj _ _ _ _ _ _ _ _ L _ _ _ Em Esy). }
  eapply (spec_block_write e ctx ctx_ok X (with_ddev d1 s)); [exact O1|done|by right|done|done|].
  intros s2 a2 O2 A2 St2 B2. apply (HQ s2 a2); [done|done|]. by apply wider_eq.
Qed.

(** The size of the file follows the data. *)
Lemma spec_grow s hs a p i tb tsb m ms data_end (Q : Z -> sb_state -> Prop) : opened s hs a p i tb tsb m ms None -> i_sem i = 0 ->
  i_dirty i = false -> field 0 56 (a (i_block i)) = nkfs_inode_to_on_disk e ctx i ->
  (forall i' a' s', opened s' hs a' p i' tb tsb m ms None -> same_id i i' -> i_sem i' = 0 -> i_dirty i' = false ->
     i_size i' = Z.max (i_size i) data_end -> field 0 56 (a' (i_block i')) = nkfs_inode_to_on_disk e ctx i' ->
     (forall y, y <> i_block i -> a' y = a y) -> wider 0 s s' -> Q 0 s') ->
  StMonad.spec (do* down_write p in let* i := get p in
    if i_size i <? data_end then do* nkfs_inode_set_size p data_end in nkfs_inode_write_dirty e ctx p else ret 0) s Q.
Proof.
  intros O Hs Hd Hh HQ. pose proof (opened_obj _ _ _ _ _ _ _ _ _ _ O) as E.
  unfold down_write. apply spec_bind, spec_bind, (spec_iget p i); [done|]. rewrite Hs. apply spec_ret.
  apply spec_bind, (spec_iget p i); [done|]. destruct (Z.ltb_spec (i_size i) data_end) as [Hl|Hl].
  2:{ apply spec_ret. apply (HQ i a); try done. lia. }
  unfold nkfs_inode_set_size. apply spec_bind, spec_bind, (spec_iget p i); [done|]. rewrite (proj2 (Z.eqb_neq _ _)) by lia. cbn [negb].
  apply (spec_iupd p i); [done|]. set (i1 := set_size data_end true i).
  assert (O1 : opened (with_objs (<[p := i1]> (objs s)) s) hs a p i1 tb tsb m ms None) by (by apply (opened_upd s hs a p i)).
  unfold nkfs_inode_write_dirty. apply spec_bind, (spec_iget p i1); [apply lookup_insert_eq|]. cbn [i_dirty i1 set_size negb].
  apply spec_bind. eapply spec_inode_write; [exact O1|]. intros s2 O2 W2 Eo2 _ _. cbn [Z.eqb].
  apply spec_bind, (spec_iupd p i1); [apply (opened_obj _ _ _ _ _ _ _ _ _ _ O2)|]. apply spec_ret. set (i2 := set_size data_end false i).
  change (Q 0 (with_objs (<[p := i2]> (objs s2)) s2)).
  pose proof (op_lay _ _ _ _ _ _ _ _ _ _ _ _ O) as L. destruct (lay_own _ _ _ _ _ _ _ _ L) as (_ & Hr & _).
  assert (Hx : DioInv.idx_ok (ddev s) (i_block i)) by (apply (lay_dev _ _ _ _ _ _ _ _ L); lia).
  pose proof (cache_len _ _ _ _ _ (op_cache _ _ _ _ _ _ _ _ _ _ _ _ O) Hx) as Hlen.
  destruct (lay_page _ _ _ _ _ _ _ _ L) as [_ Hp]. rewrite (lay_bs _ _ _ _ _ _ _ _ L) in Hp.
  apply (HQ i2 (put_bytes a (i_block i) 0 (nkfs_inode_to_on_disk e ctx i1))); try done.
  - by apply (opened_upd s2 hs _ p i1).
  - cbn. lia.
  - cbn [i_block i2 set_size]. unfold put_bytes. rewrite Z.eqb_refl. change (nkfs_inode_to_on_disk e ctx i2) with (nkfs_inode_to_on_disk e ctx i1).
    rewrite <- (to_on_disk_length i1) at 1. apply field_memcpy. rewrite to_on_disk_length. lia.
  - intros y Hy. unfold put_bytes. by rewrite (proj2 (Z.eqb_neq _ _)).
Qed.

Lemma opened_block_len s hs a p i tb tsb m ms exc k x : opened s hs a p i tb tsb m ms exc -> m !! k = Some x ->
  Z.of_nat (length (a x)) = bsize s.
Proof.
  intros [L C _ _ _] Em. rewrite (lay_bs _ _ _ _ _ _ _ _ L). apply (cache_len _ _ _ _ _ C). apply (lay_dev _ _ _ _ _ _ _ _ L).
  destruct (lay_data _ _ _ _ _ _ _ _ L _ _ Em) as (_ & ? & _). lia.
Qed.

(** Writing part of a block: the block, made if it was not there, has the bytes;
    without a free block nothing has changed. *)
Definition wrote (s : sb_state) (p : nat) (i : nkfs_inode) (n : nat) (f : Z -> option (list byte)) (v off : Z) (buf : list byte)
    (r : Z + Z) (s' : sb_state) : Prop :=
  exists i', same_id i i' /\ i_sem i' = 0 /\ bsize s' = bsize s /\
  match r with
  | inr k => k = Z.of_nat (length buf) /\ i_size i' = Z.max (i_size i) (v * bsize s + off + Z.of_nat (length buf)) /\
      (forall n, st_room (st s) (2 + n) -> st_room (st s') n) /\
      exists base, Z.of_nat (length base) = bsize s /\ (forall b, f v = Some b -> base = b) /\
      inode_file s' p i' (S n) (fun w => if w =? v then Some (memcpy_at base (Z.to_nat off) buf) else f w)
  | inl err => err < 0 /\ ~ st_room (st s) 2 /\ f v = None /\ inode_file s' p i' n f /\ i_size i' = i_size i
  end.

Lemma spec_write_block s p i n f v off buf : inode_file s p i n f -> i_sem i = 0 -> vrange v -> 0 <= off ->
  off + Z.of_nat (length buf) <= bsize s -> v * bsize s + off + Z.of_nat (length buf) < 2 ^ 64 -> (n < t_cap)%nat ->
  StMonad.spec (nkfs_inode_write_block_buf e ctx p v off buf) s (wrote s p i n f v off buf).
Proof.
  intros (a & tb & tsb & m & ms & O & Hm & Hms & Hf & Hd & Hh & Htb & Htsb) Hsem Hv H1 H2 H3 Hn. pose proof (op_lay _ _ _ _ _ _ _ _ _ _ _ _ O) as L.
  destruct (lay_page _ _ _ _ _ _ _ _ L) as [_ Hp].
  unfold nkfs_inode_write_block_buf. apply spec_bind, spec_gets. apply spec_bind, spec_bug_on; [lia|].
  apply spec_bind. eapply spec_read_create; [exact O|done|lia|lia| |].
  - intros err i1 s1 He Hno Em O1 F1 B1. apply spec_ret. exists i1. split; [by apply same_file_id|]. split; [by rewrite (sf_sem _ _ F1)|].
    do 3 (split; [done|]). split; [rewrite Hf by done; unfold content; by rewrite Em|]. split; [|apply F1].
    exists a, tb, tsb, m, ms. do 4 (split; [done|]). split; [by rewrite (sf_dirty _ _ F1)|].
    rewrite (sf_block _ _ F1), Hh, (sf_tb _ _ F1), (sf_tsb _ _ F1). split; [|done]. symmetry. apply to_on_disk_same; [by apply same_file_id|apply F1].
  - intros x sx c d i1 s1 a1 m1 ms1 O1 [Gm Gx Gs Ga Gz] F1 W1. cbn [clu opened_ib]. assert (B1 : bsize s1 = bsize s) by apply W1.
    pose proof (op_lay _ _ _ _ _ _ _ _ _ _ _ _ O1) as L1. assert (Em : m1 !! kv v = Some x) by (rewrite Gm; apply lookup_insert_eq).
    assert (Hbs : i_block i1 <> sx) by (destruct (lay_sum _ _ _ _ _ _ _ _ L1 _ _ Gs) as (_ & _ & ? & _); congruence).
    assert (Hbx : i_block i1 <> x) by (destruct (lay_data _ _ _ _ _ _ _ _ L1 _ _ Em) as (_ & _ & ? & _); congruence).
    apply spec_assoc, spec_bind. rewrite <- B1. eapply spec_write_held; [exact O1|done|done|by rewrite B1|done|lia|].
    intros s2 a2 O2 A2 W2. cbn [Z.eqb negb]. assert (B2 : bsize s2 = bsize s) by (by rewrite (proj1 W2)).
    assert (Hblk : a2 (i_block i1) = a (i_block i1)).
    { rewrite A2 by done. unfold put_bytes. rewrite (proj2 (Z.eqb_neq _ _)) by done. by apply Ga. }
    apply spec_bind. eapply spec_grow; [exact O2|by rewrite (sf_sem _ _ F1)|by rewrite (sf_dirty _ _ F1)| |].
    { rewrite Hblk, (sf_block _ _ F1), Hh. symmetry. apply to_on_disk_same; [by apply same_file_id|apply F1]. }
    intros i3 a3 s3 O3 F3 S3 D3 Z3 H3' A3 W3. apply spec_bind.
    assert (B3 : bsize s3 = bsize s) by (by rewrite (proj1 W3)). rewrite B1.
    eapply spec_relse; [exact O3|]. intros s4 O4 St4 B4 Ob4. apply spec_ret. cbn [Z.eqb negb].
    exists i3. split; [eapply same_id_trans; [by apply same_file_id|done]|]. split; [done|]. split; [congruence|]. split; [done|].
    split.
    { assert (0 <= v * bsize s) by (unfold vrange in Hv; nia). rewrite Z3, (sf_size _ _ F1). f_equal. rewrite ?B1. rewrite (wrap_small 64 (v * bsize s + off)) by lia. by rewrite wrap_small by lia. }
    split.
    { intros k R. rewrite St4. apply W3. cbn. apply W2. cbn. by apply W1. }
    exists (a1 x). split; [by rewrite <- B1; eapply opened_block_len|].
    assert (Hxs : x <> sx) by (intros ->; by destruct (lay_disj _ _ _ _ _ _ _ _ L1 _ _ _ Em Gs)). split.
    { intros b Hb. rewrite Hf in Hb by done. unfold content in Hb. destruct Gx as [E|[E _]]; rewrite E in Hb; cbn in Hb; [|done].
      injection Hb as <-. by apply Ga. }
    exists a3, tb, tsb, m1, ms1. split; [done|]. split; [rewrite Gm; destruct Gx as [E|[E _]];
      [rewrite insert_id by done; lia|rewrite map_size_insert_None by done; lia]|]. split; [lia|]. split; [|split; [done|]; split; [done|]; rewrite (id_tb _ _ F3), (id_tsb _ _ F3), (sf_tb _ _ F1), (sf_tsb _ _ F1); done].
    pose proof (op_lay _ _ _ _ _ _ _ _ _ _ _ _ O3) as L3.
    assert (Ha3 : forall k y, m1 !! k = Some y -> a3 y = put_bytes a1 x off buf y).
    { intros k y Ey. rewrite A3; [apply A2|].
      - intros ->. by destruct (lay_disj _ _ _ _ _ _ _ _ L1 _ _ _ Ey Gs).
      - destruct (lay_data _ _ _ _ _ _ _ _ L1 _ _ Ey) as (_ & _ & ? & _). congruence. }
    intros w Hw. rewrite (content_same s3 _ (put_bytes a1 x off buf) a3 p i3 tb tsb m1 ms1 None w O3 Ha3).
    rewrite (content_put s1 _ a1 p i1 tb tsb m1 ms1 None v x off buf w O1 Hv Hw Em). destruct (Z.eqb_spec w v) as [->|Hwv]; [done|].
    rewrite Hf by done. unfold content. rewrite Gm, lookup_insert_ne.
    + destruct (m !! kv w) as [y|] eqn:Ey; [|done]. cbn. rewrite Ga; [done|]. intros ->.
      apply (lay_disj _ _ _ _ _ _ _ _ L1 (kv w) (kv (sumblk (bsize s) v)) sx); [|exact Gs]. rewrite Gm.
      rewrite lookup_insert_ne; [done|]. intros E. destruct Hwv. apply (kv_inj e); [unfold vrange in *; lia..|done].
    + intros E. destruct Hwv. apply (kv_inj e); [unfold vrange in *; lia..|done].
Qed.

(** ** Reading from a block *)

(** The inode with another number of readers. *)
Lemma opened_sem s hs a p i tb tsb m ms exc k : opened s hs a p i tb tsb m ms exc ->
  opened (with_objs (<[p := set_sem k i]> (objs s)) s) hs a p (set_sem k i) tb tsb m ms exc.
Proof. intros O. by apply (opened_upd s hs a p i). Qed.

Lemma spec_sem s hs a p i tb tsb m ms exc k (Q : unit -> sb_state -> Prop) : opened s hs a p i tb tsb m ms exc ->
  (forall s', opened s' hs a p (set_sem (i_sem i + k) i) tb tsb m ms exc -> bsize s' = bsize s -> Q tt s') ->
  StMonad.spec (upd p (fun i => set_sem (i_sem i + k) i)) s Q.
Proof.
  intros O HQ. eapply (spec_iupd p i); [by eapply opened_obj|]. apply HQ; [by apply opened_sem|done].
Qed.

(** The same file, with [k] more readers. *)
Definition readers (s : sb_state) (p : nat) (i : nkfs_inode) (n : nat) (f : Z -> option (list byte)) (k : Z) (s' : sb_state) : Prop :=
  exists i', inode_file s' p i' n f /\ same_id i i' /\ i_size i' = i_size i /\ i_sem i' = i_sem i + k /\ bsize s' = bsize s.

(** What reading [len] bytes at [off] of block [v] gives; the count of readers
    grows by one whenever the block was looked for. *)
Definition block_read (i : nkfs_inode) (bs : Z) (f : Z -> option (list byte)) (v off len : Z) : (Z + list byte * bool) * Z :=
  let pos := v * bs + off in
  if i_size i <? pos then (inl (- ERANGE), 0)
  else if pos =? i_size i then (inr ([], true), 0)
  else match f v with
  | None => (inl (- ENOENT), 1)
  | Some b => (inr (field (Z.to_nat off) (Z.to_nat (Z.min len (i_size i - pos))) b, i_size i <=? pos + len), 1)
  end.

Lemma file_of_opened s s' a p i i' tb tsb m ms n f k : opened s' [] a p i' tb tsb m ms None -> (size m <= n)%nat -> (size ms <= n)%nat ->
  (forall v, vrange v -> f v = content a m v) -> i_dirty i = false -> field 0 56 (a (i_block i)) = nkfs_inode_to_on_disk e ctx i ->
  blocks_tree_block i = tb -> blocks_sum_tree_block i = tsb ->
  same_id i i' -> i_size i' = i_size i -> i_dirty i' = i_dirty i -> i_sem i' = i_sem i + k -> bsize s' = bsize s -> readers s p i n f k s'.
Proof.
  intros O Hm Hms Hf Hd Hh Htb Htsb I Z D S B. exists i'. split; [|done]. exists a, tb, tsb, m, ms. do 4 (split; [done|]).
  split; [by rewrite D|]. rewrite (id_block _ _ I), Hh, (to_on_disk_same i i') by done. by rewrite (id_tb _ _ I), (id_tsb _ _ I).
Qed.

Lemma spec_read_block s p i n f v off len : inode_file s p i n f -> vrange v -> 0 <= off -> 0 < len -> off + len <= bsize s ->
  v * bsize s + off + len < 2 ^ 64 -> 0 <= i_size i < 2 ^ 64 ->
  StMonad.spec (nkfs_inode_read_block_buf e ctx p v off len) s (fun r s' =>
    r = fst (block_read i (bsize s) f v off len) /\ readers s p i n f (snd (block_read i (bsize s) f v off len)) s').
Proof.
  intros (a & tb & tsb & m & ms & O & Hm & Hms & Hf & Hd & Hh & Htb & Htsb) Hv H1 H2 H3 H4 Hz.
  destruct (lay_page _ _ _ _ _ _ _ _ (op_lay _ _ _ _ _ _ _ _ _ _ _ _ O)) as [_ Hp].
  assert (0 <= v * bsize s) by (unfold vrange in Hv; nia).
  unfold nkfs_inode_read_block_buf, block_read. apply spec_bind, spec_gets. apply spec_bind, spec_bug_on; [lia|].
  rewrite (wrap_small 64 (v * bsize s + off)) by lia. set (pos := v * bsize s + off) in *. unfold down_read, up_read.
  apply spec_bind. eapply (spec_sem _ _ _ _ _ _ _ _ _ _ 1); [exact O|]. intros s1 O1 B1.
  apply spec_bind, (spec_iget p (set_sem (i_sem i + 1) i)); [exact (opened_obj _ _ _ _ _ _ _ _ _ _ O1)|]. cbn [i_size set_sem].
  destruct (Z.ltb_spec (i_size i) pos) as [Hl|Hl]; cbn [fst snd].
  { apply spec_bind. eapply (spec_sem _ _ _ _ _ _ _ _ _ _ (-1)); [exact O1|]. intros s2 O2 B2. apply spec_ret. split; [done|].
    eapply file_of_opened; [exact O2|done..|cbn; lia|congruence]. }
  destruct (Z.eqb_spec pos (i_size i)) as [He|He]; cbn [fst snd].
  { apply spec_bind. eapply (spec_sem _ _ _ _ _ _ _ _ _ _ (-1)); [exact O1|]. intros s2 O2 B2. apply spec_ret. split; [done|].
    eapply file_of_opened; [exact O2|done..|cbn; lia|congruence]. }
  apply spec_bind. eapply (spec_block_read e ctx ctx_ok X); [exact O1|done| |].
  { intros i2 s2 Em O2 F2 G2. apply spec_ret. rewrite Hf by done. unfold content. rewrite Em. cbn [fst snd option_bind mbind]. split; [done|].
    eapply file_of_opened; [exact O2|done..| | | |by rewrite (sf_sem _ _ F2)|by rewrite (gr_bsize _ _ _ G2)];
      [by destruct (same_file_id _ _ F2)|by rewrite (sf_size _ _ F2)|by rewrite (sf_dirty _ _ F2)]. }
  intros x sx c d i2 s2 Em Es O2 F2 W2. assert (B2 : bsize s2 = bsize s) by (by rewrite (proj1 W2)).
  rewrite Hf by done. unfold content. rewrite Em. cbn [fst snd option_bind mbind].
  apply spec_bind. rewrite <- (proj1 W2). eapply (spec_check_sum e ctx ctx_ok X); [exact O2|done|done|by rewrite (proj1 W2)|]. cbn [Z.eqb negb].
  apply spec_bind, spec_bind. eapply (spec_sem _ _ _ _ _ _ _ _ _ _ 1); [exact O2|]. intros s3 O3 B3.
  apply spec_bind, (spec_iget p (set_sem (i_sem i2 + 1) i2)); [exact (opened_obj _ _ _ _ _ _ _ _ _ _ O3)|]. cbn [i_size set_sem].
  assert (Ez : i_size i2 = i_size i) by (by rewrite (sf_size _ _ F2)). rewrite Ez. rewrite (wrap_small 64 (pos + len)) by lia.
  apply spec_bind. eapply (spec_sem _ _ _ _ _ _ _ _ _ _ (-1)); [exact O3|]. intros s4 O4 B4. cbn [clu opened_ib].
  assert (El : (if i_size i <=? pos + len then u32 (i_size i - pos) else len) = Z.min len (i_size i - pos)).
  { destruct (Z.leb_spec (i_size i) (pos + len)); [rewrite wrap_small by lia|]; lia. }
  rewrite El. apply spec_bind, spec_dio. eapply cache_read; [apply O4|right; by left|lia|lia| |].
  { rewrite <- (lay_bs _ _ _ _ _ _ _ _ (op_lay _ _ _ _ _ _ _ _ _ _ _ _ O4)). lia. }
  assert (Es4 : with_ddev (ddev s4) s4 = s4) by (by destruct s4). rewrite Es4. apply spec_ret.
  apply spec_bind. eapply spec_relse; [exact O4|]. intros s5 O5 St5 B5 Ob5. apply spec_ret. split; [done|].
  eapply file_of_opened; [exact O5|done..| | | | |congruence]; cbn.
  - by destruct (same_file_id _ _ F2).
  - done.
  - by rewrite (sf_dirty _ _ F2).
  - rewrite (sf_sem _ _ F2). cbn. lia.
Qed.

End Io.

End InodeIo.
