(* ===== verification/InodeFile.v ===== *)
(** * Files of bytes

    [nkfs_inode_io_buf] cuts a request into blocks.  Here a file is its bytes:
    [byte_at bs f q] is the byte at position [q] of the file whose blocks are
    [f], if the file has that block.  Writing a buffer puts its bytes there and
    leaves the others; reading gives the bytes up to the size of the file. *)

From Stdlib Require Import ZArith Lia.
From coqutil Require Import Byte.
From stdpp Require Import base list gmap.
From S2P Require Import Prelude XXHash Bytes StMonad Csum DioPages Dio DioInv DioEvict DioSpec DioClient Mem CharHex ObjId Super.
From S2P Require Import BtreeNode BtreeNodeSpec BtreeDisk BlockTree Inode InodeSpec InodeOps InodeIo.
Import XXHash Bytes StMonad Csum ObjId DioClient Inode InodeSpec InodeOps InodeIo.
Local Open Scope Z_scope.
Local Open Scope stm_scope.

Module InodeFile.

(** ** Bytes of a file *)

Section Bytes.
Context (bs : Z) (bs_pos : 0 < bs).

Definition byte_at (f : Z -> option (list byte)) (q : Z) : option byte :=
  b ← f (q / bs); b !! Z.to_nat (q mod bs).

Definition read_at (f : Z -> option (list byte)) (pos : Z) (n : nat) : option (list byte) :=
  mapM (fun k => byte_at f (pos + Z.of_nat k)) (seq 0 n).

(** [f'] is [f] with [buf] written at [pos]. *)
Record put_at (f : Z -> option (list byte)) (pos : Z) (buf : list byte) (f' : Z -> option (list byte)) : Prop := {
  pa_new k b : buf !! k = Some b -> byte_at f' (pos + Z.of_nat k) = Some b;
  pa_old q b : q < pos \/ pos + Z.of_nat (length buf) <= q -> byte_at f q = Some b -> byte_at f' q = Some b;
  pa_out w : (w + 1) * bs <= pos \/ pos + Z.of_nat (length buf) <= w * bs -> f' w = f w
}.

Lemma place v o : 0 <= o < bs -> (v * bs + o) / bs = v /\ (v * bs + o) mod bs = o.
Proof. intros H. rewrite Z.add_comm. rewrite Z.div_add, Z.mod_add by lia. by rewrite Z.div_small, Z.mod_small. Qed.

Lemma put_at_nil f pos : put_at f pos [] f.
Proof. split; [intros k b; by rewrite lookup_nil|done|done]. Qed.

Lemma put_at_app f pos b1 f1 b2 f2 : put_at f pos b1 f1 -> put_at f1 (pos + Z.of_nat (length b1)) b2 f2 -> put_at f pos (b1 ++ b2) f2.
Proof.
  intros [N1 O1 W1] [N2 O2 W2]. split.
  - intros k b Hk. apply lookup_app_Some in Hk as [Hk|[Hl Hk]].
    + apply O2; [|by apply N1]. apply lookup_lt_Some in Hk. lia.
    + specialize (N2 _ _ Hk). by replace (pos + Z.of_nat k) with (pos + Z.of_nat (length b1) + Z.of_nat (k - length b1)) by lia.
  - intros q b. rewrite length_app. intros Hq Eq. apply O2; [lia|]. apply O1; [lia|done].
  - intros w. rewrite length_app. intros Hw. rewrite W2 by lia. apply W1. lia.
Qed.

(** Within one block. *)
Lemma put_at_block f v off buf base : 0 <= off -> (0 < length buf)%nat -> off + Z.of_nat (length buf) <= bs -> Z.of_nat (length base) = bs ->
  (forall b, f v = Some b -> base = b) ->
  put_at f (v * bs + off) buf (fun w => if w =? v then Some (memcpy_at base (Z.to_nat off) buf) else f w).
Proof.
  intros H1 H0 H2 Hl Hb. split.
  - intros k b Hk. pose proof (lookup_lt_Some _ _ _ Hk). unfold byte_at. rewrite <- Z.add_assoc.
    destruct (place v (off + Z.of_nat k) ltac:(lia)) as [-> ->]. rewrite Z.eqb_refl. cbn. unfold memcpy_at.
    rewrite lookup_app_r by (rewrite length_take; lia). rewrite length_take. rewrite lookup_app_l by lia. rewrite <- Hk. f_equal. lia.
  - intros q b Hq. unfold byte_at. destruct (Z.eqb_spec (q / bs) v) as [E|E]; [|done]. rewrite E.
    destruct (f v) as [b0|] eqn:Ef; [|done]. cbn. rewrite (Hb b0) by done. intros Hk.
    pose proof (Z.div_mod q bs ltac:(lia)) as Hd. pose proof (Z.mod_pos_bound q bs ltac:(lia)) as Hm. rewrite E in Hd.
    rewrite <- Hk. pose proof (Hb _ eq_refl) as <-. unfold memcpy_at. destruct Hq as [Hq|Hq].
    + rewrite lookup_app_l by (rewrite length_take; nia). apply lookup_take_lt. nia.
    + rewrite lookup_app_r by (rewrite length_take; nia). rewrite length_take. rewrite lookup_app_r by nia.
      rewrite lookup_drop. f_equal. nia.
  - intros w Hw. destruct (Z.eqb_spec w v) as [->|]; [|done]. nia.
Qed.

Lemma put_at_read f pos buf f' : put_at f pos buf f' -> read_at f' pos (length buf) = Some buf.
Proof.
  intros [N _ _]. unfold read_at. apply mapM_Some_2. apply Forall2_same_length_lookup_2; [by rewrite length_seq|].
  intros j k b Hj Hb. apply lookup_seq in Hj as [-> Hj]. by apply N.
Qed.

Lemma read_at_length f pos n d : read_at f pos n = Some d -> length d = n.
Proof. intros E. apply length_mapM in E. by rewrite length_seq in E. Qed.

Lemma read_at_S f pos n : read_at f pos (S n) = b ← byte_at f pos; l ← read_at f (pos + 1) n; Some (b :: l).
Proof.
  unfold read_at. cbn. rewrite Z.add_0_r. destruct (byte_at f pos); cbn; [|done].
  assert (M : forall l, mapM (fun k => byte_at f (pos + Z.of_nat k)) (S <$> l) = mapM (fun k => byte_at f (pos + 1 + Z.of_nat k)) l).
  { induction l as [|k l IH]; cbn; [done|]. replace (pos + Z.of_nat (S k)) with (pos + 1 + Z.of_nat k) by lia.
    cbn in IH. by rewrite IH. }
  rewrite <- fmap_S_seq, M. by destruct (mapM _ _).
Qed.

Lemma read_at_add f n1 : forall pos n2,
  read_at f pos (n1 + n2) = l1 ← read_at f pos n1; l2 ← read_at f (pos + Z.of_nat n1) n2; Some (l1 ++ l2).
Proof.
  induction n1 as [|n1 IH]; intros pos n2.
  - change (Z.of_nat 0) with 0. rewrite Z.add_0_r. change (read_at f pos 0) with (Some (@nil byte)). cbn [mbind option_bind app Nat.add]. by destruct (read_at f pos n2).
  - cbn [Nat.add]. rewrite !read_at_S. destruct (byte_at f pos); [|done]. cbn. rewrite IH.
    replace (pos + Z.of_nat (S n1)) with (pos + 1 + Z.of_nat n1) by lia.
    destruct (read_at f (pos + 1) n1); [|done]. cbn. by destruct (read_at f _ n2).
Qed.

Lemma read_at_block f v off (n : nat) : 0 <= off -> off + Z.of_nat n <= bs -> (0 < n)%nat ->
  (forall b, f v = Some b -> Z.of_nat (length b) = bs) ->
  read_at f (v * bs + off) n = b ← f v; Some (field (Z.to_nat off) n b).
Proof.
  intros H1 H2 Hn Hl. unfold read_at. destruct (f v) as [b|] eqn:Ef; cbn.
  - apply mapM_Some_2. specialize (Hl b eq_refl).
    apply Forall2_same_length_lookup_2; [rewrite length_seq; unfold field; rewrite length_take, length_drop; lia|].
    intros j k y Hj Hy. apply lookup_seq in Hj as [-> Hj]. unfold byte_at. rewrite <- Z.add_assoc. cbn [Nat.add].
    destruct (place v (off + Z.of_nat j) ltac:(lia)) as [-> ->]. rewrite Ef. cbn. unfold field in Hy.
    rewrite lookup_take_lt, lookup_drop in Hy by done. rewrite <- Hy. f_equal. lia.
  - destruct n as [|n]; [lia|]. cbn. unfold byte_at. rewrite Z.add_0_r. destruct (place v off ltac:(lia)) as [-> ->]. by rewrite Ef.
Qed.

(** The blocks a request of [len] bytes at [off] of a block spans. *)
Definition span (off len : Z) : nat := Z.to_nat ((off + len + bs - 1) / bs).

Lemma span_one off len : 0 <= off -> 0 < len -> off + len <= bs -> span off len = 1%nat.
Proof. intros. unfold span. replace ((off + len + bs - 1) / bs) with 1; [done|]. apply Z.div_unique with (off + len - 1); lia. Qed.

Lemma span_cons off len : 0 <= off < bs -> bs < off + len -> span off len = S (span 0 (len - (bs - off))).
Proof.
  intros. unfold span. replace (off + len + bs - 1) with (0 + (len - (bs - off)) + bs - 1 + 1 * bs) by lia. rewrite Z.div_add by lia.
  rewrite Z2Nat.inj_add; [cbn; lia|apply Z.div_pos; lia|lia].
Qed.

End Bytes.

(** The bytes of the first turn. *)
Definition turn (bs loff len : Z) : Z := if bs <? len + loff then bs - loff else len.

Lemma turn_ok bs loff len : 0 < bs -> 0 <= loff < bs -> 0 < len -> 0 < turn bs loff len <= len /\ loff + turn bs loff len <= bs /\
  (turn bs loff len = len \/ loff + turn bs loff len = bs) /\
  span bs loff len = S (span bs 0 (len - turn bs loff len)).
Proof.
  intros Hb Hl Hn. unfold turn. destruct (Z.ltb_spec bs (len + loff)).
  - rewrite (span_cons bs Hb loff len) by lia. repeat split; lia.
  - rewrite (span_one bs loff len) by lia. rewrite Z.sub_diag. unfold span at 1. rewrite (Z.div_small (0 + 0 + bs - 1)) by lia. repeat split; lia.
Qed.

(** What reading [len] bytes at [pos] of a file of [size] bytes gives. *)
Definition file_read (bs size : Z) (f : Z -> option (list byte)) (pos len : Z) : Z + list byte * bool :=
  if len <=? 0 then inr ([], false)
  else if size <? pos then inl (- ERANGE)
  else match read_at bs f pos (Z.to_nat (Z.min len (size - pos))) with
  | Some d => inr (d, size <=? pos + len)
  | None => inl (- ENOENT)
  end.

(** A file read turn by turn. *)
Lemma file_read_turn bs size f v loff len : 0 < bs -> 0 <= loff < bs -> 0 < len -> (forall b, f v = Some b -> Z.of_nat (length b) = bs) ->
  let pos := v * bs + loff in let t := turn bs loff len in
  file_read bs size f pos len =
  if size <? pos then inl (- ERANGE)
  else if pos =? size then inr ([], true)
  else match f v with
  | None => inl (- ENOENT)
  | Some b =>
      let d := field (Z.to_nat loff) (Z.to_nat (Z.min t (size - pos))) b in
      if size <=? pos + t then inr (d, true)
      else match file_read bs size f (pos + t) (len - t) with
      | inl err => inl err
      | inr (d', eof) => inr (d ++ d', eof)
      end
  end.
Proof.
  intros Hb Hl Hn Hfl pos t. destruct (turn_ok bs loff len Hb Hl Hn) as (Ht & Htb & Hte & _). fold t in Ht, Htb, Hte.
  unfold file_read at 1. rewrite (proj2 (Z.leb_gt len 0)) by lia. destruct (Z.ltb_spec size pos) as [|Hs]; [done|].
  destruct (Z.eqb_spec pos size) as [->|Hps].
  { rewrite Z.sub_diag, Z.min_r by lia. change (read_at bs f size (Z.to_nat 0)) with (Some (@nil byte)). f_equal. f_equal. lia. }
  replace (Z.to_nat (Z.min len (size - pos))) with (Z.to_nat (Z.min t (size - pos)) + Z.to_nat (Z.min (len - t) (size - pos - t)))%nat by lia.
  rewrite read_at_add. pose proof (read_at_block bs Hb f v loff (Z.to_nat (Z.min t (size - pos)))) as Eb. fold pos in Eb. rewrite Eb by (done || lia).
  destruct (f v) as [b|]; [|done]. cbn [mbind option_bind]. destruct (Z.leb_spec size (pos + t)) as [He|He].
  - replace (Z.to_nat (Z.min (len - t) (size - pos - t))) with 0%nat by lia. change (read_at bs f _ 0) with (Some (@nil byte)). cbn.
    rewrite app_nil_r. f_equal. f_equal. lia.
  - unfold file_read. rewrite (proj2 (Z.ltb_ge size (pos + t))) by lia.
    replace (pos + Z.of_nat (Z.to_nat (Z.min t (size - pos)))) with (pos + t) by lia. destruct (Z.leb_spec (len - t) 0) as [H0|H0].
    + replace (Z.to_nat (Z.min (len - t) (size - pos - t))) with 0%nat by lia. change (read_at bs f _ 0) with (Some (@nil byte)). cbn.
      f_equal. f_equal. lia.
    + replace (size - (pos + t)) with (size - pos - t) by lia. destruct (read_at bs f (pos + t) _); cbn; [|done]. f_equal. f_equal. lia.
Qed.

Definition after (got : list byte) (r : Z + list byte * bool) : Z + list byte * bool :=
  match r with inl err => inl err | inr (d, eof) => inr (got ++ d, eof) end.

Section File.
Context {T St : Type} `{BlockTree T St} `{KT : Kept T}.
Context (e : XXH_endianess) (ctx : csum_ctx) (ctx_ok : length (mem64 ctx) = 32%nat).
Context (X : Z).

Local Abbreviation sb_state := (Inode.sb_state T St).
Local Abbreviation nkfs_inode := (Inode.nkfs_inode T).
Local Abbreviation inode_file := (inode_file e ctx X).

(** The sizes that matter. *)
Lemma file_bsize (s : sb_state) p i n f : inode_file s p i n f -> 4096 <= bsize s <= 65536.
Proof. intros (a & tb & tsb & m & ms & O & _). apply (lay_page _ _ _ _ _ _ _ _ (op_lay _ _ _ _ _ _ _ _ _ _ _ _ O)). Qed.

Lemma file_len (s : sb_state) p i n f v b : inode_file s p i n f -> vrange v -> f v = Some b -> Z.of_nat (length b) = bsize s.
Proof.
  intros (a & tb & tsb & m & ms & O & _ & _ & Hf & _) Hv Hb. rewrite Hf in Hb by done. unfold content in Hb.
  destruct (m !! kv e v) as [x|] eqn:Em; [|done]. injection Hb as <-. by eapply (opened_block_len e ctx ctx_ok X).
Qed.

Lemma file_mono (s : sb_state) p i n n' f : (n <= n')%nat -> inode_file s p i n f -> inode_file s p i n' f.
Proof. intros Hn (a & tb & tsb & m & ms & O & H1 & H2 & Hr). exists a, tb, tsb, m, ms. split; [done|]. split; [lia|]. by split; [lia|]. Qed.

(** A write of [buf] at [pos], by a loop that has written [count] bytes before:
    all of it, or, without the [2 * w] free blocks that [w] new blocks may take,
    the part before a block that the file does not have. *)
Definition wrote_at (s : sb_state) (p : nat) (i : nkfs_inode) (n : nat) (f : Z -> option (list byte)) (pos : Z) (buf : list byte)
    (count : Z) (w : nat) (r : Z + Z) (s' : sb_state) : Prop :=
  exists i' f' k, same_id i i' /\ i_sem i' = 0 /\ bsize s' = bsize s /\ (k <= length buf)%nat /\
  put_at (bsize s) f pos (take k buf) f' /\ inode_file s' p i' (n + w) f' /\
  i_size i' = (if (0 <? k)%nat then Z.max (i_size i) (pos + Z.of_nat k) else i_size i) /\
  match r with
  | inr c => c = count + Z.of_nat (length buf) /\ k = length buf /\ (forall l, st_room (st s) (2 * w + l) -> st_room (st s') l)
  | inl err => err < 0 /\ (k < length buf)%nat /\ ~ st_room (st s) (2 * w) /\ f' ((pos + Z.of_nat k) / bsize s) = None
  end.

Lemma write_loop_S fuel p v loff buf count : buf <> [] -> write_loop (T := T) (St := St) e ctx (S fuel) p v loff buf count =
  (let* bs := gets bsize in
   let res := Z.of_nat (length buf) in
   let llen := if bs <? u32 (res + loff) then bs - loff else res in
   let* r := nkfs_inode_write_block_buf e ctx p v loff (take (Z.to_nat llen) buf) in
   match r with
   | inl err => ret (inl err)
   | inr n => do* BUG_ON (negb (llen =? n)) in write_loop e ctx fuel p (u64 (v + 1)) 0 (drop (Z.to_nat llen) buf) (u32 (count + n))
   end).
Proof. by destruct buf. Qed.

Lemma wrote_nothing s p i n f pos count w : inode_file s p i n f -> i_sem i = 0 ->
  wrote_at s p i n f pos [] count w (inr count) s.
Proof.
  intros HF Hs. exists i, f, 0%nat. do 4 (split; [done|]). split; [apply put_at_nil|]. split; [eapply file_mono; [|exact HF]; lia|].
  split; [done|]. split; [cbn; lia|]. split; [done|]. intros l. apply room_le. lia.
Qed.

(** A part that was written, and the rest. *)
Lemma wrote_trans s p i n f pos c count w1 s1 i1 f1 d w2 r s2 : same_id i i1 -> put_at (bsize s) f pos c f1 -> (0 < length c)%nat ->
  i_size i1 = Z.max (i_size i) (pos + Z.of_nat (length c)) -> bsize s1 = bsize s -> (forall l, st_room (st s) (2 * w1 + l) -> st_room (st s1) l) ->
  wrote_at s1 p i1 (n + w1) f1 (pos + Z.of_nat (length c)) d (count + Z.of_nat (length c)) w2 r s2 ->
  wrote_at s p i n f pos (c ++ d) count (w1 + w2) r s2.
Proof.
  intros I1 P1 Hc Z1 B1 Rm1 (i2 & f2 & k2 & I2 & S2 & B2 & K2 & P2 & HF2 & Z2 & R2). rewrite B1 in *.
  exists i2, f2, (length c + k2)%nat. rewrite length_app. split; [by eapply same_id_trans|]. split; [done|]. split; [congruence|]. split; [lia|].
  split; [rewrite firstn_app_2; by eapply put_at_app|]. split; [by rewrite Nat.add_assoc|]. split.
  { rewrite (proj2 (Nat.ltb_lt _ _)) by lia. rewrite Z2, Z1. destruct (Nat.ltb_spec 0 k2); lia. }
  destruct r as [err|cnt].
  2:{ destruct R2 as (? & ? & Rm2). split; [lia|]. split; [lia|]. intros l R. apply Rm2, Rm1. eapply room_le; [|exact R]. lia. }
  destruct R2 as (? & ? & Hno & R2). split; [done|]. split; [lia|].
  split; [intros R; apply Hno, Rm1; eapply room_le; [|exact R]; lia|]. rewrite <- R2. f_equal. f_equal. lia.
Qed.

Lemma wrote_mono s p i n f pos buf count w w' r s' : (w <= w')%nat -> wrote_at s p i n f pos buf count w r s' ->
  wrote_at s p i n f pos buf count w' r s'.
Proof.
  intros Hw (i' & f' & k & I & S' & B & K & P & HF & Z' & R). exists i', f', k. do 5 (split; [done|]).
  split; [eapply file_mono; [|exact HF]; lia|]. split; [done|]. destruct r as [err|c].
  - destruct R as (? & ? & Hno & ?). do 2 (split; [done|]). split; [|done]. intros R. apply Hno. eapply room_le; [|exact R]. lia.
  - destruct R as (? & ? & Rm). do 2 (split; [done|]). intros l R. apply Rm. eapply room_le; [|exact R]. lia.
Qed.

Lemma spec_write_loop fuel : forall s p i n f v loff buf count,
  (length buf <= fuel)%nat -> inode_file s p i n f -> i_sem i = 0 -> 0 <= v -> 0 <= loff < bsize s ->
  v * bsize s + loff + Z.of_nat (length buf) < 2 ^ 63 -> 0 <= count -> count + Z.of_nat (length buf) < 2 ^ 31 ->
  (n + span (bsize s) loff (Z.of_nat (length buf)) <= t_cap)%nat ->
  StMonad.spec (write_loop e ctx fuel p v loff buf count) s
    (wrote_at s p i n f (v * bsize s + loff) buf count (span (bsize s) loff (Z.of_nat (length buf)))).
Proof.
  induction fuel as [|fuel IH]; intros s p i n f v loff buf count Hfu HF Hs Hv Hl Hp Hc Hcl Hn.
  { destruct buf; [|cbn in Hfu; lia]. apply spec_ret. by apply wrote_nothing. }
  destruct (decide (buf = [])) as [->|Hne]; [apply spec_ret; by apply wrote_nothing|].
  assert (Hlb : (0 < length buf)%nat) by (destruct buf; [done|cbn; lia]).
  pose proof (file_bsize _ _ _ _ _ HF) as Hbs. assert (Hvr : vrange v) by (unfold vrange; nia).
  rewrite write_loop_S by done. apply spec_bind, spec_gets. cbv zeta. rewrite wrap_small by lia.
  change (if bsize s <? Z.of_nat (length buf) + loff then bsize s - loff else Z.of_nat (length buf)) with (turn (bsize s) loff (Z.of_nat (length buf))).
  destruct (turn_ok (bsize s) loff (Z.of_nat (length buf)) ltac:(lia) ltac:(lia) ltac:(lia)) as (Ht & Htb & Hte & Hsp).
  rewrite Hsp in *. set (t := turn (bsize s) loff (Z.of_nat (length buf))) in *. set (c := take (Z.to_nat t) buf).
  assert (Hlc : Z.of_nat (length c) = t) by (unfold c; rewrite length_take; lia).
  apply spec_bind. eapply spec_mono; [apply (spec_write_block e ctx ctx_ok X s p i n f v loff c HF Hs Hvr); [lia|lia|nia|lia]|].
  intros [err|k] s1 (i1 & I1 & S1 & B1 & R1).
  - destruct R1 as (He & Hno & Hfv & HF1 & Z1). apply spec_ret. exists i1, f, 0%nat. do 3 (split; [done|]). split; [lia|]. split; [apply put_at_nil|].
    split; [eapply file_mono; [|exact HF1]; lia|]. split; [done|]. split; [done|]. split; [done|]. split; [intros R; apply Hno; eapply room_le; [|exact R]; lia|].
    rewrite Z.add_0_r. by destruct (place (bsize s) ltac:(lia) v loff Hl) as [-> _].
  - destruct R1 as (-> & Z1 & Rm1 & base & Lb & Hb & HF1). rewrite Hlc in *. apply spec_bind, spec_bug_on; [by rewrite Z.eqb_refl|].
    set (f1 := fun w => _) in HF1. assert (P1 : put_at (bsize s) f (v * bsize s + loff) c f1) by (apply put_at_block; try done; lia).
    assert (Hv1 : u64 (v + 1) = v + 1) by (apply wrap_small; unfold vrange in Hvr; lia). rewrite Hv1, (wrap_small 32 (count + t)) by lia.
    set (d := drop (Z.to_nat t) buf). assert (Hld : Z.of_nat (length d) = Z.of_nat (length buf) - t) by (unfold d; rewrite length_drop; lia).
    destruct (decide (d = [])) as [Ed|Hnd].
    { assert (Ec : c = buf) by (rewrite Ed in Hld; cbn in Hld; unfold c; apply take_ge; lia). rewrite Ed.
      destruct fuel; apply spec_ret; exists i1, f1, (length buf); rewrite firstn_all, <- Ec at 1;
      (do 3 (split; [done|]); split; [lia|]; split; [by rewrite <- Ec at 1|]; split; [eapply file_mono; [|exact HF1]; lia|];
       split; [rewrite (proj2 (Nat.ltb_lt _ _)) by lia; rewrite Z1; f_equal; rewrite <- Ec; lia|]; split; [rewrite <- Ec; lia|]; split; [done|]; intros l R; apply Rm1; eapply room_le; [|exact R]; lia). }
    assert (Hlt : loff + t = bsize s) by (destruct Hte; [destruct Hnd; apply length_zero_iff_nil; lia|done]).
    eapply spec_mono; [apply (IH s1 p i1 (S n) f1 (v + 1) 0 d (count + t)); rewrite ?B1, ?Hld; try done; try lia; nia|].
    intros r s2 W2. rewrite B1, Hld in W2. replace ((v + 1) * bsize s + 0) with (v * bsize s + loff + Z.of_nat (length c)) in W2 by nia.
    rewrite <- (take_drop (Z.to_nat t) buf) at 1. fold c d. rewrite <- Hlc in W2.
    apply (wrote_trans s p i n f _ c count 1 s1 i1 f1); [done|done|lia|rewrite Z1; f_equal; lia|done|by intros l R; apply Rm1|].
    rewrite Nat.add_1_r, Hlc in *. exact W2.
Qed.

(** ** Reading *)

Lemma spec_read_loop fuel : forall s p i n f v loff res got,
  res <= Z.of_nat fuel -> inode_file s p i n f -> 0 <= v -> 0 <= loff < bsize s -> 0 <= res < 2 ^ 31 ->
  v * bsize s + loff + res < 2 ^ 63 -> 0 <= i_size i < 2 ^ 64 ->
  StMonad.spec (read_loop e ctx fuel p v loff res got) s (fun r s' =>
    r = after got (file_read (bsize s) (i_size i) f (v * bsize s + loff) res) /\
    exists k, readers e ctx X s p i n f k s' /\ 0 <= k /\ (0 < res -> v * bsize s + loff < i_size i -> 0 < k)).
Proof.
  induction fuel as [|fuel IH]; intros s p i n f v loff res got Hfu HF Hv Hl Hr Hp Hz.
  { assert (res = 0) as -> by lia. apply spec_ret. cbn. rewrite app_nil_r. split; [done|]. exists 0. split; [exists i; by rewrite Z.add_0_r|lia]. }
  cbn [read_loop]. destruct (Z.leb_spec res 0) as [H0|H0].
  { assert (res = 0) as -> by lia. apply spec_ret. cbn. rewrite app_nil_r. split; [done|]. exists 0. split; [exists i; by rewrite Z.add_0_r|lia]. }
  pose proof (file_bsize _ _ _ _ _ HF) as Hbs. assert (Hvr : vrange v) by (unfold vrange; nia).
  apply spec_bind, spec_gets. cbv zeta. rewrite (wrap_small 32 (res + loff)) by lia.
  change (if bsize s <? res + loff then bsize s - loff else res) with (turn (bsize s) loff res).
  destruct (turn_ok (bsize s) loff res ltac:(lia) ltac:(lia) ltac:(lia)) as (Ht & Htb & Hte & _).
  rewrite (file_read_turn (bsize s) (i_size i) f v loff res) by (lia || (intros b; by eapply file_len)).
  set (t := turn (bsize s) loff res) in *.
  apply spec_bind. eapply spec_mono; [apply (spec_read_block e ctx ctx_ok X s p i n f v loff t HF Hvr); [lia|lia|lia|nia|done]|].
  intros r s1 [-> R1]. unfold block_read in *. set (pos := v * bsize s + loff) in *.
  destruct (Z.ltb_spec (i_size i) pos) as [Hs|Hs]; [apply spec_ret; split; [done|]; exists 0; split; [done|lia]|].
  destruct (Z.eqb_spec pos (i_size i)) as [Hs'|Hs'].
  { cbn [fst snd] in *. apply spec_ret. cbn. split; [done|]. exists 0. split; [done|lia]. }
  destruct (f v) as [b|] eqn:Ef; [|apply spec_ret; split; [done|]; exists 1; split; [done|lia]]. cbn [fst snd] in *.
  destruct (Z.leb_spec (i_size i) (pos + t)) as [He|He]; [apply spec_ret; split; [done|]; exists 1; split; [done|lia]|].
  pose proof (file_len _ _ _ _ _ _ _ HF Hvr Ef) as Hlb.
  apply spec_bind, spec_bug_on; [unfold field; rewrite length_take, length_drop; rewrite (proj2 (Z.eqb_eq _ _)) by lia; done|].
  assert (Hv1 : u64 (v + 1) = v + 1) by (apply wrap_small; unfold vrange in Hvr; lia). rewrite Hv1.
  set (d := field _ _ b). destruct (Z.eqb_spec (res - t) 0) as [Hrt|Hrt].
  { rewrite Hrt. destruct fuel; apply spec_ret; cbn; (split; [by rewrite app_nil_r|exists 1; split; [done|lia]]). }
  assert (Hlt : loff + t = bsize s) by lia. replace (pos + t) with ((v + 1) * bsize s + 0) by lia.
  destruct R1 as (i1 & F1 & I1 & Z1 & S1 & B1). eapply spec_mono.
  { apply (IH s1 p i1 n f (v + 1) 0 (res - t)); rewrite ?B1, ?Z1; try done; lia. }
  rewrite B1, Z1. intros r s2 (-> & k & R2 & Hk & _). split.
  - unfold after. destruct (file_read _ _ _ _ (res - t)) as [|[d' eof]]; [done|]. by rewrite app_assoc.
  - exists (1 + k). split; [|lia]. destruct R2 as (i2 & F2 & I2 & Z2 & S2 & B2). exists i2. split; [done|].
    split; [by eapply same_id_trans|]. repeat split; [congruence|lia|congruence].
Qed.

End File.

End InodeFile.
