(* ===== verification/InodeLife.v ===== *)
(** * The life of an inode

    [nkfs_inode_create] makes the empty file when three blocks are free; the last
    [nkfs_inode_deref] takes the object out of memory and leaves the file on the
    device; [nkfs_inode_read] brings it back. *)

From Stdlib Require Import ZArith Lia.
From coqutil Require Import Byte.
From stdpp Require Import base list gmap.
From S2P Require Import Prelude XXHash Bytes StMonad Csum DioPages Dio DioInv DioEvict DioSpec DioClient Mem CharHex ObjId Super.
From S2P Require Import BtreeNode BtreeNodeSpec BtreeDisk BlockTree Inode InodeSpec InodeOps InodeIo.
Import XXHash Bytes StMonad Csum ObjId DioClient Inode InodeSpec InodeOps InodeIo.
Local Open Scope Z_scope.
Local Open Scope stm_scope.

Module InodeLife.

Section Life.
Context {T St : Type} `{BlockTree T St} `{KT : Kept T}.
Context (e : XXH_endianess) (ctx : csum_ctx) (ctx_ok : length (mem64 ctx) = 32%nat).
Context (X : Z).

Local Abbreviation sb_state := (Inode.sb_state T St).
Local Abbreviation nkfs_inode := (Inode.nkfs_inode T).
Local Abbreviation opened := (opened e X).
Local Abbreviation inode_file := (inode_file e ctx X).

(** ** The header *)

Record inode_wf (i : nkfs_inode) : Prop := {
  iw_ino : id_wf (ino i);
  iw_size : 0 <= i_size i < 2 ^ 64;
  iw_tree : 0 <= blocks_tree_block i < 2 ^ 64;
  iw_sums : 0 <= blocks_sum_tree_block i < 2 ^ 64
}.

Lemma inode_fields_length i : length (concat (inode_fields (T := T) e i)) = 44%nat.
Proof. cbn [inode_fields concat]. by rewrite !length_app, !be_length, !store_length. Qed.

Lemma on_disk_sum_value d : (44 <= length d)%nat -> nkfs_inode_on_disk_sum e ctx d = csum_xxh64 (take 44 d).
Proof.
  intros Hl. unfold nkfs_inode_on_disk_sum. pose proof (csum_feed_xxh64 e ctx [take 44 d] ctx_ok) as E.
  cbn [fold_left concat] in E. rewrite app_nil_r in E. apply E. rewrite length_take. lia.
Qed.

Lemma to_on_disk_value i : nkfs_inode_to_on_disk (T := T) e ctx i =
  concat (inode_fields e i ++ [store e 8 (csum_xxh64 (concat (inode_fields e i))); be 4 NKFS_INODE_SIG2]).
Proof.
  unfold nkfs_inode_to_on_disk. do 4 f_equal. rewrite on_disk_sum_value.
  - f_equal. rewrite concat_app. by rewrite take_app_length' by (symmetry; apply inode_fields_length).
  - rewrite concat_app, length_app, inode_fields_length. lia.
Qed.

Lemma inode_field_values i sum : length sum = 8%nat ->
  let d := concat (inode_fields (T := T) e i ++ [sum; be 4 NKFS_INODE_SIG2]) in
  field 0 4 d = be 4 NKFS_INODE_SIG1 /\ field 4 8 d = store e 8 (high (ino i)) /\ field 12 8 d = store e 8 (low (ino i)) /\
  field 20 8 d = be 8 (i_size i) /\ field 28 8 d = be 8 (blocks_tree_block i) /\ field 36 8 d = be 8 (blocks_sum_tree_block i) /\
  field 44 8 d = sum /\ field 52 4 d = be 4 NKFS_INODE_SIG2.
Proof.
  intros Hs d.
  assert (Ed : d = concat [be 4 NKFS_INODE_SIG1; store e 8 (high (ino i)); store e 8 (low (ino i)); be 8 (i_size i);
    be 8 (blocks_tree_block i); be 8 (blocks_sum_tree_block i); sum; be 4 NKFS_INODE_SIG2]).
  { unfold d. cbn [inode_fields concat app]. by rewrite <- !app_assoc. }
  rewrite Ed. clear Ed d.
  split; [struct_field 0%nat; done|].
  split; [struct_field 1%nat; done|].
  split; [struct_field 2%nat; done|].
  split; [struct_field 3%nat; done|].
  split; [struct_field 4%nat; done|].
  split; [struct_field 5%nat; done|].
  split; [struct_field 6%nat; done|].
  struct_field 7%nat; rewrite ?Hs; done.
Qed.

(** The inode that reading the header of [i] into [i0] gives. *)
Definition read_into (i0 i : nkfs_inode) : nkfs_inode :=
  MkInode (i_ref i0) (ino i) (i_block i0) (i_size i) (i_dirty i0) (blocks_tree_block i) (blocks_sum_tree_block i) (blocks_tree i0)
    (blocks_sum_tree i0) NKFS_INODE_SIG1 NKFS_INODE_SIG2 (i_sem i0).

Lemma parse_to_on_disk i0 i : inode_wf i -> nkfs_inode_parse_on_disk e ctx i0 (nkfs_inode_to_on_disk e ctx i) = (0, read_into i0 i).
Proof.
  intros [[I1 I2] Ws Wt Wu]. unfold nkfs_inode_parse_on_disk.
  rewrite on_disk_sum_value by (rewrite (to_on_disk_length e ctx i); lia). rewrite to_on_disk_value.
  set (sum := store e 8 _). assert (Hs : length sum = 8%nat) by apply store_length.
  destruct (inode_field_values i sum Hs) as (-> & -> & -> & -> & -> & -> & -> & ->).
  rewrite concat_app, take_app_length' by (symmetry; apply inode_fields_length).
  rewrite !of_be_be, !load_store by (assumption || done). rewrite bool_decide_eq_true_2 by reflexivity. rewrite !Z.eqb_refl. cbn [negb orb].
  unfold read_into. by destruct (ino i).
Qed.

(** ** Making a file *)

(** The superblock between calls. *)
Record rest (s : sb_state) (a : Z -> list byte) : Prop := {
  re_bs : bsize s = Dio.clu_size (ddev s);
  re_page : bsize s mod 4096 = 0 /\ 4096 <= bsize s <= 65536;
  re_st : st_ok (st s);
  re_dev x : 0 <= x < st_size (st s) -> DioInv.idx_ok (ddev s) x;
  re_cache : cache X (ddev s) [] a;
  re_mem t : mfail s t = false;
  re_fresh p : is_Some (objs s !! p) -> (p < next s)%nat;
  re_index b p : inodes s !! b = Some p -> b ∈ st_used (st s);
  re_kept_tree t b m : kept_tree t b m -> t_rep t (st s) b m;
  re_kept_block y d : kept_block y d -> y ∈ st_used (st s) /\ 0 < y < st_size (st s) /\ a y = d
}.

Lemma spec_ialloc s (Q : option nat -> sb_state -> Prop) : (forall t, mfail s t = false) ->
  Q (Some (next s)) (with_new (MkInode 1 (Id 0 0) 0 0 false 0 0 None None 0 0 0) (with_mtick (S (mtick s)) s)) ->
  StMonad.spec nkfs_inode_alloc s Q.
Proof. intros M HQ. unfold nkfs_inode_alloc, StMonad.spec, bind, mfails. by rewrite M. Qed.

(** The index of inodes is not part of a file. *)
Lemma opened_inodes s hs a p i tb tsb m ms exc t n : opened s hs a p i tb tsb m ms exc -> opened (with_inodes t n s) hs a p i tb tsb m ms exc.
Proof. intros [L C S M K]. split; try done. by destruct L. Qed.

(** The new object goes into the index and its second reference away. *)
Lemma spec_index_insert s p i (Q : nat -> sb_state -> Prop) : objs s !! p = Some i -> 0 < i_ref i -> inodes s !! i_block i = None ->
  Q p (with_objs (<[p := set_ref (i_ref i + 1) i]> (objs s)) (with_inodes (<[i_block i := p]> (inodes s)) (inodes_active s + 1) s)) ->
  StMonad.spec (nkfs_inodes_insert p) s Q.
Proof.
  intros E Hr Hi HQ. unfold nkfs_inodes_insert. apply spec_bind, (spec_iget p i); [done|]. apply spec_bind, spec_gets. rewrite Hi.
  apply spec_bind, spec_bind, spec_modify, spec_ret. unfold nkfs_inode_ref.
  apply spec_bind, spec_bind, (spec_iget p i); [done|]. apply spec_bind, spec_bug_on; [lia|]. apply (spec_iupd p i); [done|]. by apply spec_ret.
Qed.

Lemma spec_deref_more s p i (Q : unit -> sb_state -> Prop) : objs s !! p = Some i -> 1 < i_ref i ->
  Q tt (with_objs (<[p := set_ref (i_ref i - 1) i]> (objs s)) s) -> StMonad.spec (nkfs_inode_deref p) s Q.
Proof.
  intros E Hr HQ. unfold nkfs_inode_deref. apply spec_bind, (spec_iget p i); [done|]. apply spec_bind, spec_bug_on; [lia|].
  apply spec_bind, (spec_iupd p i); [done|]. rewrite (proj2 (Z.eqb_neq _ _)) by lia. by apply spec_ret.
Qed.

(** An empty file whose header is on the device. *)
Definition made (s : sb_state) (o : nkfs_obj_id) (r : option nat) (s' : sb_state) : Prop :=
  exists p i, r = Some p /\ inode_file s' p i 0 (fun _ => None) /\ ino i = o /\ i_size i = 0 /\ i_sem i = 0 /\ i_ref i = 1 /\
  inodes s' !! i_block i = Some p /\ i_block i ∉ st_used (st s) /\ bsize s' = bsize s /\
  (forall n, st_room (st s) (3 + n) -> st_room (st s') n) /\
  inodes s' = <[i_block i := p]> (inodes s) /\ inodes_active s' = inodes_active s + 1 /\ delete p (objs s') = delete p (objs s).

Lemma spec_inode_create o s a : rest s a -> st_room (st s) 3 -> StMonad.spec (nkfs_inode_create e ctx o) s (made s o).
Proof.
  intros [] Hroom. unfold nkfs_inode_create. apply spec_bind, spec_ialloc; [done|]. set (p := next s).
  destruct (st_alloc_ok (st s) re_st0) as (err & x & st1 & E1 & O1 & S1 & U1 & R1 & Hc & Rm1).
  destruct (Rm1 2%nat Hroom) as [-> Hroom1]. destruct Hc as [(_ & Hx & Hxn & Hxu)|]; [|lia].
  apply spec_bind. eapply spec_on_store; [exact E1|]. cbn [fst snd Z.eqb negb].
  apply spec_bind. eapply spec_iupd; [apply lookup_insert_eq|]. apply spec_bind, spec_bug_on; [lia|].
  apply spec_bind. eapply spec_iupd; [apply lookup_insert_eq|].
  destruct (t_create_ok st1 O1) as (r1 & st2 & E2 & O2 & S2 & U2 & R2 & C2 & Rm2). destruct (Rm2 1%nat Hroom1) as [[t1 ->] Hroom2].
  destruct C2 as (b1 & Hb1 & T1 & B1).
  apply spec_bind. eapply spec_on_store; [exact E2|]. apply spec_bind. eapply spec_iupd; [apply lookup_insert_eq|].
  destruct (t_create_ok st2 O2) as (r2 & st3 & E3 & O3 & S3 & U3 & R3 & C3 & Rm3). destruct (Rm3 0%nat Hroom2) as [[t2 ->] Hroom3].
  destruct C3 as (b2 & Hb2 & T2 & B2).
  apply spec_bind. eapply spec_on_store; [exact E3|]. apply spec_bind. eapply spec_iupd; [apply lookup_insert_eq|].
  apply spec_bind. eapply spec_lift; [exact B1|]. apply spec_bind. eapply spec_lift; [exact B2|].
  apply spec_bind. eapply spec_iupd; [apply lookup_insert_eq|]. cbn [set_block set_ino set_tree set_sum_tree set_tree_blocks].
  match goal with |- StMonad.spec _ ?s' _ => set (s1 := s') end. set (i := MkInode 1 o x 0 false b1 b2 (Some t1) (Some t2) 0 0 0).
  destruct (t_rep_used _ _ _ _ T1) as (Ub1 & Rb1 & _), (t_rep_used _ _ _ _ T2) as (Ub2 & Rb2 & _).
  assert (Hap : forall y, y ∈ st_used (st s) -> apart i b1 b2 ∅ ∅ y).
  { intros y Hu. split; [by intros ->|]. split; [intros ->; by apply Hb1, U1|]. split; [intros ->; by apply Hb2, U2, U1|].
    split; intros k; by rewrite lookup_empty. }
  assert (Op : opened s1 [] a p i b1 b2 ∅ ∅ None).
  { split; [|exact re_cache0|intros v y sx _ _ Em; by rewrite lookup_empty in Em|exact re_mem0|intros y d Hk; by apply re_kept_block0]. split; try done; cbn.
    - by rewrite lookup_insert_eq.
    - intros y Hy. apply re_dev0. congruence.
    - exists t1. split; [done|by apply R3].
    - by exists t2.
    - split; [by apply U3, U2|]. split; [lia|]. split; [by intros ->|]. split; [intros ->; by apply Hb1|intros ->; by apply Hb2, U2].
    - intros t b m' Hk. pose proof (re_kept_tree0 t b m' Hk) as Rk. destruct (t_rep_used _ _ _ _ Rk) as [Hu _].
      split; [by apply R3, R2, R1|by apply Hap].
    - intros y d Hk. destruct (re_kept_block0 y d Hk) as (Hu & Hyr & _). split; [by apply U3, U2, U1|]. split; [congruence|by apply Hap]. }
  apply spec_bind. eapply (spec_inode_write e ctx ctx_ok X s1); [exact Op|]. intros s2 Op2 W2 Eo2 Ei2 Ea2. cbn [Z.eqb negb].
  assert (Hidx : inodes s2 !! i_block i = None).
  { rewrite Ei2. destruct (inodes s1 !! i_block i) as [q|] eqn:Eq; [|done]. by apply re_index0 in Eq. }
  apply spec_bind. eapply (spec_index_insert s2 p i); [exact (opened_obj _ _ _ _ _ _ _ _ _ _ _ _ Op2)|done|done|].
  apply spec_bind, spec_bug_on; [by rewrite Nat.eqb_refl|].
  apply spec_bind. eapply (spec_deref_more _ p (set_ref 2 i)); [apply lookup_insert_eq|done|]. apply spec_ret.
  pose proof (cache_len _ _ _ _ _ re_cache0 (re_dev0 x ltac:(lia))) as Hlen.
  exists p, i. split; [done|]. split.
  { exists (put_bytes a x 0 (nkfs_inode_to_on_disk e ctx i)), b1, b2, ∅, ∅. split.
    - cbn [with_objs objs]. rewrite insert_insert_eq. eapply (opened_upd e X (with_inodes _ _ s2) _ _ p i i); [by apply opened_inodes|done].
    - split; [by rewrite map_size_empty|]. split; [by rewrite map_size_empty|]. split; [intros v _; unfold content; by rewrite lookup_empty|].
      split; [done|]. split; [|done]. cbn [i_block i]. unfold put_bytes. rewrite Z.eqb_refl.
      rewrite <- (to_on_disk_length e ctx i) at 1. apply field_memcpy. rewrite to_on_disk_length. lia. }
  do 4 (split; [done|]). split; [cbn; apply lookup_insert_eq|]. split; [done|]. split; [apply W2|].
  split; [intros n R; destruct W2 as (_ & _ & _ & W2); apply W2, (Rm3 n), (Rm2 (S n)), (Rm1 (S (S n))); exact R|].
  cbn. rewrite Ei2, Eo2, Ea2. split; [done|]. split; [done|]. cbn. by rewrite !delete_insert_eq.
Qed.

(** ** Closing and reopening *)

(** The file stays on the device, open or not. *)
Definition file_on_disk (s : sb_state) (i : nkfs_inode) (n : nat) (f : Z -> option (list byte)) : Prop :=
  exists p, inode_file (with_objs (<[p := i]> (objs s)) s) p i n f.

(** Only these parts of the state matter to an open file. *)
Lemma opened_cong s s' hs a p i tb tsb m ms exc : opened s hs a p i tb tsb m ms exc -> ddev s' = ddev s -> st s' = st s ->
  bsize s' = bsize s -> mfail s' = mfail s -> objs s' !! p = Some i -> opened s' hs a p i tb tsb m ms exc.
Proof.
  intros [L C S M K] Ed Es Eb Em Eo. split; [|by rewrite Ed|by rewrite Eb|by rewrite Em|done].
  destruct L. split; rewrite ?Ed, ?Es, ?Eb; done.
Qed.

Lemma spec_deref_tree t b m (s : sb_state) (Q : unit -> sb_state -> Prop) : t_rep t (st s) b m -> Q tt s -> StMonad.spec (deref_tree (Some t)) s Q.
Proof.
  intros R HQ. unfold deref_tree. eapply spec_on_store; [by rewrite (t_deref_ok _ _ _ _ R)|]. by destruct s.
Qed.

(** The last reference. *)
Definition closed (s : sb_state) (p : nat) (i : nkfs_inode) (n : nat) (f : Z -> option (list byte)) (s' : sb_state) : Prop :=
  file_on_disk s' i n f /\ inodes s' = delete (i_block i) (inodes s) /\ objs s' = delete p (objs s) /\ next s' = next s /\
  st s' = st s /\ bsize s' = bsize s /\ inodes_active s' = inodes_active s - 1.

Lemma spec_close s p i n f : inode_file s p i n f -> i_ref i = 1 -> inodes s !! i_block i = Some p ->
  StMonad.spec (nkfs_inode_deref p) s (fun _ => closed s p i n f).
Proof.
  intros (a & tb & tsb & m & ms & O & HF) Hr Hi. pose proof (opened_obj _ _ _ _ _ _ _ _ _ _ _ _ O) as E.
  pose proof (op_lay _ _ _ _ _ _ _ _ _ _ _ _ O) as L. destruct (lay_tree _ _ _ _ _ _ _ _ L) as (t1 & E1 & R1), (lay_sums _ _ _ _ _ _ _ _ L) as (t2 & E2 & R2).
  unfold nkfs_inode_deref. apply spec_bind, (spec_iget p i); [done|]. apply spec_bind, spec_bug_on; [lia|].
  apply spec_bind, (spec_iupd p i); [done|]. rewrite Hr. cbn [Z.sub Z.add Z.opp Z.pos_sub Z.eqb].
  unfold nkfs_inode_release, nkfs_inodes_remove, nkfs_inode_free. set (i0 := set_ref _ i).
  apply spec_bind, spec_bind, (spec_iget p i0); [apply lookup_insert_eq|]. apply spec_bind, spec_gets.
  cbn [with_objs inodes]. change (i_block i0) with (i_block i). rewrite Hi.
  apply spec_bind, spec_bug_on; [by rewrite Nat.eqb_refl|]. apply spec_modify.
  apply spec_bind, (spec_iget p i0); [apply lookup_insert_eq|]. change (blocks_tree i0) with (blocks_tree i). rewrite E1.
  apply spec_bind. eapply spec_deref_tree; [exact R1|]. change (blocks_sum_tree i0) with (blocks_sum_tree i). rewrite E2.
  apply spec_bind. eapply spec_deref_tree; [exact R2|]. apply spec_modify. cbn [with_objs with_inodes objs]. rewrite delete_insert_eq.
  split; [|done]. exists p, a, tb, tsb, m, ms. split; [|exact HF]. eapply opened_cong; [exact O|done..|]. apply lookup_insert_eq.
Qed.

(** The roots of a small file can be read back. *)
Lemma file_good s p i n f : inode_file s p i n f -> (n <= t_safe)%nat ->
  t_good (st s) (blocks_tree_block i) = true /\ t_good (st s) (blocks_sum_tree_block i) = true.
Proof.
  intros (a & tb & tsb & m & ms & O & Hm & Hms & _ & _ & _ & -> & ->) Hn. pose proof (op_lay _ _ _ _ _ _ _ _ _ _ _ _ O) as L.
  destruct (lay_tree _ _ _ _ _ _ _ _ L) as (t1 & _ & R1), (lay_sums _ _ _ _ _ _ _ _ L) as (t2 & _ & R2).
  split; eapply t_good_ok; (done || lia).
Qed.

(** An object in memory for the file with header [i]. *)
Definition reopened (s : sb_state) (i : nkfs_inode) (n : nat) (f : Z -> option (list byte)) (r : option nat) (s' : sb_state) : Prop :=
  exists q i', r = Some q /\ inode_file s' q i' n f /\ ino i' = ino i /\ i_size i' = i_size i /\ i_block i' = i_block i /\
  i_ref i' = 1 /\ i_sem i' = 0 /\ inodes s' = <[i_block i := q]> (inodes s) /\ st s' = st s /\ bsize s' = bsize s /\
  same_id i' (set_ref 1 i) /\ q = next s /\ next s' = S (next s) /\ inodes_active s' = inodes_active s + 1 /\ delete q (objs s') = delete q (objs s).

Lemma spec_reopen s i n f : file_on_disk s i n f -> inode_wf i -> inodes s !! i_block i = None ->
  t_good (st s) (blocks_tree_block i) = true -> t_good (st s) (blocks_sum_tree_block i) = true ->
  StMonad.spec (nkfs_inode_read e ctx (i_block i)) s (reopened s i n f).
Proof.
  intros (p0 & a & tb & tsb & m & ms & O & Hm & Hms & Hf & Hd & Hh & Htb & Htsb) Wf Hi G1 G2.
  pose proof (op_lay _ _ _ _ _ _ _ _ _ _ _ _ O) as L. destruct (lay_tree _ _ _ _ _ _ _ _ L) as (t1 & E1 & R1), (lay_sums _ _ _ _ _ _ _ _ L) as (t2 & E2 & R2).
  destruct (lay_own _ _ _ _ _ _ _ _ L) as (_ & Hr & _). destruct (lay_page _ _ _ _ _ _ _ _ L) as [_ Hp]. cbn in Hp.
  pose proof (lay_bs _ _ _ _ _ _ _ _ L) as Hbs. assert (Hx : DioInv.idx_ok (ddev s) (i_block i)) by (apply (lay_dev _ _ _ _ _ _ _ _ L); lia).
  rewrite Htb in G1. rewrite Htsb in G2.
  destruct (t_open_ok t1 _ tb m (lay_st _ _ _ _ _ _ _ _ L) R1 G1) as (t1' & Et1 & R1').
  destruct (t_open_ok t2 _ tsb ms (lay_st _ _ _ _ _ _ _ _ L) R2 G2) as (t2' & Et2 & R2'). cbn [with_objs st] in *.
  unfold nkfs_inode_read, nkfs_inodes_lookup. apply spec_bind, spec_bind, spec_gets. rewrite Hi. apply spec_ret.
  apply spec_bind, spec_ialloc; [apply O|]. set (q := next s). apply spec_bind. eapply spec_iupd; [apply lookup_insert_eq|].
  apply spec_bind, spec_dio. eapply (cache_get X (ddev s)); [apply O|exact Hx|]. intros c d1 C1 Ev1.
  apply spec_bind. unfold StMonad.spec at 1, mfails. cbn [with_ddev with_objs with_new with_mtick mfail mtick]. pose proof (op_mem _ _ _ _ _ _ _ _ _ _ _ _ O) as M. cbn in M. rewrite M.
  apply spec_bind, spec_dio. eapply (cache_read X d1); [exact C1|by left|lia|lia|rewrite (DioInv.env_size _ _ Ev1); cbn in Hbs; lia|].
  change (Z.to_nat 0) with 0%nat. change (Z.to_nat 56) with 56%nat. rewrite Hh.
  apply spec_bind. eapply spec_iget; [cbn [with_ddev with_objs with_mtick objs]; apply lookup_insert_eq|].
  rewrite (parse_to_on_disk _ i Wf). cbn [Z.eqb negb].
  apply spec_bind. eapply spec_iupd; [apply lookup_insert_eq|]. cbn [read_into blocks_tree_block blocks_sum_tree_block]. rewrite Htb, Htsb.
  apply spec_bind. eapply spec_on_store; [exact Et1|]. apply spec_bind. eapply spec_iupd; [apply lookup_insert_eq|].
  apply spec_bind. eapply spec_on_store; [exact Et2|]. apply spec_bind. eapply spec_iupd; [apply lookup_insert_eq|].
  match goal with |- StMonad.spec _ (with_objs (<[q := ?j]> _) _) _ => set (i1 := j) end.
  apply spec_bind. eapply (spec_index_insert _ q i1); [apply lookup_insert_eq|done|done|].
  rewrite Nat.eqb_refl. cbn [negb]. apply spec_bind. eapply (spec_deref_more _ q (set_ref 2 i1)); [apply lookup_insert_eq|done|].
  apply spec_bind, spec_dio. eapply (cache_put X d1); [exact C1|]. intros d2 C2 Ev2. apply spec_ret.
  assert (Ev : DioInv.env_same (ddev s) d2) by (by eapply DioInv.env_trans).
  exists q, i1. split; [done|]. split; [|do 8 (split; [done|]); split; [by split; rewrite ?Htb, ?Htsb|]; do 3 (split; [done|]); cbn; by rewrite ?insert_insert_eq, ?delete_insert_eq].
  exists a, tb, tsb, m, ms. split; [|do 3 (split; [done|]); split; [done|]; split; [|done]].
  - pose proof (layout_ddev _ _ _ _ _ _ _ _ d2 L Ev) as L2. pose proof (op_sums _ _ _ _ _ _ _ _ _ _ _ _ O) as S.
    split; [|exact C2|exact S|exact M|apply O]. destruct L2. split; try done.
    + cbn [with_ddev with_objs objs]. by rewrite lookup_insert_eq.
    + by exists t1'.
    + by exists t2'.
  - change (i_block i1) with (i_block i). rewrite Hh. unfold nkfs_inode_to_on_disk, inode_fields. cbn [i1 set_sum_tree set_tree read_into ino i_size blocks_tree_block blocks_sum_tree_block]. by rewrite Htb, Htsb.
Qed.

End Life.

End InodeLife.
