(* ===== verification/InodeClaims.v ===== *)
(** * What inodes promise

    The theorems about files: creation, writing and reading, the round trip
    through the device, and the lock that reading leaves taken. *)

From Stdlib Require Import ZArith Lia.
From coqutil Require Import Byte.
From stdpp Require Import base list gmap.
From S2P Require Import Prelude XXHash Bytes StMonad Csum DioPages Dio DioInv DioEvict DioSpec DioClient Mem CharHex ObjId Super.
From S2P Require Import BtreeNode BtreeNodeSpec BtreeDisk BlockTree Inode InodeSpec InodeOps InodeIo InodeFile InodeLife.
Import XXHash Bytes StMonad Csum ObjId DioClient Inode InodeSpec InodeOps InodeIo InodeFile InodeLife.
Local Open Scope Z_scope.
Local Open Scope stm_scope.

Module InodeClaims.

Section Claims.
Context {T St : Type} `{BlockTree T St} `{KT : Kept T}.
Context (e : XXH_endianess) (ctx : csum_ctx) (ctx_ok : length (mem64 ctx) = 32%nat).
Context (X : Z).

Local Abbreviation sb_state := (Inode.sb_state T St).
Local Abbreviation nkfs_inode := (Inode.nkfs_inode T).
Local Abbreviation inode_file := (inode_file e ctx X).

(** ** Whole requests *)

Lemma spec_io_place (s : sb_state) p i n f off {A} (k : Z -> Z -> StMonad.M sb_state A) (Q : A -> sb_state -> Prop) : inode_file s p i n f -> 0 <= off ->
  (forall v loff, off = v * bsize s + loff -> v = off / bsize s -> loff = off mod bsize s -> 0 <= v -> 0 <= loff < bsize s -> StMonad.spec (k v loff) s Q) ->
  StMonad.spec (let* bs := gets bsize in let* vb := lift (Super.nkfs_div off bs) in let* loff := lift (Super.nkfs_mod off bs) in k vb loff) s Q.
Proof.
  intros HF Ho HQ. pose proof (file_bsize e ctx X _ _ _ _ _ HF) as Hbs. apply spec_bind, spec_gets.
  apply spec_bind. eapply spec_lift; [apply Super.nkfs_div_ok; lia|]. apply spec_bind. eapply spec_lift; [apply Super.nkfs_mod_ok; lia|].
  apply HQ; [pose proof (Z.div_mod off (bsize s) ltac:(lia)); lia|done|done|apply Z.div_pos; lia|apply Z.mod_pos_bound; lia].
Qed.

Lemma spec_io_write s p i n f off buf : inode_file s p i n f -> i_sem i = 0 -> 0 <= off -> Z.of_nat (length buf) < 2 ^ 31 ->
  off + Z.of_nat (length buf) < 2 ^ 63 -> (n + span (bsize s) (off mod bsize s) (Z.of_nat (length buf)) <= t_cap)%nat ->
  StMonad.spec (nkfs_inode_io_buf_write e ctx p off buf) s
    (wrote_at e ctx X s p i n f off buf 0 (span (bsize s) (off mod bsize s) (Z.of_nat (length buf)))).
Proof.
  intros HF Hs Ho Hl Hp Hn. unfold nkfs_inode_io_buf_write. eapply spec_io_place; [exact HF|done|]. intros v loff -> _ El Hv Hlo. rewrite <- El in *.
  apply (spec_write_loop e ctx ctx_ok X (length buf)); try done; lia.
Qed.

Lemma spec_io_read s p i n f off len : inode_file s p i n f -> 0 <= off -> 0 <= len < 2 ^ 31 -> off + len < 2 ^ 63 -> 0 <= i_size i < 2 ^ 64 ->
  StMonad.spec (nkfs_inode_io_buf_read e ctx p off len) s (fun r s' => r = file_read (bsize s) (i_size i) f off len /\
    exists k, readers e ctx X s p i n f k s' /\ 0 <= k /\ (0 < len -> off < i_size i -> 0 < k)).
Proof.
  intros HF Ho Hl Hp Hz. unfold nkfs_inode_io_buf_read. eapply spec_io_place; [exact HF|done|]. intros v loff -> _ _ Hv Hlo.
  eapply spec_mono; [apply (spec_read_loop e ctx ctx_ok X (Z.to_nat len) s p i n f v loff len []); try done; lia|].
  intros r s' [-> HR]. split; [|done]. unfold after. by destruct (file_read _ _ _ _ _) as [|[]].
Qed.

(** ** Waiting for a lock *)

Lemma hang_bind {A B} (m : StMonad.M sb_state A) (k : A -> StMonad.M sb_state B) (s : sb_state) : StMonad.spec m s (fun a s' => k a s' = Hang) -> bind m k s = Hang.
Proof. unfold StMonad.spec, bind. by destruct (m s). Qed.

(** With a reader left, a write to a block of the file waits for ever. *)
Lemma write_block_hangs s p i n f v off buf b : inode_file s p i n f -> i_sem i <> 0 -> vrange v -> f v = Some b -> 0 <= off ->
  off + Z.of_nat (length buf) <= bsize s -> (n < t_cap)%nat -> nkfs_inode_write_block_buf e ctx p v off buf s = Hang.
Proof.
  intros (a & tb & tsb & m & ms & O & Hm & Hms & Hf & _) Hsem Hv Hb H1 H2 Hn.
  unfold nkfs_inode_write_block_buf. apply hang_bind, spec_gets. apply hang_bind, spec_bug_on; [lia|].
  apply hang_bind. eapply (spec_read_create e ctx ctx_ok X); [exact O|done|lia|lia| |].
  - intros err i1 s1 _ _ Em. rewrite Hf in Hb by done. unfold content in Hb. by rewrite Em in Hb.
  - intros x sx c d i1 s1 a1 m1 ms1 O1 [Gm Gx Gs Ga Gz] F1 W1. cbn [clu opened_ib]. assert (B1 : bsize s1 = bsize s) by apply W1.
    assert (Em : m1 !! kv e v = Some x) by (rewrite Gm; apply lookup_insert_eq).
    pose proof (spec_write_held e ctx ctx_ok X s1 a1 p i1 tb tsb m1 ms1 v x sx c d off buf
      (fun err s2 => err = 0 /\ objs s2 !! p = Some i1) O1 Hv Em ltac:(by rewrite B1) H1 ltac:(lia)) as Sp. rewrite B1 in Sp.
    apply spec_done in Sp as (err & s2 & E2 & -> & Eo).
    { revert E2. unfold bind at 1 2. destruct (dio (Dio.dio_clu_write c buf off) s1) as [err s3| | |]; [|done..]. intros E2.
      unfold bind at 1. rewrite E2. cbn [Z.eqb negb]. unfold bind at 1 2, down_write, get. unfold bind at 1. rewrite Eo.
      rewrite (sf_sem _ _ F1). by rewrite (proj2 (Z.eqb_neq _ _)). }
    intros s2 a2 O2 _ _. split; [done|]. by apply (opened_obj _ _ _ _ _ _ _ _ _ _ _ _ O2).
Qed.

Lemma io_write_hangs s p i n f off buf : inode_file s p i n f -> i_sem i <> 0 -> 0 <= off -> buf <> [] -> Z.of_nat (length buf) < 2 ^ 31 ->
  off < 2 ^ 63 -> (n < t_cap)%nat -> is_Some (f (off / bsize s)) -> nkfs_inode_io_buf_write e ctx p off buf s = Hang.
Proof.
  intros HF Hs Ho Hne Hl Hp Hn [b Hb]. pose proof (file_bsize e ctx X _ _ _ _ _ HF) as Hbs.
  assert (Hlb : (0 < length buf)%nat) by (destruct buf; [done|cbn; lia]).
  unfold nkfs_inode_io_buf_write. apply hang_bind, spec_gets. apply hang_bind. eapply spec_lift; [apply Super.nkfs_div_ok; lia|].
  apply hang_bind. eapply spec_lift; [apply Super.nkfs_mod_ok; lia|]. pose proof (Z.mod_pos_bound off (bsize s) ltac:(lia)) as Hlo.
  assert (exists l, length buf = S l) as [l El] by (exists (pred (length buf)); lia). rewrite El, write_loop_S by done. apply hang_bind, spec_gets. cbv zeta. rewrite wrap_small by lia.
  change (if bsize s <? Z.of_nat (length buf) + off mod bsize s then bsize s - off mod bsize s else Z.of_nat (length buf))
    with (turn (bsize s) (off mod bsize s) (Z.of_nat (length buf))).
  destruct (turn_ok (bsize s) (off mod bsize s) (Z.of_nat (length buf)) ltac:(lia) ltac:(lia) ltac:(lia)) as (Ht & Htb & _).
  unfold bind at 1. rewrite (write_block_hangs s p i n f _ _ _ b HF Hs); try done; [|lia|rewrite length_take; lia].
  unfold vrange. split; [apply Z.div_pos; lia|]. apply Z.div_lt_upper_bound; lia.
Qed.

(** ** Theorems *)

(** With three free blocks on a device that works, [nkfs_inode_create] gives an
    inode for the empty file: a new block holds its header, both trees are
    empty, the object has one reference and is in the index. *)
Theorem nkfs_inode_create_empty o s a :
  rest X s a -> st_room (st s) 3 -> exists r s', nkfs_inode_create e ctx o s = Done r s' /\ made e ctx X s o r s'.
Proof. intros R Hr. apply spec_done. by apply (spec_inode_create e ctx ctx_ok X o s a). Qed.


(** (C12) [nkfs_inode_io_buf] without [write] gives the bytes of the file from [off]
    up to its size, with the end-of-file flag exactly when the request reaches
    the end, [-ERANGE] beyond it and [-ENOENT] where a block is missing; the file
    stays as it is. *)
Theorem nkfs_inode_io_buf_read_refines s p i n f off len :
  inode_file s p i n f -> 0 <= off -> 0 <= len < 2 ^ 31 -> off + len < 2 ^ 63 -> 0 <= i_size i < 2 ^ 64 ->
  exists s' k, nkfs_inode_io_buf_read e ctx p off len s = Done (file_read (bsize s) (i_size i) f off len) s' /\
  readers e ctx X s p i n f k s'.
Proof.
  intros HF Ho Hl Hp Hz. destruct (proj1 (spec_done _ _ _) (spec_io_read s p i n f off len HF Ho Hl Hp Hz)) as (r & s' & E & -> & k & R & _).
  by exists s', k.
Qed.

(** Bytes written to a file are read back: with free blocks enough, writing a
    buffer reports its whole length, and reading as many bytes at the same place
    gives the buffer. *)
Theorem nkfs_inode_write_then_read s p i n f off buf :
  inode_file s p i n f -> i_sem i = 0 -> 0 <= i_size i < 2 ^ 63 -> 0 <= off -> buf <> [] -> Z.of_nat (length buf) < 2 ^ 31 ->
  off + Z.of_nat (length buf) < 2 ^ 63 ->
  let w := span (bsize s) (off mod bsize s) (Z.of_nat (length buf)) in
  (n + w <= t_cap)%nat -> st_room (st s) (2 * w) ->
  exists s1 eof s2, nkfs_inode_io_buf_write e ctx p off buf s = Done (inr (Z.of_nat (length buf))) s1 /\
  nkfs_inode_io_buf_read e ctx p off (Z.of_nat (length buf)) s1 = Done (inr (buf, eof)) s2.
Proof.
  intros HF Hs Hz Ho Hne Hl Hp w Hn Hroom. assert (Hlb : (0 < length buf)%nat) by (destruct buf; [done|cbn; lia]).
  destruct (proj1 (spec_done _ _ _) (spec_io_write s p i n f off buf HF Hs Ho Hl Hp Hn)) as (r & s1 & E1 & i1 & f1 & k & I1 & S1 & B1 & Hk & P1 & HF1 & Z1 & R1).
  destruct r as [err|c]; [by destruct R1 as (_ & _ & Hno & _)|]. destruct R1 as (-> & -> & _). rewrite firstn_all in P1.
  rewrite (proj2 (Nat.ltb_lt _ _)) in Z1 by lia.
  destruct (proj1 (spec_done _ _ _) (spec_io_read s1 p i1 _ f1 off (Z.of_nat (length buf)) HF1 Ho ltac:(lia) Hp ltac:(lia))) as (r & s2 & E2 & -> & _).
  exists s1, (i_size i1 <=? off + Z.of_nat (length buf)), s2. split; [done|]. rewrite E2. unfold file_read.
  rewrite (proj2 (Z.leb_gt _ _)), (proj2 (Z.ltb_ge _ _)) by lia. rewrite Z.min_l, Nat2Z.id by lia. rewrite B1. by rewrite (put_at_read _ _ _ _ _ P1).
Qed.

(** (C13) Dropping the last reference to an inode and reading it again gives the same
    file: same bytes, size and id, with one reference and no lock held.  The
    device and the memory do not fail, and the file has at most [t_safe] blocks,
    so that the roots of its trees can be read back: 1024 in [nkfs_store]. *)
Theorem nkfs_inode_close_reopen s p i n f :
  inode_file s p i n f -> i_ref i = 1 -> inodes s !! i_block i = Some p -> inode_wf i -> (n <= t_safe)%nat ->
  exists s1 r s2, nkfs_inode_deref p s = Done tt s1 /\ objs s1 = delete p (objs s) /\
  nkfs_inode_read e ctx (i_block i) s1 = Done r s2 /\ reopened e ctx X s1 i n f r s2.
Proof.
  intros HF Hr Hi Wf Hn. destruct (file_good e ctx ctx_ok X _ _ _ _ _ HF Hn) as [G1 G2]. destruct (proj1 (spec_done _ _ _) (spec_close e ctx ctx_ok X s p i n f HF Hr Hi)) as ([] & s1 & E1 & D1 & I1 & O1 & _ & S1 & _).
  rewrite <- S1 in G1, G2. assert (Hi1 : inodes s1 !! i_block i = None) by (rewrite I1; apply lookup_delete_eq).
  destruct (proj1 (spec_done _ _ _) (spec_reopen e ctx ctx_ok X s1 i n f D1 Wf Hi1 G1 G2)) as (r & s2 & E2 & R2).
  by exists s1, r, s2.
Qed.

(** [nkfs_inode_read_block_buf] takes the inode's lock for reading and does not
    give it back on the way that reads data: after a read below the size of the
    file, a write to any block the file has waits for ever. *)
Theorem nkfs_inode_read_locks_out_writers s p i n f off len :
  inode_file s p i n f -> 0 <= i_sem i -> 0 <= off < i_size i -> 0 < len < 2 ^ 31 -> off + len < 2 ^ 63 -> i_size i < 2 ^ 64 -> (n < t_cap)%nat ->
  exists r s', nkfs_inode_io_buf_read e ctx p off len s = Done r s' /\
  forall off' buf, 0 <= off' < 2 ^ 63 -> buf <> [] -> Z.of_nat (length buf) < 2 ^ 31 -> is_Some (f (off' / bsize s)) ->
  nkfs_inode_io_buf_write e ctx p off' buf s' = Hang.
Proof.
  intros HF Hs Ho Hl Hp Hz Hn.
  destruct (proj1 (spec_done _ _ _) (spec_io_read s p i n f off len HF ltac:(lia) ltac:(lia) Hp ltac:(lia))) as (r & s' & E & _ & k & (i' & HF' & _ & _ & S' & B') & _ & Hk).
  specialize (Hk ltac:(lia) ltac:(lia)). exists r, s'. split; [done|]. intros off' buf Ho' Hne Hlb Hb.
  apply (io_write_hangs s' p i' n f); try done; [lia..|by rewrite B'].
Qed.

End Claims.

End InodeClaims.
