(* ===== verification/InodePages.v ===== *)
(** * Input and output by pages, and what it leaves alone

    [nkfs_inode_io_pages_write] and [nkfs_inode_io_pages_read] cut a request into
    pages; together the turns are one write or one read of the file.  In memory
    they change the inode they are given and nothing else. *)

From Stdlib Require Import ZArith Lia.
From coqutil Require Import Byte.
From stdpp Require Import base list gmap.
From S2P Require Import Prelude XXHash Bytes StMonad Csum DioPages Dio DioInv DioEvict DioSpec DioClient Mem CharHex ObjId Super.
From S2P Require Import BtreeNode BtreeNodeSpec BtreeDisk BlockTree Inode InodeSpec InodeOps InodeIo InodeFile InodeLife InodeClaims.
Import XXHash Bytes StMonad Csum ObjId DioClient Inode InodeSpec InodeOps InodeIo InodeFile InodeLife InodeClaims.
Local Open Scope Z_scope.
Local Open Scope stm_scope.

Module InodePages.

(** ** Pages as one buffer *)

Definition pages_ok (pages : list (list byte)) : Prop := Forall (fun pg => length pg = 4096%nat) pages.

(** The bytes of a request in its pages. *)
Definition window (pages : list (list byte)) (pg_off len : Z) : list byte :=
  take (Z.to_nat len) (drop (Z.to_nat pg_off) (concat pages)).

(** The bytes of the first page. *)
Definition page_turn (pg_off len : Z) : Z := if 4096 <? len + pg_off then 4096 - pg_off else len.

Lemma page_turn_ok pg_off len : 0 <= pg_off < 4096 -> 0 < len ->
  0 < page_turn pg_off len <= len /\ pg_off + page_turn pg_off len <= 4096 /\ (page_turn pg_off len = len \/ pg_off + page_turn pg_off len = 4096).
Proof. unfold page_turn. destruct (Z.ltb_spec 4096 (len + pg_off)); lia. Qed.

Lemma length_concat_pages pages : pages_ok pages -> length (concat pages) = (4096 * length pages)%nat.
Proof. apply length_concat_const. Qed.

Lemma window_length pages pg_off len : pages_ok pages -> 0 <= pg_off -> 0 <= len -> pg_off + len <= 4096 * Z.of_nat (length pages) ->
  Z.of_nat (length (window pages pg_off len)) = len.
Proof. intros P H1 H2 H3. unfold window. rewrite length_take, length_drop, length_concat_pages by done. lia. Qed.

Lemma window_cons pg pages pg_off len : length pg = 4096%nat -> 0 <= pg_off < 4096 -> 0 < len ->
  window (pg :: pages) pg_off len =
  field (Z.to_nat pg_off) (Z.to_nat (page_turn pg_off len)) pg ++ window pages 0 (len - page_turn pg_off len).
Proof.
  intros L Ho Hl. destruct (page_turn_ok pg_off len Ho Hl) as (Ht & Hb & He). set (t := page_turn pg_off len) in *.
  unfold window, field. cbn [concat]. rewrite drop_0, drop_app_le by lia.
  replace (Z.to_nat len) with (Z.to_nat t + Z.to_nat (len - t))%nat by lia. destruct He as [He|He].
  - rewrite He, Z.sub_diag, Nat.add_0_r, app_nil_r, take_app_le; [done|]. rewrite length_drop. lia.
  - rewrite (take_ge (drop _ pg)) by (rewrite length_drop; lia).
    replace (Z.to_nat t) with (length (drop (Z.to_nat pg_off) pg)) by (rewrite length_drop; lia). by rewrite take_app_add.
Qed.

(** The pages after a read of [d] into them. *)
Definition filled (pages : list (list byte)) (pg_off : Z) (d : list byte) (pages' : list (list byte)) : Prop :=
  length pages' = length pages /\ pages_ok pages' /\ concat pages' = memcpy_at (concat pages) (Z.to_nat pg_off) d.

Lemma filled_nil pages pg_off : pages_ok pages -> 0 <= pg_off -> filled pages pg_off [] pages.
Proof. intros P Ho. split; [done|]. split; [done|]. unfold memcpy_at. cbn. by rewrite Nat.add_0_r, take_drop. Qed.

Lemma filled_cons pg pages pg_off d1 d2 pages' : length pg = 4096%nat -> pages_ok pages -> 0 <= pg_off ->
  pg_off + Z.of_nat (length d1) <= 4096 -> (d2 <> [] -> pg_off + Z.of_nat (length d1) = 4096) -> filled pages 0 d2 pages' ->
  filled (pg :: pages) pg_off (d1 ++ d2) (memcpy_at pg (Z.to_nat pg_off) d1 :: pages').
Proof.
  intros L P Ho H1 H2 (L' & P' & E'). split; [cbn; lia|]. split; [constructor; [rewrite memcpy_at_length; lia|done]|].
  cbn [concat]. rewrite E'. unfold memcpy_at. rewrite !(take_app_le pg) by lia. rewrite <- !app_assoc. f_equal. f_equal.
  rewrite length_app. destruct d2 as [|x d2].
  - cbn [length app Nat.add]. rewrite drop_0, Nat.add_0_r. by rewrite drop_app_le by lia.
  - specialize (H2 ltac:(done)). rewrite (drop_ge pg) by lia. cbn [app Nat.add]. rewrite drop_app_ge by lia.
    change (Z.to_nat 0) with 0%nat. rewrite take_0. cbn [app]. f_equal. f_equal. f_equal. lia.
Qed.

(** ** Reading a file in two parts *)

Lemma file_read_app bs size f pos l1 l2 : 0 < l1 -> 0 <= l2 ->
  file_read bs size f pos (l1 + l2) =
  match file_read bs size f pos l1 with
  | inl err => inl err
  | inr (d, true) => inr (d, true)
  | inr (d, false) => after d (file_read bs size f (pos + l1) l2)
  end.
Proof.
  intros H1 H2. unfold file_read at 1 2. rewrite !(proj2 (Z.leb_gt _ 0)) by lia. destruct (Z.ltb_spec size pos) as [|Hs]; [done|].
  replace (Z.to_nat (Z.min (l1 + l2) (size - pos))) with
    (Z.to_nat (Z.min l1 (size - pos)) + Z.to_nat (Z.min l2 (size - pos - l1)))%nat by lia.
  rewrite read_at_add. destruct (read_at bs f pos (Z.to_nat (Z.min l1 (size - pos)))) as [d|]; [|done]. cbn [mbind option_bind].
  destruct (Z.leb_spec size (pos + l1)) as [He|He].
  - replace (Z.to_nat (Z.min l2 (size - pos - l1))) with 0%nat by lia. change (read_at bs f _ 0) with (Some (@nil byte)). cbn.
    rewrite app_nil_r. f_equal. f_equal. lia.
  - unfold file_read. destruct (Z.leb_spec l2 0).
    + assert (l2 = 0) as -> by lia. change (read_at bs f _ (Z.to_nat (Z.min 0 _))) with (read_at bs f (pos + Z.of_nat (Z.to_nat (Z.min l1 (size - pos)))) (Z.to_nat (Z.min 0 (size - pos - l1)))).
      replace (Z.to_nat (Z.min 0 (size - pos - l1))) with 0%nat by lia. cbn. do 2 f_equal. lia.
    + rewrite (proj2 (Z.ltb_ge _ _)) by lia. replace (pos + Z.of_nat (Z.to_nat (Z.min l1 (size - pos)))) with (pos + l1) by lia.
      replace (size - (pos + l1)) with (size - pos - l1) by lia. destruct (read_at bs f (pos + l1) _) as [d2|]; [|done]. cbn.
      do 2 f_equal. lia.
Qed.

(** Data that end before the request does end at the end of the file. *)
Lemma file_read_len bs size f pos len d eof : file_read bs size f pos len = inr (d, eof) -> 0 <= len ->
  Z.of_nat (length d) <= len /\ (eof = false -> Z.of_nat (length d) = len).
Proof.
  unfold file_read. destruct (Z.leb_spec len 0) as [H0|H0]; [intros [= <- <-] Hl; cbn; lia|].
  destruct (Z.ltb_spec size pos); [done|]. destruct (read_at bs f pos _) as [l|] eqn:E; [|done]. intros [= <- <-] _.
  assert (length l = Z.to_nat (Z.min len (size - pos))) as ->.
  { unfold read_at in E. apply length_mapM in E. by rewrite length_seq in E. }
  split; [lia|]. intros Hf. apply Z.leb_gt in Hf. lia.
Qed.

Section Pages.
Context {T St : Type} `{BlockTree T St} `{KT : Kept T}.
Context (e : XXH_endianess) (ctx : csum_ctx) (ctx_ok : length (mem64 ctx) = 32%nat).
Context (X : Z).

Local Abbreviation sb_state := (Inode.sb_state T St).
Local Abbreviation nkfs_inode := (Inode.nkfs_inode T).
Local Abbreviation inode_file := (inode_file e ctx X).

(** A page spans two blocks at most. *)
Lemma span_page bs off len : 4096 <= bs -> 0 <= off < bs -> 0 <= len <= 4096 -> (span bs off len <= 2)%nat.
Proof.
  intros Hb Ho Hl. unfold span. assert ((off + len + bs - 1) / bs < 3) by (apply Z.div_lt_upper_bound; lia). lia.
Qed.

Lemma spec_pages_write pages : forall s p i n f off pg_off len count,
  pages_ok pages -> inode_file s p i n f -> i_sem i = 0 -> 0 <= off -> 0 <= pg_off < 4096 -> 0 <= len ->
  pg_off + len <= 4096 * Z.of_nat (length pages) -> off + len < 2 ^ 63 -> 0 <= count -> count + len < 2 ^ 31 ->
  (n + 2 * length pages <= t_cap)%nat ->
  StMonad.spec (io_pages_write e ctx p off pg_off len pages count) s
    (wrote_at e ctx X s p i n f off (window pages pg_off len) count (2 * length pages)).
Proof.
  induction pages as [|pg pages IH]; intros s p i n f off pg_off len count P HF Hs Ho Hpo Hl Hlp Hp Hc Hcl Hn; cbn [io_pages_write].
  { cbn in Hlp. assert (len = 0) as -> by lia. apply spec_ret. by apply wrote_nothing. }
  destruct (Z.leb_spec len 0) as [H0|H0]; [assert (len = 0) as -> by lia; apply spec_ret; by apply wrote_nothing|].
  apply Forall_cons in P as [Lp P]. pose proof (file_bsize e ctx X _ _ _ _ _ HF) as Hbs. rewrite (wrap_small 32 (len + pg_off)) by (cbn in Hlp; lia).
  rewrite window_cons by done. destruct (page_turn_ok pg_off len Hpo H0) as (Ht & Hb & He).
  change (if 4096 <? len + pg_off then 4096 - pg_off else len) with (page_turn pg_off len). set (t := page_turn pg_off len) in *.
  set (c := field _ _ pg). assert (Lc : Z.of_nat (length c) = t) by (unfold c; rewrite field_length; lia).
  pose proof (Z.mod_pos_bound off (bsize s) ltac:(lia)) as Hm. pose proof (span_page (bsize s) (off mod bsize s) t ltac:(lia) Hm ltac:(lia)) as Hsp.
  cbn [length] in *. apply spec_bind. eapply spec_mono.
  { apply (spec_io_write e ctx ctx_ok X s p i n f off c HF Hs Ho); rewrite Lc; lia. }
  rewrite Lc. intros r s1 W1. apply (wrote_mono e ctx ctx_ok X _ _ _ _ _ _ _ _ _ 2 _ _ Hsp) in W1. clear Hsp.
  replace (2 * S (length pages))%nat with (2 + 2 * length pages)%nat by lia.
  destruct W1 as (i1 & f1 & k & I1 & S1 & B1 & Hk & P1 & HF1 & Z1 & R1). destruct r as [err|m].
  { apply spec_ret. exists i1, f1, k. destruct R1 as (He1 & Hk1 & Hno & R1). rewrite length_app. do 3 (split; [done|]). split; [lia|].
    split; [by rewrite take_app_le by lia|]. split; [eapply (file_mono e ctx ctx_ok X); [|exact HF1]; lia|]. split; [done|]. split; [done|].
    split; [lia|]. split; [|done]. intros R. apply Hno. eapply room_le; [|exact R]. lia. }
  destruct R1 as (-> & -> & Rm1). rewrite firstn_all in P1. rewrite (proj2 (Nat.ltb_lt _ _)) in Z1 by lia. rewrite Z.add_0_l, Lc in *.
  apply spec_bind, spec_bug_on; [by rewrite Z.eqb_refl|]. rewrite (wrap_small 64 (off + t)), (wrap_small 32 (count + t)) by lia.
  eapply spec_mono.
  { apply (IH s1 p i1 (n + 2)%nat f1 (off + t) 0 (len - t) (count + t)); try done; try lia. }
  intros r s2 W2.
  by eapply (wrote_trans e ctx ctx_ok X s p i n f off c count 2 s1 i1 f1); [| |lia|rewrite Z1, Lc| | |rewrite Lc; exact W2].
Qed.

(** What a read into pages gives. *)
Definition pages_read (bs size : Z) (f : Z -> option (list byte)) (off pg_off len : Z) (pages : list (list byte)) (count : Z)
    (r : Z + Z * list (list byte)) : Prop :=
  match file_read bs size f off len with
  | inl err => r = inl err
  | inr (d, _) => exists pages', r = inr (count + Z.of_nat (length d), pages') /\ filled pages pg_off d pages'
  end.

Lemma spec_pages_read pages : forall s p i n f off pg_off len count,
  pages_ok pages -> inode_file s p i n f -> 0 <= off -> 0 <= pg_off < 4096 -> 0 <= len ->
  pg_off + len <= 4096 * Z.of_nat (length pages) -> off + len < 2 ^ 63 -> 0 <= count -> count + len < 2 ^ 31 -> 0 <= i_size i < 2 ^ 64 ->
  StMonad.spec (io_pages_read e ctx p off pg_off len pages count) s (fun r s' =>
    pages_read (bsize s) (i_size i) f off pg_off len pages count r /\ exists k, readers e ctx X s p i n f k s' /\ 0 <= k).
Proof.
  induction pages as [|pg pages IH]; intros s p i n f off pg_off len count P HF Ho Hpo Hl Hlp Hp Hc Hcl Hz; cbn [io_pages_read].
  { cbn in Hlp. assert (len = 0) as -> by lia. apply spec_ret. split; [|exists 0; split; [exists i; by rewrite Z.add_0_r|lia]].
    exists []. cbn. rewrite Z.add_0_r. split; [done|]. apply filled_nil; [constructor|lia]. }
  destruct (Z.leb_spec len 0) as [H0|H0].
  { assert (len = 0) as -> by lia. apply spec_ret. split; [|exists 0; split; [exists i; by rewrite Z.add_0_r|lia]].
    exists (pg :: pages). cbn. rewrite Z.add_0_r. split; [done|]. apply filled_nil; [done|lia]. }
  apply Forall_cons in P as [Lp P]. rewrite (wrap_small 32 (len + pg_off)) by (cbn in Hlp; lia).
  destruct (page_turn_ok pg_off len Hpo H0) as (Ht & Hb & He).
  change (if 4096 <? len + pg_off then 4096 - pg_off else len) with (page_turn pg_off len). set (t := page_turn pg_off len) in *.
  pose proof (file_read_app (bsize s) (i_size i) f off t (len - t) ltac:(lia) ltac:(lia)) as Ea. replace (t + (len - t)) with len in Ea by lia.
  unfold pages_read. rewrite Ea. clear Ea.
  cbn [length] in *. apply spec_bind. eapply spec_mono; [apply (spec_io_read e ctx ctx_ok X s p i n f off t HF Ho); lia|].
  intros r s1 (-> & k & R1 & Hk & _). destruct (file_read (bsize s) (i_size i) f off t) as [err|[d eof]] eqn:Er.
  { apply spec_ret. split; [done|]. by exists k. }
  destruct (file_read_len _ _ _ _ _ _ _ Er ltac:(lia)) as [Ld Lf]. rewrite (wrap_small 32 (count + _)) by lia. destruct eof.
  { apply spec_ret. split; [|by exists k]. exists (memcpy_at pg (Z.to_nat pg_off) d :: pages). split; [done|].
    rewrite <- (app_nil_r d) at 1. by apply filled_cons; try lia; try apply filled_nil. }
  specialize (Lf eq_refl). apply spec_bind, spec_bug_on; [by rewrite Lf, Z.eqb_refl|]. rewrite (wrap_small 64 (off + t)) by lia.
  destruct R1 as (i1 & F1 & I1 & Z1 & S1 & B1). apply spec_bind. eapply spec_mono.
  { apply (IH s1 p i1 n f (off + t) 0 (len - t) (count + Z.of_nat (length d))); try done; try lia. }
  rewrite B1, Z1. intros r s2 [R2 (k2 & (i2 & F2 & I2 & Z2 & S2 & B2) & Hk2)]. apply spec_ret. split.
  2:{ exists (k + k2). split; [|lia]. exists i2. split; [done|]. split; [by eapply same_id_trans|]. split; [congruence|]. split; [lia|congruence]. }
  unfold pages_read, after in *. destruct (file_read _ _ _ (off + t) (len - t)) as [err|[d2 eof2]] eqn:Er2; [by subst r|].
  destruct R2 as (pages' & -> & Hf). eexists. split; [rewrite length_app; do 2 f_equal; lia|]. apply filled_cons; try done; try lia.
  intros Hd. destruct (file_read_len _ _ _ _ _ _ _ Er2 ltac:(lia)) as [Ld2 _]. destruct d2; [done|]. cbn in Ld2. lia.
Qed.

(** ** What stays in memory *)

(** The index and the inodes but [p]. *)
Record others (p : nat) (s s' : sb_state) : Prop := {
  ot_inodes : inodes s' = inodes s;
  ot_active : inodes_active s' = inodes_active s;
  ot_next : next s' = next s;
  ot_objs : delete p (objs s') = delete p (objs s)
}.

Lemma others_refl p s : others p s s.
Proof. done. Qed.

Lemma others_trans p s1 s2 s3 : others p s1 s2 -> others p s2 s3 -> others p s1 s3.
Proof. intros [] []. split; congruence. Qed.

(** A call that, if it comes back, has changed nothing else. *)
Definition only {A} (p : nat) (m : StMonad.M sb_state A) : Prop := forall s, ends m s (fun _ => others p s).

Lemma only_ret {A} p (a : A) : only p (ret a).
Proof. intros s. apply ends_ret, others_refl. Qed.
Lemma only_gets {A} p (f : sb_state -> A) : only p (gets f).
Proof. intros s. apply ends_gets, others_refl. Qed.
Lemma only_bind {A B} p (m : StMonad.M sb_state A) (k : A -> StMonad.M sb_state B) : only p m -> (forall a, only p (k a)) -> only p (bind m k).
Proof.
  intros Hm Hk s. apply ends_bind. eapply ends_mono; [apply Hm|]. intros a s1 O1. eapply ends_mono; [apply Hk|].
  intros b s2 O2. exact (others_trans _ _ _ _ O1 O2).
Qed.
Lemma only_bug_on p b : only p (BUG_ON b).
Proof. intros s. apply ends_bug_on. intros _. apply others_refl. Qed.
Lemma only_lift {A} p (o : outcome A) : only p (lift o).
Proof. intros s. apply ends_lift. intros a _. apply others_refl. Qed.
Lemma only_stuck {A} p : only p (@crash _ A) /\ only p (@hang _ A) /\ only p (@no_fuel _ A).
Proof. split; [|split]; intros s a s' E; discriminate E. Qed.
Lemma only_dio {A} p (m : StMonad.M Dio.dio_dev A) : only p (dio m).
Proof. intros s a s' E. unfold dio in E. destruct (m (ddev s)); [|discriminate E..]. by injection E as _ <-. Qed.
Lemma only_on_store {A} p (f : St -> outcome (A * St)) : only p (on_store f).
Proof. intros s a s' E. unfold on_store in E. destruct (f (st s)) as [[a' x]|]; [|discriminate E]. by injection E as _ <-. Qed.
Lemma only_get p : only p (get p).
Proof. intros s a s' E. unfold get in E. destruct (objs s !! p); [|discriminate E]. by injection E as _ <-. Qed.
Lemma only_upd p f : only p (upd p f).
Proof.
  intros s a s' E. unfold upd in E. destruct (objs s !! p); [|discriminate E]. injection E as _ <-. split; try done. cbn. apply delete_insert_eq.
Qed.
Lemma only_mfails p : only p mfails.
Proof. intros s a s' E. by injection E as _ <-. Qed.

Ltac only_step :=
  match goal with
  | |- only _ (bind _ _) => apply only_bind; [|intros]
  | |- only _ (match ?x with _ => _ end) => destruct x
  | |- only _ _ => first [apply only_ret | apply only_gets | apply only_bug_on | apply only_lift | apply only_stuck | apply only_dio
      | apply only_on_store | apply only_get | apply only_upd | apply only_mfails | assumption | solve [eauto with only]]
  | |- forall _, _ => intro
  end.

Create HintDb only.

Lemma only_on_tree {A} p w (f : T -> St -> outcome (A * T * St)) : only p (on_tree p w f).
Proof. unfold on_tree. repeat only_step. Qed.
#[local] Hint Resolve only_on_tree : only.

Lemma only_find p w v : only p (find_key e p w v).
Proof. apply only_on_tree. Qed.
Lemma only_insert p w v x : only p (insert_key e p w v x).
Proof. apply only_on_tree. Qed.
Lemma only_delete p w v : only p (delete_key e p w v).
Proof. apply only_on_tree. Qed.
Lemma only_block_alloc p : only p __nkfs_inode_block_alloc.
Proof. apply only_on_store. Qed.
Lemma only_block_free p b : only p (__nkfs_inode_block_free b).
Proof. apply only_on_store. Qed.
#[local] Hint Resolve only_find only_insert only_delete only_block_alloc only_block_free : only.

Lemma only_relse p ib : only p (nkfs_inode_block_relse ib).
Proof. unfold nkfs_inode_block_relse, put_opt. repeat only_step. Qed.
Lemma only_block_write p ib : only p (nkfs_inode_block_write e ctx ib).
Proof. unfold nkfs_inode_block_write. repeat only_step. Qed.
Lemma only_check_sum p ib : only p (nkfs_inode_block_check_sum e ctx ib).
Proof. unfold nkfs_inode_block_check_sum. repeat only_step. Qed.
Lemma only_open_clus p ib : only p (nkfs_inode_block_open_clus ib).
Proof. unfold nkfs_inode_block_open_clus. repeat only_step. Qed.
#[local] Hint Resolve only_relse only_block_write only_check_sum only_open_clus : only.

Lemma only_alloc_fail p ib x y err : only p (alloc_fail e p ib x y err).
Proof. unfold alloc_fail. repeat only_step. Qed.
#[local] Hint Resolve only_alloc_fail : only.
Lemma only_alloc_open p ib new : only p (alloc_open e p ib new).
Proof. unfold alloc_open. repeat only_step. Qed.
#[local] Hint Resolve only_alloc_open : only.
Lemma only_alloc p v : only p (nkfs_inode_block_alloc e p v).
Proof. unfold nkfs_inode_block_alloc. repeat only_step. Qed.
Lemma only_read p v : only p (nkfs_inode_block_read e p v).
Proof. unfold nkfs_inode_block_read. repeat only_step. Qed.
#[local] Hint Resolve only_alloc only_read : only.
Lemma only_read_create p v : only p (nkfs_inode_block_read_create e ctx p v).
Proof. unfold nkfs_inode_block_read_create, nkfs_inode_block_erase. repeat only_step. Qed.
Lemma only_inode_write p : only p (nkfs_inode_write e ctx p).
Proof. unfold nkfs_inode_write. repeat only_step. Qed.
#[local] Hint Resolve only_read_create only_inode_write : only.
Lemma only_write_dirty p : only p (nkfs_inode_write_dirty e ctx p).
Proof. unfold nkfs_inode_write_dirty. repeat only_step. Qed.
#[local] Hint Resolve only_write_dirty : only.
Lemma only_write_block p v off buf : only p (nkfs_inode_write_block_buf e ctx p v off buf).
Proof. unfold nkfs_inode_write_block_buf, down_write, nkfs_inode_set_size. repeat only_step. Qed.
Lemma only_read_block p v off len : only p (nkfs_inode_read_block_buf e ctx p v off len).
Proof. unfold nkfs_inode_read_block_buf, down_read, up_read. repeat only_step. Qed.
#[local] Hint Resolve only_write_block only_read_block : only.

Lemma only_write_loop fuel p : forall v loff buf count, only p (write_loop e ctx fuel p v loff buf count).
Proof. induction fuel as [|fuel IH]; intros v loff [|x buf] count; cbn [write_loop]; repeat only_step. Qed.
Lemma only_read_loop fuel p : forall v loff res got, only p (read_loop e ctx fuel p v loff res got).
Proof. induction fuel as [|fuel IH]; intros v loff res got; cbn [read_loop]; repeat only_step. Qed.

Lemma only_io_write p off buf : only p (nkfs_inode_io_buf_write e ctx p off buf).
Proof. unfold nkfs_inode_io_buf_write. repeat only_step. apply only_write_loop. Qed.
Lemma only_io_read p off len : only p (nkfs_inode_io_buf_read e ctx p off len).
Proof. unfold nkfs_inode_io_buf_read. repeat only_step. apply only_read_loop. Qed.
#[local] Hint Resolve only_io_write only_io_read : only.

Lemma only_pages_write pages p : forall off pg_off len count, only p (io_pages_write e ctx p off pg_off len pages count).
Proof. induction pages as [|pg pages IH]; intros; cbn [io_pages_write]; repeat only_step. Qed.
Lemma only_pages_read pages p : forall off pg_off len count, only p (io_pages_read e ctx p off pg_off len pages count).
Proof. induction pages as [|pg pages IH]; intros; cbn [io_pages_read]; repeat only_step. Qed.

(** A specification and what stays, together. *)
Lemma spec_only {A} (m : StMonad.M sb_state A) p s (Q : A -> sb_state -> Prop) : StMonad.spec m s Q -> only p m ->
  StMonad.spec m s (fun a s' => Q a s' /\ others p s s').
Proof. intros Sp O. apply spec_done in Sp as (a & s' & E & HQ). apply spec_done. exists a, s'. split; [done|]. split; [done|]. by eapply O. Qed.

End Pages.

End InodePages.
