(* ===== verification/SbList.v ===== *)
(** * Superblocks and their objects (src/core/super.c)

    A superblock is its header, the state of its inodes, its tree from object id
    to inode block, a reference count and a flag.  The host keeps a list of them;
    an operation on an object finds the superblock whose tree has the id.

    [sbo] are the superblocks in memory by pointer, [sb_list] the list in order,
    [lfail] which allocation of a [struct nkfs_sb_link] fails.  [sb_list_lock] is
    taken and released inside each call, which runs alone here.

    A tree object is in memory exactly between [nkfs_btree_create] and its last
    dereference, and has its signature all that time: the assertions
    [inodes_tree->sig1 != NKFS_BTREE_SIG1] are part of [inodes_tree] being
    [Some].  [used_blocks] lives in the store of blocks ([st_count]); the field of
    [sb_hdr] is what was read when the superblock was loaded. *)

From Stdlib Require Import ZArith Lia.
From coqutil Require Import Byte.
From stdpp Require Import base list gmap.
From S2P Require Import Prelude XXHash Bytes StMonad Csum DioPages Dio DioClient Mem CharHex ObjId Super BtreeNode BtreeDisk BlockTree Inode.
Import XXHash Bytes StMonad Csum ObjId.
Local Open Scope Z_scope.
Local Open Scope stm_scope.

Module SbList.

Section SbList.
Context {T St : Type} `{BlockTree T St}.
Context (e : XXH_endianess) (ctx : csum_ctx).

Record nkfs_sb := MkSb {
  sb_hdr : Super.nkfs_sb;
  sb_in : Inode.sb_state T St;
  inodes_tree : option T;
  sb_refs : Z;
  stopping : bool;
  dev_name : list byte
}.

Record host := Host {
  sbo : gmap nat nkfs_sb;
  sb_list : list nat;
  lfail : nat -> bool;
  ltick : nat
}.

Definition with_in (s : Inode.sb_state T St) (b : nkfs_sb) : nkfs_sb :=
  MkSb (sb_hdr b) s (inodes_tree b) (sb_refs b) (stopping b) (dev_name b).
Definition with_tree (t : option T) (b : nkfs_sb) : nkfs_sb :=
  MkSb (sb_hdr b) (sb_in b) t (sb_refs b) (stopping b) (dev_name b).
Definition set_refs (r : Z) (b : nkfs_sb) : nkfs_sb :=
  MkSb (sb_hdr b) (sb_in b) (inodes_tree b) r (stopping b) (dev_name b).
Definition set_stopping (v : bool) (b : nkfs_sb) : nkfs_sb :=
  MkSb (sb_hdr b) (sb_in b) (inodes_tree b) (sb_refs b) v (dev_name b).

Definition with_sbo (o : gmap nat nkfs_sb) (h : host) : host := Host o (sb_list h) (lfail h) (ltick h).
Definition with_list (l : list nat) (h : host) : host := Host (sbo h) l (lfail h) (ltick h).
Definition with_ltick (n : nat) (h : host) : host := Host (sbo h) (sb_list h) (lfail h) n.

(** ** Calls on one superblock *)

Abbreviation B := (StMonad.M nkfs_sb).

Definition inode {A} (m : StMonad.M (Inode.sb_state T St) A) : B A := fun b =>
  match m (sb_in b) with
  | Done a s => Done a (with_in s b)
  | Crash => Crash
  | Hang => Hang
  | NoFuel => NoFuel
  end.

(** The tree is used without looking whether there is one. *)
Definition on_itree {A} (f : T -> St -> outcome (A * T * St)) : B A := fun b =>
  match inodes_tree b with
  | None => Crash
  | Some t =>
      match f t (Inode.st (sb_in b)) with
      | Ret (a, t', x) => Done a (with_tree (Some t') (with_in (Inode.with_store x (sb_in b)) b))
      | Bug => Crash
      end
  end.

(** [(struct nkfs_btree_key * )obj_id]. *)
Definition id_key (o : nkfs_obj_id) : list byte := store e 8 (high o) ++ store e 8 (low o).

Definition find_obj (o : nkfs_obj_id) : B (Z * option Z) := on_itree (t_find (id_key o)).

(** Input and output hold the inode for the time of the call. *)
Definition nkfs_sb_get_obj (o : nkfs_obj_id) (off pg_off len : Z) (pages : list (list byte)) : B (Z + Z * list (list byte)) :=
  let* stop := gets stopping in
  if (stop : bool) then ret (inl (- EAGAIN))
  else
    let* f := find_obj o in
    if negb (fst f =? 0) then ret (inl (fst f))
    else
      let iblock := default 0 (snd f) in
      let* p := inode (Inode.nkfs_inode_read e ctx iblock) in
      match p with
      | None => ret (inl (- EIO))
      | Some p =>
          let* i := inode (Inode.get p) in
          do* BUG_ON (negb (Inode.i_block i =? iblock)) in
          let* r := if negb (nkfs_obj_id_cmp (Inode.ino i) o =? 0) then ret (inl (- ENOENT))
                    else inode (Inode.nkfs_inode_io_pages_read e ctx p off pg_off len pages) in
          do* inode (Inode.nkfs_inode_deref p) in
          ret r
      end.

Definition nkfs_sb_put_obj (o : nkfs_obj_id) (off pg_off len : Z) (pages : list (list byte)) : B Z :=
  let* stop := gets stopping in
  if (stop : bool) then ret (- EAGAIN)
  else
    let* f := find_obj o in
    if negb (fst f =? 0) then ret (fst f)
    else
      let iblock := default 0 (snd f) in
      let* p := inode (Inode.nkfs_inode_read e ctx iblock) in
      match p with
      | None => ret (- EIO)
      | Some p =>
          let* i := inode (Inode.get p) in
          do* BUG_ON (negb (Inode.i_block i =? iblock)) in
          let* r := inode (Inode.nkfs_inode_io_pages_write e ctx p off pg_off len pages) in
          do* inode (Inode.nkfs_inode_deref p) in
          ret (match r with inl err => err | inr _ => 0 end)
      end.

(** [rnd]: what the random source gives; its error is not looked at. *)
Definition nkfs_sb_create_obj (rnd : Z * list byte) : B (Z + nkfs_obj_id) :=
  let* stop := gets stopping in
  if (stop : bool) then ret (inl (- EAGAIN))
  else
    let o := snd (nkfs_obj_id_gen rnd) in
    let* p := inode (Inode.nkfs_inode_create e ctx o) in
    match p with
    | None => ret (inl (- ENOMEM))
    | Some p =>
        let* i := inode (Inode.get p) in
        let* err := on_itree (t_insert (id_key (Inode.ino i)) (Inode.i_block i) false) in
        do* (if negb (err =? 0) then inode (Inode.nkfs_inode_delete p) else ret tt) in
        do* inode (Inode.nkfs_inode_deref p) in
        ret (if negb (err =? 0) then inl err else inr o)
    end.

Definition nkfs_sb_delete_obj (o : nkfs_obj_id) : B Z :=
  let* t := gets inodes_tree in
  do* BUG_ON (negb (bool_decide (is_Some t))) in
  let* stop := gets stopping in
  if (stop : bool) then ret (- EAGAIN)
  else
    let* f := find_obj o in
    if negb (fst f =? 0) then ret (fst f)
    else
      let* p := inode (Inode.nkfs_inode_read e ctx (default 0 (snd f))) in
      match p with
      | None => ret (- EIO)
      | Some p =>
          let* i := inode (Inode.get p) in
          let* _ := on_itree (t_delete (id_key (Inode.ino i))) in
          do* inode (Inode.nkfs_inode_delete p) in
          do* inode (Inode.nkfs_inode_deref p) in
          ret 0
      end.

Record nkfs_obj_info := ObjInfo {
  info_obj_id : nkfs_obj_id;
  info_sb_id : nkfs_obj_id;
  info_dev_name : list byte;
  info_size : Z;
  info_block : Z;
  info_bsize : Z
}.

Definition NKFS_NAME_MAX_SZ : nat := 256.

Definition nkfs_sb_query_obj (o : nkfs_obj_id) : B (Z + nkfs_obj_info) :=
  let* t := gets inodes_tree in
  do* BUG_ON (negb (bool_decide (is_Some t))) in
  let* stop := gets stopping in
  if (stop : bool) then ret (inl (- EAGAIN))
  else
    let* f := find_obj o in
    if negb (fst f =? 0) then ret (inl (fst f))
    else
      let* p := inode (Inode.nkfs_inode_read e ctx (default 0 (snd f))) in
      match p with
      | None => ret (inl (- EIO))
      | Some p =>
          let* i := inode (Inode.get p) in
          let* b := gets id in
          let info := ObjInfo (Inode.ino i) (Super.id (sb_hdr b)) (take (NKFS_NAME_MAX_SZ - 1) (dev_name b)) (Inode.i_size i)
                        (Inode.i_block i) (Super.bsize (sb_hdr b)) in
          do* inode (Inode.nkfs_inode_deref p) in
          ret (inr info)
      end.

(** ** The list of superblocks *)

Abbreviation M := (StMonad.M host).

Definition on_sb {A} (p : nat) (m : B A) : M A := fun h =>
  match sbo h !! p with
  | None => Crash
  | Some b =>
      match m b with
      | Done a b' => Done a (with_sbo (<[p := b']> (sbo h)) h)
      | Crash => Crash
      | Hang => Hang
      | NoFuel => NoFuel
      end
  end.

Definition get_sb (p : nat) : M nkfs_sb := on_sb p (gets id).
Definition upd_sb (p : nat) (f : nkfs_sb -> nkfs_sb) : M unit := on_sb p (modify f).

Definition nkfs_sb_release (p : nat) : M unit :=
  on_sb p (fun b =>
    match inodes_tree b with
    | None => Done tt b
    | Some t =>
        match t_deref t (Inode.st (sb_in b)) with
        | Ret x => Done tt (with_in (Inode.with_store x (sb_in b)) b)
        | Bug => Crash
        end
    end).

Definition nkfs_sb_delete (p : nat) : M unit :=
  do* nkfs_sb_release p in
  modify (fun h => with_sbo (delete p (sbo h)) h).

(** The header with the allocator's counter. *)
Definition current_hdr (b : nkfs_sb) : Super.nkfs_sb :=
  let h := sb_hdr b in
  Super.Sb (Super.id h) (Super.nr_blocks h) (Super.magic h) (Super.version h) (Super.size h) (Super.bm_block h) (Super.bm_blocks h)
    (Super.inodes_tree_block h) (st_count (Inode.st (sb_in b))) (Super.bsize h).

Definition nkfs_sb_stop (p : nat) : M unit :=
  do* upd_sb p (set_stopping true) in
  do* modify (fun h => with_list (filter (fun q => q <> p) (sb_list h)) h) in
  do* upd_sb p (fun b => match inodes_tree b with Some t => with_tree (Some (t_stop t)) b | None => b end) in
  let* b := get_sb p in
  do* BUG_ON (negb (Inode.inodes_active (sb_in b) =? 0)) in
  do* on_sb p (inode (Inode.dio (Super.nkfs_sb_sync e ctx (current_hdr b)))) in
  ret tt.

Definition nkfs_sb_ref (p : nat) : M unit :=
  let* b := get_sb p in
  do* BUG_ON (sb_refs b <=? 0) in
  upd_sb p (set_refs (sb_refs b + 1)).

Definition nkfs_sb_deref (p : nat) : M unit :=
  let* b := get_sb p in
  do* BUG_ON (sb_refs b <=? 0) in
  do* upd_sb p (set_refs (sb_refs b - 1)) in
  if sb_refs b - 1 =? 0 then nkfs_sb_delete p else ret tt.

(** The first of the list with that id. *)
Fixpoint by_id (o : nkfs_obj_id) (l : list nat) : M (option nat) :=
  match l with
  | [] => ret None
  | p :: l =>
      let* b := get_sb p in
      if nkfs_obj_id_cmp (Super.id (sb_hdr b)) o =? 0 then ret (Some p) else by_id o l
  end.

Definition nkfs_sb_lookup (o : nkfs_obj_id) : M (option nat) :=
  let* l := gets sb_list in
  let* f := by_id o l in
  match f with
  | Some p => do* nkfs_sb_ref p in ret (Some p)
  | None => ret None
  end.

Definition nkfs_sb_insert (cand : nat) : M Z :=
  let* c := get_sb cand in
  let* l := gets sb_list in
  let* f := by_id (Super.id (sb_hdr c)) l in
  match f with
  | Some _ => ret (- EEXIST)
  | None => do* modify (fun h => with_list (sb_list h ++ [cand]) h) in ret 0
  end.

Definition nkfs_sb_free_blocks (b : nkfs_sb) : outcome Z :=
  let used := st_count (Inode.st (sb_in b)) in
  bug_on (Super.nr_blocks (sb_hdr b) <? used) (Ret (u64 (Super.nr_blocks (sb_hdr b) - used))).

(** [free_blocks] is a [u32]. *)
Fixpoint most_free (l : list nat) (found : option nat) (max_free : Z) : M (option nat) :=
  match l with
  | [] => ret found
  | p :: l =>
      let* b := get_sb p in
      let* n := lift (nkfs_sb_free_blocks b) in
      let free_blocks := u32 n in
      if max_free <=? free_blocks then most_free l (Some p) free_blocks else most_free l found max_free
  end.

Definition nkfs_sb_select_most_free : M (option nat) :=
  let* l := gets sb_list in
  let* f := most_free l None 0 in
  match f with
  | Some p => do* nkfs_sb_ref p in ret (Some p)
  | None => ret None
  end.

(** The list of links is the list of their superblocks. *)
Fixpoint nkfs_sb_list_release (links : list nat) : M unit :=
  match links with
  | [] => ret tt
  | p :: links => do* nkfs_sb_deref p in nkfs_sb_list_release links
  end.

Definition nkfs_sb_list_count (links : list nat) : Z := u64 (Z.of_nat (length links)).

Definition nkfs_sb_list_first (links : list nat) : option nat := head links.

Definition lfails : M bool := fun h => Done (lfail h (ltick h)) (with_ltick (S (ltick h)) h).

Definition nkfs_sb_link_create (p : nat) : M bool :=
  let* f := lfails in
  if (f : bool) then ret false else do* nkfs_sb_ref p in ret true.

(** The links so far, and whether every one could be made. *)
Fixpoint by_obj (o : nkfs_obj_id) (l links : list nat) : M (list nat * bool) :=
  match l with
  | [] => ret (links, true)
  | p :: l =>
      let* f := on_sb p (find_obj o) in
      if negb (fst f =? 0) then by_obj o l links
      else
        let* ok := nkfs_sb_link_create p in
        if (ok : bool) then by_obj o l (links ++ [p]) else ret (links, false)
  end.

Definition nkfs_sb_list_by_obj (o : nkfs_obj_id) : M (Z + list nat) :=
  let* l := gets sb_list in
  let* r := by_obj o l [] in
  if (snd r : bool) then ret (inr (fst r))
  else do* nkfs_sb_list_release (fst r) in ret (inl (- ENOMEM)).

(** The four operations that find the superblock first share their frame. *)
Definition list_op {A} (o : nkfs_obj_id) (op : B (Z + A)) : M (Z + A) :=
  let* r := nkfs_sb_list_by_obj o in
  match r with
  | inl err => ret (inl err)
  | inr links =>
      do* BUG_ON (1 <? nkfs_sb_list_count links) in
      let* res := match nkfs_sb_list_first links with
                  | None => ret (inl (- ENOENT))
                  | Some p => on_sb p op
                  end in
      do* nkfs_sb_list_release links in
      ret res
  end.

Definition nkfs_sb_list_get_obj (o : nkfs_obj_id) (off pg_off len : Z) (pages : list (list byte)) : M (Z + Z * list (list byte)) :=
  list_op o (nkfs_sb_get_obj o off pg_off len pages).

(** An [int] result as error or nothing. *)
Definition as_err (m : B Z) : B (Z + unit) := let* r := m in ret (if r =? 0 then inr tt else inl r).

Definition nkfs_sb_list_put_obj (o : nkfs_obj_id) (off pg_off len : Z) (pages : list (list byte)) : M (Z + unit) :=
  list_op o (as_err (nkfs_sb_put_obj o off pg_off len pages)).

Definition nkfs_sb_list_delete_obj (o : nkfs_obj_id) : M (Z + unit) := list_op o (as_err (nkfs_sb_delete_obj o)).

Definition nkfs_sb_list_query_obj (o : nkfs_obj_id) : M (Z + nkfs_obj_info) := list_op o (nkfs_sb_query_obj o).

Definition nkfs_sb_list_create_obj (rnd : Z * list byte) : M (Z + nkfs_obj_id) :=
  let* f := nkfs_sb_select_most_free in
  match f with
  | None => ret (inl (- ENOENT))
  | Some p =>
      let* r := on_sb p (nkfs_sb_create_obj rnd) in
      do* nkfs_sb_deref p in
      ret r
  end.

End SbList.

Arguments nkfs_sb T St : clear implicits.
Arguments host T St : clear implicits.

End SbList.
