(* ===== verification/SbObjects.v ===== *)
(** * A superblock as a map of objects

    A superblock between calls stands for a map from object ids to files:
    [sb_rep b F].  [nkfs_sb_create_obj] adds an empty file, [nkfs_sb_put_obj]
    changes the bytes of one, [nkfs_sb_get_obj] reads one, and none of them
    touches another: the blocks and trees of the others are kept ([Kept]) while
    the inode of one is open. *)

From Stdlib Require Import ZArith Lia.
From coqutil Require Import Byte.
From stdpp Require Import base list gmap.
From S2P Require Import Prelude XXHash Bytes StMonad Csum DioPages Dio DioInv DioEvict DioSpec DioClient Mem CharHex ObjId Super.
From S2P Require Import BtreeNode BtreeNodeSpec BtreeDisk BlockTree Inode InodeSpec InodeOps InodeIo InodeFile InodeLife InodeClaims InodePages SbList.
Import XXHash Bytes StMonad Csum ObjId DioClient Inode InodeSpec InodeOps InodeIo InodeFile InodeLife InodeClaims InodePages SbList.
Local Open Scope Z_scope.
Local Open Scope stm_scope.

Module SbObjects.

(** What an object is to its users: size, a bound on its blocks of data, the
    blocks by number, and the roots of its two trees. *)
Record file := File {
  fl_size : Z;
  fl_cap : nat;
  fl_data : Z -> option (list byte);
  fl_roots : Z * Z
}.

Section Objects.
Context {T St : Type} `{BlockTree T St}.
Context (e : XXH_endianess) (ctx : csum_ctx) (ctx_ok : length (mem64 ctx) = 32%nat).
Context (X : Z).

Local Abbreviation sb_state := (Inode.sb_state T St).
Local Abbreviation nkfs_inode := (Inode.nkfs_inode T).
Local Abbreviation nkfs_sb := (SbList.nkfs_sb T St).

Definition none_kept : Kept T := {| kept_tree _ _ _ := False; kept_block _ _ := False |}.

(** An object on the device: the inode as it would be in memory, and its maps. *)
Record ghost := Ghost {
  g_i : nkfs_inode;
  g_m : gmap Z Z;
  g_ms : gmap Z Z;
  g_n : nat;
  g_f : Z -> option (list byte)
}.

Definition g_tb (g : ghost) : Z := blocks_tree_block (g_i g).
Definition g_tsb (g : ghost) : Z := blocks_sum_tree_block (g_i g).
Definition g_block (g : ghost) : Z := i_block (g_i g).
Definition g_file (g : ghost) : file := File (i_size (g_i g)) (g_n g) (g_f g) (g_tb g, g_tsb g).

(** Header, data and sums: blocks whose bytes the object needs. *)
Definition bytes_of (g : ghost) (y : Z) : Prop :=
  y = g_block g \/ (exists k, g_m g !! k = Some y) \/ (exists k, g_ms g !! k = Some y).
Definition owns (g : ghost) (y : Z) : Prop := bytes_of g y \/ y = g_tb g \/ y = g_tsb g.

(** Alone in memory, as inode 0. *)
Definition alone (g : ghost) (s : sb_state) : sb_state := with_objs {[0%nat := g_i g]} s.

Record file_at (s : sb_state) (a : Z -> list byte) (g : ghost) : Prop := {
  fa_open : opened (KT := none_kept) e X (alone g s) [] a 0%nat (g_i g) (g_tb g) (g_tsb g) (g_m g) (g_ms g) None;
  fa_size : (size (g_m g) <= g_n g)%nat /\ (size (g_ms g) <= g_n g)%nat;
  fa_data v : vrange v -> g_f g v = content e a (g_m g) v;
  fa_clean : i_dirty (g_i g) = false;
  fa_head : field 0 56 (a (g_block g)) = nkfs_inode_to_on_disk e ctx (g_i g);
  fa_wf : inode_wf (g_i g)
}.

(** The key of an object in the tree of inodes. *)
Definition okey (o : nkfs_obj_id) : Z := BtreeNodeSpec.key_val (id_key e o).

Record disk_rep (s : sb_state) (a : Z -> list byte) (t : T) (bt : Z) (G : gmap Z ghost) : Prop := {
  dr_rest : rest (KT := none_kept) X s a;
  dr_closed : objs s = ∅ /\ inodes s = ∅ /\ inodes_active s = 0;
  dr_tree : t_rep t (st s) bt (g_block <$> G);
  dr_file k g : G !! k = Some g -> file_at s a g /\ okey (ino (g_i g)) = k /\ ~ owns g bt;
  dr_apart k1 k2 g1 g2 y : G !! k1 = Some g1 -> G !! k2 = Some g2 -> k1 <> k2 -> owns g1 y -> ~ owns g2 y
}.

Definition sb_rep (b : nkfs_sb) (F : gmap Z file) : Prop :=
  stopping b = false /\ exists t bt a G, inodes_tree b = Some t /\ disk_rep (sb_in b) a t bt G /\ F = g_file <$> G.

(** ** Keys *)

Lemma id_key_ok o : BtreeNodeSpec.key_ok (id_key e o).
Proof. unfold BtreeNodeSpec.key_ok, id_key. by rewrite length_app, !store_length. Qed.

Lemma okey_inj o1 o2 : id_wf o1 -> id_wf o2 -> okey o1 = okey o2 -> o1 = o2.
Proof.
  intros [H1 H2] [H3 H4] E. apply BtreeNodeSpec.key_val_inj in E; [|by rewrite !id_key_ok].
  unfold id_key in E. apply app_inj_1 in E as [E1 E2]; [|by rewrite !store_length].
  apply (f_equal (load e)) in E1, E2. rewrite !load_store in E1, E2 by assumption. destruct o1, o2. cbn in *. congruence.
Qed.

(** ** One object open, the others kept *)

(** All the objects but [k], and the tree of inodes. *)
Definition kept_of (a : Z -> list byte) (t : T) (bt : Z) (G : gmap Z ghost) (k : Z) : Kept T := {|
  kept_tree t' b' m' := (t' = t /\ b' = bt /\ m' = g_block <$> G) \/
    exists k' g', k' <> k /\ G !! k' = Some g' /\
    ((blocks_tree (g_i g') = Some t' /\ b' = g_tb g' /\ m' = g_m g') \/ (blocks_sum_tree (g_i g') = Some t' /\ b' = g_tsb g' /\ m' = g_ms g'));
  kept_block y d := d = a y /\ exists k' g', k' <> k /\ G !! k' = Some g' /\ bytes_of g' y
|}.

Lemma file_trees s a g : file_at s a g ->
  (exists t, blocks_tree (g_i g) = Some t /\ t_rep t (st s) (g_tb g) (g_m g)) /\
  (exists t, blocks_sum_tree (g_i g) = Some t /\ t_rep t (st s) (g_tsb g) (g_ms g)).
Proof. intros F. pose proof (op_lay _ _ _ _ _ _ _ _ _ _ _ _ (fa_open _ _ _ F)) as L. split; apply L. Qed.

(** Blocks of an object are in use and on the device. *)
Lemma owned_used s a g y : file_at s a g -> owns g y -> y ∈ st_used (st s) /\ 0 < y < st_size (st s).
Proof.
  intros F Hy. destruct (file_trees _ _ _ F) as ((t1 & _ & R1) & (t2 & _ & R2)).
  pose proof (op_lay _ _ _ _ _ _ _ _ _ _ _ _ (fa_open _ _ _ F)) as L.
  destruct Hy as [[->|[[k Hk]|[k Hk]]]|[->| ->]].
  - destruct (lay_own _ _ _ _ _ _ _ _ L) as (? & ? & _). done.
  - destruct (lay_data _ _ _ _ _ _ _ _ L _ _ Hk) as (? & ? & _). done.
  - destruct (lay_sum _ _ _ _ _ _ _ _ L _ _ Hk) as (? & ? & _). done.
  - by destruct (t_rep_used _ _ _ _ R1) as (? & ? & _).
  - by destruct (t_rep_used _ _ _ _ R2) as (? & ? & _).
Qed.

(** Every kept tree is represented, away from the object and from its blocks. *)
Lemma kept_trees s a t bt G k g t' b' m' : disk_rep s a t bt G -> G !! k = Some g -> kept_tree (Kept := kept_of a t bt G k) t' b' m' ->
  t_rep t' (st s) b' m' /\ ~ owns g b'.
Proof.
  intros D Eg [(-> & -> & ->)|(k' & g' & Hk & Eg' & Ht)].
  - split; [exact (dr_tree _ _ _ _ _ D)|]. by apply (dr_file _ _ _ _ _ D k g).
  - destruct (dr_file _ _ _ _ _ D k' g' Eg') as (F' & _). destruct (file_trees _ _ _ F') as ((t1 & E1 & R1) & (t2 & E2 & R2)).
    destruct Ht as [(E & -> & ->)|(E & -> & ->)].
    + split; [congruence|]. apply (dr_apart _ _ _ _ _ D k' k g' g); [done..|]. right. by left.
    + split; [congruence|]. apply (dr_apart _ _ _ _ _ D k' k g' g); [done..|]. right. by right.
Qed.

Lemma kept_blocks s a t bt G k g y d : disk_rep s a t bt G -> G !! k = Some g -> kept_block (Kept := kept_of a t bt G k) y d ->
  a y = d /\ y ∈ st_used (st s) /\ 0 < y < st_size (st s) /\ ~ owns g y.
Proof.
  intros D Eg (-> & k' & g' & Hk & Eg' & Hy). destruct (dr_file _ _ _ _ _ D k' g' Eg') as (F' & _).
  destruct (owned_used _ _ _ y F') as [Hu Hr]; [by left|]. split; [done|]. split; [done|]. split; [done|].
  apply (dr_apart _ _ _ _ _ D k' k g' g); [done..|by left].
Qed.

Lemma owns_apart g y : ~ owns g y <-> apart (g_i g) (g_tb g) (g_tsb g) (g_m g) (g_ms g) y.
Proof.
  split.
  - intros Hn. split; [intros ->; apply Hn; left; by left|]. split; [intros ->; apply Hn; right; by left|].
    split; [intros ->; apply Hn; right; by right|]. split; intros j Ej; apply Hn; left; right; [left|right]; by exists j.
  - intros (N1 & N2 & N3 & N4 & N5) [[->|[[j Ej]|[j Ej]]]|[->| ->]]; [done|by apply N4 in Ej|by apply N5 in Ej|done|done].
Qed.

Lemma open_target s a t bt G k g : disk_rep s a t bt G -> G !! k = Some g ->
  file_on_disk (KT := kept_of a t bt G k) e ctx X s (g_i g) (g_n g) (g_f g).
Proof.
  intros D Eg. destruct (dr_file _ _ _ _ _ D k g Eg) as (F & _). exists 0%nat, a, (g_tb g), (g_tsb g), (g_m g), (g_ms g).
  destruct F as [O [Hm Hms] Hd Hc Hh Wf]. split; [|done]. destruct (dr_closed _ _ _ _ _ D) as (Eo & _). rewrite Eo. destruct O as [L C S M K].
  split; [|done..|].
  - pose proof (kept_trees s a t bt G k g) as KTr. pose proof (kept_blocks s a t bt G k g) as KB. destruct L. split; try done.
    + intros t' b' m' Hk. destruct (KTr t' b' m' D Eg Hk) as [R Hn]. split; [done|by apply owns_apart].
    + intros y d Hk. destruct (KB y d D Eg Hk) as (_ & Hu & Hr & Hn). do 2 (split; [done|]). by apply owns_apart.
  - intros y d Hk. by destruct (kept_blocks s a t bt G k g y d D Eg Hk).
Qed.

(** ** Closing it again *)

(** An object that was not touched. *)
Lemma file_move s a s' a' g : file_at s a g -> rest (KT := none_kept) X s' a' -> bsize s' = bsize s ->
  (forall t, blocks_tree (g_i g) = Some t -> t_rep t (st s') (g_tb g) (g_m g)) ->
  (forall t, blocks_sum_tree (g_i g) = Some t -> t_rep t (st s') (g_tsb g) (g_ms g)) ->
  (forall y, bytes_of g y -> y ∈ st_used (st s') /\ 0 < y < st_size (st s') /\ a' y = a y) -> file_at s' a' g.
Proof.
  intros [[L C S M K] Hs Hd Hc Hh Wf] R Eb Ht Hts Hy.
  assert (Hx : forall k x, g_m g !! k = Some x -> a' x = a x) by (intros k x Ex; apply Hy; right; left; by exists k).
  assert (Hsx : forall k x, g_ms g !! k = Some x -> a' x = a x) by (intros k x Ex; apply Hy; right; right; by exists k).
  assert (Hg : bytes_of g (g_block g)) by (by left). split; try done.
  - split; try done; [|apply R|intros v x sx Hv He Em Es|apply R].
    + destruct L, R. split; try done.
      * destruct lay_tree0 as (t & Et & _). exists t. auto.
      * destruct lay_sums0 as (t & Et & _). exists t. auto.
      * destruct lay_own0 as (_ & _ & ?). destruct (Hy _ Hg) as (? & ? & _). done.
      * intros k x Ex. destruct (lay_data0 _ _ Ex) as (_ & _ & ?). destruct (Hy x) as (? & ? & _); [right; left; by exists k|done].
      * intros k x Ex. destruct (lay_sum0 _ _ Ex) as (_ & _ & ?). destruct (Hy x) as (? & ? & _); [right; right; by exists k|done].
      * intros v x Hv Ex. cbn [alone with_objs bsize]. rewrite Eb. by eapply lay_has0.
    + cbn [alone with_objs bsize] in *. rewrite Eb in *. rewrite (Hx _ _ Em), (Hsx _ _ Es). by apply S.
  - intros v Hv. rewrite Hd by done. unfold content. destruct (g_m g !! kv e v) as [x|] eqn:Ex; [|done]. cbn. by rewrite (Hx _ _ Ex).
  - rewrite <- Hh. f_equal. by apply Hy.
Qed.

(** An open inode as an object on the device. *)
Lemma opened_alone (KT : Kept T) s a p g tb tsb : opened e X s [] a p (g_i g) tb tsb (g_m g) (g_ms g) None -> tb = g_tb g -> tsb = g_tsb g ->
  opened (KT := none_kept) e X (alone g s) [] a 0%nat (g_i g) (g_tb g) (g_tsb g) (g_m g) (g_ms g) None.
Proof.
  intros [L C S M K] -> ->. split; try done. destruct L. split; try done.
Qed.

Lemma opened_rest (KT : Kept T) s a p i tb tsb m ms s' : opened e X s [] a p i tb tsb m ms None -> ddev s' = ddev s -> st s' = st s ->
  bsize s' = bsize s -> mfail s' = mfail s -> objs s' = ∅ -> inodes s' = ∅ -> rest (KT := none_kept) X s' a.
Proof.
  intros [L C S M K] Ed Es Eb Em Eo Ei. destruct L. split; rewrite ?Ed, ?Es, ?Eb, ?Em, ?Eo, ?Ei; try done.
  intros q [i' E]. by rewrite lookup_empty in E.
Qed.

(** The objects but [k]. *)
Record disk_but (s : sb_state) (a : Z -> list byte) (bt : Z) (G : gmap Z ghost) (k : Z) : Prop := {
  db_file k' g : k' <> k -> G !! k' = Some g -> file_at s a g /\ okey (ino (g_i g)) = k' /\ ~ owns g bt;
  db_apart k1 k2 g1 g2 y : k1 <> k -> k2 <> k -> G !! k1 = Some g1 -> G !! k2 = Some g2 -> k1 <> k2 -> owns g1 y -> ~ owns g2 y
}.

Lemma disk_rep_but s a t bt G k : disk_rep s a t bt G -> disk_but s a bt G k.
Proof. intros D. split; [intros k' g _; by apply (dr_file _ _ _ _ _ D)|intros k1 k2 g1 g2 y _ _; by apply (dr_apart _ _ _ _ _ D)]. Qed.

Section Close.
Context (s : sb_state) (a : Z -> list byte) (t : T) (bt : Z) (G : gmap Z ghost) (k : Z) (D : disk_but s a bt G k).
Context (s' : sb_state) (p : nat) (a' : Z -> list byte) (g' : ghost).
Context (O : opened (KT := kept_of a t bt G k) e X s' [] a' p (g_i g') (g_tb g') (g_tsb g') (g_m g') (g_ms g') None).

(** The trees and the blocks of the others are as they were. *)
Lemma others_trees t' b' m' : kept_tree (Kept := kept_of a t bt G k) t' b' m' -> t_rep t' (st s') b' m' /\ ~ owns g' b'.
Proof. intros Hk. destruct (lay_kept_tree _ _ _ _ _ _ _ _ (op_lay _ _ _ _ _ _ _ _ _ _ _ _ O) t' b' m' Hk) as (R & Ha). split; [done|by apply owns_apart]. Qed.

Lemma others_blocks k' g y : k' <> k -> G !! k' = Some g -> bytes_of g y ->
  a' y = a y /\ y ∈ st_used (st s') /\ 0 < y < st_size (st s') /\ ~ owns g' y.
Proof.
  intros Hk Eg Hy. assert (Hkb : kept_block (Kept := kept_of a t bt G k) y (a y)) by (split; [done|]; by exists k', g).
  destruct (lay_kept_block _ _ _ _ _ _ _ _ (op_lay _ _ _ _ _ _ _ _ _ _ _ _ O) _ _ Hkb) as (Hu & Hr & Ha).
  split; [by apply (op_kept _ _ _ _ _ _ _ _ _ _ _ _ O)|]. do 2 (split; [done|]). by apply owns_apart.
Qed.

Lemma others_tree k' g w t' : k' <> k -> G !! k' = Some g -> get_tree w (g_i g) = Some t' ->
  t_rep t' (st s') (match w with Blocks => g_tb g | Sums => g_tsb g end) (match w with Blocks => g_m g | Sums => g_ms g end) /\
  ~ owns g' (match w with Blocks => g_tb g | Sums => g_tsb g end).
Proof. intros Hk Eg Et. apply others_trees. right. exists k', g. do 2 (split; [done|]). destruct w; [by left|by right]. Qed.

Lemma others_apart k' g y : k' <> k -> G !! k' = Some g -> owns g y -> ~ owns g' y.
Proof.
  intros Hk Eg Hy. destruct (db_file _ _ _ _ _ D k' g Hk Eg) as (F & _). destruct (file_trees _ _ _ F) as ((t1 & E1 & _) & (t2 & E2 & _)).
  destruct Hy as [Hy|[->| ->]]; [by apply (others_blocks k' g y)|by apply (others_tree k' g Blocks t1)|by apply (others_tree k' g Sums t2)].
Qed.

Lemma others_file k' g s2 : k' <> k -> G !! k' = Some g -> st s2 = st s' -> rest (KT := none_kept) X s2 a' -> bsize s2 = bsize s -> file_at s2 a' g.
Proof.
  intros Hk Eg Es R Eb. destruct (db_file _ _ _ _ _ D k' g Hk Eg) as (F & _). eapply (file_move s a); [done|done|done| | |]; rewrite Es.
  - intros t' Et. by apply (others_tree k' g Blocks t').
  - intros t' Et. by apply (others_tree k' g Sums t').
  - intros y Hy. destruct (others_blocks k' g y) as (? & ? & ? & _); done.
Qed.

End Close.

(** The object [k] has changed, the others have not. *)
Lemma close_target s a t bt G k g s' i' n' f' : disk_but s a bt G k -> G !! k = Some g ->
  file_on_disk (KT := kept_of a t bt G k) e ctx X s' i' n' f' ->
  okey (ino i') = k -> i_block i' = g_block g -> blocks_tree_block i' = g_tb g -> blocks_sum_tree_block i' = g_tsb g ->
  inode_wf i' -> bsize s' = bsize s -> objs s' = ∅ -> inodes s' = ∅ -> inodes_active s' = 0 ->
  exists a' g', disk_rep s' a' t bt (<[k := g']> G) /\ g_file g' = File (i_size i') n' f' (fl_roots (g_file g)).
Proof.
  intros D Eg (p & a' & tb & tsb & m & ms & O & Hm & Hms & Hf & Hd & Hh & Htb & Htsb) I1 I2 I3 I4 Wf Eb Eo Ei Ea.
  set (g' := Ghost i' m ms n' f'). set (s1 := with_objs _ s') in O. subst tb tsb. exists a', g'.
  change (opened (KT := kept_of a t bt G k) e X s1 [] a' p (g_i g') (g_tb g') (g_tsb g') (g_m g') (g_ms g') None) in O.
  assert (R : rest (KT := none_kept) X s' a') by (by eapply opened_rest; [exact O|..]).
  split; [split; [done|done| | |]|by unfold g_file; change (g_tb g') with (blocks_tree_block i'); change (g_tsb g') with (blocks_sum_tree_block i'); rewrite I3, I4].
  - rewrite fmap_insert. change (g_block g') with (i_block i'). rewrite I2, insert_id by (by rewrite lookup_fmap, Eg).
    apply (others_trees a t bt G k s1 p a' g' O t bt). by left.
  - intros k' g2 E2. apply lookup_insert_Some in E2 as [[<- <-]|[Hk E2]].
    + split; [|split; [done|]].
      * split; try done. exact (opened_alone (kept_of a t bt G k) s1 a' p g' _ _ O eq_refl eq_refl).
      * apply (others_trees a t bt G k s1 p a' g' O t bt (g_block <$> G)). by left.
    + destruct (db_file _ _ _ _ _ D k' g2 (not_eq_sym Hk) E2) as (F2 & Ek2 & Hn2). split; [|done].
      by apply (others_file s a t bt G k D s1 p a' g' O k' g2).
  - intros k1 k2 g1 g2 y E1 E2 Hk H1 H2. apply lookup_insert_Some in E1 as [[<- <-]|[N1 E1]], E2 as [[<- <-]|[N2 E2]]; [done| | |].
    + by apply (others_apart s a t bt G k D s1 p a' g' O k2 g2 y).
    + by apply (others_apart s a t bt G k D s1 p a' g' O k1 g1 y).
    + by apply (db_apart _ _ _ _ _ D k1 k2 g1 g2 y (not_eq_sym N1) (not_eq_sym N2)).
Qed.

(** ** Rules for a superblock *)

Lemma spec_inode {A} (m : StMonad.M sb_state A) (b : nkfs_sb) (Q : A -> nkfs_sb -> Prop) :
  StMonad.spec m (sb_in b) (fun a s => Q a (with_in s b)) -> StMonad.spec (inode m) b Q.
Proof. unfold StMonad.spec, inode. by destruct (m (sb_in b)). Qed.

Lemma spec_on_itree {A} (f : T -> St -> outcome (A * T * St)) t a t' x (b : nkfs_sb) (Q : A -> nkfs_sb -> Prop) : inodes_tree b = Some t ->
  f t (st (sb_in b)) = Ret (a, t', x) -> Q a (with_tree (Some t') (with_in (with_store x (sb_in b)) b)) -> StMonad.spec (on_itree f) b Q.
Proof. intros Et Ef HQ. unfold StMonad.spec, on_itree. by rewrite Et, Ef. Qed.

(** The roots of the object's trees can be read from the device. *)
Definition readable (b : nkfs_sb) (fl : file) : Prop :=
  t_good (st (sb_in b)) (fst (fl_roots fl)) = true /\ t_good (st (sb_in b)) (snd (fl_roots fl)) = true.

(** The superblock while the inode [q] of the object [k] is open. *)
Record hold (b : nkfs_sb) (a : Z -> list byte) (t : T) (bt : Z) (G : gmap Z ghost) (k : Z) (g : ghost) (q : nat)
    (n : nat) (f : Z -> option (list byte)) (i : nkfs_inode) (b' : nkfs_sb) : Prop := {
  ho_file : inode_file (KT := kept_of a t bt G k) e ctx X (sb_in b') q i n f;
  ho_id : ino i = ino (g_i g) /\ i_block i = g_block g /\ blocks_tree_block i = g_tb g /\ blocks_sum_tree_block i = g_tsb g /\ i_ref i = 1;
  ho_index : inodes (sb_in b') = {[g_block g := q]} /\ inodes_active (sb_in b') = 1 /\ delete q (objs (sb_in b')) = ∅;
  ho_bsize : bsize (sb_in b') = bsize (sb_in b);
  ho_sb : inodes_tree b' = Some t /\ stopping b' = false
}.

Lemma spec_open_obj b F o fl {C} (x1 : Z * option Z -> C) (x2 : C) (cont : nat -> Z -> StMonad.M nkfs_sb C) (Q : C -> nkfs_sb -> Prop) :
  sb_rep b F -> F !! okey o = Some fl -> readable b fl ->
  (forall a t bt G g q i b', disk_rep (sb_in b) a t bt G -> F = g_file <$> G -> G !! okey o = Some g -> g_file g = fl ->
     hold b a t bt G (okey o) g q (g_n g) (g_f g) i b' -> i_sem i = 0 -> i_size i = i_size (g_i g) -> st (sb_in b') = st (sb_in b) -> inode_wf (g_i g) ->
     StMonad.spec (cont q (g_block g)) b' Q) ->
  StMonad.spec (let* f := find_obj e o in
    if negb (fst f =? 0) then ret (x1 f)
    else let iblock := default 0 (snd f) in
      let* p := inode (Inode.nkfs_inode_read e ctx iblock) in
      match p with None => ret x2 | Some p => cont p iblock end) b Q.
Proof.
  intros (Hst & t & bt & a & G & Et & D & EF) Eo [G1 G2] HQ. subst F. rewrite lookup_fmap in Eo. apply fmap_Some in Eo as (g & Eg & ->).
  destruct (t_find_ok (id_key e o) t _ bt _ (id_key_ok o) (dr_tree _ _ _ _ _ D)) as (t' & Ef & Rt). fold (okey o) in Ef.
  rewrite lookup_fmap, Eg in Ef. cbn [fmap option_fmap option_map] in Ef.
  apply spec_bind. eapply (spec_on_itree (t_find (id_key e o)) t); [done|exact Ef|]. cbn [fst snd default Z.eqb negb].
  set (b0 := with_tree _ _). assert (E0 : sb_in b0 = sb_in b) by (cbn; by destruct (sb_in b)).
  assert (D0 : disk_rep (sb_in b) a t' bt G) by (destruct D; by split).
  pose proof (open_target _ _ _ _ _ _ _ D0 Eg) as Fd. destruct (dr_file _ _ _ _ _ D0 _ _ Eg) as (F & Ek & _). pose proof (fa_wf _ _ _ F) as Wf.
  destruct (dr_closed _ _ _ _ _ D0) as (Co & Ci & Ca).
  apply spec_bind, spec_inode. rewrite E0. eapply spec_mono; [apply (spec_reopen (KT := kept_of a t' bt G (okey o)) e ctx ctx_ok X _ _ _ _ Fd Wf)|].
  { by rewrite Ci. }
  { exact G1. }
  { exact G2. }
  intros r s1 (q & i & -> & HF & Ino & Isz & Ib & Ir & Is & Ii & Est & Ebs & Id & Eq & _ & Ea & Eob).
  apply (HQ a t' bt G g q i); try done. destruct Id. split; try done; cbn [with_in sb_in] in *.
  - rewrite Ii, Ci, Ea, Ca. rewrite insert_empty. do 2 (split; [done|]). by rewrite Eob, Co, delete_empty.
Qed.

(** The last reference goes, and the object is back in the map. *)
Lemma spec_release_obj b a t bt G k g q n f i b1 {C} (r : C) (Q : C -> nkfs_sb -> Prop) : disk_rep (sb_in b) a t bt G -> G !! k = Some g ->
  hold b a t bt G k g q n f i b1 -> inode_wf i ->
  (forall b2, sb_rep b2 (<[k := File (i_size i) n f (fl_roots (g_file g))]> (g_file <$> G)) -> st (sb_in b2) = st (sb_in b1) ->
     bsize (sb_in b2) = bsize (sb_in b) -> Q r b2) ->
  StMonad.spec (do* inode (Inode.nkfs_inode_deref q) in ret r) b1 Q.
Proof.
  intros D Eg [HF (I1 & I2 & I3 & I4 & I5) (J1 & J2 & J3) Eb [Et Hst]] Wf HQ.
  apply spec_bind, spec_inode. eapply spec_mono; [apply (spec_close (KT := kept_of a t bt G k) e ctx ctx_ok X _ _ _ _ _ HF I5)|].
  { by rewrite J1, I2, lookup_singleton_eq. }
  intros [] s2 (Fd & K1 & K2 & _ & K3 & K4 & K5). apply spec_ret.
  destruct (dr_file _ _ _ _ _ D k g Eg) as (_ & Ek & _).
  destruct (close_target _ _ _ _ _ _ _ s2 i n f (disk_rep_but _ _ _ _ _ _ D) Eg Fd ltac:(by rewrite I1) I2 I3 I4 Wf) as (a' & g' & D' & Eg'); [congruence|congruence| |lia|].
  { by rewrite K1, J1, I2, delete_singleton_eq. }
  apply HQ; [|done|by cbn; rewrite K4, Eb]. split; [done|]. exists t, bt, a', (<[k := g']> G). split; [done|]. split; [done|].
  by rewrite fmap_insert, Eg'.
Qed.

Lemma hold_wf b a t bt G k g q n f i b' : hold b a t bt G k g q n f i b' -> inode_wf (g_i g) -> 0 <= i_size i < 2 ^ 64 -> inode_wf i.
Proof.
  intros Ho [W1 W2 W3 W4] Hz. destruct (ho_id _ _ _ _ _ _ _ _ _ _ _ _ Ho) as (E1 & E2 & E3 & E4 & _). split; [by rewrite E1|done| |].
  - rewrite E3. exact W3.
  - rewrite E4. exact W4.
Qed.

(** The inode has changed and nothing else in memory. *)
Lemma hold_step b a t bt G k g q n f i b1 n' f' i' s2 : hold b a t bt G k g q n f i b1 ->
  inode_file (KT := kept_of a t bt G k) e ctx X s2 q i' n' f' -> same_id i i' -> bsize s2 = bsize (sb_in b1) -> others q (sb_in b1) s2 ->
  hold b a t bt G k g q n' f' i' (with_in s2 b1).
Proof.
  intros [HF (I1 & I2 & I3 & I4 & I5) (J1 & J2 & J3) Eb Hsb] HF' Hid Eb' [O1 O2 O3 O4]. destruct Hid.
  split; [done| | |cbn; congruence|done].
  - split_and!; congruence.
  - cbn. split_and!; congruence.
Qed.

(** What putting [data] into an object makes of the objects: all of it, or, without
    free blocks, the part before a block the object does not have. *)
Definition put_map (b : nkfs_sb) (F : gmap Z file) (k : Z) (fl : file) (off : Z) (data : list byte) (w : nat) (r : Z) (F' : gmap Z file) (b' : nkfs_sb) : Prop :=
  exists f' c, (c <= length data)%nat /\ put_at (bsize (sb_in b)) (fl_data fl) off (take c data) f' /\
  F' = <[k := File (if (0 <? c)%nat then Z.max (fl_size fl) (off + Z.of_nat c) else fl_size fl) (fl_cap fl + w) f' (fl_roots fl)]> F /\
  bsize (sb_in b') = bsize (sb_in b) /\
  ((r = 0 /\ c = length data /\ forall l, st_room (st (sb_in b)) (2 * w + l) -> st_room (st (sb_in b')) l) \/
   (r < 0 /\ (c < length data)%nat /\ ~ st_room (st (sb_in b)) (2 * w))).

Definition put_done (b : nkfs_sb) (F : gmap Z file) (k : Z) (fl : file) (off : Z) (data : list byte) (w : nat) (r : Z) (b' : nkfs_sb) : Prop :=
  exists F', sb_rep b' F' /\ put_map b F k fl off data w r F' b'.

Lemma spec_sb_put_obj b F o fl off pg_off len pages : sb_rep b F -> F !! okey o = Some fl -> readable b fl -> pages_ok pages ->
  0 <= off -> 0 <= pg_off < 4096 -> 0 <= len < 2 ^ 31 -> pg_off + len <= 4096 * Z.of_nat (length pages) -> off + len < 2 ^ 63 ->
  (fl_cap fl + 2 * length pages <= t_cap)%nat ->
  StMonad.spec (nkfs_sb_put_obj e ctx o off pg_off len pages) b (put_done b F (okey o) fl off (window pages pg_off len) (2 * length pages)).
Proof.
  intros Hb Eo Hr P H1 H2 H3 H4 H5 H6. unfold nkfs_sb_put_obj. apply spec_bind, spec_gets. rewrite (proj1 Hb).
  apply (spec_open_obj b F o fl fst (- EIO) (fun p iblock =>
    let* i := inode (Inode.get p) in do* BUG_ON (negb (Inode.i_block i =? iblock)) in
    let* r := inode (Inode.nkfs_inode_io_pages_write e ctx p off pg_off len pages) in
    do* inode (Inode.nkfs_inode_deref p) in ret (match r with inl err => err | inr _ => 0 end)) _ Hb Eo Hr). intros a t bt G g q i b1 D -> Eg <- Ho Hs Hz Est Wf.
  pose proof (ho_file _ _ _ _ _ _ _ _ _ _ _ _ Ho) as HF. destruct (ho_id _ _ _ _ _ _ _ _ _ _ _ _ Ho) as (_ & Ib & _).
  assert (Eq : objs (sb_in b1) !! q = Some i) by (destruct HF as (? & ? & ? & ? & ? & O & _); by eapply opened_obj).
  apply spec_bind, spec_inode, (spec_iget q i); [done|]. rewrite Ib. apply spec_bind, spec_bug_on; [by rewrite Z.eqb_refl|].
  assert (E1 : with_in (sb_in b1) b1 = b1) by (by destruct b1). rewrite E1. pose proof (ho_bsize _ _ _ _ _ _ _ _ _ _ _ _ Ho) as Ebs.
  apply spec_bind, spec_inode. eapply spec_mono.
  { apply (spec_only _ q); [|apply only_pages_write].
    apply (spec_pages_write (KT := kept_of a t bt G (okey o)) e ctx ctx_ok X pages (sb_in b1) q i _ _ off pg_off len 0 P HF Hs); try done; lia. }
  intros r s2 [(i2 & f2 & c & I2 & S2 & B2 & Hc & P2 & HF2 & Z2 & R2) O2].
  pose proof (hold_step _ _ _ _ _ _ _ _ _ _ _ _ _ _ _ _ Ho HF2 I2 B2 O2) as Ho2. destruct Wf as [Wo Wz Wt Wu] eqn:Ewf. clear Ewf.
  assert (Lw : Z.of_nat (length (window pages pg_off len)) = len) by (apply window_length; (done || lia)).
  eapply spec_release_obj; [exact D|exact Eg|exact Ho2|eapply hold_wf; [exact Ho2|by split|]|].
  { rewrite Z2, Hz. destruct (Nat.ltb_spec 0 c); lia. }
  intros b3 Hb3 Est3 Eb3. eexists. split; [exact Hb3|]. exists f2, c. split; [done|]. split; [by rewrite <- Ebs|]. split; [by rewrite Z2, Hz|]. split; [done|].
  rewrite Est3. cbn [with_in sb_in]. destruct r as [err|n].
  - right. destruct R2 as (? & ? & Hno & _). split; [done|]. split; [done|]. by rewrite <- Est.
  - left. destruct R2 as (_ & -> & Rm). split; [done|]. split; [done|]. by rewrite <- Est.
Qed.

Lemma spec_sb_get b F o fl off pg_off len pages : sb_rep b F -> id_wf o -> F !! okey o = Some fl -> readable b fl -> pages_ok pages ->
  0 <= off -> 0 <= pg_off < 4096 -> 0 <= len < 2 ^ 31 -> pg_off + len <= 4096 * Z.of_nat (length pages) -> off + len < 2 ^ 63 ->
  StMonad.spec (nkfs_sb_get_obj e ctx o off pg_off len pages) b (fun r b' =>
    pages_read (bsize (sb_in b)) (fl_size fl) (fl_data fl) off pg_off len pages 0 r /\ sb_rep b' F /\ bsize (sb_in b') = bsize (sb_in b)).
Proof.
  intros Hb Wo Eo Hr P H1 H2 H3 H4 H5. unfold nkfs_sb_get_obj. apply spec_bind, spec_gets. rewrite (proj1 Hb).
  apply (spec_open_obj b F o fl (fun f => inl (fst f)) (inl (- EIO)) (fun p iblock =>
    let* i := inode (Inode.get p) in do* BUG_ON (negb (Inode.i_block i =? iblock)) in
    let* r := if negb (nkfs_obj_id_cmp (Inode.ino i) o =? 0) then ret (inl (- ENOENT))
              else inode (Inode.nkfs_inode_io_pages_read e ctx p off pg_off len pages) in
    do* inode (Inode.nkfs_inode_deref p) in ret r) _ Hb Eo Hr). intros a t bt G g q i b1 D -> Eg <- Ho Hs Hz Est Wf.
  pose proof (ho_file _ _ _ _ _ _ _ _ _ _ _ _ Ho) as HF. destruct (ho_id _ _ _ _ _ _ _ _ _ _ _ _ Ho) as (Io & Ib & _).
  assert (Eq : objs (sb_in b1) !! q = Some i) by (destruct HF as (? & ? & ? & ? & ? & O & _); by eapply opened_obj).
  apply spec_bind, spec_inode, (spec_iget q i); [done|]. rewrite Ib. apply spec_bind, spec_bug_on; [by rewrite Z.eqb_refl|].
  assert (E1 : with_in (sb_in b1) b1 = b1) by (by destruct b1). rewrite E1. pose proof (ho_bsize _ _ _ _ _ _ _ _ _ _ _ _ Ho) as Ebs.
  destruct (dr_file _ _ _ _ _ D _ _ Eg) as (_ & Ek & _).
  rewrite cmp_zero, bool_decide_eq_true_2 by (rewrite Io; apply okey_inj; [apply Wf|done|done]). cbn [negb].
  apply spec_bind, spec_inode. eapply spec_mono.
  { apply (spec_only _ q); [|apply only_pages_read].
    apply (spec_pages_read (KT := kept_of a t bt G (okey o)) e ctx ctx_ok X pages (sb_in b1) q i _ _ off pg_off len 0 P HF); try done; try lia.
    rewrite Hz. apply Wf. }
  intros r s2 [(Hp & k & (i2 & HF2 & I2 & Z2 & S2 & B2) & _) O2].
  pose proof (hold_step _ _ _ _ _ _ _ _ _ _ _ _ _ _ _ _ Ho HF2 I2 B2 O2) as Ho2.
  eapply spec_release_obj; [exact D|exact Eg|exact Ho2|eapply hold_wf; [exact Ho2|exact Wf|rewrite Z2, Hz; apply Wf]|].
  intros b3 Hb3 Est3 Eb3. split; [change (fl_size (g_file g)) with (i_size (g_i g)); by rewrite <- Ebs, <- Hz|]. split; [|done].
  rewrite insert_id in Hb3; [exact Hb3|]. rewrite lookup_fmap, Eg. cbn. unfold g_file. by rewrite Z2, Hz.
Qed.

(** ** A new object *)

Lemma rest_all s a t bt G k : disk_rep s a t bt G -> rest (KT := kept_of a t bt G k) X s a.
Proof.
  intros D. pose proof (dr_rest _ _ _ _ _ D) as []. split; try done.
  - intros t' b m [(-> & -> & ->)|(k' & g' & Hk & Eg & Ht)]; [exact (dr_tree _ _ _ _ _ D)|].
    destruct (dr_file _ _ _ _ _ D k' g' Eg) as (F & _). destruct (file_trees _ _ _ F) as ((t1 & E1 & R1) & (t2 & E2 & R2)).
    destruct Ht as [(E & -> & ->)|(E & -> & ->)]; congruence.
  - intros y d (-> & k' & g' & Hk & Eg & Hy). destruct (dr_file _ _ _ _ _ D k' g' Eg) as (F & _).
    destruct (owned_used _ _ _ y F) as [Hu Hr]; [by left|]. done.
Qed.

(** The new inode goes into the tree of inodes while it is open. *)
Lemma opened_insert s0 s a a' t bt G k g p tb tsb t' st' : disk_but s0 a bt G k -> G !! k = None ->
  opened (KT := kept_of a t bt G k) e X s [] a' p (g_i g) tb tsb (g_m g) (g_ms g) None ->
  st_ok st' -> st_size st' = st_size (st s) -> st_used st' = st_used (st s) -> t_rep t' st' bt (<[k := g_block g]> (g_block <$> G)) ->
  (forall t2 b2 m2, t_rep t2 (st s) b2 m2 -> b2 <> bt -> t_rep t2 st' b2 m2) ->
  opened (KT := kept_of a t' bt (<[k := g]> G) k) e X (with_store st' s) [] a' p (g_i g) tb tsb (g_m g) (g_ms g) None.
Proof.
  intros D Ek [L C S M K] Hok Hsz Hus Rt Rf.
  assert (Hbt : apart (g_i g) tb tsb (g_m g) (g_ms g) bt) by (apply (lay_kept_tree _ _ _ _ _ _ _ _ L t bt (g_block <$> G)); by left).
  assert (Oth : forall k' g', k' <> k -> <[k := g]> G !! k' = Some g' -> G !! k' = Some g') by (intros k' g' Hk; by rewrite lookup_insert_ne).
  split; try done.
  2:{ intros y d (-> & k' & g' & Hk & Eg & Hy). apply K. split; [done|]. exists k', g'. auto. }
  destruct L. split; try done; cbn [with_store st ddev bsize]; rewrite ?Hsz, ?Hus; try done.
  - destruct lay_tree0 as (t1 & E1 & R1). exists t1. split; [done|]. apply Rf; [done|]. destruct Hbt as (_ & ? & _). congruence.
  - destruct lay_sums0 as (t1 & E1 & R1). exists t1. split; [done|]. apply Rf; [done|]. destruct Hbt as (_ & _ & ? & _). congruence.
  - intros t1 b1 m1 [(-> & -> & ->)|(k' & g' & Hk & Eg & Ht)]; [by rewrite fmap_insert|].
    apply Oth in Eg; [|done]. destruct (db_file _ _ _ _ _ D k' g' Hk Eg) as (_ & _ & Hn).
    destruct (lay_kept_tree0 t1 b1 m1) as [R1 A1]; [right; by exists k', g'|]. split; [|done]. apply Rf; [done|].
    intros ->. apply Hn. destruct Ht as [(_ & -> & _)|(_ & -> & _)]; right; [by left|by right].
  - intros y d (-> & k' & g' & Hk & Eg & Hy). apply (lay_kept_block0 y (a y)). split; [done|]. exists k', g'. auto.
Qed.

Lemma opened_wf (KT : Kept T) s a p i tb tsb m ms : opened e X s [] a p i tb tsb m ms None -> blocks_tree_block i = tb ->
  blocks_sum_tree_block i = tsb -> id_wf (ino i) -> 0 <= i_size i < 2 ^ 64 -> inode_wf i.
Proof.
  intros O Htb Htsb Wo Wz. pose proof (op_lay _ _ _ _ _ _ _ _ _ _ _ _ O) as L.
  assert (Bd : forall x, 0 < x < st_size (st s) -> 0 <= x < 2 ^ 64).
  { intros x Hx. destruct (lay_dev _ _ _ _ _ _ _ _ L x ltac:(lia)) as [_ Hi]. rewrite <- (lay_bs _ _ _ _ _ _ _ _ L) in Hi.
    destruct (lay_page _ _ _ _ _ _ _ _ L) as [_ Hp]. rewrite Z.shiftr_div_pow2 in Hi by lia.
    assert (8 <= bsize s / 2 ^ 9) by (apply Z.div_le_lower_bound; lia). nia. }
  destruct (lay_tree _ _ _ _ _ _ _ _ L) as (? & _ & R1), (lay_sums _ _ _ _ _ _ _ _ L) as (? & _ & R2).
  split; [done|done|rewrite Htb; by apply Bd, (t_rep_used _ _ _ _ R1)|rewrite Htsb; by apply Bd, (t_rep_used _ _ _ _ R2)].
Qed.

Lemma disk_but_insert s a bt G k g : disk_but s a bt G k -> disk_but s a bt (<[k := g]> G) k.
Proof.
  intros [D1 D2]. split.
  - intros k' g' Hk. rewrite lookup_insert_ne by done. by apply D1.
  - intros k1 k2 g1 g2 y N1 N2. rewrite !lookup_insert_ne by done. by apply D2.
Qed.

Lemma spec_create_obj b F rnd : let o := snd (nkfs_obj_id_gen rnd) in
  sb_rep b F -> id_wf o -> F !! okey o = None -> (size F < t_cap)%nat -> st_room (st (sb_in b)) 3 ->
  StMonad.spec (nkfs_sb_create_obj e ctx rnd) b (fun r b' => r = inr o /\ bsize (sb_in b') = bsize (sb_in b) /\
    (forall n, st_room (st (sb_in b)) (3 + n) -> st_room (st (sb_in b')) n) /\
    exists roots, sb_rep b' (<[okey o := File 0 0 (fun _ => None) roots]> F)).
Proof.
  intros o (Hst & t & bt & a & G & Et & D & ->) Wo Eo Hc Hroom. unfold nkfs_sb_create_obj. apply spec_bind, spec_gets. rewrite Hst. fold o.
  rewrite lookup_fmap in Eo. apply fmap_None in Eo. rewrite map_size_fmap in Hc. set (k := okey o) in *.
  destruct (dr_closed _ _ _ _ _ D) as (Co & Ci & Ca). pose proof (disk_rep_but _ _ _ _ _ k D) as Db.
  apply spec_bind, spec_inode. eapply spec_mono; [apply (spec_inode_create (KT := kept_of a t bt G k) e ctx ctx_ok X o _ a); [by apply rest_all|done]|].
  intros r s1 (p & i & -> & HF & Io & Iz & Is & Ir & _ & Hfr & Eb & Rm & Ei & Ea & Eob). rewrite Ci, insert_empty in Ei. rewrite Co, delete_empty in Eob.
  destruct HF as (a1 & tb & tsb & m & ms & O & Hm & Hms & Hf & Hd & Hh & Htb & Htsb). pose proof (opened_obj _ _ _ _ _ _ _ _ _ _ _ _ O) as Ep.
  apply spec_bind, spec_inode, (spec_iget p i); [done|]. rewrite Io. set (g := Ghost i m ms 0 (fun _ => None)).
  pose proof (op_lay _ _ _ _ _ _ _ _ _ _ _ _ O) as L. destruct (lay_kept_tree _ _ _ _ _ _ _ _ L t bt (g_block <$> G)) as [Rt Ab]; [by left|].
  destruct (t_insert_ok (id_key e o) (i_block i) t (st s1) bt (g_block <$> G) (id_key_ok o) ltac:(pose proof (st_size_ok _ (lay_st _ _ _ _ _ _ _ _ L)); pose proof (lay_own _ _ _ _ _ _ _ _ L); lia)
    (lay_st _ _ _ _ _ _ _ _ L) Rt) as (t' & st' & Es & Ok & Hsz & Hus & Rm2 & Rt' & Rf).
  { fold (okey o). fold k. by rewrite lookup_fmap, Eo. }
  { by rewrite map_size_fmap. }
  apply spec_bind. eapply spec_on_itree; [exact Et|exact Es|]. cbn [Z.eqb negb]. apply spec_bind, spec_ret.
  pose proof (opened_insert _ _ _ _ _ _ _ _ g _ _ _ t' st' Db Eo O Ok Hsz Hus Rt' Rf) as O'.
  apply spec_bind, spec_inode. eapply spec_mono.
  { eapply (spec_close (KT := kept_of a t' bt (<[k := g]> G) k) e ctx ctx_ok X _ p i 0 (fun _ => None)); [|done|by cbn; rewrite Ei, lookup_singleton_eq].
    exists a1, tb, tsb, m, ms. split; [exact O'|done]. }
  intros [] s2 (Fd & K1 & K2 & _ & K3 & K4 & K5). apply spec_ret. cbn in K1, K2, K3, K4, K5.
  pose proof (opened_wf _ _ _ _ _ _ _ _ _ O Htb Htsb ltac:(by rewrite Io) ltac:(rewrite Iz; lia)) as Wf.
  destruct (close_target (sb_in b) a t' bt (<[k := g]> G) k g s2 i 0 (fun _ => None) (disk_but_insert _ _ _ _ _ g Db)) as (a2 & g2 & D2 & Eg2); try done; [apply lookup_insert_eq|by rewrite Io|congruence|congruence| |lia|].
  { by rewrite K1, Ei, delete_singleton_eq. }
  split; [done|]. split; [by cbn; rewrite K4|]. split; [intros n R; cbn; rewrite K3; by apply Rm2, Rm|].
  exists (fl_roots (g_file g)). split; [done|]. exists t', bt, a2, (<[k := g2]> (<[k := g]> G)). split; [done|]. split; [done|].
  rewrite insert_insert_eq, fmap_insert, Eg2. by rewrite Iz.
Qed.

(** An empty superblock: a new tree of inodes. *)
Lemma disk_rep_empty s a : rest (KT := none_kept) X s a -> objs s = ∅ -> inodes s = ∅ -> inodes_active s = 0 -> st_room (st s) 1 ->
  exists t bt x, t_create 0 (st s) = Ret (Some t, x) /\ disk_rep (with_store x s) a t bt ∅ /\ forall n, st_room (st s) (S n) -> st_room x n.
Proof.
  intros R Eo Ei Ea Hr. destruct (t_create_ok (st s) (re_st _ _ _ R)) as (r & x & Ex & Ok & Hsz & Hus & Rf & Hc & Rm).
  destruct (Rm 0%nat Hr) as [[t ->] _]. destruct Hc as (bt & _ & Rt & _). exists t, bt, x. split; [done|]. split; [|intros n Hn; by apply Rm].
  split; [|done|by rewrite fmap_empty|intros k g E; by rewrite lookup_empty in E|intros k1 k2 g1 g2 y E; by rewrite lookup_empty in E].
  destruct R. split; try done; cbn; [by rewrite Hsz|]. intros b q E. by rewrite Ei in E.
Qed.

(** The roots of a small object can be read back. *)
Lemma sb_readable b F k fl : sb_rep b F -> F !! k = Some fl -> (fl_cap fl <= t_safe)%nat -> readable b fl.
Proof.
  intros (_ & t & bt & a & G & _ & D & ->) E Hc. rewrite lookup_fmap in E. apply fmap_Some in E as (g & Eg & ->).
  destruct (dr_file _ _ _ _ _ D k g Eg) as (F & _). destruct (fa_size _ _ _ F). destruct (file_trees _ _ _ F) as ((t1 & _ & R1) & (t2 & _ & R2)).
  split; cbn in *; (eapply t_good_ok; [done|lia]).
Qed.

(** ** Theorems *)

(** (C20) [nkfs_sb_create_obj] adds an empty object: with three free blocks, room in
    the tree of inodes and an id that is not in use, it returns the id and the
    superblock holds the empty object besides the objects it held. *)
Theorem nkfs_sb_create_obj_adds b F rnd : let o := snd (nkfs_obj_id_gen rnd) in
  sb_rep b F -> id_wf o -> F !! okey o = None -> (size F < t_cap)%nat -> st_room (st (sb_in b)) 3 ->
  exists b' roots, nkfs_sb_create_obj e ctx rnd b = Done (inr o) b' /\ sb_rep b' (<[okey o := File 0 0 (fun _ => None) roots]> F).
Proof.
  intros o Hb Wo Eo Hc Hr. destruct (proj1 (spec_done _ _ _) (spec_create_obj b F rnd Hb Wo Eo Hc Hr)) as (r & b' & E & -> & _ & _ & roots & Hb').
  by exists b', roots.
Qed.

(** (C3) [nkfs_sb_put_obj] changes the bytes of one object: the data of the pages are
    at their place, the size covers them, every other object is as it was; it fails
    only without free blocks, and then keeps the part before a block that the
    object does not have.  The device and the memory do not fail ([sb_rep]); the
    object had at most [t_safe] blocks before, so that the roots of its trees can
    be read back, and has room for the new ones in one node each. *)
Theorem nkfs_sb_put_obj_refines b F o fl off pg_off len pages : sb_rep b F -> F !! okey o = Some fl -> (fl_cap fl <= t_safe)%nat -> pages_ok pages ->
  0 <= off -> 0 <= pg_off < 4096 -> 0 <= len < 2 ^ 31 -> pg_off + len <= 4096 * Z.of_nat (length pages) -> off + len < 2 ^ 63 ->
  (fl_cap fl + 2 * length pages <= t_cap)%nat ->
  exists r b', nkfs_sb_put_obj e ctx o off pg_off len pages b = Done r b' /\
  put_done b F (okey o) fl off (window pages pg_off len) (2 * length pages) r b'.
Proof. intros Hb Eo Hc **. apply spec_done. apply spec_sb_put_obj; try done. by eapply sb_readable. Qed.

(** (C4) [nkfs_sb_get_obj] reads one object into the pages: the bytes from [off] up to
    its size, [-ERANGE] beyond it, [-ENOENT] at a block it does not have; every
    object is as it was, and no inode is left in memory.  The device and the memory
    do not fail, and the object has at most [t_safe] blocks. *)
Theorem nkfs_sb_get_obj_refines b F o fl off pg_off len pages : sb_rep b F -> id_wf o -> F !! okey o = Some fl -> (fl_cap fl <= t_safe)%nat -> pages_ok pages ->
  0 <= off -> 0 <= pg_off < 4096 -> 0 <= len < 2 ^ 31 -> pg_off + len <= 4096 * Z.of_nat (length pages) -> off + len < 2 ^ 63 ->
  exists r b', nkfs_sb_get_obj e ctx o off pg_off len pages b = Done r b' /\
  pages_read (bsize (sb_in b)) (fl_size fl) (fl_data fl) off pg_off len pages 0 r /\ sb_rep b' F.
Proof.
  intros Hb Wo Eo Hc P H1 H2 H3 H4 H5.
  destruct (proj1 (spec_done _ _ _) (spec_sb_get b F o fl off pg_off len pages Hb Wo Eo (sb_readable _ _ _ _ Hb Eo Hc) P H1 H2 H3 H4 H5))
    as (r & b' & E & R & Hb' & _).
  by exists r, b'.
Qed.

Lemma window_filled pages pg_off d pages' : pages_ok pages -> 0 <= pg_off -> pg_off + Z.of_nat (length d) <= 4096 * Z.of_nat (length pages) ->
  filled pages pg_off d pages' -> window pages' pg_off (Z.of_nat (length d)) = d.
Proof.
  intros P Ho Hl (_ & _ & E). unfold window. rewrite E, Nat2Z.id. apply field_memcpy. rewrite length_concat_pages by done. lia.
Qed.

(** (C10) Objects keep their bytes: what was put into an object is what a later get
    returns, whatever was put into another object in between.  The device and the
    memory do not fail, there are enough free blocks, and each object ends with at
    most [t_safe] blocks. *)
Theorem nkfs_sb_objects_round_trip b F o1 o2 fl1 fl2 off1 off2 pg1 pg2 pg3 len1 len2 pages1 pages2 pages3 :
  sb_rep b F -> id_wf o1 -> id_wf o2 -> o1 <> o2 -> F !! okey o1 = Some fl1 -> F !! okey o2 = Some fl2 ->
  pages_ok pages1 -> pages_ok pages2 -> pages_ok pages3 -> 0 <= off1 -> 0 <= off2 -> 0 <= pg1 < 4096 -> 0 <= pg2 < 4096 -> 0 <= pg3 < 4096 ->
  0 < len1 < 2 ^ 31 -> 0 <= len2 < 2 ^ 31 -> pg1 + len1 <= 4096 * Z.of_nat (length pages1) -> pg2 + len2 <= 4096 * Z.of_nat (length pages2) ->
  pg3 + len1 <= 4096 * Z.of_nat (length pages3) -> off1 + len1 < 2 ^ 63 -> off2 + len2 < 2 ^ 63 ->
  (fl_cap fl1 + 2 * length pages1 <= t_safe)%nat -> (fl_cap fl2 + 2 * length pages2 <= t_safe)%nat ->
  st_room (st (sb_in b)) (4 * length pages1 + 4 * length pages2) ->
  exists b1 b2 b3 pages', nkfs_sb_put_obj e ctx o1 off1 pg1 len1 pages1 b = Done 0 b1 /\
  nkfs_sb_put_obj e ctx o2 off2 pg2 len2 pages2 b1 = Done 0 b2 /\
  nkfs_sb_get_obj e ctx o1 off1 pg3 len1 pages3 b2 = Done (inr (len1, pages')) b3 /\
  window pages' pg3 len1 = window pages1 pg1 len1.
Proof.
  pose proof t_safe_cap as Hsc. intros Hb W1 W2 Ho E1 E2 P1 P2 P3 A1 A2 B1 B2 B3 L1 L2 C1 C2 C3 D1 D2 T1 T2 Hr.
  assert (Hk : okey o1 <> okey o2) by (intros Hk; by apply Ho, okey_inj).
  destruct (proj1 (spec_done _ _ _) (spec_sb_put_obj b F o1 fl1 off1 pg1 len1 pages1 Hb E1 (sb_readable _ _ _ _ Hb E1 ltac:(lia)) P1 A1 B1 ltac:(lia) C1 D1 ltac:(lia)))
    as (r1 & b1 & R1 & F1 & Hb1 & f1 & c1 & Hc1 & Pa1 & -> & Eb1 & [(-> & -> & Rm1)|(_ & _ & Hno)]).
  2:{ destruct Hno. eapply room_le; [|exact Hr]. lia. }
  set (fl1' := File _ _ f1 _) in Hb1. assert (E2' : <[okey o1 := fl1']> F !! okey o2 = Some fl2) by (by rewrite lookup_insert_ne).
  destruct (proj1 (spec_done _ _ _) (spec_sb_put_obj b1 _ o2 fl2 off2 pg2 len2 pages2 Hb1 E2' (sb_readable _ _ _ _ Hb1 E2' ltac:(lia)) P2 A2 B2 ltac:(lia) C2 D2 ltac:(lia)))
    as (r2 & b2 & R2 & F2 & Hb2 & f2 & c2 & Hc2 & Pa2 & -> & Eb2 & [(-> & -> & Rm2)|(_ & _ & Hno)]).
  2:{ destruct Hno. apply Rm1. eapply room_le; [|exact Hr]. lia. }
  set (F2 := <[okey o2 := _]> (<[okey o1 := _]> _)) in Hb2. assert (E1' : F2 !! okey o1 = Some fl1') by (unfold F2; rewrite lookup_insert_ne by done; apply lookup_insert_eq).
  destruct (proj1 (spec_done _ _ _) (spec_sb_get b2 F2 o1 fl1' off1 pg3 len1 pages3 Hb2 W1 E1' (sb_readable _ _ _ _ Hb2 E1' T1) P3 A1 B3 ltac:(lia) C3 D1))
    as (r3 & b3 & R3 & Hp & _).
  assert (Lw : Z.of_nat (length (window pages1 pg1 len1)) = len1) by (apply window_length; (done || lia)).
  rewrite firstn_all in Pa1. unfold pages_read, file_read in Hp. rewrite (proj2 (Z.leb_gt len1 0)) in Hp by lia.
  cbn [fl1' fl_size fl_data] in Hp. rewrite (proj2 (Nat.ltb_lt _ _)) in Hp by lia. rewrite Lw, Eb2, Eb1 in Hp.
  rewrite (proj2 (Z.ltb_ge _ _)), Z.min_l in Hp by lia. replace (Z.to_nat len1) with (length (window pages1 pg1 len1)) in Hp by lia.
  rewrite (put_at_read _ _ _ _ _ Pa1) in Hp. destruct Hp as (pages' & -> & Hf). rewrite Lw, Z.add_0_l in R3.
  exists b1, b2, b3, pages'. do 3 (split; [done|]). rewrite <- Lw at 1. apply (window_filled pages3); [done|lia|lia|done].
Qed.

End Objects.

End SbObjects.
