(* ===== verification/SbListSpec.v ===== *)
(** * The list of superblocks keeps its books

    Ids in the list are unique and a lookup finds by id; every operation on
    objects gives back the references it took; the superblock chosen for a new
    object. *)

From Stdlib Require Import ZArith Lia.
From coqutil Require Import Byte.
From stdpp Require Import base list gmap.
From S2P Require Import Prelude XXHash Bytes StMonad Csum DioPages Dio DioClient Mem CharHex ObjId Super BtreeNode BtreeDisk.
From S2P Require Import BlockTree Inode SbList.
Import XXHash Bytes StMonad Csum ObjId SbList.
Local Open Scope Z_scope.
Local Open Scope stm_scope.

Module SbListSpec.

(** Calls that leave something of the state as it is, whenever they end. *)
Create HintDb quiet.

Section Spec.
Context {T St : Type} `{BlockTree T St}.
Context (e : XXH_endianess) (ctx : csum_ctx).

Local Abbreviation nkfs_sb := (SbList.nkfs_sb T St).
Local Abbreviation host := (SbList.host T St).

(** ** Objects leave their superblock alone *)

Definition quiet {A} (m : StMonad.M nkfs_sb A) : Prop := forall b a b', m b = Done a b' ->
  sb_hdr b' = sb_hdr b /\ sb_refs b' = sb_refs b /\ stopping b' = stopping b /\ dev_name b' = dev_name b.

Lemma quiet_ret {A} (a : A) : quiet (ret a).
Proof. intros b a' b' [= <- <-]. done. Qed.

Lemma quiet_gets {A} (f : nkfs_sb -> A) : quiet (gets f).
Proof. intros b a' b' [= <- <-]. done. Qed.

Lemma quiet_bug_on c : quiet (BUG_ON c).
Proof. destruct c; [intros b a b' E; discriminate E|apply quiet_ret]. Qed.

Lemma quiet_bind {A C} (m : StMonad.M nkfs_sb A) (k : A -> StMonad.M nkfs_sb C) : quiet m -> (forall a, quiet (k a)) -> quiet (bind m k).
Proof.
  intros Hm Hk b c b2 E. unfold bind in E. destruct (m b) as [a b1| | |] eqn:E1; [|discriminate E..].
  destruct (Hm _ _ _ E1) as (? & ? & ? & ?), (Hk a _ _ _ E) as (? & ? & ? & ?). repeat split; congruence.
Qed.

Lemma quiet_inode {A} (m : StMonad.M (Inode.sb_state T St) A) : quiet (inode m).
Proof. intros b a b' E. unfold inode in E. destruct (m (sb_in b)); [|discriminate E..]. injection E as <- <-. done. Qed.

Lemma quiet_on_itree {A} (f : T -> St -> outcome (A * T * St)) : quiet (on_itree f).
Proof.
  intros b a b' E. unfold on_itree in E. destruct (inodes_tree b) as [t|]; [|discriminate E].
  destruct (f t _) as [[[? ?] ?]|]; [|discriminate E]. injection E as <- <-. done.
Qed.

End Spec.

#[export] Hint Resolve quiet_ret quiet_gets quiet_bug_on quiet_inode quiet_on_itree : quiet.

(** Through the binds and branches of a call. *)
Ltac quiet :=
  repeat match goal with
  | |- quiet (bind _ _) => apply quiet_bind; [|intros ?]
  | |- quiet (if ?c then _ else _) => destruct c
  | |- quiet (match ?x with _ => _ end) => destruct x
  | |- quiet (let _ := _ in _) => cbv zeta
  end; auto with quiet.

Section Objects.
Context {T St : Type} `{BlockTree T St}.
Context (e : XXH_endianess) (ctx : csum_ctx).

Lemma quiet_find o : quiet (find_obj (T := T) (St := St) e o).
Proof. apply quiet_on_itree. Qed.

Lemma quiet_get_obj o off pg_off len pages : quiet (nkfs_sb_get_obj (T := T) (St := St) e ctx o off pg_off len pages).
Proof. unfold nkfs_sb_get_obj, find_obj. quiet. Qed.

Lemma quiet_put_obj o off pg_off len pages : quiet (nkfs_sb_put_obj (T := T) (St := St) e ctx o off pg_off len pages).
Proof. unfold nkfs_sb_put_obj, find_obj. quiet. Qed.

Lemma quiet_create_obj rnd : quiet (nkfs_sb_create_obj (T := T) (St := St) e ctx rnd).
Proof. unfold nkfs_sb_create_obj. quiet. Qed.

Lemma quiet_delete_obj o : quiet (nkfs_sb_delete_obj (T := T) (St := St) e ctx o).
Proof. unfold nkfs_sb_delete_obj, find_obj. quiet. Qed.

Lemma quiet_query_obj o : quiet (nkfs_sb_query_obj (T := T) (St := St) e ctx o).
Proof. unfold nkfs_sb_query_obj, find_obj. quiet. Qed.

Lemma quiet_as_err (m : StMonad.M (SbList.nkfs_sb T St) Z) : quiet m -> quiet (as_err m).
Proof. intros Hm. unfold as_err. apply quiet_bind; [done|]. intros r. quiet. Qed.

(** ** References *)

Local Abbreviation nkfs_sb := (SbList.nkfs_sb T St).
Local Abbreviation host := (SbList.host T St).

Lemma ends_get p h (Q : nkfs_sb -> host -> Prop) : (forall b, sbo h !! p = Some b -> Q b h) -> ends (get_sb p) h Q.
Proof.
  intros HQ a h' E. unfold get_sb, on_sb in E. destruct (sbo h !! p) as [b|] eqn:Eb; [|discriminate E]. injection E as <- <-.
  rewrite insert_id by done. destruct h. by apply HQ.
Qed.

(** The same superblocks, with [k p] more references to [p]. *)
Definition books (k : nat -> Z) (h h' : host) : Prop :=
  sb_list h' = sb_list h /\ forall p,
  match sbo h !! p, sbo h' !! p with
  | Some b, Some b' => sb_hdr b' = sb_hdr b /\ sb_refs b' = sb_refs b + k p /\ stopping b' = stopping b /\ dev_name b' = dev_name b
  | None, None => True
  | _, _ => False
  end.

Lemma books_refl h : books (fun _ => 0) h h.
Proof. split; [done|]. intros p. destruct (sbo h !! p); [|done]. repeat split; lia. Qed.

Lemma books_trans k1 k2 h1 h2 h3 : books k1 h1 h2 -> books k2 h2 h3 -> books (fun p => k1 p + k2 p) h1 h3.
Proof.
  intros [L1 B1] [L2 B2]. split; [congruence|]. intros p. specialize (B1 p). specialize (B2 p).
  destruct (sbo h1 !! p), (sbo h2 !! p), (sbo h3 !! p); try done. destruct B1 as (? & ? & ? & ?), B2 as (? & ? & ? & ?). repeat split; congruence || lia.
Qed.

Lemma books_ext k k' h h' : (forall p, k p = k' p) -> books k h h' -> books k' h h'.
Proof. intros Hk [L B]. split; [done|]. intros p. specialize (B p). by rewrite <- Hk. Qed.

Definition one (p q : nat) : Z := if decide (q = p) then 1 else 0.

Definition occ (l : list nat) (q : nat) : Z := Z.of_nat (count_occ Nat.eq_dec l q).

Lemma occ_cons p l q : occ (p :: l) q = one p q + occ l q.
Proof. unfold occ, one. cbn. destruct (Nat.eq_dec p q); case_decide; subst; try done; lia. Qed.

Lemma occ_app l1 l2 q : occ (l1 ++ l2) q = occ l1 q + occ l2 q.
Proof. unfold occ. rewrite count_occ_app. lia. Qed.

Lemma books_at k h p b b' : sbo h !! p = Some b -> sb_hdr b' = sb_hdr b -> sb_refs b' = sb_refs b + k -> stopping b' = stopping b ->
  dev_name b' = dev_name b -> books (fun q => k * one p q) h (with_sbo (<[p := b']> (sbo h)) h).
Proof.
  intros E H1 H2 H3 H4. split; [done|]. intros q. unfold one. cbn [with_sbo sbo]. case_decide as Hq.
  - subst q. rewrite E, lookup_insert_eq. repeat split; [done|lia|done|done].
  - rewrite lookup_insert_ne by done. destruct (sbo h !! q); [|done]. repeat split; lia.
Qed.

Lemma ends_on_sb {A} p (m : StMonad.M nkfs_sb A) h (Q : A -> host -> Prop) : quiet m ->
  (forall a h', books (fun _ => 0) h h' -> Q a h') -> ends (on_sb p m) h Q.
Proof.
  intros Hm HQ a h' E. unfold on_sb in E. destruct (sbo h !! p) as [b|] eqn:Eb; [|discriminate E].
  destruct (m b) as [a1 b1| | |] eqn:E1; [|discriminate E..]. injection E as <- <-. destruct (Hm _ _ _ E1) as (? & ? & ? & ?).
  apply HQ. eapply books_ext; [|apply (books_at 0 h p b b1); [done..|lia|done|done]]. intros q. cbn beta. lia.
Qed.

Lemma ends_ref p h (Q : unit -> host -> Prop) : (forall h', books (one p) h h' -> Q tt h') -> ends (nkfs_sb_ref p) h Q.
Proof.
  intros HQ. apply ends_bind, ends_get. intros b Eb. apply ends_bind, ends_bug_on. intros _.
  intros a h' E. unfold upd_sb, on_sb in E. rewrite Eb in E. injection E as <- <-. apply HQ.
  eapply books_ext; [|by apply (books_at 1 h p b)]. intros q. cbn beta. lia.
Qed.

(** A reference that is not the last. *)
Lemma ends_deref p h (Q : unit -> host -> Prop) : (forall b, sbo h !! p = Some b -> 1 < sb_refs b) ->
  (forall h', books (fun q => - one p q) h h' -> Q tt h') -> ends (nkfs_sb_deref p) h Q.
Proof.
  intros Hr HQ. apply ends_bind, ends_get. intros b Eb. specialize (Hr b Eb). apply ends_bind, ends_bug_on. intros _.
  apply ends_bind. intros a h' E. unfold upd_sb, on_sb in E. rewrite Eb in E. injection E as <- <-.
  rewrite (proj2 (Z.eqb_neq _ _)) by lia. apply ends_ret, HQ.
  eapply books_ext; [|apply (books_at (-1) h p b); [done|done|cbn; lia|done|done]]. intros q. cbn beta. lia.
Qed.

Lemma ends_release links : forall h (Q : unit -> host -> Prop), (forall p b, sbo h !! p = Some b -> occ links p < sb_refs b) ->
  (forall h', books (fun q => - occ links q) h h' -> Q tt h') -> ends (nkfs_sb_list_release links) h Q.
Proof.
  induction links as [|p links IH]; intros h Q Hr HQ; cbn [nkfs_sb_list_release].
  - apply ends_ret, HQ, books_refl.
  - apply ends_bind, ends_deref.
    { intros b Eb. specialize (Hr p b Eb). rewrite occ_cons in Hr. unfold one, occ in Hr. rewrite decide_True in Hr by done. lia. }
    intros h1 B1. apply IH.
    { intros q b1 E1. destruct B1 as [_ B1]. specialize (B1 q). rewrite E1 in B1. destruct (sbo h !! q) as [b|] eqn:E; [|done].
      specialize (Hr q b E). rewrite occ_cons in Hr. lia. }
    intros h2 B2. apply HQ. eapply books_ext; [|by eapply books_trans]. intros q. rewrite occ_cons. lia.
Qed.

Lemma ends_by_obj o l : forall links h (Q : list nat * bool -> host -> Prop),
  (forall extra ok h', books (occ extra) h h' -> Q (links ++ extra, ok) h') -> ends (by_obj e o l links) h Q.
Proof.
  induction l as [|p l IH]; intros links h Q HQ; cbn [by_obj].
  - apply ends_ret. rewrite <- (app_nil_r links). apply HQ, books_refl.
  - apply ends_bind, ends_on_sb; [apply quiet_find|]. intros f h1 B1. destruct (negb (fst f =? 0)).
    { apply IH. intros extra ok h2 B2. apply HQ. eapply books_ext; [|by eapply books_trans]. intros q. cbn beta. lia. }
    apply ends_bind. unfold nkfs_sb_link_create. apply ends_bind. intros fl h2 [= <- <-].
    assert (B2 : books (fun _ => 0) h (with_ltick (S (ltick h1)) h1)) by exact B1. destruct (lfail h1 (ltick h1)).
    { apply ends_ret, ends_ret. rewrite <- (app_nil_r links). by apply HQ. }
    apply ends_bind, ends_ref. intros h3 B3. apply ends_ret, IH. intros extra ok h4 B4. rewrite <- app_assoc. apply HQ.
    eapply books_ext; [|eapply books_trans; [exact B2|by eapply books_trans]]. intros q. cbn [app]. rewrite occ_cons. lia.
Qed.

Definition all_held (h : host) : Prop := forall p b, sbo h !! p = Some b -> 0 < sb_refs b.

Lemma books_more k h h' : all_held h -> books k h h' -> forall p b, sbo h' !! p = Some b -> k p < sb_refs b.
Proof. intros Hh [_ B] p b' E. specialize (B p). rewrite E in B. destruct (sbo h !! p) as [b|] eqn:Eb; [|done]. specialize (Hh p b Eb). lia. Qed.

Lemma ends_list_op {A} o (op : StMonad.M nkfs_sb (Z + A)) h : all_held h -> quiet op -> ends (list_op e o op) h (fun _ => books (fun _ => 0) h).
Proof.
  intros Hh Hop. unfold list_op, nkfs_sb_list_by_obj. apply ends_bind, ends_bind, ends_gets, ends_bind, ends_by_obj.
  intros links ok h1 B1. cbn [app fst snd]. destruct ok.
  - apply ends_ret, ends_bind, ends_bug_on. intros _. apply ends_bind.
    assert (Hrel : forall (r : Z + A) h2, books (fun _ => 0) h1 h2 ->
      ends (do* nkfs_sb_list_release links in ret r) h2 (fun _ => books (fun _ => 0) h)).
    { intros r h2 B2. assert (B02 : books (occ links) h h2) by (eapply books_ext; [|by eapply books_trans]; intros q; cbn beta; lia).
      apply ends_bind, ends_release; [by eapply books_more|]. intros h3 B3. apply ends_ret.
      eapply books_ext; [|by eapply books_trans]. intros q. cbn beta. lia. }
    destruct (nkfs_sb_list_first links) as [p|]; [|apply ends_ret; apply Hrel, books_refl].
    apply ends_on_sb; [done|]. intros r h2 B2. by apply Hrel.
  - apply ends_bind, ends_release; [by eapply books_more|]. intros h2 B2. apply ends_ret, ends_ret.
    eapply books_ext; [|by eapply books_trans]. intros q. cbn beta. lia.
Qed.

(** ** Looking up *)

Lemma spec_get_sb p b h (Q : nkfs_sb -> host -> Prop) : sbo h !! p = Some b -> Q b h -> StMonad.spec (get_sb p) h Q.
Proof. intros E HQ. unfold StMonad.spec, get_sb, on_sb. rewrite E. cbn. rewrite insert_id by done. by destruct h. Qed.

Lemma spec_sb_ref p b h (Q : unit -> host -> Prop) : sbo h !! p = Some b -> 0 < sb_refs b -> (forall h', books (one p) h h' -> Q tt h') ->
  StMonad.spec (nkfs_sb_ref p) h Q.
Proof.
  intros E Hr HQ. unfold nkfs_sb_ref. apply spec_bind, (spec_get_sb p b); [done|]. apply spec_bind, spec_bug_on; [lia|].
  unfold StMonad.spec, upd_sb, on_sb. rewrite E. cbn. apply HQ. eapply books_ext; [|by apply (books_at 1 h p b)]. intros q. cbn beta. lia.
Qed.

Definition has_id (h : host) (p : nat) (o : nkfs_obj_id) : Prop := exists b, sbo h !! p = Some b /\ Super.id (sb_hdr b) = o.

(** The list holds superblocks in memory, each id once. *)
Record listed (h : host) : Prop := {
  li_nodup : NoDup (sb_list h);
  li_there p : p ∈ sb_list h -> is_Some (sbo h !! p);
  li_ids p q o : p ∈ sb_list h -> q ∈ sb_list h -> has_id h p o -> has_id h q o -> p = q
}.

Lemma spec_by_id o h l : forall (Q : option nat -> host -> Prop), (forall p, p ∈ l -> is_Some (sbo h !! p)) ->
  (forall p, p ∈ l -> has_id h p o -> Q (Some p) h) -> ((forall p, p ∈ l -> ~ has_id h p o) -> Q None h) -> StMonad.spec (by_id o l) h Q.
Proof.
  induction l as [|p l IH]; intros Q Hl HS HN; cbn [by_id]; [apply spec_ret, HN; intros p Hp; by apply elem_of_nil in Hp|].
  destruct (Hl p ltac:(by left)) as [b E]. apply spec_bind, (spec_get_sb p b); [done|]. rewrite cmp_zero. case_bool_decide as Ho.
  - apply spec_ret, HS; [by left|]. by exists b.
  - apply IH; [intros q Hq; apply Hl; by right|intros q Hq; apply HS; by right|]. intros Hn. apply HN.
    intros q Hq [c [Ec Ho']]. apply elem_of_cons in Hq as [->|Hq]; [congruence|]. apply (Hn q Hq). by exists c.
Qed.

Lemma has_id_fun (h : host) p o o' : has_id h p o -> has_id h p o' -> o = o'.
Proof. intros (b & E & <-) (b' & E' & <-). congruence. Qed.

Lemma spec_sb_insert (h : host) p b : listed h -> sbo h !! p = Some b -> p ∉ sb_list h ->
  StMonad.spec (nkfs_sb_insert p) h (fun r h' => listed h' /\ sbo h' = sbo h /\
    (r = 0 /\ h' = with_list (sb_list h ++ [p]) h /\ (forall q, q ∈ sb_list h -> ~ has_id h q (Super.id (sb_hdr b))) \/
     r = - EEXIST /\ h' = h /\ exists q, q ∈ sb_list h /\ has_id h q (Super.id (sb_hdr b)))).
Proof.
  intros Hli E Hp. unfold nkfs_sb_insert. apply spec_bind, (spec_get_sb p b); [done|]. apply spec_bind, spec_gets, spec_bind, spec_by_id; [apply Hli| |].
    + intros q Hq Ho. apply spec_ret. split_and!; [done|done|]. right. split_and!; [done..|]. by exists q.
    + intros Hn. apply spec_bind, spec_modify, spec_ret. split_and!; [|done|left; by split_and!].
      split; cbn [with_list sb_list sbo].
      * apply NoDup_app. split_and!; [apply Hli|intros q Hq ->%list_elem_of_singleton; done|apply NoDup_singleton].
      * intros q [Hq| ->%list_elem_of_singleton]%elem_of_app; [by apply Hli|by exists b].
      * assert (Hb : has_id h p (Super.id (sb_hdr b))) by (by exists b).
        intros q1 q2 o' [H1| ->%list_elem_of_singleton]%elem_of_app [H2| ->%list_elem_of_singleton]%elem_of_app I1 I2; [by eapply Hli| | |done].
        { destruct (Hn q1 H1). by rewrite (has_id_fun h _ _ _ Hb I2). }
        { destruct (Hn q2 H2). by rewrite (has_id_fun h _ _ _ Hb I1). }
Qed.

(** ** Choosing *)

Definition free_of (b : nkfs_sb) : Z := Super.nr_blocks (sb_hdr b) - st_count (Inode.st (sb_in b)).

(** The counters of the listed superblocks make sense. *)
Definition counted (h : host) : Prop := forall p b, p ∈ sb_list h -> sbo h !! p = Some b -> 0 <= free_of b < 2 ^ 64.

Definition offers (h : host) (p : nat) (n : Z) : Prop := exists b, sbo h !! p = Some b /\ u32 (free_of b) = n.

(** What the search ends with: the candidate it started with when the rest of the list
    offers less, and one of the list otherwise. *)
Lemma spec_most_free h l : (forall p, p ∈ l -> exists b, sbo h !! p = Some b /\ 0 <= free_of b < 2 ^ 64) ->
  forall found mx (Q : option nat -> host -> Prop), 0 <= mx -> (found = None -> mx = 0) ->
  (forall r n, (r = found /\ n = mx /\ (found = None -> l = []) \/ exists p, r = Some p /\ p ∈ l /\ offers h p n) ->
     mx <= n -> (forall q k, q ∈ l -> offers h q k -> k <= n) -> Q r h) ->
  StMonad.spec (most_free l found mx) h Q.
Proof.
  induction l as [|p l IH]; intros Hl found mx Q Hm Hf HQ; cbn [most_free].
  { apply spec_ret, (HQ found mx); [by left|lia|intros q k Hq; by apply elem_of_nil in Hq]. }
  destruct (Hl p ltac:(by left)) as (b & E & Hb). apply spec_bind, (spec_get_sb p b); [done|]. apply spec_bind.
  unfold nkfs_sb_free_blocks. unfold free_of in Hb. rewrite (proj2 (Z.ltb_ge _ _)) by lia. cbn [bug_on].
  eapply spec_lift; [done|]. rewrite (wrap_small 64) by lia. change (Super.nr_blocks (sb_hdr b) - st_count (Inode.st (sb_in b))) with (free_of b).
  assert (Hp : offers h p (u32 (free_of b))) by (by exists b). pose proof (wrap_bounds 32 (free_of b) ltac:(lia)) as Hw.
  assert (Hmax : forall n, u32 (free_of b) <= n -> (forall q k, q ∈ l -> offers h q k -> k <= n) -> forall q k, q ∈ p :: l -> offers h q k -> k <= n).
  { intros n Hn Hl' q k [->|Hq]%elem_of_cons Ho; [destruct Ho as (c & Ec & <-); replace c with b by congruence; lia|by eapply Hl']. }
  assert (Hl' : forall q, q ∈ l -> exists b, sbo h !! q = Some b /\ 0 <= free_of b < 2 ^ 64) by (intros q Hq; apply Hl; by right).
  destruct (Z.leb_spec mx (u32 (free_of b))) as [Hle|Hgt].
  - apply (IH Hl'); [lia|done|]. intros r n Hr Hn Hm'. apply (HQ r n); [|lia|apply Hmax; [lia|done]].
    right. destruct Hr as [(-> & -> & _)|(q & -> & Hq & Ho)]; [exists p; by split; [|split; [left|]]|exists q; by split; [|split; [right|]]].
  - assert (Hf' : found <> None) by (intros ->; rewrite Hf in Hgt by done; lia).
    apply (IH Hl'); [lia|done|]. intros r n Hr Hn Hm'. apply (HQ r n); [|lia|apply Hmax; [lia|done]].
    destruct Hr as [(-> & -> & _)|(q & -> & Hq & Ho)]; [by left|right; exists q; by split; [|split; [right|]]].
Qed.

Lemma counted_listed h : listed h -> counted h -> forall p, p ∈ sb_list h -> exists b, sbo h !! p = Some b /\ 0 <= free_of b < 2 ^ 64.
Proof. intros Hli Hc p Hp. destruct (li_there h Hli p Hp) as [b E]. exists b. by split; [|eapply Hc]. Qed.

Lemma spec_select h (Q : option nat -> host -> Prop) : listed h -> counted h -> all_held h ->
  (sb_list h = [] -> Q None h) ->
  (forall p n h', p ∈ sb_list h -> offers h p n -> (forall q k, q ∈ sb_list h -> offers h q k -> k <= n) -> books (one p) h h' -> Q (Some p) h') ->
  StMonad.spec nkfs_sb_select_most_free h Q.
Proof.
  intros Hli Hc Hh HN HS. unfold nkfs_sb_select_most_free. apply spec_bind, spec_gets, spec_bind.
  apply (spec_most_free h (sb_list h)); [by apply counted_listed|lia|done|]. intros r n Hr _ Hmax.
  destruct Hr as [(-> & -> & Hl)|(p & -> & Hp & Ho)]; [by apply spec_ret, HN, Hl|].
  destruct (li_there h Hli p Hp) as [b E]. apply spec_bind, (spec_sb_ref p b); [done|by eapply Hh|]. intros h' B. apply spec_ret. by eapply HS.
Qed.

End Objects.

End SbListSpec.

(** * The list of superblocks: what is promised *)

Import XXHash Bytes StMonad Csum ObjId SbList SbListSpec.

Module SbListClaims.

Section Claims.
Context {T St : Type} `{BlockTree T St}.
Context (e : XXH_endianess) (ctx : csum_ctx).

Local Abbreviation nkfs_sb := (SbList.nkfs_sb T St).
Local Abbreviation host := (SbList.host T St).

Lemma ends_most_free l : forall found mx (h : host), ends (most_free l found mx) h (fun _ h' => h' = h).
Proof.
  induction l as [|p l IH]; intros found mx h; cbn [most_free]; [by apply ends_ret|].
  apply ends_bind, ends_get. intros b _. apply ends_bind. intros n h' E. unfold lift in E.
  destruct (nkfs_sb_free_blocks b); [injection E as <- <-|discriminate E]. case_match; apply IH.
Qed.

Lemma ends_create rnd (h : host) : all_held h -> ends (nkfs_sb_list_create_obj e ctx rnd) h (fun _ => books (fun _ => 0) h).
Proof.
  intros Hh. unfold nkfs_sb_list_create_obj, nkfs_sb_select_most_free.
  apply ends_bind, ends_bind, ends_gets, ends_bind. eapply ends_mono; [apply ends_most_free|]. cbn beta. intros [p|] h0 ->.
  - apply ends_bind, ends_ref. intros h1 B1. apply ends_ret, ends_bind, ends_on_sb; [apply quiet_create_obj|]. intros r h2 B2.
    assert (B02 : books (one p) h h2) by (eapply books_ext; [|by eapply books_trans]; intros q; cbn beta; lia).
    apply ends_bind, ends_deref.
    { intros b Eb. pose proof (books_more _ _ _ Hh B02 p b Eb) as Hr. unfold one in Hr. by rewrite decide_True in Hr. }
    intros h3 B3. apply ends_ret. eapply books_ext; [|by eapply books_trans]. intros q. cbn beta. lia.
  - apply ends_ret, ends_ret, books_refl.
Qed.

(** (C25) Whatever an operation on an object returns, found, missing, out of memory or failed half
    way, it leaves the list, the headers and every reference count as they were: the references it
    took on superblocks to keep them in memory are all given back, and none more. *)
Theorem nkfs_sb_list_refs_balanced (h h' : host) o off pg_off len pages rnd : all_held h ->
  (exists r, nkfs_sb_list_get_obj e ctx o off pg_off len pages h = Done r h') \/
  (exists r, nkfs_sb_list_put_obj e ctx o off pg_off len pages h = Done r h') \/
  (exists r, nkfs_sb_list_delete_obj e ctx o h = Done r h') \/
  (exists r, nkfs_sb_list_query_obj e ctx o h = Done r h') \/
  (exists r, nkfs_sb_list_create_obj e ctx rnd h = Done r h') ->
  books (fun _ => 0) h h' /\ all_held h'.
Proof.
  intros Hh Hop. assert (B : books (fun _ => 0) h h').
  { destruct Hop as [[r E]|[[r E]|[[r E]|[[r E]|[r E]]]]]; revert E.
    - apply ends_list_op; [done|apply quiet_get_obj].
    - apply ends_list_op; [done|apply quiet_as_err, quiet_put_obj].
    - apply ends_list_op; [done|apply quiet_as_err, quiet_delete_obj].
    - apply ends_list_op; [done|apply quiet_query_obj].
    - by apply ends_create. }
  split; [done|]. intros p b E. by pose proof (books_more _ _ _ Hh B p b E).
Qed.

(** The list of superblocks is a map from id to superblock: [nkfs_sb_insert] adds the superblock
    at the end when its id is new and returns [-EEXIST] with nothing changed otherwise, so that the ids
    stay unique; [nkfs_sb_lookup] returns the one superblock with the id, with one reference more, and
    nothing exactly when no superblock has it. *)
Theorem nkfs_sb_list_is_a_map (h : host) p b o : listed h -> all_held h -> sbo h !! p = Some b -> p ∉ sb_list h ->
  StMonad.spec (nkfs_sb_insert p) h (fun r h' => listed h' /\ sbo h' = sbo h /\
    (r = 0 /\ sb_list h' = sb_list h ++ [p] /\ (forall q, q ∈ sb_list h -> ~ has_id h q (Super.id (sb_hdr b))) \/
     r = - EEXIST /\ h' = h /\ exists q, q ∈ sb_list h /\ has_id h q (Super.id (sb_hdr b)))) /\
  StMonad.spec (nkfs_sb_lookup o) h (fun r h' =>
    match r with
    | Some q => q ∈ sb_list h /\ has_id h q o /\ books (one q) h h'
    | None => h' = h /\ forall q, q ∈ sb_list h -> ~ has_id h q o
    end).
Proof.
  intros Hli Hh E Hp. split.
  - eapply spec_mono; [by apply spec_sb_insert|]. intros r h' (L & Es & [(-> & -> & Hn)|Hn]); (split; [done|split; [done|]]); [by left|by right].
  - unfold nkfs_sb_lookup. apply spec_bind, spec_gets, spec_bind, spec_by_id; [apply Hli| |].
    + intros q Hq Ho. destruct Ho as (c & Ec & Ho). apply spec_bind, (spec_sb_ref q c); [done|by eapply Hh|]. intros h' B.
      apply spec_ret. split_and!; [done|by exists c|done].
    + intros Hn. by apply spec_ret.
Qed.

(** A new object goes to a superblock of the list whose number of free blocks, as an unsigned
    32-bit number, is largest; with fewer than 2^32 blocks free everywhere that is the one with most
    free blocks.  It fails only on an empty list. *)
Theorem nkfs_sb_select_most_free_max (h : host) : listed h -> counted h -> all_held h ->
  StMonad.spec nkfs_sb_select_most_free h (fun r h' =>
    match r with
    | None => sb_list h = [] /\ h' = h
    | Some p => p ∈ sb_list h /\ books (one p) h h' /\
        (forall b q c, sbo h !! p = Some b -> q ∈ sb_list h -> sbo h !! q = Some c -> u32 (free_of c) <= u32 (free_of b)) /\
        ((forall q c, q ∈ sb_list h -> sbo h !! q = Some c -> free_of c < 2 ^ 32) ->
         forall b q c, sbo h !! p = Some b -> q ∈ sb_list h -> sbo h !! q = Some c -> free_of c <= free_of b)
    end).
Proof.
  intros Hli Hc Hh. apply spec_select; [done..| |]; [done|]. intros p n h' Hp Ho Hmax B.
  assert (Hu : forall b q c, sbo h !! p = Some b -> q ∈ sb_list h -> sbo h !! q = Some c -> u32 (free_of c) <= u32 (free_of b)).
  { intros b q c Eb Hq Ec. destruct Ho as (b' & Eb' & Hn). replace b' with b in * by congruence. rewrite Hn. apply (Hmax q); [done|]. by exists c. }
  split_and!; [done..|]. intros Hsm b q c Eb Hq Ec. pose proof (Hu b q c Eb Hq Ec) as Hle.
  pose proof (Hc p b Hp Eb). pose proof (Hc q c Hq Ec). pose proof (Hsm p b Hp Eb). pose proof (Hsm q c Hq Ec).
  rewrite !(wrap_small 32) in Hle by lia. done.
Qed.

End Claims.

End SbListClaims.
