(* ===== verification/SbFormat.v ===== *)
(** * Images: making and opening one (src/core/super.c)

    [nkfs_sb_format] writes an empty image to a device, [nkfs_sb_load] opens the
    image on one.  Both give a superblock: its header and its tree of inodes; the
    rest of the superblock's state is that of Inode.

    [ImageStore] is what they ask of the store of blocks beyond [BlockTree]: the
    fields of the superblock that the allocator uses are set from a header
    ([st_attach]), the bitmap is cleared, blocks are marked. *)

From Stdlib Require Import ZArith Lia.
From coqutil Require Import Byte.
From stdpp Require Import base list gmap.
From S2P Require Import Prelude XXHash Bytes StMonad Csum DioPages Dio DioInv DioSpec DioClient Mem CharHex ObjId Super.
From S2P Require Import BtreeNode BtreeDisk BlockTree Inode InodeSpec.
Import XXHash Bytes StMonad Csum ObjId DioClient.
Local Open Scope Z_scope.
Local Open Scope stm_scope.

Class ImageStore (T St : Type) `{BlockTree T St} := {
  st_attach : Super.nkfs_sb -> St -> St;
  st_clear : St -> Z * St;
  st_mark : Z -> St -> outcome (Z * St);
  (* the store works with the layout of this header *)
  st_fits : Super.nkfs_sb -> St -> Prop;
  (* the bitmap has the shape the store works with, whatever its bits *)
  st_raw : St -> Prop;
  (* bitmap and counter agree *)
  st_sound : St -> Prop;
  (* no access to the bitmap fails *)
  st_calm : St -> Prop;

  st_ok_sound st : st_ok st <-> st_sound st /\ 0 ∈ st_used st;
  st_attach_fits h st : st_fits h (st_attach h st) /\ st_size (st_attach h st) = Super.nr_blocks h /\
    (st_calm st -> st_calm (st_attach h st));
  (* only the layout counts *)
  st_fits_ext h h' st : st_fits h st -> Super.nr_blocks h' = Super.nr_blocks h -> Super.bm_block h' = Super.bm_block h ->
    Super.bm_blocks h' = Super.bm_blocks h -> Super.bsize h' = Super.bsize h -> st_fits h' st;
  (* opening again what was left there *)
  st_attach_again h st : st_ok st -> st_fits h st -> Super.used_blocks h = st_count st ->
    st_ok (st_attach h st) /\ st_used (st_attach h st) = st_used st /\ st_count (st_attach h st) = st_count st /\
    (forall t b m, t_rep t st b m -> t_rep t (st_attach h st) b m) /\ (forall b, t_good (st_attach h st) b = t_good st b);
  st_clear_ok st : st_raw st -> exists err st', st_clear st = (err, st') /\ (forall h, st_fits h st -> st_fits h st') /\
    st_size st' = st_size st /\ (err = 0 -> st_sound st' /\ st_used st' = ∅) /\ (st_calm st -> err = 0 /\ st_calm st');
  st_mark_ok x st : st_sound st -> 0 <= x < st_size st -> x ∉ st_used st -> exists err st', st_mark x st = Ret (err, st') /\
    st_sound st' /\ (forall h, st_fits h st -> st_fits h st') /\ st_size st' = st_size st /\
    (err = 0 -> st_used st' = {[x]} ∪ st_used st) /\ (st_calm st -> err = 0 /\ st_calm st');
  t_create_fits h st t st' : st_ok st -> t_create 0 st = Ret (Some t, st') -> st_fits h st -> st_fits h st';
  st_calm_room st n : st_calm st -> Z.of_nat n + Z.of_nat (size (st_used st)) <= st_size st -> st_room st n
}.

Module SbFormat.

Section Format.
Context {T St : Type} `{ImageStore T St}.
Context (e : XXH_endianess) (ctx : csum_ctx).

Abbreviation M := (StMonad.M (Inode.sb_state T St)).

(** [sb->bsize], and the fields the allocator uses. *)
Definition attach (h : Super.nkfs_sb) : M unit :=
  modify (fun s => Inode.SbState (Inode.ddev s) (st_attach h (Inode.st s)) (Super.bsize h) (Inode.objs s) (Inode.next s) (Inode.inodes s)
    (Inode.inodes_active s) (Inode.mfail s) (Inode.mtick s)).

Definition with_root (b : Z) (h : Super.nkfs_sb) : Super.nkfs_sb :=
  Super.Sb (Super.id h) (Super.nr_blocks h) (Super.magic h) (Super.version h) (Super.size h) (Super.bm_block h) (Super.bm_blocks h)
    b (Super.used_blocks h) (Super.bsize h).
Definition with_used (n : Z) (h : Super.nkfs_sb) : Super.nkfs_sb :=
  Super.Sb (Super.id h) (Super.nr_blocks h) (Super.magic h) (Super.version h) (Super.size h) (Super.bm_block h) (Super.bm_blocks h)
    (Super.inodes_tree_block h) n (Super.bsize h).

(** The blocks of header and bitmap, in order. *)
Fixpoint mark_blocks (n : nat) (i : Z) : M Z :=
  match n with
  | O => ret 0
  | S n =>
      let* err := Inode.on_store (st_mark i) in
      if negb (err =? 0) then ret err else mark_blocks n (i + 1)
  end.

(** The steps of [nkfs_sb_format] between the creation of [sb] and [del_sb]; at
    [del_sb] the tree is let go, if there is one. *)
Definition format_image (c : nat) (h : Super.nkfs_sb) : M (Z + Super.nkfs_sb * T) :=
  do* attach h in
  let* err := Inode.on_store (fun st => Ret (st_clear st)) in
  if negb (err =? 0) then ret (inl err)
  else
    let* err := mark_blocks (Z.to_nat (u64 (Super.bm_block h + Super.bm_blocks h))) 0 in
    if negb (err =? 0) then ret (inl err)
    else
      let* t := Inode.on_store (t_create 0) in
      match t with
      | None => ret (inl (- ENOMEM))
      | Some t =>
          let* b := lift (t_root_block t) in
          let h := with_root b h in
          let* _ := Inode.dio (Dio.dio_clu_zero c) in
          let* n := gets (fun s => st_count (Inode.st s)) in
          let* err := Inode.dio (Dio.dio_clu_write c (Super.nkfs_sb_fill_header e ctx (with_used n h)) 0) in
          let* err := if negb (err =? 0) then ret err else Inode.dio (Dio.clu_sync c) in
          if negb (err =? 0) then do* Inode.deref_tree (Some t) in ret (inl err)
          else ret (inr (h, t))
      end.

(** [dsize] is [i_size_read(dev->bdev->bd_inode)], [rnd] what the random source
    gives for the id. *)
Definition nkfs_sb_format (dsize : Z) (rnd : Z * list byte) : M (Z + Super.nkfs_sb * T) :=
  let* clu := Inode.dio (Dio.dio_clu_get 0) in
  match clu with
  | None => ret (inl (- EIO))
  | Some c =>
      let* f := Inode.mfails in
      let* bs := gets Inode.bsize in
      let* r := lift (Super.nkfs_sb_create e ctx f rnd dsize bs None) in
      let* res := match r with
                  | inl err => ret (inl err)
                  | inr h => format_image c h
                  end in
      do* Inode.dio (Dio.dio_clu_put c) in
      ret res
  end.

Definition load_image (dsize : Z) (h : Super.nkfs_sb) : M (Z + Super.nkfs_sb * T) :=
  do* attach h in
  if dsize <? Super.size h then ret (inl (- EINVAL))
  else if Super.nr_blocks h <=? Super.inodes_tree_block h then ret (inl (- EINVAL))
  else
    let* t := Inode.on_store (t_create (Super.inodes_tree_block h)) in
    match t with
    | None => ret (inl (- EINVAL))
    | Some t => ret (inr (h, t))
    end.

Definition nkfs_sb_load (dsize : Z) : M (Z + Super.nkfs_sb * T) :=
  let* clu := Inode.dio (Dio.dio_clu_get 0) in
  match clu with
  | None => ret (inl (- EIO))
  | Some c =>
      let* r := Inode.dio (Dio.dio_clu_read c 80 0) in
      let* res := match r with
                  | inl err => ret (inl err)
                  | inr header =>
                      let* f := Inode.mfails in
                      let* bs := gets Inode.bsize in
                      let* r := lift (Super.nkfs_sb_create e ctx f (0, []) dsize bs (Some header)) in
                      match r with
                      | inl err => ret (inl err)
                      | inr h => load_image dsize h
                      end
                  end in
      do* Inode.dio (Dio.dio_clu_put c) in
      ret res
  end.

End Format.

End SbFormat.

(** * A formatted device opens

    [image h m s]: on the device of [s] lies an image with header [h] whose tree of
    inodes holds [m].  [nkfs_sb_format] makes an empty one; [nkfs_sb_load] of an
    image gives its header and its tree. *)

Import XXHash Bytes StMonad Csum ObjId DioClient InodeSpec SbFormat.
Import SbFormat.

Module SbFormatSpec.

Section Spec.
Context {T St : Type} `{ImageStore T St}.
Context (e : XXH_endianess) (ctx : csum_ctx) (ctx_ok : length (mem64 ctx) = 32%nat).
Context (X : Z).

Local Abbreviation sb_state := (Inode.sb_state T St).

(** ** Marking *)

Lemma spec_mark_blocks n : forall i (s : sb_state) (Q : Z -> sb_state -> Prop), st_sound (Inode.st s) -> 0 <= i ->
  i + Z.of_nat n <= st_size (Inode.st s) -> (forall x, x ∈ st_used (Inode.st s) <-> 0 <= x < i) -> st_calm (Inode.st s) ->
  (forall x, st_sound x -> st_size x = st_size (Inode.st s) -> (forall h, st_fits h (Inode.st s) -> st_fits h x) -> st_calm x ->
     (forall y, y ∈ st_used x <-> 0 <= y < i + Z.of_nat n) -> Q 0 (Inode.with_store x s)) ->
  StMonad.spec (mark_blocks n i) s Q.
Proof.
  induction n as [|n IH]; intros i s Q Hs Hi Hn Hu Hc HQ; cbn [mark_blocks].
  - apply spec_ret. replace s with (Inode.with_store (Inode.st s) s) by (by destruct s). apply HQ; try done. intros y. rewrite Hu. lia.
  - destruct (st_mark_ok i (Inode.st s) Hs ltac:(lia)) as (err & x & E & Hs' & Hf & Hz & Hu' & Hcalm); [rewrite Hu; lia|].
    destruct (Hcalm Hc) as [-> Hc']. specialize (Hu' eq_refl). apply spec_bind. eapply spec_on_store; [exact E|]. cbn [Z.eqb negb].
    apply IH; cbn [Inode.with_store Inode.st]; [done|lia|lia| |done|].
    + intros y. rewrite Hu', elem_of_union, elem_of_singleton, Hu. lia.
    + intros x' H1' H2' H3' H4' H5'. apply HQ; [done|by rewrite H2'|by intros h Hh; apply H3', Hf|done|]. intros y. rewrite H5'. lia.
Qed.

(** ** Images *)

(** A superblock at work. *)
Record live (h : Super.nkfs_sb) (m : gmap Z Z) (s : sb_state) (a : Z -> list byte) : Prop := {
  lv_st : st_ok (Inode.st s);
  lv_fits : st_fits h (Inode.st s);
  lv_size : st_size (Inode.st s) = Super.nr_blocks h;
  lv_tree : exists t, t_rep t (Inode.st s) (Super.inodes_tree_block h) m;
  lv_wf : Super.sb_wf (with_used (st_count (Inode.st s)) h);
  lv_nr : Super.nr_blocks h = Super.size h / Super.bsize h;
  lv_check : Super.nkfs_sb_check h = Ret 0;
  lv_cache : cache X (Inode.ddev s) [] a
}.

(** Its header is on the device. *)
Definition image (h : Super.nkfs_sb) (m : gmap Z Z) (s : sb_state) (a : Z -> list byte) : Prop :=
  live h m s a /\ field 0 80 (a 0) = Super.nkfs_sb_fill_header e ctx (with_used (st_count (Inode.st s)) h).

Lemma check_ext h h' : Super.magic h' = Super.magic h -> Super.version h' = Super.version h -> Super.size h' = Super.size h ->
  Super.bsize h' = Super.bsize h -> Super.bm_block h' = Super.bm_block h -> Super.bm_blocks h' = Super.bm_blocks h ->
  Super.nkfs_sb_check h' = Super.nkfs_sb_check h.
Proof. unfold Super.nkfs_sb_check. by intros -> -> -> -> -> ->. Qed.

Lemma check_bsize h : Super.nkfs_sb_check h = Ret 0 -> 0 <= Super.bsize h -> 0 < Super.bsize h.
Proof.
  unfold Super.nkfs_sb_check. intros E Hb. destruct (Z.eqb_spec (Super.bsize h) 0) as [Ez|]; [|lia].
  rewrite orb_true_r in E. by repeat case_match.
Qed.

Lemma spec_load h m s a dsize : image h m s a -> Super.size h <= dsize -> (size m <= t_safe)%nat ->
  (forall t, Inode.mfail s t = false) ->
  StMonad.spec (nkfs_sb_load e ctx dsize) s (fun r s' => exists t, r = inr (with_used (st_count (Inode.st s)) h, t) /\
    t_rep t (Inode.st s') (Super.inodes_tree_block h) m /\ st_ok (Inode.st s') /\ st_used (Inode.st s') = st_used (Inode.st s) /\
    st_count (Inode.st s') = st_count (Inode.st s) /\ cache X (Inode.ddev s') [] a /\ Inode.bsize s' = Super.bsize h).
Proof.
  intros I Hd Hg Hm. destruct I as [[I1 I2 I3 [t0 I4] I5 I6 I7 I8] I9]. set (n := st_count (Inode.st s)) in *. set (h' := with_used n h) in *.
  destruct (DioInv.ok_size _ _ _ _ (ca_ok _ _ _ _ I8)) as [_ Hs]. unfold nkfs_sb_load.
  apply spec_bind, spec_dio. eapply cache_get; [exact I8|unfold DioInv.idx_ok; lia|]. intros c d1 C1 E1.
  apply spec_bind, spec_dio. eapply (cache_read X d1); [exact C1|by left|lia|lia|rewrite (DioInv.env_size _ _ E1); lia|].
  change (Z.to_nat 0) with 0%nat. change (Z.to_nat 80) with 80%nat. rewrite I9. apply spec_bind, spec_bind.
  unfold StMonad.spec at 1, Inode.mfails. cbn [Inode.with_ddev Inode.mfail Inode.mtick]. rewrite Hm. apply spec_bind, spec_gets.
  apply spec_bind. pose proof (check_bsize h I7 ltac:(destruct I5 as [_ (_ & _ & W) _ _ _ _]; cbn in W; lia)) as Hb.
  assert (Eh : Super.nkfs_sb_create e ctx false (0, []) dsize (Inode.bsize s) (Some (Super.nkfs_sb_fill_header e ctx h')) = Ret (inr h')).
  { unfold Super.nkfs_sb_create. destruct (Super.parse_fill_header e ctx ctx h' Super.sb_zero ctx_ok ctx_ok I5) as [-> _]. cbn [obind Z.eqb negb].
    rewrite (check_ext h) by done. rewrite I7. cbn [obind Z.eqb negb]. destruct I5 as [_ (_ & _ & W) _ _ _ _]. cbn in W.
    rewrite Super.nkfs_div_ok by (cbn; lia). cbn [obind]. unfold h', with_used. cbn [Super.size Super.bsize Super.id Super.magic Super.version Super.bm_block Super.bm_blocks Super.inodes_tree_block Super.used_blocks Super.nr_blocks]. by rewrite <- I6. }
  eapply spec_lift; [exact Eh|]. unfold load_image, attach. apply spec_bind, spec_modify.
  rewrite (proj2 (Z.ltb_ge _ _)) by (cbn; lia). destruct (t_rep_used _ _ _ _ I4) as (_ & Hr & _).
  rewrite (proj2 (Z.leb_gt _ _)) by (cbn; lia). apply spec_bind.
  destruct (st_attach_again h' (Inode.st s) I1 ltac:(by eapply st_fits_ext) ltac:(done)) as (A1 & A2 & A3 & A4 & A5).
  destruct (t_open_ok t0 _ _ m A1 (A4 _ _ _ I4) ltac:(by rewrite A5; eapply t_good_ok)) as (t' & Et & R'). eapply spec_on_store; [exact Et|].
  apply spec_ret, spec_bind, spec_dio. eapply (cache_put X d1); [exact C1|]. intros d2 C2 E2. apply spec_ret. exists t'. by split_and!.
Qed.


(** ** Making one *)

(** The bitmap area can hold the bitmap of a device of that size, whatever its bits. *)
Definition blank (s : sb_state) (dsize : Z) : Prop := forall h, let bs := Inode.bsize s in
  Super.bsize h = bs -> Super.nr_blocks h = dsize / bs -> Super.bm_block h = 1 ->
  8 * bs * (Super.bm_blocks h - 1) < dsize / bs <= 8 * bs * Super.bm_blocks h -> st_raw (st_attach h (Inode.st s)).

Lemma gen_id_wf rnd : length (snd rnd) = 16%nat -> id_wf (snd (nkfs_obj_id_gen rnd)).
Proof.
  intros Hl. unfold id_wf, nkfs_obj_id_gen, obj_id_of_bytes. cbn [fst snd high low].
  pose proof (LittleEndianList.le_combine_bound (take 8 (snd rnd))) as B1. pose proof (LittleEndianList.le_combine_bound (take 8 (drop 8 (snd rnd)))) as B2.
  rewrite length_take, Hl in B1. rewrite length_take, length_drop, Hl in B2. done.
Qed.

Lemma reserved_size (u : gset Z) n : 0 <= n -> (forall x, x ∈ u <-> 0 <= x < n) -> Z.of_nat (size u) = n.
Proof.
  intros Hn Hu. assert (E : u = list_to_set (seqZ 0 n)).
  { apply set_eq. intros x. rewrite Hu, elem_of_list_to_set, elem_of_seqZ. lia. }
  rewrite E, size_list_to_set, length_seqZ by apply NoDup_seqZ. lia.
Qed.

Record laid_out (h : Super.nkfs_sb) (dsize : Z) : Prop := {
  lo_id : id_wf (Super.id h);
  lo_magic : Super.magic h = Super.NKFS_IMAGE_MAGIC;
  lo_version : Super.version h = Super.NKFS_IMAGE_VER_1;
  lo_bs : 0 < Super.bsize h < 2 ^ 32;
  lo_size : Super.size h = dsize /\ 0 <= dsize < 2 ^ 63;
  lo_bm : Super.bm_block h = 1 /\ 0 <= Super.bm_blocks h;
  lo_room : 1 + Super.bm_blocks h < Super.nr_blocks h;
  lo_nr : Super.nr_blocks h = dsize / Super.bsize h;
  lo_check : Super.nkfs_sb_check h = Ret 0
}.

Lemma laid_out_nr h dsize : laid_out h dsize -> Super.nr_blocks h < 2 ^ 63.
Proof. intros []. rewrite lo_nr0. apply Z.div_lt_upper_bound; nia. Qed.

(** The image, when its header has been written. *)
Lemma formatted h dsize t b (s : sb_state) a : laid_out h dsize -> st_ok (Inode.st s) -> st_fits h (Inode.st s) ->
  st_size (Inode.st s) = Super.nr_blocks h -> t_rep t (Inode.st s) b ∅ -> cache X (Inode.ddev s) [] a ->
  field 0 80 (a 0) = Super.nkfs_sb_fill_header e ctx (with_used (st_count (Inode.st s)) (with_root b h)) ->
  image (with_root b h) ∅ s a.
Proof.
  intros L S F Z R C Hh. pose proof (laid_out_nr _ _ L). destruct (t_rep_used _ _ _ _ R) as (_ & Hr & _). destruct (st_count_ok _ S). destruct L.
  split; [|done]. split; try done; [by eapply st_fits_ext|by exists t| |cbn; by rewrite (proj1 lo_size0)].
  split; cbn; [done|rewrite lo_magic0, lo_version0; split_and!; (done || lia)|lia|lia|lia|lia].
Qed.

Lemma spec_format_image c h dsize (s : sb_state) a (Q : Z + Super.nkfs_sb * T -> sb_state -> Prop) : laid_out h dsize ->
  cache X (Inode.ddev s) [(c, 0)] a -> st_raw (st_attach h (Inode.st s)) -> st_calm (Inode.st s) ->
  (forall b t s' a', cache X (Inode.ddev s') [(c, 0)] a' -> (forall j, j <> 0 -> a' j = a j) -> st_ok (Inode.st s') ->
     st_fits h (Inode.st s') -> st_size (Inode.st s') = Super.nr_blocks h -> t_rep t (Inode.st s') b ∅ -> Inode.bsize s' = Super.bsize h ->
     field 0 80 (a' 0) = Super.nkfs_sb_fill_header e ctx (with_used (st_count (Inode.st s')) (with_root b h)) ->
     (forall x, 0 <= x < 1 + Super.bm_blocks h -> x ∈ st_used (Inode.st s')) -> Q (inr (with_root b h, t)) s') ->
  StMonad.spec (format_image e ctx c h) s Q.
Proof.
  intros L C Hraw Hcalm HQ. pose proof (laid_out_nr _ _ L) as Hnr. pose proof L as [_ _ _ _ _ [Ebm Hbm] Hroom _ _].
  destruct (st_attach_fits h (Inode.st s)) as (F1 & Z1 & K1). specialize (K1 Hcalm).
  destruct (st_clear_ok _ Hraw) as (err & x2 & E2 & F2 & Z2 & S2 & K2). destruct (K2 K1) as [-> K2']. destruct (S2 eq_refl) as [S2' U2]. specialize (F2 h F1).
  unfold format_image, attach. apply spec_bind, spec_modify. apply spec_bind. eapply spec_on_store; [cbn; by rewrite E2|]. cbn [Z.eqb negb].
  apply spec_bind. rewrite Ebm, wrap_small by lia. apply spec_mark_blocks; cbn [Inode.with_store Inode.st]; [done|lia|lia| |done|].
  { intros y. rewrite U2. split; [by intros ?%elem_of_empty|lia]. }
  intros x3 S3 Z3 F3 K3 U3. specialize (F3 h F2). cbn [Z.eqb negb]. apply spec_bind.
  assert (U3' : forall y, y ∈ st_used x3 <-> 0 <= y < 1 + Super.bm_blocks h) by (intros y; rewrite U3; lia).
  assert (O3 : st_ok x3) by (apply st_ok_sound; split; [done|]; apply U3'; lia).
  assert (R3 : st_room x3 1) by (apply st_calm_room; [done|]; rewrite (reserved_size _ (1 + Super.bm_blocks h)) by (done || lia); lia).
  destruct (t_create_ok x3 O3) as (r & x4 & E4 & O4 & Z4 & U4 & _ & T4 & N4). destruct (N4 0%nat R3) as [[t ->] _]. destruct T4 as (b & _ & R4 & Eb).
  pose proof (t_create_fits h x3 _ x4 O3 E4 F3) as F4. eapply spec_on_store; [exact E4|]. apply spec_bind. eapply spec_lift; [exact Eb|].
  apply spec_bind, spec_dio. eapply (cache_zero X (Inode.ddev s)); [exact C|by left|]. intros a1 d1 C1 A1 V1. apply spec_bind, spec_gets.
  destruct (DioInv.ok_size _ _ _ _ (ca_ok _ _ _ _ C1)) as [_ Hs]. pose proof (cache_len X d1 _ _ 0 C1 ltac:(unfold DioInv.idx_ok; lia)) as L1.
  apply spec_bind, spec_dio. eapply (cache_write X d1); [exact C1|by left|lia|rewrite Super.fill_header_length; lia|]. intros d2 C2 V2. cbn [Z.eqb negb].
  apply spec_bind, spec_dio. eapply (cache_sync X d2); [exact C2|by left|]. intros d3 C3 V3. cbn [Z.eqb negb]. apply spec_ret.
  eapply (HQ b t); cbn [Inode.with_ddev Inode.with_store Inode.st Inode.ddev]; [exact C3| |done|done|lia|done|done| |].
  - intros j Hj. unfold put_bytes. rewrite (proj2 (Z.eqb_neq j 0)) by done. by apply A1.
  - unfold put_bytes. rewrite Z.eqb_refl. change (Z.to_nat 0) with 0%nat.
    rewrite <- (Super.fill_header_length e ctx (with_used (st_count x4) (with_root b h))) at 1. apply field_memcpy. rewrite Super.fill_header_length. lia.
  - intros x Hx. apply U4. by apply U3'.
Qed.

Lemma spec_format s a dsize rnd : cache X (Inode.ddev s) [] a -> Inode.bsize s = Dio.clu_size (Inode.ddev s) ->
  st_calm (Inode.st s) -> (forall t, Inode.mfail s t = false) -> 0 <= dsize < 2 ^ 63 -> fst rnd = 0 -> length (snd rnd) = 16%nat -> blank s dsize ->
  StMonad.spec (nkfs_sb_format e ctx dsize rnd) s (fun r s' =>
    match r with
    | inl err => err = - EINVAL /\ (dsize mod Inode.bsize s <> 0 \/
        forall bm, dsize / Inode.bsize s <= 8 * Inode.bsize s * bm -> dsize / Inode.bsize s <= 1 + bm)
    | inr (h, t) => exists a', image h ∅ s' a' /\ (forall j, j <> 0 -> a' j = a j) /\ t_rep t (Inode.st s') (Super.inodes_tree_block h) ∅ /\
        Super.size h = dsize /\ Super.bsize h = Inode.bsize s /\ Inode.bsize s' = Inode.bsize s /\
        (forall x, 0 <= x < 1 + Super.bm_blocks h -> x ∈ st_used (Inode.st s'))
    end).
Proof.
  intros C Hbs Hc Hm Hd Hr Hl Hb. destruct (DioInv.ok_size _ _ _ _ (ca_ok _ _ _ _ C)) as [_ Hs]. unfold nkfs_sb_format.
  apply spec_bind, spec_dio. eapply cache_get; [exact C|unfold DioInv.idx_ok; lia|]. intros c d1 C1 E1.
  apply spec_bind. unfold StMonad.spec at 1, Inode.mfails. cbn [Inode.with_ddev Inode.mfail Inode.mtick]. rewrite Hm. apply spec_bind, spec_gets, spec_bind.
  cbn [Inode.with_mtick Inode.with_ddev Inode.bsize].
  destruct (Super.gen_header_cases rnd Super.sb_zero dsize (Inode.bsize s)) as [(bm & Eg & Ec & Hmod & Hbm & Hroom)|(Eg & Hno)]; [lia|done|done| |].
  - set (h := Super.Sb (snd (nkfs_obj_id_gen rnd)) (dsize / Inode.bsize s) Super.NKFS_IMAGE_MAGIC Super.NKFS_IMAGE_VER_1 dsize 1 bm 0 0 (Inode.bsize s)).
    assert (Eh : Super.nkfs_sb_create e ctx false rnd dsize (Inode.bsize s) None = Ret (inr h)).
    { unfold Super.nkfs_sb_create. rewrite Eg. cbn [obind Z.eqb negb]. rewrite Ec. cbn [obind Z.eqb negb]. by rewrite Super.nkfs_div_ok by (cbn; lia). }
    assert (L : laid_out h dsize) by (split; cbn; try done; [by apply gen_id_wf|lia|split; [done|]; nia]).
    eapply spec_lift; [exact Eh|]. apply spec_bind. eapply (spec_format_image c h dsize); [exact L|exact C1|by apply Hb|done|].
    intros b t s2 a2 C2 A2 O2 F2 Z2 R2 B2 H2 U2. apply spec_bind, spec_dio. eapply (cache_put X); [exact C2|]. intros d3 C3 E3. apply spec_ret.
    exists a2. split_and!; try done. by eapply (formatted h dsize t b).
  - assert (Eh : Super.nkfs_sb_create e ctx false rnd dsize (Inode.bsize s) None = Ret (inl (- EINVAL))).
    { unfold Super.nkfs_sb_create. by rewrite Eg. }
    eapply spec_lift; [exact Eh|]. apply spec_bind, spec_ret, spec_bind, spec_dio. eapply (cache_put X d1); [exact C1|]. intros d2 C2 E2. by apply spec_ret.
Qed.

(** (C17) [nkfs_sb_format] on a device where nothing fails makes an image of the whole device with an empty
    tree of inodes, header and bitmap marked in use and no other block of the cache touched; it refuses,
    with [-EINVAL], exactly a device that is not whole blocks or has no room beside header and bitmap. *)
Theorem nkfs_sb_format_makes_image s a dsize rnd : cache X (Inode.ddev s) [] a -> Inode.bsize s = Dio.clu_size (Inode.ddev s) ->
  st_calm (Inode.st s) -> (forall t, Inode.mfail s t = false) -> 0 <= dsize < 2 ^ 63 -> fst rnd = 0 -> length (snd rnd) = 16%nat -> blank s dsize ->
  StMonad.spec (nkfs_sb_format e ctx dsize rnd) s (fun r s' =>
    match r with
    | inl err => err = - EINVAL /\ (dsize mod Inode.bsize s <> 0 \/
        forall bm, dsize / Inode.bsize s <= 8 * Inode.bsize s * bm -> dsize / Inode.bsize s <= 1 + bm)
    | inr (h, t) => exists a', image h ∅ s' a' /\ (forall j, j <> 0 -> a' j = a j) /\ t_rep t (Inode.st s') (Super.inodes_tree_block h) ∅ /\
        Super.size h = dsize /\ Super.bsize h = Inode.bsize s /\ Inode.bsize s' = Inode.bsize s /\
        (forall x, 0 <= x < 1 + Super.bm_blocks h -> x ∈ st_used (Inode.st s'))
    end).
Proof. by apply spec_format. Qed.

(** ** Leaving one *)

(** (C18) What is in an image when its header is synced, the header, the entries of the tree of inodes, the
    blocks in use and their count, is what [nkfs_sb_load] finds; syncing touches block 0 only.  The device
    and the memory do not fail, and the tree of inodes holds at most [t_safe] objects, so that its root can
    be read back. *)
Theorem nkfs_sb_sync_then_load h m s a dsize : live h m s a -> Super.size h <= dsize ->
  (size m <= t_safe)%nat -> (forall t, Inode.mfail s t = false) ->
  StMonad.spec (bind (Inode.dio (Super.nkfs_sb_sync e ctx (with_used (st_count (Inode.st s)) h))) (fun _ => nkfs_sb_load e ctx dsize)) s
    (fun r s' => exists t a', r = inr (with_used (st_count (Inode.st s)) h, t) /\
      t_rep t (Inode.st s') (Super.inodes_tree_block h) m /\ st_ok (Inode.st s') /\ st_used (Inode.st s') = st_used (Inode.st s) /\
      st_count (Inode.st s') = st_count (Inode.st s) /\ cache X (Inode.ddev s') [] a' /\ (forall j, j <> 0 -> a' j = a j)).
Proof.
  intros [L1 L2 L3 L4 L5 L6 L7 L8] Hd Hg Hm. apply spec_bind, spec_dio. eapply Super.spec_sb_sync; [exact L8|]. intros d1 C1 E1.
  destruct (DioInv.ok_size _ _ _ _ (ca_ok _ _ _ _ L8)) as [_ Hs]. pose proof (cache_len X _ _ _ 0 L8 ltac:(unfold DioInv.idx_ok; lia)) as Ln.
  assert (I : image h m (Inode.with_ddev d1 s) (put_bytes a 0 0 (Super.nkfs_sb_fill_header e ctx (with_used (st_count (Inode.st s)) h)))).
  { split; [split; done|]. unfold put_bytes. rewrite Z.eqb_refl. change (Z.to_nat 0) with 0%nat. cbn [Inode.with_ddev Inode.st].
    rewrite <- (Super.fill_header_length e ctx (with_used (st_count (Inode.st s)) h)) at 1. apply field_memcpy. rewrite Super.fill_header_length. lia. }
  eapply spec_mono; [by eapply (spec_load h m)|]. intros r s' (t & -> & R & O & U & K & C & B). exists t. eexists. do 5 (split; [done|]). split; [exact C|].
  intros j Hj. unfold put_bytes. by rewrite (proj2 (Z.eqb_neq j 0)).
Qed.

End Spec.

End SbFormatSpec.
