(* ===== verification/Route.v ===== *)
(** * Hosts, neighbours, handshake and heartbeat (src/core/route.c)

    A host knows its neighbours by address and, once they shook hands, by the
    identity of the host behind the address.  Several neighbours can lead to one
    identity, which lives as long as one of them does.

    Neighbours and identities are objects by pointer with their counts.  The two
    red-black trees are maps from the key the comparison functions order by; the
    work queue is the list of what was queued.  Locks are taken and released
    inside the calls, which run one at a time.  What the network answers is an
    argument: [peer] below. *)

From Stdlib Require Import ZArith Lia.
From coqutil Require Import Byte.
From stdpp Require Import base list gmap.
From S2P Require Import Prelude XXHash Bytes StMonad Csum Mem CharHex ObjId NetPkt.
Import XXHash Bytes StMonad Csum CharHex ObjId NetPkt.
Local Open Scope Z_scope.
Local Open Scope stm_scope.

Module Route.

Definition NKFS_ROUTE_MAX_NEIGHS : Z := 32.
Definition NKFS_NET_PKT_MAX_NEIGHS : Z := 16.
Definition NKFS_E_LIMIT : Z := s32 (NKFS_E_BASE + 10).
Definition HOST_HANDSHAKE_TIMEOUT_MS : Z := 500.
Definition HOST_HBT_TIMEOUT_MS : Z := 10000.

(** The order of the tree of neighbours (src/core/net.c). *)
Definition nkfs_ip_port_cmp (ip1 port1 ip2 port2 : Z) : Z :=
  if ip1 =? ip2 then
    if port1 <? port2 then -1
    else if port1 >? port2 then 1
    else 0
  else if ip1 >? ip2 then 1
  else -1.

Record nkfs_neigh := MkNeigh {
  n_ref : Z;
  n_hid : option nat;
  n_host : bool;          (* in a host *)
  n_con : bool;           (* connected *)
  n_ip : Z;
  n_port : Z;
  n_inited : bool;
  n_shaked : bool;
  n_hbt_ok : bool;
  n_hbt_time : Z;
  n_hbt_delay : Z;
  n_hbt_err : Z
}.

Record nkfs_host_id := MkHid {
  h_ref : Z;
  h_host : bool;
  h_neighs : list nat;
  h_id : nkfs_obj_id
}.

Inductive nkfs_host_work := HandshakeAll | HeartbeatAll | Handshake (p : nat) | Heartbeat (p : nat).

Record nkfs_host := Host {
  net_id : nkfs_obj_id;
  host_id : nkfs_obj_id;
  neighs : gmap (Z * Z) nat;
  neighs_active : Z;
  neigh_list : list nat;
  host_ids : gmap (Z * Z) nat;
  host_ids_active : Z;
  nobjs : gmap nat nkfs_neigh;
  hobjs : gmap nat nkfs_host_id;
  wq : list nkfs_host_work;
  stopping : bool;
  last_handshake : Z;
  last_hbt : Z;
  rfail : nat -> bool;
  rtick : nat
}.

Abbreviation M := (StMonad.M nkfs_host).

(** ** Updates *)

Definition with_neighs (t : gmap (Z * Z) nat) (n : Z) (h : nkfs_host) : nkfs_host :=
  Host (net_id h) (host_id h) t n (neigh_list h) (host_ids h) (host_ids_active h) (nobjs h) (hobjs h) (wq h) (stopping h)
    (last_handshake h) (last_hbt h) (rfail h) (rtick h).
Definition with_nlist (l : list nat) (h : nkfs_host) : nkfs_host :=
  Host (net_id h) (host_id h) (neighs h) (neighs_active h) l (host_ids h) (host_ids_active h) (nobjs h) (hobjs h) (wq h) (stopping h)
    (last_handshake h) (last_hbt h) (rfail h) (rtick h).
Definition with_ids (t : gmap (Z * Z) nat) (n : Z) (h : nkfs_host) : nkfs_host :=
  Host (net_id h) (host_id h) (neighs h) (neighs_active h) (neigh_list h) t n (nobjs h) (hobjs h) (wq h) (stopping h)
    (last_handshake h) (last_hbt h) (rfail h) (rtick h).
Definition with_nobjs (o : gmap nat nkfs_neigh) (h : nkfs_host) : nkfs_host :=
  Host (net_id h) (host_id h) (neighs h) (neighs_active h) (neigh_list h) (host_ids h) (host_ids_active h) o (hobjs h) (wq h) (stopping h)
    (last_handshake h) (last_hbt h) (rfail h) (rtick h).
Definition with_hobjs (o : gmap nat nkfs_host_id) (h : nkfs_host) : nkfs_host :=
  Host (net_id h) (host_id h) (neighs h) (neighs_active h) (neigh_list h) (host_ids h) (host_ids_active h) (nobjs h) o (wq h) (stopping h)
    (last_handshake h) (last_hbt h) (rfail h) (rtick h).
Definition with_wq (q : list nkfs_host_work) (h : nkfs_host) : nkfs_host :=
  Host (net_id h) (host_id h) (neighs h) (neighs_active h) (neigh_list h) (host_ids h) (host_ids_active h) (nobjs h) (hobjs h) q (stopping h)
    (last_handshake h) (last_hbt h) (rfail h) (rtick h).
Definition with_times (a b : Z) (h : nkfs_host) : nkfs_host :=
  Host (net_id h) (host_id h) (neighs h) (neighs_active h) (neigh_list h) (host_ids h) (host_ids_active h) (nobjs h) (hobjs h) (wq h) (stopping h)
    a b (rfail h) (rtick h).
Definition with_rtick (n : nat) (h : nkfs_host) : nkfs_host :=
  Host (net_id h) (host_id h) (neighs h) (neighs_active h) (neigh_list h) (host_ids h) (host_ids_active h) (nobjs h) (hobjs h) (wq h) (stopping h)
    (last_handshake h) (last_hbt h) (rfail h) n.
Definition with_stopping (h : nkfs_host) : nkfs_host :=
  Host (net_id h) (host_id h) (neighs h) (neighs_active h) (neigh_list h) (host_ids h) (host_ids_active h) (nobjs h) (hobjs h) (wq h) true
    (last_handshake h) (last_hbt h) (rfail h) (rtick h).

Definition set_nref (r : Z) (n : nkfs_neigh) : nkfs_neigh :=
  MkNeigh r (n_hid n) (n_host n) (n_con n) (n_ip n) (n_port n) (n_inited n) (n_shaked n) (n_hbt_ok n) (n_hbt_time n) (n_hbt_delay n) (n_hbt_err n).
Definition set_nhid (p : option nat) (n : nkfs_neigh) : nkfs_neigh :=
  MkNeigh (n_ref n) p (n_host n) (n_con n) (n_ip n) (n_port n) (n_inited n) (n_shaked n) (n_hbt_ok n) (n_hbt_time n) (n_hbt_delay n) (n_hbt_err n).
Definition set_nhost (n : nkfs_neigh) : nkfs_neigh :=
  MkNeigh (n_ref n) (n_hid n) true (n_con n) (n_ip n) (n_port n) (n_inited n) (n_shaked n) (n_hbt_ok n) (n_hbt_time n) (n_hbt_delay n) (n_hbt_err n).
Definition set_ncon (c : bool) (n : nkfs_neigh) : nkfs_neigh :=
  MkNeigh (n_ref n) (n_hid n) (n_host n) c (n_ip n) (n_port n) (n_inited n) (n_shaked n) (n_hbt_ok n) (n_hbt_time n) (n_hbt_delay n) (n_hbt_err n).
Definition set_addr (ip port : Z) (n : nkfs_neigh) : nkfs_neigh :=
  MkNeigh (n_ref n) (n_hid n) (n_host n) (n_con n) ip port (n_inited n) (n_shaked n) (n_hbt_ok n) (n_hbt_time n) (n_hbt_delay n) (n_hbt_err n).
Definition set_state (i s b : bool) (n : nkfs_neigh) : nkfs_neigh :=
  MkNeigh (n_ref n) (n_hid n) (n_host n) (n_con n) (n_ip n) (n_port n) i s b (n_hbt_time n) (n_hbt_delay n) (n_hbt_err n).
Definition set_hbt (t d e : Z) (n : nkfs_neigh) : nkfs_neigh :=
  MkNeigh (n_ref n) (n_hid n) (n_host n) (n_con n) (n_ip n) (n_port n) (n_inited n) (n_shaked n) (n_hbt_ok n) t d e.

Definition set_href (r : Z) (i : nkfs_host_id) : nkfs_host_id := MkHid r (h_host i) (h_neighs i) (h_id i).
Definition set_hhost (i : nkfs_host_id) : nkfs_host_id := MkHid (h_ref i) true (h_neighs i) (h_id i).
Definition set_hneighs (l : list nat) (i : nkfs_host_id) : nkfs_host_id := MkHid (h_ref i) (h_host i) l (h_id i).

Definition get_neigh (p : nat) : M nkfs_neigh := fun h => match nobjs h !! p with Some n => Done n h | None => Crash end.
Definition upd_neigh (p : nat) (f : nkfs_neigh -> nkfs_neigh) : M unit :=
  let* n := get_neigh p in modify (fun h => with_nobjs (<[p := f n]> (nobjs h)) h).
Definition get_hid (p : nat) : M nkfs_host_id := fun h => match hobjs h !! p with Some i => Done i h | None => Crash end.
Definition upd_hid (p : nat) (f : nkfs_host_id -> nkfs_host_id) : M unit :=
  let* i := get_hid p in modify (fun h => with_hobjs (<[p := f i]> (hobjs h)) h).

Definition rfails : M bool := fun h => Done (rfail h (rtick h)) (with_rtick (S (rtick h)) h).

Definition id_pair (o : nkfs_obj_id) : Z * Z := (high o, low o).

(** ** Identities *)

Definition nkfs_hid_alloc : M (option nat) :=
  let* f := rfails in
  if (f : bool) then ret None
  else fun h => let p := fresh (dom (hobjs h)) in Done (Some p) (with_hobjs (<[p := MkHid 1 false [] (Id 0 0)]> (hobjs h)) h).

Definition nkfs_hid_free (p : nat) : M unit := modify (fun h => with_hobjs (delete p (hobjs h)) h).

Definition __nkfs_host_ids_lookup (o : nkfs_obj_id) : M (option nat) := gets (fun h => host_ids h !! id_pair o).

Definition __nkfs_host_ids_remove (p : nat) : M unit :=
  let* i := get_hid p in
  let* f := __nkfs_host_ids_lookup (h_id i) in
  match f with
  | None => ret tt
  | Some q =>
      do* BUG_ON (negb (q =? p)%nat) in
      modify (fun h => with_ids (delete (id_pair (h_id i)) (host_ids h)) (host_ids_active h - 1) h)
  end.

Definition nkfs_hid_release (p : nat) : M unit :=
  let* i := get_hid p in
  do* (if h_host i then __nkfs_host_ids_remove p else ret tt) in
  nkfs_hid_free p.

Definition nkfs_hid_ref (p : nat) : M unit :=
  let* i := get_hid p in
  do* BUG_ON (h_ref i <=? 0) in
  upd_hid p (set_href (h_ref i + 1)).

Definition nkfs_hid_deref (p : nat) : M unit :=
  let* i := get_hid p in
  do* BUG_ON (h_ref i <=? 0) in
  do* upd_hid p (set_href (h_ref i - 1)) in
  if h_ref i - 1 =? 0 then nkfs_hid_release p else ret tt.

Definition __nkfs_host_id_insert (p : nat) : M nat :=
  let* i := get_hid p in
  let* f := __nkfs_host_ids_lookup (h_id i) in
  let* q := match f with
            | Some q => ret q
            | None =>
                do* modify (fun h => with_ids (<[id_pair (h_id i) := p]> (host_ids h)) (host_ids_active h + 1) h) in
                do* upd_hid p set_hhost in
                ret p
            end in
  do* nkfs_hid_ref q in
  ret q.

(** Both branches let the reference of the allocation go. *)
Definition nkfs_host_id_lookup_or_create (o : nkfs_obj_id) : M (option nat) :=
  let* a := nkfs_hid_alloc in
  match a with
  | None => ret None
  | Some p =>
      do* upd_hid p (fun i => MkHid (h_ref i) (h_host i) (h_neighs i) o) in
      let* q := __nkfs_host_id_insert p in
      do* nkfs_hid_deref p in
      ret (Some q)
  end.

Definition nkfs_host_id_lookup (o : nkfs_obj_id) : M (option nat) :=
  let* f := __nkfs_host_ids_lookup o in
  match f with
  | Some p => do* nkfs_hid_ref p in ret (Some p)
  | None => ret None
  end.

(** ** Neighbours *)

Definition nkfs_neigh_alloc : M (option nat) :=
  let* f := rfails in
  if (f : bool) then ret None
  else fun h =>
    let p := fresh (dom (nobjs h)) in
    Done (Some p) (with_nobjs (<[p := MkNeigh 1 None false false 0 0 false false false 0 0 0]> (nobjs h)) h).

Definition nkfs_neigh_free (p : nat) : M unit := modify (fun h => with_nobjs (delete p (nobjs h)) h).

Definition nkfs_neigh_close (p : nat) : M unit := upd_neigh p (set_ncon false).

Definition nkfs_neigh_detach_hid (p : nat) : M unit :=
  let* n := get_neigh p in
  do* upd_neigh p (set_nhid None) in
  match n_hid n with
  | None => ret tt
  | Some q =>
      do* upd_hid q (fun i => set_hneighs (filter (fun x => x <> p) (h_neighs i)) i) in
      nkfs_hid_deref q
  end.

Definition nkfs_neigh_attach_host_id (p q : nat) : M unit :=
  let* n := get_neigh p in
  do* BUG_ON (bool_decide (is_Some (n_hid n))) in
  do* upd_neigh p (set_nhid (Some q)) in
  upd_hid q (fun i => set_hneighs (h_neighs i ++ [p]) i).

Definition __nkfs_neighs_lookup (ip port : Z) : M (option nat) := gets (fun h => neighs h !! (ip, port)).

Definition __nkfs_neighs_remove (p : nat) : M unit :=
  let* n := get_neigh p in
  let* f := __nkfs_neighs_lookup (n_ip n) (n_port n) in
  match f with
  | None => ret tt
  | Some q =>
      do* BUG_ON (negb (q =? p)%nat) in
      modify (fun h => with_neighs (delete (n_ip n, n_port n) (neighs h)) (neighs_active h - 1) h)
  end.

Definition nkfs_neigh_release (p : nat) : M unit :=
  do* nkfs_neigh_detach_hid p in
  let* n := get_neigh p in
  do* (if n_host n then __nkfs_neighs_remove p else ret tt) in
  do* nkfs_neigh_close p in
  nkfs_neigh_free p.

Definition nkfs_neigh_ref (p : nat) : M unit :=
  let* n := get_neigh p in
  do* BUG_ON (n_ref n <=? 0) in
  upd_neigh p (set_nref (n_ref n + 1)).

Definition nkfs_neigh_deref (p : nat) : M unit :=
  let* n := get_neigh p in
  do* BUG_ON (n_ref n <=? 0) in
  do* upd_neigh p (set_nref (n_ref n - 1)) in
  if n_ref n - 1 =? 0 then nkfs_neigh_release p else ret tt.

(** [None]: the host has as many neighbours as it may have. *)
Definition __nkfs_neighs_insert (p : nat) : M (option nat) :=
  let* n := get_neigh p in
  let* f := __nkfs_neighs_lookup (n_ip n) (n_port n) in
  match f with
  | Some q => do* nkfs_neigh_ref q in ret (Some q)
  | None =>
      let* active := gets neighs_active in
      if NKFS_ROUTE_MAX_NEIGHS <=? active then ret None
      else
        do* modify (fun h => with_neighs (<[(n_ip n, n_port n) := p]> (neighs h)) (neighs_active h + 1) h) in
        do* upd_neigh p set_nhost in
        do* nkfs_neigh_ref p in
        ret (Some p)
  end.

Definition nkfs_host_add_neigh (p : nat) : M Z :=
  let* r := __nkfs_neighs_insert p in
  match r with
  | None => ret NKFS_E_LIMIT
  | Some q =>
      let* err := if (q =? p)%nat then do* modify (fun h => with_nlist (neigh_list h ++ [p]) h) in ret 0 else ret (- EEXIST) in
      do* nkfs_neigh_deref q in
      ret err
  end.

(** The loop at the end of [nkfs_host_remove_neigh] and of [nkfs_host_release]. *)
Fixpoint drop_neighs (l : list nat) : M Z :=
  match l with
  | [] => ret 0
  | p :: l =>
      do* modify (fun h => with_nlist (filter (fun x => x <> p) (neigh_list h)) h) in
      do* nkfs_neigh_deref p in
      let* found := drop_neighs l in
      ret (found + 1)
  end.

(** Those of the list with the address, and the others. *)
Fixpoint split_neighs (ip port : Z) (l : list nat) : M (list nat * list nat) :=
  match l with
  | [] => ret ([], [])
  | p :: l =>
      let* n := get_neigh p in
      let* r := split_neighs ip port l in
      ret (if (n_ip n =? ip) && (n_port n =? port) then (p :: fst r, snd r) else (fst r, p :: snd r))
  end.

(** The second loop walks the host's list, as written: the list without the
    neighbours that were asked for. *)
Definition nkfs_host_remove_neigh (ip port : Z) : M Z :=
  let* l := gets neigh_list in
  let* r := split_neighs ip port l in
  do* modify (with_nlist (snd r)) in
  let* l := gets neigh_list in
  let* found := drop_neighs l in
  ret (if negb (found =? 0) then 0 else - ENOENT).

Definition nkfs_route_neigh_add (ip port : Z) : M Z :=
  if (ip =? 0) || (port =? 0) then ret (- EINVAL)
  else
    let* a := nkfs_neigh_alloc in
    match a with
    | None => ret (- ENOMEM)
    | Some p =>
        do* upd_neigh p (fun n => set_state true (n_shaked n) (n_hbt_ok n) (set_addr ip port n)) in
        let* err := nkfs_host_add_neigh p in
        do* (if negb (err =? 0) then nkfs_neigh_deref p else ret tt) in
        ret err
    end.

Definition nkfs_route_neigh_remove (ip port : Z) : M Z :=
  if (ip =? 0) || (port =? 0) then ret (- EINVAL) else nkfs_host_remove_neigh ip port.

(** ** The side that is asked *)

(** The error, and the identity for the reply. *)
Definition nkfs_neigh_handshake (src_net_id src_host_id : nkfs_obj_id) (src_ip src_port : Z) : M (Z + nkfs_obj_id) :=
  let* net := gets net_id in
  if negb (nkfs_obj_id_cmp src_net_id net =? 0) then ret (inl (- EINVAL))
  else if (src_ip =? 0) || (src_port =? 0) then ret (inl (- EINVAL))
  else
    let* a := nkfs_neigh_alloc in
    match a with
    | None => ret (inl (- ENOMEM))
    | Some p =>
        do* upd_neigh p (set_addr src_ip src_port) in
        let* i := nkfs_host_id_lookup_or_create src_host_id in
        match i with
        | None => do* nkfs_neigh_deref p in ret (inl (- ENOMEM))
        | Some q =>
            do* nkfs_neigh_attach_host_id p q in
            do* upd_neigh p (fun n => set_state true true (n_hbt_ok n) n) in
            let* err := nkfs_host_add_neigh p in
            if negb (err =? 0) then do* nkfs_neigh_deref p in ret (inl err)
            else let* me := gets host_id in ret (inr me)
        end
    end.

(** The neighbours for the reply, at most [max]; a neighbour without an identity
    is a null pointer. *)
Fixpoint heartbeat_neighs (src_host_id me : nkfs_obj_id) (max : Z) (l : list nat) (got : list (Z * Z)) : M (list (Z * Z)) :=
  match l with
  | [] => ret got
  | p :: l =>
      if max <=? Z.of_nat (length got) then ret got
      else
        let* n := get_neigh p in
        match n_hid n with
        | None => crash
        | Some q =>
            let* i := get_hid q in
            let take := negb (nkfs_obj_id_cmp (h_id i) me =? 0) && negb (nkfs_obj_id_cmp (h_id i) src_host_id =? 0) && n_hbt_ok n in
            heartbeat_neighs src_host_id me max l (if take then got ++ [(n_ip n, n_port n)] else got)
        end
  end.

Definition nkfs_neigh_heartbeat (src_net_id src_host_id dst_host_id : nkfs_obj_id) (max : Z) : M (Z + nkfs_obj_id * list (Z * Z)) :=
  let* net := gets net_id in
  let* me := gets host_id in
  if negb (nkfs_obj_id_cmp src_net_id net =? 0) then ret (inl (- EINVAL))
  else if negb (nkfs_obj_id_cmp dst_host_id me =? 0) then ret (inl (- EINVAL))
  else
    let* i := nkfs_host_id_lookup src_host_id in
    match i with
    | None => ret (inl (- EINVAL))
    | Some q =>
        let* l := gets neigh_list in
        let* got := heartbeat_neighs src_host_id me max l [] in
        do* BUG_ON (max <? Z.of_nat (length got)) in
        do* nkfs_hid_deref q in
        ret (inr (me, got))
    end.

Record nkfs_neigh_info := NeighInfo {
  i_ip : Z;
  i_port : Z;
  i_state : Z;
  i_host_id : nkfs_obj_id;
  i_hbt_time : Z;
  i_hbt_delay : Z
}.

Definition state_bits (n : nkfs_neigh) : Z :=
  (if n_inited n then 1 else 0) + (if n_shaked n then 2 else 0) + (if n_hbt_ok n then 4 else 0).

Fixpoint neigh_infos (max : Z) (l : list nat) (got : list nkfs_neigh_info) : M (Z + list nkfs_neigh_info) :=
  match l with
  | [] => ret (inr got)
  | p :: l =>
      if max <=? Z.of_nat (length got) then ret (inl (- ERANGE))
      else
        let* n := get_neigh p in
        let* o := match n_hid n with Some q => let* i := get_hid q in ret (h_id i) | None => ret (Id 0 0) end in
        neigh_infos max l (got ++ [NeighInfo (n_ip n) (n_port n) (state_bits n) o (n_hbt_time n) (n_hbt_delay n)])
  end.

Definition nkfs_route_neigh_info (max : Z) : M (Z + list nkfs_neigh_info) :=
  let* l := gets neigh_list in neigh_infos max l [].

(** ** The side that asks *)

(** What the network does in one exchange: a server of this host to name, the
    results of connecting, sending and receiving. *)
Record peer := Peer {
  server_select_one : Z + Z * Z;
  con_connect : Z;
  con_send : nkfs_net_pkt -> Z;
  con_recv : Z + nkfs_net_pkt
}.

Section Endian.
Context (e : XXH_endianess).

Definition id_bytes (o : nkfs_obj_id) : list byte := store e 8 (high o) ++ store e 8 (low o).
Definition id_at (off : nat) (u : list byte) : nkfs_obj_id := Id (load e (field off 8 u)) (load e (field (off + 8) 8 u)).
Definition u32_at (off : nat) (u : list byte) : Z := load e (field off 4 u).
Definition int_at (off : nat) (u : list byte) : Z := s32 (load e (field off 4 u)).

Definition NKFS_NET_PKT_NEIGH_HANDSHAKE : Z := 7.
Definition NKFS_NET_PKT_NEIGH_HEARTBEAT : Z := 8.

(** The union, zero after its fields. *)
Definition pkt_union (fs : list (list byte)) : list byte := memcpy_at (replicate 324 Init.Byte.x00) 0 (concat fs).
Definition pkt_of (ty : Z) (un : list byte) : nkfs_net_pkt := Pkt 0 ty 0 0 un 0 0 0.

Definition handshake_req (net me : nkfs_obj_id) (ip port : Z) : nkfs_net_pkt :=
  pkt_of NKFS_NET_PKT_NEIGH_HANDSHAKE (pkt_union [id_bytes net; id_bytes me; store e 4 ip; store e 4 (u32 port)]).

(** One exchange on a connection: the request is signed when it is sent, the
    reply may carry an error of its own. *)
Definition exchange (pr : peer) (req : nkfs_net_pkt) : Z + nkfs_net_pkt :=
  let es := con_send pr req in
  if negb (es =? 0) then inl es
  else match con_recv pr with
       | inl er => inl er
       | inr reply => if negb (err reply =? 0) then inl (err reply) else inr reply
       end.

(** The connection is made, two packets are allocated (no memory for one: the
    error stays 0), the request is filled in and the exchange is done. *)
Definition with_con (p : nat) (pr : peer) (mk : M nkfs_net_pkt) (k : Z + nkfs_net_pkt -> M Z) : M Z :=
  let* n := get_neigh p in
  do* BUG_ON (n_con n) in
  if negb (con_connect pr =? 0) then ret (con_connect pr)
  else
    do* upd_neigh p (set_ncon true) in
    let* f1 := rfails in
    let* err :=
      if (f1 : bool) then ret 0
      else
        let* f2 := rfails in
        if (f2 : bool) then ret 0 else let* req := mk in k (exchange pr req) in
    do* nkfs_neigh_close p in
    ret err.

Definition nkfs_neigh_do_handshake (p : nat) (pr : peer) : M Z :=
  let* n := get_neigh p in
  if negb (n_inited n) then ret (- EINVAL)
  else if n_shaked n then ret 0
  else match server_select_one pr with
  | inl err => ret err
  | inr (ip, port) =>
      if (ip =? 0) || (port =? 0) then ret (- EINVAL)
      else
        let* net := gets net_id in
        let* me := gets host_id in
        with_con p pr (ret (handshake_req net me ip port)) (fun r =>
          match r with
          | inl err => ret err
          | inr reply =>
              let* i := nkfs_host_id_lookup_or_create (id_at 40 (u reply)) in
              match i with
              | None => ret (- ENOMEM)
              | Some q =>
                  do* nkfs_neigh_attach_host_id p q in
                  do* upd_neigh p (fun n => set_state (n_inited n) true (n_hbt_ok n) n) in
                  ret 0
              end
          end)
  end.

Definition heartbeat_req (net me dst : nkfs_obj_id) : nkfs_net_pkt :=
  pkt_of NKFS_NET_PKT_NEIGH_HEARTBEAT (pkt_union [id_bytes net; id_bytes me; id_bytes dst]).

(** [nr_neighs] is what the peer sent; the array has 16 places. *)
Fixpoint add_neighs (n : nat) (i : Z) (un : list byte) : M unit :=
  match n with
  | O => ret tt
  | S n =>
      if NKFS_NET_PKT_MAX_NEIGHS <=? i then crash
      else
        let off := (64 + 8 * Z.to_nat i)%nat in
        let* _ := nkfs_route_neigh_add (u32_at off un) (int_at (off + 4) un) in
        add_neighs n (i + 1) un
  end.

Definition nkfs_neigh_do_heartbeat (p : nat) (now : Z * Z) (pr : peer) : M Z :=
  let* n := get_neigh p in
  let* err :=
    if negb (n_inited n) || negb (n_shaked n) then ret 0
    else
      do* upd_neigh p (fun n => set_hbt (fst now) (n_hbt_delay n) (n_hbt_err n) n) in
      let* net := gets net_id in
      let* me := gets host_id in
      let req := match n_hid n with Some q => let* i := get_hid q in ret (heartbeat_req net me (h_id i)) | None => crash end in
      with_con p pr req (fun r =>
        match r with
        | inl err => ret err
        | inr reply =>
            do* add_neighs (Z.to_nat (int_at 192 (u reply))) 0 (u reply) in
            do* upd_neigh p (fun n => set_hbt (n_hbt_time n) (u64 (snd now - n_hbt_time n)) (n_hbt_err n) (set_state (n_inited n) (n_shaked n) true n)) in
            ret 0
        end) in
  do* (if negb (err =? 0) then upd_neigh p (fun n => set_hbt (n_hbt_time n) (n_hbt_delay n) err (set_state (n_inited n) (n_shaked n) false n)) else ret tt) in
  ret err.

(** ** The work queue and the timer *)

Definition nkfs_host_queue_work (w : nkfs_host_work) : M Z :=
  let* f := rfails in
  if (f : bool) then ret (- ENOMEM) else do* modify (fun h => with_wq (wq h ++ [w]) h) in ret 0.

Fixpoint queue_all (l : list nat) (want : nkfs_neigh -> bool) (mk : nat -> nkfs_host_work) : M unit :=
  match l with
  | [] => ret tt
  | p :: l =>
      let* n := get_neigh p in
      do* (if want n then let* _ := nkfs_host_queue_work (mk p) in ret tt else ret tt) in
      queue_all l want mk
  end.

Definition nkfs_host_handshake_work : M unit :=
  let* l := gets neigh_list in queue_all l (fun n => n_inited n && negb (n_shaked n)) Handshake.

Definition nkfs_host_heartbeat_work : M unit :=
  let* l := gets neigh_list in queue_all l (fun n => n_inited n && n_shaked n) Heartbeat.

(** The next work of the queue; the pointer in it is used as it is. *)
Definition nkfs_host_work_func (now : Z * Z) (pr : peer) : M unit :=
  let* q := gets wq in
  match q with
  | [] => ret tt
  | w :: q =>
      do* modify (with_wq q) in
      match w with
      | HandshakeAll => nkfs_host_handshake_work
      | HeartbeatAll => nkfs_host_heartbeat_work
      | Handshake p => let* _ := nkfs_neigh_do_handshake p pr in ret tt
      | Heartbeat p => let* _ := nkfs_neigh_do_heartbeat p now pr in ret tt
      end
  end.

Definition time_after64 (a b : Z) : bool := 2 ^ 63 <=? u64 (b - a).

(** [msecs_to_jiffies] depends on the kernel's configuration; [now] is the time
    of the call, read once.  Arming the timer again is left to the caller. *)
Definition nkfs_host_timer_callback (msecs_to_jiffies : Z -> Z) (now : Z) : M unit :=
  let* a := gets last_handshake in
  let* b := gets last_hbt in
  do* (if time_after64 now (u64 (a + msecs_to_jiffies HOST_HANDSHAKE_TIMEOUT_MS)) then
         let* _ := nkfs_host_queue_work HandshakeAll in modify (with_times now b)
       else ret tt) in
  let* a := gets last_handshake in
  if time_after64 now (u64 (b + msecs_to_jiffies HOST_HBT_TIMEOUT_MS)) then
    let* _ := nkfs_host_queue_work HeartbeatAll in modify (with_times a now)
  else ret tt.

End Endian.

(** ** The host *)

(** [wqfail]: no work queue; arming a timer that is not pending returns 0.  The result of the random source is not looked at. *)
Definition nkfs_host_create (mfail wqfail : bool) (rnd : Z * list byte) (rf : nat -> bool) : option nkfs_host :=
  if mfail then None
  else if wqfail then None
  else Some (Host (Id 0 0) (snd (nkfs_obj_id_gen rnd)) ∅ 0 [] ∅ 0 ∅ ∅ [] false 0 0 rf 0).

Definition nkfs_host_release : M unit :=
  do* modify (fun h => with_wq [] (with_stopping h)) in
  let* l := gets neigh_list in
  do* modify (with_nlist []) in
  let* _ := drop_neighs l in
  let* n := gets neighs_active in
  do* BUG_ON (negb (n =? 0)) in
  let* i := gets host_ids_active in
  BUG_ON (negb (i =? 0)).

End Route.
