(* ===== verification/RouteSpec.v ===== *)
(** * The books of a host

    What holds of the neighbours and identities of a host between calls, what
    each call does to them, and that no call of a host meets a dangling pointer
    or an assertion. *)

From Stdlib Require Import ZArith Lia.
From coqutil Require Import Byte.
From stdpp Require Import base list gmap.
From S2P Require Import Prelude XXHash Bytes StMonad Csum Mem CharHex ObjId NetPkt Route.
Import XXHash Bytes StMonad Csum ObjId NetPkt Route.
Local Open Scope Z_scope.
Local Open Scope stm_scope.

Module RouteSpec.

Definition addr (n : nkfs_neigh) : Z * Z := (n_ip n, n_port n).

(** ** The invariant *)

(** [l]: the neighbours the host holds, each by one reference. *)
Record routes (l : list nat) (h : nkfs_host) : Prop := {
  r_nodup : NoDup l;
  r_mem : forall p, p ∈ l <-> is_Some (nobjs h !! p);
  r_neigh : forall p n, nobjs h !! p = Some n ->
    n_ref n = 1 /\ n_host n = true /\ n_inited n = true /\ n_shaked n = bool_decide (is_Some (n_hid n));
  r_tree : forall k p, neighs h !! k = Some p <-> exists n, nobjs h !! p = Some n /\ addr n = k;
  r_active : neighs_active h = Z.of_nat (size (nobjs h));
  r_max : neighs_active h <= NKFS_ROUTE_MAX_NEIGHS;
  r_hid : forall p q, (exists n, nobjs h !! p = Some n /\ n_hid n = Some q) <-> (exists i, hobjs h !! q = Some i /\ p ∈ h_neighs i);
  r_hobj : forall q i, hobjs h !! q = Some i ->
    h_ref i = Z.of_nat (length (h_neighs i)) /\ h_neighs i <> [] /\ NoDup (h_neighs i) /\ h_host i = true;
  r_ids : forall k q, host_ids h !! k = Some q <-> exists i, hobjs h !! q = Some i /\ id_pair (h_id i) = k;
  r_ids_active : host_ids_active h = Z.of_nat (size (hobjs h))
}.

(** [c]: the neighbour the host talks to. *)
Definition calls (c : option nat) (h : nkfs_host) : Prop :=
  forall p n, nobjs h !! p = Some n -> n_con n = bool_decide (c = Some p).

(** The neighbour a work of the queue points to. *)
Definition target (w : nkfs_host_work) : option nat :=
  match w with
  | Handshake p | Heartbeat p => Some p
  | _ => None
  end.

Definition queued (h : nkfs_host) : Prop := forall w p, w ∈ wq h -> target w = Some p -> is_Some (nobjs h !! p).

Definition host_inv (h : nkfs_host) : Prop := routes (neigh_list h) h /\ calls None h /\ queued h.

(** ** Transitions that keep the invariant *)

(** Only these parts of a host are in the invariant. *)
Definition same_books (h h' : nkfs_host) : Prop :=
  neighs h' = neighs h /\ neighs_active h' = neighs_active h /\ host_ids h' = host_ids h /\ host_ids_active h' = host_ids_active h /\
  nobjs h' = nobjs h /\ hobjs h' = hobjs h.

Lemma routes_same l h h' : same_books h h' -> routes l h -> routes l h'.
Proof. intros (E1 & E2 & E3 & E4 & E5 & E6) []. split; rewrite ?E1, ?E2, ?E3, ?E4, ?E5, ?E6; done. Qed.

(** A neighbour changes in what the books do not record. *)
Lemma routes_upd l h p n n' : routes l h -> nobjs h !! p = Some n -> addr n' = addr n -> n_hid n' = n_hid n ->
  n_ref n' = 1 -> n_host n' = true -> n_inited n' = true -> n_shaked n' = n_shaked n ->
  routes l (with_nobjs (<[p := n']> (nobjs h)) h).
Proof.
  intros Hr Hp Ha Hh H1 H2 H3 H4. pose proof (r_neigh _ _ Hr _ _ Hp) as (_ & _ & _ & Hs).
  destruct Hr. split; cbn; try done.
  - intros r. rewrite lookup_insert_is_Some', r_mem0. split; [tauto|]. intros [<-|?]; eauto.
  - intros r m. rewrite lookup_insert. case_decide; [|apply r_neigh0]. intros [= <-]. rewrite Hh. split_and!; congruence.
  - intros k r. rewrite r_tree0, lookup_insert. case_decide as E; [subst r|done].
    rewrite Hp. split; intros (m & [= <-] & <-); eauto.
  - rewrite map_size_insert_Some; eauto.
  - intros r q. rewrite <- r_hid0, lookup_insert. case_decide as E; [subst r|done].
    rewrite Hp. split; intros (m & [= <-] & <-); eauto.
Qed.

Definition new_neigh (ip port : Z) : nkfs_neigh := MkNeigh 1 None true false ip port true false false 0 0 0.

(** A neighbour without an identity joins. *)
Lemma routes_join l h p n : routes l h -> nobjs h !! p = None -> neighs h !! addr n = None -> neighs_active h < NKFS_ROUTE_MAX_NEIGHS ->
  n_ref n = 1 -> n_host n = true -> n_inited n = true -> n_shaked n = false -> n_hid n = None ->
  routes (l ++ [p]) (with_nobjs (<[p := n]> (nobjs h)) (with_neighs (<[addr n := p]> (neighs h)) (neighs_active h + 1) h)).
Proof.
  intros Hr Hp Ha Hm H1 H2 H3 H4 H5. destruct Hr. split; cbn; try done.
  - apply NoDup_app. split_and!; [done| |apply NoDup_singleton]. intros r Hr ->%list_elem_of_singleton.
    apply r_mem0 in Hr as [? ?]. congruence.
  - intros r. rewrite elem_of_app, list_elem_of_singleton, lookup_insert_is_Some', r_mem0. naive_solver.
  - intros r m. rewrite lookup_insert. case_decide; [|apply r_neigh0]. intros [= <-]. by rewrite H5.
  - intros k r. rewrite !lookup_insert. repeat case_decide; subst.
    + split; [eauto|done].
    + split; [naive_solver|]. intros (m & Hm' & Hk). assert (neighs h !! addr n = Some r) by (apply r_tree0; eauto). congruence.
    + split; [|naive_solver]. rewrite r_tree0. intros (m & ? & _). congruence.
    + apply r_tree0.
  - rewrite map_size_insert_None by done. lia.
  - lia.
  - intros r q. rewrite <- r_hid0, lookup_insert. case_decide as E; [subst r|done]. rewrite Hp. naive_solver.
Qed.


(** A neighbour and the identity it leads to. *)
Definition bound (q : nat) (n : nkfs_neigh) : nkfs_neigh := set_state (n_inited n) true (n_hbt_ok n) (set_nhid (Some q) n).
Definition unbound (n : nkfs_neigh) : nkfs_neigh := set_state (n_inited n) false (n_hbt_ok n) (set_nhid None n).

Lemma mem_upd {l : list nat} {m : gmap nat nkfs_neigh} {p n} n' : (forall r, r ∈ l <-> is_Some (m !! r)) -> m !! p = Some n ->
  forall r, r ∈ l <-> is_Some (<[p := n']> m !! r).
Proof. intros Hm Hp r. rewrite lookup_insert_is_Some', Hm. split; [tauto|]. intros [<-|?]; eauto. Qed.

(** The tree of neighbours goes by addresses only. *)
Lemma tree_upd (t : gmap (Z * Z) nat) (m : gmap nat nkfs_neigh) p n n' :
  (forall k r, t !! k = Some r <-> exists a, m !! r = Some a /\ addr a = k) -> m !! p = Some n -> addr n' = addr n ->
  forall k r, t !! k = Some r <-> exists a, <[p := n']> m !! r = Some a /\ addr a = k.
Proof.
  intros Ht Hp Ha k r. rewrite Ht, lookup_insert. case_decide as E; [subst r|done].
  rewrite Hp. split; intros (a & [= <-] & <-); eauto.
Qed.

(** A neighbour gets an identity that is known. *)
Lemma routes_attach l h p n q i : routes l h -> nobjs h !! p = Some n -> n_hid n = None -> hobjs h !! q = Some i ->
  routes l (with_hobjs (<[q := set_hneighs (h_neighs i ++ [p]) (set_href (h_ref i + 1) i)]> (hobjs h))
    (with_nobjs (<[p := bound q n]> (nobjs h)) h)).
Proof.
  intros Hr Hp Hh Hq. pose proof (r_neigh _ _ Hr _ _ Hp) as (H1 & H2 & H3 & _).
  pose proof (r_hobj _ _ Hr _ _ Hq) as (I1 & I2 & I3 & I4).
  assert (Hni : p ∉ h_neighs i). { intros Hin. destruct (proj2 (r_hid _ _ Hr p q)) as (m & ? & ?); [by exists i|]. congruence. }
  destruct Hr. split; cbn; try done.
  - by apply (mem_upd _ r_mem0 Hp).
  - intros r m. rewrite lookup_insert. case_decide; [|apply r_neigh0]. intros [= <-]. done.
  - by apply (tree_upd _ _ _ _ _ r_tree0 Hp).
  - rewrite map_size_insert_Some; eauto.
  - intros r s. specialize (r_hid0 r s). rewrite !lookup_insert. repeat case_decide; subst.
    + split; intros _; eexists; (split; [done|]); cbn; [|done]. apply elem_of_app. right. by apply list_elem_of_singleton.
    + split; [naive_solver|]. intros Hx. apply r_hid0 in Hx as (m & ? & ?). congruence.
    + rewrite r_hid0. split; [intros (j & ? & ?); simplify_eq|intros (j & ? & Hj); simplify_eq].
      * eexists. split; [done|]. cbn. apply elem_of_app. by left.
      * cbn in Hj. apply elem_of_app in Hj as [?|?%list_elem_of_singleton]; [by eexists|done].
    + done.
  - intros s j. rewrite lookup_insert. case_decide; [|apply r_hobj0]. intros [= <-]. cbn. rewrite length_app. cbn. split_and!; [lia| | |done].
    + by intros [_ ?]%app_eq_nil.
    + apply NoDup_app. split_and!; [done| |apply NoDup_singleton]. intros r Hr ->%list_elem_of_singleton. done.
  - intros k s. rewrite r_ids0, lookup_insert. case_decide; [subst s|done]. rewrite Hq.
    split; intros (j & [= <-] & <-); eexists; (split; [reflexivity|]); done.
  - rewrite map_size_insert_Some; eauto.
Qed.

(** A neighbour gets an identity that was not known. *)
Lemma routes_attach_new l h p n q o : routes l h -> nobjs h !! p = Some n -> n_hid n = None -> hobjs h !! q = None ->
  host_ids h !! id_pair o = None ->
  routes l (with_hobjs (<[q := MkHid 1 true [p] o]> (hobjs h)) (with_ids (<[id_pair o := q]> (host_ids h)) (host_ids_active h + 1)
    (with_nobjs (<[p := bound q n]> (nobjs h)) h))).
Proof.
  intros Hr Hp Hh Hq Ho. pose proof (r_neigh _ _ Hr _ _ Hp) as (H1 & H2 & H3 & _).
  destruct Hr. split; cbn; try done.
  - by apply (mem_upd _ r_mem0 Hp).
  - intros r m. rewrite lookup_insert. case_decide; [|apply r_neigh0]. intros [= <-]. done.
  - by apply (tree_upd _ _ _ _ _ r_tree0 Hp).
  - rewrite map_size_insert_Some; eauto.
  - intros r s. specialize (r_hid0 r s). rewrite !lookup_insert. repeat case_decide; subst.
    + split; intros _; eexists; (split; [done|]); cbn; [|done]. by apply list_elem_of_singleton.
    + split; [naive_solver|]. intros Hx. apply r_hid0 in Hx as (m & ? & ?). congruence.
    + rewrite r_hid0. split; [naive_solver|]. intros (j & ? & Hj). simplify_eq. by apply list_elem_of_singleton in Hj.
    + done.
  - intros s j. rewrite lookup_insert. case_decide; [|apply r_hobj0]. intros [= <-]. cbn. split_and!; [done..| |done]. apply NoDup_singleton.
  - intros k s. rewrite !lookup_insert. repeat case_decide; subst.
    + split; [by eexists|done].
    + split; [naive_solver|]. intros Hx. apply r_ids0 in Hx. congruence.
    + split; [|naive_solver]. rewrite r_ids0. naive_solver.
    + apply r_ids0.
  - rewrite map_size_insert_None by done. lia.
Qed.

(** A neighbour lets go of an identity: others still lead to it, or none does. *)
Lemma routes_detach l h p n q i : routes l h -> nobjs h !! p = Some n -> n_hid n = Some q -> hobjs h !! q = Some i -> h_ref i <> 1 ->
  routes l (with_hobjs (<[q := set_href (h_ref i - 1) (set_hneighs (filter (fun x => x <> p) (h_neighs i)) i)]> (hobjs h))
    (with_nobjs (<[p := unbound n]> (nobjs h)) h)).
Proof.
  intros Hr Hp Hh Hq Hone. pose proof (r_neigh _ _ Hr _ _ Hp) as (H1 & H2 & H3 & _).
  pose proof (r_hobj _ _ Hr _ _ Hq) as (I1 & I2 & I3 & I4).
  assert (Hin : p ∈ h_neighs i). { destruct (proj1 (r_hid _ _ Hr p q)) as (j & ? & ?); [by exists n|]. congruence. }
  pose proof (length_filter_other (h_neighs i) p I3 Hin) as Hlen.
  destruct Hr. split; cbn; try done.
  - by apply (mem_upd _ r_mem0 Hp).
  - intros r m. rewrite lookup_insert. case_decide; [|apply r_neigh0]. by intros [= <-].
  - by apply (tree_upd _ _ _ _ _ r_tree0 Hp).
  - rewrite map_size_insert_Some; eauto.
  - intros r s. specialize (r_hid0 r s). rewrite !lookup_insert. repeat case_decide; subst.
    + split; [naive_solver|]. intros (j & [= <-] & Hj). cbn in Hj. by apply list_elem_of_filter in Hj as [? _].
    + split; [naive_solver|]. intros Hx. apply r_hid0 in Hx as (m & ? & ?). congruence.
    + rewrite r_hid0. split; [intros (j & ? & ?); simplify_eq|intros (j & ? & Hj); simplify_eq].
      * eexists. split; [done|]. cbn. apply list_elem_of_filter. by split.
      * cbn in Hj. apply list_elem_of_filter in Hj as [_ ?]. by eexists.
    + done.
  - intros s j. rewrite lookup_insert. case_decide; [|apply r_hobj0]. intros [= <-]. cbn. split_and!; [lia| | |done].
    + intros E. rewrite E in Hlen. cbn in Hlen. lia.
    + by apply NoDup_filter.
  - intros k s. rewrite r_ids0, lookup_insert. case_decide; [subst s|done]. rewrite Hq.
    split; intros (j & [= <-] & <-); eexists; (split; [reflexivity|]); done.
  - rewrite map_size_insert_Some; eauto.
Qed.

Lemma routes_detach_last l h p n q i : routes l h -> nobjs h !! p = Some n -> n_hid n = Some q -> hobjs h !! q = Some i -> h_ref i = 1 ->
  routes l (with_hobjs (delete q (hobjs h)) (with_ids (delete (id_pair (h_id i)) (host_ids h)) (host_ids_active h - 1)
    (with_nobjs (<[p := unbound n]> (nobjs h)) h))).
Proof.
  intros Hr Hp Hh Hq Hone. pose proof (r_neigh _ _ Hr _ _ Hp) as (H1 & H2 & H3 & _).
  pose proof (r_hobj _ _ Hr _ _ Hq) as (I1 & I2 & I3 & I4).
  assert (Hin : p ∈ h_neighs i). { destruct (proj1 (r_hid _ _ Hr p q)) as (j & ? & ?); [by exists n|]. congruence. }
  assert (Hsingle : h_neighs i = [p]).
  { destruct (h_neighs i) as [|a [|b ?]]; cbn in I1; [done| |lia]. by apply list_elem_of_singleton in Hin as ->. }
  assert (Hpos : 0 < Z.of_nat (size (hobjs h))).
  { assert (size (hobjs h) <> 0)%nat; [|lia]. intros E%map_size_empty_inv. by rewrite E in Hq. }
  destruct Hr. split; cbn; try done.
  - by apply (mem_upd _ r_mem0 Hp).
  - intros r m. rewrite lookup_insert. case_decide; [|apply r_neigh0]. by intros [= <-].
  - by apply (tree_upd _ _ _ _ _ r_tree0 Hp).
  - rewrite map_size_insert_Some; eauto.
  - intros r s. specialize (r_hid0 r s). rewrite lookup_insert, lookup_delete. repeat case_decide; subst.
    + naive_solver.
    + split; [naive_solver|]. intros Hx. apply r_hid0 in Hx as (m & ? & ?). congruence.
    + rewrite r_hid0. split; [|naive_solver]. intros (j & ? & Hj). simplify_eq. rewrite Hsingle in Hj. by apply list_elem_of_singleton in Hj.
    + done.
  - intros s j. rewrite lookup_delete. case_decide; [done|apply r_hobj0].
  - intros k s. rewrite !lookup_delete. repeat case_decide; subst.
    + naive_solver.
    + split; [done|]. intros Hx. apply r_ids0 in Hx. assert (host_ids h !! id_pair (h_id i) = Some q) by (apply r_ids0; eauto). congruence.
    + split; [|naive_solver]. rewrite r_ids0. naive_solver.
    + apply r_ids0.
  - rewrite map_size_delete_Some by eauto. lia.
Qed.

(** A neighbour without an identity leaves. *)
Lemma routes_leave p l h n : routes (p :: l) h -> nobjs h !! p = Some n -> n_hid n = None ->
  routes l (with_nobjs (delete p (nobjs h)) (with_neighs (delete (addr n) (neighs h)) (neighs_active h - 1) h)).
Proof.
  intros Hr Hp Hh.
  assert (Hpos : 0 < Z.of_nat (size (nobjs h))).
  { assert (size (nobjs h) <> 0)%nat; [|lia]. intros E%map_size_empty_inv. by rewrite E in Hp. }
  destruct Hr. apply NoDup_cons in r_nodup0 as [Hni Hnd]. split; cbn; try done.
  - intros r. specialize (r_mem0 r). rewrite elem_of_cons in r_mem0. rewrite lookup_delete. case_decide; subst.
    + split; [done|by intros [? ?]].
    + rewrite <- r_mem0. naive_solver.
  - intros r m. rewrite lookup_delete. case_decide; [done|apply r_neigh0].
  - intros k r. rewrite !lookup_delete. repeat case_decide; subst.
    + naive_solver.
    + split; [done|]. intros Hx. apply r_tree0 in Hx. assert (neighs h !! addr n = Some p) by (apply r_tree0; eauto). congruence.
    + split; [|naive_solver]. rewrite r_tree0. naive_solver.
    + apply r_tree0.
  - rewrite map_size_delete_Some by eauto. lia.
  - lia.
  - intros r q. rewrite <- r_hid0, lookup_delete. case_decide as E; [subst r|done]. rewrite Hp. naive_solver.
Qed.

End RouteSpec.
