(* ===== verification/RouteOps.v ===== *)
(** * What the calls of a host do

    The effect of each call on the neighbours and identities, as one change of
    the state, and that it ends. *)

From Stdlib Require Import ZArith Lia.
From coqutil Require Import Byte.
From stdpp Require Import base list gmap.
From S2P Require Import Prelude XXHash Bytes StMonad Csum Mem CharHex ObjId NetPkt Route RouteSpec.
Import XXHash Bytes StMonad Csum ObjId NetPkt Route RouteSpec.
Local Open Scope Z_scope.
Local Open Scope stm_scope.

Module RouteOps.

(** ** Single accesses *)

Lemma spec_get_neigh p n h (Q : nkfs_neigh -> nkfs_host -> Prop) : nobjs h !! p = Some n -> Q n h -> spec (get_neigh p) h Q.
Proof. intros E HQ. unfold spec, get_neigh. by rewrite E. Qed.

Lemma spec_upd_neigh p f n h (Q : unit -> nkfs_host -> Prop) : nobjs h !! p = Some n ->
  Q tt (with_nobjs (<[p := f n]> (nobjs h)) h) -> spec (upd_neigh p f) h Q.
Proof. intros E HQ. by apply spec_bind, (spec_get_neigh _ n). Qed.

Lemma spec_get_hid q i h (Q : nkfs_host_id -> nkfs_host -> Prop) : hobjs h !! q = Some i -> Q i h -> spec (get_hid q) h Q.
Proof. intros E HQ. unfold spec, get_hid. by rewrite E. Qed.

Lemma spec_upd_hid q f i h (Q : unit -> nkfs_host -> Prop) : hobjs h !! q = Some i ->
  Q tt (with_hobjs (<[q := f i]> (hobjs h)) h) -> spec (upd_hid q f) h Q.
Proof. intros E HQ. by apply spec_bind, (spec_get_hid _ i). Qed.

Lemma spec_host_rfails h (Q : bool -> nkfs_host -> Prop) : Q (rfail h (rtick h)) (with_rtick (S (rtick h)) h) -> spec rfails h Q.
Proof. done. Qed.

Lemma spec_hid_ref q i h (Q : unit -> nkfs_host -> Prop) : hobjs h !! q = Some i -> 0 < h_ref i ->
  Q tt (with_hobjs (<[q := set_href (h_ref i + 1) i]> (hobjs h)) h) -> spec (nkfs_hid_ref q) h Q.
Proof.
  intros E Hr HQ. apply spec_bind, (spec_get_hid _ i); [done|]. apply spec_bind, spec_bug_on; [lia|]. by apply (spec_upd_hid _ _ i).
Qed.

Lemma spec_neigh_ref p n h (Q : unit -> nkfs_host -> Prop) : nobjs h !! p = Some n -> 0 < n_ref n ->
  Q tt (with_nobjs (<[p := set_nref (n_ref n + 1) n]> (nobjs h)) h) -> spec (nkfs_neigh_ref p) h Q.
Proof.
  intros E Hr HQ. apply spec_bind, (spec_get_neigh _ n); [done|]. apply spec_bind, spec_bug_on; [lia|]. by apply (spec_upd_neigh _ _ n).
Qed.

(** A reference that is not the last. *)
Lemma spec_hid_deref q i h (Q : unit -> nkfs_host -> Prop) : hobjs h !! q = Some i -> 1 < h_ref i ->
  Q tt (with_hobjs (<[q := set_href (h_ref i - 1) i]> (hobjs h)) h) -> spec (nkfs_hid_deref q) h Q.
Proof.
  intros E Hr HQ. apply spec_bind, (spec_get_hid _ i); [done|]. apply spec_bind, spec_bug_on; [lia|]. apply spec_bind, (spec_upd_hid _ _ i); [done|].
  rewrite (proj2 (Z.eqb_neq _ _)) by lia. exact HQ.
Qed.

Lemma spec_neigh_deref p n h (Q : unit -> nkfs_host -> Prop) : nobjs h !! p = Some n -> 1 < n_ref n ->
  Q tt (with_nobjs (<[p := set_nref (n_ref n - 1) n]> (nobjs h)) h) -> spec (nkfs_neigh_deref p) h Q.
Proof.
  intros E Hr HQ. apply spec_bind, (spec_get_neigh _ n); [done|]. apply spec_bind, spec_bug_on; [lia|]. apply spec_bind, (spec_upd_neigh _ _ n); [done|].
  rewrite (proj2 (Z.eqb_neq _ _)) by lia. exact HQ.
Qed.

(** The last reference of an identity that is not in the tree, or that is. *)
Lemma spec_hid_last q i h (Q : unit -> nkfs_host -> Prop) : hobjs h !! q = Some i -> h_ref i = 1 -> h_host i = false ->
  Q tt (with_hobjs (delete q (hobjs h)) h) -> spec (nkfs_hid_deref q) h Q.
Proof.
  intros E Hr Hh HQ. apply spec_bind, (spec_get_hid _ i); [done|]. apply spec_bind, spec_bug_on; [lia|]. apply spec_bind, (spec_upd_hid _ _ i); [done|].
  rewrite Hr. cbn [Z.eqb Z.sub Z.add Z.opp Z.pos_sub]. apply spec_bind. eapply spec_get_hid; [cbn; apply lookup_insert_eq|]. cbn [h_host set_href]. rewrite Hh.
  apply spec_bind, spec_ret, spec_modify. cbn. rewrite delete_insert_eq. exact HQ.
Qed.

Lemma spec_hid_last_listed q i h (Q : unit -> nkfs_host -> Prop) : hobjs h !! q = Some i -> h_ref i = 1 -> h_host i = true ->
  host_ids h !! id_pair (h_id i) = Some q ->
  Q tt (with_hobjs (delete q (hobjs h)) (with_ids (delete (id_pair (h_id i)) (host_ids h)) (host_ids_active h - 1) h)) -> spec (nkfs_hid_deref q) h Q.
Proof.
  intros E Hr Hh Hi HQ. apply spec_bind, (spec_get_hid _ i); [done|]. apply spec_bind, spec_bug_on; [lia|]. apply spec_bind, (spec_upd_hid _ _ i); [done|].
  rewrite Hr. cbn [Z.eqb Z.sub Z.add Z.opp Z.pos_sub]. apply spec_bind. eapply spec_get_hid; [cbn; apply lookup_insert_eq|]. cbn [h_host set_href]. rewrite Hh.
  apply spec_bind, spec_bind. eapply spec_get_hid; [cbn; apply lookup_insert_eq|]. apply spec_bind, spec_gets. cbn [host_ids with_hobjs h_id set_href]. rewrite Hi.
  apply spec_bind, spec_bug_on; [by rewrite Nat.eqb_refl|]. apply spec_modify, spec_modify. cbn. rewrite delete_insert_eq. exact HQ.
Qed.

(** ** Finding or making the identity of a host *)

Definition ids_ok (h : nkfs_host) : Prop := forall k q, host_ids h !! k = Some q -> exists i, hobjs h !! q = Some i /\ 0 < h_ref i.

Lemma spec_lookup_or_create o h (Q : option nat -> nkfs_host -> Prop) : ids_ok h ->
  let t := with_rtick (S (rtick h)) h in
  (rfail h (rtick h) = true -> Q None t) ->
  (forall q i, rfail h (rtick h) = false -> host_ids h !! id_pair o = Some q -> hobjs h !! q = Some i -> Q (Some q) (with_hobjs (<[q := set_href (h_ref i + 1) i]> (hobjs h)) t)) ->
  (forall q, rfail h (rtick h) = false -> host_ids h !! id_pair o = None -> hobjs h !! q = None ->
     Q (Some q) (with_hobjs (<[q := MkHid 1 true [] o]> (hobjs h)) (with_ids (<[id_pair o := q]> (host_ids h)) (host_ids_active h + 1) t))) ->
  spec (nkfs_host_id_lookup_or_create o) h Q.
Proof.
  intros Hok t HN HS HF. unfold nkfs_host_id_lookup_or_create, nkfs_hid_alloc. apply spec_bind, spec_bind, spec_host_rfails. destruct (rfail h (rtick h)) eqn:Ef.
  { by apply spec_ret, spec_ret, HN. }
  set (p := fresh (dom (hobjs h))). assert (Hp : hobjs h !! p = None) by (apply not_elem_of_dom, is_fresh).
  unfold spec at 1. cbn zeta. cbn [hobjs with_rtick]. fold p. apply spec_bind. eapply spec_upd_hid; [cbn; apply lookup_insert_eq|].
  cbn. rewrite insert_insert_eq. apply spec_bind, spec_bind. eapply spec_get_hid; [cbn; apply lookup_insert_eq|].
  apply spec_bind, spec_gets. cbn. destruct (host_ids h !! id_pair o) as [q|] eqn:Eq.
  - destruct (Hok _ _ Eq) as (i & Hi & Hri). assert (q <> p) by congruence.
    apply spec_bind, spec_ret, spec_bind. eapply spec_hid_ref; [cbn; by rewrite lookup_insert_ne|done|]. apply spec_ret.
    apply spec_bind. eapply spec_hid_last; [cbn; rewrite lookup_insert_ne by done; apply lookup_insert_eq|done|done|].
    apply spec_ret. cbn. rewrite delete_insert_ne, delete_insert_eq, delete_id by done. by apply HS.
  - apply spec_bind, spec_bind, spec_modify, spec_bind. eapply spec_upd_hid; [cbn; apply lookup_insert_eq|]. cbn. rewrite insert_insert_eq.
    apply spec_ret, spec_bind. eapply spec_hid_ref; [cbn; apply lookup_insert_eq|done|]. cbn. rewrite insert_insert_eq.
    apply spec_ret, spec_bind. eapply spec_hid_deref; [cbn; apply lookup_insert_eq|done|]. cbn. rewrite insert_insert_eq.
    apply spec_ret. by apply HF.
Qed.

(** ** Leaving *)

(** The identity [o] of the neighbour [p] after [p] let go of it. *)
Definition dropped (p : nat) (o : option nat) (h : nkfs_host) : nkfs_host :=
  match o with
  | None => h
  | Some q =>
      match hobjs h !! q with
      | None => h
      | Some i =>
          if h_ref i =? 1 then with_hobjs (delete q (hobjs h)) (with_ids (delete (id_pair (h_id i)) (host_ids h)) (host_ids_active h - 1) h)
          else with_hobjs (<[q := set_href (h_ref i - 1) (set_hneighs (filter (fun x => x <> p) (h_neighs i)) i)]> (hobjs h)) h
      end
  end.

Definition hid_ok (o : option nat) (h : nkfs_host) : Prop :=
  forall q, o = Some q -> exists i, hobjs h !! q = Some i /\ 0 < h_ref i /\ h_host i = true /\ host_ids h !! id_pair (h_id i) = Some q.

Lemma spec_detach p n h (Q : unit -> nkfs_host -> Prop) : nobjs h !! p = Some n -> hid_ok (n_hid n) h ->
  Q tt (dropped p (n_hid n) (with_nobjs (<[p := set_nhid None n]> (nobjs h)) h)) -> spec (nkfs_neigh_detach_hid p) h Q.
Proof.
  intros E Hok HQ. apply spec_bind, (spec_get_neigh _ n); [done|]. apply spec_bind, (spec_upd_neigh _ _ n); [done|].
  destruct (n_hid n) as [q|] eqn:Eq; [|by apply spec_ret]. destruct (Hok q eq_refl) as (i & Hi & Hr & Hh & Hid). cbn in HQ. rewrite Hi in HQ.
  apply spec_bind. eapply spec_upd_hid; [done|]. destruct (Z.eqb_spec (h_ref i) 1) as [H1|H1].
  - eapply spec_hid_last_listed; [cbn; apply lookup_insert_eq|done..|]. cbn. rewrite delete_insert_eq. exact HQ.
  - eapply spec_hid_deref; [cbn; apply lookup_insert_eq|cbn; lia|]. cbn. rewrite insert_insert_eq. exact HQ.
Qed.

Lemma dropped_nobjs p o h : nobjs (dropped p o h) = nobjs h.
Proof. destruct o as [q|]; [|done]. cbn. destruct (hobjs h !! q) as [i|]; [|done]. by destruct (h_ref i =? 1). Qed.

Lemma dropped_neighs p o h : neighs (dropped p o h) = neighs h /\ neighs_active (dropped p o h) = neighs_active h.
Proof. destruct o as [q|]; [|done]. cbn. destruct (hobjs h !! q) as [i|]; [|done]. by destruct (h_ref i =? 1). Qed.

Lemma dropped_with p o m h : dropped p o (with_nobjs m h) = with_nobjs m (dropped p o h).
Proof. destruct o as [q|]; [|done]. cbn. destruct (hobjs h !! q) as [i|]; [|done]. by destruct (h_ref i =? 1). Qed.

Lemma dropped_rest p o h : neigh_list (dropped p o h) = neigh_list h /\ wq (dropped p o h) = wq h /\
  net_id (dropped p o h) = net_id h /\ host_id (dropped p o h) = host_id h.
Proof. destruct o as [q|]; [|done]. cbn. destruct (hobjs h !! q) as [i|]; [|done]. by destruct (h_ref i =? 1). Qed.

(** The last reference of a neighbour: out of the tree if it is there. *)
Definition gone (p : nat) (n : nkfs_neigh) (h : nkfs_host) : nkfs_host :=
  let h := dropped p (n_hid n) h in
  let h := if n_host n then with_neighs (delete (addr n) (neighs h)) (neighs_active h - 1) h else h in
  with_nobjs (delete p (nobjs h)) h.

Lemma spec_neigh_last p n h (Q : unit -> nkfs_host -> Prop) : nobjs h !! p = Some n -> n_ref n = 1 -> hid_ok (n_hid n) h ->
  (n_host n = true -> neighs h !! addr n = Some p) -> Q tt (gone p n h) -> spec (nkfs_neigh_deref p) h Q.
Proof.
  intros E Hr Hok Ht HQ. apply spec_bind, (spec_get_neigh _ n); [done|]. apply spec_bind, spec_bug_on; [lia|]. apply spec_bind, (spec_upd_neigh _ _ n); [done|].
  rewrite Hr. cbn [Z.eqb Z.sub Z.add Z.opp Z.pos_sub]. unfold nkfs_neigh_release. apply spec_bind.
  eapply spec_detach; [cbn; apply lookup_insert_eq|exact Hok|]. cbn [n_hid set_nref].
  assert (Hend : forall h', (exists m, nobjs h' = <[p := m]> (nobjs h)) -> Q tt (with_nobjs (delete p (nobjs h)) h') ->
    spec (do* nkfs_neigh_close p in nkfs_neigh_free p) h' Q).
  { intros h' [m Em] HQ'. apply spec_bind. eapply spec_upd_neigh; [rewrite Em; apply lookup_insert_eq|]. apply spec_modify. cbn. rewrite Em.
    by rewrite !delete_insert_eq. }
  rewrite !dropped_with. cbn. rewrite insert_insert_eq. set (d := dropped p (n_hid n) h) in *.
  assert (Ed : nobjs d = nobjs h) by apply dropped_nobjs. destruct (dropped_neighs p (n_hid n) h) as [En Ea]. fold d in En, Ea.
  unfold gone in HQ. cbn zeta in HQ. fold d in HQ. apply spec_bind. eapply spec_get_neigh; [cbn; apply lookup_insert_eq|].
  apply spec_bind. cbn [n_host set_nhid set_nref]. destruct (n_host n) eqn:Eh.
  - apply spec_bind. eapply spec_get_neigh; [cbn; apply lookup_insert_eq|]. apply spec_bind, spec_gets. cbn. rewrite En, (Ht eq_refl : neighs h !! (n_ip n, n_port n) = _).
    apply spec_bind, spec_bug_on; [by rewrite Nat.eqb_refl|]. apply spec_modify. apply Hend; [cbn; eauto|]. cbn in *. by rewrite <- Ed.
  - apply spec_ret, Hend; [cbn; eauto|]. by rewrite <- Ed.
Qed.

Lemma routes_dropped l h p n : routes l h -> nobjs h !! p = Some n ->
  routes l (with_nobjs (<[p := unbound n]> (nobjs h)) (dropped p (n_hid n) h)).
Proof.
  intros Hr Hp. destruct (n_hid n) as [q|] eqn:Eh; cbn.
  - destruct (proj1 (r_hid _ _ Hr p q)) as (i & Hq & _); [by exists n|]. rewrite Hq. destruct (Z.eqb_spec (h_ref i) 1).
    + by apply (routes_detach_last _ _ _ _ q i).
    + by apply (routes_detach _ _ _ _ q i).
  - pose proof (r_neigh _ _ Hr _ _ Hp) as (H1 & H2 & H3 & H4). eapply routes_upd; [done|done|done|..]; cbn; by rewrite ?H4, ?Eh.
Qed.

Lemma routes_gone p l h n : routes (p :: l) h -> nobjs h !! p = Some n -> routes l (gone p n h).
Proof.
  intros Hr Hp. pose proof (r_neigh _ _ Hr _ _ Hp) as (_ & H2 & _). pose proof (routes_dropped _ _ _ _ Hr Hp) as Hd.
  eapply routes_leave in Hd; [|cbn; apply lookup_insert_eq|done]. cbn in Hd. rewrite delete_insert_eq in Hd.
  unfold gone. rewrite H2. cbn zeta. cbn. rewrite dropped_nobjs. eapply routes_same; [|exact Hd]. by repeat split.
Qed.

Lemma routes_hid_ok l h p n : routes l h -> nobjs h !! p = Some n -> hid_ok (n_hid n) h.
Proof.
  intros Hr Hp q Eh. destruct (proj1 (r_hid _ _ Hr p q)) as (i & Hq & _); [by exists n|]. exists i.
  destruct (r_hobj _ _ Hr _ _ Hq) as (H1 & H2 & _ & H4). split_and!; [done| |done|apply (r_ids _ _ Hr); eauto].
  destruct (h_neighs i); [done|]. cbn in H1. lia.
Qed.

Lemma routes_ids_ok l h : routes l h -> ids_ok h.
Proof.
  intros Hr k q Hk. apply (r_ids _ _ Hr) in Hk as (i & Hi & _). exists i. split; [done|].
  destruct (r_hobj _ _ Hr _ _ Hi) as (H1 & H2 & _). destruct (h_neighs i); [done|]. cbn in H1. lia.
Qed.

(** The host lets go of the neighbours [l]; it still holds [r]. *)
Lemma spec_drop_neighs l : forall h r (Q : Z -> nkfs_host -> Prop), routes (l ++ r) h ->
  (forall h', routes r h' -> neigh_list h' = filter (fun x => x ∉ l) (neigh_list h) -> wq h' = wq h ->
     (forall p, p ∈ r -> nobjs h' !! p = nobjs h !! p) -> Q (Z.of_nat (length l)) h') -> spec (drop_neighs l) h Q.
Proof.
  induction l as [|p l IH]; intros h r Q Hr HQ.
  { apply spec_ret, HQ; try done. symmetry. clear. induction (neigh_list h) as [|a t IHt]; [done|].
    rewrite filter_cons_True by apply not_elem_of_nil. by rewrite IHt. }
  cbn [drop_neighs]. apply spec_bind, spec_modify, spec_bind. set (h1 := with_nlist _ h). cbn [app] in Hr.
  assert (Hr1 : routes (p :: l ++ r) h1) by (by apply (routes_same _ h)).
  destruct (proj1 (r_mem _ _ Hr1 p)) as [n Hn]; [by left|].
  destruct (r_neigh _ _ Hr1 _ _ Hn) as (H1 & _). eapply spec_neigh_last; [done|done|by eapply routes_hid_ok| |].
  { intros _. apply (r_tree _ _ Hr1). eauto. }
  apply spec_bind. eapply IH; [by apply routes_gone|]. intros h' Hr' Hl Hw Hk. apply spec_ret.
  replace (Z.of_nat (length l) + 1) with (Z.of_nat (length (p :: l))) by (cbn; lia).
  assert (Eg : neigh_list (gone p n h1) = neigh_list h1 /\ wq (gone p n h1) = wq h1 /\ nobjs (gone p n h1) = delete p (nobjs h1)).
  { unfold gone. cbn zeta. destruct (dropped_rest p (n_hid n) h1) as (E1 & E2 & _). destruct (n_host n); cbn; rewrite E1, E2, dropped_nobjs; done. }
  destruct Eg as (E1 & E2 & E3). apply HQ; [done| |by rewrite Hw, E2|].
  - rewrite Hl, E1. cbn. rewrite list_filter_filter. apply list_filter_iff. intros x. rewrite not_elem_of_cons. tauto.
  - intros x Hx. rewrite (Hk x Hx), E3. apply lookup_delete_ne. pose proof (r_nodup _ _ Hr1) as Hnd.
    apply NoDup_cons in Hnd as [Hnd _]. intros ->. apply Hnd, elem_of_app. by right.
Qed.

End RouteOps.

(** * The calls of a host, one by one

    Joining, the two sides of the handshake and of the heartbeat, the work
    queue, and the end of a host: each ends, with the result its branches give,
    and the change of the state it makes. *)

Import XXHash Bytes StMonad Csum ObjId NetPkt Route RouteSpec RouteOps.

Module RouteCalls.

Definition ticked (h : nkfs_host) : nkfs_host := with_rtick (S (rtick h)) h.

Lemma with_nobjs_back m h : with_nobjs (nobjs h) (with_nobjs m h) = h.
Proof. by destruct h. Qed.

(** ** Joining *)

Definition joined (p : nat) (n : nkfs_neigh) (h : nkfs_host) : nkfs_host :=
  with_nlist (neigh_list h ++ [p]) (with_nobjs (<[p := n]> (nobjs h)) (with_neighs (<[addr n := p]> (neighs h)) (neighs_active h + 1) h)).

Definition tree_ok (p : nat) (h : nkfs_host) : Prop :=
  forall k q, neighs h !! k = Some q -> q <> p /\ exists m, nobjs h !! q = Some m /\ n_ref m = 1.

Lemma spec_host_add_neigh p n h (Q : Z -> nkfs_host -> Prop) : nobjs h !! p = Some n -> n_ref n = 1 -> tree_ok p h ->
  (is_Some (neighs h !! addr n) -> Q (- EEXIST) h) ->
  (neighs h !! addr n = None -> NKFS_ROUTE_MAX_NEIGHS <= neighs_active h -> Q NKFS_E_LIMIT h) ->
  (neighs h !! addr n = None -> neighs_active h < NKFS_ROUTE_MAX_NEIGHS -> Q 0 (joined p (set_nhost n) h)) ->
  spec (nkfs_host_add_neigh p) h Q.
Proof.
  intros Hp Hr Ht HE HL HJ. unfold nkfs_host_add_neigh. apply spec_bind, spec_bind, (spec_get_neigh _ n); [done|]. apply spec_bind, spec_gets.
  change (n_ip n, n_port n) with (addr n). destruct (neighs h !! addr n) as [q|] eqn:Eq.
  - destruct (Ht _ _ Eq) as (Hqp & m & Hm & Hmr). apply spec_bind. eapply spec_neigh_ref; [done|lia|]. apply spec_ret.
    rewrite (proj2 (Nat.eqb_neq q p)) by done. apply spec_bind, spec_ret, spec_bind. eapply spec_neigh_deref; [cbn; apply lookup_insert_eq|cbn; lia|].
    apply spec_ret. cbn. rewrite insert_insert_eq, insert_id; [rewrite with_nobjs_back; by apply HE|]. rewrite Hm. destruct m. cbn in *. subst. done.
  - apply spec_bind, spec_gets. destruct (Z.leb_spec NKFS_ROUTE_MAX_NEIGHS (neighs_active h)); [apply spec_ret; by apply HL|].
    apply spec_bind, spec_modify, spec_bind. eapply spec_upd_neigh; [done|]. apply spec_bind. eapply spec_neigh_ref; [cbn; apply lookup_insert_eq|cbn; lia|].
    apply spec_ret. rewrite Nat.eqb_refl. apply spec_bind, spec_bind, spec_modify, spec_ret, spec_bind.
    eapply spec_neigh_deref; [cbn; apply lookup_insert_eq|cbn; lia|]. apply spec_ret. cbn. rewrite !insert_insert_eq.
    assert (En : set_nref (n_ref n + 1 - 1) (set_nref (n_ref n + 1) (set_nhost n)) = set_nhost n) by (destruct n; cbn in *; subst; done).
    rewrite En. by apply HJ.
Qed.

Lemma spec_neigh_alloc h (Q : option nat -> nkfs_host -> Prop) : (rfail h (rtick h) = true -> Q None (ticked h)) ->
  (forall p, rfail h (rtick h) = false -> nobjs h !! p = None -> Q (Some p) (with_nobjs (<[p := MkNeigh 1 None false false 0 0 false false false 0 0 0]> (nobjs h)) (ticked h))) ->
  spec nkfs_neigh_alloc h Q.
Proof.
  intros HN HS. unfold nkfs_neigh_alloc. apply spec_bind, spec_host_rfails. destruct (rfail h (rtick h)) eqn:Ef; [by apply spec_ret, HN|].
  unfold spec. cbn zeta. by apply HS, not_elem_of_dom, is_fresh.
Qed.

Lemma routes_tree_ok l h p m : routes l h -> nobjs h !! p = None -> tree_ok p (with_nobjs (<[p := m]> (nobjs h)) h).
Proof.
  intros Hr Hp k q Hk. cbn in *. apply (r_tree _ _ Hr) in Hk as (a & Ha & _). assert (q <> p) by congruence. split; [done|].
  exists a. rewrite lookup_insert_ne by done. split; [done|]. by destruct (r_neigh _ _ Hr _ _ Ha).
Qed.

(** The result of a request to join from a given address. *)
Definition join_err (nomem : bool) (ip port : Z) (h : nkfs_host) : Z :=
  if (ip =? 0) || (port =? 0) then - EINVAL
  else if nomem then - ENOMEM
  else if bool_decide (is_Some (neighs h !! (ip, port))) then - EEXIST
  else if NKFS_ROUTE_MAX_NEIGHS <=? neighs_active h then NKFS_E_LIMIT
  else 0.

Lemma spec_route_neigh_add ip port l h (Q : Z -> nkfs_host -> Prop) : routes l h ->
  (forall r h', r <> 0 -> r = join_err (rfail h (rtick h)) ip port h -> h' = h \/ h' = ticked h -> Q r h') ->
  (forall p, join_err (rfail h (rtick h)) ip port h = 0 -> nobjs h !! p = None -> Q 0 (joined p (new_neigh ip port) (ticked h))) ->
  spec (nkfs_route_neigh_add ip port) h Q.
Proof.
  intros Hr HE HJ. unfold nkfs_route_neigh_add. unfold join_err in HE, HJ. destruct ((ip =? 0) || (port =? 0)) eqn:Ez.
  { apply spec_ret, HE; [done|done|by left]. }
  apply spec_bind, spec_neigh_alloc; [intros Ef; rewrite Ef in HE; apply spec_ret, HE; [done|done|by right]|]. intros p Ef Hp. rewrite Ef in HE, HJ.
  apply spec_bind. eapply spec_upd_neigh; [cbn; apply lookup_insert_eq|]. cbn. rewrite insert_insert_eq.
  set (n := MkNeigh 1 None false false ip port true false false 0 0 0). set (h1 := with_nobjs (<[p := n]> (nobjs h)) (ticked h)).
  match goal with |- spec _ ?s _ => change s with h1 end.
  assert (Hback : forall r, Q r (ticked h) -> r <> 0 -> spec (do* (if negb (r =? 0) then nkfs_neigh_deref p else ret tt) in ret r) h1 Q).
  { intros r HQ H0. rewrite (proj2 (Z.eqb_neq _ _)) by done. apply spec_bind. eapply spec_neigh_last; [cbn; apply lookup_insert_eq|done|done|done|].
    apply spec_ret. unfold gone, h1. cbn. rewrite delete_insert_eq, delete_id by done. by rewrite (with_nobjs_back _ (ticked h)). }
  apply spec_bind. eapply (spec_host_add_neigh p n); [cbn; apply lookup_insert_eq|done| |..].
  { apply (routes_tree_ok l (ticked h)); [by apply (routes_same _ h)|done]. }
  - intros Hs. apply Hback; [|done]. apply HE; [done| |by right]. by rewrite bool_decide_true.
  - intros Hs Ha. apply Hback; [|done]. apply HE; [done| |by right]. rewrite (Hs : neighs h !! (ip, port) = None). cbn. by rewrite (proj2 (Z.leb_le _ _)).
  - intros Hs Ha. cbn in Hs, Ha. apply spec_bind, spec_ret, spec_ret. unfold joined. cbn. rewrite insert_insert_eq. apply HJ; [|done].
    rewrite (Hs : neighs h !! (ip, port) = None). cbn. by rewrite (proj2 (Z.leb_gt _ _)).
Qed.

Lemma routes_joined p ip port h : routes (neigh_list h) h -> nobjs h !! p = None -> forall b, join_err b ip port h = 0 ->
  routes (neigh_list (joined p (new_neigh ip port) h)) (joined p (new_neigh ip port) h).
Proof.
  intros Hr Hp b Hj. unfold join_err in Hj. destruct ((ip =? 0) || (port =? 0)); [done|]. destruct b; [done|]. case_bool_decide as Hs; [done|].
  destruct (Z.leb_spec NKFS_ROUTE_MAX_NEIGHS (neighs_active h)); [done|]. eapply routes_same; [|eapply (routes_join _ h p (new_neigh ip port)); try done].
  - by repeat split.
  - cbn. by apply eq_None_not_Some.
Qed.

(** ** Identities of neighbours *)

Lemma spec_attach p n q i h (Q : unit -> nkfs_host -> Prop) : nobjs h !! p = Some n -> n_hid n = None -> hobjs h !! q = Some i ->
  Q tt (with_hobjs (<[q := set_hneighs (h_neighs i ++ [p]) i]> (hobjs h)) (with_nobjs (<[p := set_nhid (Some q) n]> (nobjs h)) h)) ->
  spec (nkfs_neigh_attach_host_id p q) h Q.
Proof.
  intros Hp Hn Hq HQ. apply spec_bind, (spec_get_neigh _ n); [done|]. apply spec_bind, spec_bug_on; [by rewrite Hn|].
  apply spec_bind, (spec_upd_neigh _ _ n); [done|]. by apply (spec_upd_hid _ _ i).
Qed.

(** The neighbour [p] bound to the identity [o]: one that is known, or a new one. *)
Inductive tied (p : nat) (n : nkfs_neigh) (o : nkfs_obj_id) (h : nkfs_host) : nkfs_host -> Prop :=
| tied_known q i : host_ids h !! id_pair o = Some q -> hobjs h !! q = Some i ->
    tied p n o h (with_hobjs (<[q := set_hneighs (h_neighs i ++ [p]) (set_href (h_ref i + 1) i)]> (hobjs h)) (with_nobjs (<[p := bound q n]> (nobjs h)) h))
| tied_new q : host_ids h !! id_pair o = None -> hobjs h !! q = None ->
    tied p n o h (with_hobjs (<[q := MkHid 1 true [p] o]> (hobjs h)) (with_ids (<[id_pair o := q]> (host_ids h)) (host_ids_active h + 1)
      (with_nobjs (<[p := bound q n]> (nobjs h)) h))).

Lemma routes_tied l h p n o h' : routes l h -> nobjs h !! p = Some n -> n_hid n = None -> tied p n o h h' -> routes l h'.
Proof. intros Hr Hp Hn []; [by eapply routes_attach|by eapply routes_attach_new]. Qed.

(** ** The handshake, asked *)

Definition join_reply (p : nat) : M (Z + nkfs_obj_id) :=
  let* err := nkfs_host_add_neigh p in
  if negb (err =? 0) then do* nkfs_neigh_deref p in ret (inl err) else let* me := gets host_id in ret (inr me).

Lemma spec_join_reply p n h (Q : Z + nkfs_obj_id -> nkfs_host -> Prop) : nobjs h !! p = Some n -> n_ref n = 1 -> n_host n = false ->
  (n_ip n =? 0) || (n_port n =? 0) = false -> tree_ok p h -> hid_ok (n_hid n) h ->
  (forall r, r <> 0 -> r = join_err false (n_ip n) (n_port n) h -> Q (inl r) (gone p n h)) ->
  (join_err false (n_ip n) (n_port n) h = 0 -> Q (inr (host_id h)) (joined p (set_nhost n) h)) ->
  spec (join_reply p) h Q.
Proof.
  intros Hp Hr Hh Hz Ht Hk HE HJ. unfold join_err in HE, HJ. rewrite Hz in HE, HJ.
  assert (Hback : forall r, r <> 0 -> Q (inl r) (gone p n h) ->
    spec (if negb (r =? 0) then do* nkfs_neigh_deref p in ret (inl r) else let* me := gets host_id in ret (inr me)) h Q).
  { intros r H0 HQ. rewrite (proj2 (Z.eqb_neq _ _)) by done. apply spec_bind. by eapply spec_neigh_last; [done..|rewrite Hh|]. }
  apply spec_bind, (spec_host_add_neigh p n); [done..| | |]; change (n_ip n, n_port n) with (addr n) in *.
  - intros Hs. rewrite bool_decide_true in HE by done. apply Hback; [done|]. by apply HE.
  - intros Hs Ha. rewrite Hs, (proj2 (Z.leb_le _ _)) in HE by done. apply Hback; [done|]. by apply HE.
  - intros Hs Ha. rewrite Hs, (proj2 (Z.leb_gt _ _)) in HJ by done. apply spec_bind, spec_gets, spec_ret. by apply HJ.
Qed.

Definition handshake_err (b : bool) (net : nkfs_obj_id) (ip port : Z) (h : nkfs_host) : Z :=
  if negb (nkfs_obj_id_cmp net (net_id h) =? 0) then - EINVAL else join_err b ip port h.

(** No memory for the neighbour or for the identity. *)
Definition rfail2 (h : nkfs_host) : bool := rfail h (rtick h) || rfail h (S (rtick h)).

Lemma spec_neigh_handshake net o ip port h (Q : Z + nkfs_obj_id -> nkfs_host -> Prop) : routes (neigh_list h) h ->
  (forall r h', r <> 0 -> r = handshake_err (rfail2 h) net ip port h -> h' = h \/ h' = ticked h \/ h' = ticked (ticked h) -> Q (inl r) h') ->
  (forall p h', handshake_err (rfail2 h) net ip port h = 0 -> nobjs h !! p = None ->
     tied p (new_neigh ip port) o (joined p (new_neigh ip port) (ticked (ticked h))) h' -> Q (inr (host_id h)) h') ->
  spec (nkfs_neigh_handshake net o ip port) h Q.
Proof.
  intros Hr HE HJ. unfold handshake_err in *. apply spec_bind, spec_gets. destruct (negb _) eqn:En; [apply spec_ret, HE; [done|done|by left]|].
  unfold rfail2, join_err in HE, HJ. destruct ((ip =? 0) || (port =? 0)) eqn:Ez; [apply spec_ret, HE; [done|done|by left]|].
  apply spec_bind, spec_neigh_alloc; [intros Ef; apply spec_ret, HE; [done|by rewrite Ef|by (right; left)]|].
  intros p Ef. rewrite Ef in HE, HJ. cbn [orb] in HE, HJ. revert p.
  intros p Hp. apply spec_bind. eapply spec_upd_neigh; [cbn; apply lookup_insert_eq|]. cbn [nobjs with_nobjs]. rewrite insert_insert_eq.
  set (n := MkNeigh 1 None false false ip port false false false 0 0 0). set (h1 := with_nobjs (<[p := n]> (nobjs h)) (ticked h)).
  match goal with |- spec _ ?s _ => change s with h1 end.
  apply spec_bind, spec_lookup_or_create; [exact (routes_ids_ok _ _ Hr)|..].
  - intros Ef2. apply spec_bind. eapply spec_neigh_last; [cbn; apply lookup_insert_eq|done..|]. apply spec_ret. unfold gone, h1. cbn. rewrite delete_insert_eq, delete_id by done.
    apply HE; [done|by rewrite (Ef2 : rfail h (S (rtick h)) = true)|by (right; right)].
  - intros q i Ef2 Hq Hi. cbn in Hq, Hi, Ef2. rewrite Ef2 in HE, HJ. destruct (r_hobj _ _ Hr _ _ Hi) as (I1 & I2 & _ & I4).
    assert (Href : 0 < h_ref i) by (destruct (h_neighs i); [done|cbn in I1; lia]).
    assert (Hni : p ∉ h_neighs i). { intros Hin. destruct (proj2 (r_hid _ _ Hr p q)) as (m & ? & ?); [by exists i|]. congruence. }
    apply spec_bind. eapply spec_attach; [cbn; apply lookup_insert_eq|done|cbn; apply lookup_insert_eq|]. cbn. rewrite !insert_insert_eq.
    apply spec_bind. eapply spec_upd_neigh; [cbn; apply lookup_insert_eq|]. cbn. rewrite !insert_insert_eq.
    set (nb := MkNeigh 1 (Some q) false false ip port true true false 0 0 0).
    match goal with |- spec _ ?s _ => change s with
      (with_hobjs (<[q := set_hneighs (h_neighs i ++ [p]) (set_href (h_ref i + 1) i)]> (hobjs h)) (with_nobjs (<[p := nb]> (nobjs h)) (ticked (ticked h)))) end.
    apply (spec_join_reply p nb); [cbn; apply lookup_insert_eq|done|done|done| | | |].
    + intros k r Hk. apply (routes_tree_ok _ _ _ _ Hr Hp k r Hk).
    + intros r [= <-]. cbn. eexists. rewrite lookup_insert_eq. split; [done|]. cbn. split_and!; [lia|done|]. apply (r_ids _ _ Hr) in Hq as (j & ? & Hj).
      simplify_eq. apply (r_ids _ _ Hr). eauto.
    + intros r H0 Er. change (r = join_err false ip port h) in Er. unfold gone. cbn. rewrite lookup_insert_eq. cbn. rewrite (proj2 (Z.eqb_neq _ _)) by lia. cbn.
      rewrite delete_insert_eq, delete_id, insert_insert_eq, filter_last by done.
      rewrite (insert_id (hobjs h) q); [|rewrite Hi; destruct i as [rf hb hl ho]; cbn; by replace (rf + 1 - 1) with rf by lia].
      unfold join_err in Er. rewrite Ez in Er. specialize (HE r (ticked (ticked h)) H0 Er). destruct h; apply HE; by right; right.
    + intros Hj. change (join_err false ip port h = 0) in Hj. unfold join_err in Hj. rewrite Ez in Hj. apply (HJ p); [done|done|]. unfold joined. cbn. rewrite insert_insert_eq.
      eapply eq_ind; [apply (tied_known _ _ _ _ q i); cbn; done|]. cbn. by rewrite !insert_insert_eq.
  - intros q Ef2 Hq Hi. cbn in Hq, Hi, Ef2. rewrite Ef2 in HE, HJ.
    apply spec_bind. eapply spec_attach; [cbn; apply lookup_insert_eq|done|cbn; apply lookup_insert_eq|]. cbn. rewrite !insert_insert_eq.
    apply spec_bind. eapply spec_upd_neigh; [cbn; apply lookup_insert_eq|]. cbn. rewrite !insert_insert_eq.
    set (nb := MkNeigh 1 (Some q) false false ip port true true false 0 0 0).
    match goal with |- spec _ ?s _ => change s with
      (with_hobjs (<[q := MkHid 1 true [p] o]> (hobjs h)) (with_ids (<[id_pair o := q]> (host_ids h)) (host_ids_active h + 1) (with_nobjs (<[p := nb]> (nobjs h)) (ticked (ticked h))))) end.
    apply (spec_join_reply p nb); [cbn; apply lookup_insert_eq|done|done|done| | | |].
    + intros k r Hk. apply (routes_tree_ok _ _ _ _ Hr Hp k r Hk).
    + intros r [= <-]. cbn. eexists. rewrite lookup_insert_eq. split; [done|]. cbn. split_and!; [lia|done|]. apply lookup_insert_eq.
    + intros r H0 Er. change (r = join_err false ip port h) in Er. unfold gone. cbn. rewrite lookup_insert_eq. cbn.
      rewrite !delete_insert_eq, !delete_id by done. replace (host_ids_active h + 1 - 1) with (host_ids_active h) by lia.
      unfold join_err in Er. rewrite Ez in Er. specialize (HE r (ticked (ticked h)) H0 Er). destruct h; apply HE; by right; right.
    + intros Hj. change (join_err false ip port h = 0) in Hj. unfold join_err in Hj. rewrite Ez in Hj. apply (HJ p); [done|done|]. unfold joined. cbn. rewrite insert_insert_eq.
      eapply eq_ind; [apply (tied_new _ _ _ _ q); cbn; done|]. cbn. by rewrite !insert_insert_eq.
Qed.

End RouteCalls.
