(* ===== verification/RouteAsk.v ===== *)
(** * The side that asks, and the work queue

    A host connects to a neighbour, exchanges one packet with it and closes the
    connection.  Every call keeps the books and the connections of the host in
    order whatever the peer answers, but for one reply: [add_neighs] reads as
    many neighbours as the peer says it sent. *)

From Stdlib Require Import ZArith Lia.
From coqutil Require Import Byte.
From stdpp Require Import base list gmap.
From S2P Require Import Prelude XXHash Bytes StMonad Csum Mem CharHex ObjId NetPkt Route RouteSpec RouteOps.
Import XXHash Bytes StMonad Csum ObjId NetPkt Route RouteSpec RouteOps RouteCalls.
Local Open Scope Z_scope.
Local Open Scope stm_scope.

Module RouteAsk.

Definition inv_at (c : option nat) (h : nkfs_host) : Prop := routes (neigh_list h) h /\ calls c h /\ queued h.

Fixpoint ticks (k : nat) (h : nkfs_host) : nkfs_host :=
  match k with
  | O => h
  | S k => ticked (ticks k h)
  end.

Lemma ticks_same k h : same_books h (ticks k h) /\ neigh_list (ticks k h) = neigh_list h /\ wq (ticks k h) = wq h /\ rfail (ticks k h) = rfail h /\
  net_id (ticks k h) = net_id h /\ host_id (ticks k h) = host_id h.
Proof. induction k as [|k IH]; [done|]. exact IH. Qed.

Lemma inv_same c h h' : same_books h h' -> neigh_list h' = neigh_list h -> wq h' = wq h -> inv_at c h -> inv_at c h'.
Proof.
  intros B El Ew (Hr & Hc & Hq). split_and!; [rewrite El; by apply (routes_same _ h)| |]; destruct B as (_ & _ & _ & _ & En & _).
  - intros p n. rewrite En. apply Hc.
  - intros w p. rewrite En, Ew. apply Hq.
Qed.

Lemma inv_ticks c k h : inv_at c h -> inv_at c (ticks k h).
Proof. destruct (ticks_same k h) as (? & ? & ? & _). by apply inv_same. Qed.

Lemma inv_joined c p ip port h : inv_at c h -> nobjs h !! p = None -> c <> Some p -> forall b, join_err b ip port h = 0 ->
  inv_at c (joined p (new_neigh ip port) h).
Proof.
  intros (Hr & Hc & Hq) Hp Hcp b Hj. split_and!; [by apply (routes_joined p ip port h Hr Hp b)| |].
  - intros r n. cbn. rewrite lookup_insert. case_decide; [|apply Hc]. intros [= <-]. subst. by rewrite bool_decide_false.
  - intros w r Hw Ht. cbn. destruct (Hq w r Hw Ht) as [n Hn]. rewrite lookup_insert_ne by congruence. eauto.
Qed.

Lemma tied_rest p n o h h' : tied p n o h h' -> (exists q, nobjs h' = <[p := bound q n]> (nobjs h)) /\ neigh_list h' = neigh_list h /\ wq h' = wq h.
Proof. intros []; cbn; eauto. Qed.

Lemma inv_tied c p n o h h' : inv_at c h -> nobjs h !! p = Some n -> n_hid n = None -> tied p n o h h' -> inv_at c h'.
Proof.
  intros (Hr & Hc & Hq) Hp Hn Ht. destruct (tied_rest _ _ _ _ _ Ht) as ([q Eo] & El & Ew). split_and!.
  - rewrite El. by eapply routes_tied.
  - intros r m. rewrite Eo, lookup_insert. case_decide; [subst r|apply Hc]. intros [= <-]. cbn. by apply Hc.
  - intros w r. rewrite Ew, Eo. intros Hw Ht'. apply lookup_insert_is_Some'. right. by eapply Hq.
Qed.

(** A neighbour changes in what the books do not record. *)
Lemma inv_upd c c' h p n n' : inv_at c h -> nobjs h !! p = Some n -> addr n' = addr n -> n_hid n' = n_hid n ->
  n_ref n' = n_ref n -> n_host n' = n_host n -> n_inited n' = n_inited n -> n_shaked n' = n_shaked n ->
  (forall r m, <[p := n']> (nobjs h) !! r = Some m -> n_con m = bool_decide (c' = Some r)) ->
  inv_at c' (with_nobjs (<[p := n']> (nobjs h)) h).
Proof.
  intros (Hr & Hc & Hq) Hp H1 H2 H3 H4 H5 H6 H7. destruct (r_neigh _ _ Hr _ _ Hp) as (G1 & G2 & G3 & _). split_and!.
  - apply (routes_upd _ _ _ n); [exact Hr|exact Hp|congruence..].
  - exact H7.
  - intros w r Hw Ht. cbn. apply lookup_insert_is_Some'. right. by eapply Hq.
Qed.

(** Connecting, disconnecting, and changes that leave the connection as it is. *)
Lemma inv_open h p n : inv_at None h -> nobjs h !! p = Some n -> inv_at (Some p) (with_nobjs (<[p := set_ncon true n]> (nobjs h)) h).
Proof.
  intros Hi Hp. eapply inv_upd; [done..|]. intros r m. rewrite lookup_insert. destruct Hi as (_ & Hc & _). case_decide as E.
  - intros [= <-]. by rewrite bool_decide_true by congruence.
  - intros Hm. rewrite (Hc _ _ Hm). by rewrite !bool_decide_false by congruence.
Qed.

Lemma inv_close h p n : inv_at (Some p) h -> nobjs h !! p = Some n -> inv_at None (with_nobjs (<[p := set_ncon false n]> (nobjs h)) h).
Proof.
  intros Hi Hp. eapply inv_upd; [done..|]. intros r m. rewrite lookup_insert. destruct Hi as (_ & Hc & _). case_decide as E.
  - by intros [= <-].
  - intros Hm. rewrite (Hc _ _ Hm). by rewrite !bool_decide_false by congruence.
Qed.

Lemma inv_flags c h p n n' : inv_at c h -> nobjs h !! p = Some n -> addr n' = addr n -> n_hid n' = n_hid n ->
  n_ref n' = n_ref n -> n_host n' = n_host n -> n_inited n' = n_inited n -> n_shaked n' = n_shaked n -> n_con n' = n_con n ->
  inv_at c (with_nobjs (<[p := n']> (nobjs h)) h).
Proof.
  intros Hi Hp H1 H2 H3 H4 H5 H6 H7. eapply inv_upd; [done..|]. destruct Hi as (_ & Hc & _). intros r m. rewrite lookup_insert. case_decide; [|apply Hc].
  intros [= <-]. subst. rewrite H7. by apply Hc.
Qed.

(** ** One exchange with a neighbour *)

Lemma spec_with_con p n pr (mk : M nkfs_net_pkt) k h (Q : Z -> nkfs_host -> Prop) : inv_at None h -> nobjs h !! p = Some n ->
  (con_connect pr <> 0 -> Q (con_connect pr) h) ->
  (con_connect pr = 0 -> (exists t, rfail h t = true) -> forall j, Q 0 (ticks j h)) ->
  (con_connect pr = 0 -> spec (let* req := mk in k (exchange pr req)) (with_nobjs (<[p := set_ncon true n]> (nobjs h)) (ticks 2 h))
    (fun r h' => exists n', nobjs h' !! p = Some n' /\ Q r (with_nobjs (<[p := set_ncon false n']> (nobjs h')) h'))) ->
  spec (with_con p pr mk k) h Q.
Proof.
  intros Hi Hp HE HN HK. apply spec_bind, (spec_get_neigh _ n); [done|].
  assert (Hn : n_con n = false) by (destruct Hi as (_ & Hc & _); by rewrite (Hc _ _ Hp)).
  apply spec_bind, spec_bug_on; [done|]. destruct (Z.eqb_spec (con_connect pr) 0) as [E|E]; [|apply spec_ret; by apply HE].
  specialize (HN E). specialize (HK E). apply spec_bind, (spec_upd_neigh _ _ n); [done|].
  assert (Hback : forall j, (exists t, rfail h t = true) -> spec (do* nkfs_neigh_close p in ret 0) (with_nobjs (<[p := set_ncon true n]> (nobjs h)) (ticks j h)) Q).
  { intros j Hf. apply spec_bind. eapply spec_upd_neigh; [cbn; apply lookup_insert_eq|]. apply spec_ret. cbn. rewrite insert_insert_eq, insert_id.
    - destruct (ticks_same j h) as ((_ & _ & _ & _ & En & _) & _). specialize (HN Hf j). rewrite <- En. by destruct (ticks j h).
    - rewrite Hp. destruct n; cbn in *; by subst. }
  apply spec_bind, spec_bind, spec_host_rfails. destruct (rfail _ _) eqn:Ef1; [apply spec_ret, (Hback 1%nat); by eexists|]. apply spec_bind, spec_host_rfails. destruct (rfail _ (rtick (with_rtick _ _))) eqn:Ef2; [apply spec_ret, (Hback 2%nat); by eexists|].
  eapply spec_mono; [exact HK|]. intros r h' (n' & Hn' & HQ). apply spec_bind. eapply spec_upd_neigh; [done|]. by apply spec_ret.
Qed.

Section Endian.
Context (e : XXH_endianess).

(** ** The handshake, asking *)

(** The peer is there, answers, and there is memory. *)
Definition can_shake (n : nkfs_neigh) (pr : peer) (h : nkfs_host) : Prop :=
  n_shaked n = false /\ (forall t, rfail h t = false) /\ con_connect pr = 0 /\
  exists ip port reply, server_select_one pr = inr (ip, port) /\ ip <> 0 /\ port <> 0 /\
    exchange pr (handshake_req e (net_id h) (host_id h) ip port) = inr reply.

(** What is known after the handshake with [p]: nothing new, or the identity of
    the peer. *)
Definition shaken (p : nat) (n : nkfs_neigh) (pr : peer) (h : nkfs_host) (r : Z) (h' : nkfs_host) : Prop :=
  (~ can_shake n pr h /\ exists k, h' = ticks k h) \/
  r = 0 /\ n_shaked n = false /\ exists ip port reply, server_select_one pr = inr (ip, port) /\
    exchange pr (handshake_req e (net_id h) (host_id h) ip port) = inr reply /\ tied p n (id_at e 40 (u reply)) (ticks 3 h) h'.

Lemma spec_do_handshake p n pr h : inv_at None h -> nobjs h !! p = Some n ->
  spec (nkfs_neigh_do_handshake e p pr) h (fun r h' => shaken p n pr h r h').
Proof.
  intros Hi Hp. pose proof Hi as (Hr & Hc & _). destruct (r_neigh _ _ Hr _ _ Hp) as (N1 & N2 & N3 & N4).
  assert (Hcon : n_con n = false) by by rewrite (Hc _ _ Hp).
  assert (Hsame : forall r k, ~ can_shake n pr h -> shaken p n pr h r (ticks k h)) by (intros r k Hno; left; split; [done|by exists k]).
  apply spec_bind, (spec_get_neigh _ n); [done|]. rewrite N3. cbn [negb]. destruct (n_shaked n) eqn:Es; [apply spec_ret, (Hsame _ 0%nat); by intros (? & _); congruence|].
  destruct (server_select_one pr) as [err|[ip port]] eqn:Esrv; [apply spec_ret, (Hsame _ 0%nat); intros (_ & _ & _ & ? & ? & ? & ? & _); congruence|].
  destruct ((ip =? 0) || (port =? 0)) eqn:Ez.
  { apply spec_ret, (Hsame _ 0%nat). intros (_ & _ & _ & i & j & ? & Eij & Hi0 & Hj0 & _). rewrite Esrv in Eij. injection Eij as <- <-.
    by rewrite (proj2 (Z.eqb_neq ip 0)), (proj2 (Z.eqb_neq port 0)) in Ez. }
  apply spec_bind, spec_gets, spec_bind, spec_gets.
  assert (Hh : n_hid n = None) by (destruct (n_hid n); [by rewrite bool_decide_true in N4 by eauto|done]).
  apply (spec_with_con _ n); [done|done|intros Hc0; apply (Hsame _ 0%nat); by intros (_ & _ & ? & _)|intros _ [t Hf] j; apply Hsame; intros (_ & Hno & _); by rewrite Hno in Hf|].
  intros _. apply spec_bind, spec_ret.
  assert (Hback : forall r j, ~ can_shake n pr h -> exists n', nobjs (with_nobjs (<[p := set_ncon true n]> (nobjs h)) (ticks j h)) !! p = Some n' /\
    shaken p n pr h r (with_nobjs (<[p := set_ncon false n']> (<[p := set_ncon true n]> (nobjs h))) (with_nobjs (<[p := set_ncon true n]> (nobjs h)) (ticks j h)))).
  { intros r j Hno. eexists. split; [cbn; apply lookup_insert_eq|]. rewrite insert_insert_eq. left. split; [done|]. exists j. rewrite insert_id.
    - destruct (ticks_same j h) as ((_ & _ & _ & _ & En & _) & _). rewrite <- En at 1. apply with_nobjs_back.
    - rewrite Hp. destruct n; cbn in *; by subst. }
  destruct (exchange _ _) as [err|reply] eqn:Ex.
  { apply spec_ret, (Hback _ 2%nat). intros (_ & _ & _ & i & j & rp & Eij & _ & _ & Ex'). rewrite Esrv in Eij. injection Eij as <- <-. congruence. }
  set (o := id_at e 40 (u reply)). apply spec_bind, spec_lookup_or_create; [exact (routes_ids_ok _ _ Hr)|intros Hf; change (rfail h (S (S (rtick h))) = true) in Hf; apply spec_ret, (Hback _ 3%nat); intros (_ & Hno & _); by rewrite Hno in Hf|..].
  - intros q i _ Hq Hi'. apply spec_bind. eapply spec_attach; [cbn; apply lookup_insert_eq|done|cbn; apply lookup_insert_eq|]. cbn. rewrite !insert_insert_eq.
    apply spec_bind. eapply spec_upd_neigh; [cbn; apply lookup_insert_eq|]. apply spec_ret. cbn. rewrite !insert_insert_eq. eexists. split; [apply lookup_insert_eq|].
    rewrite insert_insert_eq. right. split_and!; [done|done|]. exists ip, port, reply. split_and!; [done|done|]. fold o.
    eapply eq_ind; [apply (tied_known _ _ _ _ q i); [exact Hq|exact Hi']|]. cbn. destruct n; cbn in *; by subst.
  - intros q _ Hq Hi'. apply spec_bind. eapply spec_attach; [cbn; apply lookup_insert_eq|done|cbn; apply lookup_insert_eq|]. cbn. rewrite !insert_insert_eq.
    apply spec_bind. eapply spec_upd_neigh; [cbn; apply lookup_insert_eq|]. apply spec_ret. cbn. rewrite !insert_insert_eq. eexists. split; [apply lookup_insert_eq|].
    rewrite insert_insert_eq. right. split_and!; [done|done|]. exists ip, port, reply. split_and!; [done|done|]. fold o.
    eapply eq_ind; [apply (tied_new _ _ _ _ q); [exact Hq|exact Hi']|]. cbn. destruct n; cbn in *; by subst.
Qed.

Lemma inv_shaken p n pr h r h' : inv_at None h -> nobjs h !! p = Some n -> shaken p n pr h r h' -> inv_at None h'.
Proof.
  intros Hi Hp [[_ [k ->]]|(_ & Hs & ip & port & reply & _ & _ & Ht)]; [by apply inv_ticks|].
  pose proof Hi as (Hr & _). destruct (r_neigh _ _ Hr _ _ Hp) as (_ & _ & _ & N4).
  eapply inv_tied; [by apply (inv_ticks _ 3)|exact Hp| |exact Ht].
  destruct (n_hid n); [|done]. rewrite bool_decide_true in N4 by eauto. congruence.
Qed.

(** ** The heartbeat, asking *)

(** Neighbours join, nothing else happens. *)
Record grown (h h' : nkfs_host) : Prop := {
  g_nobjs : nobjs h ⊆ nobjs h';
  g_neighs : neighs h ⊆ neighs h';
  g_active : neighs_active h <= neighs_active h';
  g_hobjs : hobjs h' = hobjs h;
  g_rest : rfail h' = rfail h /\ wq h' = wq h /\ net_id h' = net_id h /\ host_id h' = host_id h
}.

#[local] Instance grown_preorder : PreOrder grown.
Proof.
  split.
  - intros h. split; try done.
  - intros h1 h2 h3 [] []. split; [by etrans|by etrans|lia|congruence|naive_solver congruence].
Qed.

Lemma grown_ticks k h : grown h (ticks k h).
Proof. destruct (ticks_same k h) as ((E1 & E2 & _ & _ & E5 & E6) & _ & E7 & E8 & E9 & E10). split; rewrite ?E1, ?E2, ?E5; done. Qed.

Lemma grown_joined p n h : nobjs h !! p = None -> neighs h !! addr n = None -> grown h (joined p n h).
Proof. intros Hp Ha. split; cbn; [by apply insert_subseteq|by apply insert_subseteq|lia|done|done]. Qed.

(** The address is known, or the host knows as many as it may. *)
Definition known (h : nkfs_host) (ip port : Z) : Prop := is_Some (neighs h !! (ip, port)) \/ neighs_active h = NKFS_ROUTE_MAX_NEIGHS.

Lemma known_grown c h h' ip port : inv_at c h' -> grown h h' -> known h ip port -> known h' ip port.
Proof.
  intros (Hr & _) [? Hn Ha _ _] [[q Hq]|Hf]; [left; exists q; by eapply lookup_weaken|right].
  pose proof (r_max _ _ Hr). lia.
Qed.

Lemma spec_add_one c ip port h (Q : Z -> nkfs_host -> Prop) : inv_at c h -> (forall p, c = Some p -> is_Some (nobjs h !! p)) ->
  (forall r h', inv_at c h' -> grown h h' ->
     (ip <> 0 -> port <> 0 -> rfail h (rtick h) = false -> known h' ip port) -> Q r h') ->
  spec (nkfs_route_neigh_add ip port) h Q.
Proof.
  intros Hi Hc HQ. pose proof Hi as (Hr & _). apply (spec_route_neigh_add ip port _ _ _ Hr).
  - intros r h' H0 Er Hh. assert (Hk : h' = ticks 0 h \/ h' = ticks 1 h) by done.
    assert (Hi' : inv_at c h') by (destruct Hk as [->| ->]; by apply inv_ticks). assert (Hg : grown h h') by (destruct Hk as [->| ->]; apply grown_ticks).
    apply HQ; [done|done|]. intros Hip Hport Hf. apply (known_grown c h); [done|done|]. subst r. unfold join_err in H0. rewrite Hf in H0.
    rewrite (proj2 (Z.eqb_neq ip 0)), (proj2 (Z.eqb_neq port 0)) in H0 by done. cbn in H0. case_bool_decide; [by left|]. right.
    pose proof (r_max _ _ Hr). destruct (Z.leb_spec NKFS_ROUTE_MAX_NEIGHS (neighs_active h)); [lia|done].
  - intros p Hj Hp. apply HQ.
    + eapply inv_joined; [by apply (inv_ticks _ 1)|done| |exact Hj]. intros ->. destruct (Hc p eq_refl). congruence.
    + etrans; [apply (grown_ticks 1)|]. apply grown_joined; [done|]. unfold join_err in Hj. repeat (destruct (_ || _) || destruct (rfail _ _)); [done..|].
      case_bool_decide as Hs; [done|]. by apply eq_None_not_Some.
    + intros _ _ _. left. cbn. rewrite lookup_insert_eq. eauto.
Qed.

Definition peer_ip (j : Z) (un : list byte) : Z := u32_at e (64 + 8 * Z.to_nat j) un.
Definition peer_port (j : Z) (un : list byte) : Z := int_at e (64 + 8 * Z.to_nat j + 4) un.

Lemma spec_add_neighs c un n : forall i h (Q : unit -> nkfs_host -> Prop), 0 <= i -> i + Z.of_nat n <= NKFS_NET_PKT_MAX_NEIGHS ->
  inv_at c h -> (forall p, c = Some p -> is_Some (nobjs h !! p)) ->
  (forall h', inv_at c h' -> grown h h' ->
     ((forall t, rfail h t = false) -> forall j, i <= j < i + Z.of_nat n -> peer_ip j un <> 0 -> peer_port j un <> 0 -> known h' (peer_ip j un) (peer_port j un)) ->
     Q tt h') -> spec (add_neighs e n i un) h Q.
Proof.
  induction n as [|n IH]; intros i h Q H0 Hn Hi Hc HQ.
  { apply spec_ret, HQ; [done|done|]. intros _ j Hj. lia. }
  cbn [add_neighs]. rewrite (proj2 (Z.leb_gt _ _)) by lia. apply spec_bind. eapply spec_add_one; [done|done|]. intros r h1 Hi1 Hg1 Hk1.
  apply IH; [lia|lia|done| |].
  { intros p Ep. destruct (Hc p Ep) as [m Hm]. exists m. by eapply lookup_weaken; [|apply Hg1]. }
  intros h2 Hi2 Hg2 Hk2. apply HQ; [done|by etrans|]. intros Hf j Hj Hip Hport. destruct (decide (j = i)) as [->|Hji].
  - apply (known_grown c h1); [done|done|]. by apply Hk1.
  - apply Hk2; [|lia|done|done]. destruct (g_rest _ _ Hg1) as (Ef & _). by rewrite Ef.
Qed.

(** What a heartbeat with [p] leaves, by how it ended. *)
Definition timed (now : Z * Z) (n : nkfs_neigh) : nkfs_neigh := set_hbt (fst now) (n_hbt_delay n) (n_hbt_err n) n.
Definition late (now : Z * Z) (r : Z) (n : nkfs_neigh) : nkfs_neigh := set_hbt (fst now) (n_hbt_delay n) r (set_state (n_inited n) (n_shaked n) false n).
Definition alive (now : Z * Z) (n : nkfs_neigh) : nkfs_neigh :=
  set_hbt (fst now) (u64 (snd now - fst now)) (n_hbt_err n) (set_state (n_inited n) (n_shaked n) true n).

Inductive beat (p : nat) (n : nkfs_neigh) (now : Z * Z) (pr : peer) (h : nkfs_host) : Z -> nkfs_host -> Prop :=
| beat_unshaken : n_shaked n = false -> beat p n now pr h 0 h
| beat_failed r k : n_shaked n = true -> r <> 0 -> beat p n now pr h r (with_nobjs (<[p := late now r n]> (nobjs h)) (ticks k h))
| beat_no_memory k : n_shaked n = true -> beat p n now pr h 0 (with_nobjs (<[p := timed now n]> (nobjs h)) (ticks k h))
| beat_ok q i reply h1 : n_shaked n = true -> n_hid n = Some q -> hobjs h !! q = Some i ->
    exchange pr (heartbeat_req e (net_id h) (host_id h) (h_id i)) = inr reply ->
    neighs h ⊆ neighs h1 -> hobjs h1 = hobjs h -> (forall r m, r <> p -> nobjs h !! r = Some m -> nobjs h1 !! r = Some m) ->
    ((forall t, rfail h t = false) -> forall j, 0 <= j < int_at e 192 (u reply) -> peer_ip j (u reply) <> 0 -> peer_port j (u reply) <> 0 ->
       known h1 (peer_ip j (u reply)) (peer_port j (u reply))) ->
    nobjs h1 !! p = Some (alive now n) -> beat p n now pr h 0 h1.

Lemma spec_do_heartbeat p n now pr h : inv_at None h -> nobjs h !! p = Some n ->
  (forall reply, con_recv pr = inr reply -> int_at e 192 (u reply) <= NKFS_NET_PKT_MAX_NEIGHS) ->
  spec (nkfs_neigh_do_heartbeat e p now pr) h (fun r h' => inv_at None h' /\ beat p n now pr h r h').
Proof.
  intros Hi Hp Hmax. pose proof Hi as (Hr & Hc & _). destruct (r_neigh _ _ Hr _ _ Hp) as (N1 & N2 & N3 & N4).
  assert (Hcon : n_con n = false) by by rewrite (Hc _ _ Hp).
  apply spec_bind, (spec_get_neigh _ n); [done|]. rewrite N3. cbn [negb orb]. apply spec_bind. destruct (n_shaked n) eqn:Es; cbn [negb].
  2: { apply spec_ret, spec_bind, spec_ret, spec_ret. split; [done|by constructor]. }
  apply spec_bind, (spec_upd_neigh _ _ n); [done|]. fold (timed now n). set (h0 := with_nobjs (<[p := timed now n]> (nobjs h)) h).
  assert (Hi0 : inv_at None h0) by (by eapply inv_flags).
  apply spec_bind, spec_gets, spec_bind, spec_gets. symmetry in N4. apply bool_decide_eq_true in N4 as [q Eq]. rewrite Eq.
  destruct (proj1 (r_hid _ _ Hr p q)) as (i & Hq & _); [by exists n|].
  (* an error, or no memory *)
  assert (Hend : forall r k, spec (do* (if negb (r =? 0) then upd_neigh p (fun n => set_hbt (n_hbt_time n) (n_hbt_delay n) r (set_state (n_inited n) (n_shaked n) false n)) else ret tt) in ret r)
    (ticks k h0) (fun r h' => inv_at None h' /\ beat p n now pr h r h')).
  { intros r k. assert (E : ticks k h0 = with_nobjs (<[p := timed now n]> (nobjs h)) (ticks k h)) by (unfold h0; clear; induction k as [|k IH]; [done|cbn; by rewrite IH]).
    assert (Hk : nobjs (ticks k h0) !! p = Some (timed now n)) by (rewrite E; apply lookup_insert_eq).
    destruct (Z.eqb_spec r 0) as [->|H0]; cbn [negb].
    - apply spec_bind, spec_ret, spec_ret. split; [by apply inv_ticks|]. rewrite E. by constructor.
    - apply spec_bind. eapply spec_upd_neigh; [exact Hk|]. apply spec_ret. split.
      + by eapply inv_flags; [by apply inv_ticks|exact Hk|..].
      + rewrite E. cbn. rewrite insert_insert_eq. exact (beat_failed p n now pr h r k Es H0). }
  apply (spec_with_con _ (timed now n)); [done|apply lookup_insert_eq|intros _; apply (Hend _ 0%nat)|intros _ _ j; apply Hend|]. intros _.
  apply spec_bind, spec_bind. apply (spec_get_hid _ i); [exact Hq|]. apply spec_ret.
  destruct (exchange _ _) as [err|reply] eqn:Ex.
  { apply spec_ret. eexists. split; [cbn; apply lookup_insert_eq|]. cbn. rewrite !insert_insert_eq. match goal with |- spec _ ?s _ => replace s with (ticks 2 h0); [apply Hend|] end.
    unfold h0, timed. destruct n; cbn in *; by subst. }
  set (hc := with_nobjs (<[p := set_ncon true (timed now n)]> (nobjs h)) (ticks 2 h)).
  match goal with |- spec _ ?s _ => replace s with hc by (unfold hc, h0; cbn; by rewrite insert_insert_eq) end.
  assert (Hic : inv_at (Some p) hc).
  { eapply eq_ind; [eapply (inv_open (ticks 2 h0) p (timed now n)); [by apply inv_ticks|cbn; apply lookup_insert_eq]|]. unfold h0, hc. cbn. by rewrite insert_insert_eq. }
  assert (Hrecv : con_recv pr = inr reply).
  { unfold exchange in Ex. cbn zeta in Ex. destruct (negb _); [done|]. destruct (con_recv pr) as [|rp]; [done|]. destruct (negb _); congruence. }
  specialize (Hmax _ Hrecv). apply spec_bind. apply (spec_add_neighs (Some p)); [lia|unfold NKFS_NET_PKT_MAX_NEIGHS in *; lia|done|intros r [= <-]; cbn; rewrite lookup_insert_eq; eauto|].
  intros h1 Hi1 Hg Hk. assert (Hp1 : nobjs h1 !! p = Some (set_ncon true (timed now n))) by (eapply lookup_weaken; [|apply Hg]; cbn; apply lookup_insert_eq).
  apply spec_bind. eapply spec_upd_neigh; [exact Hp1|]. apply spec_ret. eexists. split; [cbn; apply lookup_insert_eq|]. apply spec_bind, spec_ret, spec_ret.
  cbn. rewrite insert_insert_eq. set (h2 := with_nobjs _ _).
  assert (E2 : h2 = with_nobjs (<[p := alive now n]> (nobjs h1)) h1) by (unfold h2, alive, timed; destruct n; cbn in *; by subst).
  rewrite E2. split.
  - eapply eq_ind; [eapply (inv_close (with_nobjs (<[p := set_ncon true (alive now n)]> (nobjs h1)) h1) p); [|cbn; apply lookup_insert_eq]|].
    + by eapply inv_flags.
    + cbn. rewrite insert_insert_eq. unfold alive. destruct n; cbn in *; by subst.
  - apply (beat_ok _ _ _ _ _ q i reply); try done; cbn.
    + apply Hg.
    + apply Hg.
    + intros r m Hrp Hm. rewrite lookup_insert_ne by done. eapply lookup_weaken; [|apply Hg]. cbn. by rewrite lookup_insert_ne.
    + intros Hf j Hj. apply Hk; [done|lia].
    + apply lookup_insert_eq.
Qed.

End Endian.

End RouteAsk.
