(* ===== verification/RouteHost.v ===== *)
(** * A host as a whole

    The side that is asked for a heartbeat, the list of neighbours as it is
    reported, the work queue and the timer, taking neighbours out, the end of a
    host, and all calls together as a transition system. *)

From Stdlib Require Import ZArith Lia.
From coqutil Require Import Byte.
From stdpp Require Import base list gmap relations.
From S2P Require Import Prelude XXHash Bytes StMonad Csum Mem CharHex ObjId NetPkt Route RouteSpec RouteOps RouteAsk.
Import XXHash Bytes StMonad Csum ObjId NetPkt Route RouteSpec RouteOps RouteCalls RouteAsk.
Local Open Scope Z_scope.
Local Open Scope stm_scope.

Module RouteHost.

(** ** The neighbours as they are reported *)

Definition id_of (h : nkfs_host) (n : nkfs_neigh) : nkfs_obj_id :=
  match n_hid n with
  | Some q => match hobjs h !! q with Some i => h_id i | None => Id 0 0 end
  | None => Id 0 0
  end.

Definition info_of (h : nkfs_host) (n : nkfs_neigh) : nkfs_neigh_info :=
  NeighInfo (n_ip n) (n_port n) (state_bits n) (id_of h n) (n_hbt_time n) (n_hbt_delay n).

Definition info_at (h : nkfs_host) (p : nat) : option nkfs_neigh_info := info_of h <$> nobjs h !! p.

Definition view (h : nkfs_host) : list nkfs_neigh_info := omap (info_at h) (neigh_list h).

Lemma spec_neigh_infos max h l0 : routes l0 h -> forall l got (Q : Z + list nkfs_neigh_info -> nkfs_host -> Prop), (forall p, p ∈ l -> p ∈ l0) -> Z.of_nat (length got) <= max ->
  Q (if max <? Z.of_nat (length got + length l) then inl (- ERANGE) else inr (got ++ omap (info_at h) l)) h -> spec (neigh_infos max l got) h Q.
Proof.
  intros Hr. induction l as [|p l IH]; intros got Q Hl Hg HQ; cbn [neigh_infos].
  { apply spec_ret. cbn in HQ. rewrite Nat.add_0_r, app_nil_r, (proj2 (Z.ltb_ge _ _)) in HQ by lia. exact HQ. }
  cbn [length] in HQ. destruct (Z.leb_spec max (Z.of_nat (length got))).
  { apply spec_ret. by rewrite (proj2 (Z.ltb_lt _ _)) in HQ by lia. }
  destruct (proj1 (r_mem _ _ Hr p)) as [n Hn]; [apply Hl; by left|]. apply spec_bind, (spec_get_neigh _ n); [done|]. apply spec_bind.
  assert (Hrec : spec (neigh_infos max l (got ++ [info_of h n])) h Q).
  { apply IH; [intros r Hr'; apply Hl; by right|rewrite length_app; cbn; lia|]. rewrite length_app. cbn [length]. unfold info_at in HQ at 1. cbn in HQ. rewrite Hn in HQ. cbn in HQ.
    rewrite <- app_assoc. cbn. by replace (length got + 1 + length l)%nat with (length got + S (length l))%nat by lia. }
  unfold info_of, id_of in Hrec. destruct (n_hid n) as [q|] eqn:Eq; [|by apply spec_ret].
  destruct (proj1 (r_hid _ _ Hr p q)) as (i & Hq & _); [by exists n|]. rewrite Hq in Hrec. apply spec_bind, (spec_get_hid _ i); [done|]. by apply spec_ret.
Qed.

(** ** The heartbeat, asked *)

(** The neighbour [p] is passed on: alive, neither this host nor the one that asks. *)
Definition advert (src me : nkfs_obj_id) (h : nkfs_host) (p : nat) : option (Z * Z) :=
  match nobjs h !! p with
  | Some n => if negb (nkfs_obj_id_cmp (id_of h n) me =? 0) && negb (nkfs_obj_id_cmp (id_of h n) src =? 0) && n_hbt_ok n then Some (addr n) else None
  | None => None
  end.

Definition all_shaken (h : nkfs_host) : Prop := forall p n, nobjs h !! p = Some n -> is_Some (n_hid n).

Definition linked (h : nkfs_host) (p : nat) : Prop := exists n q i, nobjs h !! p = Some n /\ n_hid n = Some q /\ hobjs h !! q = Some i.

Lemma spec_heartbeat_neighs src me max h l : forall got (Q : list (Z * Z) -> nkfs_host -> Prop),
  (forall p, p ∈ l -> linked h p) -> Z.of_nat (length got) <= max ->
  Q (got ++ take (Z.to_nat max - length got) (omap (advert src me h) l)) h -> spec (heartbeat_neighs src me max l got) h Q.
Proof.
  induction l as [|p l IH]; intros got Q Hl Hg HQ; cbn [heartbeat_neighs].
  { apply spec_ret. cbn in HQ. rewrite take_nil, app_nil_r in HQ. exact HQ. }
  destruct (Z.leb_spec max (Z.of_nat (length got))).
  { apply spec_ret. replace (Z.to_nat max - length got)%nat with 0%nat in HQ by lia. by rewrite take_0, app_nil_r in HQ. }
  destruct (Hl p) as (n & q & i & Hn & Eq & Hq); [by left|]. apply spec_bind, (spec_get_neigh _ n); [done|]. rewrite Eq.
  apply spec_bind, (spec_get_hid _ i); [done|]. cbn zeta. cbn in HQ. unfold advert in HQ at 1. rewrite Hn in HQ. unfold id_of in HQ at 1 2. rewrite Eq, Hq in HQ.
  apply IH; [intros r Hr'; apply Hl; by right| |]; destruct (_ && _); rewrite ?length_app; cbn [length]; try lia; try done.
  replace (Z.to_nat max - length got)%nat with (S (Z.to_nat max - (length got + 1))) in HQ by lia. cbn in HQ. rewrite <- app_assoc. exact HQ.
Qed.

(** Before the limit is reached, a neighbour without an identity is a null pointer. *)
Lemma heartbeat_neighs_crash src me max h l : forall got, Z.of_nat (length got + length l) <= max -> (forall p, p ∈ l -> exists n, nobjs h !! p = Some n) ->
  (forall p n q, nobjs h !! p = Some n -> n_hid n = Some q -> is_Some (hobjs h !! q)) ->
  (exists p n, p ∈ l /\ nobjs h !! p = Some n /\ n_hid n = None) -> heartbeat_neighs src me max l got h = Crash.
Proof.
  induction l as [|p l IH]; intros got Hg Hl Hh (r & m & Hr & Hm & Hn); [by apply not_elem_of_nil in Hr|]. cbn [heartbeat_neighs length] in *.
  rewrite (proj2 (Z.leb_gt _ _)) by lia. destruct (Hl p) as [n Hp]; [by left|]. unfold bind, get_neigh. rewrite Hp. destruct (n_hid n) as [q|] eqn:Eq; [|done].
  unfold get_hid. destruct (Hh _ _ _ Hp Eq) as [i Hi]. rewrite Hi. apply elem_of_cons in Hr as [->|Hr]; [congruence|].
  apply IH; [destruct (_ && _); rewrite ?length_app; cbn [length]; lia|intros x Hx; apply Hl; by right|done|eauto].
Qed.

(** A host is asked for a heartbeat by one it does not know, for another host, or from another net. *)
Definition heartbeat_refused (net src dst : nkfs_obj_id) (h : nkfs_host) : bool :=
  negb (nkfs_obj_id_cmp net (net_id h) =? 0) || negb (nkfs_obj_id_cmp dst (host_id h) =? 0) || bool_decide (host_ids h !! id_pair src = None).

Lemma with_hobjs_back m h : with_hobjs (hobjs h) (with_hobjs m h) = h.
Proof. by destruct h. Qed.

Lemma spec_neigh_heartbeat net src dst max h (Q : Z + nkfs_obj_id * list (Z * Z) -> nkfs_host -> Prop) : routes (neigh_list h) h -> 0 <= max ->
  heartbeat_refused net src dst h = true \/ all_shaken h ->
  Q (if heartbeat_refused net src dst h then inl (- EINVAL)
     else inr (host_id h, take (Z.to_nat max) (omap (advert src (host_id h) h) (neigh_list h)))) h ->
  spec (nkfs_neigh_heartbeat net src dst max) h Q.
Proof.
  intros Hr Hm Hs HQ. unfold heartbeat_refused in *. apply spec_bind, spec_gets, spec_bind, spec_gets. destruct (negb (nkfs_obj_id_cmp net _ =? 0)); [by apply spec_ret|].
  destruct (negb (nkfs_obj_id_cmp dst _ =? 0)); [by apply spec_ret|]. cbn [orb] in *. apply spec_bind, spec_bind, spec_gets.
  destruct (host_ids h !! id_pair src) as [q|] eqn:Eq; [|by apply spec_ret, spec_ret].
  rewrite bool_decide_false in * by done. destruct Hs as [|Hs]; [done|]. destruct (routes_ids_ok _ _ Hr _ _ Eq) as (i & Hi & Hri).
  apply spec_bind. eapply spec_hid_ref; [done|done|]. apply spec_ret, spec_bind, spec_gets, spec_bind.
  set (h1 := with_hobjs (<[q := set_href (h_ref i + 1) i]> (hobjs h)) h).
  assert (Ha : forall p, advert src (host_id h) h1 p = advert src (host_id h) h p).
  { intros p. unfold advert, id_of. cbn. destruct (nobjs h !! p) as [n|]; [|done]. destruct (n_hid n) as [r|]; [|done].
    rewrite lookup_insert. case_decide; [subst r|done]. by rewrite Hi. }
  apply spec_heartbeat_neighs; [|cbn; lia|].
  - intros p Hp. apply (r_mem _ _ Hr) in Hp as [n Hn]. destruct (Hs _ _ Hn) as [r Er]. destruct (proj1 (r_hid _ _ Hr p r)) as (j & Hj & _); [by exists n|].
    unfold linked. cbn. exists n, r. destruct (decide (r = q)) as [->|Hne]; [rewrite lookup_insert_eq; eauto|rewrite lookup_insert_ne by done; eauto].
  - rewrite (list_omap_ext _ (advert src (host_id h) h) (neigh_list h1) (neigh_list h)) by (apply Forall_Forall2_diag, Forall_forall; intros p _; apply Ha).
    rewrite Nat.sub_0_r. cbn [app]. apply spec_bind, spec_bug_on.
    { apply Z.ltb_ge. rewrite length_take. lia. }
    apply spec_bind. eapply spec_hid_deref; [cbn; apply lookup_insert_eq|cbn; lia|]. apply spec_ret. unfold h1. cbn. rewrite insert_insert_eq, insert_id.
    + rewrite with_hobjs_back. exact HQ.
    + rewrite Hi. destruct i as [rf hb hl ho]. cbn. by replace (rf + 1 - 1) with rf by lia.
Qed.

Lemma heartbeat_neighs_keeps src me max l : forall got h, ends (heartbeat_neighs src me max l got) h (fun _ h' => h' = h).
Proof.
  induction l as [|p l IH]; intros got h; cbn [heartbeat_neighs]; [by apply ends_ret|]. destruct (_ <=? _); [by apply ends_ret|].
  apply ends_bind. intros n h1 E. unfold get_neigh in E. destruct (nobjs h !! p); [injection E as <- <-|done].
  destruct (n_hid _) as [q|]; [|apply ends_crash]. apply ends_bind. intros i h2 E2. unfold get_hid in E2.
  destruct (hobjs h !! q); [injection E2 as <- <-|done]. apply IH.
Qed.

(** Whoever the neighbours are, a reply leaves the host as it was. *)
Lemma neigh_heartbeat_keeps net src dst max h : routes (neigh_list h) h -> ends (nkfs_neigh_heartbeat net src dst max) h (fun _ h' => h' = h).
Proof.
  intros Hr. apply ends_bind, ends_gets, ends_bind, ends_gets. destruct (negb _); [by apply ends_ret|]. destruct (negb _); [by apply ends_ret|].
  apply ends_bind, ends_bind, ends_gets. destruct (host_ids h !! id_pair src) as [q|] eqn:Eq; [|by apply ends_ret, ends_ret].
  destruct (routes_ids_ok _ _ Hr _ _ Eq) as (i & Hi & Hri). apply ends_bind, spec_ends. eapply spec_hid_ref; [done|done|].
  apply ends_ret, ends_bind, ends_gets, ends_bind. eapply ends_mono; [apply heartbeat_neighs_keeps|]. intros got h1 ->.
  apply ends_bind, ends_bug_on. intros _. apply ends_bind, spec_ends. eapply spec_hid_deref; [cbn; apply lookup_insert_eq|cbn; lia|].
  apply ends_ret. cbn. rewrite insert_insert_eq, insert_id, with_hobjs_back; [done|]. rewrite Hi. destruct i as [rf hb hl ho]. cbn. by replace (rf + 1 - 1) with rf by lia.
Qed.

Lemma neigh_infos_keeps max l : forall got h, ends (neigh_infos max l got) h (fun _ h' => h' = h).
Proof.
  induction l as [|p l IH]; intros got h; cbn [neigh_infos]; [by apply ends_ret|]. destruct (_ <=? _); [by apply ends_ret|].
  apply ends_bind. intros n h1 E. unfold get_neigh in E. destruct (nobjs h !! p); [injection E as <- <-|done].
  apply ends_bind. destruct (n_hid _) as [q|]; [|apply ends_ret, IH]. apply ends_bind. intros i h2 E2. unfold get_hid in E2.
  destruct (hobjs h !! q); [injection E2 as <- <-|done]. apply ends_ret, IH.
Qed.

(** ** The work queue and the timer *)

Lemma inv_queue c w h : inv_at c h -> (forall p, target w = Some p -> is_Some (nobjs h !! p)) -> inv_at c (with_wq (wq h ++ [w]) h).
Proof.
  intros (Hr & Hc & Hq) Hw. split_and!; [by apply (routes_same _ h)|exact Hc|]. intros v p. cbn. rewrite elem_of_app, list_elem_of_singleton.
  intros [Hv| ->]; [by apply Hq|by apply Hw].
Qed.

(** Works are queued, nothing else happens. *)
Definition more_work (h h' : nkfs_host) : Prop :=
  same_books h h' /\ neigh_list h' = neigh_list h /\ net_id h' = net_id h /\ host_id h' = host_id h.

Lemma spec_queue_work w h (Q : Z -> nkfs_host -> Prop) : inv_at None h -> (forall p, target w = Some p -> is_Some (nobjs h !! p)) ->
  (forall r h', inv_at None h' -> more_work h h' -> Q r h') -> spec (nkfs_host_queue_work w) h Q.
Proof.
  intros Hi Hw HQ. apply spec_bind, spec_host_rfails. destruct (rfail _ _); [apply spec_ret, HQ; [by apply (inv_ticks _ 1)|done]|].
  apply spec_bind, spec_modify, spec_ret, HQ; [by apply inv_queue; [apply (inv_ticks _ 1)|]|done].
Qed.

Lemma spec_queue_all want mk l : forall h (Q : unit -> nkfs_host -> Prop), inv_at None h -> (forall p, p ∈ l -> is_Some (nobjs h !! p)) ->
  (forall p, target (mk p) = Some p) -> (forall h', inv_at None h' -> more_work h h' -> Q tt h') -> spec (queue_all l want mk) h Q.
Proof.
  induction l as [|p l IH]; intros h Q Hi Hl Hmk HQ; cbn [queue_all]; [by apply spec_ret, HQ|].
  destruct (Hl p) as [n Hn]; [by left|]. apply spec_bind, (spec_get_neigh _ n); [done|].
  assert (Hrec : forall h', inv_at None h' -> more_work h h' -> spec (queue_all l want mk) h' Q).
  { intros h' Hi' (B & E1 & E2 & E3). assert (En : nobjs h' = nobjs h) by apply B. apply IH; [done|intros r Hr; rewrite En; apply Hl; by right|done|].
    intros h2 Hi2 (B2 & F1 & F2 & F3). apply HQ; [done|]. unfold more_work, same_books in *. naive_solver congruence. }
  apply spec_bind. destruct (want n); [|apply spec_ret, Hrec; done]. apply spec_bind, spec_queue_work; [done| |].
  - intros r. rewrite Hmk. intros [= <-]. eauto.
  - intros r h' Hi' Hm. by apply spec_ret, Hrec.
Qed.

Lemma routes_listed h p : inv_at None h -> p ∈ neigh_list h -> is_Some (nobjs h !! p).
Proof. intros (Hr & _). by apply (r_mem _ _ Hr). Qed.

Section Endian.
Context (e : XXH_endianess).

(** A peer that says it sends more neighbours than a packet holds is excluded. *)
Definition fair (pr : peer) : Prop := forall reply, con_recv pr = inr reply -> int_at e 192 (u reply) <= NKFS_NET_PKT_MAX_NEIGHS.

Lemma spec_work_func now pr h : inv_at None h -> (forall p q, wq h = Heartbeat p :: q -> fair pr) -> spec (nkfs_host_work_func e now pr) h (fun _ h' => inv_at None h').
Proof.
  intros Hi Hf. apply spec_bind, spec_gets. destruct (wq h) as [|w q] eqn:Eq; [by apply spec_ret|]. apply spec_bind, spec_modify. set (h1 := with_wq q h).
  assert (Hi1 : inv_at None h1).
  { destruct Hi as (Hr & Hc & Hq). split_and!; [by apply (routes_same _ h)|exact Hc|]. intros v p Hv. apply Hq. rewrite Eq. by right. }
  assert (Hw : forall p, target w = Some p -> is_Some (nobjs h1 !! p)). { destruct Hi as (_ & _ & Hq). intros p. apply Hq. rewrite Eq. by left. }
  destruct w as [| |p|p].
  - apply spec_bind, spec_gets, spec_queue_all; [done|intros p; by apply routes_listed|done|done].
  - apply spec_bind, spec_gets, spec_queue_all; [done|intros p; by apply routes_listed|done|done].
  - destruct (Hw p eq_refl) as [n Hn]. apply spec_bind. eapply spec_mono; [by apply (spec_do_handshake e p n)|]. intros r h' Hs. apply spec_ret. by eapply inv_shaken.
  - destruct (Hw p eq_refl) as [n Hn]. apply spec_bind. eapply spec_mono; [apply (spec_do_heartbeat e p n); [done|done|by eapply Hf]|]. intros r h' [Hs _]. by apply spec_ret.
Qed.

(** [m'] does what [m] does, whenever [m] comes back. *)
Definition follows {A} (m m' : M A) : Prop := forall h a h', m h = Done a h' -> m' h = Done a h'.

Lemma follows_refl {A} (m : M A) : follows m m.
Proof. by intros h a h'. Qed.

Lemma follows_bind {A B} (m m' : M A) (k k' : A -> M B) : follows m m' -> (forall a, follows (k a) (k' a)) -> follows (bind m k) (bind m' k').
Proof. intros Hm Hk h b h'. unfold bind. destruct (m h) as [a h1| | |] eqn:E; [|done..]. rewrite (Hm _ _ _ E). apply Hk. Qed.

(** A peer that sends its error or, instead of too many neighbours, nothing. *)
Definition muted (pr : peer) : peer :=
  Peer (server_select_one pr) (con_connect pr) (con_send pr) (match con_recv pr with inr reply => inl (err reply) | inl er => inl er end).

Lemma muted_fair pr : fair (muted pr).
Proof. intros reply. cbn. by destruct (con_recv pr). Qed.

(** Reading past the sixteenth neighbour does not come back. *)
Lemma add_neighs_too_many un n : forall i h a h', i <= NKFS_NET_PKT_MAX_NEIGHS < i + Z.of_nat n -> add_neighs e n i un h <> Done a h'.
Proof.
  induction n as [|n IH]; intros i h a h' Hn; [lia|]. cbn [add_neighs]. destruct (Z.leb_spec NKFS_NET_PKT_MAX_NEIGHS i); [done|].
  unfold bind. destruct (nkfs_route_neigh_add _ _ h) as [r h1| | |]; [|done..]. apply IH. lia.
Qed.

Lemma unfair_follows p now pr reply : con_recv pr = inr reply -> NKFS_NET_PKT_MAX_NEIGHS < int_at e 192 (u reply) ->
  follows (nkfs_neigh_do_heartbeat e p now pr) (nkfs_neigh_do_heartbeat e p now (muted pr)).
Proof.
  intros Er Hn. apply follows_bind; [apply follows_refl|]. intros n. apply follows_bind; [|intros; apply follows_refl].
  destruct (_ || _); [apply follows_refl|]. do 3 (apply follows_bind; [apply follows_refl|intros ?]).
  apply follows_bind; [apply follows_refl|intros ?]. apply follows_bind; [apply follows_refl|intros ?]. cbn [con_connect muted].
  destruct (negb _); [apply follows_refl|]. apply follows_bind; [apply follows_refl|intros ?]. apply follows_bind; [apply follows_refl|intros f1].
  apply follows_bind; [|intros; apply follows_refl]. destruct f1; [apply follows_refl|]. apply follows_bind; [apply follows_refl|intros f2].
  destruct f2; [apply follows_refl|]. apply follows_bind; [apply follows_refl|intros req].
  unfold exchange. cbn [con_send con_recv muted]. rewrite Er. destruct (negb (con_send pr req =? 0)); [apply follows_refl|].
  destruct (negb (err reply =? 0)); [apply follows_refl|]. intros h r h' E. exfalso. unfold bind in E.
  destruct (add_neighs _ _ _ _ _) as [b h1| | |] eqn:Ea; [|done..]. by apply add_neighs_too_many in Ea; [|unfold NKFS_NET_PKT_MAX_NEIGHS in *; lia].
Qed.

Lemma work_func_keeps now pr h : inv_at None h -> ends (nkfs_host_work_func e now pr) h (fun _ h' => inv_at None h').
Proof.
  intros Hi. destruct (wq h) as [|[| |p|p] q] eqn:Eq; [by apply spec_ends, spec_work_func; [|by rewrite Eq]..|].
  destruct (con_recv pr) as [er|reply] eqn:Er; [apply spec_ends, spec_work_func; [done|]; intros _ _ _ reply; by rewrite Er|].
  destruct (Z.le_gt_cases (int_at e 192 (u reply)) NKFS_NET_PKT_MAX_NEIGHS) as [Hn|Hn].
  { apply spec_ends, spec_work_func; [done|]. intros _ _ _ rp. rewrite Er. by intros [= <-]. }
  intros a h' E. apply (spec_ends _ _ _ (spec_work_func now (muted pr) h Hi (fun _ _ _ => muted_fair pr)) a h').
  revert E. unfold nkfs_host_work_func, bind, gets, modify. rewrite Eq. destruct (nkfs_neigh_do_heartbeat e p now pr _) as [r h1| | |] eqn:Eh; [|done..].
  by rewrite (unfair_follows p now pr reply Er (Z.gt_lt _ _ (Z.lt_gt _ _ Hn)) _ _ _ Eh).
Qed.

Lemma spec_timer m2j now h : inv_at None h -> spec (nkfs_host_timer_callback m2j now) h (fun _ h' => inv_at None h').
Proof.
  intros Hi. apply spec_bind, spec_gets, spec_bind, spec_gets.
  assert (Hq : forall w a b h (Q : unit -> nkfs_host -> Prop), inv_at None h -> target w = None -> (forall h', inv_at None h' -> Q tt h') ->
    spec (let* _ := nkfs_host_queue_work w in modify (with_times a b)) h Q).
  { intros w a b h0 Q Hi0 Hw HQ. apply spec_bind, spec_queue_work; [done|by rewrite Hw|]. intros r h' Hi' _. apply spec_modify, HQ. by apply (inv_same _ h'). }
  set (b := last_hbt h).
  assert (Hsnd : forall h0, inv_at None h0 -> spec (let* a := gets last_handshake in
    if time_after64 now (u64 (b + m2j HOST_HBT_TIMEOUT_MS)) then let* _ := nkfs_host_queue_work HeartbeatAll in modify (with_times a now) else ret tt) h0 (fun _ h' => inv_at None h')).
  { intros h0 Hi0. apply spec_bind, spec_gets. destruct (time_after64 _ _); [by apply Hq|by apply spec_ret]. }
  apply spec_bind. destruct (time_after64 now (u64 (last_handshake h + _))); [by apply Hq|by apply spec_ret, Hsnd].
Qed.

End Endian.

(** ** Taking neighbours out, and the end of a host *)

Definition has_addr (h : nkfs_host) (ip port : Z) (p : nat) : bool :=
  match nobjs h !! p with
  | Some n => (n_ip n =? ip) && (n_port n =? port)
  | None => false
  end.

Lemma spec_split_neighs ip port h l : forall (Q : list nat * list nat -> nkfs_host -> Prop), (forall p, p ∈ l -> is_Some (nobjs h !! p)) ->
  Q (filter (fun p => has_addr h ip port p = true) l, filter (fun p => ~ has_addr h ip port p = true) l) h -> spec (split_neighs ip port l) h Q.
Proof.
  induction l as [|p l IH]; intros Q Hl HQ; cbn [split_neighs]; [by apply spec_ret|].
  destruct (Hl p) as [n Hn]; [by left|]. apply spec_bind, (spec_get_neigh _ n); [done|]. apply spec_bind, IH; [intros r Hr; apply Hl; by right|]. apply spec_ret.
  rewrite !filter_cons in HQ. assert (E : has_addr h ip port p = (n_ip n =? ip) && (n_port n =? port)) by (unfold has_addr; by rewrite Hn).
  rewrite E in HQ. destruct (_ && _); cbn; repeat case_decide; done.
Qed.

Lemma routes_perm l l' h : l ≡ₚ l' -> routes l h -> routes l' h.
Proof. intros Hp []. split; try done; [by rewrite <- Hp|]. intros r. by rewrite <- Hp. Qed.

Lemma spec_remove_neigh ip port h (Q : Z -> nkfs_host -> Prop) : inv_at None h ->
  let asked := filter (fun p => has_addr h ip port p = true) (neigh_list h) in
  let others := filter (fun p => ~ has_addr h ip port p = true) (neigh_list h) in
  (forall h', routes asked h' -> neigh_list h' = [] -> wq h' = wq h -> (forall p, p ∈ asked -> nobjs h' !! p = nobjs h !! p) ->
     Q (if negb (Z.of_nat (length others) =? 0) then 0 else - ENOENT) h') ->
  spec (nkfs_host_remove_neigh ip port) h Q.
Proof.
  intros Hi asked others HQ. pose proof Hi as (Hr & _). apply spec_bind, spec_gets, spec_bind, spec_split_neighs; [intros p; by apply routes_listed|].
  fold asked others. cbn [snd]. apply spec_bind, spec_modify, spec_bind, spec_gets, spec_bind. cbn [neigh_list with_nlist].
  apply (spec_drop_neighs _ _ asked).
  - apply (routes_same _ h); [done|]. eapply routes_perm; [|exact Hr]. rewrite (Permutation_app_comm others asked). symmetry. apply filter_app_complement.
  - intros h' Hr' Hl Hw Hk. apply spec_ret, HQ; [done| |exact Hw|done]. rewrite Hl. cbn.
    destruct (filter (fun x => x ∉ others) others) as [|x l] eqn:E; [done|].
    assert (Hx : x ∈ filter (fun x => x ∉ others) others) by (rewrite E; by left). by apply list_elem_of_filter in Hx as [? ?].
Qed.

(** Nothing of a host is left in memory. *)
Definition empty_host (h : nkfs_host) : Prop := neighs h = ∅ /\ host_ids h = ∅ /\ nobjs h = ∅ /\ hobjs h = ∅ /\ neigh_list h = [] /\ wq h = [].

Lemma routes_nil h : routes [] h -> nobjs h = ∅ /\ hobjs h = ∅ /\ neighs h = ∅ /\ host_ids h = ∅ /\ neighs_active h = 0 /\ host_ids_active h = 0.
Proof.
  intros Hr. assert (E1 : nobjs h = ∅).
  { apply map_empty. intros p. apply eq_None_not_Some. rewrite <- (r_mem _ _ Hr). apply not_elem_of_nil. }
  assert (E2 : hobjs h = ∅).
  { apply map_empty. intros q. destruct (hobjs h !! q) as [i|] eqn:Hq; [exfalso|done]. destruct (r_hobj _ _ Hr _ _ Hq) as (_ & Hne & _).
    destruct (h_neighs i) as [|p t] eqn:En; [done|]. destruct (proj2 (r_hid _ _ Hr p q)) as (n & Hn & _); [exists i; rewrite En; split; [done|by left]|].
    by rewrite E1 in Hn. }
  split_and!; [done|done|apply map_empty; intros k; apply eq_None_not_Some; intros [p Hp]|apply map_empty; intros k; apply eq_None_not_Some; intros [q Hq]|..].
  - apply (r_tree _ _ Hr) in Hp as (n & Hn & _). by rewrite E1 in Hn.
  - apply (r_ids _ _ Hr) in Hq as (i & Hi & _). by rewrite E2 in Hi.
  - by rewrite (r_active _ _ Hr), E1.
  - by rewrite (r_ids_active _ _ Hr), E2.
Qed.

(** Nobody has the address: all neighbours are freed, and the books are in order
    if no work that is queued points to one of them. *)
Lemma spec_remove_unknown ip port h : inv_at None h -> neighs h !! (ip, port) = None -> (forall w, w ∈ wq h -> target w = None) ->
  spec (nkfs_host_remove_neigh ip port) h (fun _ h' => inv_at None h').
Proof.
  intros Hi Hn Hw. pose proof Hi as (Hr & _). apply spec_remove_neigh; [done|]. intros h' Hr' Hl Ew _.
  assert (E : filter (fun p => has_addr h ip port p = true) (neigh_list h) = []).
  { destruct (filter _ _) as [|p l] eqn:E; [done|exfalso]. assert (Hp : p ∈ p :: l) by by left. rewrite <- E in Hp.
    apply list_elem_of_filter in Hp as [Ha _]. unfold has_addr in Ha. destruct (nobjs h !! p) as [n|] eqn:En; [|done].
    apply andb_true_iff in Ha as [?%Z.eqb_eq ?%Z.eqb_eq]. assert (Ht : neighs h !! (ip, port) = Some p); [|congruence].
    apply (r_tree _ _ Hr). exists n. split; [done|]. unfold addr. congruence. }
  rewrite E in Hr'. destruct (routes_nil _ Hr') as (E1 & _). split_and!; [by rewrite Hl| |].
  - intros p n. by rewrite E1.
  - intros w p. rewrite Ew. intros Hq. by rewrite (Hw _ Hq).
Qed.

Lemma spec_host_release h : routes (neigh_list h) h -> spec nkfs_host_release h (fun _ h' => empty_host h').
Proof.
  intros Hr. apply spec_bind, spec_modify, spec_bind, spec_gets, spec_bind, spec_modify, spec_bind. cbn.
  apply (spec_drop_neighs _ _ []); [rewrite app_nil_r; by apply (routes_same _ h)|]. intros h' Hr' Hl Hw _.
  destruct (routes_nil _ Hr') as (E1 & E2 & E3 & E4 & E5 & E6). apply spec_bind, spec_gets, spec_bind, spec_bug_on; [by rewrite E5|].
  apply spec_bind, spec_gets, spec_bug_on; [by rewrite E6|]. split_and!; done.
Qed.

(** A neighbour that is in the tree and not in the list stops the machine. *)
Lemma release_crash l h : routes l h -> neigh_list h = [] -> l <> [] -> nkfs_host_release h = Crash.
Proof.
  intros Hr Hl Hne. unfold nkfs_host_release, bind, modify, gets. cbn. rewrite Hl. cbn.
  assert (Ha : neighs_active h <> 0).
  { rewrite (r_active _ _ Hr). destruct l as [|p l]; [done|]. destruct (proj1 (r_mem _ _ Hr p)) as [n Hn]; [by left|].
    intros E. assert (E0 : size (nobjs h) = 0%nat) by lia. apply map_size_empty_inv in E0. by rewrite E0 in Hn. }
  by rewrite (proj2 (Z.eqb_neq _ _) Ha).
Qed.

(** ** The reported list after a call *)

Lemma omap_same (h h' : nkfs_host) (l : list nat) : (forall p, p ∈ l -> info_at h' p = info_at h p) -> omap (info_at h') l = omap (info_at h) l.
Proof. intros Hs. apply list_omap_ext, Forall_Forall2_diag, Forall_forall. exact Hs. Qed.

Lemma view_same h h' : same_books h h' -> neigh_list h' = neigh_list h -> view h' = view h.
Proof.
  intros (_ & _ & _ & _ & E1 & E2) El. unfold view. rewrite El. apply omap_same. intros p _. unfold info_at, info_of, id_of. by rewrite E1, E2.
Qed.

Lemma view_ticks k h : view (ticks k h) = view h.
Proof. destruct (ticks_same k h) as (? & ? & _). by apply view_same. Qed.

Lemma view_joined p n h : routes (neigh_list h) h -> nobjs h !! p = None -> view (joined p n h) = view h ++ [info_of h n].
Proof.
  intros Hr Hp. unfold view. cbn. rewrite omap_app. cbn. unfold info_at at 2. cbn. rewrite lookup_insert_eq. cbn. f_equal.
  apply omap_same. intros r Hrl. unfold info_at. cbn. rewrite lookup_insert_ne; [done|]. intros ->. apply (r_mem _ _ Hr) in Hrl as [? ?]. congruence.
Qed.

Lemma id_pair_inj a b : id_pair a = id_pair b -> a = b.
Proof. destruct a, b. by intros [= -> ->]. Qed.

(** After [p] was bound to [o]: its entry has the identity, the others are as before. *)
Lemma info_tied l p n o h h' : routes l h -> tied p n o h h' ->
  info_at h' p = Some (NeighInfo (n_ip n) (n_port n) (state_bits (bound 0 n)) o (n_hbt_time n) (n_hbt_delay n)) /\
  (forall r, r <> p -> info_at h' r = info_at h r).
Proof.
  intros Hr Ht. unfold info_at. destruct Ht as [q i Hq Hi|q Hq Hi]; cbn; rewrite lookup_insert_eq; (split; [cbn; unfold info_of, id_of; cbn; rewrite lookup_insert_eq; cbn|]).
  - do 2 f_equal. apply (r_ids _ _ Hr) in Hq as (j & Hj & E). rewrite Hi in Hj. injection Hj as <-. by apply id_pair_inj.
  - intros r Hrp. rewrite lookup_insert_ne by done. destruct (nobjs h !! r) as [m|]; [|done]. cbn. unfold info_of, id_of. do 2 f_equal.
    destruct (n_hid m) as [s|]; [|done]. cbn. rewrite lookup_insert. case_decide; [subst s; by rewrite Hi|done].
  - done.
  - intros r Hrp. rewrite lookup_insert_ne by done. destruct (nobjs h !! r) as [m|] eqn:Em; [|done]. cbn. unfold info_of, id_of. do 2 f_equal.
    destruct (n_hid m) as [s|] eqn:Es; [|done]. cbn. rewrite lookup_insert. case_decide; [subst s|done].
    destruct (proj1 (r_hid _ _ Hr r q)) as (j & ? & _); [by exists m|]. congruence.
Qed.

End RouteHost.

(** * What a host keeps and what it forgets

    The theorems on src/core/route.c, with hosts at which they apply. *)

Import XXHash Bytes StMonad Csum ObjId NetPkt Route RouteSpec RouteOps RouteCalls RouteAsk RouteHost.

Module RouteClaims.

Section Endian.
Context (e : XXH_endianess).

(** ** All calls as a transition system *)

Inductive call :=
| Add (ip port : Z)
| Remove (ip port : Z)
| AskedHandshake (net host : nkfs_obj_id) (ip port : Z)
| AskedHeartbeat (net src dst : nkfs_obj_id)
| Info (max : Z)
| Work (now : Z * Z) (pr : peer)
| Timer (msecs_to_jiffies : Z -> Z) (now : Z).

Definition do_call (c : call) : M unit :=
  match c with
  | Add ip port => let* _ := nkfs_route_neigh_add ip port in ret tt
  | Remove ip port => let* _ := nkfs_route_neigh_remove ip port in ret tt
  | AskedHandshake net host ip port => let* _ := nkfs_neigh_handshake net host ip port in ret tt
  | AskedHeartbeat net src dst => let* _ := nkfs_neigh_heartbeat net src dst NKFS_NET_PKT_MAX_NEIGHS in ret tt
  | Info max => let* _ := nkfs_route_neigh_info max in ret tt
  | Work now pr => nkfs_host_work_func e now pr
  | Timer m now => nkfs_host_timer_callback m now
  end.

(** The one restriction on what is asked of a host: an address is taken out that
    no neighbour has, and while no work that is queued points to a neighbour.
    [nkfs_host_remove_neigh] frees every neighbour but the one asked for. *)
Definition orderly (h : nkfs_host) (c : call) : Prop :=
  match c with
  | Remove ip port => (ip =? 0) || (port =? 0) = true \/ neighs h !! (ip, port) = None /\ (forall w, w ∈ wq h -> target w = None)
  | _ => True
  end.

(** The calls that do not reach a null pointer or the end of an array: a
    heartbeat is answered when every neighbour has shaken hands, and a heartbeat
    is sent to a peer that claims no more neighbours than a packet holds. *)
Definition careful (h : nkfs_host) (c : call) : Prop :=
  orderly h c /\
  match c with
  | AskedHeartbeat net src dst => heartbeat_refused net src dst h = true \/ all_shaken h
  | Work _ pr => forall p q, wq h = Heartbeat p :: q -> fair e pr
  | _ => True
  end.

Definition step (h h' : nkfs_host) : Prop := exists c, orderly h c /\ do_call c h = Done tt h'.

Lemma spec_call c h : host_inv h -> careful h c -> spec (do_call c) h (fun _ h' => host_inv h').
Proof.
  intros Hi [Ho Hc]. change (inv_at None h) in Hi. change (spec (do_call c) h (fun _ h' => inv_at None h')). pose proof Hi as (Hr & _).
  destruct c as [ip port|ip port|net o ip port|net src dst|max|now pr|m now]; cbn [do_call careful orderly] in *.
  - apply spec_bind, (spec_add_one None); [done|done|]. intros r h' Hi' _ _. by apply spec_ret.
  - apply spec_bind. unfold nkfs_route_neigh_remove. destruct Ho as [->|[Hn Hw]]; [by apply spec_ret, spec_ret|].
    destruct (_ || _); [by apply spec_ret, spec_ret|]. eapply spec_mono; [by apply spec_remove_unknown|]. intros r h' Hi'. by apply spec_ret.
  - apply spec_bind, spec_neigh_handshake; [done| |].
    + intros r h' _ _ Hh. apply spec_ret. destruct Hh as [->|[->| ->]]; [done|by apply (inv_ticks _ 1)|by apply (inv_ticks _ 2)].
    + intros p h' Hj Hp Ht. apply spec_ret. unfold handshake_err in Hj. destruct (negb _); [done|].
      eapply (inv_tied _ _ _ _ (joined p (new_neigh ip port) (ticked (ticked h)))); [|cbn; apply lookup_insert_eq|done|exact Ht]. eapply inv_joined; [by apply (inv_ticks _ 2)|done|done|exact Hj].
  - apply spec_bind, spec_neigh_heartbeat; [done|done|done|]. by apply spec_ret.
  - apply spec_bind, spec_bind, spec_gets. destruct (Z.le_gt_cases 0 max) as [Hm|Hm]; [apply (spec_neigh_infos _ _ _ Hr); [done|cbn; lia|]; by apply spec_ret|].
    destruct (neigh_list h) as [|p l]; cbn [neigh_infos]; [by apply spec_ret, spec_ret|]. rewrite (proj2 (Z.leb_le _ _)) by (cbn; lia). by apply spec_ret, spec_ret.
  - by apply spec_work_func.
  - by apply spec_timer.
Qed.

(** Also a call that could have stopped the machine keeps the books, if it comes
    back. *)
Lemma call_keeps c h : host_inv h -> orderly h c -> ends (do_call c) h (fun _ h' => host_inv h').
Proof.
  intros Hi Ho. destruct c as [ip port|ip port|net o ip port|net src dst|max|now pr|m now];
    try (by apply spec_ends, spec_call; [|split]).
  - apply ends_bind. eapply ends_mono; [apply neigh_heartbeat_keeps, Hi|]. intros r h' ->. by apply ends_ret.
  - by apply work_func_keeps.
Qed.

Lemma create_inv mfail wqfail rnd rf h : nkfs_host_create mfail wqfail rnd rf = Some h -> host_inv h.
Proof.
  unfold nkfs_host_create. destruct mfail, wqfail; [done..|]. intros [= <-]. split_and!.
  - split; cbn; try done.
    + constructor.
    + intros p. rewrite lookup_empty. split; [by intros ?%not_elem_of_nil|by intros []].
    + intros k p. rewrite !lookup_empty. naive_solver.
    + intros p q. rewrite !lookup_empty. naive_solver.
    + intros k p. rewrite !lookup_empty. naive_solver.
  - done.
  - intros w p Hw. by apply not_elem_of_nil in Hw.
Qed.

Lemma reachable_inv h h' : host_inv h -> rtc step h h' -> host_inv h'.
Proof. intros Hi Hs. induction Hs as [|h h1 h2 [c [Hc E]] _ IH]; [done|]. apply IH. by apply (call_keeps c h Hi Hc tt). Qed.

(** (C15) A host is created with its books in order, and
    they stay so through any sequence of calls that come back: neighbours added
    and taken out, handshakes and heartbeats asked for, the list read, works of
    the queue done against peers that answer anything, the timer; memory may run
    out at any allocation.  The books are in order: every neighbour of the list is
    in memory with one reference, in the tree under its address and at most 32 of
    them; an identity exists exactly while a neighbour leads to it and has one
    reference for each; both counters are right; no connection is left open; no
    queued work points to a neighbour that is gone.  One call is restricted: an
    address is only taken out that no neighbour has and while no queued work
    points to a neighbour (what taking out a known address does is
    [nkfs_host_remove_neigh_keeps_the_asked]).  Every such call does come back,
    but for two that may stop the machine: a heartbeat asked by a known host
    while a neighbour has not shaken hands (a null pointer, route.c:902) and a
    heartbeat sent to a peer that claims more than 16 neighbours (route.c:549).
    A host that is released leaves nothing in memory. *)
Theorem nkfs_host_invariant mfail wqfail rnd rf h0 h :
  nkfs_host_create mfail wqfail rnd rf = Some h0 -> rtc step h0 h ->
  host_inv h /\
  (forall c, careful h c -> exists h', do_call c h = Done tt h' /\ step h h') /\
  (exists h', nkfs_host_release h = Done tt h' /\ empty_host h').
Proof.
  intros Hc Hs. pose proof (reachable_inv _ _ (create_inv _ _ _ _ _ Hc) Hs) as Hi. split_and!; [done| |].
  - intros c Hcare. destruct (proj1 (spec_done _ _ _) (spec_call c h Hi Hcare)) as ([] & h' & E & _). exists h'. split; [done|]. exists c. split; [apply Hcare|done].
  - destruct (proj1 (spec_done _ _ _) (spec_host_release h (proj1 Hi))) as ([] & h' & E & He). by exists h'.
Qed.

End Endian.

(** ** Joining *)

(** The reply of a host to a request to join, and the entry it makes. *)
Definition join_result (r : Z) (o : nkfs_obj_id) (state ip port : Z) (h h' : nkfs_host) : Prop :=
  (r <> 0 -> view h' = view h) /\ (r = 0 -> view h' = view h ++ [NeighInfo ip port state o 0 0]).

(** Adding a neighbour by its address fails
    with [-EINVAL] for a zero address or port, [-ENOMEM] without memory,
    [-EEXIST] when the address is known, [NKFS_E_LIMIT] when 32 neighbours are,
    and then the list of neighbours is as it was; otherwise the neighbour is
    appended to it, initialised and without an identity. *)
Theorem nkfs_route_neigh_add_appends ip port h : host_inv h ->
  exists r h', nkfs_route_neigh_add ip port h = Done r h' /\ host_inv h' /\
    r = join_err (rfail h (rtick h)) ip port h /\ join_result r (Id 0 0) 1 ip port h h'.
Proof.
  intros Hi. change (inv_at None h) in Hi. pose proof Hi as (Hr & _). apply spec_done, (spec_route_neigh_add ip port _ _ _ Hr).
  - intros r h' H0 Er Hh. assert (Hk : h' = ticks 0 h \/ h' = ticks 1 h) by done.
    split_and!; [destruct Hk as [->| ->]; by apply inv_ticks|done|]. split; [|done]. intros _. destruct Hk as [->| ->]; apply view_ticks.
  - intros p Hj Hp. split_and!; [eapply (inv_joined None); [by apply (inv_ticks _ 1)|done|done|exact Hj]|done|]. split; [done|]. intros _.
    rewrite view_joined; [by rewrite (view_ticks 1)|by apply (routes_same _ h)|done].
Qed.

Lemma neigh_handshake_run net o ip port h : host_inv h ->
  exists r h', nkfs_neigh_handshake net o ip port h = Done r h' /\ host_inv h' /\
    match r with
    | inl err => err <> 0 /\ err = handshake_err (rfail2 h) net ip port h /\ view h' = view h /\ same_books h h'
    | inr me => handshake_err (rfail2 h) net ip port h = 0 /\ me = host_id h /\ view h' = view h ++ [NeighInfo ip port 3 o 0 0]
    end.
Proof.
  intros Hi. change (inv_at None h) in Hi. pose proof Hi as (Hr & _). apply spec_done, spec_neigh_handshake; [done| |].
  - intros r h' H0 Er Hh. assert (Hk : exists k, h' = ticks k h). { destruct Hh as [->|[->| ->]]; [by exists 0%nat|by exists 1%nat|by exists 2%nat]. }
    destruct Hk as [k ->]. split; [by apply inv_ticks|]. split_and!; [done|done|apply view_ticks|apply ticks_same].
  - intros p h' Hj Hp Ht. assert (Hj' := Hj). unfold handshake_err in Hj'. destruct (negb _); [done|].
    assert (Hij : inv_at None (joined p (new_neigh ip port) (ticked (ticked h)))) by (eapply inv_joined; [by apply (inv_ticks _ 2)|done|done|exact Hj']).
    split; [by eapply inv_tied; [exact Hij|cbn; apply lookup_insert_eq|done|exact Ht]|]. split_and!; [done|done|].
    destruct (info_tied _ _ _ _ _ _ (proj1 Hij) Ht) as [Ep Eo]. destruct (tied_rest _ _ _ _ _ Ht) as (_ & El & _).
    unfold view at 1. rewrite El. cbn. rewrite omap_app. cbn. rewrite Ep. f_equal. apply omap_same. intros r Hrl. rewrite Eo.
    + unfold info_at. cbn. rewrite lookup_insert_ne; [done|]. intros ->. apply (r_mem _ _ Hr) in Hrl as [? ?]. congruence.
    + intros ->. apply (r_mem _ _ Hr) in Hrl as [? ?]. congruence.
Qed.

(** A host that is asked for a handshake
    refuses another net, a zero address, a known address and a 33rd neighbour,
    and is then as it was (also when the identity was made for it); otherwise it
    answers with its own identity and has the neighbour in its list, initialised
    and shaken, with the identity it came with. *)
Theorem nkfs_neigh_handshake_registers net o ip port h : host_inv h ->
  exists r h', nkfs_neigh_handshake net o ip port h = Done r h' /\ host_inv h' /\
    match r with
    | inl err => err <> 0 /\ err = handshake_err (rfail2 h) net ip port h /\ view h' = view h /\ same_books h h'
    | inr me => handshake_err (rfail2 h) net ip port h = 0 /\ me = host_id h /\ view h' = view h ++ [NeighInfo ip port 3 o 0 0]
    end.
Proof. apply neigh_handshake_run. Qed.

Lemma neigh_do_handshake_run e p n pr h : host_inv h -> nobjs h !! p = Some n ->
  exists r h', nkfs_neigh_do_handshake e p pr h = Done r h' /\ host_inv h' /\ neigh_list h' = neigh_list h /\
    (~ can_shake e n pr h /\ view h' = view h \/
     r = 0 /\ n_shaked n = false /\ exists ip port reply, server_select_one pr = inr (ip, port) /\
       exchange pr (handshake_req e (net_id h) (host_id h) ip port) = inr reply /\
       (forall q, q <> p -> info_at h' q = info_at h q) /\
       info_at h' p = Some (NeighInfo (n_ip n) (n_port n) (state_bits n + 2) (id_at e 40 (u reply)) (n_hbt_time n) (n_hbt_delay n))).
Proof.
  intros Hi Hp. change (inv_at None h) in Hi. apply spec_done. eapply spec_mono; [by apply (spec_do_handshake e p n)|]. intros r h' Hs.
  split; [by eapply inv_shaken|]. destruct Hs as [[Hno [k ->]]|(-> & Hsh & ip & port & reply & Es & Ex & Ht)].
  { split; [apply ticks_same|]. left. split; [done|]. apply view_ticks. }
  destruct (tied_rest _ _ _ _ _ Ht) as (_ & El & _). split; [exact El|]. right. split_and!; [done|done|]. exists ip, port, reply. split_and!; [done|done|..].
  - intros q Hq. destruct (info_tied (neigh_list h) _ _ _ (ticks 3 h) _ (proj1 (inv_ticks _ 3 _ Hi)) Ht) as [_ E]. by rewrite (E q Hq).
  - destruct (info_tied (neigh_list h) _ _ _ (ticks 3 h) _ (proj1 (inv_ticks _ 3 _ Hi)) Ht) as [E _]. rewrite E. unfold state_bits. cbn. rewrite Hsh.
    do 2 f_equal. lia.
Qed.

(** The host that asks learns from a
    handshake the identity the peer answered with and nothing else: the entry of
    that neighbour becomes shaken with this identity, all other entries stay.
    It does so whenever the peer can be reached and answers and there is memory;
    in every other outcome the list is as it was. *)
Theorem nkfs_neigh_do_handshake_learns e p n pr h : host_inv h -> nobjs h !! p = Some n ->
  exists r h', nkfs_neigh_do_handshake e p pr h = Done r h' /\ host_inv h' /\ neigh_list h' = neigh_list h /\
    (~ can_shake e n pr h /\ view h' = view h \/
     r = 0 /\ n_shaked n = false /\ exists ip port reply, server_select_one pr = inr (ip, port) /\
       exchange pr (handshake_req e (net_id h) (host_id h) ip port) = inr reply /\
       (forall q, q <> p -> info_at h' q = info_at h q) /\
       info_at h' p = Some (NeighInfo (n_ip n) (n_port n) (state_bits n + 2) (id_at e 40 (u reply)) (n_hbt_time n) (n_hbt_delay n))).
Proof. apply neigh_do_handshake_run. Qed.

(** ** Heartbeats *)

(** A heartbeat with a shaken neighbour
    notes its time; if it fails the neighbour is no longer alive and its error is
    kept; if it succeeds the neighbour is alive, with the time it took, no other
    neighbour changes, and every address the peer sent is then known to the host
    unless the host has 32 neighbours or memory runs out.  A neighbour that has
    not shaken hands is left alone. *)
Theorem nkfs_neigh_do_heartbeat_learns e p n now pr h : host_inv h -> nobjs h !! p = Some n -> fair e pr ->
  exists r h', nkfs_neigh_do_heartbeat e p now pr h = Done r h' /\ host_inv h' /\ beat e p n now pr h r h'.
Proof. intros Hi Hp Hf. apply spec_done. by apply spec_do_heartbeat. Qed.

(** A host answers a heartbeat with [-EINVAL]
    if the net, the host it is for or the host that asks is not known to it, and
    otherwise with its identity and the first sixteen neighbours that are alive
    and are neither of the two hosts, in the order they joined; it is unchanged.
    But if one of its at most sixteen neighbours has not shaken hands yet, the
    answer reads the identity of that neighbour through a null pointer. *)
Theorem nkfs_neigh_heartbeat_answer net src dst h : host_inv h ->
  (heartbeat_refused net src dst h = true \/ all_shaken h ->
     nkfs_neigh_heartbeat net src dst NKFS_NET_PKT_MAX_NEIGHS h =
       Done (if heartbeat_refused net src dst h then inl (- EINVAL)
             else inr (host_id h, take 16 (omap (advert src (host_id h) h) (neigh_list h)))) h) /\
  (heartbeat_refused net src dst h = false -> ~ all_shaken h -> (length (neigh_list h) <= 16)%nat ->
     nkfs_neigh_heartbeat net src dst NKFS_NET_PKT_MAX_NEIGHS h = Crash).
Proof.
  intros Hi. pose proof Hi as (Hr & _). split.
  - intros Hs. pose proof (spec_neigh_heartbeat net src dst NKFS_NET_PKT_MAX_NEIGHS h (fun a h' => a = _ /\ h' = h) Hr ltac:(done) Hs (conj eq_refl eq_refl)) as W.
    unfold spec in W. destruct (nkfs_neigh_heartbeat _ _ _ _ _) as [a h'| | |]; [|done..]. by destruct W as [-> ->].
  - intros Hf Hs Hl. unfold heartbeat_refused in Hf. apply orb_false_iff in Hf as [Hf Hq]. apply orb_false_iff in Hf as [Hn Hd].
    apply bool_decide_eq_false in Hq. destruct (host_ids h !! id_pair src) as [q|] eqn:Eq; [|done]. destruct (routes_ids_ok _ _ Hr _ _ Eq) as (i & Hi' & Hri).
    unfold nkfs_neigh_heartbeat, nkfs_host_id_lookup, __nkfs_host_ids_lookup, nkfs_hid_ref, upd_hid, get_hid, bind, gets, modify, ret.
    rewrite Hn, Hd, Eq, Hi', (proj2 (Z.leb_gt _ _)) by done. cbn [BUG_ON]. unfold ret. rewrite Hi'. rewrite heartbeat_neighs_crash; [done|..].
    + cbn. unfold NKFS_NET_PKT_MAX_NEIGHS. lia.
    + intros p. apply (r_mem _ _ Hr).
    + intros p n r Hp Er. cbn. apply lookup_insert_is_Some'. right. destruct (proj1 (r_hid _ _ Hr p r)) as (j & Hj & _); eauto.
    + destruct (decide (map_Forall (fun _ n => is_Some (n_hid n)) (nobjs h))) as [Ha|Ha]; [by destruct Hs|].
      apply map_not_Forall in Ha as (p & n & Hp & Hh); [|apply _]. exists p, n. split_and!; [apply (r_mem _ _ Hr); eauto|done|by apply eq_None_not_Some].
Qed.

(** ** Taking neighbours out *)

(** (C38) Taking out the neighbour at an address, on a host in order, does the opposite of what it says: the list of neighbours is empty
    afterwards, every other neighbour is freed, and the neighbour asked for stays
    in memory and in the tree.  The result is 0 if there was another neighbour,
    whether the address was known or not, and [-ENOENT] otherwise.  When the
    address was known, releasing the host then stops the machine. *)
Theorem nkfs_host_remove_neigh_keeps_the_asked ip port h : host_inv h ->
  let asked := neighs h !! (ip, port) in
  exists r h', nkfs_host_remove_neigh ip port h = Done r h' /\ neigh_list h' = [] /\
    (forall p, is_Some (nobjs h' !! p) <-> asked = Some p) /\
    (forall k p, neighs h' !! k = Some p <-> asked = Some p /\ k = (ip, port)) /\
    (r = 0 <-> exists k p, neighs h !! k = Some p /\ k <> (ip, port)) /\
    (is_Some asked -> nkfs_host_release h' = Crash).
Proof.
  intros Hi asked. change (inv_at None h) in Hi. pose proof Hi as (Hr & _). apply spec_done, spec_remove_neigh; [done|]. intros h' Hr' Hl _ Hk.
  assert (Hin : forall p, p ∈ filter (fun p => has_addr h ip port p = true) (neigh_list h) <-> asked = Some p).
  { intros p. rewrite list_elem_of_filter. unfold asked. rewrite (r_tree _ _ Hr), (r_mem _ _ Hr). unfold has_addr, addr. split.
    - intros [Ha [n Hn]]. rewrite Hn in Ha. apply andb_true_iff in Ha as [?%Z.eqb_eq ?%Z.eqb_eq]. exists n. split; [done|congruence].
    - intros (n & Hn & [= <- <-]). rewrite Hn, !Z.eqb_refl. eauto. }
  split_and!; [done| | | |].
  - intros p. rewrite <- (r_mem _ _ Hr'). apply Hin.
  - intros k p. rewrite (r_tree _ _ Hr'). split.
    + intros (n & Hn & <-). assert (Hp : asked = Some p) by (apply Hin, (r_mem _ _ Hr'); eauto). split; [done|].
      rewrite Hk in Hn by (by apply Hin). apply (r_tree _ _ Hr) in Hp as (m & Hm & E). congruence.
    + intros [Hp ->]. pose proof Hp as Hp'. apply (r_tree _ _ Hr) in Hp' as (m & Hm & E). exists m. split; [|done]. by rewrite Hk by (by apply Hin).
  - destruct (filter (fun p => ~ has_addr h ip port p = true) (neigh_list h)) as [|p l] eqn:E.
    + cbn. split; [done|]. intros (k & p & Hp & Hne). exfalso. apply (r_tree _ _ Hr) in Hp as (n & Hn & <-).
      assert (Hpf : p ∈ filter (fun p => ~ has_addr h ip port p = true) (neigh_list h)); [|rewrite E in Hpf; by apply not_elem_of_nil in Hpf].
      apply list_elem_of_filter. split; [|apply (r_mem _ _ Hr); eauto]. unfold has_addr. rewrite Hn. intros [?%Z.eqb_eq ?%Z.eqb_eq]%andb_true_iff.
      apply Hne. unfold addr. congruence.
    + split; [|done]. intros _. assert (Hp : p ∈ filter (fun p => ~ has_addr h ip port p = true) (neigh_list h)) by (rewrite E; by left).
      apply list_elem_of_filter in Hp as [Ha Hp]. apply (r_mem _ _ Hr) in Hp as [n Hn]. exists (addr n), p. split; [apply (r_tree _ _ Hr); eauto|].
      intros En. apply Ha. unfold has_addr. rewrite Hn. unfold addr in En. injection En as -> ->. by rewrite !Z.eqb_refl.
  - intros [p Hp]. apply (release_crash _ _ Hr' Hl). intros E. apply Hin in Hp. rewrite E in Hp. by apply not_elem_of_nil in Hp.
Qed.

End RouteClaims.
