(* ===== verification/Servers.v ===== *)
(** * The servers of a host (src/core/net.c)

    A host listens on any number of addresses, each by a server with a thread of
    its own.  The list of servers is what starting, stopping and choosing one of
    them work on; a thread is here what it reports at its start: the result of
    listening, after at most three more attempts while the address is in use. *)

From Stdlib Require Import ZArith Lia.
From stdpp Require Import base list.
From S2P Require Import Prelude.
Local Open Scope Z_scope.

Module Servers.

Definition EADDRINUSE : Z := 98.

Record nkfs_server := Server {
  bind_ip : Z;
  ext_ip : Z;
  port : Z;
  serr : Z
}.

(** The attempts of [nkfs_server_thread_routine]: [ksock_listen i] is the result
    of the [i]-th. *)
Fixpoint listen (ksock_listen : nat -> Z) (i : nat) (listen_attempts : nat) : Z :=
  let err := ksock_listen i in
  match listen_attempts with
  | S n => if err =? - EADDRINUSE then listen ksock_listen (S i) n else err
  | O => err
  end.

(** [nomem]: no memory; [nothread]: no thread. *)
Definition nkfs_server_create_start (nomem nothread : bool) (ksock_listen : nat -> Z) (b x p : Z) : option nkfs_server :=
  if nomem then None
  else if nothread then None
  else Some (Server b x p (listen ksock_listen 0 3)).

Definition same_place (b p : Z) (s : nkfs_server) : bool := (port s =? p) && (bind_ip s =? b).

(** A server that reports an error is stopped and freed at once. *)
Definition nkfs_server_start (nomem nothread : bool) (ksock_listen : nat -> Z) (b x p : Z) (l : list nkfs_server) : Z * list nkfs_server :=
  if (x =? 0) || (p =? 0) then (- EINVAL, l)
  else if existsb (same_place b p) l then (- EEXIST, l)
  else match nkfs_server_create_start nomem nothread ksock_listen b x p with
  | Some s => if serr s =? 0 then (0, l ++ [s]) else (serr s, l)
  | None => (- ENOMEM, l)
  end.

Fixpoint nkfs_server_select_one (l : list nkfs_server) : Z + Z * Z :=
  match l with
  | [] => inl (- ENOENT)
  | s :: l => if serr s =? 0 then inr (ext_ip s, port s) else nkfs_server_select_one l
  end.

(** The first server at that place; [None]: there is none. *)
Fixpoint take_out (b p : Z) (l : list nkfs_server) : option (list nkfs_server) :=
  match l with
  | [] => None
  | s :: l => if same_place b p s then Some l else cons s <$> take_out b p l
  end.

Definition nkfs_server_stop (b p : Z) (l : list nkfs_server) : Z * list nkfs_server :=
  if (p <=? 0) || (64000 <? p) then (- EINVAL, l)
  else match take_out b p l with
  | Some l => (0, l)
  | None => (- EINVAL, l)
  end.

Definition nkfs_server_stop_all (l : list nkfs_server) : list nkfs_server := [].

(** ** At most one server at a place *)

Definition place (s : nkfs_server) : Z * Z := (bind_ip s, port s).

Record servers_ok (l : list nkfs_server) : Prop := {
  ok_places : NoDup (place <$> l);
  ok_listening : Forall (fun s => serr s = 0 /\ ext_ip s <> 0 /\ port s <> 0) l
}.

Lemma same_place_iff b p s : same_place b p s = true <-> place s = (b, p).
Proof. unfold same_place, place. rewrite andb_true_iff, !Z.eqb_eq. split; [intros [-> ->]; done|intros [= -> ->]; done]. Qed.

Lemma exists_place b p l : existsb (same_place b p) l = true <-> (b, p) ∈ place <$> l.
Proof.
  rewrite existsb_exists, list_elem_of_fmap. split.
  - intros (s & Hs & E). exists s. split; [by rewrite (proj1 (same_place_iff _ _ _) E)|by apply list_elem_of_In].
  - intros (s & E & Hs). exists s. split; [by apply list_elem_of_In|by apply same_place_iff].
Qed.

Lemma take_out_some b p l l' : take_out b p l = Some l' -> exists l1 s l2, l = l1 ++ s :: l2 /\ l' = l1 ++ l2 /\ place s = (b, p).
Proof.
  revert l'. induction l as [|s l IH]; intros l' E; [done|]. cbn in E. destruct (same_place b p s) eqn:Ep.
  - injection E as <-. exists [], s, l. split_and!; [done|done|by apply same_place_iff].
  - destruct (take_out b p l) as [l0|]; [|done]. injection E as <-. destruct (IH _ eq_refl) as (l1 & x & l2 & -> & -> & Hx). by exists (s :: l1), x, l2.
Qed.

Lemma take_out_none b p l : take_out b p l = None -> (b, p) ∉ place <$> l.
Proof.
  induction l as [|s l IH]; intros E; [apply not_elem_of_nil|]. cbn in E. destruct (same_place b p s) eqn:Ep; [done|]. destruct (take_out b p l); [done|].
  cbn. apply not_elem_of_cons. split; [|by apply IH]. intros Hp. by rewrite (proj2 (same_place_iff b p s)) in Ep.
Qed.

Lemma start_ok nomem nothread ksock_listen b x p l r l' : servers_ok l -> nkfs_server_start nomem nothread ksock_listen b x p l = (r, l') ->
  servers_ok l' /\ (r = 0 -> l' = l ++ [Server b x p 0] /\ (b, p) ∉ place <$> l) /\ (r <> 0 -> l' = l).
Proof.
  intros Hok. unfold nkfs_server_start, nkfs_server_create_start. destruct (Z.eqb_spec x 0), (Z.eqb_spec p 0); cbn [orb]; [by intros [= <- <-]..|].
  destruct (existsb (same_place b p) l) eqn:Ee; [by intros [= <- <-]|]. destruct nomem; [by intros [= <- <-]|]. destruct nothread; [by intros [= <- <-]|].
  cbn [serr]. destruct (Z.eqb_spec (listen ksock_listen 0 3) 0) as [E|E]; [|by intros [= <- <-]]. rewrite E. intros [= <- <-].
  assert (Hni : (b, p) ∉ place <$> l) by (intros Hin%exists_place; congruence). split_and!; [|done|done]. destruct Hok as [Hn Hf]. split.
  - rewrite fmap_app. apply NoDup_app. split_and!; [done| |apply NoDup_singleton]. intros y Hy Hy2%list_elem_of_singleton. by subst y.
  - apply Forall_app. split; [done|]. by constructor.
Qed.

Lemma stop_ok b p l r l' : servers_ok l -> nkfs_server_stop b p l = (r, l') ->
  servers_ok l' /\ (r = 0 -> (b, p) ∈ place <$> l /\ (b, p) ∉ place <$> l') /\ (r <> 0 -> l' = l) /\ (0 < p <= 64000 -> r = 0 <-> (b, p) ∈ place <$> l).
Proof.
  intros Hok. unfold nkfs_server_stop. destruct (Z.leb_spec p 0), (Z.ltb_spec 64000 p); cbn [orb]; [intros [= <- <-]; split_and!; try done; lia..|].
  destruct (take_out b p l) as [l0|] eqn:Et; intros [= <- <-].
  - destruct (take_out_some _ _ _ _ Et) as (l1 & s & l2 & -> & -> & Hs). destruct Hok as [Hn Hf]. rewrite fmap_app, fmap_cons in *.
    assert (Hin : (b, p) ∈ (place <$> l1) ++ place s :: (place <$> l2)) by (apply elem_of_app; right; rewrite Hs; by left).
    assert (Hperm : (place <$> l1) ++ place s :: (place <$> l2) ≡ₚ place s :: (place <$> l1 ++ l2)) by (rewrite fmap_app; symmetry; apply Permutation_middle).
    rewrite Hperm in Hn. apply NoDup_cons in Hn as [Hni Hn]. split_and!; [|intros _; split; [exact Hin|by rewrite <- Hs]|done|done].
    split; [done|]. apply Forall_app in Hf as [F1 F2]. apply Forall_cons in F2 as [_ F2]. apply Forall_app. by split.
  - apply take_out_none in Et. split_and!; [done|done|done|]. intros _. by split.
Qed.

(** Starting and stopping servers: at most one server listens at an address
    and port, every server of the list listens, and the one that is chosen for a
    handshake is the first of the list, which has an address and a port that are
    not zero.  [nkfs_server_start] appends a server or, with any error, leaves
    the list as it was; [nkfs_server_stop] takes out the server at that place and
    no other, and fails if there is none. *)
Theorem nkfs_servers_at_their_places nomem nothread ksock_listen b x p l : servers_ok l ->
  let '(r, l') := nkfs_server_start nomem nothread ksock_listen b x p l in
  let '(r2, l2) := nkfs_server_stop b p l in
  (servers_ok l' /\ (r = 0 -> l' = l ++ [Server b x p 0] /\ (b, p) ∉ place <$> l) /\ (r <> 0 -> l' = l)) /\
  (servers_ok l2 /\ (r2 = 0 -> (b, p) ∈ place <$> l /\ (b, p) ∉ place <$> l2) /\ (r2 <> 0 -> l2 = l) /\
     (0 < p <= 64000 -> r2 = 0 <-> (b, p) ∈ place <$> l)) /\
  nkfs_server_select_one l = match l with s :: _ => inr (ext_ip s, port s) | [] => inl (- ENOENT) end.
Proof.
  intros Hok. destruct (nkfs_server_start _ _ _ _ _ _ _) as [r l'] eqn:E1. destruct (nkfs_server_stop b p l) as [r2 l2] eqn:E2.
  split; [by eapply start_ok|]. split; [by eapply stop_ok|].
  destruct Hok as [_ Hf]. destruct l as [|s l]; [done|]. apply Forall_cons in Hf as [(E & _) _]. cbn. by rewrite E.
Qed.

Lemma nkfs_servers_at_their_places_witness : nkfs_server_select_one [Server 0 7 9111 0] = inr (7, 9111).
Proof.
  assert (Hok : servers_ok [Server 0 7 9111 0]) by (split; [apply NoDup_singleton|repeat constructor; done]).
  pose proof (nkfs_servers_at_their_places false false (fun _ => 0) 0 7 80 [Server 0 7 9111 0] Hok) as W. cbv zeta in W.
  destruct (nkfs_server_start _ _ _ _ _ _ _), (nkfs_server_stop _ _ _). exact (proj2 (proj2 W)).
Defined.

End Servers.
