(* ===== verification/Net.v ===== *)
(** * Connections and requests (src/core/net.c)

    A connection is a socket and the first error it met.  Its thread receives one
    packet after the other and answers each: the data of an object go over the
    wire after the packet, in pages.

    The objects themselves are behind [ObjStore], the calls of src/core/super.c
    the requests end in; the neighbours are the host of src/core/route.c.  The
    byte order [e] is the CPU's: packets go over the wire in it. *)

From Stdlib Require Import ZArith Lia.
From coqutil Require Import Byte.
From stdpp Require Import base list.
From S2P Require Import Prelude XXHash Bytes StMonad Csum Mem CharHex ObjId NetPkt Upages Sock Inode SbList Route.
Import XXHash Bytes StMonad Csum ObjId NetPkt.
Local Open Scope Z_scope.
Local Open Scope stm_scope.

(** What requests need of the list of superblocks. *)
Class ObjStore (St : Type) := {
  os_get : nkfs_obj_id -> Z -> Z -> Z -> list (list byte) -> StMonad.M St (Z + Z * list (list byte));
  os_put : nkfs_obj_id -> Z -> Z -> Z -> list (list byte) -> StMonad.M St (Z + unit);
  os_create : Z * list byte -> StMonad.M St (Z + nkfs_obj_id);
  os_delete : nkfs_obj_id -> StMonad.M St (Z + unit);
  os_query : nkfs_obj_id -> StMonad.M St (Z + SbList.nkfs_obj_info)
}.

(** The list of superblocks is one. *)
#[export] Instance sb_list_store {T St : Type} `{BlockTree.BlockTree T St} (e : XXH_endianess) (ctx : csum_ctx) : ObjStore (SbList.host T St) := {|
  os_get := SbList.nkfs_sb_list_get_obj e ctx;
  os_put := SbList.nkfs_sb_list_put_obj e ctx;
  os_create := SbList.nkfs_sb_list_create_obj e ctx;
  os_delete := SbList.nkfs_sb_list_delete_obj e ctx;
  os_query := SbList.nkfs_sb_list_query_obj e ctx
|}.

Module Net.

Definition NKFS_NET_PKT_ECHO : Z := 1.
Definition NKFS_NET_PKT_GET_OBJ : Z := 2.
Definition NKFS_NET_PKT_PUT_OBJ : Z := 3.
Definition NKFS_NET_PKT_DELETE_OBJ : Z := 4.
Definition NKFS_NET_PKT_QUERY_OBJ : Z := 5.
Definition NKFS_NET_PKT_CREATE_OBJ : Z := 6.

(** ** Packets on the wire *)

Section Wire.
Context (e : XXH_endianess).

Definition PKT_SIZE : Z := 360.

Definition pkt_bytes (p : nkfs_net_pkt) : list byte := pkt_prefix e p ++ store e 8 (sum p) ++ store e 4 (sign2 p).

Definition pkt_of_bytes (b : list byte) : nkfs_net_pkt :=
  Pkt (load e (field 0 4 b)) (load e (field 4 4 b)) (load e (field 8 4 b)) (s32 (load e (field 12 4 b))) (field 16 324 b)
    (load e (field 340 8 b)) (load e (field 348 8 b)) (load e (field 356 4 b)).

(** Fields of the union. *)
Definition u64_at (off : nat) (un : list byte) : Z := load e (field off 8 un).

Definition info_bytes (i : SbList.nkfs_obj_info) : list byte :=
  concat [Route.id_bytes e (SbList.info_obj_id i); Route.id_bytes e (SbList.info_sb_id i);
    SbList.info_dev_name i ++ replicate (256 - length (SbList.info_dev_name i)) Init.Byte.x00;
    store e 8 (SbList.info_size i); store e 8 (SbList.info_block i); store e 4 (SbList.info_bsize i)].

Definition peer_bytes (a : Z * Z) : list byte := store e 4 (fst a) ++ store e 4 (u32 (snd a)).

End Wire.

Definition with_err (r : Z) (p : nkfs_net_pkt) : nkfs_net_pkt := Pkt (sign1 p) (type p) (dsize p) r (u p) (dsum p) (sum p) (sign2 p).
Definition with_u (un : list byte) (p : nkfs_net_pkt) : nkfs_net_pkt := Pkt (sign1 p) (type p) (dsize p) (err p) un (dsum p) (sum p) (sign2 p).
Definition with_data (n s : Z) (p : nkfs_net_pkt) : nkfs_net_pkt := Pkt (sign1 p) (type p) n (err p) (u p) s (sum p) (sign2 p).

(** An answer as the [int] of the code. *)
Definition code {A} (r : Z + A) : Z := match r with inl err => err | inr _ => 0 end.

Section Net.
Context {St : Type} `{ObjStore St}.
Context (e : XXH_endianess) (ctx : csum_ctx).

(** A connection of a host and what its thread uses: objects, neighbours, memory,
    the random source.  [c_open]: the socket was not released. *)
Record server := Srv {
  sv_st : St;
  sv_route : Route.nkfs_host;
  sv_mem : Upages.mem;
  sv_rnd : nat -> Z * list byte;
  sv_rtick : nat;
  c_err : Z;
  c_open : bool;
  c_sock : Sock.socket
}.

Abbreviation M := (StMonad.M server).

Definition set_st (x : St) (s : server) : server := Srv x (sv_route s) (sv_mem s) (sv_rnd s) (sv_rtick s) (c_err s) (c_open s) (c_sock s).
Definition set_route (x : Route.nkfs_host) (s : server) : server := Srv (sv_st s) x (sv_mem s) (sv_rnd s) (sv_rtick s) (c_err s) (c_open s) (c_sock s).
Definition set_mem (x : Upages.mem) (s : server) : server := Srv (sv_st s) (sv_route s) x (sv_rnd s) (sv_rtick s) (c_err s) (c_open s) (c_sock s).
Definition set_rtick (n : nat) (s : server) : server := Srv (sv_st s) (sv_route s) (sv_mem s) (sv_rnd s) n (c_err s) (c_open s) (c_sock s).
Definition set_err (r : Z) (s : server) : server := Srv (sv_st s) (sv_route s) (sv_mem s) (sv_rnd s) (sv_rtick s) r (c_open s) (c_sock s).
Definition set_closed (s : server) : server := Srv (sv_st s) (sv_route s) (sv_mem s) (sv_rnd s) (sv_rtick s) (c_err s) false (c_sock s).
Definition set_sock (x : Sock.socket) (s : server) : server := Srv (sv_st s) (sv_route s) (sv_mem s) (sv_rnd s) (sv_rtick s) (c_err s) (c_open s) x.

(** A call on a part of the state. *)
Definition zoom {S' A} (get : server -> S') (put : S' -> server -> server) (m : StMonad.M S' A) : M A := fun s =>
  match m (get s) with
  | Done a x => Done a (put x s)
  | Crash => Crash
  | Hang => Hang
  | NoFuel => NoFuel
  end.

Definition on_st {A} (m : StMonad.M St A) : M A := zoom sv_st set_st m.
Definition on_route {A} (m : Route.M A) : M A := zoom sv_route set_route m.
Definition on_mem {A} (m : Upages.M A) : M A := zoom sv_mem set_mem m.
Definition on_sock {A} (m : Sock.M A) : M A := zoom c_sock set_sock m.

(** ** Bytes and packets *)

Definition nkfs_con_fail (r : Z) : M unit :=
  let* old := gets c_err in
  if old =? 0 then modify (set_err r) else ret tt.

Definition nkfs_con_recv (nob : Z) : M (Z + list byte) :=
  let* old := gets c_err in
  if negb (old =? 0) then ret (inl old)
  else
    let* r := on_sock (Sock.ksock_read nob) in
    if negb (fst r =? 0) then do* nkfs_con_fail (fst r) in ret (inl (fst r))
    else if negb (nob =? Z.of_nat (length (snd r))) then do* nkfs_con_fail (- EIO) in ret (inl (- EIO))
    else ret (inr (snd r)).

Definition nkfs_con_send (buf : list byte) : M Z :=
  let* old := gets c_err in
  if negb (old =? 0) then ret old
  else
    let* r := on_sock (Sock.ksock_write buf) in
    if negb (fst r =? 0) then do* nkfs_con_fail (fst r) in ret (fst r)
    else if negb (Z.of_nat (length buf) =? snd r) then do* nkfs_con_fail (- EIO) in ret (- EIO)
    else ret 0.

Definition nkfs_con_send_pkt (p : nkfs_net_pkt) : M Z := nkfs_con_send (pkt_bytes e (net_pkt_sign e ctx p)).

Definition nkfs_con_send_reply (reply : nkfs_net_pkt) (r : Z) : M Z := nkfs_con_send_pkt (with_err r reply).

Definition nkfs_con_recv_pkt : M (Z + nkfs_net_pkt) :=
  let* r := nkfs_con_recv PKT_SIZE in
  match r with
  | inl err => ret (inl err)
  | inr b =>
      let p := pkt_of_bytes e b in
      let err := net_pkt_check e ctx p in
      if negb (err =? 0) then do* nkfs_con_fail (- EINVAL) in ret (inl err) else ret (inr p)
  end.

(** ** Data in pages *)

(** The pages to fill, and those that are.  No page left is the [NKFS_BUG_ON]. *)
Fixpoint recv_loop (todo done : list (list byte)) (read : Z) : M (Z + list (list byte)) :=
  if read <=? 0 then ret (inr (done ++ todo))
  else match todo with
  | [] => crash
  | pg :: todo =>
      let llen := if 4096 <? read then 4096 else read in
      let* r := nkfs_con_recv llen in
      match r with
      | inl err => do* nkfs_con_fail err in ret (inl err)
      | inr b => recv_loop todo (done ++ [memcpy_at pg 0 b]) (read - llen)
      end
  end.

Definition nkfs_con_recv_pages (p : nkfs_net_pkt) : M (Z + Upages.nkfs_pages) :=
  if (dsize p =? 0) || (NKFS_NET_PKT_MAX_DSIZE <? dsize p) then ret (inl (- EINVAL))
  else
    let* c := on_mem (Upages.nkfs_pages_create (dsize p)) in
    match c with
    | inl err => ret (inl err)
    | inr pgs =>
        let* r := recv_loop (Upages.pages pgs) [] (dsize p) in
        match r with
        | inl err => do* on_mem (Upages.nkfs_pages_release pgs) in ret (inl err)
        | inr l =>
            let pgs := Upages.NkPages l (Upages.len pgs) in
            let* d := lift (Upages.nkfs_pages_dsum e ctx pgs (dsize p)) in
            match d with
            | inl err => do* on_mem (Upages.nkfs_pages_release pgs) in ret (inl err)
            | inr s =>
                let err := net_pkt_check_dsum p s in
                if negb (err =? 0) then do* on_mem (Upages.nkfs_pages_release pgs) in ret (inl err) else ret (inr pgs)
            end
        end
    end.

Fixpoint send_loop (pgs : list (list byte)) (len : Z) : M Z :=
  if len <=? 0 then ret 0
  else match pgs with
  | [] => crash
  | pg :: pgs =>
      let ilen := if 4096 <? len then 4096 else len in
      let* r := nkfs_con_send (take (Z.to_nat ilen) pg) in
      if negb (r =? 0) then do* nkfs_con_fail r in ret r else send_loop pgs (len - ilen)
  end.

Definition nkfs_con_send_pages (pgs : Upages.nkfs_pages) (len : Z) : M Z :=
  if Upages.len pgs <? len then ret (- EINVAL) else send_loop (Upages.pages pgs) len.

(** ** Requests *)

Definition nkfs_con_get_obj (p reply : nkfs_net_pkt) : M Z :=
  if (dsize p =? 0) || (NKFS_NET_PKT_MAX_DSIZE <? dsize p) then ret (- EINVAL)
  else
    let* c := on_mem (Upages.nkfs_pages_create (dsize p)) in
    match c with
    | inl err => do* nkfs_con_send_reply reply err in ret err
    | inr pgs =>
        let* g := on_st (os_get (Route.id_at e 0 (u p)) (u64_at e 16 (u p)) 0 (dsize p) (Upages.pages pgs)) in
        let* r :=
          match g with
          | inl err => do* nkfs_con_send_reply reply err in ret err
          | inr (read, l) =>
              let pgs := Upages.NkPages l (Upages.len pgs) in
              let* d := if negb (read =? 0) then lift (Upages.nkfs_pages_dsum e ctx pgs read) else ret (inr (dsum reply)) in
              match d with
              | inl err => do* nkfs_con_send_reply reply err in ret err
              | inr s =>
                  let* r := nkfs_con_send_reply (with_data read s reply) 0 in
                  if negb (r =? 0) then ret r
                  else if negb (read =? 0) then nkfs_con_send_pages pgs read else ret r
              end
          end in
        do* on_mem (Upages.nkfs_pages_release pgs) in
        ret r
    end.

Definition nkfs_con_put_obj (p reply : nkfs_net_pkt) : M Z :=
  let* c := nkfs_con_recv_pages p in
  match c with
  | inl err =>
      let* old := gets c_err in
      do* (if old =? 0 then let* _ := nkfs_con_send_reply reply err in ret tt else ret tt) in
      ret err
  | inr pgs =>
      let* r := on_st (os_put (Route.id_at e 0 (u p)) (u64_at e 16 (u p)) 0 (dsize p) (Upages.pages pgs)) in
      let* r := nkfs_con_send_reply reply (code r) in
      do* on_mem (Upages.nkfs_pages_release pgs) in
      ret r
  end.

(** What the random source gives to the next object. *)
Definition next_rnd : M (Z * list byte) := fun s => Done (sv_rnd s (sv_rtick s)) (set_rtick (S (sv_rtick s)) s).

Definition nkfs_con_create_obj (reply : nkfs_net_pkt) : M Z :=
  let* rnd := next_rnd in
  let* r := on_st (os_create rnd) in
  let reply := match r with inr o => with_u (memcpy_at (u reply) 0 (Route.id_bytes e o)) reply | inl _ => reply end in
  nkfs_con_send_reply reply (code r).

Definition nkfs_con_delete_obj (p reply : nkfs_net_pkt) : M Z :=
  let* r := on_st (os_delete (Route.id_at e 0 (u p))) in
  nkfs_con_send_reply reply (code r).

Definition nkfs_con_echo (reply : nkfs_net_pkt) : M Z := nkfs_con_send_reply reply 0.

Definition nkfs_con_query_obj (p reply : nkfs_net_pkt) : M Z :=
  let* r := on_st (os_query (Route.id_at e 0 (u p))) in
  let reply := match r with inr i => with_u (memcpy_at (u reply) 16 (info_bytes e i)) reply | inl _ => reply end in
  nkfs_con_send_reply reply (code r).

(** Of src/core/route.c. *)
Definition nkfs_route_neigh_handshake (p reply : nkfs_net_pkt) : M Z :=
  let* r := on_route (Route.nkfs_neigh_handshake (Route.id_at e 0 (u p)) (Route.id_at e 16 (u p)) (Route.u32_at e 32 (u p)) (Route.int_at e 36 (u p))) in
  let reply := match r with inr o => with_u (memcpy_at (u reply) 40 (Route.id_bytes e o)) reply | inl _ => reply end in
  nkfs_con_send_reply reply (code r).

Definition nkfs_route_neigh_heartbeat (p reply : nkfs_net_pkt) : M Z :=
  let* r := on_route (Route.nkfs_neigh_heartbeat (Route.id_at e 0 (u p)) (Route.id_at e 16 (u p)) (Route.id_at e 32 (u p)) Route.NKFS_NET_PKT_MAX_NEIGHS) in
  let reply :=
    match r with
    | inr (o, l) =>
        with_u (memcpy_at (memcpy_at (memcpy_at (u reply) 48 (Route.id_bytes e o)) 64 (concat (peer_bytes e <$> l))) 192
          (store e 4 (Z.of_nat (length l)))) reply
    | inl _ => reply
    end in
  nkfs_con_send_reply reply (code r).

(** A packet from memory that is zero. *)
Definition pkt_alloc : M (option nkfs_net_pkt) := let* f := on_mem Upages.fails in ret (net_pkt_alloc f).

(** The [switch] of [nkfs_con_process_pkt]. *)
Definition switch (p reply : nkfs_net_pkt) : M Z :=
  if type p =? NKFS_NET_PKT_ECHO then nkfs_con_echo reply
  else if type p =? NKFS_NET_PKT_PUT_OBJ then nkfs_con_put_obj p reply
  else if type p =? NKFS_NET_PKT_GET_OBJ then nkfs_con_get_obj p reply
  else if type p =? NKFS_NET_PKT_DELETE_OBJ then nkfs_con_delete_obj p reply
  else if type p =? NKFS_NET_PKT_CREATE_OBJ then nkfs_con_create_obj reply
  else if type p =? NKFS_NET_PKT_QUERY_OBJ then nkfs_con_query_obj p reply
  else if type p =? Route.NKFS_NET_PKT_NEIGH_HANDSHAKE then nkfs_route_neigh_handshake p reply
  else if type p =? Route.NKFS_NET_PKT_NEIGH_HEARTBEAT then nkfs_route_neigh_heartbeat p reply
  else nkfs_con_send_reply reply (- EINVAL).

Definition nkfs_con_process_pkt (p : nkfs_net_pkt) : M Z :=
  let* a := pkt_alloc in
  match a with
  | None => do* nkfs_con_fail (- ENOMEM) in ret (- ENOMEM)
  | Some reply => switch p reply
  end.

(** One turn of the thread's loop: [false] leaves it. *)
Definition con_turn : M bool :=
  let* old := gets c_err in
  if negb (old =? 0) then ret false
  else
    let* a := pkt_alloc in
    match a with
    | None => do* nkfs_con_fail (- ENOMEM) in ret false
    | Some _ =>
        let* r := nkfs_con_recv_pkt in
        match r with
        | inl _ => ret false
        | inr p => let* _ := nkfs_con_process_pkt p in ret true
        end
    end.

Definition nkfs_con_close : M unit := modify set_closed.

(** The thread, for as many turns as [fuel]; the server is not stopping, so the
    thread closes the connection. *)
Fixpoint nkfs_con_thread_routine (fuel : nat) : M unit :=
  match fuel with
  | O => no_fuel
  | S fuel =>
      let* more := con_turn in
      if (more : bool) then nkfs_con_thread_routine fuel else nkfs_con_close
  end.

End Net.

Arguments server St : clear implicits.

End Net.
