(* ===== verification/NetSpec.v ===== *)
(** * Packets and pages over a connection

    A packet that is sent is the packet that is received; data go through the
    pages of a request unchanged; each request is answered by one packet with the
    result of the call it asks for. *)

From Stdlib Require Import ZArith Lia.
From coqutil Require Import Byte.
From stdpp Require Import base list.
From S2P Require Import Prelude XXHash Bytes StMonad Csum Mem CharHex ObjId NetPkt Upages Sock Inode SbList Route Net.
Import XXHash Bytes StMonad Csum ObjId NetPkt Net.
Local Open Scope Z_scope.
Local Open Scope stm_scope.

Module NetSpec.

(** ** Packets on the wire *)

Record pkt_wf (p : nkfs_net_pkt) : Prop := {
  w_sign1 : 0 <= sign1 p < 2 ^ 32;
  w_type : 0 <= type p < 2 ^ 32;
  w_dsize : 0 <= dsize p < 2 ^ 32;
  w_err : - 2 ^ 31 <= err p < 2 ^ 31;
  w_u : length (u p) = 324%nat;
  w_dsum : 0 <= dsum p < 2 ^ 64;
  w_sum : 0 <= sum p < 2 ^ 64;
  w_sign2 : 0 <= sign2 p < 2 ^ 32
}.

Lemma s32_u32 x : - 2 ^ 31 <= x < 2 ^ 31 -> s32 (u32 x) = x.
Proof. intros Hx. unfold s32, wrap. rewrite Z.mod_mod by lia. destruct (Z.ltb_spec (x mod 2 ^ 32) (2 ^ 31)); dlia. Qed.

Section Wire.
Context (e : XXH_endianess).

Lemma pkt_bytes_length p : length (u p) = 324%nat -> length (pkt_bytes e p) = 360%nat.
Proof. intros Hu. unfold pkt_bytes, pkt_prefix. cbn [concat]. rewrite !length_app, !store_length, Hu. done. Qed.

Lemma pkt_wire p : pkt_wf p -> pkt_of_bytes e (pkt_bytes e p) = p.
Proof.
  intros []. destruct p as [s1 ty ds er un dm sm s2]. cbn in *. unfold pkt_of_bytes, pkt_bytes, pkt_prefix. cbn [sign1 type dsize err u dsum sum sign2].
  set (fs := [store e 4 s1; store e 4 ty; store e 4 ds; store e 4 (u32 er); un; store e 8 dm; store e 8 sm; store e 4 s2]).
  match goal with |- Pkt (load e (field 0 4 ?b)) _ _ _ _ _ _ _ = _ => assert (E : b = concat fs) by (cbn; by rewrite ?app_nil_r, <- ?app_assoc) end.
  rewrite E.
  assert (F : forall k f off n, nth_error fs k = Some f -> length (concat (take k fs)) = off -> length f = n -> field off n (concat fs) = f).
  { intros k f off n Hk Ho Hn. rewrite <- (take_drop k fs) at 1. assert (Ed : drop k fs = f :: drop (S k) fs).
    { apply nth_error_split in Hk as (l1 & l2 & -> & <-). rewrite drop_app_length. change (S (length l1)) with (1 + length l1)%nat.
      rewrite Nat.add_comm, <- drop_drop, drop_app_length. done. }
    rewrite Ed. by apply field_concat. }
  f_equal.
  - rewrite (F 0%nat (store e 4 s1)) by (cbn; rewrite ?length_app, ?store_length; done). by apply load_store.
  - rewrite (F 1%nat (store e 4 ty)) by (cbn; rewrite ?length_app, ?store_length; done). by apply load_store.
  - rewrite (F 2%nat (store e 4 ds)) by (cbn; rewrite ?length_app, ?store_length; done). by apply load_store.
  - rewrite (F 3%nat (store e 4 (u32 er))) by (cbn; rewrite ?length_app, ?store_length; done).
    rewrite load_store by (apply wrap_bounds; lia). by apply s32_u32.
  - apply (F 4%nat un); [done|cbn; rewrite ?length_app, ?store_length; done|done].
  - rewrite (F 5%nat (store e 8 dm)) by (cbn; rewrite ?length_app, ?store_length, ?w_u0; done). by apply load_store.
  - rewrite (F 6%nat (store e 8 sm)) by (cbn; rewrite ?length_app, ?store_length, ?w_u0; done). by apply load_store.
  - rewrite (F 7%nat (store e 4 s2)) by (cbn; rewrite ?length_app, ?store_length, ?w_u0; done). by apply load_store.
Qed.

Lemma lxor_bound a b n : 0 <= n -> 0 <= a < 2 ^ n -> 0 <= b < 2 ^ n -> 0 <= Z.lxor a b < 2 ^ n.
Proof.
  intros Hn Ha Hb. assert (H0 : 0 <= Z.lxor a b) by (apply Z.lxor_nonneg; lia). split; [done|].
  destruct (Z.eq_dec (Z.lxor a b) 0) as [->|Hne]; [lia|]. apply Z.log2_lt_pow2; [lia|].
  pose proof (Z.log2_lxor a b ltac:(lia) ltac:(lia)) as Hl.
  assert (forall x, 0 <= x < 2 ^ n -> Z.log2 x < n \/ x = 0).
  { intros x Hx. destruct (Z.eq_dec x 0); [by right|left]. apply Z.log2_lt_pow2; lia. }
  destruct (H a Ha) as [?| ->], (H b Hb) as [?| ->]; rewrite ?Z.lxor_0_l, ?Z.lxor_0_r in *; [lia|lia|lia|done].
Qed.

Lemma csum_bound d : 0 <= csum_xxh64 d < 2 ^ 64.
Proof.
  unfold csum_xxh64, XXH64_endian_align. destruct (if at_least 32 d then _ else _) as [h p]. unfold XXH64_finalize. destruct (XXH64_tail8 _ _ _ _ _) as [h1 p1].
  destruct (XXH64_tail4 _ _ _ _) as [h2 p2]. unfold XXH64_avalanche. set (x := u64 (_ * PRIME64_3)). assert (Hx : 0 <= x < 2 ^ 64) by (apply wrap_bounds; lia).
  clearbody x. apply lxor_bound; [lia|done|]. rewrite Z.shiftr_div_pow2 by lia. dlia.
Qed.

(** What [net_pkt_sign] leaves of a packet, and that the receiver takes it. *)
Lemma sign_wf ctx p : length (mem64 ctx) = 32%nat -> pkt_wf p -> pkt_wf (net_pkt_sign e ctx p).
Proof.
  intros Hm []. unfold net_pkt_sign. split; cbn; try done.
  rewrite net_pkt_sum_value by done. apply csum_bound.
Qed.

End Wire.

Section Con.
Context {St : Type} `{ObjStore St}.
Context (e : XXH_endianess) (ctx : csum_ctx) (Hctx : length (mem64 ctx) = 32%nat).

Local Abbreviation server := (Net.server St).

(** ** A connection without failures *)

Record healthy (s : server) : Prop := {
  h_err : c_err s = 0;
  h_calm : Sock.calm (c_sock s);
  h_tx : forall t, Sock.tx_err (c_sock s) t = None;
  h_mem : forall t, Upages.fail (sv_mem s) t = false;
  h_junk : forall t, length (Upages.junk (sv_mem s) t) = 4096%nat
}.

(** The socket after [k] calls with [r] to read and [t] sent; memory after [n] allocations. *)
Definition at_wire (k : nat) (r t : list byte) (s : server) : server :=
  set_sock (Sock.MkSocket r (Sock.rx_end (c_sock s)) t (Sock.tx_err (c_sock s)) (Sock.opt_err (c_sock s)) (Sock.piece (c_sock s)) (Sock.jiffies (c_sock s)) k) s.

Definition memory (n : nat) (s : server) : server := set_mem (Upages.with_tick n (sv_mem s)) s.

Definition to_read (s : server) : list byte := Sock.rx (c_sock s).
Definition sent (s : server) : list byte := Sock.tx (c_sock s).

Lemma healthy_wire k r t s : healthy s -> healthy (at_wire k r t s).
Proof. intros []. split; try done. by apply (Sock.sock_calm_same (c_sock s)). Qed.

Lemma healthy_memory n s : healthy s -> healthy (memory n s).
Proof. intros []. by split. Qed.

Lemma spec_zoom {S' A} (get : server -> S') put (m : StMonad.M S' A) s (Q : A -> server -> Prop) :
  spec m (get s) (fun a x => Q a (put x s)) -> spec (zoom get put m) s Q.
Proof. unfold spec, zoom. by destruct (m (get s)). Qed.

Lemma spec_con_recv nob s (Q : Z + list byte -> server -> Prop) : healthy s -> 0 <= nob < 2 ^ 32 -> nob <= Z.of_nat (length (to_read s)) ->
  (forall k, Q (inr (take (Z.to_nat nob) (to_read s))) (at_wire k (drop (Z.to_nat nob) (to_read s)) (sent s) s)) -> spec (nkfs_con_recv nob) s Q.
Proof.
  intros [] Hn Hl HQ. apply spec_bind, spec_gets. rewrite h_err0. cbn [Z.eqb negb]. apply spec_bind, spec_zoom, Sock.spec_ksock_read; [done|done|done|]. intros k.
  cbn [fst snd Z.eqb negb]. unfold to_read in *. rewrite length_take, (proj2 (Z.eqb_eq _ _)) by lia. cbn [negb]. apply spec_ret. exact (HQ k).
Qed.

Lemma spec_con_send buf s (Q : Z -> server -> Prop) : healthy s -> Z.of_nat (length buf) < 2 ^ 32 ->
  (forall k, Q 0 (at_wire k (to_read s) (sent s ++ buf) s)) -> spec (nkfs_con_send buf) s Q.
Proof.
  intros [] Hl HQ. apply spec_bind, spec_gets. rewrite h_err0. cbn [Z.eqb negb]. apply spec_bind, spec_zoom, Sock.spec_ksock_write; [done|done|done|]. intros k.
  cbn [fst snd Z.eqb negb]. rewrite Z.eqb_refl. cbn [negb]. apply spec_ret. exact (HQ k).
Qed.

Lemma spec_send_pkt p s (Q : Z -> server -> Prop) : healthy s -> length (u p) = 324%nat ->
  (forall k, Q 0 (at_wire k (to_read s) (sent s ++ pkt_bytes e (net_pkt_sign e ctx p)) s)) -> spec (nkfs_con_send_pkt e ctx p) s Q.
Proof. intros Hs Hu HQ. apply spec_con_send; [done|rewrite pkt_bytes_length by done; lia|done]. Qed.

Lemma spec_recv_pkt ctx' p rest s (Q : Z + nkfs_net_pkt -> server -> Prop) : length (mem64 ctx') = 32%nat -> healthy s -> pkt_wf p -> dsize p <= NKFS_NET_PKT_MAX_DSIZE ->
  to_read s = pkt_bytes e (net_pkt_sign e ctx' p) ++ rest ->
  (forall k, Q (inr (net_pkt_sign e ctx' p)) (at_wire k rest (sent s) s)) -> spec (nkfs_con_recv_pkt e ctx) s Q.
Proof.
  intros Hc' Hs Hp Hd Hr HQ. pose proof (sign_wf e ctx' p Hc' Hp) as Hw. pose proof (pkt_bytes_length e _ (w_u _ Hw)) as Hl.
  apply spec_bind, spec_con_recv; [done|done|rewrite Hr, length_app; unfold PKT_SIZE; lia|]. intros k. cbn zeta. rewrite Hr.
  change (Z.to_nat PKT_SIZE) with 360%nat. rewrite take_app_length', drop_app_length' by done. rewrite pkt_wire by done.
  rewrite (proj2 (net_pkt_check_signed e ctx ctx' p Hctx Hc' (w_u _ Hp) (proj1 (w_dsize _ Hp))) Hd). cbn [Z.eqb negb]. apply spec_ret, HQ.
Qed.

(** ** Data in pages *)

Definition pages_of (l : list (list byte)) : Prop := Forall (fun pg => length pg = 4096%nat) l.

Lemma spec_recv_loop todo : forall dn read s (Q : Z + list (list byte) -> server -> Prop), healthy s -> pages_of todo ->
  0 <= read <= 4096 * Z.of_nat (length todo) -> read <= Z.of_nat (length (to_read s)) ->
  (forall l k, length l = length todo -> pages_of l -> take (Z.to_nat read) (concat l) = take (Z.to_nat read) (to_read s) ->
     Q (inr (dn ++ l)) (at_wire k (drop (Z.to_nat read) (to_read s)) (sent s) s)) -> spec (recv_loop todo dn read) s Q.
Proof.
  induction todo as [|pg todo IH]; intros dn read s Q Hs Hp Hr Hl HQ; cbn [recv_loop].
  { cbn in Hr. replace read with 0 in * by lia. cbn. apply spec_ret. specialize (HQ [] (Sock.sk (c_sock s)) eq_refl Hp eq_refl). destruct s as [? ? ? ? ? ? ? []]. exact HQ. }
  destruct (Z.leb_spec read 0).
  { replace read with 0 in * by lia. apply spec_ret. specialize (HQ (pg :: todo) (Sock.sk (c_sock s)) eq_refl Hp eq_refl). destruct s as [? ? ? ? ? ? ? []]. exact HQ. }
  apply Forall_cons in Hp as [Hpg Hp]. cbn [length] in Hr. set (llen := if 4096 <? read then 4096 else read).
  assert (Hll : 0 < llen <= 4096 /\ llen <= read) by (unfold llen; destruct (Z.ltb_spec 4096 read); lia).
  apply spec_bind, spec_con_recv; [done|lia|lia|]. intros k. set (b := take (Z.to_nat llen) (to_read s)).
  assert (Hb : length b = Z.to_nat llen) by (unfold b; rewrite length_take; lia).
  apply IH; [by apply healthy_wire|done|unfold llen; destruct (Z.ltb_spec 4096 read); lia|cbn; rewrite length_drop; lia|].
  intros l k' Ll Wl El. rewrite <- app_assoc. cbn [app to_read sent at_wire set_sock c_sock Sock.rx Sock.tx] in *. rewrite drop_drop in *.
  replace (Z.to_nat llen + Z.to_nat (read - llen))%nat with (Z.to_nat read) in * by lia.
  apply (HQ (memcpy_at pg 0 b :: l) k'); [by cbn; rewrite Ll|constructor; [rewrite memcpy_at_length; [done|lia]|done]|].
  cbn [concat]. unfold memcpy_at. rewrite take_0, Nat.add_0_l. cbn [app]. unfold llen in *. destruct (Z.ltb_spec 4096 read).
  - rewrite (drop_ge pg) by lia. rewrite app_nil_r, take_app_ge, Hb by lia. replace (Z.to_nat read - Z.to_nat 4096)%nat with (Z.to_nat (read - 4096)) by lia.
    rewrite El. unfold b. rewrite take_take_drop. f_equal. lia.
  - rewrite <- app_assoc, take_app_le, take_ge by lia. done.
Qed.

Lemma spec_send_loop pgs : forall len s (Q : Z -> server -> Prop), healthy s -> pages_of pgs -> 0 <= len <= 4096 * Z.of_nat (length pgs) ->
  (forall k, Q 0 (at_wire k (to_read s) (sent s ++ take (Z.to_nat len) (concat pgs)) s)) -> spec (send_loop pgs len) s Q.
Proof.
  induction pgs as [|pg pgs IH]; intros len s Q Hs Hp Hl HQ; cbn [send_loop].
  { cbn in Hl. replace len with 0 in * by lia. cbn. apply spec_ret. specialize (HQ (Sock.sk (c_sock s))). rewrite app_nil_r in HQ. destruct s as [? ? ? ? ? ? ? []]. exact HQ. }
  destruct (Z.leb_spec len 0).
  { replace len with 0 in * by lia. apply spec_ret. specialize (HQ (Sock.sk (c_sock s))). rewrite app_nil_r in HQ. destruct s as [? ? ? ? ? ? ? []]. exact HQ. }
  apply Forall_cons in Hp as [Hpg Hp]. cbn [length] in Hl. set (ilen := if 4096 <? len then 4096 else len).
  assert (Hll : 0 < ilen <= 4096 /\ ilen <= len) by (unfold ilen; destruct (Z.ltb_spec 4096 len); lia).
  apply spec_bind, spec_con_send; [done|rewrite length_take; lia|]. intros k. cbn [Z.eqb negb].
  apply IH; [by apply healthy_wire|done|unfold ilen; destruct (Z.ltb_spec 4096 len); lia|]. intros k'. specialize (HQ k').
  cbn [app to_read sent at_wire set_sock c_sock Sock.rx Sock.tx concat] in *. rewrite <- app_assoc.
  replace (take (Z.to_nat ilen) pg ++ take (Z.to_nat (len - ilen)) (concat pgs)) with (take (Z.to_nat len) (pg ++ concat pgs)); [exact HQ|].
  unfold ilen in *. destruct (Z.ltb_spec 4096 len).
  - rewrite take_app_ge, (take_ge pg) by lia. do 2 f_equal. lia.
  - rewrite Z.sub_diag. cbn [Z.to_nat]. rewrite take_0, app_nil_r, take_app_le by lia. done.
Qed.

(** ** One turn of the thread *)

Lemma spec_pkt_alloc s (Q : option nkfs_net_pkt -> server -> Prop) : healthy s ->
  (forall n, Q (Some net_pkt_zero) (memory n s)) -> spec pkt_alloc s Q.
Proof.
  intros [] HQ. apply spec_bind, spec_zoom. unfold spec, Upages.fails. rewrite h_mem0. apply HQ.
Qed.

Lemma spec_turn ctx' p rest s (Q : bool -> server -> Prop) : length (mem64 ctx') = 32%nat -> healthy s -> pkt_wf p -> dsize p <= NKFS_NET_PKT_MAX_DSIZE ->
  to_read s = pkt_bytes e (net_pkt_sign e ctx' p) ++ rest ->
  (forall k n, spec (switch e ctx (net_pkt_sign e ctx' p) net_pkt_zero) (at_wire k rest (sent s) (memory n s)) (fun _ s' => Q true s')) ->
  spec (con_turn e ctx) s Q.
Proof.
  intros Hc' Hs Hp Hd Hr HQ. apply spec_bind, spec_gets. rewrite (h_err _ Hs). cbn [Z.eqb negb]. apply spec_bind, spec_pkt_alloc; [done|]. intros n.
  apply spec_bind. eapply spec_recv_pkt; [exact Hc'|by apply healthy_memory|exact Hp|exact Hd|exact Hr|]. intros k.
  apply spec_bind, spec_bind, spec_pkt_alloc; [by apply healthy_wire, healthy_memory|]. intros n'. eapply spec_mono; [exact (HQ k n')|]. intros r s' HQ'. by apply spec_ret.
Qed.

Lemma spec_send_reply reply r s (Q : Z -> server -> Prop) : healthy s -> length (u reply) = 324%nat ->
  (forall k, Q 0 (at_wire k (to_read s) (sent s ++ pkt_bytes e (net_pkt_sign e ctx (with_err r reply))) s)) -> spec (nkfs_con_send_reply e ctx reply r) s Q.
Proof. intros Hs Hu HQ. by apply spec_send_pkt. Qed.

(** ** Requests on objects *)

(** The thread after an answer: what is left to read, what was sent, the objects. *)
Definition answered (rest out : list byte) (st : St) (s s' : server) : Prop :=
  exists k n, s' = at_wire k rest (sent s ++ out) (memory n (set_st st s)).

Definition reply_bytes (r : Z) (reply : nkfs_net_pkt) : list byte := pkt_bytes e (net_pkt_sign e ctx (with_err r reply)).

Lemma spec_os {A} (m : StMonad.M St A) s r st' (Q : A -> server -> Prop) : m (sv_st s) = Done r st' -> Q r (set_st st' s) -> spec (on_st m) s Q.
Proof. intros E HQ. apply spec_zoom. unfold spec. by rewrite E. Qed.

Lemma healthy_st st s : healthy s -> healthy (set_st st s).
Proof. intros []. by split. Qed.

Lemma spec_switch_delete p s r st' (Q : Z -> server -> Prop) : healthy s -> type p = NKFS_NET_PKT_DELETE_OBJ ->
  os_delete (Route.id_at e 0 (u p)) (sv_st s) = Done r st' ->
  (forall s', answered (to_read s) (reply_bytes (code r) net_pkt_zero) st' s s' -> Q 0 s') -> spec (switch e ctx p net_pkt_zero) s Q.
Proof.
  intros Hs Ht E HQ. unfold switch. rewrite Ht. cbn [Z.eqb Pos.eqb NKFS_NET_PKT_ECHO NKFS_NET_PKT_PUT_OBJ NKFS_NET_PKT_GET_OBJ NKFS_NET_PKT_DELETE_OBJ].
  apply spec_bind. eapply spec_os; [exact E|]. apply spec_send_reply; [by apply healthy_st|done|]. intros k. apply HQ. exists k, (Upages.tick (sv_mem s)).
  destruct s as [? ? [] ? ? ? ? []]. done.
Qed.

Lemma spec_switch_query p s r st' (Q : Z -> server -> Prop) : healthy s -> type p = NKFS_NET_PKT_QUERY_OBJ ->
  os_query (Route.id_at e 0 (u p)) (sv_st s) = Done r st' -> (forall i, r = inr i -> length (info_bytes e i) = 308%nat) ->
  (forall s', answered (to_read s) (reply_bytes (code r)
     (match r with inr i => with_u (memcpy_at (u net_pkt_zero) 16 (info_bytes e i)) net_pkt_zero | inl _ => net_pkt_zero end)) st' s s' -> Q 0 s') ->
  spec (switch e ctx p net_pkt_zero) s Q.
Proof.
  intros Hs Ht E Hi HQ. unfold switch. rewrite Ht. cbn [Z.eqb Pos.eqb NKFS_NET_PKT_ECHO NKFS_NET_PKT_PUT_OBJ NKFS_NET_PKT_GET_OBJ NKFS_NET_PKT_DELETE_OBJ NKFS_NET_PKT_CREATE_OBJ NKFS_NET_PKT_QUERY_OBJ].
  apply spec_bind. eapply spec_os; [exact E|]. cbn zeta. apply spec_send_reply; [by apply healthy_st| |].
  - destruct r as [|i]; [done|]. cbn [with_u u]. rewrite memcpy_at_length; [done|]. rewrite Hi by done. cbn. lia.
  - intros k. apply HQ. exists k, (Upages.tick (sv_mem s)). destruct s as [? ? [] ? ? ? ? []]. done.
Qed.

Lemma id_bytes_length o : length (Route.id_bytes e o) = 16%nat.
Proof. unfold Route.id_bytes. by rewrite length_app, !store_length. Qed.

(** A new object takes the next of the random source. *)
Lemma spec_switch_create p s r st' (Q : Z -> server -> Prop) : healthy s -> type p = NKFS_NET_PKT_CREATE_OBJ ->
  os_create (sv_rnd s (sv_rtick s)) (sv_st s) = Done r st' ->
  (forall s', answered (to_read s) (reply_bytes (code r)
     (match r with inr o => with_u (memcpy_at (u net_pkt_zero) 0 (Route.id_bytes e o)) net_pkt_zero | inl _ => net_pkt_zero end)) st' (set_rtick (S (sv_rtick s)) s) s' -> Q 0 s') ->
  spec (switch e ctx p net_pkt_zero) s Q.
Proof.
  intros Hs Ht E HQ. unfold switch. rewrite Ht. cbn [Z.eqb Pos.eqb NKFS_NET_PKT_ECHO NKFS_NET_PKT_PUT_OBJ NKFS_NET_PKT_GET_OBJ NKFS_NET_PKT_DELETE_OBJ NKFS_NET_PKT_CREATE_OBJ].
  apply spec_bind. unfold spec at 1, next_rnd. apply spec_bind. eapply spec_os; [exact E|]. cbn zeta. apply spec_send_reply.
  - destruct Hs. by split.
  - destruct r as [|o]; [done|]. cbn [with_u u]. rewrite memcpy_at_length; [done|]. rewrite id_bytes_length. cbn. lia.
  - intros k. apply HQ. exists k, (Upages.tick (sv_mem s)). destruct s as [? ? [] ? ? ? ? []]. done.
Qed.

Lemma spec_switch_echo p s (Q : Z -> server -> Prop) : healthy s -> type p = NKFS_NET_PKT_ECHO ->
  (forall s', answered (to_read s) (reply_bytes 0 net_pkt_zero) (sv_st s) s s' -> Q 0 s') -> spec (switch e ctx p net_pkt_zero) s Q.
Proof.
  intros Hs Ht HQ. unfold switch. rewrite Ht. cbn [Z.eqb Pos.eqb NKFS_NET_PKT_ECHO]. apply spec_send_reply; [done|done|]. intros k. apply HQ.
  exists k, (Upages.tick (sv_mem s)). destruct s as [? ? [] ? ? ? ? []]. done.
Qed.

(** Pages taken and given back. *)
Lemma memory_back (m : Upages.mem) (s : server) x a n : sv_mem s = Upages.with_tick n (Upages.with_live (Upages.live_pages m + x) (Upages.live_arrays m + a) m) ->
  set_mem (Upages.with_live (Upages.live_pages (sv_mem s) - x) (Upages.live_arrays (sv_mem s) - a) (sv_mem s)) s = set_mem (Upages.with_tick n m) s.
Proof. intros E. rewrite E. destruct m. cbn. unfold Upages.with_live, Upages.with_tick. cbn. f_equal. f_equal; lia. Qed.

Definition holds (data : list byte) (pgs : list (list byte)) : Prop :=
  pages_of pgs /\ Z.of_nat (length pgs) = (Z.of_nat (length data) + 4095) / 4096 /\ take (length data) (concat pgs) = data.

Lemma spec_switch_put p data rest s (Q : Z -> server -> Prop) : healthy s -> type p = NKFS_NET_PKT_PUT_OBJ -> dsize p = Z.of_nat (length data) ->
  0 < dsize p <= NKFS_NET_PKT_MAX_DSIZE -> dsum p = csum_xxh64 data -> to_read s = data ++ rest ->
  (forall pgs, holds data pgs -> exists r st', os_put (Route.id_at e 0 (u p)) (u64_at e 16 (u p)) 0 (dsize p) pgs (sv_st s) = Done r st' /\
     forall s', answered rest (reply_bytes (code r) net_pkt_zero) st' s s' -> Q 0 s') -> spec (switch e ctx p net_pkt_zero) s Q.
Proof.
  intros Hs Ht Hd Hmax Hsum Hr HQ. unfold switch. rewrite Ht. cbn [Z.eqb Pos.eqb NKFS_NET_PKT_ECHO NKFS_NET_PKT_PUT_OBJ].
  unfold NKFS_NET_PKT_MAX_DSIZE in Hmax. apply spec_bind. unfold nkfs_con_recv_pages.
  rewrite (proj2 (Z.eqb_neq _ _)), (proj2 (Z.ltb_ge _ _)) by (unfold NKFS_NET_PKT_MAX_DSIZE; lia). cbn [orb].
  apply spec_bind, spec_zoom, Upages.spec_pages_create; [lia|apply Hs|apply Hs|]. intros pgs n Lp Wp. cbn [Upages.pages Upages.len].
  set (s1 := set_mem _ s). assert (Hs1 : healthy s1) by (destruct Hs; by split).
  apply spec_bind, spec_recv_loop; [done|done|rewrite Lp; dlia|change (to_read s1) with (to_read s); rewrite Hr, length_app; lia|]. intros l k Ll Wl El. cbn [app].
  change (to_read s1) with (to_read s) in *. rewrite Hd, Nat2Z.id, Hr, take_app_length, drop_app_length in *.
  apply spec_bind. eapply spec_lift.
  { apply Upages.pages_dsum_value; [done|exact Wl|cbn; lia|cbn [Upages.pages]; rewrite Ll, Lp; dlia|lia]. }
  cbn [Upages.pages]. rewrite Nat2Z.id, El. unfold net_pkt_check_dsum. rewrite Hsum, Z.eqb_refl. cbn [negb]. apply spec_ret.
  destruct (HQ l) as (r & st' & E & HQ'). { split_and!; [done|by rewrite Ll, Lp|done]. }
  apply spec_bind. eapply spec_os; [exact E|]. apply spec_bind, spec_send_reply; [by apply healthy_st, healthy_wire|done|]. intros k'.
  apply spec_bind, spec_zoom, Upages.spec_pages_release, spec_ret, HQ'. exists k', n. cbn [Upages.pages]. rewrite Ll.
  rewrite (memory_back (sv_mem s) _ _ 1 n) by done. done.
Qed.

(** What a read gives back: the pages it was given, with [read] bytes in them. *)
Definition got_pages (pgs : list (list byte)) (size : Z) (r : Z + Z * list (list byte)) : Prop :=
  match r with
  | inl err => err <> 0
  | inr (read, l) => 0 <= read <= size /\ length l = length pgs /\ pages_of l
  end.

(** The bytes of the answer: the packet and the data. *)
Definition get_reply (r : Z + Z * list (list byte)) : list byte :=
  match r with
  | inl err => reply_bytes err net_pkt_zero
  | inr (read, l) =>
      let data := take (Z.to_nat read) (concat l) in
      reply_bytes 0 (with_data read (if read =? 0 then 0 else csum_xxh64 data) net_pkt_zero) ++ data
  end.

Lemma spec_switch_get p s (Q : Z -> server -> Prop) : healthy s -> type p = NKFS_NET_PKT_GET_OBJ -> 0 < dsize p <= NKFS_NET_PKT_MAX_DSIZE ->
  (forall pgs, pages_of pgs -> Z.of_nat (length pgs) = (dsize p + 4095) / 4096 ->
     exists r st', os_get (Route.id_at e 0 (u p)) (u64_at e 16 (u p)) 0 (dsize p) pgs (sv_st s) = Done r st' /\ got_pages pgs (dsize p) r /\
       forall s', answered (to_read s) (get_reply r) st' s s' -> forall c, Q c s') -> spec (switch e ctx p net_pkt_zero) s Q.
Proof.
  intros Hs Ht Hmax HQ. unfold switch. rewrite Ht. cbn [Z.eqb Pos.eqb NKFS_NET_PKT_ECHO NKFS_NET_PKT_PUT_OBJ NKFS_NET_PKT_GET_OBJ].
  unfold NKFS_NET_PKT_MAX_DSIZE in Hmax. unfold nkfs_con_get_obj.
  rewrite (proj2 (Z.eqb_neq _ _)), (proj2 (Z.ltb_ge _ _)) by (unfold NKFS_NET_PKT_MAX_DSIZE; lia). cbn [orb].
  apply spec_bind, spec_zoom, Upages.spec_pages_create; [lia|apply Hs|apply Hs|]. intros pgs n Lp Wp. cbn [Upages.pages Upages.len].
  set (s1 := set_mem _ s). assert (Hs1 : healthy s1) by (destruct Hs; by split).
  destruct (HQ pgs Wp Lp) as (r & st' & E & Hg & HQ'). apply spec_bind. eapply spec_os; [exact E|]. set (s2 := set_st st' s1).
  assert (Hs2 : healthy s2) by by apply healthy_st.
  assert (Hend : forall c k out, out = get_reply r -> spec (do* on_mem (Upages.nkfs_pages_release (Upages.NkPages pgs (dsize p))) in ret c) (at_wire k (to_read s) (sent s ++ out) s2) Q).
  { intros c k out ->. apply spec_bind, spec_zoom, Upages.spec_pages_release, spec_ret, HQ'. exists k, n. cbn [Upages.pages].
    rewrite (memory_back (sv_mem s) _ _ 1 n) by done. done. }
  apply spec_bind. destruct r as [err|[read l]].
  { apply spec_bind, spec_send_reply; [done|done|]. intros k. by apply spec_ret, Hend. }
  destruct Hg as (Hrd & Ll & Wl). apply spec_bind. destruct (Z.eqb_spec read 0) as [->|H0]; cbn [negb].
  - apply spec_ret, spec_bind, spec_send_reply; [done|done|]. intros k. cbn [Z.eqb negb]. apply spec_ret, Hend. unfold get_reply. change (Z.to_nat 0) with 0%nat. rewrite take_0, app_nil_r. reflexivity.
  - eapply spec_lift. { apply Upages.pages_dsum_value; [done|exact Wl|cbn; lia|cbn [Upages.pages]; rewrite Ll, Lp; dlia|lia]. }
    apply spec_bind, spec_send_reply; [done|done|]. intros k. cbn [Z.eqb negb]. unfold nkfs_con_send_pages. cbn [Upages.pages Upages.len].
    rewrite (proj2 (Z.ltb_ge _ _)) by lia. apply spec_send_loop; [by apply healthy_wire|done|rewrite Ll, Lp; dlia|]. intros k'.
    cbn [to_read sent at_wire set_sock c_sock Sock.rx Sock.tx]. rewrite <- app_assoc. apply (Hend 0 k'). unfold get_reply. by rewrite (proj2 (Z.eqb_neq _ _)).
Qed.

(** The one answer that is not sent. *)
Lemma spec_switch_get_nothing p s (Q : Z -> server -> Prop) : type p = NKFS_NET_PKT_GET_OBJ -> dsize p = 0 -> Q (- EINVAL) s -> spec (switch e ctx p net_pkt_zero) s Q.
Proof.
  intros Ht Hd HQ. unfold switch. rewrite Ht. cbn [Z.eqb Pos.eqb NKFS_NET_PKT_ECHO NKFS_NET_PKT_PUT_OBJ NKFS_NET_PKT_GET_OBJ].
  unfold nkfs_con_get_obj. rewrite Hd. by apply spec_ret.
Qed.

End Con.

End NetSpec.
