(* ===== verification/Client.v ===== *)
(** * The client library (src/client/lib/client.c)

    A client sends a request on its connection and waits for the answer.  Here it
    is linked to one connection thread of a host: what the client sends arrives
    at the thread's socket, what the thread sends is what the client receives.
    When the client waits, the thread runs until it has sent something; if the
    thread waits too, both do, forever.

    The pieces in which [send] and [recv] work and their errors are the client
    kernel's: functions of the number of the call. *)

From Stdlib Require Import ZArith Lia.
From coqutil Require Import Byte.
From stdpp Require Import base list.
From S2P Require Import Prelude XXHash Bytes StMonad Csum Mem CharHex ObjId NetPkt Upages Sock Inode SbList Route Net.
Import XXHash Bytes StMonad Csum ObjId NetPkt Net.
Local Open Scope Z_scope.
Local Open Scope stm_scope.

Module Client.

Section Client.
Context {St : Type} `{ObjStore St}.
(** The contexts of the host's and of the client's checksums. *)
Context (e : XXH_endianess) (ctx cctx : csum_ctx).

Record client := Cl {
  cl_srv : server St;
  cl_err : Z;
  send_err : nat -> option Z;
  recv_err : nat -> option Z;
  cl_piece : nat -> nat;
  cl_tick : nat
}.

Abbreviation M := (StMonad.M client).

Definition set_srv (s : server St) (c : client) : client := Cl s (cl_err c) (send_err c) (recv_err c) (cl_piece c) (cl_tick c).
Definition set_cerr (r : Z) (c : client) : client := Cl (cl_srv c) r (send_err c) (recv_err c) (cl_piece c) (cl_tick c).
Definition set_ctick (n : nat) (c : client) : client := Cl (cl_srv c) (cl_err c) (send_err c) (recv_err c) (cl_piece c) n.

(** ** The thread at the other end *)

Definition on_srv {A} (m : StMonad.M (server St) A) : M A := fun c =>
  match m (cl_srv c) with
  | Done a s => Done a (set_srv s c)
  | Crash => Crash
  | Hang => Hang
  | NoFuel => NoFuel
  end.

(** Until the thread has sent something or left; every turn that goes on reads a
    packet. *)
Fixpoint serve (fuel : nat) : StMonad.M (server St) unit :=
  let* s := gets id in
  match Sock.tx (c_sock s) with
  | _ :: _ => ret tt
  | [] =>
      if negb (c_open s) then ret tt
      else match fuel with
      | O => no_fuel
      | S fuel => let* more := con_turn e ctx in if (more : bool) then serve fuel else nkfs_con_close
      end
  end.

(** ** System calls *)

Definition tick_call {A} (f : nat -> client -> A) : M A := fun c => Done (f (cl_tick c) c) (set_ctick (S (cl_tick c)) c).

(** [errno], or how many bytes were taken. *)
Definition sys_send (buf : list byte) : M (Z + Z) :=
  let* r := tick_call (fun t c => (send_err c t, S (cl_piece c t))) in
  match fst r with
  | Some err => ret (inl err)
  | None =>
      let out := take (snd r) buf in
      do* on_srv (modify (fun s => set_sock (Sock.set_rx (Sock.rx (c_sock s) ++ out) (c_sock s)) s)) in
      ret (inr (Z.of_nat (length out)))
  end.

(** [errno], or the bytes: none when the thread has left. *)
Definition sys_recv (n : Z) : M (Z + list byte) :=
  let* r := tick_call (fun t c => (recv_err c t, S (cl_piece c t))) in
  match fst r with
  | Some err => ret (inl err)
  | None =>
      do* on_srv (fun s => serve (S (length (Sock.rx (c_sock s)))) s) in
      let* l := gets (fun c => Sock.tx (c_sock (cl_srv c))) in
      let got := take (Nat.min (Z.to_nat n) (snd r)) l in
      do* on_srv (modify (fun s => set_sock (Sock.set_tx (drop (length got) l) (c_sock s)) s)) in
      ret (inr got)
  end.

(** ** Sending and receiving *)

Definition con_fail (err : Z) : M unit := modify (set_cerr err).

(** [do ... while (total_sent < size)]; a turn sends a byte at least. *)
Fixpoint send_all (fuel : nat) (buf : list byte) : M Z :=
  match fuel with
  | O => no_fuel
  | S fuel =>
      let* r := sys_send buf in
      match r with
      | inl err => do* con_fail err in ret err
      | inr n => let buf := drop (Z.to_nat n) buf in if 0 <? Z.of_nat (length buf) then send_all fuel buf else ret 0
      end
  end.

Definition con_send (buf : list byte) : M Z :=
  let* err := gets cl_err in
  if negb (err =? 0) then ret err else send_all (S (length buf)) buf.

(** At the end of the stream [recv] gives nothing and the loop spins. *)
Fixpoint recv_all (fuel : nat) (size : Z) (got : list byte) : M (Z + list byte) :=
  match fuel with
  | O => no_fuel
  | S fuel =>
      let* r := sys_recv (size - Z.of_nat (length got)) in
      match r with
      | inl err => do* con_fail err in ret (inl err)
      | inr l =>
          let got := got ++ l in
          if Z.of_nat (length got) <? size then
            match l with
            | [] => hang
            | _ => recv_all fuel size got
            end
          else ret (inr got)
      end
  end.

Definition con_recv (size : Z) : M (Z + list byte) :=
  let* err := gets cl_err in
  if negb (err =? 0) then ret (inl err) else recv_all (S (Z.to_nat size)) size [].

(** ** Requests *)

(** The request, the data that follow it if any, and the answer, which is checked
    and may be an error. *)
Definition send_cmd (cmd : nkfs_net_pkt) (data : option (list byte)) : M Z :=
  let* err := con_send (pkt_bytes e (net_pkt_sign e cctx cmd)) in
  if negb (err =? 0) then ret err
  else match data with None => ret 0 | Some data => con_send data end.

Definition recv_reply : M (Z + nkfs_net_pkt) :=
  let* r := con_recv PKT_SIZE in
  match r with
  | inl err => ret (inl err)
  | inr b =>
      let reply := pkt_of_bytes e b in
      let err := net_pkt_check e cctx reply in
      if negb (err =? 0) then ret (inl err) else ret (inr reply)
  end.

Definition request (cmd : nkfs_net_pkt) (data : option (list byte)) : M (Z + nkfs_net_pkt) :=
  let* err := send_cmd cmd data in
  if negb (err =? 0) then ret (inl err) else recv_reply.

Definition cmd_pkt (ty size sum : Z) (fs : list (list byte)) : nkfs_net_pkt := Pkt 0 ty size 0 (Route.pkt_union fs) sum 0 0.

Definition data_sum (data : list byte) : Z := csum_digest e (csum_update e (csum_reset cctx) data).

Definition nkfs_put_object (o : nkfs_obj_id) (off : Z) (data : list byte) : M Z :=
  let* r := request (cmd_pkt NKFS_NET_PKT_PUT_OBJ (Z.of_nat (length data)) (data_sum data) [Route.id_bytes e o; store e 8 off]) (Some data) in
  ret (match r with inl err => err | inr reply => err reply end).

(** The data of the answer go to the buffer of [size] bytes whatever their number;
    writing past its end is undefined and stops the model. *)
Definition nkfs_get_object (o : nkfs_obj_id) (off size : Z) : M (Z + list byte) :=
  let* r := request (cmd_pkt NKFS_NET_PKT_GET_OBJ size 0 [Route.id_bytes e o; store e 8 off]) None in
  match r with
  | inl err => ret (inl err)
  | inr reply =>
      if negb (err reply =? 0) then ret (inl (err reply))
      else if dsize reply =? 0 then ret (inr [])
      else
        do* BUG_ON (size <? dsize reply) in
        let* d := con_recv (dsize reply) in
        match d with
        | inl err => ret (inl err)
        | inr data =>
            let err := net_pkt_check_dsum reply (data_sum data) in
            if negb (err =? 0) then ret (inl err) else ret (inr data)
        end
  end.

Definition nkfs_delete_object (o : nkfs_obj_id) : M Z :=
  let* r := request (cmd_pkt NKFS_NET_PKT_DELETE_OBJ 0 0 [Route.id_bytes e o]) None in
  ret (match r with inl err => err | inr reply => err reply end).

(** The error and what the caller's structure then holds: it is written also when
    the answer is an error, but not when there is no answer. *)
Definition nkfs_query_object (o : nkfs_obj_id) : M (Z * option (list byte)) :=
  let* r := request (cmd_pkt NKFS_NET_PKT_QUERY_OBJ 0 0 [Route.id_bytes e o]) None in
  ret (match r with inl err => (err, None) | inr reply => (err reply, Some (field 16 308 (u reply))) end).

Definition nkfs_create_object : M (Z + nkfs_obj_id) :=
  let* r := request (cmd_pkt NKFS_NET_PKT_CREATE_OBJ 0 0 []) None in
  ret (match r with inl err => inl err | inr reply => if negb (err reply =? 0) then inl (err reply) else inr (Route.id_at e 0 (u reply)) end).

Definition nkfs_echo : M Z :=
  let* r := request (cmd_pkt NKFS_NET_PKT_ECHO 0 0 []) None in
  ret (match r with inl err => err | inr reply => err reply end).

End Client.

Arguments client St : clear implicits.

End Client.
