(* ===== verification/ClientTool.v ===== *)
(** * The client program (src/client/main.c)

    [nkfs_client put] stores a file as a new object and prints its id, [get]
    writes an object to a new file, [query] and [delete] act on one object.  The
    program runs beside the files of its machine and one host; a connection is a
    new thread of that host ([nkfs_connect] and [nkfs_close] of
    src/client/lib/client.c).

    What the kernel of the client's machine does is [sys]: which calls fail, how
    much a call takes, by the number of the call.  [inet_aton] is of the C
    library.  Strings are without their terminator. *)

From Stdlib Require Import ZArith Lia.
From coqutil Require Import Byte.
From stdpp Require Import base list.
From S2P Require Import Prelude XXHash Bytes StMonad Csum Mem CharHex ObjId NetPkt Upages Sock Inode SbList Route Net Client.
Import XXHash Bytes StMonad Csum Mem CharHex ObjId NetPkt Net Client.
Local Open Scope Z_scope.
Local Open Scope stm_scope.

(** ** Of the C library *)

Module Libc.

(** The characters of a string and the zeros after it, as [unsigned char]. *)
Definition char_at (s : list byte) (i : nat) : Z := default 0 (byte.unsigned <$> s !! i).

(** The first [n] characters, up to and with a terminator. *)
Fixpoint strncmp_from (i n : nat) (a b : list byte) : Z :=
  match n with
  | O => 0
  | S n =>
      let d := char_at a i - char_at b i in
      if negb (d =? 0) then d else if char_at a i =? 0 then 0 else strncmp_from (S i) n a b
  end.

Definition strncmp (a b : list byte) (n : nat) : Z := strncmp_from 0 n a b.

(** What [printf] writes of an array for [%s]. *)
Fixpoint c_str (s : list byte) : list byte :=
  match s with
  | [] => []
  | b :: s => if byte.unsigned b =? 0 then [] else b :: c_str s
  end.

(** [(int) strtol(s, NULL, 10)]. *)
Definition is_space (c : Z) : bool := (c =? 32) || ((9 <=? c) && (c <=? 13)).

Fixpoint digits (s : list byte) (acc : Z) : Z :=
  match s with
  | [] => acc
  | b :: s => let c := byte.unsigned b in if (48 <=? c) && (c <=? 57) then digits s (10 * acc + (c - 48)) else acc
  end.

Fixpoint skip_space (s : list byte) : list byte :=
  match s with
  | [] => []
  | b :: s' => if is_space (byte.unsigned b) then skip_space s' else s
  end.

Definition strtol (s : list byte) : Z :=
  match skip_space s with
  | [] => 0
  | b :: s' =>
      let c := byte.unsigned b in
      let v := if c =? 45 then - digits s' 0 else if c =? 43 then digits s' 0 else digits (b :: s') 0 in
      Z.max (- 2 ^ 63) (Z.min (2 ^ 63 - 1) v)
  end.

Definition atoi (s : list byte) : Z := s32 (strtol s).

End Libc.

Module ClientTool.
Import Libc.

Definition EBADF : Z := 9.
Definition ENOTCONN : Z := 107.
Definition NKFS_E_CON_INIT_FAILED : Z := s32 (NKFS_E_BASE + 7).
Definition NKFS_SRV_PORT : Z := 9111.
Definition buf_size : Z := 16 * 4096.

Record sys := Sys {
  open_err : nat -> option Z;
  read_err : nat -> option Z;
  read_piece : nat -> nat;
  write_err : nat -> option Z;
  write_piece : nat -> nat;
  socket_err : nat -> bool;
  connect_err : Z -> Z -> nat -> bool;   (* by address and port *)
  net_send : nat -> option Z;
  net_recv : nat -> option Z;
  net_piece : nat -> nat;
  peer : nat -> Sock.socket              (* the socket of the host's thread *)
}.

Inductive output :=
  | PutId (hex : list byte)
  | ObjInfo (hex_obj_id : list byte) (size block bsize : Z) (dev_name hex_sb_id : list byte).

Definition cmd_equal (cmd val : list byte) : bool := strncmp cmd val (length val + 1) =? 0.

Section ClientTool.
Context {St : Type} `{ObjStore St}.
Context (e : XXH_endianess) (ctx cctx : csum_ctx).
Context (k : sys) (inet_aton : list byte -> option Z) (junk : byte).

(** The connection with the host behind it, the files by path, the memory of the
    program and its output. *)
Record world := World {
  w_cl : client St;
  w_fs : list byte -> option (list byte);
  w_heap : heap;
  w_out : list output;
  w_tick : nat
}.

Abbreviation M := (StMonad.M world).

Definition set_cl (c : client St) (w : world) : world := World c (w_fs w) (w_heap w) (w_out w) (w_tick w).
Definition set_heap (h : heap) (w : world) : world := World (w_cl w) (w_fs w) h (w_out w) (w_tick w).
Definition set_file (p d : list byte) (w : world) : world :=
  World (w_cl w) (fun q => if bool_decide (q = p) then Some d else w_fs w q) (w_heap w) (w_out w) (w_tick w).
Definition print (o : output) (w : world) : world := World (w_cl w) (w_fs w) (w_heap w) (w_out w ++ [o]) (w_tick w).
Definition set_tick (n : nat) (w : world) : world := World (w_cl w) (w_fs w) (w_heap w) (w_out w) n.

Definition con {A} (m : StMonad.M (client St) A) : M A := fun w =>
  match m (w_cl w) with
  | Done a c => Done a (set_cl c w)
  | Crash => Crash
  | Hang => Hang
  | NoFuel => NoFuel
  end.

Definition mem {A} (f : heap -> A * heap) : M A := fun w => let '(a, h) := f (w_heap w) in Done a (set_heap h w).
Definition free (p : nat) : M unit := modify (fun w => set_heap (crt_free p (w_heap w)) w).

Definition sys_call {A} (f : nat -> A) : M A := fun w => Done (f (w_tick w)) (set_tick (S (w_tick w)) w).

(** ** Connections *)

(** The descriptor is closed: every call on it fails. *)
Definition unplug (c : client St) : client St := Cl (cl_srv c) (cl_err c) (fun _ => Some EBADF) (fun _ => Some EBADF) (cl_piece c) (cl_tick c).

(** The host has a new connection, and a thread for it. *)
Definition accept (s : Sock.socket) (c : client St) : client St :=
  let v := cl_srv c in
  Cl (Srv (sv_st v) (sv_route v) (sv_mem v) (sv_rnd v) (sv_rtick v) 0 true
        (Sock.MkSocket [] None [] (Sock.tx_err s) (Sock.opt_err s) (Sock.piece s) (Sock.jiffies s) 0))
    (cl_err c) (net_send k) (net_recv k) (net_piece k) (cl_tick c).

Definition con_init : M Z :=
  do* con (modify (set_cerr 0)) in
  let* bad := sys_call (socket_err k) in
  if (bad : bool) then do* con (con_fail NKFS_E_CON_INIT_FAILED) in ret NKFS_E_CON_INIT_FAILED else ret 0.

Definition nkfs_connect (ip : list byte) (port : Z) : M Z :=
  let* err := con_init in
  if negb (err =? 0) then ret err
  else match inet_aton ip with
  | None => do* con (modify unplug) in ret (- EFAULT)
  | Some addr =>
      let* bad := sys_call (connect_err k addr (wrap 16 port)) in
      if (bad : bool) then do* con (modify unplug) in ret (- ENOTCONN)
      else let* s := sys_call (peer k) in do* con (modify (accept s)) in ret 0
  end.

(** The thread reads what is left and finds the end of the stream. *)
Definition hangup : StMonad.M (server St) unit :=
  let* s := gets id in
  if c_open s then
    let sk := c_sock s in
    do* modify (set_sock (Sock.MkSocket (Sock.rx sk) (Some 0) [] (Sock.tx_err sk) (Sock.opt_err sk) (Sock.piece sk) (Sock.jiffies sk) (Sock.sk sk))) in
    nkfs_con_thread_routine e ctx (S (length (Sock.rx sk)))
  else ret tt.

Definition nkfs_close : M unit :=
  do* con (on_srv hangup) in
  con (modify unplug).

(** ** Files *)

(** [errno], or what the file holds. *)
Definition open_rdonly (path : list byte) : M (Z + list byte) :=
  let* err := sys_call (open_err k) in
  match err with
  | Some err => ret (inl err)
  | None => let* f := gets (fun w => w_fs w path) in ret (match f with None => inl ENOENT | Some d => inr d end)
  end.

(** [O_WRONLY|O_CREAT|O_EXCL]: zero, or [errno]. *)
Definition open_creat (path : list byte) : M Z :=
  let* err := sys_call (open_err k) in
  match err with
  | Some err => ret err
  | None =>
      let* f := gets (fun w => w_fs w path) in
      match f with
      | Some _ => ret EEXIST
      | None => do* modify (set_file path []) in ret 0
      end
  end.

Definition sys_read (rest : list byte) (n : Z) : M (Z + list byte) :=
  let* r := sys_call (fun t => (read_err k t, S (read_piece k t))) in
  match fst r with
  | Some err => ret (inl err)
  | None => ret (inr (take (Nat.min (Z.to_nat n) (snd r)) rest))
  end.

(** At the end of the file; [None]: the call failed. *)
Definition sys_write (path buf : list byte) : M (option Z) :=
  let* r := sys_call (fun t => (write_err k t, S (write_piece k t))) in
  match fst r with
  | Some _ => ret None
  | None =>
      let out := take (snd r) buf in
      let* f := gets (fun w => w_fs w path) in
      do* modify (set_file path (default [] f ++ out)) in
      ret (Some (Z.of_nat (length out)))
  end.

(** ** put *)

(** Every turn reads a byte at least. *)
Fixpoint put_loop (fuel : nat) (o : nkfs_obj_id) (off : Z) (rest : list byte) : M (Z + unit) :=
  match fuel with
  | O => no_fuel
  | S fuel =>
      let* r := sys_read rest buf_size in
      match r with
      | inl err => ret (inl err)
      | inr [] => ret (inr tt)
      | inr data =>
          let* err := con (nkfs_put_object e ctx cctx o off data) in
          if negb (err =? 0) then ret (inl err)
          else put_loop fuel o (u64 (off + Z.of_nat (length data))) (drop (length data) rest)
      end
  end.

(** From the new object on: the error, and the memory of the text of its id. *)
Definition put_new (content : list byte) : M (Z * option nat) :=
  let* r := con (nkfs_create_object e ctx cctx) in
  match r with
  | inl err => ret (err, None)
  | inr o =>
      let* hex := mem (nkfs_obj_id_str junk o) in
      let* r := match hex with
                | None => ret (inl (- EINVAL))
                | Some _ => put_loop (S (length content)) o 0 content
                end in
      match r with
      | inl err => let* _ := con (nkfs_delete_object e ctx cctx o) in ret (err, fst <$> hex)
      | inr _ => do* modify (print (PutId (c_str (default [] (snd <$> hex))))) in ret (0, fst <$> hex)
      end
  end.

Definition do_file_put (server : list byte) (port : Z) (fpath : list byte) : M Z :=
  let* fd := open_rdonly fpath in
  match fd with
  | inl err => ret err
  | inr content =>
      let* buf := mem crt_malloc in
      match buf with
      | None => ret (- ENOMEM)
      | Some buf =>
          let* err := nkfs_connect server port in
          if negb (err =? 0) then do* free buf in ret err
          else
            let* r := put_new content in
            do* nkfs_close in
            do* free buf in
            do* (match snd r with Some p => free p | None => ret tt end) in
            ret (fst r)
      end
  end.

(** ** get *)

(** [do ... while (wrote < read)]; [false]: the write failed. *)
Fixpoint write_loop (fuel : nat) (path buf : list byte) : M bool :=
  match fuel with
  | O => no_fuel
  | S fuel =>
      let* n := sys_write path buf in
      match n with
      | None => ret false
      | Some n =>
          let buf := drop (Z.to_nat n) buf in
          if 0 <? Z.of_nat (length buf) then write_loop fuel path buf else ret true
      end
  end.

(** When the write fails [err] is what [nkfs_get_object] left in it. *)
Fixpoint get_loop (fuel : nat) (o : nkfs_obj_id) (off : Z) (path : list byte) : M Z :=
  match fuel with
  | O => no_fuel
  | S fuel =>
      let* r := con (nkfs_get_object e ctx cctx o off buf_size) in
      match r with
      | inl err => ret err
      | inr [] => ret 0
      | inr data =>
          let* ok := write_loop (length data) path data in
          if (ok : bool) then get_loop fuel o (u64 (off + Z.of_nat (length data))) path else ret 0
      end
  end.

Definition do_file_get (fuel : nat) (server : list byte) (port : Z) (o : nkfs_obj_id) (fpath : list byte) : M Z :=
  let* err := open_creat fpath in
  if negb (err =? 0) then ret err
  else
    let* buf := mem crt_malloc in
    match buf with
    | None => ret (- ENOMEM)
    | Some buf =>
        let* err := nkfs_connect server port in
        if negb (err =? 0) then do* free buf in ret err
        else
          let* err := get_loop fuel o 0 fpath in
          do* nkfs_close in
          do* free buf in
          ret err
    end.

(** ** query and delete *)

(** Without memory for the second text the first is used after it was freed. *)
Definition output_obj_info (info : list byte) : M Z :=
  let* hex_obj := mem (nkfs_obj_id_str junk (Route.id_at e 0 info)) in
  match hex_obj with
  | None => ret (- ENOMEM)
  | Some (p, obj) =>
      let* hex_sb := mem (nkfs_obj_id_str junk (Route.id_at e 16 info)) in
      match hex_sb with
      | None => crash
      | Some (q, sb) =>
          do* modify (print (ObjInfo (c_str obj) (u64_at e 288 info) (u64_at e 296 info) (Route.u32_at e 304 info) (c_str (field 32 256 info)) (c_str sb))) in
          do* free p in
          do* free q in
          ret 0
      end
  end.

(** The error of [nkfs_connect] is not looked at.  A query that succeeds has
    filled [info]. *)
Definition do_obj_query (server : list byte) (port : Z) (o : nkfs_obj_id) : M Z :=
  let* _ := nkfs_connect server port in
  let* r := con (nkfs_query_object e ctx cctx o) in
  let* err := if negb (fst r =? 0) then ret (fst r)
              else match snd r with Some info => output_obj_info info | None => crash end in
  do* nkfs_close in
  ret err.

Definition do_obj_delete (server : list byte) (port : Z) (o : nkfs_obj_id) : M Z :=
  let* _ := nkfs_connect server port in
  let* err := con (nkfs_delete_object e ctx cctx o) in
  do* nkfs_close in
  ret err.

(** ** Commands *)

Definition PUT : list byte := map byte_of_nat [112; 117; 116]%nat.
Definition GET : list byte := map byte_of_nat [103; 101; 116]%nat.
Definition QUERY : list byte := map byte_of_nat [113; 117; 101; 114; 121]%nat.
Definition DELETE : list byte := map byte_of_nat [100; 101; 108; 101; 116; 101]%nat.

(** The identity of the text, for the time of the call. *)
Definition with_id (obj_id : list byte) (m : nkfs_obj_id -> M Z) : M Z :=
  let* id := mem (nkfs_obj_id_by_str obj_id) in
  match id with
  | None => ret (- EINVAL)
  | Some (p, o) => let* err := m o in do* free p in ret err
  end.

Definition do_cmd (fuel : nat) (cmd server : list byte) (port : Z) (fpath obj_id : option (list byte)) : M Z :=
  if cmd_equal cmd PUT then
    match fpath with
    | None => ret (- EINVAL)
    | Some fpath => do_file_put server port fpath
    end
  else if cmd_equal cmd GET then
    match fpath, obj_id with
    | None, _ | _, None => ret (- EINVAL)
    | Some fpath, Some obj_id => with_id obj_id (fun o => do_file_get fuel server port o fpath)
    end
  else if cmd_equal cmd QUERY then
    match obj_id with
    | None => ret (- EINVAL)
    | Some obj_id => with_id obj_id (do_obj_query server port)
    end
  else if cmd_equal cmd DELETE then
    match obj_id with
    | None => ret (- EINVAL)
    | Some obj_id => with_id obj_id (do_obj_delete server port)
    end
  else ret (- EINVAL).

(** The options as [getopt] gives them, with their arguments, and the arguments
    after them; an option it does not know is [None]. *)
Inductive copt := OptF (a : list byte) | OptI (a : list byte) | OptS (a : list byte) | OptP (a : list byte) | OptUnknown.

Record args := Args { a_fpath : option (list byte); a_obj_id : option (list byte); a_server : list byte; a_port : Z }.

(** 127.0.0.1 *)
Definition local_host : list byte := map byte_of_nat [49; 50; 55; 46; 48; 46; 48; 46; 49]%nat.

Fixpoint options (l : list copt) (a : args) : option args :=
  match l with
  | [] => Some a
  | OptF s :: l => options l (Args (Some s) (a_obj_id a) (a_server a) (a_port a))
  | OptI s :: l => options l (Args (a_fpath a) (Some s) (a_server a) (a_port a))
  | OptS s :: l => options l (Args (a_fpath a) (a_obj_id a) s (a_port a))
  | OptP s :: l => options l (Args (a_fpath a) (a_obj_id a) (a_server a) (atoi s))
  | OptUnknown :: _ => None
  end.

Definition main (fuel : nat) (opts : list copt) (rest : list (list byte)) : M Z :=
  match options opts (Args None None local_host NKFS_SRV_PORT), rest with
  | None, _ | Some _, [] => ret (- EINVAL)
  | Some a, cmd :: _ => do_cmd fuel cmd (a_server a) (a_port a) (a_fpath a) (a_obj_id a)
  end.

End ClientTool.

Arguments world St : clear implicits.

End ClientTool.
