(* ===== verification/ClientSpec.v ===== *)
(** * A request over the network is the call at the host

    On a link without failures each request of the client library has the result
    of the call it stands for at the host, changes the objects as that call does,
    and leaves the link as it found it, with nothing on the way. *)

From Stdlib Require Import ZArith Lia.
From coqutil Require Import Byte.
From stdpp Require Import base list.
From S2P Require Import Prelude XXHash Bytes StMonad Csum Mem CharHex ObjId NetPkt Upages Sock Inode SbList Route Net NetSpec Client.
Import XXHash Bytes StMonad Csum ObjId NetPkt Net NetSpec Client.
Local Open Scope Z_scope.
Local Open Scope stm_scope.

Module ClientSpec.

(** ** Packets of requests *)

Lemma field_union fs off n : (off + n <= length (concat fs) <= 324)%nat -> field off n (Route.pkt_union fs) = field off n (concat fs).
Proof.
  intros Hl. unfold Route.pkt_union, memcpy_at, field. rewrite take_0. cbn [app]. rewrite drop_app_le by lia. apply take_app_le. rewrite length_drop. lia.
Qed.

Lemma union_length fs : (length (concat fs) <= 324)%nat -> length (Route.pkt_union fs) = 324%nat.
Proof. intros Hl. unfold Route.pkt_union. rewrite memcpy_at_length; rewrite length_replicate; lia. Qed.

Lemma id_at_bytes e o off b rest : id_wf o -> length b = off -> Route.id_at e off (b ++ Route.id_bytes e o ++ rest) = o.
Proof.
  intros [Hh Hl] <-. unfold Route.id_at, Route.id_bytes. destruct o as [h l]. cbn [high low] in *. f_equal.
  - assert (E : field (length b) 8 (concat ([b] ++ store e 8 h :: [store e 8 l; rest])) = store e 8 h) by (apply field_concat; [cbn; by rewrite app_nil_r|apply store_length]).
    cbn [concat app] in E. rewrite app_nil_r, <- app_assoc in *. rewrite E. by apply load_store.
  - assert (E : field (length b + 8) 8 (concat ([b; store e 8 h] ++ store e 8 l :: [rest])) = store e 8 l).
    { apply field_concat; [cbn; by rewrite app_nil_r, length_app, store_length|apply store_length]. }
    cbn [concat app] in E. rewrite app_nil_r, <- app_assoc in *. rewrite E. by apply load_store.
Qed.

Section Link.
Context {St : Type} `{ObjStore St}.
Context (e : XXH_endianess) (ctx cctx : csum_ctx) (Hctx : length (mem64 ctx) = 32%nat) (Hcctx : length (mem64 cctx) = 32%nat).

Local Abbreviation server := (Net.server St).
Local Abbreviation client := (Client.client St).

(** ** A link without failures, with nothing on the way *)

Record linked (c : client) : Prop := {
  k_srv : healthy (cl_srv c);
  k_open : c_open (cl_srv c) = true;
  k_rx : to_read (cl_srv c) = [];
  k_tx : sent (cl_srv c) = [];
  k_err : cl_err c = 0;
  k_send : forall t, send_err c t = None;
  k_recv : forall t, recv_err c t = None
}.

Definition cl_at (t : nat) (s : server) (c : client) : client := set_ctick t (set_srv s c).

Definition upto (r t : list byte) (s : server) : server := at_wire (Sock.sk (c_sock s)) r t s.

Lemma upto_same s : upto (to_read s) (sent s) s = s.
Proof. by destruct s as [? ? ? ? ? ? ? []]. Qed.

Lemma spec_send_all fuel : forall buf t s c (Q : Z -> client -> Prop), (forall i, send_err c i = None) -> (length buf < fuel)%nat ->
  (forall t', Q 0 (cl_at t' (upto (to_read s ++ buf) (sent s) s) c)) -> spec (send_all fuel buf) (cl_at t s c) Q.
Proof.
  induction fuel as [|fuel IH]; intros buf t s c Q Hn Hf HQ; [lia|]. cbn [send_all]. apply spec_bind. unfold sys_send. apply spec_bind. unfold spec at 1, tick_call.
  cbn [fst snd send_err cl_at set_ctick set_srv]. rewrite Hn. set (n := S _). apply spec_bind. unfold spec at 1, on_srv, modify. apply spec_ret.
  rewrite Nat2Z.id, length_drop.
  assert (Ed : drop (length (take n buf)) buf = drop n buf).
  { rewrite length_take. destruct (Nat.min_spec n (length buf)) as [[? ->]|[? ->]]; [done|]. rewrite !drop_ge; [done|lia|lia]. }
  destruct (Z.ltb_spec 0 (Z.of_nat (length buf - length (take n buf)))).
  - rewrite Ed. set (s' := set_sock _ _). change (set_srv s' _) with (cl_at (S t) s' c). apply IH; [done|rewrite length_drop, length_take in *; unfold n; lia|].
    intros t'. specialize (HQ t'). unfold s'. cbn. unfold to_read in *. rewrite <- app_assoc, take_drop. exact HQ.
  - apply spec_ret. rewrite length_take in *. rewrite (take_ge buf) by lia. exact (HQ (S t)).
Qed.

Lemma spec_con_send_cl buf t s c (Q : Z -> client -> Prop) : cl_err c = 0 -> (forall i, send_err c i = None) ->
  (forall t', Q 0 (cl_at t' (upto (to_read s ++ buf) (sent s) s) c)) -> spec (con_send buf) (cl_at t s c) Q.
Proof. intros He Hn HQ. apply spec_bind, spec_gets. cbn [cl_err cl_at set_ctick set_srv]. rewrite He. cbn [Z.eqb negb]. apply spec_send_all; [done|lia|done]. Qed.

(** The thread has sent something already. *)
Lemma serve_sent fuel s : sent s <> [] -> serve e ctx fuel s = Done tt s.
Proof. intros Hs. unfold sent in Hs. destruct fuel; cbn; unfold bind, gets; cbn; by destruct (Sock.tx (c_sock s)). Qed.

Lemma spec_recv_all fuel : forall size got t s c (Q : Z + list byte -> client -> Prop), (forall i, recv_err c i = None) ->
  Z.of_nat (length got) < size -> size - Z.of_nat (length got) <= Z.of_nat (length (sent s)) -> (Z.to_nat (size - Z.of_nat (length got)) <= fuel)%nat ->
  (forall t', let n := Z.to_nat (size - Z.of_nat (length got)) in
     Q (inr (got ++ take n (sent s))) (cl_at t' (upto (to_read s) (drop n (sent s)) s) c)) -> spec (recv_all e ctx fuel size got) (cl_at t s c) Q.
Proof.
  induction fuel as [|fuel IH]; intros size got t s c Q Hn Hg Hl Hf HQ; [lia|]. cbn [recv_all]. apply spec_bind. unfold sys_recv. apply spec_bind. unfold spec at 1, tick_call.
  cbn [fst snd recv_err cl_at set_ctick set_srv cl_tick cl_piece]. rewrite Hn. set (m := Nat.min _ _). assert (Hm : (0 < m <= Z.to_nat (size - Z.of_nat (length got)))%nat) by (unfold m; lia).
  apply spec_bind. unfold spec at 1, on_srv. cbn [cl_srv set_ctick set_srv cl_at]. rewrite serve_sent by (intros E; rewrite E in Hl; cbn in Hl; lia).
  apply spec_bind, spec_gets. cbn [cl_srv set_srv set_ctick cl_at]. change (Sock.tx (c_sock s)) with (sent s).
  assert (Lt : length (take m (sent s)) = m) by (rewrite length_take; lia). rewrite Lt. apply spec_bind. unfold spec at 1, on_srv, modify. apply spec_ret. rewrite length_app, Lt.
  set (s' := set_sock _ _). change (set_srv s' _) with (cl_at (S t) s' c).
  destruct (Z.ltb_spec (Z.of_nat (length got + m)) size).
  - destruct (take m (sent s)) as [|b l] eqn:Et; [cbn in Lt; lia|]. rewrite <- Et in *.
    assert (Es : sent s' = drop m (sent s)) by done.
    apply IH; [done|rewrite length_app, Lt; lia|rewrite length_app, Lt, Es, length_drop; lia|rewrite length_app, Lt; lia|].
    intros t'. cbn zeta in *. rewrite length_app, Lt, Es, <- app_assoc. set (j := Z.to_nat (size - Z.of_nat (length got + m))). rewrite take_take_drop, drop_drop.
    replace (m + j)%nat with (Z.to_nat (size - Z.of_nat (length got))) by (unfold j; lia). exact (HQ t').
  - apply spec_ret. specialize (HQ (S t)). cbn zeta in HQ. assert (Em : Z.to_nat (size - Z.of_nat (length got)) = m) by lia. rewrite Em in HQ. exact HQ.
Qed.

Lemma spec_con_recv_cl size t s c (Q : Z + list byte -> client -> Prop) : cl_err c = 0 -> (forall i, recv_err c i = None) -> 0 < size <= Z.of_nat (length (sent s)) ->
  (forall t', Q (inr (take (Z.to_nat size) (sent s))) (cl_at t' (upto (to_read s) (drop (Z.to_nat size) (sent s)) s) c)) -> spec (con_recv e ctx size) (cl_at t s c) Q.
Proof.
  intros He Hn Hl HQ. apply spec_bind, spec_gets. cbn [cl_err cl_at set_ctick set_srv]. rewrite He. cbn [Z.eqb negb].
  apply spec_recv_all; [done|cbn; lia|cbn; lia|cbn; lia|]. intros t'. cbn zeta. cbn [length]. rewrite Z.sub_0_r. exact (HQ t').
Qed.

(** The thread runs when the client waits. *)
Lemma serve_turn fuel s s' : sent s = [] -> c_open s = true -> con_turn e ctx s = Done true s' -> sent s' <> [] -> serve e ctx (S fuel) s = Done tt s'.
Proof.
  intros Hs Ho Et Hs'. cbn [serve]. unfold bind at 1, gets. cbn [id]. unfold sent in Hs. rewrite Hs, Ho. cbn [negb]. unfold bind. rewrite Et. by apply serve_sent.
Qed.

Lemma sys_recv_served n t s s' c : (forall i, recv_err c i = None) -> sent s = [] -> c_open s = true -> con_turn e ctx s = Done true s' -> sent s' <> [] ->
  sys_recv e ctx n (cl_at t s c) = sys_recv e ctx n (cl_at t s' c).
Proof.
  intros Hn Hs Ho Et Hs'. unfold sys_recv, bind, tick_call, on_srv. cbn [fst snd recv_err cl_at set_ctick set_srv cl_tick cl_piece cl_srv]. rewrite Hn.
  cbn [cl_srv set_srv set_ctick]. rewrite (serve_turn _ s s'), serve_sent by done. done.
Qed.

Lemma spec_con_recv_served size t s c (Q : Z + list byte -> client -> Prop) : cl_err c = 0 -> (forall i, recv_err c i = None) -> 0 < size ->
  sent s = [] -> c_open s = true ->
  spec (con_turn e ctx) s (fun more s' => more = true /\ size <= Z.of_nat (length (sent s')) /\
    forall t', Q (inr (take (Z.to_nat size) (sent s'))) (cl_at t' (upto (to_read s') (drop (Z.to_nat size) (sent s')) s') c)) ->
  spec (con_recv e ctx size) (cl_at t s c) Q.
Proof.
  intros He Hn Hz Hs Ho Ht. apply spec_done in Ht as (more & s' & Et & -> & Hl & HQ).
  assert (Hs' : sent s' <> []) by (intros E; rewrite E in Hl; cbn in Hl; lia).
  pose proof (spec_con_recv_cl size t s' c Q He Hn ltac:(lia) HQ) as W. unfold spec in *. unfold con_recv, bind, gets in *. cbn [cl_err cl_at set_ctick set_srv] in *. rewrite He in *.
  cbn [Z.eqb negb recv_all] in *. unfold bind in *. by rewrite (sys_recv_served _ t s s').
Qed.

(** ** One request and its answer *)

(** The thread has answered with [reply] and [out] after it. *)
Definition replied (reply : nkfs_net_pkt) (out : list byte) (s' : server) : Prop :=
  pkt_wf reply /\ dsize reply <= NKFS_NET_PKT_MAX_DSIZE /\ to_read s' = [] /\ sent s' = pkt_bytes e (net_pkt_sign e ctx reply) ++ out.

Lemma spec_request cmd data c (Q : Z + nkfs_net_pkt -> client -> Prop) : linked c -> pkt_wf cmd ->
  spec (con_turn e ctx) (upto (pkt_bytes e (net_pkt_sign e cctx cmd) ++ default [] data) [] (cl_srv c))
    (fun more s' => more = true /\ exists reply out, replied reply out s' /\ forall t, Q (inr (net_pkt_sign e ctx reply)) (cl_at t (upto [] out s') c)) ->
  spec (request e ctx cctx cmd data) c Q.
Proof.
  intros Hk Hw Ht. pose proof (sign_wf e cctx cmd Hcctx Hw) as Hw'. destruct Hk. apply spec_bind.
  assert (Hsend : forall (Q' : Z -> client -> Prop), (forall t, Q' 0 (cl_at t (upto (pkt_bytes e (net_pkt_sign e cctx cmd) ++ default [] data) [] (cl_srv c)) c)) ->
    spec (send_cmd e cctx cmd data) c Q').
  { intros Q' HQ'. assert (Ec : c = cl_at (cl_tick c) (cl_srv c) c) by (by destruct c). rewrite Ec at 1. apply spec_bind, spec_con_send_cl; [done|done|]. intros t.
    cbn [Z.eqb negb]. rewrite k_rx0, k_tx0. cbn [app]. destruct data as [d|]; cbn [default] in *; [|apply spec_ret; rewrite app_nil_r in HQ'; apply HQ'].
    apply spec_con_send_cl; [done|done|]. exact HQ'. }
  apply Hsend. intros t. cbn [Z.eqb negb]. apply spec_bind.
  apply spec_con_recv_served; [done|done|done|done|done|]. eapply spec_mono; [exact Ht|]. intros more s' (-> & reply & out & (Rw & Rd & Rr & Rs) & HQ).
  pose proof (sign_wf e ctx reply Hctx Rw) as Rw'. pose proof (pkt_bytes_length e _ (w_u _ Rw')) as Hl.
  split; [done|]. rewrite Rs, Rr. split; [rewrite length_app; unfold PKT_SIZE; lia|]. intros t'. change (Z.to_nat PKT_SIZE) with 360%nat.
  rewrite take_app_length', drop_app_length' by done. cbn zeta. rewrite pkt_wire by done.
  rewrite (proj2 (net_pkt_check_signed e cctx ctx reply Hcctx Hctx (w_u _ Rw) (proj1 (w_dsize _ Rw))) Rd). apply spec_ret, HQ.
Qed.

(** ** The client after a request *)

Definition data_union (o : nkfs_obj_id) (off : Z) : list byte := Route.pkt_union [Route.id_bytes e o; store e 8 off].

Lemma data_union_fields o off : id_wf o -> 0 <= off < 2 ^ 64 ->
  Route.id_at e 0 (data_union o off) = o /\ u64_at e 16 (data_union o off) = off /\ length (data_union o off) = 324%nat.
Proof.
  intros Ho Hoff. unfold data_union. set (fs := [_; _]). assert (Hl : length (concat fs) = 24%nat) by (cbn; by rewrite !length_app, id_bytes_length, store_length).
  split_and!; [|unfold u64_at; rewrite field_union by lia|apply union_length; lia].
  - pose proof (id_at_bytes e o 0 [] (store e 8 off) Ho eq_refl) as E. unfold Route.id_at in *. rewrite !field_union by lia. cbn [concat fs app] in *. rewrite app_nil_r. exact E.
  - change fs with ([Route.id_bytes e o] ++ store e 8 off :: []). rewrite (field_concat 16 8); [by apply load_store|cbn; by rewrite app_nil_r, id_bytes_length|apply store_length].
Qed.

Lemma id_union_fields o : id_wf o -> Route.id_at e 0 (Route.pkt_union [Route.id_bytes e o]) = o /\ length (Route.pkt_union [Route.id_bytes e o]) = 324%nat.
Proof.
  intros Ho. set (fs := [_]). assert (Hl : length (concat fs) = 16%nat) by (cbn; by rewrite !length_app, id_bytes_length). split; [|apply union_length; lia].
  pose proof (id_at_bytes e o 0 [] [] Ho eq_refl) as E. unfold Route.id_at in *. rewrite !field_union by lia. cbn [concat fs app] in *. exact E.
Qed.

(** The link is as before, the host has the objects [st] and as much memory in use. *)
Definition after (st : St) (c c' : client) : Prop :=
  linked c' /\ sv_st (cl_srv c') = st /\ sv_route (cl_srv c') = sv_route (cl_srv c) /\
  Upages.live_pages (sv_mem (cl_srv c')) = Upages.live_pages (sv_mem (cl_srv c)) /\ Upages.live_arrays (sv_mem (cl_srv c')) = Upages.live_arrays (sv_mem (cl_srv c)).

Lemma after_answered st c t k n r : linked c -> after st c (cl_at t (upto [] [] (at_wire k [] r (memory n (set_st st (cl_srv c))))) c).
Proof.
  intros []. split; [|done]. split; cbn; try done. apply healthy_wire, healthy_wire, healthy_memory, healthy_st. done.
Qed.

Lemma zero_wf r size sum un : - 2 ^ 31 <= r < 2 ^ 31 -> 0 <= size < 2 ^ 32 -> 0 <= sum < 2 ^ 64 -> length un = 324%nat -> pkt_wf (with_err r (with_data size sum (with_u un net_pkt_zero))).
Proof. intros. by split. Qed.

Lemma cmd_wf ty size sum fs : 0 <= ty < 2 ^ 32 -> 0 <= size < 2 ^ 32 -> 0 <= sum < 2 ^ 64 -> (length (concat fs) <= 324)%nat -> pkt_wf (cmd_pkt ty size sum fs).
Proof. intros. split; try done. by apply union_length. Qed.

Lemma data_sum_value data : Z.of_nat (length data) < 2 ^ 32 -> data_sum e cctx data = csum_xxh64 data.
Proof.
  intros Hl. unfold data_sum. pose proof (csum_feed_xxh64 e cctx [data] Hcctx) as E. cbn [fold_left concat] in E. rewrite app_nil_r in E. apply E. lia.
Qed.

Definition is_int (r : Z) : Prop := - 2 ^ 31 <= r < 2 ^ 31.

Lemma spec_put_object o off data c (Q : Z -> client -> Prop) : linked c -> id_wf o -> 0 <= off < 2 ^ 64 -> 0 < Z.of_nat (length data) <= NKFS_NET_PKT_MAX_DSIZE ->
  (forall pgs, holds data pgs -> exists r st', os_put o off 0 (Z.of_nat (length data)) pgs (sv_st (cl_srv c)) = Done r st' /\ is_int (code r) /\
     forall c', after st' c c' -> Q (code r) c') -> spec (nkfs_put_object e ctx cctx o off data) c Q.
Proof.
  intros Hk Ho Hoff Hd HQ. unfold NKFS_NET_PKT_MAX_DSIZE in Hd. destruct (data_union_fields o off Ho Hoff) as (U1 & U2 & U3).
  set (cmd := cmd_pkt NKFS_NET_PKT_PUT_OBJ (Z.of_nat (length data)) (data_sum e cctx data) [Route.id_bytes e o; store e 8 off]).
  assert (Hw : pkt_wf cmd). { apply cmd_wf; [done|lia|rewrite data_sum_value by lia; apply csum_bound|cbn; rewrite !length_app, id_bytes_length, store_length; cbn; lia]. }
  apply spec_bind, spec_request; [done|done|]. cbn [default]. eapply spec_turn; [exact Hctx|exact Hcctx| |exact Hw|cbn; unfold NKFS_NET_PKT_MAX_DSIZE; lia|reflexivity|].
  { by apply healthy_wire, k_srv. }
  intros k n. apply (spec_switch_put e ctx Hctx _ data []); try done.
  - apply healthy_wire, healthy_memory, healthy_wire, Hk.
  - cbn. apply data_sum_value. lia.
  - cbn. by rewrite app_nil_r.
  - intros pgs Hp. destruct (HQ pgs Hp) as (r & st' & E & Hi & HQ'). exists r, st'. split.
    + cbn [dsize net_pkt_sign u]. change (u cmd) with (data_union o off). rewrite U1, U2. exact E.
    + intros s' (k' & n' & ->). split; [done|]. exists (with_err (code r) net_pkt_zero), []. split.
      * split_and!; [by apply (zero_wf _ 0 0)|done|done|]. by rewrite app_nil_r.
      * intros t. apply spec_ret. cbn. apply HQ'. by apply after_answered.
Qed.

(** What the client makes of a read at the host. *)
Definition got (r : Z + Z * list (list byte)) : Z + list byte :=
  match r with
  | inl err => inl err
  | inr (read, l) => inr (take (Z.to_nat read) (concat l))
  end.

Lemma spec_get_object o off size c (Q : Z + list byte -> client -> Prop) : linked c -> id_wf o -> 0 <= off < 2 ^ 64 -> 0 < size <= NKFS_NET_PKT_MAX_DSIZE ->
  (forall pgs, pages_of pgs -> Z.of_nat (length pgs) = (size + 4095) / 4096 ->
     exists r st', os_get o off 0 size pgs (sv_st (cl_srv c)) = Done r st' /\ got_pages pgs size r /\ is_int (code r) /\
       forall c', after st' c c' -> Q (got r) c') -> spec (nkfs_get_object e ctx cctx o off size) c Q.
Proof.
  intros Hk Ho Hoff Hd HQ. unfold NKFS_NET_PKT_MAX_DSIZE in Hd. destruct (data_union_fields o off Ho Hoff) as (U1 & U2 & U3).
  set (cmd := cmd_pkt NKFS_NET_PKT_GET_OBJ size 0 [Route.id_bytes e o; store e 8 off]).
  assert (Hw : pkt_wf cmd). { apply cmd_wf; [done|lia|lia|cbn; rewrite !length_app, id_bytes_length, store_length; cbn; lia]. }
  apply spec_bind, spec_request; [done|done|]. cbn [default]. eapply spec_turn; [exact Hctx|exact Hcctx| |exact Hw|cbn; unfold NKFS_NET_PKT_MAX_DSIZE; lia|reflexivity|].
  { by apply healthy_wire, k_srv. }
  intros k n. apply (spec_switch_get e ctx Hctx); [apply healthy_wire, healthy_memory, healthy_wire, Hk|done|done|].
  intros pgs Wp Lp. change (dsize _) with size in Lp. destruct (HQ pgs Wp Lp) as (r & st' & E & Hg & Hi & HQ'). exists r, st'. split_and!; [|done|].
  { cbn [dsize net_pkt_sign u]. change (u cmd) with (data_union o off). rewrite U1, U2. exact E. }
  intros s' (k' & n' & ->) _. split; [done|]. destruct r as [er|[read l]]; cbn [get_reply got got_pages code] in *.
  - exists (with_err er net_pkt_zero), []. split; [split_and!; [by apply (zero_wf _ 0 0)|done|done|exact (eq_sym (app_nil_r _))]|].
    intros t. cbn [err with_err net_pkt_sign]. rewrite (proj2 (Z.eqb_neq _ _)) by done. cbn [negb]. apply spec_ret, HQ'. by apply after_answered.
  - destruct Hg as (Hrd & Ll & Wl). set (data := take (Z.to_nat read) (concat l)) in *.
    assert (Hcl : length (concat l) = (4096 * length l)%nat) by (by apply length_concat_const).
    assert (Hrl : read <= 4096 * Z.of_nat (length pgs)) by (rewrite Lp; dlia).
    assert (Hld : length data = Z.to_nat read) by (unfold data; rewrite length_take, Hcl, Ll; lia).
    set (reply := with_err 0 (with_data read (if read =? 0 then 0 else csum_xxh64 data) net_pkt_zero)). exists reply, data. split.
    + split_and!; [|cbn; unfold NKFS_NET_PKT_MAX_DSIZE; lia|done|done]. apply (zero_wf 0); [lia|lia| |done]. destruct (read =? 0); [lia|apply csum_bound].
    + intros t. cbn [err dsize reply with_err with_data net_pkt_sign]. cbn [Z.eqb negb].
      destruct (Z.eqb_spec read 0) as [E0|E0].
      { apply spec_ret. assert (Ed : data = []) by (apply length_zero_iff_nil; lia). rewrite Ed in *. apply HQ'. by apply after_answered. }
      apply spec_bind, spec_bug_on; [lia|]. apply spec_bind, spec_con_recv_cl; [apply Hk|apply Hk|cbn; lia|]. intros t'.
      assert (Ht : take (Z.to_nat read) data = data) by (apply take_ge; lia). assert (Hdr : drop (Z.to_nat read) data = []) by (apply drop_ge; lia).
      change (sent (upto [] data _)) with data. rewrite Ht, Hdr. cbn zeta. rewrite data_sum_value by lia. unfold net_pkt_check_dsum. cbn [dsum reply with_err with_data net_pkt_sign].
      rewrite Z.eqb_refl. cbn [negb Z.eqb]. apply spec_ret, HQ'. by apply after_answered.
Qed.

Lemma spec_delete_object o c r st' (Q : Z -> client -> Prop) : linked c -> id_wf o -> os_delete o (sv_st (cl_srv c)) = Done r st' -> is_int (code r) ->
  (forall c', after st' c c' -> Q (code r) c') -> spec (nkfs_delete_object e ctx cctx o) c Q.
Proof.
  intros Hk Ho E Hi HQ. destruct (id_union_fields o Ho) as (U1 & U2). set (cmd := cmd_pkt NKFS_NET_PKT_DELETE_OBJ 0 0 [Route.id_bytes e o]).
  assert (Hw : pkt_wf cmd). { apply cmd_wf; [done|lia|lia|cbn; rewrite !length_app, id_bytes_length; cbn; lia]. }
  apply spec_bind, spec_request; [done|done|]. cbn [default]. eapply spec_turn; [exact Hctx|exact Hcctx| |exact Hw|done|reflexivity|].
  { by apply healthy_wire, k_srv. }
  intros k n. eapply (spec_switch_delete e ctx Hctx); [apply healthy_wire, healthy_memory, healthy_wire, Hk|done| |].
  { cbn [u net_pkt_sign]. change (u cmd) with (Route.pkt_union [Route.id_bytes e o]). rewrite U1. exact E. }
  intros s' (k' & n' & ->). split; [done|]. exists (with_err (code r) net_pkt_zero), [].
  split; [split_and!; [by apply (zero_wf _ 0 0)|done|done|exact (eq_sym (app_nil_r _))]|]. intros t. apply spec_ret, HQ. by apply after_answered.
Qed.

Lemma spec_query_object o c r st' (Q : Z * option (list byte) -> client -> Prop) : linked c -> id_wf o -> os_query o (sv_st (cl_srv c)) = Done r st' -> is_int (code r) ->
  (forall i, r = inr i -> length (info_bytes e i) = 308%nat) ->
  (forall c', after st' c c' -> Q (code r, Some (match r with inr i => info_bytes e i | inl _ => replicate 308 Init.Byte.x00 end)) c') ->
  spec (nkfs_query_object e ctx cctx o) c Q.
Proof.
  intros Hk Ho E Hi Hl HQ. destruct (id_union_fields o Ho) as (U1 & U2). set (cmd := cmd_pkt NKFS_NET_PKT_QUERY_OBJ 0 0 [Route.id_bytes e o]).
  assert (Hw : pkt_wf cmd). { apply cmd_wf; [done|lia|lia|cbn; rewrite !length_app, id_bytes_length; cbn; lia]. }
  apply spec_bind, spec_request; [done|done|]. cbn [default]. eapply spec_turn; [exact Hctx|exact Hcctx| |exact Hw|done|reflexivity|].
  { by apply healthy_wire, k_srv. }
  intros k n. eapply (spec_switch_query e ctx Hctx); [apply healthy_wire, healthy_memory, healthy_wire, Hk|done| |exact Hl|].
  { cbn [u net_pkt_sign]. change (u cmd) with (Route.pkt_union [Route.id_bytes e o]). rewrite U1. exact E. }
  intros s' (k' & n' & ->). split; [done|]. destruct r as [er|i].
  - exists (with_err er net_pkt_zero), []. split; [split_and!; [by apply (zero_wf _ 0 0)|done|done|exact (eq_sym (app_nil_r _))]|].
    intros t. apply spec_ret, HQ. by apply after_answered.
  - specialize (Hl i eq_refl). set (un := memcpy_at (u net_pkt_zero) 16 (info_bytes e i)).
    assert (Hu : length un = 324%nat) by (unfold un; rewrite memcpy_at_length; [done|rewrite Hl; cbn; lia]).
    exists (with_err 0 (with_u un net_pkt_zero)), []. split; [split_and!; [exact (zero_wf 0 0 0 un ltac:(lia) ltac:(lia) ltac:(lia) Hu)|done|done|exact (eq_sym (app_nil_r _))]|].
    intros t. apply spec_ret. cbn [u net_pkt_sign with_err with_u err]. unfold un. rewrite <- Hl at 1. rewrite field_memcpy by (rewrite Hl; cbn; lia).
    apply HQ. by apply after_answered.
Qed.

(** The objects after the next random number was taken. *)
Lemma spec_create_object c r st' (Q : Z + nkfs_obj_id -> client -> Prop) : linked c ->
  os_create (sv_rnd (cl_srv c) (sv_rtick (cl_srv c))) (sv_st (cl_srv c)) = Done r st' -> is_int (code r) -> (forall err, r = inl err -> err <> 0) -> (forall o, r = inr o -> id_wf o) ->
  (forall c', after st' c c' -> Q r c') -> spec (nkfs_create_object e ctx cctx) c Q.
Proof.
  intros Hk E Hi He Ho HQ. set (cmd := cmd_pkt NKFS_NET_PKT_CREATE_OBJ 0 0 []). assert (Hw : pkt_wf cmd) by (apply cmd_wf; [done|lia|lia|cbn; lia]).
  apply spec_bind, spec_request; [done|done|]. cbn [default]. eapply spec_turn; [exact Hctx|exact Hcctx| |exact Hw|done|reflexivity|].
  { by apply healthy_wire, k_srv. }
  intros k n. eapply (spec_switch_create e ctx Hctx); [apply healthy_wire, healthy_memory, healthy_wire, Hk|done|exact E|].
  intros s' (k' & n' & ->). split; [done|].
  assert (Hafter : forall t k' n' r', after st' c (cl_at t (upto [] [] (at_wire k' [] r' (memory n' (set_st st' (set_rtick (S (sv_rtick (cl_srv c))) (cl_srv c)))))) c)).
  { intros t k1 n1 r1. destruct Hk as [Hs ? ? ? ? ? ?]. split; [|done]. split; cbn; try done. destruct Hs. split; try done. by apply (Sock.sock_calm_same (c_sock (cl_srv c))). }
  destruct r as [er|o].
  - exists (with_err er net_pkt_zero), []. split; [split_and!; [by apply (zero_wf _ 0 0)|done|done|exact (eq_sym (app_nil_r _))]|].
    intros t. apply spec_ret. cbn [err net_pkt_sign with_err]. rewrite (proj2 (Z.eqb_neq _ _) (He er eq_refl)). apply HQ, Hafter.
  - specialize (Ho o eq_refl). set (un := memcpy_at (u net_pkt_zero) 0 (Route.id_bytes e o)).
    assert (Hu : length un = 324%nat) by (unfold un; rewrite memcpy_at_length; [done|rewrite id_bytes_length; cbn; lia]).
    exists (with_err 0 (with_u un net_pkt_zero)), []. split; [split_and!; [exact (zero_wf 0 0 0 un ltac:(lia) ltac:(lia) ltac:(lia) Hu)|done|done|exact (eq_sym (app_nil_r _))]|].
    intros t. apply spec_ret. cbn [u net_pkt_sign with_err with_u err Z.eqb negb].
    assert (Eo : Route.id_at e 0 un = o). { apply (id_at_bytes e o 0 []); done. }
    rewrite Eo. apply HQ, Hafter.
Qed.

Lemma spec_echo c (Q : Z -> client -> Prop) : linked c -> (forall c', after (sv_st (cl_srv c)) c c' -> Q 0 c') -> spec (nkfs_echo e ctx cctx) c Q.
Proof.
  intros Hk HQ. set (cmd := cmd_pkt NKFS_NET_PKT_ECHO 0 0 []). assert (Hw : pkt_wf cmd) by (apply cmd_wf; [done|lia|lia|cbn; lia]).
  apply spec_bind, spec_request; [done|done|]. cbn [default]. eapply spec_turn; [exact Hctx|exact Hcctx| |exact Hw|done|reflexivity|].
  { by apply healthy_wire, k_srv. }
  intros k n. apply (spec_switch_echo e ctx Hctx); [apply healthy_wire, healthy_memory, healthy_wire, Hk|done|].
  intros s' (k' & n' & ->). split; [done|]. exists (with_err 0 net_pkt_zero), [].
  split; [split_and!; [by apply (zero_wf _ 0 0)|done|done|exact (eq_sym (app_nil_r _))]|]. intros t. apply spec_ret, HQ. by apply after_answered.
Qed.

(** ** Waiting for an answer that does not come *)

Lemma bind_done {S A B} (m : StMonad.M S A) (k : A -> StMonad.M S B) s a s' : m s = Done a s' -> bind m k s = k a s'.
Proof. intros E. unfold bind. by rewrite E. Qed.

Lemma bind_hang {S A B} (m : StMonad.M S A) (k : A -> StMonad.M S B) s : m s = Hang -> bind m k s = Hang.
Proof. intros E. unfold bind. by rewrite E. Qed.

(** The peer is silent. *)
Lemma con_turn_silent s : healthy s -> to_read s = [] -> Sock.rx_end (c_sock s) = None -> con_turn e ctx s = Hang.
Proof.
  intros Hs Hr He. unfold con_turn, bind at 1, gets. rewrite (h_err _ Hs). cbn [Z.eqb negb].
  assert (Ha : spec pkt_alloc s (fun a s' => a = Some net_pkt_zero /\ exists n, s' = memory n s)) by (apply spec_pkt_alloc; [done|eauto]).
  apply spec_done in Ha as (a & s' & E & -> & n & ->). rewrite (bind_done _ _ _ _ _ E). apply bind_hang, bind_hang.
  unfold nkfs_con_recv, bind at 1, gets. cbn [c_err memory set_mem]. rewrite (h_err _ Hs). cbn [Z.eqb negb]. apply bind_hang.
  unfold on_sock, zoom. cbn [c_sock memory set_mem].
  by rewrite Sock.ksock_read_silent; [|apply Hs|done|done|done].
Qed.

Lemma recv_all_silent fuel size t s s' c : (forall i, recv_err c i = None) -> sent s = [] -> c_open s = true -> to_read s <> [] ->
  con_turn e ctx s = Done true s' -> sent s' = [] -> c_open s' = true -> con_turn e ctx s' = Hang -> recv_all e ctx (S fuel) size [] (cl_at t s c) = Hang.
Proof.
  intros Hn Hs Ho Hr Et Hs' Ho' Et'. cbn [recv_all]. apply bind_hang. unfold sys_recv, bind at 1, tick_call. cbn [fst snd recv_err cl_at set_ctick set_srv cl_tick cl_piece]. rewrite Hn.
  apply bind_hang. unfold on_srv. cbn [cl_srv set_ctick set_srv cl_at]. unfold to_read in Hr. destruct (Sock.rx (c_sock s)) as [|b l] eqn:El; [done|]. cbn [length].
  assert (E2 : serve e ctx (S (length l)) s' = Hang).
  { cbn [serve]. unfold bind at 1, gets. cbn [id]. unfold sent in Hs'. rewrite Hs', Ho'. cbn [negb]. by apply bind_hang. }
  assert (E1 : serve e ctx (S (S (length l))) s = Hang); [|by rewrite E1].
  change (serve e ctx (S (S (length l))) s) with ((let* x := gets id in match Sock.tx (c_sock x) with _ :: _ => ret tt | [] => if negb (c_open x) then ret tt else let* more := con_turn e ctx in if (more : bool) then serve e ctx (S (length l)) else nkfs_con_close end) s).
  unfold bind at 1, gets. cbn [id]. unfold sent in Hs. rewrite Hs, Ho. cbn [negb]. by rewrite (bind_done _ _ _ _ _ Et).
Qed.

Lemma get_nothing_hangs o off c : linked c -> id_wf o -> 0 <= off < 2 ^ 64 -> Sock.rx_end (c_sock (cl_srv c)) = None -> nkfs_get_object e ctx cctx o off 0 c = Hang.
Proof.
  intros Hk Ho Hoff He. set (cmd := cmd_pkt NKFS_NET_PKT_GET_OBJ 0 0 [Route.id_bytes e o; store e 8 off]).
  assert (Hw : pkt_wf cmd). { apply cmd_wf; [done|lia|lia|cbn; rewrite !length_app, id_bytes_length, store_length; cbn; lia]. }
  set (s0 := upto (pkt_bytes e (net_pkt_sign e cctx cmd)) [] (cl_srv c)).
  assert (Hsend : spec (send_cmd e cctx cmd None) c (fun r c' => r = 0 /\ exists t, c' = cl_at t s0 c)).
  { assert (Ec : c = cl_at (cl_tick c) (cl_srv c) c) by (by destruct c). rewrite Ec at 1. apply spec_bind, spec_con_send_cl; [apply Hk|apply Hk|]. intros t. cbn [Z.eqb negb].
    rewrite (k_rx _ Hk), (k_tx _ Hk). apply spec_ret. split; [done|]. by exists t. }
  apply spec_done in Hsend as (r & c' & E & -> & t & ->).
  assert (Hturn : spec (con_turn e ctx) s0 (fun more s' => more = true /\ exists k n, s' = at_wire k [] [] (memory n (cl_srv c)))).
  { eapply (spec_turn e ctx Hctx cctx cmd []); [done|by apply healthy_wire, Hk|done|done|by rewrite app_nil_r|]. intros k n. apply (spec_switch_get_nothing e ctx); [done|done|].
    split; [done|]. by exists k, n. }
  apply spec_done in Hturn as (more & s' & Et & -> & k & n & ->).
  assert (Hsil : con_turn e ctx (at_wire k [] [] (memory n (cl_srv c))) = Hang) by (apply con_turn_silent; [apply healthy_wire, healthy_memory, Hk|done|exact He]).
  unfold nkfs_get_object. apply bind_hang. unfold request. fold cmd. rewrite (bind_done _ _ _ _ _ E). cbn [Z.eqb negb]. apply bind_hang.
  unfold con_recv, bind, gets. cbn [cl_err cl_at set_ctick set_srv]. rewrite (k_err _ Hk). cbn [Z.eqb negb].
  eapply recv_all_silent; [apply Hk|done|apply Hk| |exact Et|done|apply Hk|exact Hsil].
  intros E0. assert (L : length (pkt_bytes e (net_pkt_sign e cctx cmd)) = 360%nat) by (apply pkt_bytes_length, (w_u _ (sign_wf e cctx cmd Hcctx Hw))).
  change (to_read s0) with (pkt_bytes e (net_pkt_sign e cctx cmd)) in E0. by rewrite E0 in L.
Qed.

End Link.

End ClientSpec.
