(* ===== verification/NetClaims.v ===== *)
(** * Requests between clients and hosts

    The theorems on src/core/net.c and src/client/lib/client.c: a request over
    the network is the call at the host, a packet that is not well formed reaches
    no object, and two hosts that shake hands know each other. *)

From Stdlib Require Import ZArith Lia.
From coqutil Require Import Byte.
From stdpp Require Import base list gmap.
From S2P Require Import Prelude XXHash Bytes StMonad Csum Mem CharHex ObjId NetPkt Upages Sock Inode SbList.
From S2P Require Import Route RouteSpec RouteOps RouteAsk RouteHost Net NetSpec Client ClientSpec.
Import XXHash Bytes StMonad Csum ObjId NetPkt Net NetSpec Client ClientSpec RouteClaims.
Local Open Scope Z_scope.
Local Open Scope stm_scope.

Module NetClaims.

(** A packet goes over the wire unchanged: the 360 bytes of a packet, in the
    byte order of the CPU, are read back as the packet, errors and sizes
    included. *)
Theorem nkfs_net_pkt_round_trip e p : pkt_wf p -> length (pkt_bytes e p) = 360%nat /\ pkt_of_bytes e (pkt_bytes e p) = p.
Proof. intros Hp. split; [by apply pkt_bytes_length, w_u|by apply pkt_wire]. Qed.

Lemma nkfs_net_pkt_round_trip_witness :
  pkt_of_bytes XXH_bigEndian (pkt_bytes XXH_bigEndian (with_err (- EIO) net_pkt_zero)) = with_err (- EIO) net_pkt_zero.
Proof. apply nkfs_net_pkt_round_trip. split; vm_compute; split; congruence || reflexivity. Defined.

Section Claims.
Context {St : Type} `{ObjStore St}.
Context (e : XXH_endianess) (ctx cctx : csum_ctx).

(** (C14) Reading and writing an object over the network, a byte up to the 512 KiB of
    a packet at a time: on a link without failures, and when the call at the host
    comes back, [nkfs_put_object] has the result of [nkfs_sb_list_put_obj] at the
    host on pages that hold the data, and [nkfs_get_object] gives the bytes that
    [nkfs_sb_list_get_obj] put into the pages of the request, or its error; the
    objects of the host change as that call changes them, all pages are given
    back, and nothing is left on the way. *)
Theorem nkfs_remote_io_refines o off c :
  length (mem64 ctx) = 32%nat -> length (mem64 cctx) = 32%nat -> linked c -> id_wf o -> 0 <= off < 2 ^ 64 ->
  (forall data, 0 < Z.of_nat (length data) <= NKFS_NET_PKT_MAX_DSIZE ->
     (forall pgs, holds data pgs -> exists r st', os_put o off 0 (Z.of_nat (length data)) pgs (sv_st (cl_srv c)) = Done r st' /\ is_int (code r)) ->
     exists pgs r st' c', holds data pgs /\ os_put o off 0 (Z.of_nat (length data)) pgs (sv_st (cl_srv c)) = Done r st' /\
       nkfs_put_object e ctx cctx o off data c = Done (code r) c' /\ after st' c c') /\
  (forall size, 0 < size <= NKFS_NET_PKT_MAX_DSIZE ->
     (forall pgs, pages_of pgs -> Z.of_nat (length pgs) = (size + 4095) / 4096 ->
        exists r st', os_get o off 0 size pgs (sv_st (cl_srv c)) = Done r st' /\ got_pages pgs size r /\ is_int (code r)) ->
     exists pgs r st' c', pages_of pgs /\ os_get o off 0 size pgs (sv_st (cl_srv c)) = Done r st' /\
       nkfs_get_object e ctx cctx o off size c = Done (got r) c' /\ after st' c c').
Proof.
  intros Hm Hm' Hk Ho Hoff. split.
  - intros data Hd Hput.
    assert (W : spec (nkfs_put_object e ctx cctx o off data) c (fun x c' => exists pgs r st', holds data pgs /\
      os_put o off 0 (Z.of_nat (length data)) pgs (sv_st (cl_srv c)) = Done r st' /\ x = code r /\ after st' c c')).
    { apply spec_put_object; [done..|]. intros pgs Hp. destruct (Hput pgs Hp) as (r & st' & E & Hi). exists r, st'. split_and!; [done|done|].
      intros c' Ha. by exists pgs, r, st'. }
    apply spec_done in W as (x & c' & E & pgs & r & st' & Hp & Eo & -> & Ha). by exists pgs, r, st', c'.
  - intros size Hd Hget.
    assert (W : spec (nkfs_get_object e ctx cctx o off size) c (fun x c' => exists pgs r st', pages_of pgs /\
      os_get o off 0 size pgs (sv_st (cl_srv c)) = Done r st' /\ x = got r /\ after st' c c')).
    { apply spec_get_object; [done..|]. intros pgs Hp Hl. destruct (Hget pgs Hp Hl) as (r & st' & E & Hg & Hi). exists r, st'. split_and!; [done|done|done|].
      intros c' Ha. by exists pgs, r, st'. }
    apply spec_done in W as (x & c' & E & pgs & r & st' & Hp & Eo & -> & Ha). by exists pgs, r, st', c'.
Qed.

(** (C22) Creating, deleting and querying an object over the network: on a link
    without failures the client has the identity, the error or the description
    that the call at the host gives, and the objects of the host change as that
    call changes them.  The description is also written when the host reports an
    error: it is then zero. *)
Theorem nkfs_remote_names_refine c :
  length (mem64 ctx) = 32%nat -> length (mem64 cctx) = 32%nat -> linked c ->
  (forall r st', os_create (sv_rnd (cl_srv c) (sv_rtick (cl_srv c))) (sv_st (cl_srv c)) = Done r st' -> is_int (code r) ->
     (forall err, r = inl err -> err <> 0) -> (forall o, r = inr o -> id_wf o) ->
     exists c', nkfs_create_object e ctx cctx c = Done r c' /\ after st' c c') /\
  (forall o r st', id_wf o -> os_delete o (sv_st (cl_srv c)) = Done r st' -> is_int (code r) ->
     exists c', nkfs_delete_object e ctx cctx o c = Done (code r) c' /\ after st' c c') /\
  (forall o r st', id_wf o -> os_query o (sv_st (cl_srv c)) = Done r st' -> is_int (code r) -> (forall i, r = inr i -> length (info_bytes e i) = 308%nat) ->
     exists c', nkfs_query_object e ctx cctx o c =
       Done (code r, Some (match r with inr i => info_bytes e i | inl _ => replicate 308 Init.Byte.x00 end)) c' /\ after st' c c') /\
  (exists c', nkfs_echo e ctx cctx c = Done 0 c' /\ after (sv_st (cl_srv c)) c c').
Proof.
  intros Hm Hm' Hk.
  assert (Hend : forall A (m : StMonad.M (client St) A) x st', spec m c (fun y c' => y = x /\ after st' c c') -> exists c', m c = Done x c' /\ after st' c c').
  { intros A m x st' W. apply spec_done in W as (y & c' & E & -> & Ha). by exists c'. }
  split_and!.
  - intros r st' E Hi He Ho. apply Hend. by apply (spec_create_object _ _ _ Hm Hm' _ r st').
  - intros o r st' Ho E Hi. apply Hend. by apply (spec_delete_object _ _ _ Hm Hm' _ _ r st').
  - intros o r st' Ho E Hi Hl. apply Hend. by apply (spec_query_object _ _ _ Hm Hm' _ _ r st').
  - apply Hend. by apply (spec_echo _ _ _ Hm Hm').
Qed.

(** A client that asks for no bytes waits forever: the host returns
    [-EINVAL] from the request without sending an answer. *)
Theorem nkfs_get_object_of_nothing_hangs o off c :
  length (mem64 ctx) = 32%nat -> length (mem64 cctx) = 32%nat -> linked c -> id_wf o -> 0 <= off < 2 ^ 64 -> Sock.rx_end (c_sock (cl_srv c)) = None ->
  nkfs_get_object e ctx cctx o off 0 c = Hang.
Proof. intros Hm Hm'. by apply get_nothing_hangs. Qed.

(** (C34) What is not a packet reaches nothing: when the next 360 bytes do not pass
    [net_pkt_check], the thread leaves its loop with [-EINVAL] noted on the
    connection; no answer is sent, and the objects and the neighbours of the host
    are as before. *)
Theorem nkfs_con_rejects_bad_packet b rest s :
  length (mem64 ctx) = 32%nat -> healthy s -> length b = 360%nat -> to_read s = b ++ rest -> net_pkt_check e ctx (pkt_of_bytes e b) <> 0 ->
  exists s', con_turn e ctx s = Done false s' /\ c_err s' = - EINVAL /\ to_read s' = rest /\ sent s' = sent s /\
    sv_st s' = sv_st s /\ sv_route s' = sv_route s.
Proof.
  intros Hm Hs Hb Hr Hc.
  assert (W : spec (con_turn e ctx) s (fun more s' => more = false /\ c_err s' = - EINVAL /\ to_read s' = rest /\ sent s' = sent s /\ sv_st s' = sv_st s /\ sv_route s' = sv_route s)).
  { apply spec_bind, spec_gets. rewrite (h_err _ Hs). cbn [Z.eqb negb]. apply spec_bind, spec_pkt_alloc; [done|]. intros n. apply spec_bind, spec_bind, (spec_con_recv ctx Hm).
    - by apply healthy_memory.
    - done.
    - change (to_read (memory n s)) with (to_read s). rewrite Hr, length_app. unfold PKT_SIZE. lia.
    - intros k. change (to_read (memory n s)) with (to_read s). rewrite Hr. change (Z.to_nat PKT_SIZE) with 360%nat. rewrite take_app_length', drop_app_length' by done.
      cbn zeta. rewrite (proj2 (Z.eqb_neq _ _) Hc). cbn [negb]. apply spec_bind. unfold nkfs_con_fail. apply spec_bind, spec_gets. cbn [c_err at_wire set_sock memory set_mem].
      rewrite (h_err _ Hs). cbn [Z.eqb]. apply spec_modify, spec_ret, spec_ret. done. }
  apply spec_done in W as (more & s' & E & -> & W). by exists s'.
Qed.

(** ** Two hosts *)

Lemma union4 o1 o2 ip port : id_wf o1 -> id_wf o2 -> 0 <= ip < 2 ^ 32 -> - 2 ^ 31 <= port < 2 ^ 31 ->
  let un := Route.pkt_union [Route.id_bytes e o1; Route.id_bytes e o2; store e 4 ip; store e 4 (u32 port)] in
  Route.id_at e 0 un = o1 /\ Route.id_at e 16 un = o2 /\ Route.u32_at e 32 un = ip /\ Route.int_at e 36 un = port /\ length un = 324%nat.
Proof.
  intros H1 H2 Hip Hport un. unfold un. set (fs := [_; _; _; _]).
  assert (Hl : length (concat fs) = 40%nat) by (cbn; by rewrite !length_app, !id_bytes_length, !store_length).
  split_and!; [..|apply union_length; lia].
  - pose proof (id_at_bytes e o1 0 [] (Route.id_bytes e o2 ++ store e 4 ip ++ store e 4 (u32 port) ++ []) H1 eq_refl) as E. unfold Route.id_at in *. rewrite !field_union by lia. exact E.
  - pose proof (id_at_bytes e o2 16 (Route.id_bytes e o1) (store e 4 ip ++ store e 4 (u32 port) ++ []) H2 (id_bytes_length e o1)) as E. unfold Route.id_at in *. rewrite !field_union by lia. exact E.
  - unfold Route.u32_at. rewrite field_union by lia. change fs with ([Route.id_bytes e o1; Route.id_bytes e o2] ++ store e 4 ip :: [store e 4 (u32 port)]).
    rewrite (field_concat 32 4); [by apply load_store|cbn; by rewrite !length_app, !id_bytes_length|apply store_length].
  - unfold Route.int_at. rewrite field_union by lia. change fs with ([Route.id_bytes e o1; Route.id_bytes e o2; store e 4 ip] ++ store e 4 (u32 port) :: []).
    rewrite (field_concat 36 4); [|cbn; by rewrite !length_app, !id_bytes_length, store_length|apply store_length].
    rewrite load_store by (apply wrap_bounds; lia). by apply s32_u32.
Qed.

(** The thread answers a handshake. *)
Lemma spec_turn_handshake o1 o2 ip port s r h' (Q : bool -> server St -> Prop) : length (mem64 ctx) = 32%nat -> length (mem64 cctx) = 32%nat -> healthy s ->
  id_wf o1 -> id_wf o2 -> 0 <= ip < 2 ^ 32 -> - 2 ^ 31 <= port < 2 ^ 31 -> to_read s = pkt_bytes e (net_pkt_sign e cctx (Route.handshake_req e o1 o2 ip port)) ->
  Route.nkfs_neigh_handshake o1 o2 ip port (sv_route s) = Done r h' ->
  (forall s', answered [] (reply_bytes e ctx (code r) (match r with inr o => with_u (memcpy_at (u net_pkt_zero) 40 (Route.id_bytes e o)) net_pkt_zero | inl _ => net_pkt_zero end))
     (sv_st s) (set_route h' s) s' -> Q true s') -> spec (con_turn e ctx) s Q.
Proof.
  intros Hm Hm' Hs H1 H2 Hip Hport Hr E HQ. destruct (union4 o1 o2 ip port H1 H2 Hip Hport) as (U1 & U2 & U3 & U4 & U5).
  set (req := Route.handshake_req e o1 o2 ip port) in *.
  assert (Hw : pkt_wf req) by (split; done).
  eapply (spec_turn e ctx Hm cctx req []); [done|done|done|done|by rewrite app_nil_r|]. intros k n. unfold switch.
  cbn [type net_pkt_sign req Route.handshake_req Route.pkt_of]. cbn [Z.eqb Pos.eqb Route.NKFS_NET_PKT_NEIGH_HANDSHAKE NKFS_NET_PKT_ECHO NKFS_NET_PKT_PUT_OBJ NKFS_NET_PKT_GET_OBJ NKFS_NET_PKT_DELETE_OBJ NKFS_NET_PKT_CREATE_OBJ NKFS_NET_PKT_QUERY_OBJ].
  apply spec_bind, spec_zoom. cbn [u net_pkt_sign req Route.handshake_req Route.pkt_of]. rewrite U1, U2, U3, U4. unfold spec at 1. cbn [sv_route at_wire set_sock memory set_mem]. rewrite E.
  cbn zeta. apply (spec_send_reply e ctx Hm).
  - destruct Hs. split; try done. by apply (Sock.sock_calm_same (c_sock s)).
  - destruct r as [|o]; [done|]. cbn [with_u u]. rewrite memcpy_at_length; [done|]. rewrite id_bytes_length. cbn. lia.
  - intros k'. apply HQ. by exists k', n.
Qed.

#[global] Instance pkt_eq_dec : EqDecision nkfs_net_pkt.
Proof. solve_decision. Defined.

(** The connection of the host that asks, to the thread of the other that has
    answered [req] and is then in the state [b]: what the thread sent is received
    when [req] is the packet that was sent; another packet cannot be sent. *)
Definition dialled (ip port : Z) (req : nkfs_net_pkt) (b : server St) : Route.peer :=
  Route.Peer (inr (ip, port)) 0 (fun q => if decide (q = req) then 0 else - EIO) (inr (pkt_of_bytes e (sent b))).

(** (C21) Two hosts that shake hands know each other: when a host asks a neighbour
    of its net for a handshake and the neighbour has room for it, the packet it
    sends is one that the thread of the other answers, on a connection without
    failures, and both end with their books in order; the host that asked has the
    identity of the other in its entry, which is then shaken, and the other has the
    address of the first one, with its identity, at the end of its list. *)
Theorem nkfs_hosts_shake_hands p n ip port a b :
  length (mem64 ctx) = 32%nat -> length (mem64 cctx) = 32%nat ->
  RouteSpec.host_inv a -> RouteSpec.host_inv (sv_route b) -> healthy b -> to_read b = [] -> sent b = [] ->
  id_wf (Route.net_id a) -> id_wf (Route.host_id a) -> id_wf (Route.host_id (sv_route b)) -> 0 < ip < 2 ^ 32 -> 0 < port < 2 ^ 31 ->
  Route.nobjs a !! p = Some n -> Route.n_shaked n = false -> (forall t, Route.rfail a t = false) ->
  RouteCalls.handshake_err (RouteCalls.rfail2 (sv_route b)) (Route.net_id a) ip port (sv_route b) = 0 ->
  exists req b' a',
    con_turn e ctx (upto (pkt_bytes e (net_pkt_sign e cctx req)) [] b) = Done true b' /\
    Route.nkfs_neigh_do_handshake e p (dialled ip port req b') a = Done 0 a' /\
    RouteSpec.host_inv a' /\ RouteSpec.host_inv (sv_route b') /\
    RouteHost.info_at a' p =
      Some (Route.NeighInfo (Route.n_ip n) (Route.n_port n) (Route.state_bits n + 2) (Route.host_id (sv_route b)) (Route.n_hbt_time n) (Route.n_hbt_delay n)) /\
    RouteHost.view (sv_route b') = RouteHost.view (sv_route b) ++ [Route.NeighInfo ip port 3 (Route.host_id a) 0 0].
Proof.
  intros Hm Hm' Ha Hb Hs Hrx Htx W1 W2 W3 Hip Hport Hp Hsh Hmem Herr. set (hb := sv_route b) in *.
  destruct (neigh_handshake_run (Route.net_id a) (Route.host_id a) ip port hb Hb) as (r & hb' & Er & Hb' & Hr).
  destruct r as [er|o]; [by destruct Hr as (? & ? & _); congruence|]. destruct Hr as (_ & -> & Hview).
  set (reply := with_u (memcpy_at (u net_pkt_zero) 40 (Route.id_bytes e (Route.host_id hb))) net_pkt_zero).
  assert (Hu : length (u reply) = 324%nat) by (cbn [reply with_u u]; rewrite memcpy_at_length; [done|rewrite id_bytes_length; cbn; lia]).
  assert (Wr : pkt_wf (with_err 0 reply)) by (by split).
  assert (T : spec (con_turn e ctx) (upto (pkt_bytes e (net_pkt_sign e cctx (Route.handshake_req e (Route.net_id a) (Route.host_id a) ip port))) [] b)
    (fun more b' => more = true /\ sv_route b' = hb' /\ sent b' = reply_bytes e ctx 0 reply)).
  { eapply (spec_turn_handshake (Route.net_id a) (Route.host_id a) ip port); [done|done|by apply healthy_wire|done|done|lia|lia|done|exact Er|]. intros s' (k & m & ->). done. }
  apply spec_done in T as (more & b' & Et & -> & Eroute & Esent). set (req := Route.handshake_req e (Route.net_id a) (Route.host_id a) ip port). exists req, b'.
  assert (Ep : pkt_of_bytes e (sent b') = net_pkt_sign e ctx (with_err 0 reply)) by (rewrite Esent; by apply pkt_wire, sign_wf).
  assert (Ex : Route.exchange (dialled ip port req b') req = inr (net_pkt_sign e ctx (with_err 0 reply))).
  { unfold Route.exchange, dialled. cbn [Route.con_send Route.con_recv]. rewrite decide_True, Ep by done. reflexivity. }
  destruct (neigh_do_handshake_run e p n (dialled ip port req b') a Ha Hp) as (x & a' & Ea & Ha' & _ & [[Hno _]|(-> & _ & i & j & rp & Es & Ex' & _ & Hinfo)]).
  { exfalso. apply Hno. split_and!; [done|done|done|]. exists ip, port, (net_pkt_sign e ctx (with_err 0 reply)). split_and!; [done|lia|lia|done]. }
  injection Es as <- <-. fold req in Ex'. rewrite Ex in Ex'. injection Ex' as <-. exists a'. split_and!; [done|done|done|by rewrite Eroute| |by rewrite Eroute].
  rewrite Hinfo. do 2 f_equal. cbn [u net_pkt_sign with_err reply with_u].
  pose proof (id_at_bytes e (Route.host_id hb) 40 (replicate 40 Init.Byte.x00) (replicate 268 Init.Byte.x00) W3 eq_refl) as E.
  unfold memcpy_at. rewrite id_bytes_length. exact E.
Qed.

End Claims.

End NetClaims.
