(* ===== verification/SbListObjects.v ===== *)
(** * A list of superblocks as a map of objects

    A host whose superblocks each stand for a map of objects: an object that is on
    one of them is found there, and the calls of the list on it are the calls of
    that superblock, with the references they take given back. *)

From Stdlib Require Import ZArith Lia.
From coqutil Require Import Byte.
From stdpp Require Import base list gmap functions.
From S2P Require Import Prelude XXHash Bytes StMonad Csum DioPages Dio DioInv DioClient Mem CharHex ObjId Super.
From S2P Require Import BtreeNode BtreeNodeSpec BtreeDisk BlockTree Inode InodeSpec InodeOps InodeFile InodePages SbList SbListSpec SbObjects Net.
Import XXHash Bytes StMonad Csum ObjId Inode InodeFile InodePages SbList SbListSpec SbObjects.
Local Open Scope Z_scope.
Local Open Scope stm_scope.

Module SbListObjects.

Section ListObjects.
Context {T St : Type} `{BlockTree T St}.
Context (e : XXH_endianess) (ctx : csum_ctx) (ctx_ok : length (mem64 ctx) = 32%nat).
Context (X : Z).

Local Abbreviation nkfs_sb := (SbList.nkfs_sb T St).
Local Abbreviation host := (SbList.host T St).
Local Abbreviation sb_rep := (sb_rep e ctx X).
Local Abbreviation okey := (okey e).

Record host_rep (h : host) (FF : nat -> gmap Z file) : Prop := {
  hr_nodup : NoDup (sb_list h);
  hr_sb p : p ∈ sb_list h -> exists b, sbo h !! p = Some b /\ sb_rep b (FF p) /\ 0 < sb_refs b;
  hr_mem t : lfail h t = false
}.

Lemma host_rep_ext h FF FF' : host_rep h FF -> (forall q, q ∈ sb_list h -> FF' q = FF q) -> host_rep h FF'.
Proof. intros [Hn Hs Hm] E. split; [done| |done]. intros p Hp. rewrite (E p Hp). by apply Hs. Qed.

(** Two superblocks that hold the same objects. *)
Record same_sb (k : Z) (b b' : nkfs_sb) : Prop := {
  sm_in : sb_in b' = sb_in b;
  sm_rep F : sb_rep b F -> sb_rep b' F;
  sm_refs : sb_refs b' = sb_refs b + k
}.

Lemma same_sb_refl b : same_sb 0 b b.
Proof. split; [done|done|lia]. Qed.

Lemma same_sb_trans k1 k2 b1 b2 b3 : same_sb k1 b1 b2 -> same_sb k2 b2 b3 -> same_sb (k1 + k2) b1 b3.
Proof. intros [E1 R1 S1] [E2 R2 S2]. split; [congruence|auto|lia]. Qed.

Lemma same_set_refs r b : same_sb (r - sb_refs b) b (set_refs r b).
Proof. split; [done| |cbn; lia]. by intros F (Hs & t & bt & a & G & Ht & D & HF); split; [|exists t, bt, a, G]. Qed.

(** The same objects, with [k] more references to [p]. *)
Record same_host (p : nat) (k : Z) (h h' : host) : Prop := {
  sh_list : sb_list h' = sb_list h;
  sh_fail : lfail h' = lfail h;
  sh_sb q b : sbo h !! q = Some b -> exists b', sbo h' !! q = Some b' /\ same_sb (if decide (q = p) then k else 0) b b'
}.

Lemma same_host_refl p h : same_host p 0 h h.
Proof. split; [done|done|]. intros q b E. exists b. split; [done|]. case_decide; apply same_sb_refl. Qed.

Lemma same_host_trans p k1 k2 h1 h2 h3 : same_host p k1 h1 h2 -> same_host p k2 h2 h3 -> same_host p (k1 + k2) h1 h3.
Proof.
  intros [L1 F1 S1] [L2 F2 S2]. split; [congruence|congruence|]. intros q b1 E1. destruct (S1 q b1 E1) as (b2 & E2 & B2).
  destruct (S2 q b2 E2) as (b3 & E3 & B3). exists b3. split; [done|]. pose proof (same_sb_trans _ _ _ _ _ B2 B3) as B. by case_decide.
Qed.

(** One superblock changed in place. *)
Lemma same_host_at p k q b b' h : sbo h !! q = Some b -> same_sb (if decide (q = p) then k else 0) b b' ->
  (q <> p -> k = 0) -> same_host p k h (with_sbo (<[q := b']> (sbo h)) h).
Proof.
  intros E B Hk. split; [done|done|]. intros q' b2 E2. cbn. destruct (decide (q' = q)) as [->|Hn].
  - rewrite lookup_insert_eq. exists b'. rewrite E in E2. by injection E2 as <-.
  - rewrite lookup_insert_ne by done. exists b2. split; [done|]. destruct (decide (q' = p)) as [->|]; [|apply same_sb_refl]. rewrite Hk by done. apply same_sb_refl.
Qed.

(** ** Rules *)

Lemma spec_on_sb {A} p b (m : StMonad.M nkfs_sb A) h (Q : A -> host -> Prop) : sbo h !! p = Some b ->
  StMonad.spec m b (fun a b' => Q a (with_sbo (<[p := b']> (sbo h)) h)) -> StMonad.spec (on_sb p m) h Q.
Proof. intros E. unfold StMonad.spec, on_sb. rewrite E. by destruct (m b). Qed.

Lemma spec_find_object b F o : sb_rep b F -> StMonad.spec (find_obj e o) b (fun r b' =>
  same_sb 0 b b' /\ match F !! okey o with Some _ => fst r = 0 | None => fst r <> 0 end).
Proof.
  intros (Hs & t & bt & a & G & Et & D & ->). destruct (t_find_ok (id_key e o) t _ bt _ (id_key_ok e o) (dr_tree _ _ _ _ _ _ _ _ D)) as (t' & Ef & Rt).
  eapply (spec_on_itree (t_find (id_key e o)) t); [done|exact Ef|]. fold (okey o). rewrite !lookup_fmap. set (b' := with_tree _ _). split.
  - assert (Ei : sb_in b' = sb_in b) by (cbn; by destruct (sb_in b)). split; [done| |cbn; lia].
    intros F (_ & t2 & bt2 & a2 & G2 & Et2 & D2 & ->). rewrite Et in Et2. injection Et2 as <-. split; [done|].
    destruct (t_find_ok (id_key e o) t _ bt2 _ (id_key_ok e o) (dr_tree _ _ _ _ _ _ _ _ D2)) as (t2' & Ef2 & Rt2). rewrite Ef in Ef2. injection Ef2 as _ <-.
    exists t', bt2, a2, G2. split; [done|]. rewrite Ei. split; [|done]. destruct D2. by split.
  - by destruct (G !! okey o).
Qed.

Lemma spec_sb_hold p b h (Q : unit -> host -> Prop) : sbo h !! p = Some b -> 0 < sb_refs b ->
  Q tt (with_sbo (<[p := set_refs (sb_refs b + 1) b]> (sbo h)) h) -> StMonad.spec (nkfs_sb_ref p) h Q.
Proof.
  intros E Hr HQ. unfold nkfs_sb_ref. apply spec_bind. eapply spec_get_sb; [exact E|]. apply spec_bind, spec_bug_on; [lia|].
  eapply spec_on_sb; [exact E|]. by apply spec_modify.
Qed.

Lemma spec_sb_put p b h (Q : unit -> host -> Prop) : sbo h !! p = Some b -> 1 < sb_refs b ->
  Q tt (with_sbo (<[p := set_refs (sb_refs b - 1) b]> (sbo h)) h) -> StMonad.spec (nkfs_sb_deref p) h Q.
Proof.
  intros E Hr HQ. unfold nkfs_sb_deref. apply spec_bind. eapply spec_get_sb; [exact E|]. apply spec_bind, spec_bug_on; [lia|].
  apply spec_bind. eapply spec_on_sb; [exact E|]. apply spec_modify. rewrite (proj2 (Z.eqb_neq _ _)) by lia. by apply spec_ret.
Qed.

(** ** Finding an object *)

Section Find.
Context (FF : nat -> gmap Z file) (o : nkfs_obj_id) (p : nat).

(** The object is on [p] and on no other superblock. *)
Definition only_on (h : host) : Prop :=
  p ∈ sb_list h /\ is_Some (FF p !! okey o) /\ forall q, q ∈ sb_list h -> q <> p -> FF q !! okey o = None.

Definition live (h : host) (l : list nat) : Prop :=
  (forall q, q ∈ l -> exists b, sbo h !! q = Some b /\ sb_rep b (FF q) /\ 0 < sb_refs b) /\ forall t, lfail h t = false.

Lemma live_same h h' l k : live h l -> same_host p k h h' -> 0 <= k -> live h' l.
Proof.
  intros [Hl Hf] [_ Ef Hs] Hk. split; [|by rewrite Ef]. intros q Hq. destruct (Hl q Hq) as (b & E & R & Hr).
  destruct (Hs q b E) as (b' & E' & [Ei Rb Sr]). exists b'. split; [done|]. split; [auto|]. case_decide; lia.
Qed.

Lemma filter_absent l : p ∉ l -> filter (fun q => q = p) l = [].
Proof.
  induction l as [|q l IH]; intros Hp; [done|]. apply not_elem_of_cons in Hp as [Hq Hp]. rewrite filter_cons_False by done. by apply IH.
Qed.

Lemma filter_one l : NoDup l -> p ∈ l -> filter (fun q => q = p) l = [p].
Proof.
  induction 1 as [|q l Hq Hn IH]; intros Hp; [by apply elem_of_nil in Hp|]. destruct (decide (q = p)) as [->|Hqp].
  - rewrite filter_cons_True by done. f_equal. by apply filter_absent.
  - rewrite filter_cons_False by done. apply elem_of_cons in Hp as [->|Hp]; [done|]. by apply IH.
Qed.

Lemma spec_by_obj l : forall h links, live h l -> NoDup l -> is_Some (FF p !! okey o) -> (forall q, q ∈ l -> q <> p -> FF q !! okey o = None) ->
  StMonad.spec (by_obj e o l links) h (fun r h' => r = (links ++ filter (fun q => q = p) l, true) /\
    same_host p (Z.of_nat (length (filter (fun q => q = p) l))) h h').
Proof.
  induction l as [|q l IH]; intros h links Hl Hn Hp Ho; cbn [by_obj].
  { apply spec_ret. rewrite filter_nil, app_nil_r. split; [done|]. apply same_host_refl. }
  pose proof (NoDup_cons_1_1 _ _ Hn) as Hq. apply NoDup_cons_1_2 in Hn. destruct (proj1 Hl q) as (b & E & R & Hr); [by left|].
  apply spec_bind. eapply spec_on_sb; [exact E|]. eapply spec_mono; [by apply (spec_find_object b (FF q) o)|]. intros f b1 [B1 Hf]. set (h1 := with_sbo _ h).
  assert (S1 : same_host p 0 h h1) by (apply (same_host_at p 0 q b); [done|by case_decide|done]).
  assert (Hl1 : live h1 l) by (eapply live_same; [|exact S1|done]; split; [intros q' Hq'; apply Hl; by right|apply Hl]).
  assert (E1 : sbo h1 !! q = Some b1) by apply lookup_insert_eq.
  destruct (decide (q = p)) as [->|Hqp].
  - destruct Hp as [fl Efl]. rewrite Efl in Hf. rewrite Hf. cbn [Z.eqb negb].
    assert (El : filter (fun q => q = p) l = []).
    { by apply filter_absent. }
    unfold nkfs_sb_link_create. apply spec_bind, spec_bind. unfold StMonad.spec at 1, lfails. cbn [h1 with_sbo lfail ltick]. rewrite (proj2 Hl).
    apply spec_bind. eapply spec_sb_hold; [exact E1|rewrite (sm_refs _ _ _ B1); lia|]. apply spec_ret. set (h2 := with_sbo _ _).
    assert (S2 : same_host p 1 h1 h2).
    { unfold h2. replace 1 with (sb_refs b1 + 1 - sb_refs b1) at 1 by lia.
      pose proof (same_host_at p (sb_refs b1 + 1 - sb_refs b1) p b1 (set_refs (sb_refs b1 + 1) b1) h1 E1) as S2. rewrite decide_True in S2 by done.
      specialize (S2 (same_set_refs _ _) ltac:(done)). destruct S2 as [A1 A2 A3]. by split. }
    eapply spec_mono; [apply (IH h2 (links ++ [p])); [eapply live_same; [exact Hl1|exact S2|lia]|done|by exists fl|intros q' Hq'; apply Ho; by right]|].
    intros r h3 [-> S3]. rewrite (filter_cons_True _ p l) by done. rewrite El in S3 |- *. cbn [length app] in *. rewrite app_nil_r.
    split; [done|]. pose proof (same_host_trans _ _ _ _ _ _ (same_host_trans _ _ _ _ _ _ S1 S2) S3) as S. exact S.
  - rewrite (Ho q) in Hf by (done || by left). rewrite (proj2 (Z.eqb_neq _ _)) by done. cbn [negb]. rewrite (filter_cons_False _ q l) by done.
    eapply spec_mono; [apply (IH h1 links); [done|done|done|intros q' Hq'; apply Ho; by right]|].
    intros r h3 [-> S3]. split; [done|]. exact (same_host_trans _ _ _ _ _ _ S1 S3).
Qed.

Lemma spec_list_by_obj h : host_rep h FF -> only_on h ->
  StMonad.spec (nkfs_sb_list_by_obj e o) h (fun r h' => r = inr [p] /\ same_host p 1 h h').
Proof.
  intros [Hn Hs Hm] (Hp & Ho & Hq). unfold nkfs_sb_list_by_obj. apply spec_bind, spec_gets, spec_bind.
  eapply spec_mono; [by apply (spec_by_obj (sb_list h) h [])|]. intros r h' [-> S]. rewrite filter_one in * by done. by apply spec_ret.
Qed.

(** The host after a call on [p] alone: the references are as they were. *)
Record called (F' : gmap Z file) (h : host) (R : nkfs_sb -> nkfs_sb -> Prop) (h' : host) : Prop := {
  ca_rep : host_rep h' (<[p := F']> FF);
  ca_list : sb_list h' = sb_list h;
  ca_sb : exists b b', sbo h !! p = Some b /\ sbo h' !! p = Some b' /\ R b b'
}.

(** A call of the list on the object is the call of [p]. *)
Lemma spec_list_op {A} (op : StMonad.M nkfs_sb (Z + A)) h (P : nkfs_sb -> Z + A -> gmap Z file -> nkfs_sb -> Prop) :
  host_rep h FF -> only_on h -> quiet op ->
  (forall b b1 k r F' b2 b', same_sb k b b1 -> P b1 r F' b2 -> same_sb (- k) b2 b' -> P b r F' b') ->
  (forall b, sb_rep b (FF p) -> StMonad.spec op b (fun r b' => exists F', sb_rep b' F' /\ P b r F' b')) ->
  StMonad.spec (list_op e o op) h (fun r h' => exists F', called F' h (fun b b' => P b r F' b') h').
Proof.
  intros Hh Hon Hq HP Hop. unfold list_op. apply spec_bind. eapply spec_mono; [by apply spec_list_by_obj|]. intros l h1 [-> S1].
  destruct Hh as [Hn Hs Hm], Hon as (Hp & _). destruct (Hs p Hp) as (b & E & R & Hr). destruct S1 as [L1 F1 S1].
  destruct (S1 p b E) as (b1 & E1 & B1). rewrite decide_True in B1 by done.
  apply spec_bind, spec_bug_on; [done|]. cbn [nkfs_sb_list_first head]. apply spec_bind. eapply spec_on_sb; [exact E1|].
  destruct (proj1 (spec_done _ _ _) (Hop b1 (sm_rep _ _ _ B1 _ R))) as (r & b2 & E2 & F' & R2 & P2). destruct (Hq b1 r b2 E2) as (_ & Hr2 & _).
  apply spec_done. exists r, b2. split; [done|]. cbn [nkfs_sb_list_release]. set (h2 := with_sbo _ h1). pose proof (sm_refs _ _ _ B1) as Hr1.
  apply spec_bind, spec_bind. eapply (spec_sb_put p b2); [apply lookup_insert_eq|lia|]. apply spec_ret, spec_ret. set (b3 := set_refs _ b2).
  assert (B3 : same_sb (- (1)) b2 b3) by (pose proof (same_set_refs (sb_refs b2 - 1) b2) as B3; by replace (sb_refs b2 - 1 - sb_refs b2) with (-(1)) in B3 by lia).
  exists F'. split; [|done|]; cbn [h2 with_sbo sbo sb_list]; rewrite ?insert_insert_eq.
  2:{ exists b, b3. split; [done|]. split; [apply lookup_insert_eq|]. by apply (HP b b1 1 r F' b2 b3). }
  split; cbn [h2 with_sbo sbo sb_list lfail]; rewrite ?L1, ?F1; try done. intros q Hq'. rewrite ?insert_insert_eq. destruct (decide (q = p)) as [->|Hqp].
  - exists b3. rewrite lookup_insert_eq, fn_lookup_insert. split; [done|]. split; [by apply B3|cbn; lia].
  - rewrite lookup_insert_ne, fn_lookup_insert_ne by done. destruct (Hs q Hq') as (c & Ec & Rc & Hc). destruct (S1 q c Ec) as (c1 & Ec1 & C1).
    rewrite decide_False in C1 by done. exists c1. split; [done|]. split; [by apply C1|]. rewrite (sm_refs _ _ _ C1). lia.
Qed.

(** Reading and writing an object through the list. *)

Lemma spec_list_put h fl off pg_off len pages : (fl_cap fl <= t_safe)%nat -> host_rep h FF -> only_on h -> FF p !! okey o = Some fl -> pages_ok pages ->
  0 <= off -> 0 <= pg_off < 4096 -> 0 <= len < 2 ^ 31 -> pg_off + len <= 4096 * Z.of_nat (length pages) -> off + len < 2 ^ 63 ->
  (fl_cap fl + 2 * length pages <= t_cap)%nat ->
  StMonad.spec (nkfs_sb_list_put_obj e ctx o off pg_off len pages) h (fun r h' => exists F',
    called F' h (fun b b' => put_map b (FF p) (okey o) fl off (window pages pg_off len) (2 * length pages) (Net.code r) F' b') h').
Proof.
  intros Hg Hh Ho Ef P H1 H2 H3 H4 H5 H6.
  apply (spec_list_op _ h (fun b r F' b' => put_map b (FF p) (okey o) fl off (window pages pg_off len) (2 * length pages) (Net.code r) F' b')); [done|done| | |].
  - apply quiet_as_err, quiet_put_obj.
  - intros b b1 k r F' b2 b' B1 Pm B2. unfold put_map in *. by rewrite (sm_in _ _ _ B2), <- (sm_in _ _ _ B1).
  - intros b Hb. apply spec_bind. eapply spec_mono; [by apply (spec_sb_put_obj e ctx ctx_ok X b (FF p) o fl _ _ _ _ Hb Ef (sb_readable e ctx ctx_ok X _ _ _ _ Hb Ef Hg))|].
    intros r b' (F' & Hb' & Pm). apply spec_ret. exists F'. split; [done|]. destruct (Z.eqb_spec r 0) as [->|]; done.
Qed.

Lemma spec_list_get h fl off pg_off len pages : (fl_cap fl <= t_safe)%nat -> host_rep h FF -> only_on h -> id_wf o -> FF p !! okey o = Some fl -> pages_ok pages ->
  0 <= off -> 0 <= pg_off < 4096 -> 0 <= len < 2 ^ 31 -> pg_off + len <= 4096 * Z.of_nat (length pages) -> off + len < 2 ^ 63 ->
  StMonad.spec (nkfs_sb_list_get_obj e ctx o off pg_off len pages) h (fun r h' =>
    called (FF p) h (fun b b' => pages_read (bsize (sb_in b)) (fl_size fl) (fl_data fl) off pg_off len pages 0 r /\ bsize (sb_in b') = bsize (sb_in b)) h').
Proof.
  intros Hg Hh Ho Wo Ef P H1 H2 H3 H4 H5. eapply spec_mono.
  - apply (spec_list_op _ h (fun b r F' b' => F' = FF p /\ pages_read (bsize (sb_in b)) (fl_size fl) (fl_data fl) off pg_off len pages 0 r /\ bsize (sb_in b') = bsize (sb_in b))); [done|done| | |].
    + apply quiet_get_obj.
    + intros b b1 k r F' b2 b' B1 [-> Pr] B2. split; [done|]. by rewrite (sm_in _ _ _ B2), <- (sm_in _ _ _ B1).
    + intros b Hb. eapply spec_mono; [by apply (spec_sb_get e ctx ctx_ok X b (FF p) o fl _ _ _ _ Hb Wo Ef (sb_readable e ctx ctx_ok X _ _ _ _ Hb Ef Hg))|].
      intros r b' (Pr & Hb' & Ebs). by exists (FF p).
  - intros r h' (F' & [R L (b & b' & E & E' & -> & Pr & Ebs)]). split; [done|done|]. by exists b, b'.
Qed.

End Find.

(** ** A new object through the list *)

Lemma spec_list_create h FF rnd (o := snd (nkfs_obj_id_gen rnd)) : host_rep h FF -> counted h -> sb_list h <> [] -> id_wf o ->
  (forall q, q ∈ sb_list h -> FF q !! okey o = None /\ (size (FF q) < t_cap)%nat) ->
  (forall q b, q ∈ sb_list h -> sbo h !! q = Some b -> st_room (st (sb_in b)) 3) ->
  StMonad.spec (nkfs_sb_list_create_obj e ctx rnd) h (fun r h' => r = inr o /\ exists p roots, p ∈ sb_list h /\
    called FF p (<[okey o := File 0 0 (fun _ => None) roots]> (FF p)) h (fun b b' => bsize (sb_in b') = bsize (sb_in b) /\
      forall n, st_room (st (sb_in b)) (3 + n) -> st_room (st (sb_in b')) n) h').
Proof.
  intros Hh Hc Hne Wo Hf Hr. unfold nkfs_sb_list_create_obj, nkfs_sb_select_most_free. destruct Hh as [Hn Hs Hm].
  apply spec_bind, spec_bind, spec_gets, spec_bind. apply (spec_most_free h (sb_list h)); [|lia|done|].
  { intros q Hq. destruct (Hs q Hq) as (b & E & _). exists b. split; [done|]. by eapply Hc. }
  intros f n [(-> & -> & Hl)|(p & -> & Hp & _)] _ _; [by destruct Hne; apply Hl|].
  destruct (Hs p Hp) as (b & E & R & Hb). apply spec_bind. eapply spec_sb_hold; [exact E|done|]. set (b1 := set_refs _ b). apply spec_ret.
  pose proof (same_set_refs (sb_refs b + 1) b) as B1. fold b1 in B1. apply spec_bind. eapply spec_on_sb; [apply lookup_insert_eq|].
  destruct (Hf p Hp) as [Ef Hsz]. destruct (proj1 (spec_done _ _ _) (spec_create_obj e ctx ctx_ok X b1 (FF p) rnd (sm_rep _ _ _ B1 _ R) Wo Ef Hsz (Hr p b Hp E)))
    as (r & b2 & E2 & -> & Eb & Rm & roots & R2). destruct (quiet_create_obj e ctx rnd b1 _ b2 E2) as (_ & Hr2 & _).
  apply spec_done. eexists _, b2. split; [exact E2|]. cbn [b1 set_refs sb_refs] in Hr2. apply spec_bind. eapply (spec_sb_put p b2); [apply lookup_insert_eq|lia|].
  set (b3 := set_refs _ b2). pose proof (same_set_refs (sb_refs b2 - 1) b2) as B3. fold b3 in B3. apply spec_ret. split; [done|].
  exists p, roots. split; [done|]. split; [|done|]; cbn [with_sbo sbo sb_list]; rewrite ?insert_insert_eq.
  2:{ exists b, b3. split; [done|]. by split; [apply lookup_insert_eq|]. }
  split; cbn [with_sbo sbo sb_list lfail]; try done. intros q Hq. rewrite ?insert_insert_eq. destruct (decide (q = p)) as [->|Hqp].
  - exists b3. rewrite lookup_insert_eq, fn_lookup_insert. split; [done|]. split; [by apply B3|cbn; lia].
  - rewrite lookup_insert_ne, fn_lookup_insert_ne by done. by apply Hs.
Qed.


End ListObjects.

End SbListObjects.
