(* ===== verification/ClientObjects.v ===== *)
(** * Objects over the network, end to end

    The client library, the protocol, the thread of the host, the list of
    superblocks, the inodes, the trees and the cache together: what a client puts
    into an object on a disk of the host is what it gets back. *)

From Stdlib Require Import ZArith Lia.
From coqutil Require Import Byte.
From stdpp Require Import base list gmap functions.
From S2P Require Import Prelude XXHash Bytes StMonad Csum DioPages Dio DioInv DioClient Mem CharHex ObjId NetPkt Upages Sock Super.
From S2P Require Import BtreeNode BtreeNodeSpec BtreeDisk BlockTree Inode InodeSpec InodeOps InodeFile InodePages SbList SbListSpec SbObjects.
From S2P Require Import Route Net NetSpec Client ClientSpec SbListObjects.
Import XXHash Bytes StMonad Csum ObjId NetPkt Inode InodeOps InodeFile InodePages SbList SbListSpec SbObjects Net NetSpec Client ClientSpec SbListObjects.
Local Open Scope Z_scope.
Local Open Scope stm_scope.

Module ClientObjects.

Section EndToEnd.
Context {T St : Type} `{BlockTree T St}.
Context (e : XXH_endianess) (dctx ctx cctx : csum_ctx).
Context (dctx_ok : length (mem64 dctx) = 32%nat) (ctx_ok : length (mem64 ctx) = 32%nat) (cctx_ok : length (mem64 cctx) = 32%nat).
Context (X : Z).

Local Instance host_store : ObjStore (SbList.host T St) := sb_list_store e dctx.
Local Abbreviation client := (Client.client (SbList.host T St)).
Local Abbreviation okey := (okey e).

Definition disks (c : client) : SbList.host T St := sv_st (cl_srv c).

(** A client of a host whose superblocks hold the objects [FF]. *)
Definition serves (c : client) (FF : nat -> gmap Z file) : Prop := linked c /\ host_rep e dctx X (disks c) FF.

(** Pages for [n] bytes. *)
Definition npages (n : nat) : nat := Z.to_nat ((Z.of_nat n + 4095) / 4096).

Lemma window_all data pgs : holds data pgs -> window pgs 0 (Z.of_nat (length data)) = data.
Proof. intros (_ & _ & E). unfold window, field. by rewrite Nat2Z.id, drop_0. Qed.

Lemma holds_pages data pgs : holds data pgs -> pages_ok pgs /\ length pgs = npages (length data) /\
  0 + Z.of_nat (length data) <= 4096 * Z.of_nat (length pgs).
Proof. clear. intros (W & L & _). split; [done|]. unfold npages. rewrite <- L. split; [lia|]. rewrite L. dlia. Qed.

Section Object.
Context (c : client) (FF : nat -> gmap Z file) (o : nkfs_obj_id) (p : nat) (fl : file) (off : Z).
Context (Hc : serves c FF) (Wo : id_wf o) (Hon : only_on e FF o p (disks c)) (Ef : FF p !! okey o = Some fl) (Hoff : 0 <= off).

Lemma spec_client_put data : 0 < Z.of_nat (length data) <= NKFS_NET_PKT_MAX_DSIZE -> off + Z.of_nat (length data) < 2 ^ 63 ->
  (fl_cap fl + 2 * npages (length data) <= t_safe)%nat ->
  (forall b, sbo (disks c) !! p = Some b -> st_room (st (sb_in b)) (4 * npages (length data))) ->
  spec (nkfs_put_object e ctx cctx o off data) c (fun r c' => r = 0 /\ exists f' b b', put_at (bsize (sb_in b)) (fl_data fl) off data f' /\
    sbo (disks c) !! p = Some b /\ sbo (disks c') !! p = Some b' /\ bsize (sb_in b') = bsize (sb_in b) /\
    (forall l, st_room (st (sb_in b)) (4 * npages (length data) + l) -> st_room (st (sb_in b')) l) /\ sb_list (disks c') = sb_list (disks c) /\
    serves c' (<[p := <[okey o := File (Z.max (fl_size fl) (off + Z.of_nat (length data))) (fl_cap fl + 2 * npages (length data)) f' (fl_roots fl)]> (FF p)]> FF)).
Proof.
  intros Hd He Hcap Hroom. pose proof t_safe_cap as Hsc. destruct Hc as [Hk Hh]. unfold NKFS_NET_PKT_MAX_DSIZE in Hd.
  apply (spec_put_object e ctx cctx ctx_ok cctx_ok); [done|done|lia|done|]. intros pgs Hp. destruct (holds_pages _ _ Hp) as (P & L & Hl).
  destruct (proj1 (spec_done _ _ _) (spec_list_put e dctx dctx_ok X FF o p (disks c) fl off 0 (Z.of_nat (length data)) pgs ltac:(lia) Hh Hon Ef P Hoff ltac:(lia) ltac:(lia) Hl He ltac:(rewrite L; lia)))
    as (r & h' & E & F' & [R Ls (b & b' & Eb & Eb' & f' & k & Hk1 & Pa & -> & Ebs & [(Er & -> & Rm)|(_ & _ & Hno)])]).
  2:{ destruct Hno. rewrite L. eapply room_le; [|exact (Hroom b Eb)]. lia. }
  rewrite window_all, firstn_all in * by done. rewrite (proj2 (Nat.ltb_lt _ _)), L in R by lia. rewrite L in Rm.
  exists r, h'. split; [exact E|]. rewrite Er. split; [by split|]. intros c' (Hk' & Es & _). split; [done|]. exists f', b, b'.
  unfold serves, disks. rewrite Es. split; [done|]. split; [done|]. split; [done|]. split; [done|]. split; [|done].
  intros l Hr. apply Rm. by replace (2 * (2 * npages (length data)))%nat with (4 * npages (length data))%nat by lia.
Qed.

(** What is there of [size] bytes. *)
Lemma spec_client_get size d b : (fl_cap fl <= t_safe)%nat -> sbo (disks c) !! p = Some b -> 0 < size <= NKFS_NET_PKT_MAX_DSIZE -> off + size < 2 ^ 63 -> off <= fl_size fl ->
  read_at (bsize (sb_in b)) (fl_data fl) off (Z.to_nat (Z.min size (fl_size fl - off))) = Some d ->
  spec (nkfs_get_object e ctx cctx o off size) c (fun r c' => r = inr d /\ serves c' FF /\ sb_list (disks c') = sb_list (disks c) /\
    exists b', sbo (disks c') !! p = Some b' /\ bsize (sb_in b') = bsize (sb_in b)).
Proof.
  intros Hcap Eb Hd He Hz Hr. destruct Hc as [Hk Hh]. unfold NKFS_NET_PKT_MAX_DSIZE in Hd.
  apply (spec_get_object e ctx cctx ctx_ok cctx_ok); [done|done|lia|done|]. intros pgs P L.
  assert (Hl : 0 + size <= 4096 * Z.of_nat (length pgs)) by (rewrite L; dlia).
  destruct (proj1 (spec_done _ _ _) (spec_list_get e dctx dctx_ok X FF o p (disks c) fl off 0 size pgs Hcap Hh Hon Wo Ef P Hoff ltac:(lia) ltac:(lia) Hl He))
    as (r & h' & E & [R Ls (b0 & b' & Eb0 & Eb' & Pr & Ebs)]). replace b0 with b in * by congruence.
  exists r, h'. split; [exact E|]. unfold pages_read, file_read in Pr.
  rewrite (proj2 (Z.leb_gt _ _)), (proj2 (Z.ltb_ge _ _)), Hr in Pr by lia. destruct Pr as (l & -> & Ll & Wl & Ec).
  pose proof (read_at_length _ _ _ _ _ Hr) as Ld.
  split; [by split; [lia|]|]. split; [by split|]. intros c' (Hk' & Es & _). cbn [got]. rewrite Z.add_0_l, Nat2Z.id, Ec. split.
  { f_equal. unfold memcpy_at. cbn [Z.to_nat]. by rewrite take_0, app_nil_l, take_app_length. }
  unfold serves, disks. rewrite Es. split; [|split; [done|by exists b']]. split; [done|]. eapply host_rep_ext; [exact R|].
  intros q _. destruct (decide (q = p)) as [->|]; [by rewrite fn_lookup_insert|by rewrite fn_lookup_insert_ne].
Qed.

End Object.

Lemma only_on_insert FF o p fl (h h' : SbList.host T St) : only_on e FF o p h -> sb_list h' = sb_list h -> only_on e (<[p := <[okey o := fl]> (FF p)]> FF) o p h'.
Proof.
  intros (Hp & _ & Hq) El. unfold only_on. rewrite El, fn_lookup_insert, lookup_insert_eq. split; [done|]. split; [done|].
  intros q Hl Hne. rewrite fn_lookup_insert_ne by done. by apply Hq.
Qed.

Lemma client_put_get c FF o p fl off data : serves c FF -> id_wf o -> only_on e FF o p (disks c) -> FF p !! okey o = Some fl -> 0 <= off ->
  0 < Z.of_nat (length data) <= NKFS_NET_PKT_MAX_DSIZE -> off + Z.of_nat (length data) < 2 ^ 63 ->
  (fl_cap fl + 2 * npages (length data) <= t_safe)%nat ->
  (forall b, sbo (disks c) !! p = Some b -> st_room (st (sb_in b)) (4 * npages (length data))) ->
  exists c1 c2 fl', nkfs_put_object e ctx cctx o off data c = Done 0 c1 /\
  nkfs_get_object e ctx cctx o off (Z.of_nat (length data)) c1 = Done (inr data) c2 /\
  fl_size fl' = Z.max (fl_size fl) (off + Z.of_nat (length data)) /\ serves c2 (<[p := <[okey o := fl']> (FF p)]> FF).
Proof.
  intros Hc Wo Hon Ef Hoff Hd He Hcap Hroom.
  destruct (proj1 (spec_done _ _ _) (spec_client_put c FF o p fl off Hc Wo Hon Ef Hoff data Hd He Hcap Hroom)) as (r & c1 & E1 & -> & f' & b & b1 & Pa & _ & Eb1 & Ebs & _ & Ls & Hc1).
  set (fl' := File _ _ f' _) in Hc1. rewrite <- Ebs in Pa.
  destruct (proj1 (spec_done _ _ _) (spec_client_get c1 _ o p fl' off Hc1 Wo (only_on_insert FF o p fl' _ _ Hon Ls) ltac:(by rewrite fn_lookup_insert, lookup_insert_eq) Hoff
    (Z.of_nat (length data)) data b1 Hcap Eb1 Hd He ltac:(cbn; lia) ltac:(cbn [fl' fl_size fl_data]; rewrite Z.min_l, Nat2Z.id by lia; by apply put_at_read in Pa))) as (r & c2 & E2 & -> & Hc2 & _).
  by exists c1, c2, fl'.
Qed.

(** A new object: the superblock it is on is one of the list. *)
Lemma client_create c FF (o := snd (nkfs_obj_id_gen (sv_rnd (cl_srv c) (sv_rtick (cl_srv c))))) : serves c FF -> counted (disks c) ->
  sb_list (disks c) <> [] -> id_wf o -> (forall q, q ∈ sb_list (disks c) -> FF q !! okey o = None /\ (size (FF q) < t_cap)%nat) ->
  (forall q b, q ∈ sb_list (disks c) -> sbo (disks c) !! q = Some b -> st_room (st (sb_in b)) 3) ->
  exists c1 p roots, nkfs_create_object e ctx cctx c = Done (inr o) c1 /\ p ∈ sb_list (disks c) /\ sb_list (disks c1) = sb_list (disks c) /\
  serves c1 (<[p := <[okey o := File 0 0 (fun _ => None) roots]> (FF p)]> FF) /\
  exists b b1, sbo (disks c) !! p = Some b /\ sbo (disks c1) !! p = Some b1 /\ forall n, st_room (st (sb_in b)) (3 + n) -> st_room (st (sb_in b1)) n.
Proof.
  intros [Hk Hh] Hc Hne Wo Hf Hr.
  destruct (proj1 (spec_done _ _ _) (spec_list_create e dctx dctx_ok X (disks c) FF _ Hh Hc Hne Wo Hf Hr)) as (r & h' & E & -> & p & roots & Hp & [R Ls (b & b1 & Eb & Eb1 & _ & Rm)]).
  assert (W : spec (nkfs_create_object e ctx cctx) c (fun r c' => r = inr o /\ after h' c c')).
  { apply (spec_create_object e ctx cctx ctx_ok cctx_ok c (inr o) h'); [done|exact E|done|done|by intros o' [= <-]|done]. }
  apply spec_done in W as (r & c1 & E1 & -> & Hk1 & Es & _). exists c1, p, roots. unfold serves, disks in *. rewrite Es. do 4 (split; [done|]). by exists b, b1.
Qed.

(** What a client puts into an object it gets back: the data go into packets,
    through the pages of the host, the superblock that holds the object, its inode
    and its trees, and the same bytes come back; the object covers them, and every
    other object on every superblock is as it was.  Nothing fails, and the object
    ends with at most [t_safe] blocks. *)
Theorem nkfs_client_put_get c FF o p fl off data : serves c FF -> id_wf o -> only_on e FF o p (disks c) -> FF p !! okey o = Some fl -> 0 <= off ->
  0 < Z.of_nat (length data) <= NKFS_NET_PKT_MAX_DSIZE -> off + Z.of_nat (length data) < 2 ^ 63 ->
  (fl_cap fl + 2 * npages (length data) <= t_safe)%nat ->
  (forall b, sbo (disks c) !! p = Some b -> st_room (st (sb_in b)) (4 * npages (length data))) ->
  exists c1 c2 fl', nkfs_put_object e ctx cctx o off data c = Done 0 c1 /\
  nkfs_get_object e ctx cctx o off (Z.of_nat (length data)) c1 = Done (inr data) c2 /\
  fl_size fl' = Z.max (fl_size fl) (off + Z.of_nat (length data)) /\ serves c2 (<[p := <[okey o := fl']> (FF p)]> FF).
Proof. by apply client_put_get. Qed.

(** (C7) The life of an object at its client: it is created on one of the superblocks
    under an id that the host draws, what is put into it is what is got back, and
    every other object on every superblock is as it was.  Nothing fails on the link,
    the host or its disks, every superblock has room in the root of its tree of
    inodes and enough free blocks, the id is new, and the data, of at least a byte
    and at most what a packet carries, take at most half of [t_safe] pages. *)
Theorem nkfs_client_new_object c FF data (o := snd (nkfs_obj_id_gen (sv_rnd (cl_srv c) (sv_rtick (cl_srv c))))) : serves c FF -> counted (disks c) ->
  sb_list (disks c) <> [] -> id_wf o -> (forall q, q ∈ sb_list (disks c) -> FF q !! okey o = None /\ (size (FF q) < t_cap)%nat) ->
  0 < Z.of_nat (length data) <= NKFS_NET_PKT_MAX_DSIZE -> (2 * npages (length data) <= t_safe)%nat ->
  (forall q b, q ∈ sb_list (disks c) -> sbo (disks c) !! q = Some b -> st_room (st (sb_in b)) (3 + 4 * npages (length data))) ->
  exists p c1 c2 c3 fl', p ∈ sb_list (disks c) /\ nkfs_create_object e ctx cctx c = Done (inr o) c1 /\
  nkfs_put_object e ctx cctx o 0 data c1 = Done 0 c2 /\ nkfs_get_object e ctx cctx o 0 (Z.of_nat (length data)) c2 = Done (inr data) c3 /\
  fl_size fl' = Z.of_nat (length data) /\ serves c3 (<[p := <[okey o := fl']> (FF p)]> FF).
Proof.
  intros Hc Hcn Hne Wo Hf Hd Hcap Hroom. unfold NKFS_NET_PKT_MAX_DSIZE in Hd.
  destruct (client_create c FF Hc Hcn Hne Wo Hf) as (c1 & p & roots & E1 & Hp & Ls & Hc1 & b & b1 & Eb & Eb1 & Rm).
  { intros q b Hq Eb. eapply room_le; [|by apply (Hroom q b)]. lia. }
  set (fl := File 0 0 _ roots) in Hc1. set (FF1 := <[p := <[okey o := fl]> (FF p)]> FF) in Hc1.
  assert (Hon : only_on e FF1 o p (disks c1)).
  { unfold only_on, FF1. rewrite Ls, fn_lookup_insert, lookup_insert_eq. split; [done|]. split; [done|].
    intros q Hq Hqp. rewrite fn_lookup_insert_ne by done. by apply Hf. }
  destruct (client_put_get c1 FF1 o p fl 0 data Hc1 Wo Hon) as (c2 & c3 & fl' & E2 & E3 & Hz & Hl & Hh).
  { unfold FF1. by rewrite fn_lookup_insert, lookup_insert_eq. }
  all: try (cbn; lia); try done.
  { intros b' Eb'. replace b' with b1 by congruence. by apply Rm, (Hroom p b). }
  exists p, c1, c2, c3, fl'. split; [done|]. split; [done|]. split; [done|]. split; [done|]. split; [cbn in Hz; lia|]. split; [done|].
  eapply host_rep_ext; [exact Hh|]. intros q _. unfold FF1. destruct (decide (q = p)) as [->|]; [by rewrite !fn_lookup_insert, insert_insert_eq|by rewrite !fn_lookup_insert_ne].
Qed.

End EndToEnd.

End ClientObjects.
