(* ===== verification/ClientToolSpec.v ===== *)
(** * The client program stores files

    What [put] stores under the id it prints, [get] with that id writes to a new
    file, byte for byte; and what the program makes of errors. *)

From Stdlib Require Import ZArith Lia.
From coqutil Require Import Byte.
From stdpp Require Import functions base list gmap.
From S2P Require Import Prelude XXHash Bytes StMonad Csum DioPages Dio DioInv DioClient Mem CharHex ObjId NetPkt Upages Sock Super.
From S2P Require Import BtreeNode BtreeNodeSpec BtreeDisk BlockTree Inode InodeSpec InodeOps InodeFile InodePages SbList SbListSpec SbObjects.
From S2P Require Import Route Net NetSpec Client ClientTool ClientSpec SbListObjects ClientObjects.
Import XXHash Bytes StMonad Csum Mem CharHex ObjId NetPkt Inode InodeOps InodeFile InodePages SbList SbListSpec SbObjects Net NetSpec Client ClientSpec SbListObjects ClientObjects.
Import Libc ClientTool.
Local Open Scope Z_scope.
Local Open Scope stm_scope.

Module ClientToolSpec.

(** ** Strings *)

(** A string of C: no zero in it. *)
Definition no_zero (s : list byte) : Prop := Forall (fun b => byte.unsigned b <> 0) s.

Lemma unsigned_inj a b : byte.unsigned a = byte.unsigned b -> a = b.
Proof. intros E. rewrite <- (byte.of_Z_unsigned a), <- (byte.of_Z_unsigned b). by rewrite E. Qed.

Lemma char_at_drop s i : char_at s i = match drop i s with [] => 0 | b :: _ => byte.unsigned b end.
Proof.
  unfold char_at. destruct (drop i s) as [|b l] eqn:E.
  - assert (length s <= i)%nat by (apply (f_equal length) in E; rewrite length_drop in E; cbn in E; lia). by rewrite lookup_ge_None_2.
  - assert (Hb : drop i s !! 0%nat = Some b) by (by rewrite E). rewrite lookup_drop, Nat.add_0_r in Hb. by rewrite Hb.
Qed.

Lemma strncmp_from_eq n : forall i a b, no_zero a -> no_zero b -> (length (drop i b) < n)%nat -> strncmp_from i n a b = 0 <-> drop i a = drop i b.
Proof.
  induction n as [|n IH]; intros i a b Ha Hb Hn; [lia|]. cbn [strncmp_from]. rewrite !char_at_drop.
  pose proof (Forall_drop _ i _ Ha) as Da. pose proof (Forall_drop _ i _ Hb) as Db. specialize (IH (S i) a b Ha Hb).
  destruct (drop i a) as [|x la] eqn:Ea, (drop i b) as [|y lb] eqn:Eb; cbn [length] in *.
  - done.
  - apply Forall_cons in Db as [Hy _]. rewrite (proj2 (Z.eqb_neq _ _)) by lia. cbn [negb]. split; [lia|done].
  - apply Forall_cons in Da as [Hx _]. rewrite (proj2 (Z.eqb_neq _ _)) by lia. cbn [negb]. split; [lia|done].
  - apply Forall_cons in Da as [Hx _].
    assert (Sa : drop (S i) a = la) by (rewrite <- Nat.add_1_r, <- drop_drop, Ea; done). assert (Sb : drop (S i) b = lb) by (rewrite <- Nat.add_1_r, <- drop_drop, Eb; done).
    rewrite Sa, Sb in IH. destruct (Z.eqb_spec (byte.unsigned x - byte.unsigned y) 0) as [E|E]; cbn [negb].
    + rewrite (proj2 (Z.eqb_neq _ _) Hx). rewrite IH by lia. rewrite (unsigned_inj x y) by lia. split; [by intros ->|by intros [= ->]].
    + split; [lia|]. intros [= -> _]. lia.
Qed.

Lemma cmd_equal_spec cmd val : no_zero cmd -> no_zero val -> cmd_equal cmd val = bool_decide (cmd = val).
Proof.
  intros Hc Hv. unfold cmd_equal, strncmp. pose proof (strncmp_from_eq (length val + 1) 0 cmd val Hc Hv) as E. rewrite !drop_0 in E. specialize (E ltac:(lia)).
  apply eq_bool_prop_intro. rewrite Is_true_true, Z.eqb_eq, E. by rewrite bool_decide_spec.
Qed.

Lemma c_str_hex_digits b l : c_str (hex_digits b ++ l) = hex_digits b ++ c_str l.
Proof. by destruct b. Qed.

Lemma c_str_hex l : c_str (hex_text l ++ [Init.Byte.x00]) = hex_text l.
Proof. induction l as [|b l IH]; [done|]. cbn [hex_text flat_map]. fold (hex_text l). by rewrite <- app_assoc, c_str_hex_digits, IH. Qed.

(** ** A host and its client machine without failures *)

Record calm_sys (k : sys) : Prop := {
  cs_open : forall t, open_err k t = None;
  cs_read : forall t, read_err k t = None /\ (Z.to_nat buf_size <= S (read_piece k t))%nat;
  cs_socket : forall t, socket_err k t = false;
  cs_connect : forall a p t, connect_err k a p t = false;
  cs_net : forall t, net_send k t = None /\ net_recv k t = None;
  cs_peer : forall t, Sock.calm (peer k t) /\ forall i, Sock.tx_err (peer k t) i = None
}.

Section Tool.
Context {T St : Type} `{BlockTree T St}.
Context (e : XXH_endianess) (dctx ctx cctx : csum_ctx).
Context (dctx_ok : length (mem64 dctx) = 32%nat) (ctx_ok : length (mem64 ctx) = 32%nat) (cctx_ok : length (mem64 cctx) = 32%nat).
Context (X : Z).
Context (k : sys) (inet_aton : list byte -> option Z) (junk : byte) (Hk : calm_sys k).

Local Instance tool_store : ObjStore (SbList.host T St) := host_store e dctx.
Local Abbreviation world := (ClientTool.world (SbList.host T St)).
Local Abbreviation serves := (serves e dctx X).
Local Abbreviation okey := (okey e).

(** Between two commands: no connection. *)
Record idle (w : world) (FF : nat -> gmap Z file) : Prop := {
  id_rep : host_rep e dctx X (disks (w_cl w)) FF;
  id_mem : forall t, Upages.fail (sv_mem (cl_srv (w_cl w))) t = false;
  id_junk : forall t, length (Upages.junk (sv_mem (cl_srv (w_cl w))) t) = 4096%nat;
  id_open : c_open (cl_srv (w_cl w)) = false
}.

(** The files, the output and the memory of the program are as before. *)
Definition same_rest (w w' : world) : Prop := w_fs w' = w_fs w /\ w_out w' = w_out w /\ w_heap w' = w_heap w.

Lemma same_rest_refl w : same_rest w w.
Proof. done. Qed.

Lemma same_rest_trans w1 w2 w3 : same_rest w1 w2 -> same_rest w2 w3 -> same_rest w1 w3.
Proof. intros (A1 & B1 & C1) (A2 & B2 & C2). split_and!; congruence. Qed.

Lemma spec_con {A} (m : StMonad.M (client (SbList.host T St)) A) (w : world) (Q : A -> world -> Prop) :
  spec m (w_cl w) (fun a c => Q a (set_cl c w)) -> spec (con m) w Q.
Proof. unfold spec, con. by destruct (m (w_cl w)). Qed.

Lemma spec_sys {A} (f : nat -> A) (w : world) (Q : A -> world -> Prop) : Q (f (w_tick w)) (set_tick (S (w_tick w)) w) -> spec (sys_call f) w Q.
Proof. done. Qed.

(** ** Connecting and closing *)

Lemma spec_connect ip port a w FF : inet_aton ip = Some a -> idle w FF ->
  spec (nkfs_connect k inet_aton ip port) w (fun r w' => r = 0 /\ serves (w_cl w') FF /\ disks (w_cl w') = disks (w_cl w) /\
    sv_rnd (cl_srv (w_cl w')) (sv_rtick (cl_srv (w_cl w'))) = sv_rnd (cl_srv (w_cl w)) (sv_rtick (cl_srv (w_cl w))) /\ same_rest w w').
Proof.
  intros Ha [Hr Hm Hj Ho]. unfold nkfs_connect, con_init. apply spec_bind, spec_bind, spec_con, spec_modify, spec_bind, spec_sys.
  rewrite (cs_socket _ Hk). apply spec_ret. cbn [Z.eqb negb]. rewrite Ha. apply spec_bind, spec_sys. rewrite (cs_connect _ Hk).
  apply spec_bind, spec_sys, spec_bind, spec_con, spec_modify, spec_ret. split; [done|]. split; [|done]. split; [|exact Hr].
  destruct (cs_peer _ Hk (w_tick (set_tick (S (w_tick (set_tick (S (w_tick (set_cl (set_cerr 0 (w_cl w)) w))) (set_cl (set_cerr 0 (w_cl w)) w)))) (set_cl (set_cerr 0 (w_cl w)) w)))) as [Hc Ht].
  split; cbn; try done; [|intros t; apply (cs_net _ Hk)..]. split; cbn; try done. by eapply Sock.sock_calm_same; [..|exact Hc].
Qed.

(** The end of the stream. *)
Lemma ksock_read_eof s nob : Sock.calm s -> Sock.rx s = [] -> Sock.rx_end s = Some 0 -> 0 < nob ->
  exists n, Sock.ksock_read nob s = Done (- Sock.ECONNRESET, []) (Sock.set_sk n s).
Proof.
  intros [Ho Ht] Hr He Hn. unfold Sock.ksock_read. cbn [Sock.read_all length]. change (Z.of_nat 0) with 0. rewrite (proj2 (Z.ltb_lt 0 nob) Hn), Z.sub_0_r.
  unfold Sock.ksock_read_timeout. destruct (Z.to_nat nob) as [|n] eqn:En; [lia|]. unfold BUG_ON. rewrite (proj2 (Z.leb_gt nob 0) Hn).
  cbn -[Sock.U64_MAX Z.ltb Z.sub u64]. unfold bind, ret, Sock.sock_setsockopt, Sock.kcall. rewrite Ho. cbn -[Sock.U64_MAX Z.ltb Z.sub u64].
  unfold Sock.sock_recvmsg, bind, Sock.kcall, gets. cbn -[Sock.U64_MAX Z.ltb Z.sub u64]. rewrite Hr. cbn -[Sock.U64_MAX Z.ltb Z.sub u64]. rewrite He. cbn -[Sock.U64_MAX u64].
  by eexists.
Qed.

Lemma spec_turn_eof (s : server (SbList.host T St)) : healthy s -> to_read s = [] -> Sock.rx_end (c_sock s) = Some 0 ->
  spec (con_turn e ctx) s (fun more s' => more = false /\ sv_st s' = sv_st s /\ exists n, sv_mem s' = sv_mem (memory n s)).
Proof.
  intros Hs Hr He. apply spec_bind, spec_gets. rewrite (h_err _ Hs). cbn [Z.eqb negb]. apply spec_bind, spec_pkt_alloc; [done|]. intros n.
  apply spec_bind, spec_bind. unfold nkfs_con_recv. apply spec_bind, spec_gets. cbn [c_err memory set_mem]. rewrite (h_err _ Hs). cbn [Z.eqb negb].
  apply spec_bind, spec_zoom. destruct (ksock_read_eof (c_sock s) PKT_SIZE (h_calm _ Hs) Hr He ltac:(done)) as [m E].
  unfold spec at 1. cbn [c_sock memory set_mem]. rewrite E. cbn [fst Z.eqb negb Z.opp Sock.ECONNRESET]. apply spec_bind. unfold nkfs_con_fail.
  apply spec_bind, spec_gets. cbn [c_err set_sock memory set_mem]. rewrite (h_err _ Hs). cbn [Z.eqb]. apply spec_modify, spec_ret, spec_ret, spec_ret.
  split; [done|]. split; [done|]. by exists n.
Qed.

Lemma spec_tool_close w FF : serves (w_cl w) FF -> spec (nkfs_close e ctx) w (fun _ w' => idle w' FF /\ disks (w_cl w') = disks (w_cl w) /\ same_rest w w').
Proof.
  intros [Hl Hr]. unfold nkfs_close. apply spec_bind, spec_con.
  assert (W : spec (hangup e ctx) (cl_srv (w_cl w)) (fun _ s' => sv_st s' = disks (w_cl w) /\ c_open s' = false /\ exists n, sv_mem s' = sv_mem (memory n (cl_srv (w_cl w))))).
  { unfold hangup. apply spec_bind, spec_gets. cbn [id]. rewrite (k_open _ Hl). pose proof (k_rx _ Hl) as Rx. unfold to_read in Rx. rewrite Rx. cbn [length].
    apply spec_bind, spec_modify. cbn [nkfs_con_thread_routine]. set (s := set_sock _ _).
    apply spec_bind. eapply spec_mono; [apply (spec_turn_eof s)|].
    - destruct (k_srv _ Hl). split; try done. by apply (Sock.sock_calm_same (c_sock (cl_srv (w_cl w)))).
    - done.
    - done.
    - intros more s' (-> & Es & n & Em). apply spec_modify. split; [done|]. split; [done|]. by exists n. }
  apply spec_done in W as ([] & s' & E & Es & Ho & n & Em). unfold spec at 1, on_srv. rewrite E. apply spec_con, spec_modify.
  split; [|split; [exact Es|done]]. split; cbn; [unfold disks; cbn; by rewrite Es|rewrite Em; apply (k_srv _ Hl)..|done].
Qed.

(** ** put *)

Lemma read_at_iff bs f pos n d : read_at bs f pos n = Some d <-> length d = n /\ forall i b, d !! i = Some b -> byte_at bs f (pos + Z.of_nat i) = Some b.
Proof.
  unfold read_at. rewrite mapM_Some. split.
  - intros F. pose proof (Forall2_length _ _ _ F) as L. rewrite length_seq in L. split; [done|]. intros i b Hb.
    pose proof (lookup_lt_Some _ _ _ Hb). eapply Forall2_lookup_lr in F; [exact F| |exact Hb]. apply lookup_seq. lia.
  - intros [L Hd]. apply Forall2_same_length_lookup_2; [by rewrite length_seq|]. intros i x b Hx Hb. apply lookup_seq in Hx as [-> _]. by apply Hd.
Qed.

Lemma read_at_grows bs f f' dn data : put_at bs f (Z.of_nat (length dn)) data f' -> read_at bs f 0 (length dn) = Some dn ->
  read_at bs f' 0 (length (dn ++ data)) = Some (dn ++ data).
Proof.
  intros [N O _] [_ Hd]%read_at_iff. apply read_at_iff. split; [done|]. intros i b [Hi|[Hl Hi]]%lookup_app_Some.
  - apply O; [apply lookup_lt_Some in Hi; lia|by apply Hd].
  - apply N in Hi. by replace (0 + Z.of_nat i) with (Z.of_nat (length dn) + Z.of_nat (i - length dn)) by lia.
Qed.

Lemma read_at_part bs f dn data rest : read_at bs f 0 (length (dn ++ data ++ rest)) = Some (dn ++ data ++ rest) ->
  read_at bs f (Z.of_nat (length dn)) (length data) = Some data.
Proof.
  intros [_ Hd]%read_at_iff. apply read_at_iff. split; [done|]. intros i b Hi. replace (Z.of_nat (length dn) + Z.of_nat i) with (0 + Z.of_nat (length dn + i)) by lia.
  apply Hd. rewrite lookup_app_r by lia. replace (length dn + i - length dn)%nat with i by lia. by apply lookup_app_l_Some.
Qed.

Lemma npages_split n : npages n = (npages (Nat.min (Z.to_nat buf_size) n) + npages (n - Z.to_nat buf_size))%nat.
Proof. unfold npages. change (Z.to_nat buf_size) with (Z.to_nat 65536). dlia. Qed.

Section Object.
Context (FF : nat -> gmap Z file) (o : nkfs_obj_id) (p : nat) (Wo : id_wf o).

(** The object on [p] holds [dn], and there is room for [need] pages more. *)
Record stored (w : world) (fl : file) (dn : list byte) (need : nat) : Prop := {
  so_serves : serves (w_cl w) (<[p := <[okey o := fl]> (FF p)]> FF);
  so_on : only_on e (<[p := <[okey o := fl]> (FF p)]> FF) o p (disks (w_cl w));
  so_size : fl_size fl = Z.of_nat (length dn);
  so_cap : (fl_cap fl + 2 * need <= t_safe)%nat;
  so_sb : exists b, sbo (disks (w_cl w)) !! p = Some b /\ read_at (bsize (sb_in b)) (fl_data fl) 0 (length dn) = Some dn /\
    (need <> 0%nat -> st_room (st (sb_in b)) (4 * need))
}.

Lemma insert_again (fl fl' : file) q : <[p := <[okey o := fl']> ((<[p := <[okey o := fl]> (FF p)]> FF) p)]> (<[p := <[okey o := fl]> (FF p)]> FF) q =
  (<[p := <[okey o := fl']> (FF p)]> FF) q.
Proof. destruct (decide (q = p)) as [->|]; [by rewrite !fn_lookup_insert, insert_insert_eq|by rewrite !fn_lookup_insert_ne]. Qed.

Lemma serves_ext c FF1 FF2 : serves c FF1 -> (forall q, FF2 q = FF1 q) -> serves c FF2.
Proof. intros [Hl Hh] E. split; [done|]. eapply host_rep_ext; [exact Hh|]. intros q _. apply E. Qed.

Lemma only_on_ext (h h' : SbList.host T St) FF1 FF2 : only_on e FF1 o p h -> (forall q, FF2 q = FF1 q) -> sb_list h' = sb_list h -> only_on e FF2 o p h'.
Proof. intros (A & B & C) E L. unfold only_on. rewrite L, E. split; [done|]. split; [done|]. intros q. rewrite E. apply C. Qed.

(** A piece more. *)
Lemma spec_put_piece w fl dn data need : stored w fl dn (npages (length data) + need) -> 0 < Z.of_nat (length data) <= buf_size ->
  Z.of_nat (length dn) + Z.of_nat (length data) < 2 ^ 63 ->
  spec (con (nkfs_put_object e ctx cctx o (Z.of_nat (length dn)) data)) w (fun r w' => r = 0 /\ (exists fl', stored w' fl' (dn ++ data) need) /\ same_rest w w').
Proof.
  intros [Ss So Sz Sc (b & Eb & Rd & Rm)] Hd Hl. unfold buf_size in Hd. apply spec_con.
  assert (Hnz : (0 < npages (length data))%nat) by (unfold npages; dlia). eapply spec_mono.
  { eapply (spec_client_put e dctx ctx cctx dctx_ok ctx_ok cctx_ok X _ _ o p fl _ Ss Wo So);
      [by rewrite fn_lookup_insert, lookup_insert_eq|lia|unfold NKFS_NET_PKT_MAX_DSIZE; lia|lia|lia|].
    intros b' Eb'. replace b' with b by congruence. eapply room_le; [|apply Rm; lia]. lia. }
  intros r c' (-> & f' & b0 & b' & Pa & Eb0 & Eb' & Ebs & Rm' & Ls & Ss'). replace b0 with b in * by congruence. split; [done|]. split; [|done].
  set (fl' := File _ _ f' _) in Ss'. exists fl'. split.
  - eapply serves_ext; [exact Ss'|]. intros q. by rewrite insert_again.
  - eapply only_on_ext; [exact (only_on_insert e _ o p fl' _ _ So Ls)| |done]. intros q. by rewrite insert_again.
  - cbn. rewrite length_app. lia.
  - cbn. lia.
  - exists b'. split; [done|]. rewrite Ebs. split; [by eapply read_at_grows|]. intros _. apply Rm'.
    replace (4 * npages (length data) + 4 * need)%nat with (4 * (npages (length data) + need))%nat by lia. apply Rm. lia.
Qed.

Lemma spec_put_loop fuel : forall rest w fl dn, (length rest < fuel)%nat -> stored w fl dn (npages (length rest)) ->
  Z.of_nat (length dn) + Z.of_nat (length rest) < 2 ^ 63 ->
  spec (put_loop e ctx cctx k fuel o (Z.of_nat (length dn)) rest) w (fun r w' => r = inr tt /\ (exists fl', stored w' fl' (dn ++ rest) 0) /\ same_rest w w').
Proof.
  induction fuel as [|fuel IH]; intros rest w fl dn Hf Hs Hl; [lia|]. cbn [put_loop]. apply spec_bind. unfold sys_read. apply spec_bind, spec_sys.
  destruct (cs_read _ Hk (w_tick w)) as [Er Hp]. cbn [fst snd]. rewrite Er. apply spec_ret. rewrite Nat.min_l by done.
  set (w1 := set_tick _ w). assert (Hs1 : stored w1 fl dn (npages (length rest))) by (destruct Hs; by split).
  destruct rest as [|x rest']; [rewrite take_nil; apply spec_ret; rewrite app_nil_r; split; [done|]; split; [by exists fl|done]|].
  set (rest := x :: rest') in *. set (data := take (Z.to_nat buf_size) rest).
  assert (Hd : (0 < length data)%nat /\ length data = Nat.min (Z.to_nat buf_size) (length rest)).
  { unfold data. rewrite length_take. split; [cbn [rest length]; unfold buf_size; lia|done]. }
  destruct data as [|y data'] eqn:Ed; [cbn in Hd; lia|]. rewrite <- Ed in *. clear y data' Ed.
  assert (Hn : npages (length rest) = (npages (length data) + npages (length (drop (length data) rest)))%nat).
  { rewrite npages_split, length_drop. destruct Hd as [_ ->]. f_equal. f_equal. lia. }
  assert (Hb : Z.of_nat (length data) <= buf_size) by (unfold buf_size in *; lia).
  rewrite Hn in Hs1. apply spec_bind. eapply spec_mono; [apply (spec_put_piece w1 fl dn data); [exact Hs1|lia|unfold buf_size in *; lia]|].
  intros r w2 (-> & (fl2 & Hs2) & R2). cbn [Z.eqb negb]. rewrite (wrap_small 64) by (unfold buf_size in *; lia).
  assert (Ez : Z.of_nat (length dn) + Z.of_nat (length data) = Z.of_nat (length (dn ++ data))) by (rewrite length_app; lia). rewrite Ez.
  assert (Ed : data ++ drop (length data) rest = rest).
  { unfold data at 1. rewrite <- (take_drop (Z.to_nat buf_size) rest) at 3. f_equal. destruct Hd as [_ Hd]. rewrite Hd.
    destruct (Nat.min_spec (Z.to_nat buf_size) (length rest)) as [[? ->]|[? ->]]; [done|]. by rewrite !drop_ge. }
  assert (Hlr : (length data + length (drop (length data) rest) = length rest)%nat) by (rewrite <- length_app, Ed; done).
  eapply spec_mono; [apply (IH (drop (length data) rest) w2 fl2 (dn ++ data)); [lia|done|rewrite length_app; lia]|].
  intros r w3 (-> & (fl3 & Hs3) & R3). split; [done|]. rewrite <- app_assoc, Ed in Hs3. split; [by exists fl3|].
  eapply same_rest_trans; [exact R2|exact R3].
Qed.

(** ** get *)

Context (Hw : forall t, write_err k t = None).

(** Only the file at [path] has changed. *)
Definition wrote_to (path d : list byte) (w w' : world) : Prop :=
  w_fs w' path = Some d /\ (forall q, q <> path -> w_fs w' q = w_fs w q) /\ w_cl w' = w_cl w /\ w_out w' = w_out w /\ w_heap w' = w_heap w.

Lemma wrote_set path d (w : world) : wrote_to path d w (set_file path d w).
Proof. split_and!; [cbn; by rewrite bool_decide_true|intros q Hq; cbn; by rewrite bool_decide_false|done..]. Qed.

Lemma wrote_to_trans path d d' w1 w2 w3 : wrote_to path d w1 w2 -> wrote_to path d' w2 w3 -> wrote_to path d' w1 w3.
Proof. intros (_ & O1 & C1 & P1 & H1) (F2 & O2 & C2 & P2 & H2). split_and!; [done|intros q Hq; by rewrite O2, O1|congruence..]. Qed.

Lemma spec_tool_write fuel : forall path buf pre w, (0 < length buf <= fuel)%nat -> w_fs w path = Some pre ->
  spec (write_loop k fuel path buf) w (fun r w' => r = true /\ wrote_to path (pre ++ buf) w w').
Proof.
  induction fuel as [|fuel IH]; intros path buf pre w Hb Hp; [lia|]. cbn [write_loop]. apply spec_bind. unfold sys_write. apply spec_bind, spec_sys.
  cbn [fst snd]. rewrite Hw. set (n := S _). apply spec_bind, spec_gets. cbn [w_fs set_tick]. rewrite Hp. cbn [default].
  apply spec_bind, spec_modify, spec_ret. set (w1 := set_file _ _ _). assert (W1 : wrote_to path (pre ++ take n buf) w w1) by exact (wrote_set path _ (set_tick (S (w_tick w)) w)).
  rewrite Nat2Z.id, length_drop.
  assert (Ed : drop (length (take n buf)) buf = drop n buf).
  { rewrite length_take. destruct (Nat.min_spec n (length buf)) as [[? ->]|[? ->]]; [done|]. by rewrite !drop_ge by lia. }
  destruct (Z.ltb_spec 0 (Z.of_nat (length buf - length (take n buf)))) as [Hlt|Hge].
  - rewrite Ed. eapply spec_mono; [apply (IH path (drop n buf) (pre ++ take n buf) w1); [rewrite length_drop; rewrite length_take in Hlt; unfold n in *; lia|apply W1]|].
    intros r w2 [-> W2]. split; [done|]. rewrite <- app_assoc, take_drop in W2. by eapply wrote_to_trans.
  - apply spec_ret. split; [done|]. rewrite length_take in Hge. rewrite take_ge in W1 by lia. done.
Qed.

Lemma stored_files w w' fl dn need : w_cl w' = w_cl w -> stored w fl dn need -> stored w' fl dn need.
Proof. intros E []. split; by rewrite ?E. Qed.

Lemma spec_get_loop fuel : forall rest w fl dn path, (length rest < fuel)%nat -> stored w fl (dn ++ rest) 0 -> w_fs w path = Some dn ->
  Z.of_nat (length (dn ++ rest)) < 2 ^ 62 ->
  spec (get_loop e ctx cctx k fuel o (Z.of_nat (length dn)) path) w (fun r w' => r = 0 /\ stored w' fl (dn ++ rest) 0 /\
    w_fs w' path = Some (dn ++ rest) /\ (forall q, q <> path -> w_fs w' q = w_fs w q) /\ w_out w' = w_out w /\ w_heap w' = w_heap w).
Proof.
  induction fuel as [|fuel IH]; intros rest w fl dn path Hf Hs Hp Hl; [lia|]. cbn [get_loop]. pose proof Hs as [Ss So Sz Sc (b & Eb & Rd & Rm)].
  set (data := take (Z.to_nat buf_size) rest). assert (Hd : length data = Nat.min (Z.to_nat buf_size) (length rest)) by (unfold data; by rewrite length_take).
  assert (Ed : rest = data ++ drop (Z.to_nat buf_size) rest) by (unfold data; by rewrite take_drop).
  assert (Rd' : read_at (bsize (sb_in b)) (fl_data fl) (Z.of_nat (length dn)) (length data) = Some data).
  { apply (read_at_part _ _ dn data (drop (Z.to_nat buf_size) rest)). by rewrite <- Ed. }
  rewrite length_app in Sz, Hl. apply spec_bind, spec_con. eapply spec_mono.
  { eapply (spec_client_get e dctx ctx cctx dctx_ok ctx_ok cctx_ok X _ _ o p fl _ Ss Wo So);
      [by rewrite fn_lookup_insert, lookup_insert_eq|lia|lia|exact Eb|unfold NKFS_NET_PKT_MAX_DSIZE, buf_size; lia|unfold buf_size; lia|lia|].
    rewrite <- Rd'. f_equal. rewrite Hd, Sz. unfold buf_size. lia. }
  intros r c' (-> & Ss' & Ls & b' & Eb' & Ebs').
  assert (Hs' : stored (set_cl c' w) fl (dn ++ rest) 0).
  { split; [done|by eapply only_on_ext; [exact So|done|exact Ls]|rewrite length_app; lia|done|]. exists b'. split; [exact Eb'|]. by rewrite Ebs'. }
  destruct data as [|y data'] eqn:Edt.
  { cbn [length] in Hd. assert (rest = []) as -> by (apply length_zero_iff_nil; unfold buf_size in Hd; lia). apply spec_ret. rewrite app_nil_r in *. done. }
  rewrite <- Edt in *. assert (Hdp : (0 < length data)%nat) by (rewrite Edt; cbn; lia). clear y data' Edt.
  apply spec_bind. eapply spec_mono; [apply (spec_tool_write _ path data dn); [lia|exact Hp]|]. intros r w2 (-> & F2 & O2 & C2 & P2 & H2).
  rewrite (wrap_small 64) by lia. replace (Z.of_nat (length dn) + Z.of_nat (length data)) with (Z.of_nat (length (dn ++ data))) by (rewrite length_app; lia).
  rewrite Ed, app_assoc in Hs'. rewrite Ed, app_assoc.
  eapply spec_mono; [apply (IH (drop (Z.to_nat buf_size) rest) w2 fl (dn ++ data) path); [rewrite length_drop; lia|by eapply stored_files|done|]|].
  { rewrite <- app_assoc, <- Ed, length_app. lia. }
  intros r w3 (-> & Hs3 & F3 & O3 & P3 & H3). split_and!; [done|done|done|intros q Hq; by rewrite O3, O2|by rewrite P3|by rewrite H3].
Qed.

(** When nothing can be written. *)
Lemma get_first w fl d (Q : Z + list byte -> world -> Prop) : stored w fl d 0 -> Z.of_nat (length d) < 2 ^ 62 ->
  (forall c', serves c' (<[p := <[okey o := fl]> (FF p)]> FF) -> Q (inr (take (Z.to_nat buf_size) d)) (set_cl c' w)) ->
  spec (con (nkfs_get_object e ctx cctx o 0 buf_size)) w Q.
Proof.
  intros [Ss So Sz Sc (b & Eb & Rd & Rm)] Hl HQ. set (data := take (Z.to_nat buf_size) d).
  assert (Hd : length data = Nat.min (Z.to_nat buf_size) (length d)) by (unfold data; by rewrite length_take).
  apply spec_con. eapply spec_mono.
  { eapply (spec_client_get e dctx ctx cctx dctx_ok ctx_ok cctx_ok X _ _ o p fl 0 Ss Wo So ltac:(by rewrite fn_lookup_insert, lookup_insert_eq) ltac:(lia) buf_size data b ltac:(lia) Eb);
      [unfold NKFS_NET_PKT_MAX_DSIZE, buf_size; lia|unfold buf_size; lia|lia|].
    replace (Z.to_nat (Z.min buf_size (fl_size fl - 0))) with (length data) by (rewrite Hd, Sz; unfold buf_size; lia).
    apply (read_at_part _ _ [] data (drop (Z.to_nat buf_size) d)). unfold data. by rewrite app_nil_l, take_drop. }
  intros r c' (-> & Ss' & _). by apply HQ.
Qed.

Lemma spec_get_unwritten fuel w fl d path err : (forall t, write_err k t = Some err) -> stored w fl d 0 -> 0 < Z.of_nat (length d) < 2 ^ 62 -> (0 < fuel)%nat ->
  spec (get_loop e ctx cctx k fuel o 0 path) w (fun r w' => r = 0 /\ w_fs w' = w_fs w /\ serves (w_cl w') (<[p := <[okey o := fl]> (FF p)]> FF)).
Proof.
  intros He Hs Hl Hf. destruct fuel as [|fuel]; [lia|]. cbn [get_loop]. apply spec_bind, (get_first w fl d); [done|lia|]. intros c' Ss.
  destruct d as [|x d]; [cbn in Hl; lia|]. assert (Et : exists y l, take (Z.to_nat buf_size) (x :: d) = y :: l) by (change (Z.to_nat buf_size) with (S 65535); cbn [take]; eauto).
  destruct Et as (y & l & ->). cbn [length write_loop]. apply spec_bind, spec_bind. unfold sys_write. apply spec_bind, spec_sys. cbn [fst]. rewrite He.
  by apply spec_ret, spec_ret, spec_ret.
Qed.

(** The object between two commands. *)
Definition holds_file (c : client (SbList.host T St)) (fl : file) (d : list byte) : Prop :=
  only_on e (<[p := <[okey o := fl]> (FF p)]> FF) o p (disks c) /\ fl_size fl = Z.of_nat (length d) /\ (fl_cap fl <= t_safe)%nat /\
  exists b, sbo (disks c) !! p = Some b /\ read_at (bsize (sb_in b)) (fl_data fl) 0 (length d) = Some d.

Lemma stored_holds w fl d need : stored w fl d need -> holds_file (w_cl w) fl d.
Proof. intros [_ So Sz Sc (b & Eb & Rd & _)]. split; [done|]. split; [done|]. split; [lia|]. by exists b. Qed.

Lemma holds_stored w fl d : serves (w_cl w) (<[p := <[okey o := fl]> (FF p)]> FF) -> holds_file (w_cl w) fl d -> stored w fl d 0.
Proof. intros Ss (So & Sz & Sc & b & Eb & Rd). split; [done|done|done|lia|]. exists b. by split_and!. Qed.

Lemma holds_disks c c' fl d : disks c' = disks c -> holds_file c fl d -> holds_file c' fl d.
Proof. unfold holds_file. by intros ->. Qed.

End Object.

(** ** Memory *)

(** No allocation fails. *)
Definition roomy (h : heap) : Prop := heap_wf h /\ forall t, hfail h t = false.

Lemma owns_roomy h ps h' : roomy h -> Mem.owns h ps h' -> roomy h'.
Proof. intros [_ Hf] (_ & _ & _ & W & E). split; [done|]. by rewrite E. Qed.

Lemma malloc_ok h : roomy h -> exists q h', crt_malloc h = (Some q, h') /\ Mem.owns h [q] h'.
Proof.
  intros [W Hf]. unfold crt_malloc. rewrite Hf. eexists _, _. split; [done|]. apply (owns_malloc h [] h); [by apply owns_refl|]. unfold crt_malloc. by rewrite Hf.
Qed.

Lemma malloc_more h ps h1 : roomy h -> Mem.owns h ps h1 -> exists q h2, crt_malloc h1 = (Some q, h2) /\ Mem.owns h (ps ++ [q]) h2.
Proof.
  intros Hr O. destruct (malloc_ok h1) as (q & h2 & E & _); [by eapply owns_roomy|]. exists q, h2. split; [done|]. by eapply owns_malloc.
Qed.

Lemma spec_mem {A} (f : heap -> A * heap) (w : world) a h (Q : A -> world -> Prop) : f (w_heap w) = (a, h) -> Q a (set_heap h w) -> spec (mem f) w Q.
Proof. intros E. unfold spec, mem. by rewrite E. Qed.

Lemma spec_free q (w : world) (Q : unit -> world -> Prop) : Q tt (set_heap (crt_free q (w_heap w)) w) -> spec (free q) w Q.
Proof. done. Qed.

(** The text of an id, and the id of a text. *)
Definition id_text (o : nkfs_obj_id) : list byte := hex_text (obj_id_bytes o).

Lemma str_text o h q h' : crt_malloc h = (Some q, h') -> nkfs_obj_id_str junk o h = (Some (q, id_text o ++ [Init.Byte.x00]), h').
Proof.
  intros E. unfold nkfs_obj_id_str. change 16 with (Z.of_nat 16). rewrite <- (obj_id_bytes_length o). apply bytes_hex_ok; [rewrite obj_id_bytes_length; lia..|done].
Qed.

Lemma by_str_text o h q h' : id_wf o -> crt_malloc h = (Some q, h') -> nkfs_obj_id_by_str (id_text o) h = (Some (q, o), h').
Proof.
  intros Wo E. unfold nkfs_obj_id_by_str, id_text. rewrite E, hex_text_length, obj_id_bytes_length. change (Z.of_nat (2 * 16)) with 32.
  pose proof (hex_bytes_ok (obj_id_bytes o) (obj_id_bytes (Id 0 0))) as Eh. rewrite !obj_id_bytes_length in Eh. change (Z.of_nat (2 * 16)) with 32 in Eh. change (Z.of_nat 16) with 16 in Eh.
  unfold nkfs_obj_id_zero. rewrite Eh by (done || lia). cbn [Z.eqb negb]. by rewrite obj_id_of_bytes_bytes.
Qed.

(** ** The commands *)

(** The host can take a new object of [n] bytes under the next id it draws. *)
Record can_take (w : world) (FF : nat -> gmap Z file) (n : nat) (o : nkfs_obj_id) : Prop := {
  ct_id : o = snd (nkfs_obj_id_gen (sv_rnd (cl_srv (w_cl w)) (sv_rtick (cl_srv (w_cl w))))) /\ id_wf o;
  ct_counted : counted (disks (w_cl w)) /\ sb_list (disks (w_cl w)) <> [];
  ct_new : forall q, q ∈ sb_list (disks (w_cl w)) -> FF q !! okey o = None /\ (size (FF q) < t_cap)%nat;
  ct_size : Z.of_nat n < 2 ^ 62 /\ (2 * npages n <= t_safe)%nat;
  ct_room : forall q b, q ∈ sb_list (disks (w_cl w)) -> sbo (disks (w_cl w)) !! q = Some b -> st_room (st (sb_in b)) (3 + 4 * npages n)
}.

(** A new object, with room for [d]. *)
Lemma spec_tool_create w FF n o : serves (w_cl w) FF -> can_take w FF n o ->
  spec (con (nkfs_create_object e ctx cctx)) w (fun r w' => r = inr o /\ same_rest w w' /\ exists p fl, p ∈ sb_list (disks (w_cl w)) /\ stored FF o p w' fl [] (npages n)).
Proof.
  intros Hs [[-> Wo] [Hc Hne] Hf [_ Hcap] Hr].
  destruct (client_create e dctx ctx cctx dctx_ok ctx_ok cctx_ok X (w_cl w) FF Hs Hc Hne Wo Hf) as (c1 & p & roots & E1 & Hp & Ls & Hs1 & b & b1 & Eb & Eb1 & Rm).
  { intros q b Hq Eb. eapply room_le; [|by apply (Hr q b)]. lia. }
  apply spec_con, spec_done. eexists _, c1. split; [exact E1|]. split; [done|]. split; [done|]. eexists p, _. split; [done|]. split; [exact Hs1| |done|done|].
  - unfold only_on. cbn [w_cl set_cl]. rewrite Ls, fn_lookup_insert, lookup_insert_eq. split; [done|]. split; [done|].
    intros q Hq Hqp. rewrite fn_lookup_insert_ne by done. by apply Hf.
  - exists b1. split; [done|]. split; [done|]. intros _. apply Rm. by apply (Hr p b).
Qed.

Section Commands.
Context (server : list byte) (port addr : Z) (Hip : inet_aton server = Some addr).

Lemma spec_do_put w FF src d o : idle w FF -> roomy (w_heap w) -> w_fs w src = Some d -> can_take w FF (length d) o ->
  spec (do_file_put e ctx cctx k inet_aton junk server port src) w (fun r w' => r = 0 /\ w_fs w' = w_fs w /\
    w_out w' = w_out w ++ [PutId (id_text o)] /\ Mem.owns (w_heap w) [] (w_heap w') /\ exists p fl, p ∈ sb_list (disks (w_cl w)) /\
    idle w' (<[p := <[okey o := fl]> (FF p)]> FF) /\ holds_file FF o p (w_cl w') fl d).
Proof.
  intros Hi Hh Hf Hc. unfold do_file_put. apply spec_bind. unfold open_rdonly. apply spec_bind, spec_sys. rewrite (cs_open _ Hk).
  apply spec_bind, spec_gets. cbn [w_fs set_tick]. rewrite Hf. apply spec_ret. destruct (malloc_ok _ Hh) as (q1 & h1 & E1 & O1).
  apply spec_bind. eapply spec_mem; [exact E1|]. apply spec_bind. set (w1 := set_heap h1 _). assert (Hi1 : idle w1 FF) by (by destruct Hi).
  eapply spec_mono; [by apply (spec_connect server port addr w1 FF Hip)|]. intros r w2 (-> & S2 & D2 & N2 & F2 & P2 & H2). cbn [Z.eqb negb].
  assert (Hc2 : can_take w2 FF (length d) o) by (destruct Hc; split; rewrite ?N2, ?D2; done).
  apply spec_bind. unfold put_new. apply spec_bind. eapply spec_mono; [by apply (spec_tool_create w2 FF (length d) o)|].
  intros r w3 (-> & (F3 & P3 & H3) & p & fl & Hp & S3). rewrite D2 in Hp. assert (O3 : Mem.owns (w_heap w) [q1] (w_heap w3)) by (by rewrite H3, H2).
  destruct (malloc_more _ _ _ Hh O3) as (q2 & h2 & E2 & O2). apply spec_bind. eapply spec_mem; [by apply str_text|]. set (w4 := set_heap h2 w3).
  destruct (ct_id _ _ _ _ Hc) as [_ Wo]. destruct (ct_size _ _ _ _ Hc) as [Hn _]. apply spec_bind.
  eapply spec_mono; [apply (spec_put_loop FF o p Wo (S (length d)) d w4 fl []); [lia|destruct S3; by split|cbn; lia]|].
  intros r w5 (-> & (fl' & S5) & F5 & P5 & H5). cbn [app] in S5. apply spec_bind, spec_modify, spec_ret.
  assert (Ec : c_str (default [] (snd <$> Some (q2, id_text o ++ [Init.Byte.x00]))) = id_text o) by apply c_str_hex. rewrite Ec. cbn [snd fst fmap option_fmap option_map]. apply spec_bind. eapply spec_mono; [apply (spec_tool_close (print _ w5)); exact (so_serves _ _ _ _ _ _ _ S5)|].
  intros [] w6 (I6 & D6 & F6 & P6 & H6). apply spec_bind, spec_free, spec_bind, spec_free, spec_ret. split; [done|]. cbn [w_fs w_out w_heap w_cl set_heap].
  split; [cbn in *; congruence|]. split; [cbn in *; rewrite P6, P5; cbn; by rewrite P3, P2|]. split.
  - rewrite H6. cbn [w_heap print]. rewrite H5. apply (owns_free _ [] q2 []), (owns_free _ [] q1 [q2]). exact O2.
  - exists p, fl'. split; [done|]. split; [by destruct I6|]. eapply holds_disks; [exact D6|]. exact (stored_holds FF o p w5 fl' d 0 S5).
Qed.

Lemma spec_do_get fuel w FF o p fl dst d : (forall t, write_err k t = None) -> idle w (<[p := <[okey o := fl]> (FF p)]> FF) -> roomy (w_heap w) -> id_wf o -> holds_file FF o p (w_cl w) fl d ->
  w_fs w dst = None -> Z.of_nat (length d) < 2 ^ 62 -> (length d < fuel)%nat ->
  spec (do_file_get e ctx cctx k inet_aton fuel server port o dst) w (fun r w' => r = 0 /\ w_fs w' dst = Some d /\
    (forall q, q <> dst -> w_fs w' q = w_fs w q) /\ w_out w' = w_out w /\ Mem.owns (w_heap w) [] (w_heap w') /\ idle w' (<[p := <[okey o := fl]> (FF p)]> FF) /\
    holds_file FF o p (w_cl w') fl d).
Proof.
  intros Hw Hi Hh Wo Hd Hf Hl Hfu. unfold do_file_get. apply spec_bind. unfold open_creat. apply spec_bind, spec_sys. rewrite (cs_open _ Hk).
  apply spec_bind, spec_gets. cbn [w_fs set_tick]. rewrite Hf. apply spec_bind, spec_modify, spec_ret. cbn [Z.eqb negb]. destruct (malloc_ok _ Hh) as (q1 & h1 & E1 & O1).
  apply spec_bind. eapply spec_mem; [exact E1|]. apply spec_bind. set (w1 := set_heap h1 _). assert (Hi1 : idle w1 (<[p := <[okey o := fl]> (FF p)]> FF)) by (by destruct Hi).
  assert (F1 : w_fs w1 dst = Some [] /\ forall q, q <> dst -> w_fs w1 q = w_fs w q).
  { cbn. split; [by rewrite bool_decide_true|]. intros q Hq. by rewrite bool_decide_false. }
  eapply spec_mono; [exact (spec_connect server port addr w1 _ Hip Hi1)|]. intros r w2 (-> & S2 & D2 & N2 & F2 & P2 & H2). cbn [Z.eqb negb].
  assert (Hd2 : holds_file FF o p (w_cl w2) fl d) by (by eapply holds_disks; [exact D2|]).
  apply spec_bind. eapply spec_mono; [apply (spec_get_loop FF o p Wo Hw fuel d w2 fl [] dst); [done|by apply holds_stored|by rewrite F2; apply F1|cbn; lia]|].
  cbn [app]. intros r w3 (-> & S3 & F3 & O3 & P3 & H3). apply spec_bind. eapply spec_mono; [apply (spec_tool_close w3); exact (so_serves _ _ _ _ _ _ _ S3)|].
  intros [] w4 (I4 & D4 & F4 & P4 & H4). apply spec_bind, spec_free, spec_ret. cbn [w_fs w_out w_heap w_cl set_heap]. split; [done|]. split; [by rewrite F4|].
  split; [intros q Hq; rewrite F4, O3, F2 by done; by apply F1|]. split; [rewrite P4, P3, P2; done|]. split.
  - rewrite H4, H3, H2. exact (owns_free _ [] q1 [] _ O1).
  - split; [by destruct I4|]. eapply holds_disks; [exact D4|]. exact (stored_holds FF o p w3 fl d 0 S3).
Qed.

(** ** Theorems *)

Lemma spec_with_id o w (m : nkfs_obj_id -> StMonad.M world Z) (Q : Z -> world -> Prop) : roomy (w_heap w) -> id_wf o ->
  (forall h q, Mem.owns (w_heap w) [q] h -> spec (m o) (set_heap h w) (fun r w' => Q r (set_heap (crt_free q (w_heap w')) w'))) -> spec (with_id (id_text o) m) w Q.
Proof.
  intros Hh Wo Hm. unfold with_id. destruct (malloc_ok _ Hh) as (q & h & E & O). apply spec_bind. eapply spec_mem; [by apply by_str_text|].
  apply spec_bind. eapply spec_mono; [by apply (Hm h q)|]. intros r w' HQ. by apply spec_bind, spec_free, spec_ret.
Qed.

Lemma owns_trans h ps h1 qs h2 : Mem.owns h ps h1 -> Mem.owns h1 qs h2 -> Mem.owns h (ps ++ qs) h2.
Proof.
  intros (L1 & N1 & F1 & W1 & E1) (L2 & N2 & F2 & W2 & E2). split; [rewrite L2, L1, list_to_set_app_L; set_solver|]. split; [|split; [|split; [done|congruence]]].
  - apply NoDup_app. split_and!; [done| |done]. intros q Hp Hq. apply (F2 q Hq). rewrite L1. set_solver.
  - intros q [Hq|Hq]%elem_of_app; [by apply F1|]. specialize (F2 q Hq). rewrite L1 in F2. set_solver.
Qed.

(** (C1) A file comes back as it was stored: [nkfs_client put] prints the id of a new
    object, and [nkfs_client get] with that id writes a file with the same bytes,
    through both ends of the network and the disks of the host.  Both return 0, keep
    every other file and every other object, and give back all their memory.
    Conditions: no call on the files, the link, the host, its disks or the
    memory of either side fails, and [read] of the local file fills the buffer but
    at the end of the file ([calm_sys], [idle], [roomy]); [dst] does not exist; the
    host has a superblock, and each has room for a key in the root of its tree of
    inodes and enough free blocks; the id the host draws is new; the file takes at
    most half of [t_safe] pages of 4 KB ([can_take]), which is 2 MiB for
    [nkfs_store]. *)
Theorem nkfs_client_file_round_trip fuel w FF src dst d o : (forall t, write_err k t = None) -> idle w FF -> roomy (w_heap w) ->
  w_fs w src = Some d -> w_fs w dst = None -> can_take w FF (length d) o -> (length d < fuel)%nat ->
  exists w1 w2 hex p fl, do_cmd e ctx cctx k inet_aton junk fuel PUT server port (Some src) None w = Done 0 w1 /\ w_out w1 = w_out w ++ [PutId hex] /\
  do_cmd e ctx cctx k inet_aton junk fuel GET server port (Some dst) (Some hex) w1 = Done 0 w2 /\ w_fs w2 dst = Some d /\
  (forall q, q <> dst -> w_fs w2 q = w_fs w q) /\ hlive (w_heap w2) = hlive (w_heap w) /\
  p ∈ sb_list (disks (w_cl w)) /\ idle w2 (<[p := <[okey o := fl]> (FF p)]> FF) /\ fl_size fl = Z.of_nat (length d).
Proof.
  intros Hw Hi Hh Hs Hd Hc Hf. destruct (ct_id _ _ _ _ Hc) as [_ Wo]. destruct (ct_size _ _ _ _ Hc) as [Hn _].
  destruct (proj1 (spec_done _ _ _) (spec_do_put w FF src d o Hi Hh Hs Hc)) as (r & w1 & E1 & -> & F1 & P1 & O1 & p & fl & Hp & I1 & H1).
  assert (W2 : spec (with_id (id_text o) (fun o => do_file_get e ctx cctx k inet_aton fuel server port o dst)) w1 (fun r w' => r = 0 /\ w_fs w' dst = Some d /\
    (forall q, q <> dst -> w_fs w' q = w_fs w1 q) /\ Mem.owns (w_heap w) [] (w_heap w') /\ idle w' (<[p := <[okey o := fl]> (FF p)]> FF))).
  { pose proof (owns_roomy _ _ _ Hh O1) as Hh1. apply spec_with_id; [done|done|]. intros h q O.
    eapply spec_mono; [apply (spec_do_get fuel (set_heap h w1) FF o p fl dst d Hw); [by destruct I1|by eapply owns_roomy|done|exact H1|cbn; by rewrite F1|done|done]|].
    intros r w' (-> & A & B & C & O' & I' & _). split_and!; [done|done|done| |by destruct I'].
    apply (owns_free _ [] q []), (owns_trans _ [] (w_heap w1)); [done|]. exact (owns_trans _ [q] h [] _ O O'). }
  apply spec_done in W2 as (r & w2 & E2 & -> & F2 & G2 & O2 & I2). exists w1, w2, (id_text o), p, fl. destruct H1 as (_ & Hz & _).
  assert (K : cmd_equal PUT PUT = true /\ cmd_equal GET PUT = false /\ cmd_equal GET GET = true) by (by vm_compute). destruct K as (K1 & K2 & K3).
  unfold do_cmd. rewrite K1, K2, K3. split; [done|]. split; [done|]. split; [done|]. split; [done|]. split; [intros q Hq; by rewrite G2, F1|].
  split; [|done]. destruct O2 as (-> & _). set_solver.
Qed.

(** (C39) A write that fails is not an error of [get]: when the file cannot be
    written it returns 0, and the file is empty.  Nothing else fails; the object is
    not empty, on one superblock, and has at most [t_safe] blocks, 1024 for
    [nkfs_store], so that it can be read at all. *)
Theorem do_file_get_ignores_write_error fuel w FF o p fl dst d err : (forall t, write_err k t = Some err) ->
  idle w (<[p := <[okey o := fl]> (FF p)]> FF) -> roomy (w_heap w) -> id_wf o -> holds_file FF o p (w_cl w) fl d -> w_fs w dst = None ->
  0 < Z.of_nat (length d) < 2 ^ 62 -> (0 < fuel)%nat ->
  exists w', do_file_get e ctx cctx k inet_aton fuel server port o dst w = Done 0 w' /\ w_fs w' dst = Some [].
Proof.
  intros Hw Hi Hh Wo Hd Hf Hl Hfu.
  assert (W : spec (do_file_get e ctx cctx k inet_aton fuel server port o dst) w (fun r w' => r = 0 /\ w_fs w' dst = Some [])).
  { unfold do_file_get. apply spec_bind. unfold open_creat. apply spec_bind, spec_sys. rewrite (cs_open _ Hk).
    apply spec_bind, spec_gets. cbn [w_fs set_tick]. rewrite Hf. apply spec_bind, spec_modify, spec_ret. cbn [Z.eqb negb]. destruct (malloc_ok _ Hh) as (q1 & h1 & E1 & O1).
    apply spec_bind. eapply spec_mem; [exact E1|]. apply spec_bind. set (w1 := set_heap h1 _). assert (Hi1 : idle w1 (<[p := <[okey o := fl]> (FF p)]> FF)) by (by destruct Hi).
    eapply spec_mono; [exact (spec_connect server port addr w1 _ Hip Hi1)|]. intros r w2 (-> & S2 & D2 & N2 & F2 & P2 & H2). cbn [Z.eqb negb].
    assert (Hd2 : holds_file FF o p (w_cl w2) fl d) by (by eapply holds_disks; [exact D2|]).
    apply spec_bind. eapply spec_mono; [apply (spec_get_unwritten FF o p Wo fuel w2 fl d dst err Hw); [by apply holds_stored|done|done]|].
    intros r w3 (-> & F3 & S3). apply spec_bind. eapply spec_mono; [exact (spec_tool_close w3 _ S3)|].
    intros [] w4 (I4 & D4 & F4 & P4 & H4). apply spec_bind, spec_free, spec_ret. split; [done|]. cbn. rewrite F4, F3, F2. cbn. by rewrite bool_decide_true. }
  apply spec_done in W as (r & w' & E & -> & F). by exists w'.
Qed.

End Commands.

End Tool.

End ClientToolSpec.
