(* ===== verification/Dev.v ===== *)
(** * Devices (src/core/dev.c)

    A device is a block device that was opened, the cluster cache on it and, once
    started, a superblock.  The host keeps the list of its devices by name.

    The state adds to that of SbList the devices in memory by pointer and their
    list; [dev_list_lock] is taken and released inside each call, and calls run
    one after the other.  What lies on a block device, and whether it can be
    opened, is an argument ([blkdev_get_by_path] belongs to the kernel): each
    opening of a path is given what it finds there, so that a device that is added
    again sees what the caller of the model puts there, not by itself what was
    written before.  The cache is part of the device until a superblock takes it
    over. *)

From Stdlib Require Import ZArith Lia.
From coqutil Require Import Byte.
From stdpp Require Import base list gmap.
From S2P Require Import Prelude XXHash Bytes StMonad Csum DioPages Dio DioClient Mem CharHex ObjId Super BtreeNode BtreeDisk BlockTree.
From S2P Require Import Inode SbList SbFormat.
Import XXHash Bytes StMonad Csum ObjId SbList SbFormat.
Local Open Scope Z_scope.
Local Open Scope stm_scope.

Module Dev.

Definition NKFS_BLOCK_SIZE : Z := 64 * 1024.

Section Dev.
Context {T St : Type} `{ImageStore T St}.
Context (e : XXH_endianess) (ctx : csum_ctx).

(** A block device: its size and number, and what the caches on it will see. *)
Record block_device := Bdev {
  bd_size : Z;
  bd_major : Z;
  bd_minor : Z;
  bd_data : Z -> list (list byte);
  bd_store : St;
  bd_io : nat -> Z * bool;
  bd_mem : nat -> bool;
  bd_junk : nat -> list byte
}.

Record nkfs_dev := MkDev {
  d_ref : Z;
  d_bdev : option block_device;
  d_stopping : bool;
  d_bsize : Z;
  d_sb : option nat;
  (* the cache and the blocks, while there is no superblock *)
  d_img : option (Inode.sb_state T St);
  d_name : list byte
}.

Record world := World {
  w_host : host T St;
  w_devs : gmap nat nkfs_dev;
  w_list : list nat;
  w_mfail : nat -> bool;
  w_tick : nat
}.

Abbreviation M := (StMonad.M world).

Definition with_host (h : host T St) (w : world) : world := World h (w_devs w) (w_list w) (w_mfail w) (w_tick w).
Definition with_devs (d : gmap nat nkfs_dev) (w : world) : world := World (w_host w) d (w_list w) (w_mfail w) (w_tick w).
Definition with_dlist (l : list nat) (w : world) : world := World (w_host w) (w_devs w) l (w_mfail w) (w_tick w).
Definition with_wtick (n : nat) (w : world) : world := World (w_host w) (w_devs w) (w_list w) (w_mfail w) n.

Definition set_ref (r : Z) (d : nkfs_dev) : nkfs_dev := MkDev r (d_bdev d) (d_stopping d) (d_bsize d) (d_sb d) (d_img d) (d_name d).
Definition set_bdev (b : option block_device) (d : nkfs_dev) : nkfs_dev := MkDev (d_ref d) b (d_stopping d) (d_bsize d) (d_sb d) (d_img d) (d_name d).
Definition set_bsize (n : Z) (d : nkfs_dev) : nkfs_dev := MkDev (d_ref d) (d_bdev d) (d_stopping d) n (d_sb d) (d_img d) (d_name d).
Definition set_stop (v : bool) (d : nkfs_dev) : nkfs_dev := MkDev (d_ref d) (d_bdev d) v (d_bsize d) (d_sb d) (d_img d) (d_name d).
Definition set_sb (p : option nat) (d : nkfs_dev) : nkfs_dev := MkDev (d_ref d) (d_bdev d) (d_stopping d) (d_bsize d) p (d_img d) (d_name d).
Definition set_img (s : option (Inode.sb_state T St)) (d : nkfs_dev) : nkfs_dev :=
  MkDev (d_ref d) (d_bdev d) (d_stopping d) (d_bsize d) (d_sb d) s (d_name d).

Definition on_host {A} (m : StMonad.M (host T St) A) : M A := fun w =>
  match m (w_host w) with
  | Done a h => Done a (with_host h w)
  | Crash => Crash
  | Hang => Hang
  | NoFuel => NoFuel
  end.

Definition get_dev (p : nat) : M nkfs_dev := fun w =>
  match w_devs w !! p with
  | Some d => Done d w
  | None => Crash
  end.

Definition upd_dev (p : nat) (f : nkfs_dev -> nkfs_dev) : M unit :=
  let* d := get_dev p in modify (fun w => with_devs (<[p := f d]> (w_devs w)) w).

Definition mfails : M bool := fun w => Done (w_mfail w (w_tick w)) (with_wtick (S (w_tick w)) w).

(** ** References *)

Definition nkfs_dev_free (p : nat) : M unit :=
  let* d := get_dev p in
  do* (match d_sb d with Some q => on_host (nkfs_sb_deref q) | None => ret tt end) in
  modify (fun w => with_devs (delete p (w_devs w)) w).

Definition nkfs_dev_ref (p : nat) : M unit := upd_dev p (fun d => set_ref (d_ref d + 1) d).

Definition nkfs_dev_deref (p : nat) : M unit :=
  let* d := get_dev p in
  do* BUG_ON (d_ref d <=? 0) in
  do* upd_dev p (set_ref (d_ref d - 1)) in
  if d_ref d - 1 =? 0 then nkfs_dev_free p else ret tt.

(** ** The list *)

(** [strncmp] up to and with the terminator: the names are equal. *)
Fixpoint by_name (name : list byte) (l : list nat) : M (option nat) :=
  match l with
  | [] => ret None
  | p :: l =>
      let* d := get_dev p in
      if bool_decide (d_name d = name) then ret (Some p) else by_name name l
  end.

Definition nkfs_dev_insert (cand : nat) : M Z :=
  let* c := get_dev cand in
  let* l := gets w_list in
  let* f := by_name (d_name c) l in
  match f with
  | Some _ => ret (- EEXIST)
  | None => do* modify (fun w => with_dlist (w_list w ++ [cand]) w) in ret 0
  end.

Definition nkfs_dev_unlink (p : nat) : M unit := modify (fun w => with_dlist (filter (fun q => q <> p) (w_list w)) w).

Definition nkfs_dev_lookup (name : list byte) : M (option nat) :=
  let* l := gets w_list in
  let* f := by_name name l in
  match f with
  | Some p => do* nkfs_dev_ref p in ret (Some p)
  | None => ret None
  end.

Definition nkfs_dev_lookup_unlink (name : list byte) : M (option nat) :=
  let* l := gets w_list in
  let* f := by_name name l in
  match f with
  | Some p => do* nkfs_dev_unlink p in ret (Some p)
  | None => ret None
  end.

(** ** What is asked of a device *)

Record nkfs_dev_info := DevInfo {
  inf_sb_id : nkfs_obj_id;
  inf_dev_name : list byte;
  inf_size : Z;
  inf_used_size : Z;
  inf_free_size : Z;
  inf_blocks : Z;
  inf_used_blocks : Z;
  inf_inodes_tree_block : Z;
  inf_bm_block : Z;
  inf_bm_blocks : Z;
  inf_bsize : Z;
  inf_major : Z;
  inf_minor : Z
}.

Definition nkfs_dev_query (name : list byte) : M (Z + nkfs_dev_info) :=
  let* f := nkfs_dev_lookup name in
  match f with
  | None => ret (inl (- ENOENT))
  | Some p =>
      let* d := get_dev p in
      let nm := take (NKFS_NAME_MAX_SZ - 1) (d_name d) in
      let mj := match d_bdev d with Some b => bd_major b | None => 0 end in
      let mn := match d_bdev d with Some b => bd_minor b | None => 0 end in
      let* info := match d_sb d with
                   | None => ret (DevInfo (Id 0 0) nm 0 0 0 0 0 0 0 0 0 mj mn)
                   | Some q =>
                       let* b := on_host (get_sb q) in
                       let h := sb_hdr b in
                       let used := st_count (Inode.st (sb_in b)) in
                       let used_size := u64 (Super.bsize h * used) in
                       ret (DevInfo (Super.id h) nm (Super.size h) used_size (u64 (Super.size h - used_size)) (Super.nr_blocks h)
                              (u64 used) (Super.inodes_tree_block h) (Super.bm_block h) (Super.bm_blocks h) (Super.bsize h) mj mn)
                   end in
      do* nkfs_dev_deref p in
      ret (inr info)
  end.

(** ** Coming and going *)

(** The cache of a device: with the device, or with its superblock. *)
Definition dio_put (d : Dio.dio_dev) : StMonad.run Dio.dio_dev unit := Dio.dio_dev_deref (S (size (Dio.clus_root d))) d.

Definition nkfs_dev_release (p : nat) : M unit :=
  let* d := get_dev p in
  do* (match d_sb d, d_img d with
       | Some q, _ => on_host (on_sb q (inode (Inode.dio dio_put)))
       | None, Some s =>
           match dio_put (Inode.ddev s) with
           | Done _ dd => upd_dev p (set_img (Some (Inode.with_ddev dd s)))
           | _ => crash
           end
       | None, None => ret tt
       end) in
  ret tt.

(** [blkdev_get_by_path]: the device behind a path, if it can be had. *)
Context (blkdev_get_by_path : list byte -> option block_device).

Definition new_dev (name : list byte) : M nat := fun w =>
  let p := fresh (dom (w_devs w)) in
  Done p (with_devs (<[p := MkDev 1 None false 0 None None (take (NKFS_NAME_MAX_SZ - 1) name)]> (w_devs w)) w).

Definition nkfs_dev_create (name : list byte) : M (option nat) :=
  if (length name =? 0)%nat || (NKFS_NAME_MAX_SZ <=? length name)%nat then ret None
  else
    let* f := mfails in
    if (f : bool) then ret None
    else
      let* p := new_dev name in
      match blkdev_get_by_path name with
      | None => do* nkfs_dev_deref p in ret None
      | Some b =>
          do* upd_dev p (fun d => set_bsize NKFS_BLOCK_SIZE (set_bdev (Some b) d)) in
          match Dio.dio_dev_create NKFS_BLOCK_SIZE 64 (bd_data b) (bd_io b) (bd_mem b) (bd_junk b) with
          | None => do* upd_dev p (set_bdev None) in do* nkfs_dev_deref p in ret None
          | Some dd =>
              let* mf := gets w_mfail in
              let* tick := gets w_tick in
              do* upd_dev p (set_img (Some (Inode.SbState dd (bd_store b) NKFS_BLOCK_SIZE ∅ 0 ∅ 0 (fun n => mf (tick + n)%nat) 0))) in
              ret (Some p)
          end
      end.

(** A new superblock in memory. *)
Definition new_sb (b : SbList.nkfs_sb T St) : StMonad.M (host T St) nat := fun h =>
  let p := fresh (dom (sbo h)) in Done p (with_sbo (<[p := b]> (sbo h)) h).

Definition nkfs_dev_start (p : nat) (format : bool) (rnd : Z * list byte) : M Z :=
  let* d := get_dev p in
  do* BUG_ON (bool_decide (is_Some (d_sb d))) in
  match d_img d, d_bdev d with
  | Some s, Some b =>
      let m := if format then nkfs_sb_format e ctx (bd_size b) rnd else nkfs_sb_load e ctx (bd_size b) in
      match m s with
      | Done (inl err) s' => do* upd_dev p (set_img (Some s')) in ret err
      | Done (inr (h, t)) s' =>
          let* q := on_host (new_sb (MkSb h s' (Some t) 1 false (d_name d))) in
          let* err := on_host (nkfs_sb_insert q) in
          if negb (err =? 0) then
            do* on_host (nkfs_sb_deref q) in
            do* upd_dev p (set_img (Some s')) in
            ret err
          else
            do* upd_dev p (fun d => set_img None (set_sb (Some q) d)) in
            ret 0
      | Crash => crash
      | Hang => hang
      | NoFuel => no_fuel
      end
  | _, _ => crash
  end.

Definition nkfs_dev_stop (p : nat) : M unit :=
  do* upd_dev p (set_stop true) in
  let* d := get_dev p in
  match d_sb d with
  | Some q => on_host (nkfs_sb_stop e ctx q)
  | None => crash
  end.

Definition nkfs_dev_add (name : list byte) (format : bool) (rnd : Z * list byte) : M Z :=
  let* c := nkfs_dev_create name in
  match c with
  | None => ret (- ENOMEM)
  | Some p =>
      let* err := nkfs_dev_insert p in
      if negb (err =? 0) then
        do* nkfs_dev_release p in
        do* nkfs_dev_deref p in
        ret err
      else
        let* err := nkfs_dev_start p format rnd in
        if negb (err =? 0) then
          do* nkfs_dev_unlink p in
          do* nkfs_dev_release p in
          do* nkfs_dev_deref p in
          ret err
        else ret err
  end.

Definition nkfs_dev_remove (name : list byte) : M Z :=
  let* f := nkfs_dev_lookup_unlink name in
  match f with
  | Some p =>
      do* nkfs_dev_stop p in
      do* nkfs_dev_release p in
      do* nkfs_dev_deref p in
      ret 0
  | None => ret (- ENOENT)
  end.

Fixpoint release_all (l : list nat) : M unit :=
  match l with
  | [] => ret tt
  | p :: l =>
      do* nkfs_dev_stop p in
      do* nkfs_dev_release p in
      do* nkfs_dev_unlink p in
      do* nkfs_dev_deref p in
      release_all l
  end.

Definition nkfs_dev_release_all : M unit := let* l := gets w_list in release_all l.

End Dev.

Arguments world T St : clear implicits.
Arguments nkfs_dev T St : clear implicits.
Arguments block_device St : clear implicits.

End Dev.
