(* ===== verification/Ctl.v ===== *)
(** * The kernel module and its control program (src/core/module.c, src/ctl/ctl.c, src/ctl/main.c)

    The module brings the parts of a host up and down and offers them as a
    character device.  The program [nkfs_ctl] opens the device, passes a [struct
    nkfs_ctl] by [ioctl] and prints what comes back.

    [machine] is the state of the module: devices, servers, the host of the
    routing, null before it is made, and which of the other parts are up.  What
    the kernel does is [kenv]: which allocations, copies and openings fail, the
    random bytes, and how servers start, by the number of the call.  A [struct
    nkfs_ctl] is its 1544 bytes.  Calls run one after the other. *)

From Stdlib Require Import ZArith Lia.
From coqutil Require Import Byte.
From stdpp Require Import base list gmap.
From S2P Require Import Prelude XXHash Bytes StMonad Csum DioPages Dio DioClient Mem CharHex ObjId NetPkt Upages Sock Super BtreeNode BtreeDisk BlockTree.
From S2P Require Import Inode SbList SbFormat Route Servers Net Client ClientTool Dev.
Import XXHash Bytes StMonad Csum Mem CharHex ObjId Libc.
Local Open Scope Z_scope.
Local Open Scope stm_scope.

Module Ctl.

Definition NKFS_E_UNK_IOCTL : Z := s32 (NKFS_E_BASE + 2).
Definition NKFS_ROUTE_MAX_NEIGHS : Z := 32.

(** [_IOWR(NKFS_IOC_MAGIC, nr, struct nkfs_ctl * )]: direction, size of the type,
    magic and number. *)
Definition IOWR (nr : Z) : Z := Z.lor (Z.shiftl 3 30) (Z.lor (Z.shiftl 8 16) (Z.lor (Z.shiftl 0xE1 8) nr)).
Definition IOCTL_NKFS_DEV_ADD : Z := IOWR 1.
Definition IOCTL_NKFS_DEV_REMOVE : Z := IOWR 2.
Definition IOCTL_NKFS_DEV_QUERY : Z := IOWR 3.
Definition IOCTL_NKFS_SRV_START : Z := IOWR 4.
Definition IOCTL_NKFS_SRV_STOP : Z := IOWR 5.
Definition IOCTL_NKFS_NEIGH_ADD : Z := IOWR 6.
Definition IOCTL_NKFS_NEIGH_REMOVE : Z := IOWR 7.
Definition IOCTL_NKFS_NEIGH_INFO : Z := IOWR 8.

(** ** The structures as bytes *)

Section Layout.
Context (e : XXH_endianess).

Definition int_bytes (x : Z) : list byte := store e 4 (u32 x).

(** [char dev_name[NKFS_NAME_MAX_SZ]] after [snprintf]. *)
Definition name_bytes (name : list byte) : list byte :=
  let n := take (SbList.NKFS_NAME_MAX_SZ - 1) name in n ++ replicate (SbList.NKFS_NAME_MAX_SZ - length n) Init.Byte.x00.

Definition dev_info_bytes (i : Dev.nkfs_dev_info) : list byte :=
  concat [Route.id_bytes e (Dev.inf_sb_id i); name_bytes (Dev.inf_dev_name i); store e 8 (Dev.inf_size i); store e 8 (Dev.inf_used_size i);
    store e 8 (Dev.inf_free_size i); store e 8 (Dev.inf_blocks i); store e 8 (Dev.inf_used_blocks i); store e 8 (Dev.inf_inodes_tree_block i);
    store e 8 (Dev.inf_bm_block i); store e 8 (Dev.inf_bm_blocks i); store e 4 (Dev.inf_bsize i); store e 4 (Dev.inf_major i); store e 4 (Dev.inf_minor i)].

(** [u64] and [u32] at an offset. *)
Definition long_at (off : nat) (b : list byte) : Z := load e (field off 8 b).

Definition dev_info_of (b : list byte) : Dev.nkfs_dev_info :=
  Dev.DevInfo (Route.id_at e 0 b) (c_str (field 16 256 b)) (long_at 272 b) (long_at 280 b) (long_at 288 b) (long_at 296 b) (long_at 304 b)
    (long_at 312 b) (long_at 320 b) (long_at 328 b) (Route.u32_at e 336 b) (Route.u32_at e 340 b) (Route.u32_at e 344 b).

Definition neigh_info_bytes (i : Route.nkfs_neigh_info) : list byte :=
  concat [store e 4 (Route.i_ip i); int_bytes (Route.i_port i); store e 8 (Route.i_state i); Route.id_bytes e (Route.i_host_id i);
    store e 8 (Route.i_hbt_time i); store e 8 (Route.i_hbt_delay i)].

Definition neigh_info_of (b : list byte) : Route.nkfs_neigh_info :=
  Route.NeighInfo (Route.u32_at e 0 b) (Route.int_at e 4 b) (long_at 8 b) (Route.id_at e 16 b) (long_at 32 b) (long_at 40 b).

Definition CTL_SIZE : nat := 1544.

(** A zeroed structure with these fields at the start of its union. *)
Definition ctl_cmd (fs : list (list byte)) : list byte := memcpy_at (replicate CTL_SIZE Init.Byte.x00) 4 (concat fs).

End Layout.

(** What the program prints of a device or a neighbour. *)
Inductive output := OutDev (i : Dev.nkfs_dev_info) (hex_sb_id : list byte) | OutNeigh (i : Route.nkfs_neigh_info) (hex_host_id : list byte).

Record kenv := Kenv {
  kmalloc_err : nat -> bool;
  from_err : nat -> bool;
  to_err : nat -> bool;
  open_err : nat -> option Z;
  mod_err : nat -> bool;
  rnd : nat -> Z * list byte;
  srv_nomem : nat -> bool;
  srv_nothread : nat -> bool;
  srv_listen : nat -> nat -> Z;
  wq_err : nat -> bool;
  timer_err : nat -> Z;
  misc_err : nat -> Z;
  host_err : nat -> bool * bool;
  host_mem : nat -> bool
}.

Section Ctl.
Context {T St : Type} `{ImageStore T St}.
Context (e : XXH_endianess) (ctx : csum_ctx) (blkdev_get_by_path : list byte -> option (Dev.block_device St)).
Context (k : kenv).

Record machine := Machine {
  m_dev : Dev.world T St;
  m_servers : list Servers.nkfs_server;
  m_route : option Route.nkfs_host;
  m_dio : bool;
  m_misc : bool;
  m_ref : Z;
  m_tick : nat
}.

Abbreviation M := (StMonad.M machine).

Definition set_dev (d : Dev.world T St) (m : machine) : machine := Machine d (m_servers m) (m_route m) (m_dio m) (m_misc m) (m_ref m) (m_tick m).
Definition set_servers (l : list Servers.nkfs_server) (m : machine) : machine := Machine (m_dev m) l (m_route m) (m_dio m) (m_misc m) (m_ref m) (m_tick m).
Definition set_route (h : option Route.nkfs_host) (m : machine) : machine := Machine (m_dev m) (m_servers m) h (m_dio m) (m_misc m) (m_ref m) (m_tick m).
Definition set_dio (b : bool) (m : machine) : machine := Machine (m_dev m) (m_servers m) (m_route m) b (m_misc m) (m_ref m) (m_tick m).
Definition set_misc (b : bool) (m : machine) : machine := Machine (m_dev m) (m_servers m) (m_route m) (m_dio m) b (m_ref m) (m_tick m).
Definition set_mref (r : Z) (m : machine) : machine := Machine (m_dev m) (m_servers m) (m_route m) (m_dio m) (m_misc m) r (m_tick m).
Definition set_mtick (n : nat) (m : machine) : machine := Machine (m_dev m) (m_servers m) (m_route m) (m_dio m) (m_misc m) (m_ref m) n.

Definition kcall {A} (f : nat -> A) : M A := fun m => Done (f (m_tick m)) (set_mtick (S (m_tick m)) m).

Definition on_dev {A} (x : StMonad.M (Dev.world T St) A) : M A := fun m =>
  match x (m_dev m) with
  | Done a d => Done a (set_dev d m)
  | Crash => Crash
  | Hang => Hang
  | NoFuel => NoFuel
  end.

(** [nkfs_host] is used without looking whether there is one. *)
Definition on_route {A} (x : Route.M A) : M A := fun m =>
  match m_route m with
  | None => Crash
  | Some h =>
      match x h with
      | Done a h => Done a (set_route (Some h) m)
      | Crash => Crash
      | Hang => Hang
      | NoFuel => NoFuel
      end
  end.

Definition on_servers (f : list Servers.nkfs_server -> Z * list Servers.nkfs_server) : M Z := fun m =>
  let '(r, l) := f (m_servers m) in Done r (set_servers l m).

(** ** The ioctl *)

(** The name that starts at the union: it ends at the first zero, and without one
    the memory after the structure is read. *)
Definition dev_name (cmd : list byte) : M (list byte) :=
  let name := c_str (drop 4 cmd) in
  if (length (drop 4 cmd) <=? length name)%nat then crash else ret name.

(** What [nkfs_route_neigh_info] leaves in the array, filled as far as it goes
    also when there are more. *)
Definition neigh_array (un : list byte) : M (list byte) :=
  let* infos := on_route (let* l := gets Route.neigh_list in Route.neigh_infos NKFS_ROUTE_MAX_NEIGHS (take (Z.to_nat NKFS_ROUTE_MAX_NEIGHS) l) []) in
  ret (match infos with inr l => memcpy_at un 8 (concat (map (neigh_info_bytes e) l)) | inl _ => un end).

(** [nkfs_route_neigh_add] and [nkfs_route_neigh_remove]: what they do before they
    use the host they also do without one. *)
Definition neigh_add (ip port : Z) : M Z :=
  let* h := gets m_route in
  match h with
  | Some _ => on_route (Route.nkfs_route_neigh_add ip port)
  | None =>
      if (ip =? 0) || (port =? 0) then ret (- EINVAL)
      else let* nomem := kcall (kmalloc_err k) in if (nomem : bool) then ret (- ENOMEM) else crash
  end.

Definition neigh_remove (ip port : Z) : M Z :=
  let* h := gets m_route in
  match h with
  | Some _ => on_route (Route.nkfs_route_neigh_remove ip port)
  | None => if (ip =? 0) || (port =? 0) then ret (- EINVAL) else crash
  end.

(** The [switch]: the error, and the structure. *)
Definition switch (code : Z) (cmd : list byte) : M (Z * list byte) :=
  if code =? IOCTL_NKFS_DEV_ADD then
    let* name := dev_name cmd in
    let* r := kcall (rnd k) in
    let* err := on_dev (Dev.nkfs_dev_add e ctx blkdev_get_by_path name (negb (Route.int_at e 260 cmd =? 0)) r) in
    ret (err, cmd)
  else if code =? IOCTL_NKFS_DEV_REMOVE then
    let* name := dev_name cmd in
    let* err := on_dev (Dev.nkfs_dev_remove e ctx name) in
    ret (err, cmd)
  else if code =? IOCTL_NKFS_DEV_QUERY then
    let* name := dev_name cmd in
    let* r := on_dev (Dev.nkfs_dev_query name) in
    ret (match r with inl err => (err, cmd) | inr i => (0, memcpy_at cmd 260 (dev_info_bytes e i)) end)
  else if code =? IOCTL_NKFS_SRV_START then
    let* s := kcall (fun t => (srv_nomem k t, srv_nothread k t, srv_listen k t)) in
    let* err := on_servers (Servers.nkfs_server_start (fst (fst s)) (snd (fst s)) (snd s) (Route.u32_at e 4 cmd) (Route.u32_at e 8 cmd) (Route.int_at e 12 cmd)) in
    ret (err, cmd)
  else if code =? IOCTL_NKFS_SRV_STOP then
    let* err := on_servers (Servers.nkfs_server_stop (Route.u32_at e 4 cmd) (Route.int_at e 8 cmd)) in
    ret (err, cmd)
  else if code =? IOCTL_NKFS_NEIGH_ADD then
    let* err := neigh_add (Route.u32_at e 4 cmd) (Route.int_at e 8 cmd) in
    ret (err, cmd)
  else if code =? IOCTL_NKFS_NEIGH_REMOVE then
    let* err := neigh_remove (Route.u32_at e 4 cmd) (Route.int_at e 8 cmd) in
    ret (err, cmd)
  else if code =? IOCTL_NKFS_NEIGH_INFO then
    let* r := on_route (Route.nkfs_route_neigh_info NKFS_ROUTE_MAX_NEIGHS) in
    let* cmd := neigh_array (memcpy_at cmd 4 (int_bytes e 0)) in
    ret (match r with inl err => (err, cmd) | inr l => (0, memcpy_at cmd 4 (int_bytes e (Z.of_nat (length l)))) end)
  else ret (NKFS_E_UNK_IOCTL, cmd).

(** The result, and the structure of the caller afterwards. *)
Definition nkfs_ioctl (code : Z) (arg : list byte) : M (Z * list byte) :=
  let* nomem := kcall (kmalloc_err k) in
  if (nomem : bool) then ret (- ENOMEM, arg)
  else
    let* bad := kcall (from_err k) in
    if (bad : bool) then ret (- EFAULT, arg)
    else
      let* r := switch code arg in
      let cmd := memcpy_at (snd r) 0 (int_bytes e (fst r)) in
      let* bad := kcall (to_err k) in
      if (bad : bool) then ret (- EFAULT, arg) else ret (0, cmd).

(** Zero, or an error. *)
Definition nkfs_mod_get : M Z :=
  let* bad := kcall (mod_err k) in
  if (bad : bool) then ret (- EINVAL) else do* modify (fun m => set_mref (m_ref m + 1) m) in ret 0.

Definition nkfs_mod_put : M Z := do* modify (fun m => set_mref (m_ref m - 1) m) in ret 0.

(** ** The module comes and goes *)

Definition dio_init : M Z :=
  let* bad := kcall (wq_err k) in
  if (bad : bool) then ret (- ENOMEM)
  else
    let* err := kcall (timer_err k) in
    if negb (err =? 0) then ret err else do* modify (set_dio true) in ret 0.

Definition dio_finit : M unit := modify (set_dio false).

Definition misc_register : M Z :=
  let* err := kcall (misc_err k) in
  if negb (err =? 0) then ret err else do* modify (set_misc true) in ret 0.

Definition misc_deregister : M unit := modify (set_misc false).

Definition nkfs_btree_init : M Z := ret 0.
Definition nkfs_btree_finit : M unit := ret tt.
Definition nkfs_inode_init : M Z := ret 0.
Definition nkfs_inode_finit : M unit := ret tt.
Definition nkfs_sb_init : M Z := ret 0.
Definition nkfs_sb_finit : M unit := ret tt.
Definition nkfs_dev_init : M Z := ret 0.
Definition nkfs_dev_finit : M unit := on_dev (Dev.nkfs_dev_release_all e ctx).
Definition nkfs_server_init : M Z := ret 0.
Definition nkfs_server_finit : M unit := modify (fun m => set_servers (Servers.nkfs_server_stop_all (m_servers m)) m).

Definition nkfs_route_init : M Z :=
  let* c := kcall (fun t => (host_err k t, rnd k t)) in
  let h := Route.nkfs_host_create (fst (fst c)) (snd (fst c)) (snd c) (host_mem k) in
  do* modify (set_route h) in
  ret (match h with None => - ENOMEM | Some _ => 0 end).

Definition nkfs_route_finit : M unit := on_route Route.nkfs_host_release.

(** A step, and what undoes it when a later one fails. *)
Definition step (init : M Z) (undo : M unit) (rest : M Z) : M Z :=
  let* err := init in
  if negb (err =? 0) then ret err
  else
    let* err := rest in
    if negb (err =? 0) then do* undo in ret err else ret 0.

Definition nkfs_init : M Z :=
  step dio_init dio_finit
  (step misc_register misc_deregister
  (step nkfs_btree_init nkfs_btree_finit
  (step nkfs_inode_init nkfs_inode_finit
  (step nkfs_sb_init nkfs_sb_finit
  (step nkfs_dev_init nkfs_dev_finit
  (step nkfs_server_init nkfs_server_finit
  nkfs_route_init)))))).

Definition nkfs_exit : M unit :=
  do* misc_deregister in
  do* nkfs_route_finit in
  do* nkfs_server_finit in
  do* nkfs_dev_finit in
  do* nkfs_sb_finit in
  do* nkfs_btree_finit in
  do* nkfs_inode_finit in
  dio_finit.

(** ** The library of the control program *)

(** [open("/dev/nkfs_ctl", 0)]: zero, or [errno]. *)
Definition nkfs_ctl_open : M Z :=
  let* err := kcall (open_err k) in
  match err with
  | Some err => ret err
  | None =>
      let* there := gets m_misc in
      if negb there then ret ENOENT else let* err := nkfs_mod_get in ret (- err)
  end.

(** [ioctl]: a negative result of the kernel is [-1]. *)
Definition ioctl (code : Z) (cmd : list byte) : M (Z * list byte) :=
  let* r := nkfs_ioctl code cmd in
  ret (if fst r <? 0 then -1 else fst r, snd r).

(** What the functions of ctl.c share: the error, and the structure after the
    call. *)
Definition ctl_call (code : Z) (cmd : list byte) : M (Z * list byte) :=
  let* err := nkfs_ctl_open in
  if negb (err =? 0) then ret (err, cmd)
  else
    let* r := ioctl code cmd in
    let err := if negb (fst r =? 0) then fst r else Route.int_at e 0 (snd r) in
    let* _ := nkfs_mod_put in
    ret (err, snd r).

Definition nkfs_dev_add (name : list byte) (format : Z) : M Z :=
  let* r := ctl_call IOCTL_NKFS_DEV_ADD (ctl_cmd [name_bytes name; int_bytes e format]) in ret (fst r).

Definition nkfs_dev_rem (name : list byte) : M Z :=
  let* r := ctl_call IOCTL_NKFS_DEV_REMOVE (ctl_cmd [name_bytes name]) in ret (fst r).

Definition nkfs_dev_query (name : list byte) : M (Z + list byte) :=
  let* r := ctl_call IOCTL_NKFS_DEV_QUERY (ctl_cmd [name_bytes name]) in
  ret (if negb (fst r =? 0) then inl (fst r) else inr (field 260 348 (snd r))).

Definition nkfs_server_stop (bind_ip port : Z) : M Z :=
  let* r := ctl_call IOCTL_NKFS_SRV_STOP (ctl_cmd [store e 4 bind_ip; int_bytes e port]) in ret (fst r).

Definition nkfs_server_start (bind_ip ext_ip port : Z) : M Z :=
  let* r := ctl_call IOCTL_NKFS_SRV_START (ctl_cmd [store e 4 bind_ip; store e 4 ext_ip; int_bytes e port]) in ret (fst r).

Definition nkfs_neigh_add (ip port : Z) : M Z :=
  let* r := ctl_call IOCTL_NKFS_NEIGH_ADD (ctl_cmd [store e 4 ip; int_bytes e port]) in ret (fst r).

Definition nkfs_neigh_remove (ip port : Z) : M Z :=
  let* r := ctl_call IOCTL_NKFS_NEIGH_REMOVE (ctl_cmd [store e 4 ip; int_bytes e port]) in ret (fst r).

Definition nkfs_neigh_info (max_nr_neighs : Z) : M (Z + list (list byte)) :=
  let* r := ctl_call IOCTL_NKFS_NEIGH_INFO (ctl_cmd []) in
  if negb (fst r =? 0) then ret (inl (fst r))
  else
    let n := Route.int_at e 4 (snd r) in
    if max_nr_neighs <? n then ret (inl Route.NKFS_E_LIMIT)
    else ret (inr (map (fun i => field (8 + 48 * i) 48 (snd r)) (seq 0 (Z.to_nat n)))).

(** ** The control program *)

Record prog := Prog {
  p_m : machine;
  p_heap : heap;
  p_out : list output
}.

Abbreviation P := (StMonad.M prog).

Definition set_pm (m : machine) (w : prog) : prog := Prog m (p_heap w) (p_out w).
Definition set_pheap (h : heap) (w : prog) : prog := Prog (p_m w) h (p_out w).
Definition print (o : output) (w : prog) : prog := Prog (p_m w) (p_heap w) (p_out w ++ [o]).

Definition lib {A} (x : M A) : P A := fun w =>
  match x (p_m w) with
  | Done a m => Done a (set_pm m w)
  | Crash => Crash
  | Hang => Hang
  | NoFuel => NoFuel
  end.

Definition mem {A} (f : heap -> A * heap) : P A := fun w => let '(a, h) := f (p_heap w) in Done a (set_pheap h w).
Definition free (q : nat) : P unit := modify (fun w => set_pheap (crt_free q (p_heap w)) w).

Context (inet_aton : list byte -> option Z) (junk : byte).

Definition output_dev_info (info : list byte) : P Z :=
  let i := dev_info_of e info in
  let* hex := mem (nkfs_obj_id_str junk (Dev.inf_sb_id i)) in
  match hex with
  | None => ret (- ENOMEM)
  | Some (q, text) => do* modify (print (OutDev i (c_str text))) in do* free q in ret 0
  end.

Definition output_neigh_info (info : list byte) : P Z :=
  let i := neigh_info_of e info in
  let* hex := mem (nkfs_obj_id_str junk (Route.i_host_id i)) in
  match hex with
  | None => ret (- ENOMEM)
  | Some (q, text) => do* modify (print (OutNeigh i (c_str text))) in do* free q in ret 0
  end.

(** From network order: the bytes of the [u32] in memory, the first highest. *)
Definition ntohl (x : Z) : Z := load XXH_bigEndian (store e 4 x).

Definition bad_port (port : Z) : bool := (port <=? 0) || (64000 <? port).

(** The address of a text that must be there. *)
Definition with_ip (s : option (list byte)) (f : Z -> P Z) : P Z :=
  match s with
  | None => ret (- EINVAL)
  | Some s => match inet_aton s with None => ret (- EINVAL) | Some a => f (ntohl a) end
  end.

Definition text (l : list nat) : list byte := map byte_of_nat l.
Definition DEV_ADD : list byte := text [100; 101; 118; 95; 97; 100; 100]%nat.
Definition DEV_REM : list byte := text [100; 101; 118; 95; 114; 101; 109]%nat.
Definition DEV_QUERY : list byte := text [100; 101; 118; 95; 113; 117; 101; 114; 121]%nat.
Definition SRV_START : list byte := text [115; 114; 118; 95; 115; 116; 97; 114; 116]%nat.
Definition SRV_STOP : list byte := text [115; 114; 118; 95; 115; 116; 111; 112]%nat.
Definition NEIGH_ADD : list byte := text [110; 101; 105; 103; 104; 95; 97; 100; 100]%nat.
Definition NEIGH_REMOVE : list byte := text [110; 101; 105; 103; 104; 95; 114; 101; 109; 111; 118; 101]%nat.
Definition NEIGH_INFO : list byte := text [110; 101; 105; 103; 104; 95; 105; 110; 102; 111]%nat.

Fixpoint output_neighs (l : list (list byte)) : P unit :=
  match l with
  | [] => ret tt
  | b :: l => let* _ := output_neigh_info b in output_neighs l
  end.

Definition do_cmd (cmd : list byte) (bind_ip_s ext_ip_s : option (list byte)) (port : Z) (dev : option (list byte)) (format : Z) : P Z :=
  let eq := ClientTool.cmd_equal cmd in
  if eq DEV_ADD then match dev with None => ret (- EINVAL) | Some d => lib (nkfs_dev_add d format) end
  else if eq DEV_REM then match dev with None => ret (- EINVAL) | Some d => lib (nkfs_dev_rem d) end
  else if eq DEV_QUERY then
    match dev with
    | None => ret (- EINVAL)
    | Some d => let* r := lib (nkfs_dev_query d) in match r with inl err => ret err | inr info => output_dev_info info end
    end
  else if eq SRV_START then
    if bad_port port then ret (- EINVAL)
    else match bind_ip_s, ext_ip_s with
    | None, _ | _, None => ret (- EINVAL)
    | Some _, Some _ =>
        with_ip bind_ip_s (fun bind_ip => with_ip ext_ip_s (fun ext_ip =>
          if ext_ip =? 0 then ret (- EINVAL) else lib (nkfs_server_start bind_ip ext_ip port)))
    end
  else if eq SRV_STOP then if bad_port port then ret (- EINVAL) else with_ip bind_ip_s (fun ip => lib (nkfs_server_stop ip port))
  else if eq NEIGH_ADD then if bad_port port then ret (- EINVAL) else with_ip ext_ip_s (fun ip => lib (nkfs_neigh_add ip port))
  else if eq NEIGH_REMOVE then if bad_port port then ret (- EINVAL) else with_ip ext_ip_s (fun ip => lib (nkfs_neigh_remove ip port))
  else if eq NEIGH_INFO then
    let* r := lib (nkfs_neigh_info NKFS_ROUTE_MAX_NEIGHS) in
    match r with
    | inl err => ret err
    | inr l => do* output_neighs l in ret 0
    end
  else ret (- EINVAL).

(** The options as [getopt] gives them. *)
Inductive copt := OptF | OptD (a : list byte) | OptB (a : list byte) | OptE (a : list byte) | OptP (a : list byte) | OptUnknown.

Record args := Args { a_format : Z; a_dev : option (list byte); a_bind : option (list byte); a_ext : option (list byte); a_port : Z }.

Fixpoint options (l : list copt) (a : args) : option args :=
  match l with
  | [] => Some a
  | OptF :: l => options l (Args 1 (a_dev a) (a_bind a) (a_ext a) (a_port a))
  | OptD s :: l => options l (Args (a_format a) (Some s) (a_bind a) (a_ext a) (a_port a))
  | OptB s :: l => options l (Args (a_format a) (a_dev a) (Some s) (a_ext a) (a_port a))
  | OptE s :: l => options l (Args (a_format a) (a_dev a) (a_bind a) (Some s) (a_port a))
  | OptP s :: l => options l (Args (a_format a) (a_dev a) (a_bind a) (a_ext a) (atoi s))
  | OptUnknown :: _ => None
  end.

Definition main (opts : list copt) (rest : list (list byte)) : P Z :=
  match options opts (Args 0 None None None (-1)), rest with
  | None, _ | Some _, [] => ret (- EINVAL)
  | Some a, cmd :: _ => do_cmd cmd (a_bind a) (a_ext a) (a_port a) (a_dev a) (a_format a)
  end.

End Ctl.

Arguments machine T St : clear implicits.

End Ctl.
