(* ===== verification/DevSpec.v ===== *)
(** * Devices and their superblocks keep step

    Between calls every device in memory is in the list, has one reference and a
    superblock of its own, which is in the list of superblocks with one reference;
    names and ids are unique and nothing else is in memory.  Every operation keeps
    this, and adding a device that fails leaves nothing behind. *)

From Stdlib Require Import ZArith Lia.
From coqutil Require Import Byte.
From stdpp Require Import base list gmap relations.
From S2P Require Import Prelude XXHash Bytes StMonad Csum DioPages Dio DioClient Mem CharHex ObjId Super BtreeNode BtreeDisk.
From S2P Require Import BlockTree Inode SbList SbListSpec SbFormat Dev.
Import XXHash Bytes StMonad Csum ObjId SbList SbListSpec SbListClaims SbFormat Dev.
Local Open Scope Z_scope.
Local Open Scope stm_scope.

Module DevSpec.

Section Spec.
Context {T St : Type} `{ImageStore T St}.
Context (e : XXH_endianess) (ctx : csum_ctx).
Context (blkdev_get_by_path : list byte -> option (block_device St)).

Local Abbreviation world := (Dev.world T St).
Local Abbreviation nkfs_dev := (Dev.nkfs_dev T St).
Local Abbreviation host := (SbList.host T St).
Local Abbreviation nkfs_sb := (SbList.nkfs_sb T St).

(** ** Rules *)

Lemma ends_on_host {A} (m : StMonad.M host A) w (Q : A -> world -> Prop) :
  ends m (w_host w) (fun a h => Q a (with_host h w)) -> ends (on_host m) w Q.
Proof. intros Hm a w' E. unfold on_host in E. destruct (m (w_host w)) eqn:Em; [|discriminate E..]. injection E as <- <-. by apply Hm. Qed.

Lemma ends_get_dev p w (Q : nkfs_dev -> world -> Prop) : (forall d, w_devs w !! p = Some d -> Q d w) -> ends (get_dev p) w Q.
Proof. intros HQ a w' E. unfold get_dev in E. destruct (w_devs w !! p); [|discriminate E]. injection E as <- <-. by apply HQ. Qed.

Lemma ends_upd_dev p f w (Q : unit -> world -> Prop) :
  (forall d, w_devs w !! p = Some d -> Q tt (with_devs (<[p := f d]> (w_devs w)) w)) -> ends (upd_dev p f) w Q.
Proof. intros HQ. apply ends_bind, ends_get_dev. intros d Ed. apply ends_modify. by apply HQ. Qed.

Lemma ends_mfails w (Q : bool -> world -> Prop) : (forall f n, Q f (with_wtick n w)) -> ends mfails w Q.
Proof. intros HQ a w' [= <- <-]. apply HQ. Qed.

Lemma ends_by_name name l : forall w (Q : option nat -> world -> Prop),
  (forall p d, p ∈ l -> w_devs w !! p = Some d -> d_name d = name -> Q (Some p) w) ->
  ((forall p d, p ∈ l -> w_devs w !! p = Some d -> d_name d <> name) -> Q None w) -> ends (by_name name l) w Q.
Proof.
  induction l as [|p l IH]; intros w Q HS HN; cbn [by_name].
  - apply ends_ret, HN. intros p d Hp. by apply elem_of_nil in Hp.
  - apply ends_bind, ends_get_dev. intros d Ed. case_bool_decide as Hn; [apply ends_ret, (HS p d); [by left|done|done]|].
    apply IH; [intros q dq Hq; apply HS; by right|]. intros Hl. apply HN. intros q dq [->|Hq]%elem_of_cons E; [congruence|by apply (Hl q)].
Qed.

(** The last reference to a superblock. *)
Lemma ends_sb_last q b (h : host) (Q : unit -> host -> Prop) : sbo h !! q = Some b -> sb_refs b = 1 -> Q tt (with_sbo (delete q (sbo h)) h) ->
  ends (nkfs_sb_deref q) h Q.
Proof.
  intros Eb Hr HQ. unfold nkfs_sb_deref. apply ends_bind, ends_get. intros b0 E0. rewrite Eb in E0. injection E0 as <-. rewrite Hr.
  apply ends_bind, ends_bug_on. intros _. apply ends_bind. intros a h1 E1. unfold upd_sb, on_sb in E1. rewrite Eb in E1. injection E1 as _ <-.
  cbn [Z.sub Z.add Z.opp Z.pos_sub Z.eqb]. unfold nkfs_sb_delete, nkfs_sb_release. apply ends_bind. intros a2 h2 E2. unfold on_sb in E2.
  cbn [with_sbo sbo] in E2. rewrite lookup_insert_eq in E2.
  assert (Ed : exists b2, h2 = with_sbo (<[q := b2]> (<[q := set_refs 0 b]> (sbo h))) h).
  { cbn in E2. destruct (inodes_tree b) as [t|]; [destruct (t_deref t _); [|discriminate E2]|]; injection E2 as _ <-; by eexists. }
  destruct Ed as [b2 ->]. apply ends_modify. cbn [with_sbo sbo]. by rewrite !delete_insert_eq.
Qed.

(** ** Errors are not zero *)

Definition real {A} (r : Z + A) : Prop := forall err, r = inl err -> err <> 0.

Lemma ends_any {S A} (m : StMonad.M S A) s (Q : A -> S -> Prop) : (forall a s', Q a s') -> ends m s Q.
Proof. intros HQ a s' _. apply HQ. Qed.

Lemma real_inl {A} err : err <> 0 -> real (A := A) (inl err).
Proof. by intros He err' [= <-]. Qed.

Lemma real_guard {A} err : negb (err =? 0) = true -> real (A := A) (inl err).
Proof. intros He. apply real_inl. lia. Qed.

Lemma real_inr {A} (a : A) : real (inr a).
Proof. intros err E. discriminate E. Qed.

Lemma sb_create_real fail rnd dsize bs header r : Super.nkfs_sb_create e ctx fail rnd dsize bs header = Ret r -> real r.
Proof.
  unfold Super.nkfs_sb_create. destruct fail; [intros [= <-]; by apply real_inl|].
  destruct (match header with Some _ => _ | None => _ end) as [[err h]|]; [|done]. cbn [obind].
  destruct (negb (err =? 0)) eqn:E1; [intros [= <-]; by apply real_guard|]. destruct (Super.nkfs_sb_check h) as [err2|]; [|done]. cbn [obind].
  destruct (negb (err2 =? 0)) eqn:E2; [intros [= <-]; by apply real_guard|]. destruct (Super.nkfs_div _ _); [|done]. intros [= <-]. apply real_inr.
Qed.

Local Hint Resolve real_guard real_inr : core.

Lemma format_image_real c h s : ends (format_image e ctx c h) s (fun (r : Z + Super.nkfs_sb * T) _ => real r).
Proof.
  unfold format_image. apply ends_bind, ends_any. intros _ s1. apply ends_bind, ends_any. intros err s2. destruct (negb _) eqn:E1; [by apply ends_ret; auto|].
  apply ends_bind, ends_any. intros err2 s3. destruct (negb (err2 =? 0)) eqn:E2; [by apply ends_ret; auto|]. apply ends_bind, ends_any. intros [t|] s4; [|by apply ends_ret, real_inl].
  apply ends_bind, ends_any. intros b s5. do 3 (apply ends_bind, ends_any; intros ? ?). apply ends_bind, ends_any. intros err3 s6.
  destruct (negb (err3 =? 0)) eqn:E3; [|by apply ends_ret; auto]. apply ends_bind, ends_any. intros _ s7. apply ends_ret. auto.
Qed.

(** The cluster is put back whatever the outcome. *)
Lemma put_real {A} (m : StMonad.M (Inode.sb_state T St) (Z + A)) (k : StMonad.M (Inode.sb_state T St) unit) s :
  ends m s (fun r _ => real r) -> ends (let* res := m in do* k in ret res) s (fun r _ => real r).
Proof. intros Hm. apply ends_bind. eapply ends_mono; [exact Hm|]. intros res s1 Hr. apply ends_bind, ends_any. intros _ s2. by apply ends_ret. Qed.

Lemma format_real dsize rnd s : ends (nkfs_sb_format e ctx dsize rnd) s (fun (r : Z + Super.nkfs_sb * T) _ => real r).
Proof.
  unfold nkfs_sb_format. apply ends_bind, ends_any. intros [c|] s1; [|by apply ends_ret, real_inl]. do 2 (apply ends_bind, ends_any; intros ? ?).
  apply ends_bind, ends_lift. intros r Er. apply put_real. apply sb_create_real in Er. destruct r as [err|h]; [|apply format_image_real].
  apply ends_ret, real_inl. by apply Er.
Qed.

Lemma load_real dsize s : ends (nkfs_sb_load e ctx dsize) s (fun (r : Z + Super.nkfs_sb * T) _ => real r).
Proof.
  unfold nkfs_sb_load. apply ends_bind, ends_any. intros [c|] s1; [|by apply ends_ret, real_inl]. apply ends_bind.
  eapply (ends_mono _ _ (fun r _ => real r)).
  { assert (Hrd : ends (Dio.dio_clu_read c 80 0) (Inode.ddev s1) (fun r _ => real r)).
    { unfold Dio.dio_clu_read. do 4 (apply ends_bind, ends_any; intros ? ?). destruct (negb _) eqn:E1; [by apply ends_ret; auto|].
      do 2 (apply ends_bind, ends_any; intros ? ?). by apply ends_ret. }
    intros r s2 E. unfold Inode.dio in E. destruct (Dio.dio_clu_read c 80 0 (Inode.ddev s1)) as [r' d| | |] eqn:Er; [|discriminate E..].
    injection E as <- <-. by apply (Hrd r' d). }
  intros r s2 Hr. apply put_real. destruct r as [err|header]; [apply ends_ret, real_inl; by apply Hr|].
  do 2 (apply ends_bind, ends_any; intros ? ?). apply ends_bind, ends_lift. intros r Er. apply sb_create_real in Er.
  destruct r as [err|h]; [apply ends_ret, real_inl; by apply Er|]. unfold load_image. apply ends_bind, ends_any. intros _ s3.
  destruct (_ <? _); [by apply ends_ret, real_inl|]. destruct (_ <=? _); [by apply ends_ret, real_inl|]. apply ends_bind, ends_any.
  intros [t|] s4; [by apply ends_ret|by apply ends_ret, real_inl].
Qed.

(** ** The invariant *)

Record started (w : world) (d : nkfs_dev) : Prop := {
  sd_ref : d_ref d = 1;
  sd_run : d_stopping d = false;
  sd_bdev : is_Some (d_bdev d);
  sd_sb : exists q b, d_sb d = Some q /\ sbo (w_host w) !! q = Some b /\ sb_refs b = 1 /\ stopping b = false /\ dev_name b = d_name d
}.

Record dev_inv (w : world) : Prop := {
  di_nodup : NoDup (w_list w);
  di_dom p : p ∈ w_list w <-> is_Some (w_devs w !! p);
  di_dev p d : w_devs w !! p = Some d -> started w d;
  di_names p1 p2 d1 d2 : w_devs w !! p1 = Some d1 -> w_devs w !! p2 = Some d2 -> d_name d1 = d_name d2 -> p1 = p2;
  di_sbs : Forall2 (fun p q => exists d, w_devs w !! p = Some d /\ d_sb d = Some q) (w_list w) (sb_list (w_host w));
  di_sbo q : is_Some (sbo (w_host w) !! q) <-> q ∈ sb_list (w_host w);
  di_listed : listed (w_host w)
}.

Lemma inv_tick w n : dev_inv w -> dev_inv (with_wtick n w).
Proof. intros []. split; try done. intros p d E. destruct (di_dev0 p d E). by split. Qed.

(** ** Making a device *)

(** A device that was made and not started. *)
Record fresh_dev (w : world) (name : list byte) (p : nat) (d : nkfs_dev) : Prop := {
  fd_new : w_devs w !! p = None;
  fd_ref : d_ref d = 1;
  fd_run : d_stopping d = false;
  fd_bdev : is_Some (d_bdev d);
  fd_sb : d_sb d = None;
  fd_name : d_name d = name
}.

(** An unstarted device goes as it came. *)
Lemma ends_drop p d w (Q : unit -> world -> Prop) : w_devs w !! p = Some d -> d_ref d = 1 -> d_sb d = None ->
  Q tt (with_devs (delete p (w_devs w)) w) -> ends (nkfs_dev_deref p) w Q.
Proof.
  intros Ed Hr Hs HQ. unfold nkfs_dev_deref. apply ends_bind, ends_get_dev. intros d0 E0. rewrite Ed in E0. injection E0 as <-. rewrite Hr.
  apply ends_bind, ends_bug_on. intros _. apply ends_bind, ends_upd_dev. intros d0 E0. rewrite Ed in E0. injection E0 as <-.
  cbn [Z.sub Z.add Z.opp Z.pos_sub Z.eqb]. unfold nkfs_dev_free. apply ends_bind, ends_get_dev. cbn [with_devs w_devs]. rewrite lookup_insert_eq.
  intros d1 [= <-]. cbn [set_ref d_sb]. rewrite Hs. apply ends_bind, ends_ret, ends_modify. cbn [with_devs w_devs]. by rewrite delete_insert_eq.
Qed.

Lemma ends_create_dev name w (Q : option nat -> world -> Prop) :
  (forall n, Q None (with_wtick n w)) ->
  (forall p d n, fresh_dev w name p d -> Q (Some p) (with_wtick n (with_devs (<[p := d]> (w_devs w)) w))) ->
  ends (nkfs_dev_create blkdev_get_by_path name) w Q.
Proof.
  intros HN HS. unfold nkfs_dev_create. destruct (_ || _) eqn:El; [apply ends_ret; specialize (HN (w_tick w)); by destruct w|].
  apply orb_false_iff in El as [_ El]. apply Nat.leb_gt in El.
  apply ends_bind, ends_mfails. intros f n. destruct f; [by apply ends_ret, HN|]. apply ends_bind.
  intros p w1 [= <- <-]. cbn [with_wtick w_devs]. set (p := fresh _). assert (Hp : w_devs w !! p = None) by (apply not_elem_of_dom, is_fresh).
  rewrite take_ge by (unfold NKFS_NAME_MAX_SZ in *; lia).
  assert (Edel : forall x, with_devs (delete p (<[p := x]> (w_devs w))) (with_wtick n w) = with_wtick n w).
  { intros x. rewrite delete_insert_id by done. by destruct w. }
  destruct (blkdev_get_by_path name) as [b|].
  2:{ apply ends_bind. eapply ends_drop; [apply lookup_insert_eq|done|done|]. apply ends_ret. cbn [with_devs w_devs]. specialize (HN n). by rewrite <- (Edel (MkDev 1 None false 0 None None name)) in HN. }
  apply ends_bind, ends_upd_dev. cbn [with_devs w_devs]. rewrite lookup_insert_eq. intros d [= <-]. rewrite insert_insert_eq.
  destruct (Dio.dio_dev_create _ _ _ _ _ _) as [dd|].
  - apply ends_bind, ends_gets, ends_bind, ends_gets, ends_bind, ends_upd_dev. cbn [with_devs w_devs]. rewrite lookup_insert_eq. intros d [= <-].
    rewrite insert_insert_eq. apply ends_ret. by apply (HS p _ n).
  - apply ends_bind, ends_upd_dev. cbn [with_devs w_devs]. rewrite lookup_insert_eq. intros d [= <-]. rewrite insert_insert_eq.
    apply ends_bind. eapply ends_drop; [apply lookup_insert_eq|done|done|]. apply ends_ret. cbn [with_devs w_devs].
    specialize (HN n). by rewrite <- (Edel (set_bdev None (set_bsize NKFS_BLOCK_SIZE (set_bdev (Some b) (MkDev 1 None false 0 None None name))))) in HN.
Qed.

(** ** Starting it *)

Lemma ends_release_fresh p d w (Q : unit -> world -> Prop) : w_devs w !! p = Some d -> d_sb d = None ->
  (forall img, Q tt (with_devs (<[p := set_img img d]> (w_devs w)) w)) -> ends (nkfs_dev_release p) w Q.
Proof.
  intros Ed Hs HQ. unfold nkfs_dev_release. apply ends_bind, ends_get_dev. intros d0 E0. rewrite Ed in E0. injection E0 as <-. rewrite Hs.
  destruct (d_img d) as [s|] eqn:Ei.
  - apply ends_bind. destruct (dio_put (Inode.ddev s)); [|apply ends_crash..]. apply ends_upd_dev. intros d0 E0. rewrite Ed in E0. injection E0 as <-.
    by apply ends_ret.
  - apply ends_bind, ends_ret, ends_ret. specialize (HQ None). replace (set_img None d) with d in HQ by (destruct d; cbn in *; by subst).
    rewrite insert_id in HQ by done. by destruct w.
Qed.

Lemma listed_new (h : host) q b : listed h -> sbo h !! q = None -> listed (with_sbo (<[q := b]> (sbo h)) h) /\ q ∉ sb_list h.
Proof.
  intros [L1 L2 L3] Hq. assert (Hn : forall p, p ∈ sb_list h -> p <> q) by (intros p Hp ->; destruct (L2 q Hp); congruence).
  split; [|intros Hin; by apply (Hn q)]. split; [done| |].
  - intros p Hp. cbn [with_sbo sbo]. rewrite lookup_insert_ne by (symmetry; by apply Hn). by apply L2.
  - intros p1 p2 o H1 H2 (b1 & E1 & O1) (b2 & E2 & O2). cbn [with_sbo sbo] in E1, E2.
    rewrite lookup_insert_ne in E1 by (symmetry; by apply Hn). rewrite lookup_insert_ne in E2 by (symmetry; by apply Hn).
    eapply L3; [done|done|by exists b1|by exists b2].
Qed.

Lemma ends_start p d format rnd w (Q : Z -> world -> Prop) : w_devs w !! p = Some d -> listed (w_host w) ->
  (forall err img, err <> 0 -> Q err (with_devs (<[p := set_img img d]> (w_devs w)) w)) ->
  (forall q b, sbo (w_host w) !! q = None -> sb_refs b = 1 -> stopping b = false -> dev_name b = d_name d ->
     let h := with_list (sb_list (w_host w) ++ [q]) (with_sbo (<[q := b]> (sbo (w_host w))) (w_host w)) in listed h ->
     Q 0 (with_devs (<[p := set_img None (set_sb (Some q) d)]> (w_devs w)) (with_host h w))) ->
  ends (nkfs_dev_start e ctx p format rnd) w Q.
Proof.
  intros Ed Hl HE HS. unfold nkfs_dev_start. apply ends_bind, ends_get_dev. intros d0 E0. rewrite Ed in E0. injection E0 as <-.
  apply ends_bind, ends_bug_on. intros _. destruct (d_img d) as [s|]; [|apply ends_crash]. destruct (d_bdev d) as [bd|]; [|apply ends_crash].
  set (m := if format then _ else _). assert (Hm : ends m s (fun r _ => real r)) by (unfold m; destruct format; [apply format_real|apply load_real]).
  destruct (m s) as [r s'| | |] eqn:Em; [|intros a w' E; discriminate E..]. specialize (Hm _ _ Em). destruct r as [err|[h t]].
  { apply ends_bind, ends_upd_dev. intros d0 E0. rewrite Ed in E0. injection E0 as <-. apply ends_ret, HE. by apply Hm. }
  apply ends_bind, ends_on_host. intros q h1 [= <- <-]. set (q := fresh _). set (b := MkSb _ _ _ _ _ _).
  assert (Hq : sbo (w_host w) !! q = None) by (apply not_elem_of_dom, is_fresh).
  destruct (listed_new _ q b Hl Hq) as [Hl1 Hq1]. apply ends_bind, ends_on_host. cbn [with_host w_host].
  eapply ends_mono; [apply spec_ends, (spec_sb_insert _ q b Hl1); [cbn; by rewrite lookup_insert_eq|done]|].
  intros r h2 (L2 & _ & [(-> & -> & _)|(-> & -> & _)]); cbn [Z.eqb negb].
  - apply ends_bind, ends_upd_dev. cbn [with_host w_devs]. intros d0 E0. rewrite Ed in E0. injection E0 as <-. apply ends_ret. by apply (HS q b).
  - apply ends_bind, ends_on_host. cbn [with_host w_host]. eapply ends_sb_last; [cbn [with_sbo sbo]; apply lookup_insert_eq|done|].
    cbn [with_sbo sbo]. rewrite delete_insert_id by done. apply ends_bind, ends_upd_dev. cbn [with_host w_devs]. intros d0 E0. rewrite Ed in E0. injection E0 as <-.
    apply ends_ret. specialize (HE (- EEXIST) (Some s') ltac:(done)). by destruct w as [[] ? ? ? ?].
Qed.

(** ** Adding *)

(** One more device, with its superblock, at the end of both lists. *)
Definition added (w : world) (name : list byte) (w' : world) : Prop := exists p d q b,
  w_list w' = w_list w ++ [p] /\ w_devs w' = <[p := d]> (w_devs w) /\ d_name d = name /\ d_sb d = Some q /\
  sb_list (w_host w') = sb_list (w_host w) ++ [q] /\ sbo (w_host w') = <[q := b]> (sbo (w_host w)) /\
  forall p0 d0, w_devs w !! p0 = Some d0 -> d_name d0 <> name.

Lemma inv_add w name p d q b w' : dev_inv w -> w_devs w !! p = None -> (forall p0 d0, w_devs w !! p0 = Some d0 -> d_name d0 <> name) ->
  d_ref d = 1 -> d_stopping d = false -> is_Some (d_bdev d) -> d_sb d = Some q -> d_name d = name ->
  sbo (w_host w) !! q = None -> sb_refs b = 1 -> stopping b = false -> dev_name b = d_name d ->
  w_list w' = w_list w ++ [p] -> w_devs w' = <[p := d]> (w_devs w) ->
  sb_list (w_host w') = sb_list (w_host w) ++ [q] -> sbo (w_host w') = <[q := b]> (sbo (w_host w)) -> listed (w_host w') -> dev_inv w'.
Proof.
  intros [] Hp Hnm D1 D2 D3 D4 D5 Hq B1 B2 B3 W1 W2 W3 W4 W5.
  assert (Hpl : p ∉ w_list w) by (rewrite di_dom0, Hp; by intros []).
  split; rewrite ?W1, ?W2, ?W3, ?W4; [| | | | | |done].
  - apply NoDup_app. split_and!; [done|by intros x Hx ->%list_elem_of_singleton|apply NoDup_singleton].
  - intros x. rewrite elem_of_app, list_elem_of_singleton, di_dom0. destruct (decide (x = p)) as [->|Hx];
      [rewrite lookup_insert_eq; split; [by eexists|by right]|rewrite lookup_insert_ne by done; naive_solver].
  - intros x dx. destruct (decide (x = p)) as [->|Hx]; [rewrite lookup_insert_eq; intros [= <-]|rewrite lookup_insert_ne by done; intros Ex].
    + split; [done..|]. exists q, b. rewrite W4, lookup_insert_eq. by rewrite B3.
    + destruct (di_dev0 x dx Ex) as [S1 S2 S3 (q0 & b0 & Eq & Eb & S4)]. split; [done..|]. exists q0, b0. rewrite W4, lookup_insert_ne by congruence. done.
  - intros p1 p2 d1 d2 E1 E2 En. apply lookup_insert_Some in E1 as [[<- <-]|[N1 E1]], E2 as [[<- <-]|[N2 E2]]; [done| | |by eapply di_names0].
    + exfalso. apply (Hnm _ _ E2). congruence.
    + exfalso. apply (Hnm _ _ E1). congruence.
  - apply Forall2_app; [|constructor; [|constructor]; exists d; by rewrite lookup_insert_eq].
    eapply Forall2_impl; [exact di_sbs0|]. intros x y (dx & Ex & Ey). exists dx. rewrite lookup_insert_ne by congruence. done.
  - intros x. rewrite elem_of_app, list_elem_of_singleton. destruct (decide (x = q)) as [->|Hx];
      [rewrite lookup_insert_eq; split; [by right|by eexists]|rewrite lookup_insert_ne by done; rewrite di_sbo0; naive_solver].
Qed.

Lemma ends_add name format rnd w : dev_inv w -> ends (nkfs_dev_add e ctx blkdev_get_by_path name format rnd) w (fun r w' => dev_inv w' /\
  (r = 0 /\ added w name w' \/ r <> 0 /\ exists n, w' = with_wtick n w)).
Proof.
  intros I. assert (Hfail : forall r n, r <> 0 -> dev_inv (with_wtick n w) /\ (r = 0 /\ added w name (with_wtick n w) \/ r <> 0 /\ exists m, with_wtick n w = with_wtick m w)).
  { intros r n Hr. split; [by apply inv_tick|]. right. split; [done|]. by exists n. }
  unfold nkfs_dev_add. apply ends_bind, ends_create_dev; [intros n; apply ends_ret; by apply Hfail|]. intros p d n [F1 F2 F3 F4 F5 F6].
  assert (Hpl : p ∉ w_list w) by (rewrite (di_dom _ I), F1; by intros []).
  set (w1 := with_wtick n _). assert (E1 : w_devs w1 !! p = Some d) by (cbn; apply lookup_insert_eq).
  apply ends_bind. unfold nkfs_dev_insert. apply ends_bind, ends_get_dev. intros d0 E0. rewrite E1 in E0. injection E0 as <-.
  apply ends_bind, ends_gets, ends_bind, ends_by_name.
  - intros p0 d0 _ _ _. apply ends_ret. cbn [Z.eqb negb Z.opp EEXIST]. apply ends_bind, (ends_release_fresh p d); [done..|]. intros img.
    apply ends_bind, (ends_drop p (set_img img d)); [apply lookup_insert_eq|done|done|]. apply ends_ret.
    replace (with_devs _ _) with (with_wtick n w); [by apply Hfail|]. cbn [with_devs w_devs w1 with_wtick].
    rewrite insert_insert_eq, delete_insert_id by done. by destruct w.
  - intros Hno. apply ends_bind, ends_modify, ends_ret. cbn [Z.eqb negb]. apply ends_bind. apply (ends_start p d); [done|apply I| |].
    + intros err img He. rewrite (proj2 (Z.eqb_neq err 0)) by done. cbn [negb]. apply ends_bind, ends_modify.
      apply ends_bind, (ends_release_fresh p (set_img img d)); [cbn; apply lookup_insert_eq|done|]. intros img'.
      apply ends_bind, (ends_drop p (set_img img' (set_img img d))); [apply lookup_insert_eq|done|done|]. apply ends_ret.
      replace (with_devs _ _) with (with_wtick n w); [by apply Hfail|].
      unfold w1, with_devs, with_dlist, with_wtick. cbn [w_devs w_list w_host w_mfail w_tick].
      rewrite filter_last by done. rewrite !insert_insert_eq, delete_insert_id by done. by destruct w.
    + intros q b Hq B1 B2 B3 h Hl. cbn [Z.eqb negb]. apply ends_ret.
      assert (Hnm : forall p0 d0, w_devs w !! p0 = Some d0 -> d_name d0 <> name).
      { intros p0 d0 E0. rewrite <- F6. apply (Hno p0); [apply (di_dom _ I); by eexists|]. cbn. rewrite lookup_insert_ne by congruence. done. }
      split; [|left; split; [done|]; exists p, (set_img None (set_sb (Some q) d)), q, b; split_and!; try done; cbn; by rewrite insert_insert_eq].
      eapply (inv_add w name p (set_img None (set_sb (Some q) d)) q b); try done. cbn. by rewrite insert_insert_eq.
Qed.

(** ** Removing *)

(** The superblock [q] of [h] is [b] now. *)
Definition put_sb (q : nat) (b : nkfs_sb) (h : host) : host := with_sbo (<[q := b]> (sbo h)) h.

Lemma ends_on_sb_refs {A} q b (m : StMonad.M nkfs_sb A) (h : host) (Q : A -> host -> Prop) : sbo h !! q = Some b ->
  ends m b (fun a b' => Q a (put_sb q b' h)) -> ends (on_sb q m) h Q.
Proof. intros E Hm a h' Eh. unfold on_sb in Eh. rewrite E in Eh. destruct (m b) eqn:Em; [|discriminate Eh..]. injection Eh as <- <-. by apply Hm. Qed.

Lemma put_put q b b' h : put_sb q b' (put_sb q b h) = put_sb q b' h.
Proof. unfold put_sb. cbn. by rewrite insert_insert_eq. Qed.

Lemma ends_sb_stop q b (h : host) (Q : unit -> host -> Prop) : sbo h !! q = Some b ->
  (forall b', sb_refs b' = sb_refs b -> Q tt (put_sb q b' (with_list (filter (fun x => x <> q) (sb_list h)) h))) -> ends (nkfs_sb_stop e ctx q) h Q.
Proof.
  intros Eb HQ. unfold nkfs_sb_stop. apply ends_bind, (ends_on_sb_refs q b); [done|]. apply ends_modify.
  apply ends_bind, ends_modify. apply ends_bind. eapply (ends_on_sb_refs q); [cbn; apply lookup_insert_eq|]. apply ends_modify.
  match goal with |- context [put_sb q ?x _] => set (b2 := x) end. assert (R2 : sb_refs b2 = sb_refs b) by (unfold b2; cbn; by destruct (inodes_tree b)).
  apply ends_bind, ends_get. intros b3 E3. cbn [put_sb with_sbo sbo] in E3. rewrite lookup_insert_eq in E3. injection E3 as <-.
  apply ends_bind, ends_bug_on. intros _. apply ends_bind. eapply (ends_on_sb_refs q b2); [cbn; apply lookup_insert_eq|]. intros r b4 E4.
  apply quiet_inode in E4 as (_ & R4 & _). apply ends_ret. rewrite put_put. specialize (HQ b4 ltac:(congruence)). revert HQ.
  unfold put_sb, with_list, with_sbo. cbn [sbo sb_list lfail ltick]. by rewrite insert_insert_eq.
Qed.

(** [p] and its superblock [q] are gone, and the list is [l]. *)
Definition gone (w : world) (p q : nat) (l : list nat) (w' : world) : Prop :=
  w' = World (with_sbo (delete q (sbo (w_host w))) (with_list (filter (fun x => x <> q) (sb_list (w_host w))) (w_host w)))
         (delete p (w_devs w)) l (w_mfail w) (w_tick w).

(** A device is stopped and let go; what happens to the list is left open. *)
Lemma ends_take_down {A} p d q b w (mid : StMonad.M world unit) (f : list nat -> list nat) (k : StMonad.M world A) (Q : A -> world -> Prop) :
  (forall w (Q : unit -> world -> Prop), Q tt (with_dlist (f (w_list w)) w) -> ends mid w Q) -> w_devs w !! p = Some d -> d_ref d = 1 -> d_sb d = Some q ->
  sbo (w_host w) !! q = Some b -> sb_refs b = 1 -> (forall w', gone w p q (f (w_list w)) w' -> ends k w' Q) ->
  ends (do* nkfs_dev_stop e ctx p in do* nkfs_dev_release p in do* mid in do* nkfs_dev_deref p in k) w Q.
Proof.
  intros Hmid Ed Hr Hs Eb Hb HQ. unfold nkfs_dev_stop. apply ends_bind, ends_bind, ends_upd_dev. intros d0 E0. rewrite Ed in E0. injection E0 as <-.
  apply ends_bind, ends_get_dev. cbn [with_devs w_devs]. rewrite lookup_insert_eq. intros d0 [= <-]. cbn [set_stop d_sb]. rewrite Hs.
  apply ends_on_host, (ends_sb_stop q b); [done|]. intros b1 R1. set (d1 := set_stop true d).
  apply ends_bind. unfold nkfs_dev_release. apply ends_bind, ends_get_dev. cbn [with_host with_devs w_devs]. rewrite lookup_insert_eq. intros d0 [= <-].
  cbn [d1 set_stop d_sb]. rewrite Hs. apply ends_bind, ends_on_host. cbn [with_host w_host].
  eapply (ends_on_sb_refs q b1); [cbn; apply lookup_insert_eq|]. intros r b2 E2. apply quiet_inode in E2 as (_ & R2 & _). rewrite put_put.
  apply ends_ret, ends_bind, Hmid. unfold nkfs_dev_deref. apply ends_bind, ends_bind, ends_get_dev. cbn [with_dlist with_host with_devs w_devs].
  rewrite lookup_insert_eq. intros d0 [= <-]. cbn [d1 set_stop d_ref]. rewrite Hr. apply ends_bind, ends_bug_on. intros _.
  apply ends_bind, ends_upd_dev. cbn [with_dlist with_host with_devs w_devs]. rewrite lookup_insert_eq. intros d0 [= <-]. cbn [Z.sub Z.add Z.opp Z.pos_sub Z.eqb].
  unfold nkfs_dev_free. apply ends_bind, ends_get_dev. cbn [with_dlist with_host with_devs w_devs]. rewrite lookup_insert_eq. intros d0 [= <-].
  cbn [set_ref d1 set_stop d_sb]. rewrite Hs. apply ends_bind, ends_on_host. cbn [with_dlist with_host with_devs w_host].
  eapply (ends_sb_last q b2); [cbn; apply lookup_insert_eq|lia|]. apply ends_modify, HQ. unfold gone, put_sb, with_sbo, with_list, with_devs, with_host, with_dlist.
  cbn [w_host w_devs w_list w_mfail w_tick sbo sb_list lfail ltick]. by rewrite !delete_insert_eq.
Qed.

Lemma sb_inj w p1 p2 d1 d2 : dev_inv w -> w_devs w !! p1 = Some d1 -> w_devs w !! p2 = Some d2 -> d_sb d1 = d_sb d2 -> p1 = p2.
Proof.
  intros I E1 E2 Es. assert (P1 : p1 ∈ w_list w) by (apply (di_dom _ I); by eexists). assert (P2 : p2 ∈ w_list w) by (apply (di_dom _ I); by eexists).
  apply list_elem_of_lookup in P1 as [i Hi], P2 as [j Hj]. destruct (Forall2_lookup_l _ _ _ _ _ (di_sbs _ I) Hi) as (q1 & Q1 & d1' & E1' & S1).
  destruct (Forall2_lookup_l _ _ _ _ _ (di_sbs _ I) Hj) as (q2 & Q2 & d2' & E2' & S2).
  assert (i = j) as -> by (apply (NoDup_lookup _ i j q1 (li_nodup _ (di_listed _ I))); congruence). congruence.
Qed.

Lemma Forall2_with_l {A C} (R : A -> C -> Prop) (P : A -> Prop) l k : Forall2 R l k -> Forall P l -> Forall2 (fun x y => P x /\ R x y) l k.
Proof. induction 1; intros F; [constructor|]. apply Forall_cons in F as [Hx F]. constructor; [done|by apply IHForall2]. Qed.

Lemma inv_gone w p d q w' : dev_inv w -> w_devs w !! p = Some d -> d_sb d = Some q -> gone w p q (filter (fun x => x <> p) (w_list w)) w' -> dev_inv w'.
Proof.
  intros I Ed Es ->. pose proof I as []. pose proof (fun x dx => sb_inj w x p dx d I) as Inj.
  assert (Hd : forall x dx, delete p (w_devs w) !! x = Some dx <-> x <> p /\ w_devs w !! x = Some dx) by (intros x dx; rewrite lookup_delete_Some; naive_solver).
  split; cbn [w_list w_devs w_host with_sbo with_list sbo sb_list].
  - by apply NoDup_filter.
  - intros x. rewrite list_elem_of_filter, di_dom0. split.
    + intros [Hx [dx Ex]]. exists dx. by apply Hd.
    + intros [dx Ex]. apply Hd in Ex as [Hx Ex]. split; [done|by eexists].
  - intros x dx Ex. apply Hd in Ex as [Hx Ex]. destruct (di_dev0 x dx Ex) as [S1 S2 S3 (q0 & b0 & Eq & Eb & S4)]. split; [done..|].
    exists q0, b0. cbn. rewrite lookup_delete_ne; [done|]. intros ->. apply Hx. apply (Inj x dx); [done|done|congruence].
  - intros p1 p2 d1 d2 E1 E2. apply Hd in E1 as [_ E1], E2 as [_ E2]. by eapply di_names0.
  - assert (F : Forall2 (fun x y => (exists dx, w_devs w !! x = Some dx /\ d_sb dx = Some y)) (filter (fun x => x <> p) (w_list w)) (filter (fun x => x <> q) (sb_list (w_host w)))).
    { apply (Forall2_filter (fun x y => exists dx, w_devs w !! x = Some dx /\ d_sb dx = Some y)); [|done].
      intros x y (dx & Ex & Ey). split; intros Hn ->; apply Hn; [apply (Inj x dx); [done|done|congruence]|congruence]. }
    assert (G : Forall (fun x => x <> p) (filter (fun x => x <> p) (w_list w))).
    { apply Forall_forall. intros x Hx. by apply list_elem_of_filter in Hx as [? _]. }
    eapply Forall2_impl; [apply (Forall2_with_l _ _ _ _ F G)|]. intros x y [Hx (dx & Ex & Ey)]. exists dx. by rewrite lookup_delete_ne.
  - intros x. rewrite list_elem_of_filter, <- di_sbo0. unfold is_Some. setoid_rewrite lookup_delete_Some. naive_solver.
  - destruct di_listed0 as [L1 L2 L3]. split; cbn [with_sbo with_list sbo sb_list].
    + by apply NoDup_filter.
    + intros x [Hx Hin]%list_elem_of_filter. rewrite lookup_delete_ne by done. by apply L2.
    + intros p1 p2 o [_ H1']%list_elem_of_filter [_ H2']%list_elem_of_filter (b1 & E1 & O1) (b2 & E2 & O2).
      cbn [with_sbo with_list sbo] in E1, E2. apply lookup_delete_Some in E1 as [_ E1], E2 as [_ E2]. eapply L3; [done|done|by exists b1|by exists b2].
Qed.

Lemma ends_remove name w : dev_inv w -> ends (nkfs_dev_remove e ctx name) w (fun r w' => dev_inv w' /\
  (r = 0 /\ (exists p d q, w_devs w !! p = Some d /\ d_name d = name /\ d_sb d = Some q /\ gone w p q (filter (fun x => x <> p) (w_list w)) w') \/
   r = - ENOENT /\ w' = w /\ forall p d, w_devs w !! p = Some d -> d_name d <> name)).
Proof.
  intros I. unfold nkfs_dev_remove, nkfs_dev_lookup_unlink. apply ends_bind, ends_bind, ends_gets, ends_bind, ends_by_name.
  - intros p d Hp Ed Hn. apply ends_bind, ends_modify, ends_ret. destruct (di_dev _ I p d Ed) as [S1 _ _ (q & b & Eq & Eb & Rb & _)].
    set (w1 := with_dlist _ w). assert (Hk : ends (do* nkfs_dev_stop e ctx p in do* nkfs_dev_release p in do* ret tt in do* nkfs_dev_deref p in ret 0) w1
      (fun r w' => r = 0 /\ gone w p q (filter (fun x => x <> p) (w_list w)) w')).
    { apply (ends_take_down p d q b w1 (ret tt) (fun l => l)); try done; [intros w0 Q HQ; apply ends_ret; by destruct w0|].
      intros w' G. apply ends_ret. split; [done|]. exact G. }
    intros r w' E. apply Hk in E as [-> G]. split; [by eapply inv_gone|]. left. split; [done|]. by exists p, d, q.
  - intros Hn. apply ends_ret, ends_ret. split; [done|]. right. split; [done|]. split; [done|]. intros p d Ed. apply (Hn p); [|done].
    apply (di_dom _ I). by eexists.
Qed.

(** ** Asking, and the end *)

Lemma ends_query name w : dev_inv w -> ends (nkfs_dev_query name) w (fun r w' => w' = w /\
  match r with
  | inl err => err = - ENOENT /\ forall p d, w_devs w !! p = Some d -> d_name d <> name
  | inr info => exists p d q b, w_devs w !! p = Some d /\ d_name d = name /\ d_sb d = Some q /\ sbo (w_host w) !! q = Some b /\
      inf_sb_id info = Super.id (sb_hdr b) /\ inf_size info = Super.size (sb_hdr b) /\ inf_used_blocks info = u64 (st_count (Inode.st (sb_in b)))
  end).
Proof.
  intros I. unfold nkfs_dev_query, nkfs_dev_lookup. apply ends_bind, ends_bind, ends_gets, ends_bind, ends_by_name.
  - intros p d Hp Ed Hn. destruct (di_dev _ I p d Ed) as [S1 _ _ (q & b & Eq & Eb & _)].
    apply ends_bind, ends_upd_dev. intros d0 E0. rewrite Ed in E0. injection E0 as <-. apply ends_ret.
    apply ends_bind, ends_get_dev. cbn [with_devs w_devs]. rewrite lookup_insert_eq. intros d0 [= <-]. cbn [set_ref d_sb]. rewrite Eq.
    apply ends_bind, ends_bind, ends_on_host, ends_get. intros b0 E0. cbn [with_devs w_host] in E0. rewrite Eb in E0. injection E0 as <-. apply ends_ret.
    unfold nkfs_dev_deref. apply ends_bind, ends_bind, ends_get_dev. cbn [with_host with_devs w_devs]. rewrite lookup_insert_eq. intros d0 [= <-].
    apply ends_bind, ends_bug_on. intros _. apply ends_bind, ends_upd_dev. cbn [with_host with_devs w_devs]. rewrite lookup_insert_eq. intros d0 [= <-].
    cbn [set_ref d_ref]. rewrite S1. cbn [Z.sub Z.add Z.opp Z.pos_sub Z.eqb Pos.add]. apply ends_ret, ends_ret. split; [|by exists p, d, q, b].
    cbn [with_host with_devs w_host w_devs]. rewrite insert_insert_eq, insert_id; [by destruct w|]. rewrite Ed. destruct d. cbn in *. by subst.
  - intros Hn. apply ends_ret, ends_ret. split; [done|]. split; [done|]. intros p d Ed. apply (Hn p); [|done]. apply (di_dom _ I). by eexists.
Qed.

Lemma ends_release_all w : dev_inv w -> ends (nkfs_dev_release_all e ctx) w (fun _ w' => dev_inv w' /\ w_list w' = [] /\ w_devs w' = ∅ /\ sbo (w_host w') = ∅).
Proof.
  intros I. unfold nkfs_dev_release_all. apply ends_bind, ends_gets. remember (w_list w) as l eqn:El. revert w I El.
  induction l as [|p l IH]; intros w I El; cbn [release_all].
  - apply ends_ret. split; [done|]. split; [done|]. split; apply map_eq; intros x; rewrite lookup_empty; apply eq_None_not_Some.
    + rewrite <- (di_dom _ I), <- El. by intros ?%elem_of_nil.
    + rewrite (di_sbo _ I). pose proof (di_sbs _ I) as F. rewrite <- El in F. apply Forall2_nil_inv_l in F as ->. by intros ?%elem_of_nil.
  - assert (Hp : is_Some (w_devs w !! p)) by (apply (di_dom _ I); rewrite <- El; by left). destruct Hp as [d Ed].
    destruct (di_dev _ I p d Ed) as [S1 _ _ (q & b & Eq & Eb & Rb & _)].
    apply (ends_take_down p d q b w (nkfs_dev_unlink p) (filter (fun x => x <> p))); try done; [intros w0 Q HQ; by apply ends_modify|].
    intros w' G. apply IH; [by eapply inv_gone|]. rewrite G. cbn [w_list]. rewrite <- El.
    pose proof (di_nodup _ I) as N. rewrite <- El in N. apply NoDup_cons in N as [N _].
    rewrite (filter_cons_False (fun x => x <> p)) by (intros Hx; by apply Hx). by rewrite filter_other.
Qed.

End Spec.

End DevSpec.

(** * Devices: what is promised *)

Import XXHash Bytes StMonad Csum ObjId SbList SbListSpec SbListClaims SbFormat Dev DevSpec.

Module DevClaims.

Section Claims.
Context {T St : Type} `{ImageStore T St}.
Context (e : XXH_endianess) (ctx : csum_ctx).
Context (blkdev_get_by_path : list byte -> option (block_device St)).

Local Abbreviation world := (Dev.world T St).
Local Abbreviation nkfs_dev := (Dev.nkfs_dev T St).
Local Abbreviation host := (SbList.host T St).

(** The module when it was loaded; [lf] and [mf] say which allocations fail. *)
Definition boot (lf mf : nat -> bool) : world := World (Host ∅ [] lf 0) ∅ [] mf 0.

(** A request that was served: one on devices, or one on objects. *)
Inductive step : world -> world -> Prop :=
| step_add name format rnd r w w' : nkfs_dev_add e ctx blkdev_get_by_path name format rnd w = Done r w' -> step w w'
| step_remove name r w w' : nkfs_dev_remove e ctx name w = Done r w' -> step w w'
| step_query name r w w' : nkfs_dev_query name w = Done r w' -> step w w'
| step_finit r w w' : nkfs_dev_release_all e ctx w = Done r w' -> step w w'
| step_get o off pg_off len pages r w w' : on_host (nkfs_sb_list_get_obj e ctx o off pg_off len pages) w = Done r w' -> step w w'
| step_put o off pg_off len pages r w w' : on_host (nkfs_sb_list_put_obj e ctx o off pg_off len pages) w = Done r w' -> step w w'
| step_delete o r w w' : on_host (nkfs_sb_list_delete_obj e ctx o) w = Done r w' -> step w w'
| step_query_obj o r w w' : on_host (nkfs_sb_list_query_obj e ctx o) w = Done r w' -> step w w'
| step_create rnd r w w' : on_host (nkfs_sb_list_create_obj e ctx rnd) w = Done r w' -> step w w'.

Lemma inv_held (w : world) : dev_inv w -> all_held (w_host w).
Proof.
  intros I q b Eb. assert (Hq : q ∈ sb_list (w_host w)) by (apply (di_sbo _ I); by eexists).
  apply list_elem_of_lookup in Hq as [i Hi]. destruct (Forall2_lookup_r _ _ _ _ _ (di_sbs _ I) Hi) as (p & _ & d & Ed & Es).
  destruct (di_dev _ I p d Ed) as [_ _ _ (q' & b' & Eq & Eb' & R & _)]. replace q' with q in * by congruence. replace b' with b in * by congruence. lia.
Qed.

Lemma inv_books (w : world) (h : host) : dev_inv w -> books (fun _ => 0) (w_host w) h -> dev_inv (with_host h w).
Proof.
  intros [] [L B]. assert (Hin : forall q, is_Some (sbo h !! q) <-> is_Some (sbo (w_host w) !! q)).
  { intros q. specialize (B q). destruct (sbo (w_host w) !! q), (sbo h !! q); try done. }
  assert (Hid : forall q o, has_id h q o <-> has_id (w_host w) q o).
  { intros q o. specialize (B q). unfold has_id. destruct (sbo (w_host w) !! q) as [b|], (sbo h !! q) as [b'|]; try done.
    destruct B as (Eh & _). split; intros (x & [= <-] & <-); eexists; (split; [done|]); by rewrite Eh. }
  split; cbn [with_host w_list w_devs w_host]; rewrite ?L; try done.
  - intros p d Ed. destruct (di_dev0 p d Ed) as [S1 S2 S3 (q & b & Eq & Eb & R & S & N)]. split; [done..|]. specialize (B q). rewrite Eb in B.
    cbn. destruct (sbo h !! q) as [b'|] eqn:Eb'; [|done]. destruct B as (_ & R' & S' & N'). exists q, b'. split_and!; [done..|lia|congruence|congruence].
  - intros q. by rewrite Hin.
  - destruct di_listed0 as [L1 L2 L3]. split; rewrite ?L; [done|intros p Hp; by apply Hin, L2|].
    intros p q o Hp Hq Ip Iq. apply (L3 p q o); [done|done|by apply Hid|by apply Hid].
Qed.

Lemma inv_host {A} (m : StMonad.M host A) (w : world) r w' : dev_inv w -> ends m (w_host w) (fun _ => books (fun _ => 0) (w_host w)) -> on_host m w = Done r w' -> dev_inv w'.
Proof. intros I Hm E. revert E. apply (ends_on_host m w (fun _ w' => dev_inv w')). eapply ends_mono; [exact Hm|]. intros a h B. by apply inv_books. Qed.

Lemma step_inv w w' : step w w' -> dev_inv w -> dev_inv w'.
Proof.
  intros S I. pose proof (inv_held w I) as Hh. destruct S as
    [name format rnd r w w' E|name r w w' E|name r w w' E|r w w' E|o off pg_off len pages r w w' E|o off pg_off len pages r w w' E|o r w w' E|o r w w' E|rnd r w w' E].
  - by apply ends_add in E as [? _].
  - by apply ends_remove in E as [? _].
  - by apply ends_query in E as [-> _].
  - by apply ends_release_all in E as [? _].
  - eapply (inv_host _ _ _ _ I); [|exact E]. by apply ends_list_op, quiet_get_obj.
  - eapply (inv_host _ _ _ _ I); [|exact E]. by apply ends_list_op, quiet_as_err, quiet_put_obj.
  - eapply (inv_host _ _ _ _ I); [|exact E]. by apply ends_list_op, quiet_as_err, quiet_delete_obj.
  - eapply (inv_host _ _ _ _ I); [|exact E]. by apply ends_list_op, quiet_query_obj.
  - eapply (inv_host _ _ _ _ I); [|exact E]. by apply ends_create.
Qed.

Lemma boot_inv lf mf : dev_inv (boot lf mf).
Proof.
  split; cbn [boot w_list w_devs w_host sbo sb_list].
  - constructor.
  - intros p. rewrite lookup_empty. split; [by intros ?%elem_of_nil|by intros []].
  - intros p d E. by rewrite lookup_empty in E.
  - intros p1 p2 d1 d2 E. by rewrite lookup_empty in E.
  - constructor.
  - intros q. rewrite lookup_empty. split; [by intros []|by intros ?%elem_of_nil].
  - split; cbn; [constructor|by intros p ?%elem_of_nil|by intros p q o ?%elem_of_nil].
Qed.

(** (C16) However requests follow one another after the module is loaded, adding, removing and asking for
    devices and the operations on objects, between requests devices and superblocks are in step: each
    device of the list has one reference, an open block device and a superblock of its own, which is in the
    list of superblocks in the same place with one reference and is not stopping; device names and
    superblock ids are unique; no other device or superblock is left in memory. *)
Theorem nkfs_dev_world_invariant lf mf w : rtc step (boot lf mf) w -> dev_inv w.
Proof. pose proof (boot_inv lf mf) as I. revert I. generalize (boot lf mf). intros w0 I R. induction R as [|w0 w1 w2 S _ IH]; [done|]. apply IH. by eapply step_inv. Qed.

(** (C24) Adding a device is all or nothing.  When [nkfs_dev_add] returns 0 the device and its superblock
    are at the end of their lists and nothing else changed; when it returns an error (no such block device, no
    memory, a name or an id that is taken, an image that cannot be made or opened) the devices and
    superblocks of the host are those it had.  [nkfs_dev_remove] undoes one entry of each or reports
    [-ENOENT]. *)
Theorem nkfs_dev_add_all_or_nothing name format rnd w : dev_inv w ->
  (forall r w', nkfs_dev_add e ctx blkdev_get_by_path name format rnd w = Done r w' ->
     r = 0 /\ added w name w' \/ r <> 0 /\ w_host w' = w_host w /\ w_devs w' = w_devs w /\ w_list w' = w_list w) /\
  (forall r w', nkfs_dev_remove e ctx name w = Done r w' ->
     r = 0 /\ (exists p d q, w_devs w !! p = Some d /\ d_name d = name /\ d_sb d = Some q /\ gone w p q (filter (fun x => x <> p) (w_list w)) w') \/
     r = - ENOENT /\ w' = w /\ forall p d, w_devs w !! p = Some d -> d_name d <> name).
Proof.
  intros I. split; intros r w' E; [|by apply ends_remove in E as [_ ?]].
  apply ends_add in E as [_ [?|(Hr & n & ->)]]; [by left| |done]. by right.
Qed.

(** A device is in the list before it is started: removing it in between, which nothing prevents
    while another thread is in [nkfs_dev_add], uses the superblock it does not have yet. *)
Theorem nkfs_dev_remove_unstarted_crashes name p d w : dev_inv w -> (forall p0 d0, w_devs w !! p0 = Some d0 -> d_name d0 <> name) ->
  fresh_dev w name p d ->
  exists w', nkfs_dev_insert p (with_devs (<[p := d]> (w_devs w)) w) = Done 0 w' /\ nkfs_dev_remove e ctx name w' = Crash.
Proof.
  intros I Hnm [F1 F2 F3 F4 F5 F6]. set (w1 := with_devs _ w). assert (E1 : w_devs w1 !! p = Some d) by (cbn; apply lookup_insert_eq).
  assert (Hl : forall w2, w_devs w2 = w_devs w1 -> forall l, (forall x, x ∈ l -> x ∈ w_list w) ->
    by_name name l w2 = Done None w2 /\ by_name name (l ++ [p]) w2 = Done (Some p) w2).
  { intros w2 E2 l. induction l as [|x l IH]; intros Hin; cbn [by_name app]; unfold bind, get_dev, ret; rewrite E2.
    - split; [done|]. rewrite E1. by rewrite bool_decide_eq_true_2.
    - assert (Hx : x ∈ w_list w) by (apply Hin; by left). apply (di_dom _ I) in Hx as [dx Ex].
      assert (Ex1 : w_devs w1 !! x = Some dx) by (cbn; rewrite lookup_insert_ne by congruence; done). rewrite Ex1.
      rewrite bool_decide_eq_false_2 by (by apply (Hnm x)). apply IH. intros y Hy. apply Hin. by right. }
  exists (with_dlist (w_list w ++ [p]) w1). split.
  - unfold nkfs_dev_insert, bind, gets, ret, modify, get_dev. rewrite E1, F6. change (w_list w1) with (w_list w).
    destruct (Hl w1 eq_refl (w_list w) ltac:(done)) as [-> _]. done.
  - unfold nkfs_dev_remove, nkfs_dev_lookup_unlink, bind, gets, ret. cbn [with_dlist w_list].
    destruct (Hl (with_dlist (w_list w ++ [p]) w1) eq_refl (w_list w) ltac:(done)) as [_ ->].
    unfold nkfs_dev_unlink, modify, nkfs_dev_stop, upd_dev, get_dev, bind, modify. cbn [with_dlist w_devs]. rewrite E1.
    cbn [with_devs with_dlist w_devs]. rewrite lookup_insert_eq. cbn [set_stop d_sb]. by rewrite F5.
Qed.

End Claims.

End DevClaims.
