(* ===== verification/CtlSpec.v ===== *)
(** * What the control program asks is what the module does

    The structures of the control device keep what is put into them, a call of the
    control library is the call of the module, and the module comes up as a
    whole or not at all. *)

From Stdlib Require Import ZArith Lia.
From coqutil Require Import Byte.
From stdpp Require Import base list gmap.
From S2P Require Import Prelude XXHash Bytes StMonad Csum DioPages Dio DioClient Mem CharHex ObjId NetPkt Upages Sock Super BtreeNode BtreeDisk BlockTree.
From S2P Require Import Inode SbList SbFormat SbListSpec Route Servers Net NetSpec Client ClientSpec ClientTool ClientToolSpec Dev DevSpec Ctl.
Import XXHash Bytes StMonad Csum Mem CharHex ObjId Libc Ctl.
Import ClientSpec ClientToolSpec.
Local Open Scope Z_scope.
Local Open Scope stm_scope.

Module CtlSpec.

(** ** The structures *)

(** A field of a structure by its number. *)
Lemma field_nth {A} i off len (fs : list (list A)) f : fs !! i = Some f -> length (concat (take i fs)) = off -> length f = len -> field off len (concat fs) = f.
Proof. intros E Ho Hl. rewrite <- (take_drop_middle fs i f E). by apply field_concat. Qed.

Lemma field_copied {A} (l b : list A) o n : length b = n -> (o + n <= length l)%nat -> field o n (memcpy_at l o b) = b.
Proof. intros <-. apply field_memcpy. Qed.

Lemma c_str_app s l : no_zero s -> c_str (s ++ Init.Byte.x00 :: l) = s.
Proof. induction 1 as [|b s Hb Hs IH]; [done|]. cbn [app c_str]. rewrite (proj2 (Z.eqb_neq _ _) Hb). by rewrite IH. Qed.

(** A name that fits. *)
Definition name_ok (s : list byte) : Prop := no_zero s /\ (length s < SbList.NKFS_NAME_MAX_SZ)%nat.

Lemma name_bytes_length s : length (name_bytes s) = 256%nat.
Proof. unfold name_bytes, SbList.NKFS_NAME_MAX_SZ. rewrite length_app, length_replicate, length_take. lia. Qed.

Lemma name_bytes_split s : name_ok s -> exists l, name_bytes s = s ++ Init.Byte.x00 :: l.
Proof.
  intros [_ Hl]. unfold name_bytes. unfold SbList.NKFS_NAME_MAX_SZ in *. rewrite take_ge by lia.
  destruct (256 - length s)%nat as [|n] eqn:E; [lia|]. exists (replicate n Init.Byte.x00). done.
Qed.

Lemma c_str_name s l : name_ok s -> c_str (name_bytes s ++ l) = s.
Proof. intros Hs. destruct (name_bytes_split s Hs) as [l' ->]. rewrite <- app_assoc. apply c_str_app, Hs. Qed.

Section Layout.
Context (e : XXH_endianess).

Lemma int_bytes_length x : length (int_bytes e x) = 4%nat.
Proof. apply store_length. Qed.

Lemma load_int x : is_int x -> s32 (load e (int_bytes e x)) = x.
Proof. intros Hx. unfold int_bytes. rewrite load_store by (apply wrap_bounds; lia). by apply NetSpec.s32_u32. Qed.

(** The fields of a command, behind the word of the error. *)
Definition parts (fs : list (list byte)) : list (list byte) :=
  replicate 4 Init.Byte.x00 :: fs ++ [replicate (1540 - length (concat fs)) Init.Byte.x00].

Lemma ctl_cmd_parts fs : (length (concat fs) <= 1540)%nat -> ctl_cmd fs = concat (parts fs).
Proof.
  intros Hl. unfold ctl_cmd, parts, memcpy_at, CTL_SIZE. cbn [concat]. rewrite concat_app, take_replicate, drop_replicate. cbn [concat]. rewrite app_nil_r.
  by replace (1544 - (4 + length (concat fs)))%nat with (1540 - length (concat fs))%nat by lia.
Qed.

Lemma ctl_cmd_length fs : (length (concat fs) <= 1540)%nat -> length (ctl_cmd fs) = CTL_SIZE.
Proof. intros Hl. unfold ctl_cmd. rewrite memcpy_at_length; rewrite length_replicate; [done|]. unfold CTL_SIZE. lia. Qed.

Record dev_info_wf (i : Dev.nkfs_dev_info) : Prop := {
  iw_id : id_wf (Dev.inf_sb_id i);
  iw_name : name_ok (Dev.inf_dev_name i);
  iw_long : Forall (fun x => 0 <= x < 2 ^ 64) [Dev.inf_size i; Dev.inf_used_size i; Dev.inf_free_size i; Dev.inf_blocks i; Dev.inf_used_blocks i;
    Dev.inf_inodes_tree_block i; Dev.inf_bm_block i; Dev.inf_bm_blocks i];
  iw_int : Forall (fun x => 0 <= x < 2 ^ 32) [Dev.inf_bsize i; Dev.inf_major i; Dev.inf_minor i]
}.

Lemma dev_info_length i : length (dev_info_bytes e i) = 348%nat.
Proof. unfold dev_info_bytes. cbn [concat]. by rewrite !length_app, NetSpec.id_bytes_length, name_bytes_length, !store_length. Qed.

(** Reads the [i]-th field of a structure. *)
Local Ltac read_field i := unfold long_at, Route.u32_at, Route.int_at;
  erewrite (field_nth i); [|reflexivity|cbn [take concat]; rewrite ?length_app, ?store_length, ?NetSpec.id_bytes_length, ?name_bytes_length; reflexivity
    |rewrite ?store_length, ?name_bytes_length; reflexivity].

Lemma dev_info_round_trip i : dev_info_wf i -> dev_info_of e (dev_info_bytes e i) = i.
Proof.
  intros [Hi Hn Hl Hw]. rewrite !Forall_cons in Hl. rewrite !Forall_cons in Hw. destruct Hl as (? & ? & ? & ? & ? & ? & ? & ? & _), Hw as (? & ? & ? & _).
  unfold dev_info_of. destruct i as [o n s us fs bl ub it bb bs bz mj mn]; cbn [Dev.inf_sb_id Dev.inf_dev_name Dev.inf_size Dev.inf_used_size Dev.inf_free_size
    Dev.inf_blocks Dev.inf_used_blocks Dev.inf_inodes_tree_block Dev.inf_bm_block Dev.inf_bm_blocks Dev.inf_bsize Dev.inf_major Dev.inf_minor] in *.
  assert (Ei : Route.id_at e 0 (dev_info_bytes e (Dev.DevInfo o n s us fs bl ub it bb bs bz mj mn)) = o) by (by apply (id_at_bytes e o 0 [])).
  rewrite Ei. unfold dev_info_bytes. f_equal.
  - read_field 1%nat. rewrite <- (app_nil_r (name_bytes _)). by apply c_str_name.
  - read_field 2%nat. by apply load_store.
  - read_field 3%nat. by apply load_store.
  - read_field 4%nat. by apply load_store.
  - read_field 5%nat. by apply load_store.
  - read_field 6%nat. by apply load_store.
  - read_field 7%nat. by apply load_store.
  - read_field 8%nat. by apply load_store.
  - read_field 9%nat. by apply load_store.
  - read_field 10%nat. by apply load_store.
  - read_field 11%nat. by apply load_store.
  - read_field 12%nat. by apply load_store.
Qed.

Record neigh_info_wf (i : Route.nkfs_neigh_info) : Prop := {
  nw_ip : 0 <= Route.i_ip i < 2 ^ 32;
  nw_port : is_int (Route.i_port i);
  nw_id : id_wf (Route.i_host_id i);
  nw_long : Forall (fun x => 0 <= x < 2 ^ 64) [Route.i_state i; Route.i_hbt_time i; Route.i_hbt_delay i]
}.

Lemma neigh_info_length i : length (neigh_info_bytes e i) = 48%nat.
Proof. unfold neigh_info_bytes. cbn [concat]. by rewrite !length_app, NetSpec.id_bytes_length, int_bytes_length, !store_length. Qed.

Lemma neigh_info_round_trip i : neigh_info_wf i -> neigh_info_of e (neigh_info_bytes e i) = i.
Proof.
  intros [Hp Hq Hi Hl]. rewrite !Forall_cons in Hl. destruct Hl as (? & ? & ? & _). unfold neigh_info_of.
  destruct i as [ip port st o t d]; cbn [Route.i_ip Route.i_port Route.i_host_id Route.i_state Route.i_hbt_time Route.i_hbt_delay] in *.
  assert (Ei : Route.id_at e 16 (neigh_info_bytes e (Route.NeighInfo ip port st o t d)) = o).
  { assert (E : neigh_info_bytes e (Route.NeighInfo ip port st o t d) = (store e 4 ip ++ int_bytes e port ++ store e 8 st) ++ Route.id_bytes e o ++ store e 8 t ++ store e 8 d ++ []).
    { unfold neigh_info_bytes. cbn [concat]. by rewrite <- !app_assoc. }
    rewrite E. apply id_at_bytes; [done|]. by rewrite !length_app, int_bytes_length, !store_length. }
  rewrite Ei. unfold neigh_info_bytes, int_bytes. f_equal.
  - read_field 0%nat. by apply load_store.
  - read_field 1%nat. by apply load_int.
  - read_field 2%nat. by apply load_store.
  - read_field 4%nat. by apply load_store.
  - read_field 5%nat. by apply load_store.
Qed.

(** An array of structures of the same size. *)
Lemma chunks {A B} (f : B -> list A) n (l : list B) (pre post : list A) : (forall x, length (f x) = n) ->
  map (fun i => field (length pre + n * i) n (pre ++ concat (map f l) ++ post)) (seq 0 (length l)) = map f l.
Proof.
  intros Hf. revert pre. induction l as [|x l IH]; intros pre; [done|]. cbn [length seq map concat]. f_equal.
  - unfold field. rewrite Nat.mul_0_r, Nat.add_0_r, drop_app_length, <- app_assoc. by rewrite <- (Hf x), take_app_length.
  - rewrite <- seq_shift, map_map. specialize (IH (pre ++ f x)). rewrite length_app, Hf, <- !app_assoc in IH.
    etransitivity; [|exact IH]. apply map_ext. intros i. rewrite <- !app_assoc. by replace (length pre + n * S i)%nat with (length pre + n + n * i)%nat by lia.
Qed.

End Layout.

(** ** Calls *)

Record calm_kernel (k : kenv) : Prop := {
  ck_malloc : forall t, kmalloc_err k t = false;
  ck_from : forall t, from_err k t = false;
  ck_to : forall t, to_err k t = false;
  ck_open : forall t, open_err k t = None;
  ck_mod : forall t, mod_err k t = false
}.

Section Calls.
Context {T St : Type} `{ImageStore T St}.
Context (e : XXH_endianess) (ctx : csum_ctx) (blkdev_get_by_path : list byte -> option (Dev.block_device St)).
Context (k : kenv) (Hk : calm_kernel k).

Local Abbreviation machine := (Ctl.machine T St).

(** The machine with these parts; all else is as it was. *)
Definition became (d : Dev.world T St) (l : list Servers.nkfs_server) (h : option Route.nkfs_host) (m m' : machine) : Prop :=
  m_dev m' = d /\ m_servers m' = l /\ m_route m' = h /\ m_dio m' = m_dio m /\ m_misc m' = m_misc m /\ m_ref m' = m_ref m.

Lemma spec_mcall {A} (f : nat -> A) (m : machine) (Q : A -> machine -> Prop) : Q (f (m_tick m)) (set_mtick (S (m_tick m)) m) -> spec (kcall f) m Q.
Proof. done. Qed.

Lemma spec_ctl_call code cmd (m : machine) (Q : Z * list byte -> machine -> Prop) : m_misc m = true ->
  spec (switch e ctx blkdev_get_by_path k code cmd) (set_mtick (4 + m_tick m) (set_mref (m_ref m + 1) m)) (fun r m' =>
    is_int (fst r) /\ (4 <= length (snd r))%nat /\ forall t, Q (fst r, memcpy_at (snd r) 0 (int_bytes e (fst r))) (set_mref (m_ref m' - 1) (set_mtick t m'))) ->
  spec (ctl_call e ctx blkdev_get_by_path k code cmd) m Q.
Proof.
  intros Hm Hs. unfold ctl_call, nkfs_ctl_open. apply spec_bind, spec_bind, spec_mcall. rewrite (ck_open _ Hk). apply spec_bind, spec_gets. cbn [m_misc set_mtick]. rewrite Hm.
  cbn [negb]. unfold nkfs_mod_get. apply spec_bind, spec_bind, spec_mcall. rewrite (ck_mod _ Hk). apply spec_bind, spec_modify, spec_ret, spec_ret. cbn [Z.opp Z.eqb negb].
  apply spec_bind. unfold ioctl, nkfs_ioctl. apply spec_bind, spec_bind, spec_mcall. rewrite (ck_malloc _ Hk). apply spec_bind, spec_mcall. rewrite (ck_from _ Hk).
  apply spec_bind. eapply spec_mono; [exact Hs|]. intros [r c] m1 (Hi & Hl & HQ). cbn [fst snd] in *. apply spec_bind, spec_mcall. rewrite (ck_to _ Hk).
  apply spec_ret, spec_ret. cbn [fst snd Z.ltb Z.eqb negb]. apply spec_bind. unfold nkfs_mod_put. apply spec_bind, spec_modify, spec_ret, spec_ret.
  assert (E : Route.int_at e 0 (memcpy_at c 0 (int_bytes e r)) = r).
  { unfold Route.int_at. rewrite field_copied by (rewrite ?int_bytes_length; lia). by apply load_int. }
  cbn in *. rewrite E. apply HQ.
Qed.

Lemma ctl_cmd_name name fs : name_ok name -> (length (concat fs) <= 1284)%nat -> c_str (drop 4 (ctl_cmd (name_bytes name :: fs))) = name.
Proof.
  intros Hn Hl. rewrite ctl_cmd_parts by (cbn [concat]; rewrite length_app, name_bytes_length; lia). unfold parts. cbn [concat app].
  rewrite (drop_app_length' (replicate 4 _)) by done. by apply c_str_name.
Qed.

Lemma spec_dev_name name fs (m : machine) (Q : list byte -> machine -> Prop) : name_ok name -> (length (concat fs) <= 1284)%nat -> Q name m ->
  spec (dev_name (ctl_cmd (name_bytes name :: fs))) m Q.
Proof.
  intros Hn Hl HQ. unfold dev_name. rewrite ctl_cmd_name by done. rewrite length_drop, ctl_cmd_length by (cbn [concat]; rewrite length_app, name_bytes_length; lia).
  destruct Hn as [_ Hn]. unfold CTL_SIZE. unfold SbList.NKFS_NAME_MAX_SZ in Hn. rewrite (proj2 (Nat.leb_gt _ _)) by lia. by apply spec_ret.
Qed.

Lemma spec_on_dev {A} (x : StMonad.M (Dev.world T St) A) (m : machine) a d (Q : A -> machine -> Prop) : x (m_dev m) = Done a d -> Q a (set_dev d m) -> spec (on_dev x) m Q.
Proof. intros E. unfold spec, on_dev. by rewrite E. Qed.

Lemma spec_on_route {A} (x : Route.M A) (m : machine) h a h' (Q : A -> machine -> Prop) : m_route m = Some h -> x h = Done a h' -> Q a (set_route (Some h') m) -> spec (on_route x) m Q.
Proof. intros E1 E2. unfold spec, on_route. by rewrite E1, E2. Qed.

Lemma spec_on_servers f (m : machine) r l (Q : Z -> machine -> Prop) : f (m_servers m) = (r, l) -> Q r (set_servers l m) -> spec (on_servers f) m Q.
Proof. intros E. unfold spec, on_servers. by rewrite E. Qed.

(** The command of a library call: the fields it was given. *)
Lemma ctl_cmd_field i off len fs f : (length (concat fs) <= 1540)%nat -> fs !! i = Some f -> (4 + length (concat (take i fs)))%nat = off -> length f = len ->
  field off len (ctl_cmd fs) = f.
Proof.
  intros Hl Ei Ho Hf. rewrite ctl_cmd_parts by done. apply (field_nth (S i)); [|unfold parts; cbn [take concat]|done].
  - cbn. by apply lookup_app_l_Some.
  - rewrite take_app_le by (apply lookup_lt_Some in Ei; lia). by rewrite length_app, length_replicate.
Qed.

Local Ltac cmd_len := cbn [concat take]; rewrite ?length_app, ?int_bytes_length, ?store_length, ?name_bytes_length; cbn [length]; lia.
Local Ltac cmd_field i := unfold Route.u32_at, Route.int_at; erewrite (ctl_cmd_field i); [|cmd_len|reflexivity|cmd_len|rewrite ?int_bytes_length, ?store_length; reflexivity].
Local Ltac enter := apply spec_bind, spec_ctl_call; [done|]; unfold switch;
  repeat match goal with |- context [Z.eqb ?a ?b] => is_const a; is_const b; let v := eval vm_compute in (Z.eqb a b) in change (Z.eqb a b) with v end; cbv iota.
Local Ltac finish := apply spec_ret; cbn [fst snd]; split; [done|split; [rewrite ctl_cmd_length by cmd_len; unfold CTL_SIZE; lia|]];
  intros ?; apply spec_ret; cbn [fst]; split; [done|]; split_and!; try done; cbn; lia.

Lemma spec_add (m : machine) name format r d : m_misc m = true -> name_ok name -> is_int format -> is_int r ->
  Dev.nkfs_dev_add e ctx blkdev_get_by_path name (negb (format =? 0)) (rnd k (4 + m_tick m)) (m_dev m) = Done r d ->
  spec (nkfs_dev_add e ctx blkdev_get_by_path k name format) m (fun r' m' => r' = r /\ became d (m_servers m) (m_route m) m m').
Proof.
  intros Hm Hn Hf Hr E. unfold nkfs_dev_add. enter. apply spec_bind, spec_dev_name; [done|cmd_len|]. apply spec_bind, spec_mcall.
  assert (Ef : Route.int_at e 260 (ctl_cmd [name_bytes name; int_bytes e format]) = format) by (cmd_field 1%nat; by apply load_int).
  rewrite Ef. apply spec_bind. eapply spec_on_dev; [exact E|]. finish.
Qed.

Lemma spec_rem (m : machine) name r d : m_misc m = true -> name_ok name -> is_int r -> Dev.nkfs_dev_remove e ctx name (m_dev m) = Done r d ->
  spec (nkfs_dev_rem e ctx blkdev_get_by_path k name) m (fun r' m' => r' = r /\ became d (m_servers m) (m_route m) m m').
Proof.
  intros Hm Hn Hr E. unfold nkfs_dev_rem. enter. apply spec_bind, spec_dev_name; [done|cmd_len|]. apply spec_bind. eapply spec_on_dev; [exact E|]. finish.
Qed.

(** What a query gives: the error, or a structure that reads as the answer. *)
Definition asked {A} (rd : list byte -> A) (r : Z + A) (x : Z + list byte) : Prop :=
  match r, x with
  | inl err, inl err' => err' = err
  | inr i, inr b => rd b = i
  | _, _ => False
  end.

Lemma spec_query (m : machine) name r d : m_misc m = true -> name_ok name -> (forall err, r = inl err -> is_int err /\ err <> 0) -> (forall i, r = inr i -> dev_info_wf i) ->
  Dev.nkfs_dev_query name (m_dev m) = Done r d ->
  spec (nkfs_dev_query e ctx blkdev_get_by_path k name) m (fun x m' => asked (dev_info_of e) r x /\ became d (m_servers m) (m_route m) m m').
Proof.
  intros Hm Hn Hr Hw E. unfold nkfs_dev_query. enter. apply spec_bind, spec_dev_name; [done|cmd_len|]. apply spec_bind. eapply spec_on_dev; [exact E|].
  set (cmd := ctl_cmd _). assert (Hl : length cmd = 1544%nat) by (apply ctl_cmd_length; cmd_len). apply spec_ret. destruct r as [err|i]; cbn [fst snd].
  - destruct (Hr err eq_refl) as [Hi Hz]. split; [done|]. split; [lia|]. intros t. apply spec_ret. cbn [fst]. rewrite (proj2 (Z.eqb_neq _ _) Hz). cbn [negb asked].
    split; [done|]. split_and!; try done. cbn. lia.
  - split; [split; lia|]. pose proof (dev_info_length e i) as Li. split; [rewrite memcpy_at_length by lia; lia|]. intros t. apply spec_ret. cbn [fst snd Z.eqb negb asked].
    split; [|split_and!; try done; cbn; lia]. rewrite field_memcpy_ne by (rewrite ?memcpy_at_length, int_bytes_length; lia).
    rewrite field_copied by lia. by apply dev_info_round_trip, Hw.
Qed.

Lemma spec_srv_start (m : machine) b x p r l : m_misc m = true -> 0 <= b < 2 ^ 32 -> 0 <= x < 2 ^ 32 -> is_int p -> is_int r -> let t := (4 + m_tick m)%nat in
  Servers.nkfs_server_start (srv_nomem k t) (srv_nothread k t) (srv_listen k t) b x p (m_servers m) = (r, l) ->
  spec (nkfs_server_start e ctx blkdev_get_by_path k b x p) m (fun r' m' => r' = r /\ became (m_dev m) l (m_route m) m m').
Proof.
  intros Hm Hb Hx Hp Hr t E. unfold nkfs_server_start. enter. apply spec_bind, spec_mcall. set (cmd := ctl_cmd _).
  assert (E1 : Route.u32_at e 4 cmd = b) by (unfold cmd; cmd_field 0%nat; by apply load_store).
  assert (E2 : Route.u32_at e 8 cmd = x) by (unfold cmd; cmd_field 1%nat; by apply load_store).
  assert (E3 : Route.int_at e 12 cmd = p) by (unfold cmd; cmd_field 2%nat; by apply load_int).
  rewrite E1, E2, E3. apply spec_bind. eapply spec_on_servers; [exact E|]. unfold cmd. finish.
Qed.

(** The calls with an address and a port. *)
Lemma cmd_place ip p : 0 <= ip < 2 ^ 32 -> is_int p -> let cmd := ctl_cmd [store e 4 ip; int_bytes e p] in Route.u32_at e 4 cmd = ip /\ Route.int_at e 8 cmd = p.
Proof. intros Hi Hp. split; [cmd_field 0%nat; by apply load_store|cmd_field 1%nat; by apply load_int]. Qed.

Lemma spec_srv_stop (m : machine) b p r l : m_misc m = true -> 0 <= b < 2 ^ 32 -> is_int p -> is_int r -> Servers.nkfs_server_stop b p (m_servers m) = (r, l) ->
  spec (nkfs_server_stop e ctx blkdev_get_by_path k b p) m (fun r' m' => r' = r /\ became (m_dev m) l (m_route m) m m').
Proof.
  intros Hm Hb Hp Hr E. unfold nkfs_server_stop. enter. destruct (cmd_place b p Hb Hp) as [E1 E2]. rewrite E1, E2. apply spec_bind. eapply spec_on_servers; [exact E|]. finish.
Qed.

Lemma spec_neigh_add (m : machine) h ip p r h' : m_misc m = true -> m_route m = Some h -> 0 <= ip < 2 ^ 32 -> is_int p -> is_int r -> Route.nkfs_route_neigh_add ip p h = Done r h' ->
  spec (nkfs_neigh_add e ctx blkdev_get_by_path k ip p) m (fun r' m' => r' = r /\ became (m_dev m) (m_servers m) (Some h') m m').
Proof.
  intros Hm Hh Hi Hp Hr E. unfold nkfs_neigh_add. enter. destruct (cmd_place ip p Hi Hp) as [E1 E2]. rewrite E1, E2. unfold neigh_add. apply spec_bind, spec_bind, spec_gets. cbn [m_route set_mtick set_mref]. rewrite Hh.
  eapply spec_on_route; [exact Hh|exact E|]. finish.
Qed.

Lemma spec_neigh_remove (m : machine) h ip p r h' : m_misc m = true -> m_route m = Some h -> 0 <= ip < 2 ^ 32 -> is_int p -> is_int r -> Route.nkfs_route_neigh_remove ip p h = Done r h' ->
  spec (nkfs_neigh_remove e ctx blkdev_get_by_path k ip p) m (fun r' m' => r' = r /\ became (m_dev m) (m_servers m) (Some h') m m').
Proof.
  intros Hm Hh Hi Hp Hr E. unfold nkfs_neigh_remove. enter. destruct (cmd_place ip p Hi Hp) as [E1 E2]. rewrite E1, E2. unfold neigh_remove. apply spec_bind, spec_bind, spec_gets. cbn [m_route set_mtick set_mref]. rewrite Hh.
  eapply spec_on_route; [exact Hh|exact E|]. finish.
Qed.

(** A neighbour more. *)
Lemma neigh_infos_cons max p l got h r h' : Z.of_nat (length got) < max -> Route.neigh_infos max (p :: l) got h = Done r h' ->
  exists i, Route.neigh_infos max l (got ++ [i]) h = Done r h'.
Proof.
  intros Hlt. cbn [Route.neigh_infos]. rewrite (proj2 (Z.leb_gt _ _)) by lia. unfold bind at 1, Route.get_neigh. destruct (Route.nobjs h !! p) as [n|]; [|done].
  unfold bind, Route.get_hid, ret. destruct (Route.n_hid n) as [q|]; [|intros E; eexists; exact E]. destruct (Route.hobjs h !! q); [intros E; eexists; exact E|done].
Qed.

(** The infos are those of all neighbours, no more than [max]. *)
Lemma neigh_infos_all max l : forall got h x h', Route.neigh_infos max l got h = Done (inr x) h' -> Z.of_nat (length got) <= max ->
  h' = h /\ length x = (length got + length l)%nat /\ Z.of_nat (length x) <= max.
Proof.
  induction l as [|p l IH]; intros got h x h' E Hg; [injection E as <- <-; cbn; split_and!; [done|lia|lia]|].
  destruct (Z.leb_spec max (Z.of_nat (length got))) as [Hle|Hlt]; [cbn [Route.neigh_infos] in E; by rewrite (proj2 (Z.leb_le _ _) Hle) in E|].
  destruct (neigh_infos_cons _ _ _ _ _ _ _ Hlt E) as [i E']. specialize (IH _ _ _ _ E'). rewrite length_app in IH. cbn in *. split_and!; [by apply IH; lia|rewrite (proj1 (proj2 (IH ltac:(lia)))); lia|by apply IH; lia].
Qed.

Lemma spec_neigh_info (m : machine) h x h' : m_misc m = true -> m_route m = Some h -> Forall neigh_info_wf x ->
  Route.nkfs_route_neigh_info NKFS_ROUTE_MAX_NEIGHS h = Done (inr x) h' ->
  spec (nkfs_neigh_info e ctx blkdev_get_by_path k NKFS_ROUTE_MAX_NEIGHS) m (fun r m' => (exists l, r = inr l /\ map (neigh_info_of e) l = x) /\
    became (m_dev m) (m_servers m) (Some h) m m').
Proof.
  intros Hm Hh Hx E. unfold Route.nkfs_route_neigh_info, bind at 1, gets in E. destruct (neigh_infos_all _ _ _ _ _ _ E ltac:(done)) as (-> & Hall & Hlen).
  unfold NKFS_ROUTE_MAX_NEIGHS in Hlen. cbn [length] in Hall.
  unfold nkfs_neigh_info. enter. set (cmd := ctl_cmd []). assert (Hl : length cmd = 1544%nat) by (apply ctl_cmd_length; cbn; lia).
  apply spec_bind. eapply spec_on_route; [exact Hh|exact E|]. apply spec_bind. unfold neigh_array. apply spec_bind.
  eapply (spec_on_route _ _ h (inr x) h); [done| |].
  { unfold bind at 1, gets. rewrite take_ge by (change (Z.to_nat NKFS_ROUTE_MAX_NEIGHS) with 32%nat; lia). exact E. }
  set (body := concat (map (neigh_info_bytes e) x)). assert (Lb : length body = (48 * length x)%nat).
  { unfold body. clear. induction x as [|i x IH]; [done|]. cbn [map concat]. rewrite length_app, neigh_info_length, IH. cbn [length]. lia. }
  apply spec_ret, spec_ret. cbn [fst snd]. set (c0 := memcpy_at cmd 4 (int_bytes e 0)). assert (L0 : length c0 = 1544%nat) by (unfold c0; rewrite memcpy_at_length; rewrite ?int_bytes_length; lia).
  set (c1 := memcpy_at c0 8 body). assert (L1 : length c1 = 1544%nat) by (unfold c1; rewrite memcpy_at_length; lia).
  set (c2 := memcpy_at c1 4 _). assert (L2 : length c2 = 1544%nat) by (unfold c2; rewrite memcpy_at_length; rewrite ?int_bytes_length; lia).
  split; [split; lia|]. split; [lia|]. intros t. cbn [Z.eqb negb fst snd]. set (c3 := memcpy_at c2 0 _).
  assert (En : Route.int_at e 4 c3 = Z.of_nat (length x)).
  { unfold Route.int_at, c3. rewrite field_memcpy_ne by (rewrite int_bytes_length; lia). unfold c2.
    rewrite field_copied by (rewrite ?int_bytes_length; lia). apply load_int. split; lia. }
  rewrite En, (proj2 (Z.ltb_ge _ _)) by (unfold NKFS_ROUTE_MAX_NEIGHS; lia). rewrite Nat2Z.id. apply spec_ret. split; [|split_and!; try done; cbn; lia].
  eexists. split; [done|]. assert (Ec : forall i, (i < length x)%nat -> field (8 + 48 * i) 48 c3 = field (length (take 8 c0) + 48 * i) 48 (take 8 c0 ++ body ++ drop (8 + length body) c0)).
  { intros i Hi. unfold c3. rewrite field_memcpy_ne by (rewrite ?int_bytes_length; lia). unfold c2. rewrite field_memcpy_ne by (rewrite ?int_bytes_length; lia). unfold c1, memcpy_at. by rewrite length_take, L0. }
  rewrite (map_ext_in _ (fun i => field (length (take 8 c0) + 48 * i) 48 (take 8 c0 ++ body ++ drop (8 + length body) c0))) by (intros i Hi; apply in_seq in Hi; apply Ec; lia).
  unfold body at 1. rewrite (chunks (neigh_info_bytes e) 48 x) by apply neigh_info_length. rewrite map_map.
  clear -Hx. induction Hx as [|i x Hi Hx IH]; [done|]. cbn [map]. by rewrite neigh_info_round_trip, IH.
Qed.

(** (C23) A call of the control library is the call of the module: with a module that
    is there and no failure of the kernel on the way, adding, removing and querying
    a device, starting and stopping a server, adding, removing and listing
    neighbours have the result that the module's function has on its own state, and
    change the machine as that function does; names below 256 characters, numbers
    and answers arrive as they were sent, and the module's references are given
    back. *)
Theorem nkfs_ctl_calls_refine (m : machine) : m_misc m = true ->
  (forall name format r d, name_ok name -> is_int format -> is_int r ->
     Dev.nkfs_dev_add e ctx blkdev_get_by_path name (negb (format =? 0)) (rnd k (4 + m_tick m)) (m_dev m) = Done r d ->
     spec (nkfs_dev_add e ctx blkdev_get_by_path k name format) m (fun r' m' => r' = r /\ became d (m_servers m) (m_route m) m m')) /\
  (forall name r d, name_ok name -> is_int r -> Dev.nkfs_dev_remove e ctx name (m_dev m) = Done r d ->
     spec (nkfs_dev_rem e ctx blkdev_get_by_path k name) m (fun r' m' => r' = r /\ became d (m_servers m) (m_route m) m m')) /\
  (forall name r d, name_ok name -> (forall err, r = inl err -> is_int err /\ err <> 0) -> (forall i, r = inr i -> dev_info_wf i) ->
     Dev.nkfs_dev_query name (m_dev m) = Done r d ->
     spec (nkfs_dev_query e ctx blkdev_get_by_path k name) m (fun x m' => asked (dev_info_of e) r x /\ became d (m_servers m) (m_route m) m m')) /\
  (forall b x p r l, 0 <= b < 2 ^ 32 -> 0 <= x < 2 ^ 32 -> is_int p -> is_int r ->
     Servers.nkfs_server_start (srv_nomem k (4 + m_tick m)) (srv_nothread k (4 + m_tick m)) (srv_listen k (4 + m_tick m)) b x p (m_servers m) = (r, l) ->
     spec (nkfs_server_start e ctx blkdev_get_by_path k b x p) m (fun r' m' => r' = r /\ became (m_dev m) l (m_route m) m m')) /\
  (forall b p r l, 0 <= b < 2 ^ 32 -> is_int p -> is_int r -> Servers.nkfs_server_stop b p (m_servers m) = (r, l) ->
     spec (nkfs_server_stop e ctx blkdev_get_by_path k b p) m (fun r' m' => r' = r /\ became (m_dev m) l (m_route m) m m')) /\
  (forall h ip p r h', m_route m = Some h -> 0 <= ip < 2 ^ 32 -> is_int p -> is_int r -> Route.nkfs_route_neigh_add ip p h = Done r h' ->
     spec (nkfs_neigh_add e ctx blkdev_get_by_path k ip p) m (fun r' m' => r' = r /\ became (m_dev m) (m_servers m) (Some h') m m')) /\
  (forall h ip p r h', m_route m = Some h -> 0 <= ip < 2 ^ 32 -> is_int p -> is_int r -> Route.nkfs_route_neigh_remove ip p h = Done r h' ->
     spec (nkfs_neigh_remove e ctx blkdev_get_by_path k ip p) m (fun r' m' => r' = r /\ became (m_dev m) (m_servers m) (Some h') m m')) /\
  (forall h x h', m_route m = Some h -> Forall neigh_info_wf x -> Route.nkfs_route_neigh_info NKFS_ROUTE_MAX_NEIGHS h = Done (inr x) h' ->
     spec (nkfs_neigh_info e ctx blkdev_get_by_path k NKFS_ROUTE_MAX_NEIGHS) m (fun r m' => (exists l, r = inr l /\ map (neigh_info_of e) l = x) /\
       became (m_dev m) (m_servers m) (Some h) m m')).
Proof.
  intros Hm. split_and!; intros.
  - by apply spec_add.
  - by apply spec_rem.
  - by apply spec_query.
  - by apply spec_srv_start.
  - by apply spec_srv_stop.
  - by eapply spec_neigh_add.
  - by eapply spec_neigh_remove.
  - by eapply spec_neigh_info.
Qed.

End Calls.

(** ** The module *)

Section Module.
Context {T St : Type} `{ImageStore T St}.
Context (e : XXH_endianess) (ctx : csum_ctx) (k : kenv).

Local Abbreviation machine := (Ctl.machine T St).

(** Nothing is up. *)
Record down (m : machine) : Prop := {
  dn_dev : Dev.w_list (m_dev m) = [];
  dn_servers : m_servers m = [];
  dn_route : m_route m = None;
  dn_dio : m_dio m = false;
  dn_misc : m_misc m = false
}.

Lemma spec_step (init : StMonad.M machine Z) undo rest m (Q : Z -> machine -> Prop) :
  spec init m (fun r m1 => if r =? 0 then spec rest m1 (fun r2 m2 => if r2 =? 0 then Q 0 m2 else spec undo m2 (fun _ m3 => Q r2 m3)) else Q r m1) -> spec (step init undo rest) m Q.
Proof.
  intros Hs. unfold step. apply spec_bind. eapply spec_mono; [exact Hs|]. intros r m1. cbn beta. destruct (r =? 0); cbn [negb]; [|intros HQ; by apply spec_ret]. intros Hr.
  apply spec_bind. eapply spec_mono; [exact Hr|]. intros r2 m2. cbn beta. destruct (r2 =? 0); cbn [negb]; [intros HQ; by apply spec_ret|]. intros Hu. apply spec_bind.
  eapply spec_mono; [exact Hu|]. intros [] m3 HQ. by apply spec_ret.
Qed.

(** The devices, when there are none. *)
Lemma spec_no_devices (m : machine) (Q : unit -> machine -> Prop) : Dev.w_list (m_dev m) = [] -> Q tt m -> spec (nkfs_dev_finit e ctx) m Q.
Proof.
  intros Hd HQ. unfold spec, nkfs_dev_finit, on_dev, Dev.nkfs_dev_release_all, bind, gets. rewrite Hd. cbn [Dev.release_all]. unfold ret. destruct m. exact HQ.
Qed.

(** The machine after [nkfs_init]. *)
Definition up (m m' : machine) : Prop :=
  m_dio m' = true /\ m_misc m' = true /\ (exists h, m_route m' = Some h /\ Route.neigh_list h = []) /\ m_servers m' = [] /\ m_dev m' = m_dev m.

Local Ltac gone := right; split; [done|]; split; [by split|done].

Lemma spec_init m : down m -> spec (nkfs_init e ctx k) m (fun r m' => (r = 0 /\ up m m') \/ (r <> 0 /\ down m' /\ m_dev m' = m_dev m)).
Proof.
  intros [Dd Ds Dr Do Dm]. unfold nkfs_init. apply spec_step. unfold dio_init. apply spec_bind, spec_mcall.
  destruct (wq_err k (m_tick m)); [apply spec_ret; cbn [Z.eqb Z.opp ENOMEM]; gone|]. apply spec_bind, spec_mcall. destruct (Z.eqb_spec (timer_err k (m_tick (set_mtick (S (m_tick m)) m))) 0) as [Et|Et].
  2:{ cbn [negb]. apply spec_ret. rewrite (proj2 (Z.eqb_neq _ _) Et). gone. }
  cbn [negb]. apply spec_bind, spec_modify, spec_ret. cbn [Z.eqb]. set (m1 := set_dio true _). apply spec_step. unfold misc_register. apply spec_bind, spec_mcall.
  destruct (Z.eqb_spec (misc_err k (m_tick m1)) 0) as [Em|Em]; cbn [negb].
  2:{ apply spec_ret. rewrite (proj2 (Z.eqb_neq _ _) Em). unfold dio_finit. apply spec_modify. gone. }
  apply spec_bind, spec_modify, spec_ret. cbn [Z.eqb]. set (m2 := set_misc true _).
  do 5 (apply spec_step, spec_ret; cbn [Z.eqb]). unfold nkfs_route_init. apply spec_bind, spec_mcall, spec_bind, spec_modify, spec_ret. unfold Route.nkfs_host_create. cbn [fst snd].
  destruct (host_err k (m_tick m2)) as [[] w]; [|destruct w]; cbn [fst snd Z.eqb Z.opp ENOMEM].
  - unfold nkfs_server_finit. apply spec_modify, spec_no_devices; [done|]. do 3 apply spec_ret. apply spec_modify, spec_modify. gone.
  - unfold nkfs_server_finit. apply spec_modify, spec_no_devices; [done|]. do 3 apply spec_ret. apply spec_modify, spec_modify. gone.
  - left. split; [done|]. split_and!; try done. by eexists.
Qed.

(** (C27) The module comes up whole or not at all: whichever step of [nkfs_init] fails,
    the workqueue, the control device or the host, what was done before is undone
    and the machine is as it was.  When [nkfs_exit] ends, there is no control
    device, no server, no device and no superblock. *)
Theorem nkfs_module_all_or_nothing m : down m ->
  (exists r m', nkfs_init e ctx k m = Done r m' /\ ((r = 0 /\ up m m') \/ (r <> 0 /\ down m' /\ m_dev m' = m_dev m))) /\
  (forall m1 m2, DevSpec.dev_inv (m_dev m1) -> nkfs_exit e ctx m1 = Done tt m2 ->
     m_misc m2 = false /\ m_dio m2 = false /\ m_servers m2 = [] /\ Dev.w_list (m_dev m2) = [] /\ Dev.w_devs (m_dev m2) = ∅ /\ SbList.sbo (Dev.w_host (m_dev m2)) = ∅).
Proof.
  intros Hd. split; [apply spec_done; by apply spec_init|]. intros m1 m2 I E. unfold nkfs_exit, misc_deregister, nkfs_route_finit, on_route, bind, modify in E.
  cbn [m_route set_misc] in E. destruct (m_route m1) as [h|]; [|done]. destruct (Route.nkfs_host_release h) as [[] h'| | |]; [|done..].
  unfold nkfs_server_finit, nkfs_dev_finit, on_dev, modify in E. cbn [m_dev set_servers set_route set_misc] in E.
  destruct (Dev.nkfs_dev_release_all e ctx (m_dev m1)) as [[] d| | |] eqn:Ed; [|done..]. injection E as <-.
  destruct (DevSpec.ends_release_all e ctx (m_dev m1) I _ _ Ed) as (_ & ? & ? & ?). by split_and!.
Qed.

(** The control device is there before the host of the routing is: a neighbour
    that is added between the two steps of [nkfs_init] stops the machine. *)
Theorem nkfs_neigh_add_too_early_crashes blkdev_get_by_path ip port m : calm_kernel k -> down m ->
  (forall t, wq_err k t = false /\ timer_err k t = 0 /\ misc_err k t = 0) -> 0 < ip < 2 ^ 32 -> 0 < port < 2 ^ 31 ->
  exists m1, (let* _ := dio_init k in misc_register k) m = Done 0 m1 /\ nkfs_neigh_add e ctx blkdev_get_by_path k ip port m1 = Crash.
Proof.
  intros Hk Hd He Hi Hp.
  assert (W : spec (let* _ := dio_init k in misc_register k) m (fun r m1 => r = 0 /\ m_misc m1 = true /\ m_route m1 = None)).
  { unfold dio_init, misc_register. apply spec_bind, spec_bind, spec_mcall. rewrite (proj1 (He _)). apply spec_bind, spec_mcall. rewrite (proj1 (proj2 (He _))). cbn [Z.eqb negb].
    apply spec_bind, spec_modify, spec_ret, spec_bind, spec_mcall. rewrite (proj2 (proj2 (He _))). cbn [Z.eqb negb]. apply spec_bind, spec_modify, spec_ret.
    split_and!; [done|done|apply (dn_route _ Hd)]. }
  apply spec_done in W as (r & m1 & E & -> & Hm & Hr). exists m1. split; [done|].
  assert (W : spec (nkfs_ctl_open k) m1 (fun r m2 => r = 0 /\ m_route m2 = None)).
  { unfold nkfs_ctl_open, nkfs_mod_get. apply spec_bind, spec_mcall. rewrite (ck_open _ Hk). apply spec_bind, spec_gets. cbn [m_misc set_mtick]. rewrite Hm. cbn [negb].
    apply spec_bind, spec_bind, spec_mcall. rewrite (ck_mod _ Hk). by apply spec_bind, spec_modify, spec_ret, spec_ret. }
  apply spec_done in W as (r & m2 & E2 & -> & Hr2). destruct (cmd_place e ip port) as [E3 E4]; [lia|split; lia|]. set (cmd := ctl_cmd _) in *.
  assert (Ei : nkfs_ioctl e ctx blkdev_get_by_path k IOCTL_NKFS_NEIGH_ADD cmd m2 = Crash).
  { unfold nkfs_ioctl. unfold bind at 1, kcall at 1. rewrite (ck_malloc _ Hk). unfold bind at 1, kcall at 1. rewrite (ck_from _ Hk). unfold bind at 1, switch.
    repeat match goal with |- context [Z.eqb ?a ?b] => is_const a; is_const b; let v := eval vm_compute in (Z.eqb a b) in change (Z.eqb a b) with v end. cbv iota.
    rewrite E3, E4. unfold bind at 1, neigh_add, bind at 1, gets. cbn [m_route set_mtick]. rewrite Hr2, (proj2 (Z.eqb_neq ip 0)), (proj2 (Z.eqb_neq port 0)) by lia.
    cbn [orb]. unfold bind at 1, kcall. by rewrite (ck_malloc _ Hk). }
  unfold nkfs_neigh_add. fold cmd. unfold bind at 1, ctl_call. unfold bind at 1. rewrite E2. cbn [Z.eqb negb]. unfold bind at 1, ioctl, bind at 1. by rewrite Ei.
Qed.

End Module.

End CtlSpec.
