(* ===== verification/BtreeImage.v ===== *)
(** * The store of trees, made and opened

    The allocator and the trees of BtreeStore as the store of an image: clearing
    the bitmap, marking blocks, and setting the allocator's fields from a header. *)

From Stdlib Require Import ZArith Lia.
From coqutil Require Import Byte.
From stdpp Require Import base list gmap.
From S2P Require Import Prelude StMonad BtreeNode BtreeNodeSpec BlockTree Btree BtreeRep BtreeMem BtreeInsert BtreeGrow BtreeSpec Balloc BtreeStore.
From S2P Require Import XXHash Bytes Csum BtreeDisk DioPages Dio DioClient Mem CharHex ObjId Super Inode SbFormat.
Import StMonad BtreeNode BtreeNodeSpec Btree BtreeRep BtreeMem BtreeInsert BtreeGrow BtreeSpec BtreeStore.
Local Open Scope Z_scope.

Module BtreeImage.

(** ** Clearing the bitmap *)

(** [balloc_ok] but for the counter. *)
Record shaped (b : Balloc.nkfs_sb) : Prop := {
  sh_bsize : 0 < Balloc.bsize b;
  sh_page : Balloc.bsize b mod Balloc.PAGE_SIZE = 0;
  sh_bm : Z.of_nat (length (Balloc.bm b)) = Balloc.bm_blocks b;
  sh_words k ws : Balloc.bm b !! k = Some ws -> length ws = Balloc.wpc b /\ Forall (fun w => 0 <= w < 2 ^ 64) ws;
  sh_nr : 0 < Balloc.nr_blocks b <= 8 * Balloc.bsize b * Balloc.bm_blocks b /\ 8 * Balloc.bsize b * Balloc.bm_blocks b < 2 ^ 64
}.

Definition zeros (ws : list Z) : Prop := Forall (fun w => w = 0) ws.

Lemma zeros_bit b x : shaped b -> Forall zeros (Balloc.bm b) -> 0 <= x < Balloc.nr_blocks b -> Balloc.bit_at b x = false.
Proof.
  intros [Hb Hp Hl Hw [[_ Hn] _]] Hz Hx. unfold Balloc.bit_at. set (k := Z.to_nat (x / 64)).
  assert (Eb : Balloc.bsize b = 8 * Z.of_nat (Balloc.wpc b) /\ (0 < Balloc.wpc b)%nat) by (unfold Balloc.wpc, Balloc.PAGE_SIZE in *; split; dlia).
  destruct Eb as [Eb Hpos]. pose proof (Nat.div_mod_eq k (Balloc.wpc b)) as Hd. pose proof (Nat.mod_upper_bound k (Balloc.wpc b) ltac:(lia)) as Hm.
  assert (Hk : 64 * Z.of_nat k <= x) by (unfold k; rewrite Z2Nat.id; dlia).
  destruct (lookup_lt_is_Some_2 (Balloc.bm b) (k / Balloc.wpc b)) as [ws E]; [nia|].
  rewrite (list_lookup_total_correct _ _ _ E). destruct (Hw _ _ E) as [L _].
  destruct (lookup_lt_is_Some_2 ws (k mod Balloc.wpc b)) as [w Ew]; [lia|]. rewrite (list_lookup_total_correct _ _ _ Ew).
  pose proof (Forall_lookup_1 _ _ _ _ Hz E) as Hws. rewrite (Forall_lookup_1 _ _ _ _ Hws Ew). apply Z.testbit_0_l.
Qed.

Lemma zeros_used b : shaped b -> Forall zeros (Balloc.bm b) -> Balloc.used b = ∅.
Proof.
  intros S Hz. apply set_eq. intros x. rewrite Balloc.elem_of_used. split; [|by intros ?%elem_of_empty].
  intros [Hx Hb]. by rewrite zeros_bit in Hb.
Qed.

Lemma shaped_cong b b' : Balloc.same b b' -> Balloc.bm b' = Balloc.bm b -> shaped b -> shaped b'.
Proof. intros (E1 & E2 & E3 & E4 & _) Eb []. unfold Balloc.wpc in *. split; unfold Balloc.wpc; rewrite ?E1, ?E3, ?E4, ?Eb; done. Qed.

Lemma shaped_zero b k ws : shaped b -> Balloc.bm b !! k = Some ws -> shaped (Balloc.set_bm (<[k := (fun _ => 0) <$> ws]> (Balloc.bm b)) b).
Proof.
  intros [] E. split; cbn; try done; [by rewrite length_insert|].
  intros j vs [(<- & <- & Hl)|(Hj & Ej)]%list_lookup_insert_Some; [|by eapply sh_words0].
  destruct (sh_words0 _ _ E) as [L _]. split; [by rewrite length_fmap|]. apply Forall_fmap, Forall_true. intros x. cbn. lia.
Qed.

Lemma bm_clear_spec n : forall k b, shaped b -> Z.of_nat k + Z.of_nat n = Balloc.bm_blocks b ->
  (forall j ws, (j < k)%nat -> Balloc.bm b !! j = Some ws -> zeros ws) ->
  exists err b', Balloc.bm_clear_loop k n b = (err, b') /\ Balloc.same b b' /\
  (err = 0 -> shaped b' /\ Forall zeros (Balloc.bm b') /\ Balloc.used_blocks b' = 0) /\ (Balloc.no_fail b -> err = 0).
Proof.
  induction n as [|n IH]; intros k b Hb Hk Hz; cbn [Balloc.bm_clear_loop].
  - eexists _, _. split; [done|]. split; [done|]. split; [|done]. intros _. split; [by apply (shaped_cong b)|]. split; [|done].
    apply Forall_lookup_2. intros j ws E. apply (Hz j); [|done]. apply lookup_lt_Some in E. pose proof (sh_bm _ Hb). cbn in E. lia.
  - cbn [Balloc.dio_clu_get]. destruct (Balloc.gfail b (Balloc.gtick b)) eqn:G1; cbn [negb].
    { eexists _, _. split; [done|]. split; [done|]. split; [done|]. intros [Hg _]. by rewrite Hg in G1. }
    cbn [Balloc.set_gtick Balloc.gfail Balloc.gtick]. destruct (Balloc.gfail b (S (Balloc.gtick b))) eqn:G2; cbn [negb].
    { eexists _, _. split; [done|]. split; [done|]. split; [done|]. intros [Hg _]. by rewrite Hg in G2. }
    cbn [Balloc.dio_clu_sync Balloc.bm Balloc.set_bm Balloc.set_gtick].
    cbn [Balloc.sfail Balloc.stick Balloc.set_bm Balloc.set_gtick]. destruct (Balloc.sfail b (Balloc.stick b)) eqn:F1.
    { eexists _, _. split; [done|]. split; [done|]. split; [done|]. intros [_ Hf]. by rewrite Hf in F1. }
    cbn [Z.eqb negb]. pose proof (sh_bm _ Hb) as Lb. destruct (lookup_lt_is_Some_2 (Balloc.bm b) k ltac:(lia)) as [ws E].
    rewrite (list_lookup_total_correct _ _ _ E). match goal with |- context [Balloc.bm_clear_loop _ _ ?x] => set (b1 := x) end.
    assert (S1 : shaped b1) by (eapply (shaped_cong (Balloc.set_bm (<[k := (fun _ => 0) <$> ws]> (Balloc.bm b)) b)); [done|done|by apply shaped_zero]).
    destruct (IH (S k) b1 S1) as (err & b' & E' & Sm & HO & HN); [cbn; lia| |].
    + intros j vs Hj [(<- & <- & _)|(Hn & Ej)]%list_lookup_insert_Some; [by apply Forall_fmap, Forall_true|]. apply (Hz j); [lia|done].
    + exists err, b'. by split_and!.
Qed.

(** ** Marking, opening *)

Section Store.
Context (G : geom) (GO : geom_ok G) (reads_back : node -> bool).

Definition store_attach (h : Super.nkfs_sb) (st : store) : store :=
  let b := alloc st in
  Store (Balloc.Sb (Super.nr_blocks h) (Super.bm_block h) (Super.bm_blocks h) (Super.bsize h) (Balloc.bm b) (Super.used_blocks h) 0
    (Balloc.readers b) (Balloc.gfail b) (Balloc.gtick b) (Balloc.sfail b) (Balloc.stick b)) (tdisk st).

Definition store_clear (st : store) : Z * store :=
  let (err, b) := Balloc.nkfs_balloc_bm_clear (alloc st) in (err, Store b (tdisk st)).

Definition store_mark (x : Z) (st : store) : outcome (Z * store) :=
  obind (Balloc.nkfs_balloc_block_mark (alloc st) x true) (fun r => Ret (fst r, Store (snd r) (tdisk st))).

Definition store_fits (h : Super.nkfs_sb) (st : store) : Prop :=
  Balloc.nr_blocks (alloc st) = Super.nr_blocks h /\ Balloc.bm_block (alloc st) = Super.bm_block h /\
  Balloc.bm_blocks (alloc st) = Super.bm_blocks h /\ Balloc.bsize (alloc st) = Super.bsize h.

Definition placed (st : store) : Prop := forall x n, tdisk st !! x = Some n -> block n = x.

Definition store_raw (st : store) : Prop := shaped (alloc st) /\ placed st.
Definition store_sound (st : store) : Prop := Balloc.balloc_ok (alloc st) /\ placed st.
Definition store_calm (st : store) : Prop := Balloc.no_fail (alloc st).

Lemma fits_same h b b' d : Balloc.same b b' -> store_fits h (Store b d) -> store_fits h (Store b' d).
Proof. intros (E1 & E2 & E3 & E4 & _). unfold store_fits. cbn. by rewrite E1, E2, E3, E4. Qed.

Lemma calm_same b b' d : Balloc.same b b' -> store_calm (Store b d) -> store_calm (Store b' d).
Proof. intros (_ & _ & _ & _ & E1 & E2). unfold store_calm, Balloc.no_fail. cbn. by rewrite E1, E2. Qed.

Lemma attach_again_law h st : store_ok st -> store_fits h st -> Super.used_blocks h = Balloc.used_blocks (alloc st) ->
  let st' := store_attach h st in
  store_ok st' /\ Balloc.used (alloc st') = Balloc.used (alloc st) /\ Balloc.used_blocks (alloc st') = Balloc.used_blocks (alloc st) /\
  (forall t b m, tree_rep G t st b m -> tree_rep G t st' b m) /\ (forall b, good reads_back st' b = good reads_back st b).
Proof.
  intros Ok (E1 & E2 & E3 & E4) Eu st'. pose proof Ok as [[O H0] D].
  destruct (Balloc.balloc_ok_cong (alloc st) (alloc st')) as [O' U']; [repeat split; cbn; congruence|done|done|done|].
  assert (Ok' : store_ok st') by (split; [split; [done|by rewrite U']|done]).
  split; [done|]. split; [done|]. split; [done|]. split; [|done]. intros t b m R.
  apply (rep_move G GO t st b m); try done. rewrite U'. by apply (rep_used G GO t st b m).
Qed.

Lemma clear_law st : store_raw st -> exists err st', store_clear st = (err, st') /\ (forall h, store_fits h st -> store_fits h st') /\
  Balloc.nr_blocks (alloc st') = Balloc.nr_blocks (alloc st) /\ (err = 0 -> store_sound st' /\ Balloc.used (alloc st') = ∅) /\
  (store_calm st -> err = 0 /\ store_calm st').
Proof.
  intros [S D]. unfold store_clear, Balloc.nkfs_balloc_bm_clear.
  destruct (bm_clear_spec (Z.to_nat (Balloc.bm_blocks (alloc st))) 0 (alloc st) S) as (err & b' & E & Sm & HO & HN);
    [pose proof (sh_bm _ S); lia|intros; lia|].
  rewrite E. exists err, (Store b' (tdisk st)). split; [done|]. split; [intros h; by apply (fits_same h (alloc st) b')|]. split; [apply Sm|].
  split; [|intros Hc; split; [by apply HN|by apply (calm_same (alloc st) b')]]. intros He. destruct (HO He) as (S' & Z' & U').
  pose proof (zeros_used _ S' Z') as Eu. split; [|done]. split; [|done]. destruct S'. split; try done. cbn. by rewrite U', Eu, size_empty.
Qed.

Lemma mark_law x st : store_sound st -> 0 <= x < Balloc.nr_blocks (alloc st) -> x ∉ Balloc.used (alloc st) ->
  exists err st', store_mark x st = Ret (err, st') /\ store_sound st' /\ (forall h, store_fits h st -> store_fits h st') /\
  Balloc.nr_blocks (alloc st') = Balloc.nr_blocks (alloc st) /\ (err = 0 -> Balloc.used (alloc st') = {[x]} ∪ Balloc.used (alloc st)) /\
  (store_calm st -> err = 0 /\ store_calm st').
Proof.
  intros [O D] Hx Hu. unfold store_mark.
  destruct (Balloc.mark_spec (alloc st) x true O Hx ltac:(done)) as (err & b' & E & O' & Sm & _ & Hc). rewrite E. cbn [obind fst snd].
  exists err, (Store b' (tdisk st)). split; [done|]. split; [done|]. split; [intros h; by apply (fits_same h (alloc st) b')|]. split; [apply Sm|]. split.
  - intros ->. by destruct Hc as [(? & _)|(_ & ?)].
  - intros K. split; [|by apply (calm_same (alloc st) b')]. destruct K as [K1 K2].
    destruct Hc as [(_ & _ & t & Ht)|([?|(_ & t & Ht)] & _)]; [by rewrite K1 in Ht|done|by rewrite K2 in Ht].
Qed.

Lemma create_fits_law h st t st' : store_ok st -> tree_create G reads_back 0 st = Ret (Some t, st') -> store_fits h st -> store_fits h st'.
Proof.
  intros [O D]. unfold tree_create.
  pose proof (create_empty_spec G GO (tdisk st) (alloc st) (fun _ => false) (fun _ => WOk) reads_back O ltac:(done) D) as Sp.
  unfold spec in Sp. destruct (nkfs_btree_create G 0 _) as [[] s'| | |]; [|done..]. destruct Sp as (_ & _ & _ & _ & _ & x & _ & _ & _ & Ea & _).
  intros [= <- <-]. cbn in Ea.
  destruct (Balloc.block_alloc_loop_spec (Z.to_nat (Balloc.bm_blocks (alloc st))) 0 (alloc st) (proj1 O)) as (err & y & b' & E & _ & Sm & _).
  { pose proof (Balloc.ok_bm _ (proj1 O)). lia. }
  unfold Balloc.nkfs_balloc_block_alloc in Ea. rewrite E in Ea. cbn in Ea. injection Ea as _ Eb. unfold unload. rewrite <- Eb. by apply (fits_same h (alloc st) b').
Qed.

Context (safe : nat) (safe_cap : (safe <= 2 * g_t G - 1)%nat).
Context (safe_ok : forall n, node_ok G n -> clean G n -> (nr_keys n <= safe)%nat -> reads_back n = true).

#[global] Program Instance btree_image : @ImageStore _ _ (btree_store G GO reads_back safe safe_cap safe_ok) := {
  st_attach := store_attach;
  st_clear := store_clear;
  st_mark := store_mark;
  st_fits := store_fits;
  st_raw := store_raw;
  st_sound := store_sound;
  st_calm := store_calm;
  st_attach_again := attach_again_law;
  st_clear_ok := clear_law;
  st_mark_ok := mark_law;
  t_create_fits := create_fits_law
}.
Next Obligation. intros st. cbn. unfold store_ok, store_sound, placed. cbn. tauto. Qed.
Next Obligation. done. Qed.
Next Obligation. unfold store_fits. intros h h' st (-> & -> & -> & ->) <- <- <- <-. done. Qed.
Next Obligation. by split. Qed.

End Store.

(** The images of the program. *)
Definition nkfs_image (e : XXHash.XXH_endianess) : @ImageStore _ _ (nkfs_store e) :=
  btree_image nkfs_geom nkfs_geom_ok (BtreeDisk.reads_back e) NKFS_SAFE_KEYS nkfs_safe_cap (clean_reads_back e).

End BtreeImage.
