(* ===== verification/BtreeDelete.v ===== *)
(** * Deleting a key without rebalancing

    [nkfs_btree_delete_key] removes the key from the leaf it is in when every
    node on the way down has keys to spare ([roomy]).  When a node has none, the
    code rebalances, and the removal of a child from a node
    ([__nkfs_btree_node_delete_child_index]) runs over the end of the array of
    page pointers: [delete_child_index_out_of_bounds]. *)

From Stdlib Require Import ZArith Lia.
From coqutil Require Import Byte.
From stdpp Require Import base list gmap.
From S2P Require Import Prelude StMonad BtreeNode BtreeNodeSpec Btree BtreeRep BtreeMem BtreeInsert BtreeGrow BtreeSpec.
Import StMonad BtreeNode BtreeNodeSpec Btree BtreeRep BtreeMem BtreeInsert BtreeGrow BtreeSpec.
Local Open Scope Z_scope.

Module BtreeDelete.

(** ** Lists *)

Definition kv_del (k : list byte) (l : list (list byte * Z)) : list (list byte * Z) :=
  filter (fun e => ekey e <> key_val k) l.

Lemma kv_del_sorted k l : sorted l -> sorted (kv_del k l).
Proof. intros Hs. eapply sorted_sublist; [|exact Hs]. apply sublist_filter. Qed.

Lemma to_map_del k l : sorted l -> to_map (kv_del k l) = delete (key_val k) (to_map l).
Proof.
  intros Hs. pose proof (kv_del_sorted k l Hs) as Hs'. apply map_eq. intros x. apply option_eq. intros w.
  rewrite to_map_lookup, lookup_delete_Some, to_map_lookup by done. split.
  - intros (e & He & <- & <-). apply list_elem_of_filter in He as [Hne He]. split; [congruence|]. by exists e.
  - intros (Hne & e & He & <- & <-). exists e. split; [|done]. apply list_elem_of_filter. split; [congruence|done].
Qed.

Lemma kv_del_middle k a l c : (forall x, x ∈ a -> ekey x < key_val k) -> (forall x, x ∈ c -> key_val k < ekey x) ->
  kv_del k (a ++ l ++ c) = a ++ kv_del k l ++ c.
Proof.
  intros Ha Hc. unfold kv_del. rewrite !filter_app. f_equal; [|f_equal].
  - apply filter_all. intros x Hx. specialize (Ha x Hx). lia.
  - apply filter_all. intros x Hx. specialize (Hc x Hx). lia.
Qed.

Lemma kv_del_at k l i e : sorted l -> l !! i = Some e -> ekey e = key_val k ->
  kv_del k l = take i l ++ drop (S i) l.
Proof.
  intros Hs Hi Hk. rewrite <- (take_drop_middle _ _ _ Hi) in Hs |- * at 1.
  apply sorted_app in Hs as (_ & Hs & Hlt). apply sorted_cons in Hs as [_ Hgt].
  change (e :: drop (S i) l) with ([e] ++ drop (S i) l). rewrite kv_del_middle.
  - unfold kv_del. rewrite filter_cons_False by (rewrite Hk; auto). done.
  - intros x Hx. rewrite <- Hk. apply Hlt; [done|by left].
  - intros x Hx. rewrite <- Hk. by apply Hgt.
Qed.

(** Moving slots [i+1 .. n-1] one to the left. *)
Lemma shift_left_take {A} `{Inhabited A} (l w : list A) i n x : (i < n <= length l)%nat -> length w = length l ->
  (forall j, w !!! j = if decide (i <= j < n - 1)%nat then l !!! (j + 1)%nat else l !!! j) ->
  take (n - 1) (<[(n - 1)%nat := x]> w) = take i (take n l) ++ drop (S i) (take n l).
Proof.
  intros Hi Lw E. rewrite take_insert_ge by lia. apply list_eq_total.
  { rewrite length_app, length_drop, !length_take. lia. }
  intros j Hj. rewrite length_take in Hj. rewrite lookup_total_take by lia. rewrite E.
  rewrite lookup_total_app, !length_take. case_decide; case_decide; try lia.
  - rewrite lookup_total_drop, lookup_total_take by lia. f_equal. lia.
  - rewrite !lookup_total_take by lia. done.
Qed.

Lemma zip_remove_at {A C} (l : list A) (r : list C) i : length l = length r ->
  zip (take i l ++ drop (S i) l) (take i r ++ drop (S i) r) = take i (zip l r) ++ drop (S i) (zip l r).
Proof.
  intros L. rewrite zip_with_app by (rewrite !length_take; lia). by rewrite zip_with_take, zip_with_drop.
Qed.

Section Delete.
Context {B : Type} `{BlockAlloc B}.
Context (G : geom) (GO : geom_ok G).

Local Abbreviation state := (@Btree.state B).
Local Abbreviation M := (StMonad.M (@Btree.state B)).

(** ** One node *)

Lemma delete_key_index_ok n i : node_ok G n -> (i < nr_keys n)%nat ->
  exists n', nkfs_btree_node_delete_key_index G n i = Ret n' /\
  node_ok G (set_nr_keys (nr_keys n - 1) n') /\
  entries (set_nr_keys (nr_keys n - 1) n') = take i (entries n) ++ drop (S i) (entries n) /\
  cflat n' = cflat n /\ leaf n' = leaf n /\ block n' = block n /\ nr_keys n' = nr_keys n.
Proof.
  intros [P L Fk Sg] Hi. destruct GO. unfold nkfs_btree_node_delete_key_index.
  rewrite (proj2 (Nat.ltb_ge _ _)) by lia. cbn [bug_on].
  pose proof (pages_keys _ _ P) as Lk. pose proof (pages_values _ _ P) as Lv.
  destruct (ofor_up_ind (fun x m => exists ks vs, upd G n m ks vs (cflat n) /\
    (forall j, ks !!! j = if decide (i <= j < x - 1)%nat then keys n !!! (j + 1)%nat else keys n !!! j) /\
    (forall j, vs !!! j = if decide (i <= j < x - 1)%nat then values n !!! (j + 1)%nat else values n !!! j))
    (fun x m => copy_kv_within G m (x - 1) x) (nr_keys n - (i + 1)) (i + 1)%nat n) as (n1 & E1 & ks & vs & U & Ek & Ev).
  - exists (keys n), (values n). split; [by apply upd_refl|]. split; intros j; by rewrite decide_False by lia.
  - intros x m Hx (ks & vs & U & Ek & Ev).
    destruct (copy_kv_ok G m (x - 1) m x) as (m' & E & U'); [apply U|lia..|].
    exists m'. split; [exact E|]. eexists _, _. split; [eapply upd_trans; [exact U|]|].
    { rewrite (upd_children _ _ _ _ _ _ U) in U'. exact U'. }
    pose proof (upd_pages _ _ _ _ _ _ U) as Pm.
    rewrite (upd_keys _ _ _ _ _ _ U), (upd_values _ _ _ _ _ _ U).
    pose proof (pages_keys _ _ Pm) as Lk'. pose proof (pages_values _ _ Pm) as Lv'.
    rewrite (upd_keys _ _ _ _ _ _ U) in Lk'. rewrite (upd_values _ _ _ _ _ _ U) in Lv'.
    split; intros j; (destruct (decide (j = x - 1)%nat) as [->|];
      [rewrite list_lookup_total_insert_eq by lia|rewrite list_lookup_total_insert_ne by lia]); rewrite ?Ek, ?Ev;
      repeat case_decide; try lia; try done; f_equal; lia.
  - rewrite E1. cbn [obind]. replace (i + 1 + (nr_keys n - (i + 1)))%nat with (nr_keys n) in * by lia.
    rewrite (upd_nr _ _ _ _ _ _ U). replace (Nat.max i (nr_keys n - 1)) with (nr_keys n - 1)%nat by lia.
    pose proof (upd_pages _ _ _ _ _ _ U) as Pm. pose proof (pages_keys _ _ Pm) as Lk'. pose proof (pages_values _ _ Pm) as Lv'.
    destruct (copy_key_value_ok G n1 (nr_keys n - 1) zero_key 0) as (n2 & E2 & U2); [done|lia..|].
    exists n2. split; [exact E2|]. pose proof (upd_trans _ _ _ _ _ _ _ _ _ _ U U2) as [V1 V2 V3 V4 V5 V6 V7 V8 V9].
    rewrite (upd_keys _ _ _ _ _ _ U) in Lk', V2. rewrite (upd_values _ _ _ _ _ _ U) in Lv', V3.
    rewrite (upd_children _ _ _ _ _ _ U) in V4.
    assert (EK : take (nr_keys n - 1) (keys n2) = take i (take (nr_keys n) (keys n)) ++ drop (S i) (take (nr_keys n) (keys n))).
    { rewrite V2. apply shift_left_take; [lia|lia|done]. }
    assert (EV : take (nr_keys n - 1) (values n2) = take i (take (nr_keys n) (values n)) ++ drop (S i) (take (nr_keys n) (values n))).
    { rewrite V3. apply shift_left_take; [lia|lia|done]. }
    split; [|split; [|by rewrite V4, V7, V8, V9]].
    + split; cbn; [by destruct V1; split|lia| |by rewrite V5, V6].
      rewrite EK. apply Forall_app. split; [by apply Forall_take|by apply Forall_drop].
    + unfold entries. cbn [set_nr_keys nr_keys keys values]. rewrite EK, EV. apply zip_remove_at. rewrite !length_take. lia.
Qed.

(** Removing a child from a node moves page pointers by the index of a
    child: it runs off the array of [NKFS_BTREE_CHILD_PAGES] pointers as soon as
    the node has that many keys, which every node a balanced tree of the real
    geometry removes a child from has. *)
Theorem delete_child_index_out_of_bounds n index :
  (g_child_pages G <= nr_keys n)%nat -> (index <= nr_keys n)%nat ->
  nkfs_btree_node_delete_child_index G n index = Bug.
Proof.
  intros Hp Hi. unfold nkfs_btree_node_delete_child_index.
  assert (Hlast : (g_child_pages G <=? Nat.max index (nr_keys n))%nat = true) by (apply Nat.leb_le; lia).
  rewrite Hlast. cbn [bug_on]. by destruct (ofor_up _ _ _ _).
Qed.

(** ** The walk down *)

Context (k : list byte) (Hk : key_ok k).

(** The search goes to a leaf through children that all have a key to spare. *)
Fixpoint roomy (d : Z -> option node) (h : nat) (b : Z) : Prop :=
  match h with
  | O => True
  | S h' => exists n i cn, d b = Some n /\ nkfs_btree_node_has_key G n k = Ret None /\
      nkfs_btree_node_find_key_index G n k = Ret i /\ d (cflat n !!! i) = Some cn /\
      (g_t G <= nr_keys cn)%nat /\ roomy d h' (cflat n !!! i)
  end.

Lemma roomy_ext d d' h : (forall x, d' x = d x) -> forall b, roomy d h b -> roomy d' h b.
Proof.
  intros E. induction h as [|h IH]; intros b; [done|]. intros (n & i & cn & H1 & H2 & H3 & H4 & H5 & H6).
  exists n, i, cn. rewrite !E. auto 10.
Qed.

Definition del_post (s : state) (held : list nat) (h m : nat) (b : Z) (l : list (list byte * Z)) (S : gset Z)
    (rc : Z) (s' : state) : Prop :=
  coh s' held ∅ ∅ /\ prog s s' held S S /\ exists l', bt G (vis s') h m b l' S /\ uses s' S /\
  ((rc = 0 /\ has_entry k l /\ l' = kv_del k l) \/ (rc = - ENOENT /\ ~ has_entry k l /\ l' = l)).

Lemma del_leaf s held m p b l S n :
  at_node G s held 0 m p b l S n -> (m = 0%nat \/ (m < nr_keys n)%nat) -> forall fuel,
  spec (nkfs_btree_node_delete_key G (Datatypes.S fuel) (root s) p k) s (del_post s held 0 m b l S).
Proof.
  intros A Hm fuel. destruct (at_node_ok G GO _ _ _ _ _ _ _ _ _ A) as (N & Bn & Sn & Hb & Lf).
  pose proof (at_search G GO k Hk _ _ _ _ _ _ _ _ _ A) as Hs. destruct A as [C I Hbt Hsr V Hu Wo _].
  pose proof Hbt as (n0 & V0 & _ & _ & M0 & L0 & El & ES). rewrite V in V0. injection V0 as <-.
  cbn [nkfs_btree_node_delete_key]. apply spec_bind. eapply spec_node_get; [exact C|exact I|]. intros n1 V1 _.
  rewrite V in V1. injection V1 as <-. apply spec_bind.
  destruct Hs as [(i & Ei & Hi & Hki)|(Ei & i & _ & Hi & Hlo & Hhi)]; (eapply spec_lift; [exact Ei|]); rewrite L0.
  - destruct (delete_key_index_ok n i N Hi) as (n' & E' & N' & He & Hc & Hl & Hbl & Hnr).
    pose proof (entries_lookup G GO n i N Hi) as Eel. rewrite Hki in Eel.
    apply spec_bind. eapply (spec_lift _ (set_nr_keys (nr_keys n' - 1) n')).
    { unfold nkfs_btree_node_leaf_delete_key. rewrite L0. cbn [negb bug_on]. rewrite Ei. cbn [obind].
      rewrite (proj2 (Nat.leb_gt _ _)) by lia. cbn [bug_on]. rewrite E'. done. }
    rewrite Hnr. eapply (spec_store G); try done; [cbn; congruence|by apply Hu|].
    intros s' C' E1 U1 K1 W1 F1. assert (U1' : ba_used (bal s) ⊆ ba_used (bal s')) by (by rewrite U1).
    split; [done|]. split; [|exists (kv_del k l); split; [|split; [by eapply uses_env|]]].
    + split; auto. intros x _ Hx. apply F1. intros ->. done.
    + exists (set_nr_keys (nr_keys n - 1) n'). cbn [nr_keys block leaf set_nr_keys]. split; [done|]. split; [done|]. split; [congruence|]. split; [lia|].
      split; [congruence|]. split; [|done]. rewrite He, El. subst l. by apply (kv_del_at k _ _ _ Hsr Eel).
    + left. split; [done|]. split; [|done]. exists (k, values n !!! i). split; [|done]. rewrite El. by eapply list_elem_of_lookup_2.
  - apply spec_bind. eapply spec_deref_unless; [exact C|apply not_elem_of_empty|]. intros s' C' E1 U1 K1 W1. apply spec_ret.
    split; [done|]. split; [apply prog_still; [done|by rewrite U1|done..]|]. exists l. split; [by apply (bt_ext G GO (vis s))|].
    split; [eapply (uses_env s s'); [done|by rewrite U1|done]|]. right. split; [done|]. split; [|done].
    intros (e & He & Ek). rewrite El in He. apply list_elem_of_lookup in He as [j Hj]. pose proof (lookup_lt_Some _ _ _ Hj) as Lj.
    rewrite (entries_length G GO) in Lj by done. rewrite (entries_lookup G GO) in Hj by done. injection Hj as <-.
    change (kv n j = key_val k) in Ek.
    destruct (Nat.lt_ge_cases j i); [specialize (Hlo j ltac:(done))|specialize (Hhi j ltac:(done))]; lia.
Qed.

Lemma del_lift s held h m b l S n i A t C rc s' :
  bt G (vis s) (Datatypes.S h) m b l S -> vis s b = Some n -> sorted l -> uses s S -> (i <= nr_keys n)%nat ->
  (forall j, (j < i)%nat -> kv n j < key_val k) -> (forall j, (i <= j < nr_keys n)%nat -> key_val k < kv n j) ->
  length A = i -> kids n = map sb (A ++ t :: C) ->
  Forall (fun t => bt G (vis s) h (g_t G - 1) (sb t) (sl t) (ss t)) (A ++ t :: C) ->
  length C = (nr_keys n - i)%nat ->
  l = before (map sl A) (take i (entries n)) ++ sl t ++ after (map sl C) (drop i (entries n)) ->
  S = {[b]} ∪ ⋃ (map ss (A ++ t :: C)) -> b ∉ ⋃ (map ss (A ++ t :: C)) -> disj (map ss (A ++ t :: C)) ->
  del_post s held h (g_t G - 1) (sb t) (sl t) (ss t) rc s' -> del_post s held (Datatypes.S h) m b l S rc s'.
Proof.
  intros Hbt V Hs Hu Hi Hlo Hhi LA K F LC El HS Hb D (C' & P & l' & Hbt' & _ & O).
  destruct (bt_root G GO _ _ _ _ _ _ Hbt) as (n0 & V0 & N & _). rewrite V in V0. injection V0 as <-.
  assert (Sub : ss t ⊆ S) by (rewrite HS, map_app; cbn; rewrite union_list_app_L; clear; set_solver).
  destruct (child_bounds G GO n k i (map sl A) (map sl C) (sl t) N Hi ltac:(by rewrite length_map) ltac:(by rewrite length_map)
    ltac:(by rewrite El in Hs) Hlo Hhi) as [Hbef Haft].
  assert (HE : has_entry k (sl t) -> has_entry k l).
  { intros (e & He & Ee). exists e. split; [|done]. rewrite El. apply elem_of_app. right. apply elem_of_app. by left. }
  destruct P as [E U K' _ N' F']. split; [done|]. split.
  { split; try done; [by left|]. intros x Hx Hx'. apply F'; [done|]. intros Ht. by apply Hx', Sub. }
  exists (before (map sl A) (take i (entries n)) ++ l' ++ after (map sl C) (drop i (entries n))). split; [|split].
  - assert (HSS : S = (S ∖ ss t) ∪ ss t).
    { clear -Sub. apply set_eq. intros x. destruct (decide (x ∈ ss t)); set_solver. }
    rewrite HSS. eapply (bt_replace_child G GO (vis s) (vis s')); try done.
    + intros x Hx Hx'. apply F'; [by apply Hu|done].
    + intros x Hx. by left.
  - by eapply uses_env.
  - destruct O as [(-> & O & ->)|(-> & O & ->)].
    + left. split; [done|]. split; [auto|]. rewrite El. by rewrite kv_del_middle.
    + right. split; [done|]. split; [|done]. intros He. apply O. by eapply (not_in_child G GO (vis s)).
Qed.

(** Going on from a later state. *)
Lemma del_post_trans s s1 held h m b l S rc s' :
  prog s s1 held S S -> del_post s1 held h m b l S rc s' -> del_post s held h m b l S rc s'.
Proof.
  intros P1 (C & P2 & l' & Hbt & Hu & O). split; [done|]. split; [by eapply prog_trans|]. by exists l'.
Qed.

(** A child with a key to spare is only read. *)
Lemma spec_child_balance s held p b n i (Q : option nat -> state -> Prop) :
  coh s (hold p (root s) held) ∅ ∅ -> nodes s !! b = Some p -> vis s b = Some n -> node_ok G n -> leaf n = false ->
  (i <= nr_keys n)%nat ->
  spec (nkfs_btree_node_read G (cflat n !!! i)) s (fun r s1 => match r with
    | Some c => c <> p /\ (forall Q' : node -> state -> Prop, (forall cn, (g_t G <= nr_keys cn)%nat -> Q' cn s1) -> spec (get c) s1 Q') /\
        Q (Some c) s1
    | None => False
    end) ->
  spec (nkfs_btree_node_child_balance G p i) s Q.
Proof.
  intros C I V N Lf Hi HR. unfold nkfs_btree_node_child_balance.
  apply spec_bind. eapply spec_node_get; [exact C|exact I|]. intros n1 V1 _. rewrite V in V1. injection V1 as <-.
  apply spec_bind, spec_bug_on; [done|]. apply spec_bind. eapply spec_lift.
  { apply (nkfs_btree_node_child_ok G); [apply N|]. destruct GO, N. lia. }
  apply spec_bind. eapply spec_mono; [exact HR|]. intros [c|] s1; [|done]. intros (Hcp & Hget & HQ).
  apply spec_bind, Hget. intros cn Hcn. rewrite (proj2 (Nat.ltb_ge _ _)) by done. apply spec_bind, spec_ret.
  rewrite (proj2 (Nat.eqb_neq _ _)) by done. by apply spec_bind, spec_ret, spec_ret.
Qed.

Lemma delete_walk fuel : forall s held h m p b l S n,
  at_node G s held h m p b l S n -> (m = 0%nat \/ (m < nr_keys n)%nat) -> roomy (vis s) h b -> reads_ok s b S -> (h < fuel)%nat ->
  spec (nkfs_btree_node_delete_key G fuel (root s) p k) s (del_post s held h m b l S).
Proof.
  induction fuel as [|fuel IH]; intros s held h m p b l S n A Hm R NR Hf; [lia|].
  destruct h as [|h]; [by eapply del_leaf|].
  destruct (at_node_ok G GO _ _ _ _ _ _ _ _ _ A) as (N & Bn & _ & Hb & Lf).
  destruct R as (n0 & i & cn & V0 & Hno & Hfi & Vc & Hcn & R).
  pose proof (at_search G GO k Hk _ _ _ _ _ _ _ _ _ A) as Hs. destruct A as [C I Hbt Hsr V Hu Wo (br & Ir & Hr)].
  rewrite V in V0. injection V0 as <-.
  destruct Hs as [(j & Ej & _)|(_ & i' & Ei' & Hi & Hlo & Hhi)]; [congruence|]. rewrite Hfi in Ei'. injection Ei' as <-.
  destruct (bt_child G GO _ _ _ _ _ _ n i Hbt V Hi) as (TA & t & TC & LA & K & F & Ec & LC & El & HS & Hbn & D).
  cbn [nkfs_btree_node_delete_key]. apply spec_bind. eapply spec_node_get; [exact C|exact I|]. intros n1 V1 _.
  rewrite V in V1. injection V1 as <-. apply spec_bind. eapply spec_lift; [exact Hno|]. rewrite Lf. cbn [Nat.eqb].
  apply spec_bind. eapply spec_lift; [exact Hfi|]. apply spec_bind.
  eapply spec_child_balance; [exact C|exact I|exact V|done|done|done|].
  eapply (spec_read_child G GO s held h m p b l S n i br TA t TC); try done.
  intros c cn' s1 C1 [E1 U1 W1 _] K1 Ic Vc' Hcr Hcp Ip1 Ir1 Hbr Sub Hnb Ft. split; [done|]. split.
  { intros Q' HQ'. eapply spec_node_get; [exact C1|exact Ic|]. intros y Vy _. apply HQ'. rewrite W1, <- Ec, Vc in Vy. by injection Vy as <-. }
  rewrite <- (env_root _ _ E1). apply spec_bind. eapply (spec_deref_unless s1 (c :: held)); [|apply not_elem_of_empty|].
  { eapply coh_perm; [|exact C1]. rewrite (env_root _ _ E1). unfold hold. destruct (p =? root s)%nat; [done|apply perm_swap]. }
  intros s2 C2 E2 U2 K2 W2. assert (E02 : env_same s s2) by (by eapply tree_env_trans).
  assert (V02 : forall x, vis s2 x = vis s x) by (intros x; by rewrite W2, W1).
  assert (K02 : keeps s s2 held).
  { eapply keeps_trans; [apply E1|eapply keeps_sub; [apply hold_sub|exact K1]|]. eapply keeps_sub; [|exact K2]. by right. }
  rewrite (env_root _ _ E1). rewrite <- (env_root _ _ E02).
  eapply spec_mono; [eapply (IH s2 held h (g_t G - 1)%nat c (sb t) (sl t) (ss t) cn)|].
  - split; try done.
    + unfold hold. rewrite (env_root _ _ E02). by rewrite (proj2 (Nat.eqb_neq c (root s)) Hcr).
    + apply K2; [right; by left|done].
    + by apply (bt_ext G GO (vis s)).
    + rewrite El in Hsr. apply sorted_app in Hsr as (_ & Hsr & _). by apply sorted_app in Hsr as (Hsr & _).
    + by rewrite V02, <- Ec.
    + intros x Hx. rewrite (env_size _ _ E02), U2, U1. apply Hu. by apply Sub.
    + intros x. rewrite (env_wfail _ _ E02). apply Wo.
    + exists br. split; [|by right]. rewrite (env_root _ _ E02). apply K2; [rewrite (env_root _ _ E1); by left|done].
  - right. destruct GO. lia.
  - rewrite Ec in R. by eapply roomy_ext.
  - by apply (reads_ok_sub s s2 b (sb t) S (ss t)).
  - lia.
  - intros rc s' Hpost. eapply (del_post_trans s s2); [apply prog_still; [done|by rewrite U2, U1|done|done]|].
    eapply (del_lift s2 held h m b l S n i TA t TC); try done.
    + by apply (bt_ext G GO (vis s)).
    + by rewrite V02.
    + intros x Hx. rewrite (env_size _ _ E02), U2, U1. by apply Hu.
    + rewrite Forall_forall in F |- *. intros u Hx. apply (bt_ext G GO (vis s)); [done|by apply F].
Qed.

(** (C8) Deleting a key that is in no inner node on the way to its leaf, when every
    node of that way below the root has a key to spare ([roomy]; true of every key
    of a tree of one node), is deleting it from the map; an absent key is [-ENOENT]
    and changes nothing.  No allocation of memory, read or write fails, and every
    node but the root reads back. *)
Theorem nkfs_btree_delete_key_refines_map fuel s h m b :
  tree_map G s h m -> nkfs_btree_root_block s = Done b s -> roomy (vis s) h b ->
  releasing s = false -> no_rfail G s -> writes_ok s -> (h < fuel)%nat ->
  exists s', nkfs_btree_delete_key G fuel k s =
    Done (match m !! key_val k with Some _ => 0 | None => - ENOENT end) s' /\
  tree_map G s' h (delete (key_val k) m) /\ env_same s s'.
Proof.
  intros (b' & l & S & T & ->) Eb R Hrel NR Wo Hf. pose proof T as [C I Hbt Hs Hu].
  assert (b' = b) as ->.
  { destruct (vis_at _ _ _ _ _ _ C I) as (n1 & r & _ & Bn1 & Eo1 & _).
    unfold nkfs_btree_root_block, bind, gets, get, ret in Eb. rewrite Eo1 in Eb. congruence. }
  destruct (bt_root G GO _ _ _ _ _ _ Hbt) as (n & V & _).
  assert (Sp : spec (nkfs_btree_delete_key G fuel k) s (fun rc s' =>
    rc = (match to_map l !! key_val k with Some _ => 0 | None => - ENOENT end) /\
    tree_map G s' h (delete (key_val k) (to_map l)) /\ env_same s s')).
  { unfold nkfs_btree_delete_key. apply spec_bind, spec_gets. rewrite Hrel. apply spec_bind, spec_gets.
    eapply spec_mono; [eapply (delete_walk fuel s [] h 0 (root s) b l S n); [split; try done|by left|done|by eapply (no_rfail_reads G)|done]|].
    - unfold hold. by rewrite Nat.eqb_refl.
    - exists b. split; [done|by left].
    - intros rc s' (C' & P & l' & Hbt' & Hu' & O).
      assert (I' : nodes s' !! b = Some (root s')).
      { rewrite (env_root _ _ (prog_env _ _ _ _ _ P)). apply (prog_keeps _ _ _ _ _ P); [by left|done]. }
      assert (Hl : sorted l' /\ to_map l' = delete (key_val k) (to_map l)).
      { destruct O as [(_ & _ & ->)|(_ & He & ->)]; [split; [by apply kv_del_sorted|by apply to_map_del]|].
        split; [done|]. symmetry. apply delete_id. by rewrite eq_None_not_Some, <- has_entry_map. }
      destruct Hl as [Hs' Hl]. split; [|split; [exists b, l', S; by split|apply P]].
      destruct O as [(-> & He & _)|(-> & He & _)]; rewrite has_entry_map in He by done.
      + by destruct He as [? ->].
      + by rewrite <- eq_None_not_Some in He; rewrite He. }
  unfold spec in Sp. destruct (nkfs_btree_delete_key G fuel k s) as [rc s'| | |]; [|done..].
  destruct Sp as (-> & T' & E). by exists s'.
Qed.

End Delete.

End BtreeDelete.
