(* ===== verification/BtreeDemo.v ===== *)
(** * A small tree

    The theorems about the tree at work: a geometry with [T = 2], the real block
    allocator over ten blocks, and the empty tree on it.  The examples run the
    model; two of them are failures of the code. *)

From Stdlib Require Import ZArith Lia.
From coqutil Require Import Byte.
From stdpp Require Import base list gmap strings.
From S2P Require Import Prelude StMonad BtreeNode BtreeNodeSpec Btree BtreeRep BtreeMem BtreeInsert BtreeGrow BtreeSpec BtreeDelete Balloc XXHash Bytes.
From S2P Require Import BtreeDisk Csum DioPages Dio DioInv DioEvict DioSpec DioClient Mem CharHex ObjId Super BlockTree BtreeStore.
From S2P Require Import Inode InodeSpec InodeOps InodeIo InodeFile InodeLife InodeClaims.
Import StMonad BtreeNode BtreeNodeSpec Btree BtreeRep BtreeMem BtreeInsert BtreeGrow BtreeSpec BtreeDelete.
Local Open Scope Z_scope.

Module BtreeDemo.

Definition tiny : geom := Geom 2 3 3 2 2.

Lemma tiny_ok : geom_ok tiny.
Proof. split; cbn; lia. Qed.

(** The key whose last byte is [x]. *)
Definition key_of (x : byte) : list byte := replicate 15 Init.Byte.x00 ++ [x].

Definition demo1 : Balloc.nkfs_sb :=
  Balloc.Sb 10 1 1 4096 [3 :: replicate 511 0] 2 0 [0] (fun _ => false) 0 (fun _ => false) 0.

Lemma demo1_used : Balloc.used demo1 = {[0; 1]}.
Proof. vm_compute. reflexivity. Qed.

Lemma demo1_ok : ba_ok demo1.
Proof.
  split; [split; [done|done|done| |done|]|rewrite demo1_used; apply elem_of_union_l, elem_of_singleton; done].
  - intros [|[|k]] ws E; [|done..]. assert (ws = 3 :: replicate 511 0) as -> by (by injection E). split; [done|].
    constructor; [done|]. by apply Forall_replicate.
  - rewrite demo1_used. done.
Qed.

Definition leaf1 : node := set_leaf true (empty_node tiny 1).

Definition demo_state : @Btree.state Balloc.nkfs_sb :=
  State {[1%nat := (leaf1, 1%nat)]} 2 {[1 := 1%nat]} 1 1 false 1 {[1 := leaf1]} demo1
    (fun _ => false) 0 (fun _ => WOk) 0 (fun _ => true).

(** A store of such trees, all of whose nodes can be read back. *)
Definition tiny_store : BlockTree.BlockTree (@Btree.state Balloc.nkfs_sb) BtreeStore.store :=
  BtreeStore.btree_store tiny tiny_ok (fun _ => true) 3 (le_n 3) (fun _ _ _ _ => eq_refl).

Lemma demo_tree : tree_map tiny demo_state 0 ∅.
Proof.
  exists 1, [], {[1]}. split; [|done]. eapply (tree_single tiny tiny_ok demo_state 1 leaf1 1); try done; [cbn; lia| | | | |].
  - intros x m E. cbn [disk demo_state] in E. apply lookup_singleton_Some in E as [<- <-]. done.
  - exists leaf1. split; [done|]. split; [apply (empty_leaf_ok tiny)|]. cbn. split; [done|]. split; [lia|done].
  - constructor.
  - intros x ->%elem_of_singleton. split; [|done]. change (1 ∈ Balloc.used demo1). rewrite demo1_used. set_solver.
  - apply demo1_ok.
Qed.

(** ** A tree of two levels *)

(** The result of inserting the keys in order, all with value 1, with [T = 2],
    one node of three keys. *)
Fixpoint insert_all (ks : list byte) (s : @Btree.state Balloc.nkfs_sb) : option (@Btree.state Balloc.nkfs_sb) :=
  match ks with
  | [] => Some s
  | x :: ks' =>
      match nkfs_btree_insert_key tiny 20 (key_of x) 1 false s with
      | Done 0 s' => insert_all ks' s'
      | _ => None
      end
  end.

Definition found (x : byte) (s : @Btree.state Balloc.nkfs_sb) : option (Z * option Z) :=
  match nkfs_btree_find_key tiny 20 (key_of x) s with
  | Done r _ => Some r
  | _ => None
  end.

Definition four_keys : list byte := [Init.Byte.x01; Init.Byte.x02; Init.Byte.x03; Init.Byte.x04].

(** The levels above the leaves, along the first children. *)
Fixpoint height (d : Z -> option node) (fuel : nat) (b : Z) : nat :=
  match fuel with
  | O => O
  | S fuel' =>
      match d b with
      | Some n => if leaf n then O else S (height d fuel' (cflat n !!! 0%nat))
      | None => O
      end
  end.

Lemma bt_height d fuel : forall h m b l S, bt tiny d h m b l S -> (h < fuel)%nat -> height d fuel b = h.
Proof.
  induction fuel as [|fuel IH]; intros h m b l S Hb Hf; [lia|]. cbn [height].
  destruct (bt_root tiny tiny_ok _ _ _ _ _ _ Hb) as (n & E & _ & _ & _ & _ & Lf). rewrite E, Lf. destruct h as [|h]; [done|]. cbn [Nat.eqb].
  destruct (bt_child tiny tiny_ok _ _ _ _ _ _ n 0 Hb E ltac:(lia)) as (A & t & C & LA & _ & F & -> & _).
  f_equal. apply length_zero_iff_nil in LA as ->. apply Forall_cons in F as [F _]. eapply IH; [exact F|lia].
Qed.

(** The states [insert_all] goes through are trees without failures. *)
Lemma insert_all_tree ks : forall s s' h m, insert_all ks s = Some s' -> (2 * (h + length ks) + 1 <= 20)%nat ->
  tree_map tiny s h m -> env_same demo_state s ->
  exists h', (h' <= h + length ks)%nat /\ env_same demo_state s' /\ tree_map tiny s' h' (foldl (fun m x => <[key_val (key_of x) := 1]> m) m ks).
Proof.
  induction ks as [|x ks IH]; intros s s' h m E Hf T Es; cbn [insert_all foldl length] in *.
  - injection E as <-. exists h. split; [lia|done].
  - destruct T as (b & l & S & T & ->). pose proof (tree_sorted _ _ _ _ _ _ T) as Hs.
    pose proof (insert_key_spec tiny tiny_ok 20 (key_of x) 1 false s h b l S T (env_rel _ _ Es) ltac:(intros t; by rewrite (env_wfail _ _ Es))
      eq_refl ltac:(lia)) as Sp. unfold spec in Sp. destruct (nkfs_btree_insert_key tiny 20 (key_of x) 1 false s) as [rc s1| | |]; [|done..].
    destruct Sp as (h1 & S1 & P & Hh & O). destruct rc; [|done..].
    destruct O as [(_ & _ & T1)|[(? & _)|([?|?] & _)]]; [|done..].
    destruct (IH s1 s' h1 (to_map (kv_ins (key_of x) 1 l)) E ltac:(lia)) as (h' & Hh' & Es' & T').
    + by exists b, (kv_ins (key_of x) 1 l), S1.
    + eapply tree_env_trans; [exact Es|apply P].
    + exists h'. split; [lia|]. split; [done|]. by rewrite to_map_ins in T'.
Qed.

(** The root has the key 2, its leaves 1 and 3, 4. *)
Definition s4 : @Btree.state Balloc.nkfs_sb := default demo_state (insert_all four_keys demo_state).
Definition m4 : gmap Z Z := {[1 := 1; 2 := 1; 3 := 1; 4 := 1]}.

Definition ends {A} (r : StMonad.run (@Btree.state Balloc.nkfs_sb) A) : option A := match r with Done a _ => Some a | _ => None end.

Lemma s4_made : insert_all four_keys demo_state = Some s4.
Proof. vm_compute. reflexivity. Qed.

Lemma s4_tree : env_same demo_state s4 /\ tree_map tiny s4 1 m4.
Proof.
  destruct (insert_all_tree four_keys demo_state s4 0 ∅ s4_made ltac:(cbn; lia) demo_tree ltac:(done)) as (h & Hh & E & T). split; [done|].
  assert (h = 1%nat) as <-; [|replace m4 with (foldl (fun (m : gmap Z Z) x => <[key_val (key_of x) := 1]> m) ∅ four_keys) by (vm_compute; reflexivity); exact T].
  destruct T as (b & l & S & [C I Hbt _ _] & _). cbn in Hh. rewrite <- (bt_height _ 6 h _ _ _ _ Hbt ltac:(lia)).
  destruct (vis_at _ _ _ _ _ _ C I) as (n & r & _ & <- & Eo & _).
  assert (Eb : block <$> (fst <$> objs s4 !! root s4) = Some 1) by (vm_compute; reflexivity). rewrite Eo in Eb. injection Eb as ->. vm_compute. reflexivity.
Qed.

Lemma s4_reads : no_rfail tiny s4.
Proof.
  destruct s4_tree as [E _]. split; [intros t; by rewrite (env_rfail _ _ E)|].
  intros (h & b & l & S & x & c & _ & _ & _ & _ & Hr). by rewrite (env_rb _ _ E) in Hr.
Qed.

Lemma s4_open : releasing s4 = false /\ writes_ok s4.
Proof. destruct s4_tree as [E _]. split; [by rewrite (env_rel _ _ E)|intros t; by rewrite (env_wfail _ _ E)]. Qed.

(** Seven goes into the leaf on the right. *)
Lemma nkfs_btree_insert_key_refines_map_witness :
  exists s' h', nkfs_btree_insert_key tiny 5 (key_of Init.Byte.x07) 5 false s4 = Done 0 s' /\ tree_map tiny s' h' (<[7 := 5]> m4).
Proof.
  destruct s4_tree as [_ T], s4_open as [Hr Hw].
  assert (Er : ends (nkfs_btree_insert_key tiny 5 (key_of Init.Byte.x07) 5 false s4) = Some 0) by (vm_compute; reflexivity).
  destruct (nkfs_btree_insert_key_refines_map tiny tiny_ok 5 (key_of Init.Byte.x07) 5 false s4 1 m4 T Hr Hw eq_refl ltac:(lia))
    as (rc & s' & h' & m' & E & T' & _ & _ & O). rewrite E in Er. injection Er as ->. exists s', h'. split; [exact E|].
  destruct O as [(_ & -> & _)|[(? & _)|([?|?] & _)]]; [exact T'|discriminate..].
Defined.

(** Four is in a leaf, which is read from the disk. *)
Lemma nkfs_btree_find_key_refines_map_witness :
  exists s', nkfs_btree_find_key tiny 2 (key_of Init.Byte.x04) s4 = Done (0, Some 1) s' /\ tree_map tiny s' 1 m4.
Proof.
  destruct s4_tree as [_ T], s4_open as [Hr _].
  destruct (nkfs_btree_find_key_refines_map tiny tiny_ok 2 (key_of Init.Byte.x04) s4 1 m4 T Hr s4_reads eq_refl ltac:(lia)) as (s' & E & T' & _).
  exists s'. split; [exact E|exact T'].
Defined.

(** The leaf of four has a key to spare. *)
Lemma s4_roomy : roomy tiny (key_of Init.Byte.x04) (vis s4) 1 1.
Proof.
  exists (default leaf1 (vis s4 1)), 1%nat, (default leaf1 (vis s4 (cflat (default leaf1 (vis s4 1)) !!! 1%nat))).
  do 4 (split; [vm_compute; reflexivity|]). split; [vm_compute; lia|done].
Qed.

Lemma s4_root : nkfs_btree_root_block s4 = Done 1 s4.
Proof.
  unfold nkfs_btree_root_block, bind, gets, Btree.get, ret. destruct (objs s4 !! root s4) as [[n r]|] eqn:E; [|by vm_compute in E].
  assert (Eb : block <$> (fst <$> objs s4 !! root s4) = Some 1) by (vm_compute; reflexivity). rewrite E in Eb. by injection Eb as ->.
Qed.

Lemma nkfs_btree_delete_key_refines_map_witness :
  exists s', nkfs_btree_delete_key tiny 2 (key_of Init.Byte.x04) s4 = Done 0 s' /\ tree_map tiny s' 1 {[1 := 1; 2 := 1; 3 := 1]}.
Proof.
  destruct s4_tree as [_ T], s4_open as [Hr Hw].
  destruct (nkfs_btree_delete_key_refines_map tiny tiny_ok (key_of Init.Byte.x04) eq_refl 2 s4 1 m4 1 T s4_root s4_roomy Hr s4_reads Hw ltac:(lia))
    as (s' & E & T' & _). exists s'. split; [exact E|].
  replace ({[1 := 1; 2 := 1; 3 := 1]} : gmap Z Z) with (delete (key_val (key_of Init.Byte.x04)) m4) by (vm_compute; reflexivity). exact T'.
Defined.

Lemma nkfs_btree_reopen_same_map_witness :
  exists b s', nkfs_btree_create tiny b (tree_zero (disk demo_state) demo1 (fun _ => false) (fun _ => WOk) (fun _ => true)) = Done true s' /\
  tree_map tiny s' 0 ∅.
Proof.
  destruct (nkfs_btree_reopen_same_map tiny tiny_ok demo_state 0 ∅ (fun _ => false) (fun _ => WOk) (fun _ => true))
    as (b & n & ok & s' & _ & _ & E & -> & T); [apply demo_tree|done|].
  exists b, s'. split; [exact E|]. by apply T.
Defined.

Lemma nkfs_btree_create_empty_witness :
  exists ok s', nkfs_btree_create tiny 0 (tree_zero ∅ demo1 (fun _ => false) (fun _ => WOk) (fun _ => true)) = Done ok s' /\
  (ok = true -> tree_map tiny s' 0 ∅).
Proof.
  destruct (nkfs_btree_create_empty tiny tiny_ok ∅ demo1 (fun _ => false) (fun _ => WOk) (fun _ => true)) as (ok & s' & E & H);
    [apply demo1_ok|done|done|]. exists ok, s'. split; [exact E|]. intros ->. apply H.
Defined.

Lemma delete_child_index_out_of_bounds_witness :
  nkfs_btree_node_delete_child_index nkfs_geom (set_nr_keys 895 (empty_node nkfs_geom 1)) 1 = Bug.
Proof. apply delete_child_index_out_of_bounds; apply Nat.leb_le; reflexivity. Defined.

(** ** Runs *)

(** Ten keys split the root twice and are all found. *)
Example ten_keys :
  (fun s => map (fun x => found x s) [Init.Byte.x00; Init.Byte.x05; Init.Byte.x09; Init.Byte.x0a]) <$>
    insert_all [Init.Byte.x05; Init.Byte.x03; Init.Byte.x08; Init.Byte.x01; Init.Byte.x09;
                Init.Byte.x00; Init.Byte.x02; Init.Byte.x04; Init.Byte.x06; Init.Byte.x07] demo_state =
  Some [Some (0, Some 1); Some (0, Some 1); Some (0, Some 1); Some (- ENOENT, None)].
Proof. vm_compute. reflexivity. Qed.

(** The same tree with other failures to come. *)
Definition with_faults (rf : nat -> bool) (wf : nat -> wres) (s : @Btree.state Balloc.nkfs_sb) : @Btree.state Balloc.nkfs_sb :=
  State (objs s) (next s) (nodes s) (nodes_active s) (root s) (releasing s) (tref s) (disk s) (bal s) rf 0 wf 0 (reads_back s).

Definition status {A} (r : StMonad.run (@Btree.state Balloc.nkfs_sb) A) : string :=
  match r with
  | Done _ _ => "done"
  | Crash => "crash"
  | Hang => "hang"
  | NoFuel => "no fuel"
  end.

(** What a reader finds after the tree is opened again at block 1. *)
Definition found_after_reopen (x : byte) (s : @Btree.state Balloc.nkfs_sb) : option (Z * option Z) :=
  match nkfs_btree_create tiny 1 (tree_zero (disk s) (bal s) (fun _ => false) (fun _ => WOk) (reads_back s)) with
  | Done true s' => found x s'
  | _ => None
  end.

(** Errors of [nkfs_btree_node_write] are dropped: an insertion whose write
    fails reports success, and after reopening the tree the key is not there. *)
Theorem nkfs_btree_insert_drops_write_error :
  match nkfs_btree_insert_key tiny 3 (key_of Init.Byte.x07) 5 false (with_faults (fun _ => false) (fun _ => WGet) demo_state) with
  | Done rc s' => rc = 0 /\ found Init.Byte.x07 s' = Some (0, Some 5) /\
      found_after_reopen Init.Byte.x07 s' = Some (- ENOENT, None)
  | _ => False
  end.
Proof. vm_compute. split; [reflexivity|]. split; reflexivity. Qed.

(** In a tree of two levels a lookup stops the machine when the child
    cannot be read, and a deletion that has to rebalance does so without any
    failure. *)
Theorem nkfs_btree_two_levels_crash :
  match insert_all four_keys demo_state with
  | Some s =>
      status (nkfs_btree_find_key tiny 20 (key_of Init.Byte.x04) (with_faults (fun _ => true) (fun _ => WOk) s)) = "crash"%string /\
      status (nkfs_btree_delete_key tiny 20 (key_of Init.Byte.x01) s) = "crash"%string
  | None => False
  end.
Proof. vm_compute. split; reflexivity. Qed.

End BtreeDemo.

(** * A file at work

    The inode over the B-tree, allocator and cluster cache of the program, with the
    node geometry and the layout on disk of include/nkfs_image.h: a device of ten
    blocks of 64 KB, blocks 0 and 1 in use. *)

Import XXHash Bytes StMonad Csum ObjId DioClient Inode InodeSpec InodeOps InodeIo InodeFile InodeLife InodeClaims.
Import BtreeDemo.

Module InodeDemo.

Local Abbreviation le := XXHash.XXH_littleEndian.
Local Abbreviation tree_obj := (@Btree.state Balloc.nkfs_sb).

(** One file alone: nothing else to keep. *)
#[local] Instance none_kept : Kept tree_obj := {| kept_tree _ _ _ := False; kept_block _ _ := False |}.

#[local] Instance demo_store : BlockTree tree_obj BtreeStore.store := BtreeStore.nkfs_store le.

Local Abbreviation ctx0 := Super.demo_ctx.

(** No failures; one cluster of 64 KB in memory at a time. *)
Definition dev0 : Dio.dio_dev :=
  Dio.Dev ∅ 1 ∅ 65536 0 1 1 0 (fun _ => replicate 16 DioSpec.zero_page) (fun _ => (0, true)) 0 (fun _ => false) 1 (fun _ => DioSpec.zero_page).

Lemma dev0_ok : DioEvict.ok 0 dev0 [] [].
Proof.
  eapply (DioSpec.dio_dev_create_ok 65536 1 (fun _ => replicate 16 DioSpec.zero_page) (fun _ => (0, true)) (fun _ => false) (fun _ => DioSpec.zero_page)).
  - reflexivity.
  - lia.
  - intros x. split; [apply Forall_replicate, length_replicate|reflexivity].
  - intros t. apply length_replicate.
Qed.

Lemma dev0_calm : DioInv.calm dev0.
Proof. split; reflexivity. Qed.

Lemma dev0_cache : cache 0 dev0 [] (fun x => concat (DioInv.view dev0 x)).
Proof. split; [apply dev0_calm|apply dev0_ok|by intros x _|constructor]. Qed.

(** [nr] blocks, of which the first two are in use. *)
Definition balloc_of (nr : Z) : Balloc.nkfs_sb :=
  Balloc.Sb nr 1 1 65536 [3 :: replicate 8191 0] 2 0 [0] (fun _ => false) 0 (fun _ => false) 0.

Lemma balloc_of_ok nr : 0 < nr < 2 ^ 19 -> Balloc.used (balloc_of nr) = {[0; 1]} -> Btree.ba_ok (balloc_of nr).
Proof.
  intros Hn Hu. split; [|rewrite Hu; apply elem_of_union_l, elem_of_singleton; done]. split.
  - reflexivity.
  - reflexivity.
  - reflexivity.
  - intros [|[|k]] ws E; [|done..]. assert (ws = 3 :: replicate 8191 0) as -> by (by injection E). split; [reflexivity|].
    constructor; [done|]. by apply Forall_replicate.
  - cbn. lia.
  - rewrite Hu. reflexivity.
Qed.

Definition balloc1 : Balloc.nkfs_sb := balloc_of 10.

Lemma balloc1_used : Balloc.used balloc1 = {[0; 1]}.
Proof. vm_compute. reflexivity. Qed.

Lemma balloc1_ok : Btree.ba_ok balloc1.
Proof. apply balloc_of_ok; [lia|exact balloc1_used]. Qed.

Definition sb_of (b : Balloc.nkfs_sb) : Inode.sb_state tree_obj BtreeStore.store :=
  SbState dev0 (BtreeStore.Store b ∅) 65536 ∅ 1 ∅ 0 (fun _ => false) 0.

Lemma sb_of_rest nr : Btree.ba_ok (balloc_of nr) -> 0 < nr < 2 ^ 19 -> rest 0 (sb_of (balloc_of nr)) (fun x => concat (DioInv.view dev0 x)).
Proof.
  intros Hok Hn. assert (Hst : BtreeStore.store_ok (BtreeStore.Store (balloc_of nr) ∅)).
  { split; [exact Hok|]. intros x n E. change ((∅ : gmap Z BtreeNode.node) !! x = Some n) in E. by apply lookup_empty_Some in E. }
  split; try done.
  - intros x Hx. change (0 <= x < nr) in Hx. split; [lia|]. change (x * 128 < 2 ^ 64). lia.
  - apply dev0_cache.
  - intros p [i E]. change ((∅ : gmap nat _) !! p = Some i) in E. by apply lookup_empty_Some in E.
Qed.

Definition sb0 : Inode.sb_state tree_obj BtreeStore.store := sb_of balloc1.

Lemma sb0_rest : rest 0 sb0 (fun x => concat (DioInv.view dev0 x)).
Proof. apply sb_of_rest; [exact balloc1_ok|lia]. Qed.

Lemma sb0_room : st_room (st sb0) 8.
Proof. split; [done|]. vm_compute. discriminate. Qed.

Lemma sb0_room3 : st_room (st sb0) 3.
Proof. split; [done|]. vm_compute. discriminate. Qed.

Lemma room_fits (x : BtreeStore.store) n : st_room x 5 -> (n <= 5)%nat -> st_room x n.
Proof. intros R Hn. by eapply InodeOps.room_le. Qed.

(** The empty file on it. *)
Lemma made_file s0 a : rest 0 s0 a -> st_room (st s0) 3 -> st_room (st s0) 8 -> bsize s0 = 65536 ->
  exists s p i, inode_file le ctx0 0 s p i 0 (fun _ => None) /\ ino i = Id 1 2 /\ i_size i = 0 /\ i_sem i = 0 /\ i_ref i = 1 /\
  inodes s !! i_block i = Some p /\ bsize s = 65536 /\ st_room (st s) 5.
Proof.
  intros R R3 R8 B. destruct (proj1 (spec_done _ _ _) (spec_inode_create le ctx0 eq_refl 0 (Id 1 2) s0 a R R3))
    as (r & s & _ & p & i & -> & HF & H1 & H2 & H3 & H4 & H5 & _ & H6 & H7).
  exists s, p, i. do 6 (split; [done|]). split; [by rewrite H6|]. by apply H7.
Qed.

Lemma demo_file : exists s p i, inode_file le ctx0 0 s p i 0 (fun _ => None) /\ ino i = Id 1 2 /\ i_size i = 0 /\ i_sem i = 0 /\ i_ref i = 1 /\
  inodes s !! i_block i = Some p /\ bsize s = 65536 /\ st_room (st s) 5.
Proof. exact (made_file sb0 _ sb0_rest sb0_room3 sb0_room eq_refl). Qed.

(** With three bytes in it. *)
Lemma demo_written : exists s p i f, inode_file le ctx0 0 s p i 1 f /\ i_size i = 3 /\ i_sem i = 0 /\ is_Some (f 0) /\ bsize s = 65536.
Proof.
  destruct demo_file as (s & p & i & HF & _ & Hz & Hs & _ & _ & Hb & Hr).
  pose proof (spec_io_write le ctx0 eq_refl 0 s p i 0 _ 0 [Init.Byte.x01; Init.Byte.x02; Init.Byte.x03] HF Hs ltac:(lia) ltac:(done) ltac:(done)) as Sp.
  rewrite Hb in Sp. specialize (Sp ltac:(vm_compute; lia)). apply spec_done in Sp as (r & s' & _ & i' & f' & k & I' & S' & B' & Hk & P' & HF' & Z' & R').
  destruct r as [err|c]; [destruct R' as (_ & _ & Hno & _); destruct Hno; apply room_fits; [done|vm_compute; lia]|].
  destruct R' as (_ & -> & _). exists s', p, i', f'. split; [exact HF'|]. split; [rewrite Z', Hz; reflexivity|]. split; [done|]. split; [|by rewrite B', Hb].
  pose proof (pa_new _ _ _ _ _ P' 0%nat _ eq_refl) as Hn. unfold byte_at in Hn. rewrite Hb in Hn. change ((0 + Z.of_nat 0) / 65536) with 0 in Hn. by destruct (f' 0).
Qed.

(** ** Witnesses *)

Lemma nkfs_inode_create_empty_witness : exists r s', nkfs_inode_create le ctx0 (Id 1 2) sb0 = Done r s' /\ made le ctx0 0 sb0 (Id 1 2) r s'.
Proof.
  apply (nkfs_inode_create_empty le ctx0 eq_refl 0 (Id 1 2) sb0 _ sb0_rest).
  apply sb0_room3.
Defined.


Lemma nkfs_inode_io_buf_read_refines_witness : exists s p i f, inode_file le ctx0 0 s p i 1 f /\
  exists s' k, nkfs_inode_io_buf_read le ctx0 p 1 5 s = Done (file_read (bsize s) (i_size i) f 1 5) s' /\ readers le ctx0 0 s p i 1 f k s'.
Proof.
  destruct demo_written as (s & p & i & f & HF & Hz & _). exists s, p, i, f. split; [exact HF|].
  apply (nkfs_inode_io_buf_read_refines le ctx0 eq_refl 0 s p i 1 f 1 5 HF); lia.
Defined.

Lemma nkfs_inode_write_then_read_witness : exists s p s1 eof s2,
  nkfs_inode_io_buf_write le ctx0 p 65535 [Init.Byte.x01; Init.Byte.x02] s = Done (inr 2) s1 /\
  nkfs_inode_io_buf_read le ctx0 p 65535 2 s1 = Done (inr ([Init.Byte.x01; Init.Byte.x02], eof)) s2.
Proof.
  destruct demo_file as (s & p & i & HF & _ & Hz & Hs & _ & _ & Hb & Hr). exists s, p.
  apply (nkfs_inode_write_then_read le ctx0 eq_refl 0 s p i 0 _ 65535 [Init.Byte.x01; Init.Byte.x02] HF Hs); try done; [lia| |].
  - rewrite Hb. vm_compute. lia.
  - rewrite Hb. apply room_fits; [done|vm_compute; lia].
Defined.

Lemma nkfs_inode_close_reopen_witness : exists s p i s1 r s2, nkfs_inode_deref p s = Done tt s1 /\
  nkfs_inode_read le ctx0 (i_block i) s1 = Done r s2 /\ reopened le ctx0 0 s1 i 0 (fun _ => None) r s2.
Proof.
  destruct demo_file as (s & p & i & HF & Ho & Hz & Hs & Hr & Hi & Hb & _). exists s, p, i.
  pose proof HF as (a & tb & tsb & m & ms & O & _ & _ & _ & _ & _ & Htb & Htsb). pose proof (op_lay _ _ _ _ _ _ _ _ _ _ _ _ O) as L.
  destruct (lay_tree _ _ _ _ _ _ _ _ L) as (t1 & _ & R1), (lay_sums _ _ _ _ _ _ _ _ L) as (t2 & _ & R2).
  pose proof (st_size_ok _ (lay_st _ _ _ _ _ _ _ _ L)) as Hz'. destruct (t_rep_used _ _ _ _ R1) as (_ & B1 & _), (t_rep_used _ _ _ _ R2) as (_ & B2 & _).
  rewrite <- Htb in B1. rewrite <- Htsb in B2.
  assert (Wf : inode_wf i) by (split; [by rewrite Ho|by rewrite Hz|lia|lia]).
  destruct (nkfs_inode_close_reopen le ctx0 eq_refl 0 s p i 0 _ HF Hr Hi Wf (Nat.le_0_l _)) as (s1 & r & s2 & E1 & _ & E2 & R). by exists s1, r, s2.
Defined.

Lemma nkfs_inode_read_locks_out_writers_witness : exists s p r s', nkfs_inode_io_buf_read le ctx0 p 0 1 s = Done r s' /\
  nkfs_inode_io_buf_write le ctx0 p 1 [Init.Byte.x09] s' = Hang.
Proof.
  destruct demo_written as (s & p & i & f & HF & Hz & Hs & Hf & Hb). exists s, p.
  destruct (nkfs_inode_read_locks_out_writers le ctx0 eq_refl 0 s p i 1 f 0 1 HF) as (r & s' & E & W); [lia..|vm_compute; lia|].
  exists r, s'. split; [exact E|]. apply W; [done..|]. by rewrite Hb.
Defined.

End InodeDemo.
