(* ===== verification/SbDemo.v ===== *)
(** * A host at work

    A device of ten blocks of a page is formatted, and objects are made, written
    and read on it, all by evaluation, with small nodes; the theorems on superblocks
    at these states.  The modules [ImageDemo] and [ObjDemo] apply the theorems on
    images and objects with the node geometry, the layout on disk and the block size
    of the program. *)

From Stdlib Require Import ZArith Lia.
From coqutil Require Import Byte.
From stdpp Require Import base list gmap relations.
From S2P Require Import Prelude XXHash Bytes StMonad Csum DioPages Dio DioInv DioEvict DioSpec DioClient Mem CharHex ObjId.
From S2P Require Import Super BtreeNode BtreeNodeSpec BtreeDisk BlockTree Btree BtreeRep BtreeMem BtreeSpec Balloc BtreeStore BtreeDemo Inode InodeLife.
From S2P Require Import InodeSpec InodeOps InodeFile InodePages SbList SbObjects SbListSpec SbFormat BtreeImage Dev DevSpec.
Import XXHash Bytes StMonad Csum ObjId DioClient SbList SbListSpec SbListClaims SbFormat SbFormatSpec.
Local Open Scope Z_scope.

Module SbDemo.

Local Abbreviation le := XXHash.XXH_littleEndian.
Local Abbreviation ctx0 := Super.demo_ctx.
Local Abbreviation tree_obj := (@Btree.state Balloc.nkfs_sb).

Definition sb0 : Inode.sb_state tree_obj BtreeStore.store :=
  Inode.SbState DioSpec.calm_dev (BtreeStore.Store BtreeDemo.demo1 ∅) 4096 ∅ 1 ∅ 0 (fun _ => false) 0.

Definition tiny_image : @ImageStore _ _ BtreeDemo.tiny_store :=
  BtreeImage.btree_image BtreeDemo.tiny BtreeDemo.tiny_ok (fun _ => true) 3 (le_n 3) (fun _ _ _ _ => eq_refl).

#[local] Instance demo_store : BlockTree tree_obj BtreeStore.store := BtreeDemo.tiny_store.
#[local] Instance demo_image : ImageStore tree_obj BtreeStore.store := tiny_image.

Definition rnd (b : byte) : Z * list byte := (0, replicate 16 b).

Definition no_host : host tree_obj BtreeStore.store := Host ∅ [] (fun _ => false) 0.

(** Two superblocks, of two devices. *)
Definition host_of (b1 b2 : byte) : host tree_obj BtreeStore.store :=
  match nkfs_sb_format le ctx0 40960 (rnd b1) sb0, nkfs_sb_format le ctx0 40960 (rnd b2) sb0 with
  | Done (inr (h1, t1)) s1, Done (inr (h2, t2)) s2 =>
      Host {[1%nat := MkSb h1 s1 (Some t1) 1 false []; 2%nat := MkSb h2 s2 (Some t2) 1 false []]} [1%nat; 2%nat] (fun _ => false) 0
  | _, _ => no_host
  end.

Definition host0 : host tree_obj BtreeStore.store := host_of Init.Byte.x01 Init.Byte.x02.

(** ** Evaluation *)

Definition end_of {S A} (r : @StMonad.run S A) : option A := match r with Done a _ => Some a | _ => None end.

(** An object is made, three bytes are put into it at offset two and read again from offset three. *)
Definition session (page : list byte) : StMonad.M (host tree_obj BtreeStore.store) (Z + Z * list (list byte)) :=
  bind (nkfs_sb_list_create_obj le ctx0 (rnd Init.Byte.x05)) (fun r =>
    match r with
    | inl err => ret (inl err)
    | inr o =>
        bind (nkfs_sb_list_put_obj le ctx0 o 2 0 3 [page]) (fun w =>
          match w with
          | inl err => ret (inl err)
          | inr _ => nkfs_sb_list_get_obj le ctx0 o 3 1 2 [replicate 4096 Init.Byte.x00]
          end)
    end).

Definition page1 : list byte := [Init.Byte.x11; Init.Byte.x12; Init.Byte.x13] ++ replicate 4093 Init.Byte.x00.

Example session_reads_back : match end_of (session page1 host0) with
  | Some (inr (n, [pg])) => n = 2 /\ take 4 pg = [Init.Byte.x00; Init.Byte.x12; Init.Byte.x13; Init.Byte.x00]
  | _ => False
  end.
Proof. vm_compute. by split. Qed.

(** ** The list of superblocks *)

Definition held_b (h : host tree_obj BtreeStore.store) : bool := forallb (fun pb => 0 <? sb_refs (snd pb)) (map_to_list (sbo h)).

Lemma held_held h : held_b h = true -> all_held h.
Proof.
  intros Hb p b E. unfold held_b in Hb. rewrite forallb_forall in Hb. apply elem_of_map_to_list, list_elem_of_In in E.
  specialize (Hb _ E). cbn in Hb. lia.
Qed.

(** The states are not to be computed by accident. *)
Lemma spec_end {S A} (m : @StMonad.M S A) (s : S) (Q : A -> S -> Prop) (P : A -> S -> Prop) : StMonad.spec m s Q -> (forall a s', Q a s' -> P a s') ->
  exists a s', m s = Done a s' /\ P a s'.
Proof. intros Hs HP. apply spec_done in Hs as (a & s' & E & HQ). exists a, s'. by split; [|apply HP]. Qed.

Lemma host0_held : all_held host0.
Proof. apply held_held. vm_compute. reflexivity. Qed.

Lemma nkfs_sb_list_refs_balanced_witness : exists r h', nkfs_sb_list_create_obj le ctx0 (rnd Init.Byte.x05) host0 = Done r h' /\
  books (fun _ => 0) host0 h'.
Proof.
  assert (E : end_of (nkfs_sb_list_create_obj le ctx0 (rnd Init.Byte.x05) host0) <> None) by (vm_compute; discriminate).
  pose proof (fun h' => nkfs_sb_list_refs_balanced le ctx0 host0 h' (Id 0 0) 0 0 0 [] (rnd Init.Byte.x05) host0_held) as W.
  destruct (nkfs_sb_list_create_obj le ctx0 (rnd Init.Byte.x05) host0) as [r h'| | |]; [|by destruct E..]. exists r, h'. split; [done|].
  apply (W h'). do 4 right. by exists r.
Defined.

(** The list has the first of the two; the second is inserted. *)
Definition host1 : host tree_obj BtreeStore.store := with_list [1%nat] host0.

Definition ids_b (h : host tree_obj BtreeStore.store) : list (option nkfs_obj_id) := (fun p => Super.id ∘ sb_hdr <$> sbo h !! p) <$> sb_list h.

Lemma listed_by_ids h : NoDup (sb_list h) -> Forall is_Some (ids_b h) -> NoDup (ids_b h) -> listed h.
Proof.
  intros Hn Hs Hi. assert (Hp : forall p, p ∈ sb_list h -> exists b, sbo h !! p = Some b).
  { intros p Hp. rewrite Forall_forall in Hs. specialize (Hs (Super.id ∘ sb_hdr <$> sbo h !! p)).
    destruct Hs as [o Ho]; [apply list_elem_of_fmap; by exists p|]. apply fmap_Some in Ho as (b & Eb & _). by exists b. }
  split; [done|intros p Hq; by destruct (Hp p Hq) as [b ->]|]. intros p q o Hq1 Hq2 (b & Eb & Ho) (c & Ec & Ho').
  apply list_elem_of_lookup in Hq1 as [i Ei], Hq2 as [j Ej].
  assert (Hij : i = j).
  { eapply (NoDup_lookup _ i j (Some o) Hi); unfold ids_b; rewrite list_lookup_fmap, ?Ei, ?Ej; cbn; rewrite ?Eb, ?Ec; cbn; congruence. }
  congruence.
Qed.

Lemma host1_ids : ids_b host1 = [Some (Id 72340172838076673 72340172838076673)].
Proof. vm_compute. reflexivity. Qed.

Lemma host0_ids : ids_b host0 = [Some (Id 72340172838076673 72340172838076673); Some (Id 144680345676153346 144680345676153346)].
Proof. vm_compute. reflexivity. Qed.

Lemma host1_listed : listed host1.
Proof. apply listed_by_ids; [apply NoDup_singleton|rewrite host1_ids; by repeat constructor|rewrite host1_ids; apply NoDup_singleton]. Qed.

Lemma host0_list : sb_list host0 = [1%nat; 2%nat].
Proof. vm_compute. reflexivity. Qed.

Lemma host0_listed : listed host0.
Proof. apply listed_by_ids; rewrite ?host0_ids, ?host0_list; [by apply (bool_decide_unpack _)|by repeat constructor|by apply (bool_decide_unpack _)]. Qed.

Definition is_there {A} (o : option A) : bool := match o with Some _ => true | None => false end.

Lemma host0_there p : (p = 1%nat \/ p = 2%nat) -> is_Some (sbo host0 !! p).
Proof.
  assert (E : forall p, p ∈ [1%nat; 2%nat] -> is_there (sbo host0 !! p) = true).
  { apply Forall_forall, Forall_cons_2, Forall_cons_2, Forall_nil_2; vm_compute; reflexivity. }
  intros Hp. specialize (E p). destruct (sbo host0 !! p) as [b|]; [by exists b|]. assert (false = true) by (apply E; set_solver). done.
Qed.

Lemma nkfs_sb_list_is_a_map_witness : exists r h', nkfs_sb_insert 2 host1 = Done r h' /\ listed h'.
Proof.
  destruct (host0_there 2%nat (or_intror eq_refl)) as [b Eb].
  assert (Hp : 2%nat ∉ sb_list host1) by (intros ?%list_elem_of_singleton; lia).
  destruct (nkfs_sb_list_is_a_map host1 2%nat b (Id 0 0) host1_listed host0_held Eb Hp) as [W _].
  refine (spec_end _ _ _ (fun _ h' => listed h') W _). intros r h' L. apply L.
Defined.

Definition counted_b (h : host tree_obj BtreeStore.store) : bool :=
  forallb (fun pb => (0 <=? free_of (snd pb)) && (free_of (snd pb) <? 2 ^ 64)) (map_to_list (sbo h)).

Lemma host0_counted : counted host0.
Proof.
  assert (E : counted_b host0 = true) by (vm_compute; reflexivity). intros p b _ Eb. unfold counted_b in E. rewrite forallb_forall in E.
  apply elem_of_map_to_list, list_elem_of_In in Eb. specialize (E _ Eb). cbn [snd] in E. lia.
Qed.

Lemma nkfs_sb_select_most_free_max_witness : exists r h', nkfs_sb_select_most_free host0 = Done r h' /\ exists p, r = Some p /\ p ∈ [1%nat; 2%nat].
Proof.
  refine (spec_end _ _ _ (fun r _ => exists p, r = Some p /\ p ∈ [1%nat; 2%nat])
    (nkfs_sb_select_most_free_max host0 host0_listed host0_counted host0_held) _).
  rewrite host0_list. intros [p|] h' W; [exists p; exact (conj eq_refl (proj1 W))|discriminate (proj1 W)].
Defined.

End SbDemo.

(** * Devices at work

    A device of ten blocks added to an empty host, by evaluation, and the theorems
    on devices at these states. *)

Import XXHash Bytes StMonad Csum ObjId SbList SbListSpec SbListClaims SbFormat Dev DevSpec DevClaims.
Import SbDemo.

Module DevDemo.

Local Abbreviation le := XXHash.XXH_littleEndian.
Local Abbreviation ctx0 := Super.demo_ctx.
Local Abbreviation tree_obj := (@Btree.state Balloc.nkfs_sb).

#[local] Instance demo_store : BlockTree tree_obj BtreeStore.store := BtreeDemo.tiny_store.
#[local] Instance demo_image : ImageStore tree_obj BtreeStore.store := tiny_image.

(** Ten empty blocks behind every path. *)
Definition blank_store : BtreeStore.store :=
  BtreeStore.Store (Balloc.Sb 0 0 0 0 [replicate 8192 0] 0 0 [0] (fun _ => false) 0 (fun _ => false) 0) ∅.

Definition blank_bdev : block_device BtreeStore.store :=
  Bdev (10 * NKFS_BLOCK_SIZE) 8 1 (fun _ => replicate 16 DioSpec.zero_page) blank_store (fun _ => (0, true)) (fun _ => false) (fun _ => DioSpec.zero_page).

Definition path (name : list byte) : option (block_device BtreeStore.store) := Some blank_bdev.

Definition boot0 : world tree_obj BtreeStore.store := boot (fun _ => false) (fun _ => false).

Definition name1 : list byte := [Init.Byte.x61].

Definition rnd (b : byte) : Z * list byte := (0, replicate 16 b).

Definition end_of {S A} (r : @StMonad.run S A) : option A := match r with Done a _ => Some a | _ => None end.

Definition added0 := nkfs_dev_add le ctx0 path name1 true (rnd Init.Byte.x01) boot0.

(** It works, and the same name cannot be added again. *)
Example add_twice : end_of (bind (nkfs_dev_add le ctx0 path name1 true (rnd Init.Byte.x01)) (fun r =>
  bind (nkfs_dev_add le ctx0 path name1 true (rnd Init.Byte.x02)) (fun r' =>
  bind (nkfs_dev_remove le ctx0 name1) (fun r'' => ret (r, r', r'')))) boot0) = Some (0, - EEXIST, 0).
Proof. vm_compute. reflexivity. Qed.

(** ** Witnesses *)

Lemma added0_done : end_of added0 = Some 0.
Proof. vm_compute. reflexivity. Qed.

Lemma end_done {S A} (r : @StMonad.run S A) a : end_of r = Some a -> exists s, r = Done a s.
Proof. destruct r as [a' s| | |]; [|discriminate..]. intros [= ->]. by exists s. Qed.

Lemma nkfs_dev_world_invariant_witness : exists w, rtc (step le ctx0 path) (boot (fun _ => false) (fun _ => false)) w /\ added0 = Done 0 w /\ dev_inv w.
Proof.
  destruct (end_done added0 0 added0_done) as [w E]. exists w.
  assert (R : rtc (step le ctx0 path) (boot (fun _ => false) (fun _ => false)) w) by (apply rtc_once; exact (step_add _ _ _ _ _ _ _ _ _ E)).
  exact (conj R (conj E (nkfs_dev_world_invariant le ctx0 path _ _ w R))).
Defined.

Lemma boot0_inv : dev_inv boot0.
Proof. apply boot_inv. Qed.

Lemma nkfs_dev_add_all_or_nothing_witness : exists w, added0 = Done 0 w /\ added boot0 name1 w.
Proof.
  destruct (end_done added0 0 added0_done) as [w E]. exists w. split; [exact E|].
  destruct (nkfs_dev_add_all_or_nothing le ctx0 path name1 true (rnd Init.Byte.x01) boot0 boot0_inv) as [W _].
  destruct (W 0 w E) as [[_ A]|[N _]]; [exact A|by destruct N].
Defined.

Definition unstarted : nkfs_dev tree_obj BtreeStore.store := MkDev 1 (Some blank_bdev) false NKFS_BLOCK_SIZE None None name1.

Lemma nkfs_dev_remove_unstarted_crashes_witness : exists w',
  nkfs_dev_insert 0 (with_devs {[0%nat := unstarted]} boot0) = Done 0 w' /\ nkfs_dev_remove le ctx0 name1 w' = Crash.
Proof.
  apply (nkfs_dev_remove_unstarted_crashes le ctx0 name1 0 unstarted boot0 boot0_inv).
  - intros p d E. change ((∅ : gmap nat (nkfs_dev tree_obj BtreeStore.store)) !! p = Some d) in E. by apply lookup_empty_Some in E.
  - split; [reflexivity|reflexivity|reflexivity|by eexists|reflexivity|reflexivity].
Defined.

End DevDemo.

(** * An image at work

    A device of ten blocks of 64 KB is formatted and loaded again. *)

Module ImageDemo.

Local Abbreviation le := XXHash.XXH_littleEndian.
Local Abbreviation ctx0 := Super.demo_ctx.
Local Abbreviation tree_obj := (@Btree.state Balloc.nkfs_sb).
Local Abbreviation sb0 := InodeDemo.sb0.
Local Abbreviation rnd := SbDemo.rnd.

#[local] Instance demo_store : BlockTree tree_obj BtreeStore.store := BtreeStore.nkfs_store le.
#[local] Instance demo_image : ImageStore tree_obj BtreeStore.store := BtreeImage.nkfs_image le.

Lemma placed_empty b : BtreeImage.placed (BtreeStore.Store b ∅).
Proof. intros x n E. cbn in E. by apply lookup_empty_Some in E. Qed.

Lemma sb0_blank : blank sb0 655360.
Proof.
  intros h bs Hb Hn Hm Hr. change bs with 65536 in *. change (655360 / 65536) with 10 in *. assert (Ebm : Super.bm_blocks h = 1) by lia.
  pose proof InodeDemo.balloc1_ok as [O _]. destruct O. split; [|apply placed_empty].
  split; cbn -[Balloc.bm]; rewrite ?Hb, ?Hn, ?Ebm; done.
Qed.

Lemma nkfs_sb_format_makes_image_witness : exists r s', nkfs_sb_format le ctx0 655360 (rnd Init.Byte.x01) sb0 = Done r s' /\
  exists h t a', r = inr (h, t) /\ image le ctx0 0 h ∅ s' a' /\ Super.size h = 655360.
Proof.
  refine (SbDemo.spec_end _ _ _ (fun r s' => exists h t a', r = inr (h, t) /\ image le ctx0 0 h ∅ s' a' /\ Super.size h = 655360)
    (nkfs_sb_format_makes_image le ctx0 eq_refl 0 sb0 _ 655360 (rnd Init.Byte.x01) (InodeLife.re_cache _ _ _ InodeDemo.sb0_rest) eq_refl _ _ _ _ _ sb0_blank) _);
    [split; done|done|lia|done|done|].
  change (Inode.bsize sb0) with 65536. change (655360 / 65536) with 10. intros [err|[h t]] s' W.
  - exfalso. destruct W as [_ [W|W]]; [by apply W|]. specialize (W 1). lia.
  - destruct W as (a' & I & _ & _ & Hz & _). by exists h, t, a'.
Defined.

Lemma sb0_live : exists h s a, live 0 h ∅ s a /\ (forall t, Inode.mfail s t = false) /\ Super.size h = 655360.
Proof.
  assert (H : exists r s', nkfs_sb_format le ctx0 655360 (rnd Init.Byte.x01) sb0 = Done r s' /\
    exists h a, live 0 h ∅ s' a /\ Super.size h = 655360).
  { refine (SbDemo.spec_end _ _ _ (fun r s' => exists h a, live 0 h ∅ s' a /\ Super.size h = 655360)
      (spec_format le ctx0 eq_refl 0 sb0 _ 655360 (rnd Init.Byte.x01) (InodeLife.re_cache _ _ _ InodeDemo.sb0_rest) eq_refl _ _ _ _ _ sb0_blank) _);
      [split; done|done|lia|done|done|].
    change (Inode.bsize sb0) with 65536. change (655360 / 65536) with 10. intros [err|[h t]] s' W.
    - exfalso. destruct W as [_ [W|W]]; [by apply W|]. specialize (W 1). lia.
    - destruct W as (a' & [L _] & _ & _ & Hz & _). by exists h, a'. }
  destruct H as (r & s' & _ & h & a & L & Hz).
  exists h, (Inode.SbState (Inode.ddev s') (Inode.st s') (Inode.bsize s') (Inode.objs s') (Inode.next s') (Inode.inodes s') (Inode.inodes_active s') (fun _ => false) 0), a.
  split; [|done]. destruct L. by split.
Qed.

Lemma nkfs_sb_sync_then_load_witness : exists h s s' t,
  bind (Inode.dio (Super.nkfs_sb_sync le ctx0 (with_used (st_count (Inode.st s)) h))) (fun _ => nkfs_sb_load le ctx0 655360) s =
    Done (inr (with_used (st_count (Inode.st s)) h, t)) s' /\ t_rep t (Inode.st s') (Super.inodes_tree_block h) ∅.
Proof.
  destruct sb0_live as (h & s & a & L & Hm & Hz). exists h, s. 
  pose proof (nkfs_sb_sync_then_load le ctx0 eq_refl 0 h ∅ s a 655360 L ltac:(lia) (Nat.le_0_l _) Hm) as W.
  apply spec_done in W as (r & s' & E & t & a' & -> & R & _). by exists s', t.
Defined.

End ImageDemo.

(** * Objects at work

    Two objects on a device of thirty blocks: the theorems on objects at these
    states. *)

Import InodeFile InodePages SbObjects.

Module ObjDemo.

Local Abbreviation le := XXHash.XXH_littleEndian.
Local Abbreviation ctx0 := Super.demo_ctx.
Local Abbreviation tree_obj := (@Btree.state Balloc.nkfs_sb).

#[local] Instance demo_store : BlockTree tree_obj BtreeStore.store := BtreeStore.nkfs_store le.

Definition balloc3 : Balloc.nkfs_sb := InodeDemo.balloc_of 30.

Lemma balloc3_used : Balloc.used balloc3 = {[0; 1]}.
Proof. vm_compute. reflexivity. Qed.

Lemma balloc3_ok : Btree.ba_ok balloc3.
Proof. apply InodeDemo.balloc_of_ok; [lia|exact balloc3_used]. Qed.

Definition sb3 : Inode.sb_state tree_obj BtreeStore.store := InodeDemo.sb_of balloc3.

Lemma sb3_rest : InodeLife.rest (KT := none_kept) 0 sb3 (fun x => concat (DioInv.view InodeDemo.dev0 x)).
Proof. apply InodeDemo.sb_of_rest; [exact balloc3_ok|lia]. Qed.

Definition rnd1 : Z * list byte := (0, replicate 16 Init.Byte.x05).
Definition rnd2 : Z * list byte := (0, replicate 16 Init.Byte.x06).
Definition o1 : nkfs_obj_id := snd (nkfs_obj_id_gen rnd1).
Definition o2 : nkfs_obj_id := snd (nkfs_obj_id_gen rnd2).

Lemma first_wf : id_wf o1.
Proof. split; vm_compute; split; (discriminate || reflexivity). Qed.
Lemma second_wf : id_wf o2.
Proof. split; vm_compute; split; (discriminate || reflexivity). Qed.
Lemma o1_o2 : okey le o1 <> okey le o2.
Proof. vm_compute. discriminate. Qed.

(** An empty superblock, and one with two objects. *)
Definition created3 : option Z := match t_create 0 (Inode.st sb3) with Ret (_, x) => Some (st_count x) | Bug => None end.

Lemma created3_count : created3 = Some 3.
Proof. vm_compute. reflexivity. Qed.

Lemma empty_sb : exists b, sb_rep le ctx0 0 b ∅ /\ st_room (Inode.st (sb_in b)) 27 /\ SbListSpec.free_of b = 27 /\ sb_refs b = 1.
Proof.
  destruct (disk_rep_empty le ctx0 0 sb3 _ sb3_rest eq_refl eq_refl eq_refl ltac:(split; [done|]; vm_compute; discriminate)) as (t & bt & x & Ex & D & Rm).
  exists (MkSb (Super.Sb (Id 1 1) 30 0 0 1966080 1 1 0 2 65536) (Inode.with_store x sb3) (Some t) 1 false []). split; [|split; [|split; [|done]]].
  - split; [done|]. exists t, bt, (fun x => concat (DioInv.view InodeDemo.dev0 x)), ∅. split; [done|]. split; [exact D|by rewrite fmap_empty].
  - apply Rm. split; [done|]. vm_compute. discriminate.
  - pose proof created3_count as Ec. unfold created3 in Ec. rewrite Ex in Ec. injection Ec as Ec. unfold SbListSpec.free_of. cbn in *. by rewrite Ec.
Qed.

Lemma two_objects : exists b F fl1 fl2, sb_rep le ctx0 0 b F /\ F !! okey le o1 = Some fl1 /\ F !! okey le o2 = Some fl2 /\
  fl_cap fl1 = 0%nat /\ fl_cap fl2 = 0%nat /\ fl_size fl1 = 0 /\ st_room (Inode.st (sb_in b)) 21.
Proof.
  destruct empty_sb as (b & Hb & Hr & _).
  destruct (proj1 (spec_done _ _ _) (spec_create_obj le ctx0 eq_refl 0 b ∅ rnd1 Hb first_wf (lookup_empty _) ltac:(rewrite map_size_empty; cbn; lia) ltac:(eapply InodeOps.room_le; [|exact Hr]; lia)))
    as (r1 & b1 & _ & _ & _ & Rm1 & roots1 & Hb1).
  assert (Hr1 : st_room (Inode.st (sb_in b1)) 24) by (by apply Rm1). fold o1 in Hb1.
  destruct (proj1 (spec_done _ _ _) (spec_create_obj le ctx0 eq_refl 0 b1 _ rnd2 Hb1 second_wf ltac:(by rewrite lookup_insert_ne, lookup_empty by exact o1_o2)
      ltac:(rewrite map_size_insert_None, map_size_empty by apply lookup_empty; cbn; lia) ltac:(eapply InodeOps.room_le; [|exact Hr1]; lia)))
    as (r2 & b2 & _ & _ & _ & Rm2 & roots2 & Hb2). fold o2 in Hb2.
  eexists b2, _, (File 0 0 (fun _ => None) roots1), (File 0 0 (fun _ => None) roots2). split; [exact Hb2|].
  split; [rewrite lookup_insert_ne by (apply not_eq_sym, o1_o2); apply lookup_insert_eq|]. split; [apply lookup_insert_eq|].
  do 3 (split; [done|]). by apply Rm2.
Qed.

Lemma nkfs_sb_create_obj_adds_witness : exists b b' roots, nkfs_sb_create_obj le ctx0 rnd1 b = Done (inr o1) b' /\
  sb_rep le ctx0 0 b' (<[okey le o1 := File 0 0 (fun _ => None) roots]> ∅).
Proof.
  destruct empty_sb as (b & Hb & Hr & _). exists b.
  apply (nkfs_sb_create_obj_adds le ctx0 eq_refl 0 b ∅ rnd1 Hb first_wf (lookup_empty _)); [rewrite map_size_empty; cbn; lia|].
  eapply InodeOps.room_le; [|exact Hr]. lia.
Defined.

Lemma fits0 fl : fl_cap fl = 0%nat -> (fl_cap fl <= t_safe)%nat.
Proof. intros ->. apply Nat.le_0_l. Qed.

Definition page (x : byte) : list byte := replicate 4096 x.

Lemma page_ok x : pages_ok [page x].
Proof. constructor; [apply length_replicate|constructor]. Qed.

(** Five bytes across the border of two blocks. *)
Lemma nkfs_sb_put_obj_refines_witness : exists b F fl b', nkfs_sb_put_obj le ctx0 o1 65534 7 5 [page Init.Byte.x09] b = Done 0 b' /\
  put_done le ctx0 0 b F (okey le o1) fl 65534 (window [page Init.Byte.x09] 7 5) 2 0 b'.
Proof.
  destruct two_objects as (b & F & fl1 & fl2 & Hb & E1 & E2 & C1 & C2 & Z1 & Hr).
  destruct (nkfs_sb_put_obj_refines le ctx0 eq_refl 0 b F o1 fl1 65534 7 5 [page Init.Byte.x09] Hb E1 (fits0 _ C1) (page_ok _))
    as (r & b' & E & P); [lia..|cbn; lia|lia|rewrite C1; cbn; lia|].
  exists b, F, fl1, b'. assert (r = 0) as ->; [|by split].
  destruct P as (F' & _ & f' & c & _ & _ & _ & _ & [(-> & _)|(_ & _ & Hno)]); [done|]. destruct Hno. eapply InodeOps.room_le; [|exact Hr]. cbn. lia.
Defined.

(** The object with these bytes. *)
Lemma holding_five : exists b F fl, sb_rep le ctx0 0 b F /\ F !! okey le o1 = Some fl /\ fl_cap fl = 2%nat /\ fl_size fl = 65539 /\
  read_at (Inode.bsize (sb_in b)) (fl_data fl) 65534 5 = Some (replicate 5 Init.Byte.x09).
Proof.
  destruct two_objects as (b & F & fl1 & fl2 & Hb & E1 & E2 & C1 & C2 & Z1 & Hr).
  destruct (proj1 (spec_done _ _ _) (spec_sb_put_obj le ctx0 eq_refl 0 b F o1 fl1 65534 7 5 [page Init.Byte.x09] Hb E1
    (sb_readable le ctx0 eq_refl 0 _ _ _ _ Hb E1 (fits0 _ C1)) (page_ok _) ltac:(lia) ltac:(lia) ltac:(lia) ltac:(cbn; lia) ltac:(lia)
    ltac:(rewrite C1; apply Nat.leb_le; vm_compute; reflexivity))) as (r & b' & _ & F' & Hb' & f' & c & _ & Pa & -> & Eb & [(_ & -> & _)|(_ & _ & Hno)]).
  2:{ destruct Hno. eapply InodeOps.room_le; [|exact Hr]. cbn. lia. }
  eexists b', _, _. split; [exact Hb'|]. split; [apply lookup_insert_eq|]. cbn [fl_cap fl_size fl_data]. rewrite C1, Z1. split; [done|]. split; [done|].
  rewrite Eb. rewrite firstn_all in Pa. exact (put_at_read _ _ _ _ _ Pa).
Qed.

Lemma nkfs_sb_get_obj_refines_witness : exists b b' pages',
  nkfs_sb_get_obj le ctx0 o1 65534 3 5 [page Init.Byte.x00] b = Done (inr (5, pages')) b' /\ window pages' 3 5 = replicate 5 Init.Byte.x09.
Proof.
  destruct holding_five as (b & F & fl & Hb & E1 & C1 & Z1 & Rd).
  destruct (nkfs_sb_get_obj_refines le ctx0 eq_refl 0 b F o1 fl 65534 3 5 [page Init.Byte.x00] Hb first_wf E1
    ltac:(rewrite C1; apply Nat.leb_le; vm_compute; reflexivity) (page_ok _)) as (r & b' & E & P & _); [lia|lia|lia|cbn; lia|lia|].
  unfold pages_read, file_read in P. rewrite Z1 in P. change (Z.to_nat (Z.min 5 (65539 - 65534))) with 5%nat in P. rewrite Rd in P.
  destruct P as (pages' & -> & Hf). exists b, b', pages'. split; [exact E|].
  exact (window_filled ctx0 eq_refl [page Init.Byte.x00] 3 (replicate 5 Init.Byte.x09) pages' (page_ok _) ltac:(lia) ltac:(cbn; lia) Hf).
Defined.

Lemma nkfs_sb_objects_round_trip_witness : exists b b1 b2 b3 pages',
  nkfs_sb_put_obj le ctx0 o1 0 7 5 [page Init.Byte.x09] b = Done 0 b1 /\ nkfs_sb_put_obj le ctx0 o2 65534 0 6 [page Init.Byte.x0a] b1 = Done 0 b2 /\
  nkfs_sb_get_obj le ctx0 o1 0 3 5 [page Init.Byte.x00] b2 = Done (inr (5, pages')) b3 /\ window pages' 3 5 = replicate 5 Init.Byte.x09.
Proof.
  destruct two_objects as (b & F & fl1 & fl2 & Hb & E1 & E2 & C1 & C2 & Z1 & Hr). exists b.
  change (replicate 5 Init.Byte.x09) with (window [page Init.Byte.x09] 7 5).
  apply (nkfs_sb_objects_round_trip le ctx0 eq_refl 0 b F o1 o2 fl1 fl2); try apply page_ok; try done; try lia;
    try apply first_wf; try apply second_wf.
  - rewrite C1. apply Nat.leb_le. vm_compute. reflexivity.
  - rewrite C2. apply Nat.leb_le. vm_compute. reflexivity.
  - eapply InodeOps.room_le; [|exact Hr]. cbn. lia.
Defined.

End ObjDemo.
