(* ===== verification/RouteDemo.v ===== *)
(** * A host at work

    A host that adds a neighbour, shakes hands with it, exchanges a heartbeat
    and is asked by another: the states at which the theorems on hosts are
    applied. *)

From Stdlib Require Import ZArith Lia.
From coqutil Require Import Byte.
From stdpp Require Import functions base list gmap relations.
From S2P Require Import Prelude XXHash Bytes StMonad Csum Mem CharHex ObjId NetPkt Route RouteSpec RouteOps RouteAsk RouteHost.
From S2P Require Import RouteHost Upages Sock Super Btree Balloc Inode SbList BtreeStore BtreeDemo SbDemo Net NetSpec Client.
From S2P Require Import ClientSpec NetClaims BlockTree InodeOps InodePages SbObjects SbListSpec SbListObjects ClientObjects ClientTool ClientToolSpec SbFormat Dev DevSpec Ctl CtlSpec.
Import XXHash Bytes StMonad Csum ObjId NetPkt Route RouteSpec RouteOps RouteCalls RouteAsk RouteHost RouteClaims.
Local Open Scope Z_scope.
Local Open Scope stm_scope.

Module RouteDemo.

Definition le : XXH_endianess := XXH_littleEndian.
Definition me : nkfs_obj_id := Id 1 0.
Definition you : nkfs_obj_id := Id 7 9.

Definition host0 : nkfs_host := Host (Id 0 0) me ∅ 0 [] ∅ 0 ∅ ∅ [] false 0 0 (fun _ => false) 0.

Lemma host0_created : nkfs_host_create false false (0, ObjId.obj_id_bytes me) (fun _ => false) = Some host0.
Proof. vm_compute. reflexivity. Qed.

Definition after {A} (m : M A) (h : nkfs_host) : nkfs_host :=
  match m h with
  | Done _ h' => h'
  | _ => h
  end.

Lemma after_inv c h : host_inv h -> orderly h c -> host_inv (after (do_call le c) h).
Proof. intros Hi Hc. unfold after. destruct (do_call le c h) as [[] h'| | |] eqn:E; [|done..]. by apply (call_keeps le c h Hi Hc tt). Qed.

(** The peer answers a handshake with its identity, a heartbeat with one neighbour. *)
Definition reply_of (un : list byte) : peer := Peer (inr (5, 80)) 0 (fun _ => 0) (inr (Pkt 0 0 0 0 un 0 0 0)).
Definition shake : peer := reply_of (pkt_union [replicate 40 Init.Byte.x00; id_bytes le you]).
Definition beats : peer := reply_of (pkt_union [replicate 64 Init.Byte.x00; store le 4 33; store le 4 80; replicate 120 Init.Byte.x00; store le 4 1]).

Lemma fair_beats : fair le beats.
Proof. intros reply [= <-]. vm_compute. discriminate. Qed.

Definition now0 : Z * Z := (1000, 1007).

(** One neighbour; queued to shake hands; shaken. *)
Definition host1 : nkfs_host := after (do_call le (Add 12 80)) host0.
Definition host2 : nkfs_host := after (do_call le (Work now0 shake)) (after (do_call le (Work now0 shake)) (after (do_call le (Timer (fun x => x) 600)) host1)).

Lemma host0_inv : host_inv host0.
Proof. exact (create_inv _ _ _ _ _ host0_created). Qed.

Lemma host1_inv : host_inv host1.
Proof. by apply after_inv; [exact host0_inv|]. Qed.

Lemma host2_inv : host_inv host2.
Proof. exact (after_inv (Work now0 shake) _ (after_inv (Work now0 shake) _ (after_inv (Timer (fun x => x) 600) _ host1_inv I) I) I). Qed.

Example host2_view : view host1 = [NeighInfo 12 80 1 (Id 0 0) 0 0] /\ view host2 = [NeighInfo 12 80 3 you 0 0].
Proof. vm_compute. done. Qed.

(** A neighbour of the peer is learned from a heartbeat; it has not shaken hands. *)
Definition host3 : nkfs_host := after (let* l := gets neigh_list in nkfs_neigh_do_heartbeat le (default 0%nat (head l)) now0 beats) host2.

Example host3_view : view host3 = [NeighInfo 12 80 7 you 1000 7; NeighInfo 33 80 1 (Id 0 0) 0 0].
Proof. vm_compute. done. Qed.

Definition p0 : nat := default 0%nat (head (neigh_list host1)).
Definition n1 : nkfs_neigh := default (new_neigh 0 0) (nobjs host1 !! p0).
Definition n2 : nkfs_neigh := default (new_neigh 0 0) (nobjs host2 !! p0).

Lemma n1_at : nobjs host1 !! p0 = Some n1.
Proof. vm_compute. reflexivity. Qed.

Lemma n2_at : nobjs host2 !! p0 = Some n2.
Proof. vm_compute. reflexivity. Qed.

(** ** The theorems at these hosts *)

(** A neighbour joins, the timer queues the handshakes, they are made; then an
    address nobody has is taken out, which frees the neighbour. *)
Lemma nkfs_host_invariant_witness : view host2 = [NeighInfo 12 80 3 you 0 0] /\ host_inv host2 /\
  (exists h', do_call le (Remove 99 80) host2 = Done tt h' /\ step le host2 h') /\ exists h', nkfs_host_release host2 = Done tt h' /\ empty_host h'.
Proof.
  split; [vm_compute; reflexivity|].
  assert (Hs : rtc (step le) host0 host2).
  { eapply rtc_l; [exists (Add 12 80); split; [exact I|vm_compute; reflexivity]|]. eapply rtc_l; [exists (Timer (fun x => x) 600); split; [exact I|vm_compute; reflexivity]|].
    eapply rtc_l; [exists (Work now0 shake); split; [exact I|vm_compute; reflexivity]|]. apply rtc_once. exists (Work now0 shake). split; [exact I|vm_compute; reflexivity]. }
  destruct (nkfs_host_invariant le false false (0, ObjId.obj_id_bytes me) (fun _ => false) host0 host2 host0_created Hs) as (W1 & W2 & W3).
  split; [exact W1|]. split; [|exact W3]. apply W2. split; [|exact I]. right. split; [vm_compute; reflexivity|].
  intros w Hw. exfalso. assert (E : wq host2 = []) by (vm_compute; reflexivity). rewrite E in Hw. by apply not_elem_of_nil in Hw.
Defined.

Lemma nkfs_route_neigh_add_appends_witness : exists r h', nkfs_route_neigh_add 14 80 host2 = Done r h' /\ host_inv h' /\
  r = join_err (rfail host2 (rtick host2)) 14 80 host2 /\ join_result r (Id 0 0) 1 14 80 host2 h'.
Proof. exact (nkfs_route_neigh_add_appends 14 80 host2 host2_inv). Defined.

Lemma nkfs_neigh_handshake_registers_witness : exists r h', nkfs_neigh_handshake (Id 0 0) you 14 80 host2 = Done r h' /\ host_inv h' /\
  match r with
  | inl err => err <> 0 /\ err = handshake_err (rfail2 host2) (Id 0 0) 14 80 host2 /\ view h' = view host2 /\ same_books host2 h'
  | inr i => handshake_err (rfail2 host2) (Id 0 0) 14 80 host2 = 0 /\ i = host_id host2 /\ view h' = view host2 ++ [NeighInfo 14 80 3 you 0 0]
  end.
Proof. exact (nkfs_neigh_handshake_registers (Id 0 0) you 14 80 host2 host2_inv). Defined.

Lemma nkfs_neigh_do_handshake_learns_witness : exists r h', nkfs_neigh_do_handshake le p0 shake host1 = Done r h' /\ host_inv h'.
Proof.
  destruct (nkfs_neigh_do_handshake_learns le p0 n1 shake host1 host1_inv n1_at) as (r & h' & E & Hi & _). exact (ex_intro _ r (ex_intro _ h' (conj E Hi))).
Defined.

Lemma nkfs_neigh_do_heartbeat_learns_witness : exists r h', nkfs_neigh_do_heartbeat le p0 now0 beats host2 = Done r h' /\ host_inv h' /\
  beat le p0 n2 now0 beats host2 r h'.
Proof. exact (nkfs_neigh_do_heartbeat_learns le p0 n2 now0 beats host2 host2_inv n2_at fair_beats). Defined.

(** A host with a neighbour that waits for its handshake, asked by the one it knows. *)
Definition host4 : nkfs_host := after (do_call le (Add 14 80)) host2.

Lemma host4_inv : host_inv host4.
Proof. by apply after_inv; [exact host2_inv|]. Qed.

Lemma host4_waits : ~ all_shaken host4.
Proof.
  intros Hs. assert (E : exists p n, nobjs host4 !! p = Some n /\ n_hid n = None).
  { exists (default 0%nat (last (neigh_list host4))). eexists. vm_compute. split; reflexivity. }
  destruct E as (p & n & Hp & Hn). destruct (Hs p n Hp) as [q Hq]. congruence.
Qed.

Lemma nkfs_neigh_heartbeat_answer_witness : nkfs_neigh_heartbeat (Id 0 0) you me NKFS_NET_PKT_MAX_NEIGHS host4 = Crash.
Proof.
  destruct (nkfs_neigh_heartbeat_answer (Id 0 0) you me host4 host4_inv) as [_ W]. apply W; [vm_compute; reflexivity|exact host4_waits|].
  vm_compute. repeat constructor.
Defined.

Lemma nkfs_host_remove_neigh_keeps_the_asked_witness : exists r h', nkfs_host_remove_neigh 14 80 host4 = Done r h' /\ nkfs_host_release h' = Crash.
Proof.
  destruct (nkfs_host_remove_neigh_keeps_the_asked 14 80 host4 host4_inv) as (r & h' & E & _ & _ & _ & _ & W).
  refine (ex_intro _ r (ex_intro _ h' (conj E (W _)))). vm_compute. eauto.
Defined.

End RouteDemo.

(** * Clients and hosts at work

    A client creates an object on a host, writes to it and reads it back over the
    network, down to the blocks of the device; and the links and hosts at which
    the theorems on requests are applied. *)

Import XXHash Bytes StMonad Csum ObjId NetPkt Net NetSpec Client ClientSpec NetClaims.

Module NetDemo.

Local Abbreviation le := XXH_littleEndian.
Local Abbreviation ctx0 := Super.Super.demo_ctx.
Local Abbreviation objects := (SbList.host (@Btree.Btree.state Balloc.Balloc.nkfs_sb) BtreeStore.store).

#[local] Instance demo_objects : ObjStore objects := sb_list_store (H := SbDemo.demo_store) le ctx0.

Definition mem0 : Upages.mem := Upages.Mem 0 0 (fun _ => false) 0 (fun _ => replicate 4096 Init.Byte.xaa) (fun _ n => n).
Definition sock0 : Sock.socket := Sock.MkSocket [] None [] (fun _ => None) (fun _ => 0) (fun t => (t * 7 mod 100)%nat) (fun _ => 3) 0.

Definition server_of (h : objects) (r : Route.nkfs_host) : Net.server objects :=
  Srv h r mem0 (fun t => (0, replicate 16 (byte_of_nat (5 + t)))) 0 0 true sock0.

Definition client_of (s : Net.server objects) : Client.client objects := Cl s 0 (fun _ => None) (fun _ => None) (fun t => (t * 11 mod 64)%nat) 0.

Definition client0 : Client.client objects := client_of (server_of SbDemo.host0 RouteDemo.host2).

(** Create, write three bytes, read ten, delete, read again. *)
Definition session : StMonad.M (Client.client objects) (list Z * list (Z + list byte)) :=
  let* r := nkfs_create_object le ctx0 ctx0 in
  match r with
  | inl err => ret ([err], [])
  | inr o =>
      let* a := nkfs_put_object le ctx0 ctx0 o 4 [Init.Byte.x11; Init.Byte.x12; Init.Byte.x13] in
      let* b := nkfs_get_object le ctx0 ctx0 o 4 10 in
      let* c := nkfs_delete_object le ctx0 ctx0 o in
      let* d := nkfs_get_object le ctx0 ctx0 o 4 10 in
      ret ([a; c], [b; d])
  end.

Example session_result : SbDemo.end_of (session client0) = Some ([0; 0], [inr [Init.Byte.x11; Init.Byte.x12; Init.Byte.x13]; inl (- ENOENT)]).
Proof. vm_compute. reflexivity. Qed.

(** ** The theorems at this link *)

Lemma client0_linked : linked client0.
Proof. split; [|reflexivity..]. split; [reflexivity| |reflexivity..]. split; [reflexivity|]. intros t. cbn. lia. Qed.

Lemma ctx0_ok : length (mem64 ctx0) = 32%nat.
Proof. reflexivity. Qed.

Definition o1 : nkfs_obj_id := Id 3 4.

Lemma o1_wf : id_wf o1.
Proof. split; cbn; lia. Qed.

Definition data3 : list byte := [Init.Byte.x11; Init.Byte.x12; Init.Byte.x13].

Lemma nkfs_remote_names_refine_witness : exists c', nkfs_echo le ctx0 ctx0 client0 = Done 0 c' /\ after (sv_st (cl_srv client0)) client0 c'.
Proof. exact (proj2 (proj2 (proj2 (nkfs_remote_names_refine le ctx0 ctx0 client0 ctx0_ok ctx0_ok client0_linked)))). Defined.

Lemma nkfs_get_object_of_nothing_hangs_witness : nkfs_get_object le ctx0 ctx0 o1 0 0 client0 = Hang.
Proof. exact (nkfs_get_object_of_nothing_hangs le ctx0 ctx0 o1 0 client0 ctx0_ok ctx0_ok client0_linked o1_wf ltac:(lia) eq_refl). Defined.

(** 360 zero bytes are not a packet. *)
Definition junk_server : Net.server objects := upto (replicate 360 Init.Byte.x00) [] (cl_srv client0).

Lemma nkfs_con_rejects_bad_packet_witness : exists s', con_turn le ctx0 junk_server = Done false s' /\ c_err s' = - EINVAL /\ to_read s' = [] /\
  sent s' = [] /\ sv_st s' = sv_st junk_server /\ sv_route s' = sv_route junk_server.
Proof.
  refine (nkfs_con_rejects_bad_packet le ctx0 (replicate 360 Init.Byte.x00) [] junk_server ctx0_ok _ eq_refl eq_refl _).
  - exact (healthy_wire _ _ _ _ (k_srv _ client0_linked)).
  - vm_compute. discriminate.
Defined.

(** The host of [RouteDemo.host1] asks the one of this link. *)
Definition server2 : Net.server objects := server_of SbDemo.host0 (RouteDemo.after (RouteClaims.do_call le (RouteClaims.Add 12 80)) RouteDemo.host0).

Lemma nkfs_hosts_shake_hands_witness : exists req b' a', con_turn le ctx0 (upto (pkt_bytes le (net_pkt_sign le ctx0 req)) [] server2) = Done true b' /\
  Route.nkfs_neigh_do_handshake le RouteDemo.p0 (dialled le 77 80 req b') RouteDemo.host1 = Done 0 a' /\ RouteSpec.host_inv a' /\ RouteSpec.host_inv (sv_route b').
Proof.
  assert (Hh : healthy server2) by (split; [reflexivity| |reflexivity..]; split; [reflexivity|]; intros t; cbn; lia).
  assert (W1 : id_wf (Route.net_id RouteDemo.host1)) by (vm_compute; repeat split; congruence).
  assert (W2 : id_wf (Route.host_id RouteDemo.host1)) by (vm_compute; repeat split; congruence).
  assert (Hs : Route.n_shaked RouteDemo.n1 = false) by (vm_compute; reflexivity).
  assert (Hf : forall t, Route.rfail RouteDemo.host1 t = false) by (intros t; vm_compute; reflexivity).
  assert (He : RouteCalls.handshake_err (RouteCalls.rfail2 (sv_route server2)) (Route.net_id RouteDemo.host1) 77 80 (sv_route server2) = 0) by (vm_compute; reflexivity).
  destruct (nkfs_hosts_shake_hands le ctx0 ctx0 RouteDemo.p0 RouteDemo.n1 77 80 RouteDemo.host1 server2 ctx0_ok ctx0_ok RouteDemo.host1_inv RouteDemo.host1_inv
    Hh eq_refl eq_refl W1 W2 W2 ltac:(lia) ltac:(lia) RouteDemo.n1_at Hs Hf He) as (req & b' & a' & E1 & E2 & I1 & I2 & _).
  exact (ex_intro _ req (ex_intro _ b' (ex_intro _ a' (conj E1 (conj E2 (conj I1 I2)))))).
Defined.

End NetDemo.

(** * An object from end to end

    A client of a host with one superblock: the theorems on objects over the
    network at this link. *)

Import InodePages SbObjects SbListSpec SbListObjects ClientObjects.

Module EndDemo.

Local Abbreviation le := XXH_littleEndian.
Local Abbreviation ctx0 := Super.Super.demo_ctx.
Local Abbreviation tree_obj := (@Btree.Btree.state Balloc.Balloc.nkfs_sb).
Local Abbreviation objects := (SbList.host tree_obj BtreeStore.store).
Local Abbreviation data3 := NetDemo.data3.

#[local] Instance demo_store : BlockTree.BlockTree tree_obj BtreeStore.store := SbDemo.ObjDemo.demo_store.

Definition one_disk (b : SbList.nkfs_sb tree_obj BtreeStore.store) : objects := SbList.Host {[0%nat := b]} [0%nat] (fun _ => false) 0.
Definition client1 (b : SbList.nkfs_sb tree_obj BtreeStore.store) : Client.client objects := NetDemo.client_of (NetDemo.server_of (one_disk b) RouteDemo.host2).

Lemma one_disk_at b q c : SbList.sbo (one_disk b) !! q = Some c -> c = b.
Proof. cbn. by intros [_ ->]%lookup_singleton_Some. Qed.

(** A host with an empty superblock, and room. *)
Lemma empty_host : exists b, serves le ctx0 0 (client1 b) (fun _ => ∅) /\ counted (one_disk b) /\ BlockTree.st_room (Inode.st (SbList.sb_in b)) 27.
Proof.
  destruct SbDemo.ObjDemo.empty_sb as (b & Hb & Hr & Hf & Hn). exists b. split; [|split; [|done]].
  - split; [split; [|reflexivity..]; split; [reflexivity| |reflexivity..]; split; [reflexivity|]; intros t; cbn; lia|]. split; [apply NoDup_singleton| |done].
    intros p Hp. apply list_elem_of_singleton in Hp as ->. exists b. split; [apply lookup_singleton_eq|]. split; [exact Hb|]. rewrite Hn. lia.
  - intros q c _ E. apply one_disk_at in E as ->. assert (Ef : free_of b = 27) by exact Hf. rewrite Ef. lia.
Qed.

Lemma nkfs_client_new_object_witness : exists b p c1 c2 c3 o, nkfs_create_object (H := host_store le ctx0) le ctx0 ctx0 (client1 b) = Done (inr o) c1 /\
  nkfs_put_object (H := host_store le ctx0) le ctx0 ctx0 o 0 data3 c1 = Done 0 c2 /\
  nkfs_get_object (H := host_store le ctx0) le ctx0 ctx0 o 0 3 c2 = Done (inr data3) c3 /\ p = 0%nat.
Proof.
  destruct empty_host as (b & Hs & Hc & Hr). exists b.
  destruct (nkfs_client_new_object le ctx0 ctx0 ctx0 eq_refl eq_refl eq_refl 0 (client1 b) (fun _ => ∅) data3 Hs Hc)
    as (p & c1 & c2 & c3 & fl & Hp & E1 & E2 & E3 & _).
  - done.
  - exact SbDemo.ObjDemo.first_wf.
  - intros q _. rewrite lookup_empty, map_size_empty. split; [done|]. cbn. lia.
  - cbn. unfold NKFS_NET_PKT_MAX_DSIZE. lia.
  - vm_compute. repeat constructor.
  - intros q b' _ E. apply one_disk_at in E as ->. eapply InodeOps.InodeOps.room_le; [|exact Hr]. vm_compute. repeat constructor.
  - exists p, c1, c2, c3. eexists. split; [exact E1|]. split; [exact E2|]. split; [exact E3|]. by apply list_elem_of_singleton in Hp.
Defined.

(** A client of a host with an empty object. *)
Lemma one_object : exists c FF o p roots, serves le ctx0 0 c FF /\ id_wf o /\ only_on le FF o p (disks c) /\
  FF p !! okey le o = Some (File 0 0 (fun _ => None) roots) /\
  forall b, SbList.sbo (disks c) !! p = Some b -> BlockTree.st_room (Inode.st (SbList.sb_in b)) 24.
Proof.
  destruct empty_host as (b & Hs & Hc & Hr).
  destruct (client_create le ctx0 ctx0 ctx0 eq_refl eq_refl eq_refl 0 (client1 b) (fun _ => ∅) Hs Hc) as (c & p & roots & _ & Hp & Ls & Hs1 & b0 & b1 & Eb & Eb1 & Rm).
  - done.
  - exact SbDemo.ObjDemo.first_wf.
  - intros q _. rewrite lookup_empty, map_size_empty. split; [done|]. cbn. lia.
  - intros q b' _ E. apply one_disk_at in E as ->. eapply InodeOps.InodeOps.room_le; [|exact Hr]. lia.
  - apply one_disk_at in Eb as ->. eexists c, _, _, p, roots. split; [exact Hs1|]. split; [exact SbDemo.ObjDemo.first_wf|]. split; [|split].
    + unfold only_on. rewrite Ls, fn_lookup_insert, lookup_insert_eq. split; [done|]. split; [done|]. intros q Hq Hqp.
      apply list_elem_of_singleton in Hq, Hp. congruence.
    + by rewrite fn_lookup_insert, lookup_insert_eq.
    + intros b' E. replace b' with b1 by congruence. by apply Rm.
Qed.

(** Three bytes at 65534, across the border of two blocks. *)
Lemma nkfs_client_put_get_witness : exists c o c1 c2, nkfs_put_object (H := host_store le ctx0) le ctx0 ctx0 o 65534 data3 c = Done 0 c1 /\
  nkfs_get_object (H := host_store le ctx0) le ctx0 ctx0 o 65534 3 c1 = Done (inr data3) c2.
Proof.
  destruct one_object as (c & FF & o & p & roots & Hs & Wo & Ho & Ef & Hr). exists c, o.
  destruct (nkfs_client_put_get le ctx0 ctx0 ctx0 eq_refl eq_refl eq_refl 0 c FF o p (File 0 0 (fun _ => None) roots) 65534 data3 Hs Wo Ho Ef)
    as (c1 & c2 & fl & E1 & E2 & _); [lia|cbn; unfold NKFS_NET_PKT_MAX_DSIZE; lia|cbn; lia|apply Nat.leb_le; vm_compute; reflexivity| |by exists c1, c2].
  intros b E. eapply InodeOps.InodeOps.room_le; [|exact (Hr b E)]. apply Nat.leb_le. vm_compute. reflexivity.
Defined.

(** The same bytes put into the object: the host's call succeeds, and so does the
    client's. *)
Lemma nkfs_remote_io_refines_witness : exists c o pgs r st' c', holds data3 pgs /\
  SbList.nkfs_sb_list_put_obj le ctx0 o 65534 0 3 pgs (disks c) = Done r st' /\ code r = 0 /\
  nkfs_put_object (H := host_store le ctx0) le ctx0 ctx0 o 65534 data3 c = Done 0 c' /\ after st' c c'.
Proof.
  destruct one_object as (c & FF & o & p & roots & Hs & Wo & Ho & Ef & Hr). exists c, o.
  assert (P : forall pgs, holds data3 pgs -> exists r st', SbList.nkfs_sb_list_put_obj le ctx0 o 65534 0 3 pgs (disks c) = Done r st' /\ code r = 0).
  { intros pgs Hp. destruct (holds_pages data3 pgs Hp) as (P & L & Hl). change (length pgs = 1%nat) in L.
    destruct (proj1 (spec_done _ _ _) (spec_list_put le ctx0 eq_refl 0 FF o p (disks c) (File 0 0 (fun _ => None) roots) 65534 0 3 pgs (Nat.le_0_l _) (proj2 Hs) Ho Ef P
      ltac:(lia) ltac:(lia) ltac:(lia) Hl ltac:(lia) ltac:(rewrite L; apply Nat.leb_le; vm_compute; reflexivity)))
      as (r & h' & E & F' & [_ _ (b & b' & Eb & _ & f' & k & _ & _ & _ & _ & [(Er & _)|(_ & _ & Hno)])]); [by exists r, h'|].
    destruct Hno. rewrite L. eapply InodeOps.InodeOps.room_le; [|exact (Hr b Eb)]. lia. }
  destruct (proj1 (nkfs_remote_io_refines (H := host_store le ctx0) le ctx0 ctx0 o 65534 c eq_refl eq_refl (proj1 Hs) Wo ltac:(lia)) data3)
    as (pgs & r & st' & c' & Hp & E & E' & A).
  - cbn. unfold NKFS_NET_PKT_MAX_DSIZE. lia.
  - intros pgs Hp. destruct (P pgs Hp) as (r & st' & E & Er). exists r, st'. split; [exact E|]. rewrite Er. unfold is_int. lia.
  - destruct (P pgs Hp) as (r' & st'' & E2 & Er). change (SbList.nkfs_sb_list_put_obj le ctx0 o 65534 0 3 pgs (disks c) = Done r st') in E.
    rewrite E in E2. injection E2 as <- <-. rewrite Er in E'. exists pgs, r, st', c'. split_and!; [exact Hp|exact E|exact Er|exact E'|exact A].
Defined.

(** ** The client program *)

Import Mem ClientTool ClientToolSpec.

Definition calm_kernel (werr : nat -> option Z) : sys :=
  Sys (fun _ => None) (fun _ => None) (fun t => (Z.to_nat 65536 + t)%nat) werr (fun t => (t mod 2)%nat) (fun _ => false) (fun _ _ _ => false) (fun _ => None) (fun _ => None)
    (fun t => (t * 3 mod 50)%nat) (fun _ => NetDemo.sock0).

Lemma calm_kernel_ok werr : calm_sys (calm_kernel werr).
Proof.
  split; try done.
  intros t. split; [done|]. cbn [calm_kernel read_piece]. change (Z.to_nat buf_size) with (Z.to_nat 65536). lia.
Qed.

Definition any_addr (s : list byte) : option Z := Some 0x7f000001.
Definition src : list byte := [Init.Byte.x61].
Definition dst : list byte := [Init.Byte.x62].

Definition world1 (b : SbList.nkfs_sb tree_obj BtreeStore.store) : ClientTool.world objects :=
  World (NetDemo.client_of (set_closed (NetDemo.server_of (one_disk b) RouteDemo.host2)))
    (fun p => if bool_decide (p = src) then Some data3 else None) (Heap 0 ∅ (fun _ => false)) [] 0.

Lemma world1_idle : exists b, idle le ctx0 0 (world1 b) (fun _ => ∅) /\ can_take le (world1 b) (fun _ => ∅) 3 SbDemo.ObjDemo.o1.
Proof.
  destruct empty_host as (b & [_ Hh] & Hc & Hr). exists b. split; [by split|]. split; [by split; [|exact SbDemo.ObjDemo.first_wf]|by split| | |].
  - intros q _. rewrite lookup_empty, map_size_empty. split; [done|]. cbn. lia.
  - split; [lia|]. vm_compute. repeat constructor.
  - intros q b' _ E. apply one_disk_at in E as ->. eapply InodeOps.InodeOps.room_le; [|exact Hr]. vm_compute. repeat constructor.
Qed.

Lemma roomy1 b : roomy (w_heap (world1 b)).
Proof. split; [|done]. intros q Hq. by apply elem_of_empty in Hq. Qed.

Lemma nkfs_client_file_round_trip_witness : exists w w1 w2 hex,
  do_cmd (H := tool_store le ctx0) le ctx0 ctx0 (calm_kernel (fun _ => None)) any_addr Init.Byte.x00 4 PUT [] 80 (Some src) None w = Done 0 w1 /\
  w_out w1 = [PutId hex] /\
  do_cmd (H := tool_store le ctx0) le ctx0 ctx0 (calm_kernel (fun _ => None)) any_addr Init.Byte.x00 4 GET [] 80 (Some dst) (Some hex) w1 = Done 0 w2 /\
  w_fs w2 dst = Some data3.
Proof.
  destruct world1_idle as (b & Hi & Hc). exists (world1 b).
  destruct (nkfs_client_file_round_trip le ctx0 ctx0 ctx0 eq_refl eq_refl eq_refl 0 (calm_kernel (fun _ => None)) any_addr Init.Byte.x00 (calm_kernel_ok _)
    [] 80 0x7f000001 eq_refl 4 (world1 b) (fun _ => ∅) src dst data3 SbDemo.ObjDemo.o1 (fun _ => eq_refl) Hi (roomy1 b) eq_refl eq_refl Hc ltac:(cbn; lia))
    as (w1 & w2 & hex & p & fl & E1 & P1 & E2 & F2 & _). exists w1, w2, hex. split; [exact E1|]. split; [exact P1|]. split; [exact E2|exact F2].
Defined.

Lemma do_file_get_ignores_write_error_witness : exists w o w', 
  do_file_get (H := tool_store le ctx0) le ctx0 ctx0 (calm_kernel (fun _ => Some 28)) any_addr 9 [] 80 o dst w = Done 0 w' /\ w_fs w' dst = Some [].
Proof.
  destruct world1_idle as (b & Hi & Hc).
  destruct (proj1 (spec_done _ _ _) (spec_do_put le ctx0 ctx0 ctx0 eq_refl eq_refl eq_refl 0 (calm_kernel (fun _ => None)) any_addr Init.Byte.x00 (calm_kernel_ok _)
    [] 80 0x7f000001 eq_refl (world1 b) (fun _ => ∅) src data3 SbDemo.ObjDemo.o1 Hi (roomy1 b) eq_refl Hc)) as (r & w & _ & _ & F & _ & O & p & fl & _ & I & Hd).
  exists w, SbDemo.ObjDemo.o1.
  refine (do_file_get_ignores_write_error le ctx0 ctx0 ctx0 eq_refl eq_refl eq_refl 0 (calm_kernel (fun _ => Some 28)) any_addr (calm_kernel_ok _)
    [] 80 0x7f000001 eq_refl 9 w (fun _ => ∅) SbDemo.ObjDemo.o1 p fl dst data3 28 (fun _ => eq_refl) I _ SbDemo.ObjDemo.first_wf Hd _ ltac:(cbn; lia) ltac:(lia)).
  - exact (owns_roomy _ _ _ (roomy1 b) O).
  - rewrite F. reflexivity.
Defined.

End EndDemo.

(** * The control program at work

    A module that is loaded, and a device added to it through the control
    device. *)

Import Ctl CtlSpec.

Module CtlDemo.

Local Abbreviation le := XXH_littleEndian.
Local Abbreviation ctx0 := Super.Super.demo_ctx.
Local Abbreviation tree_obj := (@Btree.Btree.state Balloc.Balloc.nkfs_sb).
Local Abbreviation path := SbDemo.DevDemo.path.

#[local] Instance demo_store : BlockTree.BlockTree tree_obj BtreeStore.store := SbDemo.DevDemo.demo_store.
#[local] Instance demo_image : SbFormat.ImageStore tree_obj BtreeStore.store := SbDemo.DevDemo.demo_image.

Definition kernel0 : kenv :=
  Kenv (fun _ => false) (fun _ => false) (fun _ => false) (fun _ => None) (fun _ => false) (fun _ => SbDemo.DevDemo.rnd Init.Byte.x01) (fun _ => false) (fun _ => false)
    (fun _ _ => 0) (fun _ => false) (fun _ => 0) (fun _ => 0) (fun _ => (false, false)) (fun _ => false).

Lemma kernel0_calm : calm_kernel kernel0.
Proof. by split. Qed.

Definition unloaded : machine tree_obj BtreeStore.store := Machine SbDemo.DevDemo.boot0 [] None false false 0 0.
Definition loaded : machine tree_obj BtreeStore.store := Machine SbDemo.DevDemo.boot0 [] (Some RouteDemo.host2) true true 0 0.

Lemma unloaded_down : down unloaded.
Proof. by split. Qed.

Lemma name1_ok : name_ok SbDemo.DevDemo.name1.
Proof. split; [repeat constructor; by vm_compute|]. vm_compute. repeat constructor. Qed.

Lemma nkfs_ctl_calls_refine_witness : exists d, SbDemo.DevDemo.added0 = Done 0 d /\
  spec (Ctl.nkfs_dev_add le ctx0 path kernel0 SbDemo.DevDemo.name1 1) loaded (fun r' m' => r' = 0 /\ became d [] (Some RouteDemo.host2) loaded m').
Proof.
  destruct (SbDemo.DevDemo.end_done SbDemo.DevDemo.added0 0 SbDemo.DevDemo.added0_done) as [d E]. exists d. split; [exact E|].
  refine (proj1 (nkfs_ctl_calls_refine le ctx0 path kernel0 kernel0_calm loaded eq_refl) SbDemo.DevDemo.name1 1 0 d name1_ok _ _ E); split; lia.
Defined.

Lemma nkfs_module_all_or_nothing_witness : exists r m', nkfs_init le ctx0 kernel0 unloaded = Done r m' /\
  ((r = 0 /\ up unloaded m') \/ (r <> 0 /\ down m' /\ m_dev m' = m_dev unloaded)).
Proof. exact (proj1 (nkfs_module_all_or_nothing le ctx0 kernel0 unloaded unloaded_down)). Defined.

Lemma nkfs_neigh_add_too_early_crashes_witness : exists m1,
  (let* _ := dio_init kernel0 in misc_register kernel0) unloaded = Done 0 m1 /\ Ctl.nkfs_neigh_add le ctx0 path kernel0 7 80 m1 = Crash.
Proof.
  apply (nkfs_neigh_add_too_early_crashes le ctx0 kernel0 path 7 80 unloaded kernel0_calm unloaded_down); [done|lia|lia].
Defined.

End CtlDemo.
