(* ===== verification/CheckerDemo.v ===== *)
(** * The checkers at work

    A kernel that gives out a block per page of addresses, a client that allocates
    and frees, and the states at which the theorems on the checkers are applied. *)

From Stdlib Require Import ZArith Lia Permutation.
From coqutil Require Import Byte.
From stdpp Require Import base list gmap.
From S2P Require Import Prelude XXHash Bytes StMonad MallocChecker MallocCheckerSpec MallocCheckerCalls PageChecker.
Import XXHash Bytes StMonad MallocChecker MallocCheckerSpec MallocCheckerClaims PageChecker PageCheckerClaims.
Local Open Scope Z_scope.
Local Open Scope stm_scope.

Module CheckerDemo.

(** A stand-in for the kernel's [crc32_le]. *)
Definition crc0 (l : list byte) : Z := XXHash.load XXH_littleEndian l mod 2 ^ 32.

Abbreviation le := XXH_littleEndian.

Definition kernel0 : state :=
  St ∅ ∅ [] [] 0 0 (fun t => Some (Z.of_nat t * 4096 + 4096)) (fun _ => false) (fun _ => byte.of_Z 0x5A) (fun t => Z.of_nat t) 0.

Definition after {S A} (m : StMonad.M S A) (s : S) : S := match m s with Done _ s' => s' | _ => s end.

Definition started : state := after (malloc_checker_init 0) kernel0.
Definition given : state := after (do_call le crc0 (Malloc 5 0)) started.

(** Where the client's block lies. *)
Definition p0 : Z := 8200.

(** The client takes two blocks, writes to one and frees the other; the thread
    runs once; at the end the first is reported, and the other was lost. *)
Example checker_session :
  match (let* a := malloc_checker_kmalloc le 5 0 in
         let* b := malloc_checker_kmalloc le 3 0 in
         match a, b with
         | Some a, Some b =>
             do* write_mem (a - 8) (a + 1) [byte.of_Z 1; byte.of_Z 2] in
             let* d := read_mem (a - 8) a 5 in
             do* malloc_checker_kfree le crc0 b in
             do* malloc_checker_delay_turn le crc0 in
             let* leaks := malloc_checker_deinit le crc0 in
             ret (a, b, map byte.unsigned d, leaks)
         | _, _ => crash
         end) started with
  | Done (a, b, d, leaks) s => (a =? p0) && bool_decide (d = [0x5A; 1; 2; 0x5A; 0x5A]) && bool_decide (leaks = [a]) && bool_decide (map fst (map_to_list (blocks s)) = [b - 8])
  | _ => false
  end = true.
Proof. vm_compute. reflexivity. Qed.

Lemma started_heap : heap_of le crc0 started ∅ [].
Proof. pose proof (init_heap le crc0 kernel0 0 eq_refl eq_refl) as H. apply spec_done in H as (r & s & E & _ & H). unfold started, after. by rewrite E. Qed.

Lemma given_done : match do_call le crc0 (Malloc 5 0) started with Done (Some p) _ => p =? p0 | _ => false end = true.
Proof. vm_compute. reflexivity. Qed.

Lemma given_heap : exists d, length d = 5%nat /\ heap_of le crc0 given {[p0 := d]} [].
Proof.
  pose proof (step_malloc le crc0 started ∅ [] 5 0 started_heap ltac:(unfold allowed; lia)) as H. apply spec_done in H as (r & s & E & m' & H & Hs).
  pose proof given_done as Hd. unfold given, after. rewrite E in *. destruct r as [p|]; [|done]. apply Z.eqb_eq in Hd as ->.
  destruct Hs as (d & _ & -> & Hl & _). exists d. split; [lia|done].
Qed.

Lemma malloc_checker_refines_heap_witness :
  spec (malloc_checker_init 0) kernel0 (fun r s' => r = 0 /\ heap_of le crc0 s' ∅ []) /\
  spec (do_call le crc0 (Malloc 5 0)) started (fun r s' => exists m' X', heap_of le crc0 s' m' X' /\ heap_step ∅ (Malloc 5 0) r m').
Proof.
  split.
  - apply (proj1 (malloc_checker_refines_heap le crc0 kernel0 ∅ [] Turn 0)); reflexivity.
  - apply (proj2 (malloc_checker_refines_heap le crc0 started ∅ [] (Malloc 5 0) 0)); [apply started_heap|unfold allowed; lia].
Defined.

Lemma malloc_checker_deinit_reports_leaks_witness :
  exists d : list byte, length d = 5%nat /\ spec (malloc_checker_deinit le crc0) given (fun leaks s' => leaks ≡ₚ [p0] /\ blocks s' = ∅).
Proof.
  destruct given_heap as (d & Hl & H). exists d. split; [exact Hl|]. eapply spec_mono; [exact (malloc_checker_deinit_reports_leaks le crc0 given _ [] H)|].
  intros leaks s' (H1 & _ & H2). rewrite map_to_list_singleton in H1. split; [exact H1|apply H2; reflexivity].
Defined.

Lemma given_bucket : (S (bucket p0) <? MALLOC_CHECKER_NR_LISTS)%nat = true.
Proof. vm_compute. reflexivity. Qed.

(** The same state with a clock that stands still. *)
Definition kernel1 : state :=
  St ∅ ∅ [] [] 0 0 (fun t => Some (Z.of_nat t * 4096 + 4096)) (fun _ => false) (fun _ => byte.of_Z 0x5A) (fun _ => 0) 0.

Definition given1 : state := after (do_call le crc0 (Malloc 5 0)) (after (malloc_checker_init 0) kernel1).

Lemma given1_heap : exists d, heap_of le crc0 given1 {[p0 := d]} [].
Proof.
  assert (H0 : heap_of le crc0 (after (malloc_checker_init 0) kernel1) ∅ []).
  { pose proof (init_heap le crc0 kernel1 0 eq_refl eq_refl) as H. apply spec_done in H as (r & s & E & _ & H). unfold after. by rewrite E. }
  pose proof (step_malloc le crc0 _ ∅ [] 5 0 H0 ltac:(unfold allowed; lia)) as H. apply spec_done in H as (r & s & E & m' & H & Hs).
  assert (Hd : match do_call le crc0 (Malloc 5 0) (after (malloc_checker_init 0) kernel1) with Done (Some p) _ => p =? p0 | _ => false end = true) by (vm_compute; reflexivity).
  unfold given1, after at 1. rewrite E in *. destruct r as [p|]; [|done]. apply Z.eqb_eq in Hd as ->.
  destruct Hs as (d & _ & -> & Hl & _). exists d. done.
Qed.

Lemma given1_clock : ktime given1 = fun _ => 0.
Proof. vm_compute. reflexivity. Qed.

Lemma malloc_checker_delay_turn_loses_witness :
  spec (do* malloc_checker_kfree le crc0 p0 in do* malloc_checker_delay_turn le crc0 in malloc_checker_deinit le crc0) given1
    (fun _ s' => is_Some (blocks s' !! (p0 - 8))).
Proof.
  destruct given1_heap as (d & H). apply (malloc_checker_delay_turn_loses le crc0 given1 {[p0 := d]} [] p0 d H).
  - apply lookup_singleton_eq.
  - apply Nat.ltb_lt, given_bucket.
  - intros t t'. rewrite given1_clock. lia.
Defined.

Definition zeros : list byte := replicate 21 (byte.of_Z 0).

Lemma zeros_bad : ~ intact le 5 zeros.
Proof. intros [H _]. vm_compute in H. discriminate H. Qed.

Lemma malloc_checker_finds_damage_witness :
  malloc_checker_kfree le crc0 p0 (with_block (p0 - 8) zeros given) = Crash /\
  spec (malloc_checker_kfree le crc0 p0) given (fun _ s' => malloc_checker_delay_turn le crc0 (with_block (p0 - 8) zeros s') = Crash).
Proof.
  destruct given_heap as (d & Hl & H).
  destruct (malloc_checker_finds_damage le crc0 given {[p0 := d]} [] p0 d zeros H) as [H1 H2].
  - apply lookup_singleton_eq.
  - rewrite Hl. reflexivity.
  - rewrite Hl in H1, H2. split; [apply H1, zeros_bad|]. apply H2. split; [reflexivity|]. intros [Hi _]. exact (zeros_bad Hi).
Defined.

(** ** Pages *)

Definition pkernel0 : pstate := PSt started ∅ ∅ [] 0 0 (fun t => Some (Z.of_nat t * 64 + 64)) (fun _ => byte.of_Z 0x5A) 0.
Definition pstarted : pstate := after page_checker_init pkernel0.

(** Two pages are taken and one is given back. *)
Example page_session :
  match (let* a := page_checker_alloc_page le 0 in
         let* b := page_checker_alloc_page le 0 in
         match a, b with
         | Some a, Some b => do* page_checker_free_page le crc0 a in let* r := crt_exit le crc0 in ret (a, b, r)
         | _, _ => crash
         end) pstarted with
  | Done (a, b, (ps, bs)) s => bool_decide (a <> b) && bool_decide (ps = [b]) && bool_decide (bs = []) && bool_decide (pages s = ∅) && bool_decide (map_to_list (blocks (mc s)) = [])
  | _ => false
  end = true.
Proof. vm_compute. reflexivity. Qed.

Lemma pstarted_pages : pages_of le crc0 pstarted ∅ [].
Proof.
  pose proof (page_init_ok le crc0 pkernel0 ∅ [] eq_refl eq_refl started_heap) as H. apply spec_done in H as (r & s & E & _ & H & _).
  unfold pstarted, after. by rewrite E.
Qed.

Lemma page_checker_keeps_pages_witness :
  spec page_checker_init pkernel0 (fun r s' => r = 0 /\ pages_of le crc0 s' ∅ [] /\ pages s' = ∅) /\
  spec (page_checker_alloc_page le 0) pstarted (fun r s' => exists m', pages_of le crc0 s' m' [] /\
    match r with
    | None => pages s' = pages pstarted /\ m' = ∅
    | Some p => exists d q b, pages pstarted !! p = None /\ pages s' = <[p := (1, d)]> (pages pstarted) /\ (∅ : gmap Z (list byte)) !! q = None /\ m' = <[q := b]> ∅
    end).
Proof.
  split.
  - apply (proj1 (page_checker_keeps_pages le crc0 pkernel0 ∅ [] 0 0)); [reflexivity|reflexivity|apply started_heap].
  - exact (proj1 (proj2 (page_checker_keeps_pages le crc0 pstarted ∅ [] 0 0) pstarted_pages)).
Defined.

End CheckerDemo.
